(* ===== verification/_CoqProject ===== *)
-Q . S2P
Prelude.v
Riscv.v
Cutils.v
Iomem.v
Hostmem.v
Bytes.v
CpuState.v
CpuWf.v
Csr.v
Trap.v
Mmu.v
PageTable.v
Tlb.v
Alu.v
Exec.v
ExecWf.v
Interp.v
Uart.v
Virtio.v
VirtioDevs.v
VirtioQueue.v
P9.v
VirtioRegs.v
VirtioEnds.v
VirtioSlot.v
Fdt.v
Machine.v
Run.v
Cosim.v
Softfp.v
SoftRound.v
SoftArith.v
SoftSqrt.v
SoftWide.v
SoftCmp.v
SoftFma.v
SoftTotal.v
SoftInst.v
BootRom.v
BootExec.v
FdtSpec.v
Elf.v
Boot.v
Handover.v
Json.v
JsonSpec.v
Config.v
ConfigSpec.v
VirtioSpec.v
VirtioRequest.v
BlockFile.v
BlockSpec.v
QueueSpec.v
P9Spec.v
VirtioBoard.v
Pci.v
PciSpec.v
LiveCache.v
LiveCacheSpec.v
Lru.v
LlcSpec.v
FsDisk.v
FsDiskSpec.v
FsListing.v
Startup.v
StartupSpec.v
