(* ===== verification/Prelude.v ===== *)
(** * Dromajo: a verification library

    Dromajo (src/cva6/corev_apu/tb/dromajo/src) is the RV64GC emulator that the
    CVA6 testbench co-simulates against: the reference model of the processor.
    This library translates its code into executable definitions and proves
    what makes a reference model trustworthy.

    ** The program and the files

    - [Prelude]: machine integers, the result type [res] (a value, or the
      reason the program stopped: an assertion, [exit], undefined behaviour, a
      walk over a guest's descriptor chain that does not end, or fuel), the state monad [SM] over it, arrays, shared lemmas and tactics.
    - [Riscv], [Cutils], [Hostmem]: the constants of riscv.h, the byte-order,
      bit and buffer helpers of cutils, and the emulator's own memory.
    - [Iomem]: the physical memory map (iomem.cpp): registration, lookup,
      remapping, dirty bitmaps.
    - [CpuState], [CpuWf]: the hart (RISCVCPUState of riscv_cpu.h), its
      initialisation and accessors, and its type invariant [cpu_wf].  The
      interfaces of the hart to the rest of the machine are the classes
      [DeviceOps] (devices) and [MachineHooks] (the CSR table hooks).
    - [Csr], [Trap]: csr_read/csr_write, PMP decoding, trap entry and return,
      interrupt selection (riscv_cpu.cpp).
    - [Mmu], [PageTable], [Tlb]: riscv_cpu_get_phys_addr, loads, stores and
      fetch with the software TLBs; the architecture's translation relation;
      coherence of the TLBs.
    - [Alu], [Exec], [ExecWf], [Interp]: the instruction set of
      dromajo_template.h and dromajo_fp_template.h at XLEN 64, its
      preservation of the invariants, and the cycle loop riscv_cpu_interp.
      Floating point enters through the class [SoftFp].
    - [Softfp]: softfp_template.h and softfp_template_icvt.h at any format
      with [w] exponent and [p] fraction bits; [SoftRound] is the exact
      reference rounding; [SoftArith], [SoftSqrt], [SoftFma], [SoftCmp],
      [SoftTotal] prove the operations against it; [SoftWide] the helpers for
      hosts without a double-width integer; [SoftInst] makes [Softfp] the
      instance of [SoftFp] and carries the result to the instructions.
    - [Uart], [Machine]: the serial ports, the console, CLINT and PLIC
      (dw_apb_uart.cpp, riscv_machine.cpp) and the windows of the virtio
      devices behind [DeviceOps]; [board_laws] and [board_frame] discharge
      what the theorems about harts ask of devices.  The class [VirtioEnv]
      has what is open: the content of uninitialised storage and the turns
      granted to a walk over a descriptor chain.
    - [Run]: virt_machine_run and the main loop of dromajo.cpp.
    - [Cosim]: dromajo_cosim.cpp, the step against the design under test.
    - [BootRom], [BootExec]: the checkpoint boot ROM generator of
      riscv_cpu.cpp, and the execution of what it generates.
    - [Json], [JsonSpec]: the configuration language of json.cpp, its printer
      and the round trip.
    - [Elf]: the checks and the symbol lookup of elf64.cpp.
    - [Fdt], [FdtSpec]: the flattened device tree writer of riscv_machine.cpp,
      a decoder written from the format, and the tree of the machine.
    - [Boot], [Handover]: copy_kernel, which loads the images and writes the
      boot code and the device tree, and the execution of the boot code.
    - [Config], [ConfigSpec]: VirtMachineParams, the configuration file and
      the command line (machine.cpp, dromajo_main.cpp).
    - [Startup], [StartupSpec]: virt_machine_init, from the parameters to a
      machine that runs.
    - [Virtio]: the register windows and the virtqueues of virtio.cpp, over the
      class [VirtioHost] (guest memory and the interrupt line); [VirtioDevs]:
      the block, network, console and input devices; [BlockFile]: the image
      file of dromajo_main.cpp behind the class [BlockDevice]; [P9]: the 9p
      device over the class [FSDevice].
    - [VirtioQueue], [VirtioSpec], [VirtioRequest], [QueueSpec]: descriptor
      chains as lists of buffers, and what copying, completing and notifying do
      to them; [BlockSpec], [P9Spec]: requests of the disk and of 9p from the
      doorbell to the used ring; [VirtioRegs]: the register file under any
      driver; [VirtioEnds]: every access ends, but for walks over a chain;
      [VirtioSlot]: a device of any class as the machine holds it;
      [VirtioBoard]: a disk on the machine of [Machine].
    - [Pci], [PciSpec]: the bus, the host bridge and interrupt routing (pci.cpp)
      and the virtio devices on it.
    - [FsDisk]: fs_disk.cpp and the path walk of fs.cpp over the system calls
      (the class [HostFS]), an instance of [FSDevice]; [FsDiskSpec], [FsListing]:
      handles, paths, and directory listings.
    - [LiveCache]: LiveCacheCore.h and LiveCache.cpp; [LiveCacheSpec]: its sort;
      [Lru]: the reference cache, defined on the history of accesses;
      [LlcSpec]: the refinement and the dump.

    The parts fit together as in the program: [Config] reads parameters with
    [Json]; [Startup] registers the ranges of [Iomem] for the devices of
    [Machine], creates the harts of [CpuState] and calls [Boot], which uses
    [Elf] and [Fdt]; [Run] then executes the harts with [Interp], which fetches
    and executes through [Exec], [Mmu] and [Softfp], or [Cosim] steps them
    against the design.  A store to a virtio window reaches [Virtio], which
    reads the queues from the RAM of [Iomem], calls the device, and raises a
    line of the PLIC of [Machine]; a 9p request calls [FsDisk].

    ** State and operations

    A C function on a struct is a function on the record of the same name; a
    function that can fail or stop is a computation in [SM]; a loop without a
    syntactic bound takes fuel.  Integers are [Z] with their conversions written
    out ([u32], [s64], ...); host memory is a map from host addresses to bytes,
    so that aliasing between TLB entries, RAM and page tables is explicit.

    ** What the theorems show

    - Memory: the page-table walk refines the architecture's relation; the
      TLBs are transparent and the operations that fill or invalidate them keep
      them coherent (but for traps in M mode under MPRV); stores are confined
      to their bytes.
    - Control: traps, returns and interrupts do what the ISA says; the
      interpreter ends, on the whole machine with its devices, unless the
      host program stops or a device walks over a cyclic chain; it keeps the
      type invariant and counts instructions.
    - Floating point: add, sub, mul, div, sqrt, fused multiply-add and all
      conversions are correctly rounded with their flags, in all rounding modes.
    - CSRs: write/read round trips, confinement of the supervisor views.
    - Machine: timer and interrupt controllers, serial input, the end of the
      main loop, soundness of co-simulation, restoration of checkpoints.
    - Start: parsing a printed configuration gives it back and parsing always
      ends; an accepted configuration describes the parameters; the device
      tree decodes to the machine; the machine that is built answers each
      window its device tree announces, has its images loaded and satisfies
      the execution invariant; the boot code hands over to the firmware; with
      an instruction limit the program ends, with the same exceptions.
    - Devices: transfers through a descriptor chain move exactly the addressed
      bytes; what a driver writes to the disk it reads back, and its interrupt
      arrives; the registers are safe under any driver; every 9p request
      that is not left for later is answered once, and its identifiers form a finite map; messages and
      directory listings decode to what was encoded; no host handle leaks;
      configuration cycles of PCI are safe and shared interrupts are the or of
      the pins; the cache is least-recently-used.  A chain that is cyclic is
      proved never to end.

    ** Fuel and bounds

    The interpreter's fuel is its cycle count; the main loop with limit [N]
    gets [N + 1] rounds; Newton's iteration gets [F_SIZE + 2] steps (each step at
    least halves the error); all are proved to be enough.  The formats satisfy
    [5 <= w <= p], which covers binary32, binary64 and binary128.
    The JSON parser gets [3 n + 4] units for [n] bytes, the loops over the
    devices of a configuration one turn more than their tables have entries,
    the boot code twelve instructions, alignment to 8 bytes nine steps.
    The walks over a descriptor chain get [turns] steps, a number left open in
    [VirtioHost]: as many as the chain has descriptors are enough, and for a
    cyclic chain no number is; a walk that uses them up stops with [Endless],
    which is kept apart from [OutOfFuel], the fuel of the model itself; a notification gets 65536 turns, the range of its 16-bit index; the merge
    sort as many levels as lines, a directory listing as many entries as bytes
    asked for, the logarithm of the cache 32 steps.

    ** Not modelled

    The 32- and 128-bit instances of the interpreter template; getopt_long, the
    host network, terminal modes, tracing and debugging output; freeing memory;
    the code under LIVECACHE in riscv_cpu.cpp, which feeds the cache model and
    writes warm-up code to the boot ROM (not compiled).  The C++ below
    src/cva6/core/example_tb/verilator_work is what Verilator generates from the
    SystemVerilog of the core: a translation of hardware whose source is the
    RTL, and not modelled. *)

(** * Prelude *)

From stdpp Require Import base list gmap.
From Stdlib Require Import ZArith Lia Bool.

#[global] Open Scope Z_scope.

(** ** Machine integers

    A C integer of width [w] is a [Z]; the unsigned types are kept in
    [0, 2^w), the signed ones in [-2^(w-1), 2^(w-1)).  A C conversion to an
    unsigned type is [wrapu], a conversion to a signed type is [wraps]. *)

Definition wrapu (w x : Z) : Z := x mod 2 ^ w.
Definition wraps (w x : Z) : Z := (x + 2 ^ (w - 1)) mod 2 ^ w - 2 ^ (w - 1).

Definition u8 (x : Z) : Z := wrapu 8 x.
Definition u16 (x : Z) : Z := wrapu 16 x.
Definition u32 (x : Z) : Z := wrapu 32 x.
Definition u64 (x : Z) : Z := wrapu 64 x.
Definition s8 (x : Z) : Z := wraps 8 x.
Definition s16 (x : Z) : Z := wraps 16 x.
Definition s32 (x : Z) : Z := wraps 32 x.
Definition s64 (x : Z) : Z := wraps 64 x.

(** [~x] at the widths the code uses. *)
Definition not32 (x : Z) : Z := u32 (Z.lnot x).
Definition not64 (x : Z) : Z := u64 (Z.lnot x).

(** The C condition [x & m] used as a truth value. *)
Definition tst (x m : Z) : bool := negb (Z.land x m =? 0).

(** A C truth value used as an integer. *)
Definition b2z (b : bool) : Z := if b then 1 else 0.

Definition in_u (w x : Z) : Prop := 0 <= x < 2 ^ w.

Declare Scope bits_scope.
Delimit Scope bits_scope with bits.
Notation "a &' b" := (Z.land a b) (at level 40, left associativity) : bits_scope.
Notation "a |' b" := (Z.lor a b) (at level 50, left associativity) : bits_scope.
Notation "a ^' b" := (Z.lxor a b) (at level 45, left associativity) : bits_scope.
Notation "a <<' b" := (Z.shiftl a b) (at level 38, left associativity) : bits_scope.
Notation "a >>' b" := (Z.shiftr a b) (at level 38, left associativity) : bits_scope.
#[global] Open Scope bits_scope.

(** ** Failure of the host program

    [assert], [exit], and the undefined operations of C end the run of the
    modelled function: such a function returns in the [res] monad.
    [OutOfFuel] is the bound of a modelled loop; the loops are proved never to
    reach it.  [Endless] marks the loops over a descriptor chain of a virtio
    device, whose length the guest decides: the chain has not ended within the
    bound the model was given, whatever it is. *)

Inductive stop_reason := AssertFailed | Exited (code : Z) | UndefinedBehaviour | OutOfFuel | Endless.
Inductive res (A : Type) := Done (a : A) | Stop (r : stop_reason).
Arguments Done {A} a.
Arguments Stop {A} r.

#[global] Instance res_ret : MRet res := @Done.
#[global] Instance res_bind : MBind res := fun A B f m =>
  match m with Done a => f a | Stop r => Stop r end.

Definition assert_c (b : bool) : res unit := if b then Done tt else Stop AssertFailed.

(** The host program stopped on its own: an assertion, [exit], or an undefined operation. *)
Definition host_stop (r : stop_reason) : Prop := match r with OutOfFuel | Endless => False | _ => True end.
Definition settled {A} (r : res A) : Prop := match r with Done _ => True | Stop e => host_stop e end.

Lemma settled_bind {A B} (m : res A) (f : A -> res B) : settled m -> (forall a, settled (f a)) -> settled (m ≫= f).
Proof. intros Hm Hf. destruct m; [apply Hf|exact Hm]. Qed.

Ltac settled := match goal with |- settled (Done _) => exact I | |- settled (Stop _) => exact I | |- host_stop _ => exact I end.

#[global] Instance stop_reason_eq_dec : EqDecision stop_reason.
Proof. solve_decision. Defined.

(** ** State and failure

    [SM S A] computes an [A] from a state [S] that it may change, or stops. *)

Definition SM (S A : Type) : Type := S -> res (A * S).

#[global] Instance SM_ret S : MRet (SM S) := fun A a s => Done (a, s).
#[global] Instance SM_bind S : MBind (SM S) := fun A B f m s =>
  match m s with Done (a, s') => f a s' | Stop r => Stop r end.

Definition gets {S A} (f : S -> A) : SM S A := fun s => Done (f s, s).
Definition modify {S} (f : S -> S) : SM S unit := fun s => Done (tt, f s).
Definition liftr {S A} (r : res A) : SM S A := fun s =>
  match r with Done a => Done (a, s) | Stop e => Stop e end.
Definition stop {S A} (r : stop_reason) : SM S A := fun _ => Stop r.

Lemma SM_bind_inv {S A B} (m : SM S A) (f : A -> SM S B) s b s' :
  (m ≫= f) s = Done (b, s') -> exists a s1, m s = Done (a, s1) /\ f a s1 = Done (b, s').
Proof. unfold mbind, SM_bind. destruct (m s) as [[a s1]|]; [eauto|discriminate]. Qed.

(** Running a sequence of steps. *)
Lemma run_ret {S A} (a : A) (s : S) : (mret a : SM S A) s = Done (a, s).
Proof. reflexivity. Qed.
Lemma run_gets {S A B} (f : S -> A) (k : A -> SM S B) s : (gets f ≫= k) s = k (f s) s.
Proof. reflexivity. Qed.
Lemma run_modify {S B} (f : S -> S) (k : unit -> SM S B) s : (modify f ≫= k) s = k tt (f s).
Proof. reflexivity. Qed.
Lemma run_bind_ret {S A B} (a : A) (k : A -> SM S B) s : ((mret a : SM S A) ≫= k) s = k a s.
Proof. reflexivity. Qed.
Lemma run_liftr_done {S A B} (a : A) (k : A -> SM S B) s : (liftr (Done a) ≫= k) s = k a s.
Proof. reflexivity. Qed.
Lemma run_liftr_stop {S A B} r (k : A -> SM S B) s : (liftr (Stop r) ≫= k) s = Stop r.
Proof. reflexivity. Qed.
Lemma run_bind {S A B} (m : SM S A) (k : A -> SM S B) s :
  (m ≫= k) s = match m s with Done (a, s') => k a s' | Stop r => Stop r end.
Proof. reflexivity. Qed.
Lemma run_assoc {S A B C} (m : SM S A) (f : A -> SM S B) (g : B -> SM S C) s :
  ((m ≫= f) ≫= g) s = (m ≫= fun a => f a ≫= g) s.
Proof. unfold mbind, SM_bind. destruct (m s) as [[a s']|]; reflexivity. Qed.

Create Rewrite HintDb run.
#[export] Hint Rewrite @run_ret @run_gets @run_modify @run_bind_ret @run_liftr_done @run_liftr_stop @run_assoc : run.
Ltac run := repeat (progress (autorewrite with run; cbv beta zeta; unfold id)).

(** ** Record updates: [s <| f := v |>] is [s] with field [f] set to [v]. *)

Class Upd {R E : Type} (proj : R -> E) := upd : E -> R -> R.
Arguments upd {R E} proj {_} v s.
Notation "s <| p := v |>" := (upd p v s)
  (at level 1, left associativity, p at level 9, v at level 99, format "s  <| p  :=  v |>").

(** ** Arrays of the C program, indexed by an [int]. *)

Definition aget (l : list Z) (i : Z) : Z := nth (Z.to_nat i) l 0.
Definition aset (l : list Z) (i v : Z) : list Z := <[Z.to_nat i := v]> l.

Lemma aget_aset l i j v : 0 <= i -> 0 <= j -> (Z.to_nat i < length l)%nat ->
  aget (aset l i v) j = if i =? j then v else aget l j.
Proof.
  intros Hi Hj Hl. unfold aget, aset. destruct (Z.eqb_spec i j) as [->|Hne].
  - apply nth_lookup_Some. apply list_lookup_insert_eq. auto.
  - rewrite !nth_lookup. rewrite list_lookup_insert_ne by lia. reflexivity.
Qed.

(** ** Bit-level lemmas *)

Create Rewrite HintDb zbits.
Create HintDb word discriminated.

Lemma wrapu_spec w x i : 0 <= w -> Z.testbit (wrapu w x) i = (i <? w) && Z.testbit x i.
Proof.
  intros Hw. unfold wrapu. destruct (Z.ltb_spec i w).
  - apply Z.mod_pow2_bits_low; lia.
  - rewrite Z.mod_pow2_bits_high by lia. reflexivity.
Qed.

Lemma wrapu_range w x : 0 <= w -> 0 <= wrapu w x < 2 ^ w.
Proof. intros. apply Z.mod_pos_bound. apply Z.pow_pos_nonneg; lia. Qed.

Lemma wrapu_small w x : 0 <= x < 2 ^ w -> wrapu w x = x.
Proof. apply Z.mod_small. Qed.

Lemma wrapu_idem w x : 0 <= w -> wrapu w (wrapu w x) = wrapu w x.
Proof. intros. apply wrapu_small, wrapu_range; lia. Qed.

(** Congruence modulo [2^w], the relation under which wrapping is the identity. *)
Definition eqmod (w x y : Z) : Prop := x mod 2 ^ w = y mod 2 ^ w.

#[global] Instance eqm_equiv w : Equivalence (eqmod w).
Proof. unfold eqmod; split; red; intros; congruence. Qed.

#[global] Instance eqm_add w : Proper (eqmod w ==> eqmod w ==> eqmod w) Z.add.
Proof. unfold eqmod. intros a b H c d K. rewrite Zplus_mod, H, K, <- Zplus_mod. reflexivity. Qed.
#[global] Instance eqm_sub w : Proper (eqmod w ==> eqmod w ==> eqmod w) Z.sub.
Proof. unfold eqmod. intros a b H c d K. rewrite Zminus_mod, H, K, <- Zminus_mod. reflexivity. Qed.
#[global] Instance eqm_mul w : Proper (eqmod w ==> eqmod w ==> eqmod w) Z.mul.
Proof. unfold eqmod. intros a b H c d K. rewrite Zmult_mod, H, K, <- Zmult_mod. reflexivity. Qed.
#[global] Instance wrapu_eqm w : Proper (eqmod w ==> eq) (wrapu w).
Proof. intros a b H. exact H. Qed.

Lemma eqm_wrapu w x : eqmod w (wrapu w x) x.
Proof. unfold eqmod, wrapu. apply Zmod_mod. Qed.

Lemma eqm_wraps w x : eqmod w (wraps w x) x.
Proof.
  unfold eqmod, wraps. rewrite Zminus_mod_idemp_l. f_equal. lia.
Qed.

Lemma wrapu_wraps w x : wrapu w (wraps w x) = wrapu w x.
Proof. rewrite eqm_wraps. reflexivity. Qed.

Lemma wraps_range w x : 0 < w -> - 2 ^ (w - 1) <= wraps w x < 2 ^ (w - 1).
Proof.
  intros Hw. unfold wraps.
  assert (2 ^ w = 2 * 2 ^ (w - 1)) as E by (rewrite <- Z.pow_succ_r by lia; f_equal; lia).
  pose proof (Z.mod_pos_bound (x + 2 ^ (w - 1)) (2 ^ w)). nia.
Qed.

Lemma wraps_small w x : 0 < w -> - 2 ^ (w - 1) <= x < 2 ^ (w - 1) -> wraps w x = x.
Proof.
  intros Hw Hx. unfold wraps.
  assert (2 ^ w = 2 * 2 ^ (w - 1)) as E by (rewrite <- Z.pow_succ_r by lia; f_equal; lia).
  rewrite Z.mod_small; lia.
Qed.

(** The value a [w]-bit pattern has in the signed type. *)
Lemma wraps_cases w x : 0 < w -> 0 <= x < 2 ^ w ->
  wraps w x = if x <? 2 ^ (w - 1) then x else x - 2 ^ w.
Proof.
  intros Hw Hx. unfold wraps.
  assert (2 ^ w = 2 * 2 ^ (w - 1)) as E by (rewrite <- Z.pow_succ_r by lia; f_equal; lia).
  destruct (Z.ltb_spec x (2 ^ (w - 1))).
  - rewrite Z.mod_small; lia.
  - replace (x + 2 ^ (w - 1)) with ((x - 2 ^ (w - 1)) + 1 * 2 ^ w) by lia.
    rewrite Z_mod_plus_full, Z.mod_small; lia.
Qed.

Lemma testbit_above w x i : 0 <= x < 2 ^ w -> 0 <= w <= i -> Z.testbit x i = false.
Proof.
  intros Hx Hi. rewrite <- (Z.mod_small x (2 ^ w)) by lia. apply Z.mod_pow2_bits_high; lia.
Qed.

Lemma wrapu_zero_high w x : 0 <= w -> (forall i, w <= i -> Z.testbit x i = false) -> wrapu w x = x.
Proof.
  intros Hw H. apply Z.bits_inj'. intros i Hi. rewrite wrapu_spec by lia.
  destruct (Z.ltb_spec i w); [reflexivity|]. rewrite H by lia. reflexivity.
Qed.

Lemma in_u_bits w x : 0 <= w -> 0 <= x -> (forall i, w <= i -> Z.testbit x i = false) -> in_u w x.
Proof. intros Hw Hx H. rewrite <- (wrapu_zero_high w x) by auto. apply wrapu_range; lia. Qed.

Lemma testbit_land a b i : Z.testbit (Z.land a b) i = Z.testbit a i && Z.testbit b i.
Proof. apply Z.land_spec. Qed.
Lemma testbit_lor a b i : Z.testbit (Z.lor a b) i = Z.testbit a i || Z.testbit b i.
Proof. apply Z.lor_spec. Qed.

Lemma land_range w a b : 0 <= w -> in_u w a -> in_u w (Z.land a b).
Proof.
  intros Hw Ha. unfold in_u in *. apply in_u_bits; [lia| |].
  - apply Z.land_nonneg. lia.
  - intros i Hi. rewrite Z.land_spec, (testbit_above w a) by lia. reflexivity.
Qed.

Lemma land_range_r w a b : 0 <= w -> in_u w b -> in_u w (Z.land a b).
Proof. rewrite Z.land_comm. apply land_range. Qed.

Lemma lor_range w a b : 0 <= w -> in_u w a -> in_u w b -> in_u w (Z.lor a b).
Proof.
  intros Hw Ha Hb. unfold in_u in *. apply in_u_bits; [lia| |].
  - apply Z.lor_nonneg; lia.
  - intros i Hi. rewrite Z.lor_spec, (testbit_above w a), (testbit_above w b) by lia. reflexivity.
Qed.

Lemma lxor_range w a b : 0 <= w -> in_u w a -> in_u w b -> in_u w (Z.lxor a b).
Proof.
  intros Hw Ha Hb. unfold in_u in *. apply in_u_bits; [lia| |].
  - apply Z.lxor_nonneg; lia.
  - intros i Hi. rewrite Z.lxor_spec, (testbit_above w a), (testbit_above w b) by lia. reflexivity.
Qed.

Lemma shiftr_range w a n : 0 <= w -> 0 <= n -> in_u w a -> in_u w (Z.shiftr a n).
Proof.
  intros Hw Hn Ha. unfold in_u in *. apply in_u_bits; [lia| |].
  - apply Z.shiftr_nonneg; lia.
  - intros i Hi. rewrite Z.shiftr_spec, (testbit_above w a) by lia. reflexivity.
Qed.

Lemma in_u_mono w w' x : 0 <= w <= w' -> in_u w x -> in_u w' x.
Proof. unfold in_u. intros. pose proof (Z.pow_le_mono_r 2 w w'). lia. Qed.

Lemma wrapu_in_u w x : 0 <= w -> in_u w (wrapu w x).
Proof. apply wrapu_range. Qed.

Lemma b2z_in_u w b : 0 < w -> in_u w (b2z b).
Proof.
  intros. unfold in_u. pose proof (Z.pow_le_mono_r 2 1 w). destruct b; simpl; lia.
Qed.

Lemma tst_true x m : tst x m = true <-> Z.land x m <> 0.
Proof. unfold tst. rewrite negb_true_iff, Z.eqb_neq. reflexivity. Qed.
Lemma tst_false x m : tst x m = false <-> Z.land x m = 0.
Proof. unfold tst. rewrite negb_false_iff, Z.eqb_eq. reflexivity. Qed.

(** A one-bit mask tests one bit. *)
Lemma land_pow2 x n : 0 <= n -> Z.land x (2 ^ n) = if Z.testbit x n then 2 ^ n else 0.
Proof.
  intros Hn. apply Z.bits_inj'. intros i Hi. rewrite Z.land_spec, Z.pow2_bits_eqb by lia.
  destruct (Z.eqb_spec n i) as [->|Hne].
  - destruct (Z.testbit x i); [rewrite Z.pow2_bits_true by lia|rewrite Z.bits_0]; reflexivity.
  - rewrite andb_false_r. destruct (Z.testbit x n); [|rewrite Z.bits_0; reflexivity].
    symmetry. apply Z.pow2_bits_false. lia.
Qed.

Lemma tst_pow2 x n : 0 <= n -> tst x (2 ^ n) = Z.testbit x n.
Proof.
  intros Hn. unfold tst. rewrite land_pow2 by lia.
  assert (0 < 2 ^ n) by (apply Z.pow_pos_nonneg; lia).
  destruct (Z.testbit x n); destruct (Z.eqb_spec (2 ^ n) 0); try reflexivity; lia.
Qed.

Lemma land_ones_wrapu w x : 0 <= w -> Z.land x (Z.ones w) = wrapu w x.
Proof. intros. apply Z.land_ones. lia. Qed.

(** Side-condition-free bit equations, the rewrite base of [bits]. *)
Lemma shiftl_spec' a n i : Z.testbit (Z.shiftl a n) i = (0 <=? i) && Z.testbit a (i - n).
Proof.
  destruct (Z.leb_spec 0 i); [apply Z.shiftl_spec; lia|]. rewrite Z.testbit_neg_r by lia. reflexivity.
Qed.
Lemma shiftr_spec' a n i : Z.testbit (Z.shiftr a n) i = (0 <=? i) && Z.testbit a (i + n).
Proof.
  destruct (Z.leb_spec 0 i); [apply Z.shiftr_spec; lia|]. rewrite Z.testbit_neg_r by lia. reflexivity.
Qed.
Lemma lnot_spec' a i : Z.testbit (Z.lnot a) i = (0 <=? i) && negb (Z.testbit a i).
Proof.
  destruct (Z.leb_spec 0 i); [apply Z.lnot_spec; lia|]. rewrite Z.testbit_neg_r by lia. reflexivity.
Qed.
Lemma u8_spec x i : Z.testbit (u8 x) i = (i <? 8) && Z.testbit x i.
Proof. apply wrapu_spec; lia. Qed.
Lemma u16_spec x i : Z.testbit (u16 x) i = (i <? 16) && Z.testbit x i.
Proof. apply wrapu_spec; lia. Qed.
Lemma u32_spec x i : Z.testbit (u32 x) i = (i <? 32) && Z.testbit x i.
Proof. apply wrapu_spec; lia. Qed.
Lemma u64_spec x i : Z.testbit (u64 x) i = (i <? 64) && Z.testbit x i.
Proof. apply wrapu_spec; lia. Qed.
Lemma not64_spec x i : Z.testbit (not64 x) i = (i <? 64) && ((0 <=? i) && negb (Z.testbit x i)).
Proof. unfold not64. rewrite u64_spec, lnot_spec'. reflexivity. Qed.
Lemma not32_spec x i : Z.testbit (not32 x) i = (i <? 32) && ((0 <=? i) && negb (Z.testbit x i)).
Proof. unfold not32. rewrite u32_spec, lnot_spec'. reflexivity. Qed.
Lemma b2z_spec b i : Z.testbit (b2z b) i = (i =? 0) && b.
Proof.
  destruct b; simpl; [|rewrite Z.bits_0, andb_false_r; reflexivity].
  destruct (Z.eqb_spec i 0) as [->|]; [reflexivity|]. rewrite andb_true_r.
  destruct (Z.ltb_spec i 0); [apply Z.testbit_neg_r; lia|].
  change 1 with (2 ^ 0). apply Z.pow2_bits_false. lia.
Qed.

#[export] Hint Rewrite Z.land_spec Z.lor_spec Z.lxor_spec shiftl_spec' shiftr_spec' lnot_spec'
  u8_spec u16_spec u32_spec u64_spec not64_spec not32_spec b2z_spec Z.bits_0 : zbits.

(** The sign-extended bit pattern: bit [i] of [wraps w x] is bit [min i (w-1)] of [x]. *)
Lemma wraps_spec w x i : 0 < w -> 0 <= i ->
  Z.testbit (wraps w x) i = Z.testbit x (Z.min i (w - 1)).
Proof.
  intros Hw Hi. pose proof (wraps_range w x Hw) as Hr. pose proof (eqm_wraps w x) as He.
  destruct (Z.lt_ge_cases i w) as [Hlt|Hge].
  - rewrite Z.min_l by lia. rewrite <- (Z.mod_pow2_bits_low x w i) by lia.
    rewrite <- (Z.mod_pow2_bits_low (wraps w x) w i) by lia. unfold eqmod in He. rewrite He. reflexivity.
  - rewrite Z.min_r by lia.
    assert (Z.testbit x (w - 1) = Z.testbit (wraps w x) (w - 1)) as ->.
    { rewrite <- (Z.mod_pow2_bits_low x w (w - 1)) by lia.
      rewrite <- (Z.mod_pow2_bits_low (wraps w x) w (w - 1)) by lia.
      unfold eqmod in He. rewrite He. reflexivity. }
    assert (forall j, w - 1 <= j -> Z.testbit (wraps w x) j = (wraps w x <? 0)) as Hs; [|rewrite !Hs by lia; reflexivity].
    intros j Hj. destruct (Z.ltb_spec (wraps w x) 0) as [Hneg|Hpos].
    + rewrite <- (Z.lnot_involutive (wraps w x)), Z.lnot_spec by lia.
      rewrite (testbit_above (w - 1)) by (unfold Z.lnot; lia). reflexivity.
    + apply (testbit_above (w - 1)); lia.
Qed.

Lemma s32_spec x i : Z.testbit (s32 x) i = (0 <=? i) && Z.testbit x (Z.min i 31).
Proof.
  destruct (Z.leb_spec 0 i); [apply wraps_spec; lia|]. rewrite Z.testbit_neg_r by lia. reflexivity.
Qed.
Lemma s64_spec x i : Z.testbit (s64 x) i = (0 <=? i) && Z.testbit x (Z.min i 63).
Proof.
  destruct (Z.leb_spec 0 i); [apply wraps_spec; lia|]. rewrite Z.testbit_neg_r by lia. reflexivity.
Qed.
#[export] Hint Rewrite s32_spec s64_spec : zbits.

Lemma bits_inj_u w a b : 0 <= w -> in_u w a -> in_u w b ->
  (forall i, 0 <= i < w -> Z.testbit a i = Z.testbit b i) -> a = b.
Proof.
  intros Hw Ha Hb H. apply Z.bits_inj'. intros i Hi. destruct (Z.lt_ge_cases i w); [apply H; lia|].
  rewrite (testbit_above w a), (testbit_above w b) by (unfold in_u in *; lia). reflexivity.
Qed.

(** [enum_bits i n]: one goal per value of [i] in [0, n). *)
Lemma below_in (n : nat) i : 0 <= i < Z.of_nat n -> In i (map Z.of_nat (seq 0 n)).
Proof.
  intros H. apply in_map_iff. exists (Z.to_nat i). split; [lia|]. apply in_seq. lia.
Qed.

Ltac enum_bits i n :=
  let H := fresh "Hin" in
  assert (In i (map Z.of_nat (seq 0 n))) as H by (apply below_in; lia);
  cbv [map seq Z.of_nat Pos.of_succ_nat Pos.succ In] in H;
  repeat (destruct H as [H|H]; [rewrite <- H in *; clear H|]); [.. | destruct H].

Ltac is_zconst c :=
  lazymatch c with
  | Z0 => idtac | Zpos ?p => is_posconst p | Zneg ?p => is_posconst p
  end
with is_posconst p :=
  lazymatch p with xH => idtac | xO ?q => is_posconst q | xI ?q => is_posconst q end.

(** Evaluate the closed integer sub-terms a bit proof leaves. *)
Ltac eval_consts :=
  repeat match goal with
  | |- context [Z.testbit ?c ?i] => is_zconst c; is_zconst i;
      let b := eval vm_compute in (Z.testbit c i) in change (Z.testbit c i) with b
  | |- context [?a - ?b] => is_zconst a; is_zconst b;
      let c := eval vm_compute in (a - b) in change (a - b) with c
  | |- context [?a + ?b] => is_zconst a; is_zconst b;
      let c := eval vm_compute in (a + b) in change (a + b) with c
  | |- context [Z.min ?a ?b] => is_zconst a; is_zconst b;
      let c := eval vm_compute in (Z.min a b) in change (Z.min a b) with c
  | |- context [?a <=? ?b] => is_zconst a; is_zconst b;
      let c := eval vm_compute in (a <=? b) in change (a <=? b) with c
  | |- context [?a <? ?b] => is_zconst a; is_zconst b;
      let c := eval vm_compute in (a <? b) in change (a <? b) with c
  | |- context [?a =? ?b] => is_zconst a; is_zconst b;
      let c := eval vm_compute in (a =? b) in change (a =? b) with c
  end.

(** Close a boolean equation over opaque atoms. *)
Ltac bool_atoms :=
  rewrite ?andb_true_r, ?andb_false_r, ?orb_true_r, ?orb_false_r; cbn [andb orb negb xorb];
  try reflexivity;
  repeat match goal with
  | |- context [Z.testbit ?x ?i] => destruct (Z.testbit x i)
  end; try reflexivity.

(** [bits n]: prove [Z.testbit a i = Z.testbit b i] for a symbolic [i < n] by enumeration. *)
Ltac bits_at i n :=
  autorewrite with zbits; enum_bits i n; eval_consts; bool_atoms.

(** ** Ranges of machine words, by [auto with word] *)

Lemma in_u_u64 x : in_u 64 (u64 x).
Proof. apply wrapu_range. lia. Qed.
Lemma in_u_u32 x : in_u 32 (u32 x).
Proof. apply wrapu_range. lia. Qed.
Lemma in_u_not64 x : in_u 64 (not64 x).
Proof. apply in_u_u64. Qed.
Lemma in_u_not32 x : in_u 32 (not32 x).
Proof. apply in_u_u32. Qed.
Lemma in_u_32_64 x : in_u 32 x -> in_u 64 x.
Proof. apply in_u_mono. lia. Qed.
Lemma in_u_land64 a b : in_u 64 a -> in_u 64 (Z.land a b).
Proof. apply land_range. lia. Qed.
Lemma in_u_land64_r a b : in_u 64 b -> in_u 64 (Z.land a b).
Proof. apply land_range_r. lia. Qed.
Lemma in_u_lor64 a b : in_u 64 a -> in_u 64 b -> in_u 64 (Z.lor a b).
Proof. apply lor_range. lia. Qed.
Lemma in_u_lxor64 a b : in_u 64 a -> in_u 64 b -> in_u 64 (Z.lxor a b).
Proof. apply lxor_range. lia. Qed.
Lemma in_u_shiftr64 a n : 0 <= n -> in_u 64 a -> in_u 64 (Z.shiftr a n).
Proof. apply shiftr_range. lia. Qed.
Lemma in_u_land32 a b : in_u 32 a -> in_u 32 (Z.land a b).
Proof. apply land_range. lia. Qed.
Lemma in_u_land32_r a b : in_u 32 b -> in_u 32 (Z.land a b).
Proof. apply land_range_r. lia. Qed.
Lemma in_u_lor32 a b : in_u 32 a -> in_u 32 b -> in_u 32 (Z.lor a b).
Proof. apply lor_range. lia. Qed.
Lemma in_u_b2z64 b : in_u 64 (b2z b).
Proof. apply b2z_in_u. lia. Qed.

#[export] Hint Resolve in_u_u64 in_u_u32 in_u_not64 in_u_not32 in_u_land64 in_u_land64_r in_u_lor64
  in_u_lxor64 in_u_land32 in_u_land32_r in_u_lor32 in_u_b2z64 : word.
#[export] Hint Extern 1 (in_u ?w ?c) => (is_zconst w; is_zconst c; split; [discriminate | reflexivity]) : word.
#[export] Hint Extern 5 (in_u 64 _) => (apply in_u_32_64; assumption) : word.
#[export] Hint Extern 5 (in_u 64 (Z.shiftr _ _)) => (apply in_u_shiftr64; [lia|]) : word.

Lemma u64_id x : in_u 64 x -> u64 x = x.
Proof. apply wrapu_small. Qed.
Lemma u32_id x : in_u 32 x -> u32 x = x.
Proof. apply wrapu_small. Qed.

(** A mask that keeps the low bits bounds the result. *)
Lemma land_ones_bound x n : 0 <= n -> 0 <= Z.land x (Z.ones n) < 2 ^ n.
Proof. intros. rewrite Z.land_ones by lia. apply Z.mod_pos_bound. apply Z.pow_pos_nonneg; lia. Qed.

Lemma land3_bound x : 0 <= Z.land x 3 <= 3.
Proof. pose proof (land_ones_bound x 2 ltac:(lia)). change (Z.ones 2) with 3 in *. lia. Qed.
Lemma land31_bound x : 0 <= Z.land x 31 < 32.
Proof. apply (land_ones_bound x 5). lia. Qed.

Lemma land_not64 x m : in_u 64 x -> Z.land x (not64 m) = Z.land x (Z.lnot m).
Proof.
  intros Hx. apply Z.bits_inj'. intros i Hi. rewrite !Z.land_spec, not64_spec, lnot_spec'.
  destruct (Z.ltb_spec i 64); [reflexivity|]. rewrite (testbit_above 64 x) by (unfold in_u in *; lia).
  reflexivity.
Qed.

(** A field placed above a value that fits below it: no carry. *)
Lemma lor_shiftl_low x y n : 0 <= n -> 0 <= y < 2 ^ n -> Z.lor (Z.shiftl x n) y = x * 2 ^ n + y.
Proof.
  intros Hn Hy. rewrite <- Z.shiftl_mul_pow2 by lia. symmetry. apply Z.add_nocarry_lor.
  apply Z.bits_inj'. intros i Hi. rewrite Z.land_spec, Z.bits_0, shiftl_spec'.
  destruct (Z.lt_ge_cases i n); [rewrite (Z.testbit_neg_r x) by lia|rewrite (testbit_above n y) by lia];
    rewrite ?andb_false_r; reflexivity.
Qed.

(** Equality of 64-bit sums: inner wrap-arounds are absorbed by the outer one. *)
Lemma eqm_of_eq w a b : a = b -> eqmod w a b.
Proof. intros ->. reflexivity. Qed.

Ltac wrap_sums :=
  unfold u64; match goal with |- wrapu ?w ?a = wrapu ?w ?b =>
    let Hq := fresh in enough (eqmod w a b) as Hq by exact Hq end;
  rewrite ?eqm_wrapu; apply eqm_of_eq; lia.

(** Powers of two are positive. *)
Ltac pow_pos x := assert (0 < 2 ^ x) by (apply Z.pow_pos_nonneg; lia).

(** Equality of products of powers of two. *)
Ltac merge_pows := rewrite <- ?Z.pow_add_r by lia; f_equal; lia.
