(* ===== verification/Riscv.v ===== *)
(** * ISA constants ([riscv.h], [riscv_cpu.h], and the masks of [riscv_cpu.cpp])

    The macros the emulator is written with, at their C values.  [riscv_consts]
    is the unfold base that turns them into numerals for the bit tactics. *)

From S2P Require Import Prelude.
From stdpp Require Import base.
From Stdlib Require Import ZArith.
Local Open Scope Z_scope.
Local Open Scope bits_scope.

(** ** Interrupt bits of [mip] and [mie] *)
Definition MIP_SSIP := Eval cbv in (1 <<' 1).
Definition MIP_MSIP := Eval cbv in (1 <<' 3).
Definition MIP_STIP := Eval cbv in (1 <<' 5).
Definition MIP_MTIP := Eval cbv in (1 <<' 7).
Definition MIP_SEIP := Eval cbv in (1 <<' 9).
Definition MIP_MEIP := Eval cbv in (1 <<' 11).
Definition MIP_MCIP := Eval cbv in (1 <<' 18).

(** ** Causes *)
Definition CAUSE_MISALIGNED_FETCH := 0x0.
Definition CAUSE_FAULT_FETCH := 0x1.
Definition CAUSE_ILLEGAL_INSTRUCTION := 0x2.
Definition CAUSE_BREAKPOINT := 0x3.
Definition CAUSE_MISALIGNED_LOAD := 0x4.
Definition CAUSE_FAULT_LOAD := 0x5.
Definition CAUSE_MISALIGNED_STORE := 0x6.
Definition CAUSE_FAULT_STORE := 0x7.
Definition CAUSE_USER_ECALL := 0x8.
Definition CAUSE_FETCH_PAGE_FAULT := 0xc.
Definition CAUSE_LOAD_PAGE_FAULT := 0xd.
Definition CAUSE_STORE_PAGE_FAULT := 0xf.
Definition SCAUSE_MASK := 0x800000000000001f.
Definition MCAUSE_MASK := 0x80000000000000ff.
Definition CAUSE_INTERRUPT := 0x8000000000000000.

(** ** Privilege levels *)
Definition PRV_U := 0.
Definition PRV_S := 1.
Definition PRV_H := 2.
Definition PRV_M := 3.

(** ** [misa] *)
Definition MCPUID_A := Eval cbv in (1 <<' 0).
Definition MCPUID_C := Eval cbv in (1 <<' 2).
Definition MCPUID_D := Eval cbv in (1 <<' 3).
Definition MCPUID_F := Eval cbv in (1 <<' 5).
Definition MCPUID_I := Eval cbv in (1 <<' 8).
Definition MCPUID_M := Eval cbv in (1 <<' 12).
Definition MCPUID_SUPER := Eval cbv in (1 <<' 18).
Definition MCPUID_USER := Eval cbv in (1 <<' 20).
Definition MCPUID_X := Eval cbv in (1 <<' 23).

(** ** [mstatus] *)
Definition MSTATUS_SPIE_SHIFT := 5.
Definition MSTATUS_MPIE_SHIFT := 7.
Definition MSTATUS_SPP_SHIFT := 8.
Definition MSTATUS_MPP_SHIFT := 11.
Definition MSTATUS_FS_SHIFT := 13.
Definition MSTATUS_UXL_SHIFT := 32.
Definition MSTATUS_SXL_SHIFT := 34.
Definition MSTATUS_SIE := Eval cbv in (1 <<' 1).
Definition MSTATUS_MIE := Eval cbv in (1 <<' 3).
Definition MSTATUS_SPIE := Eval cbv in (1 <<' 5).
Definition MSTATUS_MPIE := Eval cbv in (1 <<' 7).
Definition MSTATUS_SPP := Eval cbv in (1 <<' 8).
Definition MSTATUS_MPP := Eval cbv in (3 <<' 11).
Definition MSTATUS_FS := Eval cbv in (3 <<' 13).
Definition MSTATUS_XS := Eval cbv in (3 <<' 15).
Definition MSTATUS_MPRV := Eval cbv in (1 <<' 17).
Definition MSTATUS_SUM := Eval cbv in (1 <<' 18).
Definition MSTATUS_MXR := Eval cbv in (1 <<' 19).
Definition MSTATUS_TVM := Eval cbv in (1 <<' 20).
Definition MSTATUS_TW := Eval cbv in (1 <<' 21).
Definition MSTATUS_TSR := Eval cbv in (1 <<' 22).
Definition MSTATUS_UXL_MASK := Eval cbv in (3 <<' 32).
Definition MSTATUS_SXL_MASK := Eval cbv in (3 <<' 34).

Definition SSTATUS_MASK := Eval cbv in
  (MSTATUS_SIE |' MSTATUS_SPIE |' MSTATUS_SPP |' MSTATUS_FS |' MSTATUS_SUM |' MSTATUS_MXR
   |' MSTATUS_UXL_MASK).

Definition MSTATUS_MASK := Eval cbv in
  (MSTATUS_SIE |' MSTATUS_MIE |' MSTATUS_SPIE |' MSTATUS_MPIE |' MSTATUS_SPP |' MSTATUS_MPP
   |' MSTATUS_FS |' MSTATUS_MPRV |' MSTATUS_SUM |' MSTATUS_MXR |' MSTATUS_TVM |' MSTATUS_TW
   |' MSTATUS_TSR |' MSTATUS_UXL_MASK |' MSTATUS_SXL_MASK).

(** ** Debug triggers *)
Definition MCONTROL_M := Eval cbv in (1 <<' 6).
Definition MCONTROL_U := Eval cbv in (1 <<' 3).
Definition MCONTROL_EXECUTE := Eval cbv in (1 <<' 2).
Definition MAX_TRIGGERS := 1.

(** ** Physical memory protection *)
Definition PMP_N := 8.
Definition PMPCFG_R := 1.
Definition PMPCFG_W := 2.
Definition PMPCFG_X := 4.
Definition PMPCFG_A_MASK := 0x18.
Definition PMPCFG_A_OFF := 0.
Definition PMPCFG_A_TOR := 8.
Definition PMPCFG_A_NA4 := 0x10.
Definition PMPCFG_A_NAPOT := 0x18.
Definition PMPCFG_RES := 0x60.
Definition PMPCFG_L := 0x80.
Definition PMPADDR_MASK := 0x3fffffffff.

(** ** Paging and the TLB *)
Definition TLB_SIZE := 256.
Definition PG_SHIFT := 12.
Definition PG_MASK := Eval cbv in ((1 <<' 12) - 1).
Definition PTE_V_MASK := Eval cbv in (1 <<' 0).
Definition PTE_U_MASK := Eval cbv in (1 <<' 4).
Definition PTE_A_MASK := Eval cbv in (1 <<' 6).
Definition PTE_D_MASK := Eval cbv in (1 <<' 7).
Definition SATP_MASK := Eval cbv in ((15 <<' 60) |' (((1 <<' 0) - 1) <<' 44) |' ((1 <<' 44) - 1)).

Definition HPM_EVENT_SETMASK := 0x00000007.
Definition HPM_EVENT_EVENTMASK := 0xffffff00.

(** ** Address map *)
Definition ROM_SIZE := 0x1000.
Definition ROM_BASE_ADDR := 0x10000.
Definition BOOT_BASE_ADDR := 0x10000.
Definition RAM_BASE_ADDR := 0x80000000.
Definition RTC_FREQ_DIV := 16.
Definition RTC_FREQ := 10000000.
Definition MAX_CPUS := 8.
Definition SBI_SHUTDOWN := 8.

(** ** PLIC *)
Definition PLIC_NUM_SOURCES := 127.
Definition PLIC_PRIORITY_BASE := 4.
Definition PLIC_PENDING_BASE := 0x1000.
Definition PLIC_ENABLE_BASE := 0x2000.
Definition PLIC_ENABLE_STRIDE := 0x80.
Definition PLIC_CONTEXT_BASE := 0x200000.
Definition PLIC_CONTEXT_STRIDE := 0x1000.

Create HintDb riscv_consts discriminated.
#[export] Hint Unfold MIP_SSIP MIP_MSIP MIP_STIP MIP_MTIP MIP_SEIP MIP_MEIP MIP_MCIP
  SCAUSE_MASK MCAUSE_MASK CAUSE_INTERRUPT PRV_U PRV_S PRV_H PRV_M MCPUID_C
  MSTATUS_SPIE_SHIFT MSTATUS_MPIE_SHIFT MSTATUS_SPP_SHIFT MSTATUS_MPP_SHIFT MSTATUS_FS_SHIFT
  MSTATUS_UXL_SHIFT MSTATUS_SXL_SHIFT
  MSTATUS_SIE MSTATUS_MIE MSTATUS_SPIE MSTATUS_MPIE MSTATUS_SPP MSTATUS_MPP MSTATUS_FS MSTATUS_XS
  MSTATUS_MPRV MSTATUS_SUM MSTATUS_MXR MSTATUS_TVM MSTATUS_TW MSTATUS_TSR MSTATUS_UXL_MASK
  MSTATUS_SXL_MASK SSTATUS_MASK MSTATUS_MASK MCONTROL_M MCONTROL_U MCONTROL_EXECUTE
  PMPCFG_R PMPCFG_W PMPCFG_X PMPCFG_A_MASK PMPCFG_A_OFF PMPCFG_A_TOR PMPCFG_A_NA4 PMPCFG_A_NAPOT
  PMPCFG_RES PMPCFG_L PMPADDR_MASK PG_SHIFT PG_MASK TLB_SIZE PTE_V_MASK PTE_U_MASK PTE_A_MASK
  PTE_D_MASK SATP_MASK HPM_EVENT_SETMASK HPM_EVENT_EVENTMASK : riscv_consts.
