(* ===== verification/Cutils.v ===== *)
(** * C utilities ([cutils.h], [cutils.cpp])

    Byte-order helpers, bit scan, bounded string copies and the growable
    buffer.  A [uint8_t * ] argument is the list of the bytes from that pointer
    on; a C string is the list of its bytes up to the terminating 0. *)

From S2P Require Import Prelude.
From Stdlib Require Import ZArith Lia Bool Ascii String.
From stdpp Require Import base list.
Local Open Scope Z_scope.
Local Open Scope bits_scope.
Local Open Scope list_scope.

Definition max_int (a b : Z) : Z := if a >? b then a else b.
Definition min_int (a b : Z) : Z := if a <? b then a else b.

(** ** Byte order.  The result of each get function converts to its return type. *)
Definition get_le16 (ptr : list Z) : Z := u16 (aget ptr 0 |' (aget ptr 1 <<' 8)).
Definition get_le32 (ptr : list Z) : Z :=
  u32 (aget ptr 0 |' (aget ptr 1 <<' 8) |' (aget ptr 2 <<' 16) |' (aget ptr 3 <<' 24)).
Definition get_le64 (ptr : list Z) : Z := get_le32 ptr |' u64 (get_le32 (drop 4 ptr) <<' 32).

Definition put_le16 (ptr : list Z) (v : Z) : list Z := aset (aset ptr 0 (u8 v)) 1 (u8 (v >>' 8)).
Definition put_le32 (ptr : list Z) (v : Z) : list Z :=
  aset (aset (aset (aset ptr 0 (u8 v)) 1 (u8 (v >>' 8))) 2 (u8 (v >>' 16))) 3 (u8 (v >>' 24)).
Definition put_le64 (ptr : list Z) (v : Z) : list Z :=
  let p := put_le32 ptr (u32 v) in take 4 p ++ put_le32 (drop 4 p) (u32 (v >>' 32)).

Definition get_be32 (d : list Z) : Z :=
  u32 ((aget d 0 <<' 24) |' (aget d 1 <<' 16) |' (aget d 2 <<' 8) |' aget d 3).
Definition put_be32 (d : list Z) (v : Z) : list Z :=
  aset (aset (aset (aset d 0 (u8 (v >>' 24))) 1 (u8 (v >>' 16))) 2 (u8 (v >>' 8))) 3 (u8 (v >>' 0)).
Definition put_be64 (d : list Z) (v : Z) : list Z :=
  let p := put_be32 d (u32 (v >>' 32)) in take 4 p ++ put_be32 (drop 4 p) (u32 v).

Definition bswap_32 (v : Z) : Z :=
  ((v &' 0xff000000) >>' 24) |' ((v &' 0x00ff0000) >>' 8)
  |' u32 ((v &' 0x0000ff00) <<' 8) |' u32 ((v &' 0x000000ff) <<' 24).
Definition cpu_to_be32 (v : Z) : Z := bswap_32 v.

(** ** Count trailing zeros *)
Fixpoint ctz32_loop (fuel : nat) (i a : Z) : Z :=
  match fuel with
  | O => 32
  | S fuel => if tst (a >>' i) 1 then i else ctz32_loop fuel (i + 1) a
  end.

Definition ctz32 (a : Z) : Z := if a =? 0 then 32 else ctz32_loop 32 0 a.

(** ** Strings *)

(** The loop of [pstrcpy]: [room] is [buf + buf_size - 1 - q]. *)
Fixpoint pstrcpy_loop (room : nat) (str : list Z) : list Z :=
  match str, room with
  | [], _ => [0]
  | _, O => [0]
  | c :: str, S room => if c =? 0 then [0] else c :: pstrcpy_loop room str
  end.

(** [buf] after the call: the copied bytes over its old content. *)
Definition pstrcpy (buf : list Z) (buf_size : Z) (str : list Z) : list Z :=
  if buf_size <=? 0 then buf
  else let w := pstrcpy_loop (Z.to_nat (buf_size - 1)) str in w ++ drop (length w) buf.

Fixpoint strlen (s : list Z) : nat :=
  match s with [] => O | c :: s => if c =? 0 then O else S (strlen s) end.

(** The bytes of a string literal, without the terminator. *)
Definition str (s : string) : list Z := map (fun c => Z.of_N (N_of_ascii c)) (list_ascii_of_string s).

Definition zlen (l : list Z) : Z := Z.of_nat (List.length l).

(** The C string at a position of a buffer. *)
Definition cstr (l : list Z) : list Z := take (strlen l) l.

Definition pstrcat (buf : list Z) (buf_size : Z) (s : list Z) : list Z :=
  let len := strlen buf in
  if Z.of_nat len <? buf_size
  then take len buf ++ pstrcpy (drop len buf) (buf_size - Z.of_nat len) s
  else buf.

(** 1 and the rest of [str], or 0; [val] and [str] without their terminators. *)
Fixpoint strstart (str val : list Z) : option (list Z) :=
  match val with
  | [] => Some str
  | q :: val => match str with
                | p :: str => if p =? q then strstart str val else None
                | [] => None
                end
  end.

(** ** DynBuf *)
Record DynBuf := mkDynBuf { dbuf : list Z; dsize : Z; allocated_size : Z }.

Definition dbuf_init : DynBuf := mkDynBuf [] 0 0.

(** [junk] is the content [realloc] leaves in the grown part. *)
Definition dbuf_write (s : DynBuf) (offset : Z) (data junk : list Z) : DynBuf :=
  let end_ := offset + Z.of_nat (length data) in
  let '(b, a) :=
    if end_ >? allocated_size s then
      let new_size := max_int end_ (allocated_size s * 3 / 2) in
      (take (Z.to_nat new_size) (dbuf s ++ take (Z.to_nat (new_size - allocated_size s)) junk), new_size)
    else (dbuf s, allocated_size s) in
  let o := Z.to_nat offset in
  mkDynBuf (take o b ++ data ++ drop (o + length data) b)
           (if end_ >? dsize s then end_ else dsize s) a.

Definition dbuf_putc (s : DynBuf) (c : Z) (junk : list Z) : DynBuf := dbuf_write s (dsize s) [c] junk.
Definition dbuf_putstr (s : DynBuf) (str junk : list Z) : DynBuf := dbuf_write s (dsize s) str junk.
Definition dbuf_free (s : DynBuf) : DynBuf := mkDynBuf [] 0 0.


(** ** Bit scan *)

Lemma ctz32_loop_spec fuel : forall i a, 0 <= i ->
  let r := ctz32_loop fuel i a in
  (r = 32 /\ forall j, i <= j < i + Z.of_nat fuel -> Z.testbit a j = false) \/
  (i <= r < i + Z.of_nat fuel /\ Z.testbit a r = true /\ forall j, i <= j < r -> Z.testbit a j = false).
Proof.
  induction fuel as [|fuel IH]; intros i a Hi; cbn [ctz32_loop]; [left; split; [reflexivity|lia]|].
  change 1 with (2 ^ 0). rewrite tst_pow2, Z.shiftr_spec, Z.add_0_l by lia.
  destruct (Z.testbit a i) eqn:E; [right; repeat split; auto; lia|].
  change (2 ^ 0) with 1. destruct (IH (i + 1) a ltac:(lia)) as [[Hr Hz]|(Hr & Ht & Hz)]; cbv zeta in *.
  - left. split; [exact Hr|]. intros j Hj. destruct (Z.eq_dec j i) as [->|]; [exact E|apply Hz; lia].
  - right. repeat split; try lia; auto. intros j Hj.
    destruct (Z.eq_dec j i) as [->|]; [exact E|apply Hz; lia].
Qed.

(** The index of the lowest set bit of a non-zero word. *)
Lemma ctz32_spec a : in_u 32 a -> a <> 0 ->
  0 <= ctz32 a < 32 /\ Z.testbit a (ctz32 a) = true /\ forall j, 0 <= j < ctz32 a -> Z.testbit a j = false.
Proof.
  intros Ha Hne. unfold ctz32. destruct (Z.eqb_spec a 0); [contradiction|].
  pose proof (ctz32_loop_spec 32 0 a ltac:(lia)) as H. cbv zeta in H. change (0 + Z.of_nat 32) with 32 in H.
  destruct H as [[Hr Hz]|H]; [|exact H].
  exfalso. apply Hne. apply Z.bits_inj'. intros i Hi. rewrite Z.bits_0.
  destruct (Z.lt_ge_cases i 32); [apply Hz; lia|apply (testbit_above 32); unfold in_u in Ha; lia].
Qed.

(** ** Lengths *)

Lemma zlen_app a b : zlen (a ++ b) = zlen a + zlen b.
Proof. unfold zlen. rewrite length_app. lia. Qed.

Lemma zlen_nonneg l : 0 <= zlen l.
Proof. unfold zlen. lia. Qed.

Lemma zlen_replicate n x : zlen (replicate n x) = Z.of_nat n.
Proof. unfold zlen. rewrite length_replicate. reflexivity. Qed.
