(* ===== verification/Iomem.v ===== *)
(** * Physical memory map ([iomem.cpp], [iomem.h])

    The map is the array of registered ranges, in registration order; a pointer
    to a range is its index.  A RAM range carries the host address of its
    buffer and its double-buffered dirty bitmap; a device range carries a tag
    that stands for its [read_func]/[write_func]/[opaque] triple. *)

From S2P Require Import Prelude.
From stdpp Require Import base list.
From Stdlib Require Import ZArith Lia Bool.
Local Open Scope Z_scope.
Local Open Scope bits_scope.

Definition DEVIO_SIZE8 := 1.
Definition DEVIO_SIZE16 := 2.
Definition DEVIO_SIZE32 := 4.
Definition DEVIO_DISABLED := 16.
Definition DEVRAM_FLAG_DIRTY_BITS := 2.
Definition DEVRAM_FLAG_DISABLED := 4.
Definition DEVRAM_PAGE_SIZE_LOG2 := 12.
Definition DEVRAM_PAGE_SIZE := 4096.
Definition PHYS_MEM_RANGE_MAX := 32.

Inductive device :=
| Dev_mmio | Dev_sifive_uart | Dev_dw_apb_uart | Dev_clint | Dev_plic | Dev_virtio (slot : Z).

#[global] Instance device_eq_dec : EqDecision device.
Proof. solve_decision. Defined.

Record PhysMemoryRange := mkPhysMemoryRange {
  pr_addr : Z;
  pr_org_size : Z;
  pr_size : Z;
  pr_is_ram : bool;
  pr_devram_flags : Z;
  pr_phys_mem : Z;
  pr_dirty_bits_size : Z;
  pr_dirty_bits : option Z;            (* NULL, or which table of [pr_dirty_bits_tab] *)
  pr_dirty_bits_tab : list (list Z);
  pr_dirty_bits_index : Z;
  pr_dev : device;
  pr_devio_flags : Z }.

Definition eta_pr (p : PhysMemoryRange) : PhysMemoryRange :=
  mkPhysMemoryRange (pr_addr p) (pr_org_size p) (pr_size p) (pr_is_ram p) (pr_devram_flags p)
    (pr_phys_mem p) (pr_dirty_bits_size p) (pr_dirty_bits p) (pr_dirty_bits_tab p)
    (pr_dirty_bits_index p) (pr_dev p) (pr_devio_flags p).

Ltac upd_pr f :=
  exact (fun v s => ltac:(let b := eval cbv beta delta [eta_pr] in (eta_pr s) in
    match b with context C [f s] => let b' := context C [v] in exact b' end)).

#[export] Instance upd_pr_addr : Upd pr_addr := ltac:(upd_pr pr_addr).
#[export] Instance upd_pr_size : Upd pr_size := ltac:(upd_pr pr_size).
#[export] Instance upd_pr_phys_mem : Upd pr_phys_mem := ltac:(upd_pr pr_phys_mem).
#[export] Instance upd_pr_dirty_bits_size : Upd pr_dirty_bits_size := ltac:(upd_pr pr_dirty_bits_size).
#[export] Instance upd_pr_dirty_bits : Upd pr_dirty_bits := ltac:(upd_pr pr_dirty_bits).
#[export] Instance upd_pr_dirty_bits_tab : Upd pr_dirty_bits_tab := ltac:(upd_pr pr_dirty_bits_tab).
#[export] Instance upd_pr_dirty_bits_index : Upd pr_dirty_bits_index := ltac:(upd_pr pr_dirty_bits_index).

(** [struct PhysMemoryMap]: the registered prefix of [phys_mem_range[]], whose length is
    [n_phys_mem_range]. *)
Record PhysMemoryMap := mkPhysMemoryMap { phys_mem_range : list PhysMemoryRange }.

Definition phys_mem_map_init : PhysMemoryMap := mkPhysMemoryMap [].

Definition n_phys_mem_range (s : PhysMemoryMap) : Z := Z.of_nat (length (phys_mem_range s)).

(** The test of the search loop; [pr->addr + pr->size] is a [uint64_t] sum. *)
Definition in_range (pr : PhysMemoryRange) (paddr : Z) : bool :=
  (pr_addr pr <=? paddr) && (paddr <? u64 (pr_addr pr + pr_size pr)).

(** [for (i = n - 1; i >= 0; --i)]: the most recently registered match. *)
Fixpoint find_range (l : list PhysMemoryRange) (n : nat) (paddr : Z)
    : option (nat * PhysMemoryRange) :=
  match n with
  | O => None
  | S i =>
      match l !! i with
      | Some pr => if in_range pr paddr then Some (i, pr) else find_range l i paddr
      | None => find_range l i paddr
      end
  end.

Definition get_phys_mem_range (s : PhysMemoryMap) (paddr : Z) : option (nat * PhysMemoryRange) :=
  find_range (phys_mem_range s) (length (phys_mem_range s)) paddr.

(** The slot a registration fills: zero from [mallocz]. *)
Definition zero_range : PhysMemoryRange :=
  mkPhysMemoryRange 0 0 0 false 0 0 0 None [] 0 Dev_mmio 0.

Definition push_range (s : PhysMemoryMap) (pr : PhysMemoryRange) : PhysMemoryMap :=
  mkPhysMemoryMap (phys_mem_range s ++ [pr]).

Definition register_ram_entry (s : PhysMemoryMap) (addr size devram_flags : Z)
    : res PhysMemoryRange :=
  _ ← assert_c (n_phys_mem_range s <? PHYS_MEM_RANGE_MAX);
  _ ← assert_c ((size &' (DEVRAM_PAGE_SIZE - 1) =? 0) && negb (size =? 0));
  Done (mkPhysMemoryRange addr size
          (if tst devram_flags DEVRAM_FLAG_DISABLED then 0 else size)
          true (devram_flags &' Z.lnot DEVRAM_FLAG_DISABLED)
          0 0 None [] 0 Dev_mmio 0).

(** [mem] is what [mallocz(size)] returns: [None] for NULL. *)
Definition default_register_ram (s : PhysMemoryMap) (addr size devram_flags : Z) (mem : option Z)
    : res (PhysMemoryMap * nat) :=
  pr ← register_ram_entry s addr size devram_flags;
  match mem with
  | None => Stop (Exited 1)
  | Some p =>
      let pr := pr <| pr_phys_mem := p |> in
      let pr :=
        if tst devram_flags DEVRAM_FLAG_DIRTY_BITS then
          let nb_pages := size >>' DEVRAM_PAGE_SIZE_LOG2 in
          let words := (nb_pages + 31) / 32 in
          pr <| pr_dirty_bits_size := words * 4 |>
             <| pr_dirty_bits_index := 0 |>
             <| pr_dirty_bits_tab := [replicate (Z.to_nat words) 0; replicate (Z.to_nat words) 0] |>
             <| pr_dirty_bits := Some 0 |>
        else pr in
      Done (push_range s pr, length (phys_mem_range s))
  end.

Definition cpu_register_device (s : PhysMemoryMap) (addr size : Z) (dev : device) (devio_flags : Z)
    : res (PhysMemoryMap * nat) :=
  _ ← assert_c (n_phys_mem_range s <? PHYS_MEM_RANGE_MAX);
  _ ← assert_c (size <=? 0xffffffff);
  let pr := mkPhysMemoryRange addr size (if tst devio_flags DEVIO_DISABLED then 0 else size)
              false 0 0 0 None [] 0 dev devio_flags in
  Done (push_range s pr, length (phys_mem_range s)).

(** ** Dirty bits *)

Definition active_dirty_bits (pr : PhysMemoryRange) : list Z :=
  match pr_dirty_bits pr with Some t => nth (Z.to_nat t) (pr_dirty_bits_tab pr) [] | None => [] end.

Definition set_dirty_table (pr : PhysMemoryRange) (t : Z) (tab : list Z) : PhysMemoryRange :=
  pr <| pr_dirty_bits_tab := <[Z.to_nat t := tab]> (pr_dirty_bits_tab pr) |>.

Definition phys_mem_set_dirty_bit (pr : PhysMemoryRange) (offset : Z) : PhysMemoryRange :=
  match pr_dirty_bits pr with
  | None => pr
  | Some t =>
      let page_index := offset >>' DEVRAM_PAGE_SIZE_LOG2 in
      let mask := u32 (1 <<' (page_index &' 0x1f)) in
      let tab := active_dirty_bits pr in
      set_dirty_table pr t (aset tab (page_index >>' 5) (aget tab (page_index >>' 5) |' mask))
  end.

Definition phys_mem_is_dirty_bit (pr : PhysMemoryRange) (offset : Z) : bool :=
  match pr_dirty_bits pr with
  | None => true
  | Some _ =>
      let page_index := offset >>' DEVRAM_PAGE_SIZE_LOG2 in
      let word := aget (active_dirty_bits pr) (page_index >>' 5) in
      tst (word >>' (page_index &' 0x1f)) 1
  end.

Definition set_range (s : PhysMemoryMap) (i : nat) (pr : PhysMemoryRange) : PhysMemoryMap :=
  mkPhysMemoryMap (<[i := pr]> (phys_mem_range s)).

Section Callbacks.
(** [map->flush_tlb_write_range(map->opaque, ram_addr, ram_size)] acts on the owner's state. *)
Context {St : Type} (flush_tlb_write_range : Z -> Z -> St -> St).

(** Returns the bitmap collected so far and makes the other, cleared, table active. *)
Definition default_get_dirty_bits (s : PhysMemoryMap) (i : nat) (pr : PhysMemoryRange) (st : St)
    : list Z * PhysMemoryMap * St :=
  let dirty_bits := active_dirty_bits pr in
  let n := Z.to_nat (pr_dirty_bits_size pr / 4) in
  let has_dirty_bits := existsb (fun w => negb (w =? 0)) (take n dirty_bits) in
  let st := if has_dirty_bits && negb (pr_size pr =? 0)
            then flush_tlb_write_range (pr_phys_mem pr) (pr_org_size pr) st else st in
  let index := Z.lxor (pr_dirty_bits_index pr) 1 in
  let pr := pr <| pr_dirty_bits_index := index |> <| pr_dirty_bits := Some index |> in
  (dirty_bits, set_range s i (set_dirty_table pr index (replicate n 0)), st).

Definition default_set_addr (s : PhysMemoryMap) (i : nat) (pr : PhysMemoryRange)
    (addr : Z) (enabled : bool) (st : St) : PhysMemoryMap * St :=
  let flushed := if pr_is_ram pr
                 then flush_tlb_write_range (pr_phys_mem pr) (pr_org_size pr) st else st in
  if enabled then
    if (pr_size pr =? 0) || negb (pr_addr pr =? addr) then
      (set_range s i (pr <| pr_addr := addr |> <| pr_size := pr_org_size pr |>), flushed)
    else (s, st)
  else
    if negb (pr_size pr =? 0) then
      (set_range s i (pr <| pr_addr := 0 |> <| pr_size := 0 |>), flushed)
    else (s, st).

(** Both kinds of range reach [default_set_addr]: [set_ram_addr] is set to it by
    [phys_mem_map_init]. *)
Definition phys_mem_set_addr (s : PhysMemoryMap) (i : nat) (pr : PhysMemoryRange)
    (addr : Z) (enabled : bool) (st : St) : PhysMemoryMap * St :=
  if negb (pr_is_ram pr) then default_set_addr s i pr addr enabled st
  else default_set_addr s i pr addr enabled st.
End Callbacks.

(** ** The search loop *)

Lemma find_range_Some l n paddr i pr :
  find_range l n paddr = Some (i, pr) <->
  (i < n)%nat /\ l !! i = Some pr /\ in_range pr paddr = true /\
  (forall j q, (i < j < n)%nat -> l !! j = Some q -> in_range q paddr = false).
Proof.
  induction n as [|n IH]; simpl.
  - split; [discriminate|]. lia.
  - destruct (l !! n) as [q|] eqn:En.
    + destruct (in_range q paddr) eqn:Eq.
      * split.
        -- intros [= <- <-]. repeat split; auto. intros. lia.
        -- intros (Hi & Hl & Hr & Hlast). destruct (decide (i = n)) as [->|Hne]; [congruence|].
           rewrite (Hlast n q) in Eq by (auto; lia). discriminate.
      * rewrite IH. split; intros (Hi & Hl & Hr & Hlast).
        -- repeat split; auto. intros j r Hj Hjr. destruct (decide (j = n)) as [->|].
           ++ congruence.
           ++ apply (Hlast j); auto; lia.
        -- assert (i <> n) by congruence. repeat split; auto; [lia|]. intros. apply (Hlast j); auto; lia.
    + rewrite IH. split; intros (Hi & Hl & Hr & Hlast).
      * repeat split; auto. intros j r Hj Hjr. destruct (decide (j = n)) as [->|].
        -- congruence.
        -- apply (Hlast j); auto; lia.
      * assert (i <> n) by congruence. repeat split; auto; [lia|]. intros. apply (Hlast j); auto; lia.
Qed.

Lemma find_range_None l n paddr :
  find_range l n paddr = None <-> forall j q, (j < n)%nat -> l !! j = Some q -> in_range q paddr = false.
Proof.
  induction n as [|n IH]; simpl; [split; [intros; lia|auto]|].
  destruct (l !! n) as [q|] eqn:En; [destruct (in_range q paddr) eqn:Eq|].
  - split; [discriminate|]. intros H. rewrite (H n q) in Eq by (auto; lia). discriminate.
  - rewrite IH. split; intros H j r Hj Hr.
    + destruct (decide (j = n)) as [->|]; [congruence|]. apply (H j); auto; lia.
    + apply (H j); auto; lia.
  - rewrite IH. split; intros H j r Hj Hr.
    + destruct (decide (j = n)) as [->|]; [congruence|]. apply (H j); auto; lia.
    + apply (H j); auto; lia.
Qed.

Lemma find_range_app l pr paddr :
  find_range (l ++ [pr]) (length l) paddr = find_range l (length l) paddr.
Proof.
  assert (forall n, (n <= length l)%nat -> find_range (l ++ [pr]) n paddr = find_range l n paddr) as H.
  { induction n as [|n IH]; intros Hn; simpl; [reflexivity|].
    rewrite lookup_app_l, IH by lia. reflexivity. }
  apply H. lia.
Qed.

(** A registration is searched first. *)
Lemma get_phys_mem_range_push s pr paddr :
  get_phys_mem_range (push_range s pr) paddr =
  if in_range pr paddr then Some (length (phys_mem_range s), pr) else get_phys_mem_range s paddr.
Proof.
  unfold get_phys_mem_range, push_range; simpl. rewrite length_app, Nat.add_1_r; simpl.
  rewrite list_lookup_middle by reflexivity. rewrite find_range_app. reflexivity.
Qed.

Lemma assert_c_done b (x : unit) : assert_c b = Done x <-> b = true.
Proof. destruct b, x; split; try reflexivity; discriminate. Qed.

(** Inversion of a sequence of asserts in the [res] monad. *)
Ltac inv_res H :=
  repeat match type of H with
  | (_ ← assert_c ?b; _) = Done _ =>
      let E := fresh "E" in destruct b eqn:E; [cbn [mbind res_bind assert_c] in H|discriminate H]
  end.

Lemma in_range_in pr paddr :
  pr_addr pr + pr_size pr < 2 ^ 64 -> 0 <= pr_addr pr -> 0 <= pr_size pr ->
  in_range pr paddr = true <-> pr_addr pr <= paddr < pr_addr pr + pr_size pr.
Proof.
  intros. unfold in_range, u64. rewrite wrapu_small by lia.
  rewrite andb_true_iff, Z.leb_le, Z.ltb_lt. reflexivity.
Qed.

Lemma in_range_size0 pr paddr :
  0 <= pr_addr pr < 2 ^ 64 -> pr_size pr = 0 -> in_range pr paddr = false.
Proof.
  intros Ha Hs. unfold in_range, u64. rewrite Hs, Z.add_0_r, wrapu_small by lia.
  destruct (Z.leb_spec (pr_addr pr) paddr), (Z.ltb_spec paddr (pr_addr pr)); try reflexivity; lia.
Qed.

(** ** Registration and remapping *)

Lemma get_phys_mem_range_Some s paddr i pr :
  get_phys_mem_range s paddr = Some (i, pr) <->
  phys_mem_range s !! i = Some pr /\ in_range pr paddr = true /\
  forall j q, (i < j)%nat -> phys_mem_range s !! j = Some q -> in_range q paddr = false.
Proof.
  unfold get_phys_mem_range. rewrite find_range_Some. split.
  - intros (Hi & Hl & Hr & Hlast). repeat split; auto. intros j q Hj Hq.
    apply (Hlast j); auto. split; [lia|]. eapply lookup_lt_Some; eauto.
  - intros (Hl & Hr & Hlast). repeat split; auto; [eapply lookup_lt_Some; eauto|].
    intros j q Hj Hq. apply (Hlast j); auto; lia.
Qed.

Lemma get_phys_mem_range_None s paddr :
  get_phys_mem_range s paddr = None <->
  forall j q, phys_mem_range s !! j = Some q -> in_range q paddr = false.
Proof.
  unfold get_phys_mem_range. rewrite find_range_None.
  split; intros H j q; [intros Hq|]; eauto using lookup_lt_Some.
Qed.

(** The search returns the most recently registered range that contains the address, and NULL
    exactly when no range contains it. *)
Theorem get_phys_mem_range_last s paddr :
  (forall i pr, get_phys_mem_range s paddr = Some (i, pr) <->
     phys_mem_range s !! i = Some pr /\ in_range pr paddr = true /\
     forall j q, (i < j)%nat -> phys_mem_range s !! j = Some q -> in_range q paddr = false) /\
  (get_phys_mem_range s paddr = None <->
     forall j q, phys_mem_range s !! j = Some q -> in_range q paddr = false).
Proof. split; [intros; apply get_phys_mem_range_Some|apply get_phys_mem_range_None]. Qed.

(** A device registration that succeeds answers exactly the addresses of its window; all other
    addresses resolve as before, and the table stays within its 32 entries. *)
Theorem cpu_register_device_lookup s addr size dev flags s' i :
  0 <= addr -> 0 <= size -> addr + size < 2 ^ 64 -> tst flags DEVIO_DISABLED = false ->
  cpu_register_device s addr size dev flags = Done (s', i) ->
  (forall paddr, get_phys_mem_range s' paddr =
    if (addr <=? paddr) && (paddr <? addr + size)
    then Some (i, mkPhysMemoryRange addr size size false 0 0 0 None [] 0 dev flags)
    else get_phys_mem_range s paddr) /\
  n_phys_mem_range s' = n_phys_mem_range s + 1 /\ n_phys_mem_range s' <= PHYS_MEM_RANGE_MAX.
Proof.
  intros Ha Hs Hov Hf H. unfold cpu_register_device in H. inv_res H. rewrite Hf in H.
  injection H as <- <-. apply Z.ltb_lt in E. split; [|split].
  - intros paddr. rewrite get_phys_mem_range_push. unfold in_range; cbn [pr_addr pr_size].
    unfold u64. rewrite wrapu_small by lia. reflexivity.
  - unfold n_phys_mem_range, push_range; simpl. rewrite length_app; simpl. lia.
  - unfold n_phys_mem_range, push_range in *; simpl. rewrite length_app; simpl. lia.
Qed.

Lemma cpu_register_device_lookup_witness :
  let s' := push_range phys_mem_map_init (mkPhysMemoryRange 0x2000000 0xc0000 0xc0000 false 0 0 0 None [] 0 Dev_clint DEVIO_SIZE32) in
  get_phys_mem_range s' 0x2004000 = Some (0%nat, mkPhysMemoryRange 0x2000000 0xc0000 0xc0000 false 0 0 0 None [] 0 Dev_clint DEVIO_SIZE32).
Proof.
  exact (proj1 (cpu_register_device_lookup phys_mem_map_init 0x2000000 0xc0000 Dev_clint DEVIO_SIZE32 _ 0%nat
    ltac:(lia) ltac:(lia) ltac:(lia) eq_refl eq_refl) 0x2004000).
Defined.

Lemma set_range_lookup_other s i pr j : i <> j ->
  phys_mem_range (set_range s i pr) !! j = phys_mem_range s !! j.
Proof. intros. unfold set_range; simpl. apply list_lookup_insert_ne. auto. Qed.

Lemma set_range_lookup_same s i pr : (i < length (phys_mem_range s))%nat ->
  phys_mem_range (set_range s i pr) !! i = Some pr.
Proof. intros. unfold set_range; simpl. apply list_lookup_insert_eq. auto. Qed.

(** Disabling a mapping makes its range unreachable at every address and flushes the write TLB of
    a RAM range that was mapped; enabling it again at [addr] restores the registered size there.
    No other range changes. *)
Theorem phys_mem_set_addr_spec {St} (flush : Z -> Z -> St -> St) s i pr addr st :
  phys_mem_range s !! i = Some pr -> 0 <= pr_addr pr < 2 ^ 64 ->
  (let '(s', st') := phys_mem_set_addr flush s i pr addr false st in
   (forall paddr q, get_phys_mem_range s' paddr <> Some (i, q)) /\
   (forall j, j <> i -> phys_mem_range s' !! j = phys_mem_range s !! j) /\
   st' = if pr_is_ram pr && negb (pr_size pr =? 0)
         then flush (pr_phys_mem pr) (pr_org_size pr) st else st) /\
  (let '(s', st') := phys_mem_set_addr flush s i pr addr true st in
   exists q, phys_mem_range s' !! i = Some q /\ pr_addr q = addr /\
     (pr_size q = pr_org_size pr \/ (q = pr /\ pr_size pr <> 0)) /\
     (forall j, j <> i -> phys_mem_range s' !! j = phys_mem_range s !! j)).
Proof.
  intros Hi Ha. assert (i < length (phys_mem_range s))%nat by (eapply lookup_lt_Some; eauto).
  unfold phys_mem_set_addr. replace (if negb (pr_is_ram pr) then _ else _) with
    (default_set_addr flush s i pr addr false st) by (destruct (pr_is_ram pr); reflexivity).
  replace (if negb (pr_is_ram pr) then _ else _) with
    (default_set_addr flush s i pr addr true st) by (destruct (pr_is_ram pr); reflexivity).
  unfold default_set_addr. split.
  - destruct (Z.eqb_spec (pr_size pr) 0) as [E0|E0]; cbn [negb].
    + repeat split; auto.
      * intros paddr q Hq. apply get_phys_mem_range_Some in Hq as (Hl & Hr & _).
        rewrite Hi in Hl. injection Hl as <-. rewrite in_range_size0 in Hr by auto. discriminate.
      * rewrite andb_false_r. reflexivity.
    + repeat split.
      * intros paddr q Hq. apply get_phys_mem_range_Some in Hq as (Hl & Hr & _).
        rewrite set_range_lookup_same in Hl by auto. injection Hl as <-.
        rewrite in_range_size0 in Hr by (cbn; auto; lia). discriminate.
      * intros. apply set_range_lookup_other. auto.
      * rewrite andb_true_r. destruct (pr_is_ram pr); reflexivity.
  - destruct (Z.eqb_spec (pr_size pr) 0) as [E0|E0]; cbn [orb].
    + eexists. rewrite set_range_lookup_same by auto. repeat split; auto using set_range_lookup_other.
    + destruct (Z.eqb_spec (pr_addr pr) addr) as [E1|E1]; cbn [negb].
      * exists pr. repeat split; auto.
      * eexists. rewrite set_range_lookup_same by auto. repeat split; auto using set_range_lookup_other.
Qed.

(** ** Dirty bitmaps *)

(** A range registered with [DEVRAM_FLAG_DIRTY_BITS]: two tables of [words] 32-bit words, one of
    them active. *)
Record dirty_wf (pr : PhysMemoryRange) (words : nat) : Prop := {
  dwf_tab : exists a b, pr_dirty_bits_tab pr = [a; b] /\ length a = words /\ length b = words;
  dwf_index : pr_dirty_bits_index pr = 0 \/ pr_dirty_bits_index pr = 1;
  dwf_active : pr_dirty_bits pr = Some (pr_dirty_bits_index pr);
  dwf_size : pr_dirty_bits_size pr = Z.of_nat words * 4 }.

Lemma nth_set_table {A} (tab : list (list A)) t x :
  (t < length tab)%nat -> nth t (<[t := x]> tab) [] = x.
Proof. intros. apply nth_lookup_Some with (d := []). apply list_lookup_insert_eq. auto. Qed.

Lemma dirty_wf_active_length pr words : dirty_wf pr words -> length (active_dirty_bits pr) = words.
Proof.
  intros [(a & b & Ht & La & Lb) Hi Ha _]. unfold active_dirty_bits. rewrite Ha, Ht.
  destruct Hi as [-> | ->]; auto.
Qed.

Lemma dirty_wf_index_lt pr words : dirty_wf pr words ->
  (Z.to_nat (pr_dirty_bits_index pr) < length (pr_dirty_bits_tab pr))%nat.
Proof.
  intros [(a & b & Ht & La & Lb) Hi Ha _]. rewrite Ht. destruct Hi as [-> | ->]; simpl; lia.
Qed.

Lemma set_dirty_table_active pr words tab : dirty_wf pr words -> length tab = words ->
  let pr' := set_dirty_table pr (pr_dirty_bits_index pr) tab in
  dirty_wf pr' words /\ active_dirty_bits pr' = tab.
Proof.
  intros Hwf Hl. pose proof (dirty_wf_index_lt _ _ Hwf) as Hlt. destruct Hwf as [(a & b & Ht & La & Lb) Hi Ha Hs].
  cbn. split.
  - split; cbn; auto. rewrite Ht. destruct Hi as [-> | ->]; simpl; eauto 10.
  - unfold active_dirty_bits, set_dirty_table; cbn. rewrite Ha. apply nth_set_table. auto.
Qed.

Lemma testbit_1_shift k j : 0 <= k < 32 -> 0 <= j -> Z.testbit (u32 (1 <<' k)) j = (k =? j).
Proof.
  intros Hk Hj. rewrite u32_spec, Z.shiftl_1_l, Z.pow2_bits_eqb by lia.
  destruct (Z.eqb_spec k j), (Z.ltb_spec j 32); try reflexivity; lia.
Qed.

Lemma page_split p q : 0 <= p -> 0 <= q ->
  (p >>' 5 =? q >>' 5) && (p &' 31 =? q &' 31) = (p =? q).
Proof.
  intros Hp Hq. change 31 with (Z.ones 5). rewrite !Z.land_ones, !Z.shiftr_div_pow2 by lia.
  change (2 ^ 5) with 32. pose proof (Z.div_mod p 32). pose proof (Z.div_mod q 32).
  destruct (Z.eqb_spec (p / 32) (q / 32)), (Z.eqb_spec (p mod 32) (q mod 32)), (Z.eqb_spec p q);
    try reflexivity; subst; try congruence; lia.
Qed.

Lemma is_dirty_testbit pr words off : dirty_wf pr words -> 0 <= off ->
  phys_mem_is_dirty_bit pr off =
  Z.testbit (aget (active_dirty_bits pr) ((off >>' 12) >>' 5)) ((off >>' 12) &' 31).
Proof.
  intros [_ _ Ha _] Ho. unfold phys_mem_is_dirty_bit, DEVRAM_PAGE_SIZE_LOG2. rewrite Ha.
  change 1 with (2 ^ 0). rewrite tst_pow2 by lia. rewrite Z.shiftr_spec by lia. f_equal.
Qed.

(** Setting the dirty bit of an offset marks its page and no other, and keeps the pair of bitmaps
    well formed. *)
Theorem phys_mem_dirty_bit_set pr words off off' :
  dirty_wf pr words -> 0 <= off < Z.of_nat words * 32 * DEVRAM_PAGE_SIZE -> 0 <= off' ->
  dirty_wf (phys_mem_set_dirty_bit pr off) words /\
  phys_mem_is_dirty_bit (phys_mem_set_dirty_bit pr off) off' =
    phys_mem_is_dirty_bit pr off' || (off / DEVRAM_PAGE_SIZE =? off' / DEVRAM_PAGE_SIZE).
Proof.
  unfold DEVRAM_PAGE_SIZE. intros Hwf Ho Ho'. unfold phys_mem_set_dirty_bit. rewrite (dwf_active _ _ Hwf).
  pose proof (dirty_wf_active_length _ _ Hwf) as Hlen.
  unfold DEVRAM_PAGE_SIZE_LOG2. set (p := off >>' 12). set (tab := active_dirty_bits pr).
  assert (0 <= p < Z.of_nat words * 32) as Hp.
  { unfold p. rewrite Z.shiftr_div_pow2 by lia. change (2 ^ 12) with 4096.
    split; [apply Z.div_pos; lia|apply Z.div_lt_upper_bound; lia]. }
  assert (0 <= p >>' 5 < Z.of_nat words) as Hp5.
  { rewrite Z.shiftr_div_pow2 by lia. change (2 ^ 5) with 32.
    split; [apply Z.div_pos; lia|apply Z.div_lt_upper_bound; lia]. }
  destruct (set_dirty_table_active pr words
     (aset tab (p >>' 5) (aget tab (p >>' 5) |' u32 (1 <<' (p &' 31)))) Hwf) as [Hwf' Hact].
  { unfold aset. rewrite length_insert. apply Hlen. }
  split; [exact Hwf'|]. rewrite !(is_dirty_testbit _ words) by (auto; lia). cbn zeta in Hact. rewrite Hact.
  assert (0 <= off' >>' 12) as Hq by (apply Z.shiftr_nonneg; lia).
  assert (0 <= (off' >>' 12) &' 31) as Hq' by (apply Z.land_nonneg; lia).
  rewrite aget_aset by (try apply Z.shiftr_nonneg; unfold tab; rewrite ?Hlen; lia).
  assert (0 <= p &' 31 < 32) as Hk.
  { change 31 with (Z.ones 5). rewrite Z.land_ones by lia. apply Z.mod_pos_bound. lia. }
  replace (off / 4096 =? off' / 4096) with (p =? off' >>' 12) by
    (unfold p; rewrite !Z.shiftr_div_pow2 by lia; reflexivity).
  rewrite <- (page_split p (off' >>' 12)) by lia. destruct (Z.eqb_spec (p >>' 5) ((off' >>' 12) >>' 5)) as [E|E].
  - rewrite Z.lor_spec, testbit_1_shift by (try exact Hk; assumption). unfold tab. rewrite E. cbn [andb]. reflexivity.
  - cbn [andb]. rewrite orb_false_r. reflexivity.
Qed.

(** Collecting the dirty bitmap returns what was marked, leaves every page clean, changes no other
    range, and flushes the write TLB exactly when a page of a mapped range was dirty. *)
Theorem default_get_dirty_bits_spec {St} (flush : Z -> Z -> St -> St) s i pr words st :
  dirty_wf pr words -> phys_mem_range s !! i = Some pr ->
  exists pr', default_get_dirty_bits flush s i pr st =
    (active_dirty_bits pr, set_range s i pr',
     if existsb (fun w => negb (w =? 0)) (active_dirty_bits pr) && negb (pr_size pr =? 0)
     then flush (pr_phys_mem pr) (pr_org_size pr) st else st) /\
  dirty_wf pr' words /\ (forall off, 0 <= off -> phys_mem_is_dirty_bit pr' off = false).
Proof.
  intros Hwf Hi. pose proof (dirty_wf_active_length _ _ Hwf) as Hlen.
  unfold default_get_dirty_bits. rewrite (dwf_size _ _ Hwf), Z.div_mul, Nat2Z.id by lia.
  rewrite take_ge by lia. eexists. split; [reflexivity|].
  assert (forall pr0, dirty_wf pr0 words ->
    let pr1 := set_dirty_table pr0 (pr_dirty_bits_index pr0) (replicate words 0) in
    dirty_wf pr1 words /\ forall off, 0 <= off -> phys_mem_is_dirty_bit pr1 off = false) as H.
  { intros pr0 H0. destruct (set_dirty_table_active pr0 words (replicate words 0) H0) as [H1 H2];
      [apply length_replicate|]. split; [exact H1|]. intros off Ho.
    rewrite (is_dirty_testbit _ words) by auto. rewrite H2. unfold aget.
    rewrite nth_lookup. destruct (replicate words 0 !! _) eqn:E; simpl.
    - apply lookup_replicate in E as [-> _]. apply Z.bits_0.
    - apply Z.bits_0. }
  set (pr0 := pr <| pr_dirty_bits_index := Z.lxor (pr_dirty_bits_index pr) 1 |>
                 <| pr_dirty_bits := Some (Z.lxor (pr_dirty_bits_index pr) 1) |>).
  apply (H pr0). destruct Hwf as [Ht Hx Ha Hs]. split; cbn; auto.
  destruct Hx as [-> | ->]; auto.
Qed.

(** ** A tracked range of 128 pages, at work *)

Definition tracked_range : PhysMemoryRange :=
  mkPhysMemoryRange 0x80000000 0x80000 0x80000 true DEVRAM_FLAG_DIRTY_BITS 0x100000 16 (Some 0)
    [[0; 0; 0; 0]; [0; 0; 0; 0]] 0 Dev_mmio 0.

Lemma tracked_range_wf : dirty_wf tracked_range 4.
Proof. split; [exists [0; 0; 0; 0], [0; 0; 0; 0]; auto|left; reflexivity|reflexivity|reflexivity]. Qed.

Lemma phys_mem_dirty_bit_set_witness :
  phys_mem_is_dirty_bit (phys_mem_set_dirty_bit tracked_range 0x23456) 0x23fff = true.
Proof.
  exact (proj2 (phys_mem_dirty_bit_set tracked_range 4 0x23456 0x23fff tracked_range_wf
    ltac:(unfold DEVRAM_PAGE_SIZE; lia) ltac:(lia))).
Defined.

Lemma default_get_dirty_bits_spec_witness :
  exists pr', default_get_dirty_bits (fun p n (l : list (Z * Z)) => (p, n) :: l) (mkPhysMemoryMap [tracked_range]) 0 tracked_range [] =
    ([0; 0; 0; 0], set_range (mkPhysMemoryMap [tracked_range]) 0 pr', []) /\
  dirty_wf pr' 4 /\ (forall off, 0 <= off -> phys_mem_is_dirty_bit pr' off = false).
Proof.
  exact (default_get_dirty_bits_spec (fun p n (l : list (Z * Z)) => (p, n) :: l) (mkPhysMemoryMap [tracked_range]) 0
    tracked_range 4 [] tracked_range_wf eq_refl).
Defined.

Lemma phys_mem_set_addr_spec_witness :
  let '(s', st') := phys_mem_set_addr (fun p n (l : list (Z * Z)) => (p, n) :: l) (mkPhysMemoryMap [tracked_range]) 0 tracked_range 0 false [] in
  (forall paddr q, get_phys_mem_range s' paddr <> Some (0%nat, q)) /\ st' = [(0x100000, 0x80000)].
Proof.
  destruct (phys_mem_set_addr_spec (fun p n (l : list (Z * Z)) => (p, n) :: l) (mkPhysMemoryMap [tracked_range]) 0
    tracked_range 0 [] eq_refl ltac:(cbn; lia)) as [(H1 & _ & H2) _].
  split; [exact H1|exact H2].
Defined.
