(* ===== verification/Hostmem.v ===== *)
(** * Host memory

    The emulator reads and writes guest RAM through host pointers
    ([*(uint64_t * )ptr]).  Host memory is a byte map; a pointer is its address,
    and the host is little-endian (the emulator relies on it). *)

From S2P Require Import Prelude.
From stdpp Require Import base list gmap.
From Stdlib Require Import ZArith Lia Bool.
Local Open Scope Z_scope.

Abbreviation hostmem := (gmap Z Z).

Definition ld8 (m : hostmem) (p : Z) : Z := default 0 (m !! p).

(** [*(uintN_t * )p] with [n = N/8]. *)
Fixpoint ld (n : nat) (m : hostmem) (p : Z) : Z :=
  match n with O => 0 | S n => ld8 m p + 256 * ld n m (p + 1) end.

(** [*(uintN_t * )p = v]. *)
Fixpoint st (n : nat) (m : hostmem) (p v : Z) : hostmem :=
  match n with O => m | S n => st n (<[p := v mod 256]> m) (p + 1) (v / 256) end.

(** The access widths of the emulator ([size_log2] of the C code is 0, 1, 2 or 3). *)
Inductive width := W8 | W16 | W32 | W64.

#[global] Instance width_eq_dec : EqDecision width.
Proof. solve_decision. Defined.

Definition size_log2 (w : width) : Z := match w with W8 => 0 | W16 => 1 | W32 => 2 | W64 => 3 end.
Definition bytes (w : width) : nat := match w with W8 => 1 | W16 => 2 | W32 => 4 | W64 => 8 end.
Definition wsize (w : width) : Z := Z.of_nat (bytes w).
Definition wbits (w : width) : Z := 8 * wsize w.

Definition hostmem_wf (m : hostmem) : Prop := forall p v, m !! p = Some v -> in_u 8 v.

Lemma ld8_range m p : hostmem_wf m -> 0 <= ld8 m p < 256.
Proof.
  intros H. unfold ld8. destruct (m !! p) eqn:E; simpl; [|lia]. apply H in E. exact E.
Qed.

Lemma ld_range n m p : hostmem_wf m -> in_u (8 * Z.of_nat n) (ld n m p).
Proof.
  intros Hm. revert p. induction n as [|n IH]; intros p; unfold in_u in *; cbn [ld]; [simpl; lia|].
  rewrite Nat2Z.inj_succ, Z.mul_succ_r, Z.pow_add_r by lia. change (2 ^ 8) with 256.
  specialize (IH (p + 1)). pose proof (ld8_range m p Hm). nia.
Qed.

Lemma st_lookup_lt n m p v q : q < p -> st n m p v !! q = m !! q.
Proof.
  revert m p v. induction n as [|n IH]; intros m p v Hq; simpl; [reflexivity|].
  rewrite IH by lia. apply lookup_insert_ne. lia.
Qed.

Lemma st_lookup_ge n m p v q : p + Z.of_nat n <= q -> st n m p v !! q = m !! q.
Proof.
  revert m p v. induction n as [|n IH]; intros m p v Hq; simpl; [reflexivity|].
  rewrite IH by lia. apply lookup_insert_ne. lia.
Qed.

Lemma st_wf n m p v : hostmem_wf m -> hostmem_wf (st n m p v).
Proof.
  revert m p v. induction n as [|n IH]; intros m p v Hm; simpl; [exact Hm|].
  apply IH. intros q w. rewrite lookup_insert. case_decide.
  - intros [= <-]. apply Z.mod_pos_bound. lia.
  - apply Hm.
Qed.

Lemma ld_ext n m m' p :
  (forall q, p <= q < p + Z.of_nat n -> m !! q = m' !! q) -> ld n m p = ld n m' p.
Proof.
  revert p. induction n as [|n IH]; intros p H; simpl; [reflexivity|].
  unfold ld8. rewrite (H p) by lia. rewrite (IH (p + 1)); [reflexivity|]. intros. apply H. lia.
Qed.

(** A load sees the last store to the same location. *)
Lemma ld_st_same n m p v : ld n (st n m p v) p = v mod 2 ^ (8 * Z.of_nat n).
Proof.
  revert m p v. induction n as [|n IH]; intros m p v; cbn [ld st].
  - rewrite Z.mod_1_r. reflexivity.
  - rewrite IH. unfold ld8. rewrite st_lookup_lt, lookup_insert_eq by lia. cbn [default].
    replace (2 ^ (8 * Z.of_nat (S n))) with (256 * 2 ^ (8 * Z.of_nat n)).
    + rewrite Z.rem_mul_r by (try lia; apply Z.pow_nonzero; lia). reflexivity.
    + rewrite Nat2Z.inj_succ, Z.mul_succ_r, Z.pow_add_r by lia. change (2 ^ 8) with 256. lia.
Qed.

(** A load is unaffected by a disjoint store. *)
Lemma ld_st_disjoint n k m p q v :
  q + Z.of_nat n <= p \/ p + Z.of_nat k <= q -> ld n (st k m p v) q = ld n m q.
Proof.
  intros H. apply ld_ext. intros r Hr. destruct H.
  - apply st_lookup_lt. lia.
  - apply st_lookup_ge. lia.
Qed.

(** A wide load is its halves. *)
Lemma ld_app n k m p :
  ld (n + k) m p = ld n m p + 2 ^ (8 * Z.of_nat n) * ld k m (p + Z.of_nat n).
Proof.
  revert p. induction n as [|n IH]; intros p; cbn [ld Nat.add].
  - rewrite Z.add_0_r. simpl. lia.
  - rewrite IH, Nat2Z.inj_succ, Z.mul_succ_r, Z.pow_add_r by lia. change (2 ^ 8) with 256.
    replace (p + Z.succ (Z.of_nat n)) with (p + 1 + Z.of_nat n) by lia. lia.
Qed.

Lemma wbits_cases w : wbits w = 8 \/ wbits w = 16 \/ wbits w = 32 \/ wbits w = 64.
Proof. destruct w; auto. Qed.
Lemma wsize_cases w : wsize w = 1 \/ wsize w = 2 \/ wsize w = 4 \/ wsize w = 8.
Proof. destruct w; auto. Qed.

(** A list of 32-bit words stored from an address on. *)
Definition store_words (base : Z) (l : list Z) : hostmem :=
  fold_left (fun m '(i, w) => st 4 m (base + 4 * i) w) (zip (seqZ 0 (Z.of_nat (length l))) l) ∅.

Lemma store_words_wf base l : hostmem_wf (store_words base l).
Proof.
  unfold store_words. generalize (zip (seqZ 0 (Z.of_nat (length l))) l).
  assert (forall ps m, hostmem_wf m -> hostmem_wf (fold_left (fun m '(i, w) => st 4 m (base + 4 * i) w) ps m)) as H.
  { induction ps as [|[i w] ps IH]; intros m Hm; [exact Hm|]. apply IH, st_wf, Hm. }
  intros ps. apply H. intros p v. rewrite lookup_empty. discriminate.
Qed.
