(* ===== verification/Bytes.v ===== *)
(** * Byte strings in host memory

    The blocks of bytes that [memcpy], [fread] and [fwrite] move: reading and
    writing them in host memory, taking them from and putting them into a
    buffer of the C program.  A buffer is the list of its bytes; an access
    outside it is undefined. *)

From S2P Require Import Prelude Cutils Hostmem.
From stdpp Require Import base list gmap.
From Stdlib Require Import ZArith Lia Bool.
Local Open Scope Z_scope.

Definition is_bytes (l : list Z) : Prop := Forall (in_u 8) l.

(** A conversion to [uint8_t] changes nothing on bytes. *)
Lemma map_u8 l : is_bytes l -> map u8 l = l.
Proof. intros H. induction H as [|b l Hb _ IH]; [reflexivity|]. cbn [map]. unfold u8 at 1. rewrite IH, (wrapu_small 8 b Hb). reflexivity. Qed.
Lemma bytes_map_u8 l : is_bytes (map u8 l).
Proof. apply Forall_map, Forall_true. intros. apply wrapu_range. lia. Qed.
Lemma zlen_map_u8 l : zlen (map u8 l) = zlen l.
Proof. unfold zlen. rewrite length_map. reflexivity. Qed.

(** [memcpy(p, l, len)] with [p] a host pointer. *)
Fixpoint st_bytes (m : hostmem) (p : Z) (l : list Z) : hostmem :=
  match l with [] => m | b :: l => st_bytes (<[p := b]> m) (p + 1) l end.

(** The [n] bytes at a host pointer. *)
Definition ld_bytes (m : hostmem) (p n : Z) : list Z := map (fun i => ld8 m (p + i)) (seqZ 0 n).

(** [memcpy(buf + pos, data, len)] and the bytes a [memcpy] from [buf + pos] reads. *)
Definition buf_put (buf : list Z) (pos : Z) (data : list Z) : res (list Z) :=
  if (0 <=? pos) && (pos + zlen data <=? zlen buf)
  then Done (take (Z.to_nat pos) buf ++ data ++ drop (Z.to_nat pos + List.length data) buf)
  else Stop UndefinedBehaviour.
Definition buf_get (buf : list Z) (pos n : Z) : res (list Z) :=
  if (0 <=? pos) && (0 <=? n) && (pos + n <=? zlen buf)
  then Done (take (Z.to_nat n) (drop (Z.to_nat pos) buf))
  else Stop UndefinedBehaviour.

(** ** Memory *)

Lemma st_bytes_ld8 l : forall m p q, ld8 (st_bytes m p l) q = if (p <=? q) && (q <? p + zlen l) then aget l (q - p) else ld8 m q.
Proof.
  induction l as [|b l IH]; intros m p q; cbn [st_bytes].
  - change (zlen []) with 0. destruct (Z.leb_spec p q), (Z.ltb_spec q (p + 0)); try lia; reflexivity.
  - rewrite IH. change (zlen (b :: l)) with (zlen ([b] ++ l)). rewrite zlen_app. change (zlen [b]) with 1. pose proof (zlen_nonneg l).
    destruct (Z.leb_spec (p + 1) q), (Z.ltb_spec q (p + 1 + zlen l)), (Z.leb_spec p q), (Z.ltb_spec q (p + (1 + zlen l))); try lia; cbn [andb].
    + unfold aget. replace (Z.to_nat (q - p)) with (S (Z.to_nat (q - (p + 1)))) by lia. reflexivity.
    + unfold ld8. rewrite lookup_insert_ne by lia. reflexivity.
    + assert (q = p) as -> by lia. unfold ld8. rewrite lookup_insert_eq, Z.sub_diag. reflexivity.
    + unfold ld8. rewrite lookup_insert_ne by lia. reflexivity.
Qed.

Lemma st_bytes_outside m p l q : zlen l = 0 \/ q < p \/ p + zlen l <= q -> ld8 (st_bytes m p l) q = ld8 m q.
Proof. intros H. rewrite st_bytes_ld8. destruct (Z.leb_spec p q), (Z.ltb_spec q (p + zlen l)); try lia; reflexivity. Qed.

Lemma st_bytes_wf l : forall x a, hostmem_wf x -> is_bytes l -> hostmem_wf (st_bytes x a l).
Proof.
  induction l as [|b l IH]; intros x a Hm Hl; [exact Hm|]. inversion_clear Hl. cbn [st_bytes]. apply IH; [|assumption].
  intros q v Hq. apply lookup_insert_Some in Hq as [[_ <-]|[_ Hq]]; [assumption|exact (Hm q v Hq)].
Qed.

Lemma length_ld_bytes m p n : List.length (ld_bytes m p n) = Z.to_nat n.
Proof. unfold ld_bytes. rewrite length_map, length_seqZ. reflexivity. Qed.
Lemma zlen_ld_bytes m p n : 0 <= n -> zlen (ld_bytes m p n) = n.
Proof. intros. unfold zlen. rewrite length_ld_bytes. lia. Qed.

Lemma ld_bytes_lookup m p n i : (i < Z.to_nat n)%nat -> ld_bytes m p n !! i = Some (ld8 m (p + Z.of_nat i)).
Proof. intros Hi. unfold ld_bytes. rewrite list_lookup_fmap, lookup_seqZ_lt by lia. reflexivity. Qed.

Lemma ld_bytes_bytes m p n : hostmem_wf m -> is_bytes (ld_bytes m p n).
Proof. intros Hm. apply Forall_map, Forall_true. intros i. apply ld8_range, Hm. Qed.

(** Reading a block depends on its bytes only. *)
Lemma ld_bytes_ext m m' p n : (forall q, p <= q < p + n -> ld8 m q = ld8 m' q) -> ld_bytes m p n = ld_bytes m' p n.
Proof.
  intros H. apply map_ext_in. intros i Hi. apply list_elem_of_In, elem_of_seqZ in Hi. apply H. lia.
Qed.

Lemma ld_bytes_split m p a b : 0 <= a -> 0 <= b -> ld_bytes m p (a + b) = ld_bytes m p a ++ ld_bytes m (p + a) b.
Proof.
  intros Ha Hb. unfold ld_bytes. rewrite seqZ_app by lia. rewrite map_app. f_equal.
  replace (seqZ (0 + a) b) with (map (Z.add a) (seqZ 0 b)).
  - rewrite map_map. apply map_ext. intros i. f_equal. lia.
  - change (map (Z.add a) (seqZ 0 b)) with (Z.add a <$> seqZ 0 b). rewrite fmap_add_seqZ. f_equal. lia.
Qed.

Lemma ld_bytes_st_same m p l : ld_bytes (st_bytes m p l) p (zlen l) = l.
Proof.
  apply list_eq_same_length with (n := List.length l); [reflexivity|rewrite length_ld_bytes; unfold zlen; lia|].
  intros i x y Hi Hx Hy. rewrite ld_bytes_lookup in Hx by (unfold zlen; lia). injection Hx as <-.
  rewrite st_bytes_ld8. unfold zlen.
  destruct (Z.leb_spec p (p + Z.of_nat i)), (Z.ltb_spec (p + Z.of_nat i) (p + Z.of_nat (List.length l))); try lia; cbn [andb].
  unfold aget. replace (Z.to_nat (p + Z.of_nat i - p)) with i by lia. apply nth_lookup_Some, Hy.
Qed.

Lemma ld_bytes_st_disjoint m p l q n : q + n <= p \/ p + zlen l <= q -> ld_bytes (st_bytes m p l) q n = ld_bytes m q n.
Proof. intros H. apply ld_bytes_ext. intros r Hr. apply st_bytes_outside. lia. Qed.

(** A block written in two pieces. *)
Lemma st_bytes_app l : forall m p r, st_bytes m p (l ++ r) = st_bytes (st_bytes m p l) (p + zlen l) r.
Proof.
  induction l as [|b l IH]; intros m p r; [rewrite Z.add_0_r; reflexivity|].
  cbn [app st_bytes]. rewrite IH. f_equal. change (b :: l) with ([b] ++ l). rewrite zlen_app. change (zlen [b]) with 1. lia.
Qed.

(** A little-endian word is the block of its bytes. *)
Lemma ld_of_bytes n m p : ld n m p = fold_right (fun b v => b + 256 * v) 0 (ld_bytes m p (Z.of_nat n)).
Proof.
  revert p. induction n as [|n IH]; intros p; [reflexivity|].
  replace (Z.of_nat (S n)) with (1 + Z.of_nat n) by lia. rewrite ld_bytes_split by lia. cbn [ld].
  rewrite IH, Z.add_comm. change (ld_bytes m p 1) with [ld8 m (p + 0)]. cbn [app fold_right]. rewrite Z.add_0_r. lia.
Qed.

(** ** Buffers *)

Lemma buf_put_run buf pos data : 0 <= pos -> pos + zlen data <= zlen buf ->
  buf_put buf pos data = Done (take (Z.to_nat pos) buf ++ data ++ drop (Z.to_nat pos + List.length data) buf).
Proof. intros. unfold buf_put. destruct (Z.leb_spec 0 pos), (Z.leb_spec (pos + zlen data) (zlen buf)); try lia. reflexivity. Qed.

Lemma buf_get_run buf pos n : 0 <= pos -> 0 <= n -> pos + n <= zlen buf ->
  buf_get buf pos n = Done (take (Z.to_nat n) (drop (Z.to_nat pos) buf)).
Proof. intros. unfold buf_get. destruct (Z.leb_spec 0 pos), (Z.leb_spec 0 n), (Z.leb_spec (pos + n) (zlen buf)); try lia. reflexivity. Qed.

(** Filling the middle of a buffer whose beginning is known. *)
Lemma buf_put_app a b c data : List.length b = List.length data -> buf_put (a ++ b ++ c) (zlen a) data = Done (a ++ data ++ c).
Proof.
  intros Hb. rewrite buf_put_run by (rewrite ?zlen_app; unfold zlen; lia). unfold zlen. rewrite Nat2Z.id, take_app_length.
  rewrite <- Hb, drop_app_add', drop_app_length by reflexivity. reflexivity.
Qed.

Lemma buf_get_app a b c : buf_get (a ++ b ++ c) (zlen a) (zlen b) = Done b.
Proof.
  rewrite buf_get_run by (rewrite ?zlen_app; pose proof (zlen_nonneg a); pose proof (zlen_nonneg b); pose proof (zlen_nonneg c); lia).
  unfold zlen. rewrite !Nat2Z.id, drop_app_length, take_app_length. reflexivity.
Qed.

Lemma buf_put_length buf pos data buf' : buf_put buf pos data = Done buf' -> List.length buf' = List.length buf.
Proof.
  unfold buf_put. destruct (Z.leb_spec 0 pos), (Z.leb_spec (pos + zlen data) (zlen buf)); cbn [andb]; try discriminate.
  intros [= <-]. unfold zlen in *. rewrite !length_app, length_take, length_drop. lia.
Qed.

(** ** C strings *)

(** A C string: no terminator inside. *)
Definition cstring (l : list Z) : Prop := Forall (fun c => c <> 0) l.
#[export] Instance cstring_dec l : Decision (cstring l).
Proof. unfold cstring. apply _. Defined.

Lemma cstr_app s r : cstring s -> cstr (s ++ 0 :: r) = s.
Proof.
  unfold cstr. induction 1 as [|c s Hc Hs IH]; [reflexivity|]. cbn [app strlen]. destruct (Z.eqb_spec c 0); [contradiction|]. cbn [take]. rewrite IH. reflexivity.
Qed.

Lemma cstr_id s : cstring s -> cstr s = s.
Proof.
  intros H. unfold cstr. induction H as [|c s Hc _ IH]; [reflexivity|]. cbn [strlen]. destruct (Z.eqb_spec c 0); [contradiction|]. cbn [take]. rewrite IH. reflexivity.
Qed.
