(* ===== verification/CpuState.v ===== *)
(** * CPU state ([riscv_cpu.h]) and its plain accessors ([riscv_cpu.cpp])

    [RISCVCPUState] is the C struct field by field (the back pointers to the
    machine and the memory map live in [System], below).  [System] is what a
    function of the CPU can reach: the hart, the machine-wide fields it reads
    through [s->machine], the physical memory map, host memory, and the device
    world behind the [read_func]/[write_func] callbacks. *)

From S2P Require Import Prelude Riscv Iomem Hostmem.
From stdpp Require Import base list gmap.
From Stdlib Require Import ZArith Lia Bool.
Local Open Scope Z_scope.
Local Open Scope bits_scope.

Record TLBEntry := mkTLBEntry { vaddr : Z; mem_addend : Z }.

(** [struct pmp_addr]: [lo; hi), not inclusive. *)
Record pmp_addr := mkpmp_addr { lo : Z; hi : Z }.

(** [RISCVCTFInfo]: the enumerators, as the integers the hint computation adds up. *)
Definition ctf_nop := 1.
Definition ctf_taken_jump := 2.
Definition ctf_taken_branch := 3.
Definition ctf_taken_jalr := 4.
Definition ctf_taken_jalr_pop := 5.
Definition ctf_taken_jalr_push := 6.
Definition ctf_taken_jalr_pop_push := 7.

Record RISCVCPUState := mkRISCVCPUState {
  pc : Z;
  reg : list Z;
  reg_prior : list Z;
  most_recently_written_reg : Z;
  fp_reg : list Z;
  most_recently_written_fp_reg : Z;
  fflags : Z;
  frm : Z;
  priv : Z;
  fs : Z;
  insn_counter : Z;
  minstret : Z;
  mcycle : Z;
  debug_mode : bool;
  stop_the_counter : bool;
  power_down_flag : bool;
  terminate_simulation : bool;
  pending_exception : Z;
  pending_tval : Z;
  mstatus : Z;
  mtvec : Z;
  mscratch : Z;
  mepc : Z;
  mcause : Z;
  mtval : Z;
  mvendorid : Z;
  marchid : Z;
  mimpid : Z;
  mhartid : Z;
  misa : Z;
  mie : Z;
  mip : Z;
  medeleg : Z;
  mideleg : Z;
  mcounteren : Z;
  mcountinhibit : Z;
  tselect : Z;
  tdata1 : list Z;
  tdata2 : list Z;
  tdata3 : list Z;
  mhpmevent : list Z;
  csr_pmpcfg : list Z;
  csr_pmpaddr : list Z;
  pmp_n : Z;
  pmp : list pmp_addr;
  pmpcfg : list Z;
  stvec : Z;
  sscratch : Z;
  sepc : Z;
  scause : Z;
  stval : Z;
  satp : Z;
  scounteren : Z;
  dcsr : Z;
  dpc : Z;
  dscratch : Z;
  plic_enable_irq : Z;
  load_res : Z;
  physical_addr_len : Z;
  tlb_read : list TLBEntry;
  tlb_write : list TLBEntry;
  tlb_code : list TLBEntry;
  tlb_read_paddr_addend : list Z;
  tlb_write_paddr_addend : list Z;
  tlb_code_paddr_addend : list Z;
  benchmark_exit_code : Z;
  info : Z;
  next_addr : Z;
  timecmp : Z;
  ignore_sbi_shutdown : bool }.

(** One field of the state replaced. *)
Definition eta_cpu (s : RISCVCPUState) : RISCVCPUState :=
  mkRISCVCPUState
    (pc s) (reg s) (reg_prior s) (most_recently_written_reg s) (fp_reg s)
    (most_recently_written_fp_reg s) (fflags s) (frm s) (priv s) (fs s) (insn_counter s)
    (minstret s) (mcycle s) (debug_mode s) (stop_the_counter s) (power_down_flag s)
    (terminate_simulation s) (pending_exception s) (pending_tval s) (mstatus s) (mtvec s)
    (mscratch s) (mepc s) (mcause s) (mtval s) (mvendorid s) (marchid s) (mimpid s) (mhartid s)
    (misa s) (mie s) (mip s) (medeleg s) (mideleg s) (mcounteren s) (mcountinhibit s) (tselect
    s) (tdata1 s) (tdata2 s) (tdata3 s) (mhpmevent s) (csr_pmpcfg s) (csr_pmpaddr s) (pmp_n s)
    (pmp s) (pmpcfg s) (stvec s) (sscratch s) (sepc s) (scause s) (stval s) (satp s) (scounteren
    s) (dcsr s) (dpc s) (dscratch s) (plic_enable_irq s) (load_res s) (physical_addr_len s)
    (tlb_read s) (tlb_write s) (tlb_code s) (tlb_read_paddr_addend s) (tlb_write_paddr_addend s)
    (tlb_code_paddr_addend s) (benchmark_exit_code s) (info s) (next_addr s) (timecmp s)
    (ignore_sbi_shutdown s).

Ltac upd_cpu f :=
  exact (fun v s => ltac:(let b := eval cbv beta delta [eta_cpu] in (eta_cpu s) in
    match b with context C [f s] => let b' := context C [v] in exact b' end)).

#[export] Instance upd_pc : Upd pc := ltac:(upd_cpu pc).
#[export] Instance upd_reg : Upd reg := ltac:(upd_cpu reg).
#[export] Instance upd_reg_prior : Upd reg_prior := ltac:(upd_cpu reg_prior).
#[export] Instance upd_most_recently_written_reg : Upd most_recently_written_reg := ltac:(upd_cpu most_recently_written_reg).
#[export] Instance upd_fp_reg : Upd fp_reg := ltac:(upd_cpu fp_reg).
#[export] Instance upd_most_recently_written_fp_reg : Upd most_recently_written_fp_reg := ltac:(upd_cpu most_recently_written_fp_reg).
#[export] Instance upd_fflags : Upd fflags := ltac:(upd_cpu fflags).
#[export] Instance upd_frm : Upd frm := ltac:(upd_cpu frm).
#[export] Instance upd_priv : Upd priv := ltac:(upd_cpu priv).
#[export] Instance upd_fs : Upd fs := ltac:(upd_cpu fs).
#[export] Instance upd_insn_counter : Upd insn_counter := ltac:(upd_cpu insn_counter).
#[export] Instance upd_minstret : Upd minstret := ltac:(upd_cpu minstret).
#[export] Instance upd_mcycle : Upd mcycle := ltac:(upd_cpu mcycle).
#[export] Instance upd_debug_mode : Upd debug_mode := ltac:(upd_cpu debug_mode).
#[export] Instance upd_stop_the_counter : Upd stop_the_counter := ltac:(upd_cpu stop_the_counter).
#[export] Instance upd_power_down_flag : Upd power_down_flag := ltac:(upd_cpu power_down_flag).
#[export] Instance upd_terminate_simulation : Upd terminate_simulation := ltac:(upd_cpu terminate_simulation).
#[export] Instance upd_pending_exception : Upd pending_exception := ltac:(upd_cpu pending_exception).
#[export] Instance upd_pending_tval : Upd pending_tval := ltac:(upd_cpu pending_tval).
#[export] Instance upd_mstatus : Upd mstatus := ltac:(upd_cpu mstatus).
#[export] Instance upd_mtvec : Upd mtvec := ltac:(upd_cpu mtvec).
#[export] Instance upd_mscratch : Upd mscratch := ltac:(upd_cpu mscratch).
#[export] Instance upd_mepc : Upd mepc := ltac:(upd_cpu mepc).
#[export] Instance upd_mcause : Upd mcause := ltac:(upd_cpu mcause).
#[export] Instance upd_mtval : Upd mtval := ltac:(upd_cpu mtval).
#[export] Instance upd_mvendorid : Upd mvendorid := ltac:(upd_cpu mvendorid).
#[export] Instance upd_marchid : Upd marchid := ltac:(upd_cpu marchid).
#[export] Instance upd_mimpid : Upd mimpid := ltac:(upd_cpu mimpid).
#[export] Instance upd_mhartid : Upd mhartid := ltac:(upd_cpu mhartid).
#[export] Instance upd_misa : Upd misa := ltac:(upd_cpu misa).
#[export] Instance upd_mie : Upd mie := ltac:(upd_cpu mie).
#[export] Instance upd_mip : Upd mip := ltac:(upd_cpu mip).
#[export] Instance upd_medeleg : Upd medeleg := ltac:(upd_cpu medeleg).
#[export] Instance upd_mideleg : Upd mideleg := ltac:(upd_cpu mideleg).
#[export] Instance upd_mcounteren : Upd mcounteren := ltac:(upd_cpu mcounteren).
#[export] Instance upd_mcountinhibit : Upd mcountinhibit := ltac:(upd_cpu mcountinhibit).
#[export] Instance upd_tselect : Upd tselect := ltac:(upd_cpu tselect).
#[export] Instance upd_tdata1 : Upd tdata1 := ltac:(upd_cpu tdata1).
#[export] Instance upd_tdata2 : Upd tdata2 := ltac:(upd_cpu tdata2).
#[export] Instance upd_tdata3 : Upd tdata3 := ltac:(upd_cpu tdata3).
#[export] Instance upd_mhpmevent : Upd mhpmevent := ltac:(upd_cpu mhpmevent).
#[export] Instance upd_csr_pmpcfg : Upd csr_pmpcfg := ltac:(upd_cpu csr_pmpcfg).
#[export] Instance upd_csr_pmpaddr : Upd csr_pmpaddr := ltac:(upd_cpu csr_pmpaddr).
#[export] Instance upd_pmp_n : Upd pmp_n := ltac:(upd_cpu pmp_n).
#[export] Instance upd_pmp : Upd pmp := ltac:(upd_cpu pmp).
#[export] Instance upd_pmpcfg : Upd pmpcfg := ltac:(upd_cpu pmpcfg).
#[export] Instance upd_stvec : Upd stvec := ltac:(upd_cpu stvec).
#[export] Instance upd_sscratch : Upd sscratch := ltac:(upd_cpu sscratch).
#[export] Instance upd_sepc : Upd sepc := ltac:(upd_cpu sepc).
#[export] Instance upd_scause : Upd scause := ltac:(upd_cpu scause).
#[export] Instance upd_stval : Upd stval := ltac:(upd_cpu stval).
#[export] Instance upd_satp : Upd satp := ltac:(upd_cpu satp).
#[export] Instance upd_scounteren : Upd scounteren := ltac:(upd_cpu scounteren).
#[export] Instance upd_dcsr : Upd dcsr := ltac:(upd_cpu dcsr).
#[export] Instance upd_dpc : Upd dpc := ltac:(upd_cpu dpc).
#[export] Instance upd_dscratch : Upd dscratch := ltac:(upd_cpu dscratch).
#[export] Instance upd_plic_enable_irq : Upd plic_enable_irq := ltac:(upd_cpu plic_enable_irq).
#[export] Instance upd_load_res : Upd load_res := ltac:(upd_cpu load_res).
#[export] Instance upd_physical_addr_len : Upd physical_addr_len := ltac:(upd_cpu physical_addr_len).
#[export] Instance upd_tlb_read : Upd tlb_read := ltac:(upd_cpu tlb_read).
#[export] Instance upd_tlb_write : Upd tlb_write := ltac:(upd_cpu tlb_write).
#[export] Instance upd_tlb_code : Upd tlb_code := ltac:(upd_cpu tlb_code).
#[export] Instance upd_tlb_read_paddr_addend : Upd tlb_read_paddr_addend := ltac:(upd_cpu tlb_read_paddr_addend).
#[export] Instance upd_tlb_write_paddr_addend : Upd tlb_write_paddr_addend := ltac:(upd_cpu tlb_write_paddr_addend).
#[export] Instance upd_tlb_code_paddr_addend : Upd tlb_code_paddr_addend := ltac:(upd_cpu tlb_code_paddr_addend).
#[export] Instance upd_benchmark_exit_code : Upd benchmark_exit_code := ltac:(upd_cpu benchmark_exit_code).
#[export] Instance upd_info : Upd info := ltac:(upd_cpu info).
#[export] Instance upd_next_addr : Upd next_addr := ltac:(upd_cpu next_addr).
#[export] Instance upd_timecmp : Upd timecmp := ltac:(upd_cpu timecmp).
#[export] Instance upd_ignore_sbi_shutdown : Upd ignore_sbi_shutdown := ltac:(upd_cpu ignore_sbi_shutdown).

(** Read a field of an updated state. *)
Ltac cpu_simpl :=
  cbn [upd upd_pc pc upd_reg reg upd_reg_prior reg_prior upd_most_recently_written_reg
    most_recently_written_reg upd_fp_reg fp_reg upd_most_recently_written_fp_reg
    most_recently_written_fp_reg upd_fflags fflags upd_frm frm upd_priv priv upd_fs fs
    upd_insn_counter insn_counter upd_minstret minstret upd_mcycle mcycle upd_debug_mode
    debug_mode upd_stop_the_counter stop_the_counter upd_power_down_flag power_down_flag
    upd_terminate_simulation terminate_simulation upd_pending_exception pending_exception
    upd_pending_tval pending_tval upd_mstatus mstatus upd_mtvec mtvec upd_mscratch mscratch
    upd_mepc mepc upd_mcause mcause upd_mtval mtval upd_mvendorid mvendorid upd_marchid marchid
    upd_mimpid mimpid upd_mhartid mhartid upd_misa misa upd_mie mie upd_mip mip upd_medeleg
    medeleg upd_mideleg mideleg upd_mcounteren mcounteren upd_mcountinhibit mcountinhibit
    upd_tselect tselect upd_tdata1 tdata1 upd_tdata2 tdata2 upd_tdata3 tdata3 upd_mhpmevent
    mhpmevent upd_csr_pmpcfg csr_pmpcfg upd_csr_pmpaddr csr_pmpaddr upd_pmp_n pmp_n upd_pmp pmp
    upd_pmpcfg pmpcfg upd_stvec stvec upd_sscratch sscratch upd_sepc sepc upd_scause scause
    upd_stval stval upd_satp satp upd_scounteren scounteren upd_dcsr dcsr upd_dpc dpc
    upd_dscratch dscratch upd_plic_enable_irq plic_enable_irq upd_load_res load_res
    upd_physical_addr_len physical_addr_len upd_tlb_read tlb_read upd_tlb_write tlb_write
    upd_tlb_code tlb_code upd_tlb_read_paddr_addend tlb_read_paddr_addend
    upd_tlb_write_paddr_addend tlb_write_paddr_addend upd_tlb_code_paddr_addend
    tlb_code_paddr_addend upd_benchmark_exit_code benchmark_exit_code upd_info info
    upd_next_addr next_addr upd_timecmp timecmp upd_ignore_sbi_shutdown ignore_sbi_shutdown].

Tactic Notation "cpu_simpl" "in" hyp(H) :=
  cbn [upd upd_pc pc upd_reg reg upd_reg_prior reg_prior upd_most_recently_written_reg
    most_recently_written_reg upd_fp_reg fp_reg upd_most_recently_written_fp_reg
    most_recently_written_fp_reg upd_fflags fflags upd_frm frm upd_priv priv upd_fs fs
    upd_insn_counter insn_counter upd_minstret minstret upd_mcycle mcycle upd_debug_mode
    debug_mode upd_stop_the_counter stop_the_counter upd_power_down_flag power_down_flag
    upd_terminate_simulation terminate_simulation upd_pending_exception pending_exception
    upd_pending_tval pending_tval upd_mstatus mstatus upd_mtvec mtvec upd_mscratch mscratch
    upd_mepc mepc upd_mcause mcause upd_mtval mtval upd_mvendorid mvendorid upd_marchid marchid
    upd_mimpid mimpid upd_mhartid mhartid upd_misa misa upd_mie mie upd_mip mip upd_medeleg
    medeleg upd_mideleg mideleg upd_mcounteren mcounteren upd_mcountinhibit mcountinhibit
    upd_tselect tselect upd_tdata1 tdata1 upd_tdata2 tdata2 upd_tdata3 tdata3 upd_mhpmevent
    mhpmevent upd_csr_pmpcfg csr_pmpcfg upd_csr_pmpaddr csr_pmpaddr upd_pmp_n pmp_n upd_pmp pmp
    upd_pmpcfg pmpcfg upd_stvec stvec upd_sscratch sscratch upd_sepc sepc upd_scause scause
    upd_stval stval upd_satp satp upd_scounteren scounteren upd_dcsr dcsr upd_dpc dpc
    upd_dscratch dscratch upd_plic_enable_irq plic_enable_irq upd_load_res load_res
    upd_physical_addr_len physical_addr_len upd_tlb_read tlb_read upd_tlb_write tlb_write
    upd_tlb_code tlb_code upd_tlb_read_paddr_addend tlb_read_paddr_addend
    upd_tlb_write_paddr_addend tlb_write_paddr_addend upd_tlb_code_paddr_addend
    tlb_code_paddr_addend upd_benchmark_exit_code benchmark_exit_code upd_info info
    upd_next_addr next_addr upd_timecmp timecmp upd_ignore_sbi_shutdown ignore_sbi_shutdown] in
    H.

(** Read a field of an updated state, leaving the updates themselves folded. *)
Ltac upd_simpl :=
  repeat match goal with
  | |- context [?f (@upd _ _ ?f _ ?v ?s)] =>
      let H := fresh in
      assert (forall x y, f (upd f x y) = x) as H by (intros; reflexivity); rewrite !H; clear H
  | |- context [?f (@upd RISCVCPUState _ ?g _ ?v ?s)] =>
      is_const f; lazymatch type of f with RISCVCPUState -> RISCVCPUState => fail | _ => idtac end;
      let H := fresh in
      assert (forall x y, f (upd g x y) = f y) as H by (intros; reflexivity); rewrite !H; clear H
  end.

Lemma upd_mstatus_twice s a b : s <| mstatus := a |> <| mstatus := b |> = s <| mstatus := b |>.
Proof. reflexivity. Qed.
Lemma upd_pc_twice s a b : s <| pc := a |> <| pc := b |> = s <| pc := b |>.
Proof. reflexivity. Qed.

(** ** What the CPU reaches through its pointers *)

(** [VirtMachine]: the co-simulation fields. *)
Record VirtMachine := mkVirtMachine {
  cosim : bool;
  pending_interrupt : Z;
  vm_pending_exception : Z;
  maxinsns : Z;
  trace : Z }.

#[export] Instance upd_pending_interrupt : Upd pending_interrupt := fun v m =>
  mkVirtMachine (cosim m) v (vm_pending_exception m) (maxinsns m) (trace m).
#[export] Instance upd_vm_pending_exception : Upd vm_pending_exception := fun v m =>
  mkVirtMachine (cosim m) (pending_interrupt m) v (maxinsns m) (trace m).
#[export] Instance upd_maxinsns : Upd maxinsns := fun v m =>
  mkVirtMachine (cosim m) (pending_interrupt m) (vm_pending_exception m) v (trace m).
#[export] Instance upd_trace : Upd trace := fun v m =>
  mkVirtMachine (cosim m) (pending_interrupt m) (vm_pending_exception m) (maxinsns m) v.

Record System (D : Type) := mkSystem {
  cpu : RISCVCPUState;
  common : VirtMachine;
  mem_map : PhysMemoryMap;
  hmem : hostmem;
  devs : D }.
Arguments mkSystem {D}.
Arguments cpu {D}.
Arguments common {D}.
Arguments mem_map {D}.
Arguments hmem {D}.
Arguments devs {D}.

#[export] Instance upd_sys_cpu D : Upd (@cpu D) :=
  fun v s => mkSystem v (common s) (mem_map s) (hmem s) (devs s).
#[export] Instance upd_sys_common D : Upd (@common D) :=
  fun v s => mkSystem (cpu s) v (mem_map s) (hmem s) (devs s).
#[export] Instance upd_sys_mem_map D : Upd (@mem_map D) :=
  fun v s => mkSystem (cpu s) (common s) v (hmem s) (devs s).
#[export] Instance upd_sys_hmem D : Upd (@hmem D) :=
  fun v s => mkSystem (cpu s) (common s) (mem_map s) v (devs s).
#[export] Instance upd_sys_devs D : Upd (@devs D) :=
  fun v s => mkSystem (cpu s) (common s) (mem_map s) (hmem s) v.

(** The interface of the devices: what [pr->read_func(pr->opaque, offset, size_log2)] and
    [pr->write_func(pr->opaque, offset, val, size_log2)] do to the system. *)
Class DeviceOps (D : Type) := {
  read_func : device -> Z -> Z -> SM (System D) Z;
  write_func : device -> Z -> Z -> Z -> SM (System D) unit }.

(** The embedder's CSR hooks ([RISCVMachineHooks]); [None] is NULL, the value [mallocz] leaves. *)
Class MachineHooks := {
  hook_csr_read : option (RISCVCPUState -> Z -> Z * Z * RISCVCPUState);
  hook_csr_write : option (RISCVCPUState -> Z -> Z -> Z * RISCVCPUState) }.

Definition no_hooks : MachineHooks := {| hook_csr_read := None; hook_csr_write := None |}.

(** ** Register file access *)

Definition read_reg (s : RISCVCPUState) (x : Z) : Z := aget (reg s) x.

Definition write_reg (x val : Z) (s : RISCVCPUState) : RISCVCPUState :=
  s <| most_recently_written_reg := x |>
    <| reg_prior := aset (reg_prior s) x (aget (reg s) x) |>
    <| reg := aset (reg s) x val |>.

Definition read_fp_reg (s : RISCVCPUState) (x : Z) : Z := aget (fp_reg s) x.

Definition write_fp_reg (x val : Z) (s : RISCVCPUState) : RISCVCPUState :=
  s <| most_recently_written_fp_reg := x |> <| fp_reg := aset (fp_reg s) x val |> <| fs := 3 |>.

(** ** TLB maintenance *)

Definition invalid_vaddr : Z := u64 (-1).

Definition tlb_init (s : RISCVCPUState) : RISCVCPUState :=
  let clear := map (fun e => mkTLBEntry invalid_vaddr (mem_addend e)) in
  s <| tlb_read := clear (tlb_read s) |> <| tlb_write := clear (tlb_write s) |>
    <| tlb_code := clear (tlb_code s) |>.

Definition tlb_flush_all (s : RISCVCPUState) : RISCVCPUState := tlb_init s.
Definition tlb_flush_vaddr (s : RISCVCPUState) (va : Z) : RISCVCPUState := tlb_flush_all s.

Definition riscv_cpu_flush_tlb_write_range_ram (ram_ptr ram_size : Z) (s : RISCVCPUState)
    : RISCVCPUState :=
  let ram_end := u64 (ram_ptr + ram_size) in
  s <| tlb_write := map (fun e =>
        if negb (vaddr e =? invalid_vaddr) then
          let ptr := u64 (mem_addend e + vaddr e) in
          if (ram_ptr <=? ptr) && (ptr <? ram_end) then mkTLBEntry invalid_vaddr (mem_addend e) else e
        else e) (tlb_write s) |>.

(** ** Interrupt lines *)

Definition riscv_cpu_set_mip (m : VirtMachine) (mask : Z) (s : RISCVCPUState) : RISCVCPUState :=
  let s := s <| mip := mip s |' mask |> in
  if power_down_flag s && negb (mip s &' mie s =? 0)
     && (negb (pending_interrupt m =? -1) || negb (cosim m))
  then s <| power_down_flag := false |> else s.

Definition riscv_cpu_reset_mip (mask : Z) (s : RISCVCPUState) : RISCVCPUState :=
  s <| mip := mip s &' not32 mask |>.

Definition riscv_cpu_get_mip (s : RISCVCPUState) : Z := mip s.
Definition riscv_cpu_get_power_down (s : RISCVCPUState) : bool := power_down_flag s.
Definition riscv_cpu_get_cycles (s : RISCVCPUState) : Z := mcycle s.

(** ** Reset *)

(** [mallocz]: every field zero. *)
Definition zero_cpu : RISCVCPUState :=
  let z32 := replicate 32 0 in
  let tlb := replicate 256 (mkTLBEntry 0 0) in
  let z256 := replicate 256 0 in
  mkRISCVCPUState 0 z32 z32 0 z32 0 0 0 0 0 0 0 0 false false false false 0 0
    0 0 0 0 0 0 0 0 0 0 0 0 0 0 0 0 0 0 [0] [0] [0] z32 (replicate 4 0) (replicate 16 0)
    0 (replicate 16 (mkpmp_addr 0 0)) (replicate 16 0)
    0 0 0 0 0 0 0 0 0 0 0 0 0 tlb tlb tlb z256 z256 z256 0 0 0 0 false.

Definition riscv_cpu_init (reset_vector : Z) (custom_extension : bool) (hartid : Z)
    : RISCVCPUState :=
  let s := zero_cpu <| pc := reset_vector |> <| priv := PRV_M |>
    <| mstatus := (2 <<' MSTATUS_UXL_SHIFT) |' (2 <<' MSTATUS_SXL_SHIFT) |' (3 <<' MSTATUS_MPP_SHIFT) |>
    <| plic_enable_irq := 0 |> in
  let s := s <| misa := misa s |' (MCPUID_SUPER |' MCPUID_USER |' MCPUID_I |' MCPUID_M |' MCPUID_A) |>
    <| most_recently_written_reg := -1 |> in
  let s := s <| most_recently_written_fp_reg := -1 |> <| misa := misa s |' MCPUID_F |> in
  let s := s <| misa := misa s |' MCPUID_D |> in
  let s := s <| misa := misa s |' MCPUID_C |> in
  let s := if custom_extension then s <| misa := misa s |' MCPUID_X |> else s in
  let s := s <| mvendorid := 11 * 128 + 101 |> <| marchid := (1 <<' 63) |' 2 |>
    <| mimpid := 1 |> <| mhartid := hartid |> <| tselect := 0 |>
    <| tdata1 := [2 <<' 60] |> <| tdata2 := [not64 0] |> in
  (tlb_init s) <| benchmark_exit_code := 0 |>.

(** ** Accessors of the co-simulation interface *)

(** [s->misa & MCPUID_C ? ~1 : ~3], an [int] converted to [uint64_t]. *)
Definition pc_align_mask (s : RISCVCPUState) : Z :=
  if tst (misa s) MCPUID_C then u64 (-2) else u64 (-4).

Definition riscv_set_pc (val : Z) (s : RISCVCPUState) : RISCVCPUState :=
  s <| pc := val &' pc_align_mask s |>.

Definition riscv_get_pc (s : RISCVCPUState) : Z := pc s.

Definition riscv_get_reg (s : RISCVCPUState) (rn : Z) : res Z :=
  _ ← assert_c ((0 <=? rn) && (rn <? 32)); Done (aget (reg s) rn).

Definition riscv_get_reg_previous (s : RISCVCPUState) (rn : Z) : res Z :=
  _ ← assert_c ((0 <=? rn) && (rn <? 32)); Done (aget (reg_prior s) rn).

Definition riscv_get_fpreg (s : RISCVCPUState) (rn : Z) : res Z :=
  _ ← assert_c ((0 <=? rn) && (rn <? 32)); Done (aget (fp_reg s) rn).

Definition riscv_set_reg (rn val : Z) (s : RISCVCPUState) : res RISCVCPUState :=
  _ ← assert_c ((0 <? rn) && (rn <? 32)); Done (s <| reg := aset (reg s) rn val |>).

Definition riscv_repair_csr (reg_num csr_num csr_val : Z) (s : RISCVCPUState) : RISCVCPUState :=
  let n := csr_num &' 0xFFF in
  if (n =? 0xb00) || (n =? 0xc00) then
    s <| mcycle := csr_val |> <| reg := aset (reg s) reg_num csr_val |>
  else if (n =? 0xb02) || (n =? 0xc02) then
    s <| minstret := csr_val |> <| reg := aset (reg s) reg_num csr_val |>
  else s.

(** [for (i = 1; i < 32; ++i) s->reg_prior[i] = s->reg[i]]. *)
Definition riscv_cpu_sync_regs (s : RISCVCPUState) : RISCVCPUState :=
  s <| reg_prior := fold_left (fun l i => aset l i (aget (reg s) i)) (seqZ 1 31) (reg_prior s) |>.

Definition riscv_get_priv_level (s : RISCVCPUState) : Z := priv s.
Definition riscv_get_most_recently_written_reg (s : RISCVCPUState) : Z := most_recently_written_reg s.
Definition riscv_get_most_recently_written_fp_reg (s : RISCVCPUState) : Z :=
  most_recently_written_fp_reg s.
Definition riscv_terminated (s : RISCVCPUState) : bool := terminate_simulation s.
Definition riscv_set_debug_mode (on : bool) (s : RISCVCPUState) : RISCVCPUState :=
  s <| debug_mode := on |>.
