(* ===== verification/CpuWf.v ===== *)
(** * The hart's type invariant

    [cpu_wf] gives every field of the state the range of its C type, the arrays
    their lengths, and the facts the code relies on and never checks again:
    x0 is zero, [mstatus] keeps FS/UXL/SXL out of its writable part, the
    delegation registers hold only delegable causes, [satp] selects an
    implemented mode. *)

From S2P Require Import Prelude Riscv Iomem Hostmem CpuState.
From stdpp Require Import base list.
From Stdlib Require Import ZArith Lia Bool.
Local Open Scope Z_scope.
Local Open Scope bits_scope.

(** An array of [n] 64-bit words. *)
Definition words (n : nat) (l : list Z) : Prop := length l = n /\ Forall (in_u 64) l.

Definition xregs_ok (l : list Z) : Prop := words 32 l /\ aget l 0 = 0.

(** The bits of [mstatus] that [set_mstatus] writes; the others hold UXL = SXL = 2. *)
Definition mstatus_writable : Z := Eval cbv in
  (MSTATUS_MASK &' not64 (MSTATUS_FS |' MSTATUS_UXL_MASK |' MSTATUS_SXL_MASK)).
Definition mstatus_fixed : Z := Eval cbv in ((2 <<' MSTATUS_UXL_SHIFT) |' (2 <<' MSTATUS_SXL_SHIFT)).
Definition mstatus_ok (m : Z) : Prop := in_u 64 m /\ m &' not64 mstatus_writable = mstatus_fixed.

Definition medeleg_mask : Z := 0xB109.
Definition mideleg_mask : Z := Eval cbv in (MIP_SSIP |' MIP_STIP |' MIP_SEIP).
Definition subset_of (mask v : Z) : Prop := 0 <= v /\ v &' Z.lnot mask = 0.

Definition satp_mode (v : Z) : Z := (v >>' 60) &' 0xf.
Definition satp_ok (v : Z) : Prop :=
  in_u 64 v /\ (satp_mode v = 0 \/ satp_mode v = 8 \/ satp_mode v = 9).

Definition tlb_ok (l : list TLBEntry) : Prop :=
  length l = 256%nat /\ Forall (fun e => in_u 64 (vaddr e) /\ in_u 64 (mem_addend e)) l.

Record cpu_wf (s : RISCVCPUState) : Prop := {
  wf_pc : in_u 64 (pc s);
  wf_reg : xregs_ok (reg s);
  wf_reg_prior : words 32 (reg_prior s);
  wf_fp_reg : words 32 (fp_reg s);
  wf_fflags : in_u 32 (fflags s);
  wf_frm : in_u 8 (frm s);
  wf_priv : 0 <= (priv s) <= 3;
  wf_fs : 0 <= (fs s) <= 3;
  wf_insn_counter : in_u 64 (insn_counter s);
  wf_minstret : in_u 64 (minstret s);
  wf_mcycle : in_u 64 (mcycle s);
  wf_pending_tval : in_u 64 (pending_tval s);
  wf_mstatus : mstatus_ok (mstatus s);
  wf_mtvec : in_u 64 (mtvec s);
  wf_mscratch : in_u 64 (mscratch s);
  wf_mepc : in_u 64 (mepc s);
  wf_mcause : in_u 64 (mcause s);
  wf_mtval : in_u 64 (mtval s);
  wf_mvendorid : in_u 64 (mvendorid s);
  wf_marchid : in_u 64 (marchid s);
  wf_mimpid : in_u 64 (mimpid s);
  wf_mhartid : in_u 64 (mhartid s);
  wf_misa : in_u 32 (misa s);
  wf_mie : in_u 32 (mie s);
  wf_mip : in_u 32 (mip s);
  wf_medeleg : subset_of medeleg_mask (medeleg s);
  wf_mideleg : subset_of mideleg_mask (mideleg s);
  wf_mcounteren : in_u 32 (mcounteren s);
  wf_mcountinhibit : in_u 32 (mcountinhibit s);
  wf_tselect : (tselect s) = 0;
  wf_tdata1 : words 1 (tdata1 s);
  wf_tdata2 : words 1 (tdata2 s);
  wf_tdata3 : words 1 (tdata3 s);
  wf_mhpmevent : words 32 (mhpmevent s);
  wf_csr_pmpcfg : words 4 (csr_pmpcfg s);
  wf_csr_pmpaddr : words 16 (csr_pmpaddr s);
  wf_pmp_n : 0 <= (pmp_n s) <= 16;
  wf_pmp : length (pmp s) = 16%nat;
  wf_pmpcfg : length (pmpcfg s) = 16%nat;
  wf_stvec : in_u 64 (stvec s);
  wf_sscratch : in_u 64 (sscratch s);
  wf_sepc : in_u 64 (sepc s);
  wf_scause : in_u 64 (scause s);
  wf_stval : in_u 64 (stval s);
  wf_satp : satp_ok (satp s);
  wf_scounteren : in_u 32 (scounteren s);
  wf_dcsr : in_u 64 (dcsr s);
  wf_dpc : in_u 64 (dpc s);
  wf_dscratch : in_u 64 (dscratch s);
  wf_load_res : in_u 64 (load_res s);
  wf_tlb_read : tlb_ok (tlb_read s);
  wf_tlb_write : tlb_ok (tlb_write s);
  wf_tlb_code : tlb_ok (tlb_code s);
  wf_next_addr : in_u 64 (next_addr s);
  wf_timecmp : in_u 64 (timecmp s);
  wf_plic_enable_irq : in_u 32 (plic_enable_irq s) }.

(** A field update keeps the invariant when the new value satisfies that field's clause. *)
Ltac wf_set H Hv :=
  constructor; [
    first [exact (wf_pc _ H) | exact Hv] |
    first [exact (wf_reg _ H) | exact Hv] |
    first [exact (wf_reg_prior _ H) | exact Hv] |
    first [exact (wf_fp_reg _ H) | exact Hv] |
    first [exact (wf_fflags _ H) | exact Hv] |
    first [exact (wf_frm _ H) | exact Hv] |
    first [exact (wf_priv _ H) | exact Hv] |
    first [exact (wf_fs _ H) | exact Hv] |
    first [exact (wf_insn_counter _ H) | exact Hv] |
    first [exact (wf_minstret _ H) | exact Hv] |
    first [exact (wf_mcycle _ H) | exact Hv] |
    first [exact (wf_pending_tval _ H) | exact Hv] |
    first [exact (wf_mstatus _ H) | exact Hv] |
    first [exact (wf_mtvec _ H) | exact Hv] |
    first [exact (wf_mscratch _ H) | exact Hv] |
    first [exact (wf_mepc _ H) | exact Hv] |
    first [exact (wf_mcause _ H) | exact Hv] |
    first [exact (wf_mtval _ H) | exact Hv] |
    first [exact (wf_mvendorid _ H) | exact Hv] |
    first [exact (wf_marchid _ H) | exact Hv] |
    first [exact (wf_mimpid _ H) | exact Hv] |
    first [exact (wf_mhartid _ H) | exact Hv] |
    first [exact (wf_misa _ H) | exact Hv] |
    first [exact (wf_mie _ H) | exact Hv] |
    first [exact (wf_mip _ H) | exact Hv] |
    first [exact (wf_medeleg _ H) | exact Hv] |
    first [exact (wf_mideleg _ H) | exact Hv] |
    first [exact (wf_mcounteren _ H) | exact Hv] |
    first [exact (wf_mcountinhibit _ H) | exact Hv] |
    first [exact (wf_tselect _ H) | exact Hv] |
    first [exact (wf_tdata1 _ H) | exact Hv] |
    first [exact (wf_tdata2 _ H) | exact Hv] |
    first [exact (wf_tdata3 _ H) | exact Hv] |
    first [exact (wf_mhpmevent _ H) | exact Hv] |
    first [exact (wf_csr_pmpcfg _ H) | exact Hv] |
    first [exact (wf_csr_pmpaddr _ H) | exact Hv] |
    first [exact (wf_pmp_n _ H) | exact Hv] |
    first [exact (wf_pmp _ H) | exact Hv] |
    first [exact (wf_pmpcfg _ H) | exact Hv] |
    first [exact (wf_stvec _ H) | exact Hv] |
    first [exact (wf_sscratch _ H) | exact Hv] |
    first [exact (wf_sepc _ H) | exact Hv] |
    first [exact (wf_scause _ H) | exact Hv] |
    first [exact (wf_stval _ H) | exact Hv] |
    first [exact (wf_satp _ H) | exact Hv] |
    first [exact (wf_scounteren _ H) | exact Hv] |
    first [exact (wf_dcsr _ H) | exact Hv] |
    first [exact (wf_dpc _ H) | exact Hv] |
    first [exact (wf_dscratch _ H) | exact Hv] |
    first [exact (wf_load_res _ H) | exact Hv] |
    first [exact (wf_tlb_read _ H) | exact Hv] |
    first [exact (wf_tlb_write _ H) | exact Hv] |
    first [exact (wf_tlb_code _ H) | exact Hv] |
    first [exact (wf_next_addr _ H) | exact Hv] |
    first [exact (wf_timecmp _ H) | exact Hv] |
    first [exact (wf_plic_enable_irq _ H) | exact Hv] ].

Lemma wf_set_pc s v : cpu_wf s -> in_u 64 v -> cpu_wf (s <| pc := v |>).
Proof. intros H Hv. wf_set H Hv. Qed.
Lemma wf_set_reg s v : cpu_wf s -> xregs_ok v -> cpu_wf (s <| reg := v |>).
Proof. intros H Hv. wf_set H Hv. Qed.
Lemma wf_set_reg_prior s v : cpu_wf s -> words 32 v -> cpu_wf (s <| reg_prior := v |>).
Proof. intros H Hv. wf_set H Hv. Qed.
Lemma wf_set_fp_reg s v : cpu_wf s -> words 32 v -> cpu_wf (s <| fp_reg := v |>).
Proof. intros H Hv. wf_set H Hv. Qed.
Lemma wf_set_fflags s v : cpu_wf s -> in_u 32 v -> cpu_wf (s <| fflags := v |>).
Proof. intros H Hv. wf_set H Hv. Qed.
Lemma wf_set_frm s v : cpu_wf s -> in_u 8 v -> cpu_wf (s <| frm := v |>).
Proof. intros H Hv. wf_set H Hv. Qed.
Lemma wf_set_priv s v : cpu_wf s -> 0 <= v <= 3 -> cpu_wf (s <| priv := v |>).
Proof. intros H Hv. wf_set H Hv. Qed.
Lemma wf_set_fs s v : cpu_wf s -> 0 <= v <= 3 -> cpu_wf (s <| fs := v |>).
Proof. intros H Hv. wf_set H Hv. Qed.
Lemma wf_set_insn_counter s v : cpu_wf s -> in_u 64 v -> cpu_wf (s <| insn_counter := v |>).
Proof. intros H Hv. wf_set H Hv. Qed.
Lemma wf_set_minstret s v : cpu_wf s -> in_u 64 v -> cpu_wf (s <| minstret := v |>).
Proof. intros H Hv. wf_set H Hv. Qed.
Lemma wf_set_mcycle s v : cpu_wf s -> in_u 64 v -> cpu_wf (s <| mcycle := v |>).
Proof. intros H Hv. wf_set H Hv. Qed.
Lemma wf_set_pending_tval s v : cpu_wf s -> in_u 64 v -> cpu_wf (s <| pending_tval := v |>).
Proof. intros H Hv. wf_set H Hv. Qed.
Lemma wf_set_mstatus s v : cpu_wf s -> mstatus_ok v -> cpu_wf (s <| mstatus := v |>).
Proof. intros H Hv. wf_set H Hv. Qed.
Lemma wf_set_mtvec s v : cpu_wf s -> in_u 64 v -> cpu_wf (s <| mtvec := v |>).
Proof. intros H Hv. wf_set H Hv. Qed.
Lemma wf_set_mscratch s v : cpu_wf s -> in_u 64 v -> cpu_wf (s <| mscratch := v |>).
Proof. intros H Hv. wf_set H Hv. Qed.
Lemma wf_set_mepc s v : cpu_wf s -> in_u 64 v -> cpu_wf (s <| mepc := v |>).
Proof. intros H Hv. wf_set H Hv. Qed.
Lemma wf_set_mcause s v : cpu_wf s -> in_u 64 v -> cpu_wf (s <| mcause := v |>).
Proof. intros H Hv. wf_set H Hv. Qed.
Lemma wf_set_mtval s v : cpu_wf s -> in_u 64 v -> cpu_wf (s <| mtval := v |>).
Proof. intros H Hv. wf_set H Hv. Qed.
Lemma wf_set_misa s v : cpu_wf s -> in_u 32 v -> cpu_wf (s <| misa := v |>).
Proof. intros H Hv. wf_set H Hv. Qed.
Lemma wf_set_mie s v : cpu_wf s -> in_u 32 v -> cpu_wf (s <| mie := v |>).
Proof. intros H Hv. wf_set H Hv. Qed.
Lemma wf_set_mip s v : cpu_wf s -> in_u 32 v -> cpu_wf (s <| mip := v |>).
Proof. intros H Hv. wf_set H Hv. Qed.
Lemma wf_set_medeleg s v : cpu_wf s -> subset_of medeleg_mask v -> cpu_wf (s <| medeleg := v |>).
Proof. intros H Hv. wf_set H Hv. Qed.
Lemma wf_set_mideleg s v : cpu_wf s -> subset_of mideleg_mask v -> cpu_wf (s <| mideleg := v |>).
Proof. intros H Hv. wf_set H Hv. Qed.
Lemma wf_set_mcounteren s v : cpu_wf s -> in_u 32 v -> cpu_wf (s <| mcounteren := v |>).
Proof. intros H Hv. wf_set H Hv. Qed.
Lemma wf_set_mcountinhibit s v : cpu_wf s -> in_u 32 v -> cpu_wf (s <| mcountinhibit := v |>).
Proof. intros H Hv. wf_set H Hv. Qed.
Lemma wf_set_tselect s v : cpu_wf s -> v = 0 -> cpu_wf (s <| tselect := v |>).
Proof. intros H Hv. wf_set H Hv. Qed.
Lemma wf_set_tdata1 s v : cpu_wf s -> words 1 v -> cpu_wf (s <| tdata1 := v |>).
Proof. intros H Hv. wf_set H Hv. Qed.
Lemma wf_set_tdata2 s v : cpu_wf s -> words 1 v -> cpu_wf (s <| tdata2 := v |>).
Proof. intros H Hv. wf_set H Hv. Qed.
Lemma wf_set_tdata3 s v : cpu_wf s -> words 1 v -> cpu_wf (s <| tdata3 := v |>).
Proof. intros H Hv. wf_set H Hv. Qed.
Lemma wf_set_mhpmevent s v : cpu_wf s -> words 32 v -> cpu_wf (s <| mhpmevent := v |>).
Proof. intros H Hv. wf_set H Hv. Qed.
Lemma wf_set_csr_pmpcfg s v : cpu_wf s -> words 4 v -> cpu_wf (s <| csr_pmpcfg := v |>).
Proof. intros H Hv. wf_set H Hv. Qed.
Lemma wf_set_csr_pmpaddr s v : cpu_wf s -> words 16 v -> cpu_wf (s <| csr_pmpaddr := v |>).
Proof. intros H Hv. wf_set H Hv. Qed.
Lemma wf_set_pmp_n s v : cpu_wf s -> 0 <= v <= 16 -> cpu_wf (s <| pmp_n := v |>).
Proof. intros H Hv. wf_set H Hv. Qed.
Lemma wf_set_pmp s v : cpu_wf s -> length v = 16%nat -> cpu_wf (s <| pmp := v |>).
Proof. intros H Hv. wf_set H Hv. Qed.
Lemma wf_set_pmpcfg s v : cpu_wf s -> length v = 16%nat -> cpu_wf (s <| pmpcfg := v |>).
Proof. intros H Hv. wf_set H Hv. Qed.
Lemma wf_set_stvec s v : cpu_wf s -> in_u 64 v -> cpu_wf (s <| stvec := v |>).
Proof. intros H Hv. wf_set H Hv. Qed.
Lemma wf_set_sscratch s v : cpu_wf s -> in_u 64 v -> cpu_wf (s <| sscratch := v |>).
Proof. intros H Hv. wf_set H Hv. Qed.
Lemma wf_set_sepc s v : cpu_wf s -> in_u 64 v -> cpu_wf (s <| sepc := v |>).
Proof. intros H Hv. wf_set H Hv. Qed.
Lemma wf_set_scause s v : cpu_wf s -> in_u 64 v -> cpu_wf (s <| scause := v |>).
Proof. intros H Hv. wf_set H Hv. Qed.
Lemma wf_set_stval s v : cpu_wf s -> in_u 64 v -> cpu_wf (s <| stval := v |>).
Proof. intros H Hv. wf_set H Hv. Qed.
Lemma wf_set_satp s v : cpu_wf s -> satp_ok v -> cpu_wf (s <| satp := v |>).
Proof. intros H Hv. wf_set H Hv. Qed.
Lemma wf_set_scounteren s v : cpu_wf s -> in_u 32 v -> cpu_wf (s <| scounteren := v |>).
Proof. intros H Hv. wf_set H Hv. Qed.
Lemma wf_set_dcsr s v : cpu_wf s -> in_u 64 v -> cpu_wf (s <| dcsr := v |>).
Proof. intros H Hv. wf_set H Hv. Qed.
Lemma wf_set_dpc s v : cpu_wf s -> in_u 64 v -> cpu_wf (s <| dpc := v |>).
Proof. intros H Hv. wf_set H Hv. Qed.
Lemma wf_set_dscratch s v : cpu_wf s -> in_u 64 v -> cpu_wf (s <| dscratch := v |>).
Proof. intros H Hv. wf_set H Hv. Qed.
Lemma wf_set_load_res s v : cpu_wf s -> in_u 64 v -> cpu_wf (s <| load_res := v |>).
Proof. intros H Hv. wf_set H Hv. Qed.
Lemma wf_set_tlb_read s v : cpu_wf s -> tlb_ok v -> cpu_wf (s <| tlb_read := v |>).
Proof. intros H Hv. wf_set H Hv. Qed.
Lemma wf_set_tlb_write s v : cpu_wf s -> tlb_ok v -> cpu_wf (s <| tlb_write := v |>).
Proof. intros H Hv. wf_set H Hv. Qed.
Lemma wf_set_tlb_code s v : cpu_wf s -> tlb_ok v -> cpu_wf (s <| tlb_code := v |>).
Proof. intros H Hv. wf_set H Hv. Qed.
Lemma wf_set_next_addr s v : cpu_wf s -> in_u 64 v -> cpu_wf (s <| next_addr := v |>).
Proof. intros H Hv. wf_set H Hv. Qed.
Lemma wf_set_most_recently_written_reg s v : cpu_wf s -> cpu_wf (s <| most_recently_written_reg := v |>).
Proof. intros H. wf_set H I. Qed.
Lemma wf_set_most_recently_written_fp_reg s v : cpu_wf s -> cpu_wf (s <| most_recently_written_fp_reg := v |>).
Proof. intros H. wf_set H I. Qed.
Lemma wf_set_debug_mode s v : cpu_wf s -> cpu_wf (s <| debug_mode := v |>).
Proof. intros H. wf_set H I. Qed.
Lemma wf_set_stop_the_counter s v : cpu_wf s -> cpu_wf (s <| stop_the_counter := v |>).
Proof. intros H. wf_set H I. Qed.
Lemma wf_set_power_down_flag s v : cpu_wf s -> cpu_wf (s <| power_down_flag := v |>).
Proof. intros H. wf_set H I. Qed.
Lemma wf_set_terminate_simulation s v : cpu_wf s -> cpu_wf (s <| terminate_simulation := v |>).
Proof. intros H. wf_set H I. Qed.
Lemma wf_set_pending_exception s v : cpu_wf s -> cpu_wf (s <| pending_exception := v |>).
Proof. intros H. wf_set H I. Qed.
Lemma wf_set_info s v : cpu_wf s -> cpu_wf (s <| info := v |>).
Proof. intros H. wf_set H I. Qed.
Lemma wf_set_tlb_read_paddr_addend s v : cpu_wf s -> cpu_wf (s <| tlb_read_paddr_addend := v |>).
Proof. intros H. wf_set H I. Qed.
Lemma wf_set_tlb_write_paddr_addend s v : cpu_wf s -> cpu_wf (s <| tlb_write_paddr_addend := v |>).
Proof. intros H. wf_set H I. Qed.
Lemma wf_set_tlb_code_paddr_addend s v : cpu_wf s -> cpu_wf (s <| tlb_code_paddr_addend := v |>).
Proof. intros H. wf_set H I. Qed.

Lemma wf_set_timecmp s v : cpu_wf s -> in_u 64 v -> cpu_wf (s <| timecmp := v |>).
Proof. intros H Hv. wf_set H Hv. Qed.
Lemma wf_set_plic_enable_irq s v : cpu_wf s -> in_u 32 v -> cpu_wf (s <| plic_enable_irq := v |>).
Proof. intros H Hv. wf_set H Hv. Qed.

Create HintDb cpu_wf discriminated.
#[export] Hint Resolve wf_set_pc wf_set_reg wf_set_reg_prior wf_set_fp_reg wf_set_fflags wf_set_frm
  wf_set_priv wf_set_fs wf_set_insn_counter wf_set_minstret wf_set_mcycle wf_set_pending_tval
  wf_set_mstatus wf_set_mtvec wf_set_mscratch wf_set_mepc wf_set_mcause wf_set_mtval wf_set_misa
  wf_set_mie wf_set_mip wf_set_medeleg wf_set_mideleg wf_set_mcounteren wf_set_mcountinhibit
  wf_set_tselect wf_set_tdata1 wf_set_tdata2 wf_set_tdata3 wf_set_mhpmevent wf_set_csr_pmpcfg
  wf_set_csr_pmpaddr wf_set_pmp_n wf_set_pmp wf_set_pmpcfg wf_set_stvec wf_set_sscratch wf_set_sepc
  wf_set_scause wf_set_stval wf_set_satp wf_set_scounteren wf_set_dcsr wf_set_dpc wf_set_dscratch
  wf_set_load_res wf_set_tlb_read wf_set_tlb_write wf_set_tlb_code wf_set_next_addr wf_set_timecmp wf_set_plic_enable_irq
  wf_set_most_recently_written_reg wf_set_most_recently_written_fp_reg wf_set_debug_mode
  wf_set_stop_the_counter wf_set_power_down_flag wf_set_terminate_simulation
  wf_set_pending_exception wf_set_info wf_set_tlb_read_paddr_addend wf_set_tlb_write_paddr_addend
  wf_set_tlb_code_paddr_addend : cpu_wf.

(** ** Bit sets *)

Lemma subset_testbit mask v i : subset_of mask v -> Z.testbit v i = Z.testbit v i && Z.testbit mask i.
Proof.
  intros [_ Hs]. destruct (Z.leb_spec 0 i); [|rewrite !Z.testbit_neg_r by lia; reflexivity].
  assert (Z.testbit (v &' Z.lnot mask) i = false) as E by (rewrite Hs; apply Z.bits_0).
  revert E. rewrite Z.land_spec, Z.lnot_spec by lia. destruct (Z.testbit v i), (Z.testbit mask i); auto.
Qed.

Lemma subset_land mask v : subset_of mask v -> v = v &' mask.
Proof. intros H. apply Z.bits_inj. intros i. rewrite Z.land_spec. apply subset_testbit, H. Qed.

Lemma subset_in_u w mask v : 0 <= w -> in_u w mask -> subset_of mask v -> in_u w v.
Proof. intros Hw Hm H. rewrite (subset_land _ _ H). apply land_range_r; auto. Qed.

Lemma wf_medeleg_u32 s : cpu_wf s -> in_u 32 (medeleg s).
Proof. intros H. eapply subset_in_u, H; [lia|split; [discriminate|reflexivity]]. Qed.
Lemma wf_mideleg_u32 s : cpu_wf s -> in_u 32 (mideleg s).
Proof. intros H. eapply subset_in_u, H; [lia|split; [discriminate|reflexivity]]. Qed.

(** ** Arrays *)

Lemma words_aget n l i : words n l -> in_u 64 (aget l i).
Proof.
  intros [_ H]. unfold aget. rewrite nth_lookup. destruct (l !! Z.to_nat i) eqn:E; simpl.
  - rewrite Forall_lookup in H. eauto.
  - split; [discriminate|reflexivity].
Qed.

Lemma words_aset n l i v : words n l -> in_u 64 v -> words n (aset l i v).
Proof.
  intros [Hl H] Hv. unfold aset. split; [rewrite length_insert; exact Hl|]. apply Forall_insert; auto.
Qed.

Lemma xregs_aset l i v : xregs_ok l -> in_u 64 v -> 0 < i -> xregs_ok (aset l i v).
Proof.
  intros [Hw H0] Hv Hi. split; [apply words_aset; auto|]. revert H0. unfold aget, aset.
  rewrite !nth_lookup, list_lookup_insert_ne by lia. auto.
Qed.

Lemma tlb_ok_flush l (f : TLBEntry -> TLBEntry) :
  tlb_ok l -> (forall e, (f e = e) \/ f e = mkTLBEntry invalid_vaddr (mem_addend e)) -> tlb_ok (map f l).
Proof.
  intros [Hl H] Hf. split; [rewrite length_map; exact Hl|]. rewrite Forall_map.
  eapply Forall_impl; [exact H|]. intros e [He1 He2]. unfold compose.
  destruct (Hf e) as [-> | ->]; split; simpl; auto. split; [discriminate|reflexivity].
Qed.

Lemma tlb_ok_set l i e : tlb_ok l -> in_u 64 (vaddr e) -> in_u 64 (mem_addend e) -> tlb_ok (<[i:=e]> l).
Proof.
  intros [Hl H] H1 H2. split; [rewrite length_insert; exact Hl|]. apply Forall_insert; auto.
Qed.

#[export] Hint Resolve words_aget words_aset xregs_aset tlb_ok_set : cpu_wf.

(** ** The operations of [CpuState] *)

Lemma wf_tlb_flush_all s : cpu_wf s -> cpu_wf (tlb_flush_all s).
Proof.
  intros H. unfold tlb_flush_all, tlb_init.
  apply wf_set_tlb_code; [apply wf_set_tlb_write; [apply wf_set_tlb_read; [assumption|]|]|];
    (eapply tlb_ok_flush; [apply H|auto]).
Qed.

Lemma wf_write_reg s x v : cpu_wf s -> 0 < x -> in_u 64 v -> cpu_wf (write_reg x v s).
Proof.
  intros H Hx Hv. unfold write_reg. apply wf_set_reg; [apply wf_set_reg_prior; [auto with cpu_wf|]|].
  - apply words_aset; [apply H|]. eapply words_aget, H.
  - apply xregs_aset; auto. apply H.
Qed.

Lemma wf_write_fp_reg s x v : cpu_wf s -> in_u 64 v -> cpu_wf (write_fp_reg x v s).
Proof.
  intros H Hv. unfold write_fp_reg. apply wf_set_fs; [|lia].
  apply wf_set_fp_reg; [auto with cpu_wf|]. apply words_aset; auto. apply H.
Qed.

Lemma wf_read_reg s x : cpu_wf s -> in_u 64 (read_reg s x).
Proof. intros H. eapply words_aget, H. Qed.

Lemma wf_read_fp_reg s x : cpu_wf s -> in_u 64 (read_fp_reg s x).
Proof. intros H. eapply words_aget, H. Qed.

Lemma read_reg_0 s : cpu_wf s -> read_reg s 0 = 0.
Proof. intros H. apply (wf_reg _ H). Qed.

#[export] Hint Resolve wf_tlb_flush_all wf_write_reg wf_write_fp_reg wf_read_reg wf_read_fp_reg : cpu_wf.

Lemma wf_set_pc_aligned s v : cpu_wf s -> in_u 64 v -> cpu_wf (riscv_set_pc v s).
Proof. intros H Hv. unfold riscv_set_pc. apply wf_set_pc; auto with word. Qed.

Lemma wf_flush_tlb_write s p n : cpu_wf s -> cpu_wf (riscv_cpu_flush_tlb_write_range_ram p n s).
Proof.
  intros H. apply wf_set_tlb_write; [assumption|]. eapply tlb_ok_flush; [apply H|].
  intros e. cbv zeta. destruct (negb _); [|auto]. destruct (_ && _); auto.
Qed.

Lemma wf_set_mip_bits s m mask : cpu_wf s -> in_u 32 mask -> cpu_wf (riscv_cpu_set_mip m mask s).
Proof.
  intros H Hm. unfold riscv_cpu_set_mip.
  assert (cpu_wf (s <| mip := mip s |' mask |>)) by (apply wf_set_mip; auto; apply in_u_lor32; auto; apply H).
  case_match; auto with cpu_wf.
Qed.

Lemma wf_reset_mip s mask : cpu_wf s -> cpu_wf (riscv_cpu_reset_mip mask s).
Proof. intros H. apply wf_set_mip; auto. apply in_u_land32, H. Qed.

(** A hart fresh out of [riscv_cpu_init]. *)
Lemma wf_init reset_vector x hartid : in_u 64 reset_vector -> in_u 64 hartid ->
  cpu_wf (riscv_cpu_init reset_vector x hartid).
Proof.
  intros Hr Hh. assert (in_u 64 0) as H0 by (split; [discriminate|reflexivity]).
  assert (forall n, words n (replicate n 0)) as Hz
    by (intros n; split; [apply length_replicate|apply Forall_replicate; exact H0]).
  assert (tlb_ok (map (fun e => mkTLBEntry invalid_vaddr (mem_addend e)) (replicate 256 (mkTLBEntry 0 0)))) as Ht.
  { apply tlb_ok_flush; [|auto]. split; [reflexivity|apply Forall_replicate; auto]. }
  constructor; destruct x;
    first [exact Hr | exact Hh | exact H0 | exact (Hz 32%nat) | exact (Hz 4%nat) | exact (Hz 16%nat) | exact (Hz 1%nat)
          | exact Ht | reflexivity | (split; [discriminate|reflexivity]) | (split; discriminate)
          | (split; [exact (Hz 32%nat)|reflexivity]) | (split; [split; [discriminate|reflexivity]|reflexivity])
          | (split; [reflexivity|repeat constructor; discriminate])
          | (split; [exact H0|left; reflexivity])].
Qed.

(** The hart the examples start from. *)
Definition reset_cpu : RISCVCPUState := riscv_cpu_init BOOT_BASE_ADDR false 0.

Lemma reset_cpu_wf : cpu_wf reset_cpu.
Proof. apply wf_init; (split; [discriminate|reflexivity]). Qed.
