(* ===== verification/Csr.v ===== *)
(** * Control and status registers ([riscv_cpu.cpp])

    [get_mstatus]/[set_mstatus], [csr_read], [csr_write] and the PMP unpacking
    they trigger.  A [switch] whose body is long is cut at case labels into
    several definitions; [*Fall] means no label of the part matched. *)

From S2P Require Import Prelude Riscv Iomem Hostmem CpuState CpuWf.
From stdpp Require Import base list.
From Stdlib Require Import ZArith Lia Bool.
Local Open Scope Z_scope.
Local Open Scope bits_scope.

(** [CANONICAL_S49(v)]: [(intptr_t)(v) << (63-48) >> (63-48)], stored back as [uint64_t]. *)
Definition CANONICAL_S49 (v : Z) : Z := u64 (s64 (s64 v <<' 15) >>' 15).

(** [s->f & ~mask | val & mask]. *)
Definition merge_bits (old mask val : Z) : Z := (old &' not64 mask) |' (val &' mask).

(** ** [mstatus] *)

(** The complete [mstatus] with the SD bit. *)
Definition get_mstatus (s : RISCVCPUState) (mask : Z) : Z :=
  let val := mstatus s |' (fs s <<' MSTATUS_FS_SHIFT) in
  let val := val &' mask in
  let sd := (val &' MSTATUS_FS =? MSTATUS_FS) || (val &' MSTATUS_XS =? MSTATUS_XS) in
  if sd then val |' (1 <<' 63) else val.

Definition set_mstatus (val : Z) (s : RISCVCPUState) : RISCVCPUState :=
  (* flush the TLBs if change of MMU config *)
  let mod_ := Z.lxor (mstatus s) val in
  let s := if tst mod_ (MSTATUS_MPRV |' MSTATUS_SUM |' MSTATUS_MXR)
              || (tst (mstatus s) MSTATUS_MPRV && tst mod_ MSTATUS_MPP)
           then tlb_flush_all s else s in
  let s := s <| fs := (val >>' MSTATUS_FS_SHIFT) &' 3 |> in
  let mask := MSTATUS_MASK &' not64 (MSTATUS_FS |' MSTATUS_UXL_MASK |' MSTATUS_SXL_MASK) in
  s <| mstatus := merge_bits (mstatus s) mask val |>.

Definition riscv_cpu_get_mstatus (s : RISCVCPUState) : Z := get_mstatus s MSTATUS_MASK.

Definition counter_access_ok (s : RISCVCPUState) (csr : Z) : bool :=
  let counteren :=
    if priv s =? PRV_U then scounteren s
    else if priv s =? PRV_S then mcounteren s
    else if priv s =? PRV_M then not32 0
    else 0 in
  tst (counteren >>' (csr &' 31)) 1.

(** ** Reading *)

Inductive read_case := RVal (v : Z) | RDenied | RInvalid | RFall.

Definition csr_between (a csr b : Z) : bool := (a <=? csr) && (csr <=? b).

(** Labels 0x001 to 0x344. *)
Definition csr_read_trap_setup (s : RISCVCPUState) (csr : Z) : read_case :=
  if csr =? 0x001 then if fs s =? 0 then RDenied else RVal (fflags s)
  else if csr =? 0x002 then if fs s =? 0 then RDenied else RVal (frm s)
  else if csr =? 0x003 then if fs s =? 0 then RDenied else RVal (fflags s |' (frm s <<' 5))
  else if csr =? 0x100 then RVal (get_mstatus s SSTATUS_MASK)
  else if csr =? 0x104 then RVal (mie s &' mideleg s)
  else if csr =? 0x105 then RVal (stvec s)
  else if csr =? 0x106 then RVal (scounteren s)
  else if csr =? 0x140 then RVal (sscratch s)
  else if csr =? 0x141 then RVal (sepc s)
  else if csr =? 0x142 then RVal (scause s)
  else if csr =? 0x143 then RVal (stval s)
  else if csr =? 0x144 then RVal (mip s &' mideleg s)
  else if csr =? 0x180 then
    if (priv s =? PRV_S) && tst (mstatus s) MSTATUS_TVM then RDenied else RVal (satp s)
  else if csr =? 0x300 then RVal (get_mstatus s (u64 (-1)))
  else if csr =? 0x301 then RVal (misa s |' u64 (2 <<' 62))
  else if csr =? 0x302 then RVal (medeleg s)
  else if csr =? 0x303 then RVal (mideleg s)
  else if csr =? 0x304 then RVal (mie s)
  else if csr =? 0x305 then RVal (mtvec s)
  else if csr =? 0x306 then RVal (mcounteren s)
  else if csr =? 0x320 then RVal (mcountinhibit s)
  else if csr =? 0x340 then RVal (mscratch s)
  else if csr =? 0x341 then RVal (mepc s)
  else if csr =? 0x342 then RVal (mcause s)
  else if csr =? 0x343 then RVal (mtval s)
  else if csr =? 0x344 then RVal (mip s)
  else RFall.

(** Labels 0x7a0 to 0xc1f: triggers, debug mode, counters. *)
Definition csr_read_debug_counters (s : RISCVCPUState) (csr : Z) : read_case :=
  if csr =? 0x7a0 then RVal (tselect s)
  else if csr =? 0x7a1 then RVal (aget (tdata1 s) (tselect s))
  else if csr =? 0x7a2 then RVal (aget (tdata2 s) (tselect s))
  else if csr =? 0x7a3 then RVal (aget (tdata3 s) (tselect s))
  else if csr =? 0x7b0 then if negb (debug_mode s) then RInvalid else RVal (dcsr s)
  else if csr =? 0x7b1 then if negb (debug_mode s) then RInvalid else RVal (dpc s)
  else if csr =? 0x7b2 then if negb (debug_mode s) then RInvalid else RVal (dscratch s)
  else if (csr =? 0xb00) || (csr =? 0xc00) then
    if negb (counter_access_ok s csr) then RInvalid else RVal (mcycle s)
  else if (csr =? 0xb02) || (csr =? 0xc02) then
    if negb (counter_access_ok s csr) then RInvalid else RVal (minstret s)
  else if csr_between 0xb03 csr 0xb1f || csr_between 0xc03 csr 0xc1f then
    if negb (counter_access_ok s csr) then RInvalid else RVal 0
  else RFall.

(** Labels 0xf14 to [CSR_PMPADDR(15)]. *)
Definition csr_read_machine_info (s : RISCVCPUState) (csr : Z) : read_case :=
  if csr =? 0xf14 then RVal (mhartid s)
  else if csr =? 0xf13 then RVal (mimpid s)
  else if csr =? 0xf12 then RVal (marchid s)
  else if csr =? 0xf11 then RVal (mvendorid s)
  else if csr_between 0x323 csr 0x33f then RVal (aget (mhpmevent s) (csr &' 0x1F))
  else if (csr =? 0x3A0) || (csr =? 0x3A2) then RVal (aget (csr_pmpcfg s) (csr - 0x3A0))
  else if csr_between 0x3B0 csr 0x3BF then RVal (aget (csr_pmpaddr s) (csr - 0x3B0))
  else RFall.

Section Hooks.
Context `{MachineHooks}.

(** The return code (0 OK, -1 invalid CSR), [*pval] when it is written, and the state (only a hook
    can change it). *)
Definition csr_read (s : RISCVCPUState) (csr : Z) (will_write : bool)
    : Z * option Z * RISCVCPUState :=
  let invalid_csr :=
    match hook_csr_read with
    | Some f => let '(ret, v, s') := f s csr in (ret, Some v, s')
    | None => (-1, Some 0, s)
    end in
  if (csr &' 0xc00 =? 0xc00) && will_write then (-1, None, s)
  else if priv s <? (csr >>' 8) &' 3 then (-1, None, s)
  else
    let r := match csr_read_trap_setup s csr with
             | RFall => match csr_read_debug_counters s csr with
                        | RFall => csr_read_machine_info s csr
                        | r => r
                        end
             | r => r
             end in
    match r with
    | RVal v => (0, Some v, s)
    | RDenied => (-1, None, s)
    | RInvalid | RFall => invalid_csr
    end.

(** ** Rounding mode *)

Definition set_frm (val : Z) (s : RISCVCPUState) : RISCVCPUState := s <| frm := u8 val |>.

(** -1 if the rounding mode is invalid. *)
Definition get_insn_rm (s : RISCVCPUState) (rm : Z) : Z :=
  let rm := if rm =? 7 then frm s else rm in
  if 5 <=? rm then -1 else rm.

(** ** Physical memory protection *)

(** The loop of the NAPOT case: the first [j] in [0, 64) with [pmpaddr & (1 << j)] zero, or 64.
    [1 << j] is an [int]: bit 31 converts to the sign-extended mask, a larger shift is undefined. *)
Fixpoint napot_scan (fuel : nat) (j addr : Z) : res Z :=
  match fuel with
  | O => Done j
  | S fuel =>
      if 32 <=? j then Stop UndefinedBehaviour
      else if addr &' u64 (s32 (1 <<' j)) =? 0 then Done j
      else napot_scan fuel (j + 1) addr
  end.

(** One iteration of the unpacking loop: the entry [cfg] and [pmpaddr[i]] describe, if it is on. *)
Definition unpack_entry (s : RISCVCPUState) (i : Z) : res (option (Z * pmp_addr)) :=
  let cfg := if i <? 8 then u8 (aget (csr_pmpcfg s) 0 >>' (i * 8))
             else u8 (aget (csr_pmpcfg s) 2 >>' ((i - 8) * 8)) in
  let a := aget (csr_pmpaddr s) i in
  let mode := cfg &' PMPCFG_A_MASK in
  if mode =? PMPCFG_A_TOR then
    Done (Some (cfg, mkpmp_addr (if i =? 0 then 0 else u64 (aget (csr_pmpaddr s) (i - 1) <<' 2))
                                (u64 (a <<' 2))))
  else if mode =? PMPCFG_A_NA4 then
    Done (Some (cfg, mkpmp_addr (u64 (a <<' 2)) (u64 (u64 (a <<' 2) + 4))))
  else if mode =? PMPCFG_A_NAPOT then
    j ← napot_scan 64 0 a;
    let j := j + 3 in
    if 64 <=? j then Done (Some (cfg, mkpmp_addr 0 (u64 (-1))))
    else
      let l := u64 (a <<' 2) &' not64 ((1 <<' j) - 1) in
      let h := u64 (l + (1 <<' j)) in
      Done (Some (cfg, mkpmp_addr l (if h <=? l then u64 (-1) else h)))
  else Done None.

(** The entries in order; [pmp_n] counts them and the rest of [pmp]/[pmpcfg] keeps its old content. *)
Definition unpack_step (s0 : RISCVCPUState) (acc : res RISCVCPUState) (i : Z) : res RISCVCPUState :=
  s ← acc;
  e ← unpack_entry s0 i;
  match e with
  | None => Done s
  | Some (cfg, r) =>
      Done (s <| pmpcfg := aset (pmpcfg s) (pmp_n s) cfg |>
              <| pmp := <[Z.to_nat (pmp_n s) := r]> (pmp s) |>
              <| pmp_n := pmp_n s + 1 |>)
  end.

Definition unpack_pmpaddrs (s : RISCVCPUState) : res RISCVCPUState :=
  s ← fold_left (unpack_step s) (seqZ 0 16) (Done (s <| pmp_n := 0 |>));
  Done (tlb_flush_all s).

(** The [pmpcfg] bytes: a locked byte keeps its old value; the reserved bits are cleared. *)
Definition pmpcfg_byte (orig val i : Z) : Z :=
  let cfg := (orig >>' (i * 8)) &' 255 in
  let cfg := if cfg &' PMPCFG_L =? 0 then (val >>' (i * 8)) &' 255 else cfg in
  cfg &' not64 PMPCFG_RES.

Definition pmpcfg_merge (orig val : Z) : Z :=
  fold_left (fun new_val i => new_val |' u64 (pmpcfg_byte orig val i <<' (i * 8))) (seqZ 0 8) 0.

(** ** Writing *)

Inductive write_case := WOk (s : RISCVCPUState) | WRet (ret : Z) (s : RISCVCPUState)
  | WInvalid | WFall.

(** [if (val & 1) val &= ~255 + 1]: vectored mode keeps the mode bit and aligns to 256 bytes. *)
Definition tvec_align (val : Z) : Z := if tst val 1 then val &' u64 (-255) else val.

(** Labels 0x001 to 0x180. *)
Definition csr_write_supervisor (s : RISCVCPUState) (csr val : Z) : write_case :=
  if csr =? 0x001 then WOk (s <| fflags := val &' 0x1f |> <| fs := 3 |>)
  else if csr =? 0x002 then WOk ((set_frm (val &' 7) s) <| fs := 3 |>)
  else if csr =? 0x003 then
    WOk ((set_frm ((val >>' 5) &' 7) s) <| fflags := val &' 0x1f |> <| fs := 3 |>)
  else if csr =? 0x100 then WOk (set_mstatus (merge_bits (mstatus s) SSTATUS_MASK val) s)
  else if csr =? 0x104 then WOk (s <| mie := u32 (merge_bits (mie s) (mideleg s) val) |>)
  else if csr =? 0x105 then WOk (s <| stvec := tvec_align val &' u64 (-3) |>)
  else if csr =? 0x106 then WOk (s <| scounteren := u32 val |>)
  else if csr =? 0x140 then WOk (s <| sscratch := val |>)
  else if csr =? 0x141 then WOk (s <| sepc := CANONICAL_S49 (val &' pc_align_mask s) |>)
  else if csr =? 0x142 then WOk (s <| scause := val &' SCAUSE_MASK |>)
  else if csr =? 0x143 then WOk (s <| stval := CANONICAL_S49 val |>)
  else if csr =? 0x144 then WOk (s <| mip := u32 (merge_bits (mip s) (mideleg s) val) |>)
  else if csr =? 0x180 then
    if (priv s =? PRV_S) && tst (mstatus s) MSTATUS_TVM then WRet (-1) s
    else
      let mode := (val >>' 60) &' 15 in
      let s := if (mode =? 0) || (mode =? 8) || (mode =? 9) then s <| satp := val &' SATP_MASK |> else s in
      WRet 2 (tlb_flush_all s)
  else WFall.

(** Labels 0x300 to 0x344. *)
Definition csr_write_machine (s : RISCVCPUState) (csr val : Z) : write_case :=
  if csr =? 0x300 then WOk (set_mstatus val s)
  else if csr =? 0x301 then WOk s
  else if csr =? 0x302 then WOk (s <| medeleg := u32 (merge_bits (medeleg s) 0xB109 val) |>)
  else if csr =? 0x303 then
    WOk (s <| mideleg := u32 (merge_bits (mideleg s) (MIP_SSIP |' MIP_STIP |' MIP_SEIP) val) |>)
  else if csr =? 0x304 then
    let mask := MIP_MCIP |' MIP_MEIP |' MIP_SEIP |' MIP_MTIP |' MIP_STIP |' MIP_MSIP |' MIP_SSIP in
    WOk (s <| mie := u32 (merge_bits (mie s) mask val) |>)
  else if csr =? 0x305 then
    WOk (s <| mtvec := tvec_align val &' u64 ((1 <<' physical_addr_len s) - 3) |>)
  else if csr =? 0x306 then WOk (s <| mcounteren := u32 val |>)
  else if csr =? 0x320 then WOk (s <| mcountinhibit := u32 (val &' u64 (-3)) |>)
  else if csr =? 0x340 then WOk (s <| mscratch := val |>)
  else if csr =? 0x341 then WOk (s <| mepc := CANONICAL_S49 (val &' pc_align_mask s) |>)
  else if csr =? 0x342 then WOk (s <| mcause := val &' MCAUSE_MASK |>)
  else if csr =? 0x343 then WOk (s <| mtval := CANONICAL_S49 val |>)
  else if csr =? 0x344 then
    WOk (s <| mip := u32 (merge_bits (mip s) (MIP_SEIP |' MIP_STIP |' MIP_SSIP) val) |>)
  else WFall.

(** Labels 0x7a0 to 0x33f. *)
Definition csr_write_debug (s : RISCVCPUState) (csr val : Z) : write_case :=
  if csr =? 0x7a0 then WOk (s <| tselect := val mod MAX_TRIGGERS |>)
  else if csr =? 0x7a1 then
    let type := s32 (val >>' 60) in
    if negb (type =? 0) && negb (type =? 2) then WOk s
    else
      let mask := (15 <<' 60) |' MCONTROL_M |' MCONTROL_EXECUTE in
      WOk (s <| tdata1 := aset (tdata1 s) (tselect s) (merge_bits (aget (tdata1 s) (tselect s)) mask val) |>)
  else if csr =? 0x7a2 then WOk (s <| tdata2 := aset (tdata2 s) (tselect s) val |>)
  else if csr =? 0x7a3 then WOk (s <| tdata3 := aset (tdata3 s) (tselect s) val |>)
  else if csr =? 0x7b0 then
    if negb (debug_mode s) then WInvalid
    else
      let s := s <| dcsr := merge_bits (dcsr s) 0x603 val |> in
      (* [s->dcsr & 0x600 != 0] parses as [s->dcsr & (0x600 != 0)] *)
      WOk (s <| stop_the_counter := tst (dcsr s) (b2z (negb (0x600 =? 0))) |>)
  else if csr =? 0x7b1 then
    if negb (debug_mode s) then WInvalid else WOk (s <| dpc := val &' pc_align_mask s |>)
  else if csr =? 0x7b2 then
    if negb (debug_mode s) then WInvalid else WOk (s <| dscratch := val |>)
  else if csr_between 0x323 csr 0x33f then
    WOk (s <| mhpmevent := aset (mhpmevent s) (csr &' 0x1F)
                 (val &' (HPM_EVENT_SETMASK |' HPM_EVENT_EVENTMASK)) |>)
  else WFall.

(** Labels [CSR_PMPCFG(0)] to 0xb1f. *)
Definition csr_write_pmp_counters (s : RISCVCPUState) (csr val : Z) : res write_case :=
  if (csr =? 0x3A0) || (csr =? 0x3A2) then
    let c := csr - 0x3A0 in
    if PMP_N <=? c / 2 * 8 then Done (WOk s)
    else
      s ← unpack_pmpaddrs (s <| csr_pmpcfg := aset (csr_pmpcfg s) c
                                   (pmpcfg_merge (aget (csr_pmpcfg s) c) val) |>);
      Done (WOk s)
  else if csr_between 0x3B0 csr 0x3BF then
    if PMP_N <=? csr - 0x3B0 then Done (WOk s)
    else
      s ← unpack_pmpaddrs (s <| csr_pmpaddr := aset (csr_pmpaddr s) (csr - 0x3B0)
                                   (val &' PMPADDR_MASK) |>);
      Done (WOk s)
  else if csr =? 0xb00 then Done (WOk (s <| mcycle := val |>))
  else if csr =? 0xb02 then Done (WOk (s <| minstret := val |>))
  else if csr_between 0xb03 csr 0xb1f then Done (WOk s)
  else Done WFall.

(** The whole [switch]. *)
Definition csr_write_case (s : RISCVCPUState) (csr val : Z) : res write_case :=
  match csr_write_supervisor s csr val with
  | WFall => match csr_write_machine s csr val with
             | WFall => match csr_write_debug s csr val with
                        | WFall => csr_write_pmp_counters s csr val
                        | w => Done w
                        end
             | w => Done w
             end
  | w => Done w
  end.

(** -1 if invalid CSR, 0 if OK, -2 if the CSR raised an exception, 2 if the TLBs were flushed. *)
Definition csr_write (s : RISCVCPUState) (csr val : Z) : res (Z * RISCVCPUState) :=
  w ← csr_write_case s csr val;
  match w with
  | WOk s' => Done (0, s')
  | WRet r s' => Done (r, s')
  | WInvalid => Done (-1, s)
  | WFall => match hook_csr_write with Some f => Done (f s csr val) | None => Done (-1, s) end
  end.

End Hooks.

(** ** Preservation of the invariant *)

Lemma merge_bits_spec old mask val i : Z.testbit (merge_bits old mask val) i =
  if Z.testbit mask i then Z.testbit val i else (i <? 64) && Z.testbit old i.
Proof.
  unfold merge_bits. autorewrite with zbits. destruct (Z.leb_spec 0 i).
  - destruct (Z.testbit mask i), (Z.testbit old i), (Z.testbit val i), (i <? 64); reflexivity.
  - rewrite !(Z.testbit_neg_r _ i) by lia. rewrite !andb_false_r. reflexivity.
Qed.

Lemma in_u_merge old mask val : in_u 64 old -> in_u 64 val -> in_u 64 (merge_bits old mask val).
Proof. intros. unfold merge_bits. auto with word. Qed.

Lemma merge_mstatus_ok m val : mstatus_ok m -> in_u 64 val -> mstatus_ok (merge_bits m mstatus_writable val).
Proof.
  intros [Hm Hf] Hv. split; [apply in_u_merge; auto|]. rewrite <- Hf.
  apply (bits_inj_u 64); [lia|auto with word..|].
  intros i Hi. unfold mstatus_writable. autorewrite with zbits. rewrite merge_bits_spec. bits_at i 64%nat.
Qed.

#[export] Hint Resolve in_u_merge : word.

Lemma wf_set_mstatus_val s v : cpu_wf s -> in_u 64 v -> cpu_wf (set_mstatus v s).
Proof.
  intros H Hv. unfold set_mstatus. cbv zeta.
  match goal with |- context [if ?b then tlb_flush_all s else s] => set (s1 := if b then tlb_flush_all s else s) end.
  assert (cpu_wf s1) as H1 by (unfold s1; case_match; auto with cpu_wf).
  apply wf_set_mstatus; [apply wf_set_fs; [auto|apply land3_bound]|].
  apply merge_mstatus_ok; [apply H1|assumption].
Qed.

(** A delegation register keeps within its mask. *)
Lemma subset_merge mask m val : in_u 32 mask -> subset_of mask m ->
  subset_of mask (u32 (merge_bits m mask val)).
Proof.
  intros Hk [_ Hs]. split; [apply in_u_u32|]. apply Z.bits_inj'. intros i Hi.
  assert (Z.testbit (m &' Z.lnot mask) i = false) as E by (rewrite Hs; apply Z.bits_0).
  revert E. autorewrite with zbits. rewrite merge_bits_spec.
  destruct (Z.leb_spec 0 i); [|lia]. destruct (Z.testbit mask i), (Z.testbit val i), (i <? 32), (i <? 64), (Z.testbit m i); auto.
Qed.

Lemma in_u_pc_align s : in_u 64 (pc_align_mask s).
Proof. unfold pc_align_mask. case_match; auto with word. Qed.
Lemma in_u_canonical v : in_u 64 (CANONICAL_S49 v).
Proof. apply in_u_u64. Qed.
Lemma in_u_tvec v : in_u 64 v -> in_u 64 (tvec_align v).
Proof. intros. unfold tvec_align. case_match; auto with word. Qed.
#[export] Hint Resolve in_u_pc_align in_u_canonical in_u_tvec : word.

Lemma satp_ok_write v : in_u 64 v ->
  (let mode := (v >>' 60) &' 15 in (mode =? 0) || (mode =? 8) || (mode =? 9) = true) ->
  satp_ok (v &' SATP_MASK).
Proof.
  intros Hv Hm. cbv zeta in Hm. rewrite !orb_true_iff, !Z.eqb_eq in Hm. split; [auto with word|].
  replace (satp_mode (v &' SATP_MASK)) with ((v >>' 60) &' 15); [tauto|].
  unfold satp_mode. apply Z.bits_inj'. intros i Hi. unfold SATP_MASK.
  destruct (Z.lt_ge_cases i 4); [bits_at i 4%nat|].
  autorewrite with zbits. rewrite !(testbit_above 4 15) by lia. rewrite !andb_false_r. reflexivity.
Qed.


Lemma in_u_u8 v : in_u 8 (u8 v).
Proof. apply wrapu_range. lia. Qed.
#[export] Hint Resolve in_u_u8 : word.
#[export] Hint Resolve wf_set_mstatus_val : cpu_wf.

Definition wf_case (w : write_case) : Prop :=
  match w with WOk s => cpu_wf s | WRet _ s => cpu_wf s | WInvalid | WFall => True end.

(** One goal per case label, with the label's test in the context. *)
Ltac split_labels :=
  cbv zeta; repeat match goal with
  | |- context [if ?b then _ else _] => let E := fresh "E" in destruct b eqn:E
  end; cbn [wf_case]; try exact I.

Lemma wf_csr_write_supervisor s csr val : cpu_wf s -> in_u 64 val -> wf_case (csr_write_supervisor s csr val).
Proof.
  intros H Hv. unfold csr_write_supervisor, set_frm. split_labels.
  all: try apply wf_set_fs; try apply wf_tlb_flush_all; auto with cpu_wf word; try lia.
  all: try (apply wf_set_fflags; [apply wf_set_frm|]; auto with word).
  - apply wf_set_mstatus_val; auto. apply in_u_merge; [apply (wf_mstatus _ H)|auto].
  - apply wf_set_satp; auto using satp_ok_write.
Qed.

Lemma wf_csr_write_machine s csr val : cpu_wf s -> in_u 64 val -> wf_case (csr_write_machine s csr val).
Proof.
  intros H Hv. unfold csr_write_machine. split_labels; auto with cpu_wf word.
  - apply wf_set_medeleg; [auto|]. apply subset_merge; [split; [discriminate|reflexivity]|apply H].
  - apply wf_set_mideleg; [auto|]. apply subset_merge; [split; [discriminate|reflexivity]|apply H].
Qed.

Lemma wf_csr_write_debug s csr val : cpu_wf s -> in_u 64 val -> wf_case (csr_write_debug s csr val).
Proof.
  intros H Hv. unfold csr_write_debug. split_labels; auto with cpu_wf word.
  - apply wf_set_tselect; [auto|]. apply Z.mod_1_r.
  - apply wf_set_tdata1; [auto|]. apply words_aset; [apply H|]. apply in_u_merge; auto.
    eapply words_aget, H.
  - apply wf_set_tdata2; [auto|]. apply words_aset; [apply H|auto].
  - apply wf_set_tdata3; [auto|]. apply words_aset; [apply H|auto].
  - apply wf_set_stop_the_counter, wf_set_dcsr; [auto|]. apply in_u_merge; [apply H|auto].
  - apply wf_set_mhpmevent; [auto|]. apply words_aset; [apply H|auto with word].
Qed.

Lemma wf_unpack_step s0 s i s' : cpu_wf s -> 0 <= pmp_n s < 16 ->
  unpack_step s0 (Done s) i = Done s' -> cpu_wf s' /\ pmp_n s <= pmp_n s' <= pmp_n s + 1.
Proof.
  intros H Hn. unfold unpack_step. cbn [mbind res_bind].
  destruct (unpack_entry s0 i) as [[[cfg r]|]|]; cbn [mbind res_bind]; [|intros [= <-]; split; [auto|lia]|discriminate].
  intros [= <-]. split; [|cpu_simpl; lia].
  apply wf_set_pmp_n; [apply wf_set_pmp; [apply wf_set_pmpcfg; [auto|]|]|lia].
  - unfold aset. rewrite length_insert. apply H.
  - rewrite length_insert. apply H.
Qed.

Lemma fold_step_stop s0 l r : fold_left (unpack_step s0) l (Stop r) = Stop r.
Proof. induction l; simpl; auto. Qed.

Lemma wf_unpack_fold s0 l : forall s s', cpu_wf s -> pmp_n s + Z.of_nat (length l) <= 16 ->
  fold_left (unpack_step s0) l (Done s) = Done s' -> cpu_wf s'.
Proof.
  induction l as [|i l IH]; intros s s' H Hn; cbn [fold_left length]; [intros [= <-]; auto|].
  destruct (unpack_step s0 (Done s) i) as [s1|] eqn:E; [|rewrite fold_step_stop; discriminate].
  cbn [length] in Hn. pose proof (wf_pmp_n _ H).
  destruct (wf_unpack_step _ _ _ _ H ltac:(lia) E) as [H1 Hn1].
  apply IH; [auto|]. lia.
Qed.

Lemma wf_unpack_pmpaddrs s s' : cpu_wf s -> unpack_pmpaddrs s = Done s' -> cpu_wf s'.
Proof.
  intros H. unfold unpack_pmpaddrs.
  destruct (fold_left _ _ _) as [s1|] eqn:E; cbn [mbind res_bind]; [|discriminate].
  intros [= <-]. apply wf_tlb_flush_all. eapply wf_unpack_fold; [|..|exact E].
  - apply wf_set_pmp_n; [auto|lia].
  - cpu_simpl. rewrite length_seqZ. reflexivity.
Qed.

Lemma in_u_pmpcfg_merge orig val : in_u 64 (pmpcfg_merge orig val).
Proof.
  unfold pmpcfg_merge. set (f := fun _ _ => _). generalize (seqZ 0 8). intros l.
  assert (forall acc, in_u 64 acc -> in_u 64 (fold_left f l acc)) as Hf.
  { induction l as [|i l IH]; intros acc Ha; simpl; auto. apply IH. unfold f. auto with word. }
  apply Hf. split; [discriminate|reflexivity].
Qed.

Lemma wf_unpack_then s w : cpu_wf s ->
  (s ← unpack_pmpaddrs s; Done (WOk s)) = Done w -> wf_case w.
Proof.
  intros H. destruct (unpack_pmpaddrs s) as [s1|] eqn:U; cbn [mbind res_bind]; [|discriminate].
  intros [= <-]. exact (wf_unpack_pmpaddrs _ _ H U).
Qed.

Lemma wf_csr_write_pmp_counters s csr val w : cpu_wf s -> in_u 64 val ->
  csr_write_pmp_counters s csr val = Done w -> wf_case w.
Proof.
  intros H Hv. unfold csr_write_pmp_counters.
  destruct (_ || _); [|destruct (csr_between 0x3B0 csr 0x3BF)].
  - cbv zeta. destruct (_ <=? _); [intros [= <-]; exact H|]. apply wf_unpack_then.
    apply wf_set_csr_pmpcfg; [auto|]. apply words_aset; [apply H|apply in_u_pmpcfg_merge].
  - destruct (_ <=? _); [intros [= <-]; exact H|]. apply wf_unpack_then.
    apply wf_set_csr_pmpaddr; [auto|]. apply words_aset; [apply H|auto with word].
  - destruct (_ =? _); [intros [= <-]; apply wf_set_mcycle; auto|].
    destruct (_ =? _); [intros [= <-]; apply wf_set_minstret; auto|].
    destruct (csr_between _ _ _); intros [= <-]; [exact H|exact I].
Qed.

(** What the embedder's hooks promise: they keep the invariant. *)
Class HookLaws `{MachineHooks} : Prop := {
  hook_read_wf : forall f s csr, hook_csr_read = Some f -> cpu_wf s ->
    in_u 64 (snd (fst (f s csr))) /\ cpu_wf (snd (f s csr));
  hook_write_wf : forall f s csr val, hook_csr_write = Some f -> cpu_wf s -> in_u 64 val ->
    cpu_wf (snd (f s csr val)) }.

#[export] Instance no_hooks_laws : @HookLaws no_hooks.
Proof. split; discriminate. Qed.

Lemma wf_csr_write_case s csr val w : cpu_wf s -> in_u 64 val ->
  csr_write_case s csr val = Done w -> wf_case w.
Proof.
  intros Hs Hv. unfold csr_write_case.
  pose proof (wf_csr_write_supervisor s csr val Hs Hv) as W1.
  pose proof (wf_csr_write_machine s csr val Hs Hv) as W2.
  pose proof (wf_csr_write_debug s csr val Hs Hv) as W3.
  destruct (csr_write_supervisor s csr val); try (intros [= <-]; exact W1).
  destruct (csr_write_machine s csr val); try (intros [= <-]; exact W2).
  destruct (csr_write_debug s csr val); try (intros [= <-]; exact W3).
  apply wf_csr_write_pmp_counters; auto.
Qed.

Section HookProofs.
Context `{MachineHooks} `{!HookLaws}.

Lemma wf_csr_write s csr val ret s' : cpu_wf s -> in_u 64 val ->
  csr_write s csr val = Done (ret, s') -> cpu_wf s'.
Proof.
  intros Hs Hv. unfold csr_write. pose proof (wf_csr_write_case s csr val) as W.
  destruct (csr_write_case s csr val) as [w|]; cbn [mbind res_bind]; [|discriminate].
  specialize (W w Hs Hv eq_refl).
  destruct w; cbn [wf_case] in W; [intros [= <- <-]; auto..|].
  destruct hook_csr_write as [f|] eqn:E; [|intros [= <- <-]; auto].
  intros E'. pose proof (hook_write_wf f s csr val E Hs Hv) as Hf.
  destruct (f s csr val). injection E' as <- <-. exact Hf.
Qed.

End HookProofs.

(** ** Reads *)

Definition read_case_ok (r : read_case) : Prop := match r with RVal v => in_u 64 v | _ => True end.

Lemma in_u_get_mstatus s mask : cpu_wf s -> in_u 64 (get_mstatus s mask).
Proof.
  intros H. unfold get_mstatus. cbv zeta.
  assert (in_u 64 (fs s <<' MSTATUS_FS_SHIFT)) as Hf.
  { pose proof (wf_fs _ H). unfold MSTATUS_FS_SHIFT, in_u. rewrite Z.shiftl_mul_pow2 by lia. lia. }
  pose proof (proj1 (wf_mstatus _ H)). assert (in_u 64 (1 <<' 63)) by (split; [discriminate|reflexivity]). case_match; auto with word.
Qed.

Lemma in_u_fcsr s : cpu_wf s -> in_u 64 (fflags s |' (frm s <<' 5)).
Proof.
  intros H. apply in_u_lor64; [apply in_u_32_64, H|]. pose proof (wf_frm _ H) as Hf.
  unfold in_u in *. rewrite Z.shiftl_mul_pow2 by lia. lia.
Qed.

Lemma read_trap_setup_ok s csr : cpu_wf s -> read_case_ok (csr_read_trap_setup s csr).
Proof.
  intros H. unfold csr_read_trap_setup.
  repeat match goal with |- context [if ?b then _ else _] => destruct b end; cbn [read_case_ok];
    try exact I; auto using in_u_get_mstatus, in_u_fcsr; try apply H;
    try (apply in_u_32_64; auto using wf_medeleg_u32, wf_mideleg_u32, in_u_land32; apply H).
  - apply (in_u_mono 8); [lia|apply H].
  - apply in_u_32_64, in_u_land32, H.
  - apply in_u_32_64, in_u_land32, H.
  - apply in_u_lor64; [apply in_u_32_64, H|auto with word].
Qed.

Lemma read_debug_counters_ok s csr : cpu_wf s -> read_case_ok (csr_read_debug_counters s csr).
Proof.
  intros H. unfold csr_read_debug_counters.
  repeat match goal with |- context [if ?b then _ else _] => destruct b end; cbn [read_case_ok];
    try exact I; try apply H; try (eapply words_aget, H).
  - rewrite (wf_tselect _ H). split; [discriminate|reflexivity].
  - split; [discriminate|reflexivity].
Qed.

Lemma read_machine_info_ok s csr : cpu_wf s -> read_case_ok (csr_read_machine_info s csr).
Proof.
  intros H. unfold csr_read_machine_info.
  repeat match goal with |- context [if ?b then _ else _] => destruct b end; cbn [read_case_ok];
    try exact I; try apply H; eapply words_aget, H.
Qed.

Lemma wf_csr_read `{MachineHooks} `{!HookLaws} s csr will_write ret v s' : cpu_wf s ->
  csr_read s csr will_write = (ret, v, s') -> in_u 64 (default 0 v) /\ cpu_wf s'.
Proof.
  intros Hs. assert (in_u 64 0) as Hzero by (split; [discriminate|reflexivity]). unfold csr_read.
  destruct (_ && _); [intros [= <- <- <-]; auto|]. destruct (_ <? _); [intros [= <- <- <-]; auto|].
  assert (forall ret v s', match hook_csr_read with
      | Some f => let '(ret, v, s') := f s csr in (ret, Some v, s') | None => (-1, Some 0, s) end = (ret, v, s') ->
      in_u 64 (default 0 v) /\ cpu_wf s') as K.
  { intros r1 v1 s1. destruct hook_csr_read as [f|] eqn:E; [|intros [= <- <- <-]; auto].
    pose proof (hook_read_wf f s csr E Hs) as Hf. destruct (f s csr) as [[r2 v2] s2].
    intros [= <- <- <-]. exact Hf. }
  pose proof (read_trap_setup_ok s csr Hs) as R1. pose proof (read_debug_counters_ok s csr Hs) as R2.
  pose proof (read_machine_info_ok s csr Hs) as R3.
  destruct (csr_read_trap_setup s csr); try (intros [= <- <- <-]; auto); try apply K.
  destruct (csr_read_debug_counters s csr); try (intros [= <- <- <-]; auto); try apply K.
  destruct (csr_read_machine_info s csr); try (intros [= <- <- <-]; auto); apply K.
Qed.

(** ** [mstatus] and its views *)

(** Outside the writable bits, [mstatus] holds the constants. *)
Lemma mstatus_bit m i : mstatus_ok m -> 0 <= i < 64 -> Z.testbit mstatus_writable i = false ->
  Z.testbit m i = Z.testbit mstatus_fixed i.
Proof.
  intros [_ Hf] Hi Hw. rewrite <- Hf. autorewrite with zbits. rewrite Hw.
  destruct (Z.leb_spec 0 i), (Z.ltb_spec i 64); try lia. cbn [negb andb]. rewrite andb_true_r. reflexivity.
Qed.

(** The FS field of the assembled register is [s->fs], and SD is set exactly when it is 3. *)
Lemma get_mstatus_sd s mask : cpu_wf s -> mask &' MSTATUS_FS = MSTATUS_FS ->
  get_mstatus s mask =
  ((mstatus s |' (fs s <<' 13)) &' mask) |' (if fs s =? 3 then 1 <<' 63 else 0).
Proof.
  intros H Hmask. unfold get_mstatus, MSTATUS_FS_SHIFT. cbv zeta. rewrite <- !Z.land_assoc, Hmask.
  pose proof (fun i => mstatus_bit (mstatus s) i (wf_mstatus _ H)) as Hb.
  assert (((mstatus s |' (fs s <<' 13)) &' (mask &' MSTATUS_XS) =? MSTATUS_XS) = false) as ->.
  { apply Z.eqb_neq. intros E. apply (f_equal (fun z => Z.testbit z 16)) in E. revert E.
    autorewrite with zbits. rewrite (Hb 16) by (try lia; reflexivity).
    rewrite (testbit_above 2 (fs s)) by (pose proof (wf_fs _ H); lia). discriminate. }
  assert ((mstatus s |' (fs s <<' 13)) &' MSTATUS_FS = fs s <<' 13) as ->.
  { apply (bits_inj_u 16); [lia| |pose proof (wf_fs _ H); unfold in_u; rewrite Z.shiftl_mul_pow2; lia|].
    - apply land_range_r; [lia|split; [discriminate|reflexivity]].
    - intros i Hi. assert (forall j, 2 <= j -> Z.testbit (fs s) j = false) as Hfs
        by (intros; apply (testbit_above 2); pose proof (wf_fs _ H); lia).
      pose proof (Hb 13 ltac:(lia) eq_refl) as B13. pose proof (Hb 14 ltac:(lia) eq_refl) as B14.
      autorewrite with zbits. enum_bits i 16%nat; eval_consts; rewrite ?B13, ?B14, ?(Z.testbit_neg_r (fs s)), ?Hfs by lia;
        bool_atoms. }
  rewrite orb_false_r. unfold MSTATUS_FS. replace (fs s <<' 13 =? 24576) with (fs s =? 3).
  - destruct (fs s =? 3); [reflexivity|]. rewrite Z.lor_0_r. reflexivity.
  - pose proof (wf_fs _ H). assert (fs s = 0 \/ fs s = 1 \/ fs s = 2 \/ fs s = 3) as [-> | [-> | [-> | ->]]] by lia; reflexivity.
Qed.

(** What software reads back after writing [v]: the writable fields, the fixed XLENs, and SD. *)
Definition mstatus_warl (v : Z) : Z :=
  (v &' (mstatus_writable |' MSTATUS_FS)) |' mstatus_fixed
  |' (if v &' MSTATUS_FS =? MSTATUS_FS then 1 <<' 63 else 0).

Lemma set_mstatus_fields v s : cpu_wf s ->
  mstatus (set_mstatus v s) = merge_bits (mstatus s) mstatus_writable v /\
  fs (set_mstatus v s) = (v >>' 13) &' 3 /\ priv (set_mstatus v s) = priv s.
Proof. intros H. unfold set_mstatus. cbv zeta. destruct (_ || _); repeat split; reflexivity. Qed.

Lemma fs_field_full v : ((v >>' 13) &' 3 =? 3) = (v &' MSTATUS_FS =? MSTATUS_FS).
Proof.
  replace (v &' MSTATUS_FS) with (((v >>' 13) &' 3) <<' 13).
  - pose proof (land3_bound (v >>' 13)) as Hb. set (x := (v >>' 13) &' 3) in *. clearbody x.
    assert (x = 0 \/ x = 1 \/ x = 2 \/ x = 3) as [-> | [-> | [-> | ->]]] by lia; reflexivity.
  - apply (bits_inj_u 16); [lia| |apply land_range_r; [lia|split; [discriminate|reflexivity]]|].
    + pose proof (land3_bound (v >>' 13)). unfold in_u. rewrite Z.shiftl_mul_pow2 by lia. lia.
    + intros i Hi. unfold MSTATUS_FS. bits_at i 16%nat.
Qed.

Lemma set_mstatus_read v s : cpu_wf s -> in_u 64 v -> get_mstatus (set_mstatus v s) (u64 (-1)) = mstatus_warl v.
Proof.
  intros H Hv. rewrite get_mstatus_sd by (try apply wf_set_mstatus_val; auto).
  destruct (set_mstatus_fields v s H) as (-> & -> & _). rewrite fs_field_full. unfold mstatus_warl. f_equal.
  pose proof (land3_bound (v >>' 13)) as Hb. set (x := (v >>' 13) &' 3) in *.
  apply (bits_inj_u 64); [lia|auto with word..|].
  { apply in_u_lor64; [apply in_u_land64; auto|split; [discriminate|reflexivity]]. }
  intros i Hi. autorewrite with zbits. rewrite merge_bits_spec.
  destruct (Z.testbit mstatus_writable i) eqn:W.
  - cbn [orb]. revert W. unfold mstatus_writable, mstatus_fixed, x. bits_at i 64%nat; try discriminate.
  - rewrite (mstatus_bit _ i (wf_mstatus _ H) Hi W). revert W. unfold mstatus_writable, mstatus_fixed, x, MSTATUS_FS.
    bits_at i 64%nat; discriminate.
Qed.

(** A read of a trap-setup register that the privilege level allows. *)
Lemma csr_read_setup `{MachineHooks} s csr v : (csr >>' 8) &' 3 <= priv s ->
  csr_read_trap_setup s csr = RVal v -> csr_read s csr false = (0, Some v, s).
Proof.
  intros Hp Hr. unfold csr_read. rewrite andb_false_r, Hr.
  destruct (Z.ltb_spec (priv s) ((csr >>' 8) &' 3)); [lia|reflexivity].
Qed.

(** Writing [mstatus] is WARL: it never fails, keeps the hart's invariant, and reading it back
    gives exactly the writable fields of the value with UXL = SXL = 2 and SD derived from FS,
    whatever the register held before. *)
Theorem mstatus_write_read `{MachineHooks} s val : cpu_wf s -> in_u 64 val ->
  exists s', csr_write s 0x300 val = Done (0, s') /\ cpu_wf s' /\
    (priv s = PRV_M -> csr_read s' 0x300 false = (0, Some (mstatus_warl val), s')).
Proof.
  intros Hs Hv. exists (set_mstatus val s). split; [reflexivity|]. split; [auto with cpu_wf|].
  intros Hp. unfold csr_read. destruct (set_mstatus_fields val s Hs) as (_ & _ & ->). rewrite Hp.
  cbn. rewrite set_mstatus_read by auto. reflexivity.
Qed.

Lemma sstatus_write_value m v i : mstatus_ok m -> in_u 64 v -> 0 <= i < 64 ->
  Z.testbit (mstatus_warl (merge_bits m SSTATUS_MASK v)) i =
  if Z.testbit (SSTATUS_MASK &' Z.lnot MSTATUS_UXL_MASK) i then Z.testbit v i
  else if i =? 63 then (v &' MSTATUS_FS =? MSTATUS_FS) else Z.testbit m i.
Proof.
  intros Hm Hv Hi. unfold mstatus_warl.
  replace (merge_bits m SSTATUS_MASK v &' MSTATUS_FS) with (v &' MSTATUS_FS).
  2:{ apply (bits_inj_u 64); [lia|auto with word..|].
      - apply in_u_land64, in_u_merge; auto. apply Hm.
      - intros j Hj. autorewrite with zbits. rewrite merge_bits_spec. unfold SSTATUS_MASK, MSTATUS_FS. bits_at j 64%nat. }
  pose proof (fun i => mstatus_bit m i Hm) as Hb.
  destruct (_ =? MSTATUS_FS); autorewrite with zbits; rewrite merge_bits_spec;
    unfold SSTATUS_MASK, MSTATUS_UXL_MASK, MSTATUS_FS;
    (enum_bits i 64%nat; eval_consts; cbn [andb orb negb];
     try (rewrite Hb by (try lia; reflexivity)); bool_atoms).
Qed.

Lemma get_mstatus_full_bit s i : cpu_wf s -> 0 <= i < 63 -> i <> 13 -> i <> 14 ->
  Z.testbit (get_mstatus s (u64 (-1))) i = Z.testbit (mstatus s) i.
Proof.
  intros H Hi H13 H14. rewrite get_mstatus_sd by auto.
  assert (Z.testbit (fs s <<' 13) i = false) as Hf.
  { rewrite Z.shiftl_spec by lia. destruct (Z.lt_ge_cases i 13); [apply Z.testbit_neg_r; lia|].
    apply (testbit_above 2); pose proof (wf_fs _ H); lia. }
  assert (Z.testbit (if fs s =? 3 then 1 <<' 63 else 0) i = false) as Hsd.
  { destruct (_ =? 3); [|apply Z.bits_0]. rewrite Z.shiftl_1_l. apply Z.pow2_bits_false. lia. }
  rewrite Z.lor_spec, Hsd, Z.land_spec, Z.lor_spec, Hf, !orb_false_r.
  change (u64 (-1)) with (Z.ones 64). rewrite Z.ones_spec_low by lia. apply andb_true_r.
Qed.

(** A write to [sstatus] reaches only the supervisor fields of [mstatus] (SIE, SPIE, SPP, FS, SUM,
    MXR, and SD with FS): every other bit that machine mode reads is unchanged. *)
Theorem sstatus_write_confined `{MachineHooks} s val : cpu_wf s -> in_u 64 val ->
  exists s', csr_write s 0x100 val = Done (0, s') /\ cpu_wf s' /\
    forall i, 0 <= i < 64 ->
      Z.testbit (get_mstatus s' (u64 (-1))) i =
      if Z.testbit (SSTATUS_MASK &' Z.lnot MSTATUS_UXL_MASK) i then Z.testbit val i
      else if i =? 63 then (val &' MSTATUS_FS =? MSTATUS_FS)
      else Z.testbit (get_mstatus s (u64 (-1))) i.
Proof.
  intros Hs Hv. assert (in_u 64 (merge_bits (mstatus s) SSTATUS_MASK val)) as Hm
    by (apply in_u_merge; [apply (wf_mstatus _ Hs)|auto]).
  eexists. split; [reflexivity|]. split; [auto with cpu_wf|]. intros i Hi.
  rewrite set_mstatus_read by auto. rewrite sstatus_write_value by (auto; apply Hs).
  destruct (Z.testbit _ i) eqn:E; [reflexivity|]. destruct (Z.eqb_spec i 63); [reflexivity|].
  rewrite get_mstatus_full_bit; auto; [lia|intros ->; discriminate..].
Qed.

(** Bit [i] of a 32-bit register written through a mask. *)
Lemma merge32_bit old mask val i : in_u 32 old -> in_u 32 mask -> 0 <= i ->
  Z.testbit (u32 (merge_bits old mask val)) i = if Z.testbit mask i then Z.testbit val i else Z.testbit old i.
Proof.
  intros Ho Hm Hi. rewrite u32_spec, merge_bits_spec. destruct (Z.ltb_spec i 32).
  - destruct (Z.ltb_spec i 64); [reflexivity|lia].
  - rewrite (testbit_above 32 mask), (testbit_above 32 old) by (unfold in_u in *; lia). reflexivity.
Qed.

(** The supervisor views of the interrupt registers touch only delegated interrupts: a write to
    [sie] ([sip]) changes exactly the bits of [mie] ([mip]) set in [mideleg], and reading the view
    back gives the written value under [mideleg]. *)
Theorem sie_sip_write_confined `{MachineHooks} s val : cpu_wf s -> PRV_S <= priv s ->
  exists s1 s2, csr_write s 0x104 val = Done (0, s1) /\ csr_write s 0x144 val = Done (0, s2) /\
    (forall i, 0 <= i -> Z.testbit (mie s1) i =
       if Z.testbit (mideleg s) i then Z.testbit val i else Z.testbit (mie s) i) /\
    (forall i, 0 <= i -> Z.testbit (mip s2) i =
       if Z.testbit (mideleg s) i then Z.testbit val i else Z.testbit (mip s) i) /\
    csr_read s1 0x104 false = (0, Some (val &' mideleg s), s1) /\
    csr_read s2 0x144 false = (0, Some (val &' mideleg s), s2).
Proof.
  intros Hs Hp. pose proof (wf_mideleg_u32 _ Hs) as Hd.
  assert (forall old, in_u 32 old -> u32 (merge_bits old (mideleg s) val) &' mideleg s = val &' mideleg s) as R.
  { intros old Ho. apply Z.bits_inj'. intros i Hi. rewrite !Z.land_spec, merge32_bit by auto.
    destruct (Z.testbit (mideleg s) i); [reflexivity|]. rewrite !andb_false_r. reflexivity. }
  eexists _, _. do 2 (split; [reflexivity|]). cpu_simpl.
  repeat split; try (intros; apply merge32_bit; auto; apply Hs).
  - apply csr_read_setup; [exact Hp|]. rewrite <- (R (mie s)) by apply Hs. reflexivity.
  - apply csr_read_setup; [exact Hp|]. rewrite <- (R (mip s)) by apply Hs. reflexivity.
Qed.

(** ** PMP configuration *)

Lemma pmpcfg_byte_range orig val i : in_u 8 (pmpcfg_byte orig val i).
Proof.
  unfold pmpcfg_byte. apply land_range; [lia|].
  destruct (_ =? 0); (apply land_range_r; [lia|split; [discriminate|reflexivity]]).
Qed.

Lemma pmpcfg_merge_unfold orig val :
  let b := pmpcfg_byte orig val in
  pmpcfg_merge orig val =
  b 0 |' (b 1 <<' 8) |' (b 2 <<' 16) |' (b 3 <<' 24) |' (b 4 <<' 32) |' (b 5 <<' 40) |' (b 6 <<' 48) |' (b 7 <<' 56).
Proof.
  intros b. unfold pmpcfg_merge. change (seqZ 0 8) with [0; 1; 2; 3; 4; 5; 6; 7]. cbn [fold_left].
  assert (forall i, 0 <= i < 8 -> u64 (pmpcfg_byte orig val i <<' (i * 8)) = pmpcfg_byte orig val i <<' (i * 8)) as E.
  { intros i Hi. apply u64_id. pose proof (pmpcfg_byte_range orig val i) as Hb. unfold in_u in *.
    rewrite Z.shiftl_mul_pow2 by lia.
    assert (2 ^ (i * 8) <= 2 ^ 56) by (apply Z.pow_le_mono_r; lia).
    assert (0 < 2 ^ (i * 8)) by (apply Z.pow_pos_nonneg; lia).
    nia. }
  rewrite !E by lia. rewrite Z.lor_0_l. change (0 * 8) with 0. rewrite Z.shiftl_0_r. reflexivity.
Qed.

Lemma testbit_byte8 b j k : in_u 8 b -> 0 <= j < 8 -> 0 <= k < 8 ->
  forall i, Z.testbit (b <<' (8 * k)) (8 * i + j) = (i =? k) && Z.testbit b j.
Proof.
  intros Hb Hj Hk i. rewrite shiftl_spec'. destruct (Z.eqb_spec i k) as [->|Hne].
  - destruct (Z.leb_spec 0 (8 * k + j)); [|lia]. cbn [andb]. f_equal. lia.
  - cbn [andb]. destruct (Z.lt_ge_cases (8 * i + j - 8 * k) 0).
    + rewrite (Z.testbit_neg_r b) by lia. apply andb_false_r.
    + rewrite (testbit_above 8 b) by (unfold in_u in *; lia). apply andb_false_r.
Qed.

(** Writing [pmpcfg0]/[pmpcfg2] respects the lock bits: byte by byte, a locked entry keeps its
    configuration and an unlocked one takes the written byte, both without the reserved bits. *)
Theorem pmpcfg_write_lock orig val i : 0 <= i < 8 ->
  (pmpcfg_merge orig val >>' (8 * i)) &' 255 =
  (if tst (orig >>' (8 * i)) PMPCFG_L then (orig >>' (8 * i)) &' 255 else (val >>' (8 * i)) &' 255)
    &' Z.lnot PMPCFG_RES.
Proof.
  intros Hi. assert (forall k, in_u 8 (pmpcfg_byte orig val k)) as Hb by (intros; apply pmpcfg_byte_range).
  transitivity (pmpcfg_byte orig val i).
  - apply (bits_inj_u 8); [lia|apply land_range_r; [lia|split; [discriminate|reflexivity]]|auto|].
    intros j Hj. rewrite Z.land_spec, Z.shiftr_spec by lia. rewrite pmpcfg_merge_unfold. cbv zeta.
    replace (j + 8 * i) with (8 * i + j) by lia.
    assert (Z.testbit 255 j = true) as -> by (change 255 with (Z.ones 8); apply Z.ones_spec_low; lia).
    rewrite !Z.lor_spec, andb_true_r. pose proof (testbit_byte8 (pmpcfg_byte orig val 0) j 0 (Hb 0) Hj) as E0.
    rewrite Z.mul_0_r, Z.shiftl_0_r in E0.
    rewrite E0 by lia.
    rewrite (testbit_byte8 _ j 1 (Hb 1)), (testbit_byte8 _ j 2 (Hb 2)), (testbit_byte8 _ j 3 (Hb 3)),
      (testbit_byte8 _ j 4 (Hb 4)), (testbit_byte8 _ j 5 (Hb 5)), (testbit_byte8 _ j 6 (Hb 6)),
      (testbit_byte8 _ j 7 (Hb 7)) by lia.
    enum_bits i 8%nat; eval_consts; cbn [andb]; rewrite ?orb_false_r; reflexivity.
  - unfold pmpcfg_byte, tst, PMPCFG_L. rewrite (Z.mul_comm i 8), <- Z.land_assoc. change (255 &' 128) with 128.
    destruct (_ =? 0); cbn [negb]; apply land_not64; apply in_u_land64_r; (split; [discriminate|reflexivity]).
Qed.

(** The scan stops at the lowest zero bit, when it is below the sign bit of [1 << j]. *)
Lemma napot_scan_spec fuel : forall j addr k, 0 <= j <= k -> k < 31 -> k < j + Z.of_nat fuel ->
  Z.testbit addr k = false -> (forall i, j <= i < k -> Z.testbit addr i = true) ->
  napot_scan fuel j addr = Done k.
Proof.
  induction fuel as [|fuel IH]; intros j addr k Hj Hk Hf H0 H1; [lia|]. cbn [napot_scan].
  destruct (Z.leb_spec 32 j); [lia|].
  replace (u64 (s32 (1 <<' j))) with (2 ^ j).
  2:{ assert (0 < 2 ^ j < 2 ^ 31) by (split; [apply Z.pow_pos_nonneg|apply Z.pow_lt_mono_r]; lia).
      rewrite Z.shiftl_1_l. unfold s32, u64. rewrite wraps_small, wrapu_small by (simpl; lia). reflexivity. }
  pose proof (tst_pow2 addr j ltac:(lia)) as Ht. unfold tst in Ht.
  destruct (Z.eq_dec j k) as [->|Hne].
  - rewrite H0 in Ht. apply negb_false_iff in Ht. rewrite Ht. reflexivity.
  - rewrite H1 in Ht by lia. apply negb_true_iff in Ht. rewrite Ht. apply IH; auto; try lia.
    intros. apply H1. lia.
Qed.

Lemma napot_bits base k i : 0 <= k -> 0 <= base -> 0 <= i <= k ->
  Z.testbit (base * 2 ^ (k + 1) + (2 ^ k - 1)) i = (i <? k).
Proof.
  intros Hk Hb Hi. assert (0 < 2 ^ k) by (apply Z.pow_pos_nonneg; lia).
  assert (2 ^ (k + 1) = 2 * 2 ^ k) as E by (rewrite Z.pow_add_r by lia; lia).
  rewrite <- (Z.mod_pow2_bits_low _ (k + 1)) by lia.
  rewrite Z.add_comm, Z_mod_plus_full, Z.mod_small by lia.
  replace (2 ^ k - 1) with (Z.ones k) by (rewrite Z.ones_equiv; lia).
  destruct (Z.ltb_spec i k); [apply Z.ones_spec_low; lia|apply Z.ones_spec_high; lia].
Qed.

(** The configuration byte of entry [i]. *)
Definition entry_cfg (s : RISCVCPUState) (i : Z) : Z :=
  if i <? 8 then u8 (aget (csr_pmpcfg s) 0 >>' (i * 8)) else u8 (aget (csr_pmpcfg s) 2 >>' ((i - 8) * 8)).

(** NAPOT decoding: an address register whose lowest [k] bits are ones below a zero denotes the
    naturally aligned region of [2^(k+3)] bytes, and no smaller or larger one.  (The shift of the
    scan is 32 bits wide, hence [k < 31].) *)
Theorem napot_region s i base k : 0 <= k < 31 -> 0 <= base ->
  aget (csr_pmpaddr s) i = base * 2 ^ (k + 1) + (2 ^ k - 1) -> aget (csr_pmpaddr s) i <= PMPADDR_MASK ->
  entry_cfg s i &' PMPCFG_A_MASK = PMPCFG_A_NAPOT ->
  unpack_entry s i = Done (Some (entry_cfg s i,
    mkpmp_addr (base * 2 ^ (k + 3)) ((base + 1) * 2 ^ (k + 3)))).
Proof.
  intros Hk Hb Ha Hm Hc. unfold unpack_entry. cbv zeta. fold (entry_cfg s i). rewrite Hc, Ha. cbn [Z.eqb PMPCFG_A_NAPOT PMPCFG_A_TOR PMPCFG_A_NA4 Pos.eqb].
  rewrite Ha in Hm. unfold PMPADDR_MASK in Hm.
  rewrite (napot_scan_spec 64 0 _ k) by (try lia; intros; rewrite napot_bits by lia; (apply Z.ltb_ge || apply Z.ltb_lt); lia).
  cbn [mbind res_bind]. destruct (Z.leb_spec 64 (k + 3)); [lia|].
  set (p := 2 ^ k) in *. assert (0 < p) by (apply Z.pow_pos_nonneg; lia).
  assert (2 ^ (k + 1) = 2 * p) as E1 by (unfold p; rewrite Z.pow_add_r by lia; lia).
  assert (2 ^ (k + 3) = 8 * p) as E3 by (unfold p; rewrite Z.pow_add_r by lia; lia).
  assert (p <= 2 ^ 30) by (apply Z.pow_le_mono_r; lia).
  rewrite E1 in *. rewrite Z.shiftl_1_l, E3.
  assert (u64 ((base * (2 * p) + (p - 1)) <<' 2) = base * (8 * p) + (4 * p - 4)) as ->.
  { rewrite Z.shiftl_mul_pow2 by lia. unfold u64. rewrite wrapu_small by lia. lia. }
  rewrite land_not64 by (split; lia). rewrite <- Z.ldiff_land.
  replace (8 * p - 1) with (Z.ones (k + 3)) by (rewrite Z.ones_equiv; lia).
  rewrite Z.ldiff_ones_r, Z.shiftl_mul_pow2, Z.shiftr_div_pow2, E3 by lia.
  rewrite Z.div_add_l, Z.div_small by lia. rewrite Z.add_0_r.
  unfold u64. rewrite wrapu_small by lia. destruct (Z.leb_spec (base * (8 * p) + 8 * p) (base * (8 * p))); [lia|].
  do 4 f_equal. lia.
Qed.

(** ** Instances of the theorems at concrete states *)

Lemma mstatus_write_read_witness :
  exists s', @csr_write no_hooks reset_cpu 0x300 (u64 (-1)) = Done (0, s') /\ cpu_wf s' /\
    (priv reset_cpu = PRV_M ->
     @csr_read no_hooks s' 0x300 false = (0, Some (mstatus_warl (u64 (-1))), s')).
Proof. apply (@mstatus_write_read no_hooks reset_cpu (u64 (-1)) reset_cpu_wf). split; [discriminate|reflexivity]. Defined.

Lemma sstatus_write_confined_witness :
  exists s', @csr_write no_hooks reset_cpu 0x100 (u64 (-1)) = Done (0, s') /\ cpu_wf s' /\
    forall i, 0 <= i < 64 ->
      Z.testbit (get_mstatus s' (u64 (-1))) i =
      if Z.testbit (SSTATUS_MASK &' Z.lnot MSTATUS_UXL_MASK) i then Z.testbit (u64 (-1)) i
      else if i =? 63 then (u64 (-1) &' MSTATUS_FS =? MSTATUS_FS)
      else Z.testbit (get_mstatus reset_cpu (u64 (-1))) i.
Proof. apply (@sstatus_write_confined no_hooks reset_cpu (u64 (-1)) reset_cpu_wf). split; [discriminate|reflexivity]. Defined.

Lemma sie_sip_write_confined_witness :
  exists s1 s2, @csr_write no_hooks reset_cpu 0x104 0xfff = Done (0, s1) /\
    @csr_write no_hooks reset_cpu 0x144 0xfff = Done (0, s2) /\
    (forall i, 0 <= i -> Z.testbit (mie s1) i =
       if Z.testbit (mideleg reset_cpu) i then Z.testbit 0xfff i else Z.testbit (mie reset_cpu) i) /\
    (forall i, 0 <= i -> Z.testbit (mip s2) i =
       if Z.testbit (mideleg reset_cpu) i then Z.testbit 0xfff i else Z.testbit (mip reset_cpu) i) /\
    @csr_read no_hooks s1 0x104 false = (0, Some (0xfff &' mideleg reset_cpu), s1) /\
    @csr_read no_hooks s2 0x144 false = (0, Some (0xfff &' mideleg reset_cpu), s2).
Proof. apply (@sie_sip_write_confined no_hooks reset_cpu 0xfff reset_cpu_wf). discriminate. Defined.

Lemma pmpcfg_write_lock_witness :
  (pmpcfg_merge 0x9f00 0x1f1f >>' (8 * 1)) &' 255 = 0x9f /\ tst (0x9f00 >>' (8 * 1)) PMPCFG_L = true.
Proof. split; [rewrite (pmpcfg_write_lock 0x9f00 0x1f1f 1 ltac:(lia)); reflexivity|reflexivity]. Defined.

Definition napot_cpu : RISCVCPUState :=
  reset_cpu <| csr_pmpcfg := [0x1f; 0; 0; 0] |> <| csr_pmpaddr := 9 :: replicate 15 0 |>.

Lemma napot_region_witness :
  unpack_entry napot_cpu 0 = Done (Some (0x1f, mkpmp_addr 32 48)).
Proof.
  change 0x1f with (entry_cfg napot_cpu 0).
  apply (napot_region napot_cpu 0 2 1); first [reflexivity | discriminate | (split; [discriminate|reflexivity])].
Defined.
