(* ===== verification/Trap.v ===== *)
(** * Traps and interrupts ([riscv_cpu.cpp])

    Privilege changes, exception entry with delegation, the three trap returns,
    and the selection of the pending interrupt. *)

From S2P Require Import Prelude Riscv Cutils Iomem Hostmem CpuState CpuWf Csr.
From stdpp Require Import base list.
From Stdlib Require Import ZArith Lia Bool.
Local Open Scope Z_scope.
Local Open Scope bits_scope.

Definition set_priv (p : Z) (s : RISCVCPUState) : RISCVCPUState :=
  if negb (priv s =? p) then (tlb_flush_all s) <| priv := p |> else s.

(** Whether a trap with this cause is taken in S mode. *)
Definition delegated (s : RISCVCPUState) (cause : Z) : bool :=
  if priv s <=? PRV_S then
    if tst cause CAUSE_INTERRUPT then tst (mideleg s >>' (cause &' 63)) 1
    else tst (medeleg s >>' cause) 1
  else false.

Definition raise_exception2 (cause tval : Z) (s : RISCVCPUState) : RISCVCPUState :=
  let '(s, effective_tvec) :=
    if delegated s cause then
      let s := s <| scause := cause |> <| sepc := CANONICAL_S49 (pc s) |>
                 <| stval := CANONICAL_S49 tval |> in
      let s := s <| mstatus := (mstatus s &' not64 MSTATUS_SPIE)
                 |' (b2z (tst (mstatus s) MSTATUS_SIE) <<' MSTATUS_SPIE_SHIFT) |> in
      let s := s <| mstatus := (mstatus s &' not64 MSTATUS_SPP) |' (priv s <<' MSTATUS_SPP_SHIFT) |> in
      let s := s <| mstatus := mstatus s &' not64 MSTATUS_SIE |> in
      let s := set_priv PRV_S s in
      (s, stvec s)
    else
      let s := s <| mcause := cause |> <| mepc := CANONICAL_S49 (pc s) |>
                 <| mtval := CANONICAL_S49 tval |> in
      let s := s <| mstatus := (mstatus s &' not64 MSTATUS_MPIE)
                 |' (b2z (tst (mstatus s) MSTATUS_MIE) <<' MSTATUS_MPIE_SHIFT) |> in
      let s := s <| mstatus := (mstatus s &' not64 MSTATUS_MPP) |' (priv s <<' MSTATUS_MPP_SHIFT) |> in
      let s := s <| mstatus := mstatus s &' not64 MSTATUS_MIE |> in
      let s := set_priv PRV_M s in
      (s, mtvec s) in
  let mode := effective_tvec &' 3 in
  let base := effective_tvec &' u64 (-4) in
  let s := s <| pc := base |> in
  if (mode =? 1) && tst cause CAUSE_INTERRUPT
  then s <| pc := u64 (pc s + 4 * (cause &' not64 CAUSE_INTERRUPT)) |> else s.

Definition raise_exception (cause : Z) (s : RISCVCPUState) : RISCVCPUState :=
  raise_exception2 cause 0 s.

Definition handle_sret (s : RISCVCPUState) : RISCVCPUState :=
  let s := s <| mstatus := mstatus s &' not64 MSTATUS_SIE |> in
  let s := s <| mstatus := mstatus s |' ((mstatus s >>' 4) &' MSTATUS_SIE) |> in
  let s := s <| mstatus := mstatus s |' MSTATUS_SPIE |> in
  let spp := (mstatus s &' MSTATUS_SPP) >>' MSTATUS_SPP_SHIFT in
  let s := s <| mstatus := mstatus s &' not64 MSTATUS_SPP |> in
  let s := set_priv spp s in
  s <| pc := sepc s |>.

Definition handle_mret (s : RISCVCPUState) : RISCVCPUState :=
  let s := s <| mstatus := mstatus s &' not64 MSTATUS_MIE |> in
  let s := s <| mstatus := mstatus s |' ((mstatus s >>' 4) &' MSTATUS_MIE) |> in
  let s := s <| mstatus := mstatus s |' MSTATUS_MPIE |> in
  let mpp := (mstatus s &' MSTATUS_MPP) >>' MSTATUS_MPP_SHIFT in
  let s := s <| mstatus := mstatus s &' not64 MSTATUS_MPP |> in
  let s := set_priv mpp s in
  s <| pc := mepc s |>.

Definition handle_dret (s : RISCVCPUState) : RISCVCPUState :=
  let s := s <| stop_the_counter := false |> <| debug_mode := false |> in
  let s := set_priv (dcsr s &' 3) s in
  s <| pc := dpc s |>.

Definition get_pending_irq_mask (s : RISCVCPUState) : Z :=
  let pending_ints := mip s &' mie s in
  if pending_ints =? 0 then 0
  else
    let enabled_ints :=
      if priv s =? PRV_M then
        if tst (mstatus s) MSTATUS_MIE then not32 (mideleg s) else 0
      else if priv s =? PRV_S then
        if tst (mstatus s) MSTATUS_SIE then not32 (mideleg s) |' mideleg s else not32 (mideleg s)
      else u32 (-1) in
    pending_ints &' enabled_ints.

(** [true]: an interrupt was taken (the C function returns -1). *)
Definition raise_interrupt (s : RISCVCPUState) : bool * RISCVCPUState :=
  let mask := get_pending_irq_mask s in
  if mask =? 0 then (false, s)
  else
    let irq_num := ctz32 mask in
    (true, raise_exception (irq_num |' CAUSE_INTERRUPT) s).

(** ** Preservation of the invariant *)

Lemma wf_set_priv_level p s : cpu_wf s -> 0 <= p <= 3 -> cpu_wf (set_priv p s).
Proof. intros H Hp. unfold set_priv. case_match; [apply wf_set_priv|]; auto with cpu_wf. Qed.

Lemma set_priv_priv p s : priv (set_priv p s) = p.
Proof. unfold set_priv. destruct (Z.eqb_spec (priv s) p); [auto|reflexivity]. Qed.

(** [set_priv] changes the privilege and the TLBs only. *)
Ltac set_priv_cases :=
  unfold set_priv; match goal with |- context [negb (?a =? ?b)] => destruct (negb (a =? b)) end;
  reflexivity.

Lemma set_priv_mstatus p s : mstatus (set_priv p s) = mstatus s. Proof. set_priv_cases. Qed.
Lemma set_priv_stvec p s : stvec (set_priv p s) = stvec s. Proof. set_priv_cases. Qed.
Lemma set_priv_mtvec p s : mtvec (set_priv p s) = mtvec s. Proof. set_priv_cases. Qed.
Lemma set_priv_sepc p s : sepc (set_priv p s) = sepc s. Proof. set_priv_cases. Qed.
Lemma set_priv_mepc p s : mepc (set_priv p s) = mepc s. Proof. set_priv_cases. Qed.
Lemma set_priv_scause p s : scause (set_priv p s) = scause s. Proof. set_priv_cases. Qed.
Lemma set_priv_mcause p s : mcause (set_priv p s) = mcause s. Proof. set_priv_cases. Qed.
Lemma set_priv_stval p s : stval (set_priv p s) = stval s. Proof. set_priv_cases. Qed.
Lemma set_priv_mtval p s : mtval (set_priv p s) = mtval s. Proof. set_priv_cases. Qed.
Lemma set_priv_reg p s : reg (set_priv p s) = reg s. Proof. set_priv_cases. Qed.
Lemma set_priv_satp p s : satp (set_priv p s) = satp s. Proof. set_priv_cases. Qed.

Create Rewrite HintDb set_priv.
#[export] Hint Rewrite set_priv_priv set_priv_mstatus set_priv_stvec set_priv_mtvec set_priv_sepc set_priv_mepc
  set_priv_scause set_priv_mcause set_priv_stval set_priv_mtval set_priv_reg set_priv_satp : set_priv.

(** ** The stacking of interrupt enables *)

(** Entry: [xPIE := xIE; xPP := p; xIE := 0], as three assignments to [mstatus]. *)
Definition stack_s (m p : Z) : Z :=
  (((m &' not64 MSTATUS_SPIE) |' (b2z (tst m MSTATUS_SIE) <<' MSTATUS_SPIE_SHIFT))
     &' not64 MSTATUS_SPP |' (p <<' MSTATUS_SPP_SHIFT)) &' not64 MSTATUS_SIE.
Definition stack_m (m p : Z) : Z :=
  (((m &' not64 MSTATUS_MPIE) |' (b2z (tst m MSTATUS_MIE) <<' MSTATUS_MPIE_SHIFT))
     &' not64 MSTATUS_MPP |' (p <<' MSTATUS_MPP_SHIFT)) &' not64 MSTATUS_MIE.

(** Return: [xIE := xPIE; xPIE := 1; xPP := U]. *)
Definition unstack_s (m : Z) : Z :=
  ((m &' not64 MSTATUS_SIE) |' (((m &' not64 MSTATUS_SIE) >>' 4) &' MSTATUS_SIE) |' MSTATUS_SPIE)
    &' not64 MSTATUS_SPP.
Definition unstack_m (m : Z) : Z :=
  ((m &' not64 MSTATUS_MIE) |' (((m &' not64 MSTATUS_MIE) >>' 4) &' MSTATUS_MIE) |' MSTATUS_MPIE)
    &' not64 MSTATUS_MPP.

Lemma tst_bit m n c : 0 <= n -> c = 2 ^ n -> tst m c = Z.testbit m n.
Proof. intros Hn ->. apply tst_pow2, Hn. Qed.

(** Each, bit by bit. *)
Lemma stack_s_bit m p i : 0 <= p <= 1 -> 0 <= i < 64 ->
  Z.testbit (stack_s m p) i =
  if i =? 1 then false else if i =? 5 then Z.testbit m 1 else if i =? 8 then Z.testbit p 0 else Z.testbit m i.
Proof.
  intros Hp Hi. unfold stack_s. rewrite (tst_bit m 1) by (lia || reflexivity).
  assert (forall j, j < 0 \/ 1 <= j -> Z.testbit p j = false) as Hpb.
  { intros j [Hj|Hj]; [apply Z.testbit_neg_r; lia|apply (testbit_above 1); lia]. }
  unfold MSTATUS_SPIE, MSTATUS_SPP, MSTATUS_SIE, MSTATUS_SPIE_SHIFT, MSTATUS_SPP_SHIFT.
  autorewrite with zbits. enum_bits i 64%nat; eval_consts; rewrite ?Hpb by lia; bool_atoms.
Qed.

Lemma stack_m_bit m p i : 0 <= p <= 3 -> 0 <= i < 64 ->
  Z.testbit (stack_m m p) i =
  if i =? 3 then false else if i =? 7 then Z.testbit m 3
  else if i =? 11 then Z.testbit p 0 else if i =? 12 then Z.testbit p 1 else Z.testbit m i.
Proof.
  intros Hp Hi. unfold stack_m. rewrite (tst_bit m 3) by (lia || reflexivity).
  assert (forall j, j < 0 \/ 2 <= j -> Z.testbit p j = false) as Hpb.
  { intros j [Hj|Hj]; [apply Z.testbit_neg_r; lia|apply (testbit_above 2); lia]. }
  unfold MSTATUS_MPIE, MSTATUS_MPP, MSTATUS_MIE, MSTATUS_MPIE_SHIFT, MSTATUS_MPP_SHIFT.
  autorewrite with zbits. enum_bits i 64%nat; eval_consts; rewrite ?Hpb by lia; bool_atoms.
Qed.

Lemma unstack_s_bit m i : 0 <= i < 64 ->
  Z.testbit (unstack_s m) i =
  if i =? 1 then Z.testbit m 5 else if i =? 5 then true else if i =? 8 then false else Z.testbit m i.
Proof.
  intros Hi. unfold unstack_s, MSTATUS_SPIE, MSTATUS_SPP, MSTATUS_SIE. bits_at i 64%nat.
Qed.

Lemma unstack_m_bit m i : 0 <= i < 64 ->
  Z.testbit (unstack_m m) i =
  if i =? 3 then Z.testbit m 7 else if i =? 7 then true
  else if (i =? 11) || (i =? 12) then false else Z.testbit m i.
Proof.
  intros Hi. unfold unstack_m, MSTATUS_MPIE, MSTATUS_MPP, MSTATUS_MIE. bits_at i 64%nat.
Qed.

Lemma mstatus_ok_update m m' : mstatus_ok m -> in_u 64 m' ->
  (forall i, 0 <= i < 64 -> Z.testbit mstatus_writable i = false -> Z.testbit m' i = Z.testbit m i) ->
  mstatus_ok m'.
Proof.
  intros [Hm Hf] Hm' H. split; [exact Hm'|]. rewrite <- Hf.
  apply (bits_inj_u 64); [lia|auto with word..|]. intros i Hi. autorewrite with zbits.
  destruct (Z.testbit mstatus_writable i) eqn:E; [rewrite !andb_false_r; reflexivity|].
  rewrite H by auto. reflexivity.
Qed.

Ltac solve_mstatus_ok bit :=
  intros; eapply mstatus_ok_update; [eassumption|try unfold stack_s, stack_m, unstack_s, unstack_m; auto with word|];
  let i := fresh "i" in let Hi := fresh in let W := fresh in
  intros i Hi W; rewrite bit by auto;
  repeat match goal with |- context [i =? ?c] => destruct (Z.eqb_spec i c); [subst; discriminate W|] end;
  cbn [orb]; reflexivity.

Lemma stack_s_ok m p : mstatus_ok m -> 0 <= p <= 1 -> mstatus_ok (stack_s m p).
Proof. solve_mstatus_ok stack_s_bit. Qed.
Lemma stack_m_ok m p : mstatus_ok m -> 0 <= p <= 3 -> mstatus_ok (stack_m m p).
Proof. solve_mstatus_ok stack_m_bit. Qed.
Lemma unstack_s_ok m : mstatus_ok m -> mstatus_ok (unstack_s m).
Proof.
  intros Hm. pose proof (proj1 Hm). solve_mstatus_ok unstack_s_bit.
Qed.
Lemma unstack_m_ok m : mstatus_ok m -> mstatus_ok (unstack_m m).
Proof. intros Hm. pose proof (proj1 Hm). solve_mstatus_ok unstack_m_bit. Qed.

(** Where a trap jumps. *)
Definition trap_pc (tvec cause : Z) : Z :=
  let base := tvec &' u64 (-4) in
  if (tvec &' 3 =? 1) && tst cause CAUSE_INTERRUPT
  then u64 (base + 4 * (cause &' not64 CAUSE_INTERRUPT)) else base.

Lemma in_u_trap_pc tvec cause : in_u 64 (trap_pc tvec cause).
Proof. unfold trap_pc. case_match; auto with word. Qed.

(** ** Trap entry and return in closed form *)

Lemma raise_exception2_delegated cause tval s : delegated s cause = true ->
  raise_exception2 cause tval s =
  (set_priv PRV_S (s <| scause := cause |> <| sepc := CANONICAL_S49 (pc s) |> <| stval := CANONICAL_S49 tval |>
                     <| mstatus := stack_s (mstatus s) (priv s) |>))
    <| pc := trap_pc (stvec s) cause |>.
Proof.
  intros H. unfold raise_exception2. rewrite H. cbv zeta. upd_simpl. rewrite !upd_mstatus_twice, set_priv_stvec.
  upd_simpl. unfold trap_pc, stack_s. cbv zeta. destruct (_ && _); rewrite ?upd_pc_twice; reflexivity.
Qed.

Lemma raise_exception2_machine cause tval s : delegated s cause = false ->
  raise_exception2 cause tval s =
  (set_priv PRV_M (s <| mcause := cause |> <| mepc := CANONICAL_S49 (pc s) |> <| mtval := CANONICAL_S49 tval |>
                     <| mstatus := stack_m (mstatus s) (priv s) |>))
    <| pc := trap_pc (mtvec s) cause |>.
Proof.
  intros H. unfold raise_exception2. rewrite H. cbv zeta. upd_simpl. rewrite !upd_mstatus_twice, set_priv_mtvec.
  upd_simpl. unfold trap_pc, stack_m. cbv zeta. destruct (_ && _); rewrite ?upd_pc_twice; reflexivity.
Qed.

(** The privilege fields of [mstatus]. *)
Definition spp (m : Z) : Z := b2z (Z.testbit m 8).
Definition mpp (m : Z) : Z := (m >>' 11) &' 3.

Lemma spp_field m : (m &' MSTATUS_SPP) >>' MSTATUS_SPP_SHIFT = spp m.
Proof.
  unfold MSTATUS_SPP, MSTATUS_SPP_SHIFT, spp. change 256 with (2 ^ 8). rewrite land_pow2 by lia.
  destruct (Z.testbit m 8); reflexivity.
Qed.

Lemma mpp_field m : (m &' MSTATUS_MPP) >>' MSTATUS_MPP_SHIFT = mpp m.
Proof. unfold MSTATUS_MPP, MSTATUS_MPP_SHIFT, mpp. rewrite Z.shiftr_land. reflexivity. Qed.

Lemma handle_sret_eq s :
  handle_sret s = (set_priv (spp (mstatus s)) (s <| mstatus := unstack_s (mstatus s) |>)) <| pc := sepc s |>.
Proof.
  unfold handle_sret. cbv zeta. upd_simpl. rewrite !upd_mstatus_twice, set_priv_sepc. upd_simpl.
  rewrite spp_field. fold (unstack_s (mstatus s)).
  match goal with |- context [spp (?a |' ?b |' ?c)] => assert (spp (a |' b |' c) = spp (mstatus s)) as -> end; [|reflexivity].
  unfold spp, MSTATUS_SIE, MSTATUS_SPIE. f_equal. autorewrite with zbits. eval_consts. bool_atoms.
Qed.

Lemma handle_mret_eq s :
  handle_mret s = (set_priv (mpp (mstatus s)) (s <| mstatus := unstack_m (mstatus s) |>)) <| pc := mepc s |>.
Proof.
  unfold handle_mret. cbv zeta. upd_simpl. rewrite !upd_mstatus_twice, set_priv_mepc. upd_simpl.
  rewrite mpp_field. fold (unstack_m (mstatus s)).
  match goal with |- context [mpp (?a |' ?b |' ?c)] => assert (mpp (a |' b |' c) = mpp (mstatus s)) as -> end; [|reflexivity].
  apply (bits_inj_u 2); [lia|apply land_range_r; [lia|split; [discriminate|reflexivity]]..|].
  intros i Hi. unfold MSTATUS_MIE, MSTATUS_MPIE, mpp. bits_at i 2%nat.
Qed.

Lemma spp_range m : 0 <= spp m <= 1.
Proof. unfold spp. destruct (Z.testbit m 8); simpl; lia. Qed.

(** ** Preservation of the invariant *)

Lemma delegated_priv s cause : delegated s cause = true -> priv s <= 1.
Proof. unfold delegated, PRV_S. destruct (Z.leb_spec (priv s) 1); [lia|discriminate]. Qed.

Lemma wf_raise_exception2 cause tval s : cpu_wf s -> in_u 64 cause -> cpu_wf (raise_exception2 cause tval s).
Proof.
  intros H Hc. pose proof (wf_priv _ H). destruct (delegated s cause) eqn:E.
  - pose proof (delegated_priv _ _ E). rewrite raise_exception2_delegated by auto.
    apply wf_set_pc; [|apply in_u_trap_pc]. apply wf_set_priv_level; [|unfold PRV_S; lia].
    apply wf_set_mstatus; [|apply stack_s_ok; [apply H|lia]]. auto with cpu_wf word.
  - rewrite raise_exception2_machine by auto.
    apply wf_set_pc; [|apply in_u_trap_pc]. apply wf_set_priv_level; [|unfold PRV_M; lia].
    apply wf_set_mstatus; [|apply stack_m_ok; [apply H|lia]]. auto with cpu_wf word.
Qed.

Lemma wf_handle_sret s : cpu_wf s -> cpu_wf (handle_sret s).
Proof.
  intros H. rewrite handle_sret_eq. apply wf_set_pc; [|apply H].
  apply wf_set_priv_level; [|pose proof (spp_range (mstatus s)); lia].
  apply wf_set_mstatus; [auto|]. apply unstack_s_ok, H.
Qed.

Lemma wf_handle_mret s : cpu_wf s -> cpu_wf (handle_mret s).
Proof.
  intros H. rewrite handle_mret_eq. apply wf_set_pc; [|apply H].
  apply wf_set_priv_level; [|apply land3_bound]. apply wf_set_mstatus; [auto|]. apply unstack_m_ok, H.
Qed.

Lemma wf_handle_dret s : cpu_wf s -> cpu_wf (handle_dret s).
Proof.
  intros H. unfold handle_dret. apply wf_set_pc.
  - apply wf_set_priv_level; [auto with cpu_wf|]. apply land3_bound.
  - unfold set_priv. case_match; apply H.
Qed.

#[export] Hint Resolve wf_raise_exception2 wf_handle_sret wf_handle_mret wf_handle_dret : cpu_wf.

(** ** Trap entry *)

(** The state a trap to mode [p] leaves, in terms of the state before it. *)
Definition trap_recorded (p cause tval : Z) (s s' : RISCVCPUState) : Prop :=
  if p =? PRV_S then
    scause s' = cause /\ sepc s' = CANONICAL_S49 (pc s) /\ stval s' = CANONICAL_S49 tval /\
    pc s' = trap_pc (stvec s) cause /\
    (forall i, 0 <= i < 64 -> Z.testbit (mstatus s') i =
       if i =? 1 then false else if i =? 5 then Z.testbit (mstatus s) 1
       else if i =? 8 then Z.testbit (priv s) 0 else Z.testbit (mstatus s) i) /\
    mcause s' = mcause s /\ mepc s' = mepc s /\ mtval s' = mtval s
  else
    mcause s' = cause /\ mepc s' = CANONICAL_S49 (pc s) /\ mtval s' = CANONICAL_S49 tval /\
    pc s' = trap_pc (mtvec s) cause /\
    (forall i, 0 <= i < 64 -> Z.testbit (mstatus s') i =
       if i =? 3 then false else if i =? 7 then Z.testbit (mstatus s) 3
       else if i =? 11 then Z.testbit (priv s) 0 else if i =? 12 then Z.testbit (priv s) 1
       else Z.testbit (mstatus s) i) /\
    scause s' = scause s /\ sepc s' = sepc s /\ stval s' = stval s.

(** C9 Trap entry: the trap is taken in S mode exactly when it comes from U or S mode and its cause is
    delegated, in M mode otherwise; the target mode's cause, epc, tval and the interrupt-enable and
    privilege stack of [mstatus] are recorded, the other mode's trap registers and the integer
    registers are untouched, the vectored offset applies to interrupts only, and the privilege
    never drops. *)
Theorem trap_entry cause tval s : cpu_wf s -> in_u 64 cause ->
  let s' := raise_exception2 cause tval s in
  let bit := if tst cause CAUSE_INTERRUPT then Z.testbit (mideleg s) (cause &' 63) else Z.testbit (medeleg s) cause in
  priv s' = (if (priv s <=? PRV_S) && bit then PRV_S else PRV_M) /\
  trap_recorded (priv s') cause tval s s' /\ priv s <= priv s' /\ reg s' = reg s /\ cpu_wf s'.
Proof.
  intros H Hc s' bit. pose proof (wf_priv _ H) as Hp.
  assert (delegated s cause = (priv s <=? PRV_S) && bit) as D.
  { unfold delegated, bit. destruct (priv s <=? PRV_S); [cbn [andb]|reflexivity].
    assert (0 <= cause &' 63) by (apply Z.land_nonneg; lia).
    destruct (tst cause _); rewrite (tst_bit _ 0 1) by (lia || reflexivity);
      rewrite Z.shiftr_spec by lia; f_equal; lia. }
  rewrite <- D. subst s'. split; [|split; [|split; [|split]]]; [..|auto with cpu_wf].
  all: destruct (delegated s cause) eqn:E;
    [pose proof (delegated_priv _ _ E); rewrite raise_exception2_delegated by auto
    |rewrite raise_exception2_machine by auto]; upd_simpl; autorewrite with set_priv; upd_simpl;
    try reflexivity; try (unfold PRV_S, PRV_M; lia).
  - cbn [trap_recorded Z.eqb PRV_S Pos.eqb]. unfold trap_recorded. cbn [Z.eqb PRV_S Pos.eqb].
    upd_simpl. autorewrite with set_priv. upd_simpl. repeat split. intros i Hi. apply stack_s_bit; lia.
  - unfold trap_recorded. cbn [Z.eqb PRV_S PRV_M Pos.eqb].
    upd_simpl. autorewrite with set_priv. upd_simpl. repeat split. intros i Hi. apply stack_m_bit; lia.
Qed.

(** ** Trap return *)

Lemma canonical_small v : 0 <= v < 2 ^ 48 -> CANONICAL_S49 v = v.
Proof.
  intros Hv. unfold CANONICAL_S49, s64. rewrite (wraps_small 64 v) by (simpl; lia).
  rewrite Z.shiftl_mul_pow2 by lia. rewrite wraps_small by (simpl; lia).
  rewrite Z.shiftr_div_pow2, Z.div_mul by lia. apply u64_id. split; lia.
Qed.

Lemma spp_stack m p : 0 <= p <= 1 -> spp (stack_s m p) = p.
Proof.
  intros Hp. unfold spp. rewrite stack_s_bit by lia. cbn [Z.eqb Pos.eqb].
  assert (p = 0 \/ p = 1) as [-> | ->] by lia; reflexivity.
Qed.

Lemma mpp_stack m p : 0 <= p <= 3 -> mpp (stack_m m p) = p.
Proof.
  intros Hp. apply (bits_inj_u 2); [lia|apply land_range_r; [lia|split; [discriminate|reflexivity]]|split; lia|].
  intros i Hi. unfold mpp. autorewrite with zbits. rewrite stack_m_bit by lia.
  assert (i = 0 \/ i = 1) as [-> | ->] by lia; cbn; rewrite ?andb_true_r; reflexivity.
Qed.

(** C10 A trap handler that returns at once resumes the interrupted code: [mret] after a machine trap and
    [sret] after a delegated one restore the privilege and, for a canonical address, the pc; of
    [mstatus] only the consumed stack (PIE = 1, PP = U) differs, every other bit including the
    interrupt enable is as it was before the trap. *)
Theorem trap_return_roundtrip cause tval s : cpu_wf s -> 0 <= pc s < 2 ^ 48 ->
  let s1 := raise_exception2 cause tval s in
  let s2 := if delegated s cause then handle_sret s1 else handle_mret s1 in
  priv s2 = priv s /\ pc s2 = pc s /\ reg s2 = reg s /\
  forall i, 0 <= i < 64 -> Z.testbit (mstatus s2) i =
    if delegated s cause then (if i =? 5 then true else if i =? 8 then false else Z.testbit (mstatus s) i)
    else (if i =? 7 then true else if (i =? 11) || (i =? 12) then false else Z.testbit (mstatus s) i).
Proof.
  intros H Hpc s1 s2. pose proof (wf_priv _ H) as Hp. subst s1 s2. destruct (delegated s cause) eqn:E.
  - pose proof (delegated_priv _ _ E). rewrite handle_sret_eq, raise_exception2_delegated by auto.
    upd_simpl. autorewrite with set_priv. upd_simpl. autorewrite with set_priv. upd_simpl.
    rewrite spp_stack by lia. split; [reflexivity|]. split; [apply canonical_small, Hpc|]. split; [reflexivity|].
    intros i Hi. rewrite unstack_s_bit, !stack_s_bit by lia. cbn [Z.eqb Pos.eqb].
    destruct (Z.eqb_spec i 1) as [->|]; [reflexivity|]. destruct (i =? 5), (i =? 8); reflexivity.
  - rewrite handle_mret_eq, raise_exception2_machine by auto.
    upd_simpl. autorewrite with set_priv. upd_simpl. autorewrite with set_priv. upd_simpl.
    rewrite mpp_stack by lia. split; [reflexivity|]. split; [apply canonical_small, Hpc|]. split; [reflexivity|].
    intros i Hi. rewrite unstack_m_bit, !stack_m_bit by lia. cbn [Z.eqb Pos.eqb].
    destruct (Z.eqb_spec i 3) as [->|]; [reflexivity|].
    destruct (Z.eqb_spec i 7), (Z.eqb_spec i 11), (Z.eqb_spec i 12); reflexivity.
Qed.

(** ** Interrupts *)

(** Interrupt [i] is pending, enabled, and its target mode is above the current one or is the
    current one with its global enable set. *)
Definition interrupt_enabled (s : RISCVCPUState) (i : Z) : bool :=
  Z.testbit (mip s) i && Z.testbit (mie s) i &&
  (if Z.testbit (mideleg s) i then (priv s <? PRV_S) || ((priv s =? PRV_S) && Z.testbit (mstatus s) 1)
   else (priv s <? PRV_M) || Z.testbit (mstatus s) 3).

Lemma pending_irq_range s : cpu_wf s -> in_u 32 (get_pending_irq_mask s).
Proof.
  intros H. unfold get_pending_irq_mask. destruct (_ =? 0); [split; [discriminate|reflexivity]|].
  apply in_u_land32, in_u_land32, H.
Qed.

Lemma pending_irq_bit s i : cpu_wf s -> priv s <> PRV_H -> 0 <= i < 32 ->
  Z.testbit (get_pending_irq_mask s) i = interrupt_enabled s i.
Proof.
  intros H HH Hi. unfold get_pending_irq_mask, interrupt_enabled. rewrite <- Z.land_spec.
  destruct (Z.eqb_spec (mip s &' mie s) 0) as [E|E]; [rewrite E, !Z.bits_0; reflexivity|].
  cbv zeta. rewrite (Z.land_spec (mip s &' mie s)). f_equal.
  rewrite (tst_bit _ 3 MSTATUS_MIE), (tst_bit _ 1 MSTATUS_SIE) by (lia || reflexivity).
  assert ((i <? 32) = true) as L by (apply Z.ltb_lt; lia). assert ((0 <=? i) = true) as G by (apply Z.leb_le; lia).
  pose proof (wf_priv _ H) as Hp. unfold PRV_U, PRV_S, PRV_H, PRV_M in *.
  assert (priv s = 0 \/ priv s = 1 \/ priv s = 3) as [-> | [-> | ->]] by lia; cbn [Z.eqb Z.ltb Z.compare Pos.eqb Pos.compare Pos.compare_cont orb andb].
  - change (u32 (-1)) with (Z.ones 32). rewrite Z.ones_spec_low by lia. destruct (Z.testbit (mideleg s) i); reflexivity.
  - destruct (Z.testbit (mstatus s) 1); autorewrite with zbits; rewrite L, G; destruct (Z.testbit (mideleg s) i); reflexivity.
  - destruct (Z.testbit (mstatus s) 3); autorewrite with zbits; rewrite ?L, ?G; destruct (Z.testbit (mideleg s) i); reflexivity.
Qed.

(** Interrupt selection: an interrupt is taken exactly when some interrupt is pending, individually
    enabled, and enabled for the current privilege under delegation; the one taken is the
    lowest-numbered such interrupt, and taking it is a trap with that cause. *)
Theorem interrupt_selection s : cpu_wf s -> priv s <> PRV_H ->
  match raise_interrupt s with
  | (false, s') => s' = s /\ forall i, 0 <= i < 32 -> interrupt_enabled s i = false
  | (true, s') => exists n, 0 <= n < 32 /\ interrupt_enabled s n = true /\
      (forall j, 0 <= j < n -> interrupt_enabled s j = false) /\
      s' = raise_exception2 (n |' CAUSE_INTERRUPT) 0 s
  end.
Proof.
  intros H HH. unfold raise_interrupt. destruct (Z.eqb_spec (get_pending_irq_mask s) 0) as [E|E].
  - split; [reflexivity|]. intros i Hi. rewrite <- pending_irq_bit, E by auto. apply Z.bits_0.
  - destruct (ctz32_spec _ (pending_irq_range s H) E) as (Hr & Ht & Hl).
    exists (ctz32 (get_pending_irq_mask s)). split; [exact Hr|]. rewrite <- pending_irq_bit by auto.
    split; [exact Ht|]. split; [|reflexivity].
    intros j Hj. rewrite <- pending_irq_bit by (auto; lia). apply Hl, Hj.
Qed.

Lemma wf_raise_interrupt s b s' : cpu_wf s -> raise_interrupt s = (b, s') -> cpu_wf s'.
Proof.
  intros H. unfold raise_interrupt. destruct (Z.eqb_spec (get_pending_irq_mask s) 0); [intros [= <- <-]; exact H|].
  intros [= <- <-]. apply wf_raise_exception2; auto.
  destruct (ctz32_spec _ (pending_irq_range s H) n) as (Hr & _). apply in_u_lor64.
  - split; [lia|]. apply Z.lt_trans with 32; [lia|reflexivity].
  - split; [discriminate|reflexivity].
Qed.

(** ** Instances of the theorems at concrete states *)

(** A supervisor that delegates page faults and the supervisor interrupts. *)
Definition trap_cpu : RISCVCPUState :=
  reset_cpu <| priv := PRV_S |> <| medeleg := 0xB109 |> <| mideleg := 0x222 |>
    <| mie := 0x222 |> <| mip := 0x20 |> <| stvec := 0x80001001 |> <| pc := 0x80000100 |>
    <| mstatus := mstatus_fixed |' 2 |>.

Lemma trap_cpu_wf : cpu_wf trap_cpu.
Proof.
  pose proof reset_cpu_wf. unfold trap_cpu.
  apply wf_set_mstatus; [|split; [split; [discriminate|reflexivity]|reflexivity]].
  apply wf_set_pc; [|auto with word]. apply wf_set_stvec; [|auto with word].
  apply wf_set_mip; [|auto with word]. apply wf_set_mie; [|auto with word].
  apply wf_set_mideleg; [|split; [discriminate|reflexivity]].
  apply wf_set_medeleg; [|split; [discriminate|reflexivity]].
  apply wf_set_priv; [auto|unfold PRV_S; lia].
Qed.

Lemma trap_entry_witness :
  priv (raise_exception2 CAUSE_LOAD_PAGE_FAULT 0x1234 trap_cpu) = PRV_S /\
  stval (raise_exception2 CAUSE_LOAD_PAGE_FAULT 0x1234 trap_cpu) = 0x1234.
Proof.
  destruct (trap_entry CAUSE_LOAD_PAGE_FAULT 0x1234 trap_cpu trap_cpu_wf ltac:(split; [discriminate|reflexivity]))
    as (Hp & Hr & _). split; [exact Hp|]. rewrite Hp in Hr. exact (proj1 (proj2 (proj2 Hr))).
Defined.

Lemma trap_return_roundtrip_witness :
  pc (handle_sret (raise_exception2 CAUSE_LOAD_PAGE_FAULT 0 trap_cpu)) = 0x80000100 /\
  pc (handle_mret (raise_exception2 CAUSE_ILLEGAL_INSTRUCTION 0 trap_cpu)) = 0x80000100.
Proof.
  split.
  - apply (trap_return_roundtrip CAUSE_LOAD_PAGE_FAULT 0 trap_cpu trap_cpu_wf). split; [discriminate|reflexivity].
  - apply (trap_return_roundtrip CAUSE_ILLEGAL_INSTRUCTION 0 trap_cpu trap_cpu_wf). split; [discriminate|reflexivity].
Defined.

Lemma interrupt_selection_witness :
  exists n, 0 <= n < 32 /\ interrupt_enabled trap_cpu n = true /\
    (forall j, 0 <= j < n -> interrupt_enabled trap_cpu j = false) /\
    snd (raise_interrupt trap_cpu) = raise_exception2 (n |' CAUSE_INTERRUPT) 0 trap_cpu.
Proof. exact (interrupt_selection trap_cpu trap_cpu_wf ltac:(discriminate)). Defined.
