(* ===== verification/Mmu.v ===== *)
(** * Address translation and memory access ([riscv_cpu.cpp])

    Physical accesses, the Sv39/Sv48 page-table walk, loads and stores through
    the software TLB with their slow paths, and instruction fetch.  The build
    sets [CONFIG_SW_MANAGED_A_AND_D] to 1 and [CONFIG_ALLOW_MISALIGNED_ACCESS]
    to 0 ([riscv_cpu.h]), which makes the other branches of the C code dead. *)

From S2P Require Import Prelude Riscv Cutils Iomem Hostmem CpuState CpuWf Csr Trap.
From stdpp Require Import base list gmap.
From Stdlib Require Import ZArith Lia Bool.
Local Open Scope Z_scope.
Local Open Scope bits_scope.

(** CPU operations update the system and may stop the host program. *)
Abbreviation M D := (SM (System D)).

(** Update of the hart. *)
Definition on_cpu {D} (f : RISCVCPUState -> RISCVCPUState) (s : System D) : System D :=
  s <| cpu := f (cpu s) |>.
Definition modify_cpu {D} (f : RISCVCPUState -> RISCVCPUState) : M D unit := modify (on_cpu f).

(** ** Physical memory protection *)

(** The body of [riscv_cpu_pmp_access_ok] after its first statement (which returns). *)
Definition pmp_regions_check (s : RISCVCPUState) (paddr size perm : Z) : bool :=
  if negb (paddr >>' physical_addr_len s =? 0) then false
  else
    let p := if tst (mstatus s) MSTATUS_MPRV && negb (tst perm PMPCFG_X)
             then (mstatus s >>' MSTATUS_MPP_SHIFT) &' 3 else priv s in
    let fix scan (rs : list (pmp_addr * Z)) : bool :=
      match rs with
      | [] => p =? PRV_M
      | (r, cfg) :: rs =>
          if (lo r <=? u64 (paddr + size - 1)) && (paddr <? hi r) then
            if (p <? PRV_M) || tst cfg PMPCFG_L then perm &' cfg =? perm else true
          else scan rs
      end in
    scan (take (Z.to_nat (pmp_n s)) (zip (pmp s) (pmpcfg s))).

(** [return true; //FIXME: HACK for Ariane]. *)
Definition riscv_cpu_pmp_access_ok (s : RISCVCPUState) (paddr size perm : Z) : bool := true.

(** [access]: the enumerators are 0, 1, 2. *)
Inductive riscv_memory_access_t := ACCESS_READ | ACCESS_WRITE | ACCESS_CODE.

#[global] Instance access_eq_dec : EqDecision riscv_memory_access_t.
Proof. solve_decision. Defined.

Definition access_num (a : riscv_memory_access_t) : Z :=
  match a with ACCESS_READ => 0 | ACCESS_WRITE => 1 | ACCESS_CODE => 2 end.

(** 0 with [*ppaddr] set, or the error: -1 translation error, -2 illegal physical address. *)
Inductive phys_result := PhysOk (paddr : Z) | PhysErr (err : Z).

Definition tlb_index (addr : Z) : Z := (addr >>' PG_SHIFT) &' (TLB_SIZE - 1).
Definition page_of (addr : Z) : Z := addr &' not64 PG_MASK.

Definition tlb_get (l : list TLBEntry) (i : Z) : TLBEntry := nth (Z.to_nat i) l (mkTLBEntry 0 0).
Definition tlb_set (l : list TLBEntry) (i : Z) (e : TLBEntry) : list TLBEntry :=
  <[Z.to_nat i := e]> l.

Section Mmu.
Context {D : Type} {DO : DeviceOps D}.

Definition get_phys_mem_range_pmp (s : System D) (paddr size perm : Z)
    : option (nat * PhysMemoryRange) :=
  if negb (riscv_cpu_pmp_access_ok (cpu s) paddr size perm) then None
  else get_phys_mem_range (mem_map s) paddr.

(** [pr->phys_mem + (uintptr_t)(paddr - pr->addr)]. *)
Definition host_ptr (pr : PhysMemoryRange) (paddr : Z) : Z :=
  u64 (pr_phys_mem pr + u64 (paddr - pr_addr pr)).

(** [riscv_phys_write_uN]: [None] sets [*fail]. *)
Definition riscv_phys_write (w : width) (paddr val : Z) (s : System D) : option (System D) :=
  match get_phys_mem_range_pmp s paddr (wsize w) PMPCFG_W with
  | Some (_, pr) =>
      if negb (pr_is_ram pr) then None
      else Some (s <| hmem := st (bytes w) (hmem s) (host_ptr pr paddr) val |>)
  | None => None
  end.

(** [riscv_phys_read_uN]: [None] sets [*fail].  A device range has no buffer ([phys_mem] is NULL)
    and the C function dereferences it all the same. *)
Definition riscv_phys_read (w : width) (s : System D) (paddr : Z) : res (option Z) :=
  match get_phys_mem_range_pmp s paddr (wsize w) PMPCFG_R with
  | Some (_, pr) =>
      if pr_is_ram pr then Done (Some (ld (bytes w) (hmem s) (host_ptr pr paddr)))
      else Stop UndefinedBehaviour
  | None => Done None
  end.

(** ** The page-table walk *)

(** The privilege that translation uses. *)
Definition effective_priv (s : RISCVCPUState) (access : riscv_memory_access_t) : Z :=
  if tst (mstatus s) MSTATUS_MPRV && negb (bool_decide (access = ACCESS_CODE))
  then (mstatus s >>' MSTATUS_MPP_SHIFT) &' 3 else priv s.

(** The checks on a leaf entry, in order; [j] is the number of levels below it. *)
Definition leaf_ok (s : RISCVCPUState) (p : Z) (access : riscv_memory_access_t) (pte j : Z) : bool :=
  let xwr := (pte >>' 1) &' 7 in
  if (xwr =? 2) || (xwr =? 6) then false
  else if (if p =? PRV_S then tst pte PTE_U_MASK && negb (tst (mstatus s) MSTATUS_SUM)
           else negb (tst pte PTE_U_MASK)) then false
  else
    let xwr := if tst (mstatus s) MSTATUS_MXR then xwr |' (xwr >>' 2) else xwr in
    if (xwr >>' access_num access) &' 1 =? 0 then false
    else
      let ppn := u32 (pte >>' 10) in
      if tst ((1 <<' j) - 1) ppn then false
      else if negb (tst pte PTE_A_MASK) then false
      else if bool_decide (access = ACCESS_WRITE) && negb (tst pte PTE_D_MASK) then false
      else true.

(** The loop over the levels; [j] counts down from [levels - 1]. *)
Fixpoint walk (s : System D) (p : Z) (access : riscv_memory_access_t) (va : Z)
    (levels : nat) (pte_addr : Z) : res phys_result :=
  match levels with
  | O => Done (PhysErr (-1))
  | S j =>
      let vaddr_shift := PG_SHIFT + 9 * Z.of_nat j in
      let pte_idx := (va >>' vaddr_shift) &' 511 in
      let pte_addr := u64 (pte_addr + (pte_idx <<' 3)) in
      r ← riscv_phys_read W64 s pte_addr;
      match r with
      | None => Done (PhysErr (-2))
      | Some pte =>
          if negb (tst pte PTE_V_MASK) then Done (PhysErr (-1))
          else
            let paddr := u64 ((pte >>' 10) <<' PG_SHIFT) in
            if negb ((pte >>' 1) &' 7 =? 0) then
              if leaf_ok (cpu s) p access pte (Z.of_nat j) then
                let vaddr_mask := (1 <<' vaddr_shift) - 1 in
                Done (PhysOk ((paddr &' not64 vaddr_mask) |' (va &' vaddr_mask)))
              else Done (PhysErr (-1))
            else walk s p access va j paddr
      end
  end.

Definition riscv_cpu_get_phys_addr (s : System D) (va : Z) (access : riscv_memory_access_t)
    : res phys_result :=
  let p := effective_priv (cpu s) access in
  if p =? PRV_M then Done (PhysOk va)
  else
    let mode := (satp (cpu s) >>' 60) &' 0xf in
    if mode =? 0 then Done (PhysOk va)
    else
      let levels := mode - 8 + 3 in
      let vaddr_shift := 64 - (PG_SHIFT + levels * 9) in
      if (vaddr_shift <? 0) || (64 <=? vaddr_shift) then Stop UndefinedBehaviour
      else if negb (s64 (s64 va <<' vaddr_shift) >>' vaddr_shift =? s64 va) then Done (PhysErr (-1))
      else walk s p access va (Z.to_nat levels)
             (u64 ((satp (cpu s) &' ((1 <<' 44) - 1)) <<' PG_SHIFT)).

(** ** Loads and stores *)

(** [s->pending_tval = addr; s->pending_exception = cause; return -1]. *)
Definition fault {A} (addr cause : Z) : M D (option A) :=
  _ ← modify_cpu (fun c => c <| pending_tval := addr |> <| pending_exception := cause |>);
  mret None.

Definition misaligned (w : width) (addr : Z) : bool := negb (addr &' (wsize w - 1) =? 0).

Definition fill_read (addr paddr ptr : Z) (c : RISCVCPUState) : RISCVCPUState :=
  c <| tlb_read := tlb_set (tlb_read c) (tlb_index addr) (mkTLBEntry (page_of addr) (u64 (ptr - addr))) |>
    <| tlb_read_paddr_addend := aset (tlb_read_paddr_addend c) (tlb_index addr) (u64 (paddr - addr)) |>.

Definition fill_write (addr paddr ptr : Z) (c : RISCVCPUState) : RISCVCPUState :=
  c <| tlb_write := tlb_set (tlb_write c) (tlb_index addr) (mkTLBEntry (page_of addr) (u64 (ptr - addr))) |>
    <| tlb_write_paddr_addend := aset (tlb_write_paddr_addend c) (tlb_index addr) (u64 (paddr - addr)) |>.

Definition fill_code (addr paddr ptr : Z) (c : RISCVCPUState) : RISCVCPUState :=
  c <| tlb_code := tlb_set (tlb_code c) (tlb_index addr) (mkTLBEntry (page_of addr) (u64 (ptr - addr))) |>
    <| tlb_code_paddr_addend := aset (tlb_code_paddr_addend c) (tlb_index addr) (u64 (paddr - addr)) |>.

Definition device_read (d : device) (offset sl : Z) : M D Z := read_func d (u32 offset) sl.
Definition device_write (d : device) (offset val sl : Z) : M D unit := write_func d (u32 offset) (u32 val) sl.

(** The device part of [riscv_cpu_read_memory]. *)
Definition read_device (pr : PhysMemoryRange) (offset : Z) (w : width) : M D Z :=
  if negb ((pr_devio_flags pr >>' size_log2 w) &' 1 =? 0) then
    device_read (pr_dev pr) offset (size_log2 w)
  else if tst (pr_devio_flags pr) DEVIO_SIZE32 && (size_log2 w =? 3) then
    l ← device_read (pr_dev pr) offset 2;
    h ← device_read (pr_dev pr) (offset + 4) 2;
    mret (l |' (h <<' 32))
  else mret 0.

Definition write_device (pr : PhysMemoryRange) (offset val : Z) (w : width) : M D unit :=
  if negb ((pr_devio_flags pr >>' size_log2 w) &' 1 =? 0) then
    device_write (pr_dev pr) offset val (size_log2 w)
  else if tst (pr_devio_flags pr) DEVIO_SIZE32 && (size_log2 w =? 3) then
    _ ← device_write (pr_dev pr) offset (val &' 0xffffffff) 2;
    device_write (pr_dev pr) (offset + 4) ((val >>' 32) &' 0xffffffff) 2
  else mret tt.

(** [None]: an exception is pending (the C function returns -1). *)
Definition riscv_cpu_read_memory (w : width) (addr : Z) : M D (option Z) :=
  if misaligned w addr then fault addr CAUSE_MISALIGNED_LOAD
  else
    s ← gets id;
    r ← liftr (riscv_cpu_get_phys_addr s addr ACCESS_READ);
    match r with
    | PhysErr err => fault addr (if err =? -1 then CAUSE_LOAD_PAGE_FAULT else CAUSE_FAULT_LOAD)
    | PhysOk paddr =>
        match get_phys_mem_range_pmp s paddr (wsize w) PMPCFG_R with
        | None => fault addr CAUSE_FAULT_LOAD
        | Some (_, pr) =>
            if pr_is_ram pr then
              let ptr := host_ptr pr paddr in
              _ ← modify_cpu (fill_read addr paddr ptr);
              mret (Some (ld (bytes w) (hmem s) ptr))
            else
              v ← read_device pr (u64 (paddr - pr_addr pr)) w;
              mret (Some v)
        end
    end.

(** [None]: an exception is pending. *)
Definition riscv_cpu_write_memory (w : width) (addr val : Z) : M D (option unit) :=
  if misaligned w addr then fault addr CAUSE_MISALIGNED_STORE
  else
    s ← gets id;
    r ← liftr (riscv_cpu_get_phys_addr s addr ACCESS_WRITE);
    match r with
    | PhysErr err => fault addr (if err =? -1 then CAUSE_STORE_PAGE_FAULT else CAUSE_FAULT_STORE)
    | PhysOk paddr =>
        match get_phys_mem_range_pmp s paddr (wsize w) PMPCFG_W with
        | None => fault addr CAUSE_FAULT_STORE
        | Some (i, pr) =>
            let offset := u64 (paddr - pr_addr pr) in
            if pr_is_ram pr then
              let ptr := host_ptr pr paddr in
              _ ← modify (fun s => s <| mem_map := set_range (mem_map s) i (phys_mem_set_dirty_bit pr offset) |>);
              _ ← modify_cpu (fill_write addr paddr ptr);
              _ ← modify (fun s => s <| hmem := st (bytes w) (hmem s) ptr val |>);
              mret (Some tt)
            else
              _ ← write_device pr offset val w;
              mret (Some tt)
        end
    end.

(** [addr & ~(PG_MASK & ~((size / 8) - 1))], the tag a hit compares with. *)
Definition tlb_tag (w : width) (addr : Z) : Z :=
  addr &' u64 (Z.lnot (PG_MASK &' Z.lnot (wsize w - 1))).

(** [target_read_uN]. *)
Definition target_read (w : width) (addr : Z) : M D (option Z) :=
  if misaligned w addr then fault addr CAUSE_MISALIGNED_LOAD
  else
    s ← gets id;
    let e := tlb_get (tlb_read (cpu s)) (tlb_index addr) in
    if vaddr e =? tlb_tag w addr then
      mret (Some (ld (bytes w) (hmem s) (u64 (mem_addend e + addr))))
    else
      r ← riscv_cpu_read_memory w addr;
      mret (wrapu (wbits w) <$> r).

(** [target_write_uN]; the caller's conversion to [uint_type] is [wrapu]. *)
Definition target_write (w : width) (addr val : Z) : M D (option unit) :=
  let val := wrapu (wbits w) val in
  if misaligned w addr then fault addr CAUSE_MISALIGNED_STORE
  else
    s ← gets id;
    let e := tlb_get (tlb_write (cpu s)) (tlb_index addr) in
    if vaddr e =? tlb_tag w addr then
      _ ← modify (fun s => s <| hmem := st (bytes w) (hmem s) (u64 (mem_addend e + addr)) val |>);
      mret (Some tt)
    else riscv_cpu_write_memory w addr val.

(** ** Instruction fetch *)

(** [get_insn32]. *)
Definition get_insn32 (m : hostmem) (ptr : Z) : Z := ld 4 m ptr.

Definition fetch_fault_cause (err : Z) : Z :=
  if err =? -1 then CAUSE_FETCH_PAGE_FAULT else CAUSE_FAULT_FETCH.

(** [size] is in bits: 16 or 32. *)
Definition target_read_insn_slow (size addr : Z) : M D (option Z) :=
  s ← gets id;
  r ← liftr (riscv_cpu_get_phys_addr s addr ACCESS_CODE);
  match r with
  | PhysErr err => fault addr (fetch_fault_cause err)
  | PhysOk paddr =>
      match get_phys_mem_range_pmp s paddr (size / 8) PMPCFG_X with
      | None => fault addr CAUSE_FAULT_FETCH
      | Some (_, pr) =>
          if negb (pr_is_ram pr) then fault addr CAUSE_FAULT_FETCH
          else
            let ptr := host_ptr pr paddr in
            _ ← (if riscv_cpu_pmp_access_ok (cpu s) (page_of paddr) (PG_MASK + 1) PMPCFG_X
                 then modify_cpu (fill_code addr paddr ptr) else mret tt);
            if negb (tlb_index addr =? tlb_index (u64 (addr + 2))) && (size =? 32) then
              s ← gets id;
              r ← liftr (riscv_cpu_get_phys_addr s (u64 (addr + 2)) ACCESS_CODE);
              match r with
              | PhysErr err => fault addr (fetch_fault_cause err)
              | PhysOk paddr_cross =>
                  match get_phys_mem_range_pmp s paddr_cross 2 PMPCFG_X with
                  | None => fault addr CAUSE_FAULT_FETCH
                  | Some (_, pr_cross) =>
                      if negb (pr_is_ram pr_cross) then fault addr CAUSE_FAULT_FETCH
                      else mret (Some (ld 2 (hmem s) ptr |'
                                       (ld 2 (hmem s) (host_ptr pr_cross paddr_cross) <<' 16)))
                  end
              end
            else if size =? 32 then mret (Some (ld 4 (hmem s) ptr))
            else if size =? 16 then mret (Some (ld 2 (hmem s) ptr))
            else stop AssertFailed
      end
  end.

Definition target_read_insn_u16 (addr : Z) : M D (option Z) :=
  s ← gets id;
  let e := tlb_get (tlb_code (cpu s)) (tlb_index addr) in
  if vaddr e =? page_of addr then mret (Some (ld 2 (hmem s) (u64 (mem_addend e + addr))))
  else
    r ← target_read_insn_slow 16 addr;
    mret (u16 <$> r).

(** [riscv_read_insn]: the pending exception is protected; [None] leaves [*insn] alone. *)
Definition riscv_read_insn (addr : Z) : M D (option Z) :=
  c ← gets cpu;
  r ← target_read_insn_slow 32 addr;
  _ ← modify_cpu (fun c' => c' <| pending_exception := pending_exception c |> <| pending_tval := pending_tval c |>);
  mret r.

End Mmu.

(** ** Pages *)

Lemma page_of_div addr : in_u 64 addr -> page_of addr = addr / 4096 * 4096.
Proof.
  intros Ha. unfold page_of, PG_MASK. rewrite land_not64 by auto. rewrite <- Z.ldiff_land.
  change 4095 with (Z.ones 12). rewrite Z.ldiff_ones_r, Z.shiftl_mul_pow2, Z.shiftr_div_pow2 by lia. reflexivity.
Qed.

Lemma in_u_page_of addr : in_u 64 (page_of addr).
Proof. unfold page_of. auto with word. Qed.

(** Same page: the addresses agree above the offset. *)
Definition same_page (a b : Z) : Prop := a / 4096 = b / 4096.

Lemma same_page_of addr : in_u 64 addr -> same_page addr (page_of addr).
Proof. intros Ha. unfold same_page. rewrite page_of_div by auto. rewrite Z.div_mul; lia. Qed.

Lemma page_of_same a b : in_u 64 a -> in_u 64 b -> same_page a b -> page_of a = page_of b.
Proof. intros Ha Hb H. rewrite !page_of_div by auto. rewrite H. reflexivity. Qed.

Lemma page_of_valid addr : page_of addr <> invalid_vaddr.
Proof.
  intros E. apply (f_equal (fun z => Z.testbit z 0)) in E. revert E. unfold page_of, PG_MASK.
  autorewrite with zbits. cbn. rewrite andb_false_r. discriminate.
Qed.

Lemma same_page_shiftr a b n : 12 <= n -> same_page a b -> a >>' n = b >>' n.
Proof.
  intros Hn H. unfold same_page in H. replace n with (12 + (n - 12)) by lia.
  rewrite <- !Z.shiftr_shiftr by lia. rewrite !(Z.shiftr_div_pow2 _ 12) by lia.
  change (2 ^ 12) with 4096. rewrite H. reflexivity.
Qed.

(** The same address moved to the page of [b], keeping the offset of [a]. *)
Lemma same_page_iff a b : same_page a b <-> exists q r r', 0 <= r < 4096 /\ 0 <= r' < 4096 /\
  a = q * 4096 + r /\ b = q * 4096 + r'.
Proof.
  split.
  - intros H. exists (a / 4096), (a mod 4096), (b mod 4096). unfold same_page in H.
    pose proof (Z.mod_pos_bound a 4096). pose proof (Z.mod_pos_bound b 4096).
    pose proof (Z.div_mod a 4096). pose proof (Z.div_mod b 4096). rewrite H in *. lia.
  - intros (q & r & r' & Hr & Hr' & -> & ->). unfold same_page.
    rewrite !Z.div_add_l, !(Z.div_small r), !(Z.div_small r') by lia. reflexivity.
Qed.

(** ** The sign check of the virtual address *)

Lemma shl_shr_wraps x k : 0 <= k < 64 -> wraps 64 (x <<' k) >>' k = wraps (64 - k) x.
Proof.
  intros Hk. rewrite Z.shiftl_mul_pow2, Z.shiftr_div_pow2 by lia. unfold wraps.
  assert (0 < 2 ^ k) by (apply Z.pow_pos_nonneg; lia).
  replace (2 ^ 64) with (2 ^ (64 - k) * 2 ^ k) by (rewrite <- Z.pow_add_r by lia; f_equal; lia).
  replace (2 ^ (64 - 1)) with (2 ^ (64 - k - 1) * 2 ^ k) by (rewrite <- Z.pow_add_r by lia; f_equal; lia).
  rewrite <- Z.mul_add_distr_r, Z.mul_mod_distr_r by (try apply Z.pow_nonzero; lia).
  rewrite <- Z.mul_sub_distr_r, Z.div_mul by lia. reflexivity.
Qed.

(** The check passes exactly for the sign-extended addresses. *)
Lemma sign_check va k : 0 <= k < 64 ->
  (s64 (s64 va <<' k) >>' k =? s64 va) = (- 2 ^ (63 - k) <=? s64 va) && (s64 va <? 2 ^ (63 - k)).
Proof.
  intros Hk. unfold s64 at 1. rewrite shl_shr_wraps by lia. set (x := s64 va).
  replace (63 - k) with (64 - k - 1) by lia.
  pose proof (wraps_range (64 - k) x ltac:(lia)) as Hr.
  destruct (Z.leb_spec (- 2 ^ (64 - k - 1)) x), (Z.ltb_spec x (2 ^ (64 - k - 1))); cbn [andb];
    try (apply Z.eqb_neq; lia). apply Z.eqb_eq. apply wraps_small; lia.
Qed.

Lemma sign_check_page a b k : in_u 64 a -> in_u 64 b -> same_page a b -> 0 <= k <= 51 ->
  (s64 (s64 a <<' k) >>' k =? s64 a) = (s64 (s64 b <<' k) >>' k =? s64 b).
Proof.
  intros Ha Hb Hp Hk. rewrite !sign_check by lia. apply same_page_iff in Hp as (q & r & r' & Hr & Hr' & -> & ->).
  assert (2 ^ (63 - k) = 2 ^ (51 - k) * 4096) as E
    by (change 4096 with (2 ^ 12); rewrite <- Z.pow_add_r by lia; f_equal; lia).
  rewrite E. assert (0 < 2 ^ (51 - k)) by (apply Z.pow_pos_nonneg; lia). set (p := 2 ^ (51 - k)) in *. clearbody p.
  unfold s64. rewrite !wraps_cases by (lia || auto). unfold in_u in *.
  change (2 ^ (64 - 1)) with 9223372036854775808. change (2 ^ 64) with 18446744073709551616 in *.
  destruct (Z.ltb_spec (q * 4096 + r) 9223372036854775808), (Z.ltb_spec (q * 4096 + r') 9223372036854775808);
    try lia; apply eq_true_iff_eq; rewrite !andb_true_iff, !Z.leb_le, !Z.ltb_lt; lia.
Qed.

(** ** What translation depends on *)

Section Translation.
Context {D : Type} {DO : DeviceOps D}.
Implicit Types s : System D.

(** The part of the system the walk reads. *)
Definition mmu_view (s : System D) : Z * Z * Z * PhysMemoryMap * hostmem :=
  (mstatus (cpu s), priv (cpu s), satp (cpu s), mem_map s, hmem s).

Lemma riscv_phys_read_view w s s' a : mem_map s' = mem_map s -> hmem s' = hmem s ->
  riscv_phys_read w s' a = riscv_phys_read w s a.
Proof. intros Hm Hh. unfold riscv_phys_read, get_phys_mem_range_pmp. cbn. rewrite Hm, Hh. reflexivity. Qed.

Lemma walk_view s s' p acc va n : mstatus (cpu s') = mstatus (cpu s) -> mem_map s' = mem_map s -> hmem s' = hmem s ->
  forall a, walk s' p acc va n a = walk s p acc va n a.
Proof.
  intros Hms Hm Hh. induction n as [|n IH]; intros a; cbn [walk]; [reflexivity|].
  rewrite (riscv_phys_read_view W64 s s') by auto.
  destruct (riscv_phys_read _ _ _) as [[pte|]|]; cbn [mbind res_bind]; try reflexivity.
  rewrite IH. unfold leaf_ok. rewrite Hms. reflexivity.
Qed.

Lemma get_phys_addr_view s s' va acc : mmu_view s' = mmu_view s ->
  riscv_cpu_get_phys_addr s' va acc = riscv_cpu_get_phys_addr s va acc.
Proof.
  unfold mmu_view. intros [= Hms Hp Hs Hm Hh]. unfold riscv_cpu_get_phys_addr, effective_priv.
  rewrite Hms, Hp, Hs. cbv zeta. rewrite (walk_view s s') by auto. reflexivity.
Qed.

(** ** Translation is page-granular *)

(** The physical address of [va'], on the page [va] translates to. *)
Definition rebase (pa va' : Z) : Z := pa / 4096 * 4096 + va' mod 4096.

(** The address a leaf entry yields. *)
Definition leaf_addr (paddr va n : Z) : Z :=
  (paddr &' not64 ((1 <<' n) - 1)) |' (va &' ((1 <<' n) - 1)).

Lemma leaf_addr_sum paddr va n : 0 <= n < 64 -> in_u 64 paddr -> 0 <= va ->
  leaf_addr paddr va n = paddr / 2 ^ n * 2 ^ n + va mod 2 ^ n.
Proof.
  intros Hn Hp Hv. unfold leaf_addr. rewrite land_not64 by auto. rewrite <- Z.ldiff_land, Z.shiftl_1_l.
  replace (2 ^ n - 1) with (Z.ones n) by (rewrite Z.ones_equiv; lia).
  rewrite Z.ldiff_ones_r, Z.land_ones, Z.shiftr_div_pow2 by lia.
  apply lor_shiftl_low; [lia|]. apply Z.mod_pos_bound. apply Z.pow_pos_nonneg; lia.
Qed.

Lemma leaf_addr_rebase paddr va va' n : 12 <= n < 64 -> in_u 64 paddr -> in_u 64 va -> in_u 64 va' ->
  same_page va va' -> leaf_addr paddr va' n = rebase (leaf_addr paddr va n) va'.
Proof.
  intros Hn Hp Hv Hv' Hpg. unfold in_u in *. rewrite !leaf_addr_sum by (unfold in_u; lia). unfold rebase.
  unfold same_page in Hpg.
  replace (2 ^ n) with (4096 * 2 ^ (n - 12)) by (change 4096 with (2 ^ 12); rewrite <- Z.pow_add_r by lia; f_equal; lia).
  assert (0 < 2 ^ (n - 12)) by (apply Z.pow_pos_nonneg; lia). set (k := 2 ^ (n - 12)) in *. clearbody k.
  rewrite !Z.rem_mul_r by lia. rewrite Hpg. set (h := va' / 4096 mod k). set (u := paddr / (4096 * k)).
  pose proof (Z.mod_pos_bound va 4096). set (r := va mod 4096) in *. clearbody h u r.
  replace (u * (4096 * k) + (r + 4096 * h)) with ((u * k + h) * 4096 + r) by lia.
  rewrite Z.div_add_l, (Z.div_small r) by lia. lia.
Qed.

Lemma walk_page s p acc va va' n : in_u 64 va -> in_u 64 va' -> same_page va va' -> (n <= 5)%nat -> forall a pa,
  walk s p acc va n a = Done (PhysOk pa) -> walk s p acc va' n a = Done (PhysOk (rebase pa va')).
Proof.
  intros Hv Hv' Hpg. induction n as [|j IH]; intros Hj a pa; cbn [walk]; [discriminate|].
  rewrite (same_page_shiftr va va') by (auto; unfold PG_SHIFT; lia).
  destruct (riscv_phys_read _ _ _) as [[pte|]|]; cbn [mbind res_bind]; try discriminate.
  destruct (negb (tst pte PTE_V_MASK)); [discriminate|]. destruct (negb (_ =? 0)); [|apply IH; lia].
  destruct (leaf_ok _ _ _ _ _); [|discriminate]. intros [= <-].
  do 2 f_equal. apply (leaf_addr_rebase _ va); auto; unfold PG_SHIFT; [lia|auto with word].
Qed.

Lemma rebase_self va : rebase va va = va.
Proof. unfold rebase. pose proof (Z.div_mod va 4096). lia. Qed.

Lemma rebase_page va va' : same_page va va' -> rebase va va' = va'.
Proof. unfold same_page, rebase. intros ->. pose proof (Z.div_mod va' 4096). lia. Qed.

Lemma get_phys_addr_page s va va' acc pa : in_u 64 va -> in_u 64 va' -> same_page va va' -> satp_ok (satp (cpu s)) ->
  riscv_cpu_get_phys_addr s va acc = Done (PhysOk pa) ->
  riscv_cpu_get_phys_addr s va' acc = Done (PhysOk (rebase pa va')).
Proof.
  intros Hv Hv' Hpg [_ Hs]. unfold riscv_cpu_get_phys_addr. cbv zeta. fold (satp_mode (satp (cpu s))).
  destruct (_ =? PRV_M); [intros [= <-]; rewrite rebase_page by auto; reflexivity|].
  destruct (Z.eqb_spec (satp_mode (satp (cpu s))) 0) as [E|E]; [intros [= <-]; rewrite rebase_page by auto; reflexivity|].
  assert (exists m, satp_mode (satp (cpu s)) = m /\ (m = 8 \/ m = 9)) as (m & -> & Hm) by (eexists; split; [reflexivity|tauto]).
  destruct (_ || _) eqn:U; [discriminate|].
  rewrite (sign_check_page va va') by (auto; unfold PG_SHIFT; lia). destruct (negb _); [discriminate|].
  apply walk_page; auto. destruct Hm as [-> | ->]; simpl; lia.
Qed.

(** The page offset survives translation. *)
Lemma get_phys_addr_offset s va acc pa : in_u 64 va -> satp_ok (satp (cpu s)) ->
  riscv_cpu_get_phys_addr s va acc = Done (PhysOk pa) -> pa mod 4096 = va mod 4096.
Proof.
  intros Hv Hs H. pose proof (get_phys_addr_page s va va acc pa Hv Hv eq_refl Hs H) as H'.
  rewrite H in H'. injection H' as E. rewrite E. unfold rebase.
  rewrite Z.add_comm, Z_mod_plus_full. apply Z.mod_mod. lia.
Qed.

End Translation.

(** ** A small system for examples: 64 KiB of RAM at 0x80000000 and one device page *)

Definition no_devices : DeviceOps unit :=
  {| read_func _ _ _ := mret 0; write_func _ _ _ _ := mret tt |}.

Definition demo_ram : PhysMemoryRange :=
  mkPhysMemoryRange 0x80000000 0x10000 0x10000 true 0 0x100000 0 None [] 0 Dev_mmio 0.
Definition demo_dev : PhysMemoryRange :=
  mkPhysMemoryRange 0x10000000 0x1000 0x1000 false 0 0 0 None [] 0 Dev_mmio DEVIO_SIZE32.

(** Supervisor paging off the root table at 0x80001000, loads with MPP (user) privilege. *)
Definition demo_cpu (root mstatus_bits : Z) : RISCVCPUState :=
  tlb_flush_all (reset_cpu <| satp := (8 <<' 60) |' (root >>' 12) |>
                           <| mstatus := mstatus_fixed |' mstatus_bits |>).

Definition demo_sys (root mstatus_bits pte : Z) : System unit :=
  mkSystem (demo_cpu root mstatus_bits) (mkVirtMachine false (-1) (-1) 0 0)
    (mkPhysMemoryMap [demo_dev; demo_ram]) (st 8 ∅ 0x101000 pte) tt.

Lemma demo_cpu_wf root bits : 0 <= root < 2 ^ 56 -> mstatus_ok (mstatus_fixed |' bits) -> cpu_wf (demo_cpu root bits).
Proof.
  intros Hr Hb. apply wf_tlb_flush_all, wf_set_mstatus; [|exact Hb]. apply wf_set_satp; [apply reset_cpu_wf|].
  assert (0 <= root >>' 12 < 2 ^ 44) as Hs.
  { rewrite Z.shiftr_div_pow2 by lia. split; [apply Z.div_pos; lia|apply Z.div_lt_upper_bound; lia]. }
  assert (in_u 64 (root >>' 12)) as H64 by (split; lia). split.
  - apply in_u_lor64; [split; [discriminate|reflexivity]|exact H64].
  - right. left. unfold satp_mode. rewrite Z.shiftr_lor. change ((8 <<' 60) >>' 60) with 8.
    rewrite (Z.shiftr_div_pow2 _ 60), (Z.div_small (root >>' 12)) by lia. reflexivity.
Qed.

Lemma demo_paged bits root pte : Forall (fun pr => 0 <= pr_addr pr /\ pr_addr pr mod 4096 = 0 /\ pr_size pr mod 4096 = 0 /\ 0 <= pr_size pr /\
  pr_addr pr + pr_size pr < 2 ^ 64) (phys_mem_range (mem_map (demo_sys root bits pte))).
Proof. repeat constructor; discriminate. Qed.

Lemma demo_hmem_wf root bits pte : hostmem_wf (hmem (demo_sys root bits pte)).
Proof. apply st_wf. intros p v. rewrite lookup_empty. discriminate. Qed.
