(* ===== verification/PageTable.v ===== *)
(** * The page-table walk against the architecture

    [sv_walk] is the translation of the RISC-V privileged architecture (Sv39 and
    Sv48) as a relation over the page tables; [riscv_cpu_get_phys_addr] is
    proved to compute it. *)

From S2P Require Import Prelude Riscv Cutils Iomem Hostmem CpuState CpuWf Csr Trap Mmu.
From stdpp Require Import base list gmap.
From Stdlib Require Import ZArith Lia Bool.
Local Open Scope Z_scope.
Local Open Scope bits_scope.

(** ** The architecture's view of translation *)

(** The permission rules of a leaf entry (bits V R W X U G A D from 0). *)
Definition pte_permits (c : RISCVCPUState) (p : Z) (acc : riscv_memory_access_t) (pte : Z) : Prop :=
  let R := Z.testbit pte 1 in let W := Z.testbit pte 2 in let X := Z.testbit pte 3 in
  ~ (W = true /\ R = false) /\
  (if p =? PRV_S then Z.testbit pte 4 = true -> Z.testbit (mstatus c) 18 = true else Z.testbit pte 4 = true) /\
  match acc with
  | ACCESS_READ => R = true \/ (Z.testbit (mstatus c) 19 = true /\ X = true)
  | ACCESS_WRITE => W = true /\ Z.testbit pte 7 = true
  | ACCESS_CODE => X = true
  end /\
  Z.testbit pte 6 = true.

Definition vpn (va : Z) (j : nat) : Z := va / 2 ^ (12 + 9 * Z.of_nat j) mod 512.
Definition pte_ppn (pte : Z) : Z := pte / 2 ^ 10.

(** The alignment the ISA demands of a superpage at level [j], and the one the code checks. *)
Definition isa_aligned (j : nat) (pte : Z) : Prop := pte_ppn pte mod 2 ^ (9 * Z.of_nat j) = 0.
Definition code_aligned (j : nat) (pte : Z) : Prop := pte_ppn pte mod 2 ^ (Z.of_nat j) = 0.

(** [sv_walk aligned s p acc va n a pa]: the walk over [n] levels from the table at [a] reaches [pa]. *)
Inductive sv_walk {D} (aligned : nat -> Z -> Prop) (s : System D) (p : Z) (acc : riscv_memory_access_t) (va : Z)
  : nat -> Z -> Z -> Prop :=
| sv_leaf j a pte :
    riscv_phys_read W64 s (u64 (a + 8 * vpn va j)) = Done (Some pte) -> Z.testbit pte 0 = true ->
    (Z.testbit pte 1 || Z.testbit pte 2 || Z.testbit pte 3) = true -> pte_permits (cpu s) p acc pte -> aligned j pte ->
    sv_walk aligned s p acc va (S j) a
      (u64 (pte_ppn pte * 4096) / 2 ^ (12 + 9 * Z.of_nat j) * 2 ^ (12 + 9 * Z.of_nat j) + va mod 2 ^ (12 + 9 * Z.of_nat j))
| sv_next j a pte pa :
    riscv_phys_read W64 s (u64 (a + 8 * vpn va j)) = Done (Some pte) -> Z.testbit pte 0 = true ->
    (Z.testbit pte 1 || Z.testbit pte 2 || Z.testbit pte 3) = false ->
    sv_walk aligned s p acc va j (u64 (pte_ppn pte * 4096)) pa ->
    sv_walk aligned s p acc va (S j) a pa.

Lemma vpn_shift va j : (va >>' (PG_SHIFT + 9 * Z.of_nat j)) &' 511 = vpn va j.
Proof.
  unfold vpn, PG_SHIFT. change 511 with (Z.ones 9). rewrite Z.land_ones, Z.shiftr_div_pow2 by lia. reflexivity.
Qed.

(** The three permission bits as a number. *)
Lemma xwr_value pte : (pte >>' 1) &' 7 = b2z (Z.testbit pte 1) + 2 * b2z (Z.testbit pte 2) + 4 * b2z (Z.testbit pte 3).
Proof.
  apply (bits_inj_u 3); [lia|apply land_range_r; [lia|split; [discriminate|reflexivity]]| |].
  - unfold in_u. destruct (Z.testbit pte 1), (Z.testbit pte 2), (Z.testbit pte 3); simpl; lia.
  - intros i Hi. autorewrite with zbits. enum_bits i 3%nat; eval_consts;
      destruct (Z.testbit pte 1), (Z.testbit pte 2), (Z.testbit pte 3); reflexivity.
Qed.

Lemma xwr_zero pte : ((pte >>' 1) &' 7 =? 0) = negb (Z.testbit pte 1 || Z.testbit pte 2 || Z.testbit pte 3).
Proof. rewrite xwr_value. destruct (Z.testbit pte 1), (Z.testbit pte 2), (Z.testbit pte 3); reflexivity. Qed.

Lemma low_bits_mask j ppn : 0 <= j < 32 -> 0 <= ppn -> tst ((1 <<' j) - 1) (u32 ppn) = negb (ppn mod 2 ^ j =? 0).
Proof.
  intros Hj Hp. unfold tst. f_equal. rewrite Z.shiftl_1_l, Z.land_comm.
  replace (2 ^ j - 1) with (Z.ones j) by (rewrite Z.ones_equiv; lia). rewrite Z.land_ones by lia. unfold u32, wrapu.
  f_equal. replace (2 ^ 32) with (2 ^ j * 2 ^ (32 - j)) by (rewrite <- Z.pow_add_r by lia; f_equal; lia).
  assert (0 < 2 ^ j) by (apply Z.pow_pos_nonneg; lia). assert (0 < 2 ^ (32 - j)) by (apply Z.pow_pos_nonneg; lia).
  rewrite Z.rem_mul_r by lia. rewrite Z.mul_comm, Z_mod_plus_full. apply Z.mod_mod. lia.
Qed.

(** The permission rules, decided. *)
Definition pte_permits_b (c : RISCVCPUState) (p : Z) (acc : riscv_memory_access_t) (pte : Z) : bool :=
  let R := Z.testbit pte 1 in let W := Z.testbit pte 2 in let X := Z.testbit pte 3 in
  negb (W && negb R) &&
  (if p =? PRV_S then implb (Z.testbit pte 4) (Z.testbit (mstatus c) 18) else Z.testbit pte 4) &&
  match acc with
  | ACCESS_READ => R || (Z.testbit (mstatus c) 19 && X)
  | ACCESS_WRITE => W && Z.testbit pte 7
  | ACCESS_CODE => X
  end && Z.testbit pte 6.

Lemma pte_permits_b_iff c p acc pte : pte_permits_b c p acc pte = true <-> pte_permits c p acc pte.
Proof.
  unfold pte_permits_b, pte_permits. cbv zeta. rewrite !andb_true_iff, negb_true_iff, andb_false_iff, negb_false_iff.
  destruct (p =? PRV_S); [rewrite implb_true_iff|]; destruct acc; rewrite ?orb_true_iff, ?andb_true_iff;
    destruct (Z.testbit pte 1), (Z.testbit pte 2); intuition congruence.
Qed.

Lemma leaf_ok_eq c p acc pte j : 0 <= pte -> (j < 32)%nat ->
  leaf_ok c p acc pte (Z.of_nat j) = pte_permits_b c p acc pte && (pte_ppn pte mod 2 ^ Z.of_nat j =? 0).
Proof.
  intros Hp Hj. unfold leaf_ok, pte_permits_b, pte_ppn. cbv zeta.
  rewrite low_bits_mask by (try apply Z.shiftr_nonneg; lia). rewrite (Z.shiftr_div_pow2 pte 10), xwr_value by lia.
  rewrite (tst_bit pte 4 PTE_U_MASK), (tst_bit pte 6 PTE_A_MASK), (tst_bit pte 7 PTE_D_MASK),
    (tst_bit _ 18 MSTATUS_SUM), (tst_bit _ 19 MSTATUS_MXR) by (lia || reflexivity).
  destruct (pte / 2 ^ 10 mod 2 ^ Z.of_nat j =? 0), (Z.testbit pte 6);
    [|rewrite ?andb_false_r; repeat case_match; first [reflexivity | discriminate]..].
  destruct acc, (Z.testbit pte 1), (Z.testbit pte 2), (Z.testbit pte 3), (Z.testbit (mstatus c) 19);
    destruct (p =? PRV_S), (Z.testbit pte 4), (Z.testbit (mstatus c) 18); try reflexivity;
    destruct (Z.testbit pte 7); reflexivity.
Qed.

Lemma leaf_ok_iff c p acc pte j : 0 <= pte -> (j < 32)%nat ->
  leaf_ok c p acc pte (Z.of_nat j) = true <-> pte_permits c p acc pte /\ code_aligned j pte.
Proof. intros Hp Hj. rewrite leaf_ok_eq, andb_true_iff, pte_permits_b_iff, Z.eqb_eq by auto. reflexivity. Qed.

Section Refinement.
Context {D : Type} {DO : DeviceOps D}.
Implicit Types s : System D.

Lemma phys_read_range s a pte : hostmem_wf (hmem s) -> riscv_phys_read W64 s a = Done (Some pte) -> in_u 64 pte.
Proof.
  intros Hh. unfold riscv_phys_read. destruct (get_phys_mem_range_pmp _ _ _ _) as [[i pr]|]; [|discriminate].
  destruct (pr_is_ram pr); [|discriminate]. intros [= <-]. apply (ld_range 8), Hh.
Qed.

Lemma walk_step s p acc va j a :
  walk s p acc va (S j) a =
  match riscv_phys_read W64 s (u64 (a + 8 * vpn va j)) with
  | Stop r => Stop r
  | Done None => Done (PhysErr (-2))
  | Done (Some pte) =>
      if negb (Z.testbit pte 0) then Done (PhysErr (-1))
      else if Z.testbit pte 1 || Z.testbit pte 2 || Z.testbit pte 3 then
        if leaf_ok (cpu s) p acc pte (Z.of_nat j)
        then Done (PhysOk (leaf_addr (u64 (pte_ppn pte * 4096)) va (12 + 9 * Z.of_nat j)))
        else Done (PhysErr (-1))
      else walk s p acc va j (u64 (pte_ppn pte * 4096))
  end.
Proof.
  cbn [walk]. rewrite vpn_shift. rewrite (Z.shiftl_mul_pow2 _ 3), (Z.mul_comm _ (2 ^ 3)) by lia. change (2 ^ 3) with 8.
  destruct (riscv_phys_read _ _ _) as [[pte|]|]; cbn [mbind res_bind]; try reflexivity.
  rewrite (tst_bit pte 0 PTE_V_MASK), xwr_zero, negb_involutive by (lia || reflexivity).
  unfold PG_SHIFT, pte_ppn. rewrite (Z.shiftl_mul_pow2 _ 12), (Z.shiftr_div_pow2 _ 10) by lia. reflexivity.
Qed.

Lemma walk_iff s p acc va n : hostmem_wf (hmem s) -> in_u 64 va -> (n <= 5)%nat -> forall a pa,
  walk s p acc va n a = Done (PhysOk pa) <-> sv_walk code_aligned s p acc va n a pa.
Proof.
  intros Hh Hv. unfold in_u in Hv. induction n as [|j IH]; intros Hn a pa.
  { split; [discriminate|inversion 1]. }
  rewrite walk_step. split.
  - destruct (riscv_phys_read _ _ _) as [[pte|]|] eqn:E; try discriminate.
    pose proof (phys_read_range _ _ _ Hh E) as Hp. unfold in_u in Hp.
    destruct (Z.testbit pte 0) eqn:V; [|discriminate]. cbn [negb].
    destruct (_ || _) eqn:L; [|rewrite IH by lia; intros; eapply sv_next; eauto].
    destruct (leaf_ok _ _ _ _ _) eqn:Ok; [|discriminate]. apply leaf_ok_iff in Ok as [Hperm Hal]; [|lia..].
    intros [= <-]. rewrite leaf_addr_sum by (try apply in_u_u64; lia). eapply sv_leaf; eauto.
  - intros W. inversion W as [j' a' pte E V L Hperm Hal|j' a' pte pa' E V L Hnext]; subst.
    + rewrite E, V, L. cbn [negb]. pose proof (phys_read_range _ _ _ Hh E) as Hp. unfold in_u in Hp.
      assert (leaf_ok (cpu s) p acc pte (Z.of_nat j) = true) as -> by (apply leaf_ok_iff; auto; lia).
      rewrite leaf_addr_sum by (try apply in_u_u64; lia). reflexivity.
    + rewrite E, V, L. cbn [negb]. apply IH; [lia|assumption].
Qed.

Lemma sv_walk_weaken (P Q : nat -> Z -> Prop) s p acc va n a pa : (forall j pte, P j pte -> Q j pte) ->
  sv_walk P s p acc va n a pa -> sv_walk Q s p acc va n a pa.
Proof. intros PQ. induction 1; [eapply sv_leaf|eapply sv_next]; eauto. Qed.

Lemma isa_code_aligned j pte : isa_aligned j pte -> code_aligned j pte.
Proof.
  unfold isa_aligned, code_aligned. intros H.
  apply Z.mod_divide in H; [|apply Z.pow_nonzero; lia]. apply Z.mod_divide; [apply Z.pow_nonzero; lia|].
  etransitivity; [|exact H]. exists (2 ^ (8 * Z.of_nat j)). rewrite <- Z.pow_add_r by lia. f_equal. lia.
Qed.

(** An address is translated when its hart does not run in M mode and paging is on. *)
Definition paged (s : System D) (acc : riscv_memory_access_t) : Prop :=
  effective_priv (cpu s) acc <> PRV_M /\ satp_mode (satp (cpu s)) <> 0.

Definition levels_of (s : System D) : nat := Z.to_nat (satp_mode (satp (cpu s)) - 5).
Definition root_of (s : System D) : Z := satp (cpu s) mod 2 ^ 44 * 4096.

(** The canonical virtual addresses of a walk over [n] levels. *)
Definition canonical_va (va : Z) (n : nat) : Prop := - 2 ^ (11 + 9 * Z.of_nat n) <= s64 va < 2 ^ (11 + 9 * Z.of_nat n).

Lemma checked_walk s p acc va n k root pa : hostmem_wf (hmem s) -> in_u 64 va -> (n <= 5)%nat -> 0 <= k < 64 ->
  63 - k = 11 + 9 * Z.of_nat n ->
  (if negb (s64 (s64 va <<' k) >>' k =? s64 va) then Done (PhysErr (-1)) else walk s p acc va n root) = Done (PhysOk pa)
  <-> canonical_va va n /\ sv_walk code_aligned s p acc va n root pa.
Proof.
  intros Hh Hv Hn Hk E. rewrite sign_check, E, <- walk_iff by auto. unfold canonical_va.
  destruct (Z.leb_spec (- 2 ^ (11 + 9 * Z.of_nat n)) (s64 va)), (Z.ltb_spec (s64 va) (2 ^ (11 + 9 * Z.of_nat n)));
    cbn [andb negb]; split; try discriminate; try (intros [? _]; lia); intros; tauto.
Qed.

(** C1 The page-table walk refines the architecture: with paging on (Sv39, Sv48), an address translates to
    [pa] exactly when it is canonical and the page tables reach [pa] through valid, permitting
    entries whose superpages pass the code's alignment test.  In particular every translation the
    ISA defines (with its own alignment rule) is the one computed. *)
Theorem walk_refinement s va acc pa : cpu_wf (cpu s) -> hostmem_wf (hmem s) -> in_u 64 va -> paged s acc ->
  (riscv_cpu_get_phys_addr s va acc = Done (PhysOk pa) <->
   canonical_va va (levels_of s) /\
   sv_walk code_aligned s (effective_priv (cpu s) acc) acc va (levels_of s) (root_of s) pa) /\
  (canonical_va va (levels_of s) ->
   sv_walk isa_aligned s (effective_priv (cpu s) acc) acc va (levels_of s) (root_of s) pa ->
   riscv_cpu_get_phys_addr s va acc = Done (PhysOk pa)).
Proof.
  intros Hwf Hh Hv [Hp Hm]. assert (satp_mode (satp (cpu s)) = 8 \/ satp_mode (satp (cpu s)) = 9) as Hmode
    by (destruct (wf_satp _ Hwf) as [_ ?]; tauto).
  assert (riscv_cpu_get_phys_addr s va acc = Done (PhysOk pa) <-> canonical_va va (levels_of s) /\
     sv_walk code_aligned s (effective_priv (cpu s) acc) acc va (levels_of s) (root_of s) pa) as K.
  { unfold riscv_cpu_get_phys_addr. cbv zeta. fold (satp_mode (satp (cpu s))).
    destruct (Z.eqb_spec (effective_priv (cpu s) acc) PRV_M); [contradiction|].
    destruct (Z.eqb_spec (satp_mode (satp (cpu s))) 0); [contradiction|].
    replace (u64 ((satp (cpu s) &' ((1 <<' 44) - 1)) <<' PG_SHIFT)) with (root_of s).
    2:{ change ((1 <<' 44) - 1) with (Z.ones 44). rewrite Z.land_ones, Z.shiftl_mul_pow2 by (unfold PG_SHIFT; lia).
        symmetry. apply u64_id. pose proof (Z.mod_pos_bound (satp (cpu s)) (2 ^ 44) ltac:(lia)). unfold in_u, root_of, PG_SHIFT. lia. }
    unfold canonical_va, levels_of, PG_SHIFT in *.
    destruct Hmode as [-> | ->].
    - apply (checked_walk s _ acc va 3 25 _ pa); auto; simpl; lia.
    - apply (checked_walk s _ acc va 4 16 _ pa); auto; simpl; lia. }
  split; [exact K|]. intros Hc W. apply K. split; [exact Hc|]. eapply sv_walk_weaken; [apply isa_code_aligned|exact W].
Qed.

End Refinement.

(** ** Instances and findings *)

(** A 1 GiB user page: virtual 0 maps to physical 0x80000000, readable and writable. *)
Definition demo_pte : Z := (0x80000 <<' 10) |' 0xD7.
Definition demo_paging : System unit := demo_sys 0x80001000 MSTATUS_MPRV demo_pte.

Lemma demo_paging_wf : cpu_wf (cpu demo_paging).
Proof. apply demo_cpu_wf; [split; [discriminate|reflexivity]|split; [split; [discriminate|reflexivity]|reflexivity]]. Qed.

Lemma walk_refinement_witness :
  riscv_cpu_get_phys_addr demo_paging 0x123 ACCESS_READ = Done (PhysOk 0x80000123) /\
  sv_walk code_aligned demo_paging PRV_U ACCESS_READ 0x123 3 0x80001000 0x80000123.
Proof.
  split; [vm_compute; reflexivity|].
  apply (proj1 (walk_refinement demo_paging 0x123 ACCESS_READ 0x80000123 demo_paging_wf
           (demo_hmem_wf _ _ _) ltac:(split; [discriminate|reflexivity]) ltac:(split; discriminate))).
  vm_compute. reflexivity.
Defined.

(** A 1 GiB leaf whose page number is not a multiple of 2^18. *)
Definition skewed_pte : Z := (0x80004 <<' 10) |' 0xD7.

(** The superpage check accepts entries the ISA rejects: it tests [j] low bits of the page number at
    level [j] where the architecture demands [9 * j], so a misaligned 1 GiB page is translated
    instead of raising a page fault. *)
Theorem misaligned_superpage_accepted :
  let s := demo_sys 0x80001000 MSTATUS_MPRV skewed_pte in
  cpu_wf (cpu s) /\ riscv_phys_read W64 s 0x80001000 = Done (Some skewed_pte) /\
  riscv_cpu_get_phys_addr s 0 ACCESS_READ = Done (PhysOk 0x80000000) /\ ~ isa_aligned 2 skewed_pte.
Proof.
  cbv zeta. split; [apply demo_cpu_wf; [split; [discriminate|reflexivity]|split; [split; [discriminate|reflexivity]|reflexivity]]|].
  split; [vm_compute; reflexivity|]. split; [vm_compute; reflexivity|]. unfold isa_aligned. vm_compute. discriminate.
Qed.

(** A page table placed in device memory is not an access fault: the walk dereferences the NULL buffer
    of the device range. *)
Theorem device_page_table_undefined :
  riscv_cpu_get_phys_addr (demo_sys 0x10000000 MSTATUS_MPRV 0) 0 ACCESS_READ = Stop UndefinedBehaviour.
Proof. vm_compute. reflexivity. Qed.

(** The PMP check is disabled: an access that the documented check (and the region decoded from the PMP
    registers) denies is allowed. *)
Theorem pmp_not_enforced :
  let c := reset_cpu <| priv := PRV_U |> <| physical_addr_len := 56 |> in
  pmp_regions_check c 0x80000000 8 PMPCFG_R = false /\
  riscv_cpu_pmp_access_ok c 0x80000000 8 PMPCFG_R = true.
Proof. split; vm_compute; reflexivity. Qed.
