(* ===== verification/Tlb.v ===== *)
(** * The software TLB

    Coherence of the three TLBs with the page tables: what it says of an entry,
    that fills and flushes establish it and configuration changes keep it, and
    that under it the fast path of a load or store is the slow path. *)

From S2P Require Import Prelude Riscv Cutils Iomem Hostmem CpuState CpuWf Csr Trap Mmu.
From stdpp Require Import base list gmap.
From Stdlib Require Import ZArith Lia Bool.
Local Open Scope Z_scope.
Local Open Scope bits_scope.

(** ** TLB coherence *)

Lemma tlb_tag_aligned w addr : misaligned w addr = false -> tlb_tag w addr = page_of addr.
Proof.
  unfold misaligned. rewrite negb_false_iff, Z.eqb_eq. intros Ha. unfold tlb_tag, page_of.
  replace (u64 (Z.lnot (PG_MASK &' Z.lnot (wsize w - 1)))) with (not64 PG_MASK |' (wsize w - 1))
    by (destruct w; reflexivity).
  rewrite Z.land_lor_distr_r, Ha, Z.lor_0_r. reflexivity.
Qed.

(** RAM is mapped page by page: a RAM range starts on a page, and an address that resolves to it
    shares it with its page. *)
Definition ram_paged (m : PhysMemoryMap) : Prop := forall pa i pr,
  get_phys_mem_range m pa = Some (i, pr) -> pr_is_ram pr = true ->
  0 <= pr_addr pr /\ pr_addr pr mod 4096 = 0 /\
  forall pa', same_page pa pa' -> get_phys_mem_range m pa' = Some (i, pr).

(** A map whose ranges all start and end on pages. *)
Lemma aligned_ram_paged m :
  Forall (fun pr => 0 <= pr_addr pr /\ pr_addr pr mod 4096 = 0 /\ pr_size pr mod 4096 = 0 /\ 0 <= pr_size pr /\
                    pr_addr pr + pr_size pr < 2 ^ 64) (phys_mem_range m) ->
  ram_paged m.
Proof.
  intros Hal pa i pr Hg _. rewrite Forall_lookup in Hal.
  assert (forall j q pa', phys_mem_range m !! j = Some q -> same_page pa pa' -> in_range q pa' = in_range q pa) as Hu.
  { intros j q pa' Hq Hp. destruct (Hal j q Hq) as (H0 & Ha & Hs & Hs0 & Hov).
    apply eq_true_iff_eq. rewrite !in_range_in by auto. apply same_page_iff in Hp as (b & r & r' & Hr & Hr' & -> & ->).
    pose proof (Z.div_mod (pr_addr q) 4096). pose proof (Z.div_mod (pr_size q) 4096). lia. }
  apply get_phys_mem_range_Some in Hg as (Hl & Hr & Hlast).
  destruct (Hal i pr Hl) as (H0 & Ha & _). split; [auto|]. split; [auto|]. intros pa' Hp.
  apply get_phys_mem_range_Some. split; [auto|]. split; [rewrite (Hu i); auto|].
  intros j q Hj Hq. rewrite (Hu j q) by auto. eauto.
Qed.

(** Marking a page again changes nothing. *)
Definition marked (pr : PhysMemoryRange) (pa : Z) : Prop :=
  phys_mem_set_dirty_bit pr (u64 (pa - pr_addr pr)) = pr.

Lemma range_offset m pa i pr : get_phys_mem_range m pa = Some (i, pr) -> 0 <= pr_addr pr ->
  u64 (pa - pr_addr pr) = pa - pr_addr pr /\ pr_addr pr <= pa < 2 ^ 64.
Proof.
  intros Hg H0. apply get_phys_mem_range_Some in Hg as (_ & Hr & _). unfold in_range in Hr.
  apply andb_true_iff in Hr as [H1 H2]. apply Z.leb_le in H1. apply Z.ltb_lt in H2.
  pose proof (in_u_u64 (pr_addr pr + pr_size pr)) as [_ Hu]. split; [apply u64_id; split; lia|lia].
Qed.

Lemma marked_page m pa pa' i pr : ram_paged m -> get_phys_mem_range m pa = Some (i, pr) -> pr_is_ram pr = true ->
  same_page pa pa' -> marked pr pa -> marked pr pa'.
Proof.
  intros Hm Hg Hram Hp. destruct (Hm _ _ _ Hg Hram) as (H0 & Ha & Hsame). specialize (Hsame _ Hp).
  unfold marked, phys_mem_set_dirty_bit, DEVRAM_PAGE_SIZE_LOG2.
  destruct (range_offset _ _ _ _ Hg H0) as [-> _], (range_offset _ _ _ _ Hsame H0) as [-> _].
  replace ((pa' - pr_addr pr) >>' 12) with ((pa - pr_addr pr) >>' 12); [auto|].
  apply same_page_shiftr; [lia|]. apply same_page_iff in Hp as (b & r & r' & Hr & Hr' & -> & ->).
  pose proof (Z.div_mod (pr_addr pr) 4096). apply same_page_iff. exists (b - pr_addr pr / 4096), r, r'. lia.
Qed.

Section Coherence.
Context {D : Type} {DO : DeviceOps D}.
Implicit Types s : System D.

(** A valid entry agrees with the walk: its page translates to RAM, and adding the entry's addend to
    an address of the page gives the host address of its physical address. *)
Definition entry_coherent (acc : riscv_memory_access_t) (s : System D) (e : TLBEntry) : Prop :=
  vaddr e = invalid_vaddr \/
  exists pa i pr, in_u 64 (vaddr e) /\ riscv_cpu_get_phys_addr s (vaddr e) acc = Done (PhysOk pa) /\
    get_phys_mem_range (mem_map s) pa = Some (i, pr) /\ pr_is_ram pr = true /\
    u64 (mem_addend e + vaddr e) = host_ptr pr pa /\ (acc = ACCESS_WRITE -> marked pr pa).

Record coherent (s : System D) : Prop := {
  coh_read : Forall (entry_coherent ACCESS_READ s) (tlb_read (cpu s));
  coh_write : Forall (entry_coherent ACCESS_WRITE s) (tlb_write (cpu s));
  coh_code : Forall (entry_coherent ACCESS_CODE s) (tlb_code (cpu s)) }.

Lemma host_ptr_rebase pr pa va : u64 (host_ptr pr pa + (rebase pa va - pa)) = host_ptr pr (rebase pa va).
Proof. unfold host_ptr. wrap_sums. Qed.

Lemma rebase_same_page pa va : same_page pa (rebase pa va).
Proof.
  unfold same_page, rebase. rewrite Z.div_add_l, (Z.div_small (va mod 4096)) by (try apply Z.mod_pos_bound; lia). lia.
Qed.

Lemma tlb_get_Forall P l i : length l = 256%nat -> Forall P l -> 0 <= i < 256 -> P (tlb_get l i).
Proof.
  intros Hl HP Hi. unfold tlb_get. rewrite Forall_nth in HP. apply HP. lia.
Qed.

Lemma tlb_index_range addr : 0 <= tlb_index addr < 256.
Proof. unfold tlb_index, TLB_SIZE. change (256 - 1) with (Z.ones 8). apply (land_ones_bound _ 8). lia. Qed.

(** A hit in a coherent TLB gives the host address the walk would find. *)
Lemma hit_walk acc s l addr : ram_paged (mem_map s) -> satp_ok (satp (cpu s)) ->
  length l = 256%nat -> Forall (entry_coherent acc s) l -> in_u 64 addr ->
  let e := tlb_get l (tlb_index addr) in vaddr e = page_of addr ->
  exists pa i pr, riscv_cpu_get_phys_addr s addr acc = Done (PhysOk pa) /\
    get_phys_mem_range (mem_map s) pa = Some (i, pr) /\ pr_is_ram pr = true /\
    u64 (mem_addend e + addr) = host_ptr pr pa /\ (acc = ACCESS_WRITE -> marked pr pa).
Proof.
  intros Hm Hs Hl Hc Ha e He. pose proof (tlb_get_Forall _ _ _ Hl Hc (tlb_index_range addr)) as [Hi|H].
  { fold e in Hi. rewrite He in Hi. destruct (page_of_valid addr Hi). }
  fold e in H. destruct H as (pa & i & pr & Hv & Hw & Hr & Hram & Hp & Hd). rewrite He in *.
  assert (same_page (page_of addr) addr) as Hpg by (symmetry; apply same_page_of; auto).
  exists (rebase pa addr), i, pr.
  split; [eapply get_phys_addr_page; eauto|].
  pose proof (rebase_same_page pa addr) as Hpp.
  split; [eapply Hm; eauto|]. split; [exact Hram|]. split; [|intros Hacc; eapply marked_page; eauto].
  rewrite <- host_ptr_rebase, <- Hp.
  pose proof (get_phys_addr_offset _ _ _ _ (in_u_page_of addr) Hs Hw) as Ho.
  rewrite page_of_div in Ho by auto. rewrite Z.mod_mul in Ho by lia.
  rewrite (page_of_div addr) by auto. unfold rebase. pose proof (Z.div_mod pa 4096). pose proof (Z.div_mod addr 4096).
  wrap_sums.
Qed.

(** ** The fast path of a load *)

(** Two systems that differ in TLB contents only. *)
Definition erase_tlb (c : RISCVCPUState) : RISCVCPUState :=
  c <| tlb_read := [] |> <| tlb_write := [] |> <| tlb_code := [] |> <| tlb_read_paddr_addend := [] |>
    <| tlb_write_paddr_addend := [] |> <| tlb_code_paddr_addend := [] |>.

Definition tlb_equiv (s s' : System D) : Prop :=
  s <| cpu := erase_tlb (cpu s) |> = s' <| cpu := erase_tlb (cpu s') |>.

#[export] Instance tlb_equiv_equivalence : Equivalence tlb_equiv.
Proof. unfold tlb_equiv. split; red; intros; congruence. Qed.

Lemma fill_read_equiv addr pa ptr s : tlb_equiv (on_cpu (fill_read addr pa ptr) s) s.
Proof. reflexivity. Qed.
Lemma fill_write_equiv addr pa ptr s : tlb_equiv (on_cpu (fill_write addr pa ptr) s) s.
Proof. reflexivity. Qed.

(** The outcome of an access up to TLB contents. *)
Definition same_outcome {A} (r r' : res (A * System D)) : Prop :=
  match r, r' with
  | Done (a, s), Done (a', s') => a = a' /\ tlb_equiv s s'
  | Stop e, Stop e' => e = e'
  | _, _ => False
  end.

Lemma same_outcome_refl {A} (r : res (A * System D)) : same_outcome r r.
Proof. destruct r as [[a s]|]; simpl; [split; reflexivity|reflexivity]. Qed.

Lemma wrapu_ld w m p : hostmem_wf m -> wrapu (wbits w) (ld (bytes w) m p) = ld (bytes w) m p.
Proof. intros Hm. apply wrapu_small. apply (ld_range (bytes w) m p Hm). Qed.

Lemma target_read_slow w addr s : satp_ok (satp (cpu s)) -> length (tlb_read (cpu s)) = 256%nat ->
  hostmem_wf (hmem s) -> ram_paged (mem_map s) -> Forall (entry_coherent ACCESS_READ s) (tlb_read (cpu s)) ->
  in_u 64 addr ->
  same_outcome (target_read w addr s)
    ((r ← riscv_cpu_read_memory w addr; mret (wrapu (wbits w) <$> r)) s).
Proof.
  intros Hs Hl Hh Hm Hc Ha. unfold target_read. destruct (misaligned w addr) eqn:Ea.
  { unfold riscv_cpu_read_memory. rewrite Ea. apply same_outcome_refl. }
  run. rewrite tlb_tag_aligned by auto.
  destruct (Z.eqb_spec (vaddr (tlb_get (tlb_read (cpu s)) (tlb_index addr))) (page_of addr)) as [E|E];
    [|apply same_outcome_refl].
  destruct (hit_walk ACCESS_READ s (tlb_read (cpu s)) addr) as (pa & i & pr & Hw & Hr & Hram & Hp & _); auto.
  unfold riscv_cpu_read_memory. rewrite Ea. run. rewrite Hw. run.
  unfold get_phys_mem_range_pmp, riscv_cpu_pmp_access_ok. cbn [negb]. rewrite Hr, Hram. run.
  unfold modify_cpu. run. cbn [fmap option_fmap option_map]. rewrite Hp, wrapu_ld by auto. split; [reflexivity|]. symmetry. apply fill_read_equiv.
Qed.

(** ** The fast path of a store *)

Lemma set_range_id m i pr : phys_mem_range m !! i = Some pr -> set_range m i pr = m.
Proof. intros Hl. destruct m as [l]. unfold set_range. simpl in *. rewrite list_insert_id by auto. reflexivity. Qed.

Lemma target_write_slow w addr val s : cpu_wf (cpu s) -> ram_paged (mem_map s) -> coherent s -> in_u 64 addr ->
  same_outcome (target_write w addr val s) (riscv_cpu_write_memory w addr (wrapu (wbits w) val) s).
Proof.
  intros Hwf Hm Hc Ha. unfold target_write. cbv zeta. destruct (misaligned w addr) eqn:Ea.
  { unfold riscv_cpu_write_memory. rewrite Ea. apply same_outcome_refl. }
  run. rewrite tlb_tag_aligned by auto.
  destruct (Z.eqb_spec (vaddr (tlb_get (tlb_write (cpu s)) (tlb_index addr))) (page_of addr)) as [E|E];
    [|apply same_outcome_refl].
  destruct (hit_walk ACCESS_WRITE s (tlb_write (cpu s)) addr) as (pa & i & pr & Hw & Hr & Hram & Hp & Hd);
    auto; try apply Hwf; try apply Hc.
  unfold riscv_cpu_write_memory. rewrite Ea. run. rewrite Hw. run.
  unfold get_phys_mem_range_pmp, riscv_cpu_pmp_access_ok. cbn [negb]. rewrite Hr, Hram. unfold modify_cpu. run.
  rewrite Hp. specialize (Hd eq_refl). unfold marked in Hd. rewrite Hd.
  split; [reflexivity|]. unfold tlb_equiv.
  apply get_phys_mem_range_Some in Hr as (Hl & _). cbn. rewrite set_range_id by auto. reflexivity.
Qed.

(** ** Establishing and keeping coherence *)

Lemma flushed_coherent acc s l : Forall (entry_coherent acc s) (map (fun e => mkTLBEntry invalid_vaddr (mem_addend e)) l).
Proof. rewrite Forall_map. apply Forall_true. intros e. left. reflexivity. Qed.

Lemma flush_coherent s c : coherent (s <| cpu := tlb_flush_all c |>).
Proof. split; apply flushed_coherent. Qed.

Lemma entry_coherent_view acc s s' e : mmu_view s' = mmu_view s -> entry_coherent acc s e -> entry_coherent acc s' e.
Proof.
  intros Hv [E|E]; [left; exact E|]. right. rewrite (get_phys_addr_view s s') by exact Hv.
  pose proof Hv as [= _ _ _ -> _]. exact E.
Qed.

(** A step that changes neither the translation of any address, nor the map, nor the TLBs. *)
Lemma coherent_translation s s' :
  (forall va acc, riscv_cpu_get_phys_addr s' va acc = riscv_cpu_get_phys_addr s va acc) ->
  mem_map s' = mem_map s -> tlb_read (cpu s') = tlb_read (cpu s) -> tlb_write (cpu s') = tlb_write (cpu s) ->
  tlb_code (cpu s') = tlb_code (cpu s) -> coherent s -> coherent s'.
Proof.
  intros Ht Hm Hr Hw Hc [C1 C2 C3].
  assert (forall acc e, entry_coherent acc s e -> entry_coherent acc s' e) as K.
  { intros acc e [E|E]; [left; exact E|]. right. rewrite Ht, Hm. exact E. }
  split; [rewrite Hr|rewrite Hw|rewrite Hc]; (eapply Forall_impl; [eassumption|intros; apply K; assumption]).
Qed.

Lemma coherent_view s s' : mmu_view s' = mmu_view s -> tlb_read (cpu s') = tlb_read (cpu s) ->
  tlb_write (cpu s') = tlb_write (cpu s) -> tlb_code (cpu s') = tlb_code (cpu s) -> coherent s -> coherent s'.
Proof.
  intros Hv. pose proof Hv as [= _ _ _ Hm _]. apply coherent_translation; [|exact Hm].
  intros. apply get_phys_addr_view, Hv.
Qed.

(** The entry a fill writes. *)
Lemma fill_entry_coherent acc s addr pa i pr : ram_paged (mem_map s) -> satp_ok (satp (cpu s)) -> in_u 64 addr ->
  riscv_cpu_get_phys_addr s addr acc = Done (PhysOk pa) ->
  get_phys_mem_range (mem_map s) pa = Some (i, pr) -> pr_is_ram pr = true -> (acc = ACCESS_WRITE -> marked pr pa) ->
  entry_coherent acc s (mkTLBEntry (page_of addr) (u64 (host_ptr pr pa - addr))).
Proof.
  intros Hm Hs Ha Hw Hg Hram Hd. right. exists (rebase pa (page_of addr)), i, pr. cbn [vaddr mem_addend].
  pose proof (rebase_same_page pa (page_of addr)) as Hpp. destruct (Hm _ _ _ Hg Hram) as (_ & _ & Hsame).
  split; [apply in_u_page_of|]. split; [eapply get_phys_addr_page; eauto using in_u_page_of, same_page_of|].
  split; [auto|]. split; [auto|]. split; [|intros Hacc; eapply marked_page; eauto].
  rewrite <- host_ptr_rebase. pose proof (get_phys_addr_offset _ _ _ _ Ha Hs Hw) as Ho.
  unfold rebase. rewrite page_of_div by auto. rewrite Z.mod_mul by lia.
  pose proof (Z.div_mod pa 4096). pose proof (Z.div_mod addr 4096). wrap_sums.
Qed.

Lemma fill_read_coherent s addr pa i pr : ram_paged (mem_map s) -> satp_ok (satp (cpu s)) -> in_u 64 addr ->
  riscv_cpu_get_phys_addr s addr ACCESS_READ = Done (PhysOk pa) ->
  get_phys_mem_range (mem_map s) pa = Some (i, pr) -> pr_is_ram pr = true ->
  coherent s -> coherent (on_cpu (fill_read addr pa (host_ptr pr pa)) s).
Proof.
  intros Hm Hs Ha Hw Hg Hram [C1 C2 C3].
  pose proof (fun acc e => entry_coherent_view acc s (on_cpu (fill_read addr pa (host_ptr pr pa)) s) e eq_refl) as K.
  split; try (eapply Forall_impl; [eassumption|intros; apply K; assumption]).
  apply Forall_insert; [eapply Forall_impl; [exact C1|intros; apply K; assumption]|].
  apply K. eapply fill_entry_coherent; eauto. discriminate.
Qed.

Lemma fill_code_coherent s addr pa i pr : ram_paged (mem_map s) -> satp_ok (satp (cpu s)) -> in_u 64 addr ->
  riscv_cpu_get_phys_addr s addr ACCESS_CODE = Done (PhysOk pa) ->
  get_phys_mem_range (mem_map s) pa = Some (i, pr) -> pr_is_ram pr = true ->
  coherent s -> coherent (on_cpu (fill_code addr pa (host_ptr pr pa)) s).
Proof.
  intros Hm Hs Ha Hw Hg Hram [C1 C2 C3].
  pose proof (fun acc e => entry_coherent_view acc s (on_cpu (fill_code addr pa (host_ptr pr pa)) s) e eq_refl) as K.
  split; try (eapply Forall_impl; [eassumption|intros; apply K; assumption]).
  apply Forall_insert; [eapply Forall_impl; [exact C3|intros; apply K; assumption]|].
  apply K. eapply fill_entry_coherent; eauto. discriminate.
Qed.

(** The walk reads of [mstatus] only MPRV, MPP (when MPRV is set), SUM and MXR. *)
Lemma walk_mstatus s s' p acc va n :
  tst (mstatus (cpu s')) MSTATUS_SUM = tst (mstatus (cpu s)) MSTATUS_SUM ->
  tst (mstatus (cpu s')) MSTATUS_MXR = tst (mstatus (cpu s)) MSTATUS_MXR ->
  mem_map s' = mem_map s -> hmem s' = hmem s -> forall a, walk s' p acc va n a = walk s p acc va n a.
Proof.
  intros H1 H2 Hm Hh. induction n as [|n IH]; intros a; cbn [walk]; [reflexivity|].
  rewrite (riscv_phys_read_view W64 s s') by auto.
  destruct (riscv_phys_read _ _ _) as [[pte|]|]; cbn [mbind res_bind]; try reflexivity.
  rewrite IH. unfold leaf_ok. rewrite H1, H2. reflexivity.
Qed.

Lemma get_phys_addr_mstatus s s' va acc :
  tst (mstatus (cpu s')) MSTATUS_SUM = tst (mstatus (cpu s)) MSTATUS_SUM ->
  tst (mstatus (cpu s')) MSTATUS_MXR = tst (mstatus (cpu s)) MSTATUS_MXR ->
  tst (mstatus (cpu s')) MSTATUS_MPRV = tst (mstatus (cpu s)) MSTATUS_MPRV ->
  (tst (mstatus (cpu s)) MSTATUS_MPRV = true -> mpp (mstatus (cpu s')) = mpp (mstatus (cpu s))) ->
  priv (cpu s') = priv (cpu s) -> satp (cpu s') = satp (cpu s) -> mem_map s' = mem_map s -> hmem s' = hmem s ->
  riscv_cpu_get_phys_addr s' va acc = riscv_cpu_get_phys_addr s va acc.
Proof.
  intros H1 H2 H3 H4 Hp Hsp Hm Hh. unfold riscv_cpu_get_phys_addr.
  assert (effective_priv (cpu s') acc = effective_priv (cpu s) acc) as ->.
  { unfold effective_priv. rewrite H3, Hp. destruct (tst (mstatus (cpu s)) MSTATUS_MPRV); [|reflexivity].
    cbn [andb]. destruct (negb _); [exact (H4 eq_refl)|reflexivity]. }
  rewrite Hsp. cbv zeta. rewrite (walk_mstatus s s') by auto. reflexivity.
Qed.

Lemma set_mstatus_noflush s v : cpu_wf (cpu s) ->
  tst (Z.lxor (mstatus (cpu s)) v) (MSTATUS_MPRV |' MSTATUS_SUM |' MSTATUS_MXR)
    || (tst (mstatus (cpu s)) MSTATUS_MPRV && tst (Z.lxor (mstatus (cpu s)) v) MSTATUS_MPP) = false ->
  let m := mstatus (cpu s) in let m' := merge_bits m mstatus_writable v in
  tst m' MSTATUS_SUM = tst m MSTATUS_SUM /\ tst m' MSTATUS_MXR = tst m MSTATUS_MXR /\
  tst m' MSTATUS_MPRV = tst m MSTATUS_MPRV /\ (tst m MSTATUS_MPRV = true -> mpp m' = mpp m).
Proof.
  intros Hwf F m m'. fold m in F. apply orb_false_iff in F as [F1 F2].
  assert (forall i, Z.testbit (MSTATUS_MPRV |' MSTATUS_SUM |' MSTATUS_MXR) i = true -> Z.testbit v i = Z.testbit m i) as B.
  { intros i Hi. apply tst_false in F1. apply (f_equal (fun z => Z.testbit z i)) in F1. revert F1.
    rewrite Z.land_spec, Z.lxor_spec, Hi, Z.bits_0. destruct (Z.testbit v i), (Z.testbit m i); auto. }
  assert (forall i, 0 <= i < 64 -> Z.testbit mstatus_writable i = true -> Z.testbit v i = Z.testbit m i ->
            Z.testbit m' i = Z.testbit m i) as W.
  { intros i Hi Hw E. unfold m'. rewrite merge_bits_spec, Hw. exact E. }
  rewrite !(tst_bit _ 18 MSTATUS_SUM), !(tst_bit _ 19 MSTATUS_MXR), !(tst_bit _ 17 MSTATUS_MPRV) by (lia || reflexivity).
  split; [apply W; [lia|reflexivity|apply B; reflexivity]|].
  split; [apply W; [lia|reflexivity|apply B; reflexivity]|].
  split; [apply W; [lia|reflexivity|apply B; reflexivity]|]. intros HM.
  rewrite (tst_bit _ 17 MSTATUS_MPRV), HM in F2 by (lia || reflexivity). cbn [andb] in F2.
  assert (forall i, Z.testbit MSTATUS_MPP i = true -> Z.testbit v i = Z.testbit m i) as B2.
  { intros i Hi. apply tst_false in F2. apply (f_equal (fun z => Z.testbit z i)) in F2. revert F2.
    rewrite Z.land_spec, Z.lxor_spec, Hi, Z.bits_0. destruct (Z.testbit v i), (Z.testbit m i); auto. }
  apply (bits_inj_u 2); [lia|apply land_range_r; [lia|split; [discriminate|reflexivity]]..|].
  intros i Hi. unfold mpp. autorewrite with zbits. f_equal. f_equal.
  assert (i = 0 \/ i = 1) as [-> | ->] by lia; apply W; try lia; try reflexivity; apply B2; reflexivity.
Qed.

Lemma set_mstatus_coherent s v : cpu_wf (cpu s) -> coherent s -> coherent (on_cpu (set_mstatus v) s).
Proof.
  intros Hwf Hc. unfold on_cpu, set_mstatus. cbv zeta.
  destruct (_ || _) eqn:F; [split; apply flushed_coherent|].
  destruct (set_mstatus_noflush s v Hwf F) as (H1 & H2 & H3 & H4).
  apply (coherent_translation s); auto.
  intros va acc. apply (get_phys_addr_mstatus s); auto.
Qed.

Lemma set_priv_coherent s p : coherent s -> coherent (on_cpu (set_priv p) s).
Proof.
  intros Hc. unfold on_cpu, set_priv. destruct (negb _); [split; apply flushed_coherent|].
  apply (coherent_view s); auto.
Qed.

(** A change of [mstatus] that keeps MPRV, SUM and MXR, followed by a change of privilege and a jump: the TLBs stay coherent
    if MPRV is clear, if MPP is kept, or if the privilege changes (which flushes). *)
Lemma stacking_coherent s c p q : satp c = satp (cpu s) -> priv c = priv (cpu s) -> tlb_read c = tlb_read (cpu s) ->
  tlb_write c = tlb_write (cpu s) -> tlb_code c = tlb_code (cpu s) ->
  (forall i, i = 17 \/ i = 18 \/ i = 19 -> Z.testbit (mstatus c) i = Z.testbit (mstatus (cpu s)) i) ->
  tst (mstatus (cpu s)) MSTATUS_MPRV = false \/ mpp (mstatus c) = mpp (mstatus (cpu s)) \/ priv (cpu s) <> p ->
  coherent s -> coherent (s <| cpu := (set_priv p c) <| pc := q |> |>).
Proof.
  intros Hs Hp Hr Hw Hx Hb Hm Hc. unfold set_priv. rewrite Hp. destruct (Z.eqb_spec (priv (cpu s)) p) as [E|E]; cbn [negb].
  2: { split; apply flushed_coherent. }
  apply (coherent_translation s); auto. intros va acc.
  apply (get_phys_addr_mstatus s); auto; cbn; rewrite ?(tst_bit _ 18 MSTATUS_SUM), ?(tst_bit _ 19 MSTATUS_MXR), ?(tst_bit _ 17 MSTATUS_MPRV) by (lia || reflexivity);
    try (apply Hb; lia).
  intros HM. rewrite (tst_bit _ 17 MSTATUS_MPRV) in Hm by (lia || reflexivity). destruct Hm as [Hm|[Hm|Hm]]; [congruence|exact Hm|contradiction].
Qed.

Lemma trap_coherent s cause tval : cpu_wf (cpu s) -> tst (mstatus (cpu s)) MSTATUS_MPRV = false \/ priv (cpu s) <> PRV_M ->
  coherent s -> coherent (on_cpu (raise_exception2 cause tval) s).
Proof.
  intros Hwf HM Hc. unfold on_cpu. pose proof (wf_priv _ Hwf) as Hp. destruct (delegated (cpu s) cause) eqn:E.
  - pose proof (delegated_priv _ _ E) as Hd. rewrite raise_exception2_delegated by exact E. apply stacking_coherent; auto; cbn.
    + intros i Hi. rewrite stack_s_bit by lia. destruct Hi as [-> |[-> | ->]]; reflexivity.
    + right. left. apply (bits_inj_u 2); [lia|apply land_range_r; [lia|split; [discriminate|reflexivity]]..|].
      intros i Hi. unfold mpp. autorewrite with zbits. f_equal. f_equal. rewrite stack_s_bit by lia.
      assert (i = 0 \/ i = 1) as [-> | ->] by lia; reflexivity.
  - rewrite raise_exception2_machine by exact E. apply stacking_coherent; auto; cbn; [|intuition].
    intros i Hi. rewrite stack_m_bit by lia. destruct Hi as [-> |[-> | ->]]; reflexivity.
Qed.

Lemma sret_coherent s : coherent s -> coherent (on_cpu handle_sret s).
Proof.
  intros Hc. unfold on_cpu. rewrite handle_sret_eq. apply stacking_coherent; auto; cbn.
  - intros i Hi. rewrite unstack_s_bit by lia. destruct Hi as [-> |[-> | ->]]; reflexivity.
  - right. left. apply (bits_inj_u 2); [lia|apply land_range_r; [lia|split; [discriminate|reflexivity]]..|].
    intros i Hi. unfold mpp. autorewrite with zbits. f_equal. f_equal. rewrite unstack_s_bit by lia.
    assert (i = 0 \/ i = 1) as [-> | ->] by lia; reflexivity.
Qed.

Lemma mret_coherent s : tst (mstatus (cpu s)) MSTATUS_MPRV = false \/ mpp (mstatus (cpu s)) <> priv (cpu s) ->
  coherent s -> coherent (on_cpu handle_mret s).
Proof.
  intros HM Hc. unfold on_cpu. rewrite handle_mret_eq. apply stacking_coherent; auto; cbn; [|intuition].
  intros i Hi. rewrite unstack_m_bit by lia. destruct Hi as [-> |[-> | ->]]; reflexivity.
Qed.

Lemma dret_coherent s : coherent s -> coherent (on_cpu handle_dret s).
Proof. intros Hc. unfold on_cpu, handle_dret. cbv zeta. apply (stacking_coherent s); auto. Qed.

End Coherence.

(** ** The TLBs are invisible *)

(** What the devices promise to the MMU: reading a device register leaves the translation state, host memory, the memory
    map and the TLBs alone.  (Writing one need not: a virtio doorbell writes guest memory.) *)
Class DeviceFrame (D : Type) {DO : DeviceOps D} : Prop :=
  read_frame : forall d o l s v s', read_func d o l s = Done (v, s') ->
    mmu_view s' = mmu_view s /\ tlb_read (cpu s') = tlb_read (cpu s) /\
    tlb_write (cpu s') = tlb_write (cpu s) /\ tlb_code (cpu s') = tlb_code (cpu s).

Section Claims.
Context {D : Type} {DO : DeviceOps D}.
Implicit Types s : System D.

(** C2 The software TLB is transparent: with coherent TLBs, every load and store through the fast path
    has the outcome of the full translation: same value or same exception, same memory and device
    effects, and a state that differs in TLB contents only. *)
Theorem tlb_transparent w addr val s : cpu_wf (cpu s) -> hostmem_wf (hmem s) -> ram_paged (mem_map s) -> coherent s ->
  in_u 64 addr ->
  same_outcome (target_read w addr s) ((r ← riscv_cpu_read_memory w addr; mret (wrapu (wbits w) <$> r)) s) /\
  same_outcome (target_write w addr val s) (riscv_cpu_write_memory w addr (wrapu (wbits w) val) s).
Proof.
  intros Hwf Hh Hm Hc Ha. split; [|apply target_write_slow; assumption].
  apply target_read_slow; auto; first [apply Hwf | apply Hc].
Qed.

Lemma fault_coherent {A} addr cause s (r : option A) s' : coherent s ->
  fault (A := A) addr cause s = Done (r, s') -> coherent s'.
Proof. intros Hc [= <- <-]. apply (coherent_view s); auto. Qed.

Lemma device_read_coherent `{!DeviceFrame D} d o l s v s' : coherent s ->
  device_read d o l s = Done (v, s') -> coherent s'.
Proof.
  intros Hc E. destruct (read_frame d (u32 o) l s v s' E) as (H1 & H2 & H3 & H4). apply (coherent_view s); auto.
Qed.

Lemma read_device_coherent `{!DeviceFrame D} pr o w s v s' : coherent s ->
  read_device pr o w s = Done (v, s') -> coherent s'.
Proof.
  intros Hc. unfold read_device. destruct (negb _); [apply device_read_coherent, Hc|].
  destruct (_ && _); [|intros [= <- <-]; exact Hc].
  intros E. apply SM_bind_inv in E as (l & s1 & E1 & E). apply SM_bind_inv in E as (h & s2 & E2 & E).
  injection E as <- <-. eauto using device_read_coherent.
Qed.

Lemma read_memory_coherent `{!DeviceFrame D} w addr s r s' : ram_paged (mem_map s) -> satp_ok (satp (cpu s)) -> in_u 64 addr ->
  coherent s -> riscv_cpu_read_memory w addr s = Done (r, s') -> coherent s'.
Proof.
  intros Hm Hs Ha Hc. unfold riscv_cpu_read_memory. destruct (misaligned w addr); [apply fault_coherent, Hc|]. run.
  destruct (riscv_cpu_get_phys_addr s addr ACCESS_READ) as [[pa|err]|] eqn:Hw; run; [|apply fault_coherent, Hc|discriminate].
  unfold get_phys_mem_range_pmp, riscv_cpu_pmp_access_ok. cbn [negb].
  destruct (get_phys_mem_range (mem_map s) pa) as [[i pr]|] eqn:Hg; [|apply fault_coherent, Hc].
  destruct (pr_is_ram pr) eqn:Hram.
  - unfold modify_cpu. run. intros [= <- <-]. eapply fill_read_coherent; eauto.
  - intros E. apply SM_bind_inv in E as (v & s1 & E1 & E). injection E as <- <-. eapply read_device_coherent; eauto.
Qed.

Lemma target_read_coherent `{!DeviceFrame D} w addr s r s' : ram_paged (mem_map s) -> satp_ok (satp (cpu s)) -> in_u 64 addr ->
  coherent s -> target_read w addr s = Done (r, s') -> coherent s'.
Proof.
  intros Hm Hs Ha Hc. unfold target_read. destruct (misaligned w addr); [apply fault_coherent, Hc|]. run.
  destruct (_ =? _); run; [intros [= <- <-]; exact Hc|].
  intros E. apply SM_bind_inv in E as (v & s1 & E1 & E). injection E as <- <-. eapply read_memory_coherent; eauto.
Qed.

Lemma fetch_slow_coherent size addr s r s' : ram_paged (mem_map s) -> satp_ok (satp (cpu s)) -> in_u 64 addr ->
  coherent s -> target_read_insn_slow size addr s = Done (r, s') -> coherent s'.
Proof.
  intros Hm Hs Ha Hc. unfold target_read_insn_slow. run.
  destruct (riscv_cpu_get_phys_addr s addr ACCESS_CODE) as [[pa|err]|] eqn:Hw; run; [|apply fault_coherent, Hc|discriminate].
  unfold get_phys_mem_range_pmp, riscv_cpu_pmp_access_ok. cbn [negb].
  destruct (get_phys_mem_range (mem_map s) pa) as [[i pr]|] eqn:Hg; [|apply fault_coherent, Hc].
  destruct (pr_is_ram pr) eqn:Hram; cbn [negb]; [|apply fault_coherent, Hc].
  unfold modify_cpu. run. set (s1 := on_cpu _ s).
  assert (coherent s1) as Hc1 by (eapply fill_code_coherent; eauto).
  destruct (_ && _).
  - run. destruct (riscv_cpu_get_phys_addr s1 _ ACCESS_CODE) as [[pa2|err]|]; run; [|apply fault_coherent, Hc1|discriminate].
    destruct (get_phys_mem_range (mem_map s1) pa2) as [[i2 pr2]|]; [|apply fault_coherent, Hc1].
    destruct (negb _); [apply fault_coherent, Hc1|]. intros [= <- <-]. exact Hc1.
  - destruct (size =? 32); [intros [= <- <-]; exact Hc1|]. destruct (size =? 16); [intros [= <- <-]; exact Hc1|discriminate].
Qed.

Lemma csr_write_satp `{MachineHooks} c v ret c' : csr_write c 0x180 v = Done (ret, c') ->
  c' = c \/ exists c1, c' = tlb_flush_all c1.
Proof.
  assert (csr_write c 0x180 v = if (priv c =? PRV_S) && tst (mstatus c) MSTATUS_TVM then Done (-1, c) else
    Done (2, tlb_flush_all (let mode := (v >>' 60) &' 15 in
      if (mode =? 0) || (mode =? 8) || (mode =? 9) then c <| satp := v &' SATP_MASK |> else c))) as ->.
  { unfold csr_write, csr_write_case, csr_write_supervisor. cbn [Z.eqb Pos.eqb].
    destruct (_ && _); reflexivity. }
  destruct (_ && _); intros E; apply (f_equal (fun r => match r with Done (_, x) => x | Stop _ => c end)) in E;
    [left|right; eexists]; symmetry; exact E.
Qed.

(** C3 The operations that fill the TLBs or change what they cache keep them coherent with the page tables: a load, at RAM
    or at a device whose reads leave the translation state alone ([DeviceFrame], which the board of the machine satisfies:
    [Machine.board_frame]), an instruction fetch, a write to [mstatus] or to [satp], a change of privilege, [sfence.vma], [sret]
    and [dret]; a trap, unless it is taken in machine mode while MPRV is set; and [mret], unless it stays in the same mode while
    MPRV is set.  ([mprv_trap_leaves_stale_tlb] shows that the exception for traps is needed.  Stores are not listed: one to a
    page table leaves the old translation in the TLBs until the guest executes [sfence.vma].) *)
Theorem tlb_coherence_maintained `{!DeviceFrame D} `{MachineHooks} s :
  cpu_wf (cpu s) -> ram_paged (mem_map s) -> coherent s ->
  (forall w addr r s', in_u 64 addr -> target_read w addr s = Done (r, s') -> coherent s') /\
  (forall size addr r s', in_u 64 addr -> target_read_insn_slow size addr s = Done (r, s') -> coherent s') /\
  (forall v, coherent (on_cpu (set_mstatus v) s)) /\
  (forall v ret c', csr_write (cpu s) 0x180 v = Done (ret, c') -> coherent (s <| cpu := c' |>)) /\
  (forall p, coherent (on_cpu (set_priv p) s)) /\
  (forall va, coherent (on_cpu (fun c => tlb_flush_vaddr c va) s)) /\
  (forall cause tval, tst (mstatus (cpu s)) MSTATUS_MPRV = false \/ priv (cpu s) <> PRV_M ->
     coherent (on_cpu (raise_exception2 cause tval) s)) /\
  (tst (mstatus (cpu s)) MSTATUS_MPRV = false \/ mpp (mstatus (cpu s)) <> priv (cpu s) -> coherent (on_cpu handle_mret s)) /\
  coherent (on_cpu handle_sret s) /\ coherent (on_cpu handle_dret s).
Proof.
  intros Hwf Hm Hc. pose proof (wf_satp _ Hwf) as Hs.
  split; [eauto using target_read_coherent|]. split; [eauto using fetch_slow_coherent|].
  split; [intros; apply set_mstatus_coherent; auto|]. split; [|split; [intros; apply set_priv_coherent; auto|]].
  - intros v ret c' E. apply csr_write_satp in E as [-> | [c1 ->]].
    + apply (coherent_view s); auto.
    + apply flush_coherent.
  - split; [intros va; apply flush_coherent|]. split; [intros; apply trap_coherent; assumption|].
    split; [intros; apply mret_coherent; assumption|]. split; [apply sret_coherent, Hc|apply dret_coherent, Hc].
Qed.

End Claims.

(** ** Memory safety of stores *)

(** A RAM range covers whole pages, its buffer lies in the host address space, and it is not
    tracked by dirty bits (the ROM and the main memory are registered without them). *)
Definition ram_ok (pr : PhysMemoryRange) : Prop := pr_is_ram pr = true ->
  0 <= pr_addr pr /\ pr_addr pr mod 4096 = 0 /\ pr_size pr mod 4096 = 0 /\ 0 <= pr_size pr /\
  pr_addr pr + pr_size pr < 2 ^ 64 /\ 0 <= pr_phys_mem pr /\ pr_phys_mem pr + pr_size pr <= 2 ^ 64 /\
  pr_dirty_bits pr = None.

Lemma host_ptr_bounds m pa i pr w : Forall ram_ok (phys_mem_range m) ->
  get_phys_mem_range m pa = Some (i, pr) -> pr_is_ram pr = true -> pa mod wsize w = 0 ->
  host_ptr pr pa = pr_phys_mem pr + (pa - pr_addr pr) /\
  pr_phys_mem pr <= host_ptr pr pa /\ host_ptr pr pa + wsize w <= pr_phys_mem pr + pr_size pr.
Proof.
  intros Hok Hg Hram Hal. pose proof Hg as Hg'. apply get_phys_mem_range_Some in Hg' as (Hl & Hr & _).
  rewrite Forall_lookup in Hok. destruct (Hok _ _ Hl Hram) as (H0 & H1 & H2 & H3 & H4 & H5 & H6 & _).
  apply in_range_in in Hr; [|lia..]. unfold host_ptr.
  rewrite (u64_id (pa - pr_addr pr)) by (split; lia). rewrite u64_id by (split; lia).
  split; [reflexivity|]. split; [lia|].
  pose proof (Z.div_mod (pr_addr pr) 4096). pose proof (Z.div_mod (pr_size pr) 4096).
  destruct (wsize_cases w) as [Ew|[Ew|[Ew|Ew]]]; rewrite Ew in *;
    [lia|pose proof (Z.div_mod pa 2)|pose proof (Z.div_mod pa 4)|pose proof (Z.div_mod pa 8)]; lia.
Qed.

Lemma aligned_mod w addr : misaligned w addr = false -> addr mod wsize w = 0.
Proof.
  unfold misaligned. rewrite negb_false_iff, Z.eqb_eq. intros E.
  destruct (wsize_cases w) as [Ew|[Ew|[Ew|Ew]]]; rewrite Ew in *.
  - apply Z.mod_1_r.
  - rewrite <- E. change (2 - 1) with (Z.ones 1). rewrite Z.land_ones by lia. reflexivity.
  - rewrite <- E. change (4 - 1) with (Z.ones 2). rewrite Z.land_ones by lia. reflexivity.
  - rewrite <- E. change (8 - 1) with (Z.ones 3). rewrite Z.land_ones by lia. reflexivity.
Qed.

(** Alignment within a page survives translation. *)
Lemma mod_wsize w a b : a mod 4096 = b mod 4096 -> a mod wsize w = b mod wsize w.
Proof.
  intros E. pose proof (Z.div_mod a 4096). pose proof (Z.div_mod b 4096). rewrite E in *.
  destruct (wsize_cases w) as [Ew|[Ew|[Ew|Ew]]]; rewrite Ew in *;
    [rewrite !Z.mod_1_r; reflexivity|..]; symmetry.
  - replace b with (a + (2048 * (b / 4096 - a / 4096)) * 2) by lia. apply Z_mod_plus_full.
  - replace b with (a + (1024 * (b / 4096 - a / 4096)) * 4) by lia. apply Z_mod_plus_full.
  - replace b with (a + (512 * (b / 4096 - a / 4096)) * 8) by lia. apply Z_mod_plus_full.
Qed.

Section Safety.
Context {D : Type} {DO : DeviceOps D}.
Implicit Types s : System D.

(** The cases of a store through the full translation. *)
Lemma write_memory_cases w addr val s r s' : Forall ram_ok (phys_mem_range (mem_map s)) ->
  riscv_cpu_write_memory w addr val s = Done (r, s') ->
  (r = None /\ exists c, s' = s <| cpu := c |>) \/
  (exists pa i pr, misaligned w addr = false /\ riscv_cpu_get_phys_addr s addr ACCESS_WRITE = Done (PhysOk pa) /\
     get_phys_mem_range (mem_map s) pa = Some (i, pr) /\ pr_is_ram pr = false /\
     r = Some tt /\ write_device pr (u64 (pa - pr_addr pr)) val w s = Done (tt, s')) \/
  (exists pa i pr, misaligned w addr = false /\ riscv_cpu_get_phys_addr s addr ACCESS_WRITE = Done (PhysOk pa) /\
     get_phys_mem_range (mem_map s) pa = Some (i, pr) /\ pr_is_ram pr = true /\ r = Some tt /\
     s' = (on_cpu (fill_write addr pa (host_ptr pr pa)) s)
            <| hmem := st (bytes w) (hmem s) (host_ptr pr pa) val |>).
Proof.
  intros Hok. unfold riscv_cpu_write_memory. destruct (misaligned w addr) eqn:Ea;
    [intros [= <- <-]; left; split; [reflexivity|eexists; reflexivity]|]. run.
  destruct (riscv_cpu_get_phys_addr s addr ACCESS_WRITE) as [[pa|err]|] eqn:Hw; run;
    [|intros [= <- <-]; left; split; [reflexivity|eexists; reflexivity]|discriminate].
  unfold get_phys_mem_range_pmp, riscv_cpu_pmp_access_ok. cbn [negb].
  destruct (get_phys_mem_range (mem_map s) pa) as [[i pr]|] eqn:Hg;
    [|intros [= <- <-]; left; split; [reflexivity|eexists; reflexivity]].
  destruct (pr_is_ram pr) eqn:Hram.
  - unfold modify_cpu. run. intros E. right. right. exists pa, i, pr. do 4 (split; [auto|]).
    pose proof Hg as Hg'. apply get_phys_mem_range_Some in Hg' as (Hl & _).
    rewrite Forall_lookup in Hok. destruct (Hok _ _ Hl Hram) as (_ & _ & _ & _ & _ & _ & _ & Hd).
    assert (phys_mem_set_dirty_bit pr (u64 (pa - pr_addr pr)) = pr) as Hd' by (unfold phys_mem_set_dirty_bit; rewrite Hd; reflexivity).
    rewrite Hd', set_range_id in E by auto. injection E as <- <-. split; reflexivity.
  - intros E. apply SM_bind_inv in E as ([] & s1 & E1 & E). injection E as <- <-.
    right. left. exists pa, i, pr. auto 10.
Qed.

(** C39 Memory safety of stores, whatever address the guest uses and whether the store goes through the TLB or the page walk.
    A store that faults changes no memory.  A store that does not fault is aligned and goes to one registered range, that of the
    translated address.  If the range is RAM, the bytes of the access lie inside the buffer of that range, hold the low bits of
    the value afterwards, and every other host byte and every device is as before; if it is a device, the store is exactly that
    device's write of the value at the offset of the address in the range, up to TLB contents. *)
Theorem store_confined w addr val s r s' :
  cpu_wf (cpu s) -> ram_paged (mem_map s) -> Forall ram_ok (phys_mem_range (mem_map s)) -> coherent s -> in_u 64 addr ->
  target_write w addr val s = Done (r, s') ->
  match r with
  | None => hmem s' = hmem s /\ devs s' = devs s /\ mem_map s' = mem_map s
  | Some _ => misaligned w addr = false /\ exists pa i pr,
      riscv_cpu_get_phys_addr s addr ACCESS_WRITE = Done (PhysOk pa) /\ get_phys_mem_range (mem_map s) pa = Some (i, pr) /\
      if pr_is_ram pr then
        let p := host_ptr pr pa in
        p = pr_phys_mem pr + (pa - pr_addr pr) /\ pr_phys_mem pr <= p /\ p + wsize w <= pr_phys_mem pr + pr_size pr /\
        ld (bytes w) (hmem s') p = wrapu (wbits w) val /\
        (forall q, q < p \/ p + wsize w <= q -> hmem s' !! q = hmem s !! q) /\ devs s' = devs s /\ mem_map s' = mem_map s
      else exists s2, write_device pr (u64 (pa - pr_addr pr)) (wrapu (wbits w) val) w s = Done (tt, s2) /\ tlb_equiv s' s2
  end.
Proof.
  intros Hwf Hm Hok Hc Ha E. pose proof (target_write_slow w addr val s Hwf Hm Hc Ha) as Hs. rewrite E in Hs.
  destruct (riscv_cpu_write_memory w addr _ s) as [[r2 s2]|] eqn:E2; [|destruct Hs]. destruct Hs as [-> Heq].
  assert (hmem s' = hmem s2 /\ devs s' = devs s2 /\ mem_map s' = mem_map s2) as (Hh & Hd & Hmm)
    by (split; [exact (f_equal hmem Heq)|split; [exact (f_equal devs Heq)|exact (f_equal mem_map Heq)]]).
  destruct (write_memory_cases _ _ _ _ _ _ Hok E2) as [(-> & c & ->)|[(pa & i & pr & Hal & Hw & Hg & Hram & -> & Hdw)|(pa & i & pr & Hal & Hw & Hg & Hram & -> & ->)]].
  - auto.
  - split; [exact Hal|]. exists pa, i, pr. do 2 (split; [assumption|]). rewrite Hram. exists s2. split; assumption.
  - split; [exact Hal|]. exists pa, i, pr. do 2 (split; [assumption|]). rewrite Hram. cbv zeta. rewrite Hh, Hd, Hmm. cbn [hmem devs mem_map upd].
    destruct (host_ptr_bounds _ _ _ _ w Hok Hg Hram) as (P & B1 & B2).
    { rewrite (mod_wsize w pa addr); [apply aligned_mod, Hal|]. eapply get_phys_addr_offset; eauto. apply Hwf. }
    split; [exact P|]. split; [exact B1|]. split; [exact B2|]. split.
    { change (ld (bytes w) (st (bytes w) (hmem s) (host_ptr pr pa) (wrapu (wbits w) val)) (host_ptr pr pa) = wrapu (wbits w) val).
      rewrite ld_st_same. apply wrapu_idem. destruct w; discriminate. }
    split; [|split; reflexivity]. intros q Hq.
    change ((st (bytes w) (hmem s) (host_ptr pr pa) (wrapu (wbits w) val)) !! q = hmem s !! q).
    destruct Hq; [apply st_lookup_lt|apply st_lookup_ge]; unfold wsize in *; lia.
Qed.

(** ** Load after store *)

(** The hart accesses physical addresses directly. *)
Definition unpaged s : Prop :=
  (effective_priv (cpu s) ACCESS_READ = PRV_M /\ effective_priv (cpu s) ACCESS_WRITE = PRV_M) \/
  satp_mode (satp (cpu s)) = 0.

Lemma unpaged_identity s va acc : acc <> ACCESS_CODE -> unpaged s -> riscv_cpu_get_phys_addr s va acc = Done (PhysOk va).
Proof.
  intros Hacc Hu. unfold riscv_cpu_get_phys_addr. cbv zeta. fold (satp_mode (satp (cpu s))).
  destruct (Z.eqb_spec (effective_priv (cpu s) acc) PRV_M) as [|Hne]; [reflexivity|].
  destruct Hu as [[Hr Hw]| ->]; [|reflexivity]. destruct acc; [contradiction..|congruence].
Qed.

(** A load of an aligned RAM address reads its buffer. *)
Lemma target_read_ram w addr s i pr : cpu_wf (cpu s) -> hostmem_wf (hmem s) -> ram_paged (mem_map s) -> coherent s ->
  in_u 64 addr -> unpaged s -> misaligned w addr = false ->
  get_phys_mem_range (mem_map s) addr = Some (i, pr) -> pr_is_ram pr = true ->
  exists s', target_read w addr s = Done (Some (ld (bytes w) (hmem s) (host_ptr pr addr)), s') /\ tlb_equiv s' s.
Proof.
  intros Hwf Hh Hm Hc Ha Hu Hal Hg Hram.
  assert (same_outcome (target_read w addr s) ((r ← riscv_cpu_read_memory w addr; mret (wrapu (wbits w) <$> r)) s)) as Ho
    by (apply target_read_slow; auto; first [apply Hwf | apply Hc]).
  revert Ho. unfold riscv_cpu_read_memory at 1. rewrite Hal. run. rewrite unpaged_identity by (discriminate || exact Hu). run.
  unfold get_phys_mem_range_pmp, riscv_cpu_pmp_access_ok. cbn [negb]. rewrite Hg, Hram. unfold modify_cpu. run.
  cbn [fmap option_fmap option_map]. rewrite wrapu_ld by exact Hh.
  destruct (target_read w addr s) as [[v s']|]; [|intros []]. intros [-> He]. exists s'. split; [reflexivity|].
  rewrite He. apply fill_read_equiv.
Qed.

(** A store to RAM leaves the read TLB and the translation registers alone. *)
Lemma target_write_ram w addr val s i pr r s' :
  Forall ram_ok (phys_mem_range (mem_map s)) -> misaligned w addr = false ->
  riscv_cpu_get_phys_addr s addr ACCESS_WRITE = Done (PhysOk addr) ->
  get_phys_mem_range (mem_map s) addr = Some (i, pr) -> pr_is_ram pr = true ->
  target_write w addr val s = Done (r, s') ->
  r = Some tt /\ mem_map s' = mem_map s /\ mstatus (cpu s') = mstatus (cpu s) /\ priv (cpu s') = priv (cpu s) /\
  satp (cpu s') = satp (cpu s) /\ tlb_read (cpu s') = tlb_read (cpu s).
Proof.
  intros Hok Hal Hw Hg Hram. unfold target_write. cbv zeta. rewrite Hal. run. destruct (_ =? _); run.
  { intros [= <- <-]. repeat split. }
  intros E2. destruct (write_memory_cases _ _ _ _ _ _ Hok E2) as [(Hn & c & Hs2)|[(pa & i' & pr' & _ & Hw' & Hg' & Hr' & _)|(pa & i' & pr' & _ & _ & _ & _ & Hr & ->)]].
  - exfalso. revert E2. unfold riscv_cpu_write_memory. rewrite Hal. run. rewrite Hw. run.
    unfold get_phys_mem_range_pmp, riscv_cpu_pmp_access_ok. cbn [negb]. rewrite Hg, Hram. unfold modify_cpu. run.
    intros [= <- _]. discriminate.
  - rewrite Hw in Hw'. injection Hw' as <-. congruence.
  - repeat split. exact Hr.
Qed.

(** In machine mode or with paging off, a load returns what the last store to the same RAM address
    wrote, truncated to the access width, and sees through it at every disjoint address of the
    range. *)
Theorem load_after_store w addr val s i pr r s' :
  cpu_wf (cpu s) -> hostmem_wf (hmem s) -> ram_paged (mem_map s) -> Forall ram_ok (phys_mem_range (mem_map s)) ->
  coherent s -> in_u 64 addr -> unpaged s -> misaligned w addr = false ->
  get_phys_mem_range (mem_map s) addr = Some (i, pr) -> pr_is_ram pr = true ->
  target_write w addr val s = Done (r, s') ->
  r = Some tt /\ ld (bytes w) (hmem s') (host_ptr pr addr) = wrapu (wbits w) val /\
  (forall w' addr', get_phys_mem_range (mem_map s) addr' = Some (i, pr) -> misaligned w' addr' = false ->
     addr' + wsize w' <= addr \/ addr + wsize w <= addr' ->
     ld (bytes w') (hmem s') (host_ptr pr addr') = ld (bytes w') (hmem s) (host_ptr pr addr')) /\
  exists s'', target_read w addr s' = Done (Some (wrapu (wbits w) val), s'').
Proof.
  intros Hwf Hh Hm Hok Hc Ha Hu Hal Hg Hram E. pose proof (target_write_slow w addr val s Hwf Hm Hc Ha) as Hs. rewrite E in Hs.
  destruct (riscv_cpu_write_memory w addr _ s) as [[r2 s2]|] eqn:E2; [|destruct Hs]. destruct Hs as [-> Heq].
  pose proof (unpaged_identity s addr ACCESS_WRITE ltac:(discriminate) Hu) as Hw.
  destruct (target_write_ram _ _ _ _ _ _ _ _ Hok Hal Hw Hg Hram E) as (Hr & M1 & M2 & M3 & M4 & M5).
  assert (hmem s' = st (bytes w) (hmem s) (host_ptr pr addr) (wrapu (wbits w) val)) as Hh'.
  { transitivity (hmem s2); [exact (f_equal hmem Heq)|]. revert E2. unfold riscv_cpu_write_memory. rewrite Hal. run.
    rewrite Hw. run. unfold get_phys_mem_range_pmp, riscv_cpu_pmp_access_ok. cbn [negb]. rewrite Hg, Hram.
    unfold modify_cpu. run. intros [= _ <-]. reflexivity. }
  assert (ld (bytes w) (hmem s') (host_ptr pr addr) = wrapu (wbits w) val) as Hld.
  { rewrite Hh', ld_st_same. apply wrapu_idem. destruct w; discriminate. }
  split; [exact Hr|]. split; [exact Hld|]. split.
  - intros w' addr' Hg2 Hal2 Hdis. rewrite Hh'. apply ld_st_disjoint.
    destruct (host_ptr_bounds _ _ _ _ w Hok Hg Hram (aligned_mod _ _ Hal)) as (P1 & _).
    destruct (host_ptr_bounds _ _ _ _ w' Hok Hg2 Hram (aligned_mod _ _ Hal2)) as (P2 & _).
    unfold wsize in *. lia.
  - assert (unpaged s') as Hu' by (unfold unpaged, effective_priv in *; rewrite M2, M3, M4; exact Hu).
    pose proof (unpaged_identity s' addr ACCESS_READ ltac:(discriminate) Hu') as Hrd.
    assert (same_outcome (target_read w addr s') ((r ← riscv_cpu_read_memory w addr; mret (wrapu (wbits w) <$> r)) s')) as Ho.
    { apply target_read_slow; rewrite ?M1, ?M4, ?M5; auto; try apply Hwf; [rewrite Hh'; apply st_wf, Hh|].
      eapply Forall_impl; [apply (coh_read _ Hc)|]. intros e [Hi|(pa & j & q & Hv & Ht & Hrest)]; [left; exact Hi|right].
      rewrite unpaged_identity in Ht by (discriminate || exact Hu). exists pa, j, q. rewrite M1.
      rewrite unpaged_identity by (discriminate || exact Hu'). auto. }
    revert Ho. unfold riscv_cpu_read_memory at 1. rewrite Hal. run. rewrite Hrd. run.
    unfold get_phys_mem_range_pmp, riscv_cpu_pmp_access_ok. cbn [negb]. rewrite M1, Hg, Hram. unfold modify_cpu. run.
    rewrite Hld. destruct (target_read w addr s') as [[v s'']|]; [|intros []]. intros [-> _]. exists s''.
    do 3 f_equal. cbn [fmap option_fmap option_map]. rewrite wrapu_idem by (destruct w; discriminate). reflexivity.
Qed.

End Safety.

(** ** Instances and findings *)

Lemma no_devices_frame : @DeviceFrame unit no_devices.
Proof. intros d o l s v s' [= _ <-]. repeat split. Qed.

Definition demo_tlb : System unit := demo_sys 0x80001000 0 0.

Lemma demo_tlb_wf : cpu_wf (cpu demo_tlb).
Proof. apply demo_cpu_wf; [split; [discriminate|reflexivity]|split; [split; [discriminate|reflexivity]|reflexivity]]. Qed.

Lemma demo_tlb_coherent : coherent demo_tlb.
Proof. apply (flush_coherent demo_tlb). Qed.

Lemma demo_tlb_paged : ram_paged (mem_map demo_tlb).
Proof. apply aligned_ram_paged. exact (demo_paged 0 0x80001000 0). Qed.

Lemma demo_tlb_ram_ok : Forall ram_ok (phys_mem_range (mem_map demo_tlb)).
Proof. repeat constructor; discriminate. Qed.

Lemma tlb_transparent_witness :
  same_outcome (@target_read unit no_devices W64 0x80000000 demo_tlb)
    ((r ← @riscv_cpu_read_memory unit no_devices W64 0x80000000; mret (wrapu (wbits W64) <$> r)) demo_tlb).
Proof.
  exact (proj1 (@tlb_transparent unit no_devices W64 0x80000000 0 demo_tlb demo_tlb_wf (demo_hmem_wf 0x80001000 0 0)
           demo_tlb_paged demo_tlb_coherent ltac:(split; [discriminate|reflexivity]))).
Defined.

Lemma tlb_coherence_maintained_witness : coherent (on_cpu (set_mstatus MSTATUS_SUM) demo_tlb).
Proof.
  exact (proj1 (proj2 (proj2 (@tlb_coherence_maintained unit no_devices no_devices_frame no_hooks demo_tlb demo_tlb_wf
           demo_tlb_paged demo_tlb_coherent))) MSTATUS_SUM).
Defined.

(** The state after storing 0x1122334455667788 at 0x80000010. *)
Definition demo_stored : res (option unit * System unit) :=
  @target_write unit no_devices W64 0x80000010 0x1122334455667788 demo_tlb.

Lemma store_confined_witness : exists s', demo_stored = Done (Some tt, s') /\
  ld 8 (hmem s') 0x100010 = 0x1122334455667788 /\ forall q, q < 0x100010 \/ 0x100018 <= q -> hmem s' !! q = hmem demo_tlb !! q.
Proof.
  destruct demo_stored as [[[[]|] s']|] eqn:E; [| |discriminate E].
  2: { apply (f_equal (fun x => match x with Done (None, _) => true | _ => false end)) in E. vm_compute in E. discriminate E. }
  exists s'. split; [reflexivity|].
  destruct (@store_confined unit no_devices W64 0x80000010 0x1122334455667788 demo_tlb (Some tt) s'
              demo_tlb_wf demo_tlb_paged demo_tlb_ram_ok demo_tlb_coherent) as (_ & pa & i & pr & Hw & Hg & K); [|exact E|].
  - split; [discriminate|reflexivity].
  - vm_compute in Hw. injection Hw as <-. vm_compute in Hg. injection Hg as <- <-. destruct K as (_ & _ & _ & H1 & H2 & _).
    split; [exact H1|exact H2].
Defined.

Lemma load_after_store_witness : exists s' s'',
  demo_stored = Done (Some tt, s') /\
  @target_read unit no_devices W64 0x80000010 s' = Done (Some 0x1122334455667788, s'').
Proof.
  destruct demo_stored as [[r s']|] eqn:E; [|discriminate E].
  destruct (@load_after_store unit no_devices W64 0x80000010 0x1122334455667788 demo_tlb 1 demo_ram r s'
              demo_tlb_wf (demo_hmem_wf 0x80001000 0 0) demo_tlb_paged demo_tlb_ram_ok demo_tlb_coherent)
    as (-> & _ & _ & s'' & Hs); try exact E; try reflexivity.
  - split; [discriminate|reflexivity].
  - left. split; reflexivity.
  - exists s', s''. split; [reflexivity|]. exact Hs.
Defined.

(** M mode with MPRV = 1 and MPP = U: a load of virtual 0 has filled the read TLB through the page
    table. *)
Definition mprv_base : System unit := demo_sys 0x80001000 MSTATUS_MPRV ((0x80000 <<' 10) |' 0xD7).
Definition mprv_sys : System unit := on_cpu (fill_read 0 0x80000000 (host_ptr demo_ram 0x80000000)) mprv_base.

Lemma wf_demo_fill addr pa ptr c : cpu_wf c -> cpu_wf (fill_read addr pa ptr c).
Proof.
  intros H. apply wf_set_tlb_read_paddr_addend, wf_set_tlb_read; [exact H|].
  apply tlb_ok_set; [apply H|apply in_u_page_of|apply in_u_u64].
Qed.

Lemma mprv_base_wf : cpu_wf (cpu mprv_base).
Proof. apply demo_cpu_wf; [split; [discriminate|reflexivity]|split; [split; [discriminate|reflexivity]|reflexivity]]. Qed.

Lemma mprv_sys_coherent : coherent mprv_sys.
Proof.
  apply (fill_read_coherent mprv_base 0 0x80000000 1 demo_ram).
  - apply aligned_ram_paged. exact (demo_paged MSTATUS_MPRV 0x80001000 ((0x80000 <<' 10) |' 0xD7)).
  - apply mprv_base_wf.
  - split; [discriminate|reflexivity].
  - vm_compute. reflexivity.
  - vm_compute. reflexivity.
  - reflexivity.
  - exact (flush_coherent mprv_base _).
Qed.

(** A trap taken in M mode while MPRV is set leaves stale TLB entries: it changes MPP, hence the
    privilege of loads, without flushing, so a coherent state becomes incoherent. *)
Theorem mprv_trap_leaves_stale_tlb :
  cpu_wf (cpu mprv_sys) /\ coherent mprv_sys /\
  ~ coherent (on_cpu (raise_exception2 CAUSE_BREAKPOINT 0) mprv_sys).
Proof.
  split; [apply wf_demo_fill, mprv_base_wf|]. split; [exact mprv_sys_coherent|].
  intros [C1 _ _]. apply (tlb_get_Forall _ _ 0) in C1; [|vm_compute; reflexivity|lia].
  destruct C1 as [Hi|(pa & i & pr & _ & Hw & Hg & _)]; [vm_compute in Hi; discriminate|].
  vm_compute in Hw. injection Hw as <-. vm_compute in Hg. discriminate.
Qed.
