(* ===== verification/Alu.v ===== *)
(** * Integer arithmetic of the interpreter ([dromajo_template.h], [riscv_cpu.cpp])

    Division and high multiplication at width [XLEN], the field extraction of
    the compressed decoder, the control-flow hint, and the value computed by
    each register-register and register-immediate group ([None]: illegal). *)

From S2P Require Import Prelude Riscv CpuState.
From stdpp Require Import base list.
From Stdlib Require Import ZArith Lia Bool.
Local Open Scope Z_scope.
Local Open Scope bits_scope.

(** ** Division: [divXLEN], [divuXLEN], [remXLEN], [remuXLEN]; C division truncates. *)

Definition div_x (xlen a b : Z) : Z :=
  if b =? 0 then -1
  else if (a =? wraps xlen (1 <<' (xlen - 1))) && (b =? -1) then a
  else Z.quot a b.

Definition divu_x (xlen a b : Z) : Z := if b =? 0 then wrapu xlen (-1) else a / b.

Definition rem_x (xlen a b : Z) : Z :=
  if b =? 0 then a
  else if (a =? wraps xlen (1 <<' (xlen - 1))) && (b =? -1) then 0
  else Z.rem a b.

Definition remu_x (xlen a b : Z) : Z := if b =? 0 then a else a mod b.

(** ** High multiplication *)

(** With a 128-bit integer type: [((int128_t)a * (int128_t)b) >> 64]. *)
Definition mulh64 (a b : Z) : Z := u64 (wraps 128 (a * b) >>' 64).
Definition mulhsu64 (a b : Z) : Z := u64 (wraps 128 (a * b) >>' 64).
Definition mulhu64 (a b : Z) : Z := u64 (wraps 128 (a * b) >>' 64).

(** Without one: the schoolbook product of 32-bit halves. *)
Definition mulhu_halves (a b : Z) : Z :=
  let a0 := u32 a in
  let a1 := u32 (a >>' 32) in
  let b0 := u32 b in
  let b1 := u32 (b >>' 32) in
  let r00 := u64 (a0 * b0) in
  let r01 := u64 (a0 * b1) in
  let r10 := u64 (a1 * b0) in
  let r11 := u64 (a1 * b1) in
  let c := u64 ((r00 >>' 32) + u32 r01 + u32 r10) in
  let c := u64 ((c >>' 32) + (r01 >>' 32) + (r10 >>' 32) + u32 r11) in
  let r2 := u32 c in
  let r3 := u32 ((c >>' 32) + (r11 >>' 32)) in
  u64 (r3 <<' 32) |' r2.

Definition mulh_halves (a b : Z) : Z :=
  let r1 := mulhu_halves (u64 a) (u64 b) in
  let r1 := if a <? 0 then u64 (r1 - a) else r1 in
  if b <? 0 then u64 (r1 - b) else r1.

Definition mulhsu_halves (a b : Z) : Z :=
  let r1 := mulhu_halves (u64 a) b in
  if a <? 0 then u64 (r1 - a) else r1.

(** ** Decoding helpers *)

Definition sext (val n : Z) : Z := s32 (val <<' (32 - n)) >>' (32 - n).

(** Every call passes constants with [dst_pos <= dst_pos_max], the assertion of the C function. *)
Definition get_field1 (val src_pos dst_pos dst_pos_max : Z) : Z :=
  let mask := ((1 <<' (dst_pos_max - dst_pos + 1)) - 1) <<' dst_pos in
  if src_pos <=? dst_pos then u32 (val <<' (dst_pos - src_pos)) &' mask
  else (val >>' (src_pos - dst_pos)) &' mask.

Definition ctf_compute_hint (rd rs1 : Z) : Z :=
  let rd_link := (rd =? 1) || (rd =? 5) in
  let rs1_link := (rs1 =? 1) || (rs1 =? 5) in
  let k := b2z rd_link * 2 + b2z rs1_link + ctf_taken_jalr in
  if (k =? ctf_taken_jalr_pop_push) && (rs1 =? rd) then ctf_taken_jalr_push else k.

(** ** Values of the integer groups; [val] and [val2] are register contents *)

(** [case 0x13]; [imm] is the sign-extended I immediate. *)
Definition op_imm (funct3 val imm : Z) : option Z :=
  if funct3 =? 0 then Some (u64 (val + imm))
  else if funct3 =? 1 then
    if negb (imm &' Z.lnot 63 =? 0) then None else Some (u64 (val <<' (imm &' 63)))
  else if funct3 =? 2 then Some (b2z (s64 val <? imm))
  else if funct3 =? 3 then Some (b2z (val <? u64 imm))
  else if funct3 =? 4 then Some (val ^' u64 imm)
  else if funct3 =? 5 then
    if negb (imm &' Z.lnot (63 |' 0x400) =? 0) then None
    else if tst imm 0x400 then Some (u64 (s64 val >>' (imm &' 63)))
    else Some (val >>' (imm &' 63))
  else if funct3 =? 6 then Some (val |' u64 imm)
  else Some (val &' u64 imm).

(** [case 0x1b]. *)
Definition op_imm_32 (funct3 val imm : Z) : option Z :=
  if funct3 =? 0 then Some (u64 (s32 (val + imm)))
  else if funct3 =? 1 then
    if negb (imm &' Z.lnot 31 =? 0) then None else Some (u64 (s32 (val <<' (imm &' 31))))
  else if funct3 =? 5 then
    if negb (imm &' Z.lnot (31 |' 0x400) =? 0) then None
    else if tst imm 0x400 then Some (u64 (s32 val >>' (imm &' 31)))
    else Some (u64 (s32 (u32 val >>' (imm &' 31))))
  else None.

(** [case 0x33], [imm == 1]. *)
Definition op_muldiv (funct3 val val2 : Z) : Z :=
  if funct3 =? 0 then u64 (s64 val * s64 val2)
  else if funct3 =? 1 then mulh64 (s64 val) (s64 val2)
  else if funct3 =? 2 then mulhsu64 (s64 val) val2
  else if funct3 =? 3 then mulhu64 val val2
  else if funct3 =? 4 then u64 (div_x 64 (s64 val) (s64 val2))
  else if funct3 =? 5 then divu_x 64 val val2
  else if funct3 =? 6 then u64 (rem_x 64 (s64 val) (s64 val2))
  else remu_x 64 val val2.

(** [funct3] with bit 30 of the instruction as bit 3. *)
Definition op_alu (funct3 val val2 : Z) : option Z :=
  if funct3 =? 0 then Some (u64 (val + val2))
  else if funct3 =? 8 then Some (u64 (val - val2))
  else if funct3 =? 1 then Some (u64 (val <<' (val2 &' 63)))
  else if funct3 =? 2 then Some (b2z (s64 val <? s64 val2))
  else if funct3 =? 3 then Some (b2z (val <? val2))
  else if funct3 =? 4 then Some (val ^' val2)
  else if funct3 =? 5 then Some (val >>' (val2 &' 63))
  else if funct3 =? 13 then Some (u64 (s64 val >>' (val2 &' 63)))
  else if funct3 =? 6 then Some (val |' val2)
  else if funct3 =? 7 then Some (val &' val2)
  else None.

Definition op (insn val val2 : Z) : option Z :=
  let imm := insn >>' 25 in
  if imm =? 1 then Some (op_muldiv ((insn >>' 12) &' 7) val val2)
  else if tst imm (Z.lnot 0x20) then None
  else op_alu (((insn >>' 12) &' 7) |' ((insn >>' (30 - 3)) &' (1 <<' 3))) val val2.

(** [case 0x3b]. *)
Definition op_32 (insn val val2 : Z) : option Z :=
  let imm := insn >>' 25 in
  if imm =? 1 then
    let funct3 := (insn >>' 12) &' 7 in
    if funct3 =? 0 then Some (u64 (s32 (s32 val * s32 val2)))
    else if funct3 =? 4 then Some (u64 (div_x 32 (s32 val) (s32 val2)))
    else if funct3 =? 5 then Some (u64 (s32 (divu_x 32 (u32 val) (u32 val2))))
    else if funct3 =? 6 then Some (u64 (rem_x 32 (s32 val) (s32 val2)))
    else if funct3 =? 7 then Some (u64 (s32 (remu_x 32 (u32 val) (u32 val2))))
    else None
  else if tst imm (Z.lnot 0x20) then None
  else
    let funct3 := ((insn >>' 12) &' 7) |' ((insn >>' (30 - 3)) &' (1 <<' 3)) in
    if funct3 =? 0 then Some (u64 (s32 (val + val2)))
    else if funct3 =? 8 then Some (u64 (s32 (val - val2)))
    else if funct3 =? 1 then Some (u64 (s32 (u32 val <<' (val2 &' 31))))
    else if funct3 =? 5 then Some (u64 (s32 (u32 val >>' (val2 &' 31))))
    else if funct3 =? 13 then Some (u64 (s32 val >>' (val2 &' 31)))
    else None.

(** [case 0x63]: the condition before [cond ^= funct3 & 1]. *)
Definition branch_cond (funct3 val val2 : Z) : option bool :=
  let k := funct3 >>' 1 in
  if k =? 0 then Some (val =? val2)
  else if k =? 2 then Some (s64 val <? s64 val2)
  else if k =? 3 then Some (val <? val2)
  else None.

(** The arithmetic of an AMO at width [n] bits: [val] is the sign-extended memory content, [val2]
    the register operand; the result is what is stored. *)
Definition amo_op (n funct5 val val2 : Z) : option Z :=
  if funct5 =? 1 then Some val2
  else if funct5 =? 0 then Some (u64 (wraps n (val + val2)))
  else if funct5 =? 4 then Some (u64 (wraps n (val ^' val2)))
  else if funct5 =? 0xc then Some (u64 (wraps n (val &' val2)))
  else if funct5 =? 0x8 then Some (u64 (wraps n (val |' val2)))
  else if funct5 =? 0x10 then Some (if wraps n val <? wraps n val2 then u64 (wraps n val) else val2)
  else if funct5 =? 0x14 then Some (if wraps n val2 <? wraps n val then u64 (wraps n val) else val2)
  else if funct5 =? 0x18 then Some (if wrapu n val <? wrapu n val2 then u64 (wraps n val) else val2)
  else if funct5 =? 0x1c then Some (if wrapu n val2 <? wrapu n val then u64 (wraps n val) else val2)
  else None.

(** ** Immediates *)

Definition imm_i (insn : Z) : Z := s32 insn >>' 20.

Definition imm_s (rd insn : Z) : Z :=
  let imm := rd |' ((insn >>' (25 - 5)) &' 0xfe0) in s32 (imm <<' 20) >>' 20.

Definition imm_j (insn : Z) : Z :=
  let imm := ((insn >>' (31 - 20)) &' (1 <<' 20)) |' ((insn >>' (21 - 1)) &' 0x7fe)
             |' ((insn >>' (20 - 11)) &' (1 <<' 11)) |' (insn &' 0xff000) in
  s32 (imm <<' 11) >>' 11.

Definition imm_b (insn : Z) : Z :=
  let imm := ((insn >>' (31 - 12)) &' (1 <<' 12)) |' ((insn >>' (25 - 5)) &' 0x7e0)
             |' ((insn >>' (8 - 1)) &' 0x1e) |' (u32 (insn <<' (11 - 7)) &' (1 <<' 11)) in
  s32 (imm <<' 19) >>' 19.

(** The immediates of the compressed formats. *)
Definition c_imm6 (insn : Z) : Z := sext (get_field1 insn 12 5 5 |' get_field1 insn 2 0 4) 6.
Definition c_imm_d (insn : Z) : Z := get_field1 insn 10 3 5 |' get_field1 insn 5 6 7.
Definition c_imm_w (insn : Z) : Z :=
  get_field1 insn 10 3 5 |' get_field1 insn 6 2 2 |' get_field1 insn 5 6 6.
Definition c_imm_j (insn : Z) : Z :=
  sext (get_field1 insn 12 11 11 |' get_field1 insn 11 4 4 |' get_field1 insn 9 8 9
        |' get_field1 insn 8 10 10 |' get_field1 insn 7 6 6 |' get_field1 insn 6 7 7
        |' get_field1 insn 3 1 3 |' get_field1 insn 2 5 5) 12.
Definition c_imm_b (insn : Z) : Z :=
  sext (get_field1 insn 12 8 8 |' get_field1 insn 10 3 4 |' get_field1 insn 5 6 7
        |' get_field1 insn 3 1 2 |' get_field1 insn 2 5 5) 9.

(** ** High multiplication *)

Lemma wraps_shiftr n k x : 0 < k < n -> wraps n x >>' k = wraps (n - k) (x >>' k).
Proof.
  intros Hk. apply Z.bits_inj'. intros i Hi.
  rewrite Z.shiftr_spec, !wraps_spec, Z.shiftr_spec by lia. f_equal. lia.
Qed.

(** The 128-bit product, shifted and truncated, is the high half of the exact product. *)
Lemma mulh_exact a b : u64 (wraps 128 (a * b) >>' 64) = u64 (a * b / 2 ^ 64).
Proof.
  rewrite wraps_shiftr, Z.shiftr_div_pow2 by lia. unfold u64. change (128 - 64) with 64. apply wrapu_wraps.
Qed.

Lemma halves32 a : in_u 64 a -> a = 2 ^ 32 * u32 (a >>' 32) + u32 a /\ in_u 32 (u32 (a >>' 32)) /\ in_u 32 (u32 a).
Proof.
  intros Ha. split; [|split; apply in_u_u32]. rewrite Z.shiftr_div_pow2 by lia. unfold u32, wrapu, in_u in *.
  rewrite (Z.mod_small (a / 2 ^ 32)); [apply Z.div_mod; lia|].
  split; [apply Z.div_pos; lia|apply Z.div_lt_upper_bound; lia].
Qed.

(** The column sums of the schoolbook product, for partial products [p00], [p01], [p10], [p11]. *)
Lemma mulhu_columns p00 p01 p10 p11 :
  0 <= p00 <= 4294967295 * 4294967295 -> 0 <= p01 <= 4294967295 * 4294967295 ->
  0 <= p10 <= 4294967295 * 4294967295 -> 0 <= p11 <= 4294967295 * 4294967295 ->
  18446744073709551616 * p11 + 4294967296 * (p01 + p10) + p00 < 2 ^ 128 ->
  let c1 := u64 ((u64 p00 >>' 32) + u32 (u64 p01) + u32 (u64 p10)) in
  let c2 := u64 ((c1 >>' 32) + (u64 p01 >>' 32) + (u64 p10 >>' 32) + u32 (u64 p11)) in
  u64 (u32 ((c2 >>' 32) + (u64 p11 >>' 32)) <<' 32) |' u32 c2 =
  (18446744073709551616 * p11 + 4294967296 * (p01 + p10) + p00) / 2 ^ 64.
Proof.
  intros H00 H01 H10 H11 Hlt c1 c2.
  assert (forall x, exists h l, x = 4294967296 * h + l /\ 0 <= l < 4294967296 /\ x / 4294967296 = h /\ x mod 4294967296 = l) as Hs.
  { intros x. exists (x / 4294967296), (x mod 4294967296). pose proof (Z.div_mod x 4294967296). pose proof (Z.mod_pos_bound x 4294967296). lia. }
  assert (forall x, u32 x = x mod 4294967296) as Hu by reflexivity.
  subst c1 c2. rewrite !(u64_id p00), !(u64_id p01), !(u64_id p10), !(u64_id p11) by (split; lia).
  rewrite !Hu, !(Z.shiftr_div_pow2 _ 32) by lia. change (2 ^ 32) with 4294967296.
  destruct (Hs p00) as (h00 & l00 & E00 & B00 & -> & _), (Hs p01) as (h01 & l01 & E01 & B01 & -> & ->),
    (Hs p10) as (h10 & l10 & E10 & B10 & -> & ->), (Hs p11) as (h11 & l11 & E11 & B11 & -> & ->).
  rewrite (u64_id (h00 + l01 + l10)) by (split; lia).
  destruct (Hs (h00 + l01 + l10)) as (k1 & m1 & E1 & B1 & -> & _).
  rewrite (u64_id (k1 + h01 + h10 + l11)) by (split; lia).
  destruct (Hs (k1 + h01 + h10 + l11)) as (k2 & m2 & E2 & B2 & -> & ->).
  change (2 ^ 128) with 340282366920938463463374607431768211456 in Hlt.
  rewrite (Z.mod_small (k2 + h11)) by lia.
  rewrite u64_id by (rewrite Z.shiftl_mul_pow2 by lia; split; lia).
  rewrite lor_shiftl_low by lia.
  apply Z.div_unique with (r := 4294967296 * m1 + l00); change (2 ^ 64) with 18446744073709551616; [left|]; lia.
Qed.

(** The portable high multiplication (four 32-bit partial products with carries) computes the same value
    as the 128-bit one: the high 64 bits of the unsigned product. *)
Theorem mulhu_halves_correct a b : in_u 64 a -> in_u 64 b ->
  mulhu_halves a b = mulhu64 a b /\ mulhu64 a b = a * b / 2 ^ 64.
Proof.
  intros Ha Hb. assert (mulhu64 a b = a * b / 2 ^ 64) as E.
  { unfold mulhu64. rewrite mulh_exact. apply u64_id. unfold in_u in *.
    split; [apply Z.div_pos; nia|apply Z.div_lt_upper_bound; nia]. }
  split; [|exact E]. rewrite E. destruct (halves32 a Ha) as (Ea & Ha1 & Ha0), (halves32 b Hb) as (Eb & Hb1 & Hb0).
  unfold mulhu_halves. cbv zeta. set (a1 := u32 (a >>' 32)) in *. set (a0 := u32 a) in *.
  set (b1 := u32 (b >>' 32)) in *. set (b0 := u32 b) in *. clearbody a1 a0 b1 b0. rewrite Ea, Eb. clear Ea Eb E Ha Hb a b.
  unfold in_u in *. change (2 ^ 32) with 4294967296 in *.
  assert (forall x y, 0 <= x < 4294967296 -> 0 <= y < 4294967296 -> 0 <= x * y <= 4294967295 * 4294967295) as Hm by (intros; nia).
  pose proof (Hm a0 b0 Ha0 Hb0). pose proof (Hm a0 b1 Ha0 Hb1). pose proof (Hm a1 b0 Ha1 Hb0). pose proof (Hm a1 b1 Ha1 Hb1).
  replace ((4294967296 * a1 + a0) * (4294967296 * b1 + b0))
    with (18446744073709551616 * (a1 * b1) + 4294967296 * (a0 * b1 + a1 * b0) + a0 * b0) by ring.
  apply mulhu_columns; lia.
Qed.

Lemma mulhu_halves_correct_witness :
  mulhu_halves 0xffffffffffffffff 0xfffffffffffffffe = mulhu64 0xffffffffffffffff 0xfffffffffffffffe /\
  mulhu64 0xffffffffffffffff 0xfffffffffffffffe = 0xfffffffffffffffd.
Proof.
  destruct (mulhu_halves_correct 0xffffffffffffffff 0xfffffffffffffffe) as [H1 H2];
    [split; [discriminate|reflexivity]..|]. split; [exact H1|]. rewrite H2. reflexivity.
Defined.

(** The portable signed high multiplications are wrong: they subtract the negative operand itself instead
    of the other operand, and differ from the 128-bit versions already on -1 and 2. *)
Theorem mulh_fallback_wrong :
  mulh64 (-1) 2 = u64 (-1) /\ mulh_halves (-1) 2 = 2 /\ mulhsu64 (-1) 2 = u64 (-1) /\ mulhsu_halves (-1) 2 = 2.
Proof. vm_compute. auto. Qed.

(** ** Division *)

Definition in_s (w x : Z) : Prop := - 2 ^ (w - 1) <= x < 2 ^ (w - 1).

Lemma min_signed w : 1 < w -> wraps w (1 <<' (w - 1)) = - 2 ^ (w - 1).
Proof.
  intros Hw. rewrite Z.shiftl_1_l. assert (0 < 2 ^ (w - 1)) by (apply Z.pow_pos_nonneg; lia).
  assert (2 ^ w = 2 * 2 ^ (w - 1)) as E by (rewrite <- Z.pow_succ_r by lia; f_equal; lia).
  rewrite wraps_cases by lia. destruct (Z.ltb_spec (2 ^ (w - 1)) (2 ^ (w - 1))); lia.
Qed.

Lemma quot_range m a b : 0 < m -> - m <= a < m -> b <> 0 -> ~ (a = - m /\ b = -1) -> - m <= Z.quot a b < m.
Proof.
  intros Hm Ha Hb Hno. destruct (Z.eq_dec b 1) as [->|H1]; [rewrite Z.quot_1_r; lia|].
  destruct (Z.eq_dec b (-1)) as [->|H2].
  - change (-1) with (- (1)). rewrite Z.quot_opp_r, Z.quot_1_r by lia. lia.
  - pose proof (Z.quot_abs a b Hb) as E. pose proof (Z.mul_quot_le (Z.abs a) (Z.abs b) ltac:(lia) ltac:(lia)). rewrite E in *. nia.
Qed.

(** Signed division follows the ISA at both widths: quotient and remainder always fit the width and
    satisfy [a = b * q + r] modulo [2^w], division by zero gives -1 and the dividend, the overflow
    case gives the dividend and 0, and otherwise the remainder is smaller than the divisor and has
    the sign of the dividend. *)
Theorem div_rem_spec w a b : 1 < w -> in_s w a -> in_s w b ->
  let q := div_x w a b in let r := rem_x w a b in
  in_s w q /\ in_s w r /\ wrapu w (b * q + r) = wrapu w a /\
  (b = 0 -> q = -1 /\ r = a) /\
  (a = - 2 ^ (w - 1) -> b = -1 -> q = a /\ r = 0) /\
  (b <> 0 -> ~ (a = - 2 ^ (w - 1) /\ b = -1) ->
     a = b * q + r /\ Z.abs r < Z.abs b /\ (r = 0 \/ Z.sgn r = Z.sgn a)).
Proof.
  intros Hw Ha Hb. unfold div_x, rem_x. cbv zeta. rewrite min_signed by lia. unfold in_s in *.
  assert (0 < 2 ^ (w - 1)) as Hp by (apply Z.pow_pos_nonneg; lia).
  assert (2 ^ w = 2 * 2 ^ (w - 1)) as Ew by (rewrite <- Z.pow_succ_r by lia; f_equal; lia).
  destruct (Z.eqb_spec b 0) as [->|Hb0].
  { repeat split; try lia; try congruence. }
  destruct ((a =? - 2 ^ (w - 1)) && (b =? -1)) eqn:Ov.
  { apply andb_true_iff in Ov as [->%Z.eqb_eq ->%Z.eqb_eq]. repeat split; try lia. unfold wrapu.
    replace (-1 * - 2 ^ (w - 1) + 0) with (- 2 ^ (w - 1) + 1 * 2 ^ w) by lia. apply Z_mod_plus_full. }
  assert (~ (a = - 2 ^ (w - 1) /\ b = -1)) as Hno.
  { intros [H1 H2]. rewrite <- Z.eqb_eq in H1, H2. rewrite H1, H2 in Ov. discriminate. }
  pose proof (Z.quot_rem a b Hb0) as Eq. pose proof (Z.rem_bound_abs a b Hb0) as Hr.
  pose proof (quot_range _ a b Hp Ha Hb0 Hno) as Hq.
  assert (Z.rem a b = 0 \/ Z.sgn (Z.rem a b) = Z.sgn a) as Hs.
  { destruct (Z.eq_dec (Z.rem a b) 0); [left; auto|right; apply Z.rem_sign_nz; auto]. }
  repeat split; try lia; try tauto; try (intros; tauto). f_equal. lia.
Qed.

Lemma div_rem_spec_witness :
  div_x 64 (-7) 2 = -3 /\ rem_x 64 (-7) 2 = -1 /\ -7 = 2 * div_x 64 (-7) 2 + rem_x 64 (-7) 2.
Proof.
  split; [reflexivity|]. split; [reflexivity|].
  apply (div_rem_spec 64 (-7) 2 ltac:(lia) ltac:(split; [discriminate|reflexivity]) ltac:(split; [discriminate|reflexivity]));
    [discriminate|]. intros [_ H]. discriminate H.
Defined.
