(* ===== verification/Exec.v ===== *)
(** * Instruction execution ([dromajo_template.h], [dromajo_fp_template.h])

    The body of the interpreter's [switch (opcode)], one definition per group
    of opcodes.  An instruction runs in the monad of CPU operations and ends in
    an [outcome], the C code's way of leaving the [switch].  The floating-point
    arithmetic of [softfp.cpp] is an interface. *)

From S2P Require Import Prelude Riscv Cutils Iomem Hostmem CpuState Csr Trap Mmu Alu.
From stdpp Require Import base list.
From Stdlib Require Import ZArith Lia Bool.
Local Open Scope Z_scope.
Local Open Scope bits_scope.

(** ** The floating-point unit ([softfp.h]): each operation takes the flags and returns the result
    with the new flags. *)

Inductive fsize := F32 | F64.

#[global] Instance fsize_eq_dec : EqDecision fsize.
Proof. solve_decision. Defined.

Class SoftFp := {
  add_sf : fsize -> Z -> Z -> Z -> Z -> Z * Z;
  sub_sf : fsize -> Z -> Z -> Z -> Z -> Z * Z;
  mul_sf : fsize -> Z -> Z -> Z -> Z -> Z * Z;
  div_sf : fsize -> Z -> Z -> Z -> Z -> Z * Z;
  sqrt_sf : fsize -> Z -> Z -> Z -> Z * Z;
  fma_sf : fsize -> Z -> Z -> Z -> Z -> Z -> Z * Z;
  min_sf : fsize -> Z -> Z -> Z -> Z * Z;
  max_sf : fsize -> Z -> Z -> Z -> Z * Z;
  eq_quiet_sf : fsize -> Z -> Z -> Z -> Z * Z;
  le_sf : fsize -> Z -> Z -> Z -> Z * Z;
  lt_sf : fsize -> Z -> Z -> Z -> Z * Z;
  fclass_sf : fsize -> Z -> Z;
  cvt_sf_i32 : fsize -> Z -> Z -> Z -> Z * Z;
  cvt_sf_u32 : fsize -> Z -> Z -> Z -> Z * Z;
  cvt_sf_i64 : fsize -> Z -> Z -> Z -> Z * Z;
  cvt_sf_u64 : fsize -> Z -> Z -> Z -> Z * Z;
  cvt_i32_sf : fsize -> Z -> Z -> Z -> Z * Z;
  cvt_u32_sf : fsize -> Z -> Z -> Z -> Z * Z;
  cvt_i64_sf : fsize -> Z -> Z -> Z -> Z * Z;
  cvt_u64_sf : fsize -> Z -> Z -> Z -> Z * Z;
  cvt_sf32_sf64 : Z -> Z -> Z * Z;
  cvt_sf64_sf32 : Z -> Z -> Z -> Z * Z }.

Definition F32_HIGH : Z := u64 (u64 (-1) <<' 32).
Definition F64_HIGH : Z := 0.
Definition F_HIGH (sz : fsize) : Z := match sz with F32 => F32_HIGH | F64 => F64_HIGH end.

(** [FSIGN_MASK32] is the [int] [1 << 31], sign-extended in a 64-bit expression. *)
Definition FSIGN_MASK (sz : fsize) : Z :=
  match sz with F32 => u64 (s32 (1 <<' 31)) | F64 => 1 <<' 63 end.

Definition f_qnan32 : Z := 0x7fc00000.
Definition f_unbox (sz : fsize) (r : Z) : Z :=
  match sz with
  | F32 => if negb (r &' F32_HIGH =? F32_HIGH) then f_qnan32 else r
  | F64 => r
  end.

(** The conversion to the parameter type [sfloat32]/[sfloat64]. *)
Definition to_sf (sz : fsize) (r : Z) : Z := match sz with F32 => u32 r | F64 => u64 r end.

Definition chkfp32 (a : Z) : Z :=
  if negb (a &' 0xFFFFFFFF00000000 =? 0xFFFFFFFF00000000) then u32 (u32 (-1) <<' 22) else u32 a.

(** ** Outcomes *)

(** The locals of [riscv_cpu_interp64]. *)
Record Locals := mkLocals {
  code_ptr : Z;
  code_end : Z;
  code_to_pc_addend : Z;
  insn_counter_addend : Z;
  insn_counter_start : Z;
  n_cycles : Z;
  insn_executed : Z }.

Definition GET_PC (L : Locals) : Z := u64 (code_ptr L + code_to_pc_addend L).
Definition GET_INSN_COUNTER (L : Locals) : Z := u64 (insn_counter_addend L - n_cycles L).

(** [Next n]: [code_ptr += n; break].  [JumpInsn kind]: [JUMP_INSN(kind)].  The others are the
    [goto]s. *)
Inductive outcome :=
| Next (n : Z) | JumpInsn (kind : Z) | IllegalInsn | MmuException | ExceptionRaised | DoneInterp.

Section Exec.
Context {D : Type} `{DeviceOps D} `{MachineHooks} `{SoftFp}.

Definition wreg (rd v : Z) : M D unit := modify_cpu (write_reg rd (u64 v)).
Definition wreg_nz (rd v : Z) : M D unit := if rd =? 0 then mret tt else wreg rd v.
Definition wfreg (rd v : Z) : M D unit := modify_cpu (write_fp_reg rd v).

Definition illegal : M D outcome := mret IllegalInsn.

(** [if (target_read_uN(s, &rval, addr)) goto mmu_exception; ...]. *)
Definition load (w : width) (addr : Z) (k : Z -> M D outcome) : M D outcome :=
  r ← target_read w addr;
  match r with None => mret MmuException | Some v => k v end.

Definition store (w : width) (addr val : Z) (k : M D outcome) : M D outcome :=
  r ← target_write w addr val;
  match r with None => mret MmuException | Some _ => k end.

(** [s->pending_exception = cause; s->pending_tval = 0; goto exception]. *)
Definition exception_now (cause : Z) : M D outcome :=
  _ ← modify_cpu (fun c => c <| pending_exception := cause |> <| pending_tval := 0 |>);
  mret ExceptionRaised.

(** [s->pc = target; JUMP_INSN(kind)]. *)
Definition jump_to (target kind : Z) : M D outcome :=
  _ ← modify_cpu (fun c => c <| pc := target |>);
  mret (JumpInsn kind).

(** ** Compressed instructions *)

Definition exec_c0 (insn : Z) : M D outcome :=
  c ← gets cpu;
  let funct3 := (insn >>' 13) &' 7 in
  let rd := ((insn >>' 2) &' 7) |' 8 in
  let rs1 := ((insn >>' 7) &' 7) |' 8 in
  let ea imm := u64 (read_reg c rs1 + imm) in
  if funct3 =? 0 then (* c.addi4spn *)
    let imm := get_field1 insn 11 4 5 |' get_field1 insn 7 6 9 |' get_field1 insn 6 2 2
               |' get_field1 insn 5 3 3 in
    if imm =? 0 then illegal
    else _ ← wreg rd (read_reg c 2 + imm); mret (Next 2)
  else if funct3 =? 1 then (* c.fld *)
    if fs c =? 0 then illegal
    else load W64 (ea (c_imm_d insn)) (fun v => _ ← wfreg rd (v |' F64_HIGH); mret (Next 2))
  else if funct3 =? 2 then (* c.lw *)
    load W32 (ea (c_imm_w insn)) (fun v => _ ← wreg rd (s32 v); mret (Next 2))
  else if funct3 =? 3 then (* c.ld *)
    load W64 (ea (c_imm_d insn)) (fun v => _ ← wreg rd (s64 v); mret (Next 2))
  else if funct3 =? 5 then (* c.fsd *)
    if fs c =? 0 then illegal
    else store W64 (ea (c_imm_d insn)) (read_fp_reg c rd) (mret (Next 2))
  else if funct3 =? 6 then (* c.sw *)
    store W32 (ea (c_imm_w insn)) (read_reg c rd) (mret (Next 2))
  else if funct3 =? 7 then (* c.sd *)
    store W64 (ea (c_imm_d insn)) (read_reg c rd) (mret (Next 2))
  else illegal.

(** [case 4] of quadrant 1: the value written to [rd], [None] for an illegal encoding. *)
Definition c1_alu (c : RISCVCPUState) (insn : Z) : option Z :=
  let funct3 := (insn >>' 10) &' 3 in
  let rd := ((insn >>' 7) &' 7) |' 8 in
  let v := read_reg c rd in
  if (funct3 =? 0) || (funct3 =? 1) then
    let imm := get_field1 insn 12 5 5 |' get_field1 insn 2 0 4 in
    Some (if funct3 =? 0 then v >>' imm else s64 v >>' imm)
  else if funct3 =? 2 then Some (v &' u64 (c_imm6 insn))
  else
    let v2 := read_reg c (((insn >>' 2) &' 7) |' 8) in
    let funct3 := ((insn >>' 5) &' 3) |' ((insn >>' (12 - 2)) &' 4) in
    if funct3 =? 0 then Some (v - v2)
    else if funct3 =? 1 then Some (v ^' v2)
    else if funct3 =? 2 then Some (v |' v2)
    else if funct3 =? 3 then Some (v &' v2)
    else if funct3 =? 4 then Some (s32 (v - v2))
    else if funct3 =? 5 then Some (s32 (v + v2))
    else None.

Definition exec_c1 (pc0 insn : Z) : M D outcome :=
  c ← gets cpu;
  let funct3 := (insn >>' 13) &' 7 in
  let rd := (insn >>' 7) &' 0x1f in
  let rs1 := ((insn >>' 7) &' 7) |' 8 in
  if funct3 =? 0 then (* c.addi/c.nop *)
    _ ← wreg_nz rd (read_reg c rd + c_imm6 insn); mret (Next 2)
  else if funct3 =? 1 then (* c.addiw *)
    if rd =? 0 then illegal
    else _ ← wreg rd (s32 (read_reg c rd + c_imm6 insn)); mret (Next 2)
  else if funct3 =? 2 then (* c.li *)
    _ ← wreg_nz rd (c_imm6 insn); mret (Next 2)
  else if funct3 =? 3 then
    if rd =? 2 then (* c.addi16sp *)
      let imm := sext (get_field1 insn 12 9 9 |' get_field1 insn 6 4 4 |' get_field1 insn 5 6 6
                       |' get_field1 insn 3 7 8 |' get_field1 insn 2 5 5) 10 in
      if imm =? 0 then illegal
      else _ ← wreg 2 (read_reg c 2 + imm); mret (Next 2)
    else if negb (rd =? 0) then (* c.lui *)
      let imm := sext (get_field1 insn 12 17 17 |' get_field1 insn 2 12 16) 18 in
      if imm =? 0 then illegal
      else _ ← wreg rd imm; mret (Next 2)
    else mret (Next 2)
  else if funct3 =? 4 then
    match c1_alu c insn with
    | Some v => _ ← wreg rs1 v; mret (Next 2)
    | None => illegal
    end
  else if funct3 =? 5 then (* c.j *)
    jump_to (u64 (pc0 + c_imm_j insn)) ctf_taken_jump
  else if funct3 =? 6 then (* c.beqz *)
    if read_reg c rs1 =? 0 then jump_to (u64 (pc0 + c_imm_b insn)) ctf_taken_branch
    else mret (Next 2)
  else (* c.bnez *)
    if negb (read_reg c rs1 =? 0) then jump_to (u64 (pc0 + c_imm_b insn)) ctf_taken_branch
    else mret (Next 2).

(** [case 4] of quadrant 2. *)
Definition exec_c2_misc (pc0 insn : Z) : M D outcome :=
  c ← gets cpu;
  let rd := (insn >>' 7) &' 0x1f in
  let rs2 := (insn >>' 2) &' 0x1f in
  if (insn >>' 12) &' 1 =? 0 then
    if rs2 =? 0 then (* c.jr *)
      if rd =? 0 then illegal
      else jump_to (read_reg c rd &' u64 (-2)) (ctf_compute_hint 0 rd)
    else (* c.mv *)
      _ ← wreg_nz rd (read_reg c rs2); mret (Next 2)
  else if rs2 =? 0 then
    if rd =? 0 then exception_now CAUSE_BREAKPOINT (* c.ebreak *)
    else (* c.jalr *)
      let val := u64 (pc0 + 2) in
      _ ← modify_cpu (fun c => c <| pc := read_reg c rd &' u64 (-2) |>);
      _ ← wreg 1 val;
      mret (JumpInsn (ctf_compute_hint 1 rd))
  else (* c.add *)
    _ ← wreg_nz rd (read_reg c rd + read_reg c rs2); mret (Next 2).

Definition exec_c2 (pc0 insn : Z) : M D outcome :=
  c ← gets cpu;
  let funct3 := (insn >>' 13) &' 7 in
  let rd := (insn >>' 7) &' 0x1f in
  let rs2 := (insn >>' 2) &' 0x1f in
  let ea imm := u64 (read_reg c 2 + imm) in
  let imm_dsp := get_field1 insn 12 5 5 |' (rs2 &' (3 <<' 3)) |' get_field1 insn 2 6 8 in
  let imm_wsp := get_field1 insn 12 5 5 |' (rs2 &' (7 <<' 2)) |' get_field1 insn 2 6 7 in
  let imm_sdsp := get_field1 insn 10 3 5 |' get_field1 insn 7 6 8 in
  if funct3 =? 0 then (* c.slli *)
    _ ← wreg_nz rd (read_reg c rd <<' (get_field1 insn 12 5 5 |' rs2)); mret (Next 2)
  else if funct3 =? 1 then (* c.fldsp *)
    if fs c =? 0 then illegal
    else load W64 (ea imm_dsp) (fun v => _ ← wfreg rd (v |' F64_HIGH); mret (Next 2))
  else if funct3 =? 2 then (* c.lwsp *)
    if rd =? 0 then illegal
    else load W32 (ea imm_wsp) (fun v => _ ← wreg rd (s32 v); mret (Next 2))
  else if funct3 =? 3 then (* c.ldsp *)
    if rd =? 0 then illegal
    else load W64 (ea imm_dsp) (fun v => _ ← wreg rd (s64 v); mret (Next 2))
  else if funct3 =? 4 then exec_c2_misc pc0 insn
  else if funct3 =? 5 then (* c.fsdsp *)
    if fs c =? 0 then illegal
    else store W64 (ea imm_sdsp) (read_fp_reg c rs2) (mret (Next 2))
  else if funct3 =? 6 then (* c.swsp *)
    store W32 (ea (get_field1 insn 9 2 5 |' get_field1 insn 7 6 7)) (read_reg c rs2) (mret (Next 2))
  else (* c.sdsp *)
    store W64 (ea imm_sdsp) (read_reg c rs2) (mret (Next 2)).

(** ** Control flow *)

(** [!(s->misa & MCPUID_C) && (new_pc & 3) != 0]. *)
Definition misaligned_target (c : RISCVCPUState) (new_pc : Z) : bool :=
  negb (tst (misa c) MCPUID_C) && negb (new_pc &' 3 =? 0).

Definition exec_jal (pc0 rd insn : Z) : M D outcome :=
  c ← gets cpu;
  let new_pc := u64 (pc0 + imm_j insn) in
  if misaligned_target c new_pc then exception_now CAUSE_MISALIGNED_FETCH
  else _ ← wreg_nz rd (pc0 + 4); jump_to new_pc ctf_taken_jump.

Definition exec_jalr (pc0 rd rs1 insn : Z) : M D outcome :=
  c ← gets cpu;
  if negb ((insn >>' 12) &' 7 =? 0) then illegal
  else
    let val := u64 (pc0 + 4) in
    let new_pc := u64 (read_reg c rs1 + imm_i insn) &' u64 (-2) in
    if misaligned_target c new_pc then exception_now CAUSE_MISALIGNED_FETCH
    else
      _ ← modify_cpu (fun c => c <| pc := new_pc |>);
      _ ← wreg_nz rd val;
      mret (JumpInsn (ctf_compute_hint rd rs1)).

Definition exec_branch (pc0 rs1 rs2 insn : Z) : M D outcome :=
  c ← gets cpu;
  let funct3 := (insn >>' 12) &' 7 in
  match branch_cond funct3 (read_reg c rs1) (read_reg c rs2) with
  | None => illegal
  | Some cond =>
      if xorb cond (tst funct3 1) then
        let new_pc := u64 (pc0 + imm_b insn) in
        if misaligned_target c new_pc then exception_now CAUSE_MISALIGNED_FETCH
        else jump_to new_pc ctf_taken_branch
      else mret (Next 4)
  end.

(** ** Loads, stores *)

Definition exec_load (rd rs1 insn : Z) : M D outcome :=
  c ← gets cpu;
  let funct3 := (insn >>' 12) &' 7 in
  let addr := u64 (read_reg c rs1 + imm_i insn) in
  let k v := _ ← wreg_nz rd v; mret (Next 4) in
  if funct3 =? 0 then load W8 addr (fun v => k (s8 v))
  else if funct3 =? 1 then load W16 addr (fun v => k (s16 v))
  else if funct3 =? 2 then load W32 addr (fun v => k (s32 v))
  else if funct3 =? 4 then load W8 addr k
  else if funct3 =? 5 then load W16 addr k
  else if funct3 =? 3 then load W64 addr (fun v => k (s64 v))
  else if funct3 =? 6 then load W32 addr k
  else illegal.

Definition exec_store (rd rs1 rs2 insn : Z) : M D outcome :=
  c ← gets cpu;
  let funct3 := (insn >>' 12) &' 7 in
  let addr := u64 (read_reg c rs1 + imm_s rd insn) in
  let val := read_reg c rs2 in
  if funct3 =? 0 then store W8 addr val (mret (Next 4))
  else if funct3 =? 1 then store W16 addr val (mret (Next 4))
  else if funct3 =? 2 then store W32 addr val (mret (Next 4))
  else if funct3 =? 3 then store W64 addr val (mret (Next 4))
  else illegal.

(** [if (rd != 0) write_reg(rd, val); NEXT_INSN]. *)
Definition write_val (rd : Z) (v : option Z) : M D outcome :=
  match v with
  | None => illegal
  | Some v => _ ← wreg_nz rd v; mret (Next 4)
  end.

(** ** System instructions *)

(** Bring the counters up to date with the instructions retired so far. *)
Definition account (start : Z) : M D unit :=
  c ← gets cpu;
  if stop_the_counter c then mret tt
  else
    let delta := s32 (insn_counter c - start) in
    _ ← liftr (assert_c (0 <=? delta));
    modify_cpu (fun c => c <| mcycle := u64 (mcycle c + delta) |>
                           <| minstret := u64 (minstret c + delta) |>).

Definition csr_read_m (csr : Z) (will_write : bool) : M D (option Z) := fun s =>
  let '(ret, v, c) := csr_read (cpu s) csr will_write in
  Done ((if ret =? 0 then Some (default 0 v) else None), s <| cpu := c |>).

Definition csr_write_m (csr val : Z) : M D Z := fun s =>
  '(err, c) ← csr_write (cpu s) csr val; Done (err, s <| cpu := c |>).

(** [if (err > 0) {...}] and the end of the case. *)
Definition after_csr_write (L : Locals) (err : Z) : M D outcome :=
  if 0 <? err then
    _ ← modify_cpu (fun c => c <| pc := u64 (GET_PC L + 4) |>);
    mret (if err =? 2 then JumpInsn ctf_nop else DoneInterp)
  else mret (Next 4).

Definition exec_csrrw (L : Locals) (rd csr val : Z) : M D (outcome * Locals) :=
  _ ← modify_cpu (fun c => c <| insn_counter := GET_INSN_COUNTER L |>);
  _ ← account (insn_counter_start L);
  r ← csr_read_m csr true;
  match r with
  | None => mret (IllegalInsn, L)
  | Some val2 =>
      err ← csr_write_m csr val;
      if err =? -2 then mret (MmuException, L)
      else if err <? 0 then mret (IllegalInsn, L)
      else
        _ ← wreg_nz rd val2;
        c ← gets cpu;
        let L := mkLocals (code_ptr L) (code_end L) (code_to_pc_addend L)
                   (u64 (insn_counter c + n_cycles L)) (insn_counter_start L) (n_cycles L)
                   (insn_executed L) in
        o ← after_csr_write L err;
        mret (o, L)
  end.

Definition exec_csrrsc (L : Locals) (set : bool) (rd rs1 csr val : Z) : M D outcome :=
  _ ← modify_cpu (fun c => c <| insn_counter := GET_INSN_COUNTER L |>);
  _ ← account (insn_counter_start L);
  r ← csr_read_m csr (negb (rs1 =? 0));
  match r with
  | None => illegal
  | Some val2 =>
      err ← (if negb (rs1 =? 0)
             then csr_write_m csr (if set then val2 |' val else val2 &' not64 val)
             else mret 0);
      if err =? -2 then mret MmuException
      else if err <? 0 then illegal
      else
        _ ← wreg_nz rd val2;
        after_csr_write L err
  end.

(** [s->pc = GET_PC(); handle_xret(s); goto done_interp]. *)
Definition xret (L : Locals) (f : RISCVCPUState -> RISCVCPUState) : M D outcome :=
  _ ← modify_cpu (fun c => f (c <| pc := GET_PC L |>));
  mret DoneInterp.

(** [funct3 == 0]. *)
Definition exec_priv (L : Locals) (rs1 imm insn : Z) : M D outcome :=
  s ← gets id;
  let c := cpu s in
  let m := common s in
  if imm =? 0x000 then (* ecall *)
    if tst insn 0x000fff80 then illegal
    else
      _ ← modify_cpu (fun c => c <| pending_exception := CAUSE_USER_ECALL + priv c |> <| pending_tval := 0 |>);
      _ ← modify_cpu (fun c =>
            if negb (ignore_sbi_shutdown c) && (priv c =? PRV_M) && (read_reg c 0x17 =? SBI_SHUTDOWN)
            then c <| terminate_simulation := true |> else c);
      mret ExceptionRaised
  else if imm =? 0x001 then (* ebreak *)
    if tst insn 0x000fff80 then illegal else exception_now CAUSE_BREAKPOINT
  else if imm =? 0x102 then (* sret *)
    if tst insn 0x000fff80 then illegal
    else if priv c <? PRV_S then illegal
    else if (priv c =? PRV_S) && tst (mstatus c) MSTATUS_TSR then illegal
    else xret L handle_sret
  else if imm =? 0x302 then (* mret *)
    if tst insn 0x000fff80 then illegal
    else if priv c <? PRV_M then illegal
    else xret L handle_mret
  else if imm =? 0x7b2 then (* dret *)
    if negb (debug_mode c) then illegal
    else if tst insn 0x000fff80 then illegal
    else if priv c <? PRV_M then illegal
    else xret L handle_dret
  else if imm =? 0x105 then (* wfi *)
    if tst insn 0x00007f80 then illegal
    else if priv c =? PRV_U then illegal
    else if (priv c =? PRV_S) && tst (mstatus c) MSTATUS_TW then illegal
    else if ((mip c &' mie c =? 0) && (pending_interrupt m =? -1)) || negb (cosim m) then
      _ ← modify_cpu (fun c => c <| power_down_flag := true |> <| pc := u64 (GET_PC L + 4) |>);
      mret DoneInterp
    else mret (Next 4)
  else if imm >>' 5 =? 0x09 then (* sfence.vma *)
    if tst insn 0x00007f80 then illegal
    else if priv c =? PRV_U then illegal
    else if (priv c =? PRV_S) && tst (mstatus c) MSTATUS_TVM then illegal
    else
      _ ← (if rs1 =? 0 then modify_cpu tlb_flush_all
           else modify_cpu (fun c => tlb_flush_vaddr c (read_reg c rs1)));
      jump_to (u64 (GET_PC L + 4)) ctf_nop
  else illegal.

Definition exec_system (L : Locals) (rd rs1 insn : Z) : M D (outcome * Locals) :=
  c ← gets cpu;
  let funct3 := (insn >>' 12) &' 7 in
  let imm := insn >>' 20 in
  let val := if tst funct3 4 then rs1 else read_reg c rs1 in
  let funct3 := funct3 &' 3 in
  if funct3 =? 1 then exec_csrrw L rd imm val
  else if (funct3 =? 2) || (funct3 =? 3) then
    o ← exec_csrrsc L (funct3 =? 2) rd rs1 imm val; mret (o, L)
  else o ← exec_priv L rs1 imm insn; mret (o, L).

Definition exec_misc_mem (insn : Z) : M D outcome :=
  let funct3 := (insn >>' 12) &' 7 in
  if funct3 =? 0 then if tst insn 0xf00fff80 then illegal else mret (Next 4)
  else if funct3 =? 1 then if negb (insn =? 0x0000100f) then illegal else mret (Next 4)
  else illegal.

(** ** Atomics *)

Definition is_amo (funct5 : Z) : bool :=
  existsb (Z.eqb funct5) [1; 0; 4; 0xc; 0x8; 0x10; 0x14; 0x18; 0x1c].

(** [OP_A(size)] and the write-back. *)
Definition exec_amo_w (w : width) (rd rs1 rs2 insn : Z) : M D outcome :=
  c ← gets cpu;
  let n := wbits w in
  let addr := read_reg c rs1 in
  let funct5 := insn >>' 27 in
  let finish val := _ ← wreg_nz rd val; mret (Next 4) in
  if funct5 =? 2 then (* lr *)
    if negb (rs2 =? 0) then illegal
    else load w addr (fun rval =>
           _ ← modify_cpu (fun c => c <| load_res := addr |>);
           finish (wraps n rval))
  else if funct5 =? 3 then (* sc *)
    if negb (addr &' (wsize w - 1) =? 0) then
      _ ← modify_cpu (fun c => c <| pending_tval := addr |> <| pending_exception := CAUSE_MISALIGNED_STORE |>);
      mret MmuException
    else if load_res c =? addr then
      store w addr (read_reg c rs2)
        (_ ← modify_cpu (fun c => c <| load_res := u64 (-1) |>); finish 0)
    else finish 1
  else if is_amo funct5 then
    r ← target_read w addr;
    match r with
    | None =>
        _ ← modify_cpu (fun c => c <| pending_exception := s32 (pending_exception c + 2) |>);
        mret MmuException
    | Some rval =>
        let val := u64 (wraps n rval) in
        match amo_op n funct5 val (read_reg c rs2) with
        | None => illegal
        | Some val2 => store w addr val2 (finish val)
        end
    end
  else illegal.

Definition exec_amo (rd rs1 rs2 insn : Z) : M D outcome :=
  let funct3 := (insn >>' 12) &' 7 in
  if funct3 =? 2 then exec_amo_w W32 rd rs1 rs2 insn
  else if funct3 =? 3 then exec_amo_w W64 rd rs1 rs2 insn
  else illegal.

(** ** Floating point *)

Definition exec_fp_load (rd rs1 insn : Z) : M D outcome :=
  c ← gets cpu;
  if fs c =? 0 then illegal
  else
    let funct3 := (insn >>' 12) &' 7 in
    let addr := u64 (read_reg c rs1 + imm_i insn) in
    if funct3 =? 2 then load W32 addr (fun v => _ ← wfreg rd (v |' F32_HIGH); mret (Next 4))
    else if funct3 =? 3 then load W64 addr (fun v => _ ← wfreg rd (v |' F64_HIGH); mret (Next 4))
    else illegal.

Definition exec_fp_store (rd rs1 rs2 insn : Z) : M D outcome :=
  c ← gets cpu;
  if fs c =? 0 then illegal
  else
    let funct3 := (insn >>' 12) &' 7 in
    let addr := u64 (read_reg c rs1 + imm_s rd insn) in
    if funct3 =? 2 then store W32 addr (read_fp_reg c rs2) (mret (Next 4))
    else if funct3 =? 3 then store W64 addr (read_fp_reg c rs2) (mret (Next 4))
    else illegal.

(** [write_fp_reg(rd, op(..., &s->fflags) | F_HIGH)]. *)
Definition fp_result (rd : Z) (sz : fsize) (f : Z -> Z * Z) : M D outcome :=
  _ ← modify_cpu (fun c => let '(v, fl) := f (fflags c) in
        write_fp_reg rd (v |' F_HIGH sz) (c <| fflags := fl |>));
  mret (Next 4).

(** [val = op(..., &s->fflags); if (rd != 0) write_reg(rd, val)]. *)
Definition int_result (rd : Z) (f : Z -> Z * Z) : M D outcome :=
  c ← gets cpu;
  let '(v, fl) := f (fflags c) in
  _ ← modify_cpu (fun c => c <| fflags := fl |>);
  _ ← wreg_nz rd v;
  mret (Next 4).

(** [case 0x43], [0x47], [0x4b], [0x4f]: [neg1] flips the sign of the product, [neg3] of the addend. *)
Definition exec_fma (neg1 neg3 : bool) (rd rs1 rs2 insn : Z) : M D outcome :=
  c ← gets cpu;
  if fs c =? 0 then illegal
  else
    let funct3 := (insn >>' 25) &' 3 in
    let rs3 := insn >>' 27 in
    let rm := get_insn_rm c ((insn >>' 12) &' 7) in
    if rm <? 0 then illegal
    else
      let neg sz (b : bool) v := if b then v ^' to_sf sz (FSIGN_MASK sz) else v in
      if funct3 =? 0 then
        let r i := chkfp32 (read_fp_reg c i) in
        fp_result rd F32 (fma_sf F32 (neg F32 neg1 (r rs1)) (r rs2) (neg F32 neg3 (r rs3)) rm)
      else if funct3 =? 1 then
        let r i := read_fp_reg c i in
        fp_result rd F64 (fma_sf F64 (neg F64 neg1 (r rs1)) (r rs2) (neg F64 neg3 (r rs3)) rm)
      else illegal.

(** [dromajo_fp_template.h], the arithmetic labels: [op] is the label's [funct5]. *)
Definition exec_fp_arith (c : RISCVCPUState) (sz : fsize) (op rd rs1 rs2 rm0 : Z) : M D outcome :=
  let rm := get_insn_rm c rm0 in
  let a := to_sf sz (f_unbox sz (read_fp_reg c rs1)) in
  let b := to_sf sz (f_unbox sz (read_fp_reg c rs2)) in
  if rm <? 0 then illegal
  else if op =? 0x00 then fp_result rd sz (add_sf sz a b rm)
  else if op =? 0x01 then fp_result rd sz (sub_sf sz a b rm)
  else if op =? 0x02 then fp_result rd sz (mul_sf sz a b rm)
  else if op =? 0x03 then fp_result rd sz (div_sf sz a b rm)
  else if negb (rs2 =? 0) then illegal
  else fp_result rd sz (sqrt_sf sz a rm).

(** [fsgnj], [fmin]/[fmax], and the comparisons. *)
Definition exec_fp_select (c : RISCVCPUState) (sz : fsize) (op rd rs1 rs2 rm : Z) : M D outcome :=
  let ua := f_unbox sz (read_fp_reg c rs1) in
  let ub := f_unbox sz (read_fp_reg c rs2) in
  let a := to_sf sz ua in
  let b := to_sf sz ub in
  let m := FSIGN_MASK sz in
  if op =? 0x04 then
    if rm =? 0 then fp_result rd sz (fun fl => ((ua &' not64 m) |' (ub &' m), fl))
    else if rm =? 1 then fp_result rd sz (fun fl => ((ua &' not64 m) |' ((ub &' m) ^' m), fl))
    else if rm =? 2 then fp_result rd sz (fun fl => (ua ^' (ub &' m), fl))
    else illegal
  else if op =? 0x05 then
    if rm =? 0 then fp_result rd sz (min_sf sz a b)
    else if rm =? 1 then fp_result rd sz (max_sf sz a b)
    else illegal
  else (* 0x14 *)
    if rm =? 0 then int_result rd (le_sf sz a b)
    else if rm =? 1 then int_result rd (lt_sf sz a b)
    else if rm =? 2 then int_result rd (eq_quiet_sf sz a b)
    else illegal.

(** The conversions and moves. *)
Definition exec_fp_convert (c : RISCVCPUState) (sz : fsize) (op rd rs1 rs2 rm0 : Z) : M D outcome :=
  let rm := get_insn_rm c rm0 in
  let ua := f_unbox sz (read_fp_reg c rs1) in
  let a := to_sf sz ua in
  let x := read_reg c rs1 in
  if op =? 0x18 then
    if rm <? 0 then illegal
    else if rs2 =? 0 then int_result rd (fun fl => let '(v, fl) := cvt_sf_i32 sz a rm fl in (s32 v, fl))
    else if rs2 =? 1 then int_result rd (fun fl => let '(v, fl) := cvt_sf_u32 sz a rm fl in (s32 v, fl))
    else if rs2 =? 2 then int_result rd (fun fl => let '(v, fl) := cvt_sf_i64 sz a rm fl in (s64 v, fl))
    else if rs2 =? 3 then int_result rd (fun fl => let '(v, fl) := cvt_sf_u64 sz a rm fl in (s64 v, fl))
    else illegal
  else if op =? 0x1a then
    if rm <? 0 then illegal
    else if rs2 =? 0 then fp_result rd sz (cvt_i32_sf sz (s32 x) rm)
    else if rs2 =? 1 then fp_result rd sz (cvt_u32_sf sz (u32 x) rm)
    else if rs2 =? 2 then fp_result rd sz (cvt_i64_sf sz (s64 x) rm)
    else if rs2 =? 3 then fp_result rd sz (cvt_u64_sf sz x rm)
    else illegal
  else if op =? 0x08 then
    if rm <? 0 then illegal
    else match sz with
         | F32 => if rs2 =? 1 then fp_result rd F32 (cvt_sf64_sf32 (read_fp_reg c rs1) rm) else illegal
         | F64 =>
             if rs2 =? 0 then
               let v := read_fp_reg c rs1 in
               let v := if negb (v &' F32_HIGH =? F32_HIGH) then f_qnan32 else v in
               fp_result rd F64 (cvt_sf32_sf64 (u32 v))
             else illegal
         end
  else if op =? 0x1c then
    if negb (rs2 =? 0) then illegal
    else if rm0 =? 0 then
      int_result rd (fun fl => (match sz with F32 => s32 (read_fp_reg c rs1) | F64 => s64 (read_fp_reg c rs1) end, fl))
    else if rm0 =? 1 then int_result rd (fun fl => (fclass_sf sz a, fl))
    else illegal
  else (* 0x1e *)
    if negb (rs2 =? 0) || negb (rm0 =? 0) then illegal
    else fp_result rd sz (fun fl => (match sz with F32 => u64 (s32 x) | F64 => u64 (s64 x) end, fl)).

(** [case 0x53]: [imm = (op << 2) | OPID]. *)
Definition exec_fp (rd rs1 rs2 insn : Z) : M D outcome :=
  c ← gets cpu;
  if fs c =? 0 then illegal
  else
    let imm := insn >>' 25 in
    let rm := (insn >>' 12) &' 7 in
    let op := imm >>' 2 in
    let opid := imm &' 3 in
    if (opid =? 0) || (opid =? 1) then
      let sz := if opid =? 0 then F32 else F64 in
      if existsb (Z.eqb op) [0x00; 0x01; 0x02; 0x03; 0x0b] then exec_fp_arith c sz op rd rs1 rs2 rm
      else if existsb (Z.eqb op) [0x04; 0x05; 0x14] then exec_fp_select c sz op rd rs1 rs2 rm
      else if existsb (Z.eqb op) [0x18; 0x1a; 0x08; 0x1c; 0x1e] then exec_fp_convert c sz op rd rs1 rs2 rm
      else illegal
    else illegal.

(** ** Dispatch: [switch (opcode)] *)

Definition exec (L : Locals) (insn : Z) : M D (outcome * Locals) :=
  let opcode := insn &' 0x7f in
  let rd := (insn >>' 7) &' 0x1f in
  let rs1 := (insn >>' 15) &' 0x1f in
  let rs2 := (insn >>' 20) &' 0x1f in
  let pc0 := GET_PC L in
  let ret (m : M D outcome) : M D (outcome * Locals) := o ← m; mret (o, L) in
  if opcode &' 3 =? 0 then ret (exec_c0 insn)
  else if opcode &' 3 =? 1 then ret (exec_c1 pc0 insn)
  else if opcode &' 3 =? 2 then ret (exec_c2 pc0 insn)
  else if opcode =? 0x37 then ret (write_val rd (Some (s32 (insn &' 0xfffff000))))
  else if opcode =? 0x17 then ret (write_val rd (Some (pc0 + s32 (insn &' 0xfffff000))))
  else if opcode =? 0x6f then ret (exec_jal pc0 rd insn)
  else if opcode =? 0x67 then ret (exec_jalr pc0 rd rs1 insn)
  else if opcode =? 0x63 then ret (exec_branch pc0 rs1 rs2 insn)
  else if opcode =? 0x03 then ret (exec_load rd rs1 insn)
  else if opcode =? 0x23 then ret (exec_store rd rs1 rs2 insn)
  else if opcode =? 0x13 then
    ret (c ← gets cpu; write_val rd (op_imm ((insn >>' 12) &' 7) (read_reg c rs1) (imm_i insn)))
  else if opcode =? 0x1b then
    ret (c ← gets cpu; write_val rd (op_imm_32 ((insn >>' 12) &' 7) (read_reg c rs1) (imm_i insn)))
  else if opcode =? 0x33 then
    ret (c ← gets cpu; write_val rd (op insn (read_reg c rs1) (read_reg c rs2)))
  else if opcode =? 0x3b then
    ret (c ← gets cpu; write_val rd (op_32 insn (read_reg c rs1) (read_reg c rs2)))
  else if opcode =? 0x73 then exec_system L rd rs1 insn
  else if opcode =? 0x0f then ret (exec_misc_mem insn)
  else if opcode =? 0x2f then ret (exec_amo rd rs1 rs2 insn)
  else if opcode =? 0x07 then ret (exec_fp_load rd rs1 insn)
  else if opcode =? 0x27 then ret (exec_fp_store rd rs1 rs2 insn)
  else if opcode =? 0x43 then ret (exec_fma false false rd rs1 rs2 insn)
  else if opcode =? 0x47 then ret (exec_fma false true rd rs1 rs2 insn)
  else if opcode =? 0x4b then ret (exec_fma true false rd rs1 rs2 insn)
  else if opcode =? 0x4f then ret (exec_fma true true rd rs1 rs2 insn)
  else if opcode =? 0x53 then ret (exec_fp rd rs1 rs2 insn)
  else mret (IllegalInsn, L).

End Exec.
