(* ===== verification/ExecWf.v ===== *)
(** * Instruction execution preserves the system invariant

    [keeps m Q] is the Hoare triple of the interpreter: from a well-formed
    system, [m] either stops the host program for a reason other than a model
    bound, or ends well formed with a result in [Q].  One rule per step, then
    one lemma per group of opcodes. *)

From S2P Require Import Prelude Riscv Cutils Iomem Hostmem CpuState CpuWf Csr Trap Mmu Alu Exec.
From stdpp Require Import base list.
From Stdlib Require Import ZArith Lia Bool.
Local Open Scope Z_scope.
Local Open Scope bits_scope.

(** The invariant of what surrounds the hart: the machine-wide fields and the device state; and whether a
    device access may fail to end. *)
Class DevWf (D : Type) := { dev_wf : VirtMachine -> D -> Prop; endless : Prop }.

(** The reasons for which a run may stop. *)
Definition may_stop {D} {DW : DevWf D} (r : stop_reason) : Prop := host_stop r \/ (r = Endless /\ endless).

Definition sys_wf {D} {DW : DevWf D} (s : System D) : Prop := cpu_wf (cpu s) /\ hostmem_wf (hmem s) /\ dev_wf (common s) (devs s).

(** What the devices promise to the hart: from a well-formed system and with 32-bit offsets and values, a
    read returns a 32-bit value, and no access breaks the invariant (it may stop the host program, and if
    the devices are [endless] it may also not return). *)
Class DeviceLaws (D : Type) {DW : DevWf D} {DO : DeviceOps D} : Prop := {
  dev_read_ok : forall d o l s, in_u 32 o -> sys_wf s ->
    match read_func d o l s with Done (v, s') => sys_wf s' /\ in_u 32 v | Stop r => may_stop r end;
  dev_write_ok : forall d o v l s, in_u 32 o -> in_u 32 v -> sys_wf s ->
    match write_func d o v l s with Done (_, s') => sys_wf s' | Stop r => may_stop r end }.

#[export] Instance no_devices_wf : DevWf unit := {| dev_wf _ _ := True; endless := False |}.

#[export] Instance no_devices_laws : @DeviceLaws unit no_devices_wf no_devices.
Proof. split; [intros d o l s _ Hs; split; [exact Hs|split; [discriminate|reflexivity]] | intros; assumption]. Qed.

(** A floating-point operation applied to its operands: a 64-bit result, 32-bit flags. *)
Definition fp_op_ok (f : Z -> Z * Z) : Prop :=
  forall fl, in_u 32 fl -> in_u 64 (fst (f fl)) /\ in_u 32 (snd (f fl)).

Class SoftFpLaws `{SoftFp} : Prop := {
  add_ok : forall sz a b rm, fp_op_ok (add_sf sz a b rm);
  sub_ok : forall sz a b rm, fp_op_ok (sub_sf sz a b rm);
  mul_ok : forall sz a b rm, fp_op_ok (mul_sf sz a b rm);
  div_ok : forall sz a b rm, fp_op_ok (div_sf sz a b rm);
  sqrt_ok : forall sz a rm, fp_op_ok (sqrt_sf sz a rm);
  fma_ok : forall sz a b c rm, fp_op_ok (fma_sf sz a b c rm);
  min_ok : forall sz a b, fp_op_ok (min_sf sz a b);
  max_ok : forall sz a b, fp_op_ok (max_sf sz a b);
  eq_ok : forall sz a b, fp_op_ok (eq_quiet_sf sz a b);
  le_ok : forall sz a b, fp_op_ok (le_sf sz a b);
  lt_ok : forall sz a b, fp_op_ok (lt_sf sz a b);
  cvt_sf_i32_ok : forall sz a rm fl, in_u 32 fl -> in_u 32 (snd (cvt_sf_i32 sz a rm fl));
  cvt_sf_u32_ok : forall sz a rm fl, in_u 32 fl -> in_u 32 (snd (cvt_sf_u32 sz a rm fl));
  cvt_sf_i64_ok : forall sz a rm fl, in_u 32 fl -> in_u 32 (snd (cvt_sf_i64 sz a rm fl));
  cvt_sf_u64_ok : forall sz a rm fl, in_u 32 fl -> in_u 32 (snd (cvt_sf_u64 sz a rm fl));
  cvt_i32_sf_ok : forall sz a rm, fp_op_ok (cvt_i32_sf sz a rm);
  cvt_u32_sf_ok : forall sz a rm, fp_op_ok (cvt_u32_sf sz a rm);
  cvt_i64_sf_ok : forall sz a rm, fp_op_ok (cvt_i64_sf sz a rm);
  cvt_u64_sf_ok : forall sz a rm, fp_op_ok (cvt_u64_sf sz a rm);
  cvt_32_64_ok : forall a, fp_op_ok (cvt_sf32_sf64 a);
  cvt_64_32_ok : forall a rm, fp_op_ok (cvt_sf64_sf32 a rm) }.

Create HintDb keeps.
#[export] Hint Resolve add_ok sub_ok mul_ok div_ok sqrt_ok fma_ok min_ok max_ok eq_ok le_ok lt_ok cvt_i32_sf_ok
  cvt_u32_sf_ok cvt_i64_sf_ok cvt_u64_sf_ok cvt_32_64_ok cvt_64_32_ok : keeps.

Lemma napot_scan_stop n : forall j a, settled (napot_scan n j a).
Proof.
  induction n as [|n IH]; intros j a; cbn [napot_scan]; [exact I|].
  repeat (case_match; try settled). apply IH.
Qed.

Lemma unpack_stop c : settled (unpack_pmpaddrs c).
Proof.
  unfold unpack_pmpaddrs. apply settled_bind; [|intros; exact I].
  assert (forall l acc, settled acc -> settled (fold_left (unpack_step c) l acc)) as H;
    [|apply H; exact I].
  induction l as [|i l IH]; intros acc Ha; [exact Ha|]. apply IH. unfold unpack_step, unpack_entry. cbv zeta.
  apply settled_bind; [exact Ha|]. intros c1. apply settled_bind; [|intros e; repeat (case_match; try settled)].
  repeat match goal with |- settled (if ?b then _ else _) => destruct b end; try settled.
  apply settled_bind; [apply napot_scan_stop|intros; case_match; exact I].
Qed.

(** ** The triple *)

Section Keeps.
Context {D : Type} {DW : DevWf D}.
Implicit Types s : System D.

Definition keeps {A} (m : M D A) (Q : A -> Prop) : Prop := forall s, sys_wf s ->
  match m s with Done (a, s') => sys_wf s' /\ Q a | Stop r => may_stop r end.

Lemma keeps_ret {A} (a : A) (Q : A -> Prop) : Q a -> keeps (mret a) Q.
Proof. intros H s Hs. split; auto. Qed.

Lemma keeps_bind {A B} (m : M D A) (f : A -> M D B) (P : A -> Prop) Q :
  keeps m P -> (forall a, P a -> keeps (f a) Q) -> keeps (m ≫= f) Q.
Proof.
  intros Hm Hf s Hs. rewrite run_bind. specialize (Hm s Hs).
  destruct (m s) as [[a s']|r]; [|exact Hm]. destruct Hm as [Hs' Ha]. apply Hf; auto.
Qed.

Lemma keeps_weaken {A} (m : M D A) (P Q : A -> Prop) : keeps m P -> (forall a, P a -> Q a) -> keeps m Q.
Proof.
  intros Hm H s Hs. specialize (Hm s Hs). destruct (m s) as [[a s']|r]; [|exact Hm]. destruct Hm; auto.
Qed.

Lemma keeps_cpu : keeps (gets cpu) cpu_wf.
Proof. intros s Hs. split; [exact Hs|apply Hs]. Qed.
Lemma keeps_sys : keeps (gets id) sys_wf.
Proof. intros s Hs. split; exact Hs. Qed.

Lemma keeps_modify_cpu f : (forall c, cpu_wf c -> cpu_wf (f c)) -> keeps (modify_cpu f) (fun _ => True).
Proof. intros Hf s [Hc Hm]. split; [split|exact I]; cbn; auto. Qed.

Lemma keeps_hmem n p v : keeps (modify (fun s => s <| hmem := st n (hmem s) p v |>)) (fun _ => True).
Proof. intros s (Hc & Hm & Hd). split; [split; [|split]|exact I]; cbn; auto. apply st_wf, Hm. Qed.
Lemma keeps_mem_map f : keeps (modify (fun s => s <| mem_map := f s |>)) (fun _ => True).
Proof. intros s [Hc Hm]. split; [split|exact I]; cbn; auto. Qed.

Lemma keeps_liftr {A} (r : res A) (Q : A -> Prop) : (forall a, r = Done a -> Q a) -> settled r -> keeps (liftr r) Q.
Proof. intros H Hr s Hs. unfold liftr. destruct r; [auto|left; exact Hr]. Qed.
Lemma keeps_stop {A} r (Q : A -> Prop) : host_stop r -> keeps (stop r) Q.
Proof. intros H s Hs. left. exact H. Qed.

End Keeps.

#[export] Hint Resolve keeps_cpu keeps_sys keeps_hmem keeps_mem_map : keeps.
#[export] Hint Extern 1 (keeps (modify_cpu _) _) => (apply keeps_modify_cpu; intros; auto with cpu_wf word) : keeps.
#[export] Hint Extern 1 (keeps (mret _) _) => (apply keeps_ret; auto with word; fail) : keeps.

(** Walk through a computation: case analysis on its conditions, the known triples on its steps. *)
Ltac kstep := progress cbv beta zeta || match goal with
  | |- keeps (if ?b then _ else _) _ => destruct b eqn:?
  | |- keeps (match ?x with _ => _ end) _ => destruct x eqn:?
  | |- keeps (_ ≫= _) _ => eapply keeps_bind; [solve [eauto with keeps] | intros ? ?]
  | |- keeps (gets cpu ≫= _) _ => eapply keeps_bind; [apply keeps_cpu | intros ? ?]
  | |- keeps (gets id ≫= _) _ => eapply keeps_bind; [apply keeps_sys | intros ? ?]
  | |- keeps (mret _) (fun _ => True) => apply keeps_ret; exact I
  | |- keeps _ _ => solve [eauto with keeps]
  end.
Ltac ksteps := repeat kstep.

(** ** Memory access *)

Section Memory.
Context {D : Type} {DW : DevWf D} {DO : DeviceOps D} {DL : DeviceLaws D}.

Definition opt_u64 (r : option Z) : Prop := match r with Some v => in_u 64 v | None => True end.

Lemma walk_stop (s : System D) p acc va n : forall a, settled (walk s p acc va n a).
Proof.
  induction n as [|n IH]; intros a; cbn [walk]; [exact I|]. cbv zeta. unfold riscv_phys_read.
  repeat (case_match; cbn [mbind res_bind]; try settled). apply IH.
Qed.

Lemma translate_stop (s : System D) va acc : settled (riscv_cpu_get_phys_addr s va acc).
Proof. unfold riscv_cpu_get_phys_addr. cbv zeta. repeat (case_match; try settled). apply walk_stop. Qed.

Lemma keeps_translate (s : System D) va acc : keeps (D := D) (liftr (riscv_cpu_get_phys_addr s va acc)) (fun _ => True).
Proof. apply keeps_liftr; [auto|apply translate_stop]. Qed.
Hint Resolve keeps_translate : keeps.

Lemma keeps_fault {A} addr cause (Q : option A -> Prop) : in_u 64 addr -> Q None -> keeps (D := D) (fault addr cause) Q.
Proof. intros Ha HQ. unfold fault. ksteps. Qed.

Lemma keeps_device_read d o l : keeps (device_read d o l) (in_u 32).
Proof.
  intros s Hs. apply (dev_read_ok d (u32 o) l s); [apply in_u_u32|exact Hs].
Qed.
Lemma keeps_device_write d o v l : keeps (device_write d o v l) (fun _ => True).
Proof.
  intros s Hs. pose proof (dev_write_ok d (u32 o) (u32 v) l s (in_u_u32 _) (in_u_u32 _) Hs) as K. unfold device_write.
  destruct (write_func d _ _ _ s) as [[x s']|]; [split; [exact K|exact I]|exact K].
Qed.
Hint Resolve keeps_device_read keeps_device_write : keeps.

Lemma in_u_pair32 l h : in_u 32 l -> in_u 32 h -> in_u 64 (l |' (h <<' 32)).
Proof.
  intros Hl Hh. apply in_u_lor64; [auto with word|]. unfold in_u in *. rewrite Z.shiftl_mul_pow2 by lia. lia.
Qed.
Hint Resolve in_u_pair32 : word.

Lemma keeps_read_device pr o w : keeps (read_device pr o w) (in_u 64).
Proof.
  unfold read_device. ksteps.
  eapply keeps_weaken; [apply keeps_device_read|]. auto with word.
Qed.
Lemma keeps_write_device pr o v w : keeps (write_device pr o v w) (fun _ => True).
Proof. unfold write_device. ksteps. Qed.
Hint Resolve keeps_read_device keeps_write_device : keeps.

Lemma wf_fill_read addr pa ptr c : cpu_wf c -> cpu_wf (fill_read addr pa ptr c).
Proof.
  intros H. apply wf_set_tlb_read_paddr_addend, wf_set_tlb_read; [exact H|].
  apply tlb_ok_set; [apply H|apply in_u_page_of|apply in_u_u64].
Qed.
Lemma wf_fill_write addr pa ptr c : cpu_wf c -> cpu_wf (fill_write addr pa ptr c).
Proof.
  intros H. apply wf_set_tlb_write_paddr_addend, wf_set_tlb_write; [exact H|].
  apply tlb_ok_set; [apply H|apply in_u_page_of|apply in_u_u64].
Qed.
Lemma wf_fill_code addr pa ptr c : cpu_wf c -> cpu_wf (fill_code addr pa ptr c).
Proof.
  intros H. apply wf_set_tlb_code_paddr_addend, wf_set_tlb_code; [exact H|].
  apply tlb_ok_set; [apply H|apply in_u_page_of|apply in_u_u64].
Qed.
Hint Resolve wf_fill_read wf_fill_write wf_fill_code : cpu_wf.

Lemma ld_u64 n m p : (n <= 8)%nat -> hostmem_wf m -> in_u 64 (ld n m p).
Proof. intros Hn Hm. eapply in_u_mono, ld_range, Hm. lia. Qed.
Lemma ld_width w m p : hostmem_wf m -> in_u 64 (ld (bytes w) m p).
Proof. apply ld_u64. destruct w; cbn; lia. Qed.

Lemma keeps_read_memory w addr : in_u 64 addr -> keeps (riscv_cpu_read_memory w addr) opt_u64.
Proof.
  intros Ha. unfold riscv_cpu_read_memory. ksteps; try (apply keeps_fault; [exact Ha|exact I]).
  apply keeps_ret, ld_width. match goal with Hs : sys_wf _ |- _ => apply Hs end.
Qed.
Hint Resolve keeps_read_memory : keeps.

Lemma keeps_write_memory w addr v : in_u 64 addr -> keeps (riscv_cpu_write_memory w addr v) (fun _ => True).
Proof. intros Ha. unfold riscv_cpu_write_memory. ksteps; try (apply keeps_fault; [exact Ha|exact I]). Qed.
Hint Resolve keeps_write_memory : keeps.

Lemma keeps_target_read w addr : in_u 64 addr -> keeps (target_read w addr) opt_u64.
Proof.
  intros Ha. unfold target_read. ksteps; try (apply keeps_fault; [exact Ha|exact I]); apply keeps_ret.
  - apply ld_width. match goal with Hs : sys_wf _ |- _ => apply Hs end.
  - destruct a0; cbn; [|exact I]. eapply (in_u_mono (wbits w)); [|apply wrapu_in_u]; destruct (wbits_cases w) as [-> | [-> | [-> | ->]]]; lia.
Qed.

Lemma keeps_target_write w addr v : in_u 64 addr -> keeps (target_write w addr v) (fun _ => True).
Proof. intros Ha. unfold target_write. ksteps; try (apply keeps_fault; [exact Ha|exact I]). Qed.

End Memory.

#[export] Hint Resolve keeps_translate keeps_target_read keeps_target_write keeps_read_device keeps_write_device : keeps.
#[export] Hint Resolve wf_fill_read wf_fill_write wf_fill_code : cpu_wf.

(** ** Instructions *)

Lemma creg_pos x : 0 < (x &' 7) |' 8.
Proof.
  pose proof (land_ones_bound x 3 ltac:(lia)) as H. change (Z.ones 3) with 7 in H. change (2 ^ 3) with 8 in H.
  rewrite Z.lor_comm. change 8 with (1 <<' 3). rewrite lor_shiftl_low; lia.
Qed.
Lemma reg_nonneg x : 0 <= x &' 0x1f.
Proof. pose proof (land31_bound x). lia. Qed.
Lemma reg_pos x : (x &' 0x1f =? 0) = false -> 0 < x &' 0x1f.
Proof. intros H%Z.eqb_neq. pose proof (reg_nonneg x). lia. Qed.
Lemma reg_pos_neg x : negb (x &' 0x1f =? 0) = true -> 0 < x &' 0x1f.
Proof. rewrite negb_true_iff. apply reg_pos. Qed.
#[export] Hint Resolve reg_pos_neg creg_pos reg_nonneg reg_pos : word.

Lemma f_high_u64 sz : in_u 64 (F_HIGH sz).
Proof. destruct sz; split; discriminate || reflexivity. Qed.
Lemma f32_high_u64 : in_u 64 F32_HIGH.
Proof. exact (f_high_u64 F32). Qed.
Lemma f64_high_u64 : in_u 64 F64_HIGH.
Proof. exact (f_high_u64 F64). Qed.
Lemma fsign_mask_u64 sz : in_u 64 (FSIGN_MASK sz).
Proof. destruct sz; split; discriminate || reflexivity. Qed.
Lemma f_unbox_u64 sz r : in_u 64 r -> in_u 64 (f_unbox sz r).
Proof. intros H. destruct sz; cbn; [case_match|]; auto with word. split; [discriminate|reflexivity]. Qed.
#[export] Hint Resolve f_high_u64 f32_high_u64 f64_high_u64 fsign_mask_u64 f_unbox_u64 : word.

Lemma get_pc_u64 L : in_u 64 (GET_PC L).
Proof. apply in_u_u64. Qed.
Lemma get_insn_counter_u64 L : in_u 64 (GET_INSN_COUNTER L).
Proof. apply in_u_u64. Qed.
#[export] Hint Resolve get_pc_u64 get_insn_counter_u64 : word.

Section Instructions.
Context {D : Type} {DW : DevWf D} {DO : DeviceOps D} {DL : DeviceLaws D} `{MH : MachineHooks} {HL : HookLaws} `{FP : SoftFp} {FL : SoftFpLaws}.
Abbreviation ok m := (keeps (D := D) m (fun _ => True)).

Lemma keeps_wreg rd v : 0 < rd -> ok (wreg rd v).
Proof. intros Hr. unfold wreg. ksteps. Qed.
Lemma keeps_wreg_nz rd v : 0 <= rd -> ok (wreg_nz rd v).
Proof. intros Hr. unfold wreg_nz. destruct (Z.eqb_spec rd 0); [ksteps|]. apply keeps_wreg. lia. Qed.
Lemma keeps_wfreg rd v : in_u 64 v -> ok (wfreg rd v).
Proof. intros Hv. unfold wfreg. ksteps. Qed.
Lemma keeps_illegal : ok illegal.
Proof. apply keeps_ret, I. Qed.
Lemma keeps_exception_now cause : ok (exception_now cause).
Proof. unfold exception_now. ksteps. Qed.
Lemma keeps_jump_to target kind : in_u 64 target -> ok (jump_to target kind).
Proof. intros H. unfold jump_to. ksteps. Qed.
Lemma keeps_load w addr k : in_u 64 addr -> (forall v, in_u 64 v -> ok (k v)) -> ok (load w addr k).
Proof.
  intros Ha Hk. unfold load. eapply keeps_bind; [apply keeps_target_read, Ha|].
  intros [v|] Hv; [apply Hk, Hv|ksteps].
Qed.
Lemma keeps_store w addr v k : in_u 64 addr -> ok k -> ok (store w addr v k).
Proof. intros Ha Hk. unfold store. ksteps. Qed.
Hint Resolve keeps_wreg keeps_wreg_nz keeps_wfreg keeps_illegal keeps_exception_now keeps_jump_to : keeps.
Hint Extern 1 (0 < 2) => reflexivity : keeps.
Hint Extern 1 (0 < 1) => reflexivity : keeps.
Hint Extern 2 (in_u _ _) => (auto with word cpu_wf; fail) : keeps.
Hint Extern 2 (0 < _) => (auto with word; fail) : keeps.
Hint Extern 2 (0 <= _) => (auto with word; fail) : keeps.
Ltac kexec := repeat first [kstep
  | match goal with |- keeps (load _ _ _) _ => apply keeps_load; [auto with word cpu_wf|intros ? ?]
                  | |- keeps (store _ _ _ _) _ => apply keeps_store; [auto with word cpu_wf|] end].

Lemma keeps_exec_c0 insn : ok (exec_c0 insn).
Proof. unfold exec_c0. kexec. Qed.
Lemma keeps_exec_c1 pc0 insn : ok (exec_c1 pc0 insn).
Proof. unfold exec_c1. kexec. Qed.
Lemma keeps_exec_c2 pc0 insn : ok (exec_c2 pc0 insn).
Proof. unfold exec_c2, exec_c2_misc. kexec. Qed.
Lemma keeps_exec_jal pc0 rd insn : 0 <= rd -> ok (exec_jal pc0 rd insn).
Proof. intros Hr. unfold exec_jal. kexec. Qed.
Lemma keeps_exec_jalr pc0 rd rs1 insn : 0 <= rd -> ok (exec_jalr pc0 rd rs1 insn).
Proof. intros Hr. unfold exec_jalr. kexec. Qed.
Lemma keeps_exec_branch pc0 rs1 rs2 insn : ok (exec_branch pc0 rs1 rs2 insn).
Proof. unfold exec_branch. kexec. Qed.
Lemma keeps_exec_load rd rs1 insn : 0 <= rd -> ok (exec_load rd rs1 insn).
Proof. intros Hr. unfold exec_load. kexec. Qed.
Lemma keeps_exec_store rd rs1 rs2 insn : ok (exec_store rd rs1 rs2 insn).
Proof. unfold exec_store. kexec. Qed.
Lemma keeps_write_val rd v : 0 <= rd -> ok (write_val rd v).
Proof. intros Hr. unfold write_val. kexec. Qed.

Lemma keeps_assert b : ok (liftr (assert_c b)).
Proof. apply keeps_liftr; [trivial|]. destruct b; exact I. Qed.
Hint Resolve keeps_assert : keeps.

Lemma keeps_account start : ok (account start).
Proof. unfold account. kexec. Qed.
Hint Resolve keeps_account : keeps.

Lemma keeps_csr_read csr w : keeps (D := D) (csr_read_m csr w) opt_u64.
Proof.
  intros s [Hc Hm]. unfold csr_read_m. destruct (csr_read (cpu s) csr w) as [[ret v] c] eqn:E.
  apply wf_csr_read in E as [Hv Hc']; [|exact Hc]. split; [split; assumption|].
  destruct (_ =? _); [exact Hv|exact I].
Qed.

Lemma csr_write_stop c csr v : settled (csr_write c csr v).
Proof.
  unfold csr_write, csr_write_case, csr_write_pmp_counters.
  apply settled_bind; [|intros w; repeat (case_match; try settled)].
  repeat (case_match; try settled); (apply settled_bind; [apply unpack_stop|intros; exact I]).
Qed.

Lemma keeps_csr_write csr v : in_u 64 v -> ok (csr_write_m csr v).
Proof.
  intros Hv s [Hc Hm]. unfold csr_write_m. destruct (csr_write (cpu s) csr v) as [[err c]|] eqn:E; cbn [mbind res_bind].
  - split; [|exact I]. split; [|exact Hm]. eapply wf_csr_write; eauto.
  - left. pose proof (csr_write_stop (cpu s) csr v) as K. rewrite E in K. exact K.
Qed.
Hint Resolve keeps_csr_read keeps_csr_write : keeps.

Lemma keeps_after_csr_write L err : ok (after_csr_write L err).
Proof. unfold after_csr_write. kexec. Qed.
Hint Resolve keeps_after_csr_write : keeps.

Lemma keeps_exec_csrrw L rd csr v : 0 <= rd -> in_u 64 v -> ok (exec_csrrw L rd csr v).
Proof.
  intros Hr Hv. unfold exec_csrrw. kexec.
Qed.
Lemma keeps_exec_csrrsc L set rd rs1 csr v : 0 <= rd -> in_u 64 v -> ok (exec_csrrsc L set rd rs1 csr v).
Proof.
  intros Hr Hv. unfold exec_csrrsc. kexec. cbn [opt_u64] in *.
  apply keeps_bind with (P := fun _ => True); [|intros ? _; kexec].
  destruct (negb _); [|kexec]. apply keeps_csr_write. destruct set; auto with word.
Qed.

Lemma keeps_xret L f : (forall c, cpu_wf c -> cpu_wf (f c)) -> ok (xret L f).
Proof. intros Hf. unfold xret. kexec. Qed.

Lemma wf_flush_vaddr c va : cpu_wf c -> cpu_wf (tlb_flush_vaddr c va).
Proof. apply wf_tlb_flush_all. Qed.
Hint Resolve wf_flush_vaddr : cpu_wf.

Lemma keeps_exec_priv L rs1 imm insn : ok (exec_priv L rs1 imm insn).
Proof.
  unfold exec_priv. kexec.
  - apply keeps_bind with (P := fun _ => True); [|intros ? _; kexec]. apply keeps_modify_cpu.
    intros c Hc. case_match; auto with cpu_wf.
  - apply keeps_xret, wf_handle_sret.
  - apply keeps_xret, wf_handle_mret.
  - apply keeps_xret, wf_handle_dret.
  - apply keeps_bind with (P := fun _ => True); [|intros ? _; kexec]. kexec.
Qed.

Lemma keeps_exec_system L rd rs1 insn : 0 <= rd -> in_u 64 rs1 -> ok (exec_system L rd rs1 insn).
Proof.
  intros Hr H1. unfold exec_system. kexec.
  - apply keeps_exec_csrrw; [exact Hr|]. case_match; auto with cpu_wf.
  - eapply keeps_bind; [apply keeps_exec_csrrsc; [exact Hr|]|intros; kexec]. case_match; auto with cpu_wf.
  - eapply keeps_bind; [apply keeps_exec_priv|intros; kexec].
Qed.

Lemma keeps_exec_misc_mem insn : ok (exec_misc_mem insn).
Proof. unfold exec_misc_mem. kexec. Qed.

Lemma keeps_exec_amo_w w rd rs1 rs2 insn : 0 <= rd -> ok (exec_amo_w w rd rs1 rs2 insn).
Proof. intros Hr. unfold exec_amo_w. kexec. Qed.

Lemma keeps_exec_amo rd rs1 rs2 insn : 0 <= rd -> ok (exec_amo rd rs1 rs2 insn).
Proof. intros Hr. unfold exec_amo. kexec; apply keeps_exec_amo_w, Hr. Qed.

Lemma keeps_exec_fp_load rd rs1 insn : ok (exec_fp_load rd rs1 insn).
Proof. unfold exec_fp_load. kexec. Qed.
Lemma keeps_exec_fp_store rd rs1 rs2 insn : ok (exec_fp_store rd rs1 rs2 insn).
Proof. unfold exec_fp_store. kexec. Qed.

Lemma keeps_fp_result rd sz f : fp_op_ok f -> ok (fp_result rd sz f).
Proof.
  intros Hf. unfold fp_result. apply keeps_bind with (P := fun _ => True); [|intros ? _; kexec].
  apply keeps_modify_cpu. intros c Hc. destruct (Hf (fflags c)) as [H1 H2]; [apply Hc|].
  destruct (f (fflags c)) as [v fl]. cbn [fst snd] in *. auto with cpu_wf word.
Qed.

Lemma keeps_int_result rd f : 0 <= rd -> (forall fl, in_u 32 fl -> in_u 32 (snd (f fl))) -> ok (int_result rd f).
Proof.
  intros Hr Hf. unfold int_result. eapply keeps_bind; [apply keeps_cpu|]. intros c Hc.
  specialize (Hf (fflags c) (wf_fflags c Hc)). destruct (f (fflags c)) as [v fl]. cbn [snd] in Hf. kexec.
Qed.

(** Operations that leave the flags alone. *)
Lemma const_fp_ok v : in_u 64 v -> fp_op_ok (fun fl => (v, fl)).
Proof. intros Hv fl Hf. auto. Qed.
Lemma fp_op_flags f : fp_op_ok f -> forall fl, in_u 32 fl -> in_u 32 (snd (f fl)).
Proof. intros Hf fl H. apply Hf, H. Qed.
Hint Resolve const_fp_ok fp_op_flags cvt_sf_i32_ok cvt_sf_u32_ok cvt_sf_i64_ok cvt_sf_u64_ok : keeps.

Lemma flags_map (f : Z -> Z * Z) (g : Z -> Z) : (forall fl, in_u 32 fl -> in_u 32 (snd (f fl))) ->
  forall fl, in_u 32 fl -> in_u 32 (snd (let '(v, fl) := f fl in (g v, fl))).
Proof. intros Hf fl H. specialize (Hf fl H). destruct (f fl). exact Hf. Qed.

Ltac kfp := kexec; try (apply keeps_fp_result; eauto with keeps).

Lemma keeps_exec_fma n1 n3 rd rs1 rs2 insn : ok (exec_fma n1 n3 rd rs1 rs2 insn).
Proof. unfold exec_fma. kfp. Qed.

Lemma keeps_exec_fp_arith c sz o rd rs1 rs2 rm : ok (exec_fp_arith c sz o rd rs1 rs2 rm).
Proof. unfold exec_fp_arith. kfp. Qed.

Lemma keeps_exec_fp_select c sz o rd rs1 rs2 rm : cpu_wf c -> 0 <= rd -> ok (exec_fp_select c sz o rd rs1 rs2 rm).
Proof.
  intros Hc Hr. unfold exec_fp_select. kfp; try (apply keeps_int_result; [exact Hr|eauto with keeps]).
  all: apply const_fp_ok; auto 10 with word cpu_wf.
Qed.

Lemma keeps_exec_fp_convert c sz o rd rs1 rs2 rm : cpu_wf c -> 0 <= rd -> ok (exec_fp_convert c sz o rd rs1 rs2 rm).
Proof.
  intros Hc Hr. unfold exec_fp_convert. kfp; try (apply keeps_int_result; [exact Hr|]).
  all: try (apply flags_map; eauto with keeps).
  1-2: intros fl Hf; exact Hf.
  apply const_fp_ok. destruct sz; auto with word.
Qed.

Lemma keeps_exec_fp rd rs1 rs2 insn : 0 <= rd -> ok (exec_fp rd rs1 rs2 insn).
Proof.
  intros Hr. unfold exec_fp. kexec; auto using keeps_exec_fp_arith, keeps_exec_fp_select, keeps_exec_fp_convert.
Qed.

Lemma keeps_with_locals (L : Locals) (m : M D outcome) : ok m -> ok (o ← m; mret (o, L)).
Proof. intros Hm. eapply keeps_bind; [exact Hm|]. intros. kexec. Qed.

(** Every instruction keeps the invariant. *)
Lemma keeps_exec L insn : ok (exec L insn).
Proof.
  pose proof (reg_nonneg (insn >>' 7)) as Hr. unfold exec. cbv zeta.
  repeat (case_match; [first [apply keeps_with_locals | idtac]|]).
  all: auto using keeps_exec_c0, keeps_exec_c1, keeps_exec_c2, keeps_write_val, keeps_exec_jal, keeps_exec_jalr,
    keeps_exec_branch, keeps_exec_load, keeps_exec_store, keeps_exec_misc_mem, keeps_exec_amo, keeps_exec_fp_load,
    keeps_exec_fp_store, keeps_exec_fma, keeps_exec_fp.
  all: kexec; auto using keeps_write_val.
  apply keeps_exec_system; [exact Hr|]. pose proof (land31_bound (insn >>' 15)). unfold in_u. lia.
Qed.

End Instructions.
