(* ===== verification/Interp.v ===== *)
(** * The interpreter loop ([riscv_cpu_interp64] of [dromajo_template.h])

    Interrupt and trigger checks, instruction fetch through the cached code
    pointer, the main loop and its exit labels.  The loop decrements [n_cycles]
    once per iteration, which is the fuel of [interp_loop]. *)

From S2P Require Import Prelude Riscv Cutils Iomem Hostmem CpuState CpuWf Csr Trap Mmu Alu Exec ExecWf.
From stdpp Require Import base list gmap.
From Stdlib Require Import ZArith Lia Bool.
Local Open Scope Z_scope.
Local Open Scope bits_scope.

#[export] Instance upd_code_ptr : Upd code_ptr := fun v L =>
  mkLocals v (code_end L) (code_to_pc_addend L) (insn_counter_addend L) (insn_counter_start L)
    (n_cycles L) (insn_executed L).
#[export] Instance upd_code_end : Upd code_end := fun v L =>
  mkLocals (code_ptr L) v (code_to_pc_addend L) (insn_counter_addend L) (insn_counter_start L)
    (n_cycles L) (insn_executed L).
#[export] Instance upd_code_to_pc_addend : Upd code_to_pc_addend := fun v L =>
  mkLocals (code_ptr L) (code_end L) v (insn_counter_addend L) (insn_counter_start L)
    (n_cycles L) (insn_executed L).
#[export] Instance upd_insn_counter_addend : Upd insn_counter_addend := fun v L =>
  mkLocals (code_ptr L) (code_end L) (code_to_pc_addend L) v (insn_counter_start L)
    (n_cycles L) (insn_executed L).
#[export] Instance upd_n_cycles : Upd n_cycles := fun v L =>
  mkLocals (code_ptr L) (code_end L) (code_to_pc_addend L) (insn_counter_addend L)
    (insn_counter_start L) v (insn_executed L).
#[export] Instance upd_insn_executed : Upd insn_executed := fun v L =>
  mkLocals (code_ptr L) (code_end L) (code_to_pc_addend L) (insn_counter_addend L)
    (insn_counter_start L) (n_cycles L) v.

(** [--insn_counter_addend]. *)
Definition uncount (L : Locals) : Locals := L <| insn_counter_addend := u64 (insn_counter_addend L - 1) |>.

Section Interp.
Context {D : Type} `{DeviceOps D} `{MachineHooks} `{SoftFp}.

(** The condition under which interrupts are looked at. *)
Definition interrupts_visible (s : System D) : bool :=
  negb (mip (cpu s) &' mie (cpu s) =? 0)
  && (negb (pending_interrupt (common s) =? -1) || negb (cosim (common s))).

(** [(...) && raise_interrupt(s)]. *)
Definition poll_interrupt : M D bool :=
  s ← gets id;
  if interrupts_visible s then
    let '(taken, c) := raise_interrupt (cpu s) in
    _ ← modify_cpu (fun _ => c);
    mret taken
  else mret false.

(** ** The exit labels *)

(** [the_end]. *)
Definition the_end (L : Locals) : M D Z :=
  _ ← modify_cpu (fun c => c <| insn_counter := GET_INSN_COUNTER L |>);
  _ ← account (insn_counter_start L);
  mret (insn_executed L).

(** [done_interp]. *)
Definition done_interp (L : Locals) : M D Z := the_end (L <| n_cycles := n_cycles L - 1 |>).

(** The causes that cancelled the instruction: it is not counted as retired. *)
Definition cancels (cause : Z) : bool :=
  ((cause <? CAUSE_USER_ECALL) || (CAUSE_USER_ECALL + 3 <? cause)) && negb (cause =? CAUSE_BREAKPOINT).

(** [mmu_exception] and [exception]. *)
Definition take_exception (L : Locals) : M D Z :=
  _ ← modify_cpu (fun c => c <| pc := GET_PC L |>);
  c ← gets cpu;
  if 0 <=? pending_exception c then
    let L := if cancels (pending_exception c)
             then (uncount L) <| insn_executed := insn_executed L - 1 |> else L in
    _ ← modify_cpu (fun c => raise_exception2 (u64 (pending_exception c)) (pending_tval c) c);
    done_interp L
  else done_interp L.

(** [illegal_insn]. *)
Definition illegal_insn (L : Locals) : M D Z :=
  _ ← modify_cpu (fun c => c <| pending_exception := CAUSE_ILLEGAL_INSTRUCTION |> <| pending_tval := 0 |>);
  take_exception L.

(** ** Breakpoint triggers *)

Definition trigger_hit (c : RISCVCPUState) : bool :=
  let t_mctl := MCONTROL_EXECUTE |' (MCONTROL_U <<' priv c) in
  let t_mask := (0xF <<' 60) |' t_mctl in
  let t_match := (0x2 <<' 60) |' t_mctl in
  existsb (fun i => negb (aget (tdata1 c) i &' t_mask =? t_match) && (aget (tdata2 c) i =? pc c))
    (seqZ 0 MAX_TRIGGERS).

(** ** Fetch *)

(** The instruction at [s->pc], with the cached code pointer updated on a TLB hit; [None] means an
    exception is pending. *)
Definition fetch (L : Locals) : M D (option Z * Locals) :=
  s ← gets id;
  let addr := pc (cpu s) in
  let e := tlb_get (tlb_code (cpu s)) (tlb_index addr) in
  if vaddr e =? page_of addr then
    let ptr := u64 (mem_addend e + addr) in
    let end_ := u64 (mem_addend e + u64 (page_of addr + PG_MASK - 1)) in
    let L := L <| code_ptr := ptr |> <| code_end := end_ |> <| code_to_pc_addend := u64 (addr - ptr) |> in
    if end_ <=? ptr then
      let insn := ld 2 (hmem s) ptr in
      if insn &' 3 =? 3 then
        r ← target_read_insn_u16 (u64 (addr + 2));
        match r with
        | None => mret (None, L)
        | Some insn_high => mret (Some (insn |' u32 (insn_high <<' 16)), L)
        end
      else mret (Some insn, L)
    else mret (Some (get_insn32 (hmem s) ptr), L)
  else
    r ← target_read_insn_slow 32 addr;
    mret (r, L).

(** ** The main loop *)

Fixpoint interp_loop (fuel : nat) (L : Locals) : M D Z :=
  match fuel with
  | O => stop OutOfFuel
  | S fuel =>
      _ ← modify_cpu (fun c => c <| pc := GET_PC L |>);
      let L := L <| n_cycles := n_cycles L - 1 |> in
      if n_cycles L =? 0 then the_end L
      else
        let L := L <| insn_executed := insn_executed L + 1 |> in
        c ← gets cpu;
        if trigger_hit c then
          _ ← modify_cpu (fun c => c <| pending_exception := CAUSE_BREAKPOINT |> <| pending_tval := 0 |>);
          _ ← modify_cpu (fun c => raise_exception2 (u64 (pending_exception c)) (pending_tval c) c);
          done_interp (uncount L)
        else
          taken ← (if code_end L <=? code_ptr L then poll_interrupt else mret false);
          if (taken : bool) then the_end L
          else
            '(r, L) ← (if code_end L <=? code_ptr L then fetch L
                       else s ← gets id; mret (Some (get_insn32 (hmem s) (code_ptr L)), L));
            match r with
            | None => take_exception L
            | Some insn =>
                '(o, L) ← exec L insn;
                match o with
                | Next n => interp_loop fuel (L <| code_ptr := u64 (code_ptr L + n) |>)
                | JumpInsn kind =>
                    _ ← modify_cpu (fun c => c <| info := kind |> <| next_addr := pc c |>);
                    c ← gets cpu;
                    interp_loop fuel (L <| code_ptr := 0 |> <| code_end := 0 |> <| code_to_pc_addend := pc c |>)
                | IllegalInsn => illegal_insn L
                | MmuException | ExceptionRaised => take_exception L
                | DoneInterp => done_interp L
                end
            end
  end.

Definition riscv_cpu_interp (cycles : Z) : M D Z :=
  s ← gets id;
  let insn_counter_start := insn_counter (cpu s) in
  _ ← modify_cpu (fun c => c <| most_recently_written_reg := -1 |>
                              <| most_recently_written_fp_reg := -1 |> <| info := ctf_nop |>);
  if cycles =? 0 then mret 0
  else
    let addend := u64 (insn_counter (cpu s) + cycles) in
    taken ← poll_interrupt;
    if (taken : bool) then
      done_interp (mkLocals 0 0 0 (u64 (addend - 1)) insn_counter_start cycles 0)
    else
      _ ← modify_cpu (fun c => c <| pending_exception := -1 |>);
      c ← gets cpu;
      interp_loop (Z.to_nat (cycles + 1))
        (mkLocals 0 0 (pc c) addend insn_counter_start (cycles + 1) 0).

End Interp.

(** ** The loop terminates, counts, and keeps the invariant *)

Section Loop.
Context {D : Type} {DW : DevWf D} {DO : DeviceOps D} {DL : DeviceLaws D} `{MH : MachineHooks} {HL : HookLaws} `{FP : SoftFp} {FL : SoftFpLaws}.
Implicit Types s : System D.

Lemma keeps_poll : keeps (D := D) poll_interrupt (fun _ => True).
Proof.
  unfold poll_interrupt. eapply keeps_bind; [apply keeps_sys|]. intros s [Hs _].
  destruct (interrupts_visible s); [|kstep]. destruct (raise_interrupt (cpu s)) as [taken c] eqn:E.
  apply wf_raise_interrupt in E; [|exact Hs].
  eapply keeps_bind; [apply keeps_modify_cpu; intros; exact E|]. intros. kstep.
Qed.

Lemma keeps_the_end L : keeps (D := D) (the_end L) (eq (insn_executed L)).
Proof.
  unfold the_end. kstep. eapply keeps_bind; [apply keeps_account|]. intros. apply keeps_ret. reflexivity.
Qed.

Lemma wf_raise_pending c : cpu_wf c -> cpu_wf (raise_exception2 (u64 (pending_exception c)) (pending_tval c) c).
Proof. intros H. apply wf_raise_exception2; [exact H|apply in_u_u64]. Qed.
Hint Resolve wf_raise_pending : cpu_wf.

(** A result between [lo] and [hi] instructions. *)
Lemma keeps_done L lo hi : lo <= insn_executed L <= hi -> keeps (D := D) (done_interp L) (fun n => lo <= n <= hi).
Proof. intros H. eapply keeps_weaken; [apply keeps_the_end|]. cbn. intros n <-. exact H. Qed.
Lemma keeps_end L lo hi : lo <= insn_executed L <= hi -> keeps (D := D) (the_end L) (fun n => lo <= n <= hi).
Proof. intros H. eapply keeps_weaken; [apply keeps_the_end|]. cbn. intros n <-. exact H. Qed.

Lemma keeps_take_exception L hi : 1 <= insn_executed L <= hi -> keeps (D := D) (take_exception L) (fun n => 0 <= n <= hi).
Proof.
  intros H. unfold take_exception. kstep. eapply keeps_bind; [apply keeps_cpu|]. intros c Hc. cbv zeta.
  destruct (0 <=? _); [kstep|]; apply keeps_done; [destruct (cancels _); cbn|]; lia.
Qed.

Lemma keeps_illegal_insn L hi : 1 <= insn_executed L <= hi -> keeps (D := D) (illegal_insn L) (fun n => 0 <= n <= hi).
Proof. intros H. unfold illegal_insn. kstep. apply keeps_take_exception, H. Qed.

Lemma keeps_insn_slow size addr : in_u 64 addr -> keeps (D := D) (target_read_insn_slow size addr) (fun _ => True).
Proof.
  intros Ha. unfold target_read_insn_slow.
  ksteps; try (apply keeps_fault; [exact Ha|exact I]); try (apply keeps_stop; exact I).
  apply keeps_bind with (P := fun _ => True); [ksteps|]. intros ? _.
  ksteps; try (apply keeps_fault; [exact Ha|exact I]); try (apply keeps_stop; exact I).
Qed.

Lemma keeps_insn_u16 addr : in_u 64 addr -> keeps (D := D) (target_read_insn_u16 addr) (fun _ => True).
Proof.
  intros Ha. unfold target_read_insn_u16. ksteps. eapply keeps_bind; [apply keeps_insn_slow, Ha|]. intros. ksteps.
Qed.

(** The locals that the loop counts with. *)
Definition counts_alike (L L' : Locals) : Prop := n_cycles L' = n_cycles L /\ insn_executed L' = insn_executed L.

Lemma keeps_fetch L : keeps (D := D) (fetch L) (fun '(_, L') => counts_alike L L').
Proof.
  unfold fetch. eapply keeps_bind; [apply keeps_sys|]. intros s [Hs _]. cbv zeta.
  repeat (destruct (_ =? _) || destruct (_ <=? _)).
  all: try (apply keeps_ret; split; reflexivity).
  - eapply keeps_bind; [apply keeps_insn_u16, in_u_u64|]. intros [h|] _; apply keeps_ret; split; reflexivity.
  - eapply keeps_bind; [apply keeps_insn_slow, Hs|]. intros r _. apply keeps_ret. split; reflexivity.
Qed.

Lemma keeps_and {A} (m : M D A) (P Q : A -> Prop) :
  keeps m P -> (forall s a s', m s = Done (a, s') -> Q a) -> keeps m Q.
Proof.
  intros Hm H s Hs. specialize (Hm s Hs). destruct (m s) as [[a s']|r] eqn:E; [|exact Hm].
  split; [apply Hm|eapply H, E].
Qed.

Lemma with_locals_inv (m : M D outcome) (L : Locals) s o L' s' : (o ← m; mret (o, L)) s = Done (o, L', s') -> L' = L.
Proof. intros E. apply SM_bind_inv in E as (? & ? & _ & E). injection E as <- <- _. reflexivity. Qed.

(** Only [csrrw] changes a local, and only the counter's addend. *)
Lemma csrrw_locals L rd csr v s o L' s' : exec_csrrw L rd csr v s = Done (o, L', s') -> counts_alike L L'.
Proof.
  unfold exec_csrrw. do 3 (intros E; apply SM_bind_inv in E as (? & ? & _ & E); revert E).
  match goal with |- context [match ?r with Some _ => _ | None => _ end] => destruct r end;
    [|intros [= <- <- <-]; split; reflexivity].
  intros E; apply SM_bind_inv in E as (? & ? & _ & E); revert E.
  destruct (_ =? _); [intros [= <- <- <-]; split; reflexivity|].
  destruct (_ <? _); [intros [= <- <- <-]; split; reflexivity|].
  do 3 (intros E; apply SM_bind_inv in E as (? & ? & _ & E); revert E).
  intros [= <- <- <-]. split; reflexivity.
Qed.

Lemma exec_locals L insn s o L' s' : exec L insn s = Done (o, L', s') -> counts_alike L L'.
Proof.
  unfold exec. cbv zeta. repeat (case_match; [try (intros E; apply with_locals_inv in E as ->; split; reflexivity)|]).
  - unfold exec_system. rewrite run_gets. cbv zeta. case_match; [apply csrrw_locals|].
    case_match; (intros E; apply with_locals_inv in E as ->; split; reflexivity).
  - intros [= <- <- <-]. split; reflexivity.
Qed.

Lemma keeps_exec_counts L insn : keeps (D := D) (exec L insn) (fun '(_, L') => counts_alike L L').
Proof. eapply keeps_and; [apply keeps_exec|]. intros s [o L'] s'. apply exec_locals. Qed.

Lemma wf_jump_info c kind : cpu_wf c -> cpu_wf (c <| info := kind |> <| next_addr := pc c |>).
Proof. intros H. apply wf_set_next_addr; [apply wf_set_info, H|apply H]. Qed.
Hint Resolve wf_jump_info : cpu_wf.

(** [n_cycles] is enough fuel, and at most [n_cycles - 1] more instructions execute. *)
Lemma keeps_loop fuel : forall L hi, Z.of_nat fuel = n_cycles L -> 0 < n_cycles L -> 0 <= insn_executed L ->
  insn_executed L + n_cycles L - 1 <= hi -> keeps (D := D) (interp_loop fuel L) (fun n => 0 <= n <= hi).
Proof.
  induction fuel as [|fuel IH]; intros L hi Hf Hn He Hh; [lia|]. cbn [interp_loop]. kstep. cbv beta zeta. cbn [upd upd_n_cycles upd_insn_executed n_cycles insn_executed code_end code_ptr].
  destruct (Z.eqb_spec (n_cycles L - 1) 0); [apply keeps_end; cbn; lia|].
  eapply keeps_bind; [apply keeps_cpu|]. intros c _. destruct (trigger_hit c); [kstep; kstep; apply keeps_done; cbn; lia|].
  apply keeps_bind with (P := fun _ => True); [destruct (_ <=? _); [apply keeps_poll|kstep]|].
  intros taken _. destruct taken; [apply keeps_end; cbn; lia|].
  match goal with |- context [fetch ?L] => set (L1 := L) end.
  apply keeps_bind with (P := fun '(_, L') => counts_alike L1 L').
  { destruct (_ <=? _); [apply keeps_fetch|]. eapply keeps_bind; [apply keeps_sys|]. intros. apply keeps_ret. split; reflexivity. }
  intros [r L2] [Hn2 He2]. cbn in Hn2, He2. destruct r as [insn|]; [|apply keeps_take_exception; lia].
  eapply keeps_bind; [apply keeps_exec_counts|]. intros [o L3] [Hn3 He3].
  destruct o.
  - apply IH; cbn; lia.
  - kstep. eapply keeps_bind; [apply keeps_cpu|]. intros c2 _. apply IH; cbn; lia.
  - apply keeps_illegal_insn; lia.
  - apply keeps_take_exception; lia.
  - apply keeps_take_exception; lia.
  - apply keeps_done; lia.
Qed.

Lemma keeps_interp cycles : 0 <= cycles -> keeps (D := D) (riscv_cpu_interp cycles) (fun n => 0 <= n <= cycles).
Proof.
  intros Hc. unfold riscv_cpu_interp. eapply keeps_bind; [apply keeps_sys|]. intros s _. cbv zeta. kstep.
  destruct (Z.eqb_spec cycles 0); [apply keeps_ret; lia|].
  eapply keeps_bind; [apply keeps_poll|]. intros taken _. destruct taken; [apply keeps_done; cbn; lia|].
  kstep. eapply keeps_bind; [apply keeps_cpu|]. intros c _. apply keeps_loop; cbn; lia.
Qed.

(** Running the hart for any number of cycles never reaches the loop's bound, keeps the type invariant of
    the whole system (register ranges, x0 = 0, mstatus, delegation masks, satp mode, TLB shape,
    byte-valued memory) on every path through fetch, execution, interrupts, triggers and exceptions,
    and reports between 0 and [cycles] executed instructions; it fails to return only when the host
    program stops, or in a device access, if the devices are [endless].  The devices, the CSR hooks
    and the floating-point library are taken at their interfaces [DeviceLaws], [HookLaws] and
    [SoftFpLaws]. *)
Theorem interp_invariant cycles s : 0 <= cycles -> sys_wf s ->
  match riscv_cpu_interp cycles s with
  | Done (n, s') => sys_wf s' /\ 0 <= n <= cycles
  | Stop r => may_stop r
  end.
Proof. intros Hc Hs. exact (keeps_interp cycles Hc s Hs). Qed.

End Loop.

(** ** Counting retired instructions *)

(** The CSR hooks leave the instruction counter alone. *)
Class HookCounter `{MachineHooks} : Prop := {
  hook_read_counter : forall f c csr, hook_csr_read = Some f -> insn_counter (snd (f c csr)) = insn_counter c;
  hook_write_counter : forall f c csr v, hook_csr_write = Some f -> insn_counter (snd (f c csr v)) = insn_counter c }.

#[export] Instance no_hooks_counter : @HookCounter no_hooks.
Proof. split; discriminate. Qed.

Definition case_counter (n : Z) (w : write_case) : Prop :=
  match w with WOk c | WRet _ c => insn_counter c = n | WInvalid | WFall => True end.

Ltac same_counter := cbv zeta; repeat match goal with |- context [if ?b then _ else _] => destruct b end;
  cbn [case_counter]; first [exact I | reflexivity].

Lemma set_mstatus_counter v c : insn_counter (set_mstatus v c) = insn_counter c.
Proof. unfold set_mstatus. cbv zeta. destruct (_ || _); reflexivity. Qed.

Lemma write_supervisor_counter c csr v : case_counter (insn_counter c) (csr_write_supervisor c csr v).
Proof.
  unfold csr_write_supervisor. repeat (case_match; [first [apply set_mstatus_counter | same_counter]|]). exact I.
Qed.
Lemma write_machine_counter c csr v : case_counter (insn_counter c) (csr_write_machine c csr v).
Proof.
  unfold csr_write_machine. case_match; [apply set_mstatus_counter|].
  repeat (case_match; [same_counter|]). exact I.
Qed.
Lemma write_debug_counter c csr v : case_counter (insn_counter c) (csr_write_debug c csr v).
Proof. unfold csr_write_debug. same_counter. Qed.

Lemma unpack_counter c c' : unpack_pmpaddrs c = Done c' -> insn_counter c' = insn_counter c.
Proof.
  unfold unpack_pmpaddrs. destruct (fold_left _ _ _) as [c1|] eqn:E; cbn [mbind res_bind]; [|discriminate].
  intros [= <-]. change (insn_counter c1 = insn_counter (c <| pmp_n := 0 |>)). revert E.
  generalize (c <| pmp_n := 0 |>). generalize (seqZ 0 16). induction l as [|i l IH]; intros c2; cbn [fold_left].
  { intros [= <-]. reflexivity. }
  destruct (unpack_step c (Done c2) i) as [c3|] eqn:E; [|rewrite fold_step_stop; discriminate].
  intros E'. rewrite (IH _ E'). revert E. unfold unpack_step. cbn [mbind res_bind].
  destruct (unpack_entry c i) as [[[cfg r]|]|]; cbn [mbind res_bind]; [| |discriminate]; intros [= <-]; reflexivity.
Qed.

Lemma write_pmp_counter c csr v w : csr_write_pmp_counters c csr v = Done w -> case_counter (insn_counter c) w.
Proof.
  unfold csr_write_pmp_counters. cbv zeta.
  assert (forall c1, insn_counter c1 = insn_counter c -> (c2 ← unpack_pmpaddrs c1; Done (WOk c2)) = Done w ->
    case_counter (insn_counter c) w) as K.
  { intros c1 H1. destruct (unpack_pmpaddrs c1) as [c2|] eqn:E; cbn [mbind res_bind]; [|discriminate].
    apply unpack_counter in E. intros [= <-]. cbn [case_counter]. congruence. }
  destruct (_ || _); [destruct (_ <=? _); [intros [= <-]; reflexivity|apply K; reflexivity]|].
  destruct (csr_between _ _ _); [destruct (_ <=? _); [intros [= <-]; reflexivity|apply K; reflexivity]|].
  destruct (_ =? _); [intros [= <-]; reflexivity|]. destruct (_ =? _); [intros [= <-]; reflexivity|].
  destruct (csr_between _ _ _); intros [= <-]; [reflexivity|exact I].
Qed.

Section Retired.
Context {D : Type} {DO : DeviceOps D} `{MH : MachineHooks} {HC : HookCounter} `{FP : SoftFp}.
Implicit Types s : System D.

Lemma csr_write_counter c csr v ret c' : csr_write c csr v = Done (ret, c') -> insn_counter c' = insn_counter c.
Proof.
  unfold csr_write, csr_write_case. pose proof (write_supervisor_counter c csr v) as W1.
  pose proof (write_machine_counter c csr v) as W2. pose proof (write_debug_counter c csr v) as W3.
  destruct (csr_write_supervisor c csr v); cbn [mbind res_bind case_counter] in *; try (intros [= <- <-]; auto; fail).
  destruct (csr_write_machine c csr v); cbn [mbind res_bind case_counter] in *; try (intros [= <- <-]; auto; fail).
  destruct (csr_write_debug c csr v); cbn [mbind res_bind case_counter] in *; try (intros [= <- <-]; auto; fail).
  pose proof (write_pmp_counter c csr v) as W4.
  destruct (csr_write_pmp_counters c csr v) as [w|]; cbn [mbind res_bind]; [|discriminate]. specialize (W4 w eq_refl).
  destruct w; cbn [case_counter] in *; try (intros [= <- <-]; auto; fail).
  destruct hook_csr_write as [f|] eqn:E; [|intros [= <- <-]; auto].
  intros E'. pose proof (hook_write_counter f c csr v E) as Hf. injection E' as E'. rewrite E' in Hf. exact Hf.
Qed.

Lemma csr_read_counter c csr w ret v c' : csr_read c csr w = (ret, v, c') -> insn_counter c' = insn_counter c.
Proof.
  unfold csr_read. destruct (_ && _); [intros [= <- <- <-]; auto|]. destruct (_ <? _); [intros [= <- <- <-]; auto|]. cbv zeta.
  assert (forall ret v c', match hook_csr_read with
      | Some f => let '(ret, v, c') := f c csr in (ret, Some v, c') | None => (-1, Some 0, c) end = (ret, v, c') ->
      insn_counter c' = insn_counter c) as K.
  { intros r1 v1 c1. destruct hook_csr_read as [f|] eqn:E; [|intros [= <- <- <-]; auto].
    pose proof (hook_read_counter f c csr E) as Hf. destruct (f c csr) as [[r2 v2] c2]. intros [= <- <- <-]. exact Hf. }
  match goal with |- match ?r with _ => _ end = _ -> _ => destruct r end; try (intros [= <- <- <-]; auto; fail); apply K.
Qed.

Lemma account_counter start s u s' : account start s = Done (u, s') -> insn_counter (cpu s') = insn_counter (cpu s).
Proof.
  unfold account. rewrite run_gets. destruct (stop_the_counter _); [intros [= _ <-]; reflexivity|]. cbv zeta.
  intros E. apply SM_bind_inv in E as (? & s1 & E1 & E). injection E as _ <-.
  destruct (0 <=? _); [|discriminate]. injection E1 as _ <-. reflexivity.
Qed.

(** The same position in the count: same cycles left, same number executed, same addend modulo 2^64. *)
Definition count_eq (L L' : Locals) : Prop :=
  n_cycles L' = n_cycles L /\ insn_executed L' = insn_executed L /\
  eqmod 64 (insn_counter_addend L') (insn_counter_addend L).

Lemma count_eq_refl L : count_eq L L.
Proof. repeat split. Qed.

Lemma csrrw_count L rd csr v s o L' s' : exec_csrrw L rd csr v s = Done (o, L', s') -> count_eq L L'.
Proof.
  unfold exec_csrrw, modify_cpu. rewrite run_modify. intros E. apply SM_bind_inv in E as (? & s1 & E1 & E).
  apply account_counter in E1. cbn in E1. apply SM_bind_inv in E as (r & s2 & E2 & E).
  assert (insn_counter (cpu s2) = GET_INSN_COUNTER L) as Hc.
  { rewrite <- E1. revert E2. unfold csr_read_m. destruct (csr_read (cpu s1) csr true) as [[ret v1] c1] eqn:Er.
    apply csr_read_counter in Er. intros [= _ <-]. exact Er. }
  destruct r as [val2|]; [|injection E as <- <- <-; apply count_eq_refl].
  apply SM_bind_inv in E as (err & s3 & E3 & E).
  assert (insn_counter (cpu s3) = GET_INSN_COUNTER L) as Hc3.
  { rewrite <- Hc. revert E3. unfold csr_write_m. destruct (csr_write (cpu s2) csr v) as [[ret c1]|] eqn:Er; [|discriminate].
    apply csr_write_counter in Er. intros [= _ <-]. exact Er. }
  destruct (err =? -2); [injection E as <- <- <-; apply count_eq_refl|].
  destruct (err <? 0); [injection E as <- <- <-; apply count_eq_refl|].
  apply SM_bind_inv in E as (? & s4 & E4 & E). rewrite run_gets in E. apply SM_bind_inv in E as (? & s5 & _ & E).
  injection E as <- <- <-. repeat split. cbn [insn_counter_addend].
  assert (insn_counter (cpu s4) = insn_counter (cpu s3)) as ->.
  { revert E4. unfold wreg_nz, wreg, modify_cpu. destruct (_ =? _); intros [= _ <-]; reflexivity. }
  rewrite Hc3. unfold GET_INSN_COUNTER, u64. rewrite !eqm_wrapu. apply eqm_of_eq. lia.
Qed.

Lemma exec_count L insn s o L' s' : exec L insn s = Done (o, L', s') -> count_eq L L'.
Proof.
  unfold exec. cbv zeta. repeat (case_match; [try (intros E; apply with_locals_inv in E as ->; apply count_eq_refl)|]).
  - unfold exec_system. rewrite run_gets. cbv zeta. case_match; [apply csrrw_count|].
    case_match; (intros E; apply with_locals_inv in E as ->; apply count_eq_refl).
  - intros [= <- <- <-]. apply count_eq_refl.
Qed.

Lemma fetch_count L s r L' s' : fetch L s = Done (r, L', s') -> count_eq L L'.
Proof.
  unfold fetch. rewrite run_gets. cbv zeta. destruct (_ =? _); [destruct (_ <=? _); [destruct (_ =? _)|]|].
  1,4: intros E; apply SM_bind_inv in E as (h & s1 & _ & E); try destruct h; injection E as <- <- <-; repeat split.
  all: intros E; injection E as <- <- <-; repeat split.
Qed.

(** [b] instructions had retired before the call. *)
Definition balanced (b : Z) (L : Locals) : Prop :=
  eqmod 64 (insn_counter_addend L) (b + insn_executed L + n_cycles L - 1).
Definition retired (b n : Z) s : Prop :=
  insn_counter (cpu s) = u64 (b + n) \/ insn_counter (cpu s) = u64 (b + n - 1).

Lemma balanced_eq b L L' : count_eq L L' -> balanced b L -> balanced b L'.
Proof. intros (H1 & H2 & H3) H. unfold balanced in *. rewrite H3, H1, H2. exact H. Qed.

Lemma the_end_counter L s n s' : the_end L s = Done (n, s') ->
  n = insn_executed L /\ insn_counter (cpu s') = GET_INSN_COUNTER L.
Proof.
  unfold the_end, modify_cpu. rewrite run_modify. intros E. apply SM_bind_inv in E as (? & s1 & E1 & E).
  apply account_counter in E1. injection E as <- <-. split; [reflexivity|exact E1].
Qed.

Lemma end_retired b d L s n s' : eqmod 64 (insn_counter_addend L) (b + insn_executed L + n_cycles L - d) -> d = 0 \/ d = 1 ->
  the_end L s = Done (n, s') -> retired b n s'.
Proof.
  intros Hb Hd E. apply the_end_counter in E as [-> E]. unfold retired. rewrite E. unfold GET_INSN_COUNTER, u64.
  rewrite Hb. destruct Hd as [-> | ->]; [left|right]; f_equal; lia.
Qed.

Lemma done_retired b L s n s' : balanced b L -> done_interp L s = Done (n, s') -> retired b n s'.
Proof.
  intros Hb. apply (end_retired b 0); [|auto]. cbn [insn_counter_addend insn_executed n_cycles upd upd_insn_counter_addend upd_insn_executed upd_n_cycles uncount]. unfold balanced in Hb. rewrite Hb. apply eqm_of_eq. lia.
Qed.

Lemma uncount_done_retired b L s n s' : balanced b L -> done_interp (uncount L) s = Done (n, s') -> retired b n s'.
Proof.
  intros Hb. apply (end_retired b 1); [|auto]. cbn [insn_counter_addend insn_executed n_cycles upd upd_insn_counter_addend upd_insn_executed upd_n_cycles uncount]. unfold u64. rewrite eqm_wrapu. unfold balanced in Hb. rewrite Hb.
  apply eqm_of_eq. lia.
Qed.

Lemma exception_retired b L s n s' : balanced b L -> take_exception L s = Done (n, s') -> retired b n s'.
Proof.
  intros Hb. unfold take_exception, modify_cpu. rewrite run_modify, run_gets. cbv zeta.
  destruct (0 <=? _); [|apply done_retired, Hb]. rewrite run_modify. apply done_retired.
  destruct (cancels _); [|exact Hb]. unfold balanced in *. cbn [insn_counter_addend insn_executed n_cycles upd upd_insn_counter_addend upd_insn_executed upd_n_cycles uncount]. unfold u64. rewrite eqm_wrapu, Hb. apply eqm_of_eq. lia.
Qed.

Lemma illegal_retired b L s n s' : balanced b L -> illegal_insn L s = Done (n, s') -> retired b n s'.
Proof. intros Hb. unfold illegal_insn, modify_cpu. rewrite run_modify. apply exception_retired, Hb. Qed.

Lemma loop_retired b fuel : forall L s n s', balanced b L -> interp_loop fuel L s = Done (n, s') -> retired b n s'.
Proof.
  induction fuel as [|fuel IH]; intros L s n s' Hb; [discriminate|]. cbn [interp_loop]. unfold modify_cpu. rewrite run_modify.
  cbv zeta. destruct (_ =? 0); [apply (end_retired b 0); [|auto]; cbn [insn_counter_addend insn_executed n_cycles upd upd_insn_counter_addend upd_insn_executed upd_n_cycles uncount]; unfold balanced in Hb; rewrite Hb; apply eqm_of_eq; lia|].
  match goal with |- context [fetch ?L] => set (L1 := L) end.
  assert (balanced b L1) as Hb1 by (unfold L1, balanced in *; cbn [insn_counter_addend insn_executed n_cycles upd upd_insn_counter_addend upd_insn_executed upd_n_cycles uncount]; rewrite Hb; apply eqm_of_eq; lia). clearbody L1. clear Hb.
  rewrite run_gets. destruct (trigger_hit _); [rewrite !run_modify; apply uncount_done_retired, Hb1|].
  intros E. apply SM_bind_inv in E as (taken & s1 & _ & E). destruct taken; [revert E; apply (end_retired b 1); auto|].
  apply SM_bind_inv in E as ([r L2] & s2 & E2 & E).
  assert (balanced b L2) as Hb2.
  { apply balanced_eq with L1; [|exact Hb1]. destruct (_ <=? _); [eapply fetch_count, E2|].
    rewrite run_gets in E2. injection E2 as _ <- _. apply count_eq_refl. }
  destruct r as [insn|]; [|eapply exception_retired; eauto].
  apply SM_bind_inv in E as ([o L3] & s3 & E3 & E).
  assert (balanced b L3) as Hb3 by (eapply balanced_eq, Hb2; eapply exec_count, E3).
  destruct o; eauto using illegal_retired, exception_retired, done_retired.
  - revert E. apply IH. exact Hb3.
  - rewrite run_modify, run_gets in E. revert E. apply IH. exact Hb3.
Qed.

(** The retired-instruction counter follows the reported count: after a run that reports [n]
    instructions, [insn_counter] has advanced by [n] modulo 2^64, or by [n - 1] when the run ended in
    an interrupt or a breakpoint trigger taken before the last counted instruction executed.  A
    cancelled instruction is in neither count. *)
Theorem insn_counter_advance cycles s n s' : riscv_cpu_interp cycles s = Done (n, s') -> 0 < cycles ->
  insn_counter (cpu s') = u64 (insn_counter (cpu s) + n) \/ insn_counter (cpu s') = u64 (insn_counter (cpu s) + n - 1).
Proof.
  intros E Hc. revert E. unfold riscv_cpu_interp, modify_cpu. rewrite run_gets. cbv zeta. rewrite run_modify. unfold id.
  destruct (Z.eqb_spec cycles 0); [lia|]. intros E. apply SM_bind_inv in E as (taken & s1 & _ & E).
  destruct taken; [apply done_retired with (b := insn_counter (cpu s)) in E|rewrite run_modify, run_gets in E; apply loop_retired with (b := insn_counter (cpu s)) in E].
  1,3: exact E.
  all: unfold balanced; cbn [insn_counter_addend insn_executed n_cycles upd upd_insn_counter_addend upd_insn_executed upd_n_cycles uncount]; unfold u64; rewrite !eqm_wrapu; apply eqm_of_eq; lia.
Qed.

End Retired.

(** ** Examples *)

(** A floating-point unit that computes nothing, for programs without floating point. *)
Definition null_fp : SoftFp := {|
  add_sf _ _ _ _ fl := (0, fl); sub_sf _ _ _ _ fl := (0, fl); mul_sf _ _ _ _ fl := (0, fl);
  div_sf _ _ _ _ fl := (0, fl); sqrt_sf _ _ _ fl := (0, fl); fma_sf _ _ _ _ _ fl := (0, fl);
  min_sf _ _ _ fl := (0, fl); max_sf _ _ _ fl := (0, fl); eq_quiet_sf _ _ _ fl := (0, fl);
  le_sf _ _ _ fl := (0, fl); lt_sf _ _ _ fl := (0, fl); fclass_sf _ _ := 0;
  cvt_sf_i32 _ _ _ fl := (0, fl); cvt_sf_u32 _ _ _ fl := (0, fl);
  cvt_sf_i64 _ _ _ fl := (0, fl); cvt_sf_u64 _ _ _ fl := (0, fl);
  cvt_i32_sf _ _ _ fl := (0, fl); cvt_u32_sf _ _ _ fl := (0, fl);
  cvt_i64_sf _ _ _ fl := (0, fl); cvt_u64_sf _ _ _ fl := (0, fl);
  cvt_sf32_sf64 _ fl := (0, fl); cvt_sf64_sf32 _ _ fl := (0, fl) |}.

Lemma null_fp_laws : @SoftFpLaws null_fp.
Proof. split; intros; try (intros fl Hfl); cbn; auto; (split; [split; [discriminate|reflexivity]|assumption]). Qed.

(** A machine-mode hart with a program at the start of the demo RAM. *)
Definition demo_code (l : list Z) : System unit :=
  mkSystem (reset_cpu <| pc := 0x80000000 |>) (mkVirtMachine false (-1) (-1) 0 0) (mkPhysMemoryMap [demo_dev; demo_ram])
    (store_words 0x100000 l) tt.

Lemma demo_code_wf l : sys_wf (demo_code l).
Proof.
  split; [apply wf_set_pc; [apply reset_cpu_wf|split; [discriminate|reflexivity]]|].
  split; [apply store_words_wf|exact I].
Qed.

Definition demo_run (cycles : Z) (l : list Z) : res (Z * System unit) :=
  @riscv_cpu_interp unit no_devices no_hooks null_fp cycles (demo_code l).

(** [li x1, 5; sll x2, x1, x1; bne x2, x0, -4]. *)
Definition demo_loop : list Z := [0x00500093; 0x00109133; 0xfe011ee3].

Lemma interp_invariant_witness :
  match demo_run 7 demo_loop with Done (n, s') => sys_wf s' /\ 0 <= n <= 7 | Stop r => may_stop r end.
Proof.
  refine (@interp_invariant unit no_devices_wf no_devices no_devices_laws no_hooks no_hooks_laws null_fp null_fp_laws 7 (demo_code demo_loop) _ _);
    [lia|apply demo_code_wf].
Defined.

Definition demo_final (cycles : Z) (l : list Z) : System unit :=
  match demo_run cycles l with Done (_, s) => s | Stop _ => demo_code l end.

Lemma insn_counter_advance_witness :
  insn_counter (cpu (demo_final 7 demo_loop)) = u64 (insn_counter (cpu (demo_code demo_loop)) + 7) \/
  insn_counter (cpu (demo_final 7 demo_loop)) = u64 (insn_counter (cpu (demo_code demo_loop)) + 7 - 1).
Proof.
  apply (@insn_counter_advance unit no_devices no_hooks no_hooks_counter null_fp 7 (demo_code demo_loop) 7 (demo_final 7 demo_loop));
    [vm_compute; reflexivity|reflexivity].
Defined.

(** A CSR access inside a run makes the counter CSRs count the instructions before it twice: four
    instructions, two of them CSR reads, leave [minstret] and [mcycle] at 6, while [insn_counter] is 4;
    four [nop]s leave all three at 4. *)
Theorem csr_access_counts_twice :
  let counts l := match demo_run 4 l with
    | Done (n, s) => Some (n, insn_counter (cpu s), minstret (cpu s), mcycle (cpu s)) | Stop _ => None end in
  counts [0x340022f3; 0x13; 0x340022f3; 0x13] = Some (4, 4, 6, 6) /\
  counts [0x13; 0x13; 0x13; 0x13] = Some (4, 4, 4, 4).
Proof. vm_compute. auto. Qed.
