(* ===== verification/Uart.v ===== *)
(** * The serial ports ([dw_apb_uart.cpp], the SiFive UART of [riscv_machine.cpp]) and the console
      behind them ([console_read]/[console_write] of [dromajo_main.cpp])

    Each port is a register file whose operations run in [SM] over its own
    state and the console they share.  The host's standard input is the list
    of bytes not read yet, its output the list of bytes written. *)

From S2P Require Import Prelude.
From stdpp Require Import base list.
From Stdlib Require Import ZArith Lia Bool.
Local Open Scope Z_scope.
Local Open Scope bits_scope.

(** ** The console *)

Record Console := mkConsole { con_in : list Z; console_esc_state : bool; con_out : list Z }.

#[export] Instance upd_con_in : Upd con_in := fun v c => mkConsole v (console_esc_state c) (con_out c).
#[export] Instance upd_con_esc : Upd console_esc_state := fun v c => mkConsole (con_in c) v (con_out c).
#[export] Instance upd_con_out : Upd con_out := fun v c => mkConsole (con_in c) (console_esc_state c) v.

(** [write_data(opaque, &ch, 1)]. *)
Definition console_write (ch : Z) : SM Console unit := modify (fun c => c <| con_out := con_out c ++ [ch] |>).

(** [read_data(opaque, &ch, 1)]: [None] is a return value of 0. *)
Definition console_read : SM Console (option Z) :=
  c ← gets id;
  match con_in c with
  | [] => mret None
  | ch :: rest =>
      _ ← modify (fun c => c <| con_in := rest |>);
      if console_esc_state c then
        _ ← modify (fun c => c <| console_esc_state := false |>);
        if ch =? 120 (* 'x' *) then stop (Exited 0)
        else if ch =? 104 (* 'h' *) then mret None
        else if ch =? 1 then mret (Some ch)
        else mret None
      else if ch =? 2 then _ ← modify (fun c => c <| console_esc_state := true |>); mret None
      else mret (Some ch)
  end.

(** ** The SiFive UART *)

Definition SIFIVE_UART_TXFIFO := 0.
Definition SIFIVE_UART_RXFIFO := 4.
Definition SIFIVE_UART_TXCTRL := 8.
Definition SIFIVE_UART_RXCTRL := 12.
Definition SIFIVE_UART_IE := 16.
Definition SIFIVE_UART_IP := 20.
Definition SIFIVE_UART_DIV := 24.
Definition SIFIVE_UART_IP_RXWM := 2.

Record SiFiveUARTState := mkSiFiveUART {
  rx_fifo_len : Z; ie : Z; ip : Z; txctrl : Z; rxctrl : Z; div : Z }.

#[export] Instance upd_ie : Upd ie := fun v u => mkSiFiveUART (rx_fifo_len u) v (ip u) (txctrl u) (rxctrl u) (div u).
#[export] Instance upd_txctrl : Upd txctrl := fun v u => mkSiFiveUART (rx_fifo_len u) (ie u) (ip u) v (rxctrl u) (div u).
#[export] Instance upd_rxctrl : Upd rxctrl := fun v u => mkSiFiveUART (rx_fifo_len u) (ie u) (ip u) (txctrl u) v (div u).
#[export] Instance upd_div : Upd div := fun v u => mkSiFiveUART (rx_fifo_len u) (ie u) (ip u) (txctrl u) (rxctrl u) v.

(** A port and the console. *)
Definition Port (U : Type) : Type := U * Console.
Definition on_console {U A} (m : SM Console A) : SM (Port U) A := fun p =>
  match m (snd p) with Done (a, c) => Done (a, (fst p, c)) | Stop r => Stop r end.
Definition port {U} : SM (Port U) U := gets fst.
Definition on_port {U} (f : U -> U) : SM (Port U) unit := modify (fun p => (f (fst p), snd p)).

Definition uart_read (offset : Z) : SM (Port SiFiveUARTState) Z :=
  u ← port;
  if offset =? SIFIVE_UART_RXFIFO then
    r ← on_console console_read;
    match r with Some ch => mret ch | None => mret 0x80000000 end
  else if offset =? SIFIVE_UART_TXFIFO then mret 0
  else if offset =? SIFIVE_UART_IE then mret (ie u)
  else if offset =? SIFIVE_UART_IP then mret (if negb (rx_fifo_len u =? 0) then SIFIVE_UART_IP_RXWM else 0)
  else if offset =? SIFIVE_UART_TXCTRL then mret (txctrl u)
  else if offset =? SIFIVE_UART_RXCTRL then mret (rxctrl u)
  else if offset =? SIFIVE_UART_DIV then mret (div u)
  else mret 0.

Definition uart_write (offset val : Z) : SM (Port SiFiveUARTState) unit :=
  if offset =? SIFIVE_UART_TXFIFO then on_console (console_write (u8 val))
  else if offset =? SIFIVE_UART_IE then on_port (fun u => u <| ie := val |>)
  else if offset =? SIFIVE_UART_TXCTRL then on_port (fun u => u <| txctrl := val |>)
  else if offset =? SIFIVE_UART_RXCTRL then on_port (fun u => u <| rxctrl := val |>)
  else if offset =? SIFIVE_UART_DIV then on_port (fun u => u <| div := val |>)
  else mret tt.

(** ** The DesignWare UART *)

Definition uart_reg_rx_buf := 0x00.
Definition uart_reg_intren := 0x04.
Definition uart_reg_intrid := 0x08.
Definition uart_reg_linecontrol := 0x0c.
Definition uart_reg_linestatus := 0x14.
Definition uart_reg_comptype := 0xfc.
Definition FEATURE_THRE_MODE_USER := 1.
Definition FEATURE_LSR_STATUS_CLEAR := 0.

Record DW_apb_uart_state := mkDW {
  div_latch : Z; rbr : Z; ier : Z; fcr : Z; iid : Z; lcr : Z; lsr : Z }.

#[export] Instance upd_div_latch : Upd div_latch := fun v u => mkDW v (rbr u) (ier u) (fcr u) (iid u) (lcr u) (lsr u).
#[export] Instance upd_rbr : Upd rbr := fun v u => mkDW (div_latch u) v (ier u) (fcr u) (iid u) (lcr u) (lsr u).
#[export] Instance upd_ier : Upd ier := fun v u => mkDW (div_latch u) (rbr u) v (fcr u) (iid u) (lcr u) (lsr u).
#[export] Instance upd_fcr : Upd fcr := fun v u => mkDW (div_latch u) (rbr u) (ier u) v (iid u) (lcr u) (lsr u).
#[export] Instance upd_iid : Upd iid := fun v u => mkDW (div_latch u) (rbr u) (ier u) (fcr u) v (lcr u) (lsr u).
#[export] Instance upd_lcr : Upd lcr := fun v u => mkDW (div_latch u) (rbr u) (ier u) (fcr u) (iid u) v (lsr u).
#[export] Instance upd_lsr : Upd lsr := fun v u => mkDW (div_latch u) (rbr u) (ier u) (fcr u) (iid u) (lcr u) v.

(** [x &= ~m] on a [uint8_t]. *)
Definition clear8 (x m : Z) : Z := u8 (x &' not32 m).

(** Bit 7 of the line control: the divisor latch is selected. *)
Definition dlab (u : DW_apb_uart_state) : bool := tst (lcr u) (1 <<' 7).

Definition dw_apb_uart_read (offset : Z) : SM (Port DW_apb_uart_state) Z :=
  _ ← liftr (assert_c ((offset mod 4 =? 0) && (offset / 4 <? 64)));
  u ← port;
  if offset =? uart_reg_rx_buf then
    if dlab u then mret (div_latch u &' 255)
    else
      _ ← on_port (fun u => u <| lsr := clear8 (lsr u) 1 |>);
      _ ← on_port (fun u => if FEATURE_LSR_STATUS_CLEAR =? 0 then u <| lsr := clear8 (lsr u) 30 |> else u);
      mret (rbr u)
  else if offset =? uart_reg_intren then
    mret (if dlab u then div_latch u >>' 8 else ier u)
  else if offset =? uart_reg_intrid then
    _ ← on_port (fun u => u <| iid := 1 |>);
    mret ((if tst (fcr u) 1 then 0xc0 else 0) + 1)
  else if offset =? uart_reg_linecontrol then mret (lcr u)
  else if offset =? uart_reg_linestatus then
    _ ← on_port (fun u => u <| lsr := lsr u |' (1 <<' 6) |' (1 <<' 5) |>);
    _ ← on_port (fun u => u <| lsr := clear8 (lsr u) 30 |>);
    u' ← port;
    if negb (tst (lsr u') 1) then
      r ← on_console console_read;
      match r with
      | Some buf => _ ← on_port (fun u => u <| lsr := lsr u |' 1 |> <| rbr := buf |>); mret (lsr u)
      | None => mret (lsr u)
      end
    else mret (lsr u)
  else mret 0.

Definition dw_apb_uart_write (offset val : Z) : SM (Port DW_apb_uart_state) unit :=
  let val := val &' 255 in
  _ ← liftr (assert_c ((offset mod 4 =? 0) && (offset / 4 <? 64)));
  u ← port;
  if offset =? uart_reg_rx_buf then
    if dlab u then on_port (fun u => u <| div_latch := u16 ((div_latch u &' not32 255) + val) |>)
    else
      _ ← on_console (console_write val);
      _ ← on_port (fun u => u <| lsr := clear8 (lsr u) (1 <<' 5) |>);
      on_port (fun u => u <| lsr := clear8 (lsr u) (1 <<' 6) |>)
  else if offset =? uart_reg_intren then
    if dlab u then on_port (fun u => u <| div_latch := u16 ((div_latch u &' 255) + val * 256) |>)
    else on_port (fun u => u <| ier := val &' (if negb (FEATURE_THRE_MODE_USER =? 0) then 0xFF else 0x7F) |>)
  else if offset =? uart_reg_intrid then on_port (fun u => u <| fcr := val |>)
  else if offset =? uart_reg_linecontrol then on_port (fun u => u <| lcr := val |>)
  else mret tt.

(** ** Well-formed ports *)

Definition console_wf (c : Console) : Prop := Forall (in_u 8) (con_in c) /\ Forall (in_u 8) (con_out c).
Definition uart_wf (u : SiFiveUARTState) : Prop :=
  in_u 32 (rx_fifo_len u) /\ in_u 32 (ie u) /\ in_u 32 (ip u) /\ in_u 32 (txctrl u) /\ in_u 32 (rxctrl u) /\ in_u 32 (div u).
Definition dw_wf (u : DW_apb_uart_state) : Prop :=
  in_u 16 (div_latch u) /\ in_u 8 (rbr u) /\ in_u 8 (ier u) /\ in_u 8 (fcr u) /\ in_u 8 (iid u) /\ in_u 8 (lcr u) /\ in_u 8 (lsr u).

(** From a well-formed port, [m] ends well formed with a result in [Q], or stops without running out of fuel. *)
Definition port_keeps {U A} (wf : U -> Prop) (m : SM (Port U) A) (Q : A -> Prop) : Prop := forall u c, wf u -> console_wf c ->
  match m (u, c) with Done (a, (u', c')) => wf u' /\ console_wf c' /\ Q a | Stop r => host_stop r end.

Section Keeps.
Context {U : Type} (wf : U -> Prop).

Lemma port_keeps_ret {A} (a : A) (Q : A -> Prop) : Q a -> port_keeps wf (mret a) Q.
Proof. intros H u c Hu Hc. cbn. auto. Qed.

Lemma port_keeps_bind {A B} (m : SM (Port U) A) (f : A -> SM (Port U) B) (P : A -> Prop) Q :
  port_keeps wf m P -> (forall a, P a -> port_keeps wf (f a) Q) -> port_keeps wf (m ≫= f) Q.
Proof.
  intros Hm Hf u c Hu Hc. rewrite run_bind. specialize (Hm u c Hu Hc).
  destruct (m (u, c)) as [[a [u' c']]|r]; [|exact Hm]. destruct Hm as (Hu' & Hc' & Ha). apply Hf; auto.
Qed.

Lemma port_keeps_port : port_keeps wf port wf.
Proof. intros u c Hu Hc. cbn. auto. Qed.

Lemma port_keeps_on f : (forall u, wf u -> wf (f u)) -> port_keeps wf (on_port f) (fun _ => True).
Proof. intros Hf u c Hu Hc. cbn. auto. Qed.

Lemma port_keeps_assert b : port_keeps wf (liftr (assert_c b)) (fun _ => True).
Proof. intros u c Hu Hc. destruct b; cbn; [auto|exact I]. Qed.

Lemma port_keeps_write ch : in_u 8 ch -> port_keeps wf (on_console (console_write ch)) (fun _ => True).
Proof.
  intros Hch u c Hu [Hi Ho]. cbn. split; [exact Hu|]. split; [|exact I]. split; [exact Hi|].
  cbn. apply Forall_app. auto.
Qed.

Lemma port_keeps_read : port_keeps wf (on_console console_read) (fun r => match r with Some ch => in_u 8 ch | None => True end).
Proof.
  intros u [inp esc out] Hu [Hi Ho]. cbn [con_in con_out] in *. unfold on_console, console_read. cbn [fst snd]. rewrite run_gets.
  cbn [con_in console_esc_state id]. destruct inp as [|ch rest]; [repeat (split; auto)|].
  apply Forall_cons in Hi as [Hch Hi]. rewrite run_modify.
  destruct esc; [rewrite run_modify; destruct (ch =? 120); [exact I|]; destruct (ch =? 104); [|destruct (ch =? 1)]
                |destruct (ch =? 2); [rewrite run_modify|]]; cbn; repeat (split; auto).
Qed.

End Keeps.

Create HintDb port.
#[local] Hint Resolve port_keeps_port port_keeps_assert port_keeps_read : port.

Lemma in_u_8_32 x : in_u 8 x -> in_u 32 x.
Proof. apply in_u_mono. lia. Qed.

Lemma uart_read_ok offset : port_keeps uart_wf (uart_read offset) (in_u 32).
Proof.
  unfold uart_read. eapply port_keeps_bind; [apply port_keeps_port|]. intros u (H1 & H2 & H3 & H4 & H5 & H6).
  repeat match goal with |- port_keeps _ (if ?b then _ else _) _ => destruct b end;
    try (apply port_keeps_ret; first [assumption | destruct (negb _); split; (discriminate || reflexivity) | split; (discriminate || reflexivity)]).
  eapply port_keeps_bind; [apply port_keeps_read|]. intros [ch|] Hch; apply port_keeps_ret; [apply in_u_8_32, Hch|].
  split; [discriminate|reflexivity].
Qed.

Lemma uart_write_ok offset val : in_u 32 val -> port_keeps uart_wf (uart_write offset val) (fun _ => True).
Proof.
  intros Hv. unfold uart_write.
  repeat match goal with |- port_keeps _ (if ?b then _ else _) _ => destruct b end;
    first [apply port_keeps_write, wrapu_in_u; lia | apply port_keeps_ret, I
          | apply port_keeps_on; intros u (H1 & H2 & H3 & H4 & H5 & H6);
             unfold uart_wf, upd, upd_ie, upd_txctrl, upd_rxctrl, upd_div; cbn [rx_fifo_len ie ip txctrl rxctrl div]; auto 10].
Qed.

Lemma in_u_clear8 x m : in_u 8 (clear8 x m).
Proof. apply wrapu_in_u. lia. Qed.
Lemma in_u_land255 x : in_u 8 (x &' 255).
Proof. exact (land_ones_bound x 8 ltac:(lia)). Qed.
#[local] Hint Resolve in_u_clear8 in_u_land255 : port.
#[local] Hint Extern 1 (in_u 8 (_ |' _)) => (apply lor_range; [discriminate| |]) : port.
#[local] Hint Extern 1 (in_u 8 ?c) => (is_zconst c; split; [discriminate|reflexivity]) : port.
#[local] Hint Extern 1 (in_u 8 (1 <<' _)) => (split; [discriminate|reflexivity]) : port.
#[local] Hint Extern 1 (in_u 16 (u16 _)) => (apply wrapu_in_u; discriminate) : port.

(** An update of one register. *)
Ltac dw_update := apply port_keeps_on; intros ? (? & ? & ? & ? & ? & ? & ?);
  unfold FEATURE_LSR_STATUS_CLEAR, dw_wf, upd, upd_div_latch, upd_rbr, upd_ier, upd_fcr, upd_iid, upd_lcr, upd_lsr;
  cbn [Z.eqb div_latch rbr ier fcr iid lcr lsr]; repeat (split; [solve [auto with port]|]); solve [auto with port].

Lemma dw_read_ok offset : port_keeps dw_wf (dw_apb_uart_read offset) (in_u 32).
Proof.
  unfold dw_apb_uart_read. eapply port_keeps_bind; [apply port_keeps_assert|intros _ _].
  eapply port_keeps_bind; [apply port_keeps_port|]. intros u Hu. pose proof Hu as (H1 & H2 & H3 & H4 & H5 & H6 & H7).
  destruct (offset =? uart_reg_rx_buf); [destruct (dlab u)|].
  { apply port_keeps_ret, in_u_8_32, in_u_land255. }
  { eapply port_keeps_bind; [dw_update|intros _ _]. eapply port_keeps_bind; [dw_update|intros _ _]. apply port_keeps_ret, in_u_8_32, H2. }
  destruct (offset =? uart_reg_intren).
  { apply port_keeps_ret. destruct (dlab u); [|apply in_u_8_32, H3]. apply (in_u_mono 16); [lia|]. apply shiftr_range; [lia..|exact H1]. }
  destruct (offset =? uart_reg_intrid).
  { eapply port_keeps_bind; [dw_update|intros _ _]. apply port_keeps_ret. destruct (tst _ _); split; (discriminate || reflexivity). }
  destruct (offset =? uart_reg_linecontrol); [apply port_keeps_ret, in_u_8_32, H6|].
  destruct (offset =? uart_reg_linestatus); [|apply port_keeps_ret; split; [discriminate|reflexivity]].
  eapply port_keeps_bind; [dw_update|intros _ _]. eapply port_keeps_bind; [dw_update|intros _ _].
  eapply port_keeps_bind; [apply port_keeps_port|]. intros u' _. destruct (negb _); [|apply port_keeps_ret, in_u_8_32, H7].
  eapply port_keeps_bind; [apply port_keeps_read|]. intros [buf|] Hb; [|apply port_keeps_ret, in_u_8_32, H7].
  eapply port_keeps_bind; [dw_update|intros _ _]. apply port_keeps_ret, in_u_8_32, H7.
Qed.

Lemma dw_write_ok offset val : port_keeps dw_wf (dw_apb_uart_write offset val) (fun _ => True).
Proof.
  unfold dw_apb_uart_write. cbv zeta. eapply port_keeps_bind; [apply port_keeps_assert|intros _ _].
  eapply port_keeps_bind; [apply port_keeps_port|]. intros u Hu.
  destruct (offset =? uart_reg_rx_buf); [destruct (dlab u); [dw_update|]|].
  { eapply port_keeps_bind; [apply port_keeps_write, in_u_land255|intros _ _]. eapply port_keeps_bind; [dw_update|intros _ _]. dw_update. }
  destruct (offset =? uart_reg_intren); [destruct (dlab u); [dw_update|]|].
  { change (if negb (FEATURE_THRE_MODE_USER =? 0) then 0xFF else 0x7F) with 0xFF. dw_update. }
  destruct (offset =? uart_reg_intrid); [dw_update|]. destruct (offset =? uart_reg_linecontrol); [dw_update|]. apply port_keeps_ret, I.
Qed.

(** ** Receiving and transmitting *)

(** A polling driver: read the line status; when data is ready, read the receive buffer. *)
Fixpoint poll_receive (n : nat) : SM (Port DW_apb_uart_state) (list Z) :=
  match n with
  | O => mret []
  | S n =>
      st ← dw_apb_uart_read uart_reg_linestatus;
      if tst st 1 then
        b ← dw_apb_uart_read uart_reg_rx_buf;
        bs ← poll_receive n; mret (b :: bs)
      else poll_receive n
  end.

Lemma tst1 x : tst x 1 = Z.testbit x 0.
Proof. exact (tst_pow2 x 0 ltac:(lia)). Qed.

Lemma clear8_bit x m i : 0 <= i < 8 -> Z.testbit (clear8 x m) i = Z.testbit x i && negb (Z.testbit m i).
Proof.
  intros Hi. unfold clear8. rewrite u8_spec, Z.land_spec, not32_spec.
  destruct (Z.ltb_spec i 8), (Z.ltb_spec i 32), (Z.leb_spec 0 i); try lia. reflexivity.
Qed.

(** The line status after a read of it that found no data and input [ch]. *)
Definition lsr_filled (x : Z) : Z := clear8 (x |' (1 <<' 6) |' (1 <<' 5)) 30 |' 1.

Lemma lsr_filled_ready x : tst (lsr_filled x) 1 = true.
Proof. rewrite tst1. unfold lsr_filled. rewrite Z.lor_spec. change (Z.testbit 1 0) with true. apply orb_true_r. Qed.

Lemma read_lsr_fills u ch rest out : tst (lsr u) 1 = false -> ch <> 2 ->
  dw_apb_uart_read uart_reg_linestatus (u, mkConsole (ch :: rest) false out) =
  Done (lsr u, (u <| lsr := lsr_filled (lsr u) |> <| rbr := ch |>, mkConsole rest false out)).
Proof.
  intros Hl Hch. unfold dw_apb_uart_read. change (assert_c _) with (Done tt). rewrite run_liftr_done. unfold port. rewrite run_gets.
  cbn [Z.eqb uart_reg_linestatus uart_reg_rx_buf uart_reg_intren uart_reg_intrid uart_reg_linecontrol Pos.eqb fst].
  unfold on_port. rewrite !run_modify, run_gets. cbn [fst snd].
  match goal with |- context [negb (tst ?x 1)] => replace (tst x 1) with false end.
  - cbn [negb]. rewrite run_bind. unfold on_console, console_read. cbn [snd fst]. rewrite run_gets. cbn [id con_in]. rewrite run_modify.
    cbn [console_esc_state]. destruct (Z.eqb_spec ch 2); [contradiction|]. cbn [mret SM_ret]. rewrite run_modify. reflexivity.
  - rewrite tst1 in *. unfold upd, upd_lsr. cbn [lsr]. rewrite clear8_bit, !Z.lor_spec, Hl by lia. reflexivity.
Qed.

Lemma read_lsr_ready u c : tst (lsr u) 1 = true ->
  dw_apb_uart_read uart_reg_linestatus (u, c) =
  Done (lsr u, (u <| lsr := clear8 (lsr u |' (1 <<' 6) |' (1 <<' 5)) 30 |>, c)).
Proof.
  intros Hl. unfold dw_apb_uart_read. change (assert_c _) with (Done tt). rewrite run_liftr_done. unfold port. rewrite run_gets.
  cbn [Z.eqb uart_reg_linestatus uart_reg_rx_buf uart_reg_intren uart_reg_intrid uart_reg_linecontrol Pos.eqb fst].
  unfold on_port. rewrite !run_modify, run_gets. cbn [fst snd].
  match goal with |- context [negb (tst ?x 1)] => replace (tst x 1) with true end; [reflexivity|].
  rewrite tst1 in *. unfold upd, upd_lsr. cbn [lsr]. rewrite clear8_bit, !Z.lor_spec, Hl by lia. reflexivity.
Qed.

Lemma read_rbr u c : dlab u = false ->
  dw_apb_uart_read uart_reg_rx_buf (u, c) = Done (rbr u, (u <| lsr := clear8 (clear8 (lsr u) 1) 30 |>, c)).
Proof.
  intros Hd. unfold dw_apb_uart_read. change (assert_c _) with (Done tt). rewrite run_liftr_done. unfold port. rewrite run_gets.
  cbn [Z.eqb uart_reg_rx_buf fst]. rewrite Hd. reflexivity.
Qed.

(** One received byte takes two polls. *)
Lemma poll_one u ch rest out n : dlab u = false -> tst (lsr u) 1 = false -> ch <> 2 ->
  exists u', dlab u' = false /\ tst (lsr u') 1 = false /\
    poll_receive (S (S n)) (u, mkConsole (ch :: rest) false out) =
    (bs ← poll_receive n; mret (ch :: bs)) (u', mkConsole rest false out).
Proof.
  intros Hd Hl Hch. set (u1 := u <| lsr := lsr_filled (lsr u) |> <| rbr := ch |>).
  set (u2 := u1 <| lsr := clear8 (lsr u1 |' (1 <<' 6) |' (1 <<' 5)) 30 |>).
  exists (u2 <| lsr := clear8 (clear8 (lsr u2) 1) 30 |>). split; [exact Hd|]. split.
  - rewrite tst1. unfold upd, upd_lsr. cbn [lsr]. rewrite !clear8_bit by lia. change (Z.testbit 1 0) with true.
    rewrite andb_false_r. reflexivity.
  - change (poll_receive (S (S n))) with (st ← dw_apb_uart_read uart_reg_linestatus;
      if tst st 1 then b ← dw_apb_uart_read uart_reg_rx_buf; bs ← poll_receive (S n); mret (b :: bs) else poll_receive (S n)).
    rewrite run_bind, (read_lsr_fills u ch rest out Hl Hch), Hl. fold u1.
    change (poll_receive (S n)) with (st ← dw_apb_uart_read uart_reg_linestatus;
      if tst st 1 then b ← dw_apb_uart_read uart_reg_rx_buf; bs ← poll_receive n; mret (b :: bs) else poll_receive n).
    assert (tst (lsr u1) 1 = true) as Hr by apply lsr_filled_ready.
    rewrite run_bind, (read_lsr_ready u1 _ Hr), Hr. fold u2. rewrite run_bind, (read_rbr u2) by exact Hd. reflexivity.
Qed.

(** A driver that polls the line status receives the console input exactly: every byte, once and in
    order, for any input without the console's escape byte, and transmits nothing by doing so. *)
Theorem dw_receive_stream input : forall u out, dlab u = false -> tst (lsr u) 1 = false -> Forall (fun ch => ch <> 2) input ->
  exists u', poll_receive (2 * length input) (u, mkConsole input false out) = Done (input, (u', mkConsole [] false out)) /\
    dlab u' = false /\ tst (lsr u') 1 = false.
Proof.
  induction input as [|ch input IH]; intros u out Hd Hl Hin.
  - exists u. auto.
  - apply Forall_cons in Hin as [Hch Hin]. replace (2 * length (ch :: input))%nat with (S (S (2 * length input))) by (cbn [length]; lia).
    destruct (poll_one u ch input out (2 * length input) Hd Hl Hch) as (u1 & Hd1 & Hl1 & ->).
    destruct (IH u1 out Hd1 Hl1 Hin) as (u' & E & Hd' & Hl'). exists u'. rewrite run_bind, E. auto.
Qed.

Definition dw_reset : DW_apb_uart_state := mkDW 0 0 0 0 0 0 0.

Lemma dw_receive_stream_witness : exists u',
  poll_receive 6 (dw_reset, mkConsole [72; 105; 10] false []) = Done ([72; 105; 10], (u', mkConsole [] false [])).
Proof.
  destruct (dw_receive_stream [72; 105; 10] dw_reset [] eq_refl eq_refl) as (u' & E & _); [repeat constructor; discriminate|].
  exists u'. exact E.
Defined.

(** The driver's divisor setup: select the latch, write both halves, deselect it. *)
Definition program_divisor (d lc : Z) : SM (Port DW_apb_uart_state) unit :=
  _ ← dw_apb_uart_write uart_reg_linecontrol (lc |' 0x80);
  _ ← dw_apb_uart_write uart_reg_rx_buf (d &' 255);
  _ ← dw_apb_uart_write uart_reg_intren (d >>' 8);
  dw_apb_uart_write uart_reg_linecontrol lc.

Lemma latch_bytes x d : in_u 16 x -> in_u 16 d ->
  u16 ((u16 ((x &' not32 255) + ((d &' 255) &' 255)) &' 255) + ((d >>' 8) &' 255) * 256) = d.
Proof.
  intros Hx Hd. assert (forall y, y &' 255 = y mod 256) as E by (intros; apply (Z.land_ones y 8); lia).
  assert (x &' not32 255 = x - x mod 256) as ->.
  { apply Z.bits_inj'. intros i Hi. assert (x - x mod 256 = (x >>' 8) <<' 8) as ->.
    { rewrite Z.shiftl_mul_pow2, Z.shiftr_div_pow2 by lia. change (2 ^ 8) with 256. pose proof (Z.div_mod x 256). lia. }
    rewrite Z.land_spec, not32_spec, shiftl_spec', shiftr_spec'. destruct (Z.lt_ge_cases i 16).
    - enum_bits i 16%nat; eval_consts; bool_atoms.
    - rewrite (testbit_above 16 x i) by (auto; lia). rewrite (testbit_above 16 x (i - 8 + 8)) by (auto; lia). rewrite !andb_false_r. reflexivity. }
  rewrite !E. rewrite Z.shiftr_div_pow2 by lia. unfold u16, wrapu, in_u in *. change (2 ^ 16) with 65536 in *. change (2 ^ 8) with 256.
  Z.to_euclidean_division_equations; lia.
Qed.

Lemma write_lcr v u c : dw_apb_uart_write uart_reg_linecontrol v (u, c) = Done (tt, (u <| lcr := v &' 255 |>, c)).
Proof. reflexivity. Qed.
Lemma write_latch_lo v u c : dlab u = true ->
  dw_apb_uart_write uart_reg_rx_buf v (u, c) = Done (tt, (u <| div_latch := u16 ((div_latch u &' not32 255) + (v &' 255)) |>, c)).
Proof.
  intros Hd. unfold dw_apb_uart_write. change (assert_c _) with (Done tt). cbv zeta. rewrite run_liftr_done. unfold port. rewrite run_gets.
  cbn [Z.eqb uart_reg_rx_buf fst]. rewrite Hd. reflexivity.
Qed.
Lemma write_latch_hi v u c : dlab u = true ->
  dw_apb_uart_write uart_reg_intren v (u, c) = Done (tt, (u <| div_latch := u16 ((div_latch u &' 255) + (v &' 255) * 256) |>, c)).
Proof.
  intros Hd. unfold dw_apb_uart_write. change (assert_c _) with (Done tt). cbv zeta. rewrite run_liftr_done. unfold port. rewrite run_gets.
  cbn [Z.eqb uart_reg_rx_buf uart_reg_intren fst]. rewrite Hd. reflexivity.
Qed.

(** Programming the divisor through the latch sets exactly the divisor and the line control: every
    16-bit divisor is stored whole whatever was there before, nothing is transmitted and the interrupt
    enables are untouched. *)
Theorem dw_program_divisor d lc u c : in_u 16 d -> in_u 16 (div_latch u) -> in_u 7 lc ->
  program_divisor d lc (u, c) = Done (tt, (u <| div_latch := d |> <| lcr := lc |>, c)).
Proof.
  intros Hd Hu Hlc. assert (lc &' 255 = lc) as Elc.
  { change 255 with (Z.ones 8). rewrite Z.land_ones by lia. apply Z.mod_small. unfold in_u in Hlc. lia. }
  assert ((lc |' 0x80) &' 255 = lc |' 0x80) as Eb.
  { rewrite Z.land_lor_distr_l, Elc. reflexivity. }
  assert (tst (lc |' 0x80) (1 <<' 7) = true) as Hb.
  { change (1 <<' 7) with (2 ^ 7). rewrite tst_pow2, Z.lor_spec by lia. apply orb_true_r. }
  unfold program_divisor. rewrite run_bind, write_lcr, Eb. rewrite run_bind, write_latch_lo by exact Hb.
  rewrite run_bind, write_latch_hi by exact Hb. rewrite write_lcr, Elc.
  unfold upd, upd_lcr, upd_div_latch. cbn [div_latch rbr ier fcr iid lcr lsr]. rewrite latch_bytes by auto. reflexivity.
Qed.

Lemma dw_program_divisor_witness :
  program_divisor 0x1234 3 (dw_reset, mkConsole [] false []) =
  Done (tt, (dw_reset <| div_latch := 0x1234 |> <| lcr := 3 |>, mkConsole [] false [])).
Proof. apply dw_program_divisor; split; (discriminate || reflexivity). Defined.

(** The escape [C-b C-b] does not send [C-b] as the console's help text says: both bytes are
    swallowed; the byte that passes through after [C-b] is 1. *)
Theorem console_escape_swallows out :
  let read2 inp := (a ← console_read; b ← console_read; mret (a, b)) (mkConsole inp false out) in
  read2 [2; 2] = Done ((None, None), mkConsole [] false out) /\
  read2 [2; 1] = Done ((None, Some 1), mkConsole [] false out).
Proof. split; reflexivity. Qed.
