(* ===== verification/Virtio.v ===== *)
(** * Virtio: queues and registers ([virtio.cpp], [virtio.h])

    A device is its register file and its queues ([VIRTIODevice]); the driver
    puts descriptors into guest RAM and the device walks them.  The state
    [VS] holds the device, the host memory behind guest RAM, the state of the
    device class ([K]: block, network, ...), and the calls the device makes to
    the rest of the program, in order.  [VirtioHost] is what surrounds the
    device: the translation of guest addresses to host pointers, the content
    of uninitialised storage, and the turns a loop over a descriptor chain may
    take.  Tracing output is left out. *)

From S2P Require Import Prelude Cutils Iomem Hostmem Bytes.
From stdpp Require Import base list gmap.
From Stdlib Require Import ZArith Lia Bool.
Local Open Scope Z_scope.
Local Open Scope bits_scope.

Definition VIRTIO_PAGE_SIZE : Z := 4096.
Definition MAX_QUEUE : Z := 8.
Definition MAX_CONFIG_SPACE_SIZE : Z := 256.
Definition MAX_QUEUE_NUM : Z := 16.
Definition VRING_DESC_F_NEXT : Z := 1.
Definition VRING_DESC_F_WRITE : Z := 2.

Definition VIRTIO_MMIO_MAGIC_VALUE : Z := 0x000.
Definition VIRTIO_MMIO_VERSION : Z := 0x004.
Definition VIRTIO_MMIO_DEVICE_ID : Z := 0x008.
Definition VIRTIO_MMIO_VENDOR_ID : Z := 0x00c.
Definition VIRTIO_MMIO_DEVICE_FEATURES : Z := 0x010.
Definition VIRTIO_MMIO_DEVICE_FEATURES_SEL : Z := 0x014.
Definition VIRTIO_MMIO_QUEUE_SEL : Z := 0x030.
Definition VIRTIO_MMIO_QUEUE_NUM_MAX : Z := 0x034.
Definition VIRTIO_MMIO_QUEUE_NUM : Z := 0x038.
Definition VIRTIO_MMIO_QUEUE_READY : Z := 0x044.
Definition VIRTIO_MMIO_QUEUE_NOTIFY : Z := 0x050.
Definition VIRTIO_MMIO_INTERRUPT_STATUS : Z := 0x060.
Definition VIRTIO_MMIO_INTERRUPT_ACK : Z := 0x064.
Definition VIRTIO_MMIO_STATUS : Z := 0x070.
Definition VIRTIO_MMIO_QUEUE_DESC_LOW : Z := 0x080.
Definition VIRTIO_MMIO_QUEUE_DESC_HIGH : Z := 0x084.
Definition VIRTIO_MMIO_QUEUE_AVAIL_LOW : Z := 0x090.
Definition VIRTIO_MMIO_QUEUE_AVAIL_HIGH : Z := 0x094.
Definition VIRTIO_MMIO_QUEUE_USED_LOW : Z := 0x0a0.
Definition VIRTIO_MMIO_QUEUE_USED_HIGH : Z := 0x0a4.
Definition VIRTIO_MMIO_CONFIG_GENERATION : Z := 0x0fc.
Definition VIRTIO_MMIO_CONFIG : Z := 0x100.

Definition VIRTIO_PCI_DEVICE_FEATURE_SEL : Z := 0x000.
Definition VIRTIO_PCI_DEVICE_FEATURE : Z := 0x004.
Definition VIRTIO_PCI_NUM_QUEUES : Z := 0x012.
Definition VIRTIO_PCI_DEVICE_STATUS : Z := 0x014.
Definition VIRTIO_PCI_QUEUE_SEL : Z := 0x016.
Definition VIRTIO_PCI_QUEUE_SIZE : Z := 0x018.
Definition VIRTIO_PCI_QUEUE_ENABLE : Z := 0x01c.
Definition VIRTIO_PCI_QUEUE_NOTIFY_OFF : Z := 0x01e.
Definition VIRTIO_PCI_QUEUE_DESC_LOW : Z := 0x020.
Definition VIRTIO_PCI_QUEUE_DESC_HIGH : Z := 0x024.
Definition VIRTIO_PCI_QUEUE_AVAIL_LOW : Z := 0x028.
Definition VIRTIO_PCI_QUEUE_AVAIL_HIGH : Z := 0x02c.
Definition VIRTIO_PCI_QUEUE_USED_LOW : Z := 0x030.
Definition VIRTIO_PCI_QUEUE_USED_HIGH : Z := 0x034.
Definition VIRTIO_PCI_CFG_OFFSET : Z := 0x0000.
Definition VIRTIO_PCI_ISR_OFFSET : Z := 0x1000.
Definition VIRTIO_PCI_CONFIG_OFFSET : Z := 0x2000.
Definition VIRTIO_PCI_NOTIFY_OFFSET : Z := 0x3000.

(** ** State *)

Record QueueState := mkQueueState {
  ready : Z;
  num : Z;
  last_avail_idx : Z;
  desc_addr : Z;
  avail_addr : Z;
  used_addr : Z;
  manual_recv : bool }.

#[export] Instance upd_ready : Upd ready := fun v q => mkQueueState v (num q) (last_avail_idx q) (desc_addr q) (avail_addr q) (used_addr q) (manual_recv q).
#[export] Instance upd_num : Upd num := fun v q => mkQueueState (ready q) v (last_avail_idx q) (desc_addr q) (avail_addr q) (used_addr q) (manual_recv q).
#[export] Instance upd_last_avail_idx : Upd last_avail_idx := fun v q => mkQueueState (ready q) (num q) v (desc_addr q) (avail_addr q) (used_addr q) (manual_recv q).
#[export] Instance upd_desc_addr : Upd desc_addr := fun v q => mkQueueState (ready q) (num q) (last_avail_idx q) v (avail_addr q) (used_addr q) (manual_recv q).
#[export] Instance upd_avail_addr : Upd avail_addr := fun v q => mkQueueState (ready q) (num q) (last_avail_idx q) (desc_addr q) v (used_addr q) (manual_recv q).
#[export] Instance upd_used_addr : Upd used_addr := fun v q => mkQueueState (ready q) (num q) (last_avail_idx q) (desc_addr q) (avail_addr q) v (manual_recv q).
#[export] Instance upd_manual_recv : Upd manual_recv := fun v q => mkQueueState (ready q) (num q) (last_avail_idx q) (desc_addr q) (avail_addr q) (used_addr q) v.

(** [struct VIRTIODevice]; its [get_ram_ptr], [irq], [device_recv] and [config_write] are the
    parameters below. *)
Record VIRTIODevice := mkVIRTIODevice {
  int_status : Z;
  status : Z;
  device_features_sel : Z;
  queue_sel : Z;
  queue : list QueueState;
  device_id : Z;
  vendor_id : Z;
  device_features : Z;
  config_space_size : Z;
  config_space : list Z }.

Definition eta_vdev (d : VIRTIODevice) : VIRTIODevice :=
  mkVIRTIODevice (int_status d) (status d) (device_features_sel d) (queue_sel d) (queue d) (device_id d) (vendor_id d)
    (device_features d) (config_space_size d) (config_space d).

Ltac upd_vdev f :=
  exact (fun v s => ltac:(let b := eval cbv beta delta [eta_vdev] in (eta_vdev s) in
    match b with context C [f s] => let b' := context C [v] in exact b' end)).

#[export] Instance upd_int_status : Upd int_status := ltac:(upd_vdev int_status).
#[export] Instance upd_status : Upd status := ltac:(upd_vdev status).
#[export] Instance upd_device_features_sel : Upd device_features_sel := ltac:(upd_vdev device_features_sel).
#[export] Instance upd_queue_sel : Upd queue_sel := ltac:(upd_vdev queue_sel).
#[export] Instance upd_queue : Upd queue := ltac:(upd_vdev queue).
#[export] Instance upd_device_features : Upd device_features := ltac:(upd_vdev device_features).
#[export] Instance upd_config_space : Upd config_space := ltac:(upd_vdev config_space).

(** What a device calls: its interrupt line, the console, the network. *)
Inductive HostCall := SetIrq (level : bool) | WriteConsole (data : list Z) | WritePacket (data : list Z).

Record VS (K : Type) := mkVS { dev : VIRTIODevice; vmem : hostmem; kind : K; calls : list HostCall }.
Arguments mkVS {K}.
Arguments dev {K}.
Arguments vmem {K}.
Arguments kind {K}.
Arguments calls {K}.

#[export] Instance upd_dev K : Upd (@dev K) := fun v s => mkVS v (vmem s) (kind s) (calls s).
#[export] Instance upd_vmem K : Upd (@vmem K) := fun v s => mkVS (dev s) v (kind s) (calls s).
#[export] Instance upd_kind K : Upd (@kind K) := fun v s => mkVS (dev s) (vmem s) v (calls s).
#[export] Instance upd_calls K : Upd (@calls K) := fun v s => mkVS (dev s) (vmem s) (kind s) v.

Class VirtioHost := {
  ram_ptr : Z -> option Z;       (** [get_ram_ptr]: the host pointer, [None] for NULL *)
  garbage : Z -> Z;              (** byte [i] of fresh or uninitialised storage *)
  turns : nat }.

(** [virtio_mmio_get_ram_ptr], and [pci_device_get_dma_ptr] behind [virtio_pci_get_ram_ptr]. *)
Definition virtio_mmio_get_ram_ptr (m : PhysMemoryMap) (paddr : Z) : option Z :=
  match get_phys_mem_range m paddr with
  | Some (_, pr) => if pr_is_ram pr then Some (u64 (pr_phys_mem pr + u64 (paddr - pr_addr pr))) else None
  | None => None
  end.

(** ** Initialisation *)

Definition reset_queue (q : QueueState) : QueueState :=
  q <| ready := 0 |> <| num := MAX_QUEUE_NUM |> <| desc_addr := 0 |> <| avail_addr := 0 |> <| used_addr := 0 |> <| last_avail_idx := 0 |>.

Definition virtio_reset (d : VIRTIODevice) : VIRTIODevice :=
  d <| status := 0 |> <| queue_sel := 0 |> <| device_features_sel := 0 |> <| int_status := 0 |>
    <| queue := map reset_queue (queue d) |>.

(** The device part of [virtio_init]: [memset], the identity, [virtio_reset]. *)
Definition virtio_init (device_id config_space_size : Z) : VIRTIODevice :=
  virtio_reset (mkVIRTIODevice 0 0 0 0 (replicate 8 (mkQueueState 0 0 0 0 0 0 false)) device_id 0xffff 0
    (u32 config_space_size) (replicate 256 0)).

(** Signed overflow is undefined. *)
Definition int_op {S} (x : Z) : SM S Z := if (- 2 ^ 31 <=? x) && (x <? 2 ^ 31) then mret x else stop UndefinedBehaviour.

Section Device.
Context {K : Type} {H : VirtioHost}.
Abbreviation VM := (SM (VS K)).
Implicit Types s : VS K.

Definition call (c : HostCall) : VM unit := modify (fun s => s <| calls := calls s ++ [c] |>).
Definition set_irq (level : bool) : VM unit := call (SetIrq level).

Definition on_dev (f : VIRTIODevice -> VIRTIODevice) : VM unit := modify (fun s => s <| dev := f (dev s) |>).

(** [s->queue[i]]. *)
Definition get_queue (i : Z) : VM QueueState := fun s =>
  match queue (dev s) !! Z.to_nat i with
  | Some q => if 0 <=? i then Done (q, s) else Stop UndefinedBehaviour
  | None => Stop UndefinedBehaviour
  end.
Definition on_queue (i : Z) (f : QueueState -> QueueState) : VM unit :=
  q ← get_queue i; on_dev (fun d => d <| queue := <[Z.to_nat i := f q]> (queue d) |>).

(** An array or a [malloc] block of [n] bytes, not initialised. *)
Definition uninit (n : Z) : list Z := map (fun i => u8 (garbage i)) (seqZ 0 n).

(** ** Guest memory *)

Definition virtio_read16 (addr : Z) : VM Z :=
  if tst addr 1 then mret 0
  else match ram_ptr addr with
       | Some ptr => m ← gets vmem; mret (ld 2 m ptr)
       | None => mret 0
       end.

Definition virtio_write16 (addr val : Z) : VM unit :=
  if tst addr 1 then mret tt
  else match ram_ptr addr with
       | Some ptr => modify (fun s => s <| vmem := st 2 (vmem s) ptr val |>)
       | None => mret tt
       end.

Definition virtio_write32 (addr val : Z) : VM unit :=
  if tst addr 3 then mret tt
  else match ram_ptr addr with
       | Some ptr => modify (fun s => s <| vmem := st 4 (vmem s) ptr val |>)
       | None => mret tt
       end.

(** The bytes up to the end of the page: [min_int(count, VIRTIO_PAGE_SIZE - (addr & (VIRTIO_PAGE_SIZE - 1)))]. *)
Definition page_chunk (addr count : Z) : Z := min_int count (VIRTIO_PAGE_SIZE - (addr &' (VIRTIO_PAGE_SIZE - 1))).

(** [buf + pos] is the destination; the buffer after the call is returned with the result. *)
Fixpoint from_ram_loop (n : nat) (buf : list Z) (pos addr count : Z) : VM (Z * list Z) :=
  if count <=? 0 then mret (0, buf)
  else match n with
       | O => stop OutOfFuel
       | S n =>
           let l := page_chunk addr count in
           match ram_ptr addr with
           | None => mret (-1, buf)
           | Some ptr =>
               m ← gets vmem;
               buf ← liftr (buf_put buf pos (ld_bytes m ptr l));
               from_ram_loop n buf (pos + l) (u64 (addr + l)) (count - l)
           end
       end.
Definition virtio_memcpy_from_ram (buf : list Z) (pos addr count : Z) : VM (Z * list Z) :=
  from_ram_loop (Z.to_nat count) buf pos addr count.

Fixpoint to_ram_loop (n : nat) (addr : Z) (buf : list Z) (pos count : Z) : VM Z :=
  if count <=? 0 then mret 0
  else match n with
       | O => stop OutOfFuel
       | S n =>
           let l := page_chunk addr count in
           match ram_ptr addr with
           | None => mret (-1)
           | Some ptr =>
               data ← liftr (buf_get buf pos l);
               _ ← modify (fun s => s <| vmem := st_bytes (vmem s) ptr data |>);
               to_ram_loop n (u64 (addr + l)) buf (pos + l) (count - l)
           end
       end.
Definition virtio_memcpy_to_ram (addr : Z) (buf : list Z) (pos count : Z) : VM Z :=
  to_ram_loop (Z.to_nat count) addr buf pos count.

(** ** Descriptors

    A [VIRTIODesc] is the 16 bytes that [get_desc] copies over it: address, length, flags, next. *)

Definition d_addr (desc : list Z) : Z := get_le64 desc.
Definition d_len (desc : list Z) : Z := get_le32 (drop 8 desc).
Definition d_flags (desc : list Z) : Z := get_le16 (drop 12 desc).
Definition d_next (desc : list Z) : Z := get_le16 (drop 14 desc).

Definition has_next (desc : list Z) : bool := tst (d_flags desc) VRING_DESC_F_NEXT.
Definition is_write (desc : list Z) : bool := tst (d_flags desc) VRING_DESC_F_WRITE.

Definition get_desc (desc : list Z) (queue_idx desc_idx : Z) : VM (Z * list Z) :=
  qs ← get_queue queue_idx;
  virtio_memcpy_from_ram desc 0 (u64 (desc_addr qs + desc_idx * 16)) 16.

(** [get_desc(s, &desc, queue_idx, desc_idx)] as the callers use it: the result is ignored, so a
    descriptor outside RAM leaves the old one in place. *)
Definition load_desc (desc : list Z) (queue_idx desc_idx : Z) : VM (list Z) :=
  '(_, desc) ← get_desc desc queue_idx desc_idx; mret desc.

(** [desc_idx = desc.next; get_desc(s, &desc, queue_idx, desc_idx)]. *)
Definition next_desc (desc : list Z) (queue_idx : Z) : VM (list Z) := load_desc desc queue_idx (d_next desc).

(** The first write descriptor; [None] is the return of -1. *)
Fixpoint find_write (n : nat) (desc : list Z) (queue_idx : Z) : VM (option (list Z)) :=
  if is_write desc then mret (Some desc)
  else if negb (has_next desc) then mret None
  else match n with
       | O => stop Endless
       | S n => desc ← next_desc desc queue_idx; find_write n desc queue_idx
       end.

(** The descriptor at [offset], with the offset inside it. *)
Fixpoint find_offset (n : nat) (f_write : bool) (desc : list Z) (queue_idx offset : Z) : VM (option (list Z * Z)) :=
  if negb (Bool.eqb (is_write desc) f_write) then mret None
  else if offset <? s32 (d_len desc) then mret (Some (desc, offset))
  else if negb (has_next desc) then mret None
  else match n with
       | O => stop Endless
       | S n =>
           let offset := s32 (offset - d_len desc) in
           desc ← next_desc desc queue_idx; find_offset n f_write desc queue_idx offset
       end.

(** The copy loop; [buf + pos] is the running pointer. *)
Fixpoint copy_chain (n : nat) (to_queue : bool) (desc : list Z) (queue_idx : Z) (buf : list Z) (pos offset count : Z) : VM (Z * list Z) :=
  let l := min_int count (s32 (d_len desc - offset)) in
  buf ← (if to_queue then _ ← virtio_memcpy_to_ram (u64 (d_addr desc + offset)) buf pos l; mret buf
         else '(_, buf) ← virtio_memcpy_from_ram buf pos (u64 (d_addr desc + offset)) l; mret buf);
  count ← int_op (count - l);
  if count =? 0 then mret (0, buf)
  else
    offset ← int_op (offset + l);
    let pos := pos + l in
    if offset =? s32 (d_len desc) then
      if negb (has_next desc) then mret (-1, buf)
      else
        desc ← next_desc desc queue_idx;
        if negb (Bool.eqb (is_write desc) to_queue) then mret (-1, buf)
        else match n with O => stop Endless | S n => copy_chain n to_queue desc queue_idx buf pos 0 count end
    else match n with O => stop Endless | S n => copy_chain n to_queue desc queue_idx buf pos offset count end.

Definition memcpy_to_from_queue (buf : list Z) (queue_idx desc_idx offset count : Z) (to_queue : bool) : VM (Z * list Z) :=
  if count =? 0 then mret (0, buf)
  else
    desc ← load_desc (uninit 16) queue_idx desc_idx;
    first ← (if to_queue then find_write turns desc queue_idx else mret (Some desc));
    match first with
    | None => mret (-1, buf)
    | Some desc =>
        at_offset ← find_offset turns to_queue desc queue_idx offset;
        match at_offset with
        | None => mret (-1, buf)
        | Some (desc, offset) => copy_chain turns to_queue desc queue_idx buf 0 offset count
        end
    end.

Definition memcpy_from_queue (buf : list Z) (queue_idx desc_idx offset count : Z) : VM (Z * list Z) :=
  memcpy_to_from_queue buf queue_idx desc_idx offset count false.
(** The elements of [buf] are of type [uint8_t]. *)
Definition memcpy_to_queue (queue_idx desc_idx offset : Z) (buf : list Z) (count : Z) : VM Z :=
  '(ret, _) ← memcpy_to_from_queue (map u8 buf) queue_idx desc_idx offset count true; mret ret.

(** Signal that the descriptor has been consumed. *)
Definition virtio_consume_desc (queue_idx desc_idx desc_len : Z) : VM unit :=
  qs ← get_queue queue_idx;
  let addr := u64 (used_addr qs + 2) in
  index ← virtio_read16 addr;
  _ ← virtio_write16 addr (u16 (index + 1));
  let addr := u64 (used_addr qs + 4 + (index &' u32 (num qs - 1)) * 8) in
  _ ← virtio_write32 addr (u32 desc_idx);
  _ ← virtio_write32 (u64 (addr + 4)) (u32 desc_len);
  _ ← on_dev (fun d => d <| int_status := int_status d |' 1 |>);
  set_irq true.

(** The read-only descriptors of a chain, then the writable ones; [None] is the return of -1. *)
Fixpoint write_sizes (n : nat) (desc : list Z) (queue_idx read_size write_size : Z) : VM (option (Z * Z)) :=
  if negb (is_write desc) then mret None
  else
    let write_size := s32 (write_size + d_len desc) in
    if negb (has_next desc) then mret (Some (read_size, write_size))
    else match n with
         | O => stop Endless
         | S n => desc ← next_desc desc queue_idx; write_sizes n desc queue_idx read_size write_size
         end.
Fixpoint read_sizes (n : nat) (desc : list Z) (queue_idx read_size : Z) : VM (option (Z * Z)) :=
  if is_write desc then write_sizes turns desc queue_idx read_size 0
  else
    let read_size := s32 (read_size + d_len desc) in
    if negb (has_next desc) then mret (Some (read_size, 0))
    else match n with
         | O => stop Endless
         | S n => desc ← next_desc desc queue_idx; read_sizes n desc queue_idx read_size
         end.
Definition get_desc_rw_size (queue_idx desc_idx : Z) : VM (option (Z * Z)) :=
  desc ← load_desc (uninit 16) queue_idx desc_idx;
  read_sizes turns desc queue_idx 0.

(** [qs->avail_addr + 4 + (qs->last_avail_idx & (qs->num - 1)) * 2]. *)
Definition avail_slot (qs : QueueState) : Z := u64 (avail_addr qs + 4 + (last_avail_idx qs &' u32 (num qs - 1)) * 2).
Definition avail_index (qs : QueueState) : VM Z := virtio_read16 (u64 (avail_addr qs + 2)).

(** [qs->last_avail_idx++]. *)
Definition next_avail (queue_idx : Z) : VM unit :=
  on_queue queue_idx (fun q => q <| last_avail_idx := u16 (last_avail_idx q + 1) |>).

Section Notify.
Context (device_recv : Z -> Z -> Z -> Z -> VM Z).

Fixpoint notify_loop (n : nat) (queue_idx avail_idx : Z) : VM unit :=
  qs ← get_queue queue_idx;
  if last_avail_idx qs =? avail_idx then mret tt
  else match n with
       | O => stop OutOfFuel
       | S n =>
           desc_idx ← virtio_read16 (avail_slot qs);
           sizes ← get_desc_rw_size queue_idx desc_idx;
           go_on ← (match sizes with
                    | Some (read_size, write_size) => ret ← device_recv queue_idx desc_idx read_size write_size; mret (0 <=? ret)
                    | None => mret true
                    end);
           if go_on : bool then _ ← next_avail queue_idx; notify_loop n queue_idx avail_idx
           else mret tt
       end.

(** At most 65535 descriptors are between two 16-bit indices. *)
Definition queue_notify (queue_idx : Z) : VM unit :=
  qs ← get_queue queue_idx;
  if manual_recv qs then mret tt
  else
    avail_idx ← avail_index qs;
    notify_loop (Z.to_nat 65536) queue_idx avail_idx.
End Notify.

(** ** Device configuration space *)

(** [n] bytes of the array at [offset]. *)
Definition config_bytes (offset n : Z) : VM (list Z) := d ← gets dev; liftr (buf_get (config_space d) offset n).

Definition virtio_config_read (offset size_log2 : Z) : VM Z :=
  d ← gets dev;
  if size_log2 =? 0 then
    if offset <? config_space_size d then b ← config_bytes offset 1; mret (aget b 0) else mret 0
  else if size_log2 =? 1 then
    if offset <? u32 (config_space_size d - 1) then b ← config_bytes offset 2; mret (get_le16 b) else mret 0
  else if size_log2 =? 2 then
    if offset <? u32 (config_space_size d - 3) then b ← config_bytes offset 4; mret (get_le32 b) else mret 0
  else stop AssertFailed.

Section Registers.
(** The [device_recv] and [config_write] callbacks of the device class; [None] is NULL. *)
Context (device_recv : Z -> Z -> Z -> Z -> VM Z) (config_write : option (VM unit)).

(** [n] bytes of the configuration space change, then the callback runs. *)
Definition put_config (offset : Z) (data : list Z) : VM unit :=
  d ← gets dev;
  c ← liftr (buf_put (config_space d) offset data);
  _ ← on_dev (fun d => d <| config_space := c |>);
  match config_write with Some f => f | None => mret tt end.

Definition virtio_config_write (offset val size_log2 : Z) : VM unit :=
  d ← gets dev;
  if size_log2 =? 0 then
    if offset <? config_space_size d then put_config offset [u8 val] else mret tt
  else if size_log2 =? 1 then
    if offset <? u32 (config_space_size d - 1) then put_config offset (put_le16 [0; 0] val) else mret tt
  else if size_log2 =? 2 then
    if offset <? u32 (config_space_size d - 3) then put_config offset (put_le32 [0; 0; 0; 0] val) else mret tt
  else mret tt.

(** ** The register window on the memory map *)

Definition sel_queue : VM QueueState := d ← gets dev; get_queue (queue_sel d).
Definition on_sel_queue (f : QueueState -> QueueState) : VM unit := d ← gets dev; on_queue (queue_sel d) f.

Definition device_feature_word (d : VIRTIODevice) : Z :=
  if device_features_sel d =? 0 then device_features d else if device_features_sel d =? 1 then 1 else 0.

Definition virtio_mmio_read (offset size_log2 : Z) : VM Z :=
  d ← gets dev;
  if VIRTIO_MMIO_CONFIG <=? offset then virtio_config_read (offset - VIRTIO_MMIO_CONFIG) size_log2
  else if size_log2 =? 2 then
    if offset =? VIRTIO_MMIO_MAGIC_VALUE then mret 0x74726976
    else if offset =? VIRTIO_MMIO_VERSION then mret 2
    else if offset =? VIRTIO_MMIO_DEVICE_ID then mret (device_id d)
    else if offset =? VIRTIO_MMIO_VENDOR_ID then mret (vendor_id d)
    else if offset =? VIRTIO_MMIO_DEVICE_FEATURES then mret (device_feature_word d)
    else if offset =? VIRTIO_MMIO_DEVICE_FEATURES_SEL then mret (device_features_sel d)
    else if offset =? VIRTIO_MMIO_QUEUE_SEL then mret (queue_sel d)
    else if offset =? VIRTIO_MMIO_QUEUE_NUM_MAX then mret MAX_QUEUE_NUM
    else if offset =? VIRTIO_MMIO_QUEUE_NUM then q ← sel_queue; mret (num q)
    else if offset =? VIRTIO_MMIO_QUEUE_DESC_LOW then q ← sel_queue; mret (u32 (desc_addr q))
    else if offset =? VIRTIO_MMIO_QUEUE_AVAIL_LOW then q ← sel_queue; mret (u32 (avail_addr q))
    else if offset =? VIRTIO_MMIO_QUEUE_USED_LOW then q ← sel_queue; mret (u32 (used_addr q))
    else if offset =? VIRTIO_MMIO_QUEUE_DESC_HIGH then q ← sel_queue; mret (u32 (desc_addr q >>' 32))
    else if offset =? VIRTIO_MMIO_QUEUE_AVAIL_HIGH then q ← sel_queue; mret (u32 (avail_addr q >>' 32))
    else if offset =? VIRTIO_MMIO_QUEUE_USED_HIGH then q ← sel_queue; mret (u32 (used_addr q >>' 32))
    else if offset =? VIRTIO_MMIO_QUEUE_READY then q ← sel_queue; mret (ready q)
    else if offset =? VIRTIO_MMIO_INTERRUPT_STATUS then mret (int_status d)
    else if offset =? VIRTIO_MMIO_STATUS then mret (status d)
    else if offset =? VIRTIO_MMIO_CONFIG_GENERATION then mret 0
    else mret 0
  else mret 0.

Definition set_low32 (paddr val : Z) : Z := (paddr &' not64 0xffffffff) |' val.
Definition set_high32 (paddr val : Z) : Z := (paddr &' 0xffffffff) |' u64 (val <<' 32).

(** [(val & (val - 1)) == 0 && val > 0]. *)
Definition power_of_two (val : Z) : bool := (val &' u32 (val - 1) =? 0) && (0 <? val).

Definition write_status (val : Z) : VM unit :=
  _ ← on_dev (fun d => d <| status := val |>);
  if val =? 0 then _ ← set_irq false; on_dev virtio_reset else mret tt.

Definition virtio_mmio_write (offset val size_log2 : Z) : VM unit :=
  if VIRTIO_MMIO_CONFIG <=? offset then virtio_config_write (offset - VIRTIO_MMIO_CONFIG) val size_log2
  else if size_log2 =? 2 then
    if offset =? VIRTIO_MMIO_DEVICE_FEATURES_SEL then on_dev (fun d => d <| device_features_sel := val |>)
    else if offset =? VIRTIO_MMIO_QUEUE_SEL then
      if val <? MAX_QUEUE then on_dev (fun d => d <| queue_sel := val |>) else mret tt
    else if offset =? VIRTIO_MMIO_QUEUE_NUM then
      if power_of_two val then on_sel_queue (fun q => q <| num := val |>) else mret tt
    else if offset =? VIRTIO_MMIO_QUEUE_DESC_LOW then on_sel_queue (fun q => q <| desc_addr := set_low32 (desc_addr q) val |>)
    else if offset =? VIRTIO_MMIO_QUEUE_AVAIL_LOW then on_sel_queue (fun q => q <| avail_addr := set_low32 (avail_addr q) val |>)
    else if offset =? VIRTIO_MMIO_QUEUE_USED_LOW then on_sel_queue (fun q => q <| used_addr := set_low32 (used_addr q) val |>)
    else if offset =? VIRTIO_MMIO_QUEUE_DESC_HIGH then on_sel_queue (fun q => q <| desc_addr := set_high32 (desc_addr q) val |>)
    else if offset =? VIRTIO_MMIO_QUEUE_AVAIL_HIGH then on_sel_queue (fun q => q <| avail_addr := set_high32 (avail_addr q) val |>)
    else if offset =? VIRTIO_MMIO_QUEUE_USED_HIGH then on_sel_queue (fun q => q <| used_addr := set_high32 (used_addr q) val |>)
    else if offset =? VIRTIO_MMIO_STATUS then write_status val
    else if offset =? VIRTIO_MMIO_QUEUE_READY then on_sel_queue (fun q => q <| ready := val &' 1 |>)
    else if offset =? VIRTIO_MMIO_QUEUE_NOTIFY then
      if val <? MAX_QUEUE then queue_notify device_recv val else mret tt
    else if offset =? VIRTIO_MMIO_INTERRUPT_ACK then
      _ ← on_dev (fun d => d <| int_status := int_status d &' not32 val |>);
      d ← gets dev;
      if int_status d =? 0 then set_irq false else mret tt
    else mret tt
  else mret tt.

(** ** The register window of a PCI function *)

Definition virtio_pci_read (offset1 size_log2 : Z) : VM Z :=
  let offset := offset1 &' 0xfff in
  d ← gets dev;
  if offset1 >>' 12 =? VIRTIO_PCI_CFG_OFFSET >>' 12 then
    if size_log2 =? 2 then
      if offset =? VIRTIO_PCI_DEVICE_FEATURE then mret (device_feature_word d)
      else if offset =? VIRTIO_PCI_DEVICE_FEATURE_SEL then mret (device_features_sel d)
      else if offset =? VIRTIO_PCI_QUEUE_DESC_LOW then q ← sel_queue; mret (u32 (desc_addr q))
      else if offset =? VIRTIO_PCI_QUEUE_AVAIL_LOW then q ← sel_queue; mret (u32 (avail_addr q))
      else if offset =? VIRTIO_PCI_QUEUE_USED_LOW then q ← sel_queue; mret (u32 (used_addr q))
      else if offset =? VIRTIO_PCI_QUEUE_DESC_HIGH then q ← sel_queue; mret (u32 (desc_addr q >>' 32))
      else if offset =? VIRTIO_PCI_QUEUE_AVAIL_HIGH then q ← sel_queue; mret (u32 (avail_addr q >>' 32))
      else if offset =? VIRTIO_PCI_QUEUE_USED_HIGH then q ← sel_queue; mret (u32 (used_addr q >>' 32))
      else mret 0
    else if size_log2 =? 1 then
      if offset =? VIRTIO_PCI_NUM_QUEUES then mret MAX_QUEUE_NUM
      else if offset =? VIRTIO_PCI_QUEUE_SEL then mret (queue_sel d)
      else if offset =? VIRTIO_PCI_QUEUE_SIZE then q ← sel_queue; mret (num q)
      else if offset =? VIRTIO_PCI_QUEUE_ENABLE then q ← sel_queue; mret (ready q)
      else mret 0
    else if size_log2 =? 0 then
      if offset =? VIRTIO_PCI_DEVICE_STATUS then mret (status d) else mret 0
    else mret 0
  else if offset1 >>' 12 =? VIRTIO_PCI_ISR_OFFSET >>' 12 then
    if (offset =? 0) && (size_log2 =? 0) then
      _ ← on_dev (fun d => d <| int_status := 0 |>);
      _ ← set_irq false;
      mret (int_status d)
    else mret 0
  else if offset1 >>' 12 =? VIRTIO_PCI_CONFIG_OFFSET >>' 12 then virtio_config_read offset size_log2
  else mret 0.

Definition virtio_pci_write (offset1 val size_log2 : Z) : VM unit :=
  let offset := offset1 &' 0xfff in
  if offset1 >>' 12 =? VIRTIO_PCI_CFG_OFFSET >>' 12 then
    if size_log2 =? 2 then
      if offset =? VIRTIO_PCI_DEVICE_FEATURE_SEL then on_dev (fun d => d <| device_features_sel := val |>)
      else if offset =? VIRTIO_PCI_QUEUE_DESC_LOW then on_sel_queue (fun q => q <| desc_addr := set_low32 (desc_addr q) val |>)
      else if offset =? VIRTIO_PCI_QUEUE_AVAIL_LOW then on_sel_queue (fun q => q <| avail_addr := set_low32 (avail_addr q) val |>)
      else if offset =? VIRTIO_PCI_QUEUE_USED_LOW then on_sel_queue (fun q => q <| used_addr := set_low32 (used_addr q) val |>)
      else if offset =? VIRTIO_PCI_QUEUE_DESC_HIGH then on_sel_queue (fun q => q <| desc_addr := set_high32 (desc_addr q) val |>)
      else if offset =? VIRTIO_PCI_QUEUE_AVAIL_HIGH then on_sel_queue (fun q => q <| avail_addr := set_high32 (avail_addr q) val |>)
      else if offset =? VIRTIO_PCI_QUEUE_USED_HIGH then on_sel_queue (fun q => q <| used_addr := set_high32 (used_addr q) val |>)
      else mret tt
    else if size_log2 =? 1 then
      if offset =? VIRTIO_PCI_QUEUE_SEL then
        if val <? MAX_QUEUE then on_dev (fun d => d <| queue_sel := val |>) else mret tt
      else if offset =? VIRTIO_PCI_QUEUE_SIZE then
        if power_of_two val then on_sel_queue (fun q => q <| num := val |>) else mret tt
      else if offset =? VIRTIO_PCI_QUEUE_ENABLE then on_sel_queue (fun q => q <| ready := val &' 1 |>)
      else mret tt
    else if size_log2 =? 0 then
      if offset =? VIRTIO_PCI_DEVICE_STATUS then write_status val else mret tt
    else mret tt
  else if offset1 >>' 12 =? VIRTIO_PCI_CONFIG_OFFSET >>' 12 then virtio_config_write offset val size_log2
  else if offset1 >>' 12 =? VIRTIO_PCI_NOTIFY_OFFSET >>' 12 then
    if val <? MAX_QUEUE then queue_notify device_recv val else mret tt
  else mret tt.
End Registers.

(** INT_CONFIG interrupt. *)
Definition virtio_config_change_notify : VM unit :=
  _ ← on_dev (fun d => d <| int_status := int_status d |' 2 |>);
  set_irq true.

End Device.
