(* ===== verification/VirtioDevs.v ===== *)
(** * Virtio devices ([virtio.cpp]) and the file behind a drive ([dromajo_main.cpp])

    The block, network, console and input devices on the queues of [Virtio].
    A block device stores its sectors through the interface [BlockDevice];
    [BlockDeviceFile] is the implementation the program has: an image file,
    read-only, writable, or with the written sectors kept in memory. *)

From S2P Require Import Prelude Cutils Iomem Hostmem Bytes Virtio.
From stdpp Require Import base list gmap.
From Stdlib Require Import ZArith Lia Bool String.
Local Open Scope Z_scope.
Local Open Scope bits_scope.
Local Open Scope list_scope.

(** ** The interface of a block back end

    Both calls return the C result (positive: the request completes later through the callback), and
    the read its buffer. *)

Class BlockDevice (B : Type) := {
  get_sector_count : B -> Z;
  read_async : B -> Z -> list Z -> Z -> res (Z * list Z * B);
  write_async : B -> Z -> list Z -> Z -> res (Z * B) }.

(** ** Image files *)

(** A [FILE]: its bytes and its position. *)
Record File := mkFile { f_data : list Z; f_pos : Z }.

(** An offset that is negative as a [long] is rejected, and the callers ignore it. *)
Definition fseek_set (off : Z) (f : File) : File := if s64 off <? 0 then f else mkFile (f_data f) (s64 off).
Definition fread (n : Z) (f : File) : list Z * File :=
  let n := Z.max 0 (Z.min n (zlen (f_data f) - f_pos f)) in
  (take (Z.to_nat n) (drop (Z.to_nat (f_pos f)) (f_data f)), mkFile (f_data f) (f_pos f + n)).
(** Bytes between the end and the position read as zero. *)
Definition fwrite (data : list Z) (f : File) : File :=
  let old := f_data f ++ replicate (Z.to_nat (f_pos f) - List.length (f_data f)) 0 in
  match data with
  | [] => f
  | _ => mkFile (take (Z.to_nat (f_pos f)) old ++ data ++ drop (Z.to_nat (f_pos f) + List.length data) old) (f_pos f + zlen data)
  end.

Definition SECTOR_SIZE : Z := 512.

Inductive BlockDeviceModeEnum := BF_MODE_RO | BF_MODE_RW | BF_MODE_SNAPSHOT.

Record BlockDeviceFile := mkBlockDeviceFile {
  bf_f : option File;
  nb_sectors : Z;
  bf_mode : BlockDeviceModeEnum;
  sector_table : list (option (list Z)) }.

#[export] Instance upd_bf_f : Upd bf_f := fun v b => mkBlockDeviceFile v (nb_sectors b) (bf_mode b) (sector_table b).
#[export] Instance upd_sector_table : Upd sector_table := fun v b => mkBlockDeviceFile (bf_f b) (nb_sectors b) (bf_mode b) v.

Definition bf_get_sector_count (bf : BlockDeviceFile) : Z := nb_sectors bf.

(** The loop of a snapshot read: sector by sector, from the table or the file. *)
Fixpoint bf_read_sectors (n : nat) (bf : BlockDeviceFile) (sector_num : Z) (buf : list Z) (pos : Z) : res (list Z * BlockDeviceFile) :=
  match n with
  | O => Done (buf, bf)
  | S n =>
      match sector_table bf !! Z.to_nat sector_num with
      | None => Stop UndefinedBehaviour
      | Some (Some data) =>
          buf ← buf_put buf pos data;
          bf_read_sectors n bf (u64 (sector_num + 1)) buf (pos + SECTOR_SIZE)
      | Some None =>
          match bf_f bf with
          | None => Stop UndefinedBehaviour
          | Some f =>
              let '(data, f) := fread SECTOR_SIZE (fseek_set (u64 (sector_num * SECTOR_SIZE)) f) in
              buf ← buf_put buf pos data;
              _ ← assert_c (zlen data =? SECTOR_SIZE);
              bf_read_sectors n (bf <| bf_f := Some f |>) (u64 (sector_num + 1)) buf (pos + SECTOR_SIZE)
          end
      end
  end.

Definition bf_read_async (bf : BlockDeviceFile) (sector_num : Z) (buf : list Z) (n : Z) : res (Z * list Z * BlockDeviceFile) :=
  match bf_f bf with
  | None => Done (-1, buf, bf)
  | Some f =>
      match bf_mode bf with
      | BF_MODE_SNAPSHOT => '(buf, bf) ← bf_read_sectors (Z.to_nat n) bf sector_num buf 0; Done (0, buf, bf)
      | _ =>
          let '(data, f) := fread (u64 (n * SECTOR_SIZE)) (fseek_set (u64 (sector_num * SECTOR_SIZE)) f) in
          buf ← buf_put buf 0 data;
          _ ← assert_c (zlen data =? u64 (n * SECTOR_SIZE));
          Done (0, buf, bf <| bf_f := Some f |>)
      end
  end.

(** The loop of a snapshot write: every sector gets a block of its own. *)
Fixpoint bf_write_sectors (n : nat) (bf : BlockDeviceFile) (sector_num : Z) (buf : list Z) (pos : Z) : res BlockDeviceFile :=
  match n with
  | O => Done bf
  | S n =>
      match sector_table bf !! Z.to_nat sector_num with
      | None => Stop UndefinedBehaviour
      | Some _ =>
          data ← buf_get buf pos SECTOR_SIZE;
          bf_write_sectors n (bf <| sector_table := <[Z.to_nat sector_num := Some data]> (sector_table bf) |>)
            (u64 (sector_num + 1)) buf (pos + SECTOR_SIZE)
      end
  end.

Definition bf_write_async (bf : BlockDeviceFile) (sector_num : Z) (buf : list Z) (n : Z) : res (Z * BlockDeviceFile) :=
  match bf_mode bf with
  | BF_MODE_RO => Done (-1, bf)
  | BF_MODE_RW =>
      match bf_f bf with
      | None => Stop UndefinedBehaviour
      | Some f =>
          data ← buf_get buf 0 (u64 (n * SECTOR_SIZE));
          Done (0, bf <| bf_f := Some (fwrite data (fseek_set (u64 (sector_num * SECTOR_SIZE)) f)) |>)
      end
  | BF_MODE_SNAPSHOT =>
      if nb_sectors bf <? u32 (sector_num + n) then Done (-1, bf)
      else bf ← bf_write_sectors (Z.to_nat n) bf sector_num buf 0; Done (0, bf)
  end.

(** [contents] is the file the name opens, [None] when it cannot be opened. *)
Definition block_device_init (contents : option (list Z)) (mode : BlockDeviceModeEnum) : res BlockDeviceFile :=
  match contents with
  | None => Stop (Exited 1)
  | Some data =>
      let n := zlen data / 512 in
      Done (mkBlockDeviceFile (Some (mkFile data (zlen data))) n mode
              (match mode with BF_MODE_SNAPSHOT => replicate (Z.to_nat n) None | _ => [] end))
  end.

#[export] Instance bf_block_device : BlockDevice BlockDeviceFile := {|
  get_sector_count := bf_get_sector_count; read_async := bf_read_async; write_async := bf_write_async |}.

(** ** The block device *)

Record BlockRequest := mkBlockRequest { req_type : Z; req_buf : list Z; req_write_size : Z; req_queue_idx : Z; req_desc_idx : Z }.
Record VIRTIOBlockDevice (B : Type) := mkVIRTIOBlockDevice { bs : B; req_in_progress : bool; req : BlockRequest }.
Arguments mkVIRTIOBlockDevice {B}.
Arguments bs {B}.
Arguments req_in_progress {B}.
Arguments req {B}.

#[export] Instance upd_bs B : Upd (@bs B) := fun v d => mkVIRTIOBlockDevice v (req_in_progress d) (req d).
#[export] Instance upd_req_in_progress B : Upd (@req_in_progress B) := fun v d => mkVIRTIOBlockDevice (bs d) v (req d).
#[export] Instance upd_req B : Upd (@req B) := fun v d => mkVIRTIOBlockDevice (bs d) (req_in_progress d) v.

Definition VIRTIO_BLK_T_IN : Z := 0.
Definition VIRTIO_BLK_T_OUT : Z := 1.
Definition VIRTIO_BLK_S_OK : Z := 0.
Definition VIRTIO_BLK_S_IOERR : Z := 1.

(** [BlockRequestHeader]: type, ioprio, sector_num. *)
Definition h_type (h : list Z) : Z := get_le32 h.
Definition h_sector_num (h : list Z) : Z := get_le64 (drop 8 h).

Section Block.
Context {B : Type} {BD : BlockDevice B} {H : VirtioHost}.
Abbreviation VM := (SM (VS (VIRTIOBlockDevice B))).

Definition on_blk (f : VIRTIOBlockDevice B -> VIRTIOBlockDevice B) : VM unit := modify (fun s => s <| kind := f (kind s) |>).

Definition virtio_block_req_end (ret : Z) : VM unit :=
  k ← gets kind;
  let r := req k in
  let code := if ret <? 0 then VIRTIO_BLK_S_IOERR else VIRTIO_BLK_S_OK in
  if req_type r =? VIRTIO_BLK_T_IN then
    buf ← liftr (buf_put (req_buf r) (req_write_size r - 1) [code]);
    _ ← memcpy_to_queue (req_queue_idx r) (req_desc_idx r) 0 buf (req_write_size r);
    virtio_consume_desc (req_queue_idx r) (req_desc_idx r) (req_write_size r)
  else if req_type r =? VIRTIO_BLK_T_OUT then
    _ ← memcpy_to_queue (req_queue_idx r) (req_desc_idx r) 0 [code] 1;
    virtio_consume_desc (req_queue_idx r) (req_desc_idx r) 1
  else stop AssertFailed.

Definition virtio_block_recv_request (queue_idx desc_idx read_size write_size : Z) : VM Z :=
  k ← gets kind;
  if req_in_progress k then mret (-1)
  else
    '(ret, h) ← memcpy_from_queue (uninit 16) queue_idx desc_idx 0 16;
    if ret <? 0 then mret 0
    else
      _ ← on_blk (fun k => k <| req := mkBlockRequest (h_type h) (req_buf (req k)) (req_write_size (req k)) queue_idx desc_idx |>);
      if h_type h =? VIRTIO_BLK_T_IN then
        n ← int_op (write_size - 1);
        '(ret, buf, b) ← liftr (read_async (bs k) (h_sector_num h) (uninit write_size) (Z.quot n SECTOR_SIZE));
        _ ← on_blk (fun k => k <| bs := b |> <| req := mkBlockRequest (h_type h) buf write_size queue_idx desc_idx |>);
        if 0 <? ret then _ ← on_blk (fun k => k <| req_in_progress := true |>); mret 0
        else _ ← virtio_block_req_end ret; mret 0
      else if h_type h =? VIRTIO_BLK_T_OUT then
        _ ← liftr (assert_c (1 <=? write_size));
        let len := s32 (read_size - 16) in
        '(_, buf) ← memcpy_from_queue (uninit len) queue_idx desc_idx 16 len;
        '(ret, b) ← liftr (write_async (bs k) (h_sector_num h) buf (Z.quot len SECTOR_SIZE));
        _ ← on_blk (fun k => k <| bs := b |>);
        if 0 <? ret then _ ← on_blk (fun k => k <| req_in_progress := true |>); mret 0
        else _ ← virtio_block_req_end ret; mret 0
      else mret 0.

(** The completion of an asynchronous request, whose buffer the back end has filled. *)
Definition virtio_block_req_cb (ret : Z) : VM unit :=
  _ ← virtio_block_req_end ret;
  _ ← on_blk (fun k => k <| req_in_progress := false |>);
  k ← gets kind;
  queue_notify virtio_block_recv_request (req_queue_idx (req k)).

Definition virtio_block_init (b : B) : VIRTIODevice * VIRTIOBlockDevice B :=
  let n := u64 (get_sector_count b) in
  let d := virtio_init 2 8 in
  let c := put_le32 (config_space d) (u32 n) in
  (d <| config_space := take 4 c ++ put_le32 (drop 4 c) (u32 (n >>' 32)) |>,
   mkVIRTIOBlockDevice b false (mkBlockRequest 0 [] 0 0 0)).
End Block.

(** ** Manual queues

    Input arrives without a notification: the device takes the next available chain of queue 0 itself. *)

Section Input_queue.
Context {K : Type} {H : VirtioHost}.
Abbreviation VM := (SM (VS K)).

(** [qs->ready && qs->last_avail_idx != avail_idx]. *)
Definition queue0_has_room : VM bool :=
  qs ← get_queue 0;
  if ready qs =? 0 then mret false
  else avail_idx ← avail_index qs; mret (negb (last_avail_idx qs =? avail_idx)).

(** The chain [last_avail_idx] designates. *)
Definition queue0_head : VM Z := qs ← get_queue 0; virtio_read16 (avail_slot qs).
End Input_queue.

(** ** The network device *)

Definition sizeof_VIRTIONetHeader : Z := 12.

Record VIRTIONetDevice := mkVIRTIONetDevice { mac_addr : list Z; header_size : Z }.

Section Net.
Context {H : VirtioHost}.
Abbreviation VM := (SM (VS VIRTIONetDevice)).

Definition virtio_net_recv_request (queue_idx desc_idx read_size write_size : Z) : VM Z :=
  k ← gets kind;
  if queue_idx =? 1 then
    '(ret, _) ← memcpy_from_queue (uninit sizeof_VIRTIONetHeader) queue_idx desc_idx 0 (header_size k);
    if ret <? 0 then mret 0
    else
      len ← int_op (read_size - header_size k);
      '(_, buf) ← memcpy_from_queue (uninit len) queue_idx desc_idx (header_size k) len;
      _ ← call (WritePacket buf);
      _ ← virtio_consume_desc queue_idx desc_idx 0;
      mret 0
  else mret 0.

Definition virtio_net_can_write_packet : VM bool := queue0_has_room.

Definition virtio_net_write_packet (buf : list Z) : VM unit :=
  k ← gets kind;
  room ← queue0_has_room;
  if negb room then mret tt
  else
    desc_idx ← queue0_head;
    sizes ← get_desc_rw_size 0 desc_idx;
    match sizes with
    | None => mret tt
    | Some (read_size, write_size) =>
        len ← int_op (header_size k + zlen buf);
        if write_size <? len then mret tt
        else
          _ ← memcpy_to_queue 0 desc_idx 0 (replicate (Z.to_nat (header_size k)) 0) (header_size k);
          _ ← memcpy_to_queue 0 desc_idx (header_size k) buf (zlen buf);
          _ ← virtio_consume_desc 0 desc_idx len;
          next_avail 0
    end.

(** The body is compiled out. *)
Definition virtio_net_set_carrier (carrier_state : bool) : VM unit := mret tt.
End Net.

Definition set_manual (d : VIRTIODevice) : VIRTIODevice :=
  d <| queue := alter (fun q => q <| manual_recv := true |>) 0%nat (queue d) |>.

Definition virtio_net_init (mac : list Z) : VIRTIODevice * VIRTIONetDevice :=
  let d := set_manual ((virtio_init 1 (6 + 2)) <| device_features := 1 <<' 5 |>) in
  (d <| config_space := take 6 mac ++ [0; 0] ++ drop 8 (config_space d) |>,
   mkVIRTIONetDevice mac sizeof_VIRTIONetHeader).

(** ** The console device *)

Record VIRTIOConsoleDevice := mkVIRTIOConsoleDevice {}.

Section Consoles.
Context {H : VirtioHost}.
Abbreviation VM := (SM (VS VIRTIOConsoleDevice)).

Definition virtio_console_recv_request (queue_idx desc_idx read_size write_size : Z) : VM Z :=
  if queue_idx =? 1 then
    '(_, buf) ← memcpy_from_queue (uninit read_size) queue_idx desc_idx 0 read_size;
    _ ← call (WriteConsole buf);
    _ ← virtio_consume_desc queue_idx desc_idx 0;
    mret 0
  else mret 0.

Definition virtio_console_can_write_data : VM bool := queue0_has_room.

Definition virtio_console_get_write_len : VM Z :=
  room ← queue0_has_room;
  if negb room then mret 0
  else
    desc_idx ← queue0_head;
    sizes ← get_desc_rw_size 0 desc_idx;
    mret (match sizes with Some (_, write_size) => write_size | None => 0 end).

Definition virtio_console_write_data (buf : list Z) : VM Z :=
  room ← queue0_has_room;
  if negb room then mret 0
  else
    desc_idx ← queue0_head;
    _ ← memcpy_to_queue 0 desc_idx 0 buf (zlen buf);
    _ ← virtio_consume_desc 0 desc_idx (zlen buf);
    _ ← next_avail 0;
    mret (zlen buf).

Definition virtio_console_resize_event (width height : Z) : VM unit :=
  _ ← on_dev (fun d => d <| config_space :=
        let c := put_le16 (config_space d) width in take 2 c ++ put_le16 (drop 2 c) height |>);
  virtio_config_change_notify.
End Consoles.

Definition virtio_console_init : VIRTIODevice * VIRTIOConsoleDevice :=
  (set_manual ((virtio_init 3 4) <| device_features := 1 <<' 0 |>), mkVIRTIOConsoleDevice).

(** ** The input devices *)

Inductive VirtioInputTypeEnum := VIRTIO_INPUT_TYPE_KEYBOARD | VIRTIO_INPUT_TYPE_MOUSE | VIRTIO_INPUT_TYPE_TABLET.

#[global] Instance input_type_eq_dec : EqDecision VirtioInputTypeEnum.
Proof. solve_decision. Defined.

Definition VIRTIO_INPUT_CFG_UNSET : Z := 0x00.
Definition VIRTIO_INPUT_CFG_ID_NAME : Z := 0x01.
Definition VIRTIO_INPUT_CFG_EV_BITS : Z := 0x11.
Definition VIRTIO_INPUT_CFG_ABS_INFO : Z := 0x12.
Definition VIRTIO_INPUT_EV_SYN : Z := 0x00.
Definition VIRTIO_INPUT_EV_KEY : Z := 0x01.
Definition VIRTIO_INPUT_EV_REL : Z := 0x02.
Definition VIRTIO_INPUT_EV_ABS : Z := 0x03.
Definition VIRTIO_INPUT_EV_REP : Z := 0x14.
Definition BTN_LEFT : Z := 0x110.
Definition BTN_RIGHT : Z := 0x111.
Definition BTN_MIDDLE : Z := 0x112.
Definition REL_X : Z := 0x00.
Definition REL_Y : Z := 0x01.
Definition REL_WHEEL : Z := 0x08.
Definition ABS_X : Z := 0x00.
Definition ABS_Y : Z := 0x01.
Definition VIRTIO_INPUT_ABS_SCALE : Z := 32768.

Definition buttons_list : list Z := [BTN_LEFT; BTN_RIGHT; BTN_MIDDLE].

Record VIRTIOInputDevice := mkVIRTIOInputDevice { input_type : VirtioInputTypeEnum; buttons_state : Z }.

Section Inputs.
Context {H : VirtioHost}.
Abbreviation VM := (SM (VS VIRTIOInputDevice)).

Definition virtio_input_recv_request (queue_idx desc_idx read_size write_size : Z) : VM Z :=
  if queue_idx =? 1 then _ ← virtio_consume_desc queue_idx desc_idx 0; mret 0 else mret 0.

(** The 8 bytes of an event. *)
Definition event_bytes (type code value : Z) : list Z := put_le16 [0; 0] type ++ put_le16 [0; 0] code ++ put_le32 [0; 0; 0; 0] value.

Definition virtio_input_queue_event (type code value : Z) : VM Z :=
  room ← queue0_has_room;
  if negb room then mret (-1)
  else
    desc_idx ← queue0_head;
    _ ← memcpy_to_queue 0 desc_idx 0 (event_bytes (u16 type) (u16 code) (u32 value)) 8;
    _ ← virtio_consume_desc 0 desc_idx 8;
    _ ← next_avail 0;
    mret 0.

Definition virtio_input_send_key_event (is_down : bool) (key_code : Z) : VM Z :=
  k ← gets kind;
  if bool_decide (input_type k = VIRTIO_INPUT_TYPE_KEYBOARD) then
    ret ← virtio_input_queue_event VIRTIO_INPUT_EV_KEY key_code (b2z is_down);
    if negb (ret =? 0) then mret ret
    else virtio_input_queue_event VIRTIO_INPUT_EV_SYN 0 0
  else mret (-1).

(** A sequence of events that ends at the first one that fails. *)
Fixpoint queue_events (evs : list (Z * Z * Z)) : VM Z :=
  match evs with
  | [] => mret 0
  | (type, code, value) :: evs =>
      ret ← virtio_input_queue_event type code value;
      if negb (ret =? 0) then mret ret else queue_events evs
  end.

(** Bit [i] of the button mask for each entry of [buttons_list] that changed. *)
Definition button_events (buttons last : Z) : list (Z * Z * Z) :=
  flat_map (fun '(i, code) =>
      let b := (buttons >>' i) &' 1 in
      let last_b := (last >>' i) &' 1 in
      if b =? last_b then [] else [(VIRTIO_INPUT_EV_KEY, code, b)])
    (zip (seqZ 0 3) buttons_list).

(** Also used for the tablet. *)
Definition virtio_input_send_mouse_event (dx dy dz buttons : Z) : VM Z :=
  k ← gets kind;
  match input_type k with
  | VIRTIO_INPUT_TYPE_KEYBOARD => mret (-1)
  | _ =>
      ret ← queue_events (match input_type k with
                          | VIRTIO_INPUT_TYPE_MOUSE => [(VIRTIO_INPUT_EV_REL, REL_X, dx); (VIRTIO_INPUT_EV_REL, REL_Y, dy)]
                          | _ => [(VIRTIO_INPUT_EV_ABS, ABS_X, dx); (VIRTIO_INPUT_EV_ABS, ABS_Y, dy)]
                          end);
      if negb (ret =? 0) then mret ret
      else
        ret ← queue_events (if negb (dz =? 0) then [(VIRTIO_INPUT_EV_REL, REL_WHEEL, dz)] else []);
        if negb (ret =? 0) then mret ret
        else
          ret ← queue_events (if negb (buttons =? buttons_state k) then button_events buttons (buttons_state k) else []);
          if negb (ret =? 0) then mret ret
          else
            _ ← modify (fun s => s <| kind := mkVIRTIOInputDevice (input_type k) buttons |>);
            virtio_input_queue_event VIRTIO_INPUT_EV_SYN 0 0
  end.

(** ** The configuration of an input device *)

Definition set_bit (tab : list Z) (k : Z) : list Z := aset tab (k >>' 3) (u8 (aget tab (k >>' 3) |' (1 <<' (k &' 7)))).

(** [config + off] filled with [data], and the size of the reply in [config[2]]. *)
Definition reply (size : Z) (data config : list Z) : list Z :=
  let c := aset config 2 size in take 8 c ++ data ++ drop (8 + List.length data) c.

Definition input_name (t : VirtioInputTypeEnum) : list Z :=
  match t with
  | VIRTIO_INPUT_TYPE_KEYBOARD => str "virtio_keyboard"
  | VIRTIO_INPUT_TYPE_MOUSE => str "virtio_mouse"
  | VIRTIO_INPUT_TYPE_TABLET => str "virtio_tablet"
  end.

(** [memset(config + 8, 0, 512 / 8)] and the button bits. *)
Definition button_bitmap : list Z := fold_left set_bit buttons_list (replicate 64 0).

Definition ev_bits (t : VirtioInputTypeEnum) (config : list Z) : list Z :=
  let ev := aget config 1 in
  let none := aset config 2 0 in
  match t with
  | VIRTIO_INPUT_TYPE_KEYBOARD =>
      if ev =? VIRTIO_INPUT_EV_KEY then reply 16 (replicate 16 255) config
      else if ev =? VIRTIO_INPUT_EV_REP then aset config 2 1
      else none
  | VIRTIO_INPUT_TYPE_MOUSE =>
      if ev =? VIRTIO_INPUT_EV_KEY then reply 64 button_bitmap config
      else if ev =? VIRTIO_INPUT_EV_REL then reply 2 (set_bit (set_bit (set_bit [0; 0] REL_X) REL_Y) REL_WHEEL) config
      else none
  | VIRTIO_INPUT_TYPE_TABLET =>
      if ev =? VIRTIO_INPUT_EV_KEY then reply 64 button_bitmap config
      else if ev =? VIRTIO_INPUT_EV_REL then reply 2 (set_bit [0; 0] REL_WHEEL) config
      else if ev =? VIRTIO_INPUT_EV_ABS then reply 1 (set_bit (set_bit [0] ABS_X) ABS_Y) config
      else none
  end.

Definition input_config (t : VirtioInputTypeEnum) (config : list Z) : list Z :=
  let sel := aget config 0 in
  if sel =? VIRTIO_INPUT_CFG_UNSET then config
  else if sel =? VIRTIO_INPUT_CFG_ID_NAME then reply (zlen (input_name t)) (input_name t) config
  else if sel =? VIRTIO_INPUT_CFG_EV_BITS then ev_bits t config
  else if sel =? VIRTIO_INPUT_CFG_ABS_INFO then
    if bool_decide (t = VIRTIO_INPUT_TYPE_TABLET) && (aget config 1 <=? 1) then
      reply 20 (put_le32 [0; 0; 0; 0] 0 ++ put_le32 [0; 0; 0; 0] (VIRTIO_INPUT_ABS_SCALE - 1)
                ++ put_le32 [0; 0; 0; 0] 0 ++ put_le32 [0; 0; 0; 0] 0 ++ put_le32 [0; 0; 0; 0] 0) config
    else config
  else aset config 2 0.

Definition virtio_input_config_write : VM unit :=
  k ← gets kind;
  on_dev (fun d => d <| config_space := input_config (input_type k) (config_space d) |>).
End Inputs.

Definition virtio_input_init (type : VirtioInputTypeEnum) : VIRTIODevice * VIRTIOInputDevice :=
  ((set_manual (virtio_init 18 256)) <| device_features := 0 |>, mkVIRTIOInputDevice type 0).
