(* ===== verification/VirtioQueue.v ===== *)
(** * What the queues do

    Guest RAM is a window of the address space that is contiguous in host
    memory.  A chain of descriptors designates a sequence of buffers there,
    first the ones the device reads, then the ones it writes.  Copying from a
    queue is taking a slice of the concatenated readable buffers; copying to a
    queue is storing a slice into the writable ones; both fail exactly when the
    slice does not fit. *)

From S2P Require Import Prelude Cutils Iomem Hostmem Bytes Virtio.
From stdpp Require Import base list gmap.
From Stdlib Require Import ZArith Lia Bool.
Local Open Scope Z_scope.
Local Open Scope bits_scope.

(** ** Buffers *)

(** [buf] with [data] stored at [pos]. *)
Definition splice (buf : list Z) (pos : Z) (data : list Z) : list Z :=
  take (Z.to_nat pos) buf ++ data ++ drop (Z.to_nat pos + List.length data) buf.

Lemma splice_nil buf pos : splice buf pos [] = buf.
Proof. unfold splice. cbn [List.length app]. rewrite Nat.add_0_r. apply take_drop. Qed.

Lemma zlen_splice buf pos data : 0 <= pos -> pos + zlen data <= zlen buf -> zlen (splice buf pos data) = zlen buf.
Proof. intros. unfold splice, zlen in *. rewrite !length_app, length_take, length_drop. lia. Qed.

Lemma splice_splice buf pos a b : 0 <= pos -> pos + zlen a + zlen b <= zlen buf ->
  splice (splice buf pos a) (pos + zlen a) b = splice buf pos (a ++ b).
Proof.
  intros Hp Hl. unfold splice, zlen in *.
  assert (Z.to_nat (pos + Z.of_nat (List.length a)) = (Z.to_nat pos + List.length a)%nat) as -> by lia.
  assert (List.length (take (Z.to_nat pos) buf) = Z.to_nat pos) as Et by (rewrite length_take; lia).
  set (T := take (Z.to_nat pos) buf) in *. set (D := drop (Z.to_nat pos + List.length a) buf).
  assert (take (Z.to_nat pos + List.length a) (T ++ a ++ D) = T ++ a) as ->
    by (rewrite app_assoc; apply take_app_length'; rewrite length_app; lia).
  assert (drop (Z.to_nat pos + List.length a + List.length b) (T ++ a ++ D) = drop (Z.to_nat pos + List.length (a ++ b)) buf) as ->.
  { rewrite app_assoc, drop_app, drop_ge by (rewrite length_app; lia). unfold D. cbn [app]. rewrite drop_drop. f_equal.
    rewrite !length_app. lia. }
  rewrite <- !app_assoc. reflexivity.
Qed.

Lemma splice_all buf data : zlen data = zlen buf -> splice buf 0 data = data.
Proof.
  intros Hl. unfold splice, zlen in *. cbn [Z.to_nat take app]. rewrite drop_ge by lia. apply app_nil_r.
Qed.

Lemma buf_put_splice buf pos data : 0 <= pos -> pos + zlen data <= zlen buf -> buf_put buf pos data = Done (splice buf pos data).
Proof. apply buf_put_run. Qed.

(** The slice [buf[pos .. pos + n)], and a slice cut in two. *)
Definition slice (buf : list Z) (pos n : Z) : list Z := take (Z.to_nat n) (drop (Z.to_nat pos) buf).

Lemma zlen_slice buf pos n : 0 <= pos -> 0 <= n -> pos + n <= zlen buf -> zlen (slice buf pos n) = n.
Proof. intros. unfold slice, zlen in *. rewrite length_take, length_drop. lia. Qed.

Lemma slice_split buf pos a b : 0 <= pos -> 0 <= a -> 0 <= b -> slice buf pos (a + b) = slice buf pos a ++ slice buf (pos + a) b.
Proof.
  intros. unfold slice. rewrite !Z2Nat.inj_add by lia. rewrite <- drop_drop. generalize (drop (Z.to_nat pos) buf). intros l.
  rewrite <- (take_drop (Z.to_nat a) l) at 1. rewrite take_app, length_take.
  destruct (decide (Z.to_nat a <= List.length l)%nat) as [Hl|Hl].
  - rewrite Nat.min_l by exact Hl. rewrite take_ge by (rewrite length_take; lia). f_equal. f_equal. lia.
  - rewrite (drop_ge l) by lia. rewrite !take_nil, !app_nil_r. rewrite take_take. rewrite Nat.min_r by lia. reflexivity.
Qed.

Lemma slice_app_r a b pos n : zlen a <= pos -> slice (a ++ b) pos n = slice b (pos - zlen a) n.
Proof.
  intros Hp. unfold slice, zlen in *. rewrite drop_app, drop_ge by lia. cbn [app]. repeat f_equal. lia.
Qed.

Lemma slice_app_l a b pos n : 0 <= pos -> 0 <= n -> pos + n <= zlen a -> slice (a ++ b) pos n = slice a pos n.
Proof.
  intros. unfold slice, zlen in *. rewrite drop_app. rewrite (proj2 (Nat.sub_0_le _ _)) by lia. rewrite drop_0, take_app_le; [reflexivity|].
  rewrite length_drop. lia.
Qed.

Lemma slice_all buf n : n = zlen buf -> slice buf 0 n = buf.
Proof. intros ->. unfold slice, zlen. rewrite drop_0, take_ge by lia. reflexivity. Qed.
Lemma slice_nil pos n : slice [] pos n = [].
Proof. unfold slice. rewrite drop_nil, take_nil. reflexivity. Qed.
Lemma zlen_slice_le buf pos n : 0 <= n -> zlen (slice buf pos n) <= n.
Proof. intros. unfold slice, zlen. rewrite length_take. lia. Qed.
Lemma slice_slice buf p k a n : 0 <= p -> 0 <= a -> 0 <= n -> a + n <= k -> slice (slice buf p k) a n = slice buf (p + a) n.
Proof.
  intros. unfold slice. rewrite Z2Nat.inj_add by lia. rewrite <- drop_drop. generalize (drop (Z.to_nat p) buf). intros l.
  rewrite !take_drop_commute, take_take. do 2 f_equal. lia.
Qed.
Lemma slice_0 buf pos : slice buf pos 0 = [].
Proof. reflexivity. Qed.

(** Storing into a concatenation. *)
Lemma splice_app_r a b o x : zlen a <= o -> splice (a ++ b) o x = a ++ splice b (o - zlen a) x.
Proof.
  intros Ho. unfold splice, zlen in *. rewrite take_app, take_ge by lia. rewrite <- app_assoc. do 2 f_equal.
  - f_equal. lia.
  - f_equal. rewrite drop_app, drop_ge by lia. cbn [app]. f_equal. lia.
Qed.
Lemma splice_app a b o x y : 0 <= o -> o + zlen x <= zlen a -> y = [] \/ o + zlen x = zlen a ->
  splice (a ++ b) o (x ++ y) = splice a o x ++ splice b 0 y.
Proof.
  intros Ho Hx Hy. unfold splice, zlen in *. rewrite take_app_le by lia. rewrite <- !app_assoc. do 2 f_equal.
  destruct Hy as [-> | E].
  - rewrite app_nil_r. change (Z.to_nat 0) with 0%nat. rewrite take_0. cbn [List.length app]. rewrite drop_0, drop_app_le by lia. reflexivity.
  - rewrite length_app, drop_app, !(drop_ge a) by lia. change (Z.to_nat 0) with 0%nat. rewrite take_0. cbn [app]. do 2 f_equal. lia.
Qed.

(** ** Guest RAM *)

Lemma page_chunk_bounds addr count : 0 < count -> 1 <= page_chunk addr count <= count.
Proof.
  intros Hc. unfold page_chunk, min_int, VIRTIO_PAGE_SIZE.
  pose proof (land_ones_bound addr 12 ltac:(lia)) as Hb. change (Z.ones 12) with (4096 - 1) in Hb. change (2 ^ 12) with 4096 in Hb.
  destruct (Z.ltb_spec count (4096 - (addr &' (4096 - 1)))); lia.
Qed.

Lemma aligned_tst a n : 0 <= n -> a mod 2 ^ n = 0 -> tst a (Z.ones n) = false.
Proof. intros Hn Ha. unfold tst. rewrite Z.land_ones by lia. rewrite Ha. reflexivity. Qed.

(** The window [base, base + size) is RAM, at [host] in host memory. *)
Record ram_window {H : VirtioHost} (base size host : Z) : Prop := {
  rw_base : 0 <= base;
  rw_size : 0 <= size;
  rw_end : base + size < 2 ^ 64;
  rw_ptr : forall a, base <= a < base + size -> ram_ptr a = Some (host + (a - base)) }.

(** The range that answers the whole window makes one. *)
Lemma mmio_window {H : VirtioHost} map pr : ram_ptr = virtio_mmio_get_ram_ptr map -> pr_is_ram pr = true ->
  0 <= pr_addr pr -> 0 <= pr_size pr -> pr_addr pr + pr_size pr < 2 ^ 64 ->
  0 <= pr_phys_mem pr -> pr_phys_mem pr + pr_size pr <= 2 ^ 64 ->
  (forall a, pr_addr pr <= a < pr_addr pr + pr_size pr -> exists i, get_phys_mem_range map a = Some (i, pr)) ->
  ram_window (pr_addr pr) (pr_size pr) (pr_phys_mem pr).
Proof.
  intros E Hr Ha Hs He Hp Hq Hf. split; auto. intros a Hin. rewrite E. unfold virtio_mmio_get_ram_ptr.
  destruct (Hf a Hin) as [i ->]. rewrite Hr. rewrite (u64_id (a - _)), u64_id by (unfold in_u; lia). reflexivity.
Qed.

Section Ram.
Context {K : Type} {H : VirtioHost} {base size host : Z} (W : ram_window base size host).
Implicit Types s : VS K.

(** The host address of a guest address of the window. *)
Definition hp (a : Z) : Z := host + (a - base).
(** The block [a, a + n) lies in the window. *)
Definition in_ram (a n : Z) : Prop := base <= a /\ 0 <= n /\ a + n <= base + size.
(** The [n] bytes of guest memory at [a]. *)
Definition guest (m : hostmem) (a n : Z) : list Z := ld_bytes m (hp a) n.

Lemma zlen_guest m a n : 0 <= n -> zlen (guest m a n) = n.
Proof. apply zlen_ld_bytes. Qed.

Lemma hp_add a n : hp (a + n) = hp a + n.
Proof. unfold hp. lia. Qed.

Lemma guest_split m a x y : 0 <= x -> 0 <= y -> guest m a (x + y) = guest m a x ++ guest m (a + x) y.
Proof. intros. unfold guest. rewrite hp_add. apply ld_bytes_split; auto. Qed.

Lemma ram_ptr_in a n : in_ram a n -> 0 < n -> ram_ptr a = Some (hp a).
Proof. intros (H1 & H2 & H3) Hn. apply (rw_ptr _ _ _ W). lia. Qed.

Lemma in_ram_u64 a n k : in_ram a n -> 0 <= k <= n -> u64 (a + k) = a + k.
Proof. intros (H1 & H2 & H3) Hk. apply u64_id. pose proof (rw_base _ _ _ W). pose proof (rw_end _ _ _ W). unfold in_u. lia. Qed.

Lemma in_ram_tail a n k : in_ram a n -> 0 <= k <= n -> in_ram (a + k) (n - k).
Proof. unfold in_ram. lia. Qed.
Lemma in_ram_sub a n k l : in_ram a n -> 0 <= k -> 0 <= l -> k + l <= n -> in_ram (a + k) l.
Proof. unfold in_ram. lia. Qed.

(** Copying from RAM stores the guest's bytes, whatever pages they span. *)
Lemma from_ram_loop_run n s : forall buf pos addr count, (Z.to_nat count <= n)%nat -> in_ram addr count -> 0 <= pos -> pos + count <= zlen buf ->
  from_ram_loop n buf pos addr count s = Done ((0, splice buf pos (guest (vmem s) addr count)), s).
Proof.
  induction n as [|n IH]; intros buf pos addr count Hn Hr Hp Hl; cbn [from_ram_loop]; destruct (Z.leb_spec count 0) as [Hc|Hc].
  - destruct Hr as (_ & H0 & _). assert (count = 0) as -> by lia. rewrite splice_nil. reflexivity.
  - lia.
  - destruct Hr as (_ & H0 & _). assert (count = 0) as -> by lia. rewrite splice_nil. reflexivity.
  - pose proof (page_chunk_bounds addr count Hc) as Hb. set (l := page_chunk addr count) in *.
    rewrite (ram_ptr_in addr count) by auto. cbv zeta. rewrite run_gets. fold (guest (vmem s) addr l).
    rewrite buf_put_splice by (rewrite ?zlen_guest; lia). rewrite run_liftr_done.
    rewrite (in_ram_u64 addr count l) by (auto; lia).
    rewrite IH; [|lia|apply in_ram_tail; auto; lia|lia|rewrite zlen_splice; rewrite ?zlen_guest; lia].
    do 3 f_equal. rewrite <- (zlen_guest (vmem s) addr l) at 2 by lia.
    rewrite splice_splice by (rewrite ?zlen_guest; lia). f_equal. rewrite <- guest_split by lia. f_equal. lia.
Qed.

Lemma from_ram_run buf pos addr count s : in_ram addr count -> 0 <= pos -> pos + count <= zlen buf ->
  virtio_memcpy_from_ram buf pos addr count s = Done ((0, splice buf pos (guest (vmem s) addr count)), s).
Proof. apply from_ram_loop_run. lia. Qed.

(** Copying to RAM stores the slice of the buffer, whatever pages it spans. *)
Lemma to_ram_loop_run n buf : forall pos addr count s, (Z.to_nat count <= n)%nat -> in_ram addr count -> 0 <= pos -> pos + count <= zlen buf ->
  to_ram_loop n addr buf pos count s = Done (0, s <| vmem := st_bytes (vmem s) (hp addr) (slice buf pos count) |>).
Proof.
  induction n as [|n IH]; intros pos addr count s Hn Hr Hp Hl; cbn [to_ram_loop]; destruct (Z.leb_spec count 0) as [Hc|Hc].
  - destruct Hr as (_ & H0 & _). assert (count = 0) as -> by lia. rewrite slice_0. destruct s; reflexivity.
  - lia.
  - destruct Hr as (_ & H0 & _). assert (count = 0) as -> by lia. rewrite slice_0. destruct s; reflexivity.
  - pose proof (page_chunk_bounds addr count Hc) as Hb. set (l := page_chunk addr count) in *.
    rewrite (ram_ptr_in addr count) by auto. cbv zeta. rewrite buf_get_run by lia. rewrite run_liftr_done, run_modify.
    fold (slice buf pos l). rewrite (in_ram_u64 addr count l) by (auto; lia).
    rewrite IH; [|lia|apply in_ram_tail; auto; lia|lia|lia].
    do 2 f_equal. unfold upd, upd_vmem; cbn [dev vmem kind calls]. f_equal.
    rewrite hp_add. replace count with (l + (count - l)) at 2 by lia. rewrite slice_split, st_bytes_app by lia.
    rewrite zlen_slice by lia. reflexivity.
Qed.

Lemma to_ram_run addr buf pos count s : in_ram addr count -> 0 <= pos -> pos + count <= zlen buf ->
  virtio_memcpy_to_ram addr buf pos count s = Done (0, s <| vmem := st_bytes (vmem s) (hp addr) (slice buf pos count) |>).
Proof. apply to_ram_loop_run. lia. Qed.

Lemma read16_run a s : in_ram a 2 -> a mod 2 = 0 -> virtio_read16 a s = Done (ld 2 (vmem s) (hp a), s).
Proof.
  intros Hr He. unfold virtio_read16. change 1 with (Z.ones 1) at 1. rewrite (aligned_tst a 1) by (auto; lia).
  rewrite (ram_ptr_in a 2) by (auto; lia). reflexivity.
Qed.

Lemma write16_run a v s : in_ram a 2 -> a mod 2 = 0 -> virtio_write16 a v s = Done (tt, s <| vmem := st 2 (vmem s) (hp a) v |>).
Proof.
  intros Hr He. unfold virtio_write16. change 1 with (Z.ones 1) at 1. rewrite (aligned_tst a 1) by (auto; lia).
  rewrite (ram_ptr_in a 2) by (auto; lia). reflexivity.
Qed.

Lemma write32_run a v s : in_ram a 4 -> a mod 4 = 0 -> virtio_write32 a v s = Done (tt, s <| vmem := st 4 (vmem s) (hp a) v |>).
Proof.
  intros Hr He. unfold virtio_write32. change 3 with (Z.ones 2). rewrite (aligned_tst a 2) by (auto; lia).
  rewrite (ram_ptr_in a 4) by (auto; lia). reflexivity.
Qed.
End Ram.

(** ** Chains *)

Lemma get_le16_range l : in_u 16 (get_le16 l).
Proof. apply wrapu_range. lia. Qed.
Lemma get_le32_range l : in_u 32 (get_le32 l).
Proof. apply wrapu_range. lia. Qed.
Lemma d_len_nonneg d : 0 <= d_len d.
Proof. apply get_le32_range. Qed.
Lemma d_next_range d : in_u 16 (d_next d).
Proof. apply get_le16_range. Qed.

Lemma s32_small x : 0 <= x < 2 ^ 31 -> s32 x = x.
Proof. intros. apply wraps_small; lia. Qed.

Lemma min_int_min a b : min_int a b = Z.min a b.
Proof. unfold min_int. destruct (Z.ltb_spec a b); lia. Qed.

Definition buf_total (ds : list (list Z)) : Z := fold_right (fun d n => d_len d + n) 0 ds.

Lemma total_nonneg ds : 0 <= buf_total ds.
Proof. induction ds as [|d ds IH]; cbn [buf_total fold_right]; [lia|]. fold (buf_total ds). pose proof (d_len_nonneg d). lia. Qed.
Lemma total_cons d ds : buf_total (d :: ds) = d_len d + buf_total ds.
Proof. reflexivity. Qed.
Lemma total_head d ds n : buf_total (d :: ds) < n -> 0 <= d_len d < n /\ 0 <= buf_total ds < n.
Proof. rewrite total_cons. pose proof (d_len_nonneg d). pose proof (total_nonneg ds). lia. Qed.
Lemma total_app a b : buf_total (a ++ b) = buf_total a + buf_total b.
Proof. induction a as [|d a IH]; [reflexivity|]. cbn [app]. rewrite !total_cons, IH. lia. Qed.

Section Chain.
Context {K : Type} {H : VirtioHost} {base size host : Z} (W : ram_window base size host).
Implicit Types s : VS K.
Abbreviation guest := (guest (base := base) (host := host)).
Abbreviation in_ram := (in_ram (base := base) (size := size)).
Abbreviation hp := (hp (base := base) (host := host)).

(** The descriptor table: [entries] descriptors at [desc_addr qs]. *)
Context (entries : Z).
Definition desc_at (m : hostmem) (qs : QueueState) (i : Z) : list Z := guest m (desc_addr qs + i * 16) 16.
Definition table_ok (qs : QueueState) : Prop := in_ram (desc_addr qs) (entries * 16).

(** [d] is followed by the descriptors [ds]. *)
Fixpoint linked (m : hostmem) (qs : QueueState) (d : list Z) (ds : list (list Z)) : Prop :=
  match ds with
  | [] => has_next d = false
  | d' :: ds => has_next d = true /\ d_next d < entries /\ desc_at m qs (d_next d) = d' /\ linked m qs d' ds
  end.

(** The chain that starts at entry [i]. *)
Definition chain (m : hostmem) (qs : QueueState) (i : Z) (ds : list (list Z)) : Prop :=
  0 <= i < entries /\ exists d ds', ds = d :: ds' /\ desc_at m qs i = d /\ linked m qs d ds'.

(** The bytes of the buffers. *)
Definition contents (m : hostmem) (d : list Z) : list Z := guest m (d_addr d) (d_len d).
Definition gather (m : hostmem) (ds : list (list Z)) : list Z := concat (map (contents m) ds).

Definition buffer_ok (d : list Z) : Prop := in_ram (d_addr d) (d_len d).

Lemma zlen_contents m d : zlen (contents m d) = d_len d.
Proof. apply zlen_guest, d_len_nonneg. Qed.
Lemma gather_cons m d ds : gather m (d :: ds) = contents m d ++ gather m ds.
Proof. reflexivity. Qed.
Lemma zlen_gather m ds : zlen (gather m ds) = buf_total ds.
Proof. induction ds as [|d ds IH]; [reflexivity|]. rewrite gather_cons, zlen_app, zlen_contents, IH. reflexivity. Qed.

Lemma slice_contents m d o n : 0 <= o -> 0 <= n -> o + n <= d_len d -> slice (contents m d) o n = guest m (d_addr d + o) n.
Proof.
  intros Ho Hn Hl. unfold contents. replace (d_len d) with (o + (n + (d_len d - o - n))) by lia.
  rewrite guest_split by lia. rewrite slice_app_r by (rewrite zlen_guest; lia). rewrite zlen_guest, Z.sub_diag by lia.
  rewrite guest_split by lia. rewrite slice_app_l by (rewrite ?zlen_guest; lia). apply slice_all. rewrite zlen_guest; lia.
Qed.

(** ** Fetching descriptors *)

Lemma get_queue_run i qs s : 0 <= i -> queue (dev s) !! Z.to_nat i = Some qs -> get_queue i s = Done (qs, s).
Proof. intros Hi Hq. unfold get_queue. rewrite Hq. destruct (Z.leb_spec 0 i); [reflexivity|lia]. Qed.

Context (q : Z) (qs : QueueState) (Hq : 0 <= q) (Ht : table_ok qs).
Definition here s : Prop := queue (dev s) !! Z.to_nat q = Some qs.

Lemma load_desc_run d i s : here s -> zlen d = 16 -> 0 <= i < entries -> load_desc d q i s = Done (desc_at (vmem s) qs i, s).
Proof.
  intros Hs Hd Hi. unfold load_desc, get_desc. rewrite run_assoc, run_bind, (get_queue_run q qs) by auto.
  pose proof (in_ram_u64 W _ _ (i * 16) Ht ltac:(lia)) as ->.
  rewrite run_bind, (from_ram_run W) by (try lia; apply (in_ram_sub _ _ _ _ Ht); lia).
  rewrite splice_all by (rewrite zlen_guest; lia). reflexivity.
Qed.

Lemma zlen_desc_at m i : zlen (desc_at m qs i) = 16.
Proof. apply zlen_guest. lia. Qed.

Lemma next_desc_run d d' ds s : here s -> zlen d = 16 -> linked (vmem s) qs d (d' :: ds) ->
  next_desc d q s = Done (d', s) /\ zlen d' = 16 /\ linked (vmem s) qs d' ds /\ has_next d = true.
Proof.
  intros Hs Hd (Hn & Hb & <- & Hl). unfold next_desc. pose proof (d_next_range d) as []. rewrite load_desc_run by auto.
  rewrite zlen_desc_at. auto.
Qed.

Lemma zlen_uninit n : 0 <= n -> zlen (uninit n) = n.
Proof. intros. unfold uninit, zlen. rewrite length_map, length_seqZ. lia. Qed.

(** A group of descriptors of one direction, and what follows it in the chain. *)
Definition group (w : bool) (ds rest : list (list Z)) : Prop :=
  Forall (fun d => is_write d = w) ds /\ match rest with [] => True | e :: _ => is_write e = negb w end.

Lemma eqb_dir_same w : Bool.eqb w w = true.
Proof. destruct w; reflexivity. Qed.
Lemma eqb_dir_other w : Bool.eqb (negb w) w = false.
Proof. destruct w; reflexivity. Qed.

(** ** Finding an offset *)

Fixpoint locate (ds : list (list Z)) (offset : Z) : option (list Z * Z) :=
  match ds with
  | [] => None
  | d :: ds => if offset <? d_len d then Some (d, offset) else locate ds (offset - d_len d)
  end.

Lemma locate_Some ds : forall offset d o, 0 <= offset -> locate ds offset = Some (d, o) ->
  exists pre post, ds = pre ++ d :: post /\ offset = buf_total pre + o /\ 0 <= o < d_len d.
Proof.
  induction ds as [|e ds IH]; intros offset d o H0 Hl; [discriminate|]. cbn [locate] in Hl.
  destruct (Z.ltb_spec offset (d_len e)).
  - injection Hl as <- <-. exists [], ds. repeat split; auto.
  - apply IH in Hl as (pre & post & -> & E & Ho); [|lia]. exists (e :: pre), post. rewrite total_cons. repeat split; auto; lia.
Qed.

Lemma locate_None ds : forall offset, 0 <= offset -> locate ds offset = None -> buf_total ds <= offset.
Proof.
  induction ds as [|e ds IH]; intros offset H0 Hl; cbn [locate] in Hl; [exact H0|].
  destruct (Z.ltb_spec offset (d_len e)); [discriminate|]. apply IH in Hl; [|lia]. rewrite total_cons. lia.
Qed.

Lemma linked_suffix m rest pre : forall d ds e post, d :: ds = pre ++ e :: post -> linked m qs d (ds ++ rest) -> linked m qs e (post ++ rest).
Proof.
  induction pre as [|p pre IH]; intros d ds e post E Hl.
  - injection E as -> ->. exact Hl.
  - injection E as -> ->. destruct pre as [|p' pre]; cbn [app] in *.
    + destruct Hl as (_ & _ & _ & Hl). exact Hl.
    + destruct Hl as (_ & _ & _ & Hl). exact (IH p' (pre ++ e :: post) e post eq_refl Hl).
Qed.

Lemma linked_len m d : forall ds, zlen d = 16 -> linked m qs d ds -> Forall (fun e => zlen e = 16) (d :: ds).
Proof.
  intros ds. revert d. induction ds as [|d' ds IH]; intros d Hd Hl; constructor; auto.
  destruct Hl as (_ & _ & <- & Hl). apply IH; [apply zlen_desc_at|exact Hl].
Qed.

(** The chain after the group: either its end, or a descriptor of the other direction. *)
Lemma after_group w d rest s : here s -> zlen d = 16 -> group w [d] rest -> linked (vmem s) qs d rest ->
  has_next d = false \/ exists e, has_next d = true /\ next_desc d q s = Done (e, s) /\ is_write e = negb w.
Proof.
  intros Hs Hd [_ Hr] Hl. destruct rest as [|e rest]; [left; exact Hl|]. right. exists e.
  apply next_desc_run in Hl as (E & _ & _ & Hn); auto.
Qed.

Lemma find_offset_run w rest s : here s -> forall cs d n offset, zlen d = 16 -> linked (vmem s) qs d (cs ++ rest) -> group w (d :: cs) rest ->
  buf_total (d :: cs) < 2 ^ 31 -> 0 <= offset < 2 ^ 31 -> (List.length cs < n)%nat ->
  find_offset n w d q offset s = Done (locate (d :: cs) offset, s).
Proof.
  intros Hs. induction cs as [|e cs IH]; intros d n offset Hd Hl [Hw Hr] Htot Ho Hn; (destruct n as [|n]; [inversion Hn|]).
  all: destruct (total_head _ _ _ Htot) as [Hld Htot']; cbn [find_offset locate]; pose proof (Forall_inv Hw) as Ew; cbn beta in Ew;
    rewrite Ew, eqb_dir_same, (s32_small (d_len d)) by exact Hld; cbn [negb];
    destruct (Z.ltb_spec offset (d_len d)) as [Hlt|Hge]; [reflexivity|].
  - cbn [app] in Hl. destruct (after_group w d rest s Hs Hd (conj Hw Hr) Hl) as [-> | (e & -> & E & He)]; [reflexivity|].
    cbn [negb]. cbv zeta. rewrite run_bind, E. destruct n as [|n]; cbn [find_offset]; rewrite He, eqb_dir_other; reflexivity.
  - apply next_desc_run in Hl as (E & He & Hl & ->); auto. cbn [negb]. cbv zeta. rewrite run_bind, E. rewrite s32_small by lia.
    cbn [List.length] in Hn. rewrite (IH e); auto; try lia. split; [apply (Forall_inv_tail Hw)|exact Hr].
Qed.

(** ** Copying *)

Lemma int_op_run {S} x (s : S) : - 2 ^ 31 <= x < 2 ^ 31 -> int_op x s = Done (x, s).
Proof. intros. unfold int_op. destruct (Z.leb_spec (- 2 ^ 31) x), (Z.ltb_spec x (2 ^ 31)); try lia. reflexivity. Qed.

(** What one turn of the copy loop does to the buffer and to the state, with [l] bytes at [a]. *)
Definition turn_buf (w : bool) (s : VS K) (buf : list Z) (pos a l : Z) : list Z :=
  if w then buf else splice buf pos (guest (vmem s) a l).
Definition turn_state (w : bool) (s : VS K) (buf : list Z) (pos a l : Z) : VS K :=
  if w then s <| vmem := st_bytes (vmem s) (hp a) (slice buf pos l) |> else s.

Definition copy_rest (n : nat) (w : bool) (d : list Z) (buf : list Z) (pos count : Z) : SM (VS K) (Z * list Z) :=
  if negb (has_next d) then mret (-1, buf)
  else
    d ← next_desc d q;
    if negb (Bool.eqb (is_write d) w) then mret (-1, buf)
    else match n with O => stop Endless | S n => copy_chain n w d q buf pos 0 count end.

Lemma copy_turn n w d buf pos offset count s : buffer_ok d -> d_len d < 2 ^ 31 -> 0 <= offset <= d_len d -> 0 < count < 2 ^ 31 ->
  0 <= pos -> pos + count <= zlen buf ->
  let l := Z.min count (d_len d - offset) in
  let buf' := turn_buf w s buf pos (d_addr d + offset) l in
  copy_chain n w d q buf pos offset count s =
    (if count <=? d_len d - offset then mret (0, buf') else copy_rest n w d buf' (pos + l) (count - l))
      (turn_state w s buf pos (d_addr d + offset) l).
Proof.
  intros Hb Hd Ho Hc Hp Hl l buf'. assert (0 <= l) by lia.
  assert (min_int count (s32 (d_len d - offset)) = l) as El by (rewrite min_int_min, s32_small by lia; reflexivity).
  pose proof (in_ram_sub _ _ offset l Hb ltac:(lia) ltac:(lia) ltac:(lia)) as Hin.
  pose proof (in_ram_u64 W _ _ offset Hb ltac:(lia)) as Eu.
  assert (forall k : list Z -> SM (VS K) (Z * list Z),
    (((if w then _ ← virtio_memcpy_to_ram (u64 (d_addr d + offset)) buf pos l; mret buf
       else '(_, buf) ← virtio_memcpy_from_ram buf pos (u64 (d_addr d + offset)) l; mret buf) : SM (VS K) (list Z)) ≫= k) s =
    k buf' (turn_state w s buf pos (d_addr d + offset) l)) as Ecopy.
  { intros k. rewrite Eu. unfold buf', turn_buf, turn_state. destruct w; rewrite run_assoc, run_bind.
    - rewrite (to_ram_run W) by (auto; lia). rewrite run_bind_ret. reflexivity.
    - rewrite (from_ram_run W) by (auto; lia). rewrite run_bind_ret. reflexivity. }
  destruct n as [|n]; cbn [copy_chain]; rewrite El; cbv zeta; rewrite Ecopy, run_bind, int_op_run by lia.
  all: destruct (Z.leb_spec count (d_len d - offset)); [replace (count - l) with 0 by lia; reflexivity|].
  all: destruct (Z.eqb_spec (count - l) 0); [lia|]; rewrite run_bind, int_op_run by lia.
  all: replace (offset + l) with (d_len d) by lia; rewrite s32_small, Z.eqb_refl by lia; reflexivity.
Qed.

(** The result of a copy of [count] bytes of which [got] are there. *)
Definition copied (count got : Z) : Z := if count <=? got then 0 else -1.

Lemma gather_slice m d cs offset count : 0 <= offset <= d_len d -> 0 <= count ->
  slice (gather m (d :: cs)) offset count =
  if count <=? d_len d - offset then guest m (d_addr d + offset) count
  else guest m (d_addr d + offset) (d_len d - offset) ++ slice (gather m cs) 0 (count - (d_len d - offset)).
Proof.
  intros Ho Hc. rewrite gather_cons. pose proof (zlen_contents m d) as Hz. destruct (Z.leb_spec count (d_len d - offset)).
  - rewrite slice_app_l by lia. apply slice_contents; lia.
  - replace count with ((d_len d - offset) + (count - (d_len d - offset))) at 1 by lia. rewrite slice_split by lia.
    rewrite slice_app_l, slice_contents, slice_app_r by lia. do 3 f_equal. lia.
Qed.

Lemma copied_le count got : count <= got -> copied count got = 0.
Proof. intros. unfold copied. destruct (Z.leb_spec count got); [reflexivity|lia]. Qed.
Lemma copied_gt count got : got < count -> copied count got = -1.
Proof. intros. unfold copied. destruct (Z.leb_spec count got); [lia|reflexivity]. Qed.

Lemma copy_rest_end w rest n d buf pos count s : here s -> zlen d = 16 -> group w [d] rest -> linked (vmem s) qs d rest ->
  copy_rest n w d buf pos count s = Done ((-1, buf), s).
Proof.
  intros Hs Hd Hg Hl. unfold copy_rest. destruct (after_group w d rest s Hs Hd Hg Hl) as [-> | (e & -> & E & He)]; [reflexivity|].
  cbn [negb]. rewrite run_bind, E, He, eqb_dir_other. reflexivity.
Qed.

Lemma copy_rest_next w n d e ds buf pos count s : here s -> zlen d = 16 -> linked (vmem s) qs d (e :: ds) -> is_write e = w ->
  copy_rest (S n) w d buf pos count s = copy_chain n w e q buf pos 0 count s.
Proof.
  intros Hs Hd Hl <-. apply next_desc_run in Hl as (E & _ & _ & Hn); auto. unfold copy_rest. rewrite Hn. cbn [negb].
  rewrite run_bind, E, eqb_dir_same. reflexivity.
Qed.

Lemma group_tail w d cs rest : group w (d :: cs) rest -> group w cs rest.
Proof. intros [Hw Hr]. split; [apply (Forall_inv_tail Hw)|exact Hr]. Qed.

Lemma copy_out_run rest s : here s -> forall n cs d buf pos offset count, zlen d = 16 -> linked (vmem s) qs d (cs ++ rest) ->
  group false (d :: cs) rest -> Forall buffer_ok (d :: cs) -> buf_total (d :: cs) < 2 ^ 31 -> (List.length cs <= n)%nat ->
  0 <= offset <= d_len d -> 0 < count < 2 ^ 31 -> 0 <= pos -> pos + count <= zlen buf ->
  copy_chain n false d q buf pos offset count s =
    Done ((copied count (buf_total (d :: cs) - offset), splice buf pos (slice (gather (vmem s) (d :: cs)) offset count)), s).
Proof.
  intros Hs. induction n as [|n IH]; intros cs d buf pos offset count Hd Hl Hg Hb Htot Hn Ho Hc Hp Hbuf.
  all: destruct (total_head _ _ _ Htot) as [Hld Htot']; pose proof (Forall_inv Hb) as Hbd.
  all: rewrite copy_turn by (auto; lia); rewrite gather_slice by lia; unfold turn_state, turn_buf; rewrite total_cons.
  all: destruct (Z.leb_spec count (d_len d - offset)); [rewrite Z.min_l, copied_le by lia; reflexivity|rewrite Z.min_r by lia].
  all: destruct cs as [|e cs]; [rewrite (copy_rest_end false rest), copied_gt by (auto; cbn [buf_total fold_right]; lia);
    change (gather (vmem s) []) with (@nil Z); rewrite slice_nil, app_nil_r; reflexivity|].
  - cbn [List.length] in Hn. lia.
  - cbn [app] in Hl. rewrite (copy_rest_next false n d e (cs ++ rest)) by (auto; exact (Forall_inv (Forall_inv_tail (proj1 Hg)))).
    apply next_desc_run in Hl as (_ & He & Hl & _); auto. cbn [List.length] in Hn.
    rewrite IH with (cs := cs); auto; try lia; [|eauto using group_tail|apply (Forall_inv_tail Hb)|split; [lia|apply d_len_nonneg]|rewrite zlen_splice; rewrite ?zlen_guest; lia].
    do 3 f_equal; [unfold copied; destruct (Z.leb_spec (count - (d_len d - offset)) (buf_total (e :: cs) - 0)), (Z.leb_spec count (d_len d + buf_total (e :: cs) - offset)); lia || reflexivity|].
    replace (pos + (d_len d - offset)) with (pos + zlen (guest (vmem s) (d_addr d + offset) (d_len d - offset))) by (rewrite zlen_guest; lia).
    rewrite splice_splice; [reflexivity|lia|].
    rewrite zlen_guest by lia. pose proof (zlen_slice_le (gather (vmem s) (e :: cs)) 0 (count - (d_len d - offset)) ltac:(lia)). lia.
Qed.

(** ** Copying into a chain *)

(** The memory after [data] is stored from [offset] on into the buffers of [ds]. *)
Fixpoint scatter (m : hostmem) (ds : list (list Z)) (offset : Z) (data : list Z) : hostmem :=
  match ds with
  | [] => m
  | d :: ds =>
      if offset <? d_len d then
        let l := Z.min (zlen data) (d_len d - offset) in
        scatter (st_bytes m (hp (d_addr d + offset)) (slice data 0 l)) ds 0 (slice data l (zlen data - l))
      else scatter m ds (offset - d_len d) data
  end.

(** The buffer does not overlap the descriptor table. *)
Definition off_table (d : list Z) : Prop := d_addr d + d_len d <= desc_addr qs \/ desc_addr qs + entries * 16 <= d_addr d.

Lemma linked_st m d ds p l : (forall i, 0 <= i < entries * 16 -> p + zlen l <= hp (desc_addr qs) + i \/ hp (desc_addr qs) + i < p) ->
  linked m qs d ds -> linked (st_bytes m p l) qs d ds.
Proof.
  intros Hd. revert d. induction ds as [|e ds IH]; intros d Hl; [exact Hl|]. destruct Hl as (Hn & Hb & He & Hl). repeat split; auto.
  rewrite <- He. apply ld_bytes_ext. intros r Hr. apply st_bytes_outside. pose proof (d_next_range d) as []. unfold VirtioQueue.hp in *.
  specialize (Hd (r - (host + (desc_addr qs - base))) ltac:(lia)). lia.
Qed.

Lemma linked_write m d ds e o buf pos l : off_table e -> 0 <= o -> 0 <= l -> o + l <= d_len e -> zlen buf = l \/ 0 <= pos /\ pos + l <= zlen buf ->
  linked m qs d ds -> linked (st_bytes m (hp (d_addr e + o)) (slice buf pos l)) qs d ds.
Proof.
  intros He Ho Hl Hle Hbuf. apply linked_st. intros i Hi. pose proof (zlen_slice_le buf pos l Hl). unfold off_table, VirtioQueue.hp in *. lia.
Qed.

Lemma scatter_nil ds : forall m o, 0 <= o -> scatter m ds o [] = m.
Proof.
  induction ds as [|d ds IH]; intros m o Ho; [reflexivity|]. cbn [scatter]. destruct (Z.ltb_spec o (d_len d)); [|apply IH; lia].
  change (zlen []) with 0. rewrite !slice_nil. rewrite IH by lia. reflexivity.
Qed.

(** The memory after one turn of the loop, and the turns that remain. *)
Lemma scatter_turn m d cs buf pos offset count : 0 <= offset < d_len d \/ offset = 0 -> 0 < count -> 0 <= pos -> pos + count <= zlen buf ->
  let l := Z.min count (d_len d - offset) in
  scatter m (d :: cs) offset (slice buf pos count) =
  scatter (st_bytes m (hp (d_addr d + offset)) (slice buf pos l)) cs 0 (slice buf (pos + l) (count - l)).
Proof.
  intros Ho Hc Hp Hb l. pose proof (d_len_nonneg d). cbn [scatter]. rewrite zlen_slice by lia. destruct (Z.ltb_spec offset (d_len d)).
  - fold l. cbv zeta. rewrite !slice_slice by lia. rewrite Z.add_0_r. reflexivity.
  - assert (offset = 0 /\ d_len d = 0) as [-> E] by lia. unfold l. rewrite E, Z.min_r, slice_0, !Z.sub_0_r, !Z.add_0_r by lia. reflexivity.
Qed.

Lemma copy_in_run buf : forall n cs d pos offset count s, here s -> zlen d = 16 -> linked (vmem s) qs d cs ->
  group true (d :: cs) [] -> Forall buffer_ok (d :: cs) -> Forall off_table (d :: cs) -> buf_total (d :: cs) < 2 ^ 31 -> (List.length cs <= n)%nat ->
  0 <= offset < d_len d \/ offset = 0 -> 0 < count < 2 ^ 31 -> 0 <= pos -> pos + count <= zlen buf ->
  copy_chain n true d q buf pos offset count s =
    Done ((copied count (buf_total (d :: cs) - offset), buf), s <| vmem := scatter (vmem s) (d :: cs) offset (slice buf pos count) |>).
Proof.
  induction n as [|n IH]; intros cs d pos offset count s Hs Hd Hl Hg Hb Hot Htot Hn Ho Hc Hp Hbuf.
  all: destruct (total_head _ _ _ Htot) as [Hld Htot']; pose proof (Forall_inv Hb) as Hbd; pose proof (Forall_inv Hot) as Hod.
  all: rewrite copy_turn, scatter_turn by (auto; lia); unfold turn_state, turn_buf; rewrite total_cons.
  all: destruct (Z.leb_spec count (d_len d - offset)) as [Hle|Hgt];
    [rewrite Z.min_l, copied_le, Z.sub_diag, slice_0, scatter_nil by lia; reflexivity|rewrite Z.min_r by lia].
  all: set (l := d_len d - offset) in *; set (s' := s <| vmem := st_bytes _ _ _ |>).
  all: assert (linked (vmem s') qs d cs) as Hl' by (apply linked_write; auto; lia); assert (here s') as Hs' by exact Hs.
  all: destruct cs as [|e cs]; [rewrite (copy_rest_end true []), copied_gt by (auto; cbn [buf_total fold_right]; lia); reflexivity|].
  - cbn [List.length] in Hn. lia.
  - rewrite (copy_rest_next true n d e cs) by (auto; exact (Forall_inv (Forall_inv_tail (proj1 Hg)))).
    apply next_desc_run in Hl' as (_ & He & Hle & _); auto. cbn [List.length] in Hn.
    rewrite IH with (cs := cs); auto; try lia; [|eauto using group_tail|apply (Forall_inv_tail Hb)|apply (Forall_inv_tail Hot)].
    do 3 f_equal. unfold copied. destruct (Z.leb_spec (count - l) (buf_total (e :: cs) - 0)), (Z.leb_spec count (d_len d + buf_total (e :: cs) - offset)); lia || reflexivity.
Qed.

(** The buffers do not overlap. *)
Definition apart (d e : list Z) : Prop := d_addr d + d_len d <= d_addr e \/ d_addr e + d_len e <= d_addr d.
Fixpoint separated (ds : list (list Z)) : Prop := match ds with [] => True | d :: ds => Forall (apart d) ds /\ separated ds end.

Definition outside (p : Z) (d : list Z) : Prop := p < hp (d_addr d) \/ hp (d_addr d) + d_len d <= p.

Lemma scatter_outside p ds : forall m o data, 0 <= o -> Forall (outside p) ds -> ld8 (scatter m ds o data) p = ld8 m p.
Proof.
  induction ds as [|d ds IH]; intros m o data Ho Hd; [reflexivity|]. inversion_clear Hd as [|? ? Hp Hr]. cbn [scatter].
  destruct (Z.ltb_spec o (d_len d)); [|apply IH; [lia|auto]]. cbv zeta. rewrite IH by (auto; lia). apply st_bytes_outside.
  pose proof (zlen_nonneg data). pose proof (zlen_slice_le data 0 (Z.min (zlen data) (d_len d - o)) ltac:(lia)).
  unfold outside, VirtioQueue.hp in *. lia.
Qed.

Lemma contents_ext m m' d : (forall p, hp (d_addr d) <= p < hp (d_addr d) + d_len d -> ld8 m p = ld8 m' p) -> contents m d = contents m' d.
Proof. apply ld_bytes_ext. Qed.

Lemma gather_ext m m' ds : (forall d p, In d ds -> hp (d_addr d) <= p < hp (d_addr d) + d_len d -> ld8 m p = ld8 m' p) -> gather m ds = gather m' ds.
Proof.
  induction ds as [|d ds IH]; intros Hp; [reflexivity|]. rewrite !gather_cons. f_equal.
  - apply contents_ext. intros p. apply (Hp d p). left. reflexivity.
  - apply IH. intros e p He. apply (Hp e p). right. exact He.
Qed.

Lemma contents_st m d o x : 0 <= o -> o + zlen x <= d_len d -> contents (st_bytes m (hp (d_addr d + o)) x) d = splice (contents m d) o x.
Proof.
  intros Ho Hx. unfold contents. replace (d_len d) with (o + (zlen x + (d_len d - o - zlen x))) by lia. pose proof (zlen_nonneg x).
  rewrite !guest_split by lia. unfold VirtioQueue.guest.
  rewrite (ld_bytes_st_disjoint _ _ _ (hp (d_addr d))), (ld_bytes_st_disjoint _ _ _ (hp (d_addr d + o + zlen x))), ld_bytes_st_same by (unfold VirtioQueue.hp; lia).
  unfold splice. rewrite take_app_length' by (rewrite length_ld_bytes; reflexivity). do 2 f_equal.
  rewrite app_assoc, drop_app_length'; [reflexivity|]. rewrite length_app, !length_ld_bytes. unfold zlen. lia.
Qed.

(** Storing into the buffers of a chain is storing into the concatenation of their contents. *)
Lemma gather_scatter ds : forall m o data, separated ds -> 0 <= o -> o + zlen data <= buf_total ds ->
  gather (scatter m ds o data) ds = splice (gather m ds) o data.
Proof.
  induction ds as [|d ds IH]; intros m o data Hs Ho Hd.
  - cbn [buf_total fold_right] in Hd. destruct data; [rewrite splice_nil; reflexivity|]. unfold zlen in Hd. cbn [List.length] in Hd. lia.
  - destruct Hs as [Ha Hs]. rewrite total_cons in Hd. cbn [scatter]. rewrite !gather_cons. pose proof (zlen_nonneg data). pose proof (d_len_nonneg d). pose proof (total_nonneg ds).
    assert (forall m' o' x, 0 <= o' -> contents (scatter m' ds o' x) d = contents m' d) as Hc.
    { intros m' o' x Ho'. apply contents_ext. intros p Hp. apply scatter_outside; [exact Ho'|]. refine (Forall_impl _ _ _ Ha _).
      intros e. unfold apart, outside, VirtioQueue.hp in *. lia. }
    destruct (Z.ltb_spec o (d_len d)) as [Hlt|Hge]; cbv zeta.
    + set (l := Z.min (zlen data) (d_len d - o)). rewrite Hc, IH by (rewrite ?zlen_slice; auto; lia).
      rewrite contents_st by (rewrite ?zlen_slice; lia).
      assert (gather (st_bytes m (hp (d_addr d + o)) (slice data 0 l)) ds = gather m ds) as ->.
      { apply gather_ext. intros e p He Hp. apply st_bytes_outside. rewrite zlen_slice by lia. rewrite Forall_forall in Ha.
        apply list_elem_of_In, Ha in He. unfold apart, VirtioQueue.hp in *. lia. }
      rewrite <- splice_app; rewrite ?zlen_contents, ?zlen_slice; try lia.
      * f_equal. replace l with (0 + l) at 2 by lia. rewrite <- slice_split by lia. apply slice_all. lia.
      * destruct (Z.eq_dec l (d_len d - o)); [right; lia|left]. replace l with (zlen data) by lia. rewrite Z.sub_diag. apply slice_0.
    + rewrite Hc, IH by (auto; lia). rewrite splice_app_r by (rewrite zlen_contents; lia). rewrite zlen_contents. reflexivity.
Qed.

(** ** Requests

    The chain at entry [i] has the readable buffers [rs] and then the writable buffers [ws], as the
    virtio rules require of a driver. *)

Record request (m : hostmem) (i : Z) (rs ws : list (list Z)) : Prop := {
  rq_chain : chain m qs i (rs ++ ws);
  rq_read : Forall (fun d => is_write d = false) rs;
  rq_write : Forall (fun d => is_write d = true) ws;
  rq_buffers : Forall buffer_ok (rs ++ ws);
  rq_table : Forall off_table ws;
  rq_separated : separated ws;
  rq_total : buf_total rs < 2 ^ 31 /\ buf_total ws < 2 ^ 31;
  rq_turns : (List.length (rs ++ ws) <= turns)%nat }.

Lemma chain_head m i ds s : here s -> vmem s = m -> chain m qs i ds ->
  exists d ds', ds = d :: ds' /\ load_desc (uninit 16) q i s = Done (d, s) /\ zlen d = 16 /\ linked m qs d ds'.
Proof.
  intros Hs <- (Hi & d & ds' & -> & <- & Hl). exists (desc_at (vmem s) qs i), ds'. rewrite load_desc_run, zlen_desc_at by (auto; apply zlen_uninit; lia).
  auto.
Qed.

(** A chain that starts with the other direction. *)
Lemma find_offset_other n w d offset s : is_write d = negb w -> find_offset n w d q offset s = Done (None, s).
Proof. intros E. destruct n; cbn [find_offset]; rewrite E, eqb_dir_other; reflexivity. Qed.

(** The return value: 0 when the bytes are there. *)
Definition copy_ret (count got : Z) : Z := if count =? 0 then 0 else copied count got.

Lemma slice_past buf pos n : zlen buf <= pos -> slice buf pos n = [].
Proof. intros. unfold slice, zlen in *. rewrite drop_ge by lia. apply take_nil. Qed.

Lemma scatter_past ds : forall m o data, buf_total ds <= o -> scatter m ds o data = m.
Proof.
  induction ds as [|d ds IH]; intros m o data Ho; [reflexivity|]. rewrite total_cons in Ho. pose proof (total_nonneg ds). cbn [scatter].
  destruct (Z.ltb_spec o (d_len d)); [lia|]. apply IH. lia.
Qed.

Lemma scatter_app pre ds : forall m o data, buf_total pre <= o -> scatter m (pre ++ ds) o data = scatter m ds (o - buf_total pre) data.
Proof.
  induction pre as [|d pre IH]; intros m o data Ho; [rewrite Z.sub_0_r; reflexivity|]. rewrite total_cons in *. pose proof (total_nonneg pre).
  cbn [app scatter]. destruct (Z.ltb_spec o (d_len d)); [lia|]. rewrite IH by lia. f_equal. lia.
Qed.

Lemma gather_app m a b : gather m (a ++ b) = gather m a ++ gather m b.
Proof. unfold gather. rewrite map_app. apply concat_app. Qed.

(** The two loops that follow the choice of the first descriptor. *)
Definition transfer (w : bool) (buf : list Z) (d : list Z) (offset count : Z) : SM (VS K) (Z * list Z) :=
  at_offset ← find_offset turns w d q offset;
  match at_offset with
  | None => mret (-1, buf)
  | Some (d, offset) => copy_chain turns w d q buf 0 offset count
  end.

Lemma transfer_out rest cs d buf offset count s : here s -> zlen d = 16 -> linked (vmem s) qs d (cs ++ rest) -> group false (d :: cs) rest ->
  Forall buffer_ok (d :: cs) -> buf_total (d :: cs) < 2 ^ 31 -> (List.length cs < turns)%nat -> 0 <= offset < 2 ^ 31 -> 0 < count < 2 ^ 31 -> count <= zlen buf ->
  transfer false buf d offset count s =
    Done ((copied count (buf_total (d :: cs) - offset), splice buf 0 (slice (gather (vmem s) (d :: cs)) offset count)), s).
Proof.
  intros Hs Hd Hl Hg Hb Ht' Hn Ho Hc Hbuf. unfold transfer. rewrite run_bind, (find_offset_run false rest s Hs cs) by auto.
  destruct (locate (d :: cs) offset) as [[e o]|] eqn:E.
  - apply locate_Some in E as (pre & post & E & -> & He); [|lia]. pose proof (linked_suffix _ rest pre _ _ _ _ E Hl) as Hle.
    pose proof (linked_len _ _ _ Hd Hl) as H16. rewrite app_comm_cons, E in H16. apply Forall_app in H16 as [H16 _]. apply Forall_app in H16 as [_ H16].
    rewrite E in *. destruct Hg as [Hw Hr]. apply Forall_app in Hw as [_ Hw]. apply Forall_app in Hb as [_ Hb]. rewrite total_app in *.
    pose proof (total_nonneg pre). assert (List.length post < turns)%nat as Hn'.
    { apply (f_equal (@List.length _)) in E. rewrite length_app in E. cbn [List.length] in E. lia. }
    rewrite (copy_out_run rest s Hs _ post); auto; try lia; [|exact (Forall_inv H16)|split; auto]. rewrite gather_app, slice_app_r by (rewrite zlen_gather; lia).
    rewrite zlen_gather. replace (buf_total pre + buf_total (e :: post) - (buf_total pre + o)) with (buf_total (e :: post) - o) by lia.
    replace (buf_total pre + o - buf_total pre) with o by lia. reflexivity.
  - apply locate_None in E; [|lia]. rewrite copied_gt, slice_past, splice_nil by (rewrite ?zlen_gather; lia). reflexivity.
Qed.

Lemma transfer_in cs d buf offset count s : here s -> zlen d = 16 -> linked (vmem s) qs d cs -> group true (d :: cs) [] ->
  Forall buffer_ok (d :: cs) -> Forall off_table (d :: cs) -> buf_total (d :: cs) < 2 ^ 31 -> (List.length cs < turns)%nat -> 0 <= offset < 2 ^ 31 ->
  0 < count < 2 ^ 31 -> count <= zlen buf ->
  transfer true buf d offset count s =
    Done ((copied count (buf_total (d :: cs) - offset), buf), s <| vmem := scatter (vmem s) (d :: cs) offset (slice buf 0 count) |>).
Proof.
  intros Hs Hd Hl Hg Hb Hot Ht' Hn Ho Hc Hbuf. unfold transfer. rewrite <- (app_nil_r cs) in Hl. rewrite run_bind, (find_offset_run true [] s Hs cs) by auto.
  destruct (locate (d :: cs) offset) as [[e o]|] eqn:E.
  - apply locate_Some in E as (pre & post & E & -> & He); [|lia]. pose proof (linked_suffix _ [] pre _ _ _ _ E Hl) as Hle.
    pose proof (linked_len _ _ _ Hd Hl) as H16. rewrite app_nil_r in *. rewrite E in H16. apply Forall_app in H16 as [_ H16].
    rewrite E in *. destruct Hg as [Hw Hr]. apply Forall_app in Hw as [_ Hw]. apply Forall_app in Hb as [_ Hb]. apply Forall_app in Hot as [_ Hot]. rewrite total_app in *.
    pose proof (total_nonneg pre). assert (List.length post < turns)%nat as Hn'.
    { apply (f_equal (@List.length _)) in E. rewrite length_app in E. cbn [List.length] in E. lia. }
    rewrite (copy_in_run buf _ post); auto; try lia; [|exact (Forall_inv H16)|split; auto]. rewrite scatter_app by lia.
    replace (buf_total pre + buf_total (e :: post) - (buf_total pre + o)) with (buf_total (e :: post) - o) by lia.
    replace (buf_total pre + o - buf_total pre) with o by lia. reflexivity.
  - apply locate_None in E; [|lia]. rewrite copied_gt, scatter_past by lia. destruct s; reflexivity.
Qed.

(** ** The queue operations *)

Lemma find_write_run ws s : here s -> forall rs d n, zlen d = 16 -> linked (vmem s) qs d (rs ++ ws) -> is_write d = false ->
  Forall (fun d => is_write d = false) rs -> Forall (fun d => is_write d = true) ws -> (List.length rs < n)%nat ->
  match ws with
  | [] => find_write n d q s = Done (None, s)
  | e :: ws' => find_write n d q s = Done (Some e, s) /\ zlen e = 16 /\ linked (vmem s) qs e ws'
  end.
Proof.
  intros Hs. induction rs as [|r rs IH]; intros d n Hd Hl Ew Hr Hws Hn; (destruct n as [|n]; [inversion Hn|]); cbn [find_write]; rewrite Ew; cbn [negb].
  - cbn [app] in Hl. destruct ws as [|e ws]; [unfold linked in Hl; rewrite Hl; reflexivity|]. apply next_desc_run in Hl as (E & He & Hl & ->); auto.
    cbn [negb]. rewrite run_bind, E. pose proof (Forall_inv Hws) as Ee; cbn beta in Ee.
    destruct n as [|n]; cbn [find_write]; rewrite Ee; auto.
  - cbn [app] in Hl. apply next_desc_run in Hl as (E & He & Hl & ->); auto. cbn [negb List.length] in *. inversion_clear Hr as [|? ? Hr1 Hr2].
    specialize (IH r n He Hl Hr1 Hr2 Hws ltac:(lia)). rewrite run_bind, E. exact IH.
Qed.

(** Copying from a queue takes a slice of the readable buffers; it fails when the slice does not fit. *)
Lemma memcpy_from_queue_run i rs ws buf offset count s : here s -> request (vmem s) i rs ws -> 0 <= offset < 2 ^ 31 -> 0 <= count < 2 ^ 31 ->
  count <= zlen buf ->
  memcpy_from_queue buf q i offset count s =
    Done ((copy_ret count (buf_total rs - offset), splice buf 0 (slice (gather (vmem s) rs) offset count)), s).
Proof.
  intros Hs [Hch Hr Hw Hb Hot Hsep [Htr Htw] Htu] Ho Hc Hbuf. unfold memcpy_from_queue, memcpy_to_from_queue, copy_ret.
  destruct (Z.eqb_spec count 0) as [->|Hne]; [rewrite slice_0, splice_nil; reflexivity|].
  destruct (chain_head _ _ _ s Hs eq_refl Hch) as (d & ds & E & El & Hd & Hl). rewrite run_bind, El, run_bind_ret. fold (transfer false buf d offset count).
  rewrite length_app in Htu. destruct rs as [|r rs].
  - (* the chain has writable buffers only *) cbn [app] in E. rewrite E in *. pose proof (Forall_inv Hw) as Ew; cbn beta in Ew.
    unfold transfer. rewrite run_bind, find_offset_other by exact Ew. change (buf_total []) with 0. rewrite copied_gt by lia.
    change (gather (vmem s) []) with (@nil Z). rewrite slice_nil, splice_nil. reflexivity.
  - injection E as <- <-. apply Forall_app in Hb as [Hb _]. cbn [List.length] in Htu.
    apply (transfer_out ws rs r); auto; try lia. split; [exact Hr|]. destruct ws; [exact I|exact (Forall_inv Hw)].
Qed.

(** Copying to a queue stores into the writable buffers; it fails when the bytes do not fit. *)
Lemma memcpy_to_queue_run i rs ws buf offset count s : here s -> request (vmem s) i rs ws -> 0 <= offset < 2 ^ 31 -> 0 <= count < 2 ^ 31 ->
  count <= zlen buf ->
  memcpy_to_queue q i offset buf count s =
    Done (copy_ret count (buf_total ws - offset), s <| vmem := scatter (vmem s) ws offset (slice (map u8 buf) 0 count) |>).
Proof.
  intros Hs [Hch Hr Hw Hb Hot Hsep [Htr Htw] Htu] Ho Hc Hbuf. unfold memcpy_to_queue, memcpy_to_from_queue, copy_ret.
  assert (count <= zlen (map u8 buf)) as Hbuf' by (unfold zlen in *; rewrite length_map; exact Hbuf). clear Hbuf. rename Hbuf' into Hbuf. set (buf' := map u8 buf) in *. clearbody buf'. clear buf. rename buf' into buf.
  destruct (Z.eqb_spec count 0) as [->|Hne]; [rewrite run_bind_ret, slice_0, scatter_nil by lia; destruct s; reflexivity|].
  destruct (chain_head _ _ _ s Hs eq_refl Hch) as (d & ds & E & El & Hd & Hl). rewrite run_assoc, run_bind, El, run_assoc.
  rewrite length_app in Htu. apply Forall_app in Hb as [_ Hb].
  assert (match ws with
          | [] => find_write turns d q s = Done (None, s)
          | e :: ws' => find_write turns d q s = Done (Some e, s) /\ zlen e = 16 /\ linked (vmem s) qs e ws'
          end) as Hf.
  { destruct rs as [|r rs].
    - cbn [app] in E. rewrite E in *. pose proof (Forall_inv Hw) as Ew; cbn beta in Ew. destruct turns; cbn [find_write]; rewrite Ew; auto.
    - injection E as <- <-. inversion_clear Hr as [|? ? Hr1 Hr2]. cbn [List.length] in Htu. apply (find_write_run ws s Hs rs); auto. lia. }
  destruct ws as [|e ws].
  - rewrite run_bind, Hf, run_bind_ret. change (buf_total []) with 0. rewrite copied_gt by lia. destruct s; reflexivity.
  - destruct Hf as (Hf & He & Hle). rewrite run_bind, Hf. fold (transfer true buf e offset count). cbn [List.length] in Htu.
    assert (group true (e :: ws) []) as Hg by (split; [exact Hw|exact I]). rewrite run_bind, (transfer_in ws) by (auto; lia). reflexivity.
Qed.

(** The sizes of a request are the sums of its buffer lengths. *)
Lemma write_sizes_run s : here s -> forall ws d n r w, zlen d = 16 -> linked (vmem s) qs d ws -> Forall (fun d => is_write d = true) (d :: ws) ->
  0 <= w -> w + buf_total (d :: ws) < 2 ^ 31 -> (List.length ws < n)%nat ->
  write_sizes n d q r w s = Done (Some (r, w + buf_total (d :: ws)), s).
Proof.
  intros Hs. induction ws as [|e ws IH]; intros d n r w Hd Hl Hw H0 Ht' Hn; (destruct n as [|n]; [inversion Hn|]); cbn [write_sizes];
    pose proof (Forall_inv Hw) as Ew; cbn beta in Ew; rewrite Ew; cbn [negb]; pose proof (d_len_nonneg d); rewrite total_cons in *.
  - unfold linked in Hl. rewrite Hl. cbv zeta. rewrite s32_small by (cbn [buf_total fold_right] in *; lia). cbn [buf_total fold_right negb]. rewrite Z.add_0_r. reflexivity.
  - apply next_desc_run in Hl as (E & He & Hl & ->); auto. cbv zeta. cbn [negb List.length] in *. pose proof (total_nonneg (e :: ws)).
    pose proof (Forall_inv_tail Hw). rewrite run_bind, E, s32_small, IH by (auto; lia). do 4 f_equal. lia.
Qed.

Lemma read_sizes_run ws s : here s -> forall rs d n r, zlen d = 16 -> linked (vmem s) qs d (rs ++ ws) -> Forall (fun d => is_write d = false) (d :: rs) ->
  Forall (fun d => is_write d = true) ws -> 0 <= r -> r + buf_total (d :: rs) < 2 ^ 31 -> buf_total ws < 2 ^ 31 -> (List.length rs < n)%nat -> (List.length ws <= turns)%nat ->
  read_sizes n d q r s = Done (Some (r + buf_total (d :: rs), buf_total ws), s).
Proof.
  intros Hs. induction rs as [|e rs IH]; intros d n r Hd Hl Hr Hw H0 Ht' Htw Hn Hn'; (destruct n as [|n]; [inversion Hn|]); cbn [read_sizes];
    pose proof (Forall_inv Hr) as Ew; cbn beta in Ew; rewrite Ew; pose proof (d_len_nonneg d); rewrite total_cons in *; cbv zeta.
  - cbn [app buf_total fold_right] in *. rewrite s32_small, !Z.add_0_r by lia. destruct ws as [|e ws].
    + unfold linked in Hl. rewrite Hl. reflexivity.
    + apply next_desc_run in Hl as (E & He & Hl & ->); auto. cbn [negb]. rewrite run_bind, E. pose proof (Forall_inv Hw) as Ee; cbn beta in Ee.
      cbn [List.length] in Hn'. destruct n as [|n]; cbn [read_sizes]; rewrite Ee; rewrite (write_sizes_run s Hs ws) by (auto; lia); reflexivity.
  - cbn [app] in Hl. apply next_desc_run in Hl as (E & He & Hl & ->); auto. cbn [negb List.length] in *. pose proof (total_nonneg (e :: rs)).
    pose proof (Forall_inv_tail Hr). rewrite run_bind, E, s32_small, IH by (auto; lia). do 4 f_equal. lia.
Qed.

Lemma get_desc_rw_size_run i rs ws s : here s -> request (vmem s) i rs ws ->
  get_desc_rw_size q i s = Done (Some (buf_total rs, buf_total ws), s).
Proof.
  intros Hs [Hch Hr Hw Hb Hot Hsep [Htr Htw] Htu]. unfold get_desc_rw_size. rewrite length_app in Htu.
  destruct (chain_head _ _ _ s Hs eq_refl Hch) as (d & ds & E & El & Hd & Hl). rewrite run_bind, El. destruct rs as [|r rs].
  - cbn [app] in E. rewrite E in *. cbn [List.length] in Htu. pose proof (Forall_inv Hw) as Ew; cbn beta in Ew.
    destruct turns as [|n] eqn:Et; [lia|]. cbn [read_sizes]. rewrite Ew, (write_sizes_run s Hs ds); auto; lia.
  - injection E as <- <-. cbn [List.length] in Htu. rewrite (read_sizes_run ws s Hs rs); auto; try lia.
Qed.
End Chain.
