(* ===== verification/P9.v ===== *)
(** * The 9p file system device ([virtio.cpp], [fs.h])

    Requests of the 9P2000.L protocol arrive on queue 0; the device keeps a
    table of the client's file identifiers and calls the file system behind
    the interface [FSDevice].  A handler ends with a reply, with an error
    number (the [goto error] of the code), or with a reply that is already
    sent or comes later.  Releasing temporary strings and buffers is left
    out. *)

From S2P Require Import Prelude Cutils Iomem Hostmem Bytes Virtio VirtioDevs.
From stdpp Require Import base list gmap.
From Stdlib Require Import ZArith Lia Bool String Ascii.
Local Open Scope Z_scope.
Local Open Scope bits_scope.
Local Open Scope list_scope.

(** ** The file system interface *)

Record FSQID := mkFSQID { qid_type : Z; qid_version : Z; qid_path : Z }.
Record FSStatFS := mkFSStatFS { f_bsize : Z; f_blocks : Z; f_bfree : Z; f_bavail : Z; f_files : Z; f_ffree : Z }.
Record FSStat := mkFSStat {
  st_qid : FSQID; st_mode : Z; st_uid : Z; st_gid : Z; st_nlink : Z; st_rdev : Z; st_size : Z; st_blksize : Z; st_blocks : Z;
  st_atime_sec : Z; st_atime_nsec : Z; st_mtime_sec : Z; st_mtime_nsec : Z; st_ctime_sec : Z; st_ctime_nsec : Z }.
Record FSLock := mkFSLock { lk_type : Z; lk_flags : Z; lk_start : Z; lk_length : Z; lk_proc_id : Z; lk_client_id : list Z }.

(** [D] is the state of the file system and [F] its open files.  A function returns the C result, what it stored through
    its pointer arguments, and the new state; [fs_read] and [fs_readdir] return the bytes they stored in the buffer. *)
Class FSDevice (D F : Type) := {
  fs_delete : F -> D -> D;
  fs_statfs : D -> FSStatFS * D;
  fs_attach : Z -> list Z -> list Z -> D -> Z * (F * FSQID) * D;
  fs_walk : F -> list (list Z) -> D -> Z * (F * list FSQID) * D;
  fs_mkdir : F -> list Z -> Z -> Z -> D -> Z * FSQID * D;
  fs_open : F -> Z -> D -> Z * FSQID * D;
  fs_create : F -> list Z -> Z -> Z -> Z -> D -> Z * FSQID * D;
  fs_stat : F -> D -> Z * FSStat * D;
  fs_setattr : F -> Z -> Z -> Z -> Z -> Z -> Z -> Z -> Z -> Z -> D -> Z * D;
  fs_readdir : F -> Z -> Z -> D -> Z * list Z * D;
  fs_read : F -> Z -> Z -> D -> Z * list Z * D;
  fs_write : F -> Z -> list Z -> Z -> D -> Z * D;
  fs_link : F -> F -> list Z -> D -> Z * D;
  fs_symlink : F -> list Z -> list Z -> Z -> D -> Z * FSQID * D;
  fs_mknod : F -> list Z -> Z -> Z -> Z -> Z -> D -> Z * FSQID * D;
  fs_readlink : F -> Z -> D -> Z * list Z * D;
  fs_renameat : F -> list Z -> F -> list Z -> D -> Z * D;
  fs_unlinkat : F -> list Z -> D -> Z * D;
  fs_lock : F -> FSLock -> D -> Z * D;
  fs_getlock : F -> FSLock -> D -> Z * FSLock * D }.

Definition P9_EPROTO : Z := 71.
Definition P9_ENOTSUP : Z := 524.

(** ** Marshalling

    An argument of the variadic calls. *)

Inductive Val := Num (v : Z) | Str (s : list Z) | Qid (q : FSQID).

(** [buf] has room for [room] more bytes; the result is what is appended. *)
Definition marshall1 (c : ascii) (a : Val) (room : Z) : res (list Z) :=
  let put (l : list Z) := _ ← assert_c (zlen l <=? room); Done l in
  match c, a with
  | "b"%char, Num v => put [u8 v]
  | "h"%char, Num v => put (put_le16 (replicate 2 0) (u32 v))
  | "w"%char, Num v => put (put_le32 (replicate 4 0) (u32 v))
  | "d"%char, Num v => put (put_le64 (replicate 8 0) (u64 v))
  | "s"%char, Str s =>
      let s := cstr s in
      _ ← assert_c (zlen s <=? 65535);
      put (put_le16 (replicate 2 0) (zlen s) ++ s)
  | "Q"%char, Qid q =>
      put ([u8 (qid_type q)] ++ put_le32 (replicate 4 0) (qid_version q) ++ put_le64 (replicate 8 0) (qid_path q))
  | _, _ => Stop UndefinedBehaviour
  end.

Fixpoint marshall (max_len : Z) (fmt : list ascii) (args : list Val) : res (list Z) :=
  match fmt, args with
  | [], _ => Done []
  | c :: fmt, a :: args =>
      l ← marshall1 c a max_len;
      rest ← marshall (max_len - zlen l) fmt args;
      Done (l ++ rest)
  | _ :: _, [] => Stop UndefinedBehaviour
  end.

Definition fmt (s : string) : list ascii := list_ascii_of_string s.

(** ** The device *)

Record VIRTIO9PDevice (D F : Type) := mkVIRTIO9PDevice {
  fs : D;
  msize : Z;
  fid_list : list (Z * F);
  p9_in_progress : bool }.
Arguments mkVIRTIO9PDevice {D F}.
Arguments fs {D F}.
Arguments msize {D F}.
Arguments fid_list {D F}.
Arguments p9_in_progress {D F}.

#[export] Instance upd_fs D F : Upd (@fs D F) := fun v k => mkVIRTIO9PDevice v (msize k) (fid_list k) (p9_in_progress k).
#[export] Instance upd_msize D F : Upd (@msize D F) := fun v k => mkVIRTIO9PDevice (fs k) v (fid_list k) (p9_in_progress k).
#[export] Instance upd_fid_list D F : Upd (@fid_list D F) := fun v k => mkVIRTIO9PDevice (fs k) (msize k) v (p9_in_progress k).
#[export] Instance upd_p9_progress D F : Upd (@p9_in_progress D F) := fun v k => mkVIRTIO9PDevice (fs k) (msize k) (fid_list k) v.

(** How a handler ends. *)
Inductive Outcome := Reply (data : list Z) | Fail (err : Z) | Sent.

Record P9OpenInfo := mkP9OpenInfo { oi_queue_idx : Z; oi_desc_idx : Z; oi_tag : Z }.

Section Device.
Context {D F : Type} {FS : FSDevice D F} {H : VirtioHost}.
Abbreviation VM := (SM (VS (VIRTIO9PDevice D F))).
Abbreviation dev9 := (VIRTIO9PDevice D F).

Definition on_p9 (f : dev9 -> dev9) : VM unit := modify (fun s => s <| kind := f (kind s) |>).

(** A call into the file system. *)
Definition on_fs {A} (f : D -> A * D) : VM A :=
  k ← gets kind;
  let '(a, d) := f (fs k) in
  _ ← on_p9 (fun k => k <| fs := d |>); mret a.
Definition do_fs (f : D -> D) : VM unit := on_fs (fun d => (tt, f d)).

(** *** File identifiers *)

Fixpoint fid_find1 (l : list (Z * F)) (fid : Z) : option F :=
  match l with [] => None | (i, f) :: l => if i =? fid then Some f else fid_find1 l fid end.
Definition fid_find (fid : Z) : VM (option F) := k ← gets kind; mret (fid_find1 (fid_list k) fid).

(** [list_del] of the first entry for [fid]. *)
Fixpoint fid_remove (l : list (Z * F)) (fid : Z) : list (Z * F) :=
  match l with [] => [] | (i, f) :: l => if i =? fid then l else (i, f) :: fid_remove l fid end.
(** [f->fd = fd] in the first entry for [fid]. *)
Fixpoint fid_replace (l : list (Z * F)) (fid : Z) (fd : F) : list (Z * F) :=
  match l with [] => [] | (i, f) :: l => if i =? fid then (i, fd) :: l else (i, f) :: fid_replace l fid fd end.

Definition fid_delete (fid : Z) : VM unit :=
  f ← fid_find fid;
  match f with
  | Some f => _ ← do_fs (fs_delete f); on_p9 (fun k => k <| fid_list := fid_remove (fid_list k) fid |>)
  | None => mret tt
  end.

Definition fid_set (fid : Z) (fd : F) : VM unit :=
  f ← fid_find fid;
  match f with
  | Some f => _ ← do_fs (fs_delete f); on_p9 (fun k => k <| fid_list := fid_replace (fid_list k) fid fd |>)
  | None => on_p9 (fun k => k <| fid_list := (fid, fd) :: fid_list k |>)
  end.

(** *** Reading a request *)

(** [n] bytes of the request at [offset], through [uint8_t buf[16]]; [None] when they are not there. *)
Definition fetch (buf : list Z) (queue_idx desc_idx offset n : Z) : VM (option (list Z * Z)) :=
  '(ret, buf) ← memcpy_from_queue buf queue_idx desc_idx offset n;
  if negb (ret =? 0) then mret None
  else offset ← int_op (offset + n); mret (Some (buf, offset)).

Definition unmarshall1 (c : ascii) (queue_idx desc_idx offset : Z) : VM (option (Val * Z)) :=
  let num n get := r ← fetch (uninit 16) queue_idx desc_idx offset n;
    mret (match r with Some (buf, offset) => Some (Num (get buf), offset) | None => None end) in
  match c with
  | "b"%char => num 1 (fun buf => aget buf 0)
  | "h"%char => num 2 get_le16
  | "w"%char => num 4 get_le32
  | "d"%char => num 8 get_le64
  | "s"%char =>
      r ← fetch (uninit 16) queue_idx desc_idx offset 2;
      match r with
      | None => mret None
      | Some (buf, offset) =>
          let len := get_le16 buf in
          r ← fetch (uninit (len + 1)) queue_idx desc_idx offset len;
          mret (match r with Some (buf, offset) => Some (Str (cstr (aset buf len 0)), offset) | None => None end)
      end
  | _ => stop AssertFailed
  end.

(** The values and the new offset; [None] is the return of -1. *)
Fixpoint unmarshall (queue_idx desc_idx offset : Z) (fmt : list ascii) : VM (option (list Val * Z)) :=
  match fmt with
  | [] => mret (Some ([], offset))
  | c :: fmt =>
      r ← unmarshall1 c queue_idx desc_idx offset;
      match r with
      | None => mret None
      | Some (v, offset) =>
          r ← unmarshall queue_idx desc_idx offset fmt;
          mret (match r with Some (vs, offset) => Some (v :: vs, offset) | None => None end)
      end
  end.

(** *** Replies *)

Definition virtio_9p_send_reply (queue_idx desc_idx id tag : Z) (buf : list Z) : VM unit :=
  len ← int_op (zlen buf + 7);
  let buf1 := put_le32 (replicate 4 0) len ++ [u8 (id + 1)] ++ put_le16 (replicate 2 0) tag ++ buf in
  _ ← memcpy_to_queue queue_idx desc_idx 0 buf1 len;
  virtio_consume_desc queue_idx desc_idx len.

Definition virtio_9p_send_error (queue_idx desc_idx tag error : Z) : VM unit :=
  buf ← liftr (marshall 4 (fmt "w") [Num (u32 (- error))]);
  virtio_9p_send_reply queue_idx desc_idx 6 tag buf.

Definition virtio_9p_open_reply (qid : FSQID) (err : Z) (oi : P9OpenInfo) : VM unit :=
  if err <? 0 then virtio_9p_send_error (oi_queue_idx oi) (oi_desc_idx oi) (oi_tag oi) (u32 err)
  else
    k ← gets kind;
    n ← int_op (msize k - 24);
    buf ← liftr (marshall 32 (fmt "Qw") [Qid qid; Num n]);
    virtio_9p_send_reply (oi_queue_idx oi) (oi_desc_idx oi) 12 (oi_tag oi) buf.

(** *** Handlers *)

Section Handlers.
Context (queue_idx desc_idx tag offset : Z).

Definition protocol_error : VM Outcome := mret (Fail (- P9_EPROTO)).

(** [if (unmarshall(s, queue_idx, desc_idx, &offset, fmt, ...)) goto protocol_error;] *)
Definition args (f : string) (k : list Val -> VM Outcome) : VM Outcome :=
  r ← unmarshall queue_idx desc_idx offset (fmt f);
  match r with Some (vals, _) => k vals | None => protocol_error end.

(** [f = fid_find(s, fid); if (!f) ...]: every handler ends with [-P9_EPROTO] then. *)
Definition with_fid (fid : Z) (k : F -> VM Outcome) : VM Outcome :=
  f ← fid_find fid;
  match f with Some f => k f | None => mret (Fail (- P9_EPROTO)) end.

(** [buf_len = marshall(s, buf, sizeof(buf), f, ...)]. *)
Definition answer (f : string) (vals : list Val) : VM Outcome := buf ← liftr (marshall 1024 (fmt f) vals); mret (Reply buf).

(** [if (err) goto error;] *)
Definition unless_err (err : Z) (k : VM Outcome) : VM Outcome := if negb (err =? 0) then mret (Fail err) else k.
Definition unless_neg (err : Z) (k : VM Outcome) : VM Outcome := if err <? 0 then mret (Fail err) else k.

(** The handlers match on the values their format has. *)
Definition bad_args : VM Outcome := stop UndefinedBehaviour.

(** The 64-bit field "id" is a literal [0] of type [int]. *)
Definition p9_statfs : VM Outcome :=
  st ← on_fs fs_statfs;
  answer "wwddddddw" [Num 0; Num (f_bsize st); Num (f_blocks st); Num (f_bfree st); Num (f_bavail st); Num (f_files st); Num (f_ffree st); Num 0; Num 256].

Definition p9_lopen : VM Outcome :=
  args "ww" (fun vals => match vals with
    | [Num fid; Num flags] => with_fid fid (fun f =>
        '(err, qid) ← on_fs (fs_open f flags);
        if err <=? 0 then _ ← virtio_9p_open_reply qid err (mkP9OpenInfo queue_idx desc_idx tag); mret Sent
        else _ ← on_p9 (fun k => k <| p9_in_progress := true |>); mret Sent)
    | _ => bad_args end).

Definition p9_lcreate : VM Outcome :=
  args "wswww" (fun vals => match vals with
    | [Num fid; Str name; Num flags; Num mode; Num gid] => with_fid fid (fun f =>
        '(err, qid) ← on_fs (fs_create f name flags mode gid);
        unless_err err (k ← gets kind; n ← int_op (msize k - 24); answer "Qw" [Qid qid; Num n]))
    | _ => bad_args end).

Definition p9_symlink : VM Outcome :=
  args "wssw" (fun vals => match vals with
    | [Num fid; Str name; Str symgt; Num gid] => with_fid fid (fun f =>
        '(err, qid) ← on_fs (fs_symlink f name symgt gid); unless_err err (answer "Q" [Qid qid]))
    | _ => bad_args end).

Definition p9_mknod : VM Outcome :=
  args "wswwww" (fun vals => match vals with
    | [Num fid; Str name; Num mode; Num major; Num minor; Num gid] => with_fid fid (fun f =>
        '(err, qid) ← on_fs (fs_mknod f name mode major minor gid); unless_err err (answer "Q" [Qid qid]))
    | _ => bad_args end).

Definition p9_readlink : VM Outcome :=
  args "w" (fun vals => match vals with
    | [Num fid] => with_fid fid (fun f => '(err, target) ← on_fs (fs_readlink f 1024); unless_err err (answer "s" [Str target]))
    | _ => bad_args end).

Definition p9_getattr : VM Outcome :=
  args "wd" (fun vals => match vals with
    | [Num fid; Num mask] => with_fid fid (fun f =>
        '(err, st) ← on_fs (fs_stat f);
        unless_err err (answer "dQwwwddddddddddddddd"
          [Num mask; Qid (st_qid st); Num (st_mode st); Num (st_uid st); Num (st_gid st); Num (st_nlink st); Num (st_rdev st);
           Num (st_size st); Num (st_blksize st); Num (st_blocks st); Num (st_atime_sec st); Num (st_atime_nsec st);
           Num (st_mtime_sec st); Num (st_mtime_nsec st); Num (st_ctime_sec st); Num (st_ctime_nsec st); Num 0; Num 0; Num 0; Num 0]))
    | _ => bad_args end).

Definition p9_setattr : VM Outcome :=
  args "wwwwwddddd" (fun vals => match vals with
    | [Num fid; Num mask; Num mode; Num uid; Num gid; Num size; Num atime_sec; Num atime_nsec; Num mtime_sec; Num mtime_nsec] =>
        with_fid fid (fun f =>
          err ← on_fs (fs_setattr f mask mode uid gid size atime_sec atime_nsec mtime_sec mtime_nsec); unless_err err (mret (Reply [])))
    | _ => bad_args end).

Definition p9_xattrwalk : VM Outcome := mret (Fail (- P9_ENOTSUP)).

(** [read] and [readdir]: a buffer of [count + 4] bytes, filled from byte 4 on; the first [n + 4] bytes are sent. *)
Definition p9_read_with (read : F -> Z -> Z -> D -> Z * list Z * D) : VM Outcome :=
  args "wdw" (fun vals => match vals with
    | [Num fid; Num offs; Num count] => with_fid fid (fun f =>
        '(n, data) ← on_fs (read f offs (s32 count));
        buf ← liftr (buf_put (uninit (u32 (count + 4))) 4 data);
        unless_neg n (
          buf ← liftr (buf_put buf 0 (put_le32 (replicate 4 0) n));
          buf ← liftr (buf_get buf 0 (n + 4));
          mret (Reply buf)))
    | _ => bad_args end).
Definition p9_readdir : VM Outcome := p9_read_with fs_readdir.
Definition p9_read : VM Outcome := p9_read_with fs_read.

Definition p9_fsync : VM Outcome :=
  args "w" (fun vals => match vals with [Num fid] => mret (Reply []) | _ => bad_args end).

Definition p9_lock : VM Outcome :=
  args "wbwddws" (fun vals => match vals with
    | [Num fid; Num type; Num flags; Num start; Num length; Num proc_id; Str client_id] => with_fid fid (fun f =>
        err ← on_fs (fs_lock f (mkFSLock type flags start length proc_id client_id)); unless_neg err (answer "b" [Num err]))
    | _ => bad_args end).

(** The reply is marshalled from the addresses of the fields, which [va_arg] then reads as integers. *)
Definition p9_getlock : VM Outcome :=
  args "wbddws" (fun vals => match vals with
    | [Num fid; Num type; Num start; Num length; Num proc_id; Str client_id] => with_fid fid (fun f =>
        '(err, _) ← on_fs (fs_getlock f (mkFSLock type (garbage 0) start length proc_id client_id)); unless_neg err (stop UndefinedBehaviour))
    | _ => bad_args end).

Definition p9_link : VM Outcome :=
  args "wws" (fun vals => match vals with
    | [Num dfid; Num fid; Str name] => with_fid dfid (fun df => with_fid fid (fun f =>
        err ← on_fs (fs_link df f name); unless_err err (mret (Reply []))))
    | _ => bad_args end).

Definition p9_mkdir : VM Outcome :=
  args "wsww" (fun vals => match vals with
    | [Num fid; Str name; Num mode; Num gid] => with_fid fid (fun f =>
        '(err, qid) ← on_fs (fs_mkdir f name mode gid); unless_err err (answer "Q" [Qid qid]))
    | _ => bad_args end).

Definition p9_renameat : VM Outcome :=
  args "wsws" (fun vals => match vals with
    | [Num fid; Str name; Num new_fid; Str new_name] => with_fid fid (fun f => with_fid new_fid (fun new_f =>
        err ← on_fs (fs_renameat f name new_f new_name); unless_err err (mret (Reply []))))
    | _ => bad_args end).

Definition p9_unlinkat : VM Outcome :=
  args "wsw" (fun vals => match vals with
    | [Num fid; Str name; Num flags] => with_fid fid (fun f =>
        err ← on_fs (fs_unlinkat f name); unless_err err (mret (Reply [])))
    | _ => bad_args end).

Definition p9_version : VM Outcome :=
  args "ws" (fun vals => match vals with
    | [Num m; Str version] =>
        _ ← on_p9 (fun k => k <| msize := s32 m |>);
        answer "ws" [Num (s32 m); Str (str "9P2000.L")]
    | _ => bad_args end).

Definition p9_attach : VM Outcome :=
  args "wwssw" (fun vals => match vals with
    | [Num fid; Num afid; Str uname; Str aname; Num uid] =>
        '(err, (f, qid)) ← on_fs (fs_attach uid uname aname);
        unless_err err (_ ← fid_set fid f; answer "Q" [Qid qid])
    | _ => bad_args end).

Definition p9_flush : VM Outcome :=
  args "h" (fun vals => match vals with [Num oldtag] => mret (Reply []) | _ => bad_args end).

(** The names of a walk; [None] when one is missing. *)
Fixpoint walk_names (n : nat) (offset : Z) : VM (option (list (list Z))) :=
  match n with
  | O => mret (Some [])
  | S n =>
      r ← unmarshall queue_idx desc_idx offset (fmt "s");
      match r with
      | Some ([Str name], offset) => r ← walk_names n offset; mret (match r with Some names => Some (name :: names) | None => None end)
      | Some _ => stop UndefinedBehaviour
      | None => mret None
      end
  end.

(** [buf_len += marshall(s, buf + buf_len, sizeof(buf) - buf_len, "Q", &qids[i])] for the first [n] of them. *)
Fixpoint walk_qids (n : nat) (qids : list FSQID) (room : Z) : res (list Z) :=
  match n with
  | O => Done []
  | S n =>
      match qids with
      | [] => Stop UndefinedBehaviour
      | q :: qids => l ← marshall room (fmt "Q") [Qid q]; rest ← walk_qids n qids (room - zlen l); Done (l ++ rest)
      end
  end.

Definition p9_walk : VM Outcome :=
  r ← unmarshall queue_idx desc_idx offset (fmt "wwh");
  match r with
  | None => protocol_error
  | Some ([Num fid; Num newfid; Num nwname], offset) => with_fid fid (fun f =>
      names ← walk_names (Z.to_nat nwname) offset;
      match names with
      | None => mret (Fail (- P9_EPROTO))
      | Some names =>
          '(err, (f, qids)) ← on_fs (fs_walk f names);
          unless_neg err (
            h ← liftr (marshall 1024 (fmt "h") [Num err]);
            l ← liftr (walk_qids (Z.to_nat err) qids (1024 - zlen h));
            _ ← fid_set newfid f;
            mret (Reply (h ++ l)))
      end)
  | Some _ => bad_args
  end.

Definition p9_write : VM Outcome :=
  r ← unmarshall queue_idx desc_idx offset (fmt "wdw");
  match r with
  | None => protocol_error
  | Some ([Num fid; Num offs; Num count], offset) => with_fid fid (fun f =>
      '(ret, buf) ← memcpy_from_queue (uninit count) queue_idx desc_idx offset (s32 count);
      if negb (ret =? 0) then protocol_error
      else
        n ← on_fs (fs_write f offs buf (s32 count));
        unless_neg n (answer "w" [Num n]))
  | Some _ => bad_args
  end.

Definition p9_clunk : VM Outcome :=
  args "w" (fun vals => match vals with [Num fid] => _ ← fid_delete fid; mret (Reply []) | _ => bad_args end).

Definition p9_handle (id : Z) : VM Outcome :=
  if id =? 8 then p9_statfs else if id =? 12 then p9_lopen else if id =? 14 then p9_lcreate
  else if id =? 16 then p9_symlink else if id =? 18 then p9_mknod else if id =? 22 then p9_readlink
  else if id =? 24 then p9_getattr else if id =? 26 then p9_setattr else if id =? 30 then p9_xattrwalk
  else if id =? 40 then p9_readdir else if id =? 50 then p9_fsync else if id =? 52 then p9_lock
  else if id =? 54 then p9_getlock else if id =? 70 then p9_link else if id =? 72 then p9_mkdir
  else if id =? 74 then p9_renameat else if id =? 76 then p9_unlinkat else if id =? 100 then p9_version
  else if id =? 104 then p9_attach else if id =? 108 then p9_flush else if id =? 110 then p9_walk
  else if id =? 116 then p9_read else if id =? 118 then p9_write else if id =? 120 then p9_clunk
  else protocol_error.
End Handlers.

Definition send_outcome (queue_idx desc_idx id tag : Z) (o : Outcome) : VM unit :=
  match o with
  | Reply data => virtio_9p_send_reply queue_idx desc_idx id tag data
  | Fail err => virtio_9p_send_error queue_idx desc_idx tag (u32 err)
  | Sent => mret tt
  end.

Definition virtio_9p_recv_request (queue_idx desc_idx read_size write_size : Z) : VM Z :=
  if negb (queue_idx =? 0) then mret 0
  else
    k ← gets kind;
    if p9_in_progress k then mret (-1)
    else
      '(ret, buf) ← memcpy_from_queue (uninit 1024) queue_idx desc_idx 0 7;
      if negb (ret =? 0) then _ ← send_outcome queue_idx desc_idx 0 0 (Fail (- P9_EPROTO)); mret 0
      else
        let id := aget buf 4 in
        let tag := get_le16 (drop 5 buf) in
        o ← p9_handle queue_idx desc_idx tag 7 id;
        _ ← send_outcome queue_idx desc_idx id tag o;
        mret 0.

(** The completion of an open that [fs_open] left for later. *)
Definition virtio_9p_open_cb (qid : FSQID) (err : Z) (oi : P9OpenInfo) : VM unit :=
  _ ← virtio_9p_open_reply qid err oi;
  _ ← on_p9 (fun k => k <| p9_in_progress := false |>);
  queue_notify virtio_9p_recv_request (oi_queue_idx oi).
End Device.

(** The device before its mount tag is set. *)
Definition p9_vdev (n : Z) : VIRTIODevice := (virtio_init 9 n) <| device_features := 1 <<' 0 |>.

Definition virtio_9p_init {D F} (d : D) (mount_tag : list Z) : res (VIRTIODevice * VIRTIO9PDevice D F) :=
  c ← buf_put (config_space (p9_vdev (2 + zlen mount_tag))) 0 [u8 (zlen mount_tag); u8 (zlen mount_tag >>' 8)];
  c ← buf_put c 2 mount_tag;
  Done ((p9_vdev (2 + zlen mount_tag)) <| config_space := c |>, mkVIRTIO9PDevice d 8192 [] false).
