(* ===== verification/VirtioRegs.v ===== *)
(** * Virtio: the registers and the interrupt line of every device

    The invariant of a virtio device, whatever its class: the selected queue
    exists, queue sizes are powers of two, the words fit their registers, and
    the interrupt line is high exactly when the interrupt status is not zero.
    A device class ([VirtioClass]) is its callbacks and what the host may ask of
    it; the laws say that they keep the invariant, and each of the five classes
    of the program satisfies them. *)

From S2P Require Import Prelude Cutils Iomem Hostmem Bytes Virtio VirtioDevs VirtioQueue P9.
From stdpp Require Import base list gmap relations.
From Stdlib Require Import ZArith Lia Bool.
Local Open Scope Z_scope.
Local Open Scope bits_scope.
Local Open Scope list_scope.

Record queue_wf (q : QueueState) : Prop := {
  qw_ready : 0 <= ready q <= 1;
  qw_num : exists k, 0 <= k < 32 /\ num q = 2 ^ k;
  qw_last : in_u 16 (last_avail_idx q);
  qw_desc : in_u 64 (desc_addr q);
  qw_avail : in_u 64 (avail_addr q);
  qw_used : in_u 64 (used_addr q) }.

Record vdev_wf (d : VIRTIODevice) : Prop := {
  vw_int : in_u 32 (int_status d);
  vw_status : in_u 32 (status d);
  vw_fsel : in_u 32 (device_features_sel d);
  vw_sel : 0 <= queue_sel d < MAX_QUEUE;
  vw_queues : List.length (queue d) = 8%nat /\ Forall queue_wf (queue d);
  vw_ids : in_u 32 (device_id d) /\ in_u 32 (vendor_id d) /\ in_u 32 (device_features d);
  vw_csize : 4 <= config_space_size d <= MAX_CONFIG_SPACE_SIZE;
  vw_config : zlen (config_space d) = MAX_CONFIG_SPACE_SIZE /\ is_bytes (config_space d) }.

(** The level of the interrupt line after the calls made so far, if it was [level0] before them. *)
Definition irq_from (level0 : bool) (l : list HostCall) : bool :=
  fold_left (fun level c => match c with SetIrq b => b | _ => level end) l level0.
(** It is low at first. *)
Definition irq_line (l : list HostCall) : bool := irq_from false l.

Arguments irq_from : simpl never.
Arguments irq_line : simpl never.

Lemma irq_from_snoc b l c : irq_from b (l ++ [c]) = match c with SetIrq b => b | _ => irq_from b l end.
Proof. unfold irq_from. rewrite fold_left_app. reflexivity. Qed.

Definition vs_inv_from {K} (level0 : bool) (s : VS K) : Prop := vdev_wf (dev s) /\ irq_from level0 (calls s) = negb (int_status (dev s) =? 0).
Definition vs_inv {K} (s : VS K) : Prop := vs_inv_from false s.

(** ** Words *)

Lemma power_of_two_spec v : in_u 32 v -> power_of_two v = true -> exists k, 0 <= k < 32 /\ v = 2 ^ k.
Proof.
  intros Hv Hp. apply andb_true_iff in Hp as [Hl Hp]. apply Z.ltb_lt in Hp. apply Z.eqb_eq in Hl. unfold in_u in Hv.
  rewrite u32_id in Hl by (unfold in_u; lia). pose proof (Z.log2_spec v Hp) as Hk. pose proof (Z.log2_nonneg v) as Hk0.
  rewrite Z.pow_succ_r in Hk by exact Hk0. exists (Z.log2 v). split; [split; [exact Hk0|apply Z.log2_lt_pow2; lia]|].
  destruct (Z.eq_dec v (2 ^ Z.log2 v)) as [E|Hne]; [exact E|exfalso].
  assert (forall x, 2 ^ Z.log2 v <= x < 2 * 2 ^ Z.log2 v -> Z.testbit x (Z.log2 v) = true) as Hb.
  { intros x Hx. rewrite <- (Z.log2_unique x (Z.log2 v)) by (rewrite ?Z.pow_succ_r; lia). apply Z.bit_log2. lia. }
  assert (Z.testbit (v &' (v - 1)) (Z.log2 v) = true) as Hc by (rewrite Z.land_spec, !Hb by lia; reflexivity).
  rewrite Hl, Z.bits_0 in Hc. discriminate.
Qed.

Lemma set_low32_range a v : in_u 64 a -> in_u 32 v -> in_u 64 (set_low32 a v).
Proof. intros Ha Hv. apply lor_range; [lia|apply land_range; [lia|exact Ha]|exact (in_u_mono 32 64 v ltac:(lia) Hv)]. Qed.
Lemma set_high32_range a v : in_u 64 a -> in_u 64 (set_high32 a v).
Proof. intros Ha. apply lor_range; [lia|apply land_range; [lia|exact Ha]|apply wrapu_range; lia]. Qed.

(** The two halves of an address register. *)
Lemma low32_of_set a v : in_u 32 v -> u32 (set_low32 a v) = v.
Proof.
  intros Hv. apply (bits_inj_u 32); [lia|apply wrapu_range; lia|exact Hv|]. intros i Hi. unfold set_low32. bits_at i 32%nat.
Qed.
Lemma high32_of_set a v : in_u 32 v -> u32 (set_high32 a v >>' 32) = v.
Proof.
  intros Hv. apply (bits_inj_u 32); [lia|apply wrapu_range; lia|exact Hv|]. intros i Hi. unfold set_high32. bits_at i 32%nat.
Qed.
Lemma set_both32 a lo hi : in_u 32 lo -> in_u 32 hi -> set_high32 (set_low32 a lo) hi = lo + hi * 2 ^ 32.
Proof.
  intros Hl Hh. rewrite <- Z.shiftl_mul_pow2 by lia. unfold in_u in *.
  assert (lo &' (hi <<' 32) = 0) as E.
  { apply Z.bits_inj'. intros i Hi. rewrite Z.land_spec, Z.bits_0, Z.shiftl_spec by lia. destruct (Z.lt_ge_cases i 32).
    - rewrite (Z.testbit_neg_r hi) by lia. apply andb_false_r.
    - rewrite (testbit_above 32 lo) by lia. reflexivity. }
  rewrite Z.add_nocarry_lxor, Z.lxor_lor by exact E. apply (bits_inj_u 64); [lia| | |].
  - apply lor_range; [lia|apply land_range_r; [lia|easy]|apply wrapu_range; lia].
  - apply lor_range; [lia|unfold in_u; lia|]. rewrite Z.shiftl_mul_pow2 by lia. unfold in_u. lia.
  - intros i Hi. unfold set_high32, set_low32. rewrite !Z.lor_spec. destruct (Z.lt_ge_cases i 32).
    + rewrite (Z.shiftl_spec_low hi 32 i) by lia. bits_at i 32%nat.
    + rewrite (testbit_above 32 lo i) by lia. rewrite Z.land_spec, (testbit_above 32 0xffffffff i) by lia.
      rewrite u64_spec, andb_false_r. destruct (Z.ltb_spec i 64); [reflexivity|lia].
Qed.

(** ** Steps that keep the invariant *)

Create HintDb safe discriminated.

Section Safe.
Context {K : Type} {H : VirtioHost}.
Abbreviation VM := (SM (VS K)).

Definition safe {A} (m : VM A) : Prop := forall s a s', m s = Done (a, s') -> forall level0, vs_inv_from level0 s -> vs_inv_from level0 s'.

Lemma safe_ret {A} (a : A) : safe (mret a).
Proof. intros s x s' [= _ <-]. auto. Qed.
Lemma safe_gets {A} (g : VS K -> A) : safe (gets g).
Proof. intros s x s' [= _ <-]. auto. Qed.
Lemma safe_stop {A} r : safe (stop (A := A) r).
Proof. intros s x s'. discriminate. Qed.
Lemma safe_liftr {A} (r : res A) : safe (liftr r).
Proof. destruct r; [intros s x s' [= _ <-]; auto|intros s x s'; discriminate]. Qed.
Lemma safe_bind {A B} (m : VM A) (f : A -> VM B) : safe m -> (forall a, safe (f a)) -> safe (m ≫= f).
Proof. intros Hm Hf s b s' E b0 Hs. apply SM_bind_inv in E as (a & s1 & E1 & E2). exact (Hf a s1 b s' E2 b0 (Hm s a s1 E1 b0 Hs)). Qed.
Lemma safe_int_op x : safe (int_op x).
Proof. unfold int_op. destruct (_ && _); [apply safe_ret|apply safe_stop]. Qed.

(** Memory, the class state and the output do not matter. *)
Lemma safe_mem f : safe (modify (fun s => s <| vmem := f s |>)).
Proof. intros s x s' [= _ <-]. auto. Qed.
Lemma safe_kind f : safe (modify (fun s => s <| kind := f s |>)).
Proof. intros s x s' [= _ <-]. auto. Qed.
Lemma safe_output c : (forall b, c <> SetIrq b) -> safe (call c).
Proof.
  intros Hc s x s' [= _ <-] b0 [Hw Hi]. split; [exact Hw|]. cbn [calls dev upd upd_calls]. rewrite irq_from_snoc.
  destruct c; [destruct (Hc level eq_refl)|exact Hi|exact Hi].
Qed.

(** The registers that do not drive the interrupt. *)
Lemma safe_on_dev f : (forall d, vdev_wf d -> vdev_wf (f d)) -> (forall d, int_status (f d) = int_status d) -> safe (on_dev f).
Proof. intros Hf Hi s x s' [= _ <-] b0 [Hw Hl]. split; [apply Hf, Hw|]. cbn [dev calls upd upd_dev]. rewrite Hi. exact Hl. Qed.

(** The interrupt status, followed by the line. *)
Lemma safe_raise b : 0 < b < 2 ^ 32 -> safe (_ ← on_dev (fun d => d <| int_status := int_status d |' b |>); set_irq true).
Proof.
  intros Hb s x s' [= _ <-] b0 [Hw Hl]. split.
  - destruct Hw. constructor; auto. apply lor_range; [lia|assumption|unfold in_u; lia].
  - cbn [dev calls upd upd_dev upd_calls int_status upd_int_status]. rewrite irq_from_snoc. symmetry. apply negb_true_iff, Z.eqb_neq.
    intros E. apply Z.lor_eq_0_iff in E. lia.
Qed.

Lemma safe_get_queue i : safe (get_queue i).
Proof. intros s q s'. unfold get_queue. destruct (_ !! _); [destruct (_ <=? _)|]; try discriminate. intros [= _ <-]. auto. Qed.
Lemma safe_on_queue i f : (forall q, queue_wf q -> queue_wf (f q)) -> safe (on_queue i f).
Proof.
  intros Hf s x s' E b0 [Hw Hl]. unfold on_queue in E. apply SM_bind_inv in E as (q & s1 & E1 & [= _ <-]). unfold get_queue in E1.
  destruct (queue (dev s) !! Z.to_nat i) eqn:Eq; [|discriminate]. destruct (0 <=? i); [|discriminate]. injection E1 as <- <-. split; [|exact Hl].
  destruct Hw as [? ? ? ? [Hn Hq] ? ? ?]. constructor; auto. cbn. rewrite length_insert. split; [exact Hn|].
  apply Forall_insert; [exact Hq|]. apply Hf. exact (Forall_lookup_1 _ _ _ _ Hq Eq).
Qed.
End Safe.
#[export] Hint Resolve safe_ret safe_gets safe_stop safe_liftr safe_int_op safe_mem safe_kind safe_get_queue : safe.

Ltac sstep :=
  match goal with
  | |- safe (match ?x with _ => _ end) => destruct x
  | |- safe (let '(_, _) := ?x in _) => destruct x
  | |- safe (on_dev _ ≫= (fun _ => set_irq true)) => apply safe_raise; split; reflexivity
  | |- safe (_ ≫= _) => apply safe_bind; [|intros ?]
  | |- safe _ => solve [auto with safe]
  end.
Ltac ssteps := cbv zeta; repeat (sstep; cbv zeta).

Section Ops.
Context {K : Type} {H : VirtioHost}.
Abbreviation VM := (SM (VS K)).

Lemma safe_read16 addr : safe (K := K) (virtio_read16 addr).
Proof. unfold virtio_read16. ssteps. Qed.
Lemma safe_write16 addr v : safe (K := K) (virtio_write16 addr v).
Proof. unfold virtio_write16. ssteps. Qed.
Lemma safe_write32 addr v : safe (K := K) (virtio_write32 addr v).
Proof. unfold virtio_write32. ssteps. Qed.
Lemma safe_from_ram n : forall buf pos addr count, safe (K := K) (from_ram_loop n buf pos addr count).
Proof. induction n; intros; cbn [from_ram_loop]; ssteps. Qed.
Lemma safe_to_ram n : forall addr buf pos count, safe (K := K) (to_ram_loop n addr buf pos count).
Proof. induction n; intros; cbn [to_ram_loop]; ssteps. Qed.
Hint Resolve safe_read16 safe_write16 safe_write32 safe_from_ram safe_to_ram : safe.

Lemma safe_load_desc d q i : safe (K := K) (load_desc d q i).
Proof. unfold load_desc, get_desc, virtio_memcpy_from_ram. ssteps. Qed.
Lemma safe_next_desc d q : safe (K := K) (next_desc d q).
Proof. apply safe_load_desc. Qed.
Hint Resolve safe_load_desc safe_next_desc : safe.
Lemma safe_find_write n : forall d q, safe (K := K) (find_write n d q).
Proof. induction n; intros; cbn [find_write]; ssteps. Qed.
Lemma safe_find_offset n : forall w d q o, safe (K := K) (find_offset n w d q o).
Proof. induction n; intros; cbn [find_offset]; ssteps. Qed.
Lemma safe_copy_chain n : forall w d q buf pos o c, safe (K := K) (copy_chain n w d q buf pos o c).
Proof. induction n; intros; cbn [copy_chain]; unfold virtio_memcpy_from_ram, virtio_memcpy_to_ram; ssteps. Qed.
Lemma safe_write_sizes n : forall d q r w, safe (K := K) (write_sizes n d q r w).
Proof. induction n; intros; cbn [write_sizes]; ssteps. Qed.
Hint Resolve safe_find_write safe_find_offset safe_copy_chain safe_write_sizes : safe.
Lemma safe_read_sizes n : forall d q r, safe (K := K) (read_sizes n d q r).
Proof. induction n; intros; cbn [read_sizes]; ssteps. Qed.
Hint Resolve safe_read_sizes : safe.

Lemma safe_memcpy_queue buf q i o c w : safe (K := K) (memcpy_to_from_queue buf q i o c w).
Proof. unfold memcpy_to_from_queue. ssteps. Qed.
Lemma safe_memcpy_from_queue buf q i o c : safe (K := K) (memcpy_from_queue buf q i o c).
Proof. apply safe_memcpy_queue. Qed.
Lemma safe_memcpy_to_queue q i o buf c : safe (K := K) (memcpy_to_queue q i o buf c).
Proof. unfold memcpy_to_queue. apply safe_bind; [apply safe_memcpy_queue|]. intros []. auto with safe. Qed.
Lemma safe_consume q i n : safe (K := K) (virtio_consume_desc q i n).
Proof. unfold virtio_consume_desc. ssteps. Qed.
Lemma safe_sizes q i : safe (K := K) (get_desc_rw_size q i).
Proof. unfold get_desc_rw_size. ssteps. Qed.
Lemma safe_next_avail q : safe (K := K) (next_avail q).
Proof. apply safe_on_queue. intros x []. constructor; auto. apply wrapu_range. lia. Qed.
Lemma safe_config_change : safe (K := K) virtio_config_change_notify.
Proof. unfold virtio_config_change_notify. ssteps. Qed.
Hint Resolve safe_memcpy_from_queue safe_memcpy_to_queue safe_consume safe_sizes safe_next_avail : safe.

Lemma safe_notify recv : (forall q i r w, safe (recv q i r w)) -> forall q, safe (K := K) (queue_notify recv q).
Proof.
  intros Hr q. assert (forall n q a, safe (notify_loop recv n q a)) as Hl.
  { induction n; intros; cbn [notify_loop]; ssteps. }
  unfold queue_notify, avail_index. ssteps.
Qed.
End Ops.
#[export] Hint Resolve safe_read16 safe_memcpy_from_queue safe_memcpy_to_queue safe_consume safe_sizes safe_next_avail safe_config_change safe_notify : safe.

(** ** The registers *)

Section Registers.
Context {K : Type} {H : VirtioHost} (recv : Z -> Z -> Z -> Z -> SM (VS K) Z) (config_write : option (SM (VS K) unit)).

Lemma wf_virtio_reset d : vdev_wf d -> vdev_wf (virtio_reset d).
Proof.
  intros [? ? ? ? [Hn Hq] ? ? ?]. constructor; auto; cbn; try (unfold in_u; lia); try (split; [lia|reflexivity]).
  rewrite length_map. split; [exact Hn|]. apply Forall_map. refine (Forall_impl _ _ _ Hq _). intros q [].
  constructor; cbn; try (unfold in_u; lia). exists 4. split; [lia|reflexivity].
Qed.

Lemma safe_write_status v : in_u 32 v -> safe (K := K) (write_status v).
Proof.
  intros Hv. unfold write_status. destruct (Z.eqb_spec v 0) as [->|Hne].
  - intros s x s' [= _ <-] b0 [Hw Hl]. split; [|cbn; rewrite irq_from_snoc; reflexivity].
    cbn [dev upd upd_dev upd_calls]. apply wf_virtio_reset. destruct Hw. constructor; auto.
  - apply safe_bind; [|intros; apply safe_ret]. apply safe_on_dev; [|reflexivity]. intros d []. constructor; auto.
Qed.

Lemma safe_irq_ack v : safe (K := K) (_ ← on_dev (fun d => d <| int_status := int_status d &' not32 v |>);
  d ← gets dev; if int_status d =? 0 then set_irq false else mret tt).
Proof.
  intros s x s' E b0 [Hw Hl]. unfold on_dev in E. rewrite run_modify, run_gets in E. cbn [dev upd upd_dev] in E.
  assert (vdev_wf ((dev s) <| int_status := int_status (dev s) &' not32 v |>)) as Hw'.
  { destruct Hw. constructor; auto. apply land_range; [lia|assumption]. }
  cbn [int_status upd upd_int_status] in E. destruct (Z.eqb_spec (int_status (dev s) &' not32 v) 0) as [E0|Hne].
  - injection E as _ <-. split; [exact Hw'|]. cbn. rewrite irq_from_snoc, E0. reflexivity.
  - injection E as _ <-. split; [exact Hw'|]. cbn [dev calls upd upd_dev int_status upd_int_status]. rewrite Hl, (proj2 (Z.eqb_neq _ 0) Hne).
    apply negb_true_iff, Z.eqb_neq. intros E0. rewrite E0, Z.land_0_l in Hne. congruence.
Qed.

Lemma safe_on_sel_queue f : (forall q, queue_wf q -> queue_wf (f q)) -> safe (K := K) (on_sel_queue f).
Proof. intros Hf. unfold on_sel_queue. apply safe_bind; [auto with safe|intros; apply safe_on_queue, Hf]. Qed.

Lemma queue_size_wf v q : in_u 32 v -> power_of_two v = true -> queue_wf q -> queue_wf (q <| num := v |>).
Proof. intros Hv Hp []. constructor; auto. exact (power_of_two_spec v Hv Hp). Qed.
Lemma queue_ready_wf v q : queue_wf q -> queue_wf (q <| ready := v &' 1 |>).
Proof. intros []. constructor; auto. cbn. pose proof (land_range_r 1 v 1 ltac:(lia) ltac:(easy)). unfold in_u in *. lia. Qed.

Lemma safe_on_config f : (forall c, zlen c = MAX_CONFIG_SPACE_SIZE -> is_bytes c -> zlen (f c) = MAX_CONFIG_SPACE_SIZE /\ is_bytes (f c)) ->
  safe (K := K) (on_dev (fun d => d <| config_space := f (config_space d) |>)).
Proof. intros Hf. apply safe_on_dev; [|reflexivity]. intros d [? ? ? ? ? ? ? [Hz Hb]]. constructor; auto. exact (Hf _ Hz Hb). Qed.

Lemma buf_put_bytes buf pos data buf' : is_bytes buf -> is_bytes data -> buf_put buf pos data = Done buf' -> is_bytes buf'.
Proof.
  intros Hb Hd. unfold buf_put. destruct (_ && _); [|discriminate]. intros [= <-].
  repeat apply Forall_app_2; auto using Forall_take, Forall_drop.
Qed.

Context (Hrecv : forall q i r w, safe (recv q i r w)) (Hcfg : forall f, config_write = Some f -> safe f).

Lemma safe_put_config o data : is_bytes data -> safe (put_config config_write o data).
Proof.
  intros Hd s x s' E b0 Hs. unfold put_config in E. rewrite run_gets in E. apply SM_bind_inv in E as (c & s1 & E1 & E).
  unfold liftr in E1. destruct (buf_put (config_space (dev s)) o data) eqn:Eb; [|discriminate]. injection E1 as -> <-.
  apply SM_bind_inv in E as (u & s2 & E2 & E). assert (vs_inv_from b0 s2) as Hs2.
  { injection E2 as _ <-. destruct Hs as [[? ? ? ? ? ? ? [Hz Hb]] Hl]. split; [|exact Hl]. constructor; auto. cbn. split.
    - unfold zlen in *. rewrite (buf_put_length _ _ _ _ Eb). exact Hz.
    - exact (buf_put_bytes _ _ _ _ Hb Hd Eb). }
  destruct config_write as [f|] eqn:Ef; [exact (Hcfg f eq_refl s2 x s' E b0 Hs2)|injection E as _ <-; exact Hs2].
Qed.

Lemma safe_config_write o v l : safe (virtio_config_write config_write o v l).
Proof.
  unfold virtio_config_write. apply safe_bind; [auto with safe|]. intros d.
  repeat match goal with |- safe (if ?b then _ else _) => destruct b end; auto with safe; apply safe_put_config.
  - repeat constructor; apply wrapu_range; lia.
  - unfold put_le16. repeat constructor; try (apply wrapu_range; lia).
  - unfold put_le32. repeat constructor; try (apply wrapu_range; lia).
Qed.
End Registers.

(** ** Device classes *)

(** The callbacks of a class, and what the rest of the program may ask of such a device. *)
Class VirtioClass {H : VirtioHost} (K : Type) := {
  device_recv : Z -> Z -> Z -> Z -> SM (VS K) Z;
  config_write : option (SM (VS K) unit);
  host_event : VS K -> VS K -> Prop }.

Class VirtioClassLaws {H : VirtioHost} {K : Type} (C : VirtioClass K) : Prop := {
  recv_safe : forall q i r w, safe (device_recv q i r w);
  config_safe : forall f, config_write = Some f -> safe f;
  config_returns : forall f s, config_write = Some f -> exists s', f s = Done (tt, s');
  event_safe : forall s s', host_event s s' -> forall level0, vs_inv_from level0 s -> vs_inv_from level0 s' }.

#[export] Instance block_class {H : VirtioHost} {B : Type} {BD : BlockDevice B} : VirtioClass (VIRTIOBlockDevice B) := {|
  device_recv := virtio_block_recv_request; config_write := None;
  host_event s s' := exists ret b buf, let r := req (kind s) in
    virtio_block_req_cb ret (s <| kind := (kind s) <| bs := b |>
      <| req := mkBlockRequest (req_type r) buf (req_write_size r) (req_queue_idx r) (req_desc_idx r) |> |>) = Done (tt, s') |}.
#[export] Instance net_class {H : VirtioHost} : VirtioClass VIRTIONetDevice := {|
  device_recv := virtio_net_recv_request; config_write := None;
  host_event s s' := exists buf, virtio_net_write_packet buf s = Done (tt, s') |}.
#[export] Instance console_class {H : VirtioHost} : VirtioClass VIRTIOConsoleDevice := {|
  device_recv := virtio_console_recv_request; config_write := None;
  host_event s s' := (exists buf n, virtio_console_write_data buf s = Done (n, s')) \/
                     (exists w h, virtio_console_resize_event w h s = Done (tt, s')) |}.
#[export] Instance input_class {H : VirtioHost} : VirtioClass VIRTIOInputDevice := {|
  device_recv := virtio_input_recv_request; config_write := Some virtio_input_config_write;
  host_event s s' := (exists d k n, virtio_input_send_key_event d k s = Done (n, s')) \/
                     (exists dx dy dz b n, virtio_input_send_mouse_event dx dy dz b s = Done (n, s')) |}.

Ltac no_config := intros; discriminate.

#[export] Instance block_class_laws {H : VirtioHost} {B : Type} {BD : BlockDevice B} : VirtioClassLaws (block_class (B := B)).
Proof.
  assert (forall ret, safe (K := VIRTIOBlockDevice B) (virtio_block_req_end ret)) as He by (intros; unfold virtio_block_req_end; ssteps).
  assert (forall f, safe (on_blk (B := B) f)) as Hk by (intros; unfold on_blk; auto with safe).
  assert (forall q i r w, safe (K := VIRTIOBlockDevice B) (virtio_block_recv_request q i r w)) as Hr by (intros; unfold virtio_block_recv_request; ssteps).
  split; [exact Hr|no_config|no_config|]. intros s s' (ret & b & buf & E) b0 Hs.
  assert (safe (K := VIRTIOBlockDevice B) (virtio_block_req_cb ret)) as Hcb by (unfold virtio_block_req_cb; ssteps).
  exact (Hcb _ _ _ E b0 Hs).
Qed.

Lemma safe_room {H : VirtioHost} {K} : safe (K := K) queue0_has_room.
Proof. unfold queue0_has_room, avail_index. ssteps. Qed.
Lemma safe_head {H : VirtioHost} {K} : safe (K := K) queue0_head.
Proof. unfold queue0_head. ssteps. Qed.
#[export] Hint Resolve safe_room safe_head : safe.
#[export] Hint Extern 1 (safe (call _)) => apply safe_output; discriminate : safe.

#[export] Instance net_class_laws {H : VirtioHost} : VirtioClassLaws net_class.
Proof.
  split; [intros; cbn; unfold virtio_net_recv_request; ssteps|no_config|no_config|]. intros s s' (buf & E) b0 Hs.
  assert (safe (virtio_net_write_packet buf)) as Hw by (unfold virtio_net_write_packet; ssteps). exact (Hw _ _ _ E b0 Hs).
Qed.

Lemma aset_bytes c i v : in_u 8 v -> is_bytes c -> is_bytes (aset c i v).
Proof. intros Hv Hc. apply Forall_insert; auto. Qed.
Lemma zlen_aset c i v : zlen (aset c i v) = zlen c.
Proof. unfold zlen, aset. rewrite length_insert. reflexivity. Qed.
Lemma put_le16_config c v : is_bytes c -> is_bytes (put_le16 c v) /\ zlen (put_le16 c v) = zlen c.
Proof. intros Hc. unfold put_le16. rewrite !zlen_aset. split; [|reflexivity]. repeat apply aset_bytes; auto; apply wrapu_range; lia. Qed.

#[export] Instance console_class_laws {H : VirtioHost} : VirtioClassLaws console_class.
Proof.
  split; [intros; cbn; unfold virtio_console_recv_request; ssteps|no_config|no_config|]. intros s s' [(buf & n & E)|(w & h & E)] b0 Hs.
  - assert (safe (virtio_console_write_data buf)) as Hw by (unfold virtio_console_write_data; ssteps). exact (Hw _ _ _ E b0 Hs).
  - assert (safe (virtio_console_resize_event w h)) as Hw; [|exact (Hw _ _ _ E b0 Hs)].
    unfold virtio_console_resize_event. apply safe_bind; [|intros; auto with safe].
    apply (safe_on_config (fun c => take 2 (put_le16 c w) ++ put_le16 (drop 2 (put_le16 c w)) h)).
    intros c Hz Hb. destruct (put_le16_config c w Hb) as [Hb1 Hz1]. destruct (put_le16_config (drop 2 (put_le16 c w)) h) as [Hb2 Hz2]; [apply Forall_drop, Hb1|].
    split; [|apply Forall_app_2; [apply Forall_take, Hb1|exact Hb2]]. rewrite zlen_app, Hz2, <- zlen_app, take_drop, Hz1. exact Hz.
Qed.

Definition config_ok (c : list Z) : Prop := zlen c = MAX_CONFIG_SPACE_SIZE /\ is_bytes c.

Lemma aset_config c i v : in_u 8 v -> config_ok c -> config_ok (aset c i v).
Proof. intros Hv [Hz Hb]. split; [rewrite zlen_aset; exact Hz|apply aset_bytes; assumption]. Qed.

(** A reply stays inside the configuration space. *)
Lemma reply_config size data c : in_u 8 size -> zlen data <= 248 -> forallb (fun b => (0 <=? b) && (b <? 256)) data = true ->
  config_ok c -> config_ok (reply size data c).
Proof.
  intros Hs Hd Hb Hc. destruct (aset_config c 2 size Hs Hc) as [Hz Hb1]. unfold reply. set (c1 := aset c 2 size) in *. split.
  - unfold zlen in *. rewrite !length_app, length_take, length_drop. unfold MAX_CONFIG_SPACE_SIZE in *. lia.
  - apply Forall_app_2; [apply Forall_take, Hb1|apply Forall_app_2; [|apply Forall_drop, Hb1]].
    apply Forall_forall. intros b Hin. apply list_elem_of_In in Hin. rewrite forallb_forall in Hb. apply Hb, andb_true_iff in Hin as [H1 H2].
    apply Z.leb_le in H1. apply Z.ltb_lt in H2. split; [exact H1|exact H2].
Qed.

Lemma input_config_ok t c : config_ok c -> config_ok (input_config t c).
Proof.
  intros Hc. unfold input_config, ev_bits. cbv zeta.
  repeat match goal with
  | |- config_ok (if ?b then _ else _) => destruct b
  | |- config_ok (match t with _ => _ end) => destruct t
  end; try exact Hc; try (apply aset_config; [split; [lia|reflexivity]|exact Hc]);
    apply reply_config; try exact Hc; try (destruct t); try (split; [discriminate|reflexivity]); try discriminate; reflexivity.
Qed.

Lemma safe_queue_event {H : VirtioHost} type code value : safe (virtio_input_queue_event type code value).
Proof. unfold virtio_input_queue_event. ssteps. Qed.
#[export] Hint Resolve safe_queue_event : safe.
Lemma safe_queue_events {H : VirtioHost} evs : safe (queue_events evs).
Proof. induction evs as [|[[] ?]]; cbn [queue_events]; ssteps. Qed.
#[export] Hint Resolve safe_queue_events : safe.

#[export] Instance input_class_laws {H : VirtioHost} : VirtioClassLaws input_class.
Proof.
  split.
  - intros; cbn; unfold virtio_input_recv_request; ssteps.
  - intros f [= <-]. unfold virtio_input_config_write. apply safe_bind; [auto with safe|]. intros k.
    apply (safe_on_config (input_config (input_type k))). intros c Hz Hb. exact (input_config_ok _ c (conj Hz Hb)).
  - intros f s [= <-]. eexists. reflexivity.
  - intros s s' [(d & k & n & E)|(dx & dy & dz & b & n & E)] b0 Hs.
    + assert (safe (virtio_input_send_key_event d k)) as Hw by (unfold virtio_input_send_key_event; ssteps). exact (Hw _ _ _ E b0 Hs).
    + assert (safe (virtio_input_send_mouse_event dx dy dz b)) as Hw; [|exact (Hw _ _ _ E b0 Hs)].
      unfold virtio_input_send_mouse_event. ssteps.
Qed.

#[export] Instance p9_class {H : VirtioHost} {D F : Type} {FS : FSDevice D F} : VirtioClass (VIRTIO9PDevice D F) := {|
  device_recv := virtio_9p_recv_request; config_write := None;
  host_event s s' := exists qid err oi, virtio_9p_open_cb qid err oi s = Done (tt, s') |}.

Section P9.
Context {H : VirtioHost} {D F : Type} {FS : FSDevice D F}.

Lemma safe_on_p9 f : safe (on_p9 (D := D) (F := F) f).
Proof. apply safe_kind. Qed.
Hint Resolve safe_on_p9 : safe.
Lemma safe_on_fs {A} (f : D -> A * D) : safe (on_fs (F := F) f).
Proof. unfold on_fs. ssteps. Qed.
Lemma safe_fid_find fid : safe (fid_find (D := D) (F := F) fid).
Proof. unfold fid_find. ssteps. Qed.
Hint Resolve safe_on_fs safe_fid_find : safe.
Lemma safe_fid_set fid fd : safe (fid_set (D := D) fid fd).
Proof. unfold fid_set, do_fs. ssteps. Qed.
Lemma safe_fid_delete fid : safe (fid_delete (D := D) (F := F) fid).
Proof. unfold fid_delete, do_fs. ssteps. Qed.
Lemma safe_fetch buf q i o n : safe (fetch (D := D) (F := F) buf q i o n).
Proof. unfold fetch. ssteps. Qed.
Hint Resolve safe_fid_set safe_fid_delete safe_fetch : safe.
Lemma safe_unmarshall1 c q i o : safe (unmarshall1 (D := D) (F := F) c q i o).
Proof. unfold unmarshall1. cbv zeta. destruct c as [[] [] [] [] [] [] [] []]; ssteps. Qed.
Hint Resolve safe_unmarshall1 : safe.
Lemma safe_unmarshall f : forall q i o, safe (unmarshall (D := D) (F := F) q i o f).
Proof. induction f; intros; cbn [unmarshall]; ssteps. Qed.
Hint Resolve safe_unmarshall : safe.
Lemma safe_walk_names q i n : forall o, safe (walk_names (D := D) (F := F) q i n o).
Proof. induction n; intros; cbn [walk_names]; ssteps. Qed.
Lemma safe_9p_reply q i id tag buf : safe (virtio_9p_send_reply (D := D) (F := F) q i id tag buf).
Proof. unfold virtio_9p_send_reply. ssteps. Qed.
Hint Resolve safe_walk_names safe_9p_reply : safe.
Lemma safe_9p_error q i tag e : safe (virtio_9p_send_error (D := D) (F := F) q i tag e).
Proof. unfold virtio_9p_send_error. ssteps. Qed.
Hint Resolve safe_9p_error : safe.
Lemma safe_open_reply qid err oi : safe (virtio_9p_open_reply (D := D) (F := F) qid err oi).
Proof. unfold virtio_9p_open_reply. ssteps. Qed.
Hint Resolve safe_open_reply : safe.

Lemma safe_handle q i tag o id : safe (p9_handle (D := D) (F := F) q i tag o id).
Proof.
  unfold p9_handle. repeat match goal with |- safe (if ?b then _ else _) => destruct b end;
    unfold p9_statfs, p9_lopen, p9_lcreate, p9_symlink, p9_mknod, p9_readlink, p9_getattr, p9_setattr, p9_xattrwalk, p9_readdir, p9_fsync, p9_lock, p9_getlock, p9_link,
      p9_mkdir, p9_renameat, p9_unlinkat, p9_version, p9_attach, p9_flush, p9_walk, p9_read, p9_write, p9_clunk, p9_read_with,
      args, with_fid, answer, unless_err, unless_neg, bad_args, protocol_error; ssteps.
Qed.
Hint Resolve safe_handle : safe.
Lemma safe_9p_recv q i r w : safe (virtio_9p_recv_request (D := D) (F := F) q i r w).
Proof. unfold virtio_9p_recv_request, send_outcome. ssteps. Qed.
Hint Resolve safe_9p_recv : safe.

#[export] Instance p9_class_laws : VirtioClassLaws (p9_class (D := D) (F := F)).
Proof.
  split; [exact safe_9p_recv|no_config|no_config|]. intros s s' (qid & err & oi & E) b0 Hs.
  assert (safe (virtio_9p_open_cb (D := D) (F := F) qid err oi)) as Hcb by (unfold virtio_9p_open_cb; ssteps). exact (Hcb _ _ _ E b0 Hs).
Qed.
End P9.

(** ** Every access *)

Section Access.
Context {H : VirtioHost} {K : Type} {C : VirtioClass K} {L : VirtioClassLaws C}.
Implicit Types s : VS K.

Lemma sel_queue_run s : vdev_wf (dev s) -> exists q, sel_queue s = Done (q, s) /\ queue_wf q /\ queue (dev s) !! Z.to_nat (queue_sel (dev s)) = Some q.
Proof.
  intros Hw. destruct (vw_queues _ Hw) as [Hn Hq]. pose proof (vw_sel _ Hw) as Hs. unfold MAX_QUEUE in Hs.
  destruct (lookup_lt_is_Some_2 (queue (dev s)) (Z.to_nat (queue_sel (dev s)))) as [q E]; [lia|]. exists q.
  unfold sel_queue. rewrite run_gets. unfold get_queue. rewrite E, (proj2 (Z.leb_le _ _) (proj1 Hs)).
  split; [reflexivity|]. split; [exact (Forall_lookup_1 _ _ _ _ Hq E)|reflexivity].
Qed.

Lemma on_sel_queue_run f s : vdev_wf (dev s) -> exists s', on_sel_queue f s = Done (tt, s').
Proof.
  intros Hw. destruct (sel_queue_run s Hw) as (q & E & _). unfold sel_queue in E. rewrite run_gets in E. unfold on_sel_queue, on_queue.
  rewrite run_gets, run_bind, E. eexists. reflexivity.
Qed.

(** A read of a register or of the configuration space returns a word and changes nothing. *)
Definition reads (m : SM (VS K) Z) (s : VS K) : Prop := exists v, m s = Done (v, s) /\ in_u 32 v.

Lemma reads_ret v s : in_u 32 v -> reads (mret v) s.
Proof. intros Hv. exists v. split; [reflexivity|exact Hv]. Qed.
Lemma reads_queue (f : QueueState -> Z) s : vdev_wf (dev s) -> (forall q, queue_wf q -> in_u 32 (f q)) -> reads (q ← sel_queue; mret (f q)) s.
Proof. intros Hw Hf. destruct (sel_queue_run s Hw) as (q & E & Hq & _). exists (f q). rewrite run_bind, E. split; [reflexivity|apply Hf, Hq]. Qed.

Lemma reads_config o l s : vdev_wf (dev s) -> 0 <= o -> 0 <= l <= 2 -> reads (virtio_config_read o l) s.
Proof.
  intros Hw Ho Hl. destruct (vw_config _ Hw) as [Hz Hb]. pose proof (vw_csize _ Hw) as Hc. unfold MAX_CONFIG_SPACE_SIZE in *.
  unfold virtio_config_read, config_bytes. unfold reads. setoid_rewrite run_gets.
  assert (forall n, 0 <= n -> o + n <= zlen (config_space (dev s)) -> buf_get (config_space (dev s)) o n = Done (slice (config_space (dev s)) o n)) as Hg
    by (intros; apply buf_get_run; assumption).
  rewrite !u32_id by (unfold in_u; lia). destruct (Z.eqb_spec l 0) as [->|]; [|destruct (Z.eqb_spec l 1) as [->|]; [|destruct (Z.eqb_spec l 2) as [->|]; [|lia]]].
  - destruct (Z.ltb_spec o (config_space_size (dev s))); [|apply reads_ret; easy]. setoid_rewrite run_assoc. setoid_rewrite run_gets. rewrite Hg by lia.
    setoid_rewrite run_liftr_done. apply reads_ret. apply (in_u_mono 8); [lia|]. unfold aget.
    apply Forall_nth; [|rewrite <- (Nat2Z.id (List.length _)); fold (zlen (slice (config_space (dev s)) o 1)); rewrite zlen_slice by lia; cbn; lia].
    apply Forall_take, Forall_drop, Hb.
  - destruct (Z.ltb_spec o (config_space_size (dev s) - 1)); [|apply reads_ret; easy]. setoid_rewrite run_assoc. setoid_rewrite run_gets. rewrite Hg by lia.
    setoid_rewrite run_liftr_done. apply reads_ret. apply (in_u_mono 16); [lia|apply get_le16_range].
  - destruct (Z.ltb_spec o (config_space_size (dev s) - 3)); [|apply reads_ret; easy]. setoid_rewrite run_assoc. setoid_rewrite run_gets. rewrite Hg by lia.
    setoid_rewrite run_liftr_done. apply reads_ret. apply get_le32_range.
Qed.

Lemma device_feature_range d : vdev_wf d -> in_u 32 (device_feature_word d).
Proof. intros Hw. unfold device_feature_word. destruct (_ =? 0); [apply Hw|destruct (_ =? 1); easy]. Qed.
Lemma queue_words q : queue_wf q -> in_u 32 (num q) /\ in_u 32 (ready q).
Proof.
  intros [Hr (k & Hk & E) _ _ _ _]. pow_pos k. pose proof (Z.pow_lt_mono_r 2 k 32 ltac:(lia) ltac:(lia) ltac:(lia)).
  unfold in_u. split; [rewrite E|]; lia.
Qed.

Ltac rd :=
  match goal with
  | |- reads (if ?b then _ else _) _ => destruct b
  | |- reads (mret _) _ => apply reads_ret; first [easy | apply wrapu_range; lia | eauto 2 using vw_int, vw_status, vw_fsel, device_feature_range]
  | |- reads (sel_queue ≫= _) _ => apply reads_queue; [assumption|intros ? ?; first [apply wrapu_range; lia | apply queue_words; assumption]]
  end.

Lemma mmio_read_total o l s : vdev_wf (dev s) -> 0 <= o -> 0 <= l <= 2 -> reads (virtio_mmio_read o l) s.
Proof.
  intros Hw Ho Hl. unfold virtio_mmio_read. unfold reads. setoid_rewrite run_gets.
  change (exists v, ?m s = Done (v, s) /\ in_u 32 v) with (reads m s). destruct (Z.leb_spec VIRTIO_MMIO_CONFIG o); [apply reads_config; auto; lia|].
  repeat rd; try (apply Hw). pose proof (vw_sel _ Hw). unfold MAX_QUEUE, in_u in *. lia.
Qed.

Lemma safe_config_read o l : safe (K := K) (virtio_config_read o l).
Proof. unfold virtio_config_read, config_bytes. ssteps. Qed.
Lemma safe_sel_queue : safe (K := K) sel_queue.
Proof. unfold sel_queue. ssteps. Qed.
Hint Resolve safe_config_read safe_sel_queue : safe.

Lemma safe_mmio_read o l : safe (K := K) (virtio_mmio_read o l).
Proof. unfold virtio_mmio_read. ssteps. Qed.

Lemma safe_isr d : safe (K := K) (_ ← on_dev (fun d => d <| int_status := 0 |>); _ ← set_irq false; mret (int_status d)).
Proof.
  intros s x s' [= _ <-] b0 [Hw _]. split; [destruct Hw; constructor; auto; easy|]. cbn. rewrite irq_from_snoc. reflexivity.
Qed.
Lemma safe_pci_read o l : safe (K := K) (virtio_pci_read o l).
Proof.
  unfold virtio_pci_read. cbv zeta. apply safe_bind; [auto with safe|]. intros d.
  repeat match goal with
  | |- safe (if ?b then _ else _) => destruct b
  | |- safe (on_dev _ ≫= _) => apply safe_isr
  | |- safe (sel_queue ≫= _) => ssteps
  end; auto with safe.
Qed.

Ltac wr :=
  match goal with
  | |- safe (if ?b then _ else _) => destruct b eqn:?
  | |- safe (mret _) => apply safe_ret
  | |- safe (on_sel_queue _) => apply safe_on_sel_queue; intros ? ?;
      first [apply queue_size_wf; assumption | apply queue_ready_wf; assumption
            | match goal with Hq : queue_wf _ |- _ => destruct Hq; constructor; auto; (apply set_low32_range || apply set_high32_range); assumption end]
  | |- safe (on_dev (fun d => d <| device_features_sel := _ |>)) => apply safe_on_dev; [intros ? []; constructor; auto|reflexivity]
  | |- safe (write_status _) => apply safe_write_status; assumption
  | |- safe (queue_notify _ _) => apply safe_notify, recv_safe
  | |- safe (virtio_config_write _ _ _ _) => apply safe_config_write, config_safe
  | |- safe (on_dev _ ≫= _) => apply safe_irq_ack
  end.

Lemma safe_select v : in_u 32 v -> (v <? MAX_QUEUE) = true -> safe (K := K) (on_dev (fun d => d <| queue_sel := v |>)).
Proof.
  intros Hv Hl. apply Z.ltb_lt in Hl. apply safe_on_dev; [|reflexivity]. intros d []. constructor; auto. cbn. unfold in_u in Hv. lia.
Qed.

Lemma safe_mmio_write o v l : in_u 32 v -> safe (virtio_mmio_write device_recv config_write o v l).
Proof. intros Hv. unfold virtio_mmio_write. repeat wr. apply safe_select; assumption. Qed.
Lemma safe_pci_write o v l : in_u 32 v -> safe (virtio_pci_write device_recv config_write o v l).
Proof. intros Hv. unfold virtio_pci_write. cbv zeta. repeat wr. apply safe_select; assumption. Qed.

(** A write of a register other than the doorbell returns. *)
Definition returns (m : SM (VS K) unit) (s : VS K) : Prop := exists s', m s = Done (tt, s').

Lemma config_write_returns o v l s : vdev_wf (dev s) -> 0 <= o -> returns (virtio_config_write config_write o v l) s.
Proof.
  intros Hw Ho. destruct (vw_config _ Hw) as [Hz _]. pose proof (vw_csize _ Hw) as Hc. unfold MAX_CONFIG_SPACE_SIZE in *.
  unfold virtio_config_write, returns. setoid_rewrite run_gets. rewrite !u32_id by (unfold in_u; lia).
  assert (forall data, o + zlen data <= 256 -> exists s', put_config config_write o data s = Done (tt, s')) as Hp.
  { intros data Hd. unfold put_config. setoid_rewrite run_gets. rewrite buf_put_run by lia. setoid_rewrite run_liftr_done.
    unfold on_dev. setoid_rewrite run_modify. destruct config_write as [f|] eqn:Ef; [exact (config_returns f _ Ef)|eexists; reflexivity]. }
  repeat match goal with |- exists s', (if ?b then _ else _) s = _ => destruct b eqn:? end;
    try (eexists; reflexivity); apply Hp;
    match goal with Hb : (_ <? _) = true |- _ => apply Z.ltb_lt in Hb end; unfold put_le16, put_le32; rewrite ?zlen_aset;
    match goal with |- _ + zlen ?l <= _ => change (zlen l) with (Z.of_nat (List.length l)) end; cbn [List.length]; lia.
Qed.

Lemma mmio_write_returns o v l s : vdev_wf (dev s) -> 0 <= o -> o <> VIRTIO_MMIO_QUEUE_NOTIFY -> returns (virtio_mmio_write device_recv config_write o v l) s.
Proof.
  intros Hw Ho Hn. unfold virtio_mmio_write. destruct (Z.leb_spec VIRTIO_MMIO_CONFIG o); [apply config_write_returns; auto; lia|].
  apply Z.eqb_neq in Hn. rewrite Hn. unfold write_status.
  repeat match goal with |- returns (if ?b then _ else _) s => destruct b end; try (eexists; reflexivity); try (apply on_sel_queue_run; assumption);
    unfold returns, on_dev; setoid_rewrite run_modify; try setoid_rewrite run_gets;
    match goal with |- exists s', (if ?b then _ else _) _ = _ => destruct b end; eexists; reflexivity.
Qed.
End Access.

(** ** The theorems *)

(** What can happen to a device: an access through either register window, or a request of the host. *)
Inductive access {H : VirtioHost} {K : Type} {C : VirtioClass K} : VS K -> VS K -> Prop :=
| access_mmio_read o l v s s' : virtio_mmio_read o l s = Done (v, s') -> access s s'
| access_mmio_write o v l s s' : in_u 32 v -> virtio_mmio_write device_recv config_write o v l s = Done (tt, s') -> access s s'
| access_pci_read o l v s s' : virtio_pci_read o l s = Done (v, s') -> access s s'
| access_pci_write o v l s s' : in_u 32 v -> virtio_pci_write device_recv config_write o v l s = Done (tt, s') -> access s s'
| access_event s s' : host_event s s' -> access s s'.

Lemma access_inv {H : VirtioHost} {K : Type} {C : VirtioClass K} {L : VirtioClassLaws C} (s s' : VS K) : access s s' -> vs_inv s -> vs_inv s'.
Proof.
  intros [o l v t t' E|o v l t t' Hv E|o l v t t' E|o v l t t' Hv E|t t' E].
  - exact (safe_mmio_read o l _ _ _ E false).
  - exact (safe_mmio_write o v l Hv _ _ _ E false).
  - exact (safe_pci_read o l _ _ _ E false).
  - exact (safe_pci_write o v l Hv _ _ _ E false).
  - exact (event_safe _ _ E false).
Qed.

(** A device as its constructor leaves it. *)
Lemma wf_virtio_init id n : in_u 32 id -> 4 <= n <= MAX_CONFIG_SPACE_SIZE -> vdev_wf (virtio_init id n).
Proof.
  intros Hi Hn. unfold MAX_CONFIG_SPACE_SIZE in Hn. constructor; try (cbn; unfold in_u; lia).
  - cbn. unfold MAX_QUEUE. lia.
  - split; [reflexivity|]. repeat constructor; cbn; unfold in_u; try lia.
    all: exists 4; split; (lia || reflexivity).
  - cbn. repeat split; first [apply Hi | discriminate | reflexivity].
  - cbn. rewrite u32_id by (unfold in_u; lia). exact Hn.
  - split; [reflexivity|]. apply Forall_replicate. easy.
Qed.
Lemma wf_features d v : in_u 32 v -> vdev_wf d -> vdev_wf (d <| device_features := v |>).
Proof. intros Hv [? ? ? ? ? (? & ? & ?) ? ?]. constructor; auto. Qed.
Lemma wf_set_manual d : vdev_wf d -> vdev_wf (set_manual d).
Proof.
  intros [? ? ? ? [Hn Hq] ? ? ?]. constructor; auto. cbn. rewrite length_alter. split; [exact Hn|].
  apply Forall_alter; [exact Hq|]. intros q _ []. constructor; auto.
Qed.
Lemma wf_config d c : config_ok c -> vdev_wf d -> vdev_wf (d <| config_space := c |>).
Proof. intros Hc []. constructor; auto. Qed.

Definition started {K} (d : VIRTIODevice * K) (m : hostmem) : VS K := mkVS (fst d) m (snd d) [].

Lemma block_started {B : Type} {BD : BlockDevice B} (b : B) m : vs_inv (started (virtio_block_init b) m).
Proof.
  split; [|reflexivity]. cbn [started dev virtio_block_init fst]. pose proof (wf_virtio_init 2 8 ltac:(easy) ltac:(easy)) as Hw. apply wf_config, Hw.
  destruct (vw_config _ Hw) as [Hz Hb]. set (c := config_space (virtio_init 2 8)) in *. generalize (u32 (u64 (get_sector_count b))). intros x.
  generalize (u32 (u64 (get_sector_count b) >>' 32)). intros y.
  assert (forall l v, is_bytes l -> is_bytes (put_le32 l v)) as Hp.
  { intros l v Hl. unfold put_le32. repeat apply aset_bytes; auto; apply wrapu_range; lia. }
  assert (forall l v, zlen (put_le32 l v) = zlen l) as Hz' by (intros; unfold put_le32; rewrite !zlen_aset; reflexivity).
  split; [|apply Forall_app_2; [apply Forall_take|apply Hp, Forall_drop]; apply Hp, Hb].
  rewrite zlen_app, Hz', <- zlen_app, take_drop, Hz'. exact Hz.
Qed.
Lemma net_started mac m : is_bytes mac -> zlen mac = 6 -> vs_inv (started (virtio_net_init mac) m).
Proof.
  intros Hm Hl. split; [|reflexivity]. cbn [started dev virtio_net_init fst]. apply wf_config.
  - split.
    + unfold zlen in *. rewrite !length_app, length_take, length_drop.
      match goal with |- context [List.length (config_space ?d)] => change (List.length (config_space d)) with 256%nat end. cbn [List.length]. unfold MAX_CONFIG_SPACE_SIZE. lia.
    + apply Forall_app_2; [apply Forall_take, Hm|]. repeat (constructor; [easy|]). constructor.
  - apply wf_set_manual, wf_features; [easy|]. apply wf_virtio_init; easy.
Qed.
Lemma console_started m : vs_inv (started virtio_console_init m).
Proof. split; [|reflexivity]. apply wf_set_manual, wf_features; [easy|]. apply wf_virtio_init; easy. Qed.
Lemma input_started t m : vs_inv (started (virtio_input_init t) m).
Proof. split; [|reflexivity]. apply wf_features; [easy|]. apply wf_set_manual, wf_virtio_init; easy. Qed.

Lemma p9_vdev_ok n : 4 <= n <= MAX_CONFIG_SPACE_SIZE -> vdev_wf (p9_vdev n).
Proof. intros Hn. apply wf_features; [easy|]. apply wf_virtio_init; [easy|exact Hn]. Qed.
Lemma p9_vdev_config n : config_space (p9_vdev n) = replicate 256 0.
Proof. reflexivity. Qed.

Lemma p9_started {D F : Type} (d : D) tag v (k : VIRTIO9PDevice D F) m : is_bytes tag -> 2 <= zlen tag -> virtio_9p_init d tag = Done (v, k) -> vs_inv (started (v, k) m).
Proof.
  intros Hb Hl E. unfold virtio_9p_init in E. rewrite p9_vdev_config in E.
  destruct (buf_put (replicate 256 0) 0 _) as [c1|] eqn:E1; [|discriminate]. cbn [mbind res_bind] in E.
  destruct (buf_put c1 2 tag) as [c|] eqn:E2; [|discriminate]. injection E as <- _. split; [|reflexivity]. cbn [started dev fst].
  assert (zlen c1 = 256) as Z1 by (unfold zlen; rewrite (buf_put_length _ _ _ _ E1); reflexivity).
  assert (2 + zlen tag <= 256) as Hle by (unfold buf_put in E2; destruct (Z.leb_spec (2 + zlen tag) (zlen c1)); [lia|rewrite andb_false_r in E2; discriminate]).
  apply wf_config; [|apply p9_vdev_ok; unfold MAX_CONFIG_SPACE_SIZE; lia]. split; [unfold zlen in *; rewrite (buf_put_length _ _ _ _ E2); exact Z1|].
  apply (buf_put_bytes c1 2 tag); auto. apply (buf_put_bytes (replicate 256 0) 0 [u8 (zlen tag); u8 (zlen tag >>' 8)]); auto;
    [apply Forall_replicate; easy|repeat constructor; apply wrapu_range; lia].
Qed.

(** C13 Whatever the driver and the host do to a device, of whatever class, the register file stays well formed and the
    interrupt line is high exactly when the interrupt status is not zero; every register read returns a 32-bit word
    without effect, and every register write but the doorbell returns. *)
Theorem virtio_registers {H : VirtioHost} {K : Type} {C : VirtioClass K} {L : VirtioClassLaws C} (s s' : VS K) : vs_inv s -> rtc access s s' ->
  vdev_wf (dev s') /\ irq_line (calls s') = negb (int_status (dev s') =? 0) /\
  (forall o l, 0 <= o -> 0 <= l <= 2 -> exists v, virtio_mmio_read o l s' = Done (v, s') /\ in_u 32 v) /\
  (forall o v l, 0 <= o -> o <> VIRTIO_MMIO_QUEUE_NOTIFY -> exists s'', virtio_mmio_write device_recv config_write o v l s' = Done (tt, s'')).
Proof.
  intros Hs Hr. assert (vs_inv s') as [Hw Hl] by (induction Hr; eauto using access_inv). split; [exact Hw|]. split; [exact Hl|]. split.
  - intros o l Ho Hl2. exact (mmio_read_total o l s' Hw Ho Hl2).
  - intros o v l Ho Hn. exact (mmio_write_returns o v l s' Hw Ho Hn).
Qed.

(** The queue addresses as the driver programs them: two 32-bit writes to a pair of registers. *)
Definition address_regs : list (Z * Z * (QueueState -> Z)) :=
  [(VIRTIO_MMIO_QUEUE_DESC_LOW, VIRTIO_MMIO_QUEUE_DESC_HIGH, desc_addr); (VIRTIO_MMIO_QUEUE_AVAIL_LOW, VIRTIO_MMIO_QUEUE_AVAIL_HIGH, avail_addr);
   (VIRTIO_MMIO_QUEUE_USED_LOW, VIRTIO_MMIO_QUEUE_USED_HIGH, used_addr)].

Definition program {H : VirtioHost} {K : Type} {C : VirtioClass K} (k rl rh lo hi : Z) : SM (VS K) unit :=
  _ ← virtio_mmio_write device_recv config_write VIRTIO_MMIO_QUEUE_SEL k 2;
  _ ← virtio_mmio_write device_recv config_write rl lo 2;
  virtio_mmio_write device_recv config_write rh hi 2.

Lemma on_sel_queue_at {K : Type} f (s : VS K) k q : queue_sel (dev s) = k -> 0 <= k -> queue (dev s) !! Z.to_nat k = Some q ->
  on_sel_queue f s = Done (tt, s <| dev := (dev s) <| queue := <[Z.to_nat k := f q]> (queue (dev s)) |> |>).
Proof. intros E Hk Hq. unfold on_sel_queue, on_queue. rewrite run_gets, E, run_bind, (get_queue_run k q) by auto. reflexivity. Qed.

Lemma sel_queue_at {K : Type} (s : VS K) k q : queue_sel (dev s) = k -> 0 <= k -> queue (dev s) !! Z.to_nat k = Some q -> sel_queue s = Done (q, s).
Proof. intros E Hk Hq. unfold sel_queue. rewrite run_gets, E. apply get_queue_run; auto. Qed.

(** Programming a queue: selecting queue [k] and writing the two halves of one of its addresses sets that address to the
    64-bit value, leaves the other addresses, the other fields and the other queues alone, and both halves read back. *)
Theorem queue_programmed {H : VirtioHost} {K : Type} {C : VirtioClass K} (s : VS K) k rl rh f lo hi : vdev_wf (dev s) -> 0 <= k < MAX_QUEUE ->
  In (rl, rh, f) address_regs -> in_u 32 lo -> in_u 32 hi ->
  exists s' q q', program k rl rh lo hi s = Done (tt, s') /\
    queue (dev s) !! Z.to_nat k = Some q /\ queue (dev s') = <[Z.to_nat k := q']> (queue (dev s)) /\
    f q' = lo + hi * 2 ^ 32 /\ (forall rl' rh' g, In (rl', rh', g) address_regs -> rl' <> rl -> g q' = g q) /\
    num q' = num q /\ ready q' = ready q /\ last_avail_idx q' = last_avail_idx q /\
    virtio_mmio_read rl 2 s' = Done (lo, s') /\ virtio_mmio_read rh 2 s' = Done (hi, s') /\ vmem s' = vmem s /\ calls s' = calls s.
Proof.
  intros Hw Hk Hin Hlo Hhi. destruct (vw_queues _ Hw) as [Hn _]. unfold MAX_QUEUE in Hk.
  destruct (lookup_lt_is_Some_2 (queue (dev s)) (Z.to_nat k)) as [q Hq]; [lia|]. unfold program.
  assert (virtio_mmio_write device_recv config_write VIRTIO_MMIO_QUEUE_SEL k 2 s = Done (tt, s <| dev := (dev s) <| queue_sel := k |> |>)) as E1.
  { unfold virtio_mmio_write. cbn [Z.leb Z.eqb VIRTIO_MMIO_CONFIG VIRTIO_MMIO_QUEUE_SEL VIRTIO_MMIO_DEVICE_FEATURES_SEL Z.compare Pos.compare Pos.compare_cont Pos.eqb].
    unfold MAX_QUEUE. rewrite (proj2 (Z.ltb_lt k 8)) by lia. reflexivity. }
  rewrite run_bind, E1. set (s1 := s <| dev := (dev s) <| queue_sel := k |> |>).
  assert (exists g1 g2 : QueueState -> QueueState,
    virtio_mmio_write device_recv config_write rl lo 2 = on_sel_queue g1 /\ virtio_mmio_write device_recv config_write rh hi 2 = on_sel_queue g2 /\
    virtio_mmio_read (K := K) rl 2 = (d ← gets dev; q ← sel_queue; mret (u32 (f q))) /\ virtio_mmio_read (K := K) rh 2 = (d ← gets dev; q ← sel_queue; mret (u32 (f q >>' 32))) /\
    f (g2 (g1 q)) = set_high32 (set_low32 (f q) lo) hi /\ (forall rl' rh' g, In (rl', rh', g) address_regs -> rl' <> rl -> g (g2 (g1 q)) = g q) /\
    num (g2 (g1 q)) = num q /\ ready (g2 (g1 q)) = ready q /\ last_avail_idx (g2 (g1 q)) = last_avail_idx q) as (g1 & g2 & W1 & W2 & R1 & R2 & Ef & Eo & En & Er & El).
  { assert (forall rl' rh' g, In (rl', rh', g) address_regs -> g = desc_addr \/ g = avail_addr \/ g = used_addr) as Hg.
    { cbn. intros rl' rh' g [[= _ _ <-]|[[= _ _ <-]|[[= _ _ <-]|[]]]]; auto. }
    cbn in Hin. destruct Hin as [[= <- <- <-]|[[= <- <- <-]|[[= <- <- <-]|[]]]]; eexists _, _; (split; [reflexivity|]); (split; [reflexivity|]);
      (split; [reflexivity|]); (split; [reflexivity|]); (split; [reflexivity|]); (split; [|repeat split]);
      cbn; intros rl' rh' g [[= <- _ <-]|[[= <- _ <-]|[[= <- _ <-]|[]]]] Hne; congruence || reflexivity. }
  rewrite run_bind, W1, (on_sel_queue_at g1 s1 k q) by (auto; lia).
  set (s2 := s1 <| dev := (dev s1) <| queue := <[Z.to_nat k := g1 q]> (queue (dev s1)) |> |>).
  rewrite W2, (on_sel_queue_at g2 s2 k (g1 q)) by first [lia | reflexivity | apply list_lookup_insert_eq; cbn; lia].
  set (s3 := s2 <| dev := (dev s2) <| queue := <[Z.to_nat k := g2 (g1 q)]> (queue (dev s2)) |> |>).
  assert (f (g2 (g1 q)) = lo + hi * 2 ^ 32) as Ev by (rewrite Ef; apply set_both32; assumption).
  assert (queue (dev s3) !! Z.to_nat k = Some (g2 (g1 q))) as Hq3 by (apply list_lookup_insert_eq; cbn; rewrite length_insert; lia).
  exists s3, q, (g2 (g1 q)). split; [reflexivity|]. split; [exact Hq|]. split; [cbn; apply list_insert_insert_eq|]. do 5 (split; [assumption|]).
  rewrite R1, R2, !run_gets, !run_bind, !(sel_queue_at s3 k (g2 (g1 q))) by (auto; lia).
  split; [|split; [|split; reflexivity]]; rewrite Ef; unfold mret, SM_ret.
  - do 2 f_equal. rewrite <- (low32_of_set (f q) lo Hlo) at 2. unfold set_high32. apply (bits_inj_u 32); [lia|apply wrapu_range; lia|apply wrapu_range; lia|].
    intros i Hi. bits_at i 32%nat.
  - do 2 f_equal. apply high32_of_set, Hhi.
Qed.

(** ** Instances *)

#[local] Instance bare_host : VirtioHost := {| ram_ptr _ := None; garbage _ := 0; turns := 1 |}.
Definition bare_console : VS VIRTIOConsoleDevice := started virtio_console_init ∅.
Definition resized : VS VIRTIOConsoleDevice :=
  match virtio_console_resize_event 80 25 bare_console with Done (_, s) => s | Stop _ => bare_console end.

(** A console whose window was resized has its interrupt line high. *)
Lemma virtio_registers_witness : irq_line (calls resized) = true /\ exists v, virtio_mmio_read 0x100 1 resized = Done (v, resized) /\ in_u 32 v.
Proof.
  assert (rtc access bare_console resized) as Hr by (apply rtc_once, access_event; right; exists 80, 25; reflexivity).
  destruct (virtio_registers bare_console resized (console_started ∅) Hr) as (_ & Hl & Hrd & _).
  split; [rewrite Hl; reflexivity|]. exact (Hrd 0x100 1 ltac:(lia) ltac:(lia)).
Defined.

Lemma queue_programmed_witness : exists s', program 1 0x080 0x084 0x80001000 0 bare_console = Done (tt, s') /\
  virtio_mmio_read 0x080 2 s' = Done (0x80001000, s').
Proof.
  destruct (queue_programmed bare_console 1 0x080 0x084 desc_addr 0x80001000 0 (proj1 (console_started ∅)) ltac:(easy) ltac:(left; reflexivity) ltac:(easy) ltac:(easy))
    as (s' & q & q' & E & _ & _ & _ & _ & _ & _ & _ & R & _).
  exists s'. split; assumption.
Defined.
