(* ===== verification/VirtioEnds.v ===== *)
(** * Virtio: requests end, unless their chain does not

    The loops of the virtio devices whose length does not depend on a
    descriptor chain stay within the bounds of the model: copying pages, and
    taking the chains that a driver has made available.  What remains is
    [Endless], the walk over a chain that the driver has closed to a circle.
    Along the way the devices leave byte-valued memory byte-valued. *)

From S2P Require Import Prelude Cutils Iomem Hostmem Bytes Virtio VirtioDevs VirtioQueue P9 VirtioRegs.
From stdpp Require Import base list gmap.
From Stdlib Require Import ZArith Lia Bool.
Local Open Scope Z_scope.
Local Open Scope bits_scope.
Local Open Scope list_scope.

Create HintDb ends discriminated.

(** ** Computations without a loop bound *)

Lemma settled_buf_put buf pos data : settled (buf_put buf pos data).
Proof. unfold buf_put. destruct (_ && _); exact I. Qed.
Lemma settled_buf_get buf pos n : settled (buf_get buf pos n).
Proof. unfold buf_get. destruct (_ && _); exact I. Qed.
Lemma settled_assert b : settled (assert_c b).
Proof. destruct b; exact I. Qed.
Lemma settled_marshall1 c a room : settled (marshall1 c a room).
Proof.
  unfold marshall1. cbv zeta. repeat (apply settled_bind; [apply settled_assert|intros]).
  destruct c as [[] [] [] [] [] [] [] []], a; try settled; repeat (apply settled_bind; [apply settled_assert|intros]); settled.
Qed.
Lemma settled_marshall f : forall n l, settled (marshall n f l).
Proof.
  induction f as [|c f IH]; intros n [|a l]; cbn [marshall]; try settled.
  apply settled_bind; [apply settled_marshall1|intros]. apply settled_bind; [apply IH|intros; settled].
Qed.
Lemma settled_walk_qids n : forall l room, settled (walk_qids n l room).
Proof.
  induction n as [|n IH]; intros l room; cbn [walk_qids]; [settled|]. destruct l; [settled|].
  apply settled_bind; [apply settled_marshall|intros]. apply settled_bind; [apply IH|intros; settled].
Qed.
#[export] Hint Resolve settled_buf_put settled_buf_get settled_assert settled_marshall settled_walk_qids : ends.

(** ** The triple *)

(** How far the device has come in each queue. *)
Definition taken_to {K} (s : VS K) : list Z := map last_avail_idx (queue (dev s)).

Section Ends.
Context {K : Type} {H : VirtioHost}.
Abbreviation VM := (SM (VS K)).

Definition ends {A} (m : VM A) : Prop := forall s, hostmem_wf (vmem s) ->
  match m s with Done (_, s') => hostmem_wf (vmem s') /\ taken_to s' = taken_to s | Stop r => r <> OutOfFuel end.

Lemma ends_ret {A} (a : A) : ends (mret a).
Proof. intros s Hs. split; [exact Hs|reflexivity]. Qed.
Lemma ends_gets {A} (g : VS K -> A) : ends (gets g).
Proof. intros s Hs. split; [exact Hs|reflexivity]. Qed.
Lemma ends_stop {A} r : r <> OutOfFuel -> ends (stop (A := A) r).
Proof. intros Hr s Hs. exact Hr. Qed.
Lemma ends_liftr {A} (r : res A) : settled r -> ends (liftr r).
Proof. intros Hr s Hs. unfold liftr. destruct r; [split; [exact Hs|reflexivity]|]. intros ->. exact Hr. Qed.
Lemma ends_bind {A B} (m : VM A) (f : A -> VM B) : ends m -> (forall a, ends (f a)) -> ends (m ≫= f).
Proof.
  intros Hm Hf s Hs. rewrite run_bind. specialize (Hm s Hs). destruct (m s) as [[a s1]|r]; [|exact Hm]. destruct Hm as [Hs1 E1].
  specialize (Hf a s1 Hs1). destruct (f a s1) as [[b s2]|r]; [|exact Hf]. destruct Hf as [Hs2 E2]. split; [exact Hs2|congruence].
Qed.
Lemma ends_ext {A} (m m' : VM A) : (forall s, m s = m' s) -> ends m' -> ends m.
Proof. intros E Hm s Hs. rewrite E. exact (Hm s Hs). Qed.
Lemma ends_int_op x : ends (int_op x).
Proof. unfold int_op. destruct (_ && _); [apply ends_ret|apply ends_stop; discriminate]. Qed.
Lemma ends_kind f : ends (modify (fun s => s <| kind := f s |>)).
Proof. intros s Hs. split; [exact Hs|reflexivity]. Qed.
Lemma ends_call c : ends (call c).
Proof. intros s Hs. split; [exact Hs|reflexivity]. Qed.
Lemma ends_on_dev f : (forall d, queue (f d) = queue d) -> ends (on_dev f).
Proof. intros Hf s Hs. split; [exact Hs|]. unfold taken_to. cbn. rewrite Hf. reflexivity. Qed.
Lemma ends_get_queue i : ends (get_queue i).
Proof. intros s Hs. unfold get_queue. destruct (_ !! _); [destruct (_ <=? _)|]; try discriminate. split; [exact Hs|reflexivity]. Qed.
Lemma ends_store n p v : ends (modify (fun s => s <| vmem := st n (vmem s) p v |>)).
Proof. intros s Hs. split; [apply st_wf, Hs|reflexivity]. Qed.
Lemma ends_store_bytes p data : is_bytes data -> ends (modify (fun s => s <| vmem := st_bytes (vmem s) p data |>)).
Proof. intros Hd s Hs. split; [apply st_bytes_wf; assumption|reflexivity]. Qed.
End Ends.
#[export] Hint Resolve ends_ret ends_gets ends_liftr ends_int_op ends_kind ends_call ends_get_queue ends_store : ends.
#[export] Hint Extern 1 (ends (stop _)) => (apply ends_stop; discriminate) : ends.
#[export] Hint Extern 1 (ends (on_dev _)) => (apply ends_on_dev; reflexivity) : ends.
#[export] Hint Extern 1 (ends (set_irq _)) => apply ends_call : ends.

Ltac estep :=
  match goal with
  | |- ends (match ?x with _ => _ end) => destruct x
  | |- ends (let '(_, _) := ?x in _) => destruct x
  | |- ends (_ ≫= _) => apply ends_bind; [|intros ?]
  | |- ends _ => solve [auto with ends]
  end.
Ltac esteps := cbv zeta; repeat (estep; cbv zeta).

(** ** The queues *)

Section Ops.
Context {K : Type} {H : VirtioHost}.
Abbreviation VM := (SM (VS K)).

Lemma ends_read16 addr : ends (K := K) (virtio_read16 addr).
Proof. unfold virtio_read16. esteps. Qed.
Lemma ends_write16 addr v : ends (K := K) (virtio_write16 addr v).
Proof. unfold virtio_write16. esteps. Qed.
Lemma ends_write32 addr v : ends (K := K) (virtio_write32 addr v).
Proof. unfold virtio_write32. esteps. Qed.
Hint Resolve ends_read16 ends_write16 ends_write32 : ends.

(** Each turn of a copy moves at least one byte. *)
Lemma page_chunk_pos addr count : 0 < count -> 0 < page_chunk addr count.
Proof.
  intros Hc. unfold page_chunk, min_int, VIRTIO_PAGE_SIZE. change (4096 - 1) with (Z.ones 12). rewrite Z.land_ones by lia.
  pose proof (Z.mod_pos_bound addr (2 ^ 12) ltac:(lia)). destruct (_ <? _); lia.
Qed.

Lemma ends_from_ram_loop n : forall buf pos addr count, (Z.to_nat count <= n)%nat -> ends (K := K) (from_ram_loop n buf pos addr count).
Proof.
  induction n as [|n IH]; intros buf pos addr count Hn; cbn [from_ram_loop]; destruct (Z.leb_spec count 0) as [Hc|Hc]; auto with ends; [lia|].
  pose proof (page_chunk_pos addr count Hc). cbv zeta. destruct (ram_ptr addr); [|auto with ends].
  apply ends_bind; [auto with ends|intros m]. apply ends_bind; [auto with ends|intros buf']. apply IH. lia.
Qed.
Lemma ends_from_ram buf pos addr count : ends (K := K) (virtio_memcpy_from_ram buf pos addr count).
Proof. apply ends_from_ram_loop. lia. Qed.

Lemma ends_to_ram_loop n buf : is_bytes buf -> forall addr pos count, (Z.to_nat count <= n)%nat -> ends (K := K) (to_ram_loop n addr buf pos count).
Proof.
  intros Hb. induction n as [|n IH]; intros addr pos count Hn; cbn [to_ram_loop]; destruct (Z.leb_spec count 0) as [Hc|Hc]; auto with ends; [lia|].
  pose proof (page_chunk_pos addr count Hc). cbv zeta. destruct (ram_ptr addr); [|auto with ends]. intros s Hs. rewrite run_bind.
  unfold liftr, buf_get. destruct (_ && _); [|discriminate]. revert s Hs. apply ends_bind; [|intros; apply IH; lia].
  apply ends_store_bytes, Forall_take, Forall_drop, Hb.
Qed.
Lemma ends_to_ram addr buf pos count : is_bytes buf -> ends (K := K) (virtio_memcpy_to_ram addr buf pos count).
Proof. intros Hb. apply ends_to_ram_loop; [exact Hb|lia]. Qed.
Hint Resolve ends_from_ram ends_to_ram : ends.

Lemma ends_load_desc d q i : ends (K := K) (load_desc d q i).
Proof. unfold load_desc, get_desc. esteps. Qed.
Lemma ends_next_desc d q : ends (K := K) (next_desc d q).
Proof. apply ends_load_desc. Qed.
Hint Resolve ends_load_desc ends_next_desc : ends.
Lemma ends_find_write n : forall d q, ends (K := K) (find_write n d q).
Proof. induction n; intros; cbn [find_write]; esteps. Qed.
Lemma ends_find_offset n : forall w d q o, ends (K := K) (find_offset n w d q o).
Proof. induction n; intros; cbn [find_offset]; esteps. Qed.
Lemma ends_write_sizes n : forall d q r w, ends (K := K) (write_sizes n d q r w).
Proof. induction n; intros; cbn [write_sizes]; esteps. Qed.
Hint Resolve ends_find_write ends_find_offset ends_write_sizes : ends.
Lemma ends_read_sizes n : forall d q r, ends (K := K) (read_sizes n d q r).
Proof. induction n; intros; cbn [read_sizes]; esteps. Qed.
Hint Resolve ends_read_sizes : ends.

Lemma ends_copy_from n : forall d q buf pos o c, ends (K := K) (copy_chain n false d q buf pos o c).
Proof. induction n; intros; cbn [copy_chain]; esteps. Qed.
(** Copying to the queue leaves the buffer alone. *)
Lemma ends_copy_to n buf : is_bytes buf -> forall d q pos o c, ends (K := K) (copy_chain n true d q buf pos o c).
Proof.
  intros Hb. induction n as [|n IH]; intros; cbn [copy_chain]; cbv zeta; (eapply ends_ext; [intros s; apply run_assoc|]);
    (apply ends_bind; [auto with ends|intros ret]); (eapply ends_ext; [intros s; apply run_bind_ret|]); esteps.
Qed.
Hint Resolve ends_copy_from ends_copy_to bytes_map_u8 : ends.

Lemma ends_memcpy_from_queue buf q i o c : ends (K := K) (memcpy_from_queue buf q i o c).
Proof. unfold memcpy_from_queue, memcpy_to_from_queue. esteps. Qed.
Lemma ends_memcpy_to_queue q i o buf c : ends (K := K) (memcpy_to_queue q i o buf c).
Proof. unfold memcpy_to_queue, memcpy_to_from_queue. apply ends_bind; [|intros []; auto with ends]. esteps. Qed.
Lemma ends_consume q i n : ends (K := K) (virtio_consume_desc q i n).
Proof. unfold virtio_consume_desc. esteps. Qed.
Lemma ends_sizes q i : ends (K := K) (get_desc_rw_size q i).
Proof. unfold get_desc_rw_size. esteps. Qed.
End Ops.
#[export] Hint Resolve ends_read16 ends_memcpy_from_queue ends_memcpy_to_queue ends_consume ends_sizes : ends.

(** ** Notifications *)

Lemma taken_lookup {K} (s s' : VS K) i qs : taken_to s' = taken_to s -> queue (dev s) !! i = Some qs ->
  exists qs', queue (dev s') !! i = Some qs' /\ last_avail_idx qs' = last_avail_idx qs.
Proof.
  intros E Hq. apply (f_equal (fun l => l !! i)) in E. unfold taken_to in E. rewrite !list_lookup_fmap, Hq in E.
  destruct (queue (dev s') !! i) as [qs'|]; [|discriminate]. exists qs'. split; [reflexivity|]. injection E as <-. reflexivity.
Qed.

Section Notify.
Context {K : Type} {H : VirtioHost} (recv : Z -> Z -> Z -> Z -> SM (VS K) Z).

(** What is left to show of a computation whose queues do not matter any more. *)
Definition over {A} (r : res (A * VS K)) : Prop := match r with Done (_, s') => hostmem_wf (vmem s') | Stop r => r <> OutOfFuel end.

Lemma ends_over {A} (m : SM (VS K) A) s : ends m -> hostmem_wf (vmem s) -> over (m s).
Proof. intros Hm Hs. specialize (Hm s Hs). unfold over. destruct (m s) as [[]|]; [apply Hm|exact Hm]. Qed.

Lemma u16_dist last avail : in_u 16 last -> in_u 16 avail -> last <> avail -> u16 (avail - last) = u16 (avail - u16 (last + 1)) + 1.
Proof.
  unfold in_u, u16, wrapu. intros Hl Ha Hne. change (2 ^ 16) with 65536 in *.
  destruct (Z.eq_dec last 65535) as [->|]; [change ((65535 + 1) mod 65536) with 0; rewrite Z.sub_0_r, (Z.mod_small avail) by lia;
    rewrite <- (Z_mod_plus_full (avail - 65535) 1), Z.mod_small by lia; lia|].
  rewrite (Z.mod_small (last + 1)) by lia. destruct (Z.lt_ge_cases avail last).
  - rewrite <- (Z_mod_plus_full (avail - last) 1), <- (Z_mod_plus_full (avail - (last + 1)) 1), !Z.mod_small by lia. lia.
  - rewrite !Z.mod_small by lia. lia.
Qed.

Lemma notify_loop_over q avail : in_u 16 avail -> (forall q i r w, ends (recv q i r w)) -> forall n s qs, hostmem_wf (vmem s) ->
  queue (dev s) !! Z.to_nat q = Some qs -> in_u 16 (last_avail_idx qs) -> u16 (avail - last_avail_idx qs) < Z.of_nat n -> over (notify_loop recv n q avail s).
Proof.
  intros Ha Hr. induction n as [|n IH]; intros s qs Hs Hq Hl Hn; [pose proof (wrapu_range 16 (avail - last_avail_idx qs) ltac:(lia)); unfold u16 in Hn; lia|].
  cbn [notify_loop]. rewrite run_bind. unfold get_queue. rewrite Hq. destruct (0 <=? q) eqn:E0; [|discriminate].
  destruct (Z.eqb_spec (last_avail_idx qs) avail) as [|Hne]; [exact Hs|].
  assert (ends (desc_idx ← virtio_read16 (avail_slot qs); sizes ← get_desc_rw_size q desc_idx;
    match sizes with Some (read_size, write_size) => ret ← recv q desc_idx read_size write_size; mret (0 <=? ret) | None => mret true end)) as Hm by esteps.
  specialize (Hm s Hs). rewrite run_bind in Hm. rewrite run_bind. destruct (virtio_read16 (avail_slot qs) s) as [[i s1]|]; [|exact Hm].
  rewrite run_bind in Hm. rewrite run_bind. destruct (get_desc_rw_size q i s1) as [[sizes s2]|]; [|exact Hm].
  rewrite run_bind. set (go := match sizes with Some _ => _ | None => _ end) in *. destruct (go s2) as [[go_on s3]|]; [|exact Hm].
  destruct Hm as [Hs3 Et]. destruct go_on; [|exact Hs3]. destruct (taken_lookup s s3 _ _ Et Hq) as (qs3 & Hq3 & El).
  rewrite run_bind. unfold next_avail, on_queue. rewrite run_bind. unfold get_queue. rewrite Hq3, E0. unfold on_dev, modify.
  set (qs4 := qs3 <| last_avail_idx := u16 (last_avail_idx qs3 + 1) |>).
  apply (IH _ qs4); [exact Hs3|apply list_lookup_insert_eq; eapply lookup_lt_Some, Hq3|apply wrapu_range; lia|].
  change (last_avail_idx qs4) with (u16 (last_avail_idx qs3 + 1)). rewrite El. pose proof (u16_dist _ _ Hl Ha Hne). lia.
Qed.

Lemma queue_notify_over q s : (forall q i r w, ends (recv q i r w)) -> vdev_wf (dev s) -> hostmem_wf (vmem s) -> over (queue_notify recv q s).
Proof.
  intros Hr Hw Hs. unfold queue_notify. rewrite run_bind. unfold get_queue. destruct (queue (dev s) !! Z.to_nat q) as [qs|] eqn:Hq; [|discriminate].
  destruct (0 <=? q); [|discriminate]. destruct (manual_recv qs); [exact Hs|]. rewrite run_bind. unfold avail_index, virtio_read16.
  destruct (vw_queues _ Hw) as [_ Hqs]. pose proof (qw_last _ (Forall_lookup_1 _ _ _ _ Hqs Hq)) as Hl.
  assert (forall a, in_u 16 a -> over (notify_loop recv (Z.to_nat 65536) q a s)) as Hn.
  { intros a Ha. apply (notify_loop_over q a Ha Hr _ s qs Hs Hq Hl). pose proof (wrapu_range 16 (a - last_avail_idx qs) ltac:(lia)). unfold u16. lia. }
  destruct (tst _ _); [apply Hn; easy|]. destruct (ram_ptr _) as [ptr|]; [|apply Hn; easy]. rewrite run_gets.
  apply Hn. exact (ld_range 2 (vmem s) ptr Hs).
Qed.
End Notify.

(** ** Device classes *)

Class VirtioClassEnds {H : VirtioHost} {K : Type} (C : VirtioClass K) : Prop := {
  recv_ends : forall q i r w, ends (device_recv q i r w);
  config_ends : forall f, config_write = Some f -> ends f }.

(** A block device whose requests return, or stop the program. *)
Class BlockEnds {B : Type} (BD : BlockDevice B) : Prop := {
  read_settled : forall b sec buf n, settled (read_async b sec buf n);
  write_settled : forall b sec buf n, settled (write_async b sec buf n) }.
#[export] Hint Resolve read_settled write_settled : ends.

#[export] Instance bf_ends : BlockEnds bf_block_device.
Proof.
  assert (forall n bf sec buf pos, settled (bf_read_sectors n bf sec buf pos)) as Hr.
  { induction n as [|n IH]; intros; cbn [bf_read_sectors]; [settled|]. destruct (_ !! _) as [[data|]|]; [| |settled].
    - apply settled_bind; [apply settled_buf_put|intros; apply IH].
    - destruct (bf_f bf) as [f|]; [|settled]. destruct (fread _ _) as [data f']. repeat (apply settled_bind; [auto with ends|intros]). apply IH. }
  assert (forall n bf sec buf pos, settled (bf_write_sectors n bf sec buf pos)) as Hw.
  { induction n as [|n IH]; intros; cbn [bf_write_sectors]; [settled|]. destruct (_ !! _); [|settled]. apply settled_bind; [apply settled_buf_get|intros; apply IH]. }
  split; intros b sec buf n; cbn [read_async write_async bf_block_device].
  - unfold bf_read_async. destruct (bf_f b) as [f|]; [|settled]. destruct (bf_mode b); try (apply settled_bind; [apply Hr|intros []; settled]);
      destruct (fread _ _) as [data f']; repeat (apply settled_bind; [auto with ends|intros]); settled.
  - unfold bf_write_async. destruct (bf_mode b); [settled|destruct (bf_f b); [apply settled_bind; [auto with ends|intros; settled]|settled]|].
    destruct (_ <? _); [settled|]. apply settled_bind; [apply Hw|intros; settled].
Qed.

#[export] Instance block_class_ends {H : VirtioHost} {B : Type} {BD : BlockDevice B} {BE : BlockEnds BD} : VirtioClassEnds (block_class (B := B)).
Proof.
  assert (forall ret, ends (K := VIRTIOBlockDevice B) (virtio_block_req_end ret)) as He by (intros; unfold virtio_block_req_end, on_blk; esteps).
  split; [|no_config]. intros q i r w. cbn [device_recv block_class]. unfold virtio_block_recv_request, on_blk. esteps.
Qed.

Lemma ends_room {H : VirtioHost} {K} : ends (K := K) queue0_has_room.
Proof. unfold queue0_has_room, avail_index. esteps. Qed.
Lemma ends_head {H : VirtioHost} {K} : ends (K := K) queue0_head.
Proof. unfold queue0_head. esteps. Qed.

#[export] Instance net_class_ends {H : VirtioHost} : VirtioClassEnds net_class.
Proof. split; [|no_config]. intros q i r w. cbn [device_recv net_class]. unfold virtio_net_recv_request. esteps. Qed.
#[export] Instance console_class_ends {H : VirtioHost} : VirtioClassEnds console_class.
Proof. split; [|no_config]. intros q i r w. cbn [device_recv console_class]. unfold virtio_console_recv_request. esteps. Qed.
#[export] Instance input_class_ends {H : VirtioHost} : VirtioClassEnds input_class.
Proof.
  split; [intros q i r w; cbn [device_recv input_class]; unfold virtio_input_recv_request; esteps|].
  intros f [= <-]. unfold virtio_input_config_write. esteps.
Qed.

Section P9.
Context {H : VirtioHost} {D F : Type} {FS : FSDevice D F}.

Lemma ends_on_p9 f : ends (on_p9 (D := D) (F := F) f).
Proof. apply ends_kind. Qed.
Hint Resolve ends_on_p9 : ends.
Lemma ends_on_fs {A} (f : D -> A * D) : ends (on_fs (F := F) f).
Proof. unfold on_fs. esteps. Qed.
Lemma ends_fid_find fid : ends (fid_find (D := D) (F := F) fid).
Proof. unfold fid_find. esteps. Qed.
Hint Resolve ends_on_fs ends_fid_find : ends.
Lemma ends_fid_set fid fd : ends (fid_set (D := D) fid fd).
Proof. unfold fid_set, do_fs. esteps. Qed.
Lemma ends_fid_delete fid : ends (fid_delete (D := D) (F := F) fid).
Proof. unfold fid_delete, do_fs. esteps. Qed.
Lemma ends_fetch buf q i o n : ends (fetch (D := D) (F := F) buf q i o n).
Proof. unfold fetch. esteps. Qed.
Hint Resolve ends_fid_set ends_fid_delete ends_fetch : ends.
Lemma ends_unmarshall1 c q i o : ends (unmarshall1 (D := D) (F := F) c q i o).
Proof. unfold unmarshall1. cbv zeta. destruct c as [[] [] [] [] [] [] [] []]; esteps. Qed.
Hint Resolve ends_unmarshall1 : ends.
Lemma ends_unmarshall f : forall q i o, ends (unmarshall (D := D) (F := F) q i o f).
Proof. induction f; intros; cbn [unmarshall]; esteps. Qed.
Hint Resolve ends_unmarshall : ends.
Lemma ends_walk_names q i n : forall o, ends (walk_names (D := D) (F := F) q i n o).
Proof. induction n; intros; cbn [walk_names]; esteps. Qed.
Lemma ends_9p_reply q i id tag buf : ends (virtio_9p_send_reply (D := D) (F := F) q i id tag buf).
Proof. unfold virtio_9p_send_reply. esteps. Qed.
Hint Resolve ends_walk_names ends_9p_reply : ends.
Lemma ends_9p_error q i tag e : ends (virtio_9p_send_error (D := D) (F := F) q i tag e).
Proof. unfold virtio_9p_send_error. esteps. Qed.
Hint Resolve ends_9p_error : ends.
Lemma ends_open_reply qid err oi : ends (virtio_9p_open_reply (D := D) (F := F) qid err oi).
Proof. unfold virtio_9p_open_reply. esteps. Qed.
Hint Resolve ends_open_reply : ends.

Lemma ends_handle q i tag o id : ends (p9_handle (D := D) (F := F) q i tag o id).
Proof.
  unfold p9_handle. repeat match goal with |- ends (if ?b then _ else _) => destruct b end;
    unfold p9_statfs, p9_lopen, p9_lcreate, p9_symlink, p9_mknod, p9_readlink, p9_getattr, p9_setattr, p9_xattrwalk, p9_readdir, p9_fsync, p9_lock, p9_getlock, p9_link,
      p9_mkdir, p9_renameat, p9_unlinkat, p9_version, p9_attach, p9_flush, p9_walk, p9_read, p9_write, p9_clunk, p9_read_with,
      args, with_fid, answer, unless_err, unless_neg, bad_args, protocol_error; esteps.
Qed.
Hint Resolve ends_handle : ends.

#[export] Instance p9_class_ends : VirtioClassEnds (p9_class (D := D) (F := F)).
Proof. split; [|no_config]. intros q i r w. cbn [device_recv p9_class]. unfold virtio_9p_recv_request, send_outcome. esteps. Qed.
End P9.

(** ** The register window *)

Section Window.
Context {H : VirtioHost} {K : Type} {C : VirtioClass K} {CE : VirtioClassEnds C}.
Implicit Types s : VS K.

Lemma run_on_dev {A} f (k : unit -> SM (VS K) A) s : (on_dev f ≫= k) s = k tt (s <| dev := f (dev s) |>).
Proof. reflexivity. Qed.
Lemma run_set_irq {A} b (k : unit -> SM (VS K) A) s : (set_irq b ≫= k) s = k tt (s <| calls := calls s ++ [SetIrq b] |>).
Proof. reflexivity. Qed.
Lemma over_sel_queue f s : hostmem_wf (vmem s) -> over (on_sel_queue f s).
Proof.
  intros Hs. unfold on_sel_queue, on_queue. rewrite run_gets, run_bind. unfold get_queue.
  destruct (_ !! _); [destruct (_ <=? _)|]; (discriminate || exact Hs).
Qed.
Lemma over_put_config o data s : hostmem_wf (vmem s) -> over (put_config config_write o data s).
Proof.
  intros Hs. apply ends_over; [|exact Hs]. unfold put_config.
  destruct config_write as [f|] eqn:E; [pose proof (config_ends f E)|]; esteps.
Qed.

(** Every write to the register window returns or stops the program, or follows a chain without end. *)
Lemma mmio_write_over o v l s : vdev_wf (dev s) -> hostmem_wf (vmem s) -> over (virtio_mmio_write device_recv config_write o v l s).
Proof.
  intros Hw Hs. unfold virtio_mmio_write, virtio_config_write, write_status.
  repeat match goal with
  | |- over ((if ?b then _ else _) _) => destruct b
  | |- over ((gets _ ≫= _) _) => rewrite run_gets
  | |- over ((on_dev _ ≫= _) _) => rewrite run_on_dev
  | |- over ((set_irq _ ≫= _) _) => rewrite run_set_irq
  end; try exact Hs; first [apply over_sel_queue, Hs | apply over_put_config, Hs | apply queue_notify_over; [apply recv_ends|exact Hw|exact Hs]].
Qed.

(** A read of the window changes nothing. *)
Lemma mmio_read_quiet o l s v s' : virtio_mmio_read o l s = Done (v, s') -> s' = s.
Proof.
  unfold virtio_mmio_read, virtio_config_read, config_bytes, sel_queue. intros E.
  repeat (match type of E with
  | (gets _ ≫= _) _ = _ => rewrite run_gets in E
  | (if ?b then _ else _) _ = _ => destruct b
  | (_ ≫= _) _ = _ => let x := fresh in let t := fresh in let E1 := fresh in let E2 := fresh in
      apply SM_bind_inv in E as (x & t & E1 & E2); assert (t = s) as -> by
        (first [ unfold get_queue in E1; rewrite ?run_gets in E1; destruct (_ !! _) in E1; [destruct (_ <=? _) in E1|]; (discriminate || (injection E1; auto))
               | rewrite run_gets in E1; unfold liftr in E1; destruct (buf_get _ _ _) in E1; [injection E1; auto|discriminate] ]);
      rename E2 into E; clear E1
  end); try discriminate; injection E; auto.
Qed.

Lemma mmio_read_settled o l s : vdev_wf (dev s) -> 0 <= o ->
  match virtio_mmio_read o l s with Done (v, s') => s' = s /\ in_u 32 v | Stop r => host_stop r end.
Proof.
  intros Hw Ho. destruct (Z.le_gt_cases 0 l) as [H0|H0], (Z.le_gt_cases l 2) as [H2|H2];
    [destruct (mmio_read_total o l s Hw Ho (conj H0 H2)) as (v & -> & Hv); auto|..];
    unfold virtio_mmio_read, virtio_config_read; rewrite run_gets, ?run_gets;
    (destruct (_ <=? o); [rewrite run_gets|]; destruct (Z.eqb_spec l 2), (Z.eqb_spec l 0), (Z.eqb_spec l 1); try lia; first [exact I | split; [reflexivity|easy]]).
Qed.
End Window.
