(* ===== verification/VirtioSlot.v ===== *)
(** * Virtio: the devices of a machine

    A device on the bus is its register file together with the state and the
    callbacks of its class, whatever the class is: the [VIRTIODevice] of the
    program with its function pointers. *)

From S2P Require Import Prelude Cutils Iomem Hostmem Bytes Virtio VirtioDevs P9 VirtioRegs VirtioEnds.
From stdpp Require Import base list gmap.
From Stdlib Require Import ZArith Lia Bool.
Local Open Scope Z_scope.
Local Open Scope bits_scope.

Record VirtioSlot := mkVirtioSlot {
  sl_kind : Type;
  sl_class : forall H : VirtioHost, VirtioClass sl_kind;
  sl_dev : VIRTIODevice;
  sl_state : sl_kind }.

Record slot_ok (v : VirtioSlot) : Prop := {
  sl_wf : vdev_wf (sl_dev v);
  sl_laws : forall H : VirtioHost, VirtioClassLaws (sl_class v H);
  sl_ends : forall H : VirtioHost, VirtioClassEnds (sl_class v H) }.

(** The devices as their constructors leave them. *)
Definition block_slot (bf : BlockDeviceFile) : VirtioSlot :=
  mkVirtioSlot _ (fun H => block_class) (fst (virtio_block_init bf)) (snd (virtio_block_init bf)).
Definition net_slot (mac : list Z) : VirtioSlot :=
  mkVirtioSlot _ (fun H => net_class) (fst (virtio_net_init mac)) (snd (virtio_net_init mac)).
Definition console_slot : VirtioSlot := mkVirtioSlot _ (fun H => console_class) (fst virtio_console_init) (snd virtio_console_init).
Definition input_slot (t : VirtioInputTypeEnum) : VirtioSlot :=
  mkVirtioSlot _ (fun H => input_class) (fst (virtio_input_init t)) (snd (virtio_input_init t)).
Definition p9_slot {D F : Type} {FS : FSDevice D F} (fs : D) (mount_tag : list Z) : res VirtioSlot :=
  '(d, k) ← virtio_9p_init (F := F) fs mount_tag; Done (mkVirtioSlot _ (fun H => p9_class) d k).

Lemma block_slot_ok bf : slot_ok (block_slot bf).
Proof. split; [exact (proj1 (block_started bf ∅))|intros; exact block_class_laws|intros; exact block_class_ends]. Qed.
Lemma net_slot_ok mac : is_bytes mac -> zlen mac = 6 -> slot_ok (net_slot mac).
Proof. intros Hb Hl. split; [exact (proj1 (net_started mac ∅ Hb Hl))|intros; exact net_class_laws|intros; exact net_class_ends]. Qed.
Lemma console_slot_ok : slot_ok console_slot.
Proof. split; [exact (proj1 (console_started ∅))|intros; exact console_class_laws|intros; exact console_class_ends]. Qed.
Lemma input_slot_ok t : slot_ok (input_slot t).
Proof. split; [exact (proj1 (input_started t ∅))|intros; exact input_class_laws|intros; exact input_class_ends]. Qed.
Lemma p9_slot_ok {D F : Type} {FS : FSDevice D F} (fs : D) tag v : is_bytes tag -> 2 <= zlen tag -> p9_slot (F := F) fs tag = Done v -> slot_ok v.
Proof.
  intros Hb Hl E. unfold p9_slot in E. destruct (virtio_9p_init fs tag) as [[d k]|] eqn:Ei; [|discriminate]. injection E as <-.
  split; [exact (proj1 (p9_started fs tag d k ∅ Hb Hl Ei))|intros; exact p9_class_laws|intros; exact p9_class_ends].
Qed.

Lemma p9_slot_made {D F : Type} {FS : FSDevice D F} (fs : D) tag : zlen tag <= 254 -> exists v, p9_slot (F := F) fs tag = Done v.
Proof.
  intros Hl. unfold p9_slot, virtio_9p_init. rewrite p9_vdev_config. pose proof (zlen_nonneg tag).
  destruct (buf_put (replicate 256 0) 0 [u8 (zlen tag); u8 (zlen tag >>' 8)]) as [c|] eqn:E1; [|discriminate]. cbn [mbind res_bind].
  assert (zlen c = 256) as Hc by (unfold zlen; rewrite (buf_put_length _ _ _ _ E1); reflexivity).
  rewrite buf_put_run by lia. eexists. reflexivity.
Qed.

(** An access to the register window of a slot, as the machine sees it: the result, the device afterwards, memory, and the
    calls the device has made. *)
Definition slot_run {A} (v : VirtioSlot) (m : hostmem) (f : SM (VS (sl_kind v)) A) : res (A * VirtioSlot * hostmem * list HostCall) :=
  match f (mkVS (sl_dev v) m (sl_state v) []) with
  | Done (a, s) => Done (a, mkVirtioSlot (sl_kind v) (sl_class v) (dev s) (kind s), vmem s, calls s)
  | Stop r => Stop r
  end.
Definition slot_read (v : VirtioSlot) (m : hostmem) (offset size_log2 : Z) : res (Z * VirtioSlot * hostmem * list HostCall) :=
  slot_run v m (virtio_mmio_read offset size_log2).
Definition slot_write (H : VirtioHost) (v : VirtioSlot) (m : hostmem) (offset val size_log2 : Z) : res (unit * VirtioSlot * hostmem * list HostCall) :=
  slot_run v m (virtio_mmio_write (device_recv (VirtioClass := sl_class v H)) (config_write (VirtioClass := sl_class v H)) offset val size_log2).

Lemma slot_read_quiet v m o l x v' m' c : slot_read v m o l = Done (x, v', m', c) -> v' = v /\ m' = m /\ c = [].
Proof.
  unfold slot_read, slot_run. destruct (virtio_mmio_read _ _ _) as [[y s']|] eqn:E; [|discriminate]. apply mmio_read_quiet in E as ->.
  intros [= _ <- <- <-]. split; [destruct v; reflexivity|]. split; reflexivity.
Qed.

Section Slot.
Context (H : VirtioHost) (v : VirtioSlot) (Hv : slot_ok v).

Lemma slot_read_ok m offset size_log2 : 0 <= offset ->
  match slot_read v m offset size_log2 with
  | Done (x, v', m', l) => in_u 32 x /\ v' = v /\ m' = m /\ l = []
  | Stop r => host_stop r
  end.
Proof.
  intros Ho. unfold slot_read, slot_run. pose proof (mmio_read_settled offset size_log2 (mkVS (sl_dev v) m (sl_state v) []) (sl_wf _ Hv) Ho) as K.
  destruct (virtio_mmio_read _ _ _) as [[x s']|]; [|exact K]. destruct K as [-> Hx]. split; [exact Hx|]. split; [destruct v; reflexivity|]. split; reflexivity.
Qed.

Lemma slot_write_ok m offset val size_log2 : hostmem_wf m -> in_u 32 val ->
  match slot_write H v m offset val size_log2 with
  | Done (_, v', m', _) => slot_ok v' /\ hostmem_wf m'
  | Stop r => r <> OutOfFuel
  end.
Proof.
  intros Hm Hx. destruct Hv as [Hw Hl He]. pose proof (Hl H) as L. pose proof (He H) as CE. unfold slot_write, slot_run.
  set (s := mkVS (sl_dev v) m (sl_state v) []).
  pose proof (mmio_write_over (C := sl_class v H) offset val size_log2 s Hw Hm) as Hover.
  pose proof (fun u s' E => safe_mmio_write (C := sl_class v H) offset val size_log2 Hx s u s' E (negb (int_status (sl_dev v) =? 0))) as Hsafe.
  destruct (virtio_mmio_write _ _ _ _ _ s) as [[u s']|]; [|exact Hover]. split; [|exact Hover].
  constructor; [|exact Hl|exact He]. apply (Hsafe u s' eq_refl). split; [exact Hw|reflexivity].
Qed.
End Slot.
