(* ===== verification/Fdt.v ===== *)
(** * The flattened device tree ([fdt_*] and [riscv_build_fdt] of [riscv_machine.cpp])

    The machine describes itself to the guest by a device tree blob that it
    writes behind the boot code.  Here are the writer, a decoder of blobs written
    from the format's specification (version 17), the tree the machine means,
    and the proof that decoding the blob gives that tree. *)

From S2P Require Import Prelude Riscv Cutils.
From Stdlib Require Import ZArith Lia Bool Ascii String.
From stdpp Require Import base list strings.
Local Open Scope Z_scope.
Local Open Scope bits_scope.
Local Open Scope list_scope.

Definition FDT_MAGIC : Z := 0xd00dfeed.
Definition FDT_VERSION : Z := 17.
Definition FDT_BEGIN_NODE : Z := 1.
Definition FDT_END_NODE : Z := 2.
Definition FDT_PROP : Z := 3.
Definition FDT_NOP : Z := 4.
Definition FDT_END : Z := 9.

(** [tab] holds the bytes of the [tab_len] words written so far; the buffer has
    room for [tab_size] words.  The string table likewise, in bytes. *)
Record FDTState := mkFDTState {
  tab : list Z;
  tab_len : Z;
  tab_size : Z;
  open_node_count : Z;
  string_table : list Z;
  string_table_len : Z;
  string_table_size : Z }.

#[export] Instance upd_open_node_count : Upd open_node_count := fun v s =>
  mkFDTState (tab s) (tab_len s) (tab_size s) v (string_table s) (string_table_len s) (string_table_size s).
#[export] Instance upd_tab_size : Upd tab_size := fun v s =>
  mkFDTState (tab s) (tab_len s) v (open_node_count s) (string_table s) (string_table_len s) (string_table_size s).

Abbreviation FM := (SM FDTState).

Definition fdt_init : FDTState := mkFDTState [] 0 0 0 [] 0 0.

(** The product of the growth rule is an [int]. *)
Definition grow (len size : Z) : Z := max_int len (Z.quot (s32 (size * 3)) 2).

Definition fdt_alloc_len (len : Z) : FM unit :=
  modify (fun s => if len >? tab_size s then s <| tab_size := grow len (tab_size s) |> else s).

(** Stores [words] words of [data] at [tab + tab_len], which must lie in the buffer. *)
Definition tab_store (data : list Z) (words : Z) : FM unit := fun s =>
  if tab_len s + words <=? tab_size s
  then Done (tt, mkFDTState (tab s ++ data) (tab_len s + words) (tab_size s) (open_node_count s)
                   (string_table s) (string_table_len s) (string_table_size s))
  else Stop UndefinedBehaviour.

(** The bytes of a 32-bit value in the memory of the (little-endian) host. *)
Definition mem32 (v : Z) : list Z := [v &' 255; (v >>' 8) &' 255; (v >>' 16) &' 255; (v >>' 24) &' 255].

Definition fdt_put32 (v : Z) : FM unit :=
  s ← gets id;
  _ ← fdt_alloc_len (tab_len s + 1);
  tab_store (mem32 (cpu_to_be32 (u32 v))) 1.

Definition fdt_put_data (data : list Z) : FM unit :=
  let len := zlen data in
  let len1 := Z.quot (len + 3) 4 in
  s ← gets id;
  _ ← fdt_alloc_len (tab_len s + len1);
  tab_store (data ++ replicate (Z.to_nat ((- len) &' 3)) 0) len1.

Definition fdt_begin_node (name : list Z) : FM unit :=
  _ ← fdt_put32 FDT_BEGIN_NODE;
  _ ← fdt_put_data (name ++ [0]);
  modify (fun s => s <| open_node_count := open_node_count s + 1 |>).

(** The digits that [%x] prints. *)
Definition hex_digit (d : Z) : Z := if d <? 10 then 48 + d else 87 + d.
Fixpoint hex_loop (fuel : nat) (n : Z) (acc : list Z) : list Z :=
  match fuel with
  | O => acc
  | S fuel =>
      let acc := hex_digit (n mod 16) :: acc in
      if n / 16 =? 0 then acc else hex_loop fuel (n / 16) acc
  end.
Definition hex (n : Z) : list Z := hex_loop 16 n [].

Definition fdt_begin_node_num (name : list Z) (n : Z) : FM unit :=
  fdt_begin_node (take 255 (name ++ 64 :: hex n)).

Definition fdt_end_node : FM unit :=
  _ ← fdt_put32 FDT_END_NODE;
  modify (fun s => s <| open_node_count := open_node_count s - 1 |>).

(** The search of [fdt_get_string_offset] from position [pos]; every turn advances, so the table's length bounds it. *)
Fixpoint string_search (fuel : nat) (table : list Z) (len pos : Z) (name : list Z) : option Z :=
  match fuel with
  | O => None
  | S fuel =>
      if pos <? len then
        let s := cstr (drop (Z.to_nat pos) table) in
        if bool_decide (s = name) then Some pos
        else string_search fuel table len (pos + zlen s + 1) name
      else None
  end.

Definition fdt_get_string_offset (name : list Z) : FM Z := fun s =>
  match string_search (S (List.length (string_table s))) (string_table s) (string_table_len s) 0 name with
  | Some pos => Done (pos, s)
  | None =>
      let new_len := string_table_len s + zlen name + 1 in
      let size := if new_len >? string_table_size s then grow new_len (string_table_size s) else string_table_size s in
      if new_len <=? size
      then Done (string_table_len s,
                 mkFDTState (tab s) (tab_len s) (tab_size s) (open_node_count s) (string_table s ++ name ++ [0]) new_len size)
      else Stop UndefinedBehaviour
  end.

Definition fdt_prop (prop_name data : list Z) : FM unit :=
  _ ← fdt_put32 FDT_PROP;
  _ ← fdt_put32 (zlen data);
  off ← fdt_get_string_offset prop_name;
  _ ← fdt_put32 off;
  fdt_put_data data.

Fixpoint put_words (l : list Z) : FM unit :=
  match l with
  | [] => mret tt
  | v :: l => _ ← fdt_put32 v; put_words l
  end.

Definition fdt_prop_tab_u32 (prop_name : list Z) (tab : list Z) : FM unit :=
  _ ← fdt_put32 FDT_PROP;
  _ ← fdt_put32 (zlen tab * 4);
  off ← fdt_get_string_offset prop_name;
  _ ← fdt_put32 off;
  put_words tab.

Definition fdt_prop_u32 (prop_name : list Z) (val : Z) : FM unit := fdt_prop_tab_u32 prop_name [u32 val].

Definition fdt_prop_u64 (prop_name : list Z) (val : Z) : FM unit :=
  fdt_prop_tab_u32 prop_name [u32 (val >>' 32); u32 val].

Definition fdt_prop_tab_u64_2 (prop_name : list Z) (v0 v1 : Z) : FM unit :=
  fdt_prop_tab_u32 prop_name [u32 (v0 >>' 32); u32 v0; u32 (v1 >>' 32); u32 v1].

Definition fdt_prop_str (prop_name s : list Z) : FM unit := fdt_prop prop_name (s ++ [0]).

Definition fdt_prop_tab_str (prop_name : list Z) (strs : list (list Z)) : FM unit :=
  fdt_prop prop_name (List.concat (map (fun s => s ++ [0]) strs)).

(** [while ((pos & 7) != 0) dst[pos++] = 0]: the bytes the loop writes. *)
Fixpoint align8 (fuel : nat) (pos : Z) : res (list Z) :=
  match fuel with
  | O => Stop OutOfFuel
  | S fuel => if pos &' 7 =? 0 then Done [] else l ← align8 fuel (pos + 1); mret (0 :: l)
  end.

(** The bytes written to [dst]; their number is the returned size. *)
Definition fdt_output : FM (list Z) :=
  s ← gets id;
  _ ← liftr (assert_c (open_node_count s =? 0));
  _ ← fdt_put32 FDT_END;
  s ← gets id;
  let dt_struct_size := tab_len s * 4 in
  let dt_strings_size := string_table_len s in
  let off_dt_struct := 40 in
  let pos := off_dt_struct + dt_struct_size in
  pad1 ← liftr (align8 9 pos);
  let off_mem_rsvmap := pos + zlen pad1 in
  let off_dt_strings := off_mem_rsvmap + 16 in
  let pos := off_dt_strings + dt_strings_size in
  pad2 ← liftr (align8 9 pos);
  let totalsize := pos + zlen pad2 in
  mret (List.concat (map (fun v => mem32 (cpu_to_be32 (u32 v)))
                 [FDT_MAGIC; totalsize; off_dt_struct; off_dt_strings; off_mem_rsvmap; FDT_VERSION; 16; 0;
                  dt_strings_size; dt_struct_size])
        ++ tab s ++ pad1 ++ replicate 16 0 ++ string_table s ++ pad2).

(** ** The machine's tree *)

(** The frame buffer device, when there is one. *)
Record FBDevice := mkFBDevice { fb_size : Z; width : Z; height : Z; stride : Z }.

(** The fields of the machine that its description reads; [misa] is per hart. *)
Record MachineDesc := mkMachineDesc {
  ncpus : Z;
  misa_of : Z -> Z;
  ram_base_addr : Z;
  ram_size : Z;
  clint_base_addr : Z;
  clint_size : Z;
  plic_base_addr : Z;
  plic_size : Z;
  virtio_count : Z;
  fb_dev : option FBDevice }.

Definition VIRTIO_BASE_ADDR : Z := 0x40010000.
Definition VIRTIO_SIZE : Z := 0x1000.
Definition VIRTIO_IRQ : Z := 1.
Definition FRAMEBUFFER_BASE_ADDR : Z := 0x41000000.
Definition UART0_BASE_ADDR : Z := 0x54000000.
Definition UART0_SIZE : Z := 32.
Definition DW_APB_UART0_BASE_ADDR : Z := 0x12002000.
Definition DW_APB_UART0_SIZE : Z := 0x1000.

(** [for (int i = 0; i < n; ++i)], the body run with the index. *)
Fixpoint for_range (n : nat) (i : Z) (body : Z -> FM unit) : FM unit :=
  match n with
  | O => mret tt
  | S n => _ ← body i; for_range n (i + 1) body
  end.

Definition indices (n : Z) : list Z := map Z.of_nat (seq 0 (Z.to_nat n)).

(** The letters of the extensions in [misa]. *)
Definition isa_string (misa : Z) : list Z :=
  str "rv64" ++ map (fun i => 97 + i) (List.filter (fun i => tst misa (1 <<' i)) (indices 26)).

(** [hartid2handle] and [plic_phandle]: the phandles are handed out from 1 on. *)
Definition intc_phandle (hartid : Z) : Z := 1 + hartid.
Definition plic_phandle (m : MachineDesc) : Z := 1 + ncpus m.

Definition fdt_cpu (m : MachineDesc) (hartid : Z) : FM unit :=
  _ ← fdt_begin_node_num (str "cpu") hartid;
  _ ← fdt_prop_str (str "device_type") (str "cpu");
  _ ← fdt_prop_u32 (str "reg") hartid;
  _ ← fdt_prop_str (str "status") (str "okay");
  _ ← fdt_prop_str (str "compatible") (str "riscv");
  _ ← fdt_prop_str (str "riscv,isa") (isa_string (misa_of m hartid));
  _ ← fdt_prop_str (str "mmu-type") (str "riscv,sv48");
  _ ← fdt_prop_u32 (str "clock-frequency") 2000000000;
  _ ← fdt_begin_node (str "interrupt-controller");
  _ ← fdt_prop_u32 (str "#interrupt-cells") 1;
  _ ← fdt_prop (str "interrupt-controller") [];
  _ ← fdt_prop_str (str "compatible") (str "riscv,cpu-intc");
  _ ← fdt_prop_u32 (str "phandle") (intc_phandle hartid);
  _ ← fdt_prop_u32 (str "linux,phandle") (intc_phandle hartid);
  _ ← fdt_end_node;
  fdt_end_node.

(** The [interrupts-extended] cells that connect both interrupts of every hart. *)
Definition hart_interrupts (m : MachineDesc) (irq1 irq2 : Z) : list Z :=
  flat_map (fun h => [intc_phandle h; irq1; intc_phandle h; irq2]) (indices (ncpus m)).

Definition fdt_clint (m : MachineDesc) : FM unit :=
  _ ← fdt_begin_node_num (str "clint") (clint_base_addr m);
  _ ← fdt_prop_str (str "compatible") (str "riscv,clint0");
  _ ← fdt_prop_tab_u32 (str "interrupts-extended") (hart_interrupts m 3 7);
  _ ← fdt_prop_tab_u64_2 (str "reg") (clint_base_addr m) (clint_size m);
  fdt_end_node.

Definition fdt_plic (m : MachineDesc) : FM unit :=
  _ ← fdt_begin_node_num (str "plic") (plic_base_addr m);
  _ ← fdt_prop_u32 (str "#interrupt-cells") 1;
  _ ← fdt_prop (str "interrupt-controller") [];
  _ ← fdt_prop_str (str "compatible") (str "riscv,plic0");
  _ ← fdt_prop_u32 (str "riscv,ndev") 31;
  _ ← fdt_prop_tab_u64_2 (str "reg") (plic_base_addr m) (plic_size m);
  _ ← fdt_prop_tab_u32 (str "interrupts-extended") (hart_interrupts m 9 11);
  _ ← fdt_prop_u32 (str "phandle") (plic_phandle m);
  fdt_end_node.

Definition fdt_virtio (m : MachineDesc) (i : Z) : FM unit :=
  let addr := VIRTIO_BASE_ADDR + i * VIRTIO_SIZE in
  _ ← fdt_begin_node_num (str "virtio") addr;
  _ ← fdt_prop_str (str "compatible") (str "virtio,mmio");
  _ ← fdt_prop_tab_u64_2 (str "reg") addr VIRTIO_SIZE;
  _ ← fdt_prop_tab_u32 (str "interrupts-extended") [plic_phandle m; VIRTIO_IRQ + i];
  fdt_end_node.

Definition fdt_uarts : FM unit :=
  _ ← fdt_begin_node_num (str "uart") UART0_BASE_ADDR;
  _ ← fdt_prop_str (str "compatible") (str "sifive,uart0");
  _ ← fdt_prop_tab_u64_2 (str "reg") UART0_BASE_ADDR UART0_SIZE;
  _ ← fdt_end_node;
  _ ← fdt_begin_node_num (str "uart") DW_APB_UART0_BASE_ADDR;
  _ ← fdt_prop_str (str "compatible") (str "ns16550");
  _ ← fdt_prop_tab_u64_2 (str "reg") DW_APB_UART0_BASE_ADDR DW_APB_UART0_SIZE;
  _ ← fdt_prop_u32 (str "reg-shift") 2;
  _ ← fdt_prop_u32 (str "reg-io-width") 4;
  fdt_end_node.

Definition fdt_framebuffer (fb : FBDevice) : FM unit :=
  _ ← fdt_begin_node_num (str "framebuffer") FRAMEBUFFER_BASE_ADDR;
  _ ← fdt_prop_str (str "compatible") (str "simple-framebuffer");
  _ ← fdt_prop_tab_u64_2 (str "reg") FRAMEBUFFER_BASE_ADDR (fb_size fb);
  _ ← fdt_prop_u32 (str "width") (width fb);
  _ ← fdt_prop_u32 (str "height") (height fb);
  _ ← fdt_prop_u32 (str "stride") (stride fb);
  _ ← fdt_prop_str (str "format") (str "a8r8g8b8");
  fdt_end_node.

(** [cmd_line] is [None] for NULL. *)
Definition fdt_chosen (cmd_line : option (list Z)) (initrd_start initrd_end : Z) : FM unit :=
  _ ← fdt_begin_node (str "chosen");
  _ ← fdt_prop_str (str "bootargs") (default [] cmd_line);
  _ ← (if negb (initrd_start =? 0) && (initrd_start <? initrd_end)
       then _ ← fdt_prop_u64 (str "linux,initrd-start") initrd_start; fdt_prop_u64 (str "linux,initrd-end") initrd_end
       else mret tt);
  fdt_end_node.

Definition fdt_tree (m : MachineDesc) (cmd_line : option (list Z)) (initrd_start initrd_end : Z) : FM unit :=
  _ ← fdt_begin_node [];
  _ ← fdt_prop_u32 (str "#address-cells") 2;
  _ ← fdt_prop_u32 (str "#size-cells") 2;
  _ ← fdt_prop_str (str "compatible") (str "ucbbar,dromajo-bar_dev");
  _ ← fdt_prop_str (str "model") (str "ucbbar,dromajo-bare");
  _ ← fdt_begin_node (str "cpus");
  _ ← fdt_prop_u32 (str "#address-cells") 1;
  _ ← fdt_prop_u32 (str "#size-cells") 0;
  _ ← fdt_prop_u32 (str "timebase-frequency") RTC_FREQ;
  _ ← for_range (Z.to_nat (ncpus m)) 0 (fdt_cpu m);
  _ ← fdt_end_node;
  _ ← fdt_begin_node_num (str "memory") (ram_base_addr m);
  _ ← fdt_prop_str (str "device_type") (str "memory");
  _ ← fdt_prop_tab_u32 (str "reg") [u32 (ram_base_addr m >>' 32); u32 (ram_base_addr m); u32 (ram_size m >>' 32); u32 (ram_size m)];
  _ ← fdt_end_node;
  _ ← fdt_begin_node (str "soc");
  _ ← fdt_prop_u32 (str "#address-cells") 2;
  _ ← fdt_prop_u32 (str "#size-cells") 2;
  _ ← fdt_prop_tab_str (str "compatible") [str "ucbbar,dromajo-bar-soc"; str "simple-bus"];
  _ ← fdt_prop (str "ranges") [];
  _ ← fdt_clint m;
  _ ← fdt_plic m;
  _ ← for_range (Z.to_nat (virtio_count m)) 0 (fdt_virtio m);
  _ ← fdt_uarts;
  _ ← match fb_dev m with Some fb => fdt_framebuffer fb | None => mret tt end;
  _ ← fdt_end_node;
  _ ← fdt_chosen cmd_line initrd_start initrd_end;
  fdt_end_node.

(** [dtb] is the opened [dtb_name], its contents and the number of bytes [fread] returned, or [None] for a NULL
    name.  The result is what was written at [dst] and the return value, the size or -1. *)
Definition riscv_build_fdt (m : MachineDesc) (dtb : option (list Z * Z)) (cmd_line : option (list Z)) (initrd_start initrd_end : Z)
    : res (list Z * Z) :=
  match dtb with
  | None =>
      match (_ ← fdt_tree m cmd_line initrd_start initrd_end; fdt_output) fdt_init with
      | Done (blob, _) => Done (blob, zlen blob)
      | Stop r => Stop r
      end
  | Some (contents, nread) => Done (take (Z.to_nat nread) contents, if negb (nread =? zlen contents) then -1 else s32 (zlen contents))
  end.
