(* ===== verification/Machine.v ===== *)
(** * The machine around the harts ([riscv_machine.cpp]): CLINT, PLIC, serial ports

    [Board] is the device world of a [System]: the harts of the machine (the
    one that is executing is [cpu] of the system, its slot in [cpu_state] is
    not read), the PLIC registers, the serial ports and the virtio devices in
    the order of their slots.  The memory-mapped
    registers of the CLINT and the PLIC reach into every hart's state, so
    their operations run in the monad of the whole system, as do the register
    windows of the virtio devices, which reach guest memory. *)

From S2P Require Import Prelude Virtio VirtioSlot Riscv Cutils Iomem Hostmem Bytes CpuState CpuWf Csr Trap Mmu Tlb Alu Exec ExecWf Interp Uart.
From S2P Require Fdt.
From stdpp Require Import base list.
From Stdlib Require Import ZArith Lia Bool.
Local Open Scope Z_scope.
Local Open Scope bits_scope.

Record Board := mkBoard {
  hartid : Z;
  cpu_state : list RISCVCPUState;
  plic_pending_irq : Z;
  plic_served_irq : Z;
  plic_priority : list Z;
  uart : SiFiveUARTState;
  dw_apb_uart : DW_apb_uart_state;
  console : Console;
  virtio : list VirtioSlot }.

#[export] Instance upd_hartid : Upd hartid := fun v b =>
  mkBoard v (cpu_state b) (plic_pending_irq b) (plic_served_irq b) (plic_priority b) (uart b) (dw_apb_uart b) (console b) (virtio b).
#[export] Instance upd_cpu_state : Upd cpu_state := fun v b =>
  mkBoard (hartid b) v (plic_pending_irq b) (plic_served_irq b) (plic_priority b) (uart b) (dw_apb_uart b) (console b) (virtio b).
#[export] Instance upd_plic_pending : Upd plic_pending_irq := fun v b =>
  mkBoard (hartid b) (cpu_state b) v (plic_served_irq b) (plic_priority b) (uart b) (dw_apb_uart b) (console b) (virtio b).
#[export] Instance upd_plic_served : Upd plic_served_irq := fun v b =>
  mkBoard (hartid b) (cpu_state b) (plic_pending_irq b) v (plic_priority b) (uart b) (dw_apb_uart b) (console b) (virtio b).
#[export] Instance upd_plic_priority : Upd plic_priority := fun v b =>
  mkBoard (hartid b) (cpu_state b) (plic_pending_irq b) (plic_served_irq b) v (uart b) (dw_apb_uart b) (console b) (virtio b).
#[export] Instance upd_uart : Upd uart := fun v b =>
  mkBoard (hartid b) (cpu_state b) (plic_pending_irq b) (plic_served_irq b) (plic_priority b) v (dw_apb_uart b) (console b) (virtio b).
#[export] Instance upd_dw_apb_uart : Upd dw_apb_uart := fun v b =>
  mkBoard (hartid b) (cpu_state b) (plic_pending_irq b) (plic_served_irq b) (plic_priority b) (uart b) v (console b) (virtio b).
#[export] Instance upd_console : Upd console := fun v b =>
  mkBoard (hartid b) (cpu_state b) (plic_pending_irq b) (plic_served_irq b) (plic_priority b) (uart b) (dw_apb_uart b) v (virtio b).
#[export] Instance upd_virtio : Upd virtio := fun v b =>
  mkBoard (hartid b) (cpu_state b) (plic_pending_irq b) (plic_served_irq b) (plic_priority b) (uart b) (dw_apb_uart b) (console b) v.

Abbreviation MM := (SM (System Board)).

Definition ncpus (s : System Board) : Z := Z.of_nat (length (cpu_state (devs s))).

(** ** The harts *)

(** [m->cpu_state[i]]; a slot without a hart is a NULL pointer. *)
Definition get_hart (i : Z) : MM RISCVCPUState := fun s =>
  if (0 <=? i) && (i <? ncpus s) then
    Done (if i =? hartid (devs s) then cpu s else nth (Z.to_nat i) (cpu_state (devs s)) zero_cpu, s)
  else Stop UndefinedBehaviour.

Definition put_hart (i : Z) (c : RISCVCPUState) (s : System Board) : System Board :=
  if i =? hartid (devs s) then s <| cpu := c |>
  else s <| devs := (devs s) <| cpu_state := <[Z.to_nat i := c]> (cpu_state (devs s)) |> |>.

Definition on_hart (i : Z) (f : RISCVCPUState -> RISCVCPUState) : MM unit :=
  c ← get_hart i; modify (put_hart i (f c)).

Definition set_mip (i mask : Z) : MM unit :=
  s ← gets id; on_hart i (riscv_cpu_set_mip (common s) mask).
Definition reset_mip (i mask : Z) : MM unit := on_hart i (riscv_cpu_reset_mip mask).

Definition on_board (f : Board -> Board) : MM unit := modify (fun s => s <| devs := f (devs s) |>).

(** ** CLINT *)

Definition rtc_get_time : MM Z := c ← get_hart 0; mret (mcycle c / RTC_FREQ_DIV).

Definition clint_mask (size_log2 val : Z) : Z :=
  if size_log2 =? 1 then val &' 0xffff else if size_log2 =? 2 then val &' 0xffffffff else val.

Definition clint_read (offset size_log2 : Z) : MM Z :=
  s ← gets id;
  val ← (if (0 <=? offset) && (offset <? 0x4000) then
           let h := offset >>' 2 in
           if ncpus s <=? h then mret 0
           else c ← get_hart h; mret (b2z (tst (riscv_cpu_get_mip c) MIP_MSIP))
         else if offset =? 0xbff8 then c ← get_hart 0; mret (u32 (mcycle c / RTC_FREQ_DIV))
         else if offset =? 0xbffc then c ← get_hart 0; mret (u32 ((mcycle c / RTC_FREQ_DIV) >>' 32))
         else if (0x4000 <=? offset) && (offset <? 0xbff8) then
           let h := (offset - 0x4000) >>' 3 in
           if ncpus s <=? h then mret 0
           else
             c ← get_hart h;
             mret (if negb ((offset >>' 2) &' 1 =? 0) then u32 (timecmp c >>' 32) else u32 (timecmp c))
         else mret 0);
  mret (clint_mask size_log2 val).

Definition clint_write (offset val size_log2 : Z) : MM unit :=
  let val := clint_mask size_log2 val in
  s ← gets id;
  if (0 <=? offset) && (offset <? 0x4000) then
    let h := offset >>' 2 in
    if ncpus s <=? h then mret tt
    else if tst val 1 then set_mip h MIP_MSIP else reset_mip h MIP_MSIP
  else if offset =? 0xbff8 then
    c ← get_hart 0;
    let mtime := mcycle c / RTC_FREQ_DIV in
    let mtime := u64 ((mtime &' 0xFFFFFFFF00000000) + val) in
    on_hart 0 (fun c => c <| mcycle := u64 (mtime * RTC_FREQ_DIV) |>)
  else if offset =? 0xbffc then
    c ← get_hart 0;
    let mtime := mcycle c / RTC_FREQ_DIV in
    let mtime := u64 ((mtime &' 0x00000000FFFFFFFF) + (val <<' 32)) in
    on_hart 0 (fun c => c <| mcycle := u64 (mtime * RTC_FREQ_DIV) |>)
  else if (0x4000 <=? offset) && (offset <? 0xbff8) then
    let h := (offset - 0x4000) >>' 3 in
    if ncpus s <=? h then mret tt
    else if negb ((offset >>' 2) &' 1 =? 0) then
      _ ← on_hart h (fun c => c <| timecmp := (timecmp c &' 0xffffffff) |' (val <<' 32) |>);
      reset_mip h MIP_MTIP
    else
      _ ← on_hart h (fun c => c <| timecmp := (timecmp c &' not32 0xffffffff) |' val |>);
      reset_mip h MIP_MTIP
  else mret tt.

(** ** PLIC *)

Definition plic_update_mip (h : Z) : MM unit :=
  s ← gets id;
  let mask := plic_pending_irq (devs s) &' not32 (plic_served_irq (devs s)) in
  if negb (mask =? 0) then set_mip h (MIP_MEIP |' MIP_SEIP) else reset_mip h (MIP_MEIP |' MIP_SEIP).

(** [plic_priority[i]], an array of [PLIC_NUM_SOURCES + 1]. *)
Definition plic_read (offset size_log2 : Z) : MM Z :=
  s ← gets id;
  _ ← liftr (assert_c (size_log2 =? 2));
  if (PLIC_PRIORITY_BASE <=? offset) && (offset <? PLIC_PRIORITY_BASE + (PLIC_NUM_SOURCES <<' 2)) then
    let irq := ((offset - PLIC_PRIORITY_BASE) >>' 2) + 1 in
    _ ← liftr (assert_c (irq <? PLIC_NUM_SOURCES));
    mret (aget (plic_priority (devs s)) irq)
  else if (PLIC_PENDING_BASE <=? offset) && (offset <? PLIC_PENDING_BASE + (PLIC_NUM_SOURCES >>' 3)) then
    mret (if offset =? PLIC_PENDING_BASE then plic_pending_irq (devs s) else 0)
  else if (PLIC_ENABLE_BASE <=? offset) && (offset <? PLIC_ENABLE_BASE + PLIC_ENABLE_STRIDE * MAX_CPUS) then
    let addrid := (offset - PLIC_ENABLE_BASE) / PLIC_ENABLE_STRIDE in
    let h := addrid / 2 in
    if h <=? ncpus s then c ← get_hart h; mret (plic_enable_irq c) else mret 0
  else if (PLIC_CONTEXT_BASE <=? offset) && (offset <? PLIC_CONTEXT_BASE + PLIC_CONTEXT_STRIDE * MAX_CPUS) then
    let h := (offset - PLIC_CONTEXT_BASE) / PLIC_CONTEXT_STRIDE in
    let wordid := (offset &' (PLIC_CONTEXT_STRIDE - 1)) >>' 2 in
    if wordid =? 0 then mret 0
    else if wordid =? 4 then
      let mask := plic_pending_irq (devs s) &' not32 (plic_served_irq (devs s)) in
      if negb (mask =? 0) then
        let i := ctz32 mask in
        _ ← on_board (fun b => b <| plic_served_irq := plic_served_irq b |' u32 (1 <<' i) |>);
        _ ← plic_update_mip h;
        mret (i + 1)
      else mret 0
    else mret 0
  else mret 0.

(** [1 << (irq - 1)]: an [int] shift, undefined for [irq = 0]. *)
Definition irq_mask (irq : Z) : MM Z :=
  if 1 <=? irq then mret (u32 (1 <<' (irq - 1))) else stop UndefinedBehaviour.

Definition plic_write (offset val size_log2 : Z) : MM unit :=
  s ← gets id;
  _ ← liftr (assert_c (size_log2 =? 2));
  if (PLIC_PRIORITY_BASE <=? offset) && (offset <? PLIC_PRIORITY_BASE + (PLIC_NUM_SOURCES <<' 2)) then
    let irq := ((offset - PLIC_PRIORITY_BASE) >>' 2) + 1 in
    _ ← liftr (assert_c (irq <? PLIC_NUM_SOURCES));
    on_board (fun b => b <| plic_priority := aset (plic_priority b) irq (val &' 7) |>)
  else if (PLIC_PENDING_BASE <=? offset) && (offset <? PLIC_PENDING_BASE + (PLIC_NUM_SOURCES >>' 3)) then mret tt
  else if (PLIC_ENABLE_BASE <=? offset) && (offset <? PLIC_ENABLE_BASE + PLIC_ENABLE_STRIDE * MAX_CPUS) then
    let addrid := (offset - PLIC_ENABLE_BASE) / PLIC_ENABLE_STRIDE in
    let h := addrid / 2 in
    if h <=? ncpus s then on_hart h (fun c => c <| plic_enable_irq := val |>) else mret tt
  else if (PLIC_CONTEXT_BASE <=? offset) && (offset <? PLIC_CONTEXT_BASE + PLIC_CONTEXT_STRIDE * MAX_CPUS) then
    let wordid := (offset &' (PLIC_CONTEXT_STRIDE - 1)) >>' 2 in
    if wordid =? 0 then on_board (fun b => b <| plic_priority := aset (plic_priority b) wordid val |>)
    else if wordid =? 4 then
      mask ← irq_mask (val &' 31);
      on_board (fun b => b <| plic_served_irq := plic_served_irq b &' not32 mask |>)
    else mret tt
  else mret tt.

(** [for (hartid = 0; hartid < ncpus; ++hartid) plic_update_mip(m, hartid)]. *)
Fixpoint plic_update_all (h : Z) (n : nat) : MM unit :=
  match n with
  | O => mret tt
  | S n => _ ← plic_update_mip h; plic_update_all (h + 1) n
  end.

Definition plic_set_irq (irq_num : Z) (state : bool) : MM unit :=
  mask ← irq_mask irq_num;
  _ ← on_board (fun b => b <| plic_pending_irq :=
        if state then plic_pending_irq b |' mask else plic_pending_irq b &' not32 mask |>);
  s ← gets id;
  plic_update_all 0 (length (cpu_state (devs s))).

(** ** The callbacks of the memory map *)

(** What the virtio devices find outside the machine: the content of uninitialised storage, and the turns that the model
    grants to a walk over a descriptor chain. *)
Class VirtioEnv := { uninit_byte : Z -> Z; chain_turns : nat }.

(** [set_irq] of the device in slot [slot]: [plic_irq[VIRTIO_IRQ + slot]]; [write_data] of the console; a packet leaves the machine. *)
Definition do_call (slot : Z) (c : HostCall) : MM unit :=
  match c with
  | SetIrq level => plic_set_irq (Fdt.VIRTIO_IRQ + slot) level
  | WriteConsole data => on_board (fun b => b <| console := (console b) <| con_out := con_out (console b) ++ map u8 data |> |>)
  | WritePacket _ => mret tt
  end.
Fixpoint do_calls (slot : Z) (l : list HostCall) : MM unit :=
  match l with [] => mret tt | c :: l => _ ← do_call slot c; do_calls slot l end.

Section Virtio.
Context `{VE : VirtioEnv}.

Definition board_host (m : PhysMemoryMap) : VirtioHost := {| ram_ptr := virtio_mmio_get_ram_ptr m; garbage := uninit_byte; turns := chain_turns |}.

(** An access to the device in slot [slot].  The device works on the machine's memory, then its calls are carried out in
    order: it does not look at the PLIC or the console, so the order of its own steps and of the calls between them does
    not matter. *)
Definition on_slot {A} (slot : Z) (f : VirtioHost -> VirtioSlot -> hostmem -> res (A * VirtioSlot * hostmem * list HostCall)) : MM A := fun s =>
  match virtio (devs s) !! Z.to_nat slot with
  | Some v =>
      match f (board_host (mem_map s)) v (hmem s) with
      | Done (a, v', m, l) =>
          (_ ← do_calls slot l; mret a)
            (s <| hmem := m |> <| devs := (devs s) <| virtio := <[Z.to_nat slot := v']> (virtio (devs s)) |> |>)
      | Stop r => Stop r
      end
  | None => Stop UndefinedBehaviour
  end.

Definition virtio_read (slot offset size_log2 : Z) : MM Z := on_slot slot (fun _ v m => slot_read v m offset size_log2).
Definition virtio_write (slot offset val size_log2 : Z) : MM unit := on_slot slot (fun H v m => slot_write H v m offset val size_log2).
End Virtio.

Definition on_uart {A} (m : SM (Port SiFiveUARTState) A) : MM A := fun s =>
  match m (uart (devs s), console (devs s)) with
  | Done (a, (u, c)) => Done (a, s <| devs := (devs s) <| uart := u |> <| console := c |> |>)
  | Stop r => Stop r
  end.
Definition on_dw {A} (m : SM (Port DW_apb_uart_state) A) : MM A := fun s =>
  match m (dw_apb_uart (devs s), console (devs s)) with
  | Done (a, (u, c)) => Done (a, s <| devs := (devs s) <| dw_apb_uart := u |> <| console := c |> |>)
  | Stop r => Stop r
  end.

Definition mmio_read (offset size_log2 : Z) : MM Z := mret 0.
Definition mmio_write (offset val size_log2 : Z) : MM unit := mret tt.

#[export] Instance board_ops `{VE : VirtioEnv} : DeviceOps Board := {|
  read_func d offset size_log2 := match d with
    | Dev_mmio => mmio_read offset size_log2
    | Dev_sifive_uart => on_uart (uart_read offset)
    | Dev_dw_apb_uart => on_dw (dw_apb_uart_read offset)
    | Dev_clint => clint_read offset size_log2
    | Dev_plic => plic_read offset size_log2
    | Dev_virtio slot => virtio_read slot offset size_log2
    end;
  write_func d offset val size_log2 := match d with
    | Dev_mmio => mmio_write offset val size_log2
    | Dev_sifive_uart => on_uart (uart_write offset val)
    | Dev_dw_apb_uart => on_dw (dw_apb_uart_write offset val)
    | Dev_clint => clint_write offset val size_log2
    | Dev_plic => plic_write offset val size_log2
    | Dev_virtio slot => virtio_write slot offset val size_log2
    end |}.

(** ** The board keeps the system invariant *)

Record board_wf (b : Board) : Prop := {
  bw_hartid : 0 <= hartid b < Z.of_nat (length (cpu_state b));
  bw_cpus : Forall cpu_wf (cpu_state b);
  bw_pending : in_u 32 (plic_pending_irq b);
  bw_served : in_u 32 (plic_served_irq b);
  bw_priority : length (plic_priority b) = 128%nat /\ Forall (in_u 32) (plic_priority b);
  bw_uart : uart_wf (uart b);
  bw_dw : dw_wf (dw_apb_uart b);
  bw_console : console_wf (console b);
  bw_virtio : Forall slot_ok (virtio b) }.

(** The invariant while hart [h] of [n] executes: the board is well formed, the machine-wide fields are [vm], and there are
    [nv] virtio devices; an access need not end if there are any. *)
Definition board_inv (vm : VirtMachine) (n nv : nat) (h : Z) : DevWf Board := {|
  dev_wf vm' b := vm' = vm /\ length (cpu_state b) = n /\ hartid b = h /\ length (virtio b) = nv /\ board_wf b;
  endless := (0 < nv)%nat |}.

Section BoardKeeps.
Context (vm : VirtMachine) (nh nv : nat) (hid : Z).
#[local] Instance board_dev_wf : DevWf Board := board_inv vm nh nv hid.

Lemma keeps_get_hart i : keeps (get_hart i) cpu_wf.
Proof.
  intros s Hs. pose proof Hs as (Hc & _ & _ & _ & _ & _ & Hb). unfold get_hart, ncpus. destruct (Z.leb_spec 0 i); [|left; exact I].
  destruct (Z.ltb_spec i (Z.of_nat (length (cpu_state (devs s))))); [|left; exact I]. cbn [andb]. split; [exact Hs|].
  destruct (i =? _); [exact Hc|]. pose proof (bw_cpus _ Hb) as Hf. rewrite Forall_nth in Hf. apply Hf. lia.
Qed.

Lemma keeps_put_hart i c : cpu_wf c -> keeps (modify (put_hart i c)) (fun _ => True).
Proof.
  intros Hc s (Hcs & Hm & Hvm & Hn & Hh & Hv & Hb). split; [|exact I]. unfold put_hart.
  destruct (i =? _); (split; [assumption|]; split; [exact Hm|]; split; [exact Hvm|]); [auto|].
  split; [cbn; rewrite length_insert; exact Hn|]. split; [exact Hh|]. split; [exact Hv|].
  destruct Hb. constructor; try assumption; cbn; rewrite ?length_insert; auto. apply Forall_insert; auto.
Qed.

Lemma keeps_on_hart i f : (forall c, cpu_wf c -> cpu_wf (f c)) -> keeps (on_hart i f) (fun _ => True).
Proof.
  intros Hf. unfold on_hart. eapply keeps_bind; [apply keeps_get_hart|]. intros c Hc. apply keeps_put_hart, Hf, Hc.
Qed.

Lemma keeps_set_mip i mask : in_u 32 mask -> keeps (set_mip i mask) (fun _ => True).
Proof.
  intros Hm. unfold set_mip. eapply keeps_bind; [apply keeps_sys|]. intros s _. apply keeps_on_hart. intros c Hc. apply wf_set_mip_bits; auto.
Qed.
Lemma keeps_reset_mip i mask : keeps (reset_mip i mask) (fun _ => True).
Proof. apply keeps_on_hart. intros c Hc. apply wf_reset_mip, Hc. Qed.

Definition board_step (f : Board -> Board) : Prop := forall b, board_wf b ->
  board_wf (f b) /\ length (cpu_state (f b)) = length (cpu_state b) /\ hartid (f b) = hartid b /\ length (virtio (f b)) = length (virtio b).

Lemma keeps_on_board f : board_step f -> keeps (on_board f) (fun _ => True).
Proof.
  intros Hf s (Hc & Hm & Hvm & Hn & Hh & Hv & Hb). destruct (Hf _ Hb) as (H1 & H2 & H3 & H4).
  split; [|exact I]. split; [exact Hc|]. split; [exact Hm|]. split; [exact Hvm|]. cbn. split; [congruence|]. split; [congruence|]. split; [congruence|exact H1].
Qed.

Lemma keeps_assert_c b : keeps (D := Board) (liftr (assert_c b)) (fun _ => True).
Proof. intros s Hs. destruct b; cbn; [auto|left; exact I]. Qed.

Lemma keeps_irq_mask irq : keeps (irq_mask irq) (in_u 32).
Proof. unfold irq_mask. destruct (1 <=? irq); [apply keeps_ret, in_u_u32|intros s _; left; exact I]. Qed.

Lemma mip_ext_u32 : in_u 32 (MIP_MEIP |' MIP_SEIP) /\ in_u 32 MIP_MSIP.
Proof. split; split; (discriminate || reflexivity). Qed.

Lemma keeps_plic_update h : keeps (plic_update_mip h) (fun _ => True).
Proof.
  unfold plic_update_mip. eapply keeps_bind; [apply keeps_sys|]. intros s _.
  destruct (negb _); [apply keeps_set_mip, mip_ext_u32|apply keeps_reset_mip].
Qed.

Lemma in_u_clint_mask l v : in_u 32 v -> in_u 32 (clint_mask l v).
Proof. intros Hv. unfold clint_mask. destruct (l =? 1), (l =? 2); auto; apply land_range; (lia || exact Hv). Qed.

Lemma keeps_clint_read o l : keeps (clint_read o l) (in_u 32).
Proof.
  unfold clint_read. eapply keeps_bind; [apply keeps_sys|]. intros s _.
  eapply (keeps_bind _ _ (in_u 32)); [|intros v Hv; apply keeps_ret, in_u_clint_mask, Hv].
  assert (in_u 32 0) as H0 by (split; [discriminate|reflexivity]).
  repeat match goal with |- keeps (if ?b then _ else _) _ => destruct b end; try (apply keeps_ret, H0);
    (eapply keeps_bind; [apply keeps_get_hart|]; intros c Hc; apply keeps_ret);
    first [apply in_u_u32 | apply b2z_in_u; lia | destruct (negb _); apply in_u_u32].
Qed.

Lemma keeps_clint_write o v l : in_u 32 v -> keeps (clint_write o v l) (fun _ => True).
Proof.
  intros Hv. unfold clint_write. cbv zeta. pose proof (in_u_clint_mask l v Hv) as Hv'. set (v' := clint_mask l v) in *. clearbody v'.
  eapply keeps_bind; [apply keeps_sys|]. intros s _.
  repeat match goal with |- keeps (if ?b then _ else _) _ => destruct b end; try (apply keeps_ret, I);
    try apply keeps_reset_mip; try (apply keeps_set_mip, mip_ext_u32);
    (eapply keeps_bind; [first [apply keeps_get_hart | apply keeps_on_hart] | intros ? ?]);
    try apply keeps_reset_mip; try apply keeps_on_hart; intros c Hc; try (apply wf_set_mcycle; [exact Hc|apply in_u_u64]);
    (apply wf_set_timecmp; [exact Hc|]); apply in_u_lor64.
  - apply in_u_land64_r. split; [discriminate|reflexivity].
  - rewrite Z.shiftl_mul_pow2 by lia. unfold in_u in *. lia.
  - apply in_u_land64_r. split; [discriminate|reflexivity].
  - apply in_u_32_64, Hv'.
Qed.

Lemma in_u_aget l i : Forall (in_u 32) l -> in_u 32 (aget l i).
Proof.
  intros Hl. unfold aget. destruct (Nat.lt_ge_cases (Z.to_nat i) (length l)) as [H|H].
  - rewrite Forall_nth in Hl. apply Hl, H.
  - rewrite nth_overflow by exact H. split; [discriminate|reflexivity].
Qed.

Lemma board_served b v : board_wf b -> in_u 32 v -> board_wf (b <| plic_served_irq := v |>).
Proof. intros [] Hv. constructor; auto. Qed.
Lemma board_pending b v : board_wf b -> in_u 32 v -> board_wf (b <| plic_pending_irq := v |>).
Proof. intros [] Hv. constructor; auto. Qed.
Lemma board_priority b i v : board_wf b -> in_u 32 v -> board_wf (b <| plic_priority := aset (plic_priority b) i v |>).
Proof.
  intros [H1 H2 H3 H4 [H5 H6] H7 H8 H9] Hv. constructor; auto. split; cbn; unfold aset; [rewrite length_insert; exact H5|].
  apply Forall_insert; auto.
Qed.

Lemma ctz32_range x : in_u 32 x -> 0 <= ctz32 x <= 32.
Proof.
  intros Hx. destruct (Z.eq_dec x 0) as [->|Hne]; [split; discriminate|]. destruct (ctz32_spec x Hx Hne). lia.
Qed.

Lemma keeps_plic_read o l : keeps (plic_read o l) (in_u 32).
Proof.
  unfold plic_read. eapply keeps_bind; [apply keeps_sys|]. intros s (_ & _ & _ & _ & _ & Hb).
  eapply keeps_bind; [apply keeps_assert_c|intros _ _]. cbv zeta.
  assert (in_u 32 0) as H0 by (split; [discriminate|reflexivity]).
  repeat match goal with |- keeps (if ?b then _ else _) _ => destruct b end; try (apply keeps_ret, H0).
  - eapply keeps_bind; [apply keeps_assert_c|intros _ _]. apply keeps_ret, in_u_aget, Hb.
  - apply keeps_ret. destruct (_ =? _); [apply Hb|exact H0].
  - eapply keeps_bind; [apply keeps_get_hart|]. intros c Hc. apply keeps_ret, Hc.
  - eapply keeps_bind; [apply keeps_on_board|intros _ _].
    { intros b Hb'. split; [|repeat split]. apply board_served; [exact Hb'|]. apply lor_range; [lia|apply Hb'|apply in_u_u32]. }
    eapply keeps_bind; [apply keeps_plic_update|intros _ _]. apply keeps_ret.
    pose proof (ctz32_range (plic_pending_irq (devs s) &' not32 (plic_served_irq (devs s)))). unfold in_u in *.
    assert (in_u 32 (plic_pending_irq (devs s) &' not32 (plic_served_irq (devs s)))) by (apply land_range; [lia|apply Hb]). unfold in_u in *. lia.
Qed.

Lemma keeps_plic_write o v l : in_u 32 v -> keeps (plic_write o v l) (fun _ => True).
Proof.
  intros Hv. unfold plic_write. eapply keeps_bind; [apply keeps_sys|]. intros s _.
  eapply keeps_bind; [apply keeps_assert_c|intros _ _]. cbv zeta.
  repeat match goal with |- keeps (if ?b then _ else _) _ => destruct b end; try (apply keeps_ret, I).
  - eapply keeps_bind; [apply keeps_assert_c|intros _ _]. apply keeps_on_board. intros b Hb. split; [|repeat split]. apply board_priority; [exact Hb|].
    apply land_range; [lia|exact Hv].
  - apply keeps_on_hart. intros c Hc. apply wf_set_plic_enable_irq; auto.
  - apply keeps_on_board. intros b Hb. split; [|repeat split]. apply board_priority; auto.
  - eapply keeps_bind; [apply keeps_irq_mask|]. intros m Hm. apply keeps_on_board. intros b Hb. split; [|repeat split]. apply board_served; [exact Hb|].
    apply land_range; [lia|apply Hb].
Qed.

Lemma keeps_plic_update_all n : forall h, keeps (plic_update_all h n) (fun _ => True).
Proof.
  induction n as [|n IH]; intros h; cbn [plic_update_all]; [apply keeps_ret, I|].
  eapply keeps_bind; [apply keeps_plic_update|intros _ _; apply IH].
Qed.

Lemma keeps_plic_set_irq irq st : keeps (plic_set_irq irq st) (fun _ => True).
Proof.
  unfold plic_set_irq. eapply keeps_bind; [apply keeps_irq_mask|]. intros m Hm.
  eapply keeps_bind; [apply keeps_on_board|intros _ _].
  { intros b Hb. split; [|repeat split]. apply board_pending; [exact Hb|]. destruct st; [apply lor_range; [lia|apply Hb|exact Hm]|apply land_range; [lia|apply Hb]]. }
  eapply keeps_bind; [apply keeps_sys|]. intros s _. apply keeps_plic_update_all.
Qed.

Lemma keeps_on_uart {A} (m : SM (Port SiFiveUARTState) A) Q : port_keeps uart_wf m Q -> keeps (on_uart m) Q.
Proof.
  intros Hm s (Hc & Hh & Hvm & Hn & Hi & Hv & Hb). specialize (Hm (uart (devs s)) (console (devs s)) (bw_uart _ Hb) (bw_console _ Hb)). unfold on_uart.
  destruct (m _) as [[a [u c]]|r]; [|left; exact Hm]. destruct Hm as (H1 & H2 & H3). split; [|exact H3].
  split; [exact Hc|]. split; [exact Hh|]. split; [exact Hvm|]. split; [exact Hn|]. split; [exact Hi|]. split; [exact Hv|]. destruct Hb. constructor; auto.
Qed.
Lemma keeps_on_dw {A} (m : SM (Port DW_apb_uart_state) A) Q : port_keeps dw_wf m Q -> keeps (on_dw m) Q.
Proof.
  intros Hm s (Hc & Hh & Hvm & Hn & Hi & Hv & Hb). specialize (Hm (dw_apb_uart (devs s)) (console (devs s)) (bw_dw _ Hb) (bw_console _ Hb)). unfold on_dw.
  destruct (m _) as [[a [u c]]|r]; [|left; exact Hm]. destruct Hm as (H1 & H2 & H3). split; [|exact H3].
  split; [exact Hc|]. split; [exact Hh|]. split; [exact Hvm|]. split; [exact Hn|]. split; [exact Hi|]. split; [exact Hv|]. destruct Hb. constructor; auto.
Qed.

(** *** The virtio windows *)

Lemma keeps_do_call slot c : keeps (do_call slot c) (fun _ => True).
Proof.
  destruct c as [level|data|data]; cbn [do_call]; [apply keeps_plic_set_irq| |apply keeps_ret, I].
  apply keeps_on_board. intros b Hb. split; [|repeat split]. destruct Hb as [? ? ? ? ? ? ? [H1 H2] ?]. constructor; auto.
  split; [exact H1|]. cbn. apply Forall_app_2; [exact H2|apply bytes_map_u8].
Qed.
Lemma keeps_do_calls slot l : keeps (do_calls slot l) (fun _ => True).
Proof. induction l as [|c l IH]; cbn [do_calls]; [apply keeps_ret, I|]. eapply keeps_bind; [apply keeps_do_call|intros _ _; exact IH]. Qed.

Lemma keeps_on_slot {A} slot (f : VirtioHost -> VirtioSlot -> hostmem -> res (A * VirtioSlot * hostmem * list HostCall)) (Q : A -> Prop) `{VE : VirtioEnv} :
  (forall H v m, slot_ok v -> hostmem_wf m ->
     match f H v m with Done (a, v', m', _) => slot_ok v' /\ hostmem_wf m' /\ Q a | Stop r => r <> OutOfFuel end) -> keeps (on_slot slot f) Q.
Proof.
  intros Hf s (Hc & Hm & Hvm & Hn & Hi & Hv & Hb). unfold on_slot. destruct (virtio (devs s) !! Z.to_nat slot) as [v|] eqn:E; [|left; exact I].
  pose proof (Forall_lookup_1 _ _ _ _ (bw_virtio _ Hb) E) as Hs. specialize (Hf (board_host (mem_map s)) v (hmem s) Hs Hm).
  destruct (f _ v (hmem s)) as [[[[a v'] m'] l]|r].
  - destruct Hf as (H1 & H2 & H3). apply (keeps_bind (do_calls slot l) (fun _ => mret a) (fun _ => True) Q); [apply keeps_do_calls|intros; apply keeps_ret, H3|].
    split; [exact Hc|]. split; [exact H2|]. split; [exact Hvm|]. split; [exact Hn|]. split; [exact Hi|]. split; [cbn; rewrite length_insert; exact Hv|].
    destruct Hb. constructor; auto. cbn. apply Forall_insert; assumption.
  - destruct r; try (left; exact I); [congruence|]. right. split; [reflexivity|]. apply lookup_lt_Some in E. cbn. lia.
Qed.

Lemma virtio_read_ok `{VE : VirtioEnv} slot o l : 0 <= o -> keeps (virtio_read slot o l) (in_u 32).
Proof.
  intros Ho. apply keeps_on_slot. intros H v m Hv Hm. pose proof (slot_read_ok v Hv m o l Ho) as K.
  destruct (slot_read v m o l) as [[[[x v'] m'] c]|r]; [|destruct r; (discriminate || destruct K)]. destruct K as (Hx & -> & -> & _). auto.
Qed.
Lemma virtio_write_ok `{VE : VirtioEnv} slot o v l : in_u 32 v -> keeps (virtio_write slot o v l) (fun _ => True).
Proof.
  intros Hx. apply keeps_on_slot. intros H sl m Hs Hm. pose proof (slot_write_ok H sl Hs m o v l Hm Hx) as K.
  destruct (slot_write H sl m o v l) as [[[[x v'] m'] c]|r]; [|exact K]. destruct K. auto.
Qed.

(** The board keeps its promises to the hart, with the virtio devices the program has. *)
Lemma board_laws `{VE : VirtioEnv} : DeviceLaws Board.
Proof.
  split.
  - intros d o l s Ho Hs. assert (keeps (read_func d o l) (in_u 32)) as K; [|exact (K s Hs)].
    destruct d; [apply keeps_ret; split; [discriminate|reflexivity]|apply keeps_on_uart, uart_read_ok|apply keeps_on_dw, dw_read_ok
                |apply keeps_clint_read|apply keeps_plic_read|apply virtio_read_ok, Ho].
  - intros d o v l s Ho Hv Hs. assert (keeps (write_func d o v l) (fun _ => True)) as K.
    { destruct d; [apply keeps_ret, I|apply keeps_on_uart, uart_write_ok, Hv|apply keeps_on_dw, dw_write_ok
                  |apply keeps_clint_write, Hv|apply keeps_plic_write, Hv|apply virtio_write_ok, Hv]. }
    specialize (K s Hs). destruct (write_func d o v l s) as [[x s']|r]; [apply K|exact K].
Qed.

End BoardKeeps.

(** ** Reading a register of the board leaves translation alone *)

Definition mmu_same (s s' : System Board) : Prop :=
  mmu_view s' = mmu_view s /\ tlb_read (cpu s') = tlb_read (cpu s) /\
  tlb_write (cpu s') = tlb_write (cpu s) /\ tlb_code (cpu s') = tlb_code (cpu s).

Definition frames {A} (m : MM A) : Prop := forall s a s', m s = Done (a, s') -> mmu_same s s'.

Lemma mmu_same_refl s : mmu_same s s.
Proof. repeat split. Qed.
Lemma mmu_same_trans s1 s2 s3 : mmu_same s1 s2 -> mmu_same s2 s3 -> mmu_same s1 s3.
Proof. intros (A1 & A2 & A3 & A4) (B1 & B2 & B3 & B4). repeat split; congruence. Qed.

Lemma frames_ret {A} (a : A) : frames (mret a).
Proof. intros s x s' [= _ <-]. apply mmu_same_refl. Qed.
Lemma frames_gets {A} (g : System Board -> A) : frames (gets g).
Proof. intros s x s' [= _ <-]. apply mmu_same_refl. Qed.
Lemma frames_bind {A B} (m : MM A) (f : A -> MM B) : frames m -> (forall a, frames (f a)) -> frames (m ≫= f).
Proof.
  intros Hm Hf s b s' E. apply SM_bind_inv in E as (a & s1 & E1 & E2). exact (mmu_same_trans _ _ _ (Hm _ _ _ E1) (Hf _ _ _ _ E2)).
Qed.
Lemma frames_liftr {A} (r : res A) : frames (liftr r).
Proof. intros s a s'. unfold liftr. destruct r; [intros [= _ <-]; apply mmu_same_refl|discriminate]. Qed.
Lemma frames_get_hart i : frames (get_hart i).
Proof. intros s a s'. unfold get_hart. destruct (_ && _); [intros [= _ <-]; apply mmu_same_refl|discriminate]. Qed.
Lemma frames_on_board f : frames (on_board f).
Proof. intros s a s' [= _ <-]. repeat split. Qed.
Lemma frames_irq_mask irq : frames (irq_mask irq).
Proof. unfold irq_mask. destruct (1 <=? irq); [apply frames_ret|discriminate]. Qed.

(** A hart update outside the translation state. *)
Definition cpu_same (f : RISCVCPUState -> RISCVCPUState) : Prop := forall c,
  mstatus (f c) = mstatus c /\ priv (f c) = priv c /\ satp (f c) = satp c /\
  tlb_read (f c) = tlb_read c /\ tlb_write (f c) = tlb_write c /\ tlb_code (f c) = tlb_code c.

Lemma frames_on_hart i f : cpu_same f -> frames (on_hart i f).
Proof.
  intros Hf s a s'. unfold on_hart, get_hart. rewrite run_bind. destruct (_ && _); [|discriminate].
  unfold modify, put_hart. destruct (i =? hartid (devs s)); intros [= _ <-]; [|repeat split].
  destruct (Hf (cpu s)) as (H1 & H2 & H3 & H4 & H5 & H6). unfold mmu_same, mmu_view. cbn. rewrite H1, H2, H3, H4, H5, H6. repeat split.
Qed.

Lemma cpu_same_set_mip m mask : cpu_same (riscv_cpu_set_mip m mask).
Proof. intros c. unfold riscv_cpu_set_mip. cbv zeta. destruct (_ && _); repeat split. Qed.

Create HintDb frames.
#[local] Hint Resolve frames_ret frames_gets frames_liftr frames_get_hart frames_on_board frames_irq_mask cpu_same_set_mip : frames.

Ltac frames := repeat match goal with
  | |- frames (if ?b then _ else _) => destruct b
  | |- frames (_ ≫= _) => apply frames_bind; [|intros ?]
  | |- frames (on_hart _ _) => apply frames_on_hart
  | |- cpu_same (fun _ => _) => intros ?; repeat split
  | |- cpu_same (riscv_cpu_reset_mip _) => intros ?; repeat split
  | |- frames _ => solve [auto with frames]
  | |- cpu_same _ => solve [auto with frames]
  end.

Lemma frames_set_mip i mask : frames (set_mip i mask).
Proof. unfold set_mip. frames. Qed.
Lemma frames_reset_mip i mask : frames (reset_mip i mask).
Proof. unfold reset_mip. frames. Qed.
#[local] Hint Resolve frames_set_mip frames_reset_mip : frames.
Lemma frames_plic_update h : frames (plic_update_mip h).
Proof. unfold plic_update_mip. frames. Qed.
#[local] Hint Resolve frames_plic_update : frames.

Lemma frames_virtio_read `{VE : VirtioEnv} slot o l : frames (virtio_read slot o l).
Proof.
  intros s a s'. unfold virtio_read, on_slot. destruct (virtio (devs s) !! Z.to_nat slot) as [v|]; [|discriminate].
  destruct (slot_read v (hmem s) o l) as [[[[x v'] m] c]|] eqn:E; [|discriminate].
  apply slot_read_quiet in E as (-> & -> & ->). intros [= _ <-]. repeat split.
Qed.

#[export] Instance board_frame `{VE : VirtioEnv} : DeviceFrame Board.
Proof.
  intros d o l. change (frames (read_func d o l)). destruct d; cbn [read_func board_ops];
    [apply frames_ret| | |unfold clint_read; frames|unfold plic_read; cbv zeta; frames|apply frames_virtio_read].
  - intros s a s'. unfold on_uart. destruct (uart_read o _) as [[x [u c]]|]; [intros [= _ <-]; repeat split|discriminate].
  - intros s a s'. unfold on_dw. destruct (dw_apb_uart_read o _) as [[x [u c]]|]; [intros [= _ <-]; repeat split|discriminate].
Qed.

(** ** Harts as an array *)

Definition hart (s : System Board) (i : Z) : RISCVCPUState :=
  if i =? hartid (devs s) then cpu s else nth (Z.to_nat i) (cpu_state (devs s)) zero_cpu.

Lemma get_hart_run {A} i (k : RISCVCPUState -> MM A) s : 0 <= i < ncpus s -> (get_hart i ≫= k) s = k (hart s i) s.
Proof.
  intros Hi. rewrite run_bind. unfold get_hart. destruct (Z.leb_spec 0 i), (Z.ltb_spec i (ncpus s)); try lia. reflexivity.
Qed.

Lemma on_hart_run i f s : 0 <= i < ncpus s -> on_hart i f s = Done (tt, put_hart i (f (hart s i)) s).
Proof. intros Hi. unfold on_hart. rewrite get_hart_run by exact Hi. reflexivity. Qed.

Lemma reset_mip_run i mask s : 0 <= i < ncpus s ->
  reset_mip i mask s = Done (tt, put_hart i (riscv_cpu_reset_mip mask (hart s i)) s).
Proof. apply on_hart_run. Qed.
Lemma set_mip_run i mask s : 0 <= i < ncpus s ->
  set_mip i mask s = Done (tt, put_hart i (riscv_cpu_set_mip (common s) mask (hart s i)) s).
Proof. intros Hi. unfold set_mip. rewrite run_gets. apply on_hart_run, Hi. Qed.

Lemma ncpus_put i c s : ncpus (put_hart i c s) = ncpus s.
Proof. unfold ncpus, put_hart. destruct (i =? _); [reflexivity|]. cbn. rewrite length_insert. reflexivity. Qed.

Lemma hart_put i j c s : 0 <= i < ncpus s -> 0 <= j -> hart (put_hart i c s) j = if i =? j then c else hart s j.
Proof.
  unfold ncpus. intros Hi Hj. unfold hart, put_hart. destruct (Z.eqb_spec i (hartid (devs s))) as [->|Hn]; cbn.
  - rewrite (Z.eqb_sym j). destruct (_ =? j); reflexivity.
  - destruct (Z.eqb_spec j (hartid (devs s))) as [->|Hj']; [destruct (Z.eqb_spec i (hartid (devs s))); [contradiction|reflexivity]|].
    destruct (Z.eqb_spec i j) as [->|Hij].
    + rewrite nth_lookup, list_lookup_insert_eq by lia. reflexivity.
    + rewrite !nth_lookup, list_lookup_insert_ne by lia. reflexivity.
Qed.

Lemma put_hart_put h c c' s : put_hart h c' (put_hart h c s) = put_hart h c' s.
Proof.
  unfold put_hart. destruct (Z.eqb_spec h (hartid (devs s))) as [E|E]; cbn.
  - destruct (Z.eqb_spec h (hartid (devs s))); [reflexivity|contradiction].
  - destruct (Z.eqb_spec h (hartid (devs s))); [contradiction|]. cbn. rewrite list_insert_insert_eq. reflexivity.
Qed.

Lemma put_hart_devs i c s : plic_pending_irq (devs (put_hart i c s)) = plic_pending_irq (devs s) /\
  plic_served_irq (devs (put_hart i c s)) = plic_served_irq (devs s) /\ common (put_hart i c s) = common s.
Proof. unfold put_hart. destruct (i =? _); auto. Qed.

(** ** The timer registers *)

Section Clint.
Context `{VE : VirtioEnv}.

(** The CLINT as [virt_machine_init] registers it. *)
Definition clint_range (pr : PhysMemoryRange) : Prop :=
  pr_dev pr = Dev_clint /\ pr_devio_flags pr = DEVIO_SIZE32 |' DEVIO_SIZE16 |' DEVIO_SIZE8.

Lemma clint_write64 pr o v s : clint_range pr -> 
  write_device pr o v W64 s = (_ ← clint_write (u32 o) (u32 (v &' 0xffffffff)) 2; clint_write (u32 (o + 4)) (u32 ((v >>' 32) &' 0xffffffff)) 2) s.
Proof. intros [Hd Hf]. unfold write_device. rewrite Hf, Hd. reflexivity. Qed.
Lemma clint_read64 pr o s : clint_range pr ->
  read_device pr o W64 s = (l ← clint_read (u32 o) 2; h ← clint_read (u32 (o + 4)) 2; mret (l |' (h <<' 32))) s.
Proof. intros [Hd Hf]. unfold read_device. rewrite Hf, Hd. reflexivity. Qed.

Lemma mask32 v : in_u 32 v -> clint_mask 2 v = v.
Proof.
  intros Hv. change (clint_mask 2 v) with (v &' Z.ones 32). rewrite Z.land_ones by lia. apply Z.mod_small. exact Hv.
Qed.

(** Where the comparator of hart [h] is decoded. *)
Lemma timecmp_decode h : 0 <= h < 8 ->
  let lo := 0x4000 + 8 * h in
  ((0 <=? lo) && (lo <? 0x4000)) = false /\ (lo =? 0xbff8) = false /\ (lo =? 0xbffc) = false /\
  ((0x4000 <=? lo) && (lo <? 0xbff8)) = true /\ (lo - 0x4000) >>' 3 = h /\ ((lo >>' 2) &' 1 =? 0) = true /\
  ((0 <=? lo + 4) && (lo + 4 <? 0x4000)) = false /\ (lo + 4 =? 0xbff8) = false /\ (lo + 4 =? 0xbffc) = false /\
  ((0x4000 <=? lo + 4) && (lo + 4 <? 0xbff8)) = true /\ (lo + 4 - 0x4000) >>' 3 = h /\ (((lo + 4) >>' 2) &' 1 =? 0) = false.
Proof.
  intros Hh. enum_bits h 8%nat; repeat split.
Qed.

Lemma timecmp_write_lo h v s : 0 <= h < ncpus s -> ncpus s <= 8 -> in_u 32 v ->
  clint_write (0x4000 + 8 * h) v 2 s =
  Done (tt, put_hart h (riscv_cpu_reset_mip MIP_MTIP ((hart s h) <| timecmp := v |>)) s).
Proof.
  intros Hh Hn Hv. destruct (timecmp_decode h) as (E1 & E2 & E3 & E4 & E5 & E6 & _); [lia|].
  unfold clint_write. cbv zeta. rewrite run_gets, E1, E2, E3, E4, E5, E6, mask32 by exact Hv.
  unfold id. destruct (Z.leb_spec (ncpus s) h); [lia|]. cbn [negb]. rewrite run_bind, on_hart_run by exact Hh.
  rewrite reset_mip_run by (rewrite ncpus_put; exact Hh). rewrite hart_put, Z.eqb_refl by lia.
  change (not32 0xffffffff) with 0. rewrite Z.land_0_r, Z.lor_0_l, put_hart_put. reflexivity.
Qed.

Lemma timecmp_write_hi h v s : 0 <= h < ncpus s -> ncpus s <= 8 -> in_u 32 v ->
  clint_write (0x4000 + 8 * h + 4) v 2 s =
  Done (tt, put_hart h (riscv_cpu_reset_mip MIP_MTIP ((hart s h) <| timecmp := (timecmp (hart s h) &' 0xffffffff) |' (v <<' 32) |>)) s).
Proof.
  intros Hh Hn Hv. destruct (timecmp_decode h) as (_ & _ & _ & _ & _ & _ & E1 & E2 & E3 & E4 & E5 & E6); [lia|].
  unfold clint_write. cbv zeta. rewrite run_gets, E1, E2, E3, E4, E5, E6, mask32 by exact Hv.
  unfold id. destruct (Z.leb_spec (ncpus s) h); [lia|]. cbn [negb]. rewrite run_bind, on_hart_run by exact Hh.
  rewrite reset_mip_run by (rewrite ncpus_put; exact Hh). rewrite hart_put, Z.eqb_refl, put_hart_put by lia. reflexivity.
Qed.

Lemma timecmp_read h s : 0 <= h < ncpus s -> ncpus s <= 8 ->
  clint_read (0x4000 + 8 * h) 2 s = Done (u32 (timecmp (hart s h)), s) /\
  clint_read (0x4000 + 8 * h + 4) 2 s = Done (u32 (timecmp (hart s h) >>' 32), s).
Proof.
  intros Hh Hn. destruct (timecmp_decode h) as (E1 & E2 & E3 & E4 & E5 & E6 & F1 & F2 & F3 & F4 & F5 & F6); [lia|].
  unfold clint_read. cbv zeta. rewrite !run_gets, E1, E2, E3, E4, E5, E6, F1, F2, F3, F4, F5, F6.
  unfold id. destruct (Z.leb_spec (ncpus s) h); [lia|]. cbn [negb]. rewrite !run_assoc, !get_hart_run by exact Hh.
  rewrite !run_bind_ret, !run_ret, !mask32 by apply in_u_u32. auto.
Qed.

Lemma halves v : in_u 64 v -> (u32 (v &' 0xffffffff) &' 0xffffffff) |' (u32 ((v >>' 32) &' 0xffffffff) <<' 32) = v /\
  u32 v |' (u32 (v >>' 32) <<' 32) = v.
Proof.
  intros Hv. assert (in_u 64 (u32 v |' (u32 (v >>' 32) <<' 32))) as Hp.
  { apply lor_range; [lia|apply in_u_32_64, in_u_u32|]. rewrite Z.shiftl_mul_pow2 by lia. pose proof (in_u_u32 (v >>' 32)). unfold in_u in *. lia. }
  assert (u32 v |' (u32 (v >>' 32) <<' 32) = v) as E.
  { apply (bits_inj_u 64); [lia|exact Hp|exact Hv|]. intros i Hi. autorewrite with zbits.
    destruct (Z.ltb_spec i 32), (Z.leb_spec 0 i), (Z.ltb_spec (i - 32) 32), (Z.leb_spec 0 (i - 32)); try lia; cbn [andb orb].
    - apply orb_false_r.
    - f_equal. lia. }
  split; [|exact E]. rewrite <- E at 3. f_equal.
  - change 0xffffffff with (Z.ones 32). rewrite !Z.land_ones by lia. unfold u32, wrapu. rewrite !Z.mod_mod by lia. reflexivity.
  - f_equal. change 0xffffffff with (Z.ones 32). rewrite Z.land_ones by lia. unfold u32, wrapu. rewrite !Z.mod_mod by lia. reflexivity.
Qed.

(** The timer comparator as a guest sees it: a 64-bit store to [mtimecmp] of a hart sets exactly that
    hart's comparator and clears its timer interrupt, touches no other hart, and a 64-bit load returns
    the stored value.  A 32-bit store to the low half alone, however, clears the high half. *)
Theorem clint_timecmp pr h v s : clint_range pr -> 0 <= h < ncpus s -> ncpus s <= 8 -> in_u 64 v ->
  exists s', write_device pr (0x4000 + 8 * h) v W64 s = Done (tt, s') /\
    timecmp (hart s' h) = v /\ mip (hart s' h) = mip (hart s h) &' not32 MIP_MTIP /\
    (forall i, 0 <= i -> i <> h -> hart s' i = hart s i) /\
    read_device pr (0x4000 + 8 * h) W64 s' = Done (v, s') /\
    (forall w, in_u 32 w -> exists s'', clint_write (0x4000 + 8 * h) w 2 s' = Done (tt, s'') /\ timecmp (hart s'' h) = w).
Proof.
  intros Hpr Hh Hn Hv. set (lo := u32 (v &' 0xffffffff)). set (hi := u32 ((v >>' 32) &' 0xffffffff)).
  assert (forall x, 0 <= x < 100000 -> u32 x = x) as Hu by (intros; apply u32_id; unfold in_u; lia).
  rewrite clint_write64 by exact Hpr. rewrite (Hu (0x4000 + 8 * h)), (Hu (0x4000 + 8 * h + 4)) by lia. rewrite run_bind, timecmp_write_lo by (auto using in_u_u32; lia).
  rewrite timecmp_write_hi by (rewrite ?ncpus_put; auto using in_u_u32; lia). rewrite hart_put, Z.eqb_refl, put_hart_put by lia.
  match goal with |- context [Done (tt, put_hart h ?c s)] => set (c' := c) end.
  assert (timecmp c' = v) as Ec by exact (proj1 (halves v Hv)).
  assert (hart (put_hart h c' s) h = c') as Eh by (rewrite hart_put, Z.eqb_refl by lia; reflexivity).
  exists (put_hart h c' s). split; [reflexivity|]. rewrite Eh. split; [exact Ec|]. split; [|split; [|split]].
  - change (mip c') with ((mip (hart s h) &' not32 MIP_MTIP) &' not32 MIP_MTIP). rewrite <- Z.land_assoc, Z.land_diag. reflexivity.
  - intros i Hi Hne. rewrite hart_put by lia. destruct (Z.eqb_spec h i); [congruence|reflexivity].
  - rewrite clint_read64 by exact Hpr. rewrite (Hu (0x4000 + 8 * h)), (Hu (0x4000 + 8 * h + 4)) by lia.
    destruct (timecmp_read h (put_hart h c' s)) as [R1 R2]; [rewrite ?ncpus_put; lia..|].
    rewrite run_bind, R1, run_bind, R2, run_ret, Eh, Ec. do 2 f_equal. apply halves, Hv.
  - intros w Hw. rewrite timecmp_write_lo by (rewrite ?ncpus_put; auto; lia). eexists. split; [reflexivity|].
    rewrite hart_put by (rewrite ?ncpus_put; lia). rewrite Z.eqb_refl. reflexivity.
Qed.

(** The two halves of a store to [mtime]. *)
Lemma mtime_writes v1 v2 s : 0 < ncpus s -> in_u 32 v1 -> in_u 32 v2 ->
  (_ ← clint_write 0xbff8 v1 2; clint_write 0xbffc v2 2) s =
  Done (tt, put_hart 0 ((hart s 0) <| mcycle :=
    u64 (u64 ((u64 (u64 ((mcycle (hart s 0) / 16 &' 0xFFFFFFFF00000000) + v1) * 16) / 16 &' 0xFFFFFFFF) + (v2 <<' 32)) * 16) |>) s).
Proof.
  intros Hn H1 H2. rewrite run_bind. unfold clint_write at 1. rewrite mask32 by exact H1.
  cbn [Z.leb Z.ltb Z.eqb Z.compare Pos.compare Pos.compare_cont Pos.eqb andb]. rewrite run_gets, get_hart_run, on_hart_run by lia.
  unfold clint_write. rewrite mask32 by exact H2.
  cbn [Z.leb Z.ltb Z.eqb Z.compare Pos.compare Pos.compare_cont Pos.eqb andb].
  rewrite run_gets, get_hart_run, on_hart_run by (rewrite ?ncpus_put; lia). rewrite hart_put, put_hart_put, Z.eqb_refl by lia. reflexivity.
Qed.

Lemma mtime_reads s : 0 < ncpus s -> in_u 64 (mcycle (hart s 0)) ->
  (l ← clint_read 0xbff8 2; h ← clint_read 0xbffc 2; mret (l |' (h <<' 32))) s = Done (mcycle (hart s 0) / 16, s).
Proof.
  intros Hn Hm. rewrite run_bind. unfold clint_read.
  cbn [Z.leb Z.ltb Z.eqb Z.compare Pos.compare Pos.compare_cont Pos.eqb andb].
  rewrite run_gets, run_assoc, get_hart_run, run_bind_ret, run_ret by lia.
  rewrite run_bind, run_gets, run_assoc, get_hart_run, run_bind_ret, run_ret by lia.
  rewrite run_ret, !mask32 by apply in_u_u32. do 2 f_equal. apply halves. unfold in_u in *. Z.to_euclidean_division_equations; lia.
Qed.

Lemma keep_high x : in_u 64 x -> x &' 0xFFFFFFFF00000000 = x / 2 ^ 32 * 2 ^ 32.
Proof.
  intros Hx. rewrite <- Z.shiftr_div_pow2, <- Z.shiftl_mul_pow2 by lia.
  apply (bits_inj_u 64); [lia|apply land_range_r; [lia|split; [discriminate|reflexivity]]| |].
  - rewrite Z.shiftl_mul_pow2, Z.shiftr_div_pow2 by lia. unfold in_u in *. Z.to_euclidean_division_equations; lia.
  - intros i Hi. rewrite Z.land_spec, shiftl_spec', shiftr_spec'. enum_bits i 64%nat; eval_consts; bool_atoms.
Qed.

Lemma mtime_value m0 v : in_u 64 m0 -> in_u 64 v ->
  u64 (u64 ((u64 (u64 ((m0 / 16 &' 0xFFFFFFFF00000000) + u32 (v &' 0xffffffff)) * 16) / 16 &' 0xFFFFFFFF) +
            (u32 ((v >>' 32) &' 0xffffffff) <<' 32)) * 16) = u64 (v * 16).
Proof.
  intros Hm Hv. assert (in_u 64 (m0 / 16)) as Hm' by (unfold in_u in *; Z.to_euclidean_division_equations; lia).
  rewrite (keep_high _ Hm'). change 0xFFFFFFFF with (Z.ones 32). rewrite !Z.land_ones, Z.shiftr_div_pow2, Z.shiftl_mul_pow2 by lia.
  unfold u32 at 1 2, wrapu at 1 2. rewrite !Z.mod_mod by lia. rewrite (Z.mod_small (v / 2 ^ 32)) by (unfold in_u in *; Z.to_euclidean_division_equations; lia).
  set (m1 := u64 (m0 / 16 / 2 ^ 32 * 2 ^ 32 + v mod 2 ^ 32)).
  assert (m1 mod 2 ^ 32 = v mod 2 ^ 32) as E1 by (unfold m1, u64, wrapu, in_u in *; Z.to_euclidean_division_equations; lia).
  assert (in_u 64 m1) as H1 by apply in_u_u64. clearbody m1.
  replace (u64 (m1 * 16) / 16 mod 2 ^ 32) with (v mod 2 ^ 32) by (rewrite <- E1; unfold u64, wrapu, in_u in *; Z.to_euclidean_division_equations; lia).
  f_equal. unfold u64, wrapu, in_u in *. Z.to_euclidean_division_equations; lia.
Qed.

(** The machine timer as a guest sees it: a 64-bit store to [mtime] followed by a load returns the stored
    value modulo 2^60 (the timer is kept as [mcycle / 16]), and only hart 0 changes. *)
Theorem clint_mtime pr v s : clint_range pr -> 0 < ncpus s -> in_u 64 (mcycle (hart s 0)) -> in_u 64 v ->
  exists s', write_device pr 0xbff8 v W64 s = Done (tt, s') /\
    mcycle (hart s' 0) = u64 (v * 16) /\ (forall i, 0 < i -> hart s' i = hart s i) /\
    read_device pr 0xbff8 W64 s' = Done (v mod 2 ^ 60, s').
Proof.
  intros Hpr Hn Hm Hv. rewrite clint_write64 by exact Hpr. change (u32 0xbff8) with 0xbff8. change (u32 (0xbff8 + 4)) with 0xbffc.
  rewrite mtime_writes by (auto using in_u_u32). rewrite mtime_value by auto.
  set (s' := put_hart 0 _ s). assert (mcycle (hart s' 0) = u64 (v * 16)) as Ev by (unfold s'; rewrite hart_put by lia; reflexivity).
  exists s'. split; [reflexivity|]. split; [exact Ev|].
  split; [intros i Hi; unfold s'; rewrite hart_put by lia; destruct (Z.eqb_spec 0 i); [lia|reflexivity]|].
  rewrite clint_read64 by exact Hpr. change (u32 0xbff8) with 0xbff8. change (u32 (0xbff8 + 4)) with 0xbffc.
  rewrite mtime_reads by (unfold s'; rewrite ?ncpus_put; auto; rewrite hart_put by lia; apply in_u_u64). rewrite Ev.
  do 2 f_equal. unfold u64, wrapu, in_u in *. Z.to_euclidean_division_equations; lia.
Qed.

End Clint.

(** ** The interrupt controller *)

(** Sources that are pending and not being served. *)
Definition plic_mask (s : System Board) : Z := plic_pending_irq (devs s) &' not32 (plic_served_irq (devs s)).

(** The external interrupt lines of a hart driven high or low. *)
Definition drive (vm : VirtMachine) (level : bool) (c : RISCVCPUState) : RISCVCPUState :=
  if level then riscv_cpu_set_mip vm (MIP_MEIP |' MIP_SEIP) c else riscv_cpu_reset_mip (MIP_MEIP |' MIP_SEIP) c.

Lemma drive_mip vm level c : mip (drive vm level c) =
  if level then mip c |' (MIP_MEIP |' MIP_SEIP) else mip c &' not32 (MIP_MEIP |' MIP_SEIP).
Proof.
  unfold drive. destruct level; [|reflexivity]. unfold riscv_cpu_set_mip. cbv zeta. destruct (_ && _); reflexivity.
Qed.

Lemma plic_update_run h s : 0 <= h < ncpus s ->
  plic_update_mip h s = Done (tt, put_hart h (drive (common s) (negb (plic_mask s =? 0)) (hart s h)) s).
Proof.
  intros Hh. unfold plic_update_mip. rewrite run_gets. unfold id. fold (plic_mask s). unfold drive.
  destruct (negb _); [apply set_mip_run, Hh|apply reset_mip_run, Hh].
Qed.

Lemma plic_mask_put h c s : plic_mask (put_hart h c s) = plic_mask s.
Proof. unfold plic_mask. destruct (put_hart_devs h c s) as (-> & -> & _). reflexivity. Qed.

Lemma plic_update_all_run n : forall h s, 0 <= h -> h + Z.of_nat n <= ncpus s ->
  exists s', plic_update_all h n s = Done (tt, s') /\ ncpus s' = ncpus s /\ plic_pending_irq (devs s') = plic_pending_irq (devs s) /\
    plic_served_irq (devs s') = plic_served_irq (devs s) /\
    forall i, 0 <= i -> hart s' i = if (h <=? i) && (i <? h + Z.of_nat n)
                                    then drive (common s) (negb (plic_mask s =? 0)) (hart s i) else hart s i.
Proof.
  induction n as [|n IH]; intros h s Hh Hn; cbn [plic_update_all].
  - exists s. repeat (split; [reflexivity|]). intros i Hi. destruct (Z.leb_spec h i), (Z.ltb_spec i (h + Z.of_nat 0)); try lia; reflexivity.
  - rewrite run_bind, plic_update_run by lia. set (s1 := put_hart h _ s).
    destruct (IH (h + 1) s1) as (s' & E & E1 & E2 & E3 & E4); [lia|unfold s1; rewrite ncpus_put; lia|].
    exists s'. split; [exact E|]. rewrite E1, E2, E3. unfold s1. rewrite ncpus_put. destruct (put_hart_devs h (drive (common s) (negb (plic_mask s =? 0)) (hart s h)) s) as (-> & -> & Ec).
    repeat (split; [reflexivity|]). intros i Hi. rewrite E4 by lia. unfold s1. rewrite plic_mask_put, Ec, hart_put by lia.
    destruct (Z.eqb_spec h i), (Z.leb_spec (h + 1) i), (Z.ltb_spec i (h + 1 + Z.of_nat n)), (Z.leb_spec h i), (Z.ltb_spec i (h + Z.of_nat (S n)));
      subst; try lia; reflexivity.
Qed.

(** Raising or lowering an interrupt source: exactly that bit of the pending register changes, and
    every hart's machine and supervisor external interrupt lines are driven to whether some source is
    pending and not yet served; no other bit of [mip] changes. *)
Theorem plic_set_irq_levels irq st s : 1 <= irq ->
  exists s', plic_set_irq irq st s = Done (tt, s') /\
    plic_pending_irq (devs s') = (if st then plic_pending_irq (devs s) |' u32 (1 <<' (irq - 1))
                                  else plic_pending_irq (devs s) &' not32 (u32 (1 <<' (irq - 1)))) /\
    plic_served_irq (devs s') = plic_served_irq (devs s) /\
    forall i, 0 <= i < ncpus s -> mip (hart s' i) =
      if negb (plic_mask s' =? 0) then mip (hart s i) |' (MIP_MEIP |' MIP_SEIP) else mip (hart s i) &' not32 (MIP_MEIP |' MIP_SEIP).
Proof.
  intros Hi. unfold plic_set_irq, irq_mask. destruct (Z.leb_spec 1 irq); [|lia]. rewrite run_bind_ret. unfold on_board. rewrite run_modify, run_gets.
  set (s1 := s <| devs := _ |>). unfold id.
  destruct (plic_update_all_run (length (cpu_state (devs s1))) 0 s1) as (s' & E & E1 & E2 & E3 & E4); [lia|unfold ncpus; lia|].
  exists s'. split; [exact E|]. rewrite E2, E3. split; [reflexivity|]. split; [reflexivity|]. intros i Hr. rewrite E4 by lia.
  replace (plic_mask s') with (plic_mask s1) by (unfold plic_mask; rewrite E2, E3; reflexivity).
  change (ncpus s) with (Z.of_nat (length (cpu_state (devs s1)))) in Hr.
  destruct (Z.leb_spec 0 i), (Z.ltb_spec i (0 + Z.of_nat (length (cpu_state (devs s1))))); try lia. cbn [andb].
  rewrite drive_mip. reflexivity.
Qed.

(** The claim register of context [h], where the code decodes it. *)
Definition claim_offset (h : Z) : Z := PLIC_CONTEXT_BASE + PLIC_CONTEXT_STRIDE * h + 16.

Lemma claim_decode h : 0 <= h < 8 -> let o := claim_offset h in
  ((PLIC_PRIORITY_BASE <=? o) && (o <? PLIC_PRIORITY_BASE + (PLIC_NUM_SOURCES <<' 2))) = false /\
  ((PLIC_PENDING_BASE <=? o) && (o <? PLIC_PENDING_BASE + (PLIC_NUM_SOURCES >>' 3))) = false /\
  ((PLIC_ENABLE_BASE <=? o) && (o <? PLIC_ENABLE_BASE + PLIC_ENABLE_STRIDE * MAX_CPUS)) = false /\
  ((PLIC_CONTEXT_BASE <=? o) && (o <? PLIC_CONTEXT_BASE + PLIC_CONTEXT_STRIDE * MAX_CPUS)) = true /\
  (o - PLIC_CONTEXT_BASE) / PLIC_CONTEXT_STRIDE = h /\ (o &' (PLIC_CONTEXT_STRIDE - 1)) >>' 2 = 4.
Proof. intros Hh. enum_bits h 8%nat; repeat split. Qed.

Lemma plic_claim_run h s : 0 <= h < 8 ->
  plic_read (claim_offset h) 2 s =
  if plic_mask s =? 0 then Done (0, s)
  else (_ ← on_board (fun b => b <| plic_served_irq := plic_served_irq b |' u32 (1 <<' ctz32 (plic_mask s)) |>);
        _ ← plic_update_mip h; mret (ctz32 (plic_mask s) + 1)) s.
Proof.
  intros Hh. destruct (claim_decode h Hh) as (E1 & E2 & E3 & E4 & E5 & E6).
  unfold plic_read. rewrite run_gets. change (assert_c (2 =? 2)) with (Done tt). rewrite run_liftr_done. cbv zeta. unfold id. rewrite E1, E2, E3, E4, E5, E6.
  cbn [Z.eqb Pos.eqb]. fold (plic_mask s). destruct (plic_mask s =? 0); reflexivity.
Qed.

Lemma plic_complete_run h irq s : 0 <= h < 8 -> 1 <= irq <= 31 ->
  plic_write (claim_offset h) irq 2 s =
  Done (tt, s <| devs := (devs s) <| plic_served_irq := plic_served_irq (devs s) &' not32 (u32 (1 <<' (irq - 1))) |> |>).
Proof.
  intros Hh Hi. destruct (claim_decode h Hh) as (E1 & E2 & E3 & E4 & E5 & E6).
  unfold plic_write. rewrite run_gets. change (assert_c (2 =? 2)) with (Done tt). rewrite run_liftr_done. cbv zeta. rewrite E1, E2, E3, E4, E6.
  cbn [Z.eqb Pos.eqb]. assert (irq &' 31 = irq) as -> by (change 31 with (Z.ones 5); rewrite Z.land_ones by lia; apply Z.mod_small; lia).
  unfold irq_mask. destruct (Z.leb_spec 1 irq); [|lia]. reflexivity.
Qed.

Lemma served_roundtrip x k : in_u 32 x -> 0 <= k < 32 -> Z.testbit x k = false ->
  (x |' u32 (1 <<' k)) &' not32 (u32 (1 <<' k)) = x.
Proof.
  intros Hx Hk Hb. apply (bits_inj_u 32); [lia|apply land_range; [lia|apply lor_range; [lia|exact Hx|apply in_u_u32]]|exact Hx|].
  intros i Hi. autorewrite with zbits. destruct (Z.ltb_spec i 32), (Z.leb_spec 0 i); try lia. cbn [andb].
  assert (Z.testbit 1 (i - k) = (i =? k)) as ->.
  { destruct (Z.eqb_spec i k) as [->|]; [rewrite Z.sub_diag; reflexivity|].
    destruct (Z.lt_ge_cases i k); [apply Z.testbit_neg_r; lia|]. apply (testbit_above 1); lia. }
  destruct (Z.eqb_spec i k) as [->|]; [rewrite Hb; reflexivity|]. rewrite orb_false_r, andb_true_r. reflexivity.
Qed.

(** C37 Claiming and completing an interrupt: the claim returns the lowest-numbered source that is pending and
    not being served, marks it served, and leaves the claiming hart's external lines at whether another
    source waits; completing it restores the served register.  (Completion does not drive the lines
    again: a level that is still pending stays unsignalled.) *)
Theorem plic_claim_complete h s : board_wf (devs s) -> 0 <= h < 8 -> h < ncpus s -> plic_mask s <> 0 -> ctz32 (plic_mask s) < 31 ->
  exists s' s'' i, plic_read (claim_offset h) 2 s = Done (i + 1, s') /\
    Z.testbit (plic_pending_irq (devs s)) i = true /\ Z.testbit (plic_served_irq (devs s)) i = false /\
    (forall j, 0 <= j < i -> Z.testbit (plic_pending_irq (devs s)) j = true -> Z.testbit (plic_served_irq (devs s)) j = true) /\
    plic_served_irq (devs s') = plic_served_irq (devs s) |' 2 ^ i /\
    mip (hart s' h) = mip (drive (common s) (negb (plic_mask s' =? 0)) (hart s h)) /\
    (forall j, 0 <= j -> j <> h -> hart s' j = hart s j) /\
    plic_write (claim_offset h) (i + 1) 2 s' = Done (tt, s'') /\
    plic_served_irq (devs s'') = plic_served_irq (devs s) /\ (forall j, 0 <= j -> hart s'' j = hart s' j).
Proof.
  intros Hb Hh Hn Hm H31. assert (in_u 32 (plic_mask s)) as Hu by (apply land_range; [lia|apply Hb]).
  destruct (ctz32_spec (plic_mask s) Hu Hm) as (Hr & Hbit & Hlow). set (i := ctz32 (plic_mask s)) in *.
  assert (forall j, 0 <= j < 32 -> Z.testbit (plic_mask s) j = Z.testbit (plic_pending_irq (devs s)) j && negb (Z.testbit (plic_served_irq (devs s)) j)) as Hmb.
  { intros j Hj. unfold plic_mask. autorewrite with zbits. destruct (Z.ltb_spec j 32), (Z.leb_spec 0 j); try lia. reflexivity. }
  rewrite plic_claim_run by exact Hh. destruct (Z.eqb_spec (plic_mask s) 0); [contradiction|]. fold i. unfold on_board. rewrite run_modify.
  set (s1 := s <| devs := _ |>). rewrite run_bind, plic_update_run, run_ret by (change (ncpus s1) with (ncpus s); lia).
  set (s' := put_hart h _ s1). rewrite Hmb, andb_true_iff, negb_true_iff in Hbit by lia. destruct Hbit as [Hb1 Hb2].
  assert (plic_served_irq (devs s') = plic_served_irq (devs s) |' u32 (1 <<' i)) as Es by apply put_hart_devs.
  exists s', (s' <| devs := (devs s') <| plic_served_irq := plic_served_irq (devs s') &' not32 (u32 (1 <<' (i + 1 - 1))) |> |>), i.
  split; [reflexivity|]. split; [exact Hb1|]. split; [exact Hb2|]. split.
  { intros j Hj Hp. specialize (Hlow j Hj). rewrite Hmb, Hp in Hlow by lia. apply negb_false_iff, Hlow. }
  split; [rewrite Es, u32_id, Z.shiftl_1_l; [reflexivity|]; unfold in_u; rewrite Z.shiftl_1_l; split; [apply Z.pow_nonneg; lia|apply Z.pow_lt_mono_r; lia]|].
  split; [unfold s'; rewrite hart_put, Z.eqb_refl, plic_mask_put by (try change (ncpus s1) with (ncpus s); lia); reflexivity|].
  split; [intros j Hj Hne; unfold s'; rewrite hart_put by (try change (ncpus s1) with (ncpus s); lia); destruct (Z.eqb_spec h j); [congruence|reflexivity]|].
  split; [apply plic_complete_run; lia|]. split; [|intros j Hj; reflexivity].
  change (plic_served_irq (devs s') &' not32 (u32 (1 <<' (i + 1 - 1))) = plic_served_irq (devs s)).
  rewrite Es. replace (i + 1 - 1) with i by lia. apply served_roundtrip; [apply Hb|lia|exact Hb2].
Qed.

(** The claim register is not where the PLIC puts it: at the standard offset 4 of a context a read
    returns 0 and changes nothing, and a completion is ignored, so a standard driver never claims an
    interrupt.  Where the code does decode a claim, context [h] is taken for hart [h]: a claim through the
    context of a hart that does not exist dereferences a NULL hart. *)
Theorem plic_standard_claim_ignored h s : 0 <= h < 8 ->
  let o := PLIC_CONTEXT_BASE + PLIC_CONTEXT_STRIDE * h + 4 in
  plic_read o 2 s = Done (0, s) /\ (forall v, plic_write o v 2 s = Done (tt, s)) /\
  (h = ncpus s -> plic_mask s <> 0 -> plic_read (claim_offset h) 2 s = Stop UndefinedBehaviour).
Proof.
  intros Hh o. split; [|split].
  - subst o. unfold plic_read. rewrite run_gets. change (assert_c (2 =? 2)) with (Done tt). rewrite run_liftr_done.
    enum_bits h 8%nat; reflexivity.
  - intros v. subst o. unfold plic_write. rewrite run_gets. change (assert_c (2 =? 2)) with (Done tt). rewrite run_liftr_done.
    enum_bits h 8%nat; reflexivity.
  - intros Hn Hm. rewrite plic_claim_run by exact Hh. destruct (Z.eqb_spec (plic_mask s) 0); [contradiction|].
    unfold on_board. rewrite run_modify, run_bind. unfold plic_update_mip. rewrite run_gets.
    assert (forall t, ncpus t = ncpus s -> forall f, on_hart h f t = Stop UndefinedBehaviour) as K.
    { intros t Ht f. unfold on_hart, get_hart. rewrite run_bind, Ht. destruct (Z.leb_spec 0 h), (Z.ltb_spec h (ncpus s)); try lia; reflexivity. }
    destruct (negb _); [unfold set_mip; rewrite run_gets|unfold reset_mip]; rewrite K by reflexivity; reflexivity.
Qed.

(** ** A two-hart machine *)

Definition demo_env : VirtioEnv := {| uninit_byte _ := 0; chain_turns := 1000 |}.

Definition demo_board : Board :=
  mkBoard 0 [reset_cpu; reset_cpu] 5 0 (replicate 128 0) (mkSiFiveUART 0 0 0 0 0 0) dw_reset (mkConsole [] false []) [].

Lemma demo_board_wf : board_wf demo_board.
Proof.
  constructor; cbn; try (split; (discriminate || reflexivity)); try (repeat split; (discriminate || reflexivity)).
  - repeat constructor; apply reset_cpu_wf.
  - split; [reflexivity|]. change (Forall (in_u 32) (replicate 128 0)). apply Forall_replicate. split; (discriminate || reflexivity).
  - split; constructor.
  - constructor.
Qed.

Definition clint_pr : PhysMemoryRange := mkPhysMemoryRange 0x2000000 0xc0000 0xc0000 false 0 0 0 None [] 0 Dev_clint 7.

Definition demo_machine (words : list Z) : System Board :=
  mkSystem (reset_cpu <| pc := 0x80000000 |>) (mkVirtMachine false (-1) (-1) 0 0) (mkPhysMemoryMap [clint_pr; demo_ram])
    (store_words 0x100000 words) demo_board.

Lemma clint_timecmp_witness : exists s',
  @write_device Board (@board_ops demo_env) clint_pr 0x4008 0x1122334455667788 W64 (demo_machine []) = Done (tt, s') /\
  timecmp (hart s' 1) = 0x1122334455667788.
Proof.
  destruct (@clint_timecmp demo_env clint_pr 1 0x1122334455667788 (demo_machine [])) as (s' & E & T & _);
    [split; reflexivity|split; [discriminate|reflexivity]|discriminate|split; [discriminate|reflexivity]|].
  exists s'. split; [exact E|exact T].
Defined.

Lemma clint_mtime_witness : exists s',
  @write_device Board (@board_ops demo_env) clint_pr 0xbff8 0xF123456789ABCDEF W64 (demo_machine []) = Done (tt, s') /\
  @read_device Board (@board_ops demo_env) clint_pr 0xbff8 W64 s' = Done (0x0123456789ABCDEF, s').
Proof.
  destruct (@clint_mtime demo_env clint_pr 0xF123456789ABCDEF (demo_machine [])) as (s' & E & _ & _ & R);
    [split; reflexivity|reflexivity|split; [discriminate|reflexivity]..|].
  exists s'. split; [exact E|exact R].
Defined.

Lemma plic_set_irq_levels_witness : exists s', plic_set_irq 4 true (demo_machine []) = Done (tt, s') /\ plic_pending_irq (devs s') = 13.
Proof.
  destruct (plic_set_irq_levels 4 true (demo_machine []) ltac:(lia)) as (s' & E & P & _). exists s'. split; [exact E|exact P].
Defined.

Lemma plic_claim_complete_witness : exists s' i, plic_read (claim_offset 0) 2 (demo_machine []) = Done (i + 1, s') /\
  Z.testbit 5 i = true.
Proof.
  destruct (plic_claim_complete 0 (demo_machine []) demo_board_wf) as (s' & s'' & i & E & P & _);
    [lia|reflexivity|discriminate|reflexivity|].
  exists s', i. split; [exact E|exact P].
Defined.

Lemma plic_standard_claim_ignored_witness : plic_read 0x200004 2 (demo_machine []) = Done (0, demo_machine []).
Proof. exact (proj1 (plic_standard_claim_ignored 0 (demo_machine []) ltac:(lia))). Defined.
