(* ===== verification/Run.v ===== *)
(** * Running the machine ([dromajo.cpp], [virt_machine_run] of [dromajo_main.cpp],
      [virt_machine_get_sleep_duration] of [riscv_machine.cpp])

    The host program executes the harts in turn, one instruction each, until a
    round in which none of them wants to continue.  [switch_hart] makes hart
    [h] the executing one of the system: the C code reaches it by its index. *)

From S2P Require Import Prelude VirtioSlot Riscv Cutils Iomem Hostmem CpuState CpuWf Csr Trap Mmu Tlb Alu Exec ExecWf Interp Uart Machine.
From stdpp Require Import base list.
From Stdlib Require Import ZArith Lia Bool.
Local Open Scope Z_scope.
Local Open Scope bits_scope.

Definition switch_hart (h : Z) : MM unit := fun s =>
  if (0 <=? h) && (h <? ncpus s) then
    let b := devs s in
    Done (tt, s <| cpu := hart s h |>
                <| devs := b <| hartid := h |> <| cpu_state := <[Z.to_nat (hartid b) := cpu s]> (cpu_state b) |> |>)
  else Stop UndefinedBehaviour.

Definition on_common (f : VirtMachine -> VirtMachine) : MM unit := modify (fun s => s <| common := f (common s) |>).

Definition MAX_SLEEP_TIME := 10.

Definition virt_machine_get_sleep_duration (h ms_delay : Z) : MM Z :=
  c ← get_hart h;
  t ← rtc_get_time;
  ms_delay ← (if negb (tst (riscv_cpu_get_mip c) MIP_MTIP) && (0 <? t) then
                let ms_delay1 := s64 (timecmp c - t) in
                if ms_delay1 <=? 0 then _ ← set_mip h MIP_MTIP; mret 0
                else
                  let ms_delay1 := Z.quot ms_delay1 (RTC_FREQ / 1000) in
                  mret (if ms_delay1 <? ms_delay then ms_delay1 else ms_delay)
              else mret ms_delay);
  c ← get_hart h;
  mret (if negb (riscv_cpu_get_power_down c) then 0 else ms_delay).

Section Run.
Context `{VE : VirtioEnv} `{MH : MachineHooks} `{FP : SoftFp}.
Context (htif_tohost_addr : Z).

Definition virt_machine_run (h : Z) : MM bool :=
  _ ← switch_hart h;
  _ ← virt_machine_get_sleep_duration h MAX_SLEEP_TIME;
  _ ← riscv_cpu_interp 1;
  s ← gets id;
  passed ← (if negb (htif_tohost_addr =? 0) then
              tohost ← liftr (riscv_phys_read W32 s htif_tohost_addr);
              mret (match tohost with Some v => tst v 1 | None => false end)
            else mret false);
  if (passed : bool) then mret false
  else mret (negb (riscv_terminated (cpu s)) && (0 <? maxinsns (common s))).

(** [iterate_core], less what it prints. *)
Definition iterate_core (h : Z) : MM bool :=
  s ← gets id;
  _ ← on_common (fun m => m <| maxinsns := u64 (maxinsns m - 1) |>);
  if maxinsns (common s) <=? 0 then mret false
  else
    _ ← switch_hart h;
    c ← gets cpu;
    let last_pc := riscv_get_pc c in
    _ ← riscv_read_insn last_pc;
    keep_going ← virt_machine_run h;
    s ← gets id;
    if last_pc =? riscv_get_pc (cpu s) then mret false
    else if negb (trace (common s) =? 0) then
      _ ← on_common (fun m => m <| trace := u64 (trace m - 1) |>); mret keep_going
    else mret keep_going.

(** [for (i = 0; i < ncpus; ++i) keep_going |= iterate_core(m, i)]. *)
Fixpoint iterate_cores (h : Z) (n : nat) (keep_going : bool) : MM bool :=
  match n with
  | O => mret keep_going
  | S n => k ← iterate_core h; iterate_cores (h + 1) n (keep_going || k)
  end.

(** The [do ... while (keep_going)] loop of [main]. *)
Fixpoint main_loop (fuel : nat) : MM unit :=
  match fuel with
  | O => stop OutOfFuel
  | S fuel =>
      s ← gets id;
      keep_going ← iterate_cores 0 (length (cpu_state (devs s))) false;
      if (keep_going : bool) then main_loop fuel else mret tt
  end.

End Run.

(** ** The machine invariant *)

Section Invariant.
Context `{VE : VirtioEnv} `{MH : MachineHooks} {HL : HookLaws} `{FP : SoftFp} {FL : SoftFpLaws}.
Context (htif_tohost_addr : Z) (n nv : nat).

(** How a run of a machine with [nv] virtio devices may stop: the host program exits or is undefined, or a virtio device walks
    over a descriptor chain without end. *)
Definition run_stop (r : stop_reason) : Prop := host_stop r \/ (r = Endless /\ (0 < nv)%nat).

(** [n] harts and [nv] virtio devices, all well formed, with the machine-wide fields [vm]; hart [h] is executing. *)
Abbreviation wf_on vm h := (@sys_wf Board (board_inv vm n nv h)).
Definition machine_wf (vm : VirtMachine) (s : System Board) : Prop := exists h, wf_on vm h s.

Lemma switch_hart_wf vm h s : machine_wf vm s ->
  match switch_hart h s with Done (_, s') => wf_on vm h s' | Stop r => run_stop r end.
Proof.
  intros [h0 (Hc & Hm & Hvm & Hn & Hh & Hv & Hb)]. unfold switch_hart, ncpus.
  destruct (Z.leb_spec 0 h); [|left; exact I]. destruct (Z.ltb_spec h (Z.of_nat (length (cpu_state (devs s))))); [|left; exact I].
  cbn [andb]. destruct Hb. split; [|split; [exact Hm|split; [exact Hvm|split; [cbn; rewrite length_insert; exact Hn|split; [reflexivity|split; [exact Hv|]]]]]].
  - cbn. unfold hart. destruct (h =? _); [exact Hc|]. rewrite Forall_nth in bw_cpus. apply bw_cpus. lia.
  - constructor; auto; cbn; rewrite ?length_insert; [lia|]. apply Forall_insert; auto.
Qed.

Lemma keeps_sleep vm h0 h ms : keeps (DW := board_inv vm n nv h0) (virt_machine_get_sleep_duration h ms) (fun _ => True).
Proof.
  unfold virt_machine_get_sleep_duration, rtc_get_time. eapply keeps_bind; [apply keeps_get_hart|]. intros c _.
  eapply (keeps_bind _ _ (fun _ => True)); [eapply keeps_bind; [apply keeps_get_hart|intros ? _; apply keeps_ret, I]|intros t _].
  eapply (keeps_bind _ _ (fun _ => True)).
  - destruct (_ && _); [|apply keeps_ret, I]. cbv zeta. destruct (_ <=? 0); [|apply keeps_ret, I].
    eapply keeps_bind; [apply keeps_set_mip; split; (discriminate || reflexivity)|intros _ _; apply keeps_ret, I].
  - intros d _. eapply keeps_bind; [apply keeps_get_hart|intros ? _; apply keeps_ret, I].
Qed.

Lemma phys_read_stop w (s : System Board) a : settled (riscv_phys_read w s a).
Proof. unfold riscv_phys_read. repeat (case_match; try exact I). Qed.

(** [virt_machine_run] after the switch. *)
Lemma run_wf vm h s : machine_wf vm s ->
  match virt_machine_run htif_tohost_addr h s with
  | Done (k, s') => wf_on vm h s' /\ (k = true -> 0 < maxinsns vm) | Stop r => run_stop r end.
Proof.
  intros Hs. unfold virt_machine_run. rewrite run_bind. pose proof (switch_hart_wf vm h s Hs) as Hw.
  destruct (switch_hart h s) as [[u s1]|r]; [|exact Hw].
  assert (keeps (DW := board_inv vm n nv h) (
    _ ← virt_machine_get_sleep_duration h MAX_SLEEP_TIME; _ ← riscv_cpu_interp 1; s ← gets id;
    passed ← (if negb (htif_tohost_addr =? 0) then
                tohost ← liftr (riscv_phys_read W32 s htif_tohost_addr);
                mret (match tohost with Some v => tst v 1 | None => false end)
              else mret false);
    if (passed : bool) then mret false else mret (negb (riscv_terminated (cpu s)) && (0 <? maxinsns (common s))))
    (fun k => k = true -> 0 < maxinsns vm)) as K; [|exact (K s1 Hw)].
  pose proof (board_laws vm n nv h) as HDL.
  eapply keeps_bind; [apply keeps_sleep|intros _ _]. eapply keeps_bind; [apply keeps_interp; lia|intros _ _].
  eapply keeps_bind; [apply keeps_sys|]. intros s2 (_ & _ & Hvm & _). eapply (keeps_bind _ _ (fun _ => True)).
  - destruct (negb _); [|apply keeps_ret, I]. eapply (keeps_bind _ _ (fun _ => True)); [|intros ? _; apply keeps_ret, I].
    apply keeps_liftr; [auto|apply phys_read_stop].
  - intros passed _. destruct passed; apply keeps_ret; [discriminate|]. rewrite Hvm. intros Hk. apply andb_true_iff in Hk as [_ Hk].
    apply Z.ltb_lt, Hk.
Qed.

Lemma on_common_wf vm f s : machine_wf vm s -> machine_wf (f vm) (s <| common := f (common s) |>).
Proof. intros [h (Hc & Hm & Hvm & Hr)]. exists h. split; [exact Hc|]. split; [exact Hm|]. split; [cbn; congruence|exact Hr]. Qed.

Lemma keeps_read_insn vm h a : in_u 64 a -> keeps (DW := board_inv vm n nv h) (riscv_read_insn a) (fun _ => True).
Proof.
  intros Ha. unfold riscv_read_insn. eapply keeps_bind; [apply keeps_cpu|]. intros c Hc.
  eapply keeps_bind; [apply keeps_insn_slow, Ha|]. intros r _.
  eapply keeps_bind; [apply keeps_modify_cpu|intros _ _; apply keeps_ret, I].
  intros c' Hc'. apply wf_set_pending_tval; [apply wf_set_pending_exception, Hc'|apply Hc].
Qed.

(** One instruction of hart [h]: the limit is decremented (with wrap-around), and only a run with a limit
    above 1 asks to continue. *)
Lemma iterate_core_wf vm h s : in_u 64 (maxinsns vm) -> machine_wf vm s ->
  match iterate_core htif_tohost_addr h s with
  | Done (k, s') => exists vm', machine_wf vm' s' /\ maxinsns vm' = u64 (maxinsns vm - 1) /\ (k = true -> 1 < maxinsns vm)
  | Stop r => run_stop r end.
Proof.
  intros Hi Hs. unfold iterate_core. rewrite run_gets. unfold on_common. rewrite run_modify. unfold id.
  assert (vm = common s) as -> by (destruct Hs as [h0 (_ & _ & Hvm & _)]; symmetry; exact Hvm).
  pose proof (on_common_wf (common s) (fun m => m <| maxinsns := u64 (maxinsns m - 1) |>) s Hs) as Hw.
  cbv beta in Hw. set (vm1 := (common s) <| maxinsns := _ |>) in *. set (vm := common s) in *. set (s1 := s <| common := _ |>) in *.
  assert (maxinsns vm1 = u64 (maxinsns vm - 1)) as Em by reflexivity.
  destruct (Z.leb_spec (maxinsns vm) 0); [exists vm1; split; [exact Hw|split; [exact Em|discriminate]]|].
  rewrite run_bind. pose proof (switch_hart_wf vm1 h s1 Hw) as H2. destruct (switch_hart h s1) as [[u s2]|]; [|exact H2].
  rewrite run_gets, run_bind. pose proof (keeps_read_insn vm1 h (pc (cpu s2)) (wf_pc _ (proj1 H2)) s2 H2) as H3. unfold riscv_get_pc at 1.
  destruct (riscv_read_insn (pc (cpu s2)) s2) as [[r s3]|]; [|exact H3]. destruct H3 as [H3 _].
  rewrite run_bind. pose proof (run_wf vm1 h s3 (ex_intro _ h H3)) as H4.
  destruct (virt_machine_run htif_tohost_addr h s3) as [[k s4]|]; [|exact H4]. destruct H4 as [H4 Hk].
  assert (k = true -> 1 < maxinsns vm) as Hk'.
  { intros E. specialize (Hk E). rewrite Em in Hk. unfold u64, wrapu, in_u in *. rewrite Z.mod_small in Hk by lia. lia. }
  rewrite run_gets. destruct (_ =? _); [exists vm1; split; [exists h; exact H4|split; [exact Em|discriminate]]|].
  destruct (negb _); [|exists vm1; split; [exists h; exact H4|split; [exact Em|exact Hk']]].
  unfold on_common. rewrite run_modify, run_ret. eexists. split; [apply (on_common_wf vm1 _ _ (ex_intro _ h H4))|]. split; [exact Em|exact Hk'].
Qed.

Lemma machine_harts vm s : machine_wf vm s -> length (cpu_state (devs s)) = n.
Proof. intros [h (_ & _ & _ & Hn & _)]. exact Hn. Qed.

Lemma run_bind_return {S A} (m : SM S A) s : (k ← m; mret k) s = m s.
Proof. rewrite run_bind. destruct (m s) as [[a s']|]; reflexivity. Qed.

(** The loop of [main] with one hart. *)
Lemma main_loop_single fuel : forall vm s, n = 1%nat -> in_u 64 (maxinsns vm) -> machine_wf vm s -> maxinsns vm < Z.of_nat fuel ->
  match main_loop htif_tohost_addr fuel s with Done (_, s') => exists vm', machine_wf vm' s' | Stop r => run_stop r end.
Proof.
  induction fuel as [|fuel IH]; intros vm s Hn Hi Hs Hf; [unfold in_u in Hi; lia|]. cbn [main_loop]. rewrite run_gets.
  unfold id. rewrite (machine_harts vm s Hs), Hn. cbn [iterate_cores]. rewrite run_assoc, run_bind. cbn [orb].
  pose proof (iterate_core_wf vm 0 s Hi Hs) as K. destruct (iterate_core htif_tohost_addr 0 s) as [[k s1]|]; [|exact K].
  destruct K as (vm1 & Hs1 & Em & Hk). rewrite run_bind_ret. destruct k; [|exists vm1; exact Hs1].
  specialize (Hk eq_refl). assert (maxinsns vm1 = maxinsns vm - 1) as E1.
  { rewrite Em. unfold u64, wrapu, in_u in *. apply Z.mod_small. lia. }
  apply (IH vm1); auto; rewrite E1; unfold in_u in *; lia.
Qed.

End Invariant.

(** C40 The instruction limit stops the emulator: with one hart and an instruction limit [N] (a 64-bit unsigned number), whatever
    the program does, the main loop ends after at most [N + 1] rounds with a well-formed machine, unless an instruction stops
    the host program on the way; the one other way not to end, on a machine with virtio devices only, is a device that walks
    without end over a descriptor chain of the guest.  (The CSR hooks of an embedder and the
    floating-point library are taken at their interfaces [HookLaws] and [SoftFpLaws], the second of which [SoftInst]
    discharges; the devices are those of the board.) *)
Theorem single_hart_terminates `{VE : VirtioEnv} `{MH : MachineHooks} {HL : HookLaws} `{FP : SoftFp} {FL : SoftFpLaws}
    htif_tohost_addr nv vm s : machine_wf 1 nv vm s -> in_u 64 (maxinsns vm) ->
  match main_loop htif_tohost_addr (S (Z.to_nat (maxinsns vm))) s with
  | Done (_, s') => exists vm', machine_wf 1 nv vm' s'
  | Stop r => host_stop r \/ (r = Endless /\ (0 < nv)%nat)
  end.
Proof. intros Hs Hi. apply (main_loop_single htif_tohost_addr 1 nv _ vm); auto. unfold in_u in Hi. lia. Qed.

(** The timer interrupt: polling the timer raises MTIP of the hart exactly when the clock has started and
    reached the comparator (their difference read as a signed 64-bit number), never lowers it, and
    changes nothing else of the hart but its sleep state. *)
Theorem timer_interrupt h ms s : 0 <= h < ncpus s -> in_u 32 (mip (hart s h)) ->
  let t := mcycle (hart s 0) / RTC_FREQ_DIV in
  exists d s', virt_machine_get_sleep_duration h ms s = Done (d, s') /\
    Z.testbit (mip (hart s' h)) 7 = Z.testbit (mip (hart s h)) 7 || ((0 <? t) && (s64 (timecmp (hart s h) - t) <=? 0)) /\
    (forall k, 0 <= k -> k <> 7 -> Z.testbit (mip (hart s' h)) k = Z.testbit (mip (hart s h)) k) /\
    (forall i, 0 <= i -> i <> h -> hart s' i = hart s i) /\ pc (hart s' h) = pc (hart s h) /\ reg (hart s' h) = reg (hart s h).
Proof.
  intros Hh Hm t. unfold virt_machine_get_sleep_duration, rtc_get_time, riscv_cpu_get_mip.
  rewrite get_hart_run by exact Hh. rewrite run_assoc, get_hart_run, run_bind_ret by lia. fold t.
  assert (tst (mip (hart s h)) MIP_MTIP = Z.testbit (mip (hart s h)) 7) as -> by exact (tst_pow2 _ 7 ltac:(lia)).
  destruct (Z.testbit (mip (hart s h)) 7) eqn:E7; cbn [negb andb orb].
  { rewrite run_bind_ret, get_hart_run by exact Hh. eexists _, s. split; [reflexivity|]. repeat split; auto. }
  destruct (Z.ltb_spec 0 t); cbn [andb]; [|rewrite run_bind_ret, get_hart_run by exact Hh; eexists _, s; split; [reflexivity|]; repeat split; auto].
  destruct (Z.leb_spec (s64 (timecmp (hart s h) - t)) 0); [|rewrite run_bind_ret, get_hart_run by exact Hh; eexists _, s; split; [reflexivity|]; repeat split; auto].
  rewrite run_assoc, run_bind, set_mip_run, run_bind_ret by exact Hh.
  rewrite get_hart_run, hart_put, Z.eqb_refl by (rewrite ?ncpus_put; lia). eexists _, _. split; [reflexivity|].
  rewrite hart_put, Z.eqb_refl by lia. set (c := hart s h) in *.
  assert (mip (riscv_cpu_set_mip (common s) MIP_MTIP c) = mip c |' MIP_MTIP /\ pc (riscv_cpu_set_mip (common s) MIP_MTIP c) = pc c /\
          reg (riscv_cpu_set_mip (common s) MIP_MTIP c) = reg c) as (-> & -> & ->)
    by (unfold riscv_cpu_set_mip; cbv zeta; destruct (_ && _); repeat split).
  split; [rewrite Z.lor_spec; apply orb_true_r|]. split; [|split; [|split; reflexivity]].
  - intros k Hk Hk7. rewrite Z.lor_spec. change MIP_MTIP with (2 ^ 7). rewrite Z.pow2_bits_false by lia. apply orb_false_r.
  - intros i Hi Hne. rewrite hart_put by lia. destruct (Z.eqb_spec h i); [congruence|reflexivity].
Qed.

(** ** Instances *)

(** [n] machine-mode harts that execute the same words, with an instruction limit. *)
Definition demo_harts (n : nat) (limit : Z) (words : list Z) : System Board :=
  let c := reset_cpu <| pc := 0x80000000 |> in
  mkSystem c (mkVirtMachine false (-1) (-1) limit 0) (mkPhysMemoryMap [clint_pr; demo_ram]) (store_words 0x100000 words)
    (demo_board <| cpu_state := replicate n c |>).

Lemma demo_harts_wf n limit words : (0 < n)%nat -> machine_wf n 0 (mkVirtMachine false (-1) (-1) limit 0) (demo_harts n limit words).
Proof.
  intros Hn. assert (cpu_wf (reset_cpu <| pc := 0x80000000 |>)) as Hc
    by (apply wf_set_pc; [apply reset_cpu_wf|split; [discriminate|reflexivity]]).
  exists 0. split; [exact Hc|]. split; [apply store_words_wf|]. split; [reflexivity|].
  assert (length (cpu_state (devs (demo_harts n limit words))) = n) as El by apply length_replicate.
  split; [exact El|]. split; [reflexivity|]. split; [reflexivity|]. pose proof demo_board_wf as []. constructor; auto.
  - rewrite El. cbn. lia.
  - apply Forall_replicate, Hc.
Qed.

(** [nop; j -4]: every instruction changes the pc. *)
Definition demo_spin : list Z := [0x13; 0xffdff06f].

(** The same machines with virtio devices. *)
Definition with_virtio (l : list VirtioSlot) (s : System Board) : System Board := s <| devs := (devs s) <| virtio := l |> |>.

Lemma with_virtio_wf n vm l s : Forall slot_ok l -> machine_wf n 0 vm s -> machine_wf n (length l) vm (with_virtio l s).
Proof.
  intros Hl [h (Hc & Hm & Hvm & Hn & Hh & Hv & [])]. exists h. split; [exact Hc|]. split; [exact Hm|]. split; [exact Hvm|].
  split; [exact Hn|]. split; [exact Hh|]. split; [reflexivity|]. constructor; auto.
Qed.

Lemma single_hart_terminates_witness :
  match @main_loop demo_env no_hooks null_fp 0 (S 5) (with_virtio [console_slot] (demo_harts 1 5 demo_spin)) with
  | Done (_, s') => exists vm', machine_wf 1 1 vm' s' | Stop r => host_stop r \/ (r = Endless /\ (0 < 1)%nat) end.
Proof.
  exact (@single_hart_terminates demo_env no_hooks no_hooks_laws null_fp null_fp_laws 0 1
    (mkVirtMachine false (-1) (-1) 5 0) (with_virtio [console_slot] (demo_harts 1 5 demo_spin))
    (with_virtio_wf 1 _ [console_slot] _ (proj2 (Forall_singleton _ _) console_slot_ok) (demo_harts_wf 1 5 demo_spin ltac:(lia)))
    ltac:(split; [discriminate|reflexivity])).
Defined.

Lemma timer_interrupt_witness : exists d s',
  virt_machine_get_sleep_duration 1 10 (put_hart 0 (reset_cpu <| mcycle := 1600 |>) (demo_machine [])) = Done (d, s') /\
  Z.testbit (mip (hart s' 1)) 7 = true.
Proof.
  destruct (timer_interrupt 1 10 (put_hart 0 (reset_cpu <| mcycle := 1600 |>) (demo_machine []))) as (d & s' & E & B & _);
    [split; [discriminate|reflexivity]|split; [discriminate|reflexivity]|].
  exists d, s'. split; [exact E|]. rewrite B. reflexivity.
Defined.

(** The limit and whether the round continues, after each of some rounds. *)
Fixpoint rounds (k : nat) (n : nat) (s : System Board) : list (Z * bool) :=
  match k with
  | O => []
  | S k => match @iterate_cores demo_env no_hooks null_fp 0 0 n false s with
           | Done (b, s') => (maxinsns (common s'), b) :: rounds k n s'
           | Stop _ => []
           end
  end.

(** With more than one hart the instruction limit does not stop the run: when the limit reaches 0 in the
    middle of a round, the next hart's decrement wraps to 2^64 - 1 and the machine keeps going.  With
    one hart and the same program and limit the run ends. *)
Theorem multi_hart_limit_wraps :
  rounds 3 2 (demo_harts 2 2 demo_spin) = [(0, true); (2 ^ 64 - 2, true); (2 ^ 64 - 4, true)] /\
  rounds 2 1 (demo_harts 1 2 demo_spin) = [(1, true); (0, false)].
Proof. vm_compute. auto. Qed.
