(* ===== verification/Cosim.v ===== *)
(** * Co-simulation ([dromajo_cosim.cpp])

    The emulator as the golden model of a hardware design: [dromajo_cosim_step]
    executes one instruction of a hart, overrides what the model cannot know
    (device loads, counters, failed store-conditionals) with the design's
    value, and compares program counter, instruction and written value. *)

From S2P Require Import Prelude Riscv Cutils Iomem Hostmem CpuState CpuWf Csr Trap Mmu Tlb Alu Exec ExecWf Interp Uart Machine Run.
From stdpp Require Import base list relations.
From Stdlib Require Import ZArith Lia Bool.
Local Open Scope Z_scope.
Local Open Scope bits_scope.

(** ** Instruction classes *)

Definition is_store_conditional (insn : Z) : bool :=
  let opcode := insn &' 0x7f in
  let funct3 := (insn >>' 12) &' 7 in
  (opcode =? 0x2f) && (insn >>' 27 =? 3) && ((funct3 =? 2) || (funct3 =? 3)).

(** AMO instructions, LR included, SC excluded. *)
Definition is_amo (insn : Z) : bool :=
  let opcode := insn &' 0x7f in
  if negb (opcode =? 0x2f) then false
  else existsb (fun f => insn >>' 27 =? f) [1; 2; 0; 4; 0xc; 0x8; 0x10; 0x14; 0x18; 0x1c].

(** ** The machine's configuration *)

Record AddressSet := mkAddressSet { as_start : Z; as_size : Z }.

Record CosimConfig := mkCosimConfig {
  htif_tohost_addr : Z;
  mmio_start : Z;
  mmio_end : Z;
  mmio_addrset : list AddressSet;
  skip_commit : list Z }.

(** [!riscv_cpu_get_phys_addr(s, va, ACCESS_READ, &pa) && lo <= pa && pa < hi]. *)
Definition load_within (s : System Board) (va lo hi : Z) : res bool :=
  r ← riscv_cpu_get_phys_addr s va ACCESS_READ;
  Done (match r with PhysOk pa => (lo <=? pa) && (pa <? hi) | PhysErr _ => false end).

Fixpoint load_within_any (s : System Board) (va : Z) (l : list AddressSet) : res bool :=
  match l with
  | [] => Done false
  | a :: l =>
      b ← load_within s va (as_start a) (u64 (as_start a + as_size a));
      if (b : bool) then Done true else load_within_any s va l
  end.

Definition is_mmio_load (cfg : CosimConfig) (reg offset : Z) : MM bool :=
  s ← gets id;
  base ← liftr (riscv_get_reg_previous (cpu s) reg);
  let va := u64 (base + offset) in
  b ← liftr (load_within s va (mmio_start cfg) (mmio_end cfg));
  if (b : bool) then mret true else liftr (load_within_any s va (mmio_addrset cfg)).

Definition set_reg (rn val : Z) : MM unit :=
  s ← gets id; c ← liftr (riscv_set_reg rn val (cpu s)); modify_cpu (fun _ => c).

(** The CSRs whose value the model takes from the design. *)
Definition dut_csr (csrno : Z) : bool :=
  ((0xB00 <=? csrno) && (csrno <? 0xB20)) || ((0xC00 <=? csrno) && (csrno <? 0xC20)) || ((csrno =? 0x344) || (csrno =? 0x144)).

(** The destination and the effective address of a load, as [(rd, reg, offset)]. *)
Definition load_operands (insn : Z) : option (Z * Z * Z) :=
  let opcode := insn &' 0x7f in
  let rd := (insn >>' 7) &' 0x1f in
  let rdc := ((insn >>' 2) &' 7) + 8 in
  if ((opcode =? 3) || is_amo insn) && negb (rd =? 0) then
    Some (rd, (insn >>' 15) &' 0x1f, if opcode =? 3 then s32 insn >>' 20 else 0)
  else if (insn &' 0xE003 =? 0x6000) && negb (rdc =? 0) then
    Some (rdc, ((insn >>' 7) &' 7) + 8, get_field1 insn 10 3 5 |' get_field1 insn 5 6 7)
  else if (insn &' 0xE003 =? 0x4000) && negb (rdc =? 0) then
    Some (rdc, ((insn >>' 7) &' 7) + 8, get_field1 insn 10 3 5 |' get_field1 insn 6 2 2 |' get_field1 insn 5 6 6)
  else None.

Definition handle_dut_overrides (cfg : CosimConfig) (insn dut_wdata : Z) : MM unit :=
  let opcode := insn &' 0x7f in
  let csrno := insn >>' 20 in
  let rd := (insn >>' 7) &' 0x1f in
  _ ← (if (opcode =? 0x73) && negb (rd =? 0) && dut_csr csrno then set_reg rd dut_wdata else mret tt);
  match load_operands insn with
  | None => mret tt
  | Some (rd, reg, offset) =>
      b ← is_mmio_load cfg reg offset;
      if (b : bool) then set_reg rd dut_wdata else mret tt
  end.

Definition dromajo_cosim_raise_trap (cause : Z) : MM unit :=
  s ← gets id;
  if cause <? 0 then
    _ ← liftr (assert_c (pending_interrupt (common s) =? -1));
    on_common (fun m => m <| pending_interrupt := cause &' 63 |>)
  else on_common (fun m => m <| vm_pending_exception := s32 cause |>).

(** ** One step *)

(** What the execution loop leaves in the locals of [dromajo_cosim_step]. *)
Record Emu := mkEmu { emu_pc : Z; emu_insn : Z; iregno : Z; fregno : Z }.

Section Step.
Context `{VE : VirtioEnv} `{MH : MachineHooks} `{FP : SoftFp}.
Context (cfg : CosimConfig).

(** The [for (;;)] loop: [inl] is the early [return 0x1FFF].  [insn0] is the value of [emu_insn] when the
    instruction cannot be read (indeterminate at first, the previous one later). *)
Fixpoint cosim_loop (fuel : nat) (insn0 dut_pc dut_insn dut_wdata : Z) : MM (Z + Emu) :=
  match fuel with
  | O => stop OutOfFuel
  | S fuel =>
      c ← gets cpu;
      let pc := riscv_get_pc c in
      r ← riscv_read_insn pc;
      let insn := default insn0 r in
      let insn := if negb (insn &' 3 =? 3) then insn &' 0xFFFF else insn in
      if (pc =? dut_pc) && (insn =? dut_insn) && is_store_conditional insn && negb (dut_wdata =? 0) then
        let ireg := (insn >>' 7) &' 0x1f in
        _ ← (if 0 <? ireg then set_reg ireg dut_wdata else mret tt);
        _ ← modify_cpu (riscv_set_pc (u64 (pc + 4)));
        mret (inr (mkEmu pc insn ireg (-1)))
      else
        s ← gets id;
        early ← (if negb (pending_interrupt (common s) =? -1) && negb (vm_pending_exception (common s) =? -1) then
                   _ ← riscv_cpu_interp 1;
                   c ← gets cpu;
                   let cause := s32 (if priv c =? PRV_S then scause c else mcause c) in
                   mret (negb (vm_pending_exception (common s) =? cause))
                 else mret false);
        if (early : bool) then mret (inl 0x1FFF)
        else
          s ← gets id;
          _ ← (if negb (pending_interrupt (common s) =? -1) then
                 _ ← (if pending_interrupt (common s) <? 32 then mret tt else stop UndefinedBehaviour);
                 modify_cpu (fun c => riscv_cpu_set_mip (common s) (riscv_cpu_get_mip c |' u32 (1 <<' pending_interrupt (common s))) c)
               else mret tt);
          n ← riscv_cpu_interp 1;
          if negb (n =? 0) then
            c ← gets cpu;
            mret (inr (mkEmu pc insn (riscv_get_most_recently_written_reg c) (riscv_get_most_recently_written_fp_reg c)))
          else
            _ ← on_common (fun m => m <| pending_interrupt := -1 |> <| vm_pending_exception := -1 |>);
            cosim_loop fuel insn dut_pc dut_insn dut_wdata
  end.

(** After the loop: overrides, comparison, and the shadow registers. *)
Definition cosim_check (e : Emu) (dut_pc dut_insn dut_wdata : Z) (check : bool) : MM Z :=
  _ ← (if check then handle_dut_overrides cfg (emu_insn e) dut_wdata else mret tt);
  s ← gets id;
  wdata ← (if 0 <? iregno e then v ← liftr (riscv_get_reg (cpu s) (iregno e)); mret (Some v)
           else if 0 <=? fregno e then v ← liftr (riscv_get_fpreg (cpu s) (fregno e)); mret (Some v)
           else mret None);
  if negb check then mret 0
  else
    let exit_code :=
      if existsb (fun i => i =? emu_insn e) (skip_commit cfg) then 3
      else if negb (emu_pc e =? dut_pc)
              || (negb (emu_insn e =? dut_insn) && (emu_insn e &' 3 =? 3))
              || match wdata with Some v => negb (v =? dut_wdata) | None => false end
      then 0x1FFF else 0 in
    _ ← modify_cpu riscv_cpu_sync_regs;
    mret exit_code.


End Step.

(** ** What a step that reports success guarantees *)


Section Verdict.
Context `{VE : VirtioEnv} `{MH : MachineHooks} `{FP : SoftFp}.
Context (cfg : CosimConfig).




(** ** What the loop does *)








Section Loop.
Context {HL : HookLaws} {FL : SoftFpLaws} (n nv : nat).




End Loop.



Lemma sync_length c : length (reg_prior (riscv_cpu_sync_regs c)) = length (reg_prior c).
Proof.
  assert (forall ks l, length (fold_left (fun l j => aset l j (aget (reg c) j)) ks l) = length l) as HL.
  { intros ks. induction ks as [|k ks IH]; intros l; [reflexivity|]. cbn [fold_left]. rewrite IH. unfold aset. apply length_insert. }
  exact (HL (seqZ 1 31) (reg_prior c)).
Qed.


End Verdict.

(** ** Loads from devices *)

Lemma low_bits insn m k : insn &' m = k -> m &' 3 = 3 -> insn &' 3 = k &' 3.
Proof. intros <- Hm. rewrite <- Z.land_assoc, Hm. reflexivity. Qed.

Lemma load_operands_range insn rd rs off : load_operands insn = Some (rd, rs, off) ->
  0 < rd < 32 /\ 0 <= rs < 32 /\ insn &' 0x7f <> 0x73.
Proof.
  unfold load_operands. pose proof (land31_bound (insn >>' 7)) as B1. pose proof (land31_bound (insn >>' 15)) as B2.
  assert (forall x, 0 <= x &' 7 < 8) as B3 by (intros x; apply (land_ones_bound x 3); lia).
  pose proof (B3 (insn >>' 2)) as B4. pose proof (B3 (insn >>' 7)) as B5.
  destruct (((insn &' 0x7f =? 3) || is_amo insn) && negb ((insn >>' 7) &' 0x1f =? 0)) eqn:E1.
  - apply andb_true_iff in E1 as [E1 E2]. rewrite negb_true_iff, Z.eqb_neq in E2. intros [= <- <- _]. split; [lia|]. split; [lia|].
    intros E. unfold is_amo in E1. rewrite E in E1. discriminate.
  - destruct ((insn &' 0xE003 =? 0x6000) && _) eqn:E2; [|destruct ((insn &' 0xE003 =? 0x4000) && _) eqn:E3; [|discriminate]];
      intros [= <- <- _]; (split; [lia|]; split; [lia|]); intros E; apply (low_bits _ 0x7f) in E; try reflexivity.
    + apply andb_true_iff in E2 as [E2 _]. apply Z.eqb_eq, (low_bits _ 0xE003) in E2; [|reflexivity]. rewrite E in E2. discriminate.
    + apply andb_true_iff in E3 as [E3 _]. apply Z.eqb_eq, (low_bits _ 0xE003) in E3; [|reflexivity]. rewrite E in E3. discriminate.
Qed.

(** The comparison after a device load: when the instruction is a load, AMO, [c.lw] or [c.ld] that wrote [rd] and whose
    address translates into the design's device window, the comparison succeeds whatever value the design read, and that
    value is what the destination register holds afterwards. *)
Theorem mmio_load_follows_dut cfg e dut_wdata s rd rs off pa :
  load_operands (emu_insn e) = Some (rd, rs, off) -> iregno e = rd -> length (reg (cpu s)) = 32%nat ->
  riscv_cpu_get_phys_addr s (u64 (aget (reg_prior (cpu s)) rs + off)) ACCESS_READ = Done (PhysOk pa) ->
  mmio_start cfg <= pa < mmio_end cfg -> ~ In (emu_insn e) (skip_commit cfg) ->
  exists s', cosim_check cfg e (emu_pc e) (emu_insn e) dut_wdata true s = Done (0, s') /\ aget (reg (cpu s')) rd = dut_wdata.
Proof.
  intros Hl Hi Hlen Hpa Hw Hskip. destruct (load_operands_range _ _ _ _ Hl) as (Hrd & Hrs & Hop).
  unfold cosim_check, handle_dut_overrides. cbv zeta. destruct (Z.eqb_spec (emu_insn e &' 0x7f) 0x73); [contradiction|]. cbn [andb].
  rewrite !run_assoc, run_bind_ret, Hl. unfold is_mmio_load. rewrite !run_assoc, run_gets. unfold id.
  assert (riscv_get_reg_previous (cpu s) rs = Done (aget (reg_prior (cpu s)) rs)) as ->.
  { unfold riscv_get_reg_previous. destruct (Z.leb_spec 0 rs), (Z.ltb_spec rs 32); try lia. reflexivity. }
  rewrite !run_assoc, run_liftr_done. cbv zeta. unfold load_within. rewrite Hpa. cbn [mbind res_bind].
  destruct (Z.leb_spec (mmio_start cfg) pa), (Z.ltb_spec pa (mmio_end cfg)); try lia. cbn [andb].
  rewrite !run_assoc, run_liftr_done, run_bind_ret. unfold set_reg. rewrite run_assoc, run_gets. unfold id.
  assert (riscv_set_reg rd dut_wdata (cpu s) = Done ((cpu s) <| reg := aset (reg (cpu s)) rd dut_wdata |>)) as ->.
  { unfold riscv_set_reg. destruct (Z.ltb_spec 0 rd), (Z.ltb_spec rd 32); try lia. reflexivity. }
  rewrite run_assoc, run_liftr_done. unfold modify_cpu. rewrite run_modify, run_gets. rewrite Hi.
  destruct (Z.ltb_spec 0 rd); [|lia]. set (s1 := on_cpu _ s).
  assert (aget (reg (cpu s1)) rd = dut_wdata) as Er.
  { change (reg (cpu s1)) with (aset (reg (cpu s)) rd dut_wdata). rewrite aget_aset, Z.eqb_refl by lia. reflexivity. }
  assert (riscv_get_reg (cpu s1) rd = Done dut_wdata) as Eg.
  { unfold riscv_get_reg. destruct (Z.leb_spec 0 rd), (Z.ltb_spec rd 32); try lia. cbn [andb assert_c mbind res_bind]. rewrite Er. reflexivity. }
  unfold id. rewrite run_assoc, Eg, run_liftr_done, run_bind_ret. cbn [negb]. cbv zeta. rewrite run_modify, run_ret, !Z.eqb_refl. cbn [negb andb orb].
  destruct (existsb _ _) eqn:Ex.
  - apply existsb_exists in Ex as (x & Hx & Ex). apply Z.eqb_eq in Ex as ->. contradiction.
  - eexists. split; [reflexivity|]. exact Er.
Qed.

(** The other loads are not overridden: [c.lwsp], [c.ldsp], [flw], [fld], and the compressed floating-point loads, are not
    recognised, so the model keeps the value it has read from its own device. *)
Lemma loads_not_overridden cfg wdata s : forallb (fun insn =>
  match load_operands insn with None => true | Some _ => false end && negb (insn &' 0x7f =? 0x73))
    [0x4282 (* c.lwsp t0, 0(sp) *); 0x6282 (* c.ldsp t0, 0(sp) *); 0x00032287 (* flw ft5, 0(t1) *); 0x00033287 (* fld ft5, 0(t1) *); 0x2000 (* c.fld fs0, 0(s0) *)] = true /\
  handle_dut_overrides cfg 0x4282 wdata s = Done (tt, s) /\ handle_dut_overrides cfg 0x00033287 wdata s = Done (tt, s).
Proof. repeat split; reflexivity. Qed.

(** ** Instances *)

Definition demo_cfg : CosimConfig := mkCosimConfig 0 0x2000000 0x20c0000 [] [].



(** [lw x5, 0(x6)] with [x6] in the device window. *)
Definition demo_mmio : System Board :=
  let s := demo_harts 1 100 [] in s <| cpu := (cpu s) <| reg_prior := aset (reg_prior (cpu s)) 6 0x2000004 |> |>.

Lemma mmio_load_follows_dut_witness : exists s',
  cosim_check demo_cfg (mkEmu 0x80000000 0x00032283 5 (-1)) 0x80000000 0x00032283 0x1234 true demo_mmio = Done (0, s') /\
  aget (reg (cpu s')) 5 = 0x1234.
Proof.
  apply (mmio_load_follows_dut demo_cfg (mkEmu 0x80000000 0x00032283 5 (-1)) 0x1234 demo_mmio 5 6 0 0x2000004);
    [reflexivity..|vm_compute; reflexivity|split; [discriminate|reflexivity]|intros []].
Defined.

(** A hart whose trap vector cannot be fetched: after one trap its state repeats. *)
Definition stuck : System Board :=
  let s := demo_harts 1 100 [] in
  match @riscv_cpu_interp Board (@board_ops demo_env) no_hooks null_fp 1 (s <| cpu := (cpu s) <| pc := 0 |> |>) with
  | Done (_, s') => s' | Stop _ => s end.

Lemma stuck_read : riscv_read_insn 0 stuck = Done (None, stuck).
Proof. vm_compute. reflexivity. Qed.
Lemma stuck_interp : @riscv_cpu_interp Board (@board_ops demo_env) no_hooks null_fp 1 stuck = Done (0, stuck).
Proof. vm_compute. reflexivity. Qed.
Lemma stuck_pending : pc (cpu stuck) = 0 /\ pending_interrupt (common stuck) = -1 /\
  stuck <| common := (common stuck) <| pending_interrupt := -1 |> <| vm_pending_exception := -1 |> |> = stuck.
Proof. vm_compute. auto. Qed.

(** The step's loop, which iterates "until one does" execute, need not end: on a hart whose trap vector
    cannot be fetched every iteration takes the same trap and no bound on the iterations suffices. *)
Theorem cosim_loop_can_hang fuel insn0 : insn0 &' 3 = 3 ->
  @cosim_loop demo_env no_hooks null_fp fuel insn0 0x80000000 0x13 0 stuck = Stop OutOfFuel.
Proof.
  intros Hi. destruct stuck_pending as (Hpc & Hp & Hc).
  induction fuel as [|fuel IH]; cbn [cosim_loop]; [reflexivity|]. rewrite run_gets. unfold riscv_get_pc. rewrite Hpc. cbv zeta.
  rewrite run_bind, stuck_read. cbn [default]. rewrite Hi. cbn [Z.eqb negb andb Pos.eqb]. rewrite run_gets. unfold id. rewrite Hp. cbn [Z.eqb negb andb Pos.eqb].
  rewrite run_bind_ret, run_gets. unfold id. rewrite Hp. cbn [Z.eqb negb Pos.eqb]. rewrite run_bind_ret, run_bind, stuck_interp. cbn [Z.eqb negb].
  unfold on_common. rewrite run_modify, Hc. exact IH.
Qed.

Lemma cosim_loop_can_hang_witness :
  @cosim_loop demo_env no_hooks null_fp 10 0x13 0x80000000 0x13 0 stuck = Stop OutOfFuel.
Proof. apply cosim_loop_can_hang. reflexivity. Defined.
