(* ===== verification/Softfp.v ===== *)
(** * Software floating point ([softfp_template.h], [softfp_template_icvt.h], [softfp.cpp])

    The template is instantiated at [F_SIZE] 32 and 64 ([MANT_SIZE] 23 and 52,
    [EXP_SIZE] 8 and 11); here these are parameters.  An [F_UINT] is an integer
    in [0, 2^F_SIZE) with its wrap-around written out.  Each function takes the
    accrued flags ([*pfflags]) and returns them with its result; [res] carries
    the [assert] of the normalisation steps. *)

From S2P Require Import Prelude.
From stdpp Require Import base list.
From Stdlib Require Import ZArith Lia Bool.
Local Open Scope Z_scope.
Local Open Scope bits_scope.

Definition RM_RNE := 0.
Definition RM_RTZ := 1.
Definition RM_RDN := 2.
Definition RM_RUP := 3.
Definition RM_RMM := 4.

Definition FFLAG_INVALID_OP := 1 <<' 4.
Definition FFLAG_DIVIDE_ZERO := 1 <<' 3.
Definition FFLAG_OVERFLOW := 1 <<' 2.
Definition FFLAG_UNDERFLOW := 1 <<' 1.
Definition FFLAG_INEXACT := 1 <<' 0.

Definition FCLASS_NINF := 1 <<' 0.
Definition FCLASS_NNORMAL := 1 <<' 1.
Definition FCLASS_NSUBNORMAL := 1 <<' 2.
Definition FCLASS_NZERO := 1 <<' 3.
Definition FCLASS_PZERO := 1 <<' 4.
Definition FCLASS_PSUBNORMAL := 1 <<' 5.
Definition FCLASS_PNORMAL := 1 <<' 6.
Definition FCLASS_PINF := 1 <<' 7.
Definition FCLASS_SNAN := 1 <<' 8.
Definition FCLASS_QNAN := 1 <<' 9.

(** [clz32], [clz64], [clz128]. *)
Definition clz (size a : Z) : Z := if a =? 0 then size else size - 1 - Z.log2 a.

Section Format.
Context (F_SIZE MANT_SIZE EXP_SIZE : Z).

Definition EXP_MASK : Z := (1 <<' EXP_SIZE) - 1.
Definition MANT_MASK : Z := (1 <<' MANT_SIZE) - 1.
Definition SIGN_MASK : Z := 1 <<' (F_SIZE - 1).
Definition IMANT_SIZE : Z := F_SIZE - 2.
Definition RND_SIZE : Z := IMANT_SIZE - MANT_SIZE.
Definition QNAN_MASK : Z := 1 <<' (MANT_SIZE - 1).
Definition F_QNAN : Z := (EXP_MASK <<' MANT_SIZE) |' (1 <<' (MANT_SIZE - 1)).

(** Conversion to [F_UINT]. *)
Definition fu (x : Z) : Z := wrapu F_SIZE x.

Definition sf_sign (a : Z) : Z := a >>' (F_SIZE - 1).
Definition sf_exp (a : Z) : Z := (a >>' MANT_SIZE) &' EXP_MASK.
Definition sf_mant (a : Z) : Z := a &' MANT_MASK.

Definition pack_sf (a_sign a_exp a_mant : Z) : Z :=
  fu (a_sign <<' (F_SIZE - 1)) |' fu (a_exp <<' MANT_SIZE) |' (a_mant &' MANT_MASK).

Definition rshift_rnd (a d : Z) : Z :=
  if negb (d =? 0) then
    if F_SIZE <=? d then b2z (negb (a =? 0))
    else let mask := (1 <<' d) - 1 in (a >>' d) |' b2z (tst a mask)
  else a.

(** What rounding adds below the kept bits. *)
Definition rnd_addend (a_sign rm : Z) : Z :=
  if (rm =? RM_RNE) || (rm =? RM_RMM) then 1 <<' (RND_SIZE - 1)
  else if rm =? RM_RTZ then 0
  else if negb (Z.lxor a_sign (rm &' 1) =? 0) then (1 <<' RND_SIZE) - 1 else 0.

Definition round_pack_sf (a_sign a_exp a_mant rm fl : Z) : Z * Z :=
  let addend := rnd_addend a_sign rm in
  let '(a_exp, a_mant, rnd_bits, fl) :=
    if a_exp <=? 0 then
      let is_subnormal := (a_exp <? 0) || (fu (a_mant + addend) <? 1 <<' (F_SIZE - 1)) in
      let diff := 1 - a_exp in
      let a_mant := rshift_rnd a_mant diff in
      let rnd_bits := a_mant &' ((1 <<' RND_SIZE) - 1) in
      let fl := if is_subnormal && negb (rnd_bits =? 0) then fl |' FFLAG_UNDERFLOW else fl in
      (1, a_mant, rnd_bits, fl)
    else (a_exp, a_mant, a_mant &' ((1 <<' RND_SIZE) - 1), fl) in
  let fl := if negb (rnd_bits =? 0) then fl |' FFLAG_INEXACT else fl in
  let a_mant := fu (a_mant + addend) >>' RND_SIZE in
  let a_mant := if (rm =? RM_RNE) && (rnd_bits =? 1 <<' (RND_SIZE - 1)) then a_mant &' Z.lnot 1 else a_mant in
  let a_exp := a_exp + (a_mant >>' (MANT_SIZE + 1)) in
  if a_mant <=? MANT_MASK then (pack_sf a_sign 0 a_mant, fl)
  else if EXP_MASK <=? a_exp then
    let fl := fl |' (FFLAG_OVERFLOW |' FFLAG_INEXACT) in
    if addend =? 0 then (pack_sf a_sign (EXP_MASK - 1) MANT_MASK, fl) else (pack_sf a_sign EXP_MASK 0, fl)
  else (pack_sf a_sign a_exp a_mant, fl).

Definition normalize_sf (a_sign a_exp a_mant rm fl : Z) : res (Z * Z) :=
  let shift := clz F_SIZE a_mant - (F_SIZE - 1 - IMANT_SIZE) in
  _ ← assert_c (0 <=? shift);
  Done (round_pack_sf a_sign (a_exp - shift) (fu (a_mant <<' shift)) rm fl).

Definition normalize2_sf (a_sign a_exp a_mant1 a_mant0 rm fl : Z) : res (Z * Z) :=
  let l := if a_mant1 =? 0 then F_SIZE + clz F_SIZE a_mant0 else clz F_SIZE a_mant1 in
  let shift := l - (F_SIZE - 1 - IMANT_SIZE) in
  _ ← assert_c (0 <=? shift);
  let a_exp := a_exp - shift in
  let a_mant1 :=
    if shift =? 0 then a_mant1 |' b2z (negb (a_mant0 =? 0))
    else if shift <? F_SIZE then
      let hi := fu (a_mant1 <<' shift) |' (a_mant0 >>' (F_SIZE - shift)) in
      let lo := fu (a_mant0 <<' shift) in
      hi |' b2z (negb (lo =? 0))
    else fu (a_mant0 <<' (shift - F_SIZE)) in
  Done (round_pack_sf a_sign a_exp a_mant1 rm fl).

Definition issignan_sf (a : Z) : bool :=
  let a_exp1 := (a >>' (MANT_SIZE - 1)) &' ((1 <<' (EXP_SIZE + 1)) - 1) in
  (a_exp1 =? 2 * EXP_MASK) && negb (sf_mant a =? 0).

Definition isnan_sf (a : Z) : bool := (sf_exp a =? EXP_MASK) && negb (sf_mant a =? 0).

(** [if (cond) *pfflags |= FFLAG_INVALID_OP]. *)
Definition invalid_if (b : bool) (fl : Z) : Z := if b then fl |' FFLAG_INVALID_OP else fl.

Definition add_sf (a b rm fl : Z) : res (Z * Z) :=
  let '(a, b) := if (a &' Z.lnot SIGN_MASK) <? (b &' Z.lnot SIGN_MASK) then (b, a) else (a, b) in
  let a_sign := sf_sign a in
  let b_sign := sf_sign b in
  let a_exp := sf_exp a in
  let b_exp := sf_exp b in
  let a_mant := sf_mant a <<' 3 in
  let b_mant := sf_mant b <<' 3 in
  if a_exp =? EXP_MASK then
    if negb (a_mant =? 0) then
      Done (F_QNAN, invalid_if (negb (tst a_mant (QNAN_MASK <<' 3)) || issignan_sf b) fl)
    else if (b_exp =? EXP_MASK) && negb (a_sign =? b_sign) then Done (F_QNAN, fl |' FFLAG_INVALID_OP)
    else Done (a, fl)
  else
    let '(a_exp, a_mant) := if a_exp =? 0 then (1, a_mant) else (a_exp, a_mant |' (1 <<' (MANT_SIZE + 3))) in
    let '(b_exp, b_mant) := if b_exp =? 0 then (1, b_mant) else (b_exp, b_mant |' (1 <<' (MANT_SIZE + 3))) in
    let b_mant := rshift_rnd b_mant (a_exp - b_exp) in
    let '(a_sign, a_mant) :=
      if a_sign =? b_sign then (a_sign, fu (a_mant + b_mant))
      else
        let a_mant := fu (a_mant - b_mant) in
        (if a_mant =? 0 then b2z (rm =? RM_RDN) else a_sign, a_mant) in
    normalize_sf a_sign (a_exp + (RND_SIZE - 3)) a_mant rm fl.

Definition sub_sf (a b rm fl : Z) : res (Z * Z) := add_sf a (Z.lxor b SIGN_MASK) rm fl.

(** The new exponent and the shifted mantissa. *)
Definition normalize_subnormal_sf (a_mant : Z) : Z * Z :=
  let shift := MANT_SIZE - (F_SIZE - 1 - clz F_SIZE a_mant) in
  (1 - shift, fu (a_mant <<' shift)).

(** A nonzero finite operand with its mantissa normalised. *)
Definition operand (a_exp a_mant : Z) : Z * Z :=
  if a_exp =? 0 then normalize_subnormal_sf a_mant else (a_exp, a_mant |' (1 <<' MANT_SIZE)).

(** High and low word of the product. *)
Definition mul_u (a b : Z) : Z * Z := let r := wrapu (2 * F_SIZE) (a * b) in (r >>' F_SIZE, fu r).

Definition mul_sf (a b rm fl : Z) : res (Z * Z) :=
  let r_sign := Z.lxor (sf_sign a) (sf_sign b) in
  let a_exp := sf_exp a in
  let b_exp := sf_exp b in
  let a_mant := sf_mant a in
  let b_mant := sf_mant b in
  if (a_exp =? EXP_MASK) || (b_exp =? EXP_MASK) then
    if isnan_sf a || isnan_sf b then Done (F_QNAN, invalid_if (issignan_sf a || issignan_sf b) fl)
    else if ((a_exp =? EXP_MASK) && ((b_exp =? 0) && (b_mant =? 0))) || ((b_exp =? EXP_MASK) && ((a_exp =? 0) && (a_mant =? 0)))
    then Done (F_QNAN, fl |' FFLAG_INVALID_OP)
    else Done (pack_sf r_sign EXP_MASK 0, fl)
  else if (a_exp =? 0) && (a_mant =? 0) then Done (pack_sf r_sign 0 0, fl)
  else if (b_exp =? 0) && (b_mant =? 0) then Done (pack_sf r_sign 0 0, fl)
  else
    let '(a_exp, a_mant) := operand a_exp a_mant in
    let '(b_exp, b_mant) := operand b_exp b_mant in
    let r_exp := a_exp + b_exp - (1 <<' (EXP_SIZE - 1)) + 2 in
    let '(r_mant, r_mant_low) := mul_u (fu (a_mant <<' RND_SIZE)) (fu (b_mant <<' (RND_SIZE + 1))) in
    normalize_sf r_sign r_exp (r_mant |' b2z (negb (r_mant_low =? 0))) rm fl.

(** The alignment of the smaller addend of [fma_sf], as [(c_mant1, c_mant0)]. *)
Definition align2 (c_mant1 c_mant0 shift : Z) : Z * Z :=
  if 2 * F_SIZE <=? shift then (0, b2z (negb (c_mant0 |' c_mant1 =? 0)))
  else if F_SIZE + 1 <=? shift then (0, rshift_rnd c_mant1 (shift - F_SIZE))
  else if shift =? F_SIZE then (0, c_mant1 |' b2z (negb (c_mant0 =? 0)))
  else if negb (shift =? 0) then
    let mask := (1 <<' shift) - 1 in
    (c_mant1 >>' shift, fu (c_mant1 <<' (F_SIZE - shift)) |' (c_mant0 >>' shift) |' b2z (tst c_mant0 mask))
  else (c_mant1, c_mant0).

(** The sum of a finite nonzero product and a finite addend. *)
Definition fma_add (r_sign r_exp r_mant1 r_mant0 c_sign c_exp c_mant rm fl : Z) : res (Z * Z) :=
  if (c_exp =? 0) && (c_mant =? 0) then
    normalize_sf r_sign r_exp (r_mant1 |' b2z (negb (r_mant0 =? 0))) rm fl
  else
    let '(c_exp, c_mant) := operand c_exp c_mant in
    let c_exp := c_exp + 1 in
    let c_mant1 := fu (c_mant <<' (RND_SIZE - 1)) in
    let c_mant0 := 0 in
    let '(r_sign, r_exp, r_mant1, r_mant0, c_sign, c_exp, c_mant1, c_mant0) :=
      if negb ((c_exp <? r_exp) || ((r_exp =? c_exp) && (c_mant1 <=? r_mant1)))
      then (c_sign, c_exp, c_mant1, c_mant0, r_sign, r_exp, r_mant1, r_mant0)
      else (r_sign, r_exp, r_mant1, r_mant0, c_sign, c_exp, c_mant1, c_mant0) in
    let '(c_mant1, c_mant0) := align2 c_mant1 c_mant0 (r_exp - c_exp) in
    let '(r_sign, r_mant1, r_mant0) :=
      if r_sign =? c_sign then
        let r_mant0 := fu (r_mant0 + c_mant0) in
        (r_sign, fu (r_mant1 + c_mant1 + b2z (r_mant0 <? c_mant0)), r_mant0)
      else
        let tmp := r_mant0 in
        let r_mant0 := fu (r_mant0 - c_mant0) in
        let r_mant1 := fu (r_mant1 - c_mant1 - b2z (tmp <? r_mant0)) in
        (if r_mant0 |' r_mant1 =? 0 then b2z (rm =? RM_RDN) else r_sign, r_mant1, r_mant0) in
    normalize2_sf r_sign r_exp r_mant1 r_mant0 rm fl.

Definition fma_sf (a b c rm fl : Z) : res (Z * Z) :=
  let c_sign := sf_sign c in
  let r_sign := Z.lxor (sf_sign a) (sf_sign b) in
  let a_exp := sf_exp a in
  let b_exp := sf_exp b in
  let c_exp := sf_exp c in
  let a_mant := sf_mant a in
  let b_mant := sf_mant b in
  let c_mant := sf_mant c in
  if (a_exp =? EXP_MASK) || (b_exp =? EXP_MASK) || (c_exp =? EXP_MASK) then
    if ((a_exp =? 0) && (a_mant =? 0) && (b_exp =? EXP_MASK) && (b_mant =? 0))
       || ((b_exp =? 0) && (b_mant =? 0) && (a_exp =? EXP_MASK) && (a_mant =? 0))
    then Done (F_QNAN, fl |' FFLAG_INVALID_OP)
    else if isnan_sf a || isnan_sf b || isnan_sf c then
      Done (F_QNAN, invalid_if (issignan_sf a || issignan_sf b || issignan_sf c) fl)
    else if ((a_exp =? EXP_MASK) && ((b_exp =? 0) && (b_mant =? 0)))
            || ((b_exp =? EXP_MASK) && ((a_exp =? 0) && (a_mant =? 0)))
            || (((a_exp =? EXP_MASK) || (b_exp =? EXP_MASK)) && ((c_exp =? EXP_MASK) && negb (r_sign =? c_sign)))
    then Done (F_QNAN, fl |' FFLAG_INVALID_OP)
    else if c_exp =? EXP_MASK then Done (pack_sf c_sign EXP_MASK 0, fl)
    else Done (pack_sf r_sign EXP_MASK 0, fl)
  else if ((a_exp =? 0) && (a_mant =? 0)) || ((b_exp =? 0) && (b_mant =? 0)) then
    if (c_exp =? 0) && (c_mant =? 0) then
      Done (pack_sf (if negb (c_sign =? r_sign) then b2z (rm =? RM_RDN) else r_sign) 0 0, fl)
    else Done (c, fl)
  else
    let '(a_exp, a_mant) := operand a_exp a_mant in
    let '(b_exp, b_mant) := operand b_exp b_mant in
    let r_exp := a_exp + b_exp - (1 <<' (EXP_SIZE - 1)) + 3 in
    let '(r_mant1, r_mant0) := mul_u (fu (a_mant <<' RND_SIZE)) (fu (b_mant <<' RND_SIZE)) in
    let '(r_exp, r_mant1, r_mant0) :=
      if r_mant1 <? 1 <<' (F_SIZE - 3)
      then (r_exp - 1, fu (r_mant1 <<' 1) |' (r_mant0 >>' (F_SIZE - 1)), fu (r_mant0 <<' 1))
      else (r_exp, r_mant1, r_mant0) in
    fma_add r_sign r_exp r_mant1 r_mant0 c_sign c_exp c_mant rm fl.

(** Quotient and remainder of a double word. *)
Definition divrem_u (ah al b : Z) : Z * Z := let a := (ah <<' F_SIZE) |' al in (fu (a / b), fu (a mod b)).

Definition div_sf (a b rm fl : Z) : res (Z * Z) :=
  let r_sign := Z.lxor (sf_sign a) (sf_sign b) in
  let a_exp := sf_exp a in
  let b_exp := sf_exp b in
  let a_mant := sf_mant a in
  let b_mant := sf_mant b in
  if a_exp =? EXP_MASK then
    if negb (a_mant =? 0) || isnan_sf b then Done (F_QNAN, invalid_if (issignan_sf a || issignan_sf b) fl)
    else if b_exp =? EXP_MASK then Done (F_QNAN, fl |' FFLAG_INVALID_OP)
    else Done (pack_sf r_sign EXP_MASK 0, fl)
  else if b_exp =? EXP_MASK then
    if negb (b_mant =? 0) then Done (F_QNAN, invalid_if (issignan_sf a || issignan_sf b) fl)
    else Done (pack_sf r_sign 0 0, fl)
  else if (b_exp =? 0) && (b_mant =? 0) then
    if (a_exp =? 0) && (a_mant =? 0) then Done (F_QNAN, fl |' FFLAG_INVALID_OP)
    else Done (pack_sf r_sign EXP_MASK 0, fl |' FFLAG_DIVIDE_ZERO)
  else if (a_exp =? 0) && (a_mant =? 0) then Done (pack_sf r_sign 0 0, fl)
  else
    let '(b_exp, b_mant) := operand b_exp b_mant in
    let '(a_exp, a_mant) := operand a_exp a_mant in
    let r_exp := a_exp - b_exp + (1 <<' (EXP_SIZE - 1)) - 1 in
    let '(r_mant, r) := divrem_u a_mant 0 (fu (b_mant <<' 2)) in
    normalize_sf r_sign r_exp (if negb (r =? 0) then r_mant |' 1 else r_mant) rm fl.

(** Newton's iteration of [sqrtrem_u]: [s = u; u = (a / s + s) / 2] until [u >= s]. *)
Fixpoint sqrt_loop (fuel : nat) (a s : Z) : res Z :=
  match fuel with
  | O => Stop OutOfFuel
  | S fuel => let u := (a / s + s) / 2 in if s <=? u then Done s else sqrt_loop fuel a u
  end.

(** The root and whether it is inexact. *)
Definition sqrtrem_u (ah al : Z) : res (Z * bool) :=
  if (ah =? 0) && (al =? 0) then Done (0, false)
  else
    let l := if negb (ah =? 0) then 2 * F_SIZE - clz F_SIZE (ah - 1) else F_SIZE - clz F_SIZE (al - 1) in
    let a := (ah <<' F_SIZE) |' al in
    s ← sqrt_loop (Z.to_nat (F_SIZE + 2)) a (1 <<' ((l + 1) / 2));
    Done (fu s, negb (a - s * s =? 0)).

Definition sqrt_sf (a rm fl : Z) : res (Z * Z) :=
  let a_sign := sf_sign a in
  let a_exp := sf_exp a in
  let a_mant := sf_mant a in
  if a_exp =? EXP_MASK then
    if negb (a_mant =? 0) then Done (F_QNAN, invalid_if (issignan_sf a) fl)
    else if negb (a_sign =? 0) then Done (F_QNAN, fl |' FFLAG_INVALID_OP)
    else Done (a, fl)
  else if negb (a_sign =? 0) then
    if (a_exp =? 0) && (a_mant =? 0) then Done (a, fl) else Done (F_QNAN, fl |' FFLAG_INVALID_OP)
  else if (a_exp =? 0) && (a_mant =? 0) then Done (pack_sf 0 0 0, fl)
  else
    let '(a_exp, a_mant) := operand a_exp a_mant in
    let a_exp := a_exp - EXP_MASK / 2 in
    let '(a_exp, a_mant) := if negb (a_exp &' 1 =? 0) then (a_exp - 1, fu (a_mant <<' 1)) else (a_exp, a_mant) in
    let a_exp := (a_exp >>' 1) + EXP_MASK / 2 in
    let a_mant := fu (a_mant <<' (F_SIZE - 4 - MANT_SIZE)) in
    '(r, inexact) ← sqrtrem_u a_mant 0;
    normalize_sf a_sign a_exp (if (inexact : bool) then r |' 1 else r) rm fl.

(** ** Comparisons *)

Definition min_sf (a b fl : Z) : Z * Z :=
  if isnan_sf a || isnan_sf b then
    let fl := invalid_if (issignan_sf a || issignan_sf b) fl in
    if isnan_sf a then if isnan_sf b then (F_QNAN, fl) else (b, fl) else (a, fl)
  else
    let a_sign := sf_sign a in
    let b_sign := sf_sign b in
    if negb (a_sign =? b_sign) then (if negb (a_sign =? 0) then a else b, fl)
    else (if negb (Z.lxor (b2z (a <? b)) a_sign =? 0) then a else b, fl).

Definition max_sf (a b fl : Z) : Z * Z :=
  if isnan_sf a || isnan_sf b then
    let fl := invalid_if (issignan_sf a || issignan_sf b) fl in
    if isnan_sf a then if isnan_sf b then (F_QNAN, fl) else (b, fl) else (a, fl)
  else
    let a_sign := sf_sign a in
    let b_sign := sf_sign b in
    if negb (a_sign =? b_sign) then (if negb (a_sign =? 0) then b else a, fl)
    else (if negb (Z.lxor (b2z (a <? b)) a_sign =? 0) then b else a, fl).

Definition eq_quiet_sf (a b fl : Z) : Z * Z :=
  if isnan_sf a || isnan_sf b then (0, invalid_if (issignan_sf a || issignan_sf b) fl)
  else if fu ((a |' b) <<' 1) =? 0 then (1, fl)
  else (b2z (a =? b), fl).

Definition le_sf (a b fl : Z) : Z * Z :=
  if isnan_sf a || isnan_sf b then (0, fl |' FFLAG_INVALID_OP)
  else
    let a_sign := sf_sign a in
    let b_sign := sf_sign b in
    if negb (a_sign =? b_sign) then (b2z (negb (a_sign =? 0) || (fu ((a |' b) <<' 1) =? 0)), fl)
    else if negb (a_sign =? 0) then (b2z (b <=? a), fl)
    else (b2z (a <=? b), fl).

Definition lt_sf (a b fl : Z) : Z * Z :=
  if isnan_sf a || isnan_sf b then (0, fl |' FFLAG_INVALID_OP)
  else
    let a_sign := sf_sign a in
    let b_sign := sf_sign b in
    if negb (a_sign =? b_sign) then (b2z (negb (a_sign =? 0) && negb (fu ((a |' b) <<' 1) =? 0)), fl)
    else if negb (a_sign =? 0) then (b2z (b <? a), fl)
    else (b2z (a <? b), fl).

Definition fclass_sf (a : Z) : Z :=
  let a_sign := sf_sign a in
  let a_exp := sf_exp a in
  let a_mant := sf_mant a in
  if a_exp =? EXP_MASK then
    if negb (a_mant =? 0) then if tst a_mant QNAN_MASK then FCLASS_QNAN else FCLASS_SNAN
    else if negb (a_sign =? 0) then FCLASS_NINF else FCLASS_PINF
  else if a_exp =? 0 then
    if a_mant =? 0 then if negb (a_sign =? 0) then FCLASS_NZERO else FCLASS_PZERO
    else if negb (a_sign =? 0) then FCLASS_NSUBNORMAL else FCLASS_PSUBNORMAL
  else if negb (a_sign =? 0) then FCLASS_NNORMAL else FCLASS_PNORMAL.

(** ** Conversions to and from integers of [ICVT_SIZE] bits *)

Section Icvt.
Context (ICVT_SIZE : Z).

(** The result converted to [ICVT_INT]. *)
Definition internal_cvt_sf_i (a rm fl : Z) (is_unsigned : bool) : Z * Z :=
  let a_exp := sf_exp a in
  let a_mant := sf_mant a in
  let a_sign := if (a_exp =? EXP_MASK) && negb (a_mant =? 0) then 0 else sf_sign a in
  let '(a_exp, a_mant) := if a_exp =? 0 then (1, a_mant) else (a_exp, a_mant |' (1 <<' MANT_SIZE)) in
  let a_mant := fu (a_mant <<' RND_SIZE) in
  let a_exp := a_exp - EXP_MASK / 2 - MANT_SIZE in
  let r_max := if is_unsigned then wrapu ICVT_SIZE (a_sign - 1)
               else wrapu ICVT_SIZE ((1 <<' (ICVT_SIZE - 1)) - Z.lxor a_sign 1) in
  let overflow := (wraps ICVT_SIZE r_max, fl |' FFLAG_INVALID_OP) in
  let finish r fl := (wraps ICVT_SIZE (if negb (a_sign =? 0) then wrapu ICVT_SIZE (- r) else r), fl) in
  if 0 <=? a_exp then
    if a_exp <=? ICVT_SIZE - 1 - MANT_SIZE then
      let r := wrapu ICVT_SIZE (wrapu ICVT_SIZE (a_mant >>' RND_SIZE) <<' a_exp) in
      if r_max <? r then overflow else finish r fl
    else overflow
  else
    let a_mant := rshift_rnd a_mant (- a_exp) in
    let addend := rnd_addend a_sign rm in
    let rnd_bits := a_mant &' ((1 <<' RND_SIZE) - 1) in
    let a_mant := fu (a_mant + addend) >>' RND_SIZE in
    let a_mant := if (rm =? RM_RNE) && (rnd_bits =? 1 <<' (RND_SIZE - 1)) then a_mant &' Z.lnot 1 else a_mant in
    if r_max <? a_mant then overflow
    else finish (wrapu ICVT_SIZE a_mant) (if negb (rnd_bits =? 0) then fl |' FFLAG_INEXACT else fl).

Definition cvt_sf_i (a rm fl : Z) : Z * Z := internal_cvt_sf_i a rm fl false.
Definition cvt_sf_u (a rm fl : Z) : Z * Z :=
  let '(r, fl) := internal_cvt_sf_i a rm fl true in (wrapu ICVT_SIZE r, fl).

(** [a] is the argument as an [ICVT_INT]. *)
Definition internal_cvt_i_sf (a rm fl : Z) (is_unsigned : bool) : res (Z * Z) :=
  let '(a_sign, r) := if negb is_unsigned && (a <? 0) then (1, wrapu ICVT_SIZE (- a)) else (0, wrapu ICVT_SIZE a) in
  let a_exp := EXP_MASK / 2 + F_SIZE - 2 in
  let l := ICVT_SIZE - clz ICVT_SIZE r - (F_SIZE - 1) in
  let '(r, a_exp) :=
    if 0 <? l then
      let mask := r &' (wrapu ICVT_SIZE (1 <<' l) - 1) in
      ((r >>' l) |' b2z (tst r mask), a_exp + l)
    else (r, a_exp) in
  normalize_sf a_sign a_exp (fu r) rm fl.

Definition cvt_i_sf (a rm fl : Z) : res (Z * Z) := internal_cvt_i_sf a rm fl false.
Definition cvt_u_sf (a rm fl : Z) : res (Z * Z) := internal_cvt_i_sf (wraps ICVT_SIZE a) rm fl true.

End Icvt.
End Format.

(** ** Conversions between the two formats *)

Definition cvt_sf32_sf64 (a fl : Z) : Z * Z :=
  let a_sign := sf_sign 32 a in
  let a_exp := sf_exp 23 8 a in
  let a_mant := sf_mant 23 a in
  if a_exp =? 0xff then
    if negb (a_mant =? 0) then (F_QNAN 52 11, invalid_if (issignan_sf 23 8 a) fl)
    else (pack_sf 64 52 a_sign (EXP_MASK 11) 0, fl)
  else if (a_exp =? 0) && (a_mant =? 0) then (pack_sf 64 52 a_sign 0 0, fl)
  else
    let '(a_exp, a_mant) := if a_exp =? 0 then normalize_subnormal_sf 32 23 a_mant else (a_exp, a_mant) in
    let a_exp := a_exp - 0x7f + EXP_MASK 11 / 2 in
    (pack_sf 64 52 a_sign a_exp (u64 (a_mant <<' (52 - 23))), fl).

(** The mantissa that [normalize_subnormal_sf] returns is dropped here, as in the code. *)
Definition cvt_sf64_sf32 (a rm fl : Z) : res (Z * Z) :=
  let a_sign := sf_sign 64 a in
  let a_exp := sf_exp 52 11 a in
  let a_mant := sf_mant 52 a in
  if a_exp =? EXP_MASK 11 then
    if negb (a_mant =? 0) then Done (F_QNAN 23 8, invalid_if (issignan_sf 52 11 a) fl)
    else Done (pack_sf 32 23 a_sign 0xff 0, fl)
  else if (a_exp =? 0) && (a_mant =? 0) then Done (pack_sf 32 23 a_sign 0 0, fl)
  else
    let '(a_exp, a_mant) := if a_exp =? 0 then (fst (normalize_subnormal_sf 64 52 a_mant), a_mant)
                            else (a_exp, a_mant |' (1 <<' 52)) in
    let a_exp := a_exp - EXP_MASK 11 / 2 + 0x7f in
    let a_mant := rshift_rnd 64 a_mant (52 - (32 - 2)) in
    normalize_sf 32 23 8 a_sign a_exp (u32 a_mant) rm fl.

(** Smoke tests against known results. *)
Example add_one_one : add_sf 64 52 11 0x3ff0000000000000 0x3ff0000000000000 RM_RNE 0 = Done (0x4000000000000000, 0).
Proof. reflexivity. Qed.
Example div_one_three : div_sf 64 52 11 0x3ff0000000000000 0x4008000000000000 RM_RNE 0 = Done (0x3fd5555555555555, 1).
Proof. vm_compute. reflexivity. Qed.
Example sqrt_two : sqrt_sf 64 52 11 0x4000000000000000 RM_RNE 0 = Done (0x3ff6a09e667f3bcd, 1).
Proof. vm_compute. reflexivity. Qed.
Example fma_demo : fma_sf 32 23 8 0x3f800001 0x3f800001 0xbf800002 RM_RNE 0 = Done (0x28800000, 0).
Proof. vm_compute. reflexivity. Qed.
Example cvt_demo : cvt_sf_i 64 52 11 32 0xC059000000000000 RM_RTZ 0 = (-100, 0) /\ cvt_i_sf 32 23 8 64 (-100) RM_RNE 0 = Done (0xC2C80000, 0).
Proof. vm_compute. auto. Qed.
