(* ===== verification/SoftRound.v ===== *)
(** * Rounding: the software floating point against exact arithmetic

    A finite float is an integer multiple of the smallest subnormal.  [rnd]
    rounds a nonnegative rational to an integer in a rounding mode and
    [ref_round] rounds it, in units of the smallest subnormal, to the format.
    The rounding core of [Softfp] computes [ref_round], also when its operand
    is the exact value rounded to odd (its last bit sticky), as the arithmetic
    operations prepare it. *)

From S2P Require Import Prelude Softfp.
From stdpp Require Import base list.
From Stdlib Require Import ZArith Lia Bool.
Local Open Scope Z_scope.
Local Open Scope bits_scope.

(** ** Rounding a rational to an integer *)

Definition rnd (rm s N D : Z) : Z :=
  let q := N / D in
  let r := N mod D in
  if rm =? RM_RNE then if 2 * r <? D then q else if D <? 2 * r then q + 1 else q + q mod 2
  else if rm =? RM_RMM then if 2 * r <? D then q else q + 1
  else if rm =? RM_RTZ then q
  else if negb (Z.lxor s (rm &' 1) =? 0) && negb (r =? 0) then q + 1 else q.

(** It depends on the quotient and on how twice the remainder compares with the divisor. *)
Lemma rnd_same rm s N D N' D' : N / D = N' / D' -> (N mod D = 0 <-> N' mod D' = 0) ->
  (2 * (N mod D) < D <-> 2 * (N' mod D') < D') -> (D < 2 * (N mod D) <-> D' < 2 * (N' mod D')) ->
  rnd rm s N D = rnd rm s N' D'.
Proof.
  intros Hq H0 Hlt Hgt. unfold rnd. cbv zeta. rewrite <- Hq.
  assert ((2 * (N mod D) <? D) = (2 * (N' mod D') <? D')) as ->.
  { apply eq_true_iff_eq. rewrite !Z.ltb_lt. exact Hlt. }
  assert ((D <? 2 * (N mod D)) = (D' <? 2 * (N' mod D'))) as ->.
  { apply eq_true_iff_eq. rewrite !Z.ltb_lt. exact Hgt. }
  assert ((N mod D =? 0) = (N' mod D' =? 0)) as ->; [|reflexivity].
  apply eq_true_iff_eq. rewrite !Z.eqb_eq. exact H0.
Qed.

Lemma rnd_scale rm s N D c : 0 < D -> 0 < c -> rnd rm s (N * c) (D * c) = rnd rm s N D.
Proof.
  intros HD Hc. apply rnd_same.
  - apply Z.div_mul_cancel_r; lia.
  - rewrite Z.mul_mod_distr_r by lia. nia.
  - rewrite Z.mul_mod_distr_r by lia. nia.
  - rewrite Z.mul_mod_distr_r by lia. nia.
Qed.

(** Equal rationals round alike. *)
Lemma rnd_ratio rm s N D N' D' : 0 < D -> 0 < D' -> N * D' = N' * D -> rnd rm s N D = rnd rm s N' D'.
Proof.
  intros HD HD' E. rewrite <- (rnd_scale rm s N D D'), <- (rnd_scale rm s N' D' D) by lia.
  rewrite E. f_equal. lia.
Qed.

(** Rounding to odd: the floor, with its last bit set when something is lost. *)
Definition ro (A B : Z) : Z := if A mod B =? 0 then A / B else A / B |' 1.

Lemma lor_1 x : x |' 1 = 2 * (x / 2) + 1.
Proof.
  apply Z.bits_inj'. intros i Hi. rewrite Z.lor_spec. destruct (Z.eq_dec i 0) as [->|Hne].
  - rewrite Z.testbit_odd_0. apply orb_true_r.
  - replace i with (Z.succ (i - 1)) by lia. rewrite Z.testbit_odd_succ by lia.
    rewrite <- (Z.div2_bits x (i - 1)) by lia. rewrite (testbit_above 1 1) by lia. apply orb_false_r.
Qed.

Lemma rnd_ro rm s A B k : 0 <= A -> 0 < B -> 2 <= k -> rnd rm s (ro A B) (2 ^ k) = rnd rm s A (B * 2 ^ k).
Proof.
  intros HA HB Hk. unfold ro. pose proof (Z.div_mod A B ltac:(lia)) as EA. pose proof (Z.mod_pos_bound A B HB) as Hr.
  set (q := A / B) in *. set (r := A mod B) in *. clearbody q r.
  assert (2 ^ k = 4 * 2 ^ (k - 2)) as Ek by (change 4 with (2 ^ 2); rewrite <- Z.pow_add_r by lia; f_equal; lia).
  assert (0 < 2 ^ (k - 2)) as Hh by (apply Z.pow_pos_nonneg; lia). set (h := 2 ^ (k - 2)) in *. clearbody h. rewrite Ek.
  destruct (Z.eqb_spec r 0) as [E0|E0].
  - rewrite E0 in EA. apply rnd_ratio; [lia|nia|nia].
  - rewrite lor_1. pose proof (Z.div_mod q (4 * h) ltac:(lia)) as Eq. pose proof (Z.mod_pos_bound q (4 * h) ltac:(lia)) as Hb.
    set (a := q / (4 * h)) in *. set (b := q mod (4 * h)) in *. clearbody a b.
    assert (q / 2 = 2 * h * a + b / 2) as -> by (rewrite Eq; replace (4 * h * a + b) with (b + 2 * h * a * 2) by lia; rewrite Z.div_add by lia; lia).
    pose proof (Z.div_mod b 2 ltac:(lia)) as Eb2. pose proof (Z.mod_pos_bound b 2 ltac:(lia)) as Hb2. set (c := b / 2) in *. set (o := b mod 2) in *. clearbody c o.
    assert (2 * (2 * h * a + c) + 1 = 4 * h * a + (2 * c + 1)) as -> by lia.
    assert (0 <= 2 * c + 1 < 4 * h) as Hc by lia. assert (0 <= B * b + r < B * (4 * h)) as Hm by nia.
    assert ((4 * h * a + (2 * c + 1)) / (4 * h) = a /\ (4 * h * a + (2 * c + 1)) mod (4 * h) = 2 * c + 1) as [Q1 R1]
      by (split; [symmetry; apply (Z.div_unique_pos _ _ _ (2 * c + 1)); lia|symmetry; apply (Z.mod_unique_pos _ _ a); lia]).
    assert (A / (B * (4 * h)) = a /\ A mod (B * (4 * h)) = B * b + r) as [Q2 R2]
      by (split; [symmetry; apply (Z.div_unique_pos _ _ _ (B * b + r)); nia|symmetry; apply (Z.mod_unique_pos _ _ a); nia]).
    apply rnd_same; rewrite ?Q1, ?R1, ?Q2, ?R2; [reflexivity|nia| |].
    + split; intros; nia.
    + split; intros; nia.
Qed.

(** Nothing is lost exactly when the kept and the sticky bits are zero. *)
Lemma ro_exact A B k : 0 <= A -> 0 < B -> 1 <= k -> (ro A B mod 2 ^ k = 0 <-> A mod (B * 2 ^ k) = 0).
Proof.
  intros HA HB Hk. unfold ro. assert (2 ^ k = 2 * 2 ^ (k - 1)) as Ek by (rewrite <- Z.pow_succ_r by lia; f_equal; lia).
  assert (0 < 2 ^ (k - 1)) as Hh by (apply Z.pow_pos_nonneg; lia). rewrite !Z.mod_divide by nia. rewrite Ek. set (h := 2 ^ (k - 1)) in *. clearbody h.
  destruct (Z.eqb_spec (A mod B) 0) as [E0|E0].
  - apply Z.div_exact in E0; [|lia]. set (q := A / B) in *. clearbody q. subst A. split.
    + intros [z ->]. exists z. lia.
    + intros [z E]. exists z. nia.
  - rewrite lor_1. split; [intros [z E]; exfalso; lia|]. intros [z E]. exfalso. apply E0. apply Z.mod_divide; [lia|]. exists (z * 2 * h). lia.
Qed.

Lemma ro_nonneg A B : 0 <= A -> 0 < B -> 0 <= ro A B.
Proof.
  intros HA HB. pose proof (Z.div_pos A B HA HB). unfold ro. destruct (_ =? 0); [assumption|]. rewrite lor_1. pose proof (Z.div_pos (A / B) 2). lia.
Qed.

(** The bounds of a rounded-to-odd value at an even boundary are those of the exact one. *)
Lemma ro_bounds A B : 0 <= A -> 0 < B -> A / B <= ro A B <= A / B + 1.
Proof. intros HA HB. unfold ro. destruct (_ =? 0); [lia|]. rewrite lor_1. pose proof (Z.div_mod (A / B) 2 ltac:(lia)). pose proof (Z.mod_pos_bound (A / B) 2). lia. Qed.

Lemma ro_lt A B m : 0 <= A -> 0 < B -> (ro A B < 2 * m <-> A < B * (2 * m)).
Proof.
  intros HA HB. rewrite <- (Z.mul_comm (2 * m)). split; intros H.
  - destruct (Z.lt_ge_cases A (2 * m * B)) as [|C]; [assumption|]. exfalso. pose proof (ro_bounds A B HA HB).
    pose proof (Z.div_le_lower_bound A B (2 * m) HB ltac:(lia)). lia.
  - assert (A / B < 2 * m) by (apply Z.div_lt_upper_bound; lia). unfold ro. destruct (_ =? 0); [lia|]. rewrite lor_1.
    pose proof (Z.div_mod (A / B) 2 ltac:(lia)). pose proof (Z.mod_pos_bound (A / B) 2). lia.
Qed.

Lemma ro_log2 A B : 0 <= A -> 0 < B -> Z.log2 (ro A B) = Z.log2 (A / B).
Proof.
  intros HA HB. unfold ro. destruct (_ =? 0); [reflexivity|]. rewrite Z.log2_lor by (try apply Z.div_pos; lia).
  rewrite Z.log2_1. pose proof (Z.log2_nonneg (A / B)). lia.
Qed.

(** Even numbers can be added to a value rounded to odd, and it can be taken from them. *)
Lemma ro_shift A B c : 0 < B -> ro (A + 2 * c * B) B = ro A B + 2 * c.
Proof.
  intros HB. unfold ro. rewrite Z.mod_add, Z.div_add by lia. destruct (_ =? 0); [reflexivity|]. rewrite !lor_1.
  replace (A / B + 2 * c) with (A / B + c * 2) by lia. rewrite Z.div_add by lia. lia.
Qed.

Lemma ro_opp A B : 0 < B -> ro (- A) B = - ro A B.
Proof.
  intros HB. unfold ro. destruct (Z.eqb_spec (A mod B) 0) as [E|E].
  - rewrite Z.mod_opp_l_z by lia. rewrite Z.eqb_refl. apply Z.div_opp_l_z; lia.
  - rewrite Z.mod_opp_l_nz by lia. pose proof (Z.mod_pos_bound A B HB). destruct (Z.eqb_spec (B - A mod B) 0); [lia|].
    rewrite Z.div_opp_l_nz by lia. rewrite !lor_1. pose proof (Z.div_mod (A / B) 2 ltac:(lia)). pose proof (Z.mod_pos_bound (A / B) 2).
    pose proof (Z.div_mod (- (A / B) - 1) 2 ltac:(lia)). pose proof (Z.mod_pos_bound (- (A / B) - 1) 2). lia.
Qed.

(** ** Rounding to a format *)

Section Format.
Context (p w : Z).
Abbreviation F := (p + w + 1).

(** The sign with the magnitude below it. *)
Definition signed (s mag : Z) : Z := s * 2 ^ (F - 1) + mag.

(** Whether the mode rounds magnitudes of this sign up when anything is lost or at a half. *)
Definition away (rm s : Z) : bool :=
  (rm =? RM_RNE) || (rm =? RM_RMM) || (negb (rm =? RM_RTZ) && negb (Z.lxor s (rm &' 1) =? 0)).

(** The exponent field (less one) of the binade of [N / D]. *)
Definition binade (N D : Z) : Z := Z.max 0 (Z.log2 (N / D) - p).

(** Below the normal numbers also after rounding with an unbounded exponent. *)
Definition tiny (rm s N D : Z) : bool := (N <? D * 2 ^ p) && (rnd rm s (2 * N) D <? 2 ^ (p + 1)).

(** The float closest to [(-1)^s * N / D] smallest subnormals, and the flags. *)
Definition ref_round (rm s N D fl : Z) : Z * Z :=
  let e := binade N D in
  let mag := e * 2 ^ p + rnd rm s N (D * 2 ^ e) in
  let inexact := negb (N mod (D * 2 ^ e) =? 0) in
  let fl := if tiny rm s N D && inexact then fl |' FFLAG_UNDERFLOW else fl in
  let fl := if inexact then fl |' FFLAG_INEXACT else fl in
  if EXP_MASK w * 2 ^ p <=? mag then
    (signed s (if away rm s then EXP_MASK w * 2 ^ p else EXP_MASK w * 2 ^ p - 1), fl |' (FFLAG_OVERFLOW |' FFLAG_INEXACT))
  else (signed s mag, fl).

(** It depends on the value only. *)
Lemma exact_ratio N D N' D' : 0 < D -> 0 < D' -> N * D' = N' * D -> (N mod D = 0 <-> N' mod D' = 0).
Proof.
  intros HD HD' E. rewrite !Z.mod_divide by lia. split; intros [z ->]; exists z; nia.
Qed.

Lemma div_ratio N D N' D' : 0 < D -> 0 < D' -> N * D' = N' * D -> N / D = N' / D'.
Proof.
  intros HD HD' E. rewrite <- (Z.div_mul_cancel_r N D D'), <- (Z.div_mul_cancel_r N' D' D) by lia. rewrite E. f_equal. lia.
Qed.

Lemma ref_round_ratio rm s N D N' D' fl : 0 < D -> 0 < D' -> N * D' = N' * D -> ref_round rm s N D fl = ref_round rm s N' D' fl.
Proof.
  intros HD HD' E. unfold ref_round, binade, tiny. rewrite (div_ratio N D N' D' HD HD' E). cbv zeta.
  set (e := Z.max 0 (Z.log2 (N' / D') - p)). assert (0 < 2 ^ e) as He by (apply Z.pow_pos_nonneg; lia). clearbody e.
  assert (N * (D' * 2 ^ e) = N' * (D * 2 ^ e)) as Ee by nia.
  rewrite (rnd_ratio rm s N (D * 2 ^ e) N' (D' * 2 ^ e)), (rnd_ratio rm s (2 * N) D (2 * N') D') by nia.
  assert ((N <? D * 2 ^ p) = (N' <? D' * 2 ^ p)) as -> by (apply eq_true_iff_eq; rewrite !Z.ltb_lt; set (q := 2 ^ p) in *; clearbody q; split; intros; nia).
  assert ((N mod (D * 2 ^ e) =? 0) = (N' mod (D' * 2 ^ e) =? 0)) as ->
    by (apply eq_true_iff_eq; rewrite !Z.eqb_eq; apply exact_ratio; nia). reflexivity.
Qed.

(** *** Values [A / B * 2^(a - b)] *)

Section Scaled.
Context (A B a b : Z) (Ha : 0 <= a) (Hb : 0 <= b) (HB : 0 < B) (HA : B <= A).
Let l := Z.log2 (A / B).

Lemma log2_quot : 0 <= l /\ B * 2 ^ l <= A < B * 2 ^ (l + 1).
Proof using HB HA.
  assert (1 <= A / B) as Hq by (apply Z.div_le_lower_bound; lia). destruct (Z.log2_spec (A / B)) as [H1 H2]; [lia|].
  split; [apply Z.log2_nonneg|]. fold l in H1, H2. unfold Z.succ in H2. pose proof (Z.div_mod A B ltac:(lia)). pose proof (Z.mod_pos_bound A B HB). nia.
Qed.

Lemma below_scaled k : 0 <= k -> (A * 2 ^ a < B * 2 ^ b * 2 ^ k <-> l + a - b < k).
Proof using Ha Hb HB HA.
  intros Hk. destruct log2_quot as [Hl [H1 H2]]. split; intros H.
  - destruct (Z.lt_ge_cases (l + a - b) k) as [|C]; [assumption|]. exfalso.
    assert (2 ^ b * 2 ^ k <= 2 ^ l * 2 ^ a) by (rewrite <- !Z.pow_add_r by lia; apply Z.pow_le_mono_r; lia).
    assert (0 < 2 ^ a) by (apply Z.pow_pos_nonneg; lia). nia.
  - assert (2 ^ (l + 1) * 2 ^ a <= 2 ^ b * 2 ^ k) by (rewrite <- !Z.pow_add_r by lia; apply Z.pow_le_mono_r; lia).
    assert (0 < 2 ^ a) by (apply Z.pow_pos_nonneg; lia). nia.
Qed.

Lemma log2_scaled : 0 <= l + a - b -> Z.log2 (A * 2 ^ a / (B * 2 ^ b)) = l + a - b.
Proof using Ha Hb HB HA.
  intros Hge. assert (0 < B * 2 ^ b) by (pose proof (Z.pow_pos_nonneg 2 b); nia). apply Z.log2_unique; [assumption|]. split.
  - apply Z.div_le_lower_bound; [assumption|]. destruct (Z.lt_ge_cases (A * 2 ^ a) (B * 2 ^ b * 2 ^ (l + a - b))) as [C|]; [|assumption].
    apply below_scaled in C; lia.
  - apply Z.div_lt_upper_bound; [assumption|]. apply below_scaled; lia.
Qed.

Lemma binade_scaled : 0 <= p -> binade (A * 2 ^ a) (B * 2 ^ b) = Z.max 0 (l + a - b - p).
Proof using Ha Hb HB HA.
  intros Hp. unfold binade. destruct (Z.lt_ge_cases (l + a - b) 0) as [C|C]; [|rewrite log2_scaled by assumption; lia].
  rewrite Z.div_small; [change (Z.log2 0) with 0; lia|]. split; [pose proof (Z.pow_nonneg 2 a); nia|].
  pose proof (below_scaled 0 ltac:(lia)). rewrite Z.pow_0_r in H. lia.
Qed.

(** The rounding of the scaled value is one of [A / B] at a later bit. *)
Lemma rnd_scaled rm s e : 0 <= e -> 0 <= e + b - a -> rnd rm s (A * 2 ^ a) (B * 2 ^ b * 2 ^ e) = rnd rm s A (B * 2 ^ (e + b - a)).
Proof using Ha Hb HB.
  intros He Hk. apply rnd_ratio; [pow_pos b; pow_pos e; nia|pow_pos (e + b - a); nia|].
  assert (2 ^ a * 2 ^ (e + b - a) = 2 ^ b * 2 ^ e) as E by (rewrite <- !Z.pow_add_r by lia; f_equal; lia).
  transitivity (A * B * (2 ^ a * 2 ^ (e + b - a))); [ring|rewrite E; ring].
Qed.

Lemma exact_scaled e : 0 <= e -> 0 <= e + b - a -> (A * 2 ^ a) mod (B * 2 ^ b * 2 ^ e) = 0 <-> A mod (B * 2 ^ (e + b - a)) = 0.
Proof using Ha Hb HB.
  intros He Hk. apply exact_ratio; [pow_pos b; pow_pos e; nia|pow_pos (e + b - a); nia|].
  assert (2 ^ a * 2 ^ (e + b - a) = 2 ^ b * 2 ^ e) as E by (rewrite <- !Z.pow_add_r by lia; f_equal; lia).
  transitivity (A * B * (2 ^ a * 2 ^ (e + b - a))); [ring|rewrite E; ring].
Qed.

Lemma rnd_twice_scaled rm s : 1 <= b - a -> rnd rm s (2 * (A * 2 ^ a)) (B * 2 ^ b) = rnd rm s A (B * 2 ^ (b - a - 1)).
Proof using Ha Hb HB.
  intros Hk. apply rnd_ratio; [pow_pos b; nia|pow_pos (b - a - 1); nia|].
  assert (2 ^ 1 * 2 ^ a * 2 ^ (b - a - 1) = 2 ^ b) as E by (rewrite <- !Z.pow_add_r by lia; f_equal; lia).
  change (2 ^ 1) with 2 in E. transitivity (A * B * (2 * 2 ^ a * 2 ^ (b - a - 1))); [ring|rewrite E; ring].
Qed.

End Scaled.

(** Rounding to odd first, with two bits to spare, does not change the result. *)
Lemma ref_round_ro rm s A B a b fl : 0 <= p -> 0 <= a -> 0 <= b -> 0 < B -> B <= A -> (A mod B = 0 \/ p + 2 <= Z.log2 (A / B)) ->
  ref_round rm s (ro A B * 2 ^ a) (2 ^ b) fl = ref_round rm s (A * 2 ^ a) (B * 2 ^ b) fl.
Proof.
  intros Hp Ha Hb HB HA [H0|Hl].
  - pow_pos b. apply ref_round_ratio; [assumption|nia|]. unfold ro. rewrite H0, Z.eqb_refl. apply Z.div_exact in H0; [|lia]. nia.
  - rewrite <- (Z.mul_1_l (2 ^ b)) at 1. assert (1 <= ro A B) as HM.
    { assert (1 <= A / B) by (apply Z.div_le_lower_bound; lia). pose proof (ro_bounds A B). lia. }
    assert (Z.log2 (ro A B / 1) = Z.log2 (A / B)) as El by (rewrite Z.div_1_r; apply ro_log2; lia).
    unfold ref_round, tiny. rewrite !binade_scaled by lia. rewrite El. cbv zeta. set (l := Z.log2 (A / B)) in *.
    set (e := Z.max 0 (l + a - b - p)). rewrite !rnd_scaled by lia. rewrite !Z.mul_1_l, rnd_ro by lia.
    assert ((ro A B * 2 ^ a) mod (1 * 2 ^ b * 2 ^ e) = 0 <-> (A * 2 ^ a) mod (B * 2 ^ b * 2 ^ e) = 0) as Hx.
    { rewrite !exact_scaled by lia. rewrite Z.mul_1_l. apply ro_exact; lia. }
    rewrite Z.mul_1_l in Hx. fold e in Hx.
    assert (((ro A B * 2 ^ a) mod (2 ^ b * 2 ^ e) =? 0) = ((A * 2 ^ a) mod (B * 2 ^ b * 2 ^ e) =? 0)) as ->
      by (apply eq_true_iff_eq; rewrite !Z.eqb_eq; exact Hx).
    assert ((ro A B * 2 ^ a <? 2 ^ b * 2 ^ p) && (rnd rm s (2 * (ro A B * 2 ^ a)) (2 ^ b) <? 2 ^ (p + 1))
            = (A * 2 ^ a <? B * 2 ^ b * 2 ^ p) && (rnd rm s (2 * (A * 2 ^ a)) (B * 2 ^ b) <? 2 ^ (p + 1))) as ->; [|reflexivity].
    pose proof (below_scaled (ro A B) 1 a b Ha Hb ltac:(lia) HM p Hp) as H1. pose proof (below_scaled A B a b Ha Hb HB HA p Hp) as H2. rewrite El, Z.mul_1_l in H1. fold l in H1, H2.
    destruct (Z.ltb_spec (ro A B * 2 ^ a) (2 ^ b * 2 ^ p)) as [C1|C1], (Z.ltb_spec (A * 2 ^ a) (B * 2 ^ b * 2 ^ p)) as [C2|C2]; try lia.
    f_equal. f_equal. rewrite <- (Z.mul_1_l (2 ^ b)) at 1. rewrite !rnd_twice_scaled by lia. rewrite Z.mul_1_l. apply rnd_ro; lia.
Qed.

(** *** The rounding core of the code *)

Context (Hw : 5 <= w) (Hp : w <= p).

Lemma ones_minus n : 0 <= n -> (1 <<' n) - 1 = Z.ones n.
Proof. intros Hn. rewrite Z.ones_equiv, Z.shiftl_1_l. lia. Qed.

Lemma exp_mask : EXP_MASK w = 2 ^ w - 1.
Proof. unfold EXP_MASK. rewrite Z.shiftl_1_l. reflexivity. Qed.

Lemma rnd_size : RND_SIZE F p = w - 1.
Proof. unfold RND_SIZE, IMANT_SIZE. lia. Qed.

Lemma rshift_rnd_ro a d : 0 <= a < 2 ^ F -> 0 <= d -> rshift_rnd F a d = ro a (2 ^ d).
Proof using Hw Hp.
  intros Ha Hd. unfold rshift_rnd. destruct (Z.eqb_spec d 0) as [->|Hne]; [|simpl negb; cbv iota].
  - unfold ro. rewrite Z.mod_1_r, Z.div_1_r. reflexivity.
  - destruct (Z.leb_spec F d) as [Hb|Hb].
    + assert (a < 2 ^ d) by (pose proof (Z.pow_le_mono_r 2 F d); lia). unfold ro. rewrite Z.mod_small, Z.div_small by lia. destruct (a =? 0); reflexivity.
    + cbv zeta. unfold tst. rewrite ones_minus, Z.land_ones, Z.shiftr_div_pow2 by lia. unfold ro. destruct (_ =? 0); [apply Z.lor_0_r|reflexivity].
Qed.

Lemma land_lnot_1 x : x &' Z.lnot 1 = 2 * (x / 2).
Proof.
  apply Z.bits_inj'. intros i Hi. rewrite Z.land_spec, Z.lnot_spec by lia. destruct (Z.eq_dec i 0) as [->|Hne].
  - rewrite Z.testbit_even_0. apply andb_false_r.
  - rewrite (testbit_above 1 1) by lia. rewrite andb_true_r. replace i with (Z.succ (i - 1)) by lia.
    rewrite Z.testbit_even_succ, Z.div2_bits by lia. reflexivity.
Qed.

Lemma add_div q r c D : 0 < D -> 0 <= r < D -> 0 <= c < D -> (D * q + r + c) / D = if D <=? r + c then q + 1 else q.
Proof.
  intros HD Hr Hc. destruct (Z.leb_spec D (r + c)); symmetry; [apply (Z.div_unique_pos _ _ _ (r + c - D))|apply (Z.div_unique_pos _ _ _ (r + c))]; lia.
Qed.

(** Adding the addend and truncating, with the correction of ties to even. *)
Definition kept (rm s M : Z) : Z :=
  let m := fu F (M + rnd_addend F p s rm) >>' RND_SIZE F p in
  if (rm =? RM_RNE) && (M &' ((1 <<' RND_SIZE F p) - 1) =? 1 <<' (RND_SIZE F p - 1)) then m &' Z.lnot 1 else m.

Lemma kept_rnd rm s M : 0 <= M < 2 ^ (F - 1) -> kept rm s M = rnd rm s M (2 ^ (w - 1)).
Proof using Hw Hp.
  intros HM. unfold kept, rnd_addend, rnd. rewrite rnd_size, ones_minus, Z.land_ones by lia. rewrite !Z.shiftl_1_l. cbv zeta.
  assert (2 ^ (w - 1) = 2 * 2 ^ (w - 1 - 1)) as Eh by (rewrite <- Z.pow_succ_r by lia; f_equal; lia). pow_pos (w - 1 - 1).
  assert (2 ^ (w - 1) <= 2 ^ (F - 1)) as Hle by (apply Z.pow_le_mono_r; lia). assert (2 ^ F = 2 * 2 ^ (F - 1)) as EF by (rewrite <- Z.pow_succ_r by lia; f_equal; lia).
  pose proof (Z.div_mod M (2 ^ (w - 1)) ltac:(lia)) as EM. pose proof (Z.mod_pos_bound M (2 ^ (w - 1)) ltac:(lia)) as Hr.
  assert (Z.ones (w - 1) = 2 ^ (w - 1) - 1) as Eo by (rewrite Z.ones_equiv; lia).
  set (D := 2 ^ (w - 1)) in *. set (h := 2 ^ (w - 1 - 1)) in *. set (q := M / D) in *. set (r := M mod D) in *.
  assert (forall c, 0 <= c < D -> fu F (M + c) >>' (w - 1) = if D <=? r + c then q + 1 else q) as Hadd.
  { intros c Hc. unfold fu. rewrite wrapu_small by lia. rewrite Z.shiftr_div_pow2 by lia. fold D. rewrite EM at 1. apply add_div; lia. }
  assert (0 < D) by lia. clearbody D h q r.
  destruct (Z.eqb_spec rm RM_RNE) as [->|N0]; simpl orb; cbv iota.
  - rewrite (Hadd h) by lia. rewrite andb_true_l. destruct (Z.eqb_spec r h) as [E|E].
    + destruct (Z.leb_spec D (r + h)); [|lia]. destruct (Z.ltb_spec (2 * r) D); [lia|]. destruct (Z.ltb_spec D (2 * r)); [lia|].
      rewrite land_lnot_1. pose proof (Z.div_mod q 2 ltac:(lia)). pose proof (Z.mod_pos_bound q 2). pose proof (Z.div_mod (q + 1) 2 ltac:(lia)). pose proof (Z.mod_pos_bound (q + 1) 2). lia.
    + destruct (Z.leb_spec D (r + h)), (Z.ltb_spec (2 * r) D), (Z.ltb_spec D (2 * r)); lia.
  - simpl andb. cbv iota. destruct (Z.eqb_spec rm RM_RMM) as [->|N4]; cbv iota.
    + rewrite (Hadd h) by lia. destruct (Z.leb_spec D (r + h)), (Z.ltb_spec (2 * r) D); lia.
    + destruct (rm =? RM_RTZ).
      * rewrite (Hadd 0) by lia. destruct (Z.leb_spec D (r + 0)); lia.
      * destruct (negb (Z.lxor s (rm &' 1) =? 0)); [rewrite Eo, (Hadd (D - 1)) by lia|rewrite (Hadd 0) by lia]; destruct (Z.eqb_spec r 0); simpl andb; cbv iota;
          match goal with |- context [D <=? ?x] => destruct (Z.leb_spec D x) end; simpl; lia.
Qed.

Lemma away_addend rm s : (rnd_addend F p s rm =? 0) = negb (away rm s).
Proof using Hw Hp.
  unfold rnd_addend, away. rewrite rnd_size, !Z.shiftl_1_l. assert (2 ^ 1 <= 2 ^ (w - 1)) by (apply Z.pow_le_mono_r; lia). pow_pos (w - 1 - 1).
  destruct (rm =? RM_RNE), (rm =? RM_RMM), (rm =? RM_RTZ), (negb (Z.lxor s (rm &' 1) =? 0)); simpl; try reflexivity; apply Z.eqb_neq; lia.
Qed.

Lemma pack_signed s e m : 0 <= s <= 1 -> 0 <= e < 2 ^ w -> pack_sf F p s e m = signed s (e * 2 ^ p + m mod 2 ^ p).
Proof using Hw Hp.
  intros Hs He. unfold pack_sf, MANT_MASK, signed, fu. rewrite ones_minus, Z.land_ones by lia.
  pow_pos p. pose proof (Z.mod_pos_bound m (2 ^ p) ltac:(lia)) as Hm. assert (2 ^ (F - 1) = 2 ^ w * 2 ^ p) as EF1 by (rewrite <- Z.pow_add_r by lia; f_equal; lia).
  assert (2 ^ F = 2 * 2 ^ (F - 1)) as EF by (rewrite <- Z.pow_succ_r by lia; f_equal; lia).
  rewrite (wrapu_small F (s <<' (F - 1))) by (rewrite Z.shiftl_mul_pow2 by lia; nia).
  rewrite (wrapu_small F (e <<' p)) by (rewrite Z.shiftl_mul_pow2 by lia; nia).
  rewrite <- Z.lor_assoc. rewrite (lor_shiftl_low e (m mod 2 ^ p) p) by lia. apply lor_shiftl_low; [lia|nia].
Qed.

(** The packing of the rounded mantissa, and [round_pack_sf] in terms of it. *)
Definition pack_rounded (s e m rm fl : Z) : Z * Z :=
  if m <=? MANT_MASK p then (pack_sf F p s 0 m, fl)
  else if EXP_MASK w <=? e + (m >>' (p + 1)) then
    (if rnd_addend F p s rm =? 0 then pack_sf F p s (EXP_MASK w - 1) (MANT_MASK p) else pack_sf F p s (EXP_MASK w) 0, fl |' (FFLAG_OVERFLOW |' FFLAG_INEXACT))
  else (pack_sf F p s (e + (m >>' (p + 1))) m, fl).

Definition flag_if (b : bool) (f fl : Z) : Z := if b then fl |' f else fl.

Lemma round_pack_unfold s E M rm fl :
  round_pack_sf F p w s E M rm fl =
    (let small := E <=? 0 in
     let M' := if small then rshift_rnd F M (1 - E) else M in
     let inexact := negb (M' &' ((1 <<' RND_SIZE F p) - 1) =? 0) in
     let sub := small && ((E <? 0) || (fu F (M + rnd_addend F p s rm) <? 1 <<' (F - 1))) in
     pack_rounded s (if small then 1 else E) (kept rm s M') rm (flag_if inexact FFLAG_INEXACT (flag_if (sub && inexact) FFLAG_UNDERFLOW fl))).
Proof.
  unfold round_pack_sf, kept, pack_rounded, flag_if. destruct (E <=? 0); cbv zeta iota; simpl andb;
  repeat match goal with |- context [if ?c then _ else _] => let v := constr:(c) in destruct v end; reflexivity.
Qed.

Lemma rnd_bounds rm s N D : 0 <= N -> 0 < D -> N / D <= rnd rm s N D <= N / D + 1.
Proof.
  intros HN HD. pose proof (Z.mod_pos_bound (N / D) 2 ltac:(lia)). unfold rnd. cbv zeta.
  repeat match goal with |- context [if ?c then _ else _] => destruct c end; lia.
Qed.

Lemma pow_split n k : 0 <= k <= n -> 2 ^ n = 2 ^ k * 2 ^ (n - k).
Proof. intros H. rewrite <- Z.pow_add_r by lia. f_equal. lia. Qed.

(** What [ref_round] returns once the magnitude and the flags are known. *)
Definition ref_pack (rm s mag fl : Z) : Z * Z :=
  if EXP_MASK w * 2 ^ p <=? mag then
    (signed s (if away rm s then EXP_MASK w * 2 ^ p else EXP_MASK w * 2 ^ p - 1), fl |' (FFLAG_OVERFLOW |' FFLAG_INEXACT))
  else (signed s mag, fl).

Lemma pack_rounded_ref s e m rm fl : 0 <= s <= 1 -> 1 <= e -> 0 <= m <= 2 ^ (p + 1) -> (2 ^ p <= m \/ e = 1) ->
  pack_rounded s e m rm fl = ref_pack rm s ((e - 1) * 2 ^ p + m) fl.
Proof using Hw Hp.
  intros Hs He Hm Hn. unfold pack_rounded, ref_pack. rewrite away_addend. rewrite exp_mask. unfold MANT_MASK. rewrite Z.shiftl_1_l, Z.shiftr_div_pow2 by lia.
  assert (2 ^ (p + 1) = 2 * 2 ^ p) as E1 by (rewrite <- Z.pow_succ_r by lia; f_equal; lia). rewrite E1 in *. pow_pos p.
  assert (2 ^ 5 <= 2 ^ w) as Hw5 by (apply Z.pow_le_mono_r; lia). change (2 ^ 5) with 32 in Hw5.
  destruct (Z.leb_spec m (2 ^ p - 1)) as [C|C].
  - assert (e = 1) as -> by lia. destruct (Z.leb_spec ((2 ^ w - 1) * 2 ^ p) ((1 - 1) * 2 ^ p + m)); [nia|].
    rewrite pack_signed by lia. rewrite Z.mod_small by lia. reflexivity.
  - assert ((m / (2 * 2 ^ p) = 0 /\ m mod 2 ^ p = m - 2 ^ p /\ m < 2 * 2 ^ p) \/ (m / (2 * 2 ^ p) = 1 /\ m mod 2 ^ p = 0 /\ m = 2 * 2 ^ p)) as Hd.
    { destruct (Z.eq_dec m (2 * 2 ^ p)) as [->|]; [right|left].
      - rewrite Z.div_same, Z.mod_mul by lia. lia.
      - split; [apply Z.div_small; lia|split; [|lia]]. symmetry. apply (Z.mod_unique_pos _ _ 1); lia. }
    assert ((2 ^ w - 1 <=? e + m / (2 * 2 ^ p)) = ((2 ^ w - 1) * 2 ^ p <=? (e - 1) * 2 ^ p + m)) as ->.
    { apply eq_true_iff_eq. rewrite !Z.leb_le. destruct Hd as [(-> & Ed & Hlt)|(-> & Ed & ->)]; clear - C H Hw5 He Hm Hlt || clear - H Hw5 He; set (W := 2 ^ w) in *; set (P := 2 ^ p) in *; clearbody W P; split; intros; nia. }
    destruct (Z.leb_spec ((2 ^ w - 1) * 2 ^ p) ((e - 1) * 2 ^ p + m)) as [O|O].
    + f_equal. rewrite !pack_signed by lia. rewrite Z.mod_0_l, (Z.mod_small (2 ^ p - 1)) by lia. destruct (away rm s); simpl; f_equal; lia.
    + f_equal. rewrite pack_signed; [|lia|destruct Hd as [(-> & Ed & Hlt)|(-> & Ed & ->)]; split; nia]. unfold signed. destruct Hd as [(-> & Ed & Hlt)|(-> & Ed & ->)]; rewrite Ed; nia.
Qed.

Lemma kept_small rm s M : 0 <= M < 2 ^ (F - 1) -> (rnd rm s M (2 ^ (w - 1)) <? 2 ^ (p + 1)) = (fu F (M + rnd_addend F p s rm) <? 1 <<' (F - 1)).
Proof using Hw Hp.
  intros HM. rewrite <- kept_rnd by assumption. unfold kept. cbv zeta. set (X := fu F _). rewrite rnd_size, !Z.shiftl_1_l, Z.shiftr_div_pow2 by lia.
  assert (2 ^ (F - 1) = 2 ^ (w - 1) * 2 ^ (p + 1)) as E by (rewrite <- Z.pow_add_r by lia; f_equal; lia). assert (2 ^ (p + 1) = 2 * 2 ^ p) as E1 by (rewrite <- Z.pow_succ_r by lia; f_equal; lia).
  pow_pos (w - 1). apply eq_true_iff_eq. rewrite !Z.ltb_lt, E. rewrite land_lnot_1.
  assert (X / 2 ^ (w - 1) < 2 ^ (p + 1) <-> X < 2 ^ (w - 1) * 2 ^ (p + 1)) as <-.
  { split; [intros C|apply Z.div_lt_upper_bound; lia]. pose proof (Z.div_mod X (2 ^ (w - 1)) ltac:(lia)). pose proof (Z.mod_pos_bound X (2 ^ (w - 1)) ltac:(lia)). nia. }
  destruct (_ && _); [|tauto]. set (m := X / 2 ^ (w - 1)). pose proof (Z.div_mod m 2 ltac:(lia)). pose proof (Z.mod_pos_bound m 2). lia.
Qed.

Lemma ref_round_unfold rm s N D fl :
  ref_round rm s N D fl =
    (let e := binade N D in
     let inexact := negb (N mod (D * 2 ^ e) =? 0) in
     ref_pack rm s (e * 2 ^ p + rnd rm s N (D * 2 ^ e)) (flag_if inexact FFLAG_INEXACT (flag_if (tiny rm s N D && inexact) FFLAG_UNDERFLOW fl))).
Proof. reflexivity. Qed.

Lemma rnd_pow_bounds rm s N k j : 0 <= k -> 0 <= j -> 0 <= N < 2 ^ (k + j) -> 0 <= rnd rm s N (2 ^ k) <= 2 ^ j.
Proof.
  intros Hk Hj HN. pow_pos k. pose proof (rnd_bounds rm s N (2 ^ k) ltac:(lia) ltac:(lia)). pose proof (Z.div_pos N (2 ^ k) ltac:(lia) ltac:(lia)).
  assert (N / 2 ^ k < 2 ^ j) by (apply Z.div_lt_upper_bound; [lia|]; rewrite <- Z.pow_add_r by lia; lia). lia.
Qed.

(** [round_pack_sf] rounds [M * 2^(E - w)], for a mantissa in its normal position. *)
Lemma round_pack_ref s E M rm fl a b : 0 <= s <= 1 -> 2 ^ (F - 2) <= M < 2 ^ (F - 1) -> 0 <= a -> 0 <= b -> a - b = E - w ->
  round_pack_sf F p w s E M rm fl = ref_round rm s (M * 2 ^ a) (2 ^ b) fl.
Proof using Hw Hp.
  intros Hs HM Ha Hb Hab. rewrite round_pack_unfold, ref_round_unfold. rewrite <- (Z.mul_1_l (2 ^ b)). pow_pos (F - 2).
  assert (Z.log2 (M / 1) = F - 2) as El by (rewrite Z.div_1_r; apply Z.log2_unique; [lia|]; replace (Z.succ (F - 2)) with (F - 1) by lia; lia).
  assert (2 ^ (F - 1) = 2 * 2 ^ (F - 2)) as EF1 by (rewrite <- Z.pow_succ_r by lia; f_equal; lia).
  assert (2 ^ F = 2 * 2 ^ (F - 1)) as EF by (rewrite <- Z.pow_succ_r by lia; f_equal; lia).
  rewrite binade_scaled, El by lia. rewrite rnd_size, ones_minus by lia. cbv zeta. rewrite !Z.land_ones by lia.
  destruct (Z.leb_spec E 0) as [HE|HE].
  - replace (Z.max 0 _) with 0 by lia. rewrite rshift_rnd_ro by lia. rewrite rnd_scaled by lia. pow_pos (1 - E).
    assert (ro M (2 ^ (1 - E)) < 2 ^ (F - 2)) as HM'.
    { rewrite (pow_split (F - 2) 1) by lia. change (2 ^ 1) with 2. apply ro_lt; [lia|lia|]. change 2 with (2 ^ 1) at 2. rewrite <- pow_split by lia. pose proof (pow_split (1 - E + (F - 2)) (1 - E) ltac:(lia)) as E1.
      replace (1 - E + (F - 2) - (1 - E)) with (F - 2) in E1 by lia. rewrite <- E1. apply Z.lt_le_trans with (2 ^ (F - 1)); [lia|apply Z.pow_le_mono_r; lia]. }
    pose proof (ro_nonneg M (2 ^ (1 - E)) ltac:(lia) ltac:(lia)) as Hnn.
    assert (2 ^ (1 - E) * 2 ^ (w - 1) = 1 * 2 ^ (0 + b - a)) as Ek by (rewrite <- Z.pow_add_r by lia; rewrite Z.mul_1_l; f_equal; lia).
    rewrite kept_rnd by lia. rewrite rnd_ro by lia. rewrite Ek.
    pose proof (rnd_pow_bounds rm s M (0 + b - a) p) as Hbd. rewrite !Z.mul_1_l.
    rewrite pack_rounded_ref; [|lia|lia| |lia].
    2:{ assert (2 ^ p <= 2 ^ (p + 1)) by (apply Z.pow_le_mono_r; lia). assert (2 ^ (F - 1) <= 2 ^ (0 + b - a + p)) by (apply Z.pow_le_mono_r; lia). lia. }
    f_equal. assert ((ro M (2 ^ (1 - E)) mod 2 ^ (w - 1) =? 0) = ((M * 2 ^ a) mod (2 ^ b * 2 ^ 0) =? 0)) as ->.
    { apply eq_true_iff_eq. rewrite !Z.eqb_eq. rewrite <- (Z.mul_1_l (2 ^ b)), exact_scaled by lia. rewrite <- Ek. apply ro_exact; lia. }
    f_equal. f_equal. f_equal. unfold tiny. rewrite andb_true_l.
    pose proof (below_scaled M 1 a b Ha Hb ltac:(lia) ltac:(lia) p ltac:(lia)) as Hbel. rewrite El, Z.mul_1_l in Hbel.
    destruct (Z.ltb_spec (M * 2 ^ a) (2 ^ b * 2 ^ p)); [|lia]. rewrite andb_true_l. rewrite <- (Z.mul_1_l (2 ^ b)), rnd_twice_scaled by lia. rewrite Z.mul_1_l.
    destruct (Z.ltb_spec E 0) as [HE0|HE0].
    + symmetry. apply Z.ltb_lt. pose proof (rnd_pow_bounds rm s M (b - a - 1) p) as Hbd2. assert (2 ^ p < 2 ^ (p + 1)) by (apply Z.pow_lt_mono_r; lia). assert (2 ^ (F - 1) <= 2 ^ (b - a - 1 + p)) by (apply Z.pow_le_mono_r; lia). lia.
    + rewrite orb_false_l. replace (b - a - 1) with (w - 1) by lia. symmetry. apply kept_small. lia.
  - replace (Z.max 0 _) with (E - 1) by lia. rewrite rnd_scaled by lia. replace (E - 1 + b - a) with (w - 1) by lia. rewrite Z.mul_1_l, kept_rnd by lia.
    pow_pos (w - 1). rewrite pack_rounded_ref; [|lia|lia| |].
    2:{ apply rnd_pow_bounds; try lia. replace (w - 1 + (p + 1)) with (F - 1) by lia. lia. }
    2:{ left. pose proof (rnd_bounds rm s M (2 ^ (w - 1)) ltac:(lia) ltac:(lia)). assert (2 ^ p <= M / 2 ^ (w - 1)); [|lia].
        apply Z.div_le_lower_bound; [lia|]. rewrite <- Z.pow_add_r by lia. replace (w - 1 + p) with (F - 2) by lia. lia. }
    f_equal. simpl andb. assert ((M mod 2 ^ (w - 1) =? 0) = ((M * 2 ^ a) mod (1 * 2 ^ b * 2 ^ (E - 1)) =? 0)) as ->.
    { apply eq_true_iff_eq. rewrite !Z.eqb_eq. rewrite exact_scaled by lia. rewrite Z.mul_1_l. replace (E - 1 + b - a) with (w - 1) by lia. tauto. }
    unfold tiny. pose proof (below_scaled M 1 a b Ha Hb ltac:(lia) ltac:(lia) p ltac:(lia)) as Hbel. rewrite El in Hbel.
    destruct (Z.ltb_spec (M * 2 ^ a) (1 * 2 ^ b * 2 ^ p)); [lia|]. simpl andb. rewrite !Z.mul_1_l. reflexivity.
Qed.

Lemma rnd_zero rm s D : 0 < D -> rnd rm s 0 D = 0.
Proof.
  intros HD. unfold rnd. rewrite Z.div_0_l, Z.mod_0_l by lia. simpl (0 mod 2). rewrite andb_false_r. cbv zeta.
  destruct (rm =? RM_RNE), (rm =? RM_RMM), (rm =? RM_RTZ); try reflexivity; (destruct (Z.ltb_spec (2 * 0) D); [reflexivity|lia]).
Qed.

Lemma ref_round_zero rm s D fl : 0 < D -> ref_round rm s 0 D fl = (signed s 0, fl).
Proof using Hw Hp.
  intros HD. rewrite ref_round_unfold. unfold binade. rewrite Z.div_0_l by lia. change (Z.log2 0) with 0. replace (Z.max 0 (0 - p)) with 0 by lia.
  cbv zeta. change (2 ^ 0) with 1. rewrite Z.mul_1_r, Z.mod_0_l, rnd_zero by lia. simpl negb. rewrite andb_false_r. simpl flag_if. unfold ref_pack. rewrite exp_mask.
  assert (2 ^ 5 <= 2 ^ w) by (apply Z.pow_le_mono_r; lia). change (2 ^ 5) with 32 in *. pow_pos p.
  destruct (Z.leb_spec ((2 ^ w - 1) * 2 ^ p) (0 * 2 ^ p + 0)); [nia|reflexivity].
Qed.

Lemma round_pack_zero s E rm fl : 0 <= s <= 1 -> round_pack_sf F p w s E 0 rm fl = (signed s 0, fl).
Proof using Hw Hp.
  intros Hs. rewrite round_pack_unfold. cbv zeta. pow_pos (F - 1). pow_pos p. pow_pos (w - 1).
  assert ((if E <=? 0 then rshift_rnd F 0 (1 - E) else 0) = 0) as ->.
  { destruct (E <=? 0) eqn:HE; [|reflexivity]. apply Z.leb_le in HE. rewrite rshift_rnd_ro by (pow_pos (p + w + 1); lia). pow_pos (1 - E). unfold ro. rewrite Z.mod_0_l, Z.div_0_l by lia. reflexivity. }
  rewrite Z.land_0_l, kept_rnd, rnd_zero by lia. simpl negb. rewrite andb_false_r. unfold flag_if, pack_rounded, MANT_MASK. rewrite Z.shiftl_1_l.
  destruct (Z.leb_spec 0 (2 ^ p - 1)); [|lia]. rewrite pack_signed by (pow_pos w; lia). rewrite Z.mod_0_l by lia. reflexivity.
Qed.

(** [normalize_sf] rounds [M * 2^(E - w)] for every mantissa that leaves the top bit free; its assertion holds. *)
Lemma normalize_ref s E M rm fl a b : 0 <= s <= 1 -> 0 <= M < 2 ^ (F - 1) -> 0 <= a -> 0 <= b -> a - b = E - w ->
  normalize_sf F p w s E M rm fl = Done (ref_round rm s (M * 2 ^ a) (2 ^ b) fl).
Proof using Hw Hp.
  intros Hs HM Ha Hb Hab. unfold normalize_sf, IMANT_SIZE, clz. cbv zeta. destruct (Z.eqb_spec M 0) as [->|Hnz].
  - destruct (Z.leb_spec 0 (F - (F - 1 - (F - 2)))); [|lia]. unfold assert_c. simpl. rewrite Z.shiftl_0_l. change (fu F 0) with (wrapu F 0). pow_pos (p + w + 1). rewrite wrapu_small by lia.
    rewrite round_pack_zero by assumption. pow_pos b. rewrite ref_round_zero by lia. reflexivity.
  - assert (Z.log2 M < F - 1) as Hl by (apply Z.log2_lt_pow2; lia). pose proof (Z.log2_nonneg M). set (j := F - 1 - Z.log2 M - (F - 1 - (F - 2))).
    assert (j = F - 2 - Z.log2 M) as Ej by (unfold j; lia). clearbody j. destruct (Z.leb_spec 0 j); [|lia]. unfold assert_c. simpl.
    destruct (Z.log2_spec M) as [L1 L2]; [lia|]. unfold Z.succ in L2. pow_pos j.
    assert (2 ^ (F - 2) = 2 ^ Z.log2 M * 2 ^ j) as E1 by (rewrite <- Z.pow_add_r by lia; f_equal; lia).
    assert (2 ^ (F - 1) = 2 ^ (Z.log2 M + 1) * 2 ^ j) as E2 by (rewrite <- Z.pow_add_r by lia; f_equal; lia).
    assert (2 ^ F = 2 * 2 ^ (F - 1)) as EF by (rewrite <- Z.pow_succ_r by lia; f_equal; lia).
    assert (2 ^ (F - 2) <= M * 2 ^ j < 2 ^ (F - 1)) as HM' by (rewrite E1, E2; nia).
    rewrite Z.shiftl_mul_pow2 by lia. unfold fu. rewrite wrapu_small by lia. rewrite (round_pack_ref s (E - j) (M * 2 ^ j) rm fl a (b + j)) by lia.
    f_equal. pow_pos b. apply ref_round_ratio; [pow_pos (b + j); lia|lia|]. rewrite (Z.pow_add_r 2 b j) by lia. ring.
Qed.

(** The form the arithmetic uses: the mantissa is the exact [A / B] rounded to odd, and [N / D] the value it stands for. *)
Lemma normalize_value s E A B a b N D rm fl : 0 <= s <= 1 -> 0 <= A -> 0 < B -> A < B * 2 ^ (F - 1) -> (A mod B = 0 \/ p + 2 <= Z.log2 (A / B)) ->
  0 <= a -> 0 <= b -> a - b = E - w -> 0 < D -> N * (B * 2 ^ b) = A * 2 ^ a * D ->
  normalize_sf F p w s E (ro A B) rm fl = Done (ref_round rm s N D fl).
Proof using Hw Hp.
  intros Hs HA HB HAB Hro Ha Hb Hab HD EN. pow_pos b. rewrite (normalize_ref s E (ro A B) rm fl a b); [|assumption| |assumption|assumption|assumption].
  2:{ split; [apply ro_nonneg; lia|]. rewrite (pow_split (F - 1) 1) in * by lia. change (2 ^ 1) with 2 in *. apply ro_lt; lia. }
  f_equal. transitivity (ref_round rm s (A * 2 ^ a) (B * 2 ^ b) fl); [|apply ref_round_ratio; nia].
  destruct (Z.lt_ge_cases A B) as [C|C]; [|apply ref_round_ro; lia].
  assert (A = 0) as ->. { destruct Hro as [H0|H0]; [rewrite Z.mod_small in H0; lia|]. rewrite Z.div_small in H0 by lia. change (Z.log2 0) with 0 in H0. lia. }
  unfold ro. rewrite Z.mod_0_l, Z.div_0_l, Z.eqb_refl, Z.mul_0_l by lia. rewrite !ref_round_zero by nia. reflexivity.
Qed.

End Format.
