(* ===== verification/SoftArith.v ===== *)
(** * Correct rounding of the floating-point operations

    [fval] is the value of a finite float in smallest subnormals.  Each
    operation of [Softfp] on finite operands returns [ref_round] of the exact
    result, in every rounding mode and with the flags, and never fails its
    assertions.  The statements are for any format with at least five exponent
    bits and at least as many mantissa bits, so they cover binary32, binary64
    and binary128. *)

From S2P Require Import Prelude Softfp SoftRound.
From stdpp Require Import base list.
From Stdlib Require Import ZArith Lia Bool.
Local Open Scope Z_scope.
Local Open Scope bits_scope.

Section Arith.
Context (p w : Z) (Hw : 5 <= w) (Hp : w <= p).
Abbreviation F := (p + w + 1).

(** ** Decoding *)

Definition finite (a : Z) : bool := negb (sf_exp p w a =? EXP_MASK w).
Definition fval (a : Z) : Z := if sf_exp p w a =? 0 then sf_mant p a else (2 ^ p + sf_mant p a) * 2 ^ (sf_exp p w a - 1).

(** Units of the smallest subnormal in 1. *)
Definition fone : Z := 2 ^ (2 ^ (w - 1) - 1 + p - 1).

Lemma sign_range a : in_u F a -> 0 <= sf_sign F a <= 1.
Proof using Hw Hp.
  intros [H1 H2]. unfold sf_sign. rewrite Z.shiftr_div_pow2 by lia. rewrite (pow_split F (F - 1)) in H2 by lia. replace (F - (F - 1)) with 1 in H2 by lia. pow_pos (F - 1).
  split; [apply Z.div_pos; lia|]. assert (a / 2 ^ (F - 1) < 2); [|lia]. apply Z.div_lt_upper_bound; lia.
Qed.

Lemma exp_range a : 0 <= sf_exp p w a < 2 ^ w.
Proof using Hw Hp. unfold sf_exp, EXP_MASK. rewrite ones_minus, Z.land_ones by lia. apply Z.mod_pos_bound. pow_pos w. assumption. Qed.

Lemma mant_range a : 0 <= sf_mant p a < 2 ^ p.
Proof using Hw Hp. unfold sf_mant, MANT_MASK. rewrite ones_minus, Z.land_ones by lia. apply Z.mod_pos_bound. pow_pos p. assumption. Qed.

Lemma lxor_sign x y : 0 <= x <= 1 -> 0 <= y <= 1 -> 0 <= Z.lxor x y <= 1.
Proof. intros Hx Hy. assert (x = 0 \/ x = 1) as [-> | ->] by lia; assert (y = 0 \/ y = 1) as [-> | ->] by lia; split; vm_compute; discriminate. Qed.

Lemma fval_nonneg a : 0 <= fval a.
Proof using Hw Hp. unfold fval. pose proof (mant_range a). pow_pos p. destruct (Z.eqb_spec (sf_exp p w a) 0); [lia|]. pose proof (exp_range a). pow_pos (sf_exp p w a - 1). nia. Qed.

Lemma fval_zero a : (sf_exp p w a =? 0) && (sf_mant p a =? 0) = (fval a =? 0).
Proof using Hw Hp.
  unfold fval. pose proof (mant_range a). pow_pos p. destruct (Z.eqb_spec (sf_exp p w a) 0); [reflexivity|]. pose proof (exp_range a). pow_pos (sf_exp p w a - 1).
  symmetry. apply Z.eqb_neq. nia.
Qed.

(** A nonzero operand comes out of [operand] with its leading bit in place. *)
Lemma operand_spec a : fval a <> 0 -> finite a = true ->
  exists e m, operand F p (sf_exp p w a) (sf_mant p a) = (e, m) /\ 2 ^ p <= m < 2 ^ (p + 1) /\ 1 - p <= e <= 2 ^ w - 2 /\ m * 2 ^ (e - 1 + p) = fval a * 2 ^ p.
Proof using Hw Hp.
  intros Hnz Hf. unfold fval in *. unfold finite in Hf. apply negb_true_iff, Z.eqb_neq in Hf. rewrite exp_mask in Hf.
  pose proof (exp_range a) as He. pose proof (mant_range a) as Hm. set (e0 := sf_exp p w a) in *. set (m0 := sf_mant p a) in *. clearbody e0 m0. unfold operand.
  assert (2 ^ (p + 1) = 2 * 2 ^ p) as E1 by (rewrite <- Z.pow_succ_r by lia; f_equal; lia). destruct (Z.eqb_spec e0 0) as [->|H0].
  - unfold normalize_subnormal_sf, clz. destruct (Z.eqb_spec m0 0); [contradiction|]. cbv zeta. replace (F - 1 - (F - 1 - Z.log2 m0)) with (Z.log2 m0) by lia.
    assert (Z.log2 m0 < p) by (apply Z.log2_lt_pow2; lia). pose proof (Z.log2_nonneg m0). destruct (Z.log2_spec m0) as [L1 L2]; [lia|]. unfold Z.succ in L2. set (l := Z.log2 m0) in *. pow_pos (p - l).
    assert (2 ^ p = 2 ^ l * 2 ^ (p - l)) as Ep by (rewrite <- Z.pow_add_r by lia; f_equal; lia).
    assert (2 ^ (p + 1) = 2 ^ (l + 1) * 2 ^ (p - l)) as Ep1 by (rewrite <- Z.pow_add_r by lia; f_equal; lia).
    assert (2 ^ p <= m0 * 2 ^ (p - l) < 2 ^ (p + 1)) as Hb by (rewrite Ep, Ep1; nia). assert (2 ^ (p + 1) <= 2 ^ F) by (apply Z.pow_le_mono_r; lia).
    eexists _, _. split; [reflexivity|]. rewrite Z.shiftl_mul_pow2 by lia. unfold fu. rewrite wrapu_small by lia. split; [exact Hb|]. split; [assert (2 ^ 5 <= 2 ^ w) by (apply Z.pow_le_mono_r; lia); lia|].
    rewrite <- Z.mul_assoc, <- Z.pow_add_r by lia. do 2 f_equal. lia.
  - eexists _, _. split; [reflexivity|]. rewrite Z.shiftl_1_l. assert (m0 |' 2 ^ p = 2 ^ p + m0) as ->.
    { rewrite Z.lor_comm, <- (Z.mul_1_l (2 ^ p)) at 1. rewrite <- Z.shiftl_mul_pow2, lor_shiftl_low by lia. lia. }
    split; [lia|]. split; [lia|]. rewrite Z.pow_add_r by lia. ring.
Qed.

(** The high word of a product with the low one folded into its last bit. *)
Lemma ro_words P : (P >>' F) |' b2z (negb (fu F P =? 0)) = ro P (2 ^ F).
Proof using Hw Hp.
  unfold ro, fu, wrapu. rewrite Z.shiftr_div_pow2 by lia. destruct (_ =? 0); [apply Z.lor_0_r|reflexivity].
Qed.

Lemma fone_pos : 0 < fone.
Proof using Hw Hp. unfold fone. pow_pos (w - 1). pow_pos (2 ^ (w - 1) - 1 + p - 1). assumption. Qed.

Lemma exp_bound : 32 <= 2 ^ w /\ 2 ^ w = 2 * 2 ^ (w - 1).
Proof using Hw. split; [change 32 with (2 ^ 5); apply Z.pow_le_mono_r; lia|rewrite <- Z.pow_succ_r by lia; f_equal; lia]. Qed.

Lemma log2_lower A B k : 0 < B -> 0 <= k -> B * 2 ^ k <= A -> k <= Z.log2 (A / B).
Proof. intros HB Hk H. rewrite <- (Z.log2_pow2 k) by lia. apply Z.log2_le_mono. apply Z.div_le_lower_bound; lia. Qed.

(** *** Multiplication *)

(** The mantissa that [mul_sf] normalises stands for the exact product. *)
Lemma mul_normalize s ea ma eb mb N rm fl : 0 <= s <= 1 -> 2 ^ p <= ma < 2 ^ (p + 1) -> 2 ^ p <= mb < 2 ^ (p + 1) -> 1 - p <= ea -> 1 - p <= eb ->
  N * (2 ^ p * 2 ^ p) = ma * 2 ^ (ea - 1 + p) * (mb * 2 ^ (eb - 1 + p)) ->
  (let '(hi, lo) := mul_u F (fu F (ma <<' RND_SIZE F p)) (fu F (mb <<' (RND_SIZE F p + 1))) in
   normalize_sf F p w s (ea + eb - (1 <<' (w - 1)) + 2) (hi |' b2z (negb (lo =? 0))) rm fl) = Done (ref_round p w rm s N fone fl).
Proof using Hw Hp.
  intros Hs Ha Hb Hea Heb EN. destruct exp_bound as [Hw32 Ew]. rewrite rnd_size, Z.shiftl_1_l. rewrite !Z.shiftl_mul_pow2 by lia. pow_pos (w - 1). pow_pos p.
  assert (2 ^ (p + 1) = 2 * 2 ^ p) as E1 by (rewrite <- Z.pow_succ_r by lia; f_equal; lia).
  assert (2 ^ F = 2 ^ (p + 1) * (2 ^ 1 * 2 ^ (w - 1))) as EF by merge_pows. change (2 ^ 1) with 2 in EF.
  assert (2 ^ (w - 1 + 1) = 2 * 2 ^ (w - 1)) as Ew1 by (rewrite <- Ew; f_equal; lia). rewrite Ew1.
  assert (0 <= ma * 2 ^ (w - 1) < 2 ^ F) as Ba by (rewrite EF; split; nia). assert (0 <= mb * (2 * 2 ^ (w - 1)) < 2 ^ F) as Bb by (rewrite EF; split; nia).
  unfold fu at 1 2. rewrite !wrapu_small by assumption. unfold mul_u. set (P := ma * 2 ^ (w - 1) * (mb * (2 * 2 ^ (w - 1)))).
  assert (2 ^ (2 * F) = 2 ^ F * 2 ^ F) as E2F by merge_pows.
  assert (0 <= P < 2 ^ F * 2 ^ F) as HP by (unfold P; split; [apply Z.mul_nonneg_nonneg|apply Z.mul_lt_mono_nonneg]; lia).
  rewrite wrapu_small by lia. cbv zeta. rewrite ro_words. set (K := 2 * p + 2 ^ (w - 1) + w).
  assert (P = ma * mb * (2 * 2 ^ (w - 1) * 2 ^ (w - 1))) as EP by (unfold P; ring).
  assert (2 ^ p * 2 ^ p * (2 ^ 1 * 2 ^ (w - 1) * 2 ^ (w - 1)) = 2 ^ F * 2 ^ (p + w - 2)) as Elo by merge_pows.
  assert (2 ^ (p + 1) * 2 ^ (p + 1) * (2 ^ 1 * 2 ^ (w - 1) * 2 ^ (w - 1)) = 2 ^ F * 2 ^ (F - 1)) as Ehi by merge_pows. change (2 ^ 1) with 2 in Elo, Ehi.
  pow_pos (p + w + 1).
  apply (normalize_value p w Hw Hp s _ P (2 ^ F) (ea + eb - 2 ^ (w - 1) + 2 - w + K) K); [assumption|lia|lia| |right|lia|lia|lia|apply fone_pos|].
  - rewrite EP, <- Ehi. apply Z.mul_lt_mono_pos_r; [nia|]. apply Z.mul_lt_mono_nonneg; lia.
  - apply Z.le_trans with (p + w - 2); [lia|]. apply log2_lower; [lia|lia|]. rewrite EP, <- Elo. apply Z.mul_le_mono_nonneg_r; [nia|]. apply Z.mul_le_mono_nonneg; lia.
  - apply (Z.mul_reg_r _ _ (2 ^ p * 2 ^ p)); [nia|]. transitivity (N * (2 ^ p * 2 ^ p) * (2 ^ F * 2 ^ K)); [ring|]. rewrite EN, EP.
    transitivity (ma * mb * (2 ^ (ea - 1 + p) * 2 ^ (eb - 1 + p) * (2 ^ F * 2 ^ K))); [ring|].
    assert (2 ^ (ea - 1 + p) * 2 ^ (eb - 1 + p) * (2 ^ F * 2 ^ K) = 2 ^ 1 * 2 ^ (w - 1) * 2 ^ (w - 1) * 2 ^ (ea + eb - 2 ^ (w - 1) + 2 - w + K) * fone * (2 ^ p * 2 ^ p)) as -> by (unfold fone; merge_pows).
    change (2 ^ 1) with 2. ring.
Qed.

Lemma mul_rounds a b rm fl : in_u F a -> in_u F b -> finite a = true -> finite b = true ->
  mul_sf F p w a b rm fl = Done (ref_round p w rm (Z.lxor (sf_sign F a) (sf_sign F b)) (fval a * fval b) fone fl).
Proof using Hw Hp.
  intros Ha Hb Hfa Hfb. unfold mul_sf. pose proof (lxor_sign _ _ (sign_range a Ha) (sign_range b Hb)) as Hs. set (s := Z.lxor _ _) in *. clearbody s. cbv zeta.
  pose proof Hfa as Hfa'. pose proof Hfb as Hfb'. unfold finite in Hfa', Hfb'. apply negb_true_iff in Hfa', Hfb'. rewrite Hfa', Hfb'. simpl orb. cbv iota.
  pose proof fone_pos. rewrite !fval_zero. pow_pos w. pow_pos p. destruct exp_bound.
  assert (Done (pack_sf F p s 0 0, fl) = Done (ref_round p w rm s 0 fone fl)) as Hzero
    by (rewrite ref_round_zero, pack_signed by lia; rewrite Z.mod_0_l by lia; reflexivity).
  destruct (Z.eqb_spec (fval a) 0) as [->|Na]; [rewrite Z.mul_0_l; exact Hzero|]. destruct (Z.eqb_spec (fval b) 0) as [->|Nb]; [rewrite Z.mul_0_r; exact Hzero|].
  destruct (operand_spec a Na Hfa) as (ea & ma & -> & Hma & Hea & Eva). destruct (operand_spec b Nb Hfb) as (eb & mb & -> & Hmb & Heb & Evb).
  apply mul_normalize; try lia. rewrite Eva, Evb. ring.
Qed.

(** C38 Multiplication of finite floats is correctly rounded: for finite operands [mul_sf] returns the float
    nearest to the exact product in the rounding mode [rm], sign and subnormal results included, overflows to
    infinity or to the largest float as the mode asks, and accrues exactly the inexact, underflow (tininess
    after rounding) and overflow flags; its assertion never fails. *)
Theorem mul_correctly_rounded a b rm fl : in_u F a -> in_u F b -> finite a = true -> finite b = true ->
  mul_sf F p w a b rm fl = Done (ref_round p w rm (Z.lxor (sf_sign F a) (sf_sign F b)) (fval a * fval b) fone fl).
Proof using Hw Hp. exact (mul_rounds a b rm fl). Qed.

(** *** Division *)

Lemma div_normalize s ea ma eb mb N D rm fl : 0 <= s <= 1 -> 2 ^ p <= ma < 2 ^ (p + 1) -> 2 ^ p <= mb < 2 ^ (p + 1) -> 1 - p <= ea -> 1 - p <= eb <= 2 ^ w - 2 ->
  0 < D -> N * 2 ^ p = ma * 2 ^ (ea - 1 + p) -> D * 2 ^ p = mb * 2 ^ (eb - 1 + p) ->
  (let '(q, r) := divrem_u F ma 0 (fu F (mb <<' 2)) in
   normalize_sf F p w s (ea - eb + (1 <<' (w - 1)) - 1) (if negb (r =? 0) then q |' 1 else q) rm fl) = Done (ref_round p w rm s (N * fone) D fl).
Proof using Hw Hp.
  intros Hs Ha Hb Hea Heb HD EN ED. destruct exp_bound as [Hw32 Ew]. rewrite Z.shiftl_1_l. unfold divrem_u. rewrite !Z.shiftl_mul_pow2, Z.lor_0_r by lia. change (2 ^ 2) with 4. pow_pos (w - 1). pow_pos p. pow_pos (p + w + 1).
  assert (2 ^ (p + 1) = 2 * 2 ^ p) as E1 by (rewrite <- Z.pow_succ_r by lia; f_equal; lia).
  assert (2 ^ (p + 3) = 8 * 2 ^ p) as E3 by (change 8 with (2 ^ 3); merge_pows). assert (2 ^ (p + 3) <= 2 ^ F) as Hle by (apply Z.pow_le_mono_r; lia).
  unfold fu. rewrite (wrapu_small F (mb * 4)) by lia. set (A := ma * 2 ^ F).
  assert (A / (mb * 4) < 2 ^ F) by (apply Z.div_lt_upper_bound; unfold A; nia). pose proof (Z.div_pos A (mb * 4) ltac:(unfold A; nia) ltac:(lia)). pose proof (Z.mod_pos_bound A (mb * 4) ltac:(lia)).
  cbv zeta. rewrite (wrapu_small F (A / _)), (wrapu_small F (A mod _)) by lia.
  assert ((if negb (A mod (mb * 4) =? 0) then A / (mb * 4) |' 1 else A / (mb * 4)) = ro A (mb * 4)) as -> by (unfold ro; destruct (_ =? 0); reflexivity).
  set (K := p + 2 ^ w + w). assert (2 ^ F = 2 * 2 ^ (F - 1)) as EF by (rewrite <- Z.pow_succ_r by lia; f_equal; lia).
  apply (normalize_value p w Hw Hp s _ A (mb * 4) (ea - eb + 2 ^ (w - 1) - 1 - w + K) K); [assumption|unfold A; nia|lia| |right|lia|lia|lia|assumption|].
  - unfold A. nia.
  - apply Z.le_trans with (p + w - 2); [lia|]. apply log2_lower; [lia|lia|]. unfold A. rewrite (pow_split F 3) by lia. change (2 ^ 3) with 8. replace (F - 3) with (p + w - 2) by lia. pow_pos (p + w - 2). nia.
  - apply (Z.mul_reg_r _ _ (2 ^ p)); [lia|]. transitivity (N * 2 ^ p * (fone * 4 * 2 ^ K) * mb); [ring|]. rewrite EN.
    transitivity (A * 2 ^ (ea - eb + 2 ^ (w - 1) - 1 - w + K) * (D * 2 ^ p)); [|ring]. rewrite ED. unfold A.
    transitivity (ma * mb * (2 ^ (ea - 1 + p) * fone * 2 ^ 2 * 2 ^ K)); [change (2 ^ 2) with 4; ring|].
    assert (2 ^ (ea - 1 + p) * fone * 2 ^ 2 * 2 ^ K = 2 ^ F * 2 ^ (ea - eb + 2 ^ (w - 1) - 1 - w + K) * 2 ^ (eb - 1 + p)) as -> by (unfold fone; merge_pows). ring.
Qed.

Lemma div_rounds a b rm fl : in_u F a -> in_u F b -> finite a = true -> finite b = true -> fval b <> 0 ->
  div_sf F p w a b rm fl = Done (ref_round p w rm (Z.lxor (sf_sign F a) (sf_sign F b)) (fval a * fone) (fval b) fl).
Proof using Hw Hp.
  intros Ha Hb Hfa Hfb Nb. unfold div_sf. pose proof (lxor_sign _ _ (sign_range a Ha) (sign_range b Hb)) as Hs. set (s := Z.lxor _ _) in *. clearbody s. cbv zeta.
  pose proof Hfa as Hfa'. pose proof Hfb as Hfb'. unfold finite in Hfa', Hfb'. apply negb_true_iff in Hfa', Hfb'. rewrite Hfa', Hfb'.
  pose proof (fval_nonneg b). rewrite !fval_zero. pow_pos w. pow_pos p. destruct exp_bound. destruct (Z.eqb_spec (fval b) 0); [contradiction|].
  destruct (Z.eqb_spec (fval a) 0) as [->|Na].
  { rewrite Z.mul_0_l, ref_round_zero, pack_signed by lia. rewrite Z.mod_0_l by lia. reflexivity. }
  destruct (operand_spec a Na Hfa) as (ea & ma & -> & Hma & Hea & Eva). destruct (operand_spec b Nb Hfb) as (eb & mb & -> & Hmb & Heb & Evb).
  apply div_normalize; try lia.
Qed.

(** C19 Division of a finite float by a nonzero finite one is correctly rounded, in every mode and with its
    flags (underflow and overflow included): [div_sf] returns the rounding of the exact quotient. *)
Theorem div_correctly_rounded a b rm fl : in_u F a -> in_u F b -> finite a = true -> finite b = true -> fval b <> 0 ->
  div_sf F p w a b rm fl = Done (ref_round p w rm (Z.lxor (sf_sign F a) (sf_sign F b)) (fval a * fone) (fval b) fl).
Proof using Hw Hp. exact (div_rounds a b rm fl). Qed.

(** *** Addition and subtraction *)

Definition sval (a : Z) : Z := if sf_sign F a =? 0 then fval a else - fval a.

(** The sign of a sum; an exact zero is positive, negative when rounding down, unless both operands have its sign. *)
Definition sum_sign (rm a b : Z) : Z :=
  if sval a + sval b =? 0 then if sf_sign F a =? sf_sign F b then sf_sign F a else b2z (rm =? RM_RDN)
  else b2z (sval a + sval b <? 0).

Lemma sum_sign_comm rm a b : sum_sign rm a b = sum_sign rm b a.
Proof. unfold sum_sign. rewrite (Z.add_comm (sval b)), (Z.eqb_sym (sf_sign F b)). destruct (_ =? 0); [|reflexivity]. destruct (Z.eqb_spec (sf_sign F a) (sf_sign F b)); congruence. Qed.

(** The exponent and the mantissa of the code, three bits to the left. *)
Definition unpacked (a : Z) : Z * Z :=
  if sf_exp p w a =? 0 then (1, sf_mant p a <<' 3) else (sf_exp p w a, (sf_mant p a <<' 3) |' (1 <<' (p + 3))).

Lemma unpacked_spec a : exists e m, unpacked a = (e, 8 * m) /\ 1 <= e /\ 0 <= m < 2 ^ (p + 1) /\ (e = 1 \/ 2 ^ p <= m) /\ fval a = m * 2 ^ (e - 1) /\ e = Z.max 1 (sf_exp p w a).
Proof using Hw Hp.
  unfold unpacked, fval. pose proof (mant_range a). pose proof (exp_range a). pow_pos p. assert (2 ^ (p + 1) = 2 * 2 ^ p) as E1 by (rewrite <- Z.pow_succ_r by lia; f_equal; lia).
  rewrite Z.shiftl_mul_pow2 by lia. change (2 ^ 3) with 8. destruct (Z.eqb_spec (sf_exp p w a) 0) as [E0|E0].
  - exists 1, (sf_mant p a). repeat split; try lia. f_equal. lia.
  - exists (sf_exp p w a), (2 ^ p + sf_mant p a). repeat split; try lia. f_equal. rewrite Z.lor_comm.
    assert (2 ^ (p + 3) = 8 * 2 ^ p) as E3 by (change 8 with (2 ^ 3); merge_pows). rewrite lor_shiftl_low by lia. lia.
Qed.

(** The bits below the sign order the magnitudes. *)
Lemma magnitude a : in_u F a -> a &' Z.lnot (SIGN_MASK F) = sf_exp p w a * 2 ^ p + sf_mant p a.
Proof using Hw Hp.
  intros [H1 H2]. unfold sf_exp, sf_mant, MANT_MASK, EXP_MASK, SIGN_MASK. rewrite !ones_minus, !Z.land_ones by lia. rewrite Z.shiftl_1_l, Z.shiftr_div_pow2 by lia.
  pow_pos p. pow_pos w. assert (a &' Z.lnot (2 ^ (F - 1)) = a mod 2 ^ (F - 1)) as ->.
  { rewrite <- Z.land_ones by lia. apply Z.bits_inj'. intros i Hi. rewrite !Z.land_spec, Z.lnot_spec, Z.pow2_bits_eqb, Z.testbit_ones_nonneg by lia.
    destruct (Z.eqb_spec (F - 1) i), (Z.ltb_spec i (F - 1)); try lia; try reflexivity. rewrite (testbit_above F a) by lia. reflexivity. }
  rewrite (pow_split (F - 1) p), (Z.rem_mul_r a (2 ^ p)) by (pow_pos (F - 1 - p); lia). replace (F - 1 - p) with w by lia. ring.
Qed.

Lemma magnitude_order a b : sf_exp p w b * 2 ^ p + sf_mant p b <= sf_exp p w a * 2 ^ p + sf_mant p a -> fval b <= fval a /\ sf_exp p w b <= sf_exp p w a.
Proof using Hw Hp.
  intros H. pose proof (mant_range a). pose proof (mant_range b). pose proof (exp_range a). pose proof (exp_range b). pow_pos p.
  assert (sf_exp p w b <= sf_exp p w a) as He by nia. split; [|exact He]. unfold fval. set (ea := sf_exp p w a) in *. set (eb := sf_exp p w b) in *.
  destruct (Z.eq_dec eb ea) as [E|E]; [rewrite E; destruct (Z.eqb_spec ea 0); [lia|pow_pos (ea - 1); nia]|].
  destruct (Z.eqb_spec ea 0); [lia|]. pow_pos (ea - 1). destruct (Z.eqb_spec eb 0); [nia|]. assert (2 * 2 ^ (eb - 1) <= 2 ^ (ea - 1)) by (rewrite <- Z.pow_succ_r by lia; apply Z.pow_le_mono_r; lia). pow_pos (eb - 1). nia.
Qed.

(** The mantissa of a sum or of a difference stands for the exact one. *)
Lemma add_normalize s e m d X rm fl : 0 <= s <= 1 -> 1 <= e -> 0 <= d < e -> 0 <= m < 2 ^ (p + 1) -> (e = 1 \/ 2 ^ p <= m) ->
  - 2 ^ (p + 1) < X < 2 ^ (p + 1) -> 0 <= m * 2 ^ d + X ->
  normalize_sf F p w s (e + (RND_SIZE F p - 3)) (ro (8 * (m * 2 ^ d + X)) (2 ^ d)) rm fl = Done (ref_round p w rm s ((m * 2 ^ d + X) * 2 ^ (e - 1 - d)) 1 fl).
Proof using Hw Hp.
  intros Hs He Hd Hm Hn HX Hpos. rewrite rnd_size. pow_pos d. pow_pos p. assert (2 ^ (p + 1) = 2 * 2 ^ p) as E1 by (rewrite <- Z.pow_succ_r by lia; f_equal; lia).
  apply (normalize_value p w Hw Hp s _ _ _ e 4); [assumption|lia|lia| | |lia|lia|lia|lia|].
  - assert (2 ^ 5 * 2 ^ p <= 2 ^ (F - 1)) as Hle by (rewrite <- Z.pow_add_r by lia; apply Z.pow_le_mono_r; lia). change (2 ^ 5) with 32 in Hle. nia.
  - destruct (Z.le_gt_cases d 3) as [C|C]; [left|right].
    + apply Z.mod_divide; [lia|]. assert (8 = 2 ^ (3 - d) * 2 ^ d) as E8 by (change 8 with (2 ^ 3); merge_pows). exists (2 ^ (3 - d) * (m * 2 ^ d + X)). rewrite E8 at 1. ring.
    + apply log2_lower; [lia|lia|]. assert (2 ^ (p + 2) = 4 * 2 ^ p) as -> by (change 4 with (2 ^ 2); merge_pows). assert (2 ^ 4 <= 2 ^ d) as Hd4 by (apply Z.pow_le_mono_r; lia). change (2 ^ 4) with 16 in Hd4. nia.
  - rewrite Z.mul_1_r. assert (2 ^ (e - 1 - d) * (2 ^ d * 2 ^ 4) = 2 ^ 3 * 2 ^ e) as E by merge_pows. change (2 ^ 3) with 8 in E.
    transitivity ((m * 2 ^ d + X) * (2 ^ (e - 1 - d) * (2 ^ d * 2 ^ 4))); [ring|rewrite E; ring].
Qed.

Lemma ro_zero A B : 0 <= A -> 0 < B -> (ro A B =? 0) = (A =? 0).
Proof.
  intros HA HB. apply eq_true_iff_eq. rewrite !Z.eqb_eq. split; [|intros ->; unfold ro; rewrite Z.mod_0_l, Z.div_0_l by lia; reflexivity].
  unfold ro. pose proof (Z.div_mod A B ltac:(lia)). destruct (Z.eqb_spec (A mod B) 0) as [E|E]; [nia|]. rewrite lor_1. lia.
Qed.

Lemma add_ordered a b rm fl : in_u F a -> in_u F b -> finite a = true -> (a &' Z.lnot (SIGN_MASK F) <? b &' Z.lnot (SIGN_MASK F)) = false ->
  add_sf F p w a b rm fl = Done (ref_round p w rm (sum_sign rm a b) (Z.abs (sval a + sval b)) 1 fl).
Proof using Hw Hp.
  intros Ha Hb Hfa Hord. unfold add_sf. rewrite Hord. unfold finite in Hfa. apply negb_true_iff in Hfa. rewrite !magnitude in Hord by assumption. apply Z.ltb_ge, magnitude_order in Hord as [Hv He].
  cbv zeta. rewrite Hfa. unfold sum_sign, sval. pose proof (sign_range a Ha) as Hsa. pose proof (sign_range b Hb) as Hsb.
  destruct (unpacked_spec a) as (ea & ma & Ua & Hea & Hma & Hna & Va & Xa). destruct (unpacked_spec b) as (eb & mb & Ub & Heb & Hmb & Hnb & Vb & Xb). unfold unpacked in Ua, Ub. rewrite Ua, Ub.
  set (sa := sf_sign F a) in *. set (sb := sf_sign F b) in *. set (d := ea - eb). assert (0 <= d < ea) as Hd by lia.
  assert (2 ^ (ea - 1) = 2 ^ d * 2 ^ (ea - 1 - d)) as Ed by merge_pows. replace (eb - 1) with (ea - 1 - d) in Vb by lia. pow_pos d. pow_pos (ea - 1 - d).
  assert (2 ^ 4 * 2 ^ (p + 1) <= 2 ^ (F - 1) * 2 ^ 0 /\ 2 ^ F = 2 * 2 ^ (F - 1)) as [Hfit EF].
  { split; [rewrite <- !Z.pow_add_r by lia; apply Z.pow_le_mono_r; lia|rewrite <- Z.pow_succ_r by lia; f_equal; lia]. }
  change (2 ^ 4) with 16 in Hfit. change (2 ^ 0) with 1 in Hfit. rewrite rshift_rnd_ro by lia.
  assert (0 <= mb * 2 ^ (ea - 1 - d)) by nia. assert (ro (8 * mb) (2 ^ d) <= 8 * 2 ^ (p + 1)) as Hrb.
  { pose proof (ro_bounds (8 * mb) (2 ^ d) ltac:(lia) ltac:(lia)). pose proof (Z.div_le_upper_bound (8 * mb) (2 ^ d) (8 * mb) ltac:(lia) ltac:(nia)). lia. }
  pose proof (ro_nonneg (8 * mb) (2 ^ d) ltac:(lia) ltac:(lia)) as Hrn.
  destruct (Z.eqb_spec sa sb) as [Es|Es].
  - assert (8 * ma + ro (8 * mb) (2 ^ d) = ro (8 * (ma * 2 ^ d + mb)) (2 ^ d)) as Er.
    { replace (8 * (ma * 2 ^ d + mb)) with (8 * mb + 2 * (4 * ma) * 2 ^ d) by ring. rewrite ro_shift by lia. ring. }
    unfold fu. rewrite wrapu_small by lia. rewrite Er, add_normalize by nia. f_equal.
    assert (Z.abs ((if sa =? 0 then fval a else - fval a) + (if sb =? 0 then fval b else - fval b)) = fval a + fval b) as -> by (rewrite <- Es; pose proof (fval_nonneg a); pose proof (fval_nonneg b); destruct (sa =? 0); lia).
    f_equal; [|rewrite Va, Vb, Ed; ring]. rewrite <- Es. pose proof (fval_nonneg a). pose proof (fval_nonneg b).
    assert (sa = 0 \/ sa = 1) as [-> | ->] by lia; simpl Z.eqb; cbv iota.
    + destruct (Z.eqb_spec (fval a + fval b) 0); [reflexivity|]. destruct (Z.ltb_spec (fval a + fval b) 0); [lia|reflexivity].
    + destruct (Z.eqb_spec (- fval a + - fval b) 0); [reflexivity|]. destruct (Z.ltb_spec (- fval a + - fval b) 0); [reflexivity|lia].
  - assert (0 <= ma * 2 ^ d + - mb) as Hge by (rewrite Va, Vb, Ed in Hv; nia).
    assert (8 * ma - ro (8 * mb) (2 ^ d) = ro (8 * (ma * 2 ^ d + - mb)) (2 ^ d)) as Er.
    { replace (8 * (ma * 2 ^ d + - mb)) with (- (8 * mb) + 2 * (4 * ma) * 2 ^ d) by ring. rewrite ro_shift, ro_opp by lia. ring. }
    pose proof (ro_nonneg (8 * (ma * 2 ^ d + - mb)) (2 ^ d) ltac:(lia) ltac:(lia)) as Hrn2. unfold fu. rewrite wrapu_small by lia. rewrite Er.
    rewrite ro_zero by lia. rewrite add_normalize; [|destruct (8 * (ma * 2 ^ d + - mb) =? 0); [destruct (rm =? RM_RDN); simpl; lia|lia]|lia|lia|lia|lia|lia|lia].
    assert (fval a - fval b = (ma * 2 ^ d + - mb) * 2 ^ (ea - 1 - d)) as Ef by (rewrite Va, Vb, Ed; ring).
    f_equal. f_equal; [|rewrite <- Ef; assert (sa = 0 /\ sb = 1 \/ sa = 1 /\ sb = 0) as [[-> ->]|[-> ->]] by lia; simpl; lia].
    assert ((8 * (ma * 2 ^ d + - mb) =? 0) = (fval a - fval b =? 0)) as -> 
      by (apply eq_true_iff_eq; rewrite !Z.eqb_eq, Ef, !Z.mul_eq_0; lia).
    assert (sa = 0 /\ sb = 1 \/ sa = 1 /\ sb = 0) as [[-> ->]|[-> ->]] by lia; simpl Z.eqb; cbv iota.
    + replace (fval a + - fval b) with (fval a - fval b) by lia. destruct (fval a - fval b =? 0); [reflexivity|]. destruct (Z.ltb_spec (fval a - fval b) 0); [lia|reflexivity].
    + destruct (Z.eqb_spec (fval a - fval b) 0), (Z.eqb_spec (- fval a + fval b) 0); try lia; try reflexivity. destruct (Z.ltb_spec (- fval a + fval b) 0); [reflexivity|lia].
Qed.

Lemma add_rounds a b rm fl : in_u F a -> in_u F b -> finite a = true -> finite b = true ->
  add_sf F p w a b rm fl = Done (ref_round p w rm (sum_sign rm a b) (Z.abs (sval a + sval b)) 1 fl).
Proof using Hw Hp.
  intros Ha Hb Hfa Hfb. destruct (a &' Z.lnot (SIGN_MASK F) <? b &' Z.lnot (SIGN_MASK F)) eqn:Hord; [|apply add_ordered; assumption].
  assert ((b &' Z.lnot (SIGN_MASK F) <? a &' Z.lnot (SIGN_MASK F)) = false) as Hord' by (apply Z.ltb_lt in Hord; apply Z.ltb_ge; lia).
  rewrite sum_sign_comm, (Z.add_comm (sval a)), <- add_ordered by assumption. unfold add_sf. rewrite Hord, Hord'. reflexivity.
Qed.

(** Flipping the sign bit. *)
Lemma flip_sign a : in_u F a -> in_u F (Z.lxor a (SIGN_MASK F)) /\ sf_sign F (Z.lxor a (SIGN_MASK F)) = 1 - sf_sign F a /\
  sf_exp p w (Z.lxor a (SIGN_MASK F)) = sf_exp p w a /\ sf_mant p (Z.lxor a (SIGN_MASK F)) = sf_mant p a.
Proof using Hw Hp.
  intros Ha. pose proof (sign_range a Ha) as Hs. unfold SIGN_MASK. rewrite Z.shiftl_1_l. split; [apply lxor_range; [lia|assumption|]; split; [pow_pos (F - 1); lia|apply Z.pow_lt_mono_r; lia]|].
  unfold sf_exp, sf_mant, EXP_MASK, MANT_MASK. rewrite !ones_minus by lia. split; [|split].
  - unfold sf_sign in *. rewrite Z.shiftr_lxor. replace (2 ^ (F - 1) >>' (F - 1)) with 1 by (rewrite Z.shiftr_div_pow2 by lia; pow_pos (F - 1); symmetry; apply Z.div_same; lia).
    set (s := a >>' (F - 1)) in *. clearbody s. assert (s = 0 \/ s = 1) as [-> | ->] by lia; reflexivity.
  - apply Z.bits_inj'. intros i Hi. rewrite !Z.land_spec, !Z.shiftr_spec, Z.lxor_spec, Z.pow2_bits_eqb, Z.testbit_ones_nonneg by lia.
    destruct (Z.eqb_spec (F - 1) (i + p)), (Z.ltb_spec i w); try lia; rewrite ?xorb_false_r, ?andb_false_r; reflexivity.
  - apply Z.bits_inj'. intros i Hi. rewrite !Z.land_spec, Z.lxor_spec, Z.pow2_bits_eqb, Z.testbit_ones_nonneg by lia.
    destruct (Z.eqb_spec (F - 1) i), (Z.ltb_spec i p); try lia; rewrite ?xorb_false_r, ?andb_false_r; reflexivity.
Qed.

Lemma sval_flip a : in_u F a -> sval (Z.lxor a (SIGN_MASK F)) = - sval a.
Proof using Hw Hp.
  intros Ha. destruct (flip_sign a Ha) as (_ & Es & Ee & Em). pose proof (sign_range a Ha) as Hs. unfold sval, fval. rewrite Es, Ee, Em.
  assert (sf_sign F a = 0 \/ sf_sign F a = 1) as [-> | ->] by lia; simpl; lia.
Qed.

(** C18 Addition and subtraction of finite floats are correctly rounded, in every rounding mode and with its flags: the result is
    the rounding of the exact sum or difference (an alignment shift of any length loses nothing that matters), and an exact
    zero gets the IEEE sign. *)
Theorem add_correctly_rounded a b rm fl : in_u F a -> in_u F b -> finite a = true -> finite b = true ->
  add_sf F p w a b rm fl = Done (ref_round p w rm (sum_sign rm a b) (Z.abs (sval a + sval b)) 1 fl) /\
  sub_sf F p w a b rm fl = Done (ref_round p w rm (sum_sign rm a (Z.lxor b (SIGN_MASK F))) (Z.abs (sval a - sval b)) 1 fl).
Proof using Hw Hp.
  intros Ha Hb Hfa Hfb. split; [apply add_rounds; assumption|]. destruct (flip_sign b Hb) as (Hb' & Es & Ee & Em).
  unfold sub_sf. rewrite add_rounds; [|assumption|assumption|assumption|unfold finite in *; rewrite Ee; assumption].
  rewrite sval_flip by assumption. reflexivity.
Qed.

(** *** Conversions from integers *)

Section FromInt.
Context (S : Z) (HS : 8 <= S).

Lemma internal_from_int a rm fl u : - 2 ^ (S - 1) <= a < 2 ^ (S - 1) ->
  internal_cvt_i_sf F p w S a rm fl u =
    (let s := b2z (negb u && (a <? 0)) in Done (ref_round p w rm s ((if negb u && (a <? 0) then - a else wrapu S a) * fone) 1 fl)).
Proof using Hw Hp HS.
  intros Ha. unfold internal_cvt_i_sf. pow_pos (S - 1). assert (2 ^ S = 2 * 2 ^ (S - 1)) as ES by (rewrite <- Z.pow_succ_r by lia; f_equal; lia). destruct exp_bound as [Hw32 Ew].
  assert (EXP_MASK w / 2 = 2 ^ (w - 1) - 1) as Eb by (rewrite exp_mask, Ew; symmetry; apply (Z.div_unique_pos _ _ _ 1); lia). rewrite Eb.
  set (s := b2z (negb u && (a <? 0))). set (r := if negb u && (a <? 0) then - a else wrapu S a).
  assert ((if negb u && (a <? 0) then (1, wrapu S (- a)) else (0, wrapu S a)) = (s, r)) as ->.
  { unfold s, r. destruct u; [reflexivity|]. simpl negb. rewrite andb_true_l. destruct (Z.ltb_spec a 0); [rewrite wrapu_small by lia|]; reflexivity. }
  assert (0 <= r < 2 ^ S) as Hr. { unfold r. destruct u; [apply wrapu_range; lia|]. simpl negb. rewrite andb_true_l. destruct (Z.ltb_spec a 0); [lia|apply wrapu_range; lia]. }
  assert (0 <= s <= 1) as Hs by (unfold s; destruct (negb u && (a <? 0)); simpl; lia). clearbody r s. cbv zeta. pow_pos (w - 1).
  assert (forall l M B, 0 <= l -> fu F M = ro r B -> B = 2 ^ l -> r < B * 2 ^ (F - 1) -> (r mod B = 0 \/ p + 2 <= Z.log2 (r / B)) ->
    normalize_sf F p w s (2 ^ (w - 1) - 1 + F - 2 + l) (fu F M) rm fl = Done (ref_round p w rm s (r * fone) 1 fl)) as Hnorm.
  { intros l M B Hl -> -> Hlt Hro. pow_pos l. apply (normalize_value p w Hw Hp s _ r (2 ^ l) (2 ^ (w - 1) - 1 + F - 2 + l - w) 0); [assumption|lia|lia|assumption|assumption|lia|lia|lia|lia|].
    change (2 ^ 0) with 1. rewrite !Z.mul_1_r. rewrite <- Z.mul_assoc. f_equal. unfold fone. merge_pows. }
  set (l := S - clz S r - (F - 1)). assert (2 ^ (F - 1) <= 2 ^ F) by (apply Z.pow_le_mono_r; lia). pow_pos (F - 1). destruct (Z.ltb_spec 0 l) as [Hl|Hl].
  - unfold clz in l. destruct (Z.eqb_spec r 0) as [->|Hnz]; [lia|]. assert (l = Z.log2 r + 2 - F) as El by (unfold l; lia). clearbody l.
    assert (Z.log2 r < S) by (apply Z.log2_lt_pow2; lia). destruct (Z.log2_spec r) as [L1 L2]; [lia|]. unfold Z.succ in L2.
    assert (2 ^ l < 2 ^ S) by (apply Z.pow_lt_mono_r; lia). pow_pos l. rewrite Z.shiftl_1_l, (wrapu_small S (2 ^ l)) by lia.
    assert ((r >>' l) |' b2z (tst r (r &' (2 ^ l - 1))) = ro r (2 ^ l)) as Ero.
    { unfold tst. rewrite Z.land_assoc, Z.land_diag. replace (2 ^ l - 1) with (Z.ones l) by (rewrite Z.ones_equiv; lia). rewrite Z.land_ones, Z.shiftr_div_pow2 by lia.
      unfold ro. destruct (r mod 2 ^ l =? 0); [apply Z.lor_0_r|reflexivity]. }
    rewrite Ero. assert (r < 2 ^ l * 2 ^ (F - 1)) as Hlt by (rewrite <- Z.pow_add_r by lia; replace (l + (F - 1)) with (Z.log2 r + 1) by lia; lia).
    apply (Hnorm l _ (2 ^ l)); [lia| |reflexivity|assumption|right].
    + unfold fu. apply wrapu_small. split; [apply ro_nonneg; lia|]. apply Z.lt_le_trans with (2 ^ (F - 1)); [|assumption]. rewrite (pow_split (F - 1) 1) in * by lia. change (2 ^ 1) with 2 in *. apply ro_lt; lia.
    + apply log2_lower; [lia|lia|]. rewrite <- Z.pow_add_r by lia. apply Z.le_trans with (2 ^ Z.log2 r); [apply Z.pow_le_mono_r; lia|lia].
  - replace (2 ^ (w - 1) - 1 + F - 2) with (2 ^ (w - 1) - 1 + F - 2 + 0) by lia. assert (r < 2 ^ (F - 1)).
    { unfold clz in l. destruct (Z.eqb_spec r 0) as [->|Hnz]; [lia|]. apply Z.log2_lt_pow2; lia. }
    apply (Hnorm 0 _ 1); [lia| |reflexivity|lia|left; apply Z.mod_1_r]. unfold ro, fu. rewrite Z.mod_1_r, Z.div_1_r, Z.eqb_refl. apply wrapu_small. lia.
Qed.

(** Conversions from signed and unsigned integers of any width are correctly rounded. *)
Theorem int_to_float_correct rm fl :
  (forall a, - 2 ^ (S - 1) <= a < 2 ^ (S - 1) -> cvt_i_sf F p w S a rm fl = Done (ref_round p w rm (b2z (a <? 0)) (Z.abs a * fone) 1 fl)) /\
  (forall a, in_u S a -> cvt_u_sf F p w S a rm fl = Done (ref_round p w rm 0 (a * fone) 1 fl)).
Proof using Hw Hp HS.
  split; intros a Ha.
  - unfold cvt_i_sf. rewrite internal_from_int by assumption. simpl negb. rewrite andb_true_l. cbv zeta. destruct (Z.ltb_spec a 0).
    + rewrite (Z.abs_neq a) by lia. reflexivity.
    + rewrite wrapu_small, Z.abs_eq by (assert (2 ^ (S - 1) <= 2 ^ S) by (apply Z.pow_le_mono_r; lia); lia). reflexivity.
  - unfold cvt_u_sf. rewrite internal_from_int by (apply wraps_range; lia). simpl negb. rewrite andb_false_l. cbv zeta. rewrite wrapu_wraps, wrapu_small by exact Ha. reflexivity.
Qed.

End FromInt.

(** *** Conversions to integers *)

Section ToInt.
Context (S : Z) (HS : 8 <= S) (HSw : S <= 2 ^ (w - 1)) (Hpw : p <= 2 ^ (w - 1)).

(** The largest magnitude of a result of this sign. *)
Definition int_max (u : bool) (s : Z) : Z :=
  if u then if s =? 0 then 2 ^ S - 1 else 0 else if s =? 0 then 2 ^ (S - 1) - 1 else 2 ^ (S - 1).

(** The magnitude [q] converted, or the saturated result. *)
Definition int_result (u : bool) (s q fl fl_in : Z) : Z * Z :=
  if int_max u s <? q then (wraps S (int_max u s), fl |' FFLAG_INVALID_OP)
  else (wraps S (if s =? 0 then q else - q), fl_in).

Lemma int_max_range u s : 0 <= int_max u s < 2 ^ S.
Proof using Hw Hp HS. unfold int_max. pow_pos (S - 1). assert (2 ^ S = 2 * 2 ^ (S - 1)) by (rewrite <- Z.pow_succ_r by lia; f_equal; lia). destruct u, (s =? 0); lia. Qed.

Lemma int_max_code (u : bool) s : 0 <= s <= 1 -> (if u then wrapu S (s - 1) else wrapu S ((1 <<' (S - 1)) - Z.lxor s 1)) = int_max u s.
Proof using Hw Hp HS.
  intros Hs. unfold int_max. rewrite Z.shiftl_1_l. pow_pos (S - 1). assert (2 ^ S = 2 * 2 ^ (S - 1)) by (rewrite <- Z.pow_succ_r by lia; f_equal; lia).
  assert (s = 0 \/ s = 1) as [-> | ->] by lia; change (Z.lxor 0 1) with 1; change (Z.lxor 1 1) with 0; destruct u; simpl Z.eqb; cbv iota; try (apply wrapu_small; lia).
  - unfold wrapu. symmetry. apply (Z.mod_unique_pos _ _ (-1)); lia.
  - rewrite wrapu_small by lia. lia.
Qed.

Lemma rnd_one rm s N : rnd rm s N 1 = N.
Proof. unfold rnd. rewrite Z.div_1_r, Z.mod_1_r. simpl negb. rewrite andb_false_r. cbv zeta. simpl Z.ltb. destruct (rm =? RM_RNE), (rm =? RM_RMM), (rm =? RM_RTZ); reflexivity. Qed.

(** The end of the conversion: negation and reinterpretation as a signed integer. *)
Lemma int_finish s q : 0 <= s <= 1 -> 0 <= q < 2 ^ S -> wraps S (if negb (s =? 0) then wrapu S (- q) else q) = wraps S (if s =? 0 then q else - q).
Proof using Hw Hp HS.
  intros Hs Hq. destruct (s =? 0); [reflexivity|]. simpl negb. cbv iota. unfold wraps. f_equal. unfold wrapu.
  apply Z.add_mod_idemp_l. pow_pos S. lia.
Qed.

(** The conversion of the unpacked value [m * 2^(e - 1)]; [kept] is the rounding of the code. *)
Lemma to_int_core u s e m N rm fl : 0 <= s <= 1 -> 1 <= e -> 0 <= m < 2 ^ (p + 1) -> (e = 1 \/ 2 ^ p <= m) -> N = m * 2 ^ (e - 1) ->
  (let a_exp := e - EXP_MASK w / 2 - p in
   let a_mant := fu F (m <<' RND_SIZE F p) in
   let r_max := int_max u s in
   let overflow := (wraps S r_max, fl |' FFLAG_INVALID_OP) in
   let finish r fl := (wraps S (if negb (s =? 0) then wrapu S (- r) else r), fl) in
   if 0 <=? a_exp then
     if a_exp <=? S - 1 - p then
       let r := wrapu S (wrapu S (a_mant >>' RND_SIZE F p) <<' a_exp) in
       if r_max <? r then overflow else finish r fl
     else overflow
   else
     let a_mant := rshift_rnd F a_mant (- a_exp) in
     if r_max <? kept p w rm s a_mant then overflow
     else finish (wrapu S (kept p w rm s a_mant)) (flag_if (negb (a_mant &' ((1 <<' RND_SIZE F p) - 1) =? 0)) FFLAG_INEXACT fl))
  = int_result u s (rnd rm s N fone) fl (flag_if (negb (N mod fone =? 0)) FFLAG_INEXACT fl).
Proof using Hw Hp HS.
  intros Hs He Hm Hn ->. pose proof (int_max_range u s) as Hmax. destruct exp_bound as [Hw32 Ew]. pow_pos (w - 1). pow_pos p. pow_pos (e - 1).
  assert (EXP_MASK w / 2 = 2 ^ (w - 1) - 1) as -> by (rewrite exp_mask, Ew; symmetry; apply (Z.div_unique_pos _ _ _ 1); lia). rewrite rnd_size. cbv zeta.
  set (x := e - (2 ^ (w - 1) - 1) - p). assert (2 ^ F = 2 * 2 ^ (F - 1)) as EF by (rewrite <- Z.pow_succ_r by lia; f_equal; lia).
  assert (2 ^ (F - 1) = 2 ^ (p + 1) * 2 ^ (w - 1)) as EF1 by merge_pows. assert (0 <= m * 2 ^ (w - 1) < 2 ^ (F - 1)) as Hmw by (rewrite EF1; nia).
  rewrite (Z.shiftl_mul_pow2 m) by lia. unfold fu. rewrite (wrapu_small F (m * _)) by lia. unfold int_result. pose proof fone_pos as Hone. destruct (Z.leb_spec 0 x) as [C|C].
  - assert (fone * 2 ^ x = 2 ^ (e - 1)) as Ex by (unfold fone; unfold x in *; merge_pows). pow_pos x. assert (2 ^ p <= m) as Hnorm by (unfold x in C; lia).
    assert (rnd rm s (m * 2 ^ (e - 1)) fone = m * 2 ^ x /\ (m * 2 ^ (e - 1)) mod fone = 0) as [-> ->].
    { rewrite <- Ex. replace (m * (fone * 2 ^ x)) with (m * 2 ^ x * fone) by ring. rewrite Z.mod_mul by lia. split; [|reflexivity].
      replace fone with (1 * fone) at 2 by ring. rewrite rnd_scale by lia. apply rnd_one. }
    assert (2 ^ p * 2 ^ x = 2 ^ (p + x)) as Epx by merge_pows. destruct (Z.leb_spec x (S - 1 - p)) as [C2|C2].
    + assert (2 ^ (p + 1) <= 2 ^ S) by (apply Z.pow_le_mono_r; lia). assert (2 ^ (p + 1) * 2 ^ x <= 2 ^ S) by (rewrite <- Z.pow_add_r by lia; apply Z.pow_le_mono_r; lia).
      rewrite Z.shiftr_div_pow2, Z.div_mul by lia. rewrite (wrapu_small S m), Z.shiftl_mul_pow2 by lia. rewrite (wrapu_small S (m * _)) by nia.
      destruct (int_max u s <? m * 2 ^ x); [reflexivity|]. rewrite int_finish by nia. reflexivity.
    + assert (2 ^ S <= 2 ^ (p + x)) by (apply Z.pow_le_mono_r; lia). destruct (Z.ltb_spec (int_max u s) (m * 2 ^ x)); [reflexivity|nia].
  - rewrite rshift_rnd_ro by lia. pow_pos (- x). assert (0 <= ro (m * 2 ^ (w - 1)) (2 ^ (- x)) < 2 ^ (F - 1)) as Hr.
    { split; [apply ro_nonneg; lia|]. rewrite (pow_split (F - 1) 1) in * by lia. change (2 ^ 1) with 2 in *. apply ro_lt; nia. }
    rewrite kept_rnd, rnd_ro by lia. rewrite ones_minus, Z.land_ones by lia.
    assert (fone = 2 ^ (e - 1) * 2 ^ (- x)) as Ex by (unfold fone; unfold x in *; merge_pows).
    assert (rnd rm s (m * 2 ^ (w - 1)) (2 ^ (- x) * 2 ^ (w - 1)) = rnd rm s (m * 2 ^ (e - 1)) fone) as -> by (apply rnd_ratio; [nia|lia|rewrite Ex; ring]).
    assert ((ro (m * 2 ^ (w - 1)) (2 ^ (- x)) mod 2 ^ (w - 1) =? 0) = ((m * 2 ^ (e - 1)) mod fone =? 0)) as ->.
    { apply eq_true_iff_eq. rewrite !Z.eqb_eq, ro_exact by lia. apply exact_ratio; [nia|lia|rewrite Ex; ring]. }
    destruct (Z.ltb_spec (int_max u s) (rnd rm s (m * 2 ^ (e - 1)) fone)); [reflexivity|].
    pose proof (rnd_bounds rm s (m * 2 ^ (e - 1)) fone ltac:(nia) Hone). pose proof (Z.div_pos (m * 2 ^ (e - 1)) fone ltac:(nia) Hone).
    rewrite (wrapu_small S (rnd _ _ _ _)), int_finish by lia. reflexivity.
Qed.

Lemma internal_to_int a rm fl u : in_u F a ->
  let s := if isnan_sf p w a then 0 else sf_sign F a in
  internal_cvt_sf_i F p w S a rm fl u = int_result u s (rnd rm s (fval a) fone) fl (flag_if (negb (fval a mod fone =? 0)) FFLAG_INEXACT fl).
Proof using Hw Hp HS.
  intros Ha s. pose proof (sign_range a Ha) as Hsa. assert (0 <= s <= 1) as Hs by (unfold s; destruct (isnan_sf p w a); lia).
  assert (exists e m, (if sf_exp p w a =? 0 then (1, sf_mant p a) else (sf_exp p w a, sf_mant p a |' (1 <<' p))) = (e, m) /\
    1 <= e /\ 0 <= m < 2 ^ (p + 1) /\ (e = 1 \/ 2 ^ p <= m) /\ fval a = m * 2 ^ (e - 1)) as (e & m & Eu & He & Hm & Hn & EN).
  { unfold fval. pose proof (mant_range a). pose proof (exp_range a). pow_pos p. assert (2 ^ (p + 1) = 2 * 2 ^ p) as E1 by (rewrite <- Z.pow_succ_r by lia; f_equal; lia).
    destruct (Z.eqb_spec (sf_exp p w a) 0) as [E0|E0]; eexists _, _; (split; [reflexivity|]); [repeat split; lia|].
    rewrite Z.lor_comm, lor_shiftl_low by lia. repeat split; lia. }
  unfold internal_cvt_sf_i. rewrite Eu. fold s. change (if (sf_exp p w a =? EXP_MASK w) && negb (sf_mant p a =? 0) then 0 else sf_sign F a) with s.
  rewrite int_max_code by assumption. rewrite EN. exact (to_int_core u s e m (m * 2 ^ (e - 1)) rm fl Hs He Hm Hn eq_refl).
Qed.

Lemma wraps_min : wraps S (2 ^ (S - 1)) = - 2 ^ (S - 1).
Proof using Hw Hp HS.
  unfold wraps. pow_pos (S - 1). replace (2 ^ (S - 1) + 2 ^ (S - 1)) with (2 ^ S); [|replace (2 ^ S) with (2 * 2 ^ (S - 1)) by (rewrite <- Z.pow_succ_r by lia; f_equal; lia); lia].
  rewrite Z.mod_same by (pow_pos S; lia). lia.
Qed.

(** The closest integer of the range. *)
Definition clamp (lo hi v : Z) : Z := Z.max lo (Z.min hi v).

(** The float rounded to an integer in the rounding mode. *)
Definition to_int (rm a : Z) : Z := let q := rnd rm (sf_sign F a) (fval a) fone in if sf_sign F a =? 0 then q else - q.

Definition to_int_flags (lo hi rm a fl : Z) : Z :=
  if (lo <=? to_int rm a) && (to_int rm a <=? hi) then if fval a mod fone =? 0 then fl else fl |' FFLAG_INEXACT else fl |' FFLAG_INVALID_OP.

Lemma to_int_infinite a rm s : finite a = false -> 2 ^ S <= rnd rm s (fval a) fone.
Proof using Hw Hp HSw HS.
  intros Hf. unfold finite in Hf. apply negb_false_iff, Z.eqb_eq in Hf. rewrite exp_mask in Hf. unfold fval. rewrite Hf. destruct exp_bound. pose proof (mant_range a). pow_pos p. destruct (Z.eqb_spec (2 ^ w - 1) 0); [lia|].
  pose proof fone_pos. eapply Z.le_trans; [|apply rnd_bounds; [pow_pos (2 ^ w - 1 - 1); nia|lia]]. apply Z.div_le_lower_bound; [lia|].
  apply Z.le_trans with (2 ^ p * 2 ^ (2 ^ w - 1 - 1)); [|pow_pos (2 ^ w - 1 - 1); nia]. unfold fone. rewrite <- !Z.pow_add_r by lia. apply Z.pow_le_mono_r; lia.
Qed.

(** Conversions to signed and unsigned integers round the float to an integer in the rounding mode, clamp it
    to the range of the destination, and raise invalid when it is out of range and inexact when only the
    fraction is lost; infinities saturate by sign and every NaN converts to the largest integer. *)
Theorem float_to_int_correct a rm fl : in_u F a ->
  (finite a = true ->
     cvt_sf_i F p w S a rm fl = (clamp (- 2 ^ (S - 1)) (2 ^ (S - 1) - 1) (to_int rm a), to_int_flags (- 2 ^ (S - 1)) (2 ^ (S - 1) - 1) rm a fl) /\
     cvt_sf_u F p w S a rm fl = (clamp 0 (2 ^ S - 1) (to_int rm a), to_int_flags 0 (2 ^ S - 1) rm a fl)) /\
  (finite a = false ->
     let negative := negb (isnan_sf p w a) && negb (sf_sign F a =? 0) in
     cvt_sf_i F p w S a rm fl = (if negative then - 2 ^ (S - 1) else 2 ^ (S - 1) - 1, fl |' FFLAG_INVALID_OP) /\
     cvt_sf_u F p w S a rm fl = (if negative then 0 else 2 ^ S - 1, fl |' FFLAG_INVALID_OP)).
Proof using Hw Hp HSw HS.
  intros Ha. unfold cvt_sf_i, cvt_sf_u. rewrite !internal_to_int by assumption. cbv zeta. pow_pos (S - 1). assert (2 ^ S = 2 * 2 ^ (S - 1)) as ES by (rewrite <- Z.pow_succ_r by lia; f_equal; lia).
  pose proof (sign_range a Ha) as Hs. split; intros Hf.
  - assert (isnan_sf p w a = false) as -> by (unfold isnan_sf; unfold finite in Hf; apply negb_true_iff in Hf; rewrite Hf; reflexivity).
    unfold to_int_flags, clamp, to_int, int_result, int_max, flag_if. set (s := sf_sign F a) in *. pose proof fone_pos as Hone. pose proof (fval_nonneg a) as Hv.
    assert (0 <= rnd rm s (fval a) fone) as Hq by (pose proof (rnd_bounds rm s (fval a) fone Hv Hone); pose proof (Z.div_pos (fval a) fone); lia).
    set (q := rnd rm s (fval a) fone) in *. clearbody q. cbv zeta.
    assert (s = 0 \/ s = 1) as [-> | ->] by lia; simpl Z.eqb; cbv iota; split.
    all: repeat match goal with |- context [?x <? ?y] => destruct (Z.ltb_spec x y) | |- context [?x <=? ?y] => destruct (Z.leb_spec x y) end; simpl andb; cbv iota; try lia.
    all: try (f_equal; [rewrite ?wrapu_wraps; first [rewrite wraps_small by lia; lia|rewrite wrapu_small by lia; lia|rewrite wraps_min by lia; lia]|destruct (fval a mod fone =? 0); reflexivity]).
    all: f_equal; rewrite ?wrapu_wraps; first [rewrite wraps_small by lia; lia|rewrite wrapu_small by lia; lia|rewrite wraps_min by lia; lia].
  - pose proof (to_int_infinite a rm (if isnan_sf p w a then 0 else sf_sign F a) Hf) as Hbig. pose proof (int_max_range false (if isnan_sf p w a then 0 else sf_sign F a)). pose proof (int_max_range true (if isnan_sf p w a then 0 else sf_sign F a)).
    unfold int_result. do 2 (match goal with |- context [?x <? ?y] => destruct (Z.ltb_spec x y) end; [|lia]).
    assert ((if isnan_sf p w a then 0 else sf_sign F a) = b2z (negb (isnan_sf p w a) && negb (sf_sign F a =? 0))) as -> by (assert (sf_sign F a = 0 \/ sf_sign F a = 1) as [-> | ->] by lia; destruct (isnan_sf p w a); reflexivity).
    unfold int_max. destruct (_ && _); simpl; split; f_equal; rewrite ?wrapu_wraps; first [rewrite wraps_small by lia; lia|rewrite wrapu_small by lia; lia|rewrite wraps_min by lia; lia].
Qed.

End ToInt.

End Arith.

(** ** The operations at concrete inputs *)

(** The largest float times 1.5 overflows; a subnormal result underflows. *)
Lemma mul_correctly_rounded_witness :
  mul_sf 64 52 11 0x7fefffffffffffff 0x3ff8000000000000 RM_RTZ 0 = Done (0x7fefffffffffffff, 5) /\
  mul_sf 32 23 8 0x00800001 0x3f000000 RM_RNE 0 = Done (0x00400000, 3).
Proof.
  split.
  - etransitivity; [apply (mul_correctly_rounded 52 11); solve [lia | split; [discriminate | reflexivity] | reflexivity]|vm_compute; reflexivity].
  - etransitivity; [apply (mul_correctly_rounded 23 8); solve [lia | split; [discriminate | reflexivity] | reflexivity]|vm_compute; reflexivity].
Defined.

Lemma div_correctly_rounded_witness : div_sf 64 52 11 0x3ff0000000000000 0x4008000000000000 RM_RUP 0 = Done (0x3fd5555555555556, 1).
Proof.
  etransitivity; [apply (div_correctly_rounded 52 11); solve [lia | split; [discriminate | reflexivity] | reflexivity | discriminate]|vm_compute; reflexivity].
Defined.

(** One plus half an ulp is a tie; the difference of equal floats is [-0] when rounding down. *)
Lemma add_correctly_rounded_witness :
  add_sf 64 52 11 0x3ff0000000000000 0x3ca0000000000000 RM_RNE 0 = Done (0x3ff0000000000000, 1) /\
  sub_sf 64 52 11 0x3ff8000000000000 0x3ff8000000000000 RM_RDN 0 = Done (0x8000000000000000, 0).
Proof.
  split.
  - etransitivity; [apply (add_correctly_rounded 52 11); solve [lia | split; [discriminate | reflexivity] | reflexivity]|vm_compute; reflexivity].
  - etransitivity; [apply (add_correctly_rounded 52 11); solve [lia | split; [discriminate | reflexivity] | reflexivity]|vm_compute; reflexivity].
Defined.

Lemma int_to_float_correct_witness :
  cvt_i_sf 32 23 8 64 (- 2 ^ 63) RM_RNE 0 = Done (0xdf000000, 0) /\ cvt_u_sf 64 52 11 64 (2 ^ 64 - 1) RM_RTZ 0 = Done (0x43efffffffffffff, 1).
Proof.
  split.
  - etransitivity; [apply (int_to_float_correct 23 8); lia|vm_compute; reflexivity].
  - etransitivity; [apply (int_to_float_correct 52 11); solve [lia | split; [discriminate | reflexivity]]|vm_compute; reflexivity].
Defined.

Lemma float_to_int_correct_witness :
  cvt_sf_i 64 52 11 32 0xc004000000000000 RM_RNE 0 = (- 2, 1) /\ cvt_sf_u 64 52 11 64 0xfff0000000000000 RM_RNE 0 = (0, 16).
Proof.
  split.
  - destruct (float_to_int_correct 52 11 ltac:(lia) ltac:(lia) 32 ltac:(lia) ltac:(discriminate) 0xc004000000000000 RM_RNE 0) as [H _]; [split; [discriminate | reflexivity]|].
    etransitivity; [apply H; reflexivity|vm_compute; reflexivity].
  - destruct (float_to_int_correct 52 11 ltac:(lia) ltac:(lia) 64 ltac:(lia) ltac:(discriminate) 0xfff0000000000000 RM_RNE 0) as [_ H]; [split; [discriminate | reflexivity]|].
    etransitivity; [apply H; reflexivity|vm_compute; reflexivity].
Defined.
