(* ===== verification/SoftSqrt.v ===== *)
(** * Square roots: termination of Newton's iteration and correct rounding

    The integer square root of [sqrtrem_u] stops within its fuel at the floor
    of the root, because the distance to the root halves in every step, and
    [sqrt_sf] is correctly rounded: [rosqrt] is the root rounded to odd, and
    rounding it at any finer scale [2^k] gives the result. *)

From S2P Require Import Prelude Softfp SoftRound SoftArith.
From stdpp Require Import base list.
From Stdlib Require Import ZArith Lia Bool.
Local Open Scope Z_scope.
Local Open Scope bits_scope.

(** ** The integer square root *)

Lemma newton_lower a r s : 1 <= r -> r * r <= a -> 1 <= s -> r <= (a / s + s) / 2.
Proof.
  intros Hr Ha Hs. apply Z.div_le_lower_bound; [lia|]. pose proof (Z.div_mod a s ltac:(lia)) as E. pose proof (Z.mod_pos_bound a s ltac:(lia)).
  set (q := a / s) in *. clearbody q. destruct (Z.lt_ge_cases (q + s) (2 * r)) as [C|]; [|lia]. exfalso.
  assert (a < s * (q + 1)) by lia. assert (s * (q + 1) <= s * (2 * r - s)) by nia. pose proof (Z.square_nonneg (r - s)). nia.
Qed.

Lemma newton_upper a r s : 1 <= r -> a < (r + 1) * (r + 1) -> r < s -> (a / s + s) / 2 <= (r + s) / 2.
Proof.
  intros Hr Ha Hs. apply Z.div_le_mono; [lia|]. assert (a / s < r + 1); [|lia]. apply Z.div_lt_upper_bound; [lia|]. nia.
Qed.

(** Started at most [2^n] above the root, the iteration stops at the root within [n + 1] steps. *)
Lemma sqrt_loop_root n : forall a r s, 1 <= r -> r * r <= a < (r + 1) * (r + 1) -> r <= s < r + 2 ^ Z.of_nat n -> sqrt_loop (S n) a s = Done r.
Proof.
  induction n as [|n IH]; intros a r s Hr Ha Hs; simpl sqrt_loop; pose proof (newton_lower a r s Hr ltac:(lia) ltac:(lia)) as Hlo.
  - change (2 ^ Z.of_nat 0) with 1 in Hs. assert (s = r) as -> by lia. destruct (Z.leb_spec r ((a / r + r) / 2)); [reflexivity|lia].
  - destruct (Z.eq_dec s r) as [->|Hne]; [destruct (Z.leb_spec r ((a / r + r) / 2)); [reflexivity|lia]|].
    pose proof (newton_upper a r s Hr ltac:(lia) ltac:(lia)) as Hup. assert (2 ^ Z.of_nat (S n) = 2 * 2 ^ Z.of_nat n) as E by (rewrite <- Z.pow_succ_r by lia; f_equal; lia).
    assert ((r + s) / 2 < r + 2 ^ Z.of_nat n) by (apply Z.div_lt_upper_bound; lia). assert ((r + s) / 2 < s) by (apply Z.div_lt_upper_bound; lia).
    destruct (Z.leb_spec s ((a / s + s) / 2)); [lia|]. apply (IH a r); lia.
Qed.

Lemma sqrtrem_root F ah : 2 <= F -> 0 < ah < 2 ^ F ->
  sqrtrem_u F ah 0 = Done (Z.sqrt (ah * 2 ^ F), negb (ah * 2 ^ F - Z.sqrt (ah * 2 ^ F) * Z.sqrt (ah * 2 ^ F) =? 0)).
Proof.
  intros HF Hah. unfold sqrtrem_u. destruct (Z.eqb_spec ah 0); [lia|]. simpl andb. cbv iota zeta. simpl negb. cbv iota. rewrite Z.lor_0_r, Z.shiftl_mul_pow2 by lia. set (a := ah * 2 ^ F).
  pow_pos F. assert (1 <= a) as Ha by (unfold a; nia). destruct (Z.sqrt_spec a) as [R1 R2]; [lia|]. set (r := Z.sqrt a) in *. unfold Z.succ in R2.
  set (l := 2 * F - clz F (ah - 1)). assert (F <= l <= 2 * F /\ a <= 2 ^ l) as [Hl Hal].
  { unfold l, clz. destruct (Z.eqb_spec (ah - 1) 0) as [E|E].
    - split; [lia|]. replace (2 * F - F) with F by lia. unfold a. replace ah with 1 by lia. lia.
    - assert (Z.log2 (ah - 1) < F) by (apply Z.log2_lt_pow2; lia). pose proof (Z.log2_nonneg (ah - 1)). split; [lia|]. replace (2 * F - (F - 1 - Z.log2 (ah - 1))) with (Z.log2 (ah - 1) + 1 + F) by lia.
      rewrite Z.pow_add_r by lia. destruct (Z.log2_spec (ah - 1)) as [_ L2]; [lia|]. unfold Z.succ in L2. unfold a. nia. }
  assert (a < 2 ^ F * 2 ^ F) as Hlt by (unfold a; nia). clearbody l a. rewrite Z.shiftl_1_l. set (s0 := 2 ^ ((l + 1) / 2)). pose proof (Z.div_mod (l + 1) 2 ltac:(lia)) as El. pose proof (Z.mod_pos_bound (l + 1) 2 ltac:(lia)) as El2.
  assert (2 ^ l <= s0 * s0) as Hs0 by (unfold s0; rewrite <- Z.pow_add_r by lia; apply Z.pow_le_mono_r; lia).
  assert (s0 <= 2 ^ F) as Hs1 by (unfold s0; apply Z.pow_le_mono_r; lia). assert (0 < s0) by (unfold s0; apply Z.pow_pos_nonneg; lia). clearbody s0.
  assert (1 <= r) as Hr by nia. assert (r <= s0) by nia. replace (Z.to_nat (F + 2)) with (Datatypes.S (Z.to_nat (F + 1))) by lia.
  rewrite (sqrt_loop_root _ a r) by (try lia; rewrite Z2Nat.id by lia; assert (2 ^ F <= 2 ^ (F + 1)) by (apply Z.pow_le_mono_r; lia); lia). simpl.
  unfold fu. rewrite wrapu_small; [reflexivity|]. split; [lia|]. destruct (Z.lt_ge_cases r (2 ^ F)); [assumption|]. exfalso. nia.
Qed.

(** ** Rounding roots to odd *)

Definition rosqrt (n : Z) : Z := let r := Z.sqrt n in if n - r * r =? 0 then r else r |' 1.

Lemma sqrt_scale Y j : 0 <= Y -> 0 <= j -> Z.sqrt Y * 2 ^ j <= Z.sqrt (Y * 4 ^ j) < (Z.sqrt Y + 1) * 2 ^ j.
Proof.
  intros HY Hj. destruct (Z.sqrt_spec Y HY) as [R1 R2]. unfold Z.succ in R2. pose proof (Z.sqrt_nonneg Y). pow_pos j.
  assert (4 ^ j = 2 ^ j * 2 ^ j) as -> by (rewrite <- Z.pow_mul_l; reflexivity). set (r := Z.sqrt Y) in *. set (c := 2 ^ j) in *. clearbody r c.
  assert (0 <= c * c) by nia. split.
  - apply Z.sqrt_le_square; [nia|nia|]. replace (r * c * (r * c)) with (r * r * (c * c)) by ring. apply Z.mul_le_mono_nonneg_r; lia.
  - apply Z.sqrt_lt_square; [nia|nia|]. replace ((r + 1) * c * ((r + 1) * c)) with ((r + 1) * (r + 1) * (c * c)) by ring. apply Z.mul_lt_mono_pos_r; nia.
Qed.

(** The root rounded to odd at a finer scale rounds to the one at this scale. *)
Lemma rosqrt_scale Y j : 0 <= Y -> 0 <= j -> ro (rosqrt (Y * 4 ^ j)) (2 ^ j) = rosqrt Y.
Proof.
  intros HY Hj. destruct (Z.eq_dec j 0) as [->|Hj0]; [change (4 ^ 0) with 1; change (2 ^ 0) with 1; rewrite Z.mul_1_r; unfold ro; rewrite Z.mod_1_r, Z.div_1_r; reflexivity|].
  pose proof (sqrt_scale Y j HY Hj) as Hs. pose proof (Z.sqrt_nonneg Y) as Hr0. assert (2 ^ j = 2 * 2 ^ (j - 1)) as Ej by (rewrite <- Z.pow_succ_r by lia; f_equal; lia). pow_pos (j - 1).
  assert (4 ^ j = 2 ^ j * 2 ^ j) as E4 by (rewrite <- Z.pow_mul_l; reflexivity). unfold rosqrt. rewrite E4 in *. destruct (Z.sqrt_spec (Y * (2 ^ j * 2 ^ j))) as [Rle _]; [nia|]. set (R := Z.sqrt (Y * (2 ^ j * 2 ^ j))) in *. set (r := Z.sqrt Y) in *. rewrite Ej in *. set (h := 2 ^ (j - 1)) in *. clearbody r R h. cbv zeta.
  assert (forall A, r * (2 * h) <= A < (r + 1) * (2 * h) -> A / (2 * h) = r) as Hdiv.
  { intros A HA. symmetry. apply (Z.div_unique_pos _ _ _ (A - 2 * h * r)); lia. }
  assert (forall A, r * (2 * h) <= A < (r + 1) * (2 * h) -> A <> r * (2 * h) -> ro A (2 * h) = r |' 1) as Hodd.
  { intros A HA Hne. unfold ro. rewrite Hdiv by assumption. destruct (Z.eqb_spec (A mod (2 * h)) 0) as [E|]; [|reflexivity]. exfalso. apply Hne. apply Z.div_exact in E; [|lia]. rewrite Hdiv in E by assumption. lia. }
  assert (R |' 1 < (r + 1) * (2 * h) /\ R <= R |' 1 /\ R |' 1 <> r * (2 * h)) as (H1 & H2 & H3)
    by (rewrite lor_1; pose proof (Z.div_mod R 2 ltac:(lia)); pose proof (Z.mod_pos_bound R 2 ltac:(lia)); set (c := r * h) in *; replace (r * (2 * h)) with (2 * c) in * by (unfold c; ring); replace ((r + 1) * (2 * h)) with (2 * (c + h)) in * by (unfold c; ring); lia).
  destruct (Z.eqb_spec (Y - r * r) 0) as [E|E].
  - assert (R = r * (2 * h)) as C. { replace Y with (r * r) in Rle by lia. destruct (Z.lt_ge_cases (r * (2 * h)) R); [exfalso|lia]. nia. }
    destruct (Z.eqb_spec (Y * (2 * h * (2 * h)) - R * R) 0) as [_|Hx]; [|exfalso; apply Hx; rewrite C; replace Y with (r * r) by lia; ring].
    unfold ro. rewrite C, Z.mod_mul, Z.div_mul by lia. reflexivity.
  - destruct (Z.eqb_spec (Y * (2 * h * (2 * h)) - R * R) 0) as [Hx|_]; apply Hodd; try lia. intros C. apply E. apply (Z.mul_reg_r _ _ (2 * h * (2 * h))); [nia|].
    rewrite C in Hx. transitivity (Y * (2 * h * (2 * h)) - r * (2 * h) * (r * (2 * h))); [ring|lia].
Qed.

(** ** [sqrt_sf] *)

Section Sqrt.
Context (p w : Z) (Hw : 5 <= w) (Hp : w <= p).
Abbreviation F := (p + w + 1).

(** The root of [Y] stands for the root of [V], the value in units. *)
Lemma sqrt_normalize E Y V k rm fl : 2 ^ (2 * F - 4) <= Y < 2 ^ (2 * F - 2) -> 0 <= k + E - w -> 0 <= k -> V * 4 ^ k = Y * 4 ^ (k + E - w) ->
  normalize_sf F p w 0 E (rosqrt Y) rm fl = Done (ref_round p w rm 0 (rosqrt (V * 4 ^ k)) (2 ^ k) fl).
Proof using Hw Hp.
  intros HY Hj Hk EV. rewrite EV. set (j := k + E - w) in *. pow_pos (2 * F - 4). rewrite <- (rosqrt_scale Y j) by lia. set (A := rosqrt (Y * 4 ^ j)).
  assert (2 ^ (F - 2) <= Z.sqrt Y < 2 ^ (F - 1)) as Hr.
  { pow_pos (F - 2). pow_pos (F - 1). split; [apply Z.sqrt_le_square; [lia|lia|]|apply Z.sqrt_lt_square; [lia|lia|]]; rewrite <- Z.pow_add_r by lia; [replace (F - 2 + (F - 2)) with (2 * F - 4) by lia|replace (F - 1 + (F - 1)) with (2 * F - 2) by lia]; lia. }
  assert (2 ^ (F - 1) = 2 * 2 ^ (F - 2)) as E1 by (rewrite <- Z.pow_succ_r by lia; f_equal; lia).
  assert (Z.sqrt Y <= rosqrt Y < 2 ^ (F - 1)) as HM.
  { unfold rosqrt. cbv zeta. destruct (_ =? 0); [lia|]. rewrite lor_1. pose proof (Z.div_mod (Z.sqrt Y) 2 ltac:(lia)). pose proof (Z.mod_pos_bound (Z.sqrt Y) 2 ltac:(lia)). lia. }
  assert (0 <= A) as HA. { unfold A, rosqrt. cbv zeta. pose proof (Z.sqrt_nonneg (Y * 4 ^ j)). destruct (_ =? 0); [lia|]. rewrite lor_1. pose proof (Z.div_pos (Z.sqrt (Y * 4 ^ j)) 2). lia. }
  pow_pos j. pow_pos k. rewrite <- (rosqrt_scale Y j) in HM by lia. fold A in HM. set (b := Z.max 0 (w - E)).
  apply (normalize_value p w Hw Hp 0 E A (2 ^ j) (E - w + b) b); [lia|lia|lia| |right|lia|lia|lia|lia|].
  - rewrite E1 in *. apply ro_lt; lia.
  - rewrite <- ro_log2 by lia. apply Z.le_trans with (F - 2); [lia|]. rewrite <- (Z.log2_pow2 (F - 2)) by lia. apply Z.log2_le_mono. lia.
  - rewrite <- Z.pow_add_r, <- Z.mul_assoc, <- Z.pow_add_r by lia. do 2 f_equal. lia.
Qed.

Lemma sqrt_rounds a k rm fl : in_u F a -> finite p w a = true -> sf_sign F a = 0 -> p + w <= k ->
  sqrt_sf F p w a rm fl = Done (ref_round p w rm 0 (rosqrt (fval p w a * fone p w * 4 ^ k)) (2 ^ k) fl).
Proof using Hw Hp.
  intros Ha Hf Hs Hk. unfold sqrt_sf. pose proof Hf as Hf'. unfold finite in Hf'. apply negb_true_iff in Hf'. rewrite Hf', Hs. cbv zeta. simpl negb. cbv iota. rewrite fval_zero by assumption.
  destruct (exp_bound w Hw) as [Hw32 Ew]. pow_pos p. pow_pos k. pow_pos (w - 1). destruct (Z.eqb_spec (fval p w a) 0) as [->|Hnz].
  { change (rosqrt (0 * fone p w * 4 ^ k)) with 0. rewrite ref_round_zero, pack_signed by lia. rewrite Z.mod_0_l by lia. reflexivity. }
  destruct (operand_spec p w Hw Hp a Hnz Hf) as (e & m & -> & Hm & He & Ev).
  assert (EXP_MASK w / 2 = 2 ^ (w - 1) - 1) as -> by (rewrite exp_mask, Ew; symmetry; apply (Z.div_unique_pos _ _ _ 1); lia).
  set (x := e - (2 ^ (w - 1) - 1)). change (x &' 1) with (x &' Z.ones 1). rewrite Z.land_ones by lia. change (2 ^ 1) with 2.
  pose proof (Z.div_mod x 2 ltac:(lia)) as Ex. pose proof (Z.mod_pos_bound x 2 ltac:(lia)) as Ho. set (o := x mod 2) in *. set (h := x / 2) in *.
  assert (2 ^ (p + 1) = 2 * 2 ^ p) as E1 by (rewrite <- Z.pow_succ_r by lia; f_equal; lia). assert (2 ^ (p + 2) = 2 * 2 ^ (p + 1)) as E2 by (rewrite <- Z.pow_succ_r by lia; f_equal; lia).
  assert (2 ^ (p + 2) <= 2 ^ F) as HF2 by (apply Z.pow_le_mono_r; lia). assert (1 <= 2 ^ o <= 2) as Hpo by (assert (o = 0 \/ o = 1) as [-> | ->] by lia; cbv; split; discriminate).
  assert ((if negb (o =? 0) then (x - 1, fu F (m <<' 1)) else (x, m)) = (2 * h + 0, m * 2 ^ o)) as ->.
  { destruct (Z.eqb_spec o 0) as [E0|E0]; simpl negb; cbv iota; [rewrite E0; change (2 ^ 0) with 1; f_equal; lia|].
    replace o with 1 by lia. unfold fu. rewrite Z.shiftl_mul_pow2 by lia. change (2 ^ 1) with 2. rewrite wrapu_small by lia. f_equal; lia. }
  replace ((2 * h + 0) >>' 1) with h by (rewrite Z.shiftr_div_pow2 by lia; change (2 ^ 1) with 2; rewrite Z.add_0_r, Z.mul_comm, Z.div_mul; lia).
  replace (F - 4 - p) with (w - 3) by lia. rewrite Z.shiftl_mul_pow2 by lia. set (m' := m * 2 ^ o). assert (2 ^ p <= m' < 2 ^ (p + 2)) as Hm' by (unfold m'; nia).
  pow_pos (w - 3). assert (2 ^ (p + 2) * 2 ^ (w - 3) = 2 ^ (F - 2)) as E3 by (rewrite <- Z.pow_add_r by lia; f_equal; lia). assert (2 ^ (F - 2) < 2 ^ F) by (apply Z.pow_lt_mono_r; lia).
  unfold fu. rewrite wrapu_small by nia. rewrite sqrtrem_root by (try lia; nia). set (Y := m' * 2 ^ (w - 3) * 2 ^ F). simpl.
  assert ((if negb (Y - Z.sqrt Y * Z.sqrt Y =? 0) then Z.sqrt Y |' 1 else Z.sqrt Y) = rosqrt Y) as -> by (unfold rosqrt; destruct (_ =? 0); reflexivity).
  apply sqrt_normalize; [|lia|lia|].
  - assert (2 ^ p * 2 ^ (w - 3) * 2 ^ F = 2 ^ (2 * F - 4)) as <- by merge_pows. assert (2 ^ (p + 2) * 2 ^ (w - 3) * 2 ^ F = 2 ^ (2 * F - 2)) as <- by merge_pows. unfold Y. pow_pos (p + w + 1). clearbody m'. nia.
  - apply (Z.mul_reg_r _ _ (2 ^ p)); [lia|]. assert (forall n, 0 <= n -> 4 ^ n = 2 ^ (2 * n)) as E4 by (intros; rewrite Z.pow_mul_r by lia; reflexivity).
    transitivity (fval p w a * 2 ^ p * (fone p w * 4 ^ k)); [ring|]. rewrite <- Ev, !E4 by lia. unfold Y, m', fone.
    transitivity (m * (2 ^ (e - 1 + p) * 2 ^ (2 ^ (w - 1) - 1 + p - 1) * 2 ^ (2 * k))); [ring|].
    transitivity (m * (2 ^ o * 2 ^ (w - 3) * 2 ^ F * 2 ^ (2 * (k + (h + (2 ^ (w - 1) - 1)) - w)) * 2 ^ p)); [|ring]. f_equal. merge_pows.
Qed.

(** C20 Square roots are correctly rounded and Newton's iteration terminates: for every nonnegative finite
    float [sqrt_sf] returns, within its fuel, the rounding of the exact root of its value. The root is given by
    its floor at any scale [2^k] fine enough, with a sticky last bit, and all of them round alike. *)
Theorem sqrt_correctly_rounded a k rm fl : in_u F a -> finite p w a = true -> sf_sign F a = 0 -> p + w <= k ->
  sqrt_sf F p w a rm fl = Done (ref_round p w rm 0 (rosqrt (fval p w a * fone p w * 4 ^ k)) (2 ^ k) fl).
Proof using Hw Hp. exact (sqrt_rounds a k rm fl). Qed.

End Sqrt.

Lemma sqrt_correctly_rounded_witness : sqrt_sf 64 52 11 0x4000000000000000 RM_RDN 0 = Done (0x3ff6a09e667f3bcc, 1).
Proof.
  etransitivity; [apply (sqrt_correctly_rounded 52 11 ltac:(lia) ltac:(lia) 0x4000000000000000 63); solve [split; [discriminate | reflexivity] | reflexivity | lia]|vm_compute; reflexivity].
Defined.
