(* ===== verification/SoftWide.v ===== *)
(** * The double-word helpers without a double-width integer type

    Where no integer type of twice the width exists ([F_SIZE] 128),
    [softfp_template.h] multiplies by halves, divides bit by bit and takes
    roots with that division.  They compute what the double-width versions of
    [Softfp] do. *)

From S2P Require Import Prelude Softfp SoftRound SoftSqrt.
From stdpp Require Import base list.
From Stdlib Require Import ZArith Lia Bool.
Local Open Scope Z_scope.
Local Open Scope bits_scope.

Section Wide.
Context (FH : Z).
Abbreviation F := (2 * FH).

Definition mul_u_halves (a b : Z) : Z * Z :=
  let a0 := wrapu FH a in
  let a1 := wrapu FH (a >>' FH) in
  let b0 := wrapu FH b in
  let b1 := wrapu FH (b >>' FH) in
  let r00 := wrapu F (a0 * b0) in
  let r01 := wrapu F (a0 * b1) in
  let r10 := wrapu F (a1 * b0) in
  let r11 := wrapu F (a1 * b1) in
  let r0 := wrapu FH r00 in
  let c := wrapu F ((r00 >>' FH) + wrapu FH r01 + wrapu FH r10) in
  let r1 := wrapu FH c in
  let c := wrapu F ((c >>' FH) + (r01 >>' FH) + (r10 >>' FH) + wrapu FH r11) in
  let r2 := wrapu FH c in
  let r3 := wrapu FH ((c >>' FH) + (r11 >>' FH)) in
  (wrapu F (r3 <<' FH) |' r2, wrapu F (r1 <<' FH) |' r0).

(** The loop of [divrem_u]: [n] steps left, remainder [a1], and [a0] with the quotient bits coming in from below. *)
Fixpoint divrem_loop (n : nat) (b a1 a0 : Z) : Z * Z :=
  match n with
  | O => (a0, a1)
  | S n =>
      let ab := a1 >>' (F - 1) in
      let a1 := fu F (a1 <<' 1) |' (a0 >>' (F - 1)) in
      let '(a1, qb) := if negb (ab =? 0) || (b <=? a1) then (fu F (a1 - b), 1) else (a1, 0) in
      divrem_loop n b a1 (fu F (a0 <<' 1) |' qb)
  end.

Definition divrem_u_bits (a1 a0 b : Z) : res (Z * Z) :=
  _ ← assert_c (a1 <? b); Done (divrem_loop (Z.to_nat F) b a1 a0).

Fixpoint sqrt_loop_words (fuel : nat) (a1 a0 s : Z) : res Z :=
  match fuel with
  | O => Stop OutOfFuel
  | S fuel =>
      '(q, _) ← divrem_u_bits a1 a0 s;
      let u := fu F (q + s) / 2 in
      if s <=? u then Done s else sqrt_loop_words fuel a1 a0 u
  end.

Definition sqrtrem_u_words (a1 a0 : Z) : res (Z * bool) :=
  if (a1 =? 0) && (a0 =? 0) then Done (0, false)
  else
    let l := if negb (a1 =? 0) then 2 * F - clz F (a1 - 1) else F - clz F (a0 - 1) in
    s ← sqrt_loop_words (Z.to_nat (F + 2)) a1 a0 (fu F (1 <<' ((l + 1) / 2)));
    let '(sq1, sq0) := mul_u_halves s s in
    Done (s, negb (sq0 =? a0) || negb (sq1 =? a1)).

(** ** Multiplication *)

Context (HFH : 8 <= FH).

Lemma half_split a : in_u F a -> exists a1 a0, a = a1 * 2 ^ FH + a0 /\ 0 <= a1 < 2 ^ FH /\ 0 <= a0 < 2 ^ FH /\ wrapu FH a = a0 /\ wrapu FH (a >>' FH) = a1.
Proof using HFH.
  intros [H1 H2]. pow_pos FH. assert (2 ^ F = 2 ^ FH * 2 ^ FH) as E by merge_pows. exists (a / 2 ^ FH), (a mod 2 ^ FH).
  pose proof (Z.div_mod a (2 ^ FH) ltac:(lia)). pose proof (Z.mod_pos_bound a (2 ^ FH) ltac:(lia)). assert (0 <= a / 2 ^ FH < 2 ^ FH) by (split; [apply Z.div_pos; lia|apply Z.div_lt_upper_bound; lia]).
  repeat split; try lia. rewrite Z.shiftr_div_pow2 by lia. apply wrapu_small. lia.
Qed.

Lemma word_join hi lo : 0 <= hi < 2 ^ FH -> 0 <= lo < 2 ^ FH -> wrapu F (hi <<' FH) |' lo = hi * 2 ^ FH + lo.
Proof using HFH.
  intros Hh Hl. pow_pos FH. assert (2 ^ F = 2 ^ FH * 2 ^ FH) as E by merge_pows. rewrite wrapu_small by (rewrite Z.shiftl_mul_pow2 by lia; nia). apply lor_shiftl_low; lia.
Qed.

(** Splitting a small sum into its low half and its carry. *)
Lemma carry x : 0 <= x < 2 ^ F -> exists c r, x = c * 2 ^ FH + r /\ 0 <= r < 2 ^ FH /\ 0 <= c /\ wrapu FH x = r /\ x >>' FH = c.
Proof using HFH.
  intros Hx. pow_pos FH. exists (x / 2 ^ FH), (x mod 2 ^ FH). pose proof (Z.div_mod x (2 ^ FH) ltac:(lia)). pose proof (Z.mod_pos_bound x (2 ^ FH) ltac:(lia)).
  rewrite Z.shiftr_div_pow2 by lia. repeat split; try lia. apply Z.div_pos; lia.
Qed.

(** A product of halves, its low half and its carry. *)
Lemma half_product x y : 0 <= x < 2 ^ FH -> 0 <= y < 2 ^ FH ->
  exists c r, x * y = c * 2 ^ FH + r /\ 0 <= r < 2 ^ FH /\ 0 <= c <= 2 ^ FH - 2 /\ wrapu FH (wrapu F (x * y)) = r /\ wrapu F (x * y) >>' FH = c.
Proof using HFH.
  intros Hx Hy. pow_pos FH. assert (2 ^ F = 2 ^ FH * 2 ^ FH) as E by merge_pows. assert (2 ^ 8 <= 2 ^ FH) as H8 by (apply Z.pow_le_mono_r; lia). change (2 ^ 8) with 256 in H8.
  assert (0 <= x * y <= (2 ^ FH - 1) * (2 ^ FH - 1)) as Hxy by (split; [nia|apply Z.mul_le_mono_nonneg; lia]). assert (0 <= x * y < 2 ^ F) as Hf by (rewrite E; nia).
  destruct (carry (x * y) Hf) as (c & r & E1 & Hr & Hc & W & S). exists c, r. rewrite (wrapu_small F (x * y)) by exact Hf. repeat split; try assumption; try lia.
  clear - Hxy E1 Hr H8. set (B := 2 ^ FH) in *. clearbody B. rewrite E1 in Hxy. nia.
Qed.

(** The schoolbook sum of the partial products. *)
Lemma school B a1 a0 b1 b0 c00 r00 c01 r01 c10 r10 c11 r11 d1 r1 d2 r2 :
  a0 * b0 = c00 * B + r00 -> a0 * b1 = c01 * B + r01 -> a1 * b0 = c10 * B + r10 -> a1 * b1 = c11 * B + r11 ->
  c00 + r01 + r10 = d1 * B + r1 -> d1 + c01 + c10 + r11 = d2 * B + r2 ->
  (a1 * B + a0) * (b1 * B + b0) = ((d2 + c11) * B + r2) * (B * B) + (r1 * B + r00).
Proof.
  intros E00 E01 E10 E11 E1 E2. transitivity (a1 * b1 * (B * B) + (a1 * b0 + a0 * b1) * B + a0 * b0); [ring|]. rewrite E00, E01, E10, E11.
  transitivity ((c11 * B + r11) * (B * B) + (c10 + c01) * (B * B) + (c00 + r01 + r10) * B + r00); [ring|]. rewrite E1.
  transitivity ((d1 + c01 + c10 + r11) * (B * B) + c11 * (B * B * B) + r1 * B + r00); [ring|]. rewrite E2. ring.
Qed.

Lemma mul_halves_eq a b : in_u F a -> in_u F b -> mul_u_halves a b = mul_u F a b.
Proof using HFH.
  intros Ha Hb. destruct (half_split a Ha) as (a1 & a0 & Ea & Ha1 & Ha0 & La & Ra). destruct (half_split b Hb) as (b1 & b0 & Eb & Hb1 & Hb0 & Lb & Rb).
  unfold mul_u_halves. rewrite La, Ra, Lb, Rb. cbv zeta. clear La Ra Lb Rb. pow_pos FH. assert (2 ^ F = 2 ^ FH * 2 ^ FH) as E by merge_pows. assert (2 ^ 8 <= 2 ^ FH) as H8 by (apply Z.pow_le_mono_r; lia). change (2 ^ 8) with 256 in H8.
  destruct (half_product a0 b0 Ha0 Hb0) as (c00 & r00 & E00 & B00 & K00 & -> & ->). destruct (half_product a0 b1 Ha0 Hb1) as (c01 & r01 & E01 & B01 & K01 & -> & ->).
  destruct (half_product a1 b0 Ha1 Hb0) as (c10 & r10 & E10 & B10 & K10 & -> & ->). destruct (half_product a1 b1 Ha1 Hb1) as (c11 & r11 & E11 & B11 & K11 & -> & ->).
  assert (256 * 2 ^ FH <= 2 ^ F) as H256 by (rewrite E; apply Z.mul_le_mono_nonneg_r; lia).
  rewrite (wrapu_small F (c00 + r01 + r10)) by lia. destruct (carry (c00 + r01 + r10)) as (d1 & r1 & E1 & B1 & N1 & -> & ->); [lia|].
  assert (d1 <= 3) as D1 by (clear - E1 B1 K00 B01 B10 H8; nia).
  rewrite (wrapu_small F (d1 + c01 + c10 + r11)) by lia. destruct (carry (d1 + c01 + c10 + r11)) as (d2 & r2 & E2 & B2 & N2 & -> & ->); [lia|].
  pose proof (school (2 ^ FH) _ _ _ _ _ _ _ _ _ _ _ _ _ _ _ _ E00 E01 E10 E11 E1 E2) as Eab. rewrite <- Ea, <- Eb in Eab. clear E00 E01 E10 E11 E1 E2.
  destruct Ha as [Ha_ Ha'], Hb as [Hb_ Hb']. assert (0 <= a * b < 2 ^ F * 2 ^ F) as Hab by (split; [apply Z.mul_nonneg_nonneg|apply Z.mul_lt_mono_nonneg]; lia).
  assert (0 <= d2 + c11 < 2 ^ FH) as Hd by (clear - Eab Hab E N2 K11 B1 B2 B00; set (B := 2 ^ FH) in *; rewrite E in Hab; clearbody B; nia).
  rewrite (wrapu_small FH (d2 + c11)) by lia. rewrite !word_join by lia. unfold mul_u, fu.
  rewrite (wrapu_small (2 * F)) by (replace (2 ^ (2 * F)) with (2 ^ F * 2 ^ F) by merge_pows; lia).
  rewrite Z.shiftr_div_pow2 by lia. cbv zeta. unfold wrapu. rewrite <- E in Eab. f_equal.
  - apply (Z.div_unique_pos _ _ _ (r1 * 2 ^ FH + r00)); [rewrite E; nia|lia].
  - apply (Z.mod_unique_pos _ _ ((d2 + c11) * 2 ^ FH + r2)); [rewrite E; nia|lia].
Qed.

(** ** Division *)

(** One step: the remainder takes in the next bit of the dividend. *)
Lemma divrem_step b r x q n : 0 <= n -> n < F -> 0 <= r < b -> b < 2 ^ F -> 0 <= x < 2 ^ (n + 1) -> 0 <= q < 2 ^ (F - (n + 1)) ->
  let a0 := x * 2 ^ (F - (n + 1)) + q in
  let t := 2 * r + x / 2 ^ n in
  let qb := if b <=? t then 1 else 0 in
  (let ab := r >>' (F - 1) in
   let a1 := fu F (r <<' 1) |' (a0 >>' (F - 1)) in
   let '(a1, qb) := if negb (ab =? 0) || (b <=? a1) then (fu F (a1 - b), 1) else (a1, 0) in
   (a1, fu F (a0 <<' 1) |' qb)) = (t - qb * b, (x mod 2 ^ n) * 2 ^ (F - n) + (2 * q + qb)).
Proof using HFH.
  intros Hn HnF Hr Hb Hx Hq a0 t qb. pow_pos n. pow_pos (F - (n + 1)). assert (2 ^ F = 2 * 2 ^ (F - 1)) as EF by (rewrite <- Z.pow_succ_r by lia; f_equal; lia). pow_pos (F - 1).
  assert (2 ^ (n + 1) = 2 * 2 ^ n) as En by (rewrite <- Z.pow_succ_r by lia; f_equal; lia). assert (2 ^ (F - 1) = 2 ^ n * 2 ^ (F - (n + 1))) as EF1 by merge_pows. assert (2 ^ (F - n) = 2 * 2 ^ (F - (n + 1))) as En1 by (rewrite <- Z.pow_succ_r by lia; f_equal; lia).
  pose proof (Z.div_mod x (2 ^ n) ltac:(lia)) as Ex. pose proof (Z.mod_pos_bound x (2 ^ n) ltac:(lia)) as Hxl. set (xh := x / 2 ^ n) in *. set (xl := x mod 2 ^ n) in *.
  assert (0 <= xh <= 1) as Hxh by (subst xh; split; [apply Z.div_pos; lia|]; assert (x / 2 ^ n < 2); [apply Z.div_lt_upper_bound; lia|lia]). clearbody xh xl.
  assert (0 <= xl * 2 ^ (F - (n + 1)) + q < 2 ^ (F - 1)) as Hlow by (rewrite EF1; nia).
  assert (a0 = xh * 2 ^ (F - 1) + (xl * 2 ^ (F - (n + 1)) + q)) as Ea0 by (unfold a0; rewrite Ex, EF1; ring). clearbody a0.
  assert (a0 >>' (F - 1) = xh) as ->. { rewrite Z.shiftr_div_pow2 by lia. symmetry. apply (Z.div_unique_pos _ _ _ (xl * 2 ^ (F - (n + 1)) + q)); lia. }
  pose proof (Z.div_mod r (2 ^ (F - 1)) ltac:(lia)) as Er. pose proof (Z.mod_pos_bound r (2 ^ (F - 1)) ltac:(lia)) as Hrl. cbv zeta. rewrite (Z.shiftr_div_pow2 r) by lia.
  set (rh := r / 2 ^ (F - 1)) in *. set (rl := r mod 2 ^ (F - 1)) in *. assert (0 <= rh <= 1) as Hrh by (subst rh; split; [apply Z.div_pos; lia|]; assert (r / 2 ^ (F - 1) < 2); [apply Z.div_lt_upper_bound; lia|lia]). clearbody rh rl.
  assert (fu F (r <<' 1) |' xh = 2 * rl + xh) as ->.
  { unfold fu. rewrite Z.shiftl_mul_pow2 by lia. change (2 ^ 1) with 2. assert (wrapu F (r * 2) = rl <<' 1) as ->; [|rewrite lor_shiftl_low; [change (2 ^ 1) with 2; lia|lia|change (2 ^ 1) with 2; lia]].
    rewrite Z.shiftl_mul_pow2 by lia. unfold wrapu. symmetry. apply (Z.mod_unique_pos _ _ rh); change (2 ^ 1) with 2; lia. }
  assert (fu F (a0 <<' 1) = (2 * (xl * 2 ^ (F - (n + 1)) + q))) as Ef.
  { unfold fu. rewrite Z.shiftl_mul_pow2 by lia. change (2 ^ 1) with 2. unfold wrapu. symmetry. apply (Z.mod_unique_pos _ _ xh); lia. }
  assert (forall k, 0 <= k <= 1 -> fu F (a0 <<' 1) |' k = xl * 2 ^ (F - n) + (2 * q + k)) as Hc.
  { intros k Hk. rewrite Ef, En1. rewrite (Z.mul_comm 2). change 2 with (2 ^ 1) at 3. rewrite <- Z.shiftl_mul_pow2, lor_shiftl_low by (change (2 ^ 1) with 2; lia). change (2 ^ 1) with 2. ring. }
  assert ((negb (rh =? 0) || (b <=? 2 * rl + xh)) = (b <=? t)) as ->.
  { unfold t. destruct (Z.eqb_spec rh 0) as [E0|E0]; simpl; [f_equal; rewrite Er, E0; lia|]. symmetry. apply Z.leb_le. assert (rh = 1) as E1 by lia. rewrite E1 in Er. lia. }
  unfold qb. destruct (Z.leb_spec b t); rewrite Hc by lia; f_equal; unfold t in *; [|].
  - unfold fu, wrapu. symmetry. rewrite Z.mul_1_l. destruct (Z.eq_dec rh 0) as [E0|E0]; [rewrite E0 in Er; apply (Z.mod_unique_pos _ _ 0); lia|].
    assert (rh = 1) as E1 by lia. rewrite E1 in Er. apply (Z.mod_unique_pos _ _ (-1)); lia.
  - assert (rh = 0 \/ rh = 1) as [E0|E0] by lia; rewrite E0 in Er; lia.
Qed.

Lemma divrem_loop_spec b n : b < 2 ^ F -> forall r x q, Z.of_nat n <= F -> 0 <= r < b -> 0 <= x < 2 ^ Z.of_nat n -> 0 <= q < 2 ^ (F - Z.of_nat n) ->
  divrem_loop n b r (x * 2 ^ (F - Z.of_nat n) + q) = (q * 2 ^ Z.of_nat n + (r * 2 ^ Z.of_nat n + x) / b, (r * 2 ^ Z.of_nat n + x) mod b).
Proof using HFH.
  intros Hb. induction n as [|n IH]; intros r x q Hn Hr Hx Hq.
  - simpl in Hx. assert (x = 0) as -> by lia. simpl. rewrite !Z.mul_1_r, !Z.add_0_r, Z.div_small, Z.mod_small by lia. f_equal. lia.
  - replace (Z.of_nat (S n)) with (Z.of_nat n + 1) in * by lia. set (k := Z.of_nat n) in *. pose proof (divrem_step b r x q k ltac:(lia) ltac:(lia) Hr Hb Hx Hq) as Hstep. cbv zeta in Hstep.
    set (t := 2 * r + x / 2 ^ k) in *. set (qb := if b <=? t then 1 else 0) in *. pow_pos k.
    assert (2 ^ (k + 1) = 2 * 2 ^ k) as Ek by (rewrite <- Z.pow_succ_r by lia; f_equal; lia). assert (2 ^ (F - k) = 2 * 2 ^ (F - (k + 1))) as Efk by (rewrite <- Z.pow_succ_r by lia; f_equal; lia).
    pose proof (Z.div_mod x (2 ^ k) ltac:(lia)) as Ex. pose proof (Z.mod_pos_bound x (2 ^ k) ltac:(lia)) as Hxl. assert (0 <= x / 2 ^ k <= 1) as Hxh by (split; [apply Z.div_pos; lia|]; assert (x / 2 ^ k < 2); [apply Z.div_lt_upper_bound; lia|lia]).
    assert (0 <= qb <= 1 /\ 0 <= t - qb * b < b) as [Hqb Ht] by (unfold qb, t in *; destruct (Z.leb_spec b (2 * r + x / 2 ^ k)); lia).
    cbn [divrem_loop]. cbv zeta. destruct (negb (r >>' (F - 1) =? 0) || _); injection Hstep as H1 H2; rewrite H1, H2; rewrite IH by lia; f_equal.
    all: assert (r * 2 ^ (k + 1) + x = (t - qb * b) * 2 ^ k + x mod 2 ^ k + qb * 2 ^ k * b) as -> by (unfold t; rewrite Ek; rewrite Ex at 1; ring).
    all: rewrite ?Z.div_add, ?Z.mod_add by lia; lia.
Qed.

Lemma divrem_bits_eq a1 a0 b : 0 <= a1 < b -> b < 2 ^ F -> in_u F a0 -> divrem_u_bits a1 a0 b = Done (divrem_u F a1 a0 b).
Proof using HFH.
  intros Ha Hb Ha0. unfold divrem_u_bits, assert_c. destruct (Z.ltb_spec a1 b); [|lia]. simpl. f_equal. unfold divrem_u. pow_pos (2 * FH).
  pose proof (divrem_loop_spec b (Z.to_nat F) Hb a1 a0 0) as Hl. rewrite Z2Nat.id in Hl by lia. replace (F - F) with 0 in Hl by lia. rewrite Z.mul_1_r, Z.add_0_r in Hl. change (2 ^ 0) with 1 in Hl.
  rewrite Hl by (unfold in_u in *; lia). rewrite lor_shiftl_low by (unfold in_u in *; lia). unfold fu. pose proof (Z.mod_pos_bound (a1 * 2 ^ F + a0) b ltac:(lia)).
  rewrite (wrapu_small F (_ mod _)) by lia. rewrite wrapu_small; [f_equal; lia|]. unfold in_u in *. split; [apply Z.div_pos; nia|apply Z.div_lt_upper_bound; nia].
Qed.

(** ** Square roots *)

(** A step of the iteration above the root: the assertion of the division holds and the sum does not wrap. *)
Lemma newton_words a1 r s : 0 < a1 < 2 ^ (F - 2) -> r * r <= a1 * 2 ^ F < (r + 1) * (r + 1) -> 1 <= r <= s -> s <= 2 ^ (F - 1) ->
  a1 < s /\ 0 <= a1 * 2 ^ F / s /\ a1 * 2 ^ F / s + s < 2 ^ F.
Proof using HFH.
  intros Ha Hr Hrs Hs. assert (2 ^ F = 4 * 2 ^ (F - 2)) as E2 by (change 4 with (2 ^ 2); merge_pows). assert (2 ^ (F - 1) = 2 * 2 ^ (F - 2)) as E1 by (rewrite <- Z.pow_succ_r by lia; f_equal; lia).
  set (c := 2 ^ (F - 2)) in *. rewrite E1 in Hs. rewrite E2 in *. assert (4 <= c) as Hc by (unfold c; change 4 with (2 ^ 2); apply Z.pow_le_mono_r; lia). clearbody c.
  split; [destruct (Z.lt_ge_cases a1 s); [assumption|exfalso; nia]|]. split; [apply Z.div_pos; nia|].
  assert (r <= 2 * c - 2) as Hr2 by nia. pose proof (Z.div_mod (a1 * (4 * c)) s ltac:(lia)) as E. pose proof (Z.mod_pos_bound (a1 * (4 * c)) s ltac:(lia)) as Hm. set (q := a1 * (4 * c) / s) in *. clearbody q.
  destruct (Z.le_gt_cases q s) as [C|C].
  - destruct (Z.eq_dec s (2 * c)) as [->|]; [|lia]. assert (q < 2 * c); [|lia]. nia.
  - assert (q <= r + 2) by nia. lia.
Qed.

Lemma sqrt_loop_words_eq a1 r n : 0 < a1 < 2 ^ (F - 2) -> r * r <= a1 * 2 ^ F < (r + 1) * (r + 1) -> 1 <= r ->
  forall s, r <= s <= 2 ^ (F - 1) -> sqrt_loop_words n a1 0 s = sqrt_loop n (a1 * 2 ^ F) s.
Proof using HFH.
  intros Ha Hr Hr1. assert (2 ^ (F - 1) < 2 ^ F) as HF by (apply Z.pow_lt_mono_r; lia). induction n as [|n IH]; intros s Hs; [reflexivity|].
  destruct (newton_words a1 r s Ha Hr ltac:(lia) ltac:(lia)) as (H1 & H2 & H3). cbn [sqrt_loop_words sqrt_loop].
  rewrite divrem_bits_eq by (try split; lia). unfold divrem_u. cbn [mbind res_bind]. rewrite Z.lor_0_r, Z.shiftl_mul_pow2 by lia. unfold fu.
  rewrite (wrapu_small F (_ / s)) by lia. rewrite wrapu_small by lia. cbv zeta. destruct (Z.leb_spec s ((a1 * 2 ^ F / s + s) / 2)); [reflexivity|].
  apply IH. pose proof (newton_lower (a1 * 2 ^ F) r s Hr1 ltac:(lia) ltac:(lia)). lia.
Qed.

Lemma sqrtrem_words_eq a1 : 0 < a1 < 2 ^ (F - 2) -> sqrtrem_u_words a1 0 = sqrtrem_u F a1 0.
Proof using HFH.
  intros Ha. pow_pos (2 * FH). assert (2 ^ (F - 2) < 2 ^ F) by (apply Z.pow_lt_mono_r; lia). rewrite sqrtrem_root by lia. unfold sqrtrem_u_words. destruct (Z.eqb_spec a1 0); [lia|]. simpl andb. cbv iota zeta. simpl negb. cbv iota.
  destruct (Z.sqrt_spec (a1 * 2 ^ F)) as [R1 R2]; [nia|]. set (r := Z.sqrt (a1 * 2 ^ F)) in *. unfold Z.succ in R2. assert (1 <= r) as Hr by nia.
  set (l := 2 * F - clz F (a1 - 1)). assert (0 <= l <= 2 * F - 2 /\ a1 * 2 ^ F <= 2 ^ l) as [Hl Hal].
  { unfold l, clz. destruct (Z.eqb_spec (a1 - 1) 0) as [E|E].
    - split; [lia|]. replace (2 * F - F) with F by lia. replace a1 with 1 by lia. lia.
    - assert (Z.log2 (a1 - 1) < F - 2) by (apply Z.log2_lt_pow2; lia). pose proof (Z.log2_nonneg (a1 - 1)). split; [lia|]. replace (2 * F - (F - 1 - Z.log2 (a1 - 1))) with (Z.log2 (a1 - 1) + 1 + F) by lia.
      rewrite Z.pow_add_r by lia. destruct (Z.log2_spec (a1 - 1)) as [_ L2]; [lia|]. unfold Z.succ in L2. nia. }
  clearbody l. rewrite Z.shiftl_1_l. pose proof (Z.div_mod (l + 1) 2 ltac:(lia)) as El. pose proof (Z.mod_pos_bound (l + 1) 2 ltac:(lia)) as El2. pow_pos ((l + 1) / 2).
  assert (2 ^ l <= 2 ^ ((l + 1) / 2) * 2 ^ ((l + 1) / 2)) as Hs0 by (rewrite <- Z.pow_add_r by lia; apply Z.pow_le_mono_r; lia).
  assert (2 ^ ((l + 1) / 2) <= 2 ^ (F - 1)) as Hs1 by (apply Z.pow_le_mono_r; lia). assert (2 ^ (F - 1) < 2 ^ F) by (apply Z.pow_lt_mono_r; lia).
  unfold fu. rewrite wrapu_small by lia. set (s0 := 2 ^ ((l + 1) / 2)) in *. clearbody s0. assert (r <= s0) as Hrs by nia.
  rewrite (sqrt_loop_words_eq a1 r) by lia. replace (Z.to_nat (F + 2)) with (Datatypes.S (Z.to_nat (F + 1))) by lia.
  rewrite (sqrt_loop_root _ (a1 * 2 ^ F) r) by (try lia; rewrite Z2Nat.id by lia; assert (2 ^ F <= 2 ^ (F + 1)) by (apply Z.pow_le_mono_r; lia); lia).
  cbn [mbind res_bind]. rewrite mul_halves_eq by (split; lia). unfold mul_u. rewrite (wrapu_small (2 * F) (r * r)) by (replace (2 ^ (2 * F)) with (2 ^ F * 2 ^ F) by merge_pows; split; [nia|apply Z.mul_lt_mono_nonneg; lia]). cbv zeta. unfold fu, wrapu. rewrite Z.shiftr_div_pow2 by lia.
  do 2 f_equal. rewrite <- negb_andb. f_equal. pose proof (Z.div_mod (r * r) (2 ^ F) ltac:(lia)) as Ed. apply eq_true_iff_eq. rewrite andb_true_iff, !Z.eqb_eq. split.
  - intros [E0 E1]. rewrite E0, E1 in Ed. lia.
  - intros E0. replace (r * r) with (a1 * 2 ^ F) by lia. rewrite Z.mod_mul, Z.div_mul by lia. auto.
Qed.

(** The helpers for targets without a double-width integer type agree with the double-width ones:
    multiplication by halves with its carries, the bit-by-bit division (whose assertion holds whenever the
    quotient fits a word), and the root taken with that division for the arguments [sqrt_sf] passes. *)
Theorem wide_helpers_agree :
  (forall a b, in_u F a -> in_u F b -> mul_u_halves a b = mul_u F a b) /\
  (forall a1 a0 b, 0 <= a1 < b -> b < 2 ^ F -> in_u F a0 -> divrem_u_bits a1 a0 b = Done (divrem_u F a1 a0 b)) /\
  (forall a1, 0 < a1 < 2 ^ (F - 2) -> sqrtrem_u_words a1 0 = sqrtrem_u F a1 0).
Proof using HFH. split; [exact mul_halves_eq|split; [exact divrem_bits_eq|exact sqrtrem_words_eq]]. Qed.

End Wide.

Lemma wide_helpers_agree_witness :
  mul_u_halves 64 (2 ^ 128 - 1) (2 ^ 127 + 5) = mul_u 128 (2 ^ 128 - 1) (2 ^ 127 + 5) /\ divrem_u_bits 64 3 1 7 = Done (divrem_u 128 3 1 7) /\
  sqrtrem_u_words 64 2 0 = sqrtrem_u 128 2 0.
Proof.
  destruct (wide_helpers_agree 64 ltac:(lia)) as (H1 & H2 & H3). split; [apply H1; split; discriminate || reflexivity|].
  split; [apply H2; [lia|reflexivity|split; discriminate || reflexivity]|apply H3; split; reflexivity].
Defined.
