(* ===== verification/SoftCmp.v ===== *)
(** * Comparisons, minimum and maximum

    [fval] extends to infinities, whose value is above every finite one, so
    the signed value [sval] orders all floats but NaNs.  The comparisons of
    [softfp_template.h], which work on the bit patterns, decide that order. *)

From S2P Require Import Prelude Softfp SoftRound SoftArith.
From stdpp Require Import base list.
From Stdlib Require Import ZArith Lia Bool.
Local Open Scope Z_scope.
Local Open Scope bits_scope.

Section Compare.
Context (p w : Z) (Hw : 5 <= w) (Hp : w <= p).
Abbreviation F := (p + w + 1).
Abbreviation fval := (fval p w).
Abbreviation sval := (sval p w).

(** The bits below the sign. *)
Definition mag (a : Z) : Z := sf_exp p w a * 2 ^ p + sf_mant p a.

Lemma sign_mag a : in_u F a -> a = sf_sign F a * 2 ^ (F - 1) + mag a /\ 0 <= mag a < 2 ^ (F - 1).
Proof using Hw Hp.
  intros Ha. pose proof (exp_range p w Hw Hp a) as He. pose proof (mant_range p w Hw Hp a) as Hm. pow_pos p. assert (2 ^ (F - 1) = 2 ^ w * 2 ^ p) as EF by merge_pows.
  split; [|unfold mag; rewrite EF; nia]. unfold mag. rewrite <- magnitude by assumption. unfold sf_sign, SIGN_MASK. rewrite Z.shiftr_div_pow2, Z.shiftl_1_l by lia.
  destruct Ha as [H1 H2]. assert (a &' Z.lnot (2 ^ (F - 1)) = a mod 2 ^ (F - 1)) as ->.
  { rewrite <- Z.land_ones by lia. apply Z.bits_inj'. intros i Hi. rewrite !Z.land_spec, Z.lnot_spec, Z.pow2_bits_eqb, Z.testbit_ones_nonneg by lia.
    destruct (Z.eqb_spec (F - 1) i), (Z.ltb_spec i (F - 1)); try lia; try reflexivity. rewrite (testbit_above F a) by lia. reflexivity. }
  pow_pos (F - 1). pose proof (Z.div_mod a (2 ^ (F - 1)) ltac:(lia)). lia.
Qed.

Lemma fval_lt a b : mag b < mag a -> fval b < fval a.
Proof using Hw Hp.
  unfold mag. intros H. pose proof (mant_range p w Hw Hp a). pose proof (mant_range p w Hw Hp b). pose proof (exp_range p w Hw Hp a). pose proof (exp_range p w Hw Hp b). pow_pos p.
  assert (sf_exp p w b <= sf_exp p w a) as He by nia. unfold SoftArith.fval. set (ea := sf_exp p w a) in *. set (eb := sf_exp p w b) in *.
  destruct (Z.eq_dec eb ea) as [E|E]; [rewrite E in *; destruct (Z.eqb_spec ea 0); [lia|pow_pos (ea - 1); nia]|].
  destruct (Z.eqb_spec ea 0); [lia|]. pow_pos (ea - 1). destruct (Z.eqb_spec eb 0); [nia|]. assert (2 * 2 ^ (eb - 1) <= 2 ^ (ea - 1)) by (rewrite <- Z.pow_succ_r by lia; apply Z.pow_le_mono_r; lia). pow_pos (eb - 1). nia.
Qed.

(** The value is a strictly increasing function of the magnitude bits, zero at zero. *)
Lemma fval_mag a b : (fval a < fval b <-> mag a < mag b) /\ (fval a = fval b <-> mag a = mag b).
Proof using Hw Hp.
  assert (mag a = mag b -> fval a = fval b) as Heq.
  { unfold mag. intros E. pose proof (mant_range p w Hw Hp a). pose proof (mant_range p w Hw Hp b). pow_pos p. assert (sf_exp p w a = sf_exp p w b) as Ee by nia. unfold SoftArith.fval. rewrite Ee. replace (sf_mant p a) with (sf_mant p b) by nia. reflexivity. }
  pose proof (fval_lt a b). pose proof (fval_lt b a). split; split; intros; lia.
Qed.

Lemma fval_mag0 a : (fval a = 0 <-> mag a = 0).
Proof using Hw Hp.
  pose proof (fval_zero p w Hw Hp a) as E. pose proof (mant_range p w Hw Hp a). pose proof (exp_range p w Hw Hp a). pow_pos p. unfold mag.
  destruct (Z.eqb_spec (sf_exp p w a) 0), (Z.eqb_spec (sf_mant p a) 0), (Z.eqb_spec (fval a) 0); simpl in E; try discriminate; split; intros; nia.
Qed.

(** [(a | b) << 1] is zero for a pair of zeros. *)
Lemma both_zero a b : in_u F a -> in_u F b -> (fu F ((a |' b) <<' 1) =? 0) = (mag a =? 0) && (mag b =? 0).
Proof using Hw Hp.
  intros Ha Hb. destruct (sign_mag a Ha) as [Ea Hma]. destruct (sign_mag b Hb) as [Eb Hmb]. pow_pos (F - 1). pow_pos (p + w + 1).
  assert (fu F ((a |' b) <<' 1) = 2 * (mag a |' mag b)) as ->.
  { unfold fu, wrapu. rewrite Z.shiftl_mul_pow2 by lia. change (2 ^ 1) with 2. assert (2 ^ F = 2 ^ (F - 1) * 2) as -> by (rewrite Z.mul_comm, <- Z.pow_succ_r by lia; f_equal; lia).
    rewrite Z.mul_mod_distr_r by lia. rewrite <- Z.land_ones, Z.land_lor_distr_l, !Z.land_ones by lia. rewrite Ea, Eb at 1. rewrite !(Z.add_comm (_ * _)), !Z.mod_add, !Z.mod_small by lia. ring. }
  apply eq_true_iff_eq. rewrite andb_true_iff, !Z.eqb_eq. split.
  - intros E. apply Z.lor_eq_0_iff. lia.
  - intros [-> ->]. reflexivity.
Qed.

(** With equal signs the bit patterns compare as the values. *)
Lemma same_sign a b : in_u F a -> in_u F b -> sf_sign F a = sf_sign F b ->
  (a <? b) = (fval a <? fval b) /\ (b <? a) = (fval b <? fval a) /\ (a <=? b) = (fval a <=? fval b) /\ (b <=? a) = (fval b <=? fval a) /\ (a =? b) = (fval a =? fval b).
Proof using Hw Hp.
  intros Ha Hb E. destruct (sign_mag a Ha) as [Ea Hma]. destruct (sign_mag b Hb) as [Eb Hmb]. destruct (fval_mag a b) as [Hlt Heq]. rewrite E in Ea.
  repeat split; apply eq_true_iff_eq; rewrite ?Z.ltb_lt, ?Z.leb_le, ?Z.eqb_eq; lia.
Qed.

Lemma zero_values a b : (mag a =? 0) && (mag b =? 0) = (fval a =? 0) && (fval b =? 0).
Proof using Hw Hp. pose proof (fval_mag0 a). pose proof (fval_mag0 b). f_equal; apply eq_true_iff_eq; rewrite !Z.eqb_eq; lia. Qed.

(** The four combinations of signs. *)
Lemma sign_cases a b : in_u F a -> in_u F b ->
  sf_sign F a = 0 /\ sf_sign F b = 0 \/ sf_sign F a = 1 /\ sf_sign F b = 1 \/ sf_sign F a = 0 /\ sf_sign F b = 1 \/ sf_sign F a = 1 /\ sf_sign F b = 0.
Proof using Hw Hp. intros Ha Hb. pose proof (sign_range p w Hw Hp a Ha). pose proof (sign_range p w Hw Hp b Hb). lia. Qed.

Ltac decide_order :=
  repeat match goal with |- context [?x =? ?y] => destruct (Z.eqb_spec x y) | |- context [?x <=? ?y] => destruct (Z.leb_spec x y) | |- context [?x <? ?y] => destruct (Z.ltb_spec x y) end;
  simpl; lia.

Lemma order_correct a b fl : in_u F a -> in_u F b -> isnan_sf p w a = false -> isnan_sf p w b = false ->
  le_sf F p w a b fl = (b2z (sval a <=? sval b), fl) /\ lt_sf F p w a b fl = (b2z (sval a <? sval b), fl) /\ eq_quiet_sf F p w a b fl = (b2z (sval a =? sval b), fl).
Proof using Hw Hp.
  intros Ha Hb Na Nb. unfold le_sf, lt_sf, eq_quiet_sf, SoftArith.sval. rewrite Na, Nb. simpl orb. cbv iota zeta. rewrite both_zero, zero_values by assumption.
  pose proof (fval_nonneg p w Hw Hp a) as Hva. pose proof (fval_nonneg p w Hw Hp b) as Hvb. pose proof (same_sign a b Ha Hb) as Hsame.
  assert (sf_sign F a <> sf_sign F b -> (a =? b) = false) as Hdiff by (intros Hn; apply Z.eqb_neq; congruence).
  destruct (sign_cases a b Ha Hb) as [[Sa Sb]|[[Sa Sb]|[[Sa Sb]|[Sa Sb]]]]; rewrite Sa, Sb in *; simpl Z.eqb; simpl negb; cbv iota.
  1, 2: destruct (Hsame eq_refl) as (E1 & E2 & E3 & E4 & E5); rewrite ?E1, ?E2, ?E3, ?E4, ?E5.
  3, 4: rewrite (Hdiff ltac:(discriminate)).
  all: clear Hsame Hdiff; set (va := fval a) in *; set (vb := fval b) in *; clearbody va vb.
  all: repeat split; try (destruct (Z.eqb_spec va 0), (Z.eqb_spec vb 0); simpl andb; simpl orb; cbv iota); f_equal; decide_order.
Qed.

Lemma min_max_correct a b fl : in_u F a -> in_u F b -> isnan_sf p w a = false -> isnan_sf p w b = false ->
  exists x y, min_sf F p w a b fl = (x, fl) /\ max_sf F p w a b fl = (y, fl) /\ (x = a /\ y = b \/ x = b /\ y = a) /\ sval x <= sval y /\ (sval x = sval y -> sf_sign F y <= sf_sign F x).
Proof using Hw Hp.
  intros Ha Hb Na Nb. unfold min_sf, max_sf. rewrite Na, Nb. simpl orb. cbv iota zeta.
  pose proof (fval_nonneg p w Hw Hp a) as Hva. pose proof (fval_nonneg p w Hw Hp b) as Hvb. pose proof (same_sign a b Ha Hb) as Hsame.
  assert (forall x y, (x = a /\ y = b \/ x = b /\ y = a) -> sval x <= sval y -> (sval x = sval y -> sf_sign F y <= sf_sign F x) ->
    exists x' y', (x, fl) = (x', fl) /\ (y, fl) = (y', fl) /\ (x' = a /\ y' = b \/ x' = b /\ y' = a) /\ sval x' <= sval y' /\ (sval x' = sval y' -> sf_sign F y' <= sf_sign F x')) as Hpick
    by (intros x y; exists x, y; auto).
  destruct (sign_cases a b Ha Hb) as [[Sa Sb]|[[Sa Sb]|[[Sa Sb]|[Sa Sb]]]]; rewrite Sa, Sb in *; simpl Z.eqb; simpl negb; cbv iota.
  1, 2: destruct (Hsame eq_refl) as (-> & _); destruct (Z.ltb_spec (fval a) (fval b)).
  all: change (negb (Z.lxor (b2z true) 0 =? 0)) with true || change (negb (Z.lxor (b2z false) 0 =? 0)) with false || change (negb (Z.lxor (b2z true) 1 =? 0)) with false || change (negb (Z.lxor (b2z false) 1 =? 0)) with true || idtac; cbv iota.
  all: apply Hpick; [tauto| |]; unfold SoftArith.sval; rewrite ?Sa, ?Sb; simpl; lia.
Qed.

(** On floats that are not NaN the bit-pattern comparisons decide the order of the values: [le_sf],
    [lt_sf] and [eq_quiet_sf] (with [-0 = +0] and the infinities at the ends), and [min_sf] and [max_sf] return
    the operand of smaller and of larger value, telling [-0] from [+0]; no flag is raised. *)
Theorem compare_correct a b fl : in_u F a -> in_u F b -> isnan_sf p w a = false -> isnan_sf p w b = false ->
  le_sf F p w a b fl = (b2z (sval a <=? sval b), fl) /\ lt_sf F p w a b fl = (b2z (sval a <? sval b), fl) /\ eq_quiet_sf F p w a b fl = (b2z (sval a =? sval b), fl) /\
  (exists x y, min_sf F p w a b fl = (x, fl) /\ max_sf F p w a b fl = (y, fl) /\ (x = a /\ y = b \/ x = b /\ y = a) /\ sval x <= sval y /\
               (sval x = sval y -> sf_sign F y <= sf_sign F x)).
Proof using Hw Hp.
  intros Ha Hb Na Nb. destruct (order_correct a b fl Ha Hb Na Nb) as (H1 & H2 & H3). split; [exact H1|split; [exact H2|split; [exact H3|]]]. apply min_max_correct; assumption.
Qed.

End Compare.

(** [-0] and [+0] compare equal but are told apart by the minimum. *)
Lemma compare_correct_witness :
  le_sf 32 23 8 0x80000000 0 0 = (1, 0) /\ lt_sf 32 23 8 0x80000000 0 0 = (0, 0) /\ eq_quiet_sf 32 23 8 0x80000000 0 0 = (1, 0) /\
  exists x y, min_sf 32 23 8 0x80000000 0 0 = (x, 0) /\ max_sf 32 23 8 0x80000000 0 0 = (y, 0) /\ (x = 0x80000000 /\ y = 0 \/ x = 0 /\ y = 0x80000000).
Proof.
  destruct (compare_correct 23 8 ltac:(lia) ltac:(lia) 0x80000000 0 0) as (H1 & H2 & H3 & x & y & H4 & H5 & H6 & _); try (split; [discriminate | reflexivity]); try reflexivity.
  split; [exact H1|]. split; [exact H2|]. split; [exact H3|]. exists x, y. auto.
Defined.
