(* ===== verification/SoftFma.v ===== *)
(** * Fused multiply-add

    [fma_sf] forms the exact product in two words, aligns the smaller of
    product and addend with a sticky bit, adds, and rounds once.  The result is
    the rounding of the exact [a * b + c]. *)

From S2P Require Import Prelude Softfp SoftRound SoftArith SoftCmp.
From stdpp Require Import base list.
From Stdlib Require Import ZArith Lia Bool.
Local Open Scope Z_scope.
Local Open Scope bits_scope.

Section Fma.
Context (p w : Z) (Hw : 5 <= w) (Hp : w <= p).
Abbreviation F := (p + w + 1).

(** The value of two words. *)
Definition dw (hi lo : Z) : Z := hi * 2 ^ F + lo.

Lemma dw_split x : 0 <= x -> dw (x / 2 ^ F) (x mod 2 ^ F) = x /\ in_u F (x mod 2 ^ F).
Proof using Hw Hp. intros Hx. pow_pos (p + w + 1). unfold dw. pose proof (Z.div_mod x (2 ^ F) ltac:(lia)). pose proof (Z.mod_pos_bound x (2 ^ F) ltac:(lia)). split; [lia|split; lia]. Qed.

Lemma dw_div hi lo : in_u F lo -> dw hi lo / 2 ^ F = hi /\ dw hi lo mod 2 ^ F = lo.
Proof using Hw Hp.
  intros [H1 H2]. pow_pos (p + w + 1). unfold dw. split; symmetry; [apply (Z.div_unique_pos _ _ _ lo)|apply (Z.mod_unique_pos _ _ hi)]; lia.
Qed.

(** A fraction can be cancelled under rounding to odd. *)
Lemma ro_scale A B c : 0 < B -> 0 < c -> ro (A * c) (B * c) = ro A B.
Proof.
  intros HB Hc. unfold ro. rewrite Z.div_mul_cancel_r, Z.mul_mod_distr_r by lia.
  destruct (Z.eqb_spec (A mod B) 0) as [->|]; [reflexivity|]. destruct (Z.eqb_spec (A mod B * c) 0); [nia|reflexivity].
Qed.

(** ** [normalize2_sf] *)

(** Shifting two words left and keeping the upper one with a sticky bit. *)
Lemma shift_words m1 m0 j : 0 <= m1 -> in_u F m0 -> 0 <= j -> dw m1 m0 * 2 ^ j < 2 ^ (2 * F - 1) ->
  (if j =? 0 then m1 |' b2z (negb (m0 =? 0))
   else if j <? F then (fu F (m1 <<' j) |' (m0 >>' (F - j))) |' b2z (negb (fu F (m0 <<' j) =? 0))
   else fu F (m0 <<' (j - F))) = ro (dw m1 m0 * 2 ^ j) (2 ^ F).
Proof using Hw Hp.
  intros H1 H0 Hj Hlt. pow_pos (p + w + 1). pow_pos j. destruct (Z.eqb_spec j 0) as [->|Hne].
  { change (2 ^ 0) with 1. rewrite Z.mul_1_r. unfold ro. destruct (dw_div m1 m0 H0) as [-> ->]. destruct (m0 =? 0); [apply Z.lor_0_r|reflexivity]. }
  destruct (Z.ltb_spec j F) as [C|C].
  - assert (2 ^ F = 2 ^ (F - j) * 2 ^ j) as EF by merge_pows. pow_pos (F - j). destruct H0 as [A0 A1].
    pose proof (Z.div_mod m0 (2 ^ (F - j)) ltac:(lia)) as E0. pose proof (Z.mod_pos_bound m0 (2 ^ (F - j)) ltac:(lia)) as B0. set (q := m0 / 2 ^ (F - j)) in *. set (r := m0 mod 2 ^ (F - j)) in *.
    assert (0 <= q < 2 ^ j) as Hq by (subst q; split; [apply Z.div_pos; lia|apply Z.div_lt_upper_bound; lia]).
    assert (2 ^ (2 * F - 1) = 2 ^ F * 2 ^ (F - 1)) as E2 by merge_pows. assert (2 ^ (F - 1) <= 2 ^ F) by (apply Z.pow_le_mono_r; lia).
    assert (m1 * 2 ^ j < 2 ^ F) as Hm1 by (unfold dw in Hlt; rewrite E2 in Hlt; nia).
    assert (fu F (m0 <<' j) = r * 2 ^ j) as ->. { unfold fu, wrapu. rewrite Z.shiftl_mul_pow2 by lia. rewrite EF, Z.mul_mod_distr_r by lia. reflexivity. }
    assert (fu F (m1 <<' j) |' (m0 >>' (F - j)) = m1 * 2 ^ j + q) as ->.
    { unfold fu. rewrite Z.shiftr_div_pow2 by lia. fold q. rewrite wrapu_small by (rewrite Z.shiftl_mul_pow2 by lia; nia). apply lor_shiftl_low; lia. }
    assert (dw m1 m0 * 2 ^ j = dw (m1 * 2 ^ j + q) (r * 2 ^ j)) as -> by (unfold dw; rewrite E0, EF; ring).
    unfold ro. destruct (dw_div (m1 * 2 ^ j + q) (r * 2 ^ j)) as [-> ->]; [split; nia|]. destruct (r * 2 ^ j =? 0); [apply Z.lor_0_r|reflexivity].
  - assert (2 ^ j = 2 ^ (j - F) * 2 ^ F) as Ej by merge_pows. pow_pos (j - F). destruct H0 as [A0 A1].
    assert (2 ^ (2 * F - 1) = 2 ^ F * 2 ^ (F - 1)) as E2 by merge_pows. assert (2 ^ (F - 1) < 2 ^ F) by (apply Z.pow_lt_mono_r; lia). unfold dw in *. rewrite Ej in Hlt.
    assert (m1 = 0) as ->.
    { destruct (Z.eq_dec m1 0); [assumption|exfalso]. assert (2 ^ F * 2 ^ F <= (m1 * 2 ^ F + m0) * (2 ^ (j - F) * 2 ^ F)) by (apply Z.mul_le_mono_nonneg; nia). nia. }
    rewrite Z.mul_0_l, Z.add_0_l in *. assert (m0 * 2 ^ (j - F) < 2 ^ F) by (rewrite E2 in Hlt; nia).
    rewrite Ej, Z.mul_assoc. unfold ro. rewrite Z.mod_mul, Z.div_mul by lia. simpl. unfold fu. rewrite Z.shiftl_mul_pow2 by lia. apply wrapu_small. lia.
Qed.

(** The leading zeros of two words. *)
Lemma clz_words m1 m0 : 0 <= m1 < 2 ^ F -> in_u F m0 -> dw m1 m0 <> 0 ->
  (if m1 =? 0 then F + clz F m0 else clz F m1) = 2 * F - 1 - Z.log2 (dw m1 m0).
Proof using Hw Hp.
  intros H1 [A0 A1] Hne. unfold clz, dw in *. pow_pos (p + w + 1). destruct (Z.eqb_spec m1 0) as [->|N1].
  - rewrite Z.mul_0_l, Z.add_0_l in *. destruct (Z.eqb_spec m0 0); [lia|lia].
  - assert (Z.log2 (m1 * 2 ^ F + m0) = Z.log2 m1 + F); [|lia]. apply Z.log2_unique; [pose proof (Z.log2_nonneg m1); lia|]. destruct (Z.log2_spec m1) as [L1 L2]; [lia|]. unfold Z.succ in *.
    pose proof (Z.log2_nonneg m1). assert (2 ^ (Z.log2 m1 + F) = 2 ^ Z.log2 m1 * 2 ^ F) as -> by merge_pows. assert (2 ^ (Z.log2 m1 + F + 1) = 2 ^ (Z.log2 m1 + 1) * 2 ^ F) as -> by merge_pows. nia.
Qed.

Lemma normalize2_ref s E m1 m0 rm fl a b : 0 <= s <= 1 -> 0 <= m1 < 2 ^ F -> in_u F m0 -> dw m1 m0 < 2 ^ (2 * F - 1) -> 0 <= a -> 0 <= b -> a - b = E - w - F ->
  normalize2_sf F p w s E m1 m0 rm fl = Done (ref_round p w rm s (dw m1 m0 * 2 ^ a) (2 ^ b) fl).
Proof using Hw Hp.
  intros Hs H1 H0 Hlt Ha Hb Hab. unfold normalize2_sf, IMANT_SIZE. pow_pos (p + w + 1). pow_pos b. assert (0 <= dw m1 m0) as Hnn by (unfold dw, in_u in *; nia). destruct (Z.eq_dec (dw m1 m0) 0) as [E0|E0].
  - assert (m1 = 0 /\ m0 = 0) as [-> ->] by (unfold dw, in_u in *; nia). rewrite Z.eqb_refl. unfold clz. simpl Z.eqb. cbv iota zeta. destruct (Z.leb_spec 0 (F + F - (F - 1 - (F - 2)))); [|lia]. cbn [mbind res_bind assert_c].
    rewrite E0, Z.mul_0_l, ref_round_zero by lia. rewrite !Z.shiftl_0_l. assert (fu F 0 = 0) as -> by (unfold fu; apply wrapu_small; lia). destruct (Z.eqb_spec (F + F - (F - 1 - (F - 2))) 0); [lia|]. destruct (Z.ltb_spec (F + F - (F - 1 - (F - 2))) F); [lia|].
    rewrite round_pack_zero by assumption. reflexivity.
  - rewrite clz_words by assumption. cbv zeta. set (l := Z.log2 (dw m1 m0)). assert (l < 2 * F - 1) as Hl by (apply Z.log2_lt_pow2; lia). pose proof (Z.log2_nonneg (dw m1 m0)) as Hl0. fold l in Hl0.
    set (j := 2 * F - 1 - l - (F - 1 - (F - 2))). assert (j = 2 * F - 2 - l) as Ej by (unfold j; lia). clearbody j. destruct (Z.leb_spec 0 j); [|lia]. cbn [mbind res_bind assert_c].
    destruct (Z.log2_spec (dw m1 m0)) as [L1 L2]; [lia|]. fold l in L1, L2. unfold Z.succ in L2. pow_pos j.
    assert (2 ^ F * 2 ^ (F - 2) = 2 ^ l * 2 ^ j) as El by merge_pows. assert (2 ^ (2 * F - 1) = 2 ^ (l + 1) * 2 ^ j) as Er by merge_pows. assert (2 ^ (2 * F - 1) = 2 ^ F * (2 * 2 ^ (F - 2))) as Er2 by (rewrite <- Z.pow_succ_r by lia; merge_pows).
    assert (2 ^ F * 2 ^ (F - 2) <= dw m1 m0 * 2 ^ j < 2 ^ (2 * F - 1)) as Hb2 by (rewrite El, Er; nia). set (A := dw m1 m0 * 2 ^ j) in *.
    rewrite shift_words by (try assumption; try lia; fold A; lia). fold A. assert (2 ^ (F - 1) = 2 * 2 ^ (F - 2)) as EF1 by (rewrite <- Z.pow_succ_r by lia; f_equal; lia).
    assert (2 ^ (F - 2) <= ro A (2 ^ F) < 2 ^ (F - 1)) as HM.
    { split; [|rewrite EF1; apply ro_lt; lia]. apply Z.le_trans with (A / 2 ^ F); [apply Z.div_le_lower_bound; lia|apply ro_bounds; lia]. }
    rewrite (round_pack_ref p w Hw Hp s (E - j) (ro A (2 ^ F)) rm fl (a + F) (b + j)) by lia.
    f_equal. pow_pos (b + j). pow_pos (a + F). assert (2 ^ F <= A) by (pow_pos (F - 2); nia). rewrite ref_round_ro; [|lia|lia|lia|lia|lia|right; apply Z.le_trans with (F - 2); [lia|apply log2_lower; lia]].
    apply ref_round_ratio; [nia|lia|]. unfold A. rewrite (Z.pow_add_r 2 a F), (Z.pow_add_r 2 b j) by lia. ring.
Qed.

(** ** Alignment *)

Lemma dw_lor_1 hi lo : dw hi lo |' 1 = dw hi (lo |' 1).
Proof using Hw Hp.
  unfold dw. rewrite !lor_1. assert (2 ^ F = 2 ^ (F - 1) * 2) as -> by (rewrite Z.mul_comm, <- Z.pow_succ_r by lia; f_equal; lia).
  rewrite Z.mul_assoc, (Z.add_comm _ lo), Z.div_add by lia. ring.
Qed.

(** Two words shifted right with a sticky bit. *)
Lemma align2_ro y1 y0 d : 0 <= y1 < 2 ^ F -> in_u F y0 -> 0 <= d -> (y0 = 0 \/ d <= F \/ 2 * F <= d) ->
  exists z1 z0, align2 F y1 y0 d = (z1, z0) /\ dw z1 z0 = ro (dw y1 y0) (2 ^ d) /\ 0 <= z1 < 2 ^ F /\ in_u F z0.
Proof using Hw Hp.
  intros H1 H0 Hd Hc. unfold align2. pow_pos (p + w + 1). pow_pos d. assert (in_u F 1) as HI by (split; [lia|apply (Z.pow_gt_1 2 F); lia]). destruct (Z.leb_spec (2 * F) d) as [C|C].
  { exists 0, (b2z (negb (y0 |' y1 =? 0))). split; [reflexivity|]. assert (2 ^ F * 2 ^ F <= 2 ^ d) as Hbig by (rewrite <- Z.pow_add_r by lia; apply Z.pow_le_mono_r; lia). assert (0 <= dw y1 y0 < 2 ^ d) as Hy by (unfold dw, in_u in *; nia).
    split; [|split; [lia|destruct (_ =? 0); simpl; [split; lia|exact HI]]]. unfold ro. rewrite Z.mod_small, Z.div_small by lia. assert ((dw y1 y0 =? 0) = (y0 |' y1 =? 0)) as ->.
    { apply eq_true_iff_eq. rewrite !Z.eqb_eq, Z.lor_eq_0_iff. unfold dw, in_u in *. nia. }
    unfold dw. destruct (y0 |' y1 =? 0); reflexivity. }
  destruct (Z.leb_spec (F + 1) d) as [C1|C1].
  { assert (y0 = 0) as -> by lia. pow_pos (d - F). exists 0, (ro y1 (2 ^ (d - F))). rewrite rshift_rnd_ro by lia. split; [reflexivity|]. split; [|split; [lia|]].
    - unfold dw. rewrite Z.mul_0_l, Z.add_0_l, Z.add_0_r. replace (2 ^ d) with (2 ^ (d - F) * 2 ^ F) by merge_pows. rewrite ro_scale by lia. reflexivity.
    - split; [apply ro_nonneg; lia|]. rewrite (pow_split F 1) by lia. change (2 ^ 1) with 2. apply ro_lt; [lia|lia|]. change 2 with (2 ^ 1) at 2. rewrite <- pow_split by lia. nia. }
  destruct (Z.eqb_spec d F) as [->|C2].
  { exists 0, (y1 |' b2z (negb (y0 =? 0))). split; [reflexivity|]. split; [|split; [lia|apply lor_range; [lia|exact H1|apply b2z_in_u; lia]]].
    unfold ro. destruct (dw_div y1 y0 H0) as [-> ->]. unfold dw. destruct (y0 =? 0); simpl; [rewrite Z.lor_0_r|]; ring. }
  destruct (Z.eqb_spec d 0) as [->|C3].
  { exists y1, y0. split; [reflexivity|]. split; [|auto]. change (2 ^ 0) with 1. unfold ro. rewrite Z.mod_1_r, Z.div_1_r. reflexivity. }
  simpl negb. cbv iota zeta. assert (2 ^ F = 2 ^ (F - d) * 2 ^ d) as EF by merge_pows. pow_pos (F - d). destruct H0 as [A0 A1].
  pose proof (Z.div_mod y1 (2 ^ d) ltac:(lia)) as E1. pose proof (Z.mod_pos_bound y1 (2 ^ d) ltac:(lia)) as B1. pose proof (Z.div_mod y0 (2 ^ d) ltac:(lia)) as E0. pose proof (Z.mod_pos_bound y0 (2 ^ d) ltac:(lia)) as B0.
  assert (0 <= y1 / 2 ^ d < 2 ^ F) as Hh by (split; [apply Z.div_pos; lia|apply Z.div_lt_upper_bound; [lia|]; nia]). assert (0 <= y0 / 2 ^ d < 2 ^ (F - d)) as Hq by (split; [apply Z.div_pos; lia|apply Z.div_lt_upper_bound; lia]).
  unfold tst. rewrite ones_minus, Z.land_ones, !Z.shiftr_div_pow2 by lia. set (h := y1 / 2 ^ d) in *. set (l := y1 mod 2 ^ d) in *. set (q := y0 / 2 ^ d) in *. set (t := y0 mod 2 ^ d) in *. clearbody h l q t.
  assert (fu F (y1 <<' (F - d)) |' q = l * 2 ^ (F - d) + q) as ->.
  { assert (fu F (y1 <<' (F - d)) = l <<' (F - d)) as ->; [|apply lor_shiftl_low; lia]. unfold fu, wrapu. rewrite !Z.shiftl_mul_pow2 by lia. symmetry. apply (Z.mod_unique_pos _ _ h); [rewrite EF; nia|rewrite E1, EF; ring]. }
  assert (0 <= l * 2 ^ (F - d) + q < 2 ^ F) as Hz by (rewrite EF; nia).
  assert (dw y1 y0 = dw h (l * 2 ^ (F - d) + q) * 2 ^ d + t) as EY by (unfold dw; rewrite E1 at 1; rewrite E0 at 1; rewrite EF; ring).
  exists h, ((l * 2 ^ (F - d) + q) |' b2z (negb (t =? 0))). split; [reflexivity|]. split; [|split; [exact Hh|apply lor_range; [lia|exact Hz|apply b2z_in_u; lia]]].
  unfold ro. rewrite EY, (Z.add_comm _ t), Z.mod_add, Z.div_add, (Z.mod_small t), (Z.div_small t) by lia. rewrite Z.add_0_l. destruct (t =? 0); simpl; [rewrite Z.lor_0_r; reflexivity|symmetry; apply dw_lor_1].
Qed.

(** In the range where the lower word is dropped. *)
Lemma align2_drop y1 y0 d : 0 <= y1 < 2 ^ F -> F + 1 <= d < 2 * F ->
  align2 F y1 y0 d = (0, ro y1 (2 ^ (d - F))) /\ in_u F (ro y1 (2 ^ (d - F))).
Proof using Hw Hp.
  intros H1 Hd. unfold align2. destruct (Z.leb_spec (2 * F) d); [lia|]. destruct (Z.leb_spec (F + 1) d); [|lia]. rewrite rshift_rnd_ro by lia. split; [reflexivity|]. pow_pos (d - F).
  split; [apply ro_nonneg; lia|]. rewrite (pow_split F 1) by lia. change (2 ^ 1) with 2. apply ro_lt; [lia|lia|]. change 2 with (2 ^ 1) at 2. rewrite <- pow_split by lia. nia.
Qed.

(** ** Two-word addition and subtraction *)

Lemma add_words x1 x0 z1 z0 : in_u F x0 -> in_u F z0 -> 0 <= x1 -> 0 <= z1 -> dw x1 x0 + dw z1 z0 < 2 ^ F * 2 ^ F ->
  let lo := fu F (x0 + z0) in let hi := fu F (x1 + z1 + b2z (lo <? z0)) in in_u F lo /\ 0 <= hi < 2 ^ F /\ dw hi lo = dw x1 x0 + dw z1 z0.
Proof using Hw Hp.
  intros [A0 A1] [B0 B1] Hx Hz Hlt. cbv zeta. pow_pos (p + w + 1). unfold dw in *. assert (fu F (x0 + z0) = x0 + z0 - (if 2 ^ F <=? x0 + z0 then 2 ^ F else 0)) as Elo.
  { unfold fu, wrapu. symmetry. destruct (Z.leb_spec (2 ^ F) (x0 + z0)); [apply (Z.mod_unique_pos _ _ 1)|apply (Z.mod_unique_pos _ _ 0)]; lia. }
  assert (b2z (fu F (x0 + z0) <? z0) = if 2 ^ F <=? x0 + z0 then 1 else 0) as -> by (rewrite Elo; destruct (Z.leb_spec (2 ^ F) (x0 + z0)); destruct (Z.ltb_spec (x0 + z0 - 2 ^ F) z0), (Z.ltb_spec (x0 + z0 - 0) z0); simpl; lia).
  rewrite Elo. destruct (Z.leb_spec (2 ^ F) (x0 + z0)); unfold fu; rewrite wrapu_small by nia; (split; [split; lia|split; [nia|lia]]).
Qed.

Lemma sub_words x1 x0 z1 z0 : in_u F x0 -> in_u F z0 -> 0 <= x1 < 2 ^ F -> 0 <= z1 -> dw z1 z0 <= dw x1 x0 ->
  let lo := fu F (x0 - z0) in let hi := fu F (x1 - z1 - b2z (x0 <? lo)) in in_u F lo /\ 0 <= hi < 2 ^ F /\ dw hi lo = dw x1 x0 - dw z1 z0.
Proof using Hw Hp.
  intros [A0 A1] [B0 B1] Hx Hz Hle. cbv zeta. pow_pos (p + w + 1). unfold dw in *. assert (fu F (x0 - z0) = x0 - z0 + (if x0 <? z0 then 2 ^ F else 0)) as Elo.
  { unfold fu, wrapu. symmetry. destruct (Z.ltb_spec x0 z0); [apply (Z.mod_unique_pos _ _ (-1))|apply (Z.mod_unique_pos _ _ 0)]; lia. }
  assert (b2z (x0 <? fu F (x0 - z0)) = if x0 <? z0 then 1 else 0) as -> by (rewrite Elo; destruct (Z.ltb_spec x0 z0); destruct (Z.ltb_spec x0 (x0 - z0 + 2 ^ F)), (Z.ltb_spec x0 (x0 - z0 + 0)); simpl; lia).
  rewrite Elo. destruct (Z.ltb_spec x0 z0); unfold fu; rewrite wrapu_small by nia; (split; [split; lia|split; [nia|lia]]).
Qed.

(** ** The aligned sum *)

(** The signed combination of two magnitudes. *)
Definition combine (same : bool) (X Y : Z) : Z := if same then X + Y else X - Y.

(** The code that adds or subtracts the aligned words and rounds. *)
Definition sum_code (sx sy ex x1 x0 z1 z0 rm fl : Z) : res (Z * Z) :=
  let '(r_sign, r_mant1, r_mant0) :=
    if sx =? sy then
      let r_mant0 := fu F (x0 + z0) in (sx, fu F (x1 + z1 + b2z (r_mant0 <? z0)), r_mant0)
    else
      let r_mant0 := fu F (x0 - z0) in
      let r_mant1 := fu F (x1 - z1 - b2z (x0 <? r_mant0)) in
      (if r_mant0 |' r_mant1 =? 0 then b2z (rm =? RM_RDN) else sx, r_mant1, r_mant0) in
  normalize2_sf F p w r_sign ex r_mant1 r_mant0 rm fl.

Lemma sum_code_words sx sy ex x1 x0 z1 z0 rm fl : in_u F x0 -> in_u F z0 -> 0 <= x1 < 2 ^ F -> 0 <= z1 < 2 ^ F -> 0 < dw x1 x0 -> dw x1 x0 + dw z1 z0 < 2 ^ F * 2 ^ F ->
  (sx <> sy -> dw z1 z0 <= dw x1 x0) ->
  exists r1 r0, sum_code sx sy ex x1 x0 z1 z0 rm fl = normalize2_sf F p w (if dw r1 r0 =? 0 then b2z (rm =? RM_RDN) else sx) ex r1 r0 rm fl /\
    0 <= r1 < 2 ^ F /\ in_u F r0 /\ dw r1 r0 = combine (sx =? sy) (dw x1 x0) (dw z1 z0).
Proof using Hw Hp.
  intros Hx0 Hz0 Hx1 Hz1 Hpos Hlt Hle. unfold sum_code, combine. pow_pos (p + w + 1). assert (0 <= dw z1 z0) by (unfold dw, in_u in *; nia). destruct (Z.eqb_spec sx sy) as [E|E].
  - destruct (add_words x1 x0 z1 z0 Hx0 Hz0 ltac:(lia) ltac:(lia) Hlt) as (H1 & H2 & H3). eexists _, _. split; [|split; [exact H2|split; [exact H1|exact H3]]]. cbv zeta. rewrite H3. destruct (Z.eqb_spec (dw x1 x0 + dw z1 z0) 0); [lia|reflexivity].
  - destruct (sub_words x1 x0 z1 z0 Hx0 Hz0 ltac:(lia) ltac:(lia) (Hle E)) as (H1 & H2 & H3). eexists _, _. split; [|split; [exact H2|split; [exact H1|exact H3]]]. cbv zeta.
    set (lo := fu F (x0 - z0)) in *. set (hi := fu F (x1 - z1 - b2z (x0 <? lo))) in *. assert ((lo |' hi =? 0) = (dw hi lo =? 0)) as ->; [|reflexivity].
    apply eq_true_iff_eq. rewrite !Z.eqb_eq, Z.lor_eq_0_iff. unfold dw, in_u in *. nia.
Qed.

Lemma ref_round_ro0 rm s A B a b fl : 0 <= a -> 0 <= b -> 0 < B -> 0 <= A -> (A mod B = 0 \/ p + 2 <= Z.log2 (A / B)) ->
  ref_round p w rm s (ro A B * 2 ^ a) (2 ^ b) fl = ref_round p w rm s (A * 2 ^ a) (B * 2 ^ b) fl.
Proof using Hw Hp.
  intros Ha Hb HB HA Hro. pow_pos b. destruct (Z.lt_ge_cases A B) as [C|C]; [|apply ref_round_ro; lia].
  assert (A = 0) as ->. { destruct Hro as [H0|H0]; [rewrite Z.mod_small in H0; lia|]. rewrite Z.div_small in H0 by lia. change (Z.log2 0) with 0 in H0. lia. }
  unfold ro. rewrite Z.mod_0_l, Z.div_0_l, Z.eqb_refl, Z.mul_0_l by lia. rewrite !ref_round_zero by nia. reflexivity.
Qed.

Lemma combine_ro same X Y B : 0 < B -> X mod 2 = 0 -> combine same X (ro Y B) = ro (combine same (X * B) Y) B.
Proof.
  intros HB HX. apply Z.div_exact in HX; [|lia]. unfold combine. destruct same.
  - replace (X * B + Y) with (Y + 2 * (X / 2) * B) by (rewrite HX at 2; ring). rewrite ro_shift by lia. lia.
  - replace (X * B - Y) with (- Y + 2 * (X / 2) * B) by (rewrite HX at 2; ring). rewrite ro_shift, ro_opp by lia. lia.
Qed.

(** Adding less than one unit: only whether it is there matters. *)
Lemma ro_nudge same x y B : 0 < y < B -> ro (combine same (x * B) y) B = (if same then x else x - 1) |' 1.
Proof.
  intros Hy. unfold ro, combine. destruct same.
  - rewrite Z.add_comm, Z.mod_add, Z.div_add, Z.mod_small, Z.div_small by lia. destruct (Z.eqb_spec y 0); [lia|reflexivity].
  - replace (x * B - y) with (B - y + (x - 1) * B) by ring. rewrite Z.mod_add, Z.div_add, Z.mod_small, Z.div_small by lia. destruct (Z.eqb_spec (B - y) 0); [lia|]. reflexivity.
Qed.

Lemma word_bounds z1 z0 : 2 ^ (F - 3) <= z1 < 2 ^ (F - 2) -> in_u F z0 -> 2 ^ (2 * F - 3) <= dw z1 z0 < 2 ^ (2 * F - 2).
Proof using Hw Hp.
  intros H1 [H2 H3]. unfold dw. pow_pos (p + w + 1). assert (2 ^ (2 * F - 3) = 2 ^ (F - 3) * 2 ^ F) as -> by merge_pows. assert (2 ^ (2 * F - 2) = 2 ^ (F - 2) * 2 ^ F) as -> by merge_pows. nia.
Qed.

Lemma log2_big t B : 0 < B -> 2 ^ (2 * F - 4) * B <= t -> p + 2 <= Z.log2 (t / B).
Proof using Hw Hp. intros HB H. apply Z.le_trans with (2 * F - 4); [lia|]. apply log2_lower; lia. Qed.

Section Aligned.
Context (sx sy x1 x0 y1 y0 d : Z) (Hsx : 0 <= sx <= 1) (Hx1 : 2 ^ (F - 3) <= x1 < 2 ^ (F - 2)) (Hy1 : 2 ^ (F - 3) <= y1 < 2 ^ (F - 2))
  (Hx0 : in_u F x0) (Hy0 : in_u F y0) (Hx4 : dw x1 x0 mod 4 = 0) (Hy4 : dw y1 y0 mod 4 = 0) (Hone : x0 = 0 \/ y0 = 0)
  (Hd : 0 <= d) (Hord : d = 0 -> dw y1 y0 <= dw x1 x0).
Let T := combine (sx =? sy) (dw x1 x0 * 2 ^ d) (dw y1 y0).

(** The sum dominates what alignment loses. *)
Lemma sum_large : 0 <= T /\ (3 <= d -> 2 ^ (2 * F - 4) * 2 ^ d <= T).
Proof using Hw Hp Hx1 Hy1 Hx0 Hy0 Hd Hord.
  clear Hx4 Hy4. pose proof (word_bounds x1 x0 Hx1 Hx0) as HX. pose proof (word_bounds y1 y0 Hy1 Hy0) as HY. unfold T, combine. set (X := dw x1 x0) in *. set (Y := dw y1 y0) in *. clearbody X Y.
  assert (2 ^ (2 * F - 3) = 2 * 2 ^ (2 * F - 4)) as E1 by (rewrite <- Z.pow_succ_r by lia; f_equal; lia). assert (2 ^ (2 * F - 2) = 4 * 2 ^ (2 * F - 4)) as E2 by (change 4 with (2 ^ 2); merge_pows). pow_pos (2 * F - 4). pow_pos d.
  rewrite E1, E2 in *. set (c := 2 ^ (2 * F - 4)) in *. clearbody c. destruct (Z.eq_dec d 0) as [->|Hne]; [change (2 ^ 0) with 1 in *; specialize (Hord eq_refl); destruct (sx =? sy); repeat split; intros; lia|].
  assert (2 <= 2 ^ d) as H2 by (change 2 with (2 ^ 1) at 1; apply Z.pow_le_mono_r; lia). assert (3 <= d -> 8 <= 2 ^ d) as H8 by (intros; change 8 with (2 ^ 3); apply Z.pow_le_mono_r; lia).
  set (g := 2 ^ d) in *. clearbody g. destruct (sx =? sy); repeat split; intros; nia.
Qed.

Lemma sum_exact : d <= 2 -> T mod 2 ^ d = 0.
Proof using Hx4 Hy4 Hd.
  intros Hd2. apply Z.mod_divide in Hx4, Hy4; [|lia|lia]. destruct Hx4 as [a Ea], Hy4 as [b Eb]. pow_pos d. apply Z.mod_divide; [lia|]. unfold T. rewrite Ea, Eb.
  assert (4 = 2 ^ (2 - d) * 2 ^ d) as E4 by (change 4 with (2 ^ 2); merge_pows). unfold combine. destruct (sx =? sy); [exists (a * 4 + b * 2 ^ (2 - d))|exists (a * 4 - b * 2 ^ (2 - d))].
  - rewrite Z.mul_add_distr_r, <- (Z.mul_assoc b), <- E4. reflexivity.
  - rewrite Z.mul_sub_distr_r, <- (Z.mul_assoc b), <- E4. reflexivity.
Qed.

(** The aligned smaller operand is below the larger one and leaves room for the carry. *)
Lemma aligned_below : ro (dw y1 y0) (2 ^ d) < 2 ^ (2 * F - 2) /\ ro (dw y1 y0) (2 ^ d) <= dw x1 x0.
Proof using Hw Hp Hx1 Hy1 Hx0 Hy0 Hd Hord.
  clear Hx4 Hy4 T. pose proof (word_bounds x1 x0 Hx1 Hx0) as HX. pose proof (word_bounds y1 y0 Hy1 Hy0) as HY. pow_pos (2 * F - 4). pow_pos d.
  assert (2 ^ (2 * F - 3) = 2 * 2 ^ (2 * F - 4)) as E1 by (rewrite <- Z.pow_succ_r by lia; f_equal; lia). assert (2 ^ (2 * F - 2) = 2 * 2 ^ (2 * F - 3)) as E2 by (rewrite <- Z.pow_succ_r by lia; f_equal; lia).
  split; [rewrite E2; apply ro_lt; [lia|lia|]; rewrite <- E2; nia|]. destruct (Z.eq_dec d 0) as [->|Hne].
  - change (2 ^ 0) with 1. unfold ro. rewrite Z.mod_1_r, Z.div_1_r. simpl. auto.
  - assert (2 <= 2 ^ d) as H2 by (change 2 with (2 ^ 1) at 1; apply Z.pow_le_mono_r; lia). apply Z.lt_le_incl, Z.lt_le_trans with (2 ^ (2 * F - 3)); [|lia]. rewrite E1. apply ro_lt; [lia|lia|]. rewrite <- E1. nia.
Qed.

Lemma sum_code_round ex B t z1 z0 a b rm fl : 0 <= a -> 0 <= b -> a - b = ex - w -> 0 < B -> 0 <= t -> 0 <= z1 < 2 ^ F -> in_u F z0 ->
  dw z1 z0 < 2 ^ (2 * F - 2) -> dw z1 z0 <= dw x1 x0 -> combine (sx =? sy) (dw x1 x0) (dw z1 z0) = ro t B -> (t mod B = 0 \/ p + 2 <= Z.log2 (t / B)) ->
  sum_code sx sy ex x1 x0 z1 z0 rm fl = Done (ref_round p w rm (if t =? 0 then b2z (rm =? RM_RDN) else sx) (t * 2 ^ a) (B * 2 ^ (b + F)) fl).
Proof using Hw Hp Hsx Hx1 Hx0.
  intros Ha Hb Hab HB Ht Hz1 Hz0 Hzb Hzx Hro Hcond. pose proof (word_bounds x1 x0 Hx1 Hx0) as HX. clear Hx4 Hy4 Hy1 Hy0 Hord Hone Hd T. pow_pos (p + w + 1). pow_pos (2 * F - 3).
  assert (2 ^ (F - 2) <= 2 ^ F) as HF2 by (apply Z.pow_le_mono_r; lia). assert (2 ^ (2 * F - 1) = 2 * 2 ^ (2 * F - 2)) as E1 by (rewrite <- Z.pow_succ_r by lia; f_equal; lia). assert (2 ^ (2 * F - 1) <= 2 ^ F * 2 ^ F) as E2 by (rewrite <- Z.pow_add_r by lia; apply Z.pow_le_mono_r; lia).
  destruct (sum_code_words sx sy ex x1 x0 z1 z0 rm fl) as (r1 & r0 & -> & Hr1 & Hr0 & Er); [assumption|assumption|lia|assumption|lia|lia|auto|].
  assert (0 <= dw z1 z0) by (unfold dw; destruct Hz0; nia). assert (dw r1 r0 < 2 ^ (2 * F - 1)) as Hlt by (rewrite Er; unfold combine; destruct (sx =? sy); lia).
  rewrite (normalize2_ref _ ex r1 r0 rm fl a (b + F)); [|destruct (dw r1 r0 =? 0); [destruct (rm =? RM_RDN); simpl; lia|assumption]|assumption|assumption|assumption|lia|lia|lia].
  f_equal. rewrite Er, Hro, ro_zero by lia. apply ref_round_ro0; lia || assumption.
Qed.

Lemma x_even : dw x1 x0 mod 2 = 0.
Proof using Hx4. clear - Hx4. apply Z.mod_divide in Hx4 as [z Ez]; [|lia]. apply Z.mod_divide; [lia|]. exists (2 * z). lia. Qed.

Lemma aligned_regular ex a b rm fl : 0 <= a -> 0 <= b -> a - b = ex - w -> (y0 = 0 \/ d <= F \/ 2 * F <= d) ->
  (let '(c1, c0) := align2 F y1 y0 d in sum_code sx sy ex x1 x0 c1 c0 rm fl) = Done (ref_round p w rm (if T =? 0 then b2z (rm =? RM_RDN) else sx) (T * 2 ^ a) (2 ^ d * 2 ^ (b + F)) fl).
Proof using Hw Hp Hsx Hx1 Hy1 Hx0 Hy0 Hx4 Hy4 Hd Hord.
  intros Ha Hb Hab Hc. destruct sum_large as [HT0 HT3]. pow_pos d. assert (2 ^ (F - 2) <= 2 ^ F) as HF2 by (apply Z.pow_le_mono_r; lia).
  destruct (align2_ro y1 y0 d ltac:(pow_pos (F - 3); lia) Hy0 Hd Hc) as (z1 & z0 & -> & Ez & Hz1 & Hz0). destruct aligned_below as [Hb1 Hb2].
  apply sum_code_round; try assumption; try (rewrite Ez; assumption).
  - rewrite Ez. apply combine_ro; [assumption|apply x_even].
  - destruct (Z.le_gt_cases d 2) as [C|C]; [left; apply sum_exact; assumption|right; apply log2_big; [assumption|apply HT3; lia]].
Qed.

(** Where the product's lower word is dropped the addend has none, and both sums lie strictly between the same neighbours. *)
Lemma aligned_dropped ex a b rm fl : 0 <= a -> 0 <= b -> a - b = ex - w -> x0 = 0 -> F + 1 <= d < 2 * F ->
  (let '(c1, c0) := align2 F y1 y0 d in sum_code sx sy ex x1 x0 c1 c0 rm fl) = Done (ref_round p w rm (if T =? 0 then b2z (rm =? RM_RDN) else sx) (T * 2 ^ a) (2 ^ d * 2 ^ (b + F)) fl).
Proof using Hw Hp Hsx Hx1 Hy1 Hx0 Hy0 Hx4 Hd.
  intros Ha Hb Hab Ex0 Hdr. clear Hord Hone Hy4. pow_pos (d - F). pow_pos (p + w + 1). pow_pos d. pow_pos (F - 4). pow_pos (b + F).
  assert (2 ^ (F - 2) = 4 * 2 ^ (F - 4)) as E4 by (change 4 with (2 ^ 2); merge_pows). assert (2 ^ (F - 3) = 2 * 2 ^ (F - 4)) as E3 by (rewrite <- Z.pow_succ_r by lia; f_equal; lia).
  assert (2 ^ (F - 2) <= 2 ^ F) as HF2 by (apply Z.pow_le_mono_r; lia). assert (2 ^ d = 2 ^ (d - F) * 2 ^ F) as Ed by merge_pows.
  destruct (align2_drop y1 y0 d ltac:(lia) Hdr) as [-> Hk]. set (k := ro y1 (2 ^ (d - F))) in *. set (t := combine (sx =? sy) (dw x1 x0 * 2 ^ (d - F)) y1).
  assert (t = combine (sx =? sy) (x1 * 2 ^ d) y1) as Et by (unfold t, dw; rewrite Ex0, Z.add_0_r, <- Z.mul_assoc, (Z.mul_comm (2 ^ F)), <- Ed; reflexivity).
  assert (T = combine (sx =? sy) (x1 * (2 ^ d * 2 ^ F)) (dw y1 y0)) as ET by (unfold T; f_equal; unfold dw; rewrite Ex0; ring).
  assert (2 ^ F < 2 ^ d) as HFd by (apply Z.pow_lt_mono_r; lia). assert (0 < dw y1 y0 < 2 ^ d * 2 ^ F) as HY by (unfold dw; destruct Hy0; nia).
  assert (ro t (2 ^ d) = ro T (2 ^ d * 2 ^ F)) as Esame by (rewrite Et, ET, !ro_nudge by lia; reflexivity).
  assert (2 ^ (F - 4) * 2 ^ d <= t) as Ht by (rewrite Et; unfold combine; destruct (sx =? sy); nia). assert (2 ^ (F - 4) * (2 ^ d * 2 ^ F) <= T) as HT by (rewrite ET; unfold combine; destruct (sx =? sy); nia).
  rewrite (sum_code_round ex (2 ^ (d - F)) t 0 k a b); [|assumption|assumption|assumption|assumption|nia|lia|assumption| | |unfold dw at 2; rewrite Z.mul_0_l, Z.add_0_l; apply combine_ro; [assumption|apply x_even]|right].
  2, 3: pose proof (word_bounds x1 x0 Hx1 Hx0); assert (2 ^ F <= 2 ^ (2 * F - 3)) by (apply Z.pow_le_mono_r; lia); destruct Hk; unfold dw at 1; lia.
  2:{ apply Z.le_trans with (F - 4); [lia|]. apply log2_lower; [assumption|lia|]. nia. }
  assert (0 < t /\ 0 < T) as [Hpt HpT] by nia. destruct (Z.eqb_spec t 0); [lia|]. destruct (Z.eqb_spec T 0); [lia|]. f_equal.
  transitivity (ref_round p w rm sx (ro t (2 ^ d) * 2 ^ (a + F)) (2 ^ (b + F)) fl).
  - rewrite ref_round_ro0; [|lia|lia|assumption|lia|right; apply Z.le_trans with (F - 4); [lia|apply log2_lower; lia]]. apply ref_round_ratio; [nia|nia|]. rewrite (Z.pow_add_r 2 a F), Ed by lia. ring.
  - rewrite Esame, ref_round_ro0; [|lia|lia|nia|lia|right; apply Z.le_trans with (F - 4); [lia|apply log2_lower; nia]]. apply ref_round_ratio; [nia|nia|]. rewrite (Z.pow_add_r 2 a F) by lia. ring.
Qed.

(** The aligned sum rounds the exact sum [T / 2^d], in units of the lower word. *)
Lemma aligned_sum ex N D a b rm fl : 0 <= a -> 0 <= b -> a - b = ex - w -> 0 < D -> N * (2 ^ d * 2 ^ F * 2 ^ b) = T * 2 ^ a * D ->
  (let '(c1, c0) := align2 F y1 y0 d in sum_code sx sy ex x1 x0 c1 c0 rm fl) = Done (ref_round p w rm (if T =? 0 then b2z (rm =? RM_RDN) else sx) N D fl).
Proof using Hw Hp Hsx Hx1 Hy1 Hx0 Hy0 Hx4 Hy4 Hone Hd Hord.
  intros Ha Hb Hab HD EN. transitivity (Done (ref_round p w rm (if T =? 0 then b2z (rm =? RM_RDN) else sx) (T * 2 ^ a) (2 ^ d * 2 ^ (b + F)) fl)).
  - destruct (Z.eq_dec x0 0) as [E0|E0]; [destruct (Z.le_gt_cases d F); [|destruct (Z.le_gt_cases (2 * F) d)]|]; [apply aligned_regular; lia|apply aligned_regular; lia|apply aligned_dropped; lia|apply aligned_regular; lia].
  - f_equal. pow_pos d. pow_pos (b + F). apply ref_round_ratio; [nia|assumption|]. rewrite (Z.pow_add_r 2 b F) by lia. rewrite <- EN. ring.
Qed.

End Aligned.

(** ** Product and addend *)

(** [VX] and [VY] are the values of the two operands, the larger first, times [fone]. *)
Lemma fma_ordered sx sy ex ey x1 x0 y1 y0 VX VY K rm fl : 0 <= sx <= 1 -> 2 ^ (F - 3) <= x1 < 2 ^ (F - 2) -> 2 ^ (F - 3) <= y1 < 2 ^ (F - 2) -> in_u F x0 -> in_u F y0 ->
  dw x1 x0 mod 4 = 0 -> dw y1 y0 mod 4 = 0 -> x0 = 0 \/ y0 = 0 -> ey <= ex -> (ex = ey -> dw y1 y0 <= dw x1 x0) -> 0 <= K -> 0 <= ey - w - F + K ->
  VX * 2 ^ K = dw x1 x0 * 2 ^ (ex - w - F + K) * fone p w -> VY * 2 ^ K = dw y1 y0 * 2 ^ (ey - w - F + K) * fone p w ->
  VY <= VX /\ (let '(c1, c0) := align2 F y1 y0 (ex - ey) in sum_code sx sy ex x1 x0 c1 c0 rm fl) =
    Done (ref_round p w rm (if combine (sx =? sy) VX VY =? 0 then b2z (rm =? RM_RDN) else sx) (combine (sx =? sy) VX VY) (fone p w) fl).
Proof using Hw Hp.
  intros Hsx Hx1 Hy1 Hx0 Hy0 Hx4 Hy4 Hone Hd Hord HK He EX EY. pose proof (fone_pos p w Hw Hp) as Hf. set (d := ex - ey) in *. set (e := ey - w - F + K) in *. pow_pos K. pow_pos e. pow_pos d.
  assert (2 ^ (ex - w - F + K) = 2 ^ d * 2 ^ e) as Ee by (unfold d, e in *; merge_pows). rewrite Ee in EX. pose proof (word_bounds x1 x0 Hx1 Hx0) as HX. pose proof (word_bounds y1 y0 Hy1 Hy0) as HY. set (X := dw x1 x0) in *. set (Y := dw y1 y0) in *.
  assert (combine (sx =? sy) VX VY * 2 ^ K = combine (sx =? sy) (X * 2 ^ d) Y * (2 ^ e * fone p w)) as EC.
  { unfold combine. destruct (sx =? sy); [rewrite Z.mul_add_distr_r|rewrite Z.mul_sub_distr_r]; rewrite EX, EY; ring. }
  assert (0 < 2 ^ e * fone p w) as Hc by nia. split.
  - assert (Y <= X * 2 ^ d) as HXY.
    { destruct (Z.eq_dec d 0) as [E0|E0]; [rewrite E0; change (2 ^ 0) with 1; pose proof (Hord ltac:(unfold d in E0; lia)); lia|].
      assert (2 ^ 1 <= 2 ^ d) by (apply Z.pow_le_mono_r; lia). assert (2 ^ (2 * F - 2) = 2 ^ 1 * 2 ^ (2 * F - 3)) as E2 by merge_pows. change (2 ^ 1) with 2 in *. nia. }
    apply (Z.mul_le_mono_pos_r _ _ (2 ^ K)); [assumption|]. rewrite EX, EY. replace (X * (2 ^ d * 2 ^ e) * fone p w) with (X * 2 ^ d * (2 ^ e * fone p w)) by ring. replace (Y * 2 ^ e * fone p w) with (Y * (2 ^ e * fone p w)) by ring. apply Z.mul_le_mono_nonneg_r; lia.
  - rewrite (aligned_sum sx sy x1 x0 y1 y0 d Hsx Hx1 Hy1 Hx0 Hy0 Hx4 Hy4 Hone ltac:(unfold d; lia) ltac:(unfold d; intros; apply Hord; lia) ex (combine (sx =? sy) VX VY) (fone p w) (ex - w + K) K); [|lia|lia|lia|assumption|].
    + fold X Y. f_equal. f_equal. assert ((combine (sx =? sy) (X * 2 ^ d) Y =? 0) = (combine (sx =? sy) VX VY =? 0)) as ->; [|reflexivity].
      apply eq_true_iff_eq. rewrite !Z.eqb_eq. set (t := combine (sx =? sy) (X * 2 ^ d) Y) in *. set (v := combine (sx =? sy) VX VY) in *. clearbody t v. clear - EC Hc H. split; intros E; rewrite E in EC; nia.
    + fold X Y. pow_pos (p + w + 1). transitivity (combine (sx =? sy) VX VY * 2 ^ K * (2 ^ d * 2 ^ F)); [ring|]. rewrite EC.
      assert (2 ^ (ex - w + K) = 2 ^ e * (2 ^ d * 2 ^ F)) as -> by (unfold d, e in *; merge_pows). ring.
Qed.

(** The product of the mantissas in two words, its leading bit at [F - 3], and its exponent. *)
Definition product (ea ma eb mb : Z) : Z * Z * Z :=
  let r_exp := ea + eb - (1 <<' (w - 1)) + 3 in
  let '(r_mant1, r_mant0) := mul_u F (fu F (ma <<' RND_SIZE F p)) (fu F (mb <<' RND_SIZE F p)) in
  if r_mant1 <? 1 <<' (F - 3)
  then (r_exp - 1, fu F (r_mant1 <<' 1) |' (r_mant0 >>' (F - 1)), fu F (r_mant0 <<' 1))
  else (r_exp, r_mant1, r_mant0).

Lemma product_spec ea ma eb mb : 2 ^ p <= ma < 2 ^ (p + 1) -> 2 ^ p <= mb < 2 ^ (p + 1) ->
  exists e r1 r0 n, product ea ma eb mb = (e, r1, r0) /\ 2 ^ (F - 3) <= r1 < 2 ^ (F - 2) /\ in_u F r0 /\ 0 <= n <= 1 /\ e = ea + eb - 2 ^ (w - 1) + 3 - n /\
    dw r1 r0 = ma * mb * 2 ^ (2 * w - 2 + n).
Proof using Hw Hp.
  intros Ha Hb. unfold product. destruct (exp_bound w Hw) as [Hw32 Ew]. rewrite rnd_size. rewrite !Z.shiftl_1_l, !Z.shiftl_mul_pow2 by lia. pow_pos (w - 1). pow_pos p. pow_pos (p + w + 1).
  assert (2 ^ (p + 1) * 2 ^ (w - 1) = 2 ^ (F - 1)) as E1 by merge_pows. assert (2 ^ (F - 1) < 2 ^ F) as EF by (apply Z.pow_lt_mono_r; lia).
  assert (0 <= ma * 2 ^ (w - 1) < 2 ^ (F - 1)) as Ba by (rewrite <- E1; nia). assert (0 <= mb * 2 ^ (w - 1) < 2 ^ (F - 1)) as Bb by (rewrite <- E1; nia).
  unfold fu at 1 2. rewrite !wrapu_small by lia. unfold mul_u. set (P := ma * 2 ^ (w - 1) * (mb * 2 ^ (w - 1))). assert (P = ma * mb * 2 ^ (2 * w - 2)) as EP by (unfold P; replace (2 ^ (2 * w - 2)) with (2 ^ (w - 1) * 2 ^ (w - 1)) by merge_pows; ring).
  assert (2 ^ (2 * F - 4) <= P < 2 ^ (2 * F - 2)) as HP.
  { replace (2 ^ (2 * F - 4)) with (2 ^ p * 2 ^ p * 2 ^ (2 * w - 2)) by merge_pows. replace (2 ^ (2 * F - 2)) with (2 ^ (p + 1) * 2 ^ (p + 1) * 2 ^ (2 * w - 2)) by merge_pows. rewrite EP. pow_pos (2 * w - 2).
    split; [apply Z.mul_le_mono_nonneg_r; [lia|apply Z.mul_le_mono_nonneg; lia]|apply Z.mul_lt_mono_pos_r; [assumption|apply Z.mul_lt_mono_nonneg; lia]]. }
  pow_pos (2 * F - 4). assert (2 ^ (2 * F - 2) < 2 ^ (2 * F)) by (apply Z.pow_lt_mono_r; lia). rewrite (wrapu_small (2 * F) P) by lia. cbv zeta. change (fu F P) with (P mod 2 ^ F). rewrite (Z.shiftr_div_pow2 P) by lia.
  destruct (dw_split P ltac:(lia)) as [Edw Hlo]. assert (2 ^ (2 * F - 2) = 2 ^ F * 2 ^ (F - 2)) as E2 by merge_pows.
  assert (0 <= P / 2 ^ F < 2 ^ (F - 2)) as Hhi by (split; [apply Z.div_pos; lia|apply Z.div_lt_upper_bound; lia]). set (r1 := P / 2 ^ F) in *. set (r0 := P mod 2 ^ F) in *. clearbody r1 r0.
  destruct (Z.ltb_spec r1 (2 ^ (F - 3))) as [C|C]; [|exists (ea + eb - 2 ^ (w - 1) + 3), r1, r0, 0; rewrite Edw, EP, !Z.add_0_r; repeat split; try lia; apply Hlo].
  assert (2 ^ (F - 2) = 2 * 2 ^ (F - 3)) as E3 by (rewrite <- Z.pow_succ_r by lia; f_equal; lia). assert (2 ^ F = 2 * 2 ^ (F - 1)) as EF2 by (rewrite <- Z.pow_succ_r by lia; f_equal; lia). pow_pos (F - 1).
  assert (2 ^ (F - 2) < 2 ^ F) by (apply Z.pow_lt_mono_r; lia). destruct Hlo as [L0 L1]. pose proof (Z.div_mod r0 (2 ^ (F - 1)) ltac:(lia)) as E0. pose proof (Z.mod_pos_bound r0 (2 ^ (F - 1)) ltac:(lia)) as B0.
  assert (0 <= r0 / 2 ^ (F - 1) <= 1) as Hq by (split; [apply Z.div_pos; lia|]; assert (r0 / 2 ^ (F - 1) < 2); [apply Z.div_lt_upper_bound; lia|lia]).
  assert (fu F (r1 <<' 1) |' (r0 >>' (F - 1)) = 2 * r1 + r0 / 2 ^ (F - 1)) as ->.
  { rewrite (Z.shiftr_div_pow2 r0) by lia. unfold fu. rewrite wrapu_small by (rewrite Z.shiftl_mul_pow2 by lia; change (2 ^ 1) with 2; lia). rewrite lor_shiftl_low by (change (2 ^ 1) with 2; lia). change (2 ^ 1) with 2. ring. }
  assert (fu F (r0 <<' 1) = 2 * (r0 mod 2 ^ (F - 1))) as ->. { unfold fu, wrapu. rewrite Z.shiftl_mul_pow2 by lia. change (2 ^ 1) with 2. rewrite EF2, (Z.mul_comm r0), Z.mul_mod_distr_l by lia. reflexivity. }
  set (q := r0 / 2 ^ (F - 1)) in *. set (t := r0 mod 2 ^ (F - 1)) in *. clearbody q t.
  assert (dw (2 * r1 + q) (2 * t) = ma * mb * 2 ^ (2 * w - 2 + 1)) as E2P by (rewrite Z.pow_add_r, Z.mul_assoc, <- EP, <- Edw by lia; unfold dw; rewrite E0, EF2; change (2 ^ 1) with 2; ring).
  eexists _, _, _, 1. split; [reflexivity|]. split; [|split; [split; lia|split; [lia|split; [lia|exact E2P]]]].
  split; [|lia]. assert (2 ^ (F - 3) * 2 ^ F <= dw (2 * r1 + q) (2 * t)) as Hge.
  { rewrite E2P. replace (2 ^ (F - 3) * 2 ^ F) with (2 ^ (2 * F - 4) * 2 ^ 1) by merge_pows. rewrite Z.pow_add_r, Z.mul_assoc, <- EP by lia. change (2 ^ 1) with 2. lia. }
  unfold dw in Hge. rewrite EF2 in Hge. clear - Hge B0. set (c := 2 ^ (F - 3)) in *. set (v := 2 * r1 + q) in *. set (B := 2 ^ (F - 1)) in *. clearbody c v B.
  destruct (Z.le_gt_cases c v); [assumption|exfalso]. assert (v * (2 * B) <= (c - 1) * (2 * B)) by (apply Z.mul_le_mono_nonneg_r; lia). lia.
Qed.

(** ** [fma_sf] *)

(** Signed magnitudes. *)
Definition signed_of (s v : Z) : Z := if s =? 0 then v else - v.

(** The sign of [(-1)^sp * VP + (-1)^sc * VC]. *)
Definition fma_sign (rm sp sc VP VC : Z) : Z :=
  let S := signed_of sp VP + signed_of sc VC in
  if S =? 0 then if sp =? sc then sp else b2z (rm =? RM_RDN) else b2z (S <? 0).

(** The larger magnitude gives the sign of a sum, and the magnitudes combine. *)
Lemma signed_combine rm sx sy VX VY : 0 <= sx <= 1 -> 0 <= sy <= 1 -> 0 < VY <= VX ->
  Z.abs (signed_of sx VX + signed_of sy VY) = combine (sx =? sy) VX VY /\
  fma_sign rm sx sy VX VY = (if combine (sx =? sy) VX VY =? 0 then b2z (rm =? RM_RDN) else sx).
Proof.
  intros Hx Hy Hv. unfold fma_sign, combine, signed_of.
  assert (sx = 0 \/ sx = 1) as [-> | ->] by lia; assert (sy = 0 \/ sy = 1) as [-> | ->] by lia; simpl Z.eqb; cbv iota zeta; (split; [lia|]).
  all: repeat match goal with |- context [?x =? ?y] => destruct (Z.eqb_spec x y) | |- context [?x <? ?y] => destruct (Z.ltb_spec x y) end; simpl; lia.
Qed.

Lemma fma_sign_comm rm sx sy VX VY : fma_sign rm sx sy VX VY = fma_sign rm sy sx VY VX.
Proof. unfold fma_sign. rewrite (Z.add_comm (signed_of sy VY)), (Z.eqb_sym sy). cbv zeta. destruct (_ =? 0); [|reflexivity]. destruct (Z.eqb_spec sx sy); congruence. Qed.

(** A float rounds to itself, without flags. *)
Lemma ref_round_self rm c fl : in_u F c -> finite p w c = true -> ref_round p w rm (sf_sign F c) (fval p w c) 1 fl = (c, fl).
Proof using Hw Hp.
  intros Hc Hf. destruct (SoftCmp.sign_mag p w Hw Hp c Hc) as [Ec Hm]. unfold finite in Hf. apply negb_true_iff, Z.eqb_neq in Hf. rewrite exp_mask in Hf. pose proof (exp_range p w Hw Hp c) as He. pose proof (mant_range p w Hw Hp c) as Hmt. pow_pos p.
  assert (exists k, binade p (fval p w c) 1 = k /\ 0 <= k /\ fval p w c mod (1 * 2 ^ k) = 0 /\ k * 2 ^ p + fval p w c / (1 * 2 ^ k) = SoftCmp.mag p w c) as (k & Eb & Hk & Ex & Em).
  { unfold binade, fval, SoftCmp.mag. rewrite Z.div_1_r. destruct (Z.eqb_spec (sf_exp p w c) 0) as [E0|E0].
    - exists 0. rewrite E0. change (2 ^ 0) with 1. rewrite Z.mul_1_l, Z.mod_1_r, Z.div_1_r. assert (Z.log2 (sf_mant p c) <= p); [|lia]. apply Z.le_trans with (Z.log2 (2 ^ p)); [apply Z.log2_le_mono; lia|rewrite Z.log2_pow2; lia].
    - exists (sf_exp p w c - 1). pow_pos (sf_exp p w c - 1). rewrite Z.mul_1_l, Z.mod_mul, Z.div_mul by lia. rewrite Z.log2_mul_pow2 by lia. assert (Z.log2 (2 ^ p + sf_mant p c) = p) as ->; [|lia].
      apply Z.log2_unique; [lia|]. rewrite Z.pow_succ_r by lia. lia. }
  rewrite ref_round_unfold. rewrite Eb. cbv zeta. rewrite Ex. simpl negb. rewrite andb_false_r. unfold flag_if. pow_pos k.
  assert (rnd rm (sf_sign F c) (fval p w c) (1 * 2 ^ k) = fval p w c / (1 * 2 ^ k)) as ->.
  { apply Z.div_exact in Ex; [|lia]. rewrite (rnd_ratio rm (sf_sign F c) _ _ (fval p w c / (1 * 2 ^ k)) 1) by lia. apply rnd_one. }
  rewrite Em. unfold ref_pack. rewrite exp_mask. unfold signed. destruct (Z.leb_spec ((2 ^ w - 1) * 2 ^ p) (SoftCmp.mag p w c)) as [C|C]; [unfold SoftCmp.mag in C; nia|]. f_equal. lia.
Qed.

(** Product words and value. *)
Lemma product_value a b ea ma eb mb e r1 r0 n K : 0 <= n <= 1 -> 1 - p <= ea -> 1 - p <= eb -> e = ea + eb - 2 ^ (w - 1) + 3 - n -> dw r1 r0 = ma * mb * 2 ^ (2 * w - 2 + n) ->
  ma * 2 ^ (ea - 1 + p) = fval p w a * 2 ^ p -> mb * 2 ^ (eb - 1 + p) = fval p w b * 2 ^ p -> 0 <= K -> 0 <= e - w - F + K ->
  fval p w a * fval p w b * 2 ^ K = dw r1 r0 * 2 ^ (e - w - F + K) * fone p w.
Proof using Hw Hp.
  intros Hn Hea Heb Ee Ed Ea Eb HK He. pow_pos p. pow_pos (w - 1). apply (Z.mul_reg_r _ _ (2 ^ p * 2 ^ p)); [nia|].
  transitivity (fval p w a * 2 ^ p * (fval p w b * 2 ^ p) * 2 ^ K); [ring|]. rewrite <- Ea, <- Eb, Ed. unfold fone.
  transitivity (ma * mb * (2 ^ (ea - 1 + p) * 2 ^ (eb - 1 + p) * 2 ^ K)); [ring|].
  transitivity (ma * mb * (2 ^ (2 * w - 2 + n) * 2 ^ (e - w - F + K) * 2 ^ (2 ^ (w - 1) - 1 + p - 1) * (2 ^ p * 2 ^ p))); [|ring]. f_equal. merge_pows.
Qed.

Lemma signed_of_zero s : signed_of s 0 = 0.
Proof. unfold signed_of. destruct (s =? 0); reflexivity. Qed.

Lemma fma_add_correct sp e r1 r0 c VP rm fl : 0 <= sp <= 1 -> 2 ^ (F - 3) <= r1 < 2 ^ (F - 2) -> in_u F r0 -> dw r1 r0 mod 4 = 0 -> in_u F c -> finite p w c = true -> 0 < VP ->
  (forall K, 0 <= K -> 0 <= e - w - F + K -> VP * 2 ^ K = dw r1 r0 * 2 ^ (e - w - F + K) * fone p w) ->
  fma_add F p w sp e r1 r0 (sf_sign F c) (sf_exp p w c) (sf_mant p c) rm fl =
    Done (ref_round p w rm (fma_sign rm sp (sf_sign F c) VP (fval p w c * fone p w)) (Z.abs (signed_of sp VP + signed_of (sf_sign F c) (fval p w c * fone p w))) (fone p w) fl).
Proof using Hw Hp.
  intros Hsp Hr1 Hr0 Hr4 Hc Hf HVP Hrel. unfold fma_add. rewrite fval_zero by assumption. pose proof (fone_pos p w Hw Hp) as Hone. pose proof (sign_range p w Hw Hp c Hc) as Hsc. set (sc := sf_sign F c) in *. pose proof (word_bounds r1 r0 Hr1 Hr0) as HR.
  pow_pos (p + w + 1). pow_pos (2 * F - 3). destruct (Z.eqb_spec (fval p w c) 0) as [E0|E0].
  - assert (r1 |' b2z (negb (r0 =? 0)) = ro (dw r1 r0) (2 ^ F)) as -> by (unfold ro; destruct (dw_div r1 r0 Hr0) as [-> ->]; destruct (r0 =? 0); [apply Z.lor_0_r|reflexivity]).
    rewrite E0, Z.mul_0_l. rewrite signed_of_zero, Z.add_0_r.
    assert (Z.abs (signed_of sp VP) = VP /\ fma_sign rm sp sc VP 0 = sp) as [-> ->].
    { unfold fma_sign, signed_of. destruct (sc =? 0); simpl (- 0); rewrite Z.add_0_r; assert (sp = 0 \/ sp = 1) as [-> | ->] by lia; simpl Z.eqb; cbv iota zeta; (split; [lia|]).
      all: match goal with |- context [?x =? 0] => destruct (Z.eqb_spec x 0) end; [lia|]; match goal with |- context [?x <? 0] => destruct (Z.ltb_spec x 0) end; simpl; lia. }
    set (K := Z.max 0 (w + F - e)). pose proof (Hrel K ltac:(lia) ltac:(lia)) as E.
    apply (normalize_value p w Hw Hp sp e (dw r1 r0) (2 ^ F) (e - w + K) K); [assumption|lia|lia| |right|lia|lia|lia|assumption|].
    + replace (2 ^ F * 2 ^ (F - 1)) with (2 ^ (2 * F - 1)) by merge_pows. assert (2 ^ (2 * F - 2) < 2 ^ (2 * F - 1)) by (apply Z.pow_lt_mono_r; lia). lia.
    + apply Z.le_trans with (F - 3); [lia|]. apply log2_lower; [lia|lia|]. replace (2 ^ F * 2 ^ (F - 3)) with (2 ^ (2 * F - 3)) by merge_pows. lia.
    + transitivity (VP * 2 ^ K * 2 ^ F); [ring|]. rewrite E. replace (2 ^ (e - w + K)) with (2 ^ (e - w - F + K) * 2 ^ F) by merge_pows. ring.
  - destruct (operand_spec p w Hw Hp c E0 Hf) as (ec & mc & -> & Hm & Hec & Ev). rewrite rnd_size. pow_pos (w - 1 - 1). set (c1 := fu F (mc <<' (w - 1 - 1))).
    assert (2 ^ p * 2 ^ (w - 1 - 1) = 2 ^ (F - 3)) as E3 by merge_pows. assert (2 ^ (p + 1) * 2 ^ (w - 1 - 1) = 2 ^ (F - 2)) as E2 by merge_pows. assert (2 ^ (F - 2) < 2 ^ F) as HF2 by (apply Z.pow_lt_mono_r; lia). pow_pos p.
    assert (c1 = mc * 2 ^ (w - 1 - 1)) as Ec1 by (unfold c1, fu; rewrite Z.shiftl_mul_pow2 by lia; apply wrapu_small; nia). assert (2 ^ (F - 3) <= c1 < 2 ^ (F - 2)) as Hc1 by (rewrite Ec1, <- E3, <- E2; nia). clearbody c1.
    assert (in_u F 0) as H00 by (split; lia). assert (dw c1 0 mod 4 = 0) as Hc4 by (unfold dw; rewrite Z.add_0_r; replace (2 ^ F) with (2 ^ (F - 2) * 4) by (change 4 with (2 ^ 2); merge_pows); rewrite Z.mul_assoc; apply Z.mod_mul; lia).
    pose proof (fval_nonneg p w Hw Hp c) as Hvc. assert (0 < fval p w c * fone p w) as HVC by nia. set (VC := fval p w c * fone p w) in *. set (K := Z.max (w + F - e) (w + F + p)).
    assert (VC * 2 ^ K = dw c1 0 * 2 ^ (ec + 1 - w - F + K) * fone p w) as ErC.
    { apply (Z.mul_reg_r _ _ (2 ^ p)); [lia|]. unfold VC. transitivity (fval p w c * 2 ^ p * (2 ^ K * fone p w)); [ring|]. rewrite <- Ev. unfold dw. rewrite Ec1, Z.add_0_r.
      assert (2 ^ (ec - 1 + p) * 2 ^ K = 2 ^ (w - 1 - 1) * 2 ^ F * 2 ^ (ec + 1 - w - F + K) * 2 ^ p) as Epow by merge_pows. transitivity (mc * fone p w * (2 ^ (ec - 1 + p) * 2 ^ K)); [ring|]. rewrite Epow. ring. }
    pose proof (Hrel K ltac:(lia) ltac:(lia)) as ErP. cbv zeta.
    assert (fma_sign rm sp sc VP VC = fma_sign rm sc sp VC VP) as Ecomm by apply fma_sign_comm.
    destruct ((ec + 1 <? e) || ((e =? ec + 1) && (c1 <=? r1))) eqn:Hcmp; simpl negb; cbv iota.
    + assert (ec + 1 <= e /\ (e = ec + 1 -> dw c1 0 <= dw r1 r0)) as [Hle Hord].
      { apply orb_true_iff in Hcmp. rewrite andb_true_iff, Z.ltb_lt, Z.eqb_eq, Z.leb_le in Hcmp. split; [lia|]. intros. unfold dw. destruct Hr0. assert (c1 * 2 ^ F <= r1 * 2 ^ F) by (apply Z.mul_le_mono_nonneg_r; lia). lia. }
      destruct (fma_ordered sp sc e (ec + 1) r1 r0 c1 0 VP VC K rm fl) as [Hv Heq]; try assumption; try lia. destruct (signed_combine rm sp sc VP VC Hsp Hsc ltac:(lia)) as [-> ->]. exact Heq.
    + assert (e <= ec + 1 /\ (ec + 1 = e -> dw r1 r0 <= dw c1 0)) as [Hle Hord].
      { apply orb_false_iff in Hcmp as [Q1 Q2]. apply Z.ltb_ge in Q1. split; [lia|]. intros E. apply andb_false_iff in Q2. rewrite Z.eqb_neq, Z.leb_gt in Q2. unfold dw. destruct Hr0. assert ((r1 + 1) * 2 ^ F <= c1 * 2 ^ F) by (apply Z.mul_le_mono_nonneg_r; lia). lia. }
      destruct (fma_ordered sc sp (ec + 1) e c1 0 r1 r0 VC VP K rm fl) as [Hv Heq]; try assumption; try lia. rewrite Ecomm, (Z.add_comm (signed_of sp VP)). destruct (signed_combine rm sc sp VC VP Hsc Hsp ltac:(lia)) as [-> ->]. exact Heq.
Qed.

Lemma fma_rounds a b c rm fl : in_u F a -> in_u F b -> in_u F c -> finite p w a = true -> finite p w b = true -> finite p w c = true ->
  let sp := Z.lxor (sf_sign F a) (sf_sign F b) in
  let VP := fval p w a * fval p w b in
  let VC := fval p w c * fone p w in
  fma_sf F p w a b c rm fl = Done (ref_round p w rm (fma_sign rm sp (sf_sign F c) VP VC) (Z.abs (signed_of sp VP + signed_of (sf_sign F c) VC)) (fone p w) fl).
Proof using Hw Hp.
  intros Ha Hb Hc Hfa Hfb Hfc sp VP VC. unfold fma_sf. pose proof (lxor_sign _ _ (sign_range p w Hw Hp a Ha) (sign_range p w Hw Hp b Hb)) as Hsp. fold sp in Hsp. fold sp. clearbody sp.
  assert (forall x, finite p w x = true -> (sf_exp p w x =? EXP_MASK w) = false) as Hfin by (intros x; unfold finite; apply negb_true_iff). cbv zeta. rewrite (Hfin a Hfa), (Hfin b Hfb), (Hfin c Hfc). simpl orb. cbv iota.
  rewrite !fval_zero by assumption. pose proof (fone_pos p w Hw Hp) as Hone. pose proof (sign_range p w Hw Hp c Hc) as Hsc. pose proof (fval_nonneg p w Hw Hp a). pose proof (fval_nonneg p w Hw Hp b). pose proof (fval_nonneg p w Hw Hp c).
  destruct ((fval p w a =? 0) || (fval p w b =? 0)) eqn:Ez.
  - assert (VP = 0) as -> by (unfold VP; apply orb_true_iff in Ez; rewrite !Z.eqb_eq in Ez; destruct Ez as [-> | ->]; lia). pose proof (signed_of_zero sp) as Es0.
    destruct (Z.eqb_spec (fval p w c) 0) as [E0|E0].
    + unfold VC. rewrite E0, Z.mul_0_l. unfold fma_sign. rewrite Es0. rewrite signed_of_zero. simpl (0 + 0). cbv zeta. simpl Z.eqb. cbv iota. simpl Z.abs. rewrite ref_round_zero by assumption.
      pow_pos w. pow_pos p. rewrite pack_signed by (try lia; destruct (negb _), (rm =? RM_RDN); simpl; lia). rewrite Z.mod_0_l by lia. f_equal. f_equal. f_equal. rewrite Z.eqb_sym. destruct (sp =? sf_sign F c); reflexivity.
    + assert (Z.abs (signed_of sp 0 + signed_of (sf_sign F c) VC) = VC /\ fma_sign rm sp (sf_sign F c) 0 VC = sf_sign F c) as [-> ->].
      { assert (0 < VC) by (unfold VC; nia). unfold fma_sign. rewrite Es0, Z.add_0_l. unfold signed_of. assert (sf_sign F c = 0 \/ sf_sign F c = 1) as [-> | ->] by lia; simpl Z.eqb; cbv iota zeta; (split; [lia|]).
        all: match goal with |- context [?x =? 0] => destruct (Z.eqb_spec x 0) end; [lia|]; match goal with |- context [?x <? 0] => destruct (Z.ltb_spec x 0) end; simpl; lia. }
      f_equal. rewrite <- (ref_round_self rm c fl Hc Hfc) at 1. apply ref_round_ratio; [lia|assumption|unfold VC; ring].
  - apply orb_false_iff in Ez as [Ea Eb]. apply Z.eqb_neq in Ea, Eb. destruct (operand_spec p w Hw Hp a Ea Hfa) as (ea & ma & -> & Hma & Hea & Eva). destruct (operand_spec p w Hw Hp b Eb Hfb) as (eb & mb & -> & Hmb & Heb & Evb).
    destruct (product_spec ea ma eb mb Hma Hmb) as (e & r1 & r0 & n & Ep & Hr1 & Hr0 & Hn & Ee & Edw).
    transitivity (let '(e, r1, r0) := product ea ma eb mb in fma_add F p w sp e r1 r0 (sf_sign F c) (sf_exp p w c) (sf_mant p c) rm fl).
    { unfold product. destruct (mul_u F _ _) as [h1 h0]. destruct (h1 <? 1 <<' (F - 3)); reflexivity. }
    rewrite Ep. apply fma_add_correct; try assumption; [| unfold VP; nia |].
    + rewrite Edw. replace (2 ^ (2 * w - 2 + n)) with (2 ^ (2 * w - 4 + n) * 4) by (change 4 with (2 ^ 2); merge_pows). rewrite Z.mul_assoc. apply Z.mod_mul. lia.
    + intros K HK HeK. eapply product_value; eauto; lia.
Qed.

(** C7 Fused multiply-add is correctly rounded: for finite operands [fma_sf] returns the single rounding of
    the exact [a * b + c], in every mode, with the flags and with the IEEE sign of an exact zero, although the
    alignment drops the lower word of the product when the addend is far above it. *)
Theorem fma_correctly_rounded a b c rm fl : in_u F a -> in_u F b -> in_u F c -> finite p w a = true -> finite p w b = true -> finite p w c = true ->
  let sp := Z.lxor (sf_sign F a) (sf_sign F b) in
  let VP := fval p w a * fval p w b in
  let VC := fval p w c * fone p w in
  fma_sf F p w a b c rm fl = Done (ref_round p w rm (fma_sign rm sp (sf_sign F c) VP VC) (Z.abs (signed_of sp VP + signed_of (sf_sign F c) VC)) (fone p w) fl).
Proof using Hw Hp. exact (fma_rounds a b c rm fl). Qed.

End Fma.

(** Far above the product, the addend is nudged by it: the sum is one step below the addend when rounding down. *)
Lemma fma_correctly_rounded_witness :
  fma_sf 64 52 11 0x3ff0000000000001 0xbff0000000000001 0x4650000000000000 RM_RDN 0 = Done (0x464fffffffffffff, 1) /\
  fma_sf 32 23 8 0x3f800001 0x3f800001 0xbf800002 RM_RNE 0 = Done (0x28800000, 0).
Proof.
  split.
  - etransitivity; [apply (fma_correctly_rounded 52 11); solve [lia | split; [discriminate | reflexivity] | reflexivity]|vm_compute; reflexivity].
  - etransitivity; [apply (fma_correctly_rounded 23 8); solve [lia | split; [discriminate | reflexivity] | reflexivity]|vm_compute; reflexivity].
Defined.
