(* ===== verification/SoftTotal.v ===== *)
(** * Every floating-point operation returns

    For all bit patterns, NaNs and infinities included, the operations of
    [Softfp] reach a result: no assertion fails and the iterations end.  The
    result is a word of the format and flags are only added. *)

From S2P Require Import Prelude Softfp SoftRound SoftArith SoftSqrt SoftCmp SoftFma.
From stdpp Require Import base list.
From Stdlib Require Import ZArith Lia Bool.
Local Open Scope Z_scope.
Local Open Scope bits_scope.

Create HintDb fpw discriminated.

Section Total.
Context (p w : Z) (Hw : 5 <= w) (Hp : w <= p).
Abbreviation F := (p + w + 1).

(** A word of the format, with flags added to [fl]. *)
Definition fp_word (fl : Z) (r : Z * Z) : Prop := in_u F (fst r) /\ exists k, in_u 5 k /\ snd r = fl |' k.
Definition returns (fl : Z) (m : res (Z * Z)) : Prop := exists r, m = Done r /\ fp_word fl r.

Lemma word_same v fl : in_u F v -> fp_word fl (v, fl).
Proof. intros Hv. split; [exact Hv|]. exists 0. split; [split; [lia|reflexivity]|symmetry; apply Z.lor_0_r]. Qed.

Lemma word_flag v fl k : in_u F v -> in_u 5 k -> fp_word fl (v, fl |' k).
Proof. intros Hv Hk. split; [exact Hv|]. exists k. auto. Qed.

Lemma word_invalid v fl b : in_u F v -> fp_word fl (v, invalid_if b fl).
Proof. intros Hv. destruct b; [apply word_flag; [exact Hv|split; [discriminate|reflexivity]]|apply word_same; exact Hv]. Qed.

Lemma signed_word s m : 0 <= s <= 1 -> 0 <= m < 2 ^ (F - 1) -> in_u F (signed p w s m).
Proof using Hw Hp.
  intros Hs Hm. unfold signed. assert (2 ^ F = 2 * 2 ^ (F - 1)) as E by (rewrite <- Z.pow_succ_r by lia; f_equal; lia). split; [nia|]. rewrite E. nia.
Qed.

Lemma pack_word s e m : 0 <= s <= 1 -> 0 <= e < 2 ^ w -> in_u F (pack_sf F p s e m).
Proof using Hw Hp.
  intros Hs He. rewrite pack_signed by assumption. pow_pos p. pose proof (Z.mod_pos_bound m (2 ^ p) ltac:(lia)). apply signed_word; [exact Hs|]. assert (2 ^ (F - 1) = 2 ^ w * 2 ^ p) as -> by merge_pows. nia.
Qed.

Lemma qnan_word : in_u F (F_QNAN p w).
Proof using Hw Hp.
  unfold F_QNAN. rewrite exp_mask, Z.shiftl_1_l. pow_pos p. pow_pos w. apply lor_range; [lia| |].
  - rewrite Z.shiftl_mul_pow2 by lia. assert (2 ^ F = 2 * (2 ^ w * 2 ^ p)) as E by (change 2 with (2 ^ 1) at 2; merge_pows). split; [nia|rewrite E; nia].
  - pow_pos (p - 1). split; [lia|apply Z.pow_lt_mono_r; lia].
Qed.

Lemma ref_round_word rm s N D fl : 0 <= s <= 1 -> 0 <= N -> 0 < D -> fp_word fl (ref_round p w rm s N D fl).
Proof using Hw Hp.
  intros Hs HN HD. rewrite ref_round_unfold. cbv zeta. set (e := binade p N D). assert (0 <= e) as He by (unfold e, binade; lia). pow_pos e. pow_pos p. pow_pos w.
  assert (0 <= rnd rm s N (D * 2 ^ e)) as Hr by (pose proof (rnd_bounds rm s N (D * 2 ^ e) HN ltac:(nia)); pose proof (Z.div_pos N (D * 2 ^ e) HN ltac:(nia)); lia).
  assert (2 ^ (F - 1) = 2 ^ w * 2 ^ p) as EF by merge_pows. assert (2 ^ 5 <= 2 ^ w) as H5 by (apply Z.pow_le_mono_r; lia). change (2 ^ 5) with 32 in H5.
  set (fi := flag_if _ FFLAG_INEXACT (flag_if _ _ _)). assert (exists k, in_u 5 k /\ fi = fl |' k) as (k & Hk & Efi).
  { unfold fi, flag_if. destruct (tiny _ _ _ _ _ && _), (negb _); [exists (FFLAG_UNDERFLOW |' FFLAG_INEXACT)|exists FFLAG_UNDERFLOW|exists FFLAG_INEXACT|exists 0];
      (split; [split; [discriminate|reflexivity]|]); rewrite ?Z.lor_assoc, ?Z.lor_0_r; reflexivity. }
  unfold ref_pack. rewrite exp_mask. destruct (Z.leb_spec ((2 ^ w - 1) * 2 ^ p) (e * 2 ^ p + rnd rm s N (D * 2 ^ e))) as [C|C].
  - split; [apply signed_word; [exact Hs|rewrite EF; destruct (away rm s); nia]|]. exists (k |' (FFLAG_OVERFLOW |' FFLAG_INEXACT)). split; [apply lor_range; [lia|exact Hk|split; [discriminate|reflexivity]]|]. simpl. rewrite Efi, !Z.lor_assoc. reflexivity.
  - split; [apply signed_word; [exact Hs|rewrite EF; nia]|]. exists k. auto.
Qed.

Lemma returns_ref rm s N D fl : 0 <= s <= 1 -> 0 <= N -> 0 < D -> returns fl (Done (ref_round p w rm s N D fl)).
Proof using Hw Hp. intros. eexists. split; [reflexivity|]. apply ref_round_word; assumption. Qed.

Lemma returns_word fl r : fp_word fl r -> returns fl (Done r).
Proof. intros H. exists r. auto. Qed.

Lemma inf_exp : 0 <= EXP_MASK w < 2 ^ w.
Proof using Hw. rewrite exp_mask. pow_pos w. lia. Qed.
Lemma zero_exp : 0 <= 0 < 2 ^ w.
Proof using Hw. pow_pos w. lia. Qed.

#[local] Hint Resolve word_same word_flag word_invalid pack_word qnan_word inf_exp zero_exp returns_word : fpw.
#[local] Hint Extern 1 (in_u 5 _) => (split; [discriminate | reflexivity]) : fpw.

Ltac fp_cases := repeat match goal with |- context [if ?c then _ else _] => destruct c end; eauto 4 with fpw.

Lemma infinite_exp a : finite p w a = false -> (sf_exp p w a =? EXP_MASK w) = true.
Proof. unfold finite. apply negb_false_iff. Qed.

(** ** The operations *)

Lemma add_returns a b rm fl : in_u F a -> in_u F b -> returns fl (add_sf F p w a b rm fl).
Proof using Hw Hp.
  intros Ha Hb. destruct (finite p w a && finite p w b) eqn:Hf.
  - apply andb_true_iff in Hf as [Hfa Hfb]. rewrite add_rounds by assumption. apply returns_ref; [|lia|lia]. unfold sum_sign.
    pose proof (sign_range p w Hw Hp a Ha). destruct (_ =? 0); [destruct (_ =? _); [assumption|]|]; match goal with |- context [b2z ?x] => destruct x end; simpl; lia.
  - unfold add_sf. set (ab := if _ <? _ then (b, a) else (a, b)).
    assert (exists x y, ab = (x, y) /\ in_u F x /\ (sf_exp p w x =? EXP_MASK w) = true) as (x & y & -> & Hx & Hex).
    { unfold ab. assert (forall x y, finite p w x && finite p w y = false -> sf_exp p w y <= sf_exp p w x -> (sf_exp p w x =? EXP_MASK w) = true) as Hmax.
      { intros x y Hxy Hle. apply andb_false_iff in Hxy as [H|H]; apply infinite_exp in H; [exact H|]. apply Z.eqb_eq in H. apply Z.eqb_eq. pose proof (exp_range p w Hw Hp x). rewrite exp_mask in *. lia. }
      destruct (Z.ltb_spec (a &' Z.lnot (SIGN_MASK F)) (b &' Z.lnot (SIGN_MASK F))) as [C|C]; rewrite !magnitude in C by assumption; eexists _, _; (split; [reflexivity|]); (split; [assumption|]).
      - apply (Hmax b a); [rewrite andb_comm; exact Hf|]. apply (magnitude_order p w Hw Hp b a). lia.
      - apply (Hmax a b); [exact Hf|]. apply (magnitude_order p w Hw Hp a b). lia. }
    cbv zeta. rewrite Hex. fp_cases.
Qed.

Lemma mul_returns a b rm fl : in_u F a -> in_u F b -> returns fl (mul_sf F p w a b rm fl).
Proof using Hw Hp.
  intros Ha Hb. pose proof (lxor_sign _ _ (sign_range p w Hw Hp a Ha) (sign_range p w Hw Hp b Hb)) as Hs. destruct (finite p w a && finite p w b) eqn:Hf.
  - apply andb_true_iff in Hf as [Hfa Hfb]. rewrite mul_rounds by assumption. apply returns_ref; [exact Hs| |apply fone_pos; assumption].
    pose proof (fval_nonneg p w Hw Hp a). pose proof (fval_nonneg p w Hw Hp b). nia.
  - unfold mul_sf. cbv zeta. assert ((sf_exp p w a =? EXP_MASK w) || (sf_exp p w b =? EXP_MASK w) = true) as ->; [|fp_cases].
    apply andb_false_iff in Hf as [Hf|Hf]; apply infinite_exp in Hf; rewrite Hf; [reflexivity|apply orb_true_r].
Qed.

Lemma div_returns a b rm fl : in_u F a -> in_u F b -> returns fl (div_sf F p w a b rm fl).
Proof using Hw Hp.
  intros Ha Hb. pose proof (lxor_sign _ _ (sign_range p w Hw Hp a Ha) (sign_range p w Hw Hp b Hb)) as Hs. destruct (finite p w a && finite p w b && negb (fval p w b =? 0)) eqn:Hf.
  - apply andb_true_iff in Hf as [Hf Hz]. apply andb_true_iff in Hf as [Hfa Hfb]. apply negb_true_iff, Z.eqb_neq in Hz. rewrite div_rounds by assumption. pose proof (fval_nonneg p w Hw Hp a). pose proof (fval_nonneg p w Hw Hp b). pose proof (fone_pos p w Hw Hp).
    apply returns_ref; [exact Hs|nia|lia].
  - unfold div_sf. cbv zeta. rewrite !fval_zero by assumption. destruct (sf_exp p w a =? EXP_MASK w) eqn:Ea; [fp_cases|]. destruct (sf_exp p w b =? EXP_MASK w) eqn:Eb; [fp_cases|].
    unfold finite in Hf. rewrite Ea, Eb in Hf. simpl in Hf. apply negb_false_iff in Hf. rewrite Hf. fp_cases.
Qed.

Lemma sqrt_returns a rm fl : in_u F a -> returns fl (sqrt_sf F p w a rm fl).
Proof using Hw Hp.
  intros Ha. pose proof (sign_range p w Hw Hp a Ha) as Hs. destruct (finite p w a && (sf_sign F a =? 0)) eqn:Hf.
  - apply andb_true_iff in Hf as [Hfa Hz]. apply Z.eqb_eq in Hz. rewrite (sqrt_rounds p w Hw Hp a (p + w)) by (assumption || lia). pow_pos (p + w). apply returns_ref; [lia| |lia].
    unfold rosqrt. cbv zeta. set (n := _ * 4 ^ _). pose proof (Z.sqrt_nonneg n). destruct (_ =? 0); [assumption|]. rewrite lor_1. pose proof (Z.div_pos (Z.sqrt n) 2). lia.
  - unfold sqrt_sf. cbv zeta. destruct (sf_exp p w a =? EXP_MASK w) eqn:Ea; [fp_cases|]. unfold finite in Hf. rewrite Ea in Hf. simpl in Hf. rewrite Hf. simpl negb. cbv iota. fp_cases.
Qed.

Lemma fma_returns a b c rm fl : in_u F a -> in_u F b -> in_u F c -> returns fl (fma_sf F p w a b c rm fl).
Proof using Hw Hp.
  intros Ha Hb Hc. pose proof (lxor_sign _ _ (sign_range p w Hw Hp a Ha) (sign_range p w Hw Hp b Hb)) as Hs. pose proof (sign_range p w Hw Hp c Hc) as Hsc. destruct (finite p w a && finite p w b && finite p w c) eqn:Hf.
  - apply andb_true_iff in Hf as [Hf Hfc]. apply andb_true_iff in Hf as [Hfa Hfb]. rewrite fma_rounds by assumption. cbv zeta. apply returns_ref; [|lia|apply fone_pos; assumption].
    unfold fma_sign. cbv zeta. destruct (_ =? 0); [destruct (_ =? _); [assumption|]|]; match goal with |- context [b2z ?x] => destruct x end; simpl; lia.
  - unfold fma_sf. cbv zeta. assert ((sf_exp p w a =? EXP_MASK w) || (sf_exp p w b =? EXP_MASK w) || (sf_exp p w c =? EXP_MASK w) = true) as ->; [|fp_cases].
    apply andb_false_iff in Hf as [Hf|Hf]; [apply andb_false_iff in Hf as [Hf|Hf]|]; apply infinite_exp in Hf; rewrite Hf; rewrite ?orb_true_r; reflexivity.
Qed.

Lemma from_int_returns S a rm fl : 8 <= S ->
  (- 2 ^ (S - 1) <= a < 2 ^ (S - 1) -> returns fl (cvt_i_sf F p w S a rm fl)) /\ (in_u S a -> returns fl (cvt_u_sf F p w S a rm fl)).
Proof using Hw Hp.
  intros HS. pose proof (fone_pos p w Hw Hp). split; intros Ha.
  - unfold cvt_i_sf. rewrite internal_from_int by assumption. cbv zeta. apply returns_ref; [destruct (_ && _); simpl; lia| |lia].
    destruct (negb false && (a <? 0)) eqn:E; [|pose proof (wrapu_range S a ltac:(lia)); nia]. simpl in E. apply Z.ltb_lt in E. nia.
  - unfold cvt_u_sf. rewrite internal_from_int by (try apply wraps_range; lia). cbv zeta. simpl negb. rewrite andb_false_l. pose proof (wrapu_range S (wraps S a) ltac:(lia)). apply returns_ref; [simpl; lia|nia|lia].
Qed.

(** Comparisons and selections never stop; their flags. *)
Lemma min_word a b fl : in_u F a -> in_u F b -> fp_word fl (min_sf F p w a b fl).
Proof using Hw Hp. intros Ha Hb. unfold min_sf. cbv zeta. fp_cases. Qed.
Lemma max_word a b fl : in_u F a -> in_u F b -> fp_word fl (max_sf F p w a b fl).
Proof using Hw Hp. intros Ha Hb. unfold max_sf. cbv zeta. fp_cases. Qed.

Lemma bit_word (b : bool) : in_u F (b2z b).
Proof using Hw Hp. apply b2z_in_u. lia. Qed.

Lemma compare_word a b fl : fp_word fl (eq_quiet_sf F p w a b fl) /\ fp_word fl (le_sf F p w a b fl) /\ fp_word fl (lt_sf F p w a b fl).
Proof using Hw Hp.
  pose proof bit_word as Hb. pose proof (bit_word true) as H1. pose proof (bit_word false) as H0. simpl in H1, H0. unfold eq_quiet_sf, le_sf, lt_sf, invalid_if. cbv zeta. split; [|split]; fp_cases.
Qed.

Lemma to_int_flags_word S u a rm fl : exists k, in_u 5 k /\ snd (internal_cvt_sf_i F p w S a rm fl u) = fl |' k.
Proof.
  unfold internal_cvt_sf_i. destruct (if sf_exp p w a =? 0 then _ else _) as [e m]. cbv zeta.
  assert (exists k, in_u 5 k /\ fl = fl |' k) as Hz by (exists 0; split; [split; [discriminate|reflexivity]|symmetry; apply Z.lor_0_r]).
  repeat match goal with |- context [if ?c then _ else _] => destruct c end; simpl snd; try exact Hz; (eexists; split; [|reflexivity]; split; [discriminate|reflexivity]).
Qed.

(** ** Fields of packed words *)

Lemma pack_fields s e m : 0 <= s <= 1 -> 0 <= e < 2 ^ w -> 0 <= m < 2 ^ p ->
  sf_sign F (signed p w s (e * 2 ^ p + m)) = s /\ sf_exp p w (signed p w s (e * 2 ^ p + m)) = e /\ sf_mant p (signed p w s (e * 2 ^ p + m)) = m.
Proof using Hw Hp.
  intros Hs He Hm. pow_pos p. pow_pos w. pow_pos (F - 1). assert (2 ^ (F - 1) = 2 ^ w * 2 ^ p) as EF by merge_pows. unfold sf_sign, sf_exp, sf_mant, EXP_MASK, MANT_MASK, signed. rewrite !ones_minus, !Z.land_ones, !Z.shiftr_div_pow2 by lia.
  assert (0 <= e * 2 ^ p + m < 2 ^ (F - 1)) as Hem by (rewrite EF; nia). split; [|split].
  - symmetry. apply (Z.div_unique_pos _ _ _ (e * 2 ^ p + m)); lia.
  - assert ((s * 2 ^ (F - 1) + (e * 2 ^ p + m)) / 2 ^ p = s * 2 ^ w + e) as ->; [symmetry; apply (Z.div_unique_pos _ _ _ m); [lia|rewrite EF; ring]|]. symmetry. apply (Z.mod_unique_pos _ _ s); lia.
  - symmetry. apply (Z.mod_unique_pos _ _ (s * 2 ^ w + e)); [lia|rewrite EF; ring].
Qed.

(** Values strictly below half of the smallest subnormal all round alike. *)
Lemma ref_round_tiny rm s N D N' D' fl : 0 < 2 * N < D -> 0 < 2 * N' < D' -> ref_round p w rm s N D fl = ref_round p w rm s N' D' fl.
Proof using Hw Hp.
  intros HN HN'. rewrite !ref_round_unfold. unfold binade. rewrite !Z.div_small by lia. change (Z.log2 0) with 0. replace (Z.max 0 (0 - p)) with 0 by lia. cbv zeta. change (2 ^ 0) with 1. rewrite !Z.mul_1_r.
  rewrite (rnd_same rm s N D N' D') by (rewrite ?Z.div_small, ?Z.mod_small by lia; lia). rewrite !Z.mod_small by lia.
  assert (forall X Y, 0 < 2 * X < Y -> tiny p rm s X Y = true) as Ht.
  { intros X Y HX. unfold tiny. pow_pos p. destruct (Z.ltb_spec X (Y * 2 ^ p)); [|nia]. simpl. apply Z.ltb_lt. pose proof (rnd_bounds rm s (2 * X) Y ltac:(lia) ltac:(lia)) as Hb. rewrite Z.div_small in Hb by lia.
    assert (2 ^ 1 <= 2 ^ (p + 1)) by (apply Z.pow_le_mono_r; lia). change (2 ^ 1) with 2 in *. lia. }
  rewrite !Ht by assumption. destruct (Z.eqb_spec N 0), (Z.eqb_spec N' 0); try lia. reflexivity.
Qed.

End Total.

(** ** Conversions between the formats *)

(** A binary32 subnormal is [2^925] binary64 ones. *)
Lemma widen_exact a fl : in_u 32 a -> finite 23 8 a = true ->
  exists r, cvt_sf32_sf64 a fl = (r, fl) /\ in_u 64 r /\ finite 52 11 r = true /\ sf_sign 64 r = sf_sign 32 a /\ fval 52 11 r = fval 23 8 a * 2 ^ 925.
Proof.
  intros Ha Hf. pose proof (sign_range 23 8 ltac:(lia) ltac:(lia) a Ha) as Hs. unfold cvt_sf32_sf64. pose proof Hf as Hf'. unfold finite in Hf'. apply negb_true_iff in Hf'. change (EXP_MASK 8) with 0xff in Hf'. cbv zeta. rewrite Hf'.
  pose proof (fval_zero 23 8 ltac:(lia) ltac:(lia) a) as Hz. rewrite Hz. change (23 + 8 + 1) with 32 in Hs. set (s := sf_sign 32 a) in *. destruct (Z.eqb_spec (fval 23 8 a) 0) as [E0|E0].
  - exists (signed 52 11 s (0 * 2 ^ 52 + 0)). destruct (pack_fields 52 11 ltac:(lia) ltac:(lia) s 0 0) as (F1 & F2 & F3); [lia|split; [lia|reflexivity]|split; [lia|reflexivity]|].
    change 64 with (52 + 11 + 1). rewrite (pack_signed 52 11) by lia. split; [reflexivity|]. split; [apply signed_word; lia|].
    unfold finite. rewrite F2. split; [reflexivity|]. split; [exact F1|]. unfold fval at 1. rewrite F2, F3, Z.eqb_refl, E0, Z.mul_0_l. reflexivity.
  - destruct (operand_spec 23 8 ltac:(lia) ltac:(lia) a E0 Hf) as (e & m & Eop & Hm & He & Ev). change (23 + 8 + 1) with 32 in Eop.
    assert (exists m0, (if sf_exp 23 8 a =? 0 then normalize_subnormal_sf 32 23 (sf_mant 23 a) else (sf_exp 23 8 a, sf_mant 23 a)) = (e, m0) /\ m0 mod 2 ^ 23 = m - 2 ^ 23 /\ 0 <= m0 < 2 ^ 24) as (m0 & -> & Em0 & Hm0).
    { unfold operand in Eop. destruct (sf_exp 23 8 a =? 0); [exists m; split; [exact Eop|]; split; [symmetry; apply (Z.mod_unique_pos _ _ 1); lia|lia]|]. injection Eop as Ee Em. pose proof (mant_range 23 8 ltac:(lia) ltac:(lia) a) as Hmr.
      exists (sf_mant 23 a). split; [rewrite Ee; reflexivity|]. rewrite Z.mod_small by lia. rewrite Z.lor_comm, lor_shiftl_low in Em by lia. lia. }
    change (EXP_MASK 11 / 2) with 1023. rewrite Z.shiftl_mul_pow2 by lia. change (52 - 23) with 29. unfold u64. rewrite wrapu_small by lia.
    assert ((m0 * 2 ^ 29) mod 2 ^ 52 = (m - 2 ^ 23) * 2 ^ 29) as Emm by (change (2 ^ 52) with (2 ^ 23 * 2 ^ 29); rewrite Z.mul_mod_distr_r by lia; rewrite Em0; reflexivity).
    destruct (pack_fields 52 11 ltac:(lia) ltac:(lia) s (e - 127 + 1023) ((m - 2 ^ 23) * 2 ^ 29)) as (F1 & F2 & F3); [lia|lia|lia|].
    exists (signed 52 11 s ((e - 127 + 1023) * 2 ^ 52 + (m - 2 ^ 23) * 2 ^ 29)). split; [f_equal; change 64 with (52 + 11 + 1); rewrite (pack_signed 52 11) by lia; rewrite Emm; reflexivity|].
    split; [apply signed_word; lia|]. change (52 + 11 + 1) with 64 in F1. unfold finite. rewrite F2. change (EXP_MASK 11) with 2047. split; [apply negb_true_iff, Z.eqb_neq; lia|]. split; [exact F1|]. unfold fval at 1. rewrite F2, F3.
    destruct (Z.eqb_spec (e - 127 + 1023) 0); [lia|]. apply (Z.mul_reg_r _ _ (2 ^ 23)); [lia|]. transitivity (fval 23 8 a * 2 ^ 23 * 2 ^ 925); [|ring]. rewrite <- Ev.
    transitivity (m * (2 ^ 29 * 2 ^ (e - 127 + 1023 - 1) * 2 ^ 23)); [|transitivity (m * (2 ^ (e - 1 + 23) * 2 ^ 925)); [|ring]].
    + replace (2 ^ 52) with (2 ^ 23 * 2 ^ 29) by reflexivity. ring.
    + f_equal. merge_pows.
Qed.

Lemma narrow_rounds a rm fl : in_u 64 a -> finite 52 11 a = true ->
  cvt_sf64_sf32 a rm fl = Done (ref_round 23 8 rm (sf_sign 64 a) (fval 52 11 a) (2 ^ 925) fl).
Proof.
  intros Ha Hf. pose proof (sign_range 52 11 ltac:(lia) ltac:(lia) a Ha) as Hs. change (52 + 11 + 1) with 64 in Hs. unfold cvt_sf64_sf32. pose proof Hf as Hf'. unfold finite in Hf'. apply negb_true_iff in Hf'. cbv zeta. rewrite Hf'.
  pose proof (fval_zero 52 11 ltac:(lia) ltac:(lia) a) as Hz. rewrite Hz. set (s := sf_sign 64 a) in *. change (EXP_MASK 11 / 2) with 1023. change (52 - (32 - 2)) with 22. pow_pos 925. destruct (Z.eqb_spec (fval 52 11 a) 0) as [E0|E0].
  { rewrite E0, (ref_round_zero 23 8) by lia. change 32 with (23 + 8 + 1). rewrite (pack_signed 23 8) by lia. reflexivity. }
  assert (forall M, 0 <= M < 2 ^ 53 -> u32 (rshift_rnd 64 M 22) = ro M (2 ^ 22) /\ ro M (2 ^ 22) < 2 ^ 31) as Hsh.
  { intros M HM. change 64 with (52 + 11 + 1). rewrite (rshift_rnd_ro 52 11) by lia. assert (ro M (2 ^ 22) < 2 ^ 31) as Hlt by (change (2 ^ 31) with (2 * 2 ^ 30); apply ro_lt; lia). pose proof (ro_nonneg M (2 ^ 22) ltac:(lia) ltac:(lia)). split; [|exact Hlt]. unfold u32. apply wrapu_small. lia. }
  destruct (sf_exp 52 11 a =? 0) eqn:Ee.
  - assert (fval 52 11 a = sf_mant 52 a) as Ev by (unfold fval; rewrite Ee; reflexivity). rewrite Ev in *. pose proof (mant_range 52 11 ltac:(lia) ltac:(lia) a) as Hm. set (m := sf_mant 52 a) in *. clearbody m. destruct (Hsh m ltac:(lia)) as [-> Hlt].
    unfold normalize_subnormal_sf, clz. destruct (Z.eqb_spec m 0); [contradiction|]. simpl fst. set (E := 1 - _ - 1023 + 127). assert (E <= -895) as HE by (unfold E; assert (Z.log2 m < 52) by (apply Z.log2_lt_pow2; lia); lia).
    assert (0 < ro m (2 ^ 22)) as Hpos by (pose proof (ro_nonneg m (2 ^ 22) ltac:(lia) ltac:(lia)); pose proof (ro_zero m (2 ^ 22) ltac:(lia) ltac:(lia)) as Hro; destruct (Z.eqb_spec (ro m (2 ^ 22)) 0), (Z.eqb_spec m 0); try discriminate; lia).
    change 32 with (23 + 8 + 1). rewrite (normalize_ref 23 8 ltac:(lia) ltac:(lia) s E (ro m (2 ^ 22)) rm fl 0 (8 - E)) by lia. f_equal. rewrite Z.mul_1_r. assert (2 ^ 903 <= 2 ^ (8 - E)) by (apply Z.pow_le_mono_r; lia).
    apply ref_round_tiny; [lia|lia| |]; (split; [lia|]).
    + apply Z.lt_le_trans with (2 ^ 903); [|lia]. apply Z.lt_le_trans with (2 ^ 32); [lia|apply Z.pow_le_mono_r; lia].
    + apply Z.lt_le_trans with (2 ^ 53); [lia|apply Z.pow_le_mono_r; lia].
  - destruct (operand_spec 52 11 ltac:(lia) ltac:(lia) a E0 Hf) as (e & m & Eop & Hm & He & Ev). unfold operand in Eop. rewrite Ee in Eop. injection Eop as E1 E2. rewrite E1, E2. destruct (Hsh m ltac:(lia)) as [-> Hlt].
    change 32 with (23 + 8 + 1). apply (normalize_value 23 8 ltac:(lia) ltac:(lia) s _ m (2 ^ 22) (e - 904 + 1000) 1000); [lia|lia|lia| |right|lia|lia|lia|lia|].
    + change (2 ^ (23 + 8 + 1 - 1)) with (2 ^ 31). lia.
    + apply log2_lower; [lia|lia|]. change (2 ^ (23 + 2)) with (2 ^ 25). lia.
    + apply (Z.mul_reg_r _ _ (2 ^ 52)); [lia|]. transitivity (fval 52 11 a * 2 ^ 52 * (2 ^ 22 * 2 ^ 1000)); [ring|]. rewrite <- Ev. transitivity (m * (2 ^ (e - 1 + 52) * (2 ^ 22 * 2 ^ 1000))); [ring|].
      transitivity (m * (2 ^ (e - 904 + 1000) * 2 ^ 925 * 2 ^ 52)); [|ring]. f_equal. merge_pows.
Qed.

(** Conversions between the formats: widening a finite binary32 float is exact, and narrowing a finite
    binary64 float is correctly rounded with its flags (subnormal operands included, although the code
    discards their normalised mantissa). *)
Theorem format_conversion_correct a rm fl :
  (in_u 32 a -> finite 23 8 a = true ->
     exists r, cvt_sf32_sf64 a fl = (r, fl) /\ in_u 64 r /\ finite 52 11 r = true /\ sf_sign 64 r = sf_sign 32 a /\ fval 52 11 r = fval 23 8 a * 2 ^ 925) /\
  (in_u 64 a -> finite 52 11 a = true ->
     cvt_sf64_sf32 a rm fl = Done (ref_round 23 8 rm (sf_sign 64 a) (fval 52 11 a) (2 ^ 925) fl)).
Proof. split; [apply widen_exact|apply narrow_rounds]. Qed.

Lemma format_conversion_correct_witness :
  (exists r, cvt_sf32_sf64 1 0 = (r, 0) /\ fval 52 11 r = fval 23 8 1 * 2 ^ 925) /\ cvt_sf64_sf32 0x3ff0000010000001 RM_RNE 0 = Done (0x3f800001, 1).
Proof.
  split.
  - destruct (proj1 (format_conversion_correct 1 RM_RNE 0)) as (r & H1 & _ & _ & _ & H2); [split; [lia|reflexivity]|reflexivity|]. exists r. auto.
  - etransitivity; [apply (format_conversion_correct 0x3ff0000010000001 RM_RNE 0); [split; [lia|reflexivity]|reflexivity]|vm_compute; reflexivity].
Defined.
