(* ===== verification/SoftInst.v ===== *)
(** * The software floating point behind the instruction set

    [Exec] uses the floating-point functions through the interface [SoftFp].
    Here [Softfp] implements it, the laws of [ExecWf] are discharged, and the
    correct rounding of the operations is carried to the instructions. *)

From S2P Require Import Prelude Riscv Cutils Iomem Hostmem CpuState CpuWf Csr Trap Mmu Alu Exec ExecWf Interp Virtio VirtioSlot Machine Run Softfp SoftRound SoftArith SoftSqrt SoftCmp SoftFma SoftTotal.
From stdpp Require Import base list.
From Stdlib Require Import ZArith Lia Bool.
Local Open Scope Z_scope.
Local Open Scope bits_scope.

Definition fbits (sz : fsize) : Z := match sz with F32 => 32 | F64 => 64 end.
Definition fmant (sz : fsize) : Z := match sz with F32 => 23 | F64 => 52 end.
Definition fexp (sz : fsize) : Z := match sz with F32 => 8 | F64 => 11 end.

(** The value an operation returns; [softfp_returns] shows that there always is one. *)
Definition ran (m : res (Z * Z)) : Z * Z := match m with Done r => r | Stop _ => (0, 0) end.

(** The arguments are converted to the parameter types. *)
#[export] Instance softfp : SoftFp := {|
  Exec.add_sf sz a b rm fl := ran (Softfp.add_sf (fbits sz) (fmant sz) (fexp sz) (to_sf sz a) (to_sf sz b) rm fl);
  Exec.sub_sf sz a b rm fl := ran (Softfp.sub_sf (fbits sz) (fmant sz) (fexp sz) (to_sf sz a) (to_sf sz b) rm fl);
  Exec.mul_sf sz a b rm fl := ran (Softfp.mul_sf (fbits sz) (fmant sz) (fexp sz) (to_sf sz a) (to_sf sz b) rm fl);
  Exec.div_sf sz a b rm fl := ran (Softfp.div_sf (fbits sz) (fmant sz) (fexp sz) (to_sf sz a) (to_sf sz b) rm fl);
  Exec.sqrt_sf sz a rm fl := ran (Softfp.sqrt_sf (fbits sz) (fmant sz) (fexp sz) (to_sf sz a) rm fl);
  Exec.fma_sf sz a b c rm fl := ran (Softfp.fma_sf (fbits sz) (fmant sz) (fexp sz) (to_sf sz a) (to_sf sz b) (to_sf sz c) rm fl);
  Exec.min_sf sz a b fl := Softfp.min_sf (fbits sz) (fmant sz) (fexp sz) (to_sf sz a) (to_sf sz b) fl;
  Exec.max_sf sz a b fl := Softfp.max_sf (fbits sz) (fmant sz) (fexp sz) (to_sf sz a) (to_sf sz b) fl;
  Exec.eq_quiet_sf sz a b fl := Softfp.eq_quiet_sf (fbits sz) (fmant sz) (fexp sz) (to_sf sz a) (to_sf sz b) fl;
  Exec.le_sf sz a b fl := Softfp.le_sf (fbits sz) (fmant sz) (fexp sz) (to_sf sz a) (to_sf sz b) fl;
  Exec.lt_sf sz a b fl := Softfp.lt_sf (fbits sz) (fmant sz) (fexp sz) (to_sf sz a) (to_sf sz b) fl;
  Exec.fclass_sf sz a := Softfp.fclass_sf (fbits sz) (fmant sz) (fexp sz) (to_sf sz a);
  Exec.cvt_sf_i32 sz a rm fl := Softfp.cvt_sf_i (fbits sz) (fmant sz) (fexp sz) 32 (to_sf sz a) rm fl;
  Exec.cvt_sf_u32 sz a rm fl := Softfp.cvt_sf_u (fbits sz) (fmant sz) (fexp sz) 32 (to_sf sz a) rm fl;
  Exec.cvt_sf_i64 sz a rm fl := Softfp.cvt_sf_i (fbits sz) (fmant sz) (fexp sz) 64 (to_sf sz a) rm fl;
  Exec.cvt_sf_u64 sz a rm fl := Softfp.cvt_sf_u (fbits sz) (fmant sz) (fexp sz) 64 (to_sf sz a) rm fl;
  Exec.cvt_i32_sf sz a rm fl := ran (Softfp.cvt_i_sf (fbits sz) (fmant sz) (fexp sz) 32 (s32 a) rm fl);
  Exec.cvt_u32_sf sz a rm fl := ran (Softfp.cvt_u_sf (fbits sz) (fmant sz) (fexp sz) 32 (u32 a) rm fl);
  Exec.cvt_i64_sf sz a rm fl := ran (Softfp.cvt_i_sf (fbits sz) (fmant sz) (fexp sz) 64 (s64 a) rm fl);
  Exec.cvt_u64_sf sz a rm fl := ran (Softfp.cvt_u_sf (fbits sz) (fmant sz) (fexp sz) 64 (u64 a) rm fl);
  Exec.cvt_sf32_sf64 a fl := Softfp.cvt_sf32_sf64 (u32 a) fl;
  Exec.cvt_sf64_sf32 a rm fl := ran (Softfp.cvt_sf64_sf32 (u64 a) rm fl) |}.

Lemma format_ok sz : 5 <= fexp sz /\ fexp sz <= fmant sz /\ fbits sz = fmant sz + fexp sz + 1.
Proof. destruct sz; simpl; lia. Qed.

Lemma to_sf_word sz a : in_u (fmant sz + fexp sz + 1) (to_sf sz a).
Proof. destruct sz; simpl; [apply in_u_u32|apply in_u_u64]. Qed.

(** [m] returns a word of the format [sz]. *)
Abbreviation returns_sz sz fl m := (returns (fmant sz) (fexp sz) fl m).

(** All the operations that can stop in the code. *)
Lemma softfp_all_return sz a b c rm fl :
  let F := fbits sz in let p := fmant sz in let w := fexp sz in
  let x := to_sf sz a in let y := to_sf sz b in let z := to_sf sz c in
  returns_sz sz fl (Softfp.add_sf F p w x y rm fl) /\ returns_sz sz fl (Softfp.sub_sf F p w x y rm fl) /\ returns_sz sz fl (Softfp.mul_sf F p w x y rm fl) /\
  returns_sz sz fl (Softfp.div_sf F p w x y rm fl) /\ returns_sz sz fl (Softfp.sqrt_sf F p w x rm fl) /\ returns_sz sz fl (Softfp.fma_sf F p w x y z rm fl) /\
  returns_sz sz fl (Softfp.cvt_i_sf F p w 32 (s32 a) rm fl) /\ returns_sz sz fl (Softfp.cvt_u_sf F p w 32 (u32 a) rm fl) /\
  returns_sz sz fl (Softfp.cvt_i_sf F p w 64 (s64 a) rm fl) /\ returns_sz sz fl (Softfp.cvt_u_sf F p w 64 (u64 a) rm fl) /\
  returns_sz F32 fl (Softfp.cvt_sf64_sf32 (u64 a) rm fl).
Proof.
  cbv zeta. destruct (format_ok sz) as (Hw & Hp & ->). pose proof (to_sf_word sz a) as Ha. pose proof (to_sf_word sz b) as Hb. pose proof (to_sf_word sz c) as Hc.
  split; [apply add_returns; assumption|]. split; [apply add_returns; [assumption|assumption|assumption|apply flip_sign; assumption]|]. split; [apply mul_returns; assumption|]. split; [apply div_returns; assumption|].
  split; [apply sqrt_returns; assumption|]. split; [apply fma_returns; assumption|].
  split; [apply from_int_returns; [assumption|assumption|lia|apply (wraps_range 32); lia]|]. split; [apply from_int_returns; [assumption|assumption|lia|apply in_u_u32]|].
  split; [apply from_int_returns; [assumption|assumption|lia|apply (wraps_range 64); lia]|]. split; [apply from_int_returns; [assumption|assumption|lia|apply in_u_u64]|].
  destruct (finite 52 11 (u64 a)) eqn:Hf.
  - rewrite narrow_rounds by (assumption || apply in_u_u64). pose proof (sign_range 52 11 ltac:(lia) ltac:(lia) (u64 a) (in_u_u64 a)). apply returns_ref; [simpl; lia|simpl; lia|assumption|apply fval_nonneg; lia|pow_pos 925; assumption].
  - unfold finite in Hf. apply negb_false_iff in Hf. unfold Softfp.cvt_sf64_sf32. cbv zeta. rewrite Hf. pose proof (sign_range 52 11 ltac:(lia) ltac:(lia) (u64 a) (in_u_u64 a)) as Hs.
    destruct (negb _); (eexists; split; [reflexivity|]); [apply word_invalid, (qnan_word 23 8); lia|apply word_same, (pack_word 23 8); [lia|lia|exact Hs|lia]].
Qed.

(** C36 The floating-point functions are total: for all operands, NaNs, infinities, zeros and subnormals
    included, and every rounding mode, each function that contains an assertion or a loop returns, with a word
    of its format and only flag bits added. *)
Theorem softfp_returns sz a b c rm fl :
  let F := fbits sz in let p := fmant sz in let w := fexp sz in
  let x := to_sf sz a in let y := to_sf sz b in let z := to_sf sz c in
  returns_sz sz fl (Softfp.add_sf F p w x y rm fl) /\ returns_sz sz fl (Softfp.sub_sf F p w x y rm fl) /\ returns_sz sz fl (Softfp.mul_sf F p w x y rm fl) /\
  returns_sz sz fl (Softfp.div_sf F p w x y rm fl) /\ returns_sz sz fl (Softfp.sqrt_sf F p w x rm fl) /\ returns_sz sz fl (Softfp.fma_sf F p w x y z rm fl) /\
  returns_sz sz fl (Softfp.cvt_i_sf F p w 32 (s32 a) rm fl) /\ returns_sz sz fl (Softfp.cvt_u_sf F p w 32 (u32 a) rm fl) /\
  returns_sz sz fl (Softfp.cvt_i_sf F p w 64 (s64 a) rm fl) /\ returns_sz sz fl (Softfp.cvt_u_sf F p w 64 (u64 a) rm fl) /\
  returns_sz F32 fl (Softfp.cvt_sf64_sf32 (u64 a) rm fl).
Proof. apply softfp_all_return. Qed.

(** ** The laws of the interface *)

Lemma word_ok sz fl r : in_u 32 fl -> fp_word (fmant sz) (fexp sz) fl r -> in_u 64 (fst r) /\ in_u 32 (snd r).
Proof.
  intros Hfl [H1 (k & Hk & ->)]. split; [destruct sz; [apply in_u_32_64|]; exact H1|]. apply lor_range; [lia|exact Hfl|]. eapply in_u_mono; [|exact Hk]. lia.
Qed.

Lemma returns_ok sz f : (forall fl, returns_sz sz fl (f fl)) -> fp_op_ok (fun fl => ran (f fl)).
Proof. intros H fl Hfl. destruct (H fl) as (r & -> & Hr). exact (word_ok sz fl r Hfl Hr). Qed.

Lemma words_ok sz f : (forall fl, fp_word (fmant sz) (fexp sz) fl (f fl)) -> fp_op_ok f.
Proof. intros H fl Hfl. exact (word_ok sz fl (f fl) Hfl (H fl)). Qed.

Lemma flags_ok fl r : in_u 32 fl -> (exists k, in_u 5 k /\ snd r = fl |' k) -> in_u 32 (snd (r : Z * Z)).
Proof. intros Hfl (k & Hk & ->). apply lor_range; [lia|exact Hfl|]. eapply in_u_mono; [|exact Hk]. lia. Qed.

Lemma widen_word a fl : fp_word 52 11 fl (Softfp.cvt_sf32_sf64 (u32 a) fl).
Proof.
  pose proof (sign_range 23 8 ltac:(lia) ltac:(lia) (u32 a) (in_u_u32 a)) as Hs. destruct (finite 23 8 (u32 a)) eqn:Hf.
  - destruct (widen_exact (u32 a) fl (in_u_u32 a) Hf) as (r & -> & Hr & _). apply word_same. exact Hr.
  - unfold finite in Hf. apply negb_false_iff in Hf. change (EXP_MASK 8) with 0xff in Hf. unfold Softfp.cvt_sf32_sf64. cbv zeta. rewrite Hf. destruct (negb _); [apply word_invalid, (qnan_word 52 11); lia|apply word_same, (pack_word 52 11); [lia|lia|exact Hs|]].
    rewrite exp_mask. pow_pos 11. lia.
Qed.

#[export] Instance softfp_laws : SoftFpLaws.
Proof.
  split; intros.
  1-6: apply (returns_ok sz); intros; apply (softfp_all_return sz a b c rm fl) || apply (softfp_all_return sz a b 0 rm fl) || apply (softfp_all_return sz a 0 0 rm fl).
  1, 2: destruct (format_ok sz) as (Hw & Hp & E); apply (words_ok sz); intros; simpl; rewrite E; first [apply min_word | apply max_word]; try assumption; apply to_sf_word.
  1-3: destruct (format_ok sz) as (Hw & Hp & E); apply (words_ok sz); intros; simpl; rewrite E; apply compare_word; assumption.
  1-4: simpl; apply flags_ok with (fl := fl); [assumption|]; unfold Softfp.cvt_sf_u, Softfp.cvt_sf_i; destruct (format_ok sz) as (Hw & Hp & E); rewrite E.
  1, 3: apply to_int_flags_word.
  1, 2: match goal with |- context [internal_cvt_sf_i ?F ?p ?w ?S ?a ?rm ?fl ?u] => pose proof (to_int_flags_word p w S u a rm fl) as Hk; destruct (internal_cvt_sf_i F p w S a rm fl u); exact Hk end.
  1-4: apply (returns_ok sz); intros; apply (softfp_all_return sz a 0 0 rm fl).
  - apply (words_ok F64). intros. apply widen_word.
  - apply (returns_ok F32). intros. apply (softfp_all_return F32 a 0 0 rm fl).
Qed.

(** ** From the functions to the instructions *)

Section Instructions.
Context {D : Type} {DO : DeviceOps D} {MH : MachineHooks}.

Lemma run_fp_result rd sz f (s : System D) :
  fp_result rd sz f s = Done (Next 4, s <| cpu := write_fp_reg rd (fst (f (fflags (cpu s))) |' F_HIGH sz) ((cpu s) <| fflags := snd (f (fflags (cpu s))) |>) |>).
Proof. unfold fp_result, modify_cpu. run. unfold on_cpu. destruct (f (fflags (cpu s))). reflexivity. Qed.

(** The opcode of a fused instruction, and whether it negates the product and the addend. *)
Definition fused : list (Z * bool * bool) := [(0x43, false, false); (0x47, false, true); (0x4b, true, false); (0x4f, true, true)].

Lemma exec_fused L insn (s : System D) n1 n3 : In (insn &' 0x7f, n1, n3) fused ->
  exec L insn s = (o ← exec_fma n1 n3 ((insn >>' 7) &' 0x1f) ((insn >>' 15) &' 0x1f) ((insn >>' 20) &' 0x1f) insn; mret (o, L)) s.
Proof.
  intros Hin. unfold exec. cbv zeta. unfold fused in Hin. simpl In in Hin. repeat (destruct Hin as [Hin|Hin]; [injection Hin as E <- <-; rewrite <- E; reflexivity|]). contradiction.
Qed.

(** Negating an operand as the fused instructions do. *)
Definition negate (b : bool) (v : Z) : Z := if b then v ^' to_sf F64 (FSIGN_MASK F64) else v.

Lemma negate_spec b v : in_u 64 v -> in_u 64 (negate b v) /\ sf_sign 64 (negate b v) = Z.lxor (sf_sign 64 v) (b2z b) /\ finite 52 11 (negate b v) = finite 52 11 v /\ fval 52 11 (negate b v) = fval 52 11 v.
Proof.
  intros Hv. destruct b; simpl; [|rewrite Z.lxor_0_r; auto]. pose proof (sign_range 52 11 ltac:(lia) ltac:(lia) v Hv) as Hs. destruct (flip_sign 52 11 ltac:(lia) ltac:(lia) v Hv) as (H1 & H2 & H3 & H4).
  change (52 + 11 + 1) with 64 in *. change (u64 (1 <<' 63)) with (SIGN_MASK 64). unfold finite, fval. rewrite H2, H3, H4. split; [exact H1|]. split; [|auto].
  assert (sf_sign 64 v = 0 \/ sf_sign 64 v = 1) as [-> | ->] by lia; reflexivity.
Qed.

Lemma fma_softfp a b c rm : Exec.fma_sf F64 a b c rm = fun fl => ran (Softfp.fma_sf 64 52 11 (u64 a) (u64 b) (u64 c) rm fl).
Proof. reflexivity. Qed.

(** C21 The fused instructions [fmadd.d], [fmsub.d], [fnmsub.d] and [fnmadd.d] compute
    [(+-) rs1 * rs2 (+-) rs3] with one rounding: executed on a hart with the floating-point unit on, a valid
    rounding mode and finite operands, they write the correctly rounded exact result to [rd], accrue its flags
    in [fflags], and go to the next instruction. *)
Theorem fused_executes L insn (s : System D) n1 n3 :
  In (insn &' 0x7f, n1, n3) fused -> (insn >>' 25) &' 3 = 1 -> cpu_wf (cpu s) -> fs (cpu s) <> 0 ->
  let rm := get_insn_rm (cpu s) ((insn >>' 12) &' 7) in
  let a := read_fp_reg (cpu s) ((insn >>' 15) &' 0x1f) in
  let b := read_fp_reg (cpu s) ((insn >>' 20) &' 0x1f) in
  let c := read_fp_reg (cpu s) (insn >>' 27) in
  0 <= rm -> finite 52 11 a = true -> finite 52 11 b = true -> finite 52 11 c = true ->
  let sp := Z.lxor (Z.lxor (sf_sign 64 a) (b2z n1)) (sf_sign 64 b) in
  let sc := Z.lxor (sf_sign 64 c) (b2z n3) in
  let VP := fval 52 11 a * fval 52 11 b in
  let VC := fval 52 11 c * fone 52 11 in
  let '(v, fl) := ref_round 52 11 rm (fma_sign rm sp sc VP VC) (Z.abs (signed_of sp VP + signed_of sc VC)) (fone 52 11) (fflags (cpu s)) in
  exec L insn s = Done (Next 4, L, s <| cpu := write_fp_reg ((insn >>' 7) &' 0x1f) v ((cpu s) <| fflags := fl |>) |>).
Proof.
  intros Hin Hfmt Hwf Hfs rm a b c Hrm Hfa Hfb Hfc sp sc VP VC. rewrite exec_fused with (1 := Hin). unfold exec_fma. rewrite run_bind, run_gets.
  destruct (Z.eqb_spec (fs (cpu s)) 0); [contradiction|]. cbv zeta. rewrite Hfmt. fold rm. destruct (Z.ltb_spec rm 0); [lia|]. change (1 =? 0) with false. change (1 =? 1) with true. cbv iota. rewrite run_fp_result. fold a b c.
  assert (in_u 64 a /\ in_u 64 b /\ in_u 64 c) as (Ha & Hb & Hc) by (repeat split; apply wf_read_fp_reg; assumption).
  destruct (negate_spec n1 a Ha) as (Ha' & Sa & Fa & Va). destruct (negate_spec n3 c Hc) as (Hc' & Sc & Fc & Vc).
  change (if n1 then a ^' to_sf F64 (FSIGN_MASK F64) else a) with (negate n1 a). change (if n3 then c ^' to_sf F64 (FSIGN_MASK F64) else c) with (negate n3 c).
  rewrite fma_softfp. cbv beta. rewrite !u64_id by assumption. pose proof (fma_rounds 52 11 ltac:(lia) ltac:(lia) (negate n1 a) b (negate n3 c) rm (fflags (cpu s)) Ha' Hb Hc') as Hr. change (52 + 11 + 1) with 64 in Hr.
  rewrite Fa, Fc, Sa, Sc, Va, Vc in Hr. specialize (Hr Hfa Hfb Hfc). cbv zeta in Hr. fold sp sc VP VC in Hr. rewrite Hr. destruct (ref_round _ _ _ _ _ _ _) as [v fl]. cbn [ran fst snd]. change (F_HIGH F64) with 0. rewrite Z.lor_0_r. reflexivity.
Qed.

End Instructions.

(** ** The whole machine *)

(** C4 Executing a hart of the machine, with its CLINT, PLIC, serial ports and virtio devices and with this floating-point
    library, for any number of cycles: the execution loop never reaches the bound of the model, keeps the invariant of the
    whole machine (register ranges, x0 = 0, mstatus, delegation masks, satp mode, TLB shape, byte-valued memory, the
    registers of every device and of every other hart) on every path through fetch, execution, interrupts, triggers,
    exceptions and device accesses, and reports between 0 and [cycles] executed instructions.  It fails to return only when
    the host program stops (an assertion, an exit or undefined behaviour of an access), or, on a machine with virtio devices,
    when a device walks without end over a descriptor chain of the guest.  (The CSR hooks of an embedder, which this
    program leaves NULL, are taken at their interface [HookLaws].) *)
Theorem machine_invariant `{VE : VirtioEnv} `{MH : MachineHooks} {HL : HookLaws} n nv vm cycles s : 0 <= cycles -> machine_wf n nv vm s ->
  match @riscv_cpu_interp Board board_ops MH softfp cycles s with
  | Done (k, s') => machine_wf n nv vm s' /\ 0 <= k <= cycles
  | Stop r => host_stop r \/ (r = Endless /\ (0 < nv)%nat)
  end.
Proof.
  intros Hc [h Hs]. pose proof (board_laws vm n nv h) as HDL. pose proof (keeps_interp (DW := board_inv vm n nv h) (FP := softfp) cycles Hc s Hs) as K.
  destruct (riscv_cpu_interp cycles s) as [[k s']|r]; [|exact K]. destruct K as [K1 K2]. split; [exists h; exact K1|exact K2].
Qed.

(** [lui x1, 0x40010; sw x0, 80(x1)]: the doorbell of queue 0 of the device in slot 0. *)
Definition doorbell_code : list Z := [0x400100b7; 0x0400a823].
Definition doorbell_machine : System Board :=
  let s := with_virtio [console_slot] (demo_harts 1 100 doorbell_code) in
  s <| mem_map := mkPhysMemoryMap [clint_pr; mkPhysMemoryRange 0x40010000 4096 4096 false 0 0 0 None [] 0 (Dev_virtio 0) 7; demo_ram] |>.

Lemma doorbell_machine_wf : machine_wf 1 1 (mkVirtMachine false (-1) (-1) 100 0) doorbell_machine.
Proof.
  destruct (with_virtio_wf 1 _ [console_slot] _ (proj2 (Forall_singleton _ _) console_slot_ok) (demo_harts_wf 1 100 doorbell_code ltac:(lia))) as [h Hs].
  exists h. exact Hs.
Qed.

Lemma machine_invariant_witness :
  match @riscv_cpu_interp Board (@board_ops demo_env) no_hooks softfp 2 doorbell_machine with
  | Done (k, s') => machine_wf 1 1 (mkVirtMachine false (-1) (-1) 100 0) s' /\ 0 <= k <= 2
  | Stop r => host_stop r \/ (r = Endless /\ (0 < 1)%nat)
  end.
Proof. exact (@machine_invariant demo_env no_hooks no_hooks_laws 1 1 _ 2 doorbell_machine ltac:(lia) doorbell_machine_wf). Defined.

(** [fmadd.d f4, f1, f2, f3] on 2.0, 3.0 and 1.0. *)
Definition fmadd_sys : System unit :=
  let s := demo_code [] in
  s <| cpu := write_fp_reg 3 0x3ff0000000000000 (write_fp_reg 2 0x4008000000000000 (write_fp_reg 1 0x4000000000000000 (cpu s))) |>.

Definition fmadd_locals : Locals := mkLocals 0x80000000 0x80001000 0 0 0 10 0.

Lemma fused_executes_witness :
  @exec unit no_devices no_hooks softfp fmadd_locals 0x1a208243 fmadd_sys =
  Done (Next 4, fmadd_locals, fmadd_sys <| cpu := write_fp_reg 4 0x401c000000000000 (cpu fmadd_sys) |>).
Proof.
  pose proof (@fused_executes unit no_devices no_hooks fmadd_locals 0x1a208243 fmadd_sys false false) as H. cbv zeta in H.
  destruct (ref_round _ _ _ _ _ _ _) as [v fl] eqn:E. vm_compute in E. injection E as <- <-.
  refine (eq_trans (H _ _ _ _ _ _ _ _) _); clear H.
  1: left; reflexivity. 1: reflexivity.
  1: repeat (apply wf_write_fp_reg; [|split; [discriminate|reflexivity]]); apply demo_code_wf.
  1, 2: vm_compute; discriminate. 1-3: vm_compute; reflexivity. vm_compute. reflexivity.
Defined.
