(* ===== verification/BootRom.v ===== *)
(** * The checkpoint boot ROM ([riscv_cpu.cpp])

    [create_boot_rom] writes, into a 4 KiB ROM image, the program that restores
    a hart's state: code from the start of the ROM, data from offset 0xB00.
    The two cursors are the state of [RomM]; a store beyond the array stops. *)

From S2P Require Import Prelude Riscv Cutils Iomem Hostmem CpuState CpuWf Csr.
From stdpp Require Import base list.
From Stdlib Require Import ZArith Lia Bool.
Local Open Scope Z_scope.
Local Open Scope bits_scope.

(** ** Encoders *)

Definition create_csrrw (rs csrn : Z) : Z :=
  0x1073 |' u32 ((csrn &' 0xFFF) <<' 20) |' ((rs &' 0x1F) <<' 15).

Definition create_csrrs (rd csrn : Z) : Z :=
  0x2073 |' u32 ((csrn &' 0xFFF) <<' 20) |' ((rd &' 0x1F) <<' 7).

Definition create_auipc (rd addr : Z) : Z :=
  let addr := if tst addr 0x800 then u32 (addr + 0x800) else addr in
  0x17 |' ((rd &' 0x1F) <<' 7) |' u32 ((addr >>' 12) <<' 12).

Definition create_addi (rd addr : Z) : Z :=
  let pos := addr &' 0xFFF in
  0x13 |' ((rd &' 0x1F) <<' 7) |' ((rd &' 0x1F) <<' 15) |' u32 ((pos &' 0xFFF) <<' 20).

Definition create_seti (rd data : Z) : Z :=
  0x13 |' ((rd &' 0x1F) <<' 7) |' u32 ((data &' 0xFFF) <<' 20).

Definition create_ld (rd rs1 : Z) : Z :=
  3 |' ((rd &' 0x1F) <<' 7) |' (3 <<' 12) |' ((rs1 &' 0x1F) <<' 15).

Definition create_sd (rs1 rs2 : Z) : Z :=
  0x23 |' ((rs2 &' 0x1F) <<' 20) |' (3 <<' 12) |' ((rs1 &' 0x1F) <<' 15).

Definition create_fld (rd rs1 : Z) : Z :=
  7 |' ((rd &' 0x1F) <<' 7) |' (0x3 <<' 12) |' ((rs1 &' 0x1F) <<' 15).

(** ** The image and its cursors (indices of 32-bit words) *)

Record Rom := mkRom { rom : list Z; code_pos : Z; data_pos : Z }.

Definition ROM_WORDS : Z := ROM_SIZE / 4.

Abbreviation RomM := (SM Rom).

(** [rom[( *code_pos)++] = w]. *)
Definition emit_code (w : Z) : RomM unit := fun r =>
  if (0 <=? code_pos r) && (code_pos r <? ROM_WORDS)
  then Done (tt, mkRom (aset (rom r) (code_pos r) w) (code_pos r + 1) (data_pos r))
  else Stop UndefinedBehaviour.

(** [rom[( *data_pos)++] = w]. *)
Definition emit_data (w : Z) : RomM unit := fun r =>
  if (0 <=? data_pos r) && (data_pos r <? ROM_WORDS)
  then Done (tt, mkRom (aset (rom r) (data_pos r) w) (code_pos r) (data_pos r + 1))
  else Stop UndefinedBehaviour.

(** The two words of a 64-bit datum. *)
Definition emit_data64 (val : Z) : RomM unit :=
  _ ← emit_data (val &' 0xFFFFFFFF); emit_data (u32 (val >>' 32)).

(** [sizeof(uint32_t) * ( *data_pos - *code_pos)]. *)
Definition data_off (r : Rom) : Z := u32 (4 * (data_pos r - code_pos r)).

(** The machine fields of the checkpoint: [missing_csrs[0 .. missing_csrs_size)] and [ncpus]. *)
Record RomConfig := mkRomConfig { missing_csrs : list Z; ncpus : Z }.

Section Recovery.
Context (cfg : RomConfig).

Definition skip_csr_recovery (csrn : Z) : bool := existsb (fun m => m =? csrn) (missing_csrs cfg).

Definition create_csr12_recovery (csrn val : Z) : RomM unit :=
  if skip_csr_recovery csrn then mret tt
  else
    _ ← emit_code (create_seti 1 (u16 val &' 0xFFF));
    emit_code (create_csrrw 1 csrn).

Definition create_csr64_recovery (csrn val : Z) : RomM unit :=
  if skip_csr_recovery csrn then mret tt
  else
    off ← gets data_off;
    _ ← emit_code (create_auipc 1 off);
    _ ← emit_code (create_addi 1 off);
    _ ← emit_code (create_ld 1 1);
    _ ← emit_code (create_csrrw 1 csrn);
    emit_data64 val.

Definition create_reg_recovery (rn val : Z) : RomM unit :=
  off ← gets data_off;
  _ ← emit_code (create_auipc rn off);
  _ ← emit_code (create_addi rn off);
  _ ← emit_code (create_ld rn rn);
  emit_data64 val.

Definition create_io64_recovery (addr val : Z) : RomM unit :=
  off ← gets data_off;
  _ ← emit_code (create_auipc 1 off);
  _ ← emit_code (create_addi 1 off);
  _ ← emit_code (create_ld 1 1);
  _ ← emit_data64 addr;
  off2 ← gets data_off;
  _ ← emit_code (create_auipc 2 off2);
  _ ← emit_code (create_addi 2 off2);
  _ ← emit_code (create_ld 2 2);
  _ ← emit_code (create_sd 1 2);
  emit_data64 val.

Definition create_hang_nonzero_hart : RomM unit :=
  _ ← emit_code 0xf1402573;   (* start:  csrr   a0, mhartid *)
  _ ← emit_code 0x00050663;   (*         beqz   a0, 1f *)
  _ ← emit_code 0x10500073;   (* 0:      wfi *)
  emit_code 0xffdff06f.       (*         j      0b *)

(** [for (i = lo; i < hi; i += step) body(i)]. *)
Fixpoint for_each (l : list Z) (body : Z -> RomM unit) : RomM unit :=
  match l with
  | [] => mret tt
  | i :: l => _ ← body i; for_each l body
  end.

(** The floating-point registers. *)
Definition fp_reg_recovery (s : RISCVCPUState) (i : Z) : RomM unit :=
  off ← gets data_off;
  _ ← emit_code (create_auipc 1 off);
  _ ← emit_code (create_addi 1 off);
  _ ← emit_code (create_fld i 1);
  _ ← emit_data (u32 (aget (fp_reg s) i));
  emit_data (u32 (aget (reg s) i >>' 32)).

(** Up to the floating-point state. *)
Definition boot_prologue (s : RISCVCPUState) : RomM unit :=
  _ ← (if ncpus cfg =? 1 then create_hang_nonzero_hart else mret tt);
  _ ← create_csr64_recovery 0x7b1 (pc s);
  _ ← (if priv s =? 2 then stop (Exited (-4)) else mret tt);
  _ ← create_csr12_recovery 0x7b0 (0x600 |' priv s);
  _ ← create_csr64_recovery 0x300 (get_mstatus s (u64 (-1)));
  _ ← create_csr64_recovery 0x301 (misa s |' u64 (2 <<' 62));
  if negb (fs s =? 0) then
    _ ← create_csr12_recovery 0x001 (fflags s);
    _ ← create_csr12_recovery 0x002 (frm s);
    _ ← create_csr12_recovery 0x003 (fflags s |' (frm s <<' 5));
    for_each (seqZ 0 32) (fp_reg_recovery s)
  else mret tt.

(** The remaining CSRs. *)
Definition boot_csrs (s : RISCVCPUState) : RomM unit :=
  _ ← for_each (seqZ 3 29) (fun i =>
        _ ← create_csr12_recovery (0xb00 + i) 0;
        create_csr64_recovery (0x320 + i) (aget (mhpmevent s) i));
  _ ← create_csr64_recovery 0x7a0 (tselect s);
  _ ← create_csr64_recovery 0x302 (medeleg s);
  _ ← create_csr64_recovery 0x303 (mideleg s);
  _ ← create_csr64_recovery 0x304 (mie s);
  _ ← create_csr64_recovery 0x305 (mtvec s);
  _ ← create_csr64_recovery 0x105 (stvec s);
  _ ← create_csr12_recovery 0x320 (mcountinhibit s);
  _ ← create_csr12_recovery 0x306 (mcounteren s);
  _ ← create_csr12_recovery 0x106 (scounteren s);
  _ ← for_each (seqZ 0 16) (fun i => create_csr64_recovery (0x3B0 + i) (aget (csr_pmpaddr s) i));
  _ ← for_each [0; 2] (fun i => create_csr64_recovery (0x3A0 + i) (aget (csr_pmpcfg s) i));
  _ ← create_csr64_recovery 0x340 (mscratch s);
  _ ← create_csr64_recovery 0x341 (mepc s);
  _ ← create_csr64_recovery 0x342 (mcause s);
  _ ← create_csr64_recovery 0x343 (mtval s);
  _ ← create_csr64_recovery 0x140 (sscratch s);
  _ ← create_csr64_recovery 0x141 (sepc s);
  _ ← create_csr64_recovery 0x142 (scause s);
  _ ← create_csr64_recovery 0x143 (stval s);
  create_csr64_recovery 0x344 (mip s).

(** The integer registers, the CLINT, the counters and the jump to the checkpoint. *)
Definition boot_epilogue (s : RISCVCPUState) (clint_base_addr : Z) : RomM unit :=
  _ ← for_each (seqZ 3 29) (fun i => create_reg_recovery i (aget (reg s) i));
  _ ← create_io64_recovery (u64 (clint_base_addr + 0x4000)) (timecmp s);
  _ ← create_csr64_recovery 0xb02 (minstret s);
  _ ← create_csr64_recovery 0xb00 (mcycle s);
  _ ← create_io64_recovery (u64 (clint_base_addr + 0xbff8)) (mcycle s / RTC_FREQ_DIV);
  _ ← for_each [1; 2] (fun i => create_reg_recovery i (aget (reg s) i));
  _ ← emit_code (create_csrrw 1 0x7b2);
  _ ← create_csr64_recovery 0x180 (satp s);
  _ ← emit_code (create_csrrs 1 0x7b2);
  emit_code 0x7b200073.

Definition rom_start : Rom :=
  mkRom (replicate (Z.to_nat ROM_WORDS) 0) ((BOOT_BASE_ADDR - ROM_BASE_ADDR) / 4) (0xB00 / 4).

(** The image passed to [serialize_memory]. *)
Definition create_boot_rom (s : RISCVCPUState) (clint_base_addr : Z) : res (list Z) :=
  '(_, r) ← (_ ← boot_prologue s; _ ← boot_csrs s; boot_epilogue s clint_base_addr) rom_start;
  if (ROM_WORDS <=? data_pos r) || (data_pos rom_start <=? code_pos r)
  then Stop (Exited (-6)) else Done (rom r).

End Recovery.

(** ** The image always fits *)

Definition DATA_START : Z := 0xB00 / 4.

Lemma DATA_START_val : DATA_START = 704.
Proof. reflexivity. Qed.
Lemma ROM_WORDS_val : ROM_WORDS = 1024.
Proof. reflexivity. Qed.

(** A state of the generator: the code below the data, the data within the image. *)
Record rom_ok (r : Rom) : Prop := {
  ro_len : length (rom r) = Z.to_nat ROM_WORDS;
  ro_code : 0 <= code_pos r <= DATA_START;
  ro_data : DATA_START <= data_pos r <= ROM_WORDS }.

(** [emits c d m]: with room for [c] words of code and [d] of data, [m] succeeds, uses at most that
    room, and writes no word outside what it uses. *)
Definition emits (c d : Z) (m : RomM unit) : Prop := forall r, rom_ok r ->
  code_pos r + c <= DATA_START -> data_pos r + d <= ROM_WORDS ->
  exists r', m r = Done (tt, r') /\ rom_ok r' /\
    code_pos r <= code_pos r' <= code_pos r + c /\ data_pos r <= data_pos r' <= data_pos r + d /\
    (forall i, 0 <= i -> ~ (code_pos r <= i < code_pos r') -> ~ (data_pos r <= i < data_pos r') ->
       aget (rom r') i = aget (rom r) i).

Lemma emits_ret c d : 0 <= c -> 0 <= d -> emits c d (mret tt).
Proof. intros Hc Hd r Hr H1 H2. exists r. split; [reflexivity|]. split; [exact Hr|]. split; [lia|]. split; [lia|]. reflexivity. Qed.

Lemma emits_bind c1 d1 c2 d2 (m : RomM unit) f : emits c1 d1 m -> (forall u, emits c2 d2 (f u)) -> 0 <= c2 -> 0 <= d2 ->
  emits (c1 + c2) (d1 + d2) (m ≫= f).
Proof.
  intros Hm Hf Hc Hd r Hr H1 H2. destruct (Hm r Hr ltac:(lia) ltac:(lia)) as (r1 & E1 & W1 & C1 & D1 & F1).
  destruct (Hf tt r1 W1 ltac:(lia) ltac:(lia)) as (r2 & E2 & W2 & C2 & D2 & F2).
  exists r2. rewrite run_bind, E1. split; [exact E2|]. split; [exact W2|]. split; [lia|]. split; [lia|].
  intros i Hi Hic Hid. rewrite F2, F1 by lia. reflexivity.
Qed.

Lemma emits_gets {A} c d (g : Rom -> A) f : (forall a, emits c d (f a)) -> emits c d (gets g ≫= f).
Proof. intros Hf r. rewrite run_gets. apply Hf. Qed.

Lemma emits_weaken c d c' d' m : emits c d m -> c <= c' -> d <= d' -> emits c' d' m.
Proof.
  intros Hm Hc Hd r Hr H1 H2. destruct (Hm r Hr ltac:(lia) ltac:(lia)) as (r' & E & W & C & D & F).
  exists r'. split; [exact E|]. split; [exact W|]. split; [lia|]. split; [lia|]. exact F.
Qed.

Lemma emits_code w : emits 1 0 (emit_code w).
Proof.
  intros r [Hl Hc Hd] H1 H2. unfold emit_code. pose proof DATA_START_val as HD. pose proof ROM_WORDS_val as HR.
  destruct (Z.leb_spec 0 (code_pos r)), (Z.ltb_spec (code_pos r) ROM_WORDS); try lia. cbn [andb].
  eexists. split; [reflexivity|]. cbn [rom code_pos data_pos]. split; [|split; [lia|split; [lia|]]].
  - constructor; cbn [rom code_pos data_pos]; try lia. unfold aset. rewrite length_insert. exact Hl.
  - intros i Hi Hic _. rewrite aget_aset by lia. destruct (Z.eqb_spec (code_pos r) i); [lia|reflexivity].
Qed.

Lemma emits_data w : emits 0 1 (emit_data w).
Proof.
  intros r [Hl Hc Hd] H1 H2. unfold emit_data. pose proof DATA_START_val as HD. pose proof ROM_WORDS_val as HR.
  destruct (Z.leb_spec 0 (data_pos r)), (Z.ltb_spec (data_pos r) ROM_WORDS); try lia. cbn [andb].
  eexists. split; [reflexivity|]. cbn [rom code_pos data_pos]. split; [|split; [lia|split; [lia|]]].
  - constructor; cbn [rom code_pos data_pos]; try lia. unfold aset. rewrite length_insert. exact Hl.
  - intros i Hi _ Hid. rewrite aget_aset by lia. destruct (Z.eqb_spec (data_pos r) i); [lia|reflexivity].
Qed.

(** Add up the steps of a sequence; the bounds are given by the enclosing [emits_weaken]. *)
Ltac emit_steps := repeat first
  [ apply emits_code | apply emits_data | apply emits_gets; intros ?
  | eapply emits_bind; [| intros ? | |]
  | apply emits_ret ]; try lia.

Lemma emits_data64 v : emits 0 2 (emit_data64 v).
Proof. eapply emits_weaken; [unfold emit_data64; emit_steps|lia..]. Qed.

Section Fits.
Context (cfg : RomConfig).

Lemma emits_csr12 csrn v : emits 2 0 (create_csr12_recovery cfg csrn v).
Proof.
  unfold create_csr12_recovery. destruct (skip_csr_recovery cfg csrn); [apply emits_ret; lia|].
  eapply emits_weaken; [emit_steps|lia..].
Qed.
Lemma emits_csr64 csrn v : emits 4 2 (create_csr64_recovery cfg csrn v).
Proof.
  unfold create_csr64_recovery. destruct (skip_csr_recovery cfg csrn); [apply emits_ret; lia|].
  eapply emits_weaken; [emit_steps; apply emits_data64|lia..].
Qed.
Lemma emits_reg rn v : emits 3 2 (create_reg_recovery rn v).
Proof. eapply emits_weaken; [unfold create_reg_recovery; emit_steps; apply emits_data64|lia..]. Qed.
Lemma emits_io64 a v : emits 7 4 (create_io64_recovery a v).
Proof. eapply emits_weaken; [unfold create_io64_recovery; emit_steps; apply emits_data64|lia..]. Qed.
Lemma emits_hang : emits 4 0 create_hang_nonzero_hart.
Proof. eapply emits_weaken; [unfold create_hang_nonzero_hart; emit_steps|lia..]. Qed.
Lemma emits_fp_reg s i : emits 3 2 (fp_reg_recovery s i).
Proof. eapply emits_weaken; [unfold fp_reg_recovery; emit_steps|lia..]. Qed.

Lemma emits_for l body c d : (forall i, emits c d (body i)) -> 0 <= c -> 0 <= d ->
  emits (Z.of_nat (length l) * c) (Z.of_nat (length l) * d) (for_each l body).
Proof.
  intros Hb Hc Hd. induction l as [|i l IH]; cbn [for_each length]; [apply emits_ret; lia|].
  eapply emits_weaken; [eapply emits_bind; [apply Hb|intros _; exact IH|lia|lia]|lia..].
Qed.

(** [for (i = lo; i < lo + n; i++)]. *)
Lemma emits_loop lo n body c d : (forall i, emits c d (body i)) -> 0 <= n -> 0 <= c -> 0 <= d ->
  emits (n * c) (n * d) (for_each (seqZ lo n) body).
Proof.
  intros Hb Hn Hc Hd. rewrite <- (Z2Nat.id n) at 1 2 by lia. rewrite <- (length_seqZ lo n). apply emits_for; auto.
Qed.

Ltac recover_steps := repeat match goal with
  | |- emits _ _ (create_csr12_recovery _ _ _) => apply emits_csr12
  | |- emits _ _ (create_csr64_recovery _ _ _) => apply emits_csr64
  | |- emits _ _ (create_reg_recovery _ _) => apply emits_reg
  | |- emits _ _ (create_io64_recovery _ _) => apply emits_io64
  | |- emits _ _ (fp_reg_recovery _ _) => apply emits_fp_reg
  | |- emits _ _ (emit_code _) => apply emits_code
  | |- emits _ _ (for_each (seqZ _ _) _) => eapply emits_loop; [intros ?|..]
  | |- emits _ _ (for_each _ _) => eapply emits_for; [intros ?|..]
  | |- emits _ _ (_ ≫= _) => eapply emits_bind; [|intros _|..]
  | |- emits _ _ ((fun _ => _) _) => cbv beta
  end; cbn [length]; try lia.

Lemma emits_fp_state s : emits 102 64 (
  _ ← create_csr12_recovery cfg 0x001 (fflags s);
  _ ← create_csr12_recovery cfg 0x002 (frm s);
  _ ← create_csr12_recovery cfg 0x003 (fflags s |' (frm s <<' 5));
  for_each (seqZ 0 32) (fp_reg_recovery s)).
Proof. eapply emits_weaken; [recover_steps|cbn [length]; lia..]. Qed.

Lemma emits_prologue s : priv s <> 2 -> emits 120 70 (boot_prologue cfg s).
Proof.
  intros Hp. unfold boot_prologue. destruct (Z.eqb_spec (priv s) 2); [contradiction|].
  eapply emits_weaken; [eapply (emits_bind 4 0)|..];
    [destruct (_ =? 1); [apply emits_hang|apply emits_ret; lia]|intros _|..].
  1: eapply emits_bind; [apply emits_csr64|intros _|..].
  1: eapply emits_bind; [apply (emits_ret 0 0); lia|intros _|..].
  1: eapply emits_bind; [apply emits_csr12|intros _|..].
  1: eapply emits_bind; [apply emits_csr64|intros _|..].
  1: eapply emits_bind; [apply emits_csr64|intros _|..].
  1: destruct (negb (fs s =? 0)); [apply emits_fp_state|apply (emits_ret 102 64); lia].
  all: lia.
Qed.

Lemma emits_csrs s : emits 312 124 (boot_csrs cfg s).
Proof. unfold boot_csrs. eapply emits_weaken; [recover_steps|cbn [length]; lia..]. Qed.

Lemma emits_epilogue s clint : emits 122 76 (boot_epilogue cfg s clint).
Proof. unfold boot_epilogue. eapply emits_weaken; [recover_steps|cbn [length]; lia..]. Qed.

Lemma rom_start_ok : rom_ok rom_start.
Proof. constructor; [reflexivity|split; discriminate..]. Qed.

(** C35 The recovery program always fits: for every hart state outside the unsupported privilege 2 and every
    machine configuration, building the boot ROM neither overruns the image nor reaches its "ROM is
    too small" exit; the result is the full 4 KiB image, with at least 150 code words and 50 data words
    to spare. *)
Theorem boot_rom_fits s clint : priv s <> 2 ->
  exists r, (_ ← boot_prologue cfg s; _ ← boot_csrs cfg s; boot_epilogue cfg s clint) rom_start = Done (tt, r) /\
    create_boot_rom cfg s clint = Done (rom r) /\ length (rom r) = 1024%nat /\
    code_pos r <= 554 /\ 704 <= data_pos r <= 974.
Proof.
  intros Hp. pose proof rom_start_ok as Hs.
  assert (emits 554 270 (_ ← boot_prologue cfg s; _ ← boot_csrs cfg s; boot_epilogue cfg s clint)) as H.
  { eapply emits_weaken; [eapply emits_bind; [apply emits_prologue, Hp|intros _;
      eapply emits_bind; [apply emits_csrs|intros _; apply (emits_epilogue s clint)|lia..]|lia..]|lia..]. }
  destruct (H rom_start Hs ltac:(vm_compute; discriminate) ltac:(vm_compute; discriminate)) as (r & E & W & C & D & _). exists r. split; [exact E|].
  unfold create_boot_rom. rewrite E. cbn [mbind res_bind]. change (code_pos rom_start) with 0 in C.
  change (data_pos rom_start) with 704 in *. change ROM_WORDS with 1024.
  destruct (Z.leb_spec 1024 (data_pos r)), (Z.leb_spec 704 (code_pos r)); try lia. cbn [orb].
  split; [reflexivity|]. split; [apply (ro_len _ W)|lia].
Qed.

End Fits.

Lemma boot_rom_fits_witness :
  exists r, (_ ← boot_prologue (mkRomConfig [] 1) reset_cpu; _ ← boot_csrs (mkRomConfig [] 1) reset_cpu;
             boot_epilogue (mkRomConfig [] 1) reset_cpu 0x2000000) rom_start = Done (tt, r) /\
    create_boot_rom (mkRomConfig [] 1) reset_cpu 0x2000000 = Done (rom r) /\ length (rom r) = 1024%nat /\
    code_pos r <= 554 /\ 704 <= data_pos r <= 974.
Proof. apply (boot_rom_fits (mkRomConfig [] 1) reset_cpu 0x2000000). discriminate. Defined.
