(* ===== verification/BootExec.v ===== *)
(** * The recovery program runs as intended

    The encoders of [BootRom] against the decoder and executor of [Exec]: each
    emitted word is the instruction its name says, and the sequences that
    restore a register or a CSR read back the datum they were emitted with. *)

From S2P Require Import Prelude Riscv Cutils Iomem Hostmem CpuState CpuWf Csr Trap Mmu Tlb Alu Exec ExecWf Interp BootRom.
From stdpp Require Import base list gmap.
From Stdlib Require Import ZArith Lia Bool.
Local Open Scope Z_scope.
Local Open Scope bits_scope.

(** ** Instruction formats as sums of their fields *)

Definition itype (op rd f3 rs1 imm : Z) : Z :=
  op + 2 ^ 7 * rd + 2 ^ 12 * f3 + 2 ^ 15 * rs1 + 2 ^ 20 * imm.

Lemma itype_fields op rd f3 rs1 imm : 0 <= op < 128 -> 0 <= rd < 32 -> 0 <= f3 < 8 -> 0 <= rs1 < 32 -> 0 <= imm < 4096 ->
  let w := itype op rd f3 rs1 imm in
  w &' 0x7f = op /\ (w >>' 7) &' 0x1f = rd /\ (w >>' 12) &' 7 = f3 /\ (w >>' 15) &' 0x1f = rs1 /\ w >>' 20 = imm /\
  in_u 32 w.
Proof.
  intros H1 H2 H3 H4 H5 w. unfold w, itype.
  assert (forall x, x &' 0x7f = x mod 128) as -> by (intros; apply (Z.land_ones x 7); lia).
  assert (forall x, x &' 0x1f = x mod 32) as E5 by (intros; apply (Z.land_ones x 5); lia).
  assert (forall x, x &' 7 = x mod 8) as -> by (intros; apply (Z.land_ones x 3); lia).
  rewrite !E5, !Z.shiftr_div_pow2 by lia. unfold in_u.
  change (2 ^ 7) with 128. change (2 ^ 12) with 4096. change (2 ^ 15) with 32768. change (2 ^ 20) with 1048576.
  change (2 ^ 32) with 4294967296. repeat split; Z.to_euclidean_division_equations; lia.
Qed.

(** The signed value of a 12-bit field. *)
Definition sext12 (x : Z) : Z := if x <? 2048 then x else x - 4096.

Lemma imm_i_itype op rd f3 rs1 imm : 0 <= op < 128 -> 0 <= rd < 32 -> 0 <= f3 < 8 -> 0 <= rs1 < 32 -> 0 <= imm < 4096 ->
  imm_i (itype op rd f3 rs1 imm) = sext12 imm.
Proof.
  intros H1 H2 H3 H4 H5. unfold imm_i, s32, sext12.
  destruct (itype_fields op rd f3 rs1 imm) as (_ & _ & _ & _ & _ & Hu); auto.
  rewrite wraps_cases by (exact Hu || lia). rewrite Z.shiftr_div_pow2 by lia. unfold itype in *.
  change (2 ^ 7) with 128. change (2 ^ 12) with 4096. change (2 ^ 15) with 32768. change (2 ^ 20) with 1048576.
  change (2 ^ (32 - 1)) with 2147483648. change (2 ^ 32) with 4294967296.
  destruct (Z.ltb_spec imm 2048), (Z.ltb_spec (op + 128 * rd + 4096 * f3 + 32768 * rs1 + 1048576 * imm) 2147483648);
    Z.to_euclidean_division_equations; lia.
Qed.

Lemma land_fff x : 0 <= x &' 0xFFF < 4096.
Proof. apply (land_ones_bound x 12). lia. Qed.

(** Fields that do not overlap add up. *)
Lemma lor_field acc x n : 0 <= n -> 0 <= acc < 2 ^ n -> 0 <= x -> acc |' (x <<' n) = acc + 2 ^ n * x.
Proof. intros Hn Ha Hx. rewrite Z.lor_comm, lor_shiftl_low by lia. lia. Qed.

Lemma itype_lor op rd f3 rs1 imm : 0 <= op < 128 -> 0 <= rd < 32 -> 0 <= f3 < 8 -> 0 <= rs1 < 32 -> 0 <= imm < 4096 ->
  itype op rd f3 rs1 imm = op |' (rd <<' 7) |' (f3 <<' 12) |' (rs1 <<' 15) |' (imm <<' 20).
Proof.
  intros H1 H2 H3 H4 H5. unfold itype.
  rewrite (lor_field op rd 7), (lor_field _ f3 12), (lor_field _ rs1 15), (lor_field _ imm 20) by lia. reflexivity.
Qed.

Lemma land_mask_id x n : 0 <= n -> 0 <= x < 2 ^ n -> x &' Z.ones n = x.
Proof. intros Hn Hx. rewrite Z.land_ones by lia. apply Z.mod_small, Hx. Qed.
Lemma land_reg x : 0 <= x < 32 -> x &' 0x1F = x.
Proof. apply (land_mask_id x 5). lia. Qed.
Lemma land_csr x : 0 <= x < 4096 -> x &' 0xFFF = x.
Proof. apply (land_mask_id x 12). lia. Qed.

Ltac fields := repeat match goal with
  | |- context [?x &' 0x1F] => lazymatch goal with H : 0 <= x &' 0x1F < 32 |- _ => fail | _ => pose proof (land31_bound x) end
  | |- context [?x &' 0xFFF] => lazymatch goal with H : 0 <= x &' 0xFFF < 4096 |- _ => fail | _ => pose proof (land_fff x) end
  end; lia.

(** Unfold an encoder into its format: the low 32 bits one by one, no bit above. *)
Ltac encoder :=
  rewrite itype_lor by fields;
  apply Z.bits_inj'; let i := fresh "i" in intros i ?;
  destruct (Z.lt_ge_cases i 32);
  [ autorewrite with zbits; enum_bits i 32%nat; eval_consts; bool_atoms
  | autorewrite with zbits;
    repeat match goal with |- context [Z.testbit ?c ?j] => is_zconst c;
      first [rewrite (testbit_above 12 c j) by lia | rewrite (testbit_above 15 c j) by lia] end;
    rewrite ?(Z.leb_le 0 i) by lia; destruct (Z.ltb_spec i 32); [lia|]; rewrite ?andb_false_r; reflexivity ].

Lemma create_csrrw_itype rs csrn : create_csrrw rs csrn = itype 0x73 0 1 (rs &' 0x1F) (csrn &' 0xFFF).
Proof. unfold create_csrrw. encoder. Qed.
Lemma create_csrrs_itype rd csrn : create_csrrs rd csrn = itype 0x73 (rd &' 0x1F) 2 0 (csrn &' 0xFFF).
Proof. unfold create_csrrs. encoder. Qed.
Lemma create_addi_itype rd addr : create_addi rd addr = itype 0x13 (rd &' 0x1F) 0 (rd &' 0x1F) (addr &' 0xFFF).
Proof. unfold create_addi. encoder. Qed.
Lemma create_seti_itype rd data : create_seti rd data = itype 0x13 (rd &' 0x1F) 0 0 (data &' 0xFFF).
Proof. unfold create_seti. encoder. Qed.
Lemma create_ld_itype rd rs1 : create_ld rd rs1 = itype 0x03 (rd &' 0x1F) 3 (rs1 &' 0x1F) 0.
Proof. unfold create_ld. encoder. Qed.
Lemma create_fld_itype rd rs1 : create_fld rd rs1 = itype 0x07 (rd &' 0x1F) 3 (rs1 &' 0x1F) 0.
Proof. unfold create_fld. encoder. Qed.
Lemma create_sd_itype rs1 rs2 : create_sd rs1 rs2 = itype 0x23 0 3 (rs1 &' 0x1F) (rs2 &' 0x1F).
Proof. unfold create_sd. encoder. Qed.

(** ** What the words execute *)

(** Decide the conditions of the dispatch that are closed. *)
Ltac dispatch := repeat match goal with
  | |- context [if ?b then _ else _] =>
      let v := eval vm_compute in b in
      lazymatch v with true => idtac | false => idtac end; change b with v; cbv iota
  end.

(** The U format, and the split of an offset into [auipc] and [addi] parts. *)
Definition utype (op rd hi : Z) : Z := op + 2 ^ 7 * rd + 2 ^ 12 * hi.

Definition auipc_hi (off : Z) : Z := (if tst off 0x800 then off + 0x800 else off) / 4096.

Lemma tst_800 off : 0 <= off -> tst off 0x800 = (2048 <=? off mod 4096).
Proof.
  intros Ho. rewrite (tst_bit _ 11) by (lia || reflexivity).
  rewrite <- (Z.mod_pow2_bits_low off 12 11) by lia. change (2 ^ 12) with 4096.
  pose proof (Z.mod_pos_bound off 4096 ltac:(lia)) as Hb. set (x := off mod 4096) in *. clearbody x.
  rewrite Z.testbit_eqb by lia. change (2 ^ 11) with 2048.
  destruct (Z.leb_spec 2048 x); [apply Z.eqb_eq|apply Z.eqb_neq]; Z.to_euclidean_division_equations; lia.
Qed.

Lemma offset_split off : 0 <= off < 0x7ffff800 ->
  0 <= auipc_hi off < 2 ^ 19 /\ 4096 * auipc_hi off + sext12 (off &' 0xFFF) = off.
Proof.
  intros Ho. unfold auipc_hi, sext12. rewrite tst_800 by lia.
  assert (off &' 0xFFF = off mod 4096) as -> by (apply (Z.land_ones off 12); lia).
  change (2 ^ 19) with 524288.
  destruct (Z.leb_spec 2048 (off mod 4096)), (Z.ltb_spec (off mod 4096) 2048); Z.to_euclidean_division_equations; lia.
Qed.

Lemma create_auipc_utype rd off : 0 <= rd < 32 -> 0 <= off < 0x7ffff800 -> create_auipc rd off = utype 0x17 rd (auipc_hi off).
Proof.
  intros Hr Ho. destruct (offset_split off Ho) as [Hh _]. unfold create_auipc. cbv zeta. rewrite land_reg by exact Hr.
  assert ((if tst off 0x800 then u32 (off + 0x800) else off) >>' 12 = auipc_hi off) as ->.
  { unfold auipc_hi. rewrite Z.shiftr_div_pow2 by lia. destruct (tst off 0x800); [|reflexivity].
    rewrite u32_id by (unfold in_u; lia). reflexivity. }
  unfold utype. rewrite (lor_field 0x17 rd 7) by lia. change (2 ^ 19) with 524288 in Hh.
  rewrite u32_id by (rewrite Z.shiftl_mul_pow2 by lia; unfold in_u; lia). apply lor_field; lia.
Qed.

Lemma utype_fields op rd hi : 0 <= op < 128 -> 0 <= rd < 32 -> 0 <= hi < 2 ^ 19 ->
  let w := utype op rd hi in w &' 0x7f = op /\ (w >>' 7) &' 0x1f = rd /\ s32 (w &' 0xfffff000) = 4096 * hi.
Proof.
  intros H1 H2 H3 w. unfold w, utype.
  assert (forall x, x &' 0x7f = x mod 128) as -> by (intros; apply (Z.land_ones x 7); lia).
  assert (forall x, x &' 0x1f = x mod 32) as -> by (intros; apply (Z.land_ones x 5); lia).
  rewrite Z.shiftr_div_pow2 by lia. change (2 ^ 7) with 128. change (2 ^ 12) with 4096. change (2 ^ 19) with 524288 in *.
  repeat split; try (Z.to_euclidean_division_equations; lia).
  set (lo := op + 128 * rd). assert (0 <= lo < 4096) as Hlo by (unfold lo; lia).
  assert ((lo + 4096 * hi) &' 0xfffff000 = 4096 * hi) as ->.
  { replace (4096 * hi) with (hi <<' 12) by (rewrite Z.shiftl_mul_pow2 by lia; lia).
    rewrite Z.add_comm.
    replace ((hi <<' 12) + lo) with ((hi <<' 12) |' lo) by (rewrite lor_shiftl_low, Z.shiftl_mul_pow2 by lia; reflexivity).
    apply (bits_inj_u 32); [lia|apply land_range_r; [lia|split; [discriminate|reflexivity]]|rewrite Z.shiftl_mul_pow2 by lia; unfold in_u; lia|].
    intros i Hi. destruct (Z.lt_ge_cases i 12).
    - rewrite Z.land_spec, shiftl_spec'. rewrite (Z.testbit_neg_r hi) by lia. rewrite andb_false_r.
      enum_bits i 12%nat; eval_consts; rewrite andb_false_r; reflexivity.
    - rewrite Z.land_spec, Z.lor_spec, (testbit_above 12 lo i) by lia. rewrite orb_false_r.
      enum_bits i 32%nat; try lia; eval_consts; rewrite andb_true_r; reflexivity. }
  apply wraps_small; lia.
Qed.

Section Words.
Context {D : Type} {DO : DeviceOps D} `{MH : MachineHooks} `{FP : SoftFp}.
Implicit Types s : System D.

Lemma exec_auipc_word L rd off s : 0 <= rd < 32 -> 0 <= off < 0x7ffff800 ->
  exec L (create_auipc rd off) s =
  (_ ← wreg_nz rd (GET_PC L + 4096 * auipc_hi off); mret (Next 4, L)) s.
Proof.
  intros H1 H2. rewrite create_auipc_utype by auto.
  destruct (utype_fields 0x17 rd (auipc_hi off)) as (Hop & Hrd & Hv); try lia; [apply offset_split, H2|].
  unfold exec. cbv zeta. rewrite Hop. dispatch. rewrite Hrd, Hv. cbn [write_val]. run. reflexivity.
Qed.

Lemma exec_addi_word L rd rs1 imm s : 0 <= rd < 32 -> 0 <= rs1 < 32 -> 0 <= imm < 4096 ->
  exec L (itype 0x13 rd 0 rs1 imm) s =
  (_ ← wreg_nz rd (read_reg (cpu s) rs1 + sext12 imm); mret (Next 4, L)) s.
Proof.
  intros H1 H2 H3. destruct (itype_fields 0x13 rd 0 rs1 imm) as (Hop & Hrd & Hf3 & Hrs1 & Himm & Hu); try lia.
  unfold exec. cbv zeta. rewrite Hop. dispatch. rewrite Hrd, Hrs1, Hf3, imm_i_itype by lia.
  run. unfold op_imm. dispatch. cbn [write_val]. run. unfold wreg_nz, wreg.
  rewrite (u64_id (u64 _)) by apply in_u_u64. reflexivity.
Qed.

Lemma exec_ld_word L rd rs1 s : 0 <= rd < 32 -> 0 <= rs1 < 32 ->
  exec L (create_ld rd rs1) s =
  (o ← load W64 (u64 (read_reg (cpu s) rs1 + 0)) (fun v => _ ← wreg_nz rd (s64 v); mret (Next 4)); mret (o, L)) s.
Proof.
  intros H1 H2. rewrite create_ld_itype, !land_reg by lia.
  destruct (itype_fields 0x03 rd 3 rs1 0) as (Hop & Hrd & Hf3 & Hrs1 & Himm & Hu); try lia.
  unfold exec. cbv zeta. rewrite Hop. dispatch. rewrite Hrd, Hrs1. unfold exec_load. run.
  rewrite Hf3, imm_i_itype by lia. dispatch. reflexivity.
Qed.

Lemma exec_csrrw_word L rs csrn s : 0 <= rs < 32 -> 0 <= csrn < 4096 ->
  exec L (create_csrrw rs csrn) s = exec_csrrw L 0 csrn (read_reg (cpu s) rs) s.
Proof.
  intros H1 H2. rewrite create_csrrw_itype, land_reg, land_csr by lia.
  destruct (itype_fields 0x73 0 1 rs csrn) as (Hop & Hrd & Hf3 & Hrs1 & Himm & Hu); try lia.
  unfold exec. cbv zeta. rewrite Hop. dispatch. rewrite Hrd, Hrs1. unfold exec_system. run. rewrite Hf3, Himm. dispatch. reflexivity.
Qed.

Lemma exec_sd_word L rs1 rs2 s : 0 <= rs1 < 32 -> 0 <= rs2 < 32 ->
  exec L (create_sd rs1 rs2) s =
  (o ← store W64 (u64 (read_reg (cpu s) rs1 + 0)) (read_reg (cpu s) rs2) (mret (Next 4)); mret (o, L)) s.
Proof.
  intros H1 H2. rewrite create_sd_itype, !land_reg by lia.
  destruct (itype_fields 0x23 0 3 rs1 rs2) as (Hop & Hrd & Hf3 & Hrs1 & Himm & Hu); try lia.
  unfold exec. cbv zeta. rewrite Hop. dispatch. rewrite Hrd, Hrs1, Himm, land_reg by lia.
  unfold exec_store. run. rewrite Hf3. unfold imm_s. change (25 - 5) with 20. rewrite Himm.
  replace (rs2 &' 0xfe0) with 0; [dispatch; reflexivity|].
  symmetry. rewrite <- (land_reg rs2) by lia. rewrite <- Z.land_assoc. change (0x1F &' 0xfe0) with 0. apply Z.land_0_r.
Qed.

End Words.

(** ** Running recovery code *)

Definition advance (n : Z) (L : Locals) : Locals :=
  mkLocals (u64 (code_ptr L + n)) (code_end L) (code_to_pc_addend L) (insn_counter_addend L)
    (insn_counter_start L) (n_cycles L) (insn_executed L).

Lemma GET_PC_advance n L : GET_PC (advance n L) = u64 (GET_PC L + n).
Proof. unfold GET_PC, advance. cbn [code_ptr code_to_pc_addend]. wrap_sums. Qed.

Lemma advance_add n k L : advance k (advance n L) = advance (n + k) L.
Proof. unfold advance. cbn [code_ptr code_end code_to_pc_addend insn_counter_addend insn_counter_start n_cycles insn_executed]. f_equal. wrap_sums. Qed.

Section Run.
Context {D : Type} {DW : DevWf D} {DO : DeviceOps D} {DL : DeviceLaws D} {DF : DeviceFrame D} `{MH : MachineHooks} `{FP : SoftFp}.
Implicit Types s : System D.

(** Straight-line execution of words: every instruction must fall through. *)
Fixpoint run_words (L : Locals) (ws : list Z) : M D bool :=
  match ws with
  | [] => mret true
  | w :: ws =>
      '(o, L) ← exec L w;
      match o with
      | Next n => run_words (advance n L) ws
      | _ => mret false
      end
  end.

(** The image is in the RAM range [pr] mapped at [ROM_BASE_ADDR]. *)
Record rom_loaded (image : list Z) (pr : PhysMemoryRange) (s : System D) : Prop := {
  rl_ram : pr_is_ram pr = true;
  rl_map : forall a, ROM_BASE_ADDR <= a < ROM_BASE_ADDR + 4 * ROM_WORDS -> exists i, get_phys_mem_range (mem_map s) a = Some (i, pr);
  rl_word : forall i, 0 <= i < ROM_WORDS -> ld 4 (hmem s) (host_ptr pr (ROM_BASE_ADDR + 4 * i)) = aget image i }.

Lemma rom_loaded_same image pr s s' : hmem s' = hmem s -> mem_map s' = mem_map s -> rom_loaded image pr s -> rom_loaded image pr s'.
Proof. intros Hh Hm [H1 H2 H3]. constructor; [exact H1|rewrite Hm; exact H2|rewrite Hh; exact H3]. Qed.

(** A system whose memory accesses are physical and behave. *)
Record runs_physical (s : System D) : Prop := {
  rp_wf : sys_wf s; rp_paged : ram_paged (mem_map s);
  rp_ok : Forall ram_ok (phys_mem_range (mem_map s)); rp_coh : coherent s; rp_unpaged : unpaged s }.

Lemma on_write_reg_physical s rd v : runs_physical s -> 0 < rd -> in_u 64 v -> runs_physical (on_cpu (write_reg rd v) s).
Proof.
  intros [(H1 & H2 & Hdv) H3 H4 H5 H6] Hr Hv. constructor; auto.
  - split; [apply wf_write_reg; auto|split; [exact H2|exact Hdv]].
  - apply (coherent_view s); auto.
Qed.

Lemma target_read_physical w addr s i pr : runs_physical s -> in_u 64 addr -> misaligned w addr = false ->
  get_phys_mem_range (mem_map s) addr = Some (i, pr) -> pr_is_ram pr = true ->
  exists s', target_read w addr s = Done (Some (ld (bytes w) (hmem s) (host_ptr pr addr)), s') /\ tlb_equiv s' s /\ runs_physical s'.
Proof.
  intros [(H1 & H2 & Hdv) H3 H4 H5 H6] Ha Hal Hg Hram.
  destruct (target_read_ram w addr s i pr) as (s' & E & Q); auto. exists s'. split; [exact E|]. split; [exact Q|].
  assert (mem_map s' = mem_map s) as Em by exact (f_equal mem_map Q).
  pose proof (keeps_target_read w addr Ha s (conj H1 (conj H2 Hdv))) as K. rewrite E in K.
  constructor; rewrite ?Em; auto; [apply K|eapply target_read_coherent; eauto; apply H1|].
  assert (mstatus (cpu s') = mstatus (cpu s) /\ priv (cpu s') = priv (cpu s) /\ satp (cpu s') = satp (cpu s)) as (M1 & M2 & M3)
    by (split; [exact (f_equal (fun z => mstatus (cpu z)) Q)|split; [exact (f_equal (fun z => priv (cpu z)) Q)|exact (f_equal (fun z => satp (cpu z)) Q)]]).
  unfold unpaged, effective_priv in *. rewrite M1, M2, M3. exact H6.
Qed.

Lemma read_write_reg c rd v x : cpu_wf c -> 0 <= rd < 32 -> 0 <= x ->
  read_reg (write_reg rd v c) x = if rd =? x then v else read_reg c x.
Proof.
  intros Hc Hr Hx. unfold read_reg, write_reg. upd_simpl. apply aget_aset; try lia.
  destruct (wf_reg c Hc) as [[-> _] _]. lia.
Qed.

Lemma ld8_halves m p : ld 8 m p = ld 4 m p + 2 ^ 32 * ld 4 m (p + 4).
Proof. exact (ld_app 4 4 m p). Qed.

(** A 64-bit datum of the image. *)
Lemma rom_datum image pr s i v : rom_loaded image pr s -> runs_physical s -> 0 <= i -> i + 1 < ROM_WORDS -> i mod 2 = 0 ->
  aget image i = v &' 0xFFFFFFFF -> aget image (i + 1) = u32 (v >>' 32) -> in_u 64 v ->
  ld 8 (hmem s) (host_ptr pr (ROM_BASE_ADDR + 4 * i)) = v.
Proof.
  intros [Hr Hm Hw] Hp Hi Hi1 He E0 E1 Hv. rewrite ld8_halves.
  assert (forall k, 0 <= k < ROM_WORDS -> exists j, get_phys_mem_range (mem_map s) (ROM_BASE_ADDR + 4 * k) = Some (j, pr)) as Hk
    by (intros k ?; apply Hm; unfold ROM_BASE_ADDR; lia).
  assert (forall k, 0 <= k < ROM_WORDS -> host_ptr pr (ROM_BASE_ADDR + 4 * k) = pr_phys_mem pr + (ROM_BASE_ADDR + 4 * k - pr_addr pr)) as Hp4.
  { intros k Hk4. destruct (Hk k Hk4) as [j Hj]. apply (host_ptr_bounds _ _ _ _ W32 (rp_ok s Hp) Hj Hr).
    change (wsize W32) with 4. unfold ROM_BASE_ADDR. Z.to_euclidean_division_equations; lia. }
  assert (host_ptr pr (ROM_BASE_ADDR + 4 * i) + 4 = host_ptr pr (ROM_BASE_ADDR + 4 * (i + 1))) as -> by (rewrite !Hp4 by lia; lia).
  rewrite !Hw, E0, E1 by lia. unfold in_u in Hv.
  assert (v &' 0xFFFFFFFF = v mod 2 ^ 32) as -> by (apply (Z.land_ones v 32); lia).
  rewrite u32_id; rewrite Z.shiftr_div_pow2 by lia; [|unfold in_u; split; [apply Z.div_pos; lia|apply Z.div_lt_upper_bound; lia]].
  pose proof (Z.div_mod v (2 ^ 32)). lia.
Qed.

(** [auipc rd; addi rd, rd]: the address [off] bytes after the first word. *)
Lemma address_sequence L rd off s ws : runs_physical s -> 0 < rd < 32 -> 0 <= off < 0x7ffff800 -> in_u 64 (GET_PC L + off) ->
  exists s', run_words L (create_auipc rd off :: create_addi rd off :: ws) s = run_words (advance 8 L) ws s' /\
    runs_physical s' /\ hmem s' = hmem s /\ mem_map s' = mem_map s /\
    (forall x, 0 <= x -> read_reg (cpu s') x = if rd =? x then GET_PC L + off else read_reg (cpu s) x).
Proof.
  intros Hp Hr Ho Ha. destruct (offset_split off Ho) as [_ Hsum]. cbn [run_words].
  rewrite run_bind, exec_auipc_word by lia. unfold wreg_nz, wreg, modify_cpu.
  destruct (Z.eqb_spec rd 0); [lia|]. rewrite run_modify, run_ret.
  set (s1 := on_cpu _ s). assert (runs_physical s1) as Hp1 by (apply on_write_reg_physical; auto using in_u_u64; lia).
  rewrite run_bind, create_addi_itype, land_reg, exec_addi_word by (try apply land_fff; lia).
  unfold wreg_nz, wreg, modify_cpu. destruct (Z.eqb_spec rd 0); [lia|]. rewrite run_modify, run_ret.
  assert (u64 (read_reg (cpu s1) rd + sext12 (off &' 0xFFF)) = GET_PC L + off) as ->.
  { subst s1. cbn [cpu on_cpu upd upd_sys_cpu]. rewrite read_write_reg by (try apply Hp; lia). rewrite Z.eqb_refl.
    transitivity (u64 (GET_PC L + off)); [|apply u64_id, Ha]. rewrite <- Hsum at 3. wrap_sums. }
  rewrite advance_add. eexists. split; [reflexivity|]. split; [apply on_write_reg_physical; auto; lia|].
  split; [reflexivity|]. split; [reflexivity|]. intros x Hx. subst s1. cbn [cpu on_cpu upd upd_sys_cpu].
  rewrite !read_write_reg by (try apply wf_write_reg; try apply Hp; try apply in_u_u64; lia).
  destruct (Z.eqb_spec rd x); reflexivity.
Qed.

(** [ld rd, 0(rs)] from an aligned RAM address. *)
Lemma ld_word L rd rs s ws i pr : runs_physical s -> 0 < rd < 32 -> 0 <= rs < 32 -> let addr := read_reg (cpu s) rs in
  in_u 64 addr -> misaligned W64 addr = false ->
  get_phys_mem_range (mem_map s) addr = Some (i, pr) -> pr_is_ram pr = true ->
  exists s', run_words L (create_ld rd rs :: ws) s = run_words (advance 4 L) ws s' /\
    runs_physical s' /\ hmem s' = hmem s /\ mem_map s' = mem_map s /\
    (forall x, 0 <= x -> read_reg (cpu s') x = if rd =? x then ld 8 (hmem s) (host_ptr pr addr) else read_reg (cpu s) x).
Proof.
  intros Hp Hr Hrs addr Ha Hal Hg Hram. cbn [run_words]. rewrite run_bind, exec_ld_word by lia.
  fold addr. rewrite Z.add_0_r, u64_id by exact Ha.
  destruct (target_read_physical W64 addr s i pr) as (s3 & E3 & Q3 & P3); auto.
  unfold load. rewrite run_assoc, run_bind, E3. unfold wreg_nz, wreg, modify_cpu.
  destruct (Z.eqb_spec rd 0); [lia|]. rewrite !run_assoc, run_modify, run_bind_ret, run_ret.
  assert (u64 (s64 (ld (bytes W64) (hmem s) (host_ptr pr addr))) = ld 8 (hmem s) (host_ptr pr addr)) as ->.
  { unfold s64, u64. rewrite wrapu_wraps. apply wrapu_small. exact (ld_range 8 (hmem s) (host_ptr pr addr) (proj1 (proj2 (rp_wf _ Hp)))). }
  eexists. split; [reflexivity|].
  split; [apply on_write_reg_physical; auto; [lia|exact (ld_range 8 (hmem s) (host_ptr pr addr) (proj1 (proj2 (rp_wf _ Hp))))]|].
  split; [exact (f_equal hmem Q3)|]. split; [exact (f_equal mem_map Q3)|]. intros x Hx.
  cbn [cpu on_cpu upd upd_sys_cpu]. rewrite read_write_reg by (try apply P3; lia).
  assert (reg (cpu s3) = reg (cpu s)) as Er by exact (f_equal (fun z => reg (cpu z)) Q3). unfold read_reg. rewrite Er. reflexivity.
Qed.

(** The three-word load sequence: [rd] receives the 64-bit datum [off] bytes after the first word. *)
Lemma load_sequence L rd off s i pr ws : runs_physical s -> 0 < rd < 32 -> 0 <= off < 0x7ffff800 ->
  in_u 64 (GET_PC L + off) -> misaligned W64 (GET_PC L + off) = false ->
  get_phys_mem_range (mem_map s) (GET_PC L + off) = Some (i, pr) -> pr_is_ram pr = true ->
  exists s', run_words L (create_auipc rd off :: create_addi rd off :: create_ld rd rd :: ws) s = run_words (advance 12 L) ws s' /\
    runs_physical s' /\ hmem s' = hmem s /\ mem_map s' = mem_map s /\
    (forall x, 0 <= x -> read_reg (cpu s') x = if rd =? x then ld 8 (hmem s) (host_ptr pr (GET_PC L + off)) else read_reg (cpu s) x).
Proof.
  intros Hp Hr Ho Ha Hal Hg Hram.
  destruct (address_sequence L rd off s (create_ld rd rd :: ws) Hp Hr Ho Ha) as (s1 & E1 & P1 & H1 & M1 & R1).
  assert (read_reg (cpu s1) rd = GET_PC L + off) as Ea by (rewrite R1, Z.eqb_refl by lia; reflexivity).
  destruct (ld_word (advance 8 L) rd rd s1 ws i pr) as (s2 & E2 & P2 & H2 & M2 & R2); rewrite ?Ea, ?M1; auto; [lia|].
  exists s2. rewrite E1, E2, advance_add. split; [reflexivity|]. split; [exact P2|]. split; [congruence|]. split; [congruence|].
  intros x Hx. rewrite R2, Ea, H1, R1 by lia. destruct (rd =? x); reflexivity.
Qed.

End Run.

(** ** Restoring the registers *)

(** What [create_reg_recovery] emits: three words of code and the two halves of the datum. *)
Lemma reg_recovery_words rn v r : rom_ok r -> code_pos r + 3 <= DATA_START -> data_pos r + 2 <= ROM_WORDS ->
  let off := 4 * (data_pos r - code_pos r) in
  exists r', create_reg_recovery rn v r = Done (tt, r') /\ rom_ok r' /\
    code_pos r' = code_pos r + 3 /\ data_pos r' = data_pos r + 2 /\ 0 <= off < 4 * ROM_WORDS /\
    aget (rom r') (code_pos r) = create_auipc rn off /\ aget (rom r') (code_pos r + 1) = create_addi rn off /\
    aget (rom r') (code_pos r + 2) = create_ld rn rn /\
    aget (rom r') (data_pos r) = v &' 0xFFFFFFFF /\ aget (rom r') (data_pos r + 1) = u32 (v >>' 32) /\
    (forall i, 0 <= i -> ~ (code_pos r <= i < code_pos r') -> ~ (data_pos r <= i < data_pos r') ->
       aget (rom r') i = aget (rom r) i).
Proof.
  intros Hr Hc Hd off. destruct (emits_reg rn v r Hr Hc Hd) as (r' & E & W & C & P & F).
  destruct Hr as [Hl Hrc Hrd]. pose proof DATA_START_val as HD. pose proof ROM_WORDS_val as HR.
  assert (data_off r = off) as Eo by (unfold data_off, off; apply u32_id; unfold in_u; lia).
  exists r'. split; [exact E|]. split; [exact W|]. revert E F.
  unfold create_reg_recovery. rewrite run_gets, Eo. unfold emit_data64, emit_code, emit_data.
  destruct r as [rm cp dp]. cbn [code_pos data_pos rom] in *.
  repeat (rewrite run_bind; cbn [code_pos data_pos rom];
    match goal with |- context [if ?b then _ else _] => replace b with true by (symmetry; apply andb_true_iff; split; [apply Z.leb_le|apply Z.ltb_lt]; lia) end;
    cbn [code_pos data_pos rom]).
  match goal with |- context [if ?b then _ else _] => replace b with true by (symmetry; apply andb_true_iff; split; [apply Z.leb_le|apply Z.ltb_lt]; lia) end.
  intros [= <-]. cbn [code_pos data_pos rom]. intros F.
  split; [lia|]. split; [lia|]. split; [lia|].
  do 5 (split; [rewrite !aget_aset by (unfold aset; rewrite ?length_insert; lia);
    repeat match goal with |- context [?a =? ?b] => destruct (Z.eqb_spec a b); try lia end; reflexivity|]). exact F.
Qed.

Section Registers.
Context {D : Type} {DW : DevWf D} {DO : DeviceOps D} {DL : DeviceLaws D} {DF : DeviceFrame D} `{MH : MachineHooks} `{FP : SoftFp}.
Implicit Types s : System D.

(** The image holds what was emitted between the two states of the generator. *)
Definition holds_emitted (image : list Z) (r r' : Rom) : Prop := forall i,
  code_pos r <= i < code_pos r' \/ data_pos r <= i < data_pos r' -> aget image i = aget (rom r') i.

Definition code_words (image : list Z) (lo hi : Z) : list Z := map (aget image) (seqZ lo (hi - lo)).

Lemma code_words_cons image lo hi : lo < hi -> code_words image lo hi = aget image lo :: code_words image (lo + 1) hi.
Proof.
  intros H. unfold code_words. rewrite seqZ_cons by lia. cbn [map]. do 3 f_equal; lia.
Qed.

(** One register. *)
Lemma reg_recovery_runs rn v r r' image pr L s hi : 0 < rn < 32 -> in_u 64 v -> rom_ok r -> code_pos r + 3 <= DATA_START ->
  data_pos r + 2 <= ROM_WORDS -> data_pos r mod 2 = 0 -> create_reg_recovery rn v r = Done (tt, r') ->
  holds_emitted image r r' -> rom_loaded image pr s -> runs_physical s -> GET_PC L = ROM_BASE_ADDR + 4 * code_pos r ->
  code_pos r' <= hi ->
  exists s', run_words L (code_words image (code_pos r) hi) s = run_words (advance 12 L) (code_words image (code_pos r') hi) s' /\
    runs_physical s' /\ hmem s' = hmem s /\ mem_map s' = mem_map s /\
    (forall x, 0 <= x -> read_reg (cpu s') x = if rn =? x then v else read_reg (cpu s) x).
Proof.
  intros Hrn Hv Hr Hc Hd He E Hi Hl Hp Hpc Hhi.
  destruct (reg_recovery_words rn v r Hr Hc Hd) as (r1 & E1 & _ & C1 & D1 & O1 & W1 & W2 & W3 & W4 & W5 & _).
  rewrite E1 in E. injection E as ->. rewrite C1 in *. destruct Hr as [_ Hrc Hrd].
  pose proof DATA_START_val as HD. pose proof ROM_WORDS_val as HR.
  rewrite 3 code_words_cons by lia. rewrite !Hi by lia. rewrite <- !Z.add_assoc. change (1 + 1) with 2. change (1 + 2) with 3.
  rewrite W1, W2, W3. set (off := 4 * (data_pos r - code_pos r)) in *.
  assert (GET_PC L + off = ROM_BASE_ADDR + 4 * data_pos r) as Ea by (rewrite Hpc; unfold off; lia).
  destruct (rl_map _ _ _ Hl (ROM_BASE_ADDR + 4 * data_pos r)) as [i Hg]; [lia|].
  destruct (load_sequence L rn off s i pr (code_words image (code_pos r + 3) hi)) as (s' & R & P & H1 & H2 & H3); auto;
    rewrite ?Ea; auto; try (unfold ROM_BASE_ADDR in *; unfold in_u; lia).
  - unfold misaligned. rewrite negb_false_iff, Z.eqb_eq. change (wsize W64 - 1) with (Z.ones 3). rewrite Z.land_ones by lia.
    change (2 ^ 3) with 8. unfold ROM_BASE_ADDR. Z.to_euclidean_division_equations; lia.
  - exact (rl_ram _ _ _ Hl).
  - exists s'. split; [exact R|]. split; [exact P|]. split; [exact H1|]. split; [exact H2|]. intros x Hx. rewrite H3, Ea by lia.
    rewrite (rom_datum image pr s (data_pos r) v) by (auto; try lia; rewrite Hi by lia; assumption). reflexivity.
Qed.

(** C33 The register-recovery code is a correct program: for any registers (none of them x0) with any 64-bit
    values, executing, from the address the code is placed at, exactly the words the generator emitted
    into the ROM restores every listed register to its recorded value, leaves every other register and
    all memory alone, and falls through to the end of the code. *)
Theorem reg_recovery_restores (l : list Z) (val : Z -> Z) r image pr : forall L s,
  rom_ok r -> code_pos r + 3 * Z.of_nat (length l) <= DATA_START -> data_pos r + 2 * Z.of_nat (length l) <= ROM_WORDS ->
  data_pos r mod 2 = 0 -> Forall (fun i => 0 < i < 32 /\ in_u 64 (val i)) l ->
  exists r', for_each l (fun i => create_reg_recovery i (val i)) r = Done (tt, r') /\
    (holds_emitted image r r' -> rom_loaded image pr s -> runs_physical s -> GET_PC L = ROM_BASE_ADDR + 4 * code_pos r ->
     exists s', run_words L (code_words image (code_pos r) (code_pos r')) s = Done (true, s') /\ runs_physical s' /\ hmem s' = hmem s /\
       (forall x, 0 <= x -> read_reg (cpu s') x = if decide (x ∈ l) then val x else read_reg (cpu s) x)).
Proof.
  revert r. induction l as [|rn l IH]; intros r L s Hr Hc Hd He Hv; cbn [for_each length] in *.
  { exists r. split; [reflexivity|]. intros _ _ Hp _. exists s. unfold code_words. rewrite Z.sub_diag. split; [reflexivity|].
    split; [exact Hp|]. split; [reflexivity|]. intros x _. destruct (decide (x ∈ [])) as [Hx|]; [apply not_elem_of_nil in Hx as []|reflexivity]. }
  apply Forall_cons in Hv as [[Hrn Hvn] Hv].
  destruct (reg_recovery_words rn (val rn) r Hr ltac:(lia) ltac:(lia)) as (r1 & E1 & W1 & C1 & D1 & _).
  rewrite run_bind, E1.
  assert (emits (3 * Z.of_nat (length l)) (2 * Z.of_nat (length l)) (for_each l (fun i => create_reg_recovery i (val i)))) as Hem
    by (eapply emits_weaken; [apply (emits_for l _ 3 2); [intros i; apply emits_reg|lia..]|lia..]).
  destruct (Hem r1 W1 ltac:(lia) ltac:(lia)) as (r' & E' & W' & C' & D' & F').
  exists r'. split; [exact E'|]. intros Hi Hl Hp Hpc.
  assert (holds_emitted image r r1) as Hi1 by (intros i Hrange; rewrite Hi by lia; apply F'; destruct Hr, W1; pose proof DATA_START_val; lia).
  destruct (reg_recovery_runs rn (val rn) r r1 image pr L s (code_pos r')) as (s1 & R1 & P1 & H1 & M1 & X1); auto; try lia.
  destruct (IH r1 (advance 12 L) s1) as (r2 & E2 & K); auto; try lia; [rewrite D1; Z.to_euclidean_division_equations; lia|].
  rewrite E' in E2. injection E2 as <-.
  destruct K as (s' & R' & P' & H' & X'); auto.
  - intros i Hrange. apply Hi. lia.
  - apply (rom_loaded_same image pr s); auto.
  - rewrite GET_PC_advance, Hpc, C1. rewrite u64_id; [lia|]. destruct Hr as [_ Hrc _]. pose proof DATA_START_val. unfold in_u, ROM_BASE_ADDR. lia.
  - exists s'. rewrite R1. split; [exact R'|]. split; [exact P'|]. split; [congruence|]. intros x Hx. rewrite X', X1 by lia.
    destruct (decide (x ∈ l)) as [Hx1|Hx1], (decide (x ∈ rn :: l)) as [Hx2|Hx2], (Z.eqb_spec rn x) as [|n]; subst; try reflexivity; exfalso; rewrite elem_of_cons in Hx2; first [clear -Hx1 Hx2 n | clear -Hx1 Hx2]; intuition congruence.
Qed.

End Registers.

(** A machine-mode hart with a recovery image in its ROM. *)
Definition rom_range : PhysMemoryRange := mkPhysMemoryRange 0x10000 0x1000 0x1000 true 0 0x400000 0 None [] 0 Dev_mmio 0.

Definition rom_sys (image : list Z) : System unit :=
  mkSystem (tlb_flush_all reset_cpu) (mkVirtMachine false (-1) (-1) 0 0) (mkPhysMemoryMap [rom_range])
    (store_words 0x400000 image) tt.

Definition demo_image : Rom :=
  match create_reg_recovery 5 0x1122334455667788 rom_start with Done (_, r) => r | Stop _ => rom_start end.

Lemma rom_sys_loaded : rom_loaded (rom demo_image) rom_range (rom_sys (rom demo_image)).
Proof.
  constructor; [reflexivity| |].
  - intros a Ha. exists 0%nat. change (ROM_BASE_ADDR + 4 * ROM_WORDS) with 0x11000 in Ha. change ROM_BASE_ADDR with 0x10000 in Ha.
    apply get_phys_mem_range_Some. split; [reflexivity|]. split; [|intros [|j] q Hj Hq; [lia|destruct j; discriminate]].
    apply in_range_in; cbn; lia.
  - assert (let m := hmem (rom_sys (rom demo_image)) in let image := rom demo_image in
            forallb (fun i => ld 4 m (host_ptr rom_range (ROM_BASE_ADDR + 4 * i)) =? aget image i) (seqZ 0 1024) = true) as K
      by (vm_compute; reflexivity). cbv zeta in K.
    intros i Hi. change ROM_WORDS with 1024 in Hi. rewrite forallb_forall in K. apply Z.eqb_eq, K. apply list_elem_of_In, elem_of_seqZ. lia.
Qed.

Lemma rom_sys_physical : runs_physical (rom_sys (rom demo_image)).
Proof.
  constructor.
  - split; [apply wf_tlb_flush_all, reset_cpu_wf|]. split; [apply store_words_wf|exact I].
  - apply aligned_ram_paged. repeat constructor; cbn; lia.
  - repeat constructor; cbn; lia.
  - apply (flush_coherent (rom_sys (rom demo_image)) reset_cpu).
  - left. split; reflexivity.
Qed.

Definition rom_entry : Locals := mkLocals 0x400000 0x401000 (u64 (0x10000 - 0x400000)) 0 0 10 0.

Lemma reg_recovery_restores_witness :
  exists s', @run_words unit no_devices no_hooks null_fp rom_entry (code_words (rom demo_image) 0 3) (rom_sys (rom demo_image)) = Done (true, s') /\
    read_reg (cpu s') 5 = 0x1122334455667788.
Proof.
  destruct (@reg_recovery_restores unit no_devices_wf no_devices no_devices_laws no_devices_frame no_hooks null_fp [5] (fun _ => 0x1122334455667788) rom_start
    (rom demo_image) rom_range rom_entry (rom_sys (rom demo_image)) rom_start_ok) as (r' & E & K).
  1, 2: vm_compute; discriminate. 1: reflexivity.
  1: repeat constructor; discriminate.
  assert (r' = demo_image) as -> by (vm_compute in E; injection E as <-; vm_compute; reflexivity).
  destruct K as (s' & R & _ & _ & X).
  1: intros i _; reflexivity. 1: exact rom_sys_loaded. 1: exact rom_sys_physical. 1: reflexivity.
  exists s'. split; [exact R|]. rewrite (X 5) by lia. reflexivity.
Defined.

(** ** Twelve-bit CSR recovery *)

Lemma csr12_recovery_words cfg csrn val r : rom_ok r -> code_pos r + 2 <= DATA_START -> skip_csr_recovery cfg csrn = false ->
  create_csr12_recovery cfg csrn val r =
  Done (tt, mkRom (aset (aset (rom r) (code_pos r) (create_seti 1 (u16 val &' 0xFFF))) (code_pos r + 1) (create_csrrw 1 csrn))
              (code_pos r + 2) (data_pos r)).
Proof.
  intros [Hl Hc _] Hroom Hskip. unfold create_csr12_recovery. rewrite Hskip, run_bind. unfold emit_code.
  pose proof DATA_START_val. pose proof ROM_WORDS_val.
  do 2 (match goal with |- context [if ?b then _ else _] => replace b with true by (symmetry; apply andb_true_iff; split; [apply Z.leb_le|apply Z.ltb_lt]; cbn [code_pos]; lia) end;
    cbn [code_pos data_pos rom]). rewrite <- Z.add_assoc. reflexivity.
Qed.

Section Csr12.
Context {D : Type} {DO : DeviceOps D} `{MH : MachineHooks} `{FP : SoftFp}.
Implicit Types s : System D.

(** A CSR recovered by the two-instruction form receives the sign-extended low 12 bits of its recorded
    value: the value is restored exactly when it is below 2^11, so the 32-bit counter-enable and
    counter-inhibit CSRs that the generator recovers this way can come back changed. *)
Theorem csr12_recovery_value cfg csrn val r L s : rom_ok r -> code_pos r + 2 <= DATA_START ->
  skip_csr_recovery cfg csrn = false -> 0 <= csrn < 4096 -> in_u 32 val -> cpu_wf (cpu s) ->
  exists r' s1 v, create_csr12_recovery cfg csrn val r = Done (tt, r') /\
    exec L (aget (rom r') (code_pos r)) s = Done ((Next 4, L), s1) /\
    exec (advance 4 L) (aget (rom r') (code_pos r + 1)) s1 = exec_csrrw (advance 4 L) 0 csrn v s1 /\
    v = u64 (sext12 (val mod 4096)) /\ (v = val <-> val < 2048).
Proof.
  intros Hr Hc Hs Hn Hv Hw. rewrite (csr12_recovery_words cfg csrn val r) by auto. destruct Hr as [Hl Hrc _].
  pose proof DATA_START_val. pose proof ROM_WORDS_val.
  assert (u16 val &' 0xFFF = val mod 4096) as Ev.
  { change 0xFFF with (Z.ones 12). rewrite Z.land_ones by lia. unfold u16, wrapu. change (2 ^ 12) with 4096. change (2 ^ 16) with 65536.
    Z.to_euclidean_division_equations; lia. }
  eexists _, (on_cpu (write_reg 1 (u64 (sext12 (val mod 4096)))) s), _. split; [reflexivity|]. cbn [rom code_pos].
  rewrite !aget_aset by (unfold aset; rewrite ?length_insert; lia). rewrite Z.eqb_refl.
  destruct (Z.eqb_spec (code_pos r + 1) (code_pos r)); [lia|]. rewrite Z.eqb_refl.
  assert (0 <= val mod 4096 < 4096) as Hm by (apply Z.mod_pos_bound; lia).
  split; [|split; [rewrite exec_csrrw_word by lia; reflexivity|]].
  - rewrite create_seti_itype, Ev, land_csr by lia. change (1 &' 0x1F) with 1. rewrite exec_addi_word by lia.
    assert (read_reg (cpu s) 0 = 0) as -> by (apply (wf_reg _ Hw)). reflexivity.
  - cbn [cpu on_cpu upd upd_sys_cpu]. rewrite read_write_reg by (auto; lia). split; [reflexivity|]. cbn [Z.eqb Pos.eqb].
    unfold sext12, u64, wrapu. unfold in_u in Hv. destruct (Z.ltb_spec (val mod 4096) 2048).
    + rewrite (Z.mod_small (val mod 4096)) by lia. split; [lia|]. intros; apply Z.mod_small; lia.
    + assert (val < 2048 -> val mod 4096 = val) by (intros; apply Z.mod_small; lia).
      replace ((val mod 4096 - 4096) mod 2 ^ 64) with (val mod 4096 - 4096 + 2 ^ 64); [lia|].
      apply (Z.mod_unique_pos _ _ (-1)); lia.
Qed.

End Csr12.

Lemma csr12_recovery_value_witness : exists r' s1 v,
  create_csr12_recovery (mkRomConfig [] 1) 0x306 0x1000 rom_start = Done (tt, r') /\
  @exec unit no_devices no_hooks null_fp rom_entry (aget (rom r') 0) (rom_sys (rom demo_image)) = Done ((Next 4, rom_entry), s1) /\
  v = 0 /\ (v = 0x1000 <-> 0x1000 < 2048).
Proof.
  destruct (@csr12_recovery_value unit no_devices no_hooks null_fp (mkRomConfig [] 1) 0x306 0x1000 rom_start rom_entry
    (rom_sys (rom demo_image)) rom_start_ok) as (r' & s1 & v & E1 & E2 & _ & -> & Hiff).
  - vm_compute. discriminate.
  - reflexivity.
  - lia.
  - split; [discriminate|reflexivity].
  - apply wf_tlb_flush_all, reset_cpu_wf.
  - exists r', s1, 0. split; [exact E1|]. split; [exact E2|]. split; [reflexivity|]. split; lia.
Defined.
