(* ===== verification/FdtSpec.v ===== *)
(** * Correctness of the device tree writer

    The decoder of device tree blobs, the tree the machine means to describe,
    and the proof that the blob of [riscv_build_fdt] decodes to it. *)

From S2P Require Import Prelude Riscv Cutils Hostmem Bytes Fdt.
From Stdlib Require Import ZArith Lia Bool Ascii String.
From stdpp Require Import base list strings.
Local Open Scope Z_scope.
Local Open Scope bits_scope.
Local Open Scope list_scope.

(** ** The format: version 17, read from the specification *)

Inductive event := EBegin (name : list Z) | EProp (name data : list Z) | EEnd.

(** A big-endian word, and the bytes after it. *)
Definition be32 (l : list Z) : option (Z * list Z) :=
  match l with
  | a :: b :: c :: d :: l => Some (a * 2 ^ 24 + b * 2 ^ 16 + c * 2 ^ 8 + d, l)
  | _ => None
  end.

(** A terminated string, and the bytes after it. *)
Fixpoint cstring_of (l : list Z) : option (list Z * list Z) :=
  match l with
  | [] => None
  | c :: l => if c =? 0 then Some ([], l) else '(s, r) ← cstring_of l; Some (c :: s, r)
  end.

(** Names and values are padded to a word. *)
Definition padding (n : nat) : nat := (4 - n mod 4) mod 4.
Definition skip (n : nat) (l : list Z) : option (list Z) := if (n <=? List.length l)%nat then Some (drop n l) else None.

(** The structure block: a token stream closed by FDT_END. *)
Fixpoint decode (fuel : nat) (strings block : list Z) : option (list event) :=
  match fuel with
  | O => None
  | S fuel =>
      '(token, block) ← be32 block;
      if token =? 1 then
        '(name, block) ← cstring_of block;
        block ← skip (padding (List.length name + 1)) block;
        events ← decode fuel strings block;
        Some (EBegin name :: events)
      else if token =? 2 then events ← decode fuel strings block; Some (EEnd :: events)
      else if token =? 3 then
        '(len, block) ← be32 block;
        '(off, block) ← be32 block;
        '(name, _) ← cstring_of (drop (Z.to_nat off) strings);
        let data := take (Z.to_nat len) block in
        block ← skip (Z.to_nat len + padding (Z.to_nat len)) block;
        events ← decode fuel strings block;
        Some (EProp name data :: events)
      else if token =? 4 then decode fuel strings block
      else if token =? 9 then match block with [] => Some [] | _ => None end
      else None
  end.

(** A node has properties and then subnodes; a subtree is one balanced run of events. *)
Unset Elimination Schemes.
Inductive dnode := DNode (name : list Z) (props : list (list Z * list Z)) (children : list dnode).
Set Elimination Schemes.

Fixpoint build (stack : list (list Z * list (list Z * list Z) * list dnode)) (evs : list event) : option dnode :=
  match evs with
  | [] => None
  | EBegin n :: evs => build ((n, [], []) :: stack) evs
  | EProp n d :: evs => match stack with (nm, ps, []) :: stack => build ((nm, ps ++ [(n, d)], []) :: stack) evs | _ => None end
  | EEnd :: evs =>
      match stack with
      | [(nm, ps, cs)] => match evs with [] => Some (DNode nm ps cs) | _ => None end
      | (nm, ps, cs) :: (nm', ps', cs') :: stack => build ((nm', ps', cs' ++ [DNode nm ps cs]) :: stack) evs
      | [] => None
      end
  end.

(** The blob: header, then the structure, memory reservation and strings blocks where the header says. *)
Definition dt_decode (blob : list Z) : option dnode :=
  let word i := fst <$> be32 (drop (4 * i) blob) in
  magic ← word 0%nat; total ← word 1%nat; off_struct ← word 2%nat; off_strings ← word 3%nat; off_rsvmap ← word 4%nat;
  version ← word 5%nat; last_comp ← word 6%nat; size_strings ← word 8%nat; size_struct ← word 9%nat;
  if (magic =? 0xd00dfeed) && (total =? zlen blob) && (17 <=? version) && (last_comp <=? 17)
     && (off_struct mod 4 =? 0) && (off_rsvmap mod 8 =? 0)
     && (40 <=? off_struct) && (off_struct + size_struct <=? off_rsvmap) && (off_rsvmap + 16 <=? off_strings) && (off_strings + size_strings <=? total)
     && bool_decide (take 16 (drop (Z.to_nat off_rsvmap) blob) = replicate 16 0)
  then
    events ← decode (S (Z.to_nat size_struct)) (take (Z.to_nat size_strings) (drop (Z.to_nat off_strings) blob))
               (take (Z.to_nat size_struct) (drop (Z.to_nat off_struct) blob));
    build [] events
  else None.

(** ** The tree of the machine *)

Definition be4 (v : Z) : list Z := [(v >>' 24) &' 255; (v >>' 16) &' 255; (v >>' 8) &' 255; v &' 255].
Definition cells (l : list Z) : list Z := flat_map be4 l.
Definition cell64 (v : Z) : list Z := cells [v / 2 ^ 32; v mod 2 ^ 32].
Definition text (s : list Z) : list Z := s ++ [0].
Definition at_addr (name : string) (addr : Z) : list Z := str name ++ 64 :: hex addr.
Definition prop (name : string) (data : list Z) : list Z * list Z := (str name, data).

Definition cpu_tree (m : MachineDesc) (h : Z) : dnode :=
  DNode (at_addr "cpu" h)
    [prop "device_type" (text (str "cpu")); prop "reg" (cells [h]); prop "status" (text (str "okay")); prop "compatible" (text (str "riscv"));
     prop "riscv,isa" (text (isa_string (misa_of m h))); prop "mmu-type" (text (str "riscv,sv48")); prop "clock-frequency" (cells [2000000000])]
    [DNode (str "interrupt-controller")
       [prop "#interrupt-cells" (cells [1]); prop "interrupt-controller" []; prop "compatible" (text (str "riscv,cpu-intc"));
        prop "phandle" (cells [h + 1]); prop "linux,phandle" (cells [h + 1])] []].

(** Interrupts [i] and [j] of every hart, by the phandle of its interrupt controller. *)
Definition wired (m : MachineDesc) (i j : Z) : list Z := flat_map (fun h => cells [h + 1; i; h + 1; j]) (indices (ncpus m)).

Definition virtio_tree (m : MachineDesc) (i : Z) : dnode :=
  DNode (at_addr "virtio" (0x40010000 + i * 0x1000))
    [prop "compatible" (text (str "virtio,mmio")); prop "reg" (cell64 (0x40010000 + i * 0x1000) ++ cell64 0x1000);
     prop "interrupts-extended" (cells [ncpus m + 1; i + 1])] [].

Definition clint_tree (m : MachineDesc) : dnode :=
  DNode (at_addr "clint" (clint_base_addr m))
    [prop "compatible" (text (str "riscv,clint0")); prop "interrupts-extended" (wired m 3 7);
     prop "reg" (cell64 (clint_base_addr m) ++ cell64 (clint_size m))] [].

Definition plic_tree (m : MachineDesc) : dnode :=
  DNode (at_addr "plic" (plic_base_addr m))
    [prop "#interrupt-cells" (cells [1]); prop "interrupt-controller" []; prop "compatible" (text (str "riscv,plic0"));
     prop "riscv,ndev" (cells [31]); prop "reg" (cell64 (plic_base_addr m) ++ cell64 (plic_size m));
     prop "interrupts-extended" (wired m 9 11); prop "phandle" (cells [ncpus m + 1])] [].

Definition uart_trees : list dnode :=
  [DNode (at_addr "uart" 0x54000000)
     [prop "compatible" (text (str "sifive,uart0")); prop "reg" (cell64 0x54000000 ++ cell64 32)] [];
   DNode (at_addr "uart" 0x12002000)
     [prop "compatible" (text (str "ns16550")); prop "reg" (cell64 0x12002000 ++ cell64 0x1000);
      prop "reg-shift" (cells [2]); prop "reg-io-width" (cells [4])] []].

Definition framebuffer_tree (fb : FBDevice) : dnode :=
  DNode (at_addr "framebuffer" 0x41000000)
    [prop "compatible" (text (str "simple-framebuffer")); prop "reg" (cell64 0x41000000 ++ cell64 (fb_size fb));
     prop "width" (cells [width fb]); prop "height" (cells [height fb]); prop "stride" (cells [stride fb]);
     prop "format" (text (str "a8r8g8b8"))] [].

Definition soc_tree (m : MachineDesc) : dnode :=
  DNode (str "soc")
    [prop "#address-cells" (cells [2]); prop "#size-cells" (cells [2]);
     prop "compatible" (text (str "ucbbar,dromajo-bar-soc") ++ text (str "simple-bus")); prop "ranges" []]
    (clint_tree m :: plic_tree m :: map (virtio_tree m) (indices (virtio_count m)) ++ uart_trees
     ++ match fb_dev m with Some fb => [framebuffer_tree fb] | None => [] end).

Definition chosen_tree (cmd_line : list Z) (initrd : option (Z * Z)) : dnode :=
  DNode (str "chosen")
    (prop "bootargs" (text cmd_line)
     :: match initrd with Some (a, b) => [prop "linux,initrd-start" (cell64 a); prop "linux,initrd-end" (cell64 b)] | None => [] end) [].

Definition machine_tree (m : MachineDesc) (cmd_line : list Z) (initrd : option (Z * Z)) : dnode :=
  DNode []
    [prop "#address-cells" (cells [2]); prop "#size-cells" (cells [2]); prop "compatible" (text (str "ucbbar,dromajo-bar_dev"));
     prop "model" (text (str "ucbbar,dromajo-bare"))]
    [DNode (str "cpus") [prop "#address-cells" (cells [1]); prop "#size-cells" (cells [0]); prop "timebase-frequency" (cells [10000000])]
       (map (cpu_tree m) (indices (ncpus m)));
     DNode (at_addr "memory" (ram_base_addr m))
       [prop "device_type" (text (str "memory")); prop "reg" (cell64 (ram_base_addr m) ++ cell64 (ram_size m))] [];
     soc_tree m;
     chosen_tree cmd_line initrd].

(** ** Bytes *)

Lemma byte_eq a b : (forall i, 0 <= i < 8 -> Z.testbit a i = Z.testbit b i) -> a &' 255 = b &' 255.
Proof.
  intros H. change 255 with (Z.ones 8). apply Z.bits_inj'. intros i Hi. rewrite !Z.land_spec, Z.testbit_ones_nonneg by lia.
  destruct (Z.ltb_spec i 8); [rewrite H by lia|rewrite !andb_false_r]; reflexivity.
Qed.

Lemma mem32_be32 v : mem32 (cpu_to_be32 (u32 v)) = be4 v.
Proof.
  assert (forall a b c d a' b' c' d' : Z, a = a' -> b = b' -> c = c' -> d = d' -> [a; b; c; d] = [a'; b'; c'; d']) as H4 by (intros; subst; reflexivity).
  unfold mem32, be4, cpu_to_be32, bswap_32, u32. apply H4; apply byte_eq; intros i Hi;
    assert (i = 0 \/ i = 1 \/ i = 2 \/ i = 3 \/ i = 4 \/ i = 5 \/ i = 6 \/ i = 7) as Hc by lia;
    repeat destruct Hc as [->|Hc]; subst;
    repeat (rewrite ?Z.lor_spec, ?Z.land_spec, ?Z.shiftr_spec, ?Z.shiftl_spec, ?wrapu_spec by lia); simpl;
    rewrite ?andb_false_r, ?andb_true_r, ?orb_false_r, ?orb_false_l; reflexivity.
Qed.

Lemma be32_be4 v l : in_u 32 v -> be32 (be4 v ++ l) = Some (v, l).
Proof.
  intros Hv. unfold be4, be32. cbn [app]. do 2 f_equal. change 255 with (Z.ones 8). rewrite !Z.land_ones, !Z.shiftr_div_pow2 by lia.
  unfold in_u in Hv. Z.to_euclidean_division_equations. lia.
Qed.

Lemma cstring_of_app s r : cstring s -> cstring_of (s ++ 0 :: r) = Some (s, r).
Proof. induction 1 as [|c s Hc Hs IH]; [reflexivity|]. cbn [app cstring_of]. destruct (Z.eqb_spec c 0); [contradiction|]. rewrite IH. reflexivity. Qed.

Lemma padding_mask n : Z.to_nat ((- Z.of_nat n) &' 3) = padding n.
Proof.
  unfold padding. change 3 with (Z.ones 2). rewrite Z.land_ones by lia. apply Nat2Z.inj. rewrite Z2Nat.id by (apply Z.mod_pos_bound; lia).
  assert (Z.of_nat (n mod 4) = Z.of_nat n mod 4) as Hm by (rewrite Nat2Z.inj_mod; reflexivity).
  pose proof (Nat.mod_upper_bound n 4 ltac:(lia)). rewrite Nat2Z.inj_mod, Nat2Z.inj_sub, Hm by lia. change (2 ^ 2) with 4. change (Z.of_nat 4) with 4.
  Z.to_euclidean_division_equations. lia.
Qed.

Lemma padding_words n : Z.of_nat (n + padding n) = 4 * Z.quot (Z.of_nat n + 3) 4.
Proof.
  rewrite Nat2Z.inj_add, <- padding_mask. change 3 with (Z.ones 2) at 1. rewrite Z.land_ones by lia. rewrite Z2Nat.id by (apply Z.mod_pos_bound; lia).
  rewrite Z.quot_div_nonneg by lia. change (2 ^ 2) with 4. Z.to_euclidean_division_equations. lia.
Qed.

(** ** The writer emits events *)

(** The string table: the names in order, each terminated. *)
Definition table_of (names : list (list Z)) : list Z := flat_map text names.

(** The encoding of an event against the names of a table. *)
Definition piece (names : list (list Z)) (e : event) (p : list Z) : Prop :=
  match e with
  | EBegin n => cstring n /\ p = be4 1 ++ text n ++ replicate (padding (List.length (text n))) 0
  | EEnd => p = be4 2
  | EProp n d => exists before after, names = before ++ n :: after /\
      p = be4 3 ++ be4 (zlen d) ++ be4 (zlen (table_of before)) ++ d ++ replicate (padding (List.length d)) 0
  end.

Definition encodes (names : list (list Z)) (evs : list event) (bytes : list Z) : Prop :=
  exists ps, Forall2 (piece names) evs ps /\ bytes = List.concat ps.

Definition depth_of (e : event) : Z := match e with EBegin _ => 1 | EEnd => -1 | EProp _ _ => 0 end.
Definition depth (evs : list event) : Z := fold_right (fun e d => depth_of e + d) 0 evs.

Definition prop_names (evs : list event) : list (list Z) := omap (fun e => match e with EProp n _ => Some n | _ => None end) evs.

(** The state after the events [evs], with the property names [names] in the table. *)
Record holds (s : FDTState) (names : list (list Z)) (evs : list event) : Prop := mk_holds {
  h_strings : string_table s = table_of names;
  h_cstrings : Forall cstring names;
  h_nodup : NoDup names;
  h_used : names ⊆ prop_names evs;
  h_tab : encodes names evs (tab s);
  h_len : zlen (tab s) = 4 * tab_len s;
  h_slen : string_table_len s = zlen (string_table s);
  h_depth : open_node_count s = depth evs }.

Definition emits (m : FM unit) (evs : list event) : Prop := forall s names es, holds s names es ->
  exists s' names', m s = Done (tt, s') /\ holds s' names' (es ++ evs).

(** Only the structure block has grown, by the bytes [b]. *)
Definition appended (s : FDTState) (b : list Z) (s' : FDTState) : Prop :=
  tab s' = tab s ++ b /\ 4 * tab_len s' = 4 * tab_len s + zlen b /\ open_node_count s' = open_node_count s /\
  string_table s' = string_table s /\ string_table_len s' = string_table_len s.

Definition appends (m : FM unit) (b : list Z) : Prop := forall s, exists s', m s = Done (tt, s') /\ appended s b s'.

Lemma grow_enough len size : len <= grow len size.
Proof. unfold grow, max_int. destruct (Z.gtb_spec len (Z.quot (s32 (size * 3)) 2)); lia. Qed.

Lemma store_appends s b words : zlen b = 4 * words -> exists s', (_ ← fdt_alloc_len (tab_len s + words); tab_store b words) s = Done (tt, s') /\ appended s b s'.
Proof.
  intros Hb. unfold fdt_alloc_len. rewrite run_modify. unfold tab_store. pose proof (grow_enough (tab_len s + words) (tab_size s)).
  destruct (Z.gtb_spec (tab_len s + words) (tab_size s)); cbn [tab_len tab_size upd upd_tab_size tab open_node_count string_table string_table_len].
  - destruct (Z.leb_spec (tab_len s + words) (grow (tab_len s + words) (tab_size s))); [|lia]. eexists. split; [reflexivity|]. unfold appended. cbn. repeat split. lia.
  - destruct (Z.leb_spec (tab_len s + words) (tab_size s)); [|lia]. eexists. split; [reflexivity|]. unfold appended. cbn. repeat split. lia.
Qed.

Lemma put32_appends v : appends (fdt_put32 v) (be4 v).
Proof. intros s. unfold fdt_put32. rewrite run_gets. unfold id. rewrite mem32_be32. apply store_appends. reflexivity. Qed.

Lemma put_data_appends d : appends (fdt_put_data d) (d ++ replicate (padding (List.length d)) 0).
Proof.
  intros s. unfold fdt_put_data. cbv zeta. rewrite run_gets. unfold id, zlen. rewrite padding_mask. apply store_appends.
  rewrite zlen_app. unfold zlen. rewrite length_replicate, <- Nat2Z.inj_add. apply padding_words.
Qed.

Lemma appends_bind m1 b1 m2 b2 : appends m1 b1 -> appends m2 b2 -> appends (_ ← m1; m2) (b1 ++ b2).
Proof.
  intros H1 H2 s. destruct (H1 s) as (s1 & E1 & A1 & B1 & C1 & D1 & F1). destruct (H2 s1) as (s2 & E2 & A2 & B2 & C2 & D2 & F2).
  exists s2. rewrite run_bind, E1. split; [exact E2|]. unfold appended. rewrite A2, A1, app_assoc, zlen_app. repeat split; try lia; congruence.
Qed.

Lemma put_words_appends l : appends (put_words l) (cells l).
Proof.
  induction l as [|v l IH]; cbn [put_words cells flat_map].
  - intros s. exists s. split; [reflexivity|]. unfold appended. rewrite app_nil_r. change (zlen []) with 0. repeat split. lia.
  - apply appends_bind; [apply put32_appends|exact IH].
Qed.

Lemma table_of_app a b : table_of (a ++ b) = table_of a ++ table_of b.
Proof. apply flat_map_app. Qed.

(** The search finds the name's entry, or there is none. *)
Lemma string_search_spec names name : Forall cstring names -> forall fuel before rest, names = before ++ rest -> name ∉ before -> (List.length (table_of rest) < fuel)%nat ->
  match string_search fuel (table_of names) (zlen (table_of names)) (zlen (table_of before)) name with
  | Some pos => exists b a, names = b ++ name :: a /\ pos = zlen (table_of b)
  | None => name ∉ names
  end.
Proof.
  intros Hc fuel. induction fuel as [|fuel IH]; intros before rest E Hb Hf; [lia|]. cbn [string_search].
  assert (zlen (table_of names) = zlen (table_of before) + zlen (table_of rest)) as El by (rewrite E, table_of_app, zlen_app; reflexivity).
  assert (drop (Z.to_nat (zlen (table_of before))) (table_of names) = table_of rest) as -> by (rewrite E, table_of_app; unfold zlen; rewrite Nat2Z.id; apply drop_app_length).
  destruct rest as [|n rest].
  - change (zlen (table_of [])) with 0 in El. destruct (Z.ltb_spec (zlen (table_of before)) (zlen (table_of names))); [lia|].
    rewrite E, app_nil_r. exact Hb.
  - assert (table_of (n :: rest) = n ++ 0 :: table_of rest) as Et by (cbn; unfold text; rewrite <- app_assoc; reflexivity). rewrite Et in Hf, El |- *.
    rewrite length_app in Hf. cbn [List.length] in Hf.
    destruct (Z.ltb_spec (zlen (table_of before)) (zlen (table_of names))) as [_|Hbad];
      [|exfalso; rewrite El in Hbad; unfold zlen in Hbad; rewrite length_app in Hbad; cbn [List.length] in Hbad; lia].
    assert (cstring n) as Hn by (rewrite E in Hc; apply Forall_app in Hc as [_ Hc]; inversion Hc; assumption).
    rewrite cstr_app by exact Hn. case_bool_decide as Hd.
    + subst n. exists before, rest. auto.
    + assert (zlen (table_of before) + zlen n + 1 = zlen (table_of (before ++ [n]))) as ->.
      { rewrite table_of_app, zlen_app. cbn. unfold text. rewrite app_nil_r, zlen_app. change (zlen [0]) with 1. lia. }
      apply (IH (before ++ [n]) rest).
      * rewrite <- app_assoc. exact E.
      * rewrite not_elem_of_app, list_elem_of_singleton. auto.
      * lia.
Qed.

Lemma piece_more names more e p : piece names e p -> piece (names ++ more) e p.
Proof.
  destruct e; cbn [piece]; auto. intros (b & a & -> & ->). exists b, (a ++ more). rewrite <- app_assoc. auto.
Qed.

(** The offset of a name: the table holds it there, and has grown by it at most. *)
Lemma get_string_offset_spec name s names : cstring name ->
  string_table s = table_of names -> Forall cstring names -> NoDup names -> string_table_len s = zlen (string_table s) ->
  exists s' more b a, fdt_get_string_offset name s = Done (zlen (table_of b), s') /\ names ++ more = b ++ name :: a /\
    tab s' = tab s /\ tab_len s' = tab_len s /\ open_node_count s' = open_node_count s /\
    string_table s' = table_of (names ++ more) /\ string_table_len s' = zlen (string_table s') /\
    Forall cstring (names ++ more) /\ NoDup (names ++ more) /\ (more = [] \/ more = [name]).
Proof.
  intros Hn Hs Hc Hd Hl. unfold fdt_get_string_offset. rewrite Hl, Hs.
  pose proof (string_search_spec names name Hc (S (List.length (table_of names))) [] names eq_refl ltac:(apply not_elem_of_nil) ltac:(lia)) as Hq.
  change (zlen (table_of [])) with 0 in Hq. destruct (string_search _ _ _ _ _) as [pos|].
  - destruct Hq as (b & a & E & ->). exists s, [], b, a. rewrite app_nil_r. repeat split; auto.
  - set (len := zlen (table_of names) + zlen name + 1). pose proof (grow_enough len (string_table_size s)).
    assert (table_of (names ++ [name]) = table_of names ++ name ++ [0]) as Et by (rewrite table_of_app; cbn; unfold text; rewrite app_nil_r; reflexivity).
    assert (exists size, (if len >? string_table_size s then grow len (string_table_size s) else string_table_size s) = size /\ len <= size) as (size & -> & Hsz).
    { destruct (Z.gtb_spec len (string_table_size s)); eexists; (split; [reflexivity|lia]). }
    destruct (Z.leb_spec len size); [|lia]. eexists _, [name], names, []. split; [reflexivity|]. cbn [tab tab_len open_node_count string_table string_table_len].
    rewrite Et, !zlen_app. change (zlen [0]) with 1. repeat split; auto; [lia| |].
    + apply Forall_app. auto.
    + apply NoDup_app. split; [exact Hd|]. split; [|apply NoDup_singleton]. intros x Hx. rewrite list_elem_of_singleton. intros ->. contradiction.
Qed.

(** ** Each operation emits its event *)

Lemma encodes_snoc names es t e p : encodes names es t -> piece names e p -> encodes names (es ++ [e]) (t ++ p).
Proof.
  intros (ps & H & ->) Hp. exists (ps ++ [p]). split; [apply Forall2_app; auto|]. rewrite concat_app. cbn. rewrite app_nil_r. reflexivity.
Qed.

Lemma encodes_more names more es t : encodes names es t -> encodes (names ++ more) es t.
Proof. intros (ps & H & ->). exists ps. split; [|reflexivity]. eapply Forall2_impl; [exact H|]. intros. apply piece_more. assumption. Qed.

Lemma depth_app a b : depth (a ++ b) = depth a + depth b.
Proof. induction a as [|e a IH]; [reflexivity|]. unfold depth in *. cbn [app fold_right]. lia. Qed.

Lemma prop_names_app a b : prop_names (a ++ b) = prop_names a ++ prop_names b.
Proof. apply omap_app. Qed.

(** Appending one event whose name, if any, is in the table. *)
Lemma holds_snoc s names es more e b s' : holds s names es -> Forall cstring (names ++ more) -> NoDup (names ++ more) ->
  more ⊆ prop_names [e] -> piece (names ++ more) e b ->
  tab s' = tab s ++ b -> 4 * tab_len s' = 4 * tab_len s + zlen b -> open_node_count s' = open_node_count s + depth_of e ->
  string_table s' = table_of (names ++ more) -> string_table_len s' = zlen (string_table s') -> holds s' (names ++ more) (es ++ [e]).
Proof.
  intros [Hs Hc Hd Hu Ht Hl Hsl Hdp] Hc' Hd' Hm Hp Et El Ed Es Esl. constructor; auto.
  - rewrite prop_names_app. intros x Hx. apply elem_of_app in Hx as [Hx|Hx]; apply elem_of_app; auto.
  - rewrite Et. apply encodes_snoc; [apply encodes_more; exact Ht|exact Hp].
  - rewrite Et, zlen_app. lia.
  - rewrite Ed, Hdp, depth_app. unfold depth. cbn. lia.
Qed.

Lemma holds_append s names es e b s1 : holds s names es -> piece names e b -> appended s b s1 ->
  holds (s1 <| open_node_count := open_node_count s1 + depth_of e |>) names (es ++ [e]).
Proof.
  intros H Hp (A1 & B1 & C1 & D1 & F1). pose proof H as [Hs Hc Hd Hu Ht Hl Hsl Hdp]. rewrite <- (app_nil_r names).
  apply (holds_snoc s names es [] e b); rewrite ?app_nil_r; try assumption; cbn; [apply list_subseteq_nil|congruence|congruence|congruence].
Qed.

Lemma begin_node_emits name : cstring name -> emits (fdt_begin_node name) [EBegin name].
Proof.
  intros Hn s names es H. unfold fdt_begin_node.
  destruct (appends_bind _ _ _ _ (put32_appends FDT_BEGIN_NODE) (put_data_appends (name ++ [0])) s) as (s1 & E1 & A1).
  rewrite <- run_assoc, run_bind, E1. eexists _, names. split; [reflexivity|]. refine (holds_append s names es (EBegin name) _ s1 H _ A1). split; [exact Hn|reflexivity].
Qed.

Lemma end_node_emits : emits fdt_end_node [EEnd].
Proof.
  intros s names es H. unfold fdt_end_node. destruct (put32_appends FDT_END_NODE s) as (s1 & E1 & A1).
  rewrite run_bind, E1. eexists _, names. split; [reflexivity|]. exact (holds_append s names es EEnd _ s1 H eq_refl A1).
Qed.

(** Both ways to write a property, its value as bytes or as cells. *)
Lemma prop_emits name data m n : cstring name -> n = zlen data -> appends m (data ++ replicate (padding (List.length data)) 0) ->
  emits (_ ← fdt_put32 FDT_PROP; _ ← fdt_put32 n; off ← fdt_get_string_offset name; _ ← fdt_put32 off; m) [EProp name data].
Proof.
  intros Hn -> Hm s names es H. pose proof H as [Hs Hc Hd Hu Ht Hl Hsl Hdp].
  destruct (appends_bind _ _ _ _ (put32_appends FDT_PROP) (put32_appends (zlen data)) s) as (s1 & E1 & A1 & B1 & C1 & D1 & F1).
  rewrite <- run_assoc, run_bind, E1.
  destruct (get_string_offset_spec name s1 names Hn) as (s2 & more & bf & af & E2 & En & A2 & B2 & C2 & D2 & F2 & Hc2 & Hd2 & Hm2); try congruence.
  rewrite run_bind, E2. destruct (appends_bind _ _ _ _ (put32_appends (zlen (table_of bf))) Hm s2) as (s3 & E3 & A3 & B3 & C3 & D3 & F3).
  rewrite E3. exists s3, (names ++ more). split; [reflexivity|].
  apply (holds_snoc s names es more (EProp name data) ((be4 FDT_PROP ++ be4 (zlen data)) ++ be4 (zlen (table_of bf)) ++ data ++ replicate (padding (List.length data)) 0)); try congruence.
  - destruct Hm2 as [-> | ->]; [apply list_subseteq_nil|]. cbn. reflexivity.
  - cbn [piece]. exists bf, af. split; [exact En|]. rewrite <- app_assoc. reflexivity.
  - rewrite A3, A2, A1, <- app_assoc. reflexivity.
  - rewrite B3, B2, B1, !zlen_app. lia.
  - cbn. rewrite C3, C2, C1. lia.
Qed.

Lemma fdt_prop_emits name data : cstring name -> emits (fdt_prop name data) [EProp name data].
Proof. intros Hn. apply prop_emits; [exact Hn|reflexivity|apply put_data_appends]. Qed.

Lemma cells_length l : List.length (cells l) = (4 * List.length l)%nat.
Proof. induction l as [|v l IH]; [reflexivity|]. unfold cells in *. cbn [flat_map]. rewrite length_app, IH. cbn. lia. Qed.

Lemma fdt_prop_cells_emits name l : cstring name -> emits (fdt_prop_tab_u32 name l) [EProp name (cells l)].
Proof.
  intros Hn. apply prop_emits; [exact Hn|unfold zlen; rewrite cells_length; lia|].
  assert (padding (List.length (cells l)) = 0%nat) as -> by (rewrite cells_length; unfold padding; rewrite Nat.mul_comm, Nat.Div0.mod_mul; reflexivity).
  rewrite app_nil_r. apply put_words_appends.
Qed.

Lemma fdt_emits_bind m1 m2 e1 e2 : emits m1 e1 -> emits m2 e2 -> emits (_ ← m1; m2) (e1 ++ e2).
Proof.
  intros H1 H2 s names es H. destruct (H1 s names es H) as (s1 & n1 & E1 & K1). destruct (H2 s1 n1 _ K1) as (s2 & n2 & E2 & K2).
  exists s2, n2. rewrite run_bind, E1, app_assoc. auto.
Qed.

Lemma fdt_emits_ret : emits (mret tt) [].
Proof. intros s names es H. exists s, names. rewrite app_nil_r. auto. Qed.

Lemma for_range_emits n body evs : (forall i, emits (body i) (evs i)) -> forall i, emits (for_range n i body) (flat_map evs (map (fun k => i + Z.of_nat k) (seq 0 n))).
Proof.
  intros H. induction n as [|n IH]; intros i; [apply fdt_emits_ret|]. cbn [for_range seq map flat_map].
  replace (i + Z.of_nat 0) with i by lia. apply fdt_emits_bind; [apply H|]. rewrite <- seq_shift, map_map.
  rewrite (map_ext _ (fun k => (i + 1) + Z.of_nat k)) by (intros; lia). apply IH.
Qed.

(** ** The machine's program emits the machine's tree *)

Fixpoint events (t : dnode) : list event :=
  match t with DNode n ps cs => EBegin n :: map (fun p => EProp (fst p) (snd p)) ps ++ flat_map events cs ++ [EEnd] end.

Lemma emits_eq m e e' : emits m e -> e = e' -> emits m e'.
Proof. intros H <-. exact H. Qed.

Lemma be4_u32 v : be4 (u32 v) = be4 v.
Proof.
  assert (forall a b c d a' b' c' d' : Z, a = a' -> b = b' -> c = c' -> d = d' -> [a; b; c; d] = [a'; b'; c'; d']) as H4 by (intros; subst; reflexivity).
  unfold be4, u32. apply H4; apply byte_eq; intros i Hi; rewrite ?Z.shiftr_spec, wrapu_spec by lia;
    match goal with |- context [?a <? 32] => destruct (Z.ltb_spec a 32); [reflexivity|lia] end.
Qed.

Lemma cells_u32 l : cells (map u32 l) = cells l.
Proof. unfold cells. induction l as [|v l IH]; [reflexivity|]. cbn [map flat_map]. rewrite be4_u32, IH. reflexivity. Qed.

Lemma cell64_split v : cells [u32 (v >>' 32); u32 v] = cell64 v.
Proof. unfold cell64, cells. cbn [flat_map]. rewrite be4_u32, Z.shiftr_div_pow2 by lia. reflexivity. Qed.

Lemma cells_app a b : cells (a ++ b) = cells a ++ cells b.
Proof. apply flat_map_app. Qed.

Lemma hex_digit_pos d : 0 <= d -> hex_digit d <> 0.
Proof. unfold hex_digit. destruct (Z.ltb_spec d 10); lia. Qed.

Lemma hex_loop_spec fuel : forall n acc, cstring acc -> cstring (hex_loop fuel n acc) /\ (List.length (hex_loop fuel n acc) <= fuel + List.length acc)%nat.
Proof.
  induction fuel as [|fuel IH]; intros n acc Ha; cbn [hex_loop]; [auto|].
  assert (cstring (hex_digit (n mod 16) :: acc)) as Hc by (constructor; [apply hex_digit_pos, Z.mod_pos_bound; lia|exact Ha]).
  destruct (n / 16 =? 0); [split; [exact Hc|cbn; lia]|]. destruct (IH (n / 16) _ Hc) as [H1 H2]. split; [exact H1|]. cbn [List.length] in H2. lia.
Qed.

Lemma at_addr_name name n : cstring (str name) -> (List.length (str name) <= 200)%nat ->
  take 255 (str name ++ 64 :: hex n) = at_addr name n /\ cstring (at_addr name n) /\ (List.length (at_addr name n) <= List.length (str name) + 17)%nat.
Proof.
  intros Hc Hl. destruct (hex_loop_spec 16 n [] ltac:(constructor)) as [H1 H2]. fold (hex n) in H1, H2. cbn [List.length] in H2.
  assert (List.length (at_addr name n) <= List.length (str name) + 17)%nat by (unfold at_addr; rewrite length_app; cbn [List.length]; lia).
  split; [apply take_ge; unfold at_addr in *; lia|]. split; [|assumption]. apply Forall_app. split; [exact Hc|]. constructor; [lia|exact H1].
Qed.

Lemma begin_node_num_emits name n : cstring (str name) -> (List.length (str name) <= 200)%nat -> emits (fdt_begin_node_num (str name) n) [EBegin (at_addr name n)].
Proof. intros Hc Hl. destruct (at_addr_name name n Hc Hl) as (E & H & _). unfold fdt_begin_node_num. rewrite E. apply begin_node_emits, H. Qed.

Lemma fdt_prop_u32_emits name v : cstring name -> emits (fdt_prop_u32 name v) [EProp name (cells [v])].
Proof. intros Hn. rewrite <- (cells_u32 [v]). apply fdt_prop_cells_emits, Hn. Qed.

Lemma fdt_prop_u64_emits name v : cstring name -> emits (fdt_prop_u64 name v) [EProp name (cell64 v)].
Proof. intros Hn. rewrite <- cell64_split. apply fdt_prop_cells_emits, Hn. Qed.

Lemma fdt_prop_2_emits name a b : cstring name -> emits (fdt_prop_tab_u32 name [u32 (a >>' 32); u32 a; u32 (b >>' 32); u32 b]) [EProp name (cell64 a ++ cell64 b)].
Proof. intros Hn. rewrite <- !cell64_split, <- cells_app. apply fdt_prop_cells_emits, Hn. Qed.

(** Walks through a program of the writer; the names are literals. *)
Ltac literal := first [apply (bool_decide_unpack _); vm_compute; exact I | vm_compute; repeat constructor].
Ltac emit_step :=
  lazymatch goal with
  | |- emits (fdt_begin_node_num _ _) _ => apply begin_node_num_emits; literal
  | |- emits (fdt_begin_node _) _ => apply begin_node_emits; literal
  | |- emits fdt_end_node _ => apply end_node_emits
  | |- emits (fdt_prop_u32 _ _) _ => apply fdt_prop_u32_emits; literal
  | |- emits (fdt_prop_u64 _ _) _ => apply fdt_prop_u64_emits; literal
  | |- emits (fdt_prop_tab_u64_2 _ _ _) _ => apply fdt_prop_2_emits; literal
  | |- emits (fdt_prop_tab_u32 _ [_; _; _; _]) _ => apply fdt_prop_2_emits; literal
  | |- emits (fdt_prop_tab_u32 _ _) _ => apply fdt_prop_cells_emits; literal
  | |- emits (fdt_prop_str _ _) _ => apply fdt_prop_emits; literal
  | |- emits (fdt_prop_tab_str _ _) _ => apply fdt_prop_emits; literal
  | |- emits (fdt_prop _ _) _ => apply fdt_prop_emits; literal
  | |- emits (mbind _ _) _ => eapply fdt_emits_bind; [emit_step|emit_step]
  | |- emits _ _ => eauto with emits
  end.
Ltac emit := eapply emits_eq; [emit_step|].
Create HintDb emits.

Lemma fdt_cpu_emits m h : emits (fdt_cpu m h) (events (cpu_tree m h)).
Proof. unfold fdt_cpu. emit. unfold intc_phandle. rewrite (Z.add_comm 1 h). reflexivity. Qed.

Lemma wired_cells m i j : cells (hart_interrupts m i j) = wired m i j.
Proof.
  unfold hart_interrupts, wired. induction (indices (ncpus m)) as [|h l IH]; [reflexivity|]. cbn [flat_map]. rewrite cells_app, IH. f_equal.
  unfold intc_phandle. rewrite (Z.add_comm 1 h). reflexivity.
Qed.

Lemma flat_map_indices {A} (f : Z -> list A) n : flat_map f (map (fun k => 0 + Z.of_nat k) (seq 0 (Z.to_nat n))) = flat_map f (indices n).
Proof. reflexivity. Qed.

Lemma flat_map_map {A B C} (f : B -> list C) (g : A -> B) l : flat_map f (map g l) = flat_map (fun x => f (g x)) l.
Proof. induction l as [|x l IH]; [reflexivity|]. cbn. rewrite IH. reflexivity. Qed.

Lemma fdt_virtio_emits m i : emits (fdt_virtio m i) (events (virtio_tree m i)).
Proof. unfold fdt_virtio. cbv zeta. emit. unfold plic_phandle. rewrite (Z.add_comm 1 (ncpus m)). change (VIRTIO_IRQ + i) with (1 + i). rewrite (Z.add_comm 1 i). reflexivity. Qed.

Lemma fdt_clint_emits m : emits (fdt_clint m) (events (clint_tree m)).
Proof. unfold fdt_clint. emit. rewrite wired_cells. reflexivity. Qed.

Lemma fdt_plic_emits m : emits (fdt_plic m) (events (plic_tree m)).
Proof. unfold fdt_plic. emit. rewrite wired_cells. unfold plic_phandle. rewrite (Z.add_comm 1 (ncpus m)). reflexivity. Qed.

Lemma fdt_uarts_emits : emits fdt_uarts (flat_map events uart_trees).
Proof. unfold fdt_uarts. emit. reflexivity. Qed.

Lemma fdt_framebuffer_emits fb : emits (fdt_framebuffer fb) (events (framebuffer_tree fb)).
Proof. unfold fdt_framebuffer. emit. reflexivity. Qed.

Lemma fdt_opt_framebuffer_emits m :
  emits (match fb_dev m with Some fb => fdt_framebuffer fb | None => mret tt end) (flat_map events match fb_dev m with Some fb => [framebuffer_tree fb] | None => [] end).
Proof. destruct (fb_dev m); [|apply fdt_emits_ret]. cbn [flat_map]. rewrite app_nil_r. apply fdt_framebuffer_emits. Qed.

(** The initial RAM disk, when it is announced. *)
Definition initrd_of (a b : Z) : option (Z * Z) := if negb (a =? 0) && (a <? b) then Some (a, b) else None.

Lemma fdt_chosen_emits cmd_line a b : emits (fdt_chosen cmd_line a b) (events (chosen_tree (default [] cmd_line) (initrd_of a b))).
Proof. unfold fdt_chosen, initrd_of. destruct (negb (a =? 0) && (a <? b)); [emit; reflexivity|]. do 2 (apply (fdt_emits_bind _ _ [_]); [emit_step|]). apply (fdt_emits_bind _ _ []); [apply fdt_emits_ret|emit_step]. Qed.

Lemma cpus_emit m : emits (for_range (Z.to_nat (ncpus m)) 0 (fdt_cpu m)) (flat_map events (map (cpu_tree m) (indices (ncpus m)))).
Proof. rewrite flat_map_map, <- flat_map_indices. apply for_range_emits. intros i. apply fdt_cpu_emits. Qed.

Lemma virtios_emit m : emits (for_range (Z.to_nat (virtio_count m)) 0 (fdt_virtio m)) (flat_map events (map (virtio_tree m) (indices (virtio_count m)))).
Proof. rewrite flat_map_map, <- flat_map_indices. apply for_range_emits. intros i. apply fdt_virtio_emits. Qed.

#[export] Hint Resolve fdt_clint_emits fdt_plic_emits fdt_uarts_emits fdt_opt_framebuffer_emits fdt_chosen_emits cpus_emit virtios_emit : emits.

Lemma fdt_tree_emits m cmd_line a b : emits (fdt_tree m cmd_line a b) (events (machine_tree m (default [] cmd_line) (initrd_of a b))).
Proof.
  unfold fdt_tree. emit. cbn [events machine_tree soc_tree flat_map map app]. rewrite !flat_map_app. repeat (rewrite <- ?app_assoc; cbn [app]). reflexivity.
Qed.

(** ** Decoding *)

Lemma skip_app n a b : n = List.length a -> skip n (a ++ b) = Some b.
Proof. intros ->. unfold skip. rewrite length_app. destruct (Nat.leb_spec (List.length a) (List.length a + List.length b)); [|lia]. rewrite drop_app_length. reflexivity. Qed.

Lemma name_at before n after : Forall cstring (before ++ n :: after) ->
  cstring_of (drop (Z.to_nat (zlen (table_of before))) (table_of (before ++ n :: after))) = Some (n, table_of after).
Proof.
  intros Hc. apply Forall_app in Hc as [_ Hc]. inversion Hc as [|? ? Hn _]; subst. rewrite table_of_app. unfold zlen. rewrite Nat2Z.id, drop_app_length.
  cbn. unfold text. rewrite <- app_assoc. apply cstring_of_app, Hn.
Qed.

Lemma decode_step names e p fuel b evs : Forall cstring names -> zlen (table_of names) < 2 ^ 32 -> piece names e p -> zlen p < 2 ^ 32 ->
  decode fuel (table_of names) b = Some evs -> decode (S fuel) (table_of names) (p ++ b) = Some (e :: evs).
Proof.
  intros Hc Ht Hp Hl Hd. destruct e as [n|n d|]; cbn [piece] in Hp.
  - destruct Hp as [Hn ->]. cbn [decode]. rewrite <- !app_assoc, be32_be4 by (vm_compute; split; [discriminate|reflexivity]). cbn [mbind option_bind Z.eqb Pos.eqb].
    unfold text at 1. rewrite <- app_assoc. cbn [app]. rewrite cstring_of_app by exact Hn. cbn [mbind option_bind].
    rewrite skip_app by (rewrite length_replicate; unfold text; rewrite length_app; reflexivity). cbn [mbind option_bind]. rewrite Hd. reflexivity.
  - destruct Hp as (bf & af & -> & ->). rewrite !zlen_app in Hl. change (zlen (be4 3)) with 4 in Hl.
    assert (in_u 32 (zlen d)) by (split; [apply zlen_nonneg|]; pose proof (zlen_nonneg (replicate (padding (List.length d)) 0)); change (zlen (be4 _)) with 4 in Hl; lia).
    assert (in_u 32 (zlen (table_of bf))) by (split; [apply zlen_nonneg|]; rewrite table_of_app, zlen_app in Ht; pose proof (zlen_nonneg (table_of (n :: af))); lia).
    cbn [decode]. rewrite <- !app_assoc, be32_be4 by (vm_compute; split; [discriminate|reflexivity]). cbn [mbind option_bind Z.eqb Pos.eqb].
    rewrite be32_be4 by assumption. cbn [mbind option_bind]. rewrite be32_be4 by assumption. cbn [mbind option_bind]. rewrite name_at by exact Hc. cbn [mbind option_bind].
    unfold zlen at 1 2 3. rewrite !Nat2Z.id, take_app_length, app_assoc, skip_app by (rewrite length_app, length_replicate; reflexivity). cbn [mbind option_bind]. rewrite Hd. reflexivity.
  - subst p. cbn [decode]. rewrite be32_be4 by (vm_compute; split; [discriminate|reflexivity]). cbn [mbind option_bind Z.eqb Pos.eqb]. rewrite Hd. reflexivity.
Qed.

Lemma decode_encodes names : Forall cstring names -> zlen (table_of names) < 2 ^ 32 -> forall evs bytes fuel, encodes names evs bytes -> zlen bytes < 2 ^ 32 ->
  (List.length evs < fuel)%nat -> decode fuel (table_of names) (bytes ++ be4 9) = Some evs.
Proof.
  intros Hc Ht evs bytes fuel (ps & H & ->). revert fuel. induction H as [|e p evs ps Hp Hps IH]; intros fuel Hl Hf.
  - destruct fuel as [|fuel]; [cbn in Hf; lia|]. reflexivity.
  - destruct fuel as [|fuel]; [lia|]. cbn [List.concat] in Hl |- *. rewrite zlen_app in Hl. cbn [List.length] in Hf. pose proof (zlen_nonneg p). pose proof (zlen_nonneg (List.concat ps)).
    rewrite <- app_assoc. apply decode_step; [assumption|assumption|assumption|lia|]. apply IH; lia.
Qed.

Lemma piece_size names e p : piece names e p -> 4 <= zlen p.
Proof.
  destruct e; cbn [piece]; [intros [_ ->]|intros (? & ? & _ & ->)|intros ->]; rewrite ?zlen_app; change (zlen (be4 _)) with 4;
    repeat match goal with |- context [zlen ?l] => lazymatch goal with H : 0 <= zlen l |- _ => fail | _ => pose proof (zlen_nonneg l) end end; lia.
Qed.

Lemma encodes_size names evs bytes : encodes names evs bytes -> 4 * Z.of_nat (List.length evs) <= zlen bytes.
Proof.
  intros (ps & H & ->). induction H as [|e p evs ps Hp _ IH]; [reflexivity|]. cbn [List.concat List.length]. rewrite zlen_app. pose proof (piece_size _ _ _ Hp). lia.
Qed.

(** ** Events determine the tree *)

Lemma dnode_ind (P : dnode -> Prop) : (forall n ps cs, Forall P cs -> P (DNode n ps cs)) -> forall t, P t.
Proof.
  intros H. fix IH 1. intros [n ps cs]. apply H. induction cs as [|c cs IHc]; constructor; [apply IH|exact IHc].
Qed.

Lemma build_props n st evs ps : forall qs, build ((n, qs, []) :: st) (map (fun p => EProp (fst p) (snd p)) ps ++ evs) = build ((n, qs ++ ps, []) :: st) evs.
Proof.
  induction ps as [|[a d] ps IH]; intros qs; [rewrite app_nil_r; reflexivity|]. cbn [map app build fst snd]. rewrite IH, <- app_assoc. reflexivity.
Qed.

Lemma build_tree t : forall n ps cs st evs, build ((n, ps, cs) :: st) (events t ++ evs) = build ((n, ps, cs ++ [t]) :: st) evs.
Proof.
  induction t as [n' ps' cs' IH] using dnode_ind. intros n ps cs st evs. cbn [events app build]. rewrite <- !app_assoc, build_props. cbn [app].
  assert (forall done, build ((n', ps', done) :: (n, ps, cs) :: st) (flat_map events cs' ++ [EEnd] ++ evs) = build ((n, ps, cs ++ [DNode n' ps' (done ++ cs')]) :: st) evs) as ->; [|reflexivity].
  induction IH as [|c cs' Hc _ IHc]; intros done; [cbn; rewrite app_nil_r; reflexivity|]. cbn [flat_map]. rewrite <- app_assoc, Hc, IHc, <- app_assoc. reflexivity.
Qed.

Lemma build_events t : build [] (events t) = Some t.
Proof.
  destruct t as [n ps cs]. cbn [events build]. rewrite build_props. cbn [app].
  assert (forall done, build [(n, ps, done)] (flat_map events cs ++ [EEnd]) = Some (DNode n ps (done ++ cs))) as ->; [|reflexivity].
  induction cs as [|c cs IH]; intros done; [cbn; rewrite app_nil_r; reflexivity|]. cbn [flat_map]. rewrite <- app_assoc, build_tree, IH, <- app_assoc. reflexivity.
Qed.

Lemma depth_events t : depth (events t) = 0.
Proof.
  induction t as [n ps cs IH] using dnode_ind. cbn [events]. change (depth (EBegin n :: ?l)) with (1 + depth l). rewrite !depth_app.
  assert (depth (map (fun p => EProp (fst p) (snd p)) ps) = 0) as -> by (induction ps as [|p ps IHp]; [reflexivity|exact IHp]).
  assert (depth (flat_map events cs) = 0) as ->; [|reflexivity].
  induction IH as [|c cs Hc _ IHc]; [reflexivity|]. cbn [flat_map]. rewrite depth_app. lia.
Qed.

(** ** The blob *)

Definition blob_of (block table : list Z) (k1 k2 : nat) : list Z :=
  let rsvmap := 40 + zlen block + Z.of_nat k1 in
  let strings := rsvmap + 16 in
  cells [FDT_MAGIC; strings + zlen table + Z.of_nat k2; 40; strings; rsvmap; FDT_VERSION; 16; 0; zlen table; zlen block]
  ++ block ++ replicate k1 0 ++ replicate 16 0 ++ table ++ replicate k2 0.

Lemma zlen_blob block table k1 k2 : zlen (blob_of block table k1 k2) = 40 + zlen block + Z.of_nat k1 + 16 + zlen table + Z.of_nat k2.
Proof. unfold blob_of. cbv zeta. rewrite !zlen_app, !zlen_replicate. change (zlen (cells _)) with 40. lia. Qed.

Lemma align8_spec fuel : forall pos, (Z.to_nat ((- pos) mod 8) < fuel)%nat -> align8 fuel pos = Done (replicate (Z.to_nat ((- pos) mod 8)) 0).
Proof.
  induction fuel as [|fuel IH]; intros pos Hf; [lia|]. cbn [align8]. change 7 with (Z.ones 3). rewrite Z.land_ones by lia. change (2 ^ 3) with 8.
  pose proof (Z.mod_pos_bound (- pos) 8 ltac:(lia)). pose proof (Z.mod_pos_bound (- (pos + 1)) 8 ltac:(lia)). destruct (Z.eqb_spec (pos mod 8) 0) as [E|E].
  - assert ((- pos) mod 8 = 0) as -> by (Z.to_euclidean_division_equations; lia). reflexivity.
  - assert ((- (pos + 1)) mod 8 = (- pos) mod 8 - 1) as E1 by (Z.to_euclidean_division_equations; lia).
    rewrite IH by lia. cbn [mbind res_bind mret res_ret]. rewrite E1. f_equal. rewrite <- replicate_S. f_equal. lia.
Qed.

Lemma align8_pads pos : exists k, align8 9 pos = Done (replicate k 0) /\ (k < 8)%nat /\ (pos + Z.of_nat k) mod 8 = 0.
Proof.
  exists (Z.to_nat ((- pos) mod 8)). pose proof (Z.mod_pos_bound (- pos) 8 ltac:(lia)). split; [apply align8_spec; lia|]. split; [lia|].
  rewrite Z2Nat.id by lia. Z.to_euclidean_division_equations. lia.
Qed.

Lemma output_blob s names evs : holds s names evs -> depth evs = 0 ->
  exists s' k1 k2, fdt_output s = Done (blob_of (tab s ++ be4 9) (table_of names) k1 k2, s') /\ (k1 < 8)%nat /\ (k2 < 8)%nat /\
    (40 + zlen (tab s ++ be4 9) + Z.of_nat k1) mod 8 = 0.
Proof.
  intros [Hs _ _ _ _ Hl Hsl Hdp] Hd. unfold fdt_output. rewrite run_gets. unfold id. rewrite Hdp, Hd. change (liftr (assert_c (0 =? 0))) with (liftr (S := FDTState) (Done tt)). rewrite run_liftr_done.
  destruct (put32_appends FDT_END s) as (s' & E & A & B & C & D & F). rewrite run_bind, E, run_gets. unfold id. cbv zeta. change (zlen (be4 FDT_END)) with 4 in B.
  assert (tab_len s' * 4 = zlen (tab s ++ be4 9)) as Et by (rewrite zlen_app; change (zlen (be4 9)) with 4; lia).
  rewrite Et. destruct (align8_pads (40 + zlen (tab s ++ be4 9))) as (k1 & E1 & H1 & M1). rewrite E1, run_liftr_done, zlen_replicate.
  match goal with |- context [align8 9 ?p] => destruct (align8_pads p) as (k2 & E2 & H2 & _); rewrite E2, run_liftr_done, zlen_replicate end.
  exists s', k1, k2. split; [|auto]. cbn [map List.concat]. rewrite !mem32_be32, A, D, F, Hsl, Hs. reflexivity.
Qed.

Lemma word_at l r i v : l !! i = Some v -> in_u 32 v -> fst <$> be32 (drop (4 * i) (cells l ++ r)) = Some v.
Proof.
  intros Hi Hv. revert i Hi. induction l as [|x l IH]; intros [|i] Hi; try discriminate.
  - injection Hi as ->. change (cells (v :: l)) with (be4 v ++ cells l). rewrite <- app_assoc. change (drop (4 * 0) (be4 v ++ cells l ++ r)) with (be4 v ++ cells l ++ r). rewrite be32_be4 by exact Hv. reflexivity.
  - change (cells (x :: l)) with (be4 x ++ cells l). rewrite <- app_assoc. replace (4 * S i)%nat with (4 + 4 * i)%nat by lia. rewrite <- drop_drop.
    change (drop 4 (be4 x ++ cells l ++ r)) with (cells l ++ r). apply IH, Hi.
Qed.

Lemma drop_to n a b : n = zlen a -> drop (Z.to_nat n) (a ++ b) = b.
Proof. intros ->. unfold zlen. rewrite Nat2Z.id. apply drop_app_length. Qed.
Lemma take_to n a b : n = zlen a -> take (Z.to_nat n) (a ++ b) = a.
Proof. intros ->. unfold zlen. rewrite Nat2Z.id. apply take_app_length. Qed.

Lemma dt_decode_blob block table k1 k2 evs t : zlen (blob_of block table k1 k2) < 2 ^ 32 -> (40 + zlen block + Z.of_nat k1) mod 8 = 0 ->
  decode (S (Z.to_nat (zlen block))) table block = Some evs -> build [] evs = Some t -> dt_decode (blob_of block table k1 k2) = Some t.
Proof.
  intros Hl Hm Hd Hb. pose proof (zlen_blob block table k1 k2) as El. pose proof (zlen_nonneg block). pose proof (zlen_nonneg table).
  unfold dt_decode. cbv beta zeta. rewrite El. unfold blob_of in *. cbv beta zeta in *. set (rsv := 40 + zlen block + Z.of_nat k1) in *. set (hdr := cells _) in *.
  assert (zlen hdr = 40) as Hh by reflexivity. rewrite El in Hl. set (body := block ++ _).
  assert (forall i v, [FDT_MAGIC; rsv + 16 + zlen table + Z.of_nat k2; 40; rsv + 16; rsv; FDT_VERSION; 16; 0; zlen table; zlen block] !! i = Some v -> in_u 32 v ->
    fst <$> be32 (drop (4 * i) (hdr ++ body)) = Some v) as Hw by (intros i v; apply word_at).
  rewrite (Hw 0%nat _ eq_refl), (Hw 1%nat _ eq_refl), (Hw 2%nat _ eq_refl), (Hw 3%nat _ eq_refl), (Hw 4%nat _ eq_refl), (Hw 5%nat _ eq_refl), (Hw 6%nat _ eq_refl),
    (Hw 8%nat _ eq_refl), (Hw 9%nat _ eq_refl) by (unfold in_u, FDT_MAGIC, FDT_VERSION; lia). unfold body. clear Hw body.
  cbn [mbind option_bind].
  assert (take 16 (drop (Z.to_nat rsv) (hdr ++ block ++ replicate k1 0 ++ replicate 16 0 ++ table ++ replicate k2 0)) = replicate 16 0) as ->.
  { rewrite !app_assoc, <- (app_assoc _ (replicate 16 0)), <- (app_assoc _ (_ ++ table)), <- (app_assoc (replicate 16 0)). rewrite drop_to by (rewrite !zlen_app, zlen_replicate; unfold rsv; lia). apply (take_to 16). reflexivity. }
  rewrite bool_decide_true, andb_true_r by reflexivity. unfold FDT_MAGIC, FDT_VERSION.
  repeat match goal with |- context [?a =? ?b] => destruct (Z.eqb_spec a b); [|exfalso; lia] | |- context [?a <=? ?b] => destruct (Z.leb_spec a b); [|exfalso; lia] end. cbn [andb].
  rewrite (drop_to 40) by (symmetry; exact Hh). rewrite take_to by reflexivity.
  rewrite !app_assoc, <- (app_assoc _ table). rewrite (drop_to (rsv + 16)) by (rewrite !zlen_app, !zlen_replicate; unfold rsv; lia). rewrite take_to by reflexivity.
  rewrite Hd. exact Hb.
Qed.

(** ** Size of the blob *)

Definition up4 (n : nat) : Z := Z.of_nat (n + padding n).
Definition ev_size (e : event) : Z :=
  match e with EBegin n => 4 + up4 (List.length (text n)) | EProp _ d => 12 + up4 (List.length d) | EEnd => 4 end.
Definition size_of (evs : list event) : Z := fold_right (fun e n => ev_size e + n) 0 evs.

Lemma size_app a b : size_of (a ++ b) = size_of a + size_of b.
Proof. induction a as [|e a IH]; [reflexivity|]. unfold size_of in *. cbn [app fold_right]. lia. Qed.

Lemma piece_zlen names e p : piece names e p -> zlen p = ev_size e.
Proof.
  destruct e; cbn [piece ev_size]; [intros [_ ->]|intros (? & ? & _ & ->)|intros ->]; rewrite ?zlen_app, ?zlen_replicate; change (zlen (be4 _)) with 4;
    unfold up4, zlen; rewrite ?Nat2Z.inj_add; lia.
Qed.

Lemma encodes_zlen names evs bytes : encodes names evs bytes -> zlen bytes = size_of evs.
Proof.
  intros (ps & H & ->). induction H as [|e p evs ps Hp _ IH]; [reflexivity|]. unfold size_of in *. cbn [List.concat fold_right]. rewrite zlen_app, IH, (piece_zlen _ _ _ Hp). reflexivity.
Qed.

Lemma up4_div n : up4 n = 4 * ((Z.of_nat n + 3) / 4).
Proof. unfold up4. rewrite padding_words, Z.quot_div_nonneg by lia. reflexivity. Qed.

Lemma up4_mono n m : (n <= m)%nat -> up4 n <= up4 m.
Proof. intros H. rewrite !up4_div. apply Z.mul_le_mono_nonneg_l; [lia|]. apply Z.div_le_mono; lia. Qed.

Lemma up4_le n : up4 n <= Z.of_nat n + 3.
Proof. rewrite up4_div. Z.to_euclidean_division_equations. lia. Qed.

(** The names that occur in the tree. *)
Definition property_names : list (list Z) :=
  map str ["#address-cells"; "#size-cells"; "compatible"; "model"; "timebase-frequency"; "device_type"; "reg"; "status"; "riscv,isa"; "mmu-type";
           "clock-frequency"; "#interrupt-cells"; "interrupt-controller"; "phandle"; "linux,phandle"; "ranges"; "interrupts-extended"; "riscv,ndev";
           "reg-shift"; "reg-io-width"; "width"; "height"; "stride"; "format"; "bootargs"; "linux,initrd-start"; "linux,initrd-end"]%string.

Lemma table_submseteq a b : a ⊆+ b -> zlen (table_of a) <= zlen (table_of b).
Proof.
  intros H. induction H; cbn [table_of flat_map]; rewrite ?zlen_app in *; unfold table_of in *; cbn [flat_map]; rewrite ?zlen_app; try lia.
  pose proof (zlen_nonneg (text x)). lia.
Qed.

Fixpoint names_in (t : dnode) : list (list Z) := match t with DNode _ ps cs => map fst ps ++ flat_map names_in cs end.

Lemma prop_names_events t : prop_names (events t) = names_in t.
Proof.
  induction t as [n ps cs IH] using dnode_ind. cbn [events names_in]. change (prop_names (EBegin n :: ?l)) with (prop_names l). rewrite !prop_names_app.
  f_equal.
  - induction ps as [|p ps IHp]; [reflexivity|]. cbn. f_equal. exact IHp.
  - rewrite app_nil_r. induction IH as [|c cs Hc _ IHc]; [reflexivity|]. cbn [flat_map]. rewrite prop_names_app, Hc, IHc. reflexivity.
Qed.

Definition known (t : dnode) : Prop := forallb (fun n => bool_decide (n ∈ property_names)) (names_in t) = true.

Lemma known_node n ps cs : forallb (fun n => bool_decide (n ∈ property_names)) (map fst ps) = true -> Forall known cs -> known (DNode n ps cs).
Proof.
  intros Hp Hc. unfold known. cbn [names_in]. rewrite forallb_app, Hp. cbn [andb]. induction Hc as [|c cs Hc _ IH]; [reflexivity|]. cbn [flat_map]. rewrite forallb_app, Hc. exact IH.
Qed.

Lemma machine_known m c i : known (machine_tree m c i).
Proof.
  assert (forall f l, (forall h : Z, known (f h)) -> Forall known (map f l)) as Hm by (intros f l H; induction l; constructor; auto).
  apply known_node; [vm_compute; reflexivity|]. repeat apply Forall_cons_2; [| | | |apply Forall_nil_2].
  - apply known_node; [vm_compute; reflexivity|]. apply Hm. intros h. vm_compute. reflexivity.
  - vm_compute. reflexivity.
  - apply known_node; [vm_compute; reflexivity|]. repeat apply Forall_cons_2; [vm_compute; reflexivity|vm_compute; reflexivity|].
    apply Forall_app. split; [apply Hm; intros h; vm_compute; reflexivity|]. repeat apply Forall_cons_2; [vm_compute; reflexivity|vm_compute; reflexivity|].
    destruct (fb_dev m) as [fb|]; repeat constructor.
  - destruct i as [[a b]|]; vm_compute; reflexivity.
Qed.

Lemma table_bound names m c i : NoDup names -> names ⊆ prop_names (events (machine_tree m c i)) -> zlen (table_of names) <= 336.
Proof.
  intros Hd Hs. rewrite prop_names_events in Hs. apply Z.le_trans with (zlen (table_of property_names)); [|vm_compute; discriminate].
  apply table_submseteq, NoDup_submseteq; [exact Hd|]. intros x Hx. apply Hs in Hx. pose proof (machine_known m c i) as Hk. unfold known in Hk. rewrite forallb_forall in Hk.
  apply (bool_decide_eq_true_1 (x ∈ property_names)), Hk, list_elem_of_In, Hx.
Qed.

Lemma hex_length k n : 0 <= n < 16 ^ Z.of_nat k -> (1 <= k <= 16)%nat -> (List.length (hex n) <= k)%nat.
Proof.
  assert (forall fuel k n acc, (k <= fuel)%nat -> 0 <= n < 16 ^ Z.of_nat k -> (1 <= k)%nat -> (List.length (hex_loop fuel n acc) <= k + List.length acc)%nat) as H.
  { clear. induction fuel as [|fuel IH]; intros k n acc Hf Hn Hk; [lia|]. cbn [hex_loop]. destruct (Z.eqb_spec (n / 16) 0); [cbn [List.length]; lia|].
    destruct k as [|[|k]]; [lia|change (16 ^ Z.of_nat 1) with 16 in Hn; rewrite Z.div_small in n0 by lia; lia|].
    etransitivity; [apply (IH (S k)); [lia| |lia]|cbn [List.length]; lia].
    split; [apply Z.div_pos; lia|]. apply Z.div_lt_upper_bound; [lia|]. rewrite <- Z.pow_succ_r by lia. rewrite <- Nat2Z.inj_succ. lia. }
  intros Hn Hk. etransitivity; [apply (H 16%nat k); lia|]. cbn. lia.
Qed.

Lemma node_name_size name k a : 0 <= a < 16 ^ Z.of_nat k -> (1 <= k <= 16)%nat -> up4 (List.length (text (at_addr name a))) <= up4 (List.length (str name) + k + 2).
Proof. intros Ha Hk. apply up4_mono. unfold text, at_addr. rewrite !length_app. cbn [List.length]. pose proof (hex_length k a Ha Hk). lia. Qed.

Lemma size_node n ps cs : size_of (events (DNode n ps cs)) =
  8 + up4 (List.length (text n)) + size_of (map (fun p => EProp (fst p) (snd p)) ps) + size_of (flat_map events cs).
Proof. cbn [events]. change (size_of (EBegin n :: ?l)) with (4 + up4 (List.length (text n)) + size_of l). rewrite !size_app. change (size_of [EEnd]) with 4. lia. Qed.

Lemma isa_length misa : (List.length (isa_string misa) <= 30)%nat.
Proof. unfold isa_string. rewrite length_app, length_map. pose proof (List.filter_length_le (fun i => tst misa (1 <<' i)) (indices 26)) as H. change (List.length (indices 26)) with 26%nat in H. change (List.length (str "rv64")) with 4%nat. lia. Qed.

(** Computes the sizes of literal values. *)
Ltac literal_size n := let v := eval vm_compute in (up4 n) in change (up4 n) with v.
Ltac sizes :=
  repeat (progress (cbn [map fst snd flat_map prop app]; rewrite ?app_nil_r, ?size_node, ?size_app));
  repeat match goal with
  | |- context [size_of (EProp ?n ?d :: ?l)] => change (size_of (EProp n d :: l)) with (12 + up4 (List.length d) + size_of l)
  | |- context [size_of []] => change (size_of []) with 0
  | |- context [up4 (List.length (text (str ?s)))] => literal_size (List.length (text (str s)))
  | |- context [up4 (List.length (cells ?l))] => literal_size (List.length (cells l))
  | |- context [up4 (List.length (cell64 ?a ++ cell64 ?b))] => literal_size (List.length (cell64 a ++ cell64 b))
  | |- context [up4 (List.length (text (str ?s) ++ text (str ?t)))] => literal_size (List.length (text (str s) ++ text (str t)))
  | |- context [up4 (List.length (cell64 ?a))] => literal_size (List.length (cell64 a))
  | |- context [up4 (List.length [])] => literal_size (List.length (@nil Z))
  | |- context [up4 (List.length (text []))] => literal_size (List.length (text []))
  end.

Lemma cpu_size m h : 0 <= h < 16 -> size_of (events (cpu_tree m h)) <= 304.
Proof.
  intros Hh. unfold cpu_tree. pose proof (node_name_size "cpu" 1 h ltac:(lia) ltac:(lia)) as H1. change (up4 (List.length (str "cpu") + 1 + 2)) with 8 in H1.
  assert (up4 (List.length (text (isa_string (misa_of m h)))) <= 32) as H2 by (etransitivity; [apply (up4_mono _ 31); unfold text; rewrite length_app; pose proof (isa_length (misa_of m h)); cbn [List.length]; lia|vm_compute; discriminate]).
  sizes. lia.
Qed.

Lemma virtio_size m i : 0 <= i < 2 ^ 16 -> size_of (events (virtio_tree m i)) <= 96.
Proof.
  intros Hi. unfold virtio_tree. pose proof (node_name_size "virtio" 8 (0x40010000 + i * 0x1000) ltac:(lia) ltac:(lia)) as H1.
  change (up4 (List.length (str "virtio") + 8 + 2)) with 16 in H1. sizes. lia.
Qed.

Lemma wired_length m i j : 0 <= ncpus m -> up4 (List.length (wired m i j)) = 16 * ncpus m.
Proof.
  intros Hn. rewrite <- wired_cells, cells_length. unfold hart_interrupts.
  assert (forall l, List.length (flat_map (fun h => [intc_phandle h; i; intc_phandle h; j]) l) = (4 * List.length l)%nat) as -> by (induction l as [|h l IH]; [reflexivity|cbn [flat_map]; rewrite length_app, IH; cbn; lia]).
  unfold indices. rewrite length_map, length_seq, up4_div. Z.to_euclidean_division_equations. lia.
Qed.

Lemma sizes_of_nodes (f : Z -> dnode) c n : 0 <= n -> (forall i, 0 <= i < n -> size_of (events (f i)) <= c) -> size_of (flat_map events (map f (indices n))) <= c * n.
Proof.
  intros Hn H. unfold indices. rewrite flat_map_map. rewrite <- (Z2Nat.id n) at 2 by lia. assert (forall i, In i (map Z.of_nat (seq 0 (Z.to_nat n))) -> 0 <= i < n) as Hi.
  { intros i Hi. apply in_map_iff in Hi as (k & <- & Hk). apply in_seq in Hk. lia. }
  replace (Z.to_nat n) with (List.length (map Z.of_nat (seq 0 (Z.to_nat n)))) at 2 by (rewrite length_map, length_seq; reflexivity).
  induction (map Z.of_nat (seq 0 (Z.to_nat n))) as [|i l IH]; [cbn; lia|]. cbn [flat_map List.length]. rewrite size_app.
  pose proof (H i (Hi i ltac:(left; reflexivity))). specialize (IH ltac:(intros; apply Hi; right; assumption)). lia.
Qed.

(** A configuration the command line can ask for. *)
Record desc_ok (m : MachineDesc) : Prop := mk_desc_ok {
  d_ncpus : 0 <= ncpus m <= MAX_CPUS;
  d_virtio : 0 <= virtio_count m < 32;
  d_ram : in_u 64 (ram_base_addr m);
  d_clint : in_u 64 (clint_base_addr m);
  d_plic : in_u 64 (plic_base_addr m) }.

Lemma machine_size m c i : desc_ok m -> size_of (events (machine_tree m c i)) <= 1044 + 336 * ncpus m + 96 * virtio_count m + zlen c.
Proof.
  intros [Hn Hv Hr Hc Hp]. unfold machine_tree, soc_tree, chosen_tree, clint_tree, plic_tree. 
  pose proof (node_name_size "memory" 16 (ram_base_addr m) ltac:(unfold in_u in Hr; lia) ltac:(lia)) as H1. change (up4 (List.length (str "memory") + 16 + 2)) with 24 in H1.
  pose proof (node_name_size "clint" 16 (clint_base_addr m) ltac:(unfold in_u in Hc; lia) ltac:(lia)) as H2. change (up4 (List.length (str "clint") + 16 + 2)) with 24 in H2.
  pose proof (node_name_size "plic" 16 (plic_base_addr m) ltac:(unfold in_u in Hp; lia) ltac:(lia)) as H3. change (up4 (List.length (str "plic") + 16 + 2)) with 24 in H3.
  pose proof (sizes_of_nodes (cpu_tree m) 304 (ncpus m) ltac:(lia) ltac:(intros; apply cpu_size; unfold MAX_CPUS in Hn; lia)) as H4.
  pose proof (sizes_of_nodes (virtio_tree m) 96 (virtio_count m) ltac:(lia) ltac:(intros; apply virtio_size; lia)) as H5.
  pose proof (wired_length m 3 7 ltac:(lia)) as H6. pose proof (wired_length m 9 11 ltac:(lia)) as H7. pose proof (up4_le (List.length (text c))) as H8.
  unfold text in H8 at 2. rewrite length_app in H8. cbn [List.length] in H8.
  assert (size_of (flat_map events match fb_dev m with Some fb => [framebuffer_tree fb] | None => [] end) <= 172) as H9.
  { destruct (fb_dev m) as [fb|]; [|vm_compute; discriminate]. unfold framebuffer_tree. change (at_addr "framebuffer" 0x41000000) with (str "framebuffer@41000000"). sizes. lia. }
  assert (size_of (map (fun p => EProp (fst p) (snd p)) match i with Some (a, b) => [prop "linux,initrd-start" (cell64 a); prop "linux,initrd-end" (cell64 b)] | None => [] end) <= 40) as H10.
  { destruct i as [[a b]|]; [sizes; lia|vm_compute; discriminate]. }
  assert (size_of (flat_map events uart_trees) = 184) as H11 by (vm_compute; reflexivity).
  unfold zlen. sizes. rewrite !flat_map_app, !size_app. lia.
Qed.

(** The whole run: the blob the writer leaves behind. *)
Lemma build_fdt_blob m cmd_line a b : exists s names k1 k2, let blob := blob_of (tab s ++ be4 9) (table_of names) k1 k2 in
  holds s names (events (machine_tree m (default [] cmd_line) (initrd_of a b))) /\ (k1 < 8)%nat /\ (k2 < 8)%nat /\ (40 + zlen (tab s ++ be4 9) + Z.of_nat k1) mod 8 = 0 /\
  riscv_build_fdt m None cmd_line a b = Done (blob, zlen blob).
Proof.
  unfold riscv_build_fdt. rewrite run_bind. set (t := machine_tree m (default [] cmd_line) (initrd_of a b)).
  destruct (fdt_tree_emits m cmd_line a b fdt_init [] []) as (s & names & -> & H).
  { constructor; try reflexivity; [apply Forall_nil_2|apply NoDup_nil_2|exists []; split; [constructor|reflexivity]]. }
  fold t in H. cbn [app] in H. destruct (output_blob s names (events t) H (depth_events t)) as (s' & k1 & k2 & -> & Hk1 & Hk2 & Ha).
  exists s, names, k1, k2. cbv zeta. auto.
Qed.

(** Its size and its decoding. *)
Lemma build_fdt_run m cmd_line a b : desc_ok m -> zlen (default [] cmd_line) < 2 ^ 30 ->
  exists blob, riscv_build_fdt m None cmd_line a b = Done (blob, zlen blob) /\
    zlen blob <= 1454 + 336 * ncpus m + 96 * virtio_count m + zlen (default [] cmd_line) /\
    dt_decode blob = Some (machine_tree m (default [] cmd_line) (initrd_of a b)).
Proof.
  intros Hm Hc. destruct (build_fdt_blob m cmd_line a b) as (s & names & k1 & k2 & H & Hk1 & Hk2 & Ha & E). set (t := machine_tree m (default [] cmd_line) (initrd_of a b)) in *.
  pose proof H as [_ Hcs Hnd Hus Het _ _ _]. pose proof (encodes_zlen _ _ _ Het) as Ez. pose proof (machine_size m (default [] cmd_line) (initrd_of a b) Hm) as Hsz. fold t in Hsz.
  pose proof (table_bound names m (default [] cmd_line) (initrd_of a b) Hnd Hus) as Htb. destruct Hm as [Hn Hv _ _ _]. unfold MAX_CPUS in Hn.
  assert (zlen (tab s ++ be4 9) = zlen (tab s) + 4) as Eb by (rewrite zlen_app; reflexivity).
  eexists. split; [exact E|]. rewrite zlen_blob. split; [lia|]. apply (dt_decode_blob _ _ _ _ (events t)); [rewrite zlen_blob; lia|exact Ha| |apply build_events].
  apply decode_encodes; [exact Hcs|lia|exact Het|lia|]. pose proof (encodes_size _ _ _ Het). lia.
Qed.

(** C22 The device tree blob is right: for every configuration of at most 8 harts and 31 virtio devices, every
    command line and initial RAM disk, [riscv_build_fdt] succeeds without a write outside its buffers, the blob is a
    well-formed version 17 device tree, and decoding it gives the tree of the machine: each hart with its ISA string
    and interrupt controller, RAM, the CLINT and PLIC wired to the harts' controllers, the virtio devices wired to
    the PLIC, the serial ports, frame buffer, command line and initial RAM disk. *)
Theorem fdt_describes_machine m cmd_line a b : desc_ok m -> zlen (default [] cmd_line) < 2 ^ 30 ->
  exists blob, riscv_build_fdt m None cmd_line a b = Done (blob, zlen blob) /\
    dt_decode blob = Some (machine_tree m (default [] cmd_line) (initrd_of a b)).
Proof. intros Hm Hc. destruct (build_fdt_run m cmd_line a b Hm Hc) as (blob & E & _ & D). eauto. Qed.

(** One hart, 256 MiB of RAM, a console. *)
Definition demo_desc : MachineDesc := mkMachineDesc 1 (fun _ => 0x14112d) 0x80000000 0x10000000 0x2000000 0xc0000 0x10000000 0x2000000 1 None.

Lemma demo_desc_ok : desc_ok demo_desc.
Proof. constructor; vm_compute; split; first [discriminate | reflexivity]. Qed.

Lemma fdt_describes_machine_witness : exists blob, riscv_build_fdt demo_desc None (Some (str "root=/dev/vda")) 0 0 = Done (blob, zlen blob) /\
  dt_decode blob = Some (machine_tree demo_desc (str "root=/dev/vda") None).
Proof. apply (fdt_describes_machine demo_desc (Some (str "root=/dev/vda")) 0 0 demo_desc_ok). reflexivity. Defined.

(** ** The blob is made of bytes *)

Lemma land255_byte x : in_u 8 (x &' 255).
Proof. change 255 with (Z.ones 8). rewrite Z.land_ones by lia. apply Z.mod_pos_bound. reflexivity. Qed.
Lemma bytes_be4 v : is_bytes (be4 v).
Proof. repeat constructor; apply land255_byte. Qed.
Lemma bytes_app a b : is_bytes a -> is_bytes b -> is_bytes (a ++ b).
Proof. intros. apply Forall_app_2; assumption. Qed.
Lemma bytes_cells l : is_bytes (cells l).
Proof. induction l as [|v l IH]; [constructor|]. apply bytes_app; [apply bytes_be4|exact IH]. Qed.
Lemma bytes_cell64 v : is_bytes (cell64 v).
Proof. apply bytes_cells. Qed.
Lemma bytes_str s : is_bytes (str s).
Proof.
  apply Forall_map, Forall_forall. intros c _. split; [apply N2Z.is_nonneg|]. change (2 ^ 8) with (Z.of_N 256). apply N2Z.inj_lt, N_ascii_bounded.
Qed.
Lemma bytes_text s : is_bytes s -> is_bytes (text s).
Proof. intros H. apply bytes_app; [exact H|]. repeat constructor; discriminate. Qed.
Lemma bytes_zeros n : is_bytes (replicate n 0).
Proof. apply Forall_replicate. split; [discriminate|reflexivity]. Qed.

Lemma bytes_hex n : is_bytes (hex n).
Proof.
  unfold hex. assert (is_bytes []) as H0 by constructor. revert H0. generalize ([] : list Z). generalize 16%nat. intros fuel. revert n.
  induction fuel as [|fuel IH]; intros n acc Hacc; [exact Hacc|]. cbn [hex_loop].
  assert (is_bytes (hex_digit (n mod 16) :: acc)) as Hd.
  { constructor; [|exact Hacc]. pose proof (Z.mod_pos_bound n 16 ltac:(lia)). unfold hex_digit, in_u. destruct (Z.ltb_spec (n mod 16) 10); lia. }
  cbv zeta. destruct (n / 16 =? 0); [exact Hd|apply IH, Hd].
Qed.

Lemma bytes_at_addr s a : is_bytes (at_addr s a).
Proof. apply bytes_app; [apply bytes_str|]. constructor; [split; [discriminate|reflexivity]|apply bytes_hex]. Qed.

Lemma bytes_isa misa : is_bytes (isa_string misa).
Proof.
  apply bytes_app; [apply bytes_str|]. apply Forall_map, Forall_forall. intros i Hi. apply list_elem_of_In, filter_In in Hi as [Hi _].
  apply in_map_iff in Hi as (k & <- & Hk). apply in_seq in Hk. unfold in_u. lia.
Qed.

Lemma bytes_nil : is_bytes [].
Proof. constructor. Qed.

Lemma bytes_flat_map {A} (f : A -> list Z) l : (forall x, is_bytes (f x)) -> is_bytes (flat_map f l).
Proof. intros H. induction l as [|x l IH]; [constructor|]. apply bytes_app; [apply H|exact IH]. Qed.

Create HintDb bytes.
#[export] Hint Resolve bytes_app bytes_cells bytes_cell64 bytes_str bytes_text bytes_at_addr bytes_isa bytes_flat_map bytes_nil : bytes.

(** The names and values of a tree are bytes. *)
Unset Elimination Schemes.
Inductive node_bytes : dnode -> Prop :=
| node_bytes_intro n ps cs : is_bytes n -> Forall (fun p => is_bytes (fst p) /\ is_bytes (snd p)) ps -> Forall node_bytes cs -> node_bytes (DNode n ps cs).
Set Elimination Schemes.

Ltac nodes := repeat match goal with
  | |- is_bytes _ => unfold wired; solve [auto 10 with bytes]
  | |- _ /\ _ => split; cbn [fst snd prop]
  | |- Forall _ (map _ _) => apply Forall_map, Forall_forall; intros ? _; unfold compose
  | |- Forall _ (_ ++ _) => apply Forall_app_2
  | |- Forall _ (_ :: _) => apply Forall_cons_2
  | |- Forall _ _ => apply Forall_nil_2
  | |- node_bytes _ => apply node_bytes_intro
  end.

Lemma machine_tree_bytes m cmd i : is_bytes cmd -> node_bytes (machine_tree m cmd i).
Proof.
  intros Hc. unfold machine_tree, soc_tree, chosen_tree. unfold uart_trees. destruct (fb_dev m), i as [[a b]|]; nodes.
Qed.

Definition event_bytes (e : event) : Prop :=
  match e with EBegin n => is_bytes n | EProp n d => is_bytes n /\ is_bytes d | EEnd => True end.

Lemma events_bytes : forall t, node_bytes t -> Forall event_bytes (events t).
Proof.
  fix IH 2. intros t [n ps cs Hn Hp Hc]. cbn [events]. constructor; [exact Hn|]. apply Forall_app_2; [|apply Forall_app_2; [|repeat constructor]].
  - apply Forall_map. exact Hp.
  - induction Hc as [|c cs H Hc IHc]; [constructor|]. cbn [flat_map]. apply Forall_app_2; [apply IH, H|exact IHc].
Qed.

Lemma encodes_bytes names evs bytes : encodes names evs bytes -> Forall event_bytes evs -> is_bytes bytes.
Proof.
  intros (ps & Hps & ->) Hev. induction Hps as [|e p evs ps Hp Hps IH]; [constructor|]. inversion_clear Hev. cbn [List.concat].
  apply bytes_app; [|apply IH; assumption]. destruct e as [n|n d|]; cbn [event_bytes piece] in H, Hp.
  - destruct Hp as [_ ->]. auto 10 using bytes_be4, bytes_zeros with bytes.
  - destruct Hp as (b & a & _ & ->). destruct H. auto 10 using bytes_be4, bytes_zeros with bytes.
  - rewrite Hp. apply bytes_be4.
Qed.

Lemma table_bytes evs names : names ⊆ prop_names evs -> Forall event_bytes evs -> is_bytes (table_of names).
Proof.
  intros Hs He. induction names as [|n names IH]; [constructor|]. apply bytes_app; [|apply IH; intros x Hx; apply Hs; right; exact Hx].
  apply bytes_text. assert (n ∈ prop_names evs) as Hn by (apply Hs; left). unfold prop_names in Hn. apply list_elem_of_omap in Hn as (e & He' & Hn).
  destruct e as [|n' d|]; try discriminate. injection Hn as ->. rewrite Forall_forall in He. apply (He _ He').
Qed.

Lemma blob_bytes block table k1 k2 : is_bytes block -> is_bytes table -> is_bytes (blob_of block table k1 k2).
Proof.
  intros Hb Ht. unfold blob_of. cbv zeta. apply bytes_app; [apply bytes_cells|]. apply bytes_app; [exact Hb|]. apply bytes_app; [apply bytes_zeros|].
  apply bytes_app; [apply bytes_zeros|]. apply bytes_app; [exact Ht|apply bytes_zeros].
Qed.

Lemma build_fdt_bytes m cmd_line a b blob n : riscv_build_fdt m None cmd_line a b = Done (blob, n) -> is_bytes (default [] cmd_line) -> is_bytes blob.
Proof.
  intros E Hc. pose proof (events_bytes _ (machine_tree_bytes m _ (initrd_of a b) Hc)) as Hb.
  destruct (build_fdt_blob m cmd_line a b) as (s & names & k1 & k2 & H & _ & _ & _ & E'). rewrite E in E'. injection E' as -> _.
  apply blob_bytes; [apply bytes_app; [apply (encodes_bytes _ _ _ (h_tab _ _ _ H) Hb)|apply bytes_be4]|apply (table_bytes _ _ (h_used _ _ _ H) Hb)].
Qed.
