(* ===== verification/Elf.v ===== *)
(** * ELF images ([elf64.cpp])

    The checks on a firmware image and the symbol lookup.  An image is the list of
    its bytes; a read outside it is undefined behaviour, so the theorems say
    which images are read safely. *)

From S2P Require Import Prelude Cutils.
From stdpp Require Import base list.
From Stdlib Require Import ZArith Lia Bool.
Local Open Scope Z_scope.
Local Open Scope bits_scope.

Section Image.
Variable image : list Z.

Definition image_size : Z := Z.of_nat (length image).

(** Fields at an offset from the start of the image: the structures of [elf.h]. *)
Definition at_off (off n : Z) : res (list Z) :=
  if (0 <=? off) && (off + n <=? image_size) then Done (drop (Z.to_nat off) image) else Stop UndefinedBehaviour.
Definition rd8 (off : Z) : res Z := l ← at_off off 1; Done (aget l 0).
Definition rd16 (off : Z) : res Z := l ← at_off off 2; Done (get_le16 l).
Definition rd32 (off : Z) : res Z := l ← at_off off 4; Done (get_le32 l).
Definition rd64 (off : Z) : res Z := l ← at_off off 8; Done (get_le64 l).

Definition SIZEOF_EHDR : Z := 64.
Definition SIZEOF_PHDR : Z := 56.
Definition SIZEOF_SHDR : Z := 64.
Definition SIZEOF_SYM : Z := 24.
Definition EM_RISCV : Z := 0xF3.

Definition e_machine : res Z := rd16 18.
Definition e_entry : res Z := rd64 24.
Definition e_phoff : res Z := rd64 32.
Definition e_shoff : res Z := rd64 40.
Definition e_ehsize : res Z := rd16 52.
Definition e_phentsize : res Z := rd16 54.
Definition e_phnum : res Z := rd16 56.
Definition e_shnum : res Z := rd16 60.
Definition e_shstrndx : res Z := rd16 62.

(** [strncmp(e_ident, ELFMAG, 4)], class 64, little endian, RISC-V, and the expected structure sizes. *)
Definition elf64_is_riscv64 : res bool :=
  if image_size <? SIZEOF_EHDR then Done false
  else if negb (bool_decide (take 4 image = [0x7f; 69; 76; 70])) then Done false
  else
    c ← rd8 4;
    if negb (c =? 2) then Done false
    else
      d ← rd8 5;
      if negb (d =? 1) then Done false
      else
        m ← e_machine;
        if negb (m =? EM_RISCV) then Done false
        else
          h ← e_ehsize;
          if negb (h =? SIZEOF_EHDR) then Done false
          else
            p ← e_phentsize;
            if negb (p =? SIZEOF_PHDR) then Done false else Done true.

Definition elf64_get_entrypoint : res Z := e_entry.

(** [strcmp(key, image + off) == 0]: stops at the first difference. *)
Fixpoint str_at (off : Z) (key : list Z) : res bool :=
  match key with
  | [] => c ← rd8 off; Done (c =? 0)
  | k :: key => c ← rd8 off; if c =? k then str_at (off + 1) key else Done false
  end.

(** The loop over the section headers: the string table that is not the section names', and the symbol table with its
    number of entries, the last of each kind. *)
Fixpoint find_tables (n : nat) (i shdr shstrndx : Z) (strtab : option Z) (symtab : option (Z * Z)) : res (option Z * option (Z * Z)) :=
  match n with
  | O => Done (strtab, symtab)
  | S n =>
      let sh := shdr + i * SIZEOF_SHDR in
      sh_type ← rd32 (sh + 4);
      strtab ← (if (sh_type =? 3) && negb (i =? shstrndx) then o ← rd64 (sh + 24); Done (Some (s64 o)) else Done strtab);
      symtab ← (if sh_type =? 2
                then o ← rd64 (sh + 24); len ← rd64 (sh + 32); Done (Some (s64 o, s32 (len / SIZEOF_SYM)))
                else Done symtab);
      find_tables n (i + 1) shdr shstrndx strtab symtab
  end.

(** The loop over the symbols. *)
Fixpoint find_symbol (n : nat) (i symtab strtab : Z) (key : list Z) : res (option Z) :=
  match n with
  | O => Done None
  | S n =>
      let sym := symtab + i * SIZEOF_SYM in
      st_name ← rd32 sym;
      same ← str_at (strtab + st_name) key;
      global ← (if (same : bool) then st_info ← rd8 (sym + 4); Done (st_info >>' 4 =? 1) else Done false);
      if (global : bool) then st_value ← rd64 (sym + 8); Done (Some st_value)
      else find_symbol n (i + 1) symtab strtab key
  end.

Definition elf64_find_global (key : list Z) : res (option Z) :=
  shoff ← e_shoff;
  if u64 (shoff + SIZEOF_SHDR - 1) >? image_size then Done None
  else
    let shdr := s64 shoff in
    shstrndx ← e_shstrndx;
    if shdr + (shstrndx + 1) * SIZEOF_SHDR >? image_size then Done None
    else
      shnum ← e_shnum;
      if shdr + shnum * SIZEOF_SHDR >? image_size then Done None
      else
        '(strtab, symtab) ← find_tables (Z.to_nat shnum) 0 shdr shstrndx None None;
        match strtab, symtab with
        | Some strtab, Some (symtab, symtab_len) =>
            if symtab + symtab_len * SIZEOF_SYM >? image_size then Done None
            else find_symbol (Z.to_nat symtab_len) 0 symtab strtab key
        | _, _ => Done None
        end.

(** ** Properties *)

(** Checking an image never reads outside it. *)
Lemma at_off_ok off n : 0 <= off -> off + n <= image_size -> at_off off n = Done (drop (Z.to_nat off) image).
Proof. intros H1 H2. unfold at_off. destruct (Z.leb_spec 0 off), (Z.leb_spec (off + n) image_size); try lia. reflexivity. Qed.

Lemma is_riscv64_total : exists b, elf64_is_riscv64 = Done b /\ (b = true -> SIZEOF_EHDR <= image_size).
Proof.
  unfold elf64_is_riscv64. destruct (Z.ltb_spec image_size SIZEOF_EHDR) as [H|H]; [exists false; split; [reflexivity|discriminate]|]. unfold SIZEOF_EHDR in H.
  destruct (negb (bool_decide _)); [exists false; split; [reflexivity|discriminate]|].
  unfold e_machine, e_ehsize, e_phentsize, rd8, rd16.
  rewrite (at_off_ok 4 1), (at_off_ok 5 1), (at_off_ok 18 2), (at_off_ok 52 2), (at_off_ok 54 2) by lia. cbn [mbind res_bind].
  do 5 (case_match; [exists false; split; [reflexivity|discriminate]|]).
  exists true. split; [reflexivity|intros _; exact H].
Qed.

(** A terminated string inside the image. *)
Definition name_at_off (off : Z) (name : list Z) : Prop :=
  0 <= off /\ off + Z.of_nat (length name) < image_size /\ Forall (fun c => c <> 0) name /\ take (length name + 1) (drop (Z.to_nat off) image) = name ++ [0].

Lemma str_at_spec key : Forall (fun c => c <> 0) key -> forall off name, name_at_off off name -> str_at off key = Done (bool_decide (key = name)).
Proof.
  induction 1 as [|k key Hk Hkey IH]; intros off name (H0 & H1 & Hn & E); cbn [str_at]; unfold rd8; rewrite at_off_ok by lia; cbn [mbind res_bind];
    destruct (drop (Z.to_nat off) image) as [|c l] eqn:Ed; try (destruct name; discriminate).
  - change (aget (c :: l) 0) with c. destruct name as [|n name]; cbn in E; [injection E as ->; reflexivity|]. injection E as -> E. inversion Hn; subst.
    destruct (Z.eqb_spec n 0); [contradiction|]. rewrite bool_decide_false by discriminate. reflexivity.
  - change (aget (c :: l) 0) with c. destruct name as [|n name]; cbn in E; [injection E as ->|injection E as -> E].
    + destruct (Z.eqb_spec 0 k); [congruence|]. rewrite bool_decide_false by discriminate. reflexivity.
    + inversion Hn as [|? ? Hn0 Hn']; subst. destruct (Z.eqb_spec n k) as [->|Hne]; [|rewrite bool_decide_false by congruence; reflexivity].
      rewrite (IH (off + 1) name).
      * f_equal. apply bool_decide_ext. split; [intros ->; reflexivity|congruence].
      * cbn [length] in H1. split; [lia|]. split; [lia|]. split; [exact Hn'|].
        replace (Z.to_nat (off + 1)) with (Z.to_nat off + 1)%nat by lia. rewrite <- drop_drop, Ed. exact E.
Qed.

(** A symbol table entry. *)
Record Sym := mkSym { sym_name : list Z; sym_bind : Z; sym_value : Z }.

Definition symbol_at (symtab strtab i : Z) (y : Sym) : Prop :=
  let sym := symtab + i * SIZEOF_SYM in
  0 <= sym /\ sym + SIZEOF_SYM <= image_size /\
  (exists n, rd32 sym = Done n /\ name_at_off (strtab + n) (sym_name y)) /\
  (exists f, rd8 (sym + 4) = Done f /\ f >>' 4 = sym_bind y) /\ rd64 (sym + 8) = Done (sym_value y).

(** The value of the first global symbol of that name. *)
Fixpoint lookup_global (syms : list Sym) (key : list Z) : option Z :=
  match syms with
  | [] => None
  | y :: syms => if bool_decide (key = sym_name y) && (sym_bind y =? 1) then Some (sym_value y) else lookup_global syms key
  end.

Lemma find_symbol_spec key symtab strtab syms : Forall (fun c => c <> 0) key ->
  forall i, (forall k y, syms !! k = Some y -> symbol_at symtab strtab (i + Z.of_nat k) y) ->
  find_symbol (length syms) i symtab strtab key = Done (lookup_global syms key).
Proof.
  intros Hkey. induction syms as [|y syms IH]; intros i H; [reflexivity|]. cbn [length find_symbol lookup_global].
  destruct (H 0%nat y eq_refl) as (H0 & H1 & (n & En & Hn) & (f & Ef & Eb) & Ev). rewrite Z.add_0_r in *.
  rewrite En. cbn [mbind res_bind]. rewrite (str_at_spec key Hkey _ _ Hn). cbn [mbind res_bind].
  assert (find_symbol (length syms) (i + 1) symtab strtab key = Done (lookup_global syms key)) as IH'.
  { apply IH. intros k y' Hk. replace (i + 1 + Z.of_nat k) with (i + Z.of_nat (S k)) by lia. apply H. exact Hk. }
  case_bool_decide; [rewrite Ef; cbn [mbind res_bind]; rewrite Eb; destruct (sym_bind y =? 1); [rewrite Ev; reflexivity|]|]; exact IH'.
Qed.

(** A section header. *)
Record Sec := mkSec { sec_type : Z; sec_offset : Z; sec_size : Z }.

Definition section_at (shdr i : Z) (x : Sec) : Prop :=
  let sh := shdr + i * SIZEOF_SHDR in
  rd32 (sh + 4) = Done (sec_type x) /\ rd64 (sh + 24) = Done (sec_offset x) /\ rd64 (sh + 32) = Done (sec_size x) /\
  0 <= sec_offset x < 2 ^ 63 /\ 0 <= sec_size x < 2 ^ 31.

(** The last section of type [t], the one numbered [skip] apart. *)
Fixpoint last_section (t skip i : Z) (secs : list Sec) (acc : option Sec) : option Sec :=
  match secs with
  | [] => acc
  | x :: secs => last_section t skip (i + 1) secs (if (sec_type x =? t) && negb (i =? skip) then Some x else acc)
  end.

Lemma find_tables_spec shdr ndx secs : forall i a b, 0 <= i -> (forall k x, secs !! k = Some x -> section_at shdr (i + Z.of_nat k) x) ->
  find_tables (length secs) i shdr ndx (sec_offset <$> a) ((fun x => (sec_offset x, sec_size x / SIZEOF_SYM)) <$> b) =
  Done (sec_offset <$> last_section 3 ndx i secs a, (fun x => (sec_offset x, sec_size x / SIZEOF_SYM)) <$> last_section 2 (-1) i secs b).
Proof.
  induction secs as [|x secs IH]; intros i a b Hi H; [reflexivity|]. cbn [length find_tables last_section].
  destruct (H 0%nat x eq_refl) as (E1 & E2 & E3 & Ho & Hs). rewrite Z.add_0_r in *. rewrite E1. cbn [mbind res_bind]. rewrite E2. cbn [mbind res_bind]. rewrite E3. cbn [mbind res_bind].
  assert (s64 (sec_offset x) = sec_offset x) as -> by (apply wraps_small; lia).
  assert (s32 (sec_size x / SIZEOF_SYM) = sec_size x / SIZEOF_SYM) as ->.
  { apply wraps_small; [lia|]. unfold SIZEOF_SYM. Z.to_euclidean_division_equations. lia. }
  assert (negb (i =? -1) = true) as -> by (apply negb_true_iff, Z.eqb_neq; lia). rewrite andb_true_r.
  rewrite <- IH; [|lia|intros k y Hk; replace (i + 1 + Z.of_nat k) with (i + Z.of_nat (S k)) by lia; apply H; exact Hk].
  destruct (sec_type x =? 2), ((sec_type x =? 3) && negb (i =? ndx)); reflexivity.
Qed.

(** Symbol lookup in a well-formed image reads only the image and finds the value of the first global symbol of the name. *)
Lemma find_global_correct key shoff ndx secs strs syts syms : Forall (fun c => c <> 0) key ->
  e_shoff = Done shoff -> e_shstrndx = Done ndx -> e_shnum = Done (Z.of_nat (length secs)) ->
  0 <= shoff -> 0 <= ndx < Z.of_nat (length secs) -> shoff + Z.of_nat (length secs) * SIZEOF_SHDR <= image_size -> image_size < 2 ^ 63 ->
  (forall k x, secs !! k = Some x -> section_at shoff (Z.of_nat k) x) ->
  last_section 3 ndx 0 secs None = Some strs -> last_section 2 (-1) 0 secs None = Some syts ->
  sec_size syts / SIZEOF_SYM = Z.of_nat (length syms) -> sec_offset syts + Z.of_nat (length syms) * SIZEOF_SYM <= image_size ->
  (forall k y, syms !! k = Some y -> symbol_at (sec_offset syts) (sec_offset strs) (Z.of_nat k) y) ->
  elf64_find_global key = Done (lookup_global syms key).
Proof.
  intros Hkey E1 E2 E3 H0 Hn Hsz Hlim Hsec L3 L2 Hlen Hsy Hsyms. unfold elf64_find_global. rewrite E1, E2, E3. cbn [mbind res_bind]. unfold SIZEOF_SHDR in *.
  rewrite u64_id by (unfold in_u; lia). assert (s64 shoff = shoff) as -> by (apply wraps_small; lia).
  destruct (Z.gtb_spec (shoff + 64 - 1) image_size); [lia|]. destruct (Z.gtb_spec (shoff + (ndx + 1) * 64) image_size); [lia|].
  destruct (Z.gtb_spec (shoff + Z.of_nat (length secs) * 64) image_size); [lia|]. rewrite Nat2Z.id.
  pose proof (find_tables_spec shoff ndx secs 0 None None ltac:(lia) Hsec) as Et. cbn [fmap option_fmap option_map] in Et. rewrite Et. clear Et. cbn [mbind res_bind]. rewrite L3, L2. cbn [fmap option_fmap option_map]. rewrite Hlen.
  destruct (Z.gtb_spec (sec_offset syts + Z.of_nat (length syms) * SIZEOF_SYM) image_size); [lia|]. rewrite Nat2Z.id. apply find_symbol_spec; [exact Hkey|exact Hsyms].
Qed.
End Image.
