(* ===== verification/Boot.v ===== *)
(** * Loading the guest ([load_elf_image], [load_bootrom] and [copy_kernel] of [riscv_machine.cpp])

    The firmware, kernel and initial RAM disk are copied to RAM, the boot code
    and the device tree to ROM, and the harts start in debug mode at the boot
    code, which hands over to the firmware.

    Host files are arguments: their contents and what the reads returned.  A copy
    that does not fit the buffer of its range is undefined behaviour. *)

From S2P Require Import Prelude Riscv Cutils Iomem Hostmem Bytes CpuState CpuWf Csr Trap Mmu Alu Exec ExecWf Interp BootRom BootExec Fdt FdtSpec Elf.
From Stdlib Require Import ZArith Lia Bool String.
From stdpp Require Import base list gmap.
Local Open Scope Z_scope.
Local Open Scope bits_scope.
Local Open Scope list_scope.

Definition KERNEL_OFFSET : Z := 0x200000.

(** What the loader changes of the machine. *)
Record Loader := mkLoader {
  l_map : PhysMemoryMap;
  l_mem : hostmem;
  l_tohost : Z;
  l_harts : list RISCVCPUState }.

Abbreviation LM := (SM Loader).

(** [get_ram_ptr]: the RAM range behind the address; [None] is NULL. *)
Definition get_ram_ptr (m : PhysMemoryMap) (paddr : Z) : option PhysMemoryRange :=
  match get_phys_mem_range m paddr with
  | Some (_, pr) => if pr_is_ram pr then Some pr else None
  | None => None
  end.

(** [memcpy(get_ram_ptr(s, paddr), data, len)]. *)
Definition ram_copy (paddr : Z) (data : list Z) : LM unit := fun s =>
  match data with
  | [] => Done (tt, s)
  | _ =>
      match get_ram_ptr (l_map s) paddr with
      | Some pr =>
          if paddr - pr_addr pr + zlen data <=? pr_org_size pr
          then Done (tt, mkLoader (l_map s) (st_bytes (l_mem s) (host_ptr pr paddr) data) (l_tohost s) (l_harts s))
          else Stop UndefinedBehaviour
      | None => Stop UndefinedBehaviour
      end
  end.

(** [alloc] is the host's allocator: the address of the next buffer, given how many there are. *)
Fixpoint load_segments (alloc : nat -> option Z) (image : list Z) (n : nat) (ph : Z) : LM unit :=
  match n with
  | O => mret tt
  | S n =>
      p_type ← liftr (rd32 image ph);
      _ ← (if p_type =? 1 then
             p_memsz ← liftr (rd64 image (ph + 40));
             p_vaddr ← liftr (rd64 image (ph + 16));
             p_offset ← liftr (rd64 image (ph + 8));
             p_filesz ← liftr (rd64 image (ph + 32));
             let rounded_size := u64 (p_memsz + DEVRAM_PAGE_SIZE - 1) &' not64 (DEVRAM_PAGE_SIZE - 1) in
             s ← gets id;
             _ ← match get_phys_mem_range (l_map s) p_vaddr with
                 | None => stop UndefinedBehaviour
                 | Some (_, pr) =>
                     if negb (pr_addr pr =? RAM_BASE_ADDR) then
                       r ← liftr (default_register_ram (l_map s) p_vaddr rounded_size 0 (alloc (List.length (phys_mem_range (l_map s)))));
                       modify (fun s => mkLoader (fst r) (l_mem s) (l_tohost s) (l_harts s))
                     else mret tt
                 end;
             _ ← liftr (at_off image p_offset p_filesz);
             ram_copy p_vaddr (take (Z.to_nat p_filesz) (drop (Z.to_nat p_offset) image))
           else mret tt);
      load_segments alloc image n (ph + SIZEOF_PHDR)
  end.

Definition load_elf_image (alloc : nat -> option Z) (image : list Z) : LM unit :=
  phoff ← liftr (e_phoff image);
  phnum ← liftr (e_phnum image);
  load_segments alloc image (Z.to_nat phnum) (s64 phoff).

(** The hardcoded boot code. *)
Definition boot_words (ncpus ram_base_addr : Z) : list Z :=
  [0xf1402573]
  ++ (if ncpus =? 1 then [0x00050663; 0x10500073; 0xffdff06f] else [0x00000013; 0x00000013; 0x00000013])
  ++ [0x00000597; 0x0f058593; 0x60300413; 0x7b041073]
  ++ (if ram_base_addr =? 0xC000000000 then [0x0030041b; 0x02641413]
      else 0x0010041b :: (if ram_base_addr =? 0x80000000 then [0x01f41413] else [0x02741413]))
  ++ [0x7b141073; 0x7b200073].

Definition words_bytes (l : list Z) : list Z := flat_map mem32 l.

(** A file and the number of bytes that [fread] returned of it. *)
Definition host_file : Type := list Z * Z.

(** [load_bootrom]: the size of the file, or -1, converted to [uint32_t] by the caller. *)
Definition load_bootrom (f : host_file) : LM Z :=
  _ ← ram_copy BOOT_BASE_ADDR (take (Z.to_nat (snd f)) (fst f));
  mret (if negb (snd f =? zlen (fst f)) then u32 (-1) else u32 (zlen (fst f))).

Record LoadConfig := mkLoadConfig {
  desc : MachineDesc;
  compact_bootrom : bool;
  fw_buf : list Z;
  kernel_buf : list Z;
  initrd_buf : list Z;
  bootrom_file : option host_file;
  dtb_file : option host_file;
  cmd_line : option (list Z) }.

(** The firmware: an ELF image is loaded by its segments and may move the host interface. *)
Definition copy_firmware (alloc : nat -> option Z) (c : LoadConfig) : LM Z :=
  let m := desc c in
  is_elf ← liftr (elf64_is_riscv64 (fw_buf c));
  if (is_elf : bool) then
    entry ← liftr (elf64_get_entrypoint (fw_buf c));
    if negb (entry =? ram_base_addr m) then mret 1
    else
      _ ← load_elf_image alloc (fw_buf c);
      r ← liftr (elf64_find_global (fw_buf c) (str "tohost"%string));
      _ ← match r with Some v => modify (fun s => mkLoader (l_map s) (l_mem s) v (l_harts s)) | None => mret tt end;
      mret 0
  else _ ← ram_copy (ram_base_addr m) (fw_buf c); mret 0.

Definition copy_kernel_image (c : LoadConfig) : LM Z :=
  let m := desc c in
  if zlen (kernel_buf c) =? 0 then mret 0
  else if ram_size m <=? KERNEL_OFFSET then mret 1
  else if zlen (kernel_buf c) >? ram_size m - KERNEL_OFFSET then mret 1
  else _ ← ram_copy (u64 (ram_base_addr m + KERNEL_OFFSET)) (kernel_buf c); mret 0.

(** The result, [initrd_start] and [initrd_end]. *)
Definition copy_initrd (c : LoadConfig) : LM (Z * Z * Z) :=
  let m := desc c in
  if zlen (initrd_buf c) =? 0 then mret (0, 0, 0)
  else if zlen (initrd_buf c) >? ram_size m then mret (1, 0, 0)
  else
    let initrd_end := u64 (ram_base_addr m + ram_size m) in
    let initrd_start := u64 (initrd_end - zlen (initrd_buf c)) in
    let initrd_start := (initrd_start >>' 12) <<' 12 in
    _ ← ram_copy initrd_start (initrd_buf c);
    mret (0, initrd_start, initrd_end).

Definition copy_bootrom (c : LoadConfig) : LM Z :=
  match bootrom_file c with
  | Some f => load_bootrom f
  | None => _ ← ram_copy BOOT_BASE_ADDR (words_bytes (boot_words (ncpus (desc c)) (ram_base_addr (desc c)))); mret (13 * 4)
  end.

Definition known_base (a : Z) : bool := (a =? 0x80000000) || (a =? 0x8000000000) || (a =? 0xC000000000).

(** 0, or the code of the failure; [bootromSzBytes < 0] compares an unsigned number. *)
Definition copy_kernel (alloc : nat -> option Z) (c : LoadConfig) : LM Z :=
  let m := desc c in
  if zlen (fw_buf c) >? ram_size m then mret 1
  else
    r ← copy_firmware alloc c;
    if negb (r =? 0) then mret 1
    else
      _ ← (if negb (known_base (ram_base_addr m))
           then _ ← liftr (elf64_get_entrypoint (fw_buf c)); stop AssertFailed else mret tt);
      r ← copy_kernel_image c;
      if negb (r =? 0) then mret 1
      else
        '(r, initrd_start, initrd_end) ← copy_initrd c;
        if negb (r =? 0) then mret 1
        else
          bootromSzBytes ← copy_bootrom c;
          if bootromSzBytes <? 0 then mret 1
          else
            let fdt_off := BOOT_BASE_ADDR - ROM_BASE_ADDR in
            let fdt_off := if compact_bootrom c then u32 (fdt_off + bootromSzBytes) else fdt_off + 256 in
            '(blob, size) ← liftr (riscv_build_fdt m (dtb_file c) (cmd_line c) initrd_start initrd_end);
            _ ← ram_copy (ROM_BASE_ADDR + fdt_off) blob;
            if size <? 0 then mret (-1)
            else
              _ ← modify (fun s => mkLoader (l_map s) (l_mem s) (l_tohost s) (map (riscv_set_debug_mode true) (l_harts s)));
              mret 0.

(** ** Loading *)

(** The bytes [l] at offset [off] of the buffer of a range. *)
Definition bytes_at (m : hostmem) (pr : PhysMemoryRange) (off : Z) (l : list Z) : Prop :=
  forall i, 0 <= i < zlen l -> ld8 m (pr_phys_mem pr + off + i) = aget l i.

Lemma bytes_at_written m pr off l : bytes_at (st_bytes m (pr_phys_mem pr + off) l) pr off l.
Proof.
  intros i Hi. rewrite st_bytes_ld8. destruct (Z.leb_spec (pr_phys_mem pr + off) (pr_phys_mem pr + off + i)), (Z.ltb_spec (pr_phys_mem pr + off + i) (pr_phys_mem pr + off + zlen l)); try lia.
  cbn [andb]. f_equal. lia.
Qed.

Lemma bytes_at_kept m pr off l p l' : bytes_at m pr off l ->
  zlen l' = 0 \/ p + zlen l' <= pr_phys_mem pr + off \/ pr_phys_mem pr + off + zlen l <= p ->
  bytes_at (st_bytes m p l') pr off l.
Proof.
  intros H Hd i Hi. rewrite st_bytes_ld8. destruct (Z.leb_spec p (pr_phys_mem pr + off + i)), (Z.ltb_spec (pr_phys_mem pr + off + i) (p + zlen l')); try lia; exact (H i Hi).
Qed.

(** The range [pr] answers all its addresses, from a buffer of the host. *)
Record covers (m : PhysMemoryMap) (pr : PhysMemoryRange) : Prop := mk_covers {
  cv_ram : pr_is_ram pr = true;
  cv_addr : 0 <= pr_addr pr /\ 0 <= pr_org_size pr /\ pr_addr pr + pr_org_size pr < 2 ^ 64;
  cv_host : 0 <= pr_phys_mem pr /\ pr_phys_mem pr + pr_org_size pr <= 2 ^ 64;
  cv_found : forall a, pr_addr pr <= a < pr_addr pr + pr_org_size pr -> exists i, get_phys_mem_range m a = Some (i, pr) }.

Definition with_mem (f : hostmem -> hostmem) (s : Loader) : Loader := mkLoader (l_map s) (f (l_mem s)) (l_tohost s) (l_harts s).

Lemma ram_copy_run pr off data s a : covers (l_map s) pr -> a = pr_addr pr + off -> 0 <= off -> off + zlen data <= pr_org_size pr ->
  ram_copy a data s = Done (tt, with_mem (fun m => st_bytes m (pr_phys_mem pr + off) data) s).
Proof.
  intros [Hr Ha Hh Hf] -> H0 H1. destruct data as [|b data]; [destruct s; reflexivity|]. unfold ram_copy. set (d := b :: data) in *.
  assert (0 < zlen d) by (unfold d, zlen; cbn [List.length]; lia). destruct (Hf (pr_addr pr + off) ltac:(lia)) as [i Hi]. unfold get_ram_ptr. rewrite Hi, Hr.
  replace (pr_addr pr + off - pr_addr pr) with off by lia. destruct (Z.leb_spec (off + zlen d) (pr_org_size pr)); [|lia].
  unfold with_mem, host_ptr. replace (pr_addr pr + off - pr_addr pr) with off by lia. rewrite (u64_id off) by (unfold in_u; lia). rewrite u64_id by (unfold in_u; lia). reflexivity.
Qed.

Lemma zlen_boot_words n b : zlen (words_bytes (boot_words n b)) = 48.
Proof. unfold boot_words. destruct (n =? 1), (b =? 0xC000000000), (b =? 0x80000000); reflexivity. Qed.

Section Load.
Variable alloc : nat -> option Z.
Variable c : LoadConfig.
Variables ram rom : PhysMemoryRange.
Abbreviation m := (desc c).
Abbreviation len l := (zlen l).

(** The machine the loader is given, and images that fit it. *)
Record loadable (s : Loader) : Prop := mk_loadable {
  ld_ram : covers (l_map s) ram;
  ld_rom : covers (l_map s) rom;
  ld_ram_at : pr_addr ram = ram_base_addr m /\ pr_org_size ram = ram_size m /\ ram_size m mod 4096 = 0;
  ld_rom_at : pr_addr rom = ROM_BASE_ADDR /\ pr_org_size rom = ROM_SIZE;
  ld_apart : pr_phys_mem ram + pr_org_size ram <= pr_phys_mem rom \/ pr_phys_mem rom + pr_org_size rom <= pr_phys_mem ram;
  ld_base : known_base (ram_base_addr m) = true;
  ld_raw : elf64_is_riscv64 (fw_buf c) = Done false;
  ld_files : bootrom_file c = None /\ dtb_file c = None;
  ld_desc : desc_ok m;
  ld_fw : len (fw_buf c) <= ram_size m /\ (len (kernel_buf c) <> 0 -> len (fw_buf c) <= KERNEL_OFFSET);
  ld_kernel : len (kernel_buf c) <> 0 -> KERNEL_OFFSET + len (kernel_buf c) <= ram_size m;
  ld_initrd : len (initrd_buf c) <> 0 ->
    (if len (kernel_buf c) =? 0 then len (fw_buf c) else KERNEL_OFFSET + len (kernel_buf c)) + len (initrd_buf c) + 4096 <= ram_size m;
  ld_fdt : 1454 + 336 * ncpus m + 96 * virtio_count m + len (default [] (cmd_line c)) <= ROM_SIZE - 256 }.

(** Where the initial RAM disk goes: the last page boundary from which it fits. *)
Definition initrd_off : Z := (ram_size m - len (initrd_buf c)) / 4096 * 4096.
Definition initrd_span : option (Z * Z) :=
  if len (initrd_buf c) =? 0 then None else Some (ram_base_addr m + initrd_off, ram_base_addr m + ram_size m).
Definition fdt_off : Z := if compact_bootrom c then 52 else 256.

Lemma base_aligned : known_base (ram_base_addr m) = true -> exists k, ram_base_addr m = 4096 * k /\ 0 < k.
Proof.
  unfold known_base. intros H. assert (ram_base_addr m = 0x80000000 \/ ram_base_addr m = 0x8000000000 \/ ram_base_addr m = 0xC000000000) as [-> | [-> | ->]].
  { apply orb_true_iff in H as [H|H]; [apply orb_true_iff in H as [H|H]|]; apply Z.eqb_eq in H; auto. }
  - exists 0x80000. lia.
  - exists 0x8000000. lia.
  - exists 0xC000000. lia.
Qed.

Definition ram_st (off : Z) (data : list Z) (s : Loader) : Loader := with_mem (fun x => st_bytes x (pr_phys_mem ram + off) data) s.
Definition rom_st (off : Z) (data : list Z) (s : Loader) : Loader := with_mem (fun x => st_bytes x (pr_phys_mem rom + off) data) s.

Lemma firmware_run s : loadable s -> copy_firmware alloc c s = Done (0, ram_st 0 (fw_buf c) s).
Proof.
  intros [Hram _ (Ea & Es & _) _ _ _ Hraw _ _ Hfw _ _ _]. unfold copy_firmware. rewrite Hraw, run_liftr_done. cbv beta iota.
  rewrite run_bind, (ram_copy_run ram 0) by (try assumption; lia). reflexivity.
Qed.

Lemma kernel_run s s0 : loadable s0 -> l_map s = l_map s0 -> copy_kernel_image c s = Done (0, ram_st KERNEL_OFFSET (kernel_buf c) s).
Proof.
  intros [Hram _ (Ea & Es & _) _ _ _ _ _ _ _ Hk _ _] Em. rewrite <- Em in Hram. unfold copy_kernel_image. destruct (Z.eqb_spec (len (kernel_buf c)) 0) as [E|E].
  - unfold ram_st, with_mem. destruct (kernel_buf c); [destruct s; reflexivity|unfold zlen in E; cbn in E; lia].
  - pose proof (Hk E). pose proof (zlen_nonneg (kernel_buf c)). destruct (Z.leb_spec (ram_size m) KERNEL_OFFSET); [lia|].
    destruct (Z.gtb_spec (len (kernel_buf c)) (ram_size m - KERNEL_OFFSET)); [lia|]. destruct (cv_addr _ _ Hram).
    assert (0 <= KERNEL_OFFSET) by (vm_compute; discriminate). rewrite run_bind, (ram_copy_run ram KERNEL_OFFSET) by (try assumption; first [lia | rewrite u64_id; unfold in_u; lia]). reflexivity.
Qed.

Lemma initrd_off_bounds s0 : loadable s0 -> len (initrd_buf c) <> 0 ->
  0 <= initrd_off /\ initrd_off + len (initrd_buf c) <= ram_size m /\
  (if len (kernel_buf c) =? 0 then len (fw_buf c) else KERNEL_OFFSET + len (kernel_buf c)) <= initrd_off.
Proof.
  intros H E. pose proof (ld_initrd s0 H E). pose proof (zlen_nonneg (initrd_buf c)). pose proof (zlen_nonneg (kernel_buf c)). pose proof (zlen_nonneg (fw_buf c)). unfold initrd_off.
  assert (0 <= if len (kernel_buf c) =? 0 then len (fw_buf c) else KERNEL_OFFSET + len (kernel_buf c)) by (destruct (len (kernel_buf c) =? 0); unfold KERNEL_OFFSET; lia).
  Z.to_euclidean_division_equations. lia.
Qed.

Lemma initrd_run s s0 : loadable s0 -> l_map s = l_map s0 ->
  copy_initrd c s = Done ((0, default 0 (fst <$> initrd_span), default 0 (snd <$> initrd_span)), ram_st (initrd_off) (initrd_buf c) s).
Proof.
  intros H Em. unfold copy_initrd, initrd_span. destruct (Z.eqb_spec (len (initrd_buf c)) 0) as [E|E].
  - unfold ram_st, with_mem. destruct (initrd_buf c); [destruct s; reflexivity|unfold zlen in E; cbn in E; lia].
  - destruct (initrd_off_bounds s0 H E) as (B1 & B2 & _). pose proof (ld_ram s0 H) as Hram. rewrite <- Em in Hram. destruct (ld_ram_at s0 H) as (Ea & Es & Ep). destruct (base_aligned (ld_base s0 H)) as (k & Ek & Hk).
    pose proof (zlen_nonneg (initrd_buf c)). destruct (Z.gtb_spec (len (initrd_buf c)) (ram_size m)); [lia|]. destruct (cv_addr _ _ Hram) as (A1 & A2 & A3). cbv zeta.
    assert (u64 (ram_base_addr m + ram_size m) = ram_base_addr m + ram_size m) as -> by (apply u64_id; unfold in_u; lia).
    assert (u64 (ram_base_addr m + ram_size m - len (initrd_buf c)) = ram_base_addr m + ram_size m - len (initrd_buf c)) as -> by (apply u64_id; unfold in_u; lia).
    assert (((ram_base_addr m + ram_size m - len (initrd_buf c)) >>' 12) <<' 12 = ram_base_addr m + initrd_off) as ->.
    { rewrite Z.shiftl_mul_pow2, Z.shiftr_div_pow2 by lia. unfold initrd_off. change (2 ^ 12) with 4096. rewrite Ek. Z.to_euclidean_division_equations. lia. }
    rewrite run_bind, (ram_copy_run ram (initrd_off)) by (try assumption; lia). reflexivity.
Qed.

Lemma bootrom_run s s0 : loadable s0 -> l_map s = l_map s0 -> copy_bootrom c s = Done (52, rom_st 0 (words_bytes (boot_words (ncpus m) (ram_base_addr m))) s).
Proof.
  intros H Em. unfold copy_bootrom. destruct (ld_files s0 H) as [-> _]. pose proof (ld_rom s0 H) as Hrom. rewrite <- Em in Hrom. destruct (ld_rom_at s0 H) as [Ea Es].
  rewrite run_bind, (ram_copy_run rom 0) by (try assumption; rewrite ?zlen_boot_words, ?Ea, ?Es; unfold ROM_BASE_ADDR, BOOT_BASE_ADDR, ROM_SIZE; lia). reflexivity.
Qed.

Lemma initrd_announced s0 : loadable s0 -> initrd_of (default 0 (fst <$> initrd_span)) (default 0 (snd <$> initrd_span)) = initrd_span.
Proof.
  intros H. unfold initrd_span, initrd_of. destruct (Z.eqb_spec (len (initrd_buf c)) 0) as [E|E]; [reflexivity|]. cbn. unfold id.
  destruct (initrd_off_bounds s0 H E) as (B1 & B2 & _). destruct (base_aligned (ld_base s0 H)) as (k & Ek & Hk). pose proof (zlen_nonneg (initrd_buf c)).
  destruct (Z.eqb_spec (ram_base_addr m + initrd_off) 0); [lia|]. destruct (Z.ltb_spec (ram_base_addr m + initrd_off) (ram_base_addr m + ram_size m)); [reflexivity|lia].
Qed.

(** The loader's run: the copies in order. *)
Lemma copy_kernel_run s : loadable s -> exists blob,
  copy_kernel alloc c s = Done (0, mkLoader (l_map s)
    (l_mem (rom_st (fdt_off) blob (rom_st 0 (words_bytes (boot_words (ncpus m) (ram_base_addr m)))
       (ram_st (initrd_off) (initrd_buf c) (ram_st KERNEL_OFFSET (kernel_buf c) (ram_st 0 (fw_buf c) s))))))
    (l_tohost s) (map (riscv_set_debug_mode true) (l_harts s))) /\
  fdt_off + zlen blob <= ROM_SIZE /\ dt_decode blob = Some (machine_tree m (default [] (cmd_line c)) (initrd_span)) /\
  (is_bytes (default [] (cmd_line c)) -> is_bytes blob).
Proof.
  intros H. pose proof (ld_fdt s H) as Hf. pose proof (ld_desc s H) as Hd. destruct (d_ncpus _ Hd), (d_virtio _ Hd). unfold ROM_SIZE in Hf.
  destruct (build_fdt_run m (cmd_line c) (default 0 (fst <$> initrd_span)) (default 0 (snd <$> initrd_span)) Hd ltac:(lia)) as (blob & Eb & Sb & Db).
  rewrite (initrd_announced s H) in Db. exists blob. split; [|split; [unfold fdt_off, ROM_SIZE; destruct (compact_bootrom c); lia|split; [exact Db|exact (build_fdt_bytes _ _ _ _ _ _ Eb)]]].
  unfold copy_kernel. cbv zeta. destruct (Z.gtb_spec (len (fw_buf c)) (ram_size m)) as [Hbad|_]; [destruct (ld_fw s H); lia|].
  rewrite run_bind, (firmware_run s H). cbn [Z.eqb negb]. rewrite (ld_base s H). cbn [negb]. rewrite run_bind_ret.
  rewrite run_bind, (kernel_run _ s H) by reflexivity. cbn [Z.eqb negb]. rewrite run_bind, (initrd_run _ s H) by reflexivity. cbn [Z.eqb negb].
  rewrite run_bind, (bootrom_run _ s H) by reflexivity. change (52 <? 0) with false. cbv iota. destruct (ld_files s H) as [_ Edtb]. rewrite Edtb. match goal with |- context [riscv_build_fdt ?a ?b ?d ?e ?f] => replace (riscv_build_fdt a b d e f) with (Done (blob, zlen blob)) by (symmetry; exact Eb) end. rewrite run_liftr_done.
  assert ((if compact_bootrom c then u32 (BOOT_BASE_ADDR - ROM_BASE_ADDR + 52) else BOOT_BASE_ADDR - ROM_BASE_ADDR + 256) = fdt_off) as -> by (unfold fdt_off; destruct (compact_bootrom c); reflexivity).
  destruct (ld_rom_at s H) as [Ea Es]. rewrite run_bind, (ram_copy_run rom (fdt_off)); [pose proof (zlen_nonneg blob); destruct (Z.ltb_spec (zlen blob) 0); [lia|reflexivity]|exact (ld_rom s H)|rewrite Ea; reflexivity|unfold fdt_off; destruct (compact_bootrom c); lia|].
  rewrite Es. unfold fdt_off, ROM_SIZE. destruct (compact_bootrom c); lia.
Qed.

Lemma words_bytes_bytes l : is_bytes (words_bytes l).
Proof. apply bytes_flat_map. intros v. repeat constructor; apply land255_byte. Qed.

(** The machine after loading. *)
Definition loaded (s s' : Loader) (blob : list Z) : Prop :=
  bytes_at (l_mem s') ram 0 (fw_buf c) /\ bytes_at (l_mem s') ram KERNEL_OFFSET (kernel_buf c) /\ bytes_at (l_mem s') ram initrd_off (initrd_buf c) /\
  bytes_at (l_mem s') rom 0 (words_bytes (boot_words (ncpus m) (ram_base_addr m))) /\
  bytes_at (l_mem s') rom fdt_off blob /\ dt_decode blob = Some (machine_tree m (default [] (cmd_line c)) initrd_span) /\
  (forall p, ~ pr_phys_mem ram <= p < pr_phys_mem ram + ram_size m -> ~ pr_phys_mem rom <= p < pr_phys_mem rom + ROM_SIZE -> ld8 (l_mem s') p = ld8 (l_mem s) p) /\
  l_map s' = l_map s /\ l_harts s' = map (riscv_set_debug_mode true) (l_harts s).

Lemma load_run s : loadable s -> exists s' blob, copy_kernel alloc c s = Done (0, s') /\ loaded s s' blob /\
  (is_bytes (fw_buf c) -> is_bytes (kernel_buf c) -> is_bytes (initrd_buf c) -> is_bytes (default [] (cmd_line c)) -> hostmem_wf (l_mem s) -> hostmem_wf (l_mem s')).
Proof.
  intros H. destruct (copy_kernel_run s H) as (blob & E & Hs & Hd & Hy). eexists _, blob. split; [exact E|].
  split; [|intros B1 B2 B3 B4 Hm; cbn [l_mem rom_st ram_st with_mem]; repeat (apply st_bytes_wf; [|auto using words_bytes_bytes]); exact Hm].
  unfold loaded. cbn [l_mem l_map l_harts rom_st ram_st with_mem].
  set (words := words_bytes _). assert (zlen words = 48) as Hw by apply zlen_boot_words. assert (0 <= fdt_off /\ 48 <= fdt_off) as [Hf0 Hf1] by (unfold fdt_off; destruct (compact_bootrom c); lia).
  pose proof (ld_apart s H) as Ha. destruct (ld_ram_at s H) as (_ & Es & _). destruct (ld_rom_at s H) as [_ Er]. rewrite Es, Er in Ha. unfold ROM_SIZE in *.
  destruct (ld_fw s H) as [F1 F2]. pose proof (ld_kernel s H) as K1. pose proof (fun E0 => initrd_off_bounds s H E0) as I1.
  assert (forall l : list Z, zlen l = 0 \/ 0 < zlen l) as Hl by (intros l; pose proof (zlen_nonneg l); lia).
  assert (0 <= KERNEL_OFFSET) as K0 by (vm_compute; discriminate).
  destruct (Hl (fw_buf c)) as [Lf|Lf], (Hl (kernel_buf c)) as [Lk|Lk], (Hl (initrd_buf c)) as [Li|Li];
    (destruct (Z.eqb_spec (len (kernel_buf c)) 0); try lia); try specialize (F2 ltac:(lia)); try specialize (K1 ltac:(lia)); try specialize (I1 ltac:(lia));
    repeat apply conj; try exact Hd; try reflexivity;
    try (repeat first [apply bytes_at_written | apply bytes_at_kept; [|lia]]);
    try (intros i Hi; lia).
  all: intros p Hp1 Hp2; rewrite !st_bytes_outside by lia; reflexivity.
Qed.

(** Loading puts everything where it belongs: given a firmware image, kernel and initial RAM disk that fit the
    RAM without overlap and a configuration whose device tree fits the ROM, [copy_kernel] succeeds; the firmware is at
    the start of RAM, the kernel at its offset, the initial RAM disk at the last page that holds it, the boot code at
    the start of ROM and behind it a device tree that decodes to the machine with that RAM disk announced; all harts
    are in debug mode, and no byte outside the two buffers has changed. *)
Theorem loader_loads s : loadable s -> exists s' blob, copy_kernel alloc c s = Done (0, s') /\
  bytes_at (l_mem s') ram 0 (fw_buf c) /\ bytes_at (l_mem s') ram KERNEL_OFFSET (kernel_buf c) /\ bytes_at (l_mem s') ram initrd_off (initrd_buf c) /\
  bytes_at (l_mem s') rom 0 (words_bytes (boot_words (ncpus m) (ram_base_addr m))) /\
  bytes_at (l_mem s') rom fdt_off blob /\ dt_decode blob = Some (machine_tree m (default [] (cmd_line c)) initrd_span) /\
  (forall p, ~ pr_phys_mem ram <= p < pr_phys_mem ram + ram_size m -> ~ pr_phys_mem rom <= p < pr_phys_mem rom + ROM_SIZE -> ld8 (l_mem s') p = ld8 (l_mem s) p) /\
  l_map s' = l_map s /\ l_harts s' = map (riscv_set_debug_mode true) (l_harts s).
Proof. intros H. destruct (load_run s H) as (s' & blob & E & L & _). exists s', blob. split; [exact E|exact L]. Qed.

End Load.

(** A machine with 256 MiB of RAM, firmware and a kernel. *)
Definition ram_range : PhysMemoryRange := mkPhysMemoryRange 0x80000000 0x10000000 0x10000000 true 0 0x20000000 0 None [] 0 Dev_mmio 0.
Definition boot_rom_range : PhysMemoryRange := mkPhysMemoryRange 0x10000 0x1000 0x1000 true 0 0x400000 0 None [] 0 Dev_mmio 0.
Definition demo_load : LoadConfig := mkLoadConfig demo_desc false [0x6f; 0; 0; 0] [1; 2; 3] [4; 5] None None (Some [99; 61; 49]).
Definition demo_loader : Loader := mkLoader (mkPhysMemoryMap [ram_range; boot_rom_range]) ∅ 0 [reset_cpu].

Lemma demo_loadable : loadable demo_load ram_range boot_rom_range demo_loader.
Proof.
  assert (forall pr, pr = ram_range \/ pr = boot_rom_range -> forall a, pr_addr pr <= a < pr_addr pr + pr_org_size pr ->
    exists i, get_phys_mem_range (l_map demo_loader) a = Some (i, pr)) as Hf.
  { intros pr Hpr a Ha. change (get_phys_mem_range (l_map demo_loader) a) with
      (if (0x10000 <=? a) && (a <? 0x11000) then Some (1%nat, boot_rom_range) else if (0x80000000 <=? a) && (a <? 0x90000000) then Some (0%nat, ram_range) else None).
    destruct Hpr as [-> | ->]; cbn in Ha; eexists;
      destruct (Z.leb_spec 0x10000 a), (Z.ltb_spec a 0x11000), (Z.leb_spec 0x80000000 a), (Z.ltb_spec a 0x90000000); try lia; reflexivity. }
  constructor; try (vm_compute; repeat split; try discriminate; auto; fail).
  right. vm_compute. discriminate.
Qed.

Lemma loader_loads_witness : exists s' blob, copy_kernel (fun _ => None) demo_load demo_loader = Done (0, s') /\
  bytes_at (l_mem s') ram_range KERNEL_OFFSET [1; 2; 3] /\ bytes_at (l_mem s') boot_rom_range 256 blob /\
  dt_decode blob = Some (machine_tree demo_desc [99; 61; 49] (Some (0x8ffff000, 0x90000000))).
Proof.
  destruct (loader_loads (fun _ => None) demo_load ram_range boot_rom_range demo_loader demo_loadable) as (s' & blob & E & _ & K & _ & _ & B & D & _).
  exists s', blob. split; [exact E|]. split; [exact K|]. split; [exact B|exact D].
Defined.

(** Seven harts, a console, a network device, four disks and four file systems: the command line accepts them all. *)
Definition big_desc : MachineDesc := mkMachineDesc 7 (fun _ => 0x14112d) 0x80000000 0x10000000 0x2000000 0xc0000 0x10000000 0x2000000 10 None.

(** The size of the device tree is not checked: that machine's device tree does not fit the ROM behind the boot code and
    the copy overruns its buffer. *)
Lemma fdt_overruns_rom : desc_ok big_desc /\
  copy_kernel (fun _ => None) (mkLoadConfig big_desc false [0x6f; 0; 0; 0] [] [] None None None) demo_loader = Stop UndefinedBehaviour.
Proof. split; [constructor; vm_compute; split; first [discriminate | reflexivity]|vm_compute; reflexivity]. Qed.

(** A segment outside every range: the lookup returns NULL, which is dereferenced. *)
Lemma segment_outside_undefined alloc image s n ph v : rd32 image ph = Done 1 -> (exists a, rd64 image (ph + 40) = Done a) -> rd64 image (ph + 16) = Done v ->
  (exists a, rd64 image (ph + 8) = Done a) -> (exists a, rd64 image (ph + 32) = Done a) -> get_phys_mem_range (l_map s) v = None ->
  load_segments alloc image (S n) ph s = Stop UndefinedBehaviour.
Proof.
  intros E1 (a & E2) E3 (b & E4) (d & E5) E6. cbn [load_segments]. rewrite E1, run_liftr_done. change (1 =? 1) with true. cbv iota.
  rewrite E2, E3, E4, E5. run. rewrite E6. reflexivity.
Qed.
