(* ===== verification/Handover.v ===== *)
(** * The boot code hands over to the firmware

    The words that [copy_kernel] puts at the reset vector, executed by the model of
    the instruction set from the state the loader leaves the harts in. *)

From S2P Require Import Prelude Riscv Cutils Iomem Hostmem Bytes CpuState CpuWf Csr Trap Mmu Alu Exec ExecWf Interp BootRom BootExec Fdt FdtSpec Elf Boot.
From Stdlib Require Import ZArith Lia Bool String.
From stdpp Require Import base list gmap.
Local Open Scope Z_scope.
Local Open Scope bits_scope.
Local Open Scope list_scope.

(** ** The boot code hands over to the firmware *)

Section Handover.
Context {D : Type} {DO : DeviceOps D} `{MH : MachineHooks} `{FP : SoftFp}.

(** Executes the code at [BOOT_BASE_ADDR], following jumps, until the interpreter is left. *)
Fixpoint run_rom (fuel : nat) (words : list Z) (L : Locals) : M D bool :=
  match fuel with
  | O => stop OutOfFuel
  | S fuel =>
      match words !! Z.to_nat ((GET_PC L - BOOT_BASE_ADDR) / 4) with
      | None => mret false
      | Some w =>
          '(o, L) ← exec L w;
          match o with
          | Next n => run_rom fuel words (advance n L)
          | JumpInsn _ => c ← gets cpu; run_rom fuel words (mkLocals 0 0 (pc c) (insn_counter_addend L) (insn_counter_start L) (n_cycles L) (insn_executed L))
          | DoneInterp => mret true
          | _ => mret false
          end
      end
  end.

(** Entry at the reset vector. *)
Definition boot_locals : Locals := mkLocals 0 0 BOOT_BASE_ADDR 100 0 100 0.

(** Hart [h] as the loader leaves it. *)
Definition boot_hart (x : bool) (h : Z) : RISCVCPUState := riscv_set_debug_mode true (riscv_cpu_init BOOT_BASE_ADDR x h).

Lemma boot_run x h n base common map mem devs : In base [0x80000000; 0x8000000000; 0xC000000000] -> 0 <= h < n -> n <= 8 ->
  exists c, run_rom 12 (boot_words n base) boot_locals (mkSystem (boot_hart x h) common map mem devs) = Done (true, mkSystem c common map mem devs) /\
    pc c = base /\ priv c = PRV_M /\ debug_mode c = false /\ stop_the_counter c = false /\ aget (reg c) 10 = h /\ aget (reg c) 11 = BOOT_BASE_ADDR + 256.
Proof.
  intros Hb Hh Hn. assert (n = 1 /\ h = 0 \/ n <> 1) as [[-> ->]|Hn1] by lia.
  - destruct x; repeat (destruct Hb as [<-|Hb]; [eexists; split; [vm_compute; reflexivity|vm_compute; repeat split]|]); contradiction.
  - unfold boot_words. destruct (Z.eqb_spec n 1); [contradiction|].
    assert (h = 0 \/ h = 1 \/ h = 2 \/ h = 3 \/ h = 4 \/ h = 5 \/ h = 6 \/ h = 7) as H8 by lia.
    destruct x; repeat (destruct Hb as [<-|Hb]; [repeat destruct H8 as [->|H8]; subst; (eexists; split; [vm_compute; reflexivity|vm_compute; repeat split])|]); contradiction.
Qed.

End Handover.

(** C34 The boot code hands over to the firmware: started in debug mode at the reset vector, every hart that runs it
    reaches the start of RAM in machine mode within twelve instructions, out of debug mode, with its number in [a0] and
    with memory and devices untouched.  [a1] is the address of the device tree exactly when the boot ROM is not compact:
    a compact one moves the device tree but not the address the code computes. *)
Theorem boot_hands_over `{DeviceOps D} `{MH : MachineHooks} `{FP : SoftFp} cfg x h common map mem devs :
  known_base (ram_base_addr (desc cfg)) = true -> 0 <= h < ncpus (desc cfg) -> ncpus (desc cfg) <= MAX_CPUS ->
  exists c : RISCVCPUState,
    run_rom 12 (boot_words (ncpus (desc cfg)) (ram_base_addr (desc cfg))) boot_locals (mkSystem (boot_hart x h) common map mem devs)
      = Done (true, mkSystem c common map mem devs) /\
    pc c = ram_base_addr (desc cfg) /\ priv c = PRV_M /\ debug_mode c = false /\ read_reg c 10 = h /\
    (read_reg c 11 = ROM_BASE_ADDR + fdt_off cfg <-> compact_bootrom cfg = false).
Proof.
  intros Hb Hh Hn. destruct (boot_run x h (ncpus (desc cfg)) (ram_base_addr (desc cfg)) common map mem devs) as (c & E & Hpc & Hpr & Hd & _ & H0 & H1); [|exact Hh|exact Hn|].
  - unfold known_base in Hb. apply orb_true_iff in Hb as [Hb|Hb]; [apply orb_true_iff in Hb as [Hb|Hb]|]; apply Z.eqb_eq in Hb; rewrite Hb; simpl; auto.
  - exists c. split; [exact E|]. split; [exact Hpc|]. split; [exact Hpr|]. split; [exact Hd|]. split; [exact H0|]. unfold read_reg. rewrite H1. unfold fdt_off.
    destruct (compact_bootrom cfg); split; (discriminate || reflexivity).
Qed.

Lemma boot_hands_over_witness : exists c,
  @run_rom unit no_devices no_hooks null_fp 12 (boot_words 1 0x80000000) boot_locals (mkSystem (boot_hart false 0) (mkVirtMachine false (-1) (-1) 0 0) (mkPhysMemoryMap []) ∅ tt)
    = Done (true, mkSystem c (mkVirtMachine false (-1) (-1) 0 0) (mkPhysMemoryMap []) ∅ tt) /\ pc c = 0x80000000 /\ read_reg c 11 = 0x10100.
Proof.
  destruct (@boot_hands_over unit no_devices no_hooks null_fp demo_load false 0 (mkVirtMachine false (-1) (-1) 0 0) (mkPhysMemoryMap []) ∅ tt) as (c & E & Hpc & _ & _ & _ & H1);
    [reflexivity|split; [discriminate|reflexivity]|discriminate|]. exists c. split; [exact E|]. split; [exact Hpc|]. apply H1. reflexivity.
Defined.
