(* ===== verification/Json.v ===== *)
(** * The configuration parser ([json.cpp], [json.h])

    The parser of Dromajo's relaxed JSON: comments, identifiers as property names,
    hexadecimal and octal integers, no negative or fractional numbers.  A pointer
    into the text is the list of the bytes from there to the terminator, so [*p] is
    0 at the end of the list. *)

From S2P Require Import Prelude Cutils.
From Stdlib Require Import ZArith Lia Bool String.
From stdpp Require Import base list.
Local Open Scope Z_scope.
Local Open Scope bits_scope.
Local Open Scope list_scope.

(** ** Values *)

Unset Elimination Schemes.
Inductive JSONValue :=
| JSON_STR (s : list Z)
| JSON_INT (v : Z)
| JSON_OBJ (props : list (list Z * JSONValue))
| JSON_ARRAY (tab : list JSONValue)
| JSON_BOOL (b : bool)
| JSON_NULL
| JSON_UNDEFINED
| JSON_EXCEPTION (msg : list Z).
Set Elimination Schemes.

Definition json_is_error (v : JSONValue) : bool := match v with JSON_EXCEPTION _ => true | _ => false end.
Definition json_is_undefined (v : JSONValue) : bool := match v with JSON_UNDEFINED => true | _ => false end.

(** [json_string_new] stops at the terminator. *)
Definition json_string_new (s : list Z) : JSONValue := JSON_STR (cstr s).

(** [json_error_new]: the message is cut to its buffer. *)
Definition json_error_new (msg : list Z) : JSONValue := JSON_EXCEPTION (take 255 msg).

Fixpoint json_object_get2 (props : list (list Z * JSONValue)) (name : list Z) : option JSONValue :=
  match props with
  | [] => None
  | (n, v) :: props => if bool_decide (n = name) then Some v else json_object_get2 props name
  end.

Definition json_object_get (val : JSONValue) (name : list Z) : JSONValue :=
  match val with
  | JSON_OBJ props => default JSON_UNDEFINED (json_object_get2 props name)
  | _ => JSON_UNDEFINED
  end.

(** Replaces the value of the first property of that name, or appends one. *)
Fixpoint props_set (props : list (list Z * JSONValue)) (name : list Z) (v : JSONValue) : list (list Z * JSONValue) :=
  match props with
  | [] => [(cstr name, v)]
  | (n, w) :: props => if bool_decide (n = name) then (n, v) :: props else (n, w) :: props_set props name v
  end.

(** The new value and the result. *)
Definition json_object_set (val : JSONValue) (name : list Z) (prop_val : JSONValue) : JSONValue * Z :=
  match val with
  | JSON_OBJ props => (JSON_OBJ (props_set props name prop_val), 0)
  | _ => (val, -1)
  end.

Definition json_array_get (val : JSONValue) (idx : Z) : JSONValue :=
  match val with
  | JSON_ARRAY tab => if idx <? Z.of_nat (List.length tab) then nth (Z.to_nat idx) tab JSON_UNDEFINED else JSON_UNDEFINED
  | _ => JSON_UNDEFINED
  end.

Definition json_array_set (val : JSONValue) (idx : Z) (prop_val : JSONValue) : JSONValue * Z :=
  match val with
  | JSON_ARRAY tab =>
      if idx <? Z.of_nat (List.length tab) then (JSON_ARRAY (<[Z.to_nat idx := prop_val]> tab), 0)
      else if idx =? Z.of_nat (List.length tab) then (JSON_ARRAY (tab ++ [prop_val]), 0)
      else (val, -1)
  | _ => (val, -1)
  end.

Definition json_get_str (val : JSONValue) : option (list Z) := match val with JSON_STR s => Some s | _ => None end.
Definition json_get_error (val : JSONValue) : option (list Z) := match val with JSON_EXCEPTION s => Some s | _ => None end.

(** ** Characters *)

(** [*p] *)
Definition cur (p : list Z) : Z := match p with c :: _ => c | [] => 0 end.

Definition isspace (c : Z) : bool := (c =? 32) || ((9 <=? c) && (c <=? 13)).
Definition isdigit (c : Z) : bool := (48 <=? c) && (c <=? 57).
Definition is_ident_first (c : Z) : bool :=
  ((97 <=? c) && (c <=? 122)) || ((65 <=? c) && (c <=? 90)) || (c =? 95) || (c =? 36).
Definition from_hex (c : Z) : Z :=
  if (48 <=? c) && (c <=? 57) then c - 48
  else if (65 <=? c) && (c <=? 70) then c - 65 + 10
  else if (97 <=? c) && (c <=? 102) then c - 97 + 10
  else -1.

(** ** Scanning *)

Fixpoint skip_line (p : list Z) : list Z :=
  match p with [] => [] | c :: p' => if c =? 10 then p else skip_line p' end.

(** The end of a block comment, or of the text. *)
Fixpoint skip_block (p : list Z) : list Z :=
  match p with
  | [] => []
  | c :: p' => if (c =? 42) && (cur p' =? 47) then drop 1 p' else skip_block p'
  end.

Fixpoint skip_spaces_loop (fuel : nat) (p : list Z) : list Z :=
  match fuel with
  | O => p
  | S fuel =>
      match p with
      | c :: p' =>
          if isspace c then skip_spaces_loop fuel p'
          else if (c =? 47) && (cur p' =? 47) then skip_spaces_loop fuel (skip_line (drop 1 p'))
          else if (c =? 47) && (cur p' =? 42) then skip_spaces_loop fuel (skip_block (drop 1 p'))
          else p
      | [] => p
      end
  end.

(** Every turn of the loop advances, so the length of the text bounds it. *)
Definition skip_spaces (p : list Z) : list Z := skip_spaces_loop (List.length p) p.

(** The digits of [strtoll] in a base: their value and the rest; [None] without a digit. *)
Fixpoint digits (base acc : Z) (any : bool) (p : list Z) : option (Z * list Z) :=
  match p with
  | c :: p' =>
      let h := if (48 <=? c) && (c <=? 57) then c - 48
               else if (65 <=? c) && (c <=? 90) then c - 65 + 10
               else if (97 <=? c) && (c <=? 122) then c - 97 + 10 else 99 in
      if h <? base then digits base (acc * base + h) true p' else if any then Some (acc, p) else None
  | [] => if any then Some (acc, p) else None
  end.

Fixpoint drop_spaces (p : list Z) : list Z :=
  match p with c :: p' => if isspace c then drop_spaces p' else p | [] => [] end.

(** [strtoll(p, &end, base)] of the C library, base 0 or 16: the value, clamped, and [end]. *)
Definition strtoll (p : list Z) (base : Z) : Z * list Z :=
  let q := drop_spaces p in
  let '(neg, q) := if cur q =? 45 then (true, drop 1 q) else if cur q =? 43 then (false, drop 1 q) else (false, q) in
  let hex_prefix := (cur q =? 48) && ((cur (drop 1 q) =? 120) || (cur (drop 1 q) =? 88)) && (0 <=? from_hex (cur (drop 2 q))) in
  let '(base, q) :=
    if ((base =? 0) || (base =? 16)) && hex_prefix then (16, drop 2 q)
    else if base =? 0 then (if cur q =? 48 then 8 else 10, q)
    else (base, q) in
  match digits base 0 false q with
  | None => (0, p)
  | Some (v, rest) => (Z.max (- 2 ^ 63) (Z.min (2 ^ 63 - 1) (if neg then - v else v)), rest)
  end.

(** ** Strings and identifiers *)

(** The loop of [parse_string] after [n] bytes: the string and the pointer after the closing quote, or the message. *)
Fixpoint parse_string_loop (p : list Z) (n : Z) (acc : list Z) : list Z * list Z + list Z :=
  let add c rest k := if 4095 <=? n then inr (str "string too long") else k (acc ++ [c]) in
  match p with
  | [] => inr (str "unterminated string")
  | c :: p =>
      if c =? 10 then inr (str "unterminated string")
      else if c =? 34 then inl (acc, p)
      else if c =? 92 then
        match p with
        | [] => inr (str "unknown escape code")
        | c :: p =>
            if (c =? 39) || (c =? 34) || (c =? 92) then add c p (parse_string_loop p (n + 1))
            else if c =? 110 then add 10 p (parse_string_loop p (n + 1))
            else if c =? 114 then add 13 p (parse_string_loop p (n + 1))
            else if c =? 116 then add 9 p (parse_string_loop p (n + 1))
            else if c =? 120 then
              match p with
              | [] => inr (str "invalid hex digit")
              | h1 :: p =>
                  if from_hex h1 <? 0 then inr (str "invalid hex digit")
                  else
                    match p with
                    | [] => inr (str "invalid hex digit")
                    | h2 :: p =>
                        if from_hex h2 <? 0 then inr (str "invalid hex digit")
                        else add ((from_hex h1 <<' 4) |' from_hex h2) p (parse_string_loop p (n + 1))
                    end
              end
            else inr (str "unknown escape code")
        end
      else add c p (parse_string_loop p (n + 1))
  end.

(** The value and the new [*pp], which an error leaves alone. *)
Definition parse_string (p : list Z) : JSONValue * list Z :=
  match parse_string_loop (drop 1 p) 0 [] with
  | inl (s, rest) => (json_string_new s, rest)
  | inr msg => (json_error_new msg, p)
  end.

(** The identifier's bytes after the first; [None] when the buffer is full. *)
Fixpoint ident_loop (room : nat) (p : list Z) {struct p} : option (list Z * list Z) :=
  match p with
  | c :: p' =>
      if is_ident_first c || isdigit c then
        match room with
        | O => None
        | S room => '(s, rest) ← ident_loop room p'; Some (c :: s, rest)
        end
      else Some ([], p)
  | [] => Some ([], p)
  end.

(** [parse_ident] with a buffer of 128 bytes. *)
Definition parse_ident (p : list Z) : option (list Z * list Z) :=
  '(s, rest) ← ident_loop 126 (drop 1 p); Some (cur p :: s, rest).

(** ** Values

    [parse_value] is [json_parse_value2]: the value and the new [*pp].  An error inside an object or array returns at
    once, which leaves [*pp] at the start of that value; the callers store the returned value without looking at it. *)

Definition err (m : string) (p : list Z) : res (JSONValue * list Z) := Done (json_error_new (str m), p).

Fixpoint parse_value (fuel : nat) (p0 : list Z) : res (JSONValue * list Z) :=
  match fuel with
  | O => Stop OutOfFuel
  | S fuel =>
      let p := skip_spaces p0 in
      if cur p =? 0 then err "unexpected end of file" p0
      else if (cur p =? 48) && (cur (drop 1 p) =? 120) then
        let '(v, p) := strtoll (drop 2 p) 16 in Done (JSON_INT v, p)
      else if isdigit (cur p) then
        let '(v, p) := strtoll p 0 in Done (JSON_INT v, p)
      else if cur p =? 34 then Done (parse_string p)
      else if cur p =? 123 then obj_loop fuel p0 (drop 1 p) []
      else if cur p =? 91 then arr_loop fuel p0 (drop 1 p) []
      else if is_ident_first (cur p) then
        match parse_ident p with
        | None => Stop UndefinedBehaviour
        | Some (s, p) =>
            if bool_decide (s = str "null") then Done (JSON_NULL, p)
            else if bool_decide (s = str "true") then Done (JSON_BOOL true, p)
            else if bool_decide (s = str "false") then Done (JSON_BOOL false, p)
            else Done (json_error_new (str "unknown identifier: '" ++ s ++ str "'"), p0)
        end
      else err "unexpected character" p0
  end
with obj_loop (fuel : nat) (p0 p : list Z) (props : list (list Z * JSONValue)) : res (JSONValue * list Z) :=
  match fuel with
  | O => Stop OutOfFuel
  | S fuel =>
      let p := skip_spaces p in
      if cur p =? 125 then Done (JSON_OBJ props, drop 1 p)
      else
        let tag :=
          if cur p =? 34 then
            match parse_string p with (JSON_STR s, p) => inl (s, p) | (v, _) => inr v end
          else if is_ident_first (cur p) then
            match parse_ident p with Some (s, p) => inl (s, p) | None => inr (json_error_new (str "Invalid property name")) end
          else inr (json_error_new (str "Invalid property name")) in
        match tag with
        | inr e => Done (e, p0)
        | inl (s, p) =>
            if (List.length s =? 0)%nat then err "Invalid property name" p0
            else
              let p := skip_spaces p in
              if negb (cur p =? 58) then err "':' expected" p0
              else
                '(val1, p) ← parse_value fuel (drop 1 p);
                let props := props_set props s val1 in
                let p := skip_spaces p in
                if cur p =? 44 then obj_loop fuel p0 (drop 1 p) props
                else if negb (cur p =? 125) then err "expecting ',' or '}'" p0
                else obj_loop fuel p0 p props
        end
  end
with arr_loop (fuel : nat) (p0 p : list Z) (tab : list JSONValue) : res (JSONValue * list Z) :=
  match fuel with
  | O => Stop OutOfFuel
  | S fuel =>
      let p := skip_spaces p in
      if cur p =? 93 then Done (JSON_ARRAY tab, drop 1 p)
      else
        '(val1, p) ← parse_value fuel p;
        let tab := tab ++ [val1] in
        let p := skip_spaces p in
        if cur p =? 44 then arr_loop fuel p0 (drop 1 p) tab
        else if negb (cur p =? 93) then err "expecting ',' or ']'" p0
        else arr_loop fuel p0 p tab
  end.

(** Fuel for a text of [n] bytes: a value may start where its array does, so two turns per byte. *)
Definition enough (n : nat) : nat := (3 * n + 4)%nat.

Definition json_parse_value (p : list Z) : res JSONValue :=
  '(val, p) ← parse_value (enough (List.length p)) p;
  if json_is_error val then Done val
  else
    let p := skip_spaces p in
    if negb (cur p =? 0) then Done (json_error_new (str "unexpected characters at the end")) else Done val.

(** The text ends at the first terminator in it. *)
Definition json_parse_value_len (p : list Z) : res JSONValue := json_parse_value (cstr p).

(** ** Termination *)

(** The scanners return a tail of the text. *)
Infix "⊑" := suffix (at level 70).

Lemma suffix_tail c (p q : list Z) : q ⊑ p -> q ⊑ c :: p.
Proof. apply suffix_cons_r. Qed.

Lemma suffix_drop n (p : list Z) : drop n p ⊑ p.
Proof. exists (take n p). rewrite take_drop. reflexivity. Qed.

Create HintDb tails.
#[local] Hint Resolve suffix_tail suffix_drop : tails.
#[local] Hint Extern 0 (?p ⊑ ?p) => reflexivity : tails.
#[local] Hint Extern 3 (_ ⊑ _) => etransitivity; [eassumption|] : tails.

Lemma skip_line_suffix p : skip_line p ⊑ p.
Proof. induction p as [|c p IH]; cbn [skip_line]; [reflexivity|]. destruct (c =? 10); auto with tails. Qed.

Lemma skip_block_suffix p : skip_block p ⊑ p.
Proof. induction p as [|c p IH]; cbn [skip_block]; [reflexivity|]. destruct ((c =? 42) && (cur p =? 47)); auto with tails. Qed.

Lemma skip_loop_suffix fuel : forall p, skip_spaces_loop fuel p ⊑ p.
Proof.
  induction fuel as [|fuel IH]; intros p; cbn [skip_spaces_loop]; [reflexivity|]. destruct p as [|c p]; [reflexivity|].
  repeat case_match; auto with tails; apply suffix_tail; (etransitivity; [apply IH|]); [etransitivity; [apply skip_line_suffix|]|etransitivity; [apply skip_block_suffix|]]; apply suffix_drop.
Qed.

Lemma skip_spaces_suffix p : skip_spaces p ⊑ p.
Proof. apply skip_loop_suffix. Qed.

(** The first byte of a value or delimiter is not skipped. *)
Lemma skip_spaces_stop p : isspace (cur p) = false -> cur p <> 47 -> skip_spaces p = p.
Proof.
  intros H1 H2. unfold skip_spaces. destruct p as [|c p]; [reflexivity|]. cbn [List.length skip_spaces_loop cur] in *. rewrite H1.
  destruct (Z.eqb_spec c 47); [contradiction|]. reflexivity.
Qed.

Lemma digits_suffix base p : forall acc any v rest, digits base acc any p = Some (v, rest) -> rest ⊑ p.
Proof.
  induction p as [|c p IH]; intros acc any v rest; cbn [digits].
  - destruct any; [intros [= _ <-]; reflexivity|discriminate].
  - cbv zeta. destruct (_ <? base); [intros E; apply IH in E; auto with tails|]. destruct any; [intros [= _ <-]; reflexivity|discriminate].
Qed.

Lemma drop_spaces_suffix p : drop_spaces p ⊑ p.
Proof. induction p as [|c p IH]; cbn [drop_spaces]; [reflexivity|]. destruct (isspace c); auto with tails. Qed.

Lemma strtoll_suffix p base : snd (strtoll p base) ⊑ p.
Proof.
  unfold strtoll. pose proof (drop_spaces_suffix p) as Hq. set (q := drop_spaces p) in *.
  assert (forall b x (f : Z -> Z), x ⊑ p -> snd match digits b 0 false x with None => (0, p) | Some (v, r) => (f v, r) end ⊑ p) as He.
  { intros b x f Hx. destruct (digits b 0 false x) as [[v r]|] eqn:E; cbn [snd]; [apply digits_suffix in E; etransitivity; eassumption|reflexivity]. }
  assert (forall n, drop n q ⊑ p) as Hd by (intros n; etransitivity; [apply suffix_drop|exact Hq]).
  assert (forall n, drop n (drop 1 q) ⊑ p) as Hd2 by (intros n; etransitivity; [apply suffix_drop|apply Hd]).
  destruct (cur q =? 45); [|destruct (cur q =? 43)]; cbv zeta; destruct (_ && _); [|destruct (base =? 0)| |destruct (base =? 0)| |destruct (base =? 0)]; apply He; auto.
Qed.

Lemma parse_string_loop_suffix : forall k p n acc s rest, (List.length p <= k)%nat -> parse_string_loop p n acc = inl (s, rest) -> rest ⊑ p /\ (List.length rest < List.length p)%nat.
Proof.
  induction k as [|k IH]; intros p n acc s rest Hk; (destruct p as [|c p]; [discriminate|]); cbn [List.length] in Hk |- *; [lia|]. cbn [parse_string_loop].
  repeat (case_match; try discriminate); try (intros E; apply IH in E as [E1 E2]; cbn [List.length] in *; [split; [auto 6 with tails|lia]|lia]); intros [= _ <-]; (split; [auto with tails|lia]).
Qed.

Lemma parse_string_suffix p : cur p = 34 -> snd (parse_string p) ⊑ p /\ (json_is_error (fst (parse_string p)) = false -> (List.length (snd (parse_string p)) < List.length p)%nat).
Proof.
  intros Hc. unfold parse_string. destruct p as [|c p]; [discriminate|]. cbn [drop]. rewrite drop_0. destruct (parse_string_loop p 0 []) as [[s rest]|msg] eqn:E; cbn [fst snd].
  - apply (parse_string_loop_suffix (List.length p)) in E as [E1 E2]; [|reflexivity]. split; [auto with tails|cbn [List.length]; lia].
  - split; [reflexivity|discriminate].
Qed.

Lemma ident_loop_suffix p : forall room s rest, ident_loop room p = Some (s, rest) -> rest ⊑ p.
Proof.
  induction p as [|c p IH]; intros room s rest; cbn [ident_loop]; [intros [= _ <-]; reflexivity|].
  destruct (is_ident_first c || isdigit c); [|intros [= _ <-]; reflexivity]. destruct room as [|room]; [discriminate|].
  destruct (ident_loop room p) as [[s' r]|] eqn:E; [|discriminate]. cbn. intros [= _ <-]. apply IH in E. auto with tails.
Qed.

Lemma parse_ident_suffix p s rest : p <> [] -> parse_ident p = Some (s, rest) -> rest ⊑ p /\ (List.length rest < List.length p)%nat.
Proof.
  intros Hp. unfold parse_ident. destruct p as [|c p]; [contradiction|]. cbn [drop]. rewrite drop_0. destruct (ident_loop 126 p) as [[s' r]|] eqn:E; [|discriminate].
  cbn. intros [= _ <-]. apply ident_loop_suffix in E. split; [auto with tails|apply suffix_length in E; lia].
Qed.

(** A result that is not out of fuel; the new pointer is a tail of the old one, and an identifier of the text that does not
    fit its buffer is the only cause of undefined behaviour. *)
Definition bounded (t : list Z) (r : res (JSONValue * list Z)) : Prop :=
  match r with Done (_, p) => p ⊑ t | Stop r => r = UndefinedBehaviour /\ exists q, q ⊑ t /\ parse_ident q = None end.

Lemma bounded_tail t t' r : bounded t r -> t ⊑ t' -> bounded t' r.
Proof. intros H Ht. destruct r as [[v p]|e]; cbn in *; [etransitivity; eassumption|]. destruct H as (He & q & Hq & E). split; [exact He|]. exists q. split; [etransitivity; eassumption|exact E]. Qed.

Lemma cur_nonempty p c : cur p = c -> c <> 0 -> (0 < List.length p)%nat.
Proof. destruct p; cbn; intros; [congruence|lia]. Qed.

(** The property name of [obj_loop]. *)
Lemma tag_suffix q (t : list Z * list Z + JSONValue) :
  t = (if cur q =? 34 then match parse_string q with (JSON_STR s, p) => inl (s, p) | (v, _) => inr v end
       else if is_ident_first (cur q) then match parse_ident q with Some (s, p) => inl (s, p) | None => inr (json_error_new (str "Invalid property name")) end
       else inr (json_error_new (str "Invalid property name"))) ->
  match t with inl (s, r) => r ⊑ q /\ (List.length r < List.length q)%nat | inr _ => True end.
Proof.
  intros ->. destruct (Z.eqb_spec (cur q) 34) as [E|_].
  - destruct (parse_string_suffix q E) as [L1 L2]. destruct (parse_string q) as [[] r'] eqn:Eq; try exact I. split; [exact L1|apply L2; reflexivity].
  - destruct (is_ident_first (cur q)) eqn:Ei; [|exact I]. destruct (parse_ident q) as [[s' r']|] eqn:E; [|exact I].
    apply parse_ident_suffix in E; [exact E|]. intros ->. discriminate.
Qed.

(** The parser needs two units of fuel per byte. *)
Lemma parse_bounded fuel :
  (forall p0, (2 * List.length p0 + 1 <= fuel)%nat -> bounded p0 (parse_value fuel p0)) /\
  (forall p0 p props, p ⊑ p0 -> (2 * List.length p + 2 <= fuel)%nat -> bounded p0 (obj_loop fuel p0 p props)) /\
  (forall p0 p tab, p ⊑ p0 -> (2 * List.length p + 2 <= fuel)%nat \/ (1 <= fuel)%nat /\ cur (skip_spaces p) = 93 -> bounded p0 (arr_loop fuel p0 p tab)).
Proof.
  induction fuel as [|fuel (IHv & IHo & IHa)]; [split; [|split]; intros; exfalso; lia|]. split; [|split].
  - intros p0 Hf. cbn [parse_value]. cbv zeta. pose proof (skip_spaces_suffix p0) as Hs. set (p := skip_spaces p0) in *. pose proof (suffix_length _ _ Hs).
    destruct (Z.eqb_spec (cur p) 0) as [|Hz]; [cbn; reflexivity|]. assert (0 < List.length p)%nat by (eapply cur_nonempty; eauto).
    assert (List.length (drop 1 p) < List.length p)%nat by (rewrite length_drop; lia). assert (drop 1 p ⊑ p0) by (etransitivity; [apply suffix_drop|exact Hs]).
    destruct (_ && _); [pose proof (strtoll_suffix (drop 2 p) 16) as L; destruct (strtoll (drop 2 p) 16); cbn in *; etransitivity; [exact L|etransitivity; [apply suffix_drop|exact Hs]]|].
    destruct (isdigit _); [pose proof (strtoll_suffix p 0) as L; destruct (strtoll p 0); cbn in *; etransitivity; eassumption|].
    destruct (Z.eqb_spec (cur p) 34) as [E|_]; [destruct (parse_string_suffix p E) as [L _]; destruct (parse_string p); cbn in *; etransitivity; eassumption|].
    destruct (cur p =? 123); [apply IHo; [assumption|lia]|]. destruct (cur p =? 91); [apply IHa; [assumption|left; lia]|].
    destruct (is_ident_first _); [|cbn; reflexivity]. destruct (parse_ident p) as [[s r]|] eqn:E; [|cbn; split; [reflexivity|]; exists p; auto].
    apply parse_ident_suffix in E as [E _]; [|intros Hp; rewrite Hp in *; cbn in *; lia]. assert (r ⊑ p0) by (etransitivity; eassumption). repeat case_match; cbn; auto with tails.
  - intros p0 p props Hp Hf. cbn [obj_loop]. cbv zeta. pose proof (skip_spaces_suffix p) as Hs. set (q := skip_spaces p) in *. pose proof (suffix_length _ _ Hs). assert (q ⊑ p0) as Hq0 by (etransitivity; eassumption).
    destruct (Z.eqb_spec (cur q) 125); [cbn; etransitivity; [apply suffix_drop|exact Hq0]|].
    match goal with |- bounded _ (match ?t with _ => _ end) => pose proof (tag_suffix q t eq_refl) as Ht; destruct t as [[s r]|e]; [destruct Ht as [Ht Hl]|cbn; reflexivity] end.
    destruct (_ =? 0)%nat; [cbn; reflexivity|]. pose proof (skip_spaces_suffix r) as Hr. set (q2 := skip_spaces r) in *. pose proof (suffix_length _ _ Hr). destruct (negb _); [cbn; reflexivity|].
    pose proof (suffix_drop 1 q2) as H2. pose proof (suffix_length _ _ H2). assert (drop 1 q2 ⊑ p0) as H20 by (etransitivity; [exact H2|]; etransitivity; [exact Hr|]; etransitivity; eassumption).
    specialize (IHv (drop 1 q2) ltac:(lia)). destruct (parse_value fuel (drop 1 q2)) as [[v p3]|e]; cbn [mbind res_bind]; [|exact (bounded_tail _ _ _ IHv H20)]. cbn in IHv.
    pose proof (skip_spaces_suffix p3) as H3. set (q3 := skip_spaces p3) in *. pose proof (suffix_length _ _ H3). pose proof (suffix_length _ _ IHv). assert (q3 ⊑ p0) by (etransitivity; [exact H3|]; etransitivity; eassumption).
    destruct (cur q3 =? 44); [pose proof (suffix_drop 1 q3) as Hd3; pose proof (suffix_length _ _ Hd3); apply IHo; [etransitivity; eassumption|lia]|]. destruct (negb _); [cbn; reflexivity|]. apply IHo; [assumption|lia].
  - intros p0 p tab Hp Hf. cbn [arr_loop]. cbv zeta. pose proof (skip_spaces_suffix p) as Hs. set (q := skip_spaces p) in *. pose proof (suffix_length _ _ Hs). assert (q ⊑ p0) as Hq0 by (etransitivity; eassumption).
    destruct (Z.eqb_spec (cur q) 93); [cbn; etransitivity; [apply suffix_drop|exact Hq0]|]. destruct Hf as [Hf|[_ Hf]]; [|contradiction].
    specialize (IHv q ltac:(lia)). destruct (parse_value fuel q) as [[v p3]|e]; cbn [mbind res_bind]; [|exact (bounded_tail _ _ _ IHv Hq0)]. cbn in IHv.
    pose proof (skip_spaces_suffix p3) as H3. set (q3 := skip_spaces p3) in *. pose proof (suffix_length _ _ H3). pose proof (suffix_length _ _ IHv). assert (q3 ⊑ p0) by (etransitivity; [exact H3|]; etransitivity; eassumption).
    destruct (Z.eqb_spec (cur q3) 44) as [E|_].
    + assert (0 < List.length q3)%nat by (eapply cur_nonempty; eauto; discriminate). apply IHa; [etransitivity; [apply suffix_drop|assumption]|left; rewrite length_drop; lia].
    + destruct (Z.eqb_spec (cur q3) 93) as [E|]; cbn [negb]; [|cbn; reflexivity]. apply IHa; [assumption|]. right. rewrite skip_spaces_stop by (rewrite E; first [reflexivity | discriminate]). split; [lia|exact E].
Qed.

(** More fuel does not change a result. *)
Definition refines (r r' : res (JSONValue * list Z)) : Prop := r = Stop OutOfFuel \/ r = r'.

Lemma refines_refl r : refines r r.
Proof. right. reflexivity. Qed.

Lemma refines_bind r r' f g : refines r r' -> (forall x, refines (f x) (g x)) -> refines (r ≫= f) (r' ≫= g).
Proof. intros [-> | ->] H; [left; reflexivity|]. destruct r' as [x|e]; [apply H|right; reflexivity]. Qed.

Lemma parse_value_eq fuel p0 : parse_value (S fuel) p0 = ltac:(let t := eval cbn [parse_value] in (parse_value (S fuel) p0) in exact t).
Proof. reflexivity. Qed.
Lemma obj_loop_eq fuel p0 p props : obj_loop (S fuel) p0 p props = ltac:(let t := eval cbn [obj_loop] in (obj_loop (S fuel) p0 p props) in exact t).
Proof. reflexivity. Qed.
Lemma arr_loop_eq fuel p0 p tab : arr_loop (S fuel) p0 p tab = ltac:(let t := eval cbn [arr_loop] in (arr_loop (S fuel) p0 p tab) in exact t).
Proof. reflexivity. Qed.

Lemma parse_fuel fuel :
  (forall p, refines (parse_value fuel p) (parse_value (S fuel) p)) /\ (forall p0 p props, refines (obj_loop fuel p0 p props) (obj_loop (S fuel) p0 p props)) /\
  (forall p0 p tab, refines (arr_loop fuel p0 p tab) (arr_loop (S fuel) p0 p tab)).
Proof.
  induction fuel as [|fuel (IHv & IHo & IHa)]; [split; [|split]; intros; left; reflexivity|]. split; [|split].
  - intros p. rewrite (parse_value_eq fuel), (parse_value_eq (S fuel)). cbv zeta. repeat (case_match; try apply refines_refl); auto.
  - intros p0 p props. rewrite (obj_loop_eq fuel), (obj_loop_eq (S fuel)). cbv zeta. destruct (_ =? 125); [apply refines_refl|].
    match goal with |- refines (match ?t with _ => _ end) _ => destruct t as [[s r]|e] end; [|apply refines_refl].
    destruct (_ =? 0)%nat; [apply refines_refl|]. destruct (negb _); [apply refines_refl|]. apply refines_bind; [apply IHv|]. intros [v r']. repeat (case_match; try apply refines_refl); auto.
  - intros p0 p tab. rewrite (arr_loop_eq fuel), (arr_loop_eq (S fuel)). cbv zeta. destruct (_ =? 93); [apply refines_refl|].
    apply refines_bind; [apply IHv|]. intros [v r']. repeat (case_match; try apply refines_refl); auto.
Qed.

Lemma parse_more fuel fuel' p r : parse_value fuel p = Done r -> (fuel <= fuel')%nat -> parse_value fuel' p = Done r.
Proof.
  intros H Hle. induction Hle as [|fuel' _ IH]; [exact H|]. destruct (proj1 (parse_fuel fuel') p) as [E|E]; congruence.
Qed.

Lemma parse_less fuel fuel' p r : parse_value fuel' p = Done r -> (2 * List.length p + 1 <= fuel)%nat -> parse_value fuel p = Done r.
Proof.
  intros H Hf. destruct (parse_value fuel p) as [x|e] eqn:E.
  - destruct (Nat.le_ge_cases fuel fuel'); [pose proof (parse_more fuel fuel' p x E ltac:(assumption))|pose proof (parse_more fuel' fuel p r H ltac:(assumption))]; congruence.
  - pose proof (proj1 (parse_bounded fuel) p Hf) as Hb. rewrite E in Hb. cbn in Hb. destruct Hb as [-> _]. exfalso.
    assert (forall k, parse_value (fuel + k) p = Stop UndefinedBehaviour) as Hk.
    { induction k as [|k IH]; [rewrite Nat.add_0_r; exact E|]. rewrite Nat.add_succ_r. destruct (proj1 (parse_fuel (fuel + k)) p) as [X|X]; congruence. }
    pose proof (parse_more fuel' (fuel + fuel') p r H ltac:(lia)). rewrite Hk in *. discriminate.
Qed.
