(* ===== verification/JsonSpec.v ===== *)
(** * Printing and parsing configurations

    A printer for the values the configuration language has, the proof that the
    parser reads every printed value back, and what the parser does with errors
    inside objects and arrays. *)

From S2P Require Import Prelude Cutils Hostmem Bytes Json.
From Stdlib Require Import ZArith Lia Bool String.
From stdpp Require Import base list.
Local Open Scope Z_scope.
Local Open Scope bits_scope.
Local Open Scope list_scope.

Lemma json_ind (P : JSONValue -> Prop) :
  (forall s, P (JSON_STR s)) -> (forall v, P (JSON_INT v)) -> (forall props, Forall (fun kv => P (snd kv)) props -> P (JSON_OBJ props)) ->
  (forall tab, Forall P tab -> P (JSON_ARRAY tab)) -> (forall b, P (JSON_BOOL b)) -> P JSON_NULL -> P JSON_UNDEFINED -> (forall m, P (JSON_EXCEPTION m)) ->
  forall v, P v.
Proof.
  intros H1 H2 H3 H4 H5 H6 H7 H8. fix IH 1. intros [s|v|props|tab|b| | |m]; [apply H1|apply H2| | |apply H5|exact H6|exact H7|apply H8].
  - apply H3. induction props as [|[k v] props IHp]; constructor; [apply IH|exact IHp].
  - apply H4. induction tab as [|v tab IHt]; constructor; [apply IH|exact IHt].
Qed.

(** ** The printer *)

Definition escape (c : Z) : list Z := if c =? 34 then [92; 34] else if c =? 92 then [92; 92] else if c =? 10 then [92; 110] else [c].
Definition print_str (s : list Z) : list Z := 34 :: flat_map escape s ++ [34].

Fixpoint dec_loop (fuel : nat) (n : Z) (acc : list Z) : list Z :=
  match fuel with
  | O => acc
  | S fuel => let acc := 48 + n mod 10 :: acc in if n / 10 =? 0 then acc else dec_loop fuel (n / 10) acc
  end.

(** The elements, separated by commas. *)
Fixpoint commas (l : list (list Z)) : list Z :=
  match l with
  | [] => []
  | [x] => x
  | x :: l => x ++ 44 :: commas l
  end.

Fixpoint print (v : JSONValue) : list Z :=
  match v with
  | JSON_STR s => print_str s
  | JSON_INT n => dec_loop 19 n []
  | JSON_OBJ props => 123 :: commas (map (fun kv => print_str (fst kv) ++ 58 :: print (snd kv)) props) ++ [125]
  | JSON_ARRAY tab => 91 :: commas (map print tab) ++ [93]
  | JSON_BOOL true => str "true"
  | JSON_BOOL false => str "false"
  | JSON_NULL | JSON_UNDEFINED | JSON_EXCEPTION _ => str "null"
  end.

(** Strings as the parser can hold them. *)
Definition json_str (s : list Z) : Prop := Forall (fun c => c <> 0) s /\ (List.length s <= 4095)%nat.

(** Values of the language: no negative numbers, no empty or repeated property names. *)
Unset Elimination Schemes.
Inductive plain : JSONValue -> Prop :=
| plain_str s : json_str s -> plain (JSON_STR s)
| plain_int n : 0 <= n < 2 ^ 63 -> plain (JSON_INT n)
| plain_obj props : Forall (fun kv => json_str (fst kv) /\ fst kv <> [] /\ plain (snd kv)) props -> NoDup (map fst props) -> plain (JSON_OBJ props)
| plain_array tab : Forall plain tab -> plain (JSON_ARRAY tab)
| plain_bool b : plain (JSON_BOOL b)
| plain_null : plain JSON_NULL.
Set Elimination Schemes.

(** What may follow a value. *)
Definition delimited (rest : list Z) : Prop := cur rest = 44 \/ cur rest = 93 \/ cur rest = 125 \/ rest = [].

(** ** Strings *)

Lemma parse_escaped s rest : forall n acc, Forall (fun c => c <> 0) s -> 0 <= n -> n + zlen s <= 4095 ->
  parse_string_loop (flat_map escape s ++ 34 :: rest) n acc = inl (acc ++ s, rest).
Proof.
  induction s as [|c s IH]; intros n acc Hs Hn Hl; [cbn; rewrite app_nil_r; reflexivity|]. inversion Hs as [|? ? Hc Hs']; subst.
  assert (zlen (c :: s) = 1 + zlen s) as El by (unfold zlen; cbn [List.length]; lia). pose proof (zlen_nonneg s).
  assert ((4095 <=? n) = false) as E4 by (apply Z.leb_gt; lia).
  specialize (IH (n + 1) (acc ++ [c]) Hs' ltac:(lia) ltac:(lia)). rewrite <- app_assoc in IH. cbn [app] in IH.
  cbn [flat_map]. unfold escape at 1. destruct (Z.eqb_spec c 34) as [->|H34]; [|destruct (Z.eqb_spec c 92) as [->|H92]; [|destruct (Z.eqb_spec c 10) as [->|H10]]];
    cbn [app parse_string_loop Z.eqb Pos.eqb orb]; rewrite E4; try exact IH.
  destruct (Z.eqb_spec c 10), (Z.eqb_spec c 34), (Z.eqb_spec c 92); try contradiction. exact IH.
Qed.

Lemma parse_print_str s rest : json_str s -> parse_string (print_str s ++ rest) = (JSON_STR s, rest).
Proof.
  intros [Hs Hl]. unfold parse_string, print_str. cbn [app drop]. rewrite drop_0, <- app_assoc. cbn [app]. rewrite parse_escaped by (try assumption; unfold zlen; lia).
  cbn [app]. unfold json_string_new. rewrite cstr_id by exact Hs. reflexivity.
Qed.

(** ** Numbers *)

Lemma digits_dec fuel : forall n acc any, 0 <= n < 10 ^ Z.of_nat fuel -> (0 < fuel)%nat -> digits 10 0 any (dec_loop fuel n acc) = digits 10 n true acc.
Proof.
  assert (forall a d l any, 0 <= d < 10 -> digits 10 a any (48 + d :: l) = digits 10 (a * 10 + d) true l) as Hd.
  { intros a d l any H. cbn [digits]. destruct (Z.leb_spec 48 (48 + d)), (Z.leb_spec (48 + d) 57); try lia. cbn [andb]. replace (48 + d - 48) with d by lia.
    destruct (Z.ltb_spec d 10); [reflexivity|lia]. }
  induction fuel as [|fuel IH]; intros n acc any Hn Hf; [lia|]. cbn [dec_loop]. pose proof (Z.mod_pos_bound n 10 ltac:(lia)). pose proof (Z.div_mod n 10 ltac:(lia)).
  destruct (Z.eqb_spec (n / 10) 0) as [E|E].
  - rewrite Hd by lia. f_equal. lia.
  - rewrite Nat2Z.inj_succ, Z.pow_succ_r in Hn by lia. assert (0 <= n / 10 < 10 ^ Z.of_nat fuel) by (split; [apply Z.div_pos; lia|apply Z.div_lt_upper_bound; lia]).
    destruct fuel as [|fuel]; [cbn in *; lia|]. rewrite IH by lia. rewrite Hd by lia. f_equal. lia.
Qed.

Lemma dec_head fuel : forall n acc, 0 < n < 10 ^ Z.of_nat fuel -> exists d l, dec_loop fuel n acc = d :: l /\ 49 <= d <= 57.
Proof.
  induction fuel as [|fuel IH]; intros n acc Hn; [cbn in Hn; lia|]. cbn [dec_loop]. pose proof (Z.mod_pos_bound n 10 ltac:(lia)). pose proof (Z.div_mod n 10 ltac:(lia)).
  destruct (Z.eqb_spec (n / 10) 0) as [E|E]; [eexists _, _; split; [reflexivity|lia]|]. apply IH.
  rewrite Nat2Z.inj_succ, Z.pow_succ_r in Hn by lia. assert (0 <= n / 10) by (apply Z.div_pos; lia). split; [lia|apply Z.div_lt_upper_bound; lia].
Qed.

Lemma dec_loop_app fuel : forall n acc rest, dec_loop fuel n (acc ++ rest) = dec_loop fuel n acc ++ rest.
Proof. induction fuel as [|fuel IH]; intros n acc rest; [reflexivity|]. cbn [dec_loop]. destruct (n / 10 =? 0); [reflexivity|]. apply (IH (n / 10) (48 + n mod 10 :: acc)). Qed.

Lemma digits_stop base v rest : delimited rest -> base <= 16 -> digits base v true rest = Some (v, rest).
Proof.
  intros H Hb. destruct rest as [|c rest]; [reflexivity|]. cbn [digits]. assert (c = 44 \/ c = 93 \/ c = 125) as Hc by (destruct H as [H|[H|[H|H]]]; cbn in H; auto; discriminate).
  destruct Hc as [-> | [-> | ->]]; cbn; destruct (Z.ltb_spec 99 base); try lia; reflexivity.
Qed.

Lemma strtoll_dec n rest : 0 <= n < 2 ^ 63 -> delimited rest -> strtoll (dec_loop 19 n [] ++ rest) 0 = (n, rest).
Proof.
  intros Hn Hr. assert (n = 0 \/ 0 < n) as [-> |Hp] by lia.
  - assert (cur rest <> 120 /\ cur rest <> 88) as [H1 H2] by (destruct Hr as [H|[H|[H| ->]]]; try rewrite H; cbn; split; discriminate).
    change (dec_loop 19 0 [] ++ rest) with (48 :: rest). unfold strtoll. change (drop_spaces (48 :: rest)) with (48 :: rest). cbn [cur drop Z.eqb Pos.eqb orb andb]. rewrite drop_0.
    destruct (Z.eqb_spec (cur rest) 120), (Z.eqb_spec (cur rest) 88); try contradiction. cbn [orb andb]. cbn [digits Z.leb Z.compare Pos.compare Pos.compare_cont andb]. change (48 - 48 <? 8) with true. cbv iota.
    rewrite digits_stop by (exact Hr || lia). reflexivity.
  - rewrite <- (dec_loop_app 19 n [] rest). cbn [app]. destruct (dec_head 19 n rest ltac:(cbn; lia)) as (d & l & E & Hd). pose proof (digits_dec 19 n rest false ltac:(cbn; lia) ltac:(lia)) as Ed. rewrite E in *.
    unfold strtoll. assert (drop_spaces (d :: l) = d :: l) as ->.
    { cbn [drop_spaces]. unfold isspace. destruct (Z.eqb_spec d 32), (Z.leb_spec 9 d), (Z.leb_spec d 13); try lia; reflexivity. }
    change (cur (d :: l)) with d. assert ((d =? 45) = false /\ (d =? 43) = false /\ (d =? 48) = false) as (-> & -> & E48) by (repeat split; apply Z.eqb_neq; lia).
    cbv zeta. change (cur (d :: l)) with d. rewrite E48. change (((0 =? 0) || (0 =? 16)) && (false && _ && _)) with false. change (0 =? 0) with true. cbv iota. rewrite Ed, digits_stop by (exact Hr || lia).
    f_equal. lia.
Qed.

(** ** Keywords *)

Lemma delimited_ident rest : delimited rest -> is_ident_first (cur rest) || isdigit (cur rest) = false.
Proof. intros [H|[H|[H| ->]]]; try rewrite H; reflexivity. Qed.

Lemma ident_stop room rest : delimited rest -> ident_loop room rest = Some ([], rest).
Proof. intros H. apply delimited_ident in H. destruct rest as [|c rest]; [reflexivity|]. cbn [ident_loop cur] in *. rewrite H. reflexivity. Qed.

Lemma parse_keyword k rest : In k [str "true"; str "false"; str "null"] -> delimited rest -> parse_ident (k ++ rest) = Some (k, rest).
Proof.
  intros Hk Hr. pose proof (fun room => ident_stop room rest Hr) as Hs.
  repeat (destruct Hk as [<-|Hk]; [unfold parse_ident; cbn [app drop str list_ascii_of_string map]; rewrite ?drop_0;
    cbn [app ident_loop]; repeat (match goal with |- context [is_ident_first ?c || isdigit ?c] => change (is_ident_first c || isdigit c) with true end; cbv iota); rewrite Hs; reflexivity|]); contradiction.
Qed.

(** ** Separators *)

Lemma commas_cons x l : commas (x :: l) = x ++ match l with [] => [] | _ => 44 :: commas l end.
Proof. destruct l; [cbn; rewrite app_nil_r|]; reflexivity. Qed.

Lemma skip_delim p : delimited p -> skip_spaces p = p.
Proof. intros [H|[H|[H| ->]]]; [..|reflexivity]; apply skip_spaces_stop; rewrite H; first [reflexivity | discriminate]. Qed.

Lemma props_set_new done k v : Forall (fun c => c <> 0) k -> k ∉ map fst done -> props_set done k v = done ++ [(k, v)].
Proof.
  intros Hk. induction done as [|[n w] done IH]; cbn [map fst props_set]; intros Hn; [rewrite cstr_id by exact Hk; reflexivity|].
  rewrite not_elem_of_cons in Hn. destruct Hn as [Hn1 Hn2]. rewrite bool_decide_false by congruence. cbn [app]. rewrite IH by exact Hn2. reflexivity.
Qed.

Lemma obj_more fuel fuel' p0 p props r : obj_loop fuel p0 p props = Done r -> (fuel <= fuel')%nat -> obj_loop fuel' p0 p props = Done r.
Proof. intros H Hle. induction Hle as [|fuel' _ IH]; [exact H|]. destruct (proj1 (proj2 (parse_fuel fuel')) p0 p props) as [E|E]; congruence. Qed.
Lemma arr_more fuel fuel' p0 p tab r : arr_loop fuel p0 p tab = Done r -> (fuel <= fuel')%nat -> arr_loop fuel' p0 p tab = Done r.
Proof. intros H Hle. induction Hle as [|fuel' _ IH]; [exact H|]. destruct (proj2 (proj2 (parse_fuel fuel')) p0 p tab) as [E|E]; congruence. Qed.

(** [v] is read back in every context. *)
Definition reads (v : JSONValue) : Prop := forall rest, delimited rest -> exists fuel, parse_value fuel (print v ++ rest) = Done (v, rest).

(** One turn of each loop over a printed element. *)
Lemma obj_turn fuel p0 k v tail props : json_str k -> k <> [] -> delimited tail -> parse_value fuel (print v ++ tail) = Done (v, tail) ->
  obj_loop (S fuel) p0 ((print_str k ++ 58 :: print v) ++ tail) props =
  if cur tail =? 44 then obj_loop fuel p0 (drop 1 tail) (props_set props k v)
  else if negb (cur tail =? 125) then err "expecting ',' or '}'" p0 else obj_loop fuel p0 tail (props_set props k v).
Proof.
  intros Hk Hne Ht Hv. rewrite obj_loop_eq. cbv zeta. rewrite <- app_assoc. cbn [app]. rewrite (skip_spaces_stop (print_str k ++ _)) by (cbn; first [reflexivity | discriminate]).
  change (cur (print_str k ++ 58 :: print v ++ tail)) with 34. cbn [Z.eqb Pos.eqb]. rewrite parse_print_str by exact Hk.
  destruct k as [|c k]; [contradiction|]. cbn [List.length Nat.eqb]. rewrite (skip_spaces_stop (58 :: _)) by (cbn; first [reflexivity | discriminate]).
  cbn [cur Z.eqb Pos.eqb negb drop]. rewrite drop_0, Hv. cbn [mbind res_bind]. rewrite skip_delim by exact Ht. reflexivity.
Qed.

Lemma print_head v : plain v -> let c := cur (print v) in isspace c = false /\ c <> 47 /\ c <> 93 /\ print v <> [].
Proof.
  intros Hv. destruct Hv; cbv zeta; try (repeat split; cbn; discriminate).
  - cbn [print]. assert (n = 0 \/ 0 < n) as [-> |Hp] by lia; [repeat split; discriminate|]. destruct (dec_head 19 n [] ltac:(cbn; lia)) as (d & l & -> & Hd). cbn [cur]. unfold isspace.
    destruct (Z.eqb_spec d 32), (Z.leb_spec 9 d), (Z.leb_spec d 13); try lia. repeat split; try lia; discriminate.
  - destruct b; repeat split; cbn; discriminate.
Qed.

Lemma cur_app a b : a <> [] -> cur (a ++ b) = cur a.
Proof. destruct a; [contradiction|reflexivity]. Qed.

Lemma arr_turn fuel p0 v tail tab : plain v -> delimited tail -> parse_value fuel (print v ++ tail) = Done (v, tail) ->
  arr_loop (S fuel) p0 (print v ++ tail) tab =
  if cur tail =? 44 then arr_loop fuel p0 (drop 1 tail) (tab ++ [v])
  else if negb (cur tail =? 93) then err "expecting ',' or ']'" p0 else arr_loop fuel p0 tail (tab ++ [v]).
Proof.
  intros Hp Ht Hv. destruct (print_head v Hp) as (H1 & H2 & H3 & H4). rewrite arr_loop_eq. cbv zeta.
  rewrite (skip_spaces_stop (print v ++ tail)) by (rewrite cur_app by exact H4; assumption). rewrite cur_app by exact H4. destruct (Z.eqb_spec (cur (print v)) 93); [contradiction|].
  rewrite Hv. cbn [mbind res_bind]. rewrite skip_delim by exact Ht. reflexivity.
Qed.

Definition print_prop (kv : list Z * JSONValue) : list Z := print_str (fst kv) ++ 58 :: print (snd kv).

Lemma delim_close c rest : c = 44 \/ c = 93 \/ c = 125 -> delimited (c :: rest).
Proof. intros [-> | [-> | ->]]; unfold delimited; cbn; auto. Qed.

Lemma obj_reads p0 rest props : forall done, Forall (fun kv => reads (snd kv)) props -> Forall (fun kv => json_str (fst kv) /\ fst kv <> []) props ->
  NoDup (map fst (done ++ props)) -> exists fuel, obj_loop fuel p0 (commas (map print_prop props) ++ 125 :: rest) done = Done (JSON_OBJ (done ++ props), rest).
Proof.
  induction props as [|[k v] props IH]; intros done Hr Hk Hd.
  - exists 1%nat. cbn [map commas app]. rewrite obj_loop_eq, (skip_delim (125 :: rest)) by (apply delim_close; auto). cbn [cur Z.eqb Pos.eqb drop]. rewrite drop_0, app_nil_r. reflexivity.
  - inversion Hr as [|? ? Hv Hr']; subst. inversion Hk as [|? ? [Hs Hne] Hk']; subst. cbn [fst snd] in *.
    set (tail := match props with [] => 125 :: rest | _ => 44 :: commas (map print_prop props) ++ 125 :: rest end).
    assert (commas (map print_prop ((k, v) :: props)) ++ 125 :: rest = print_prop (k, v) ++ tail) as ->.
    { cbn [map]. rewrite commas_cons, <- app_assoc. f_equal. unfold tail. destruct props; reflexivity. }
    assert (delimited tail) as Ht by (unfold tail; destruct props; apply delim_close; auto).
    destruct (Hv tail Ht) as [f1 E1]. destruct (IH (done ++ [(k, v)]) Hr' Hk') as [f2 E2]; [rewrite <- app_assoc; exact Hd|].
    assert (props_set done k v = done ++ [(k, v)]) as Ep.
    { apply props_set_new; [apply Hs|]. rewrite map_app in Hd. cbn [map fst] in Hd. apply NoDup_app in Hd as (_ & Hd & _). intros Hin. apply (Hd k Hin). left. }
    exists (S (f1 + S f2)). unfold print_prop. cbn [fst snd]. rewrite obj_turn; [|assumption|assumption|assumption|apply (parse_more f1); [exact E1|lia]]. rewrite Ep.
    rewrite <- app_assoc in E2. cbn [app] in E2. unfold tail. destruct props as [|kv props].
    + cbn [cur Z.eqb Pos.eqb negb]. apply (obj_more f2); [exact E2|lia].
    + cbn [cur Z.eqb Pos.eqb drop]. rewrite drop_0. apply (obj_more f2); [exact E2|lia].
Qed.

Lemma arr_reads p0 rest tab : forall done, Forall reads tab -> Forall plain tab ->
  exists fuel, arr_loop fuel p0 (commas (map print tab) ++ 93 :: rest) done = Done (JSON_ARRAY (done ++ tab), rest).
Proof.
  induction tab as [|v tab IH]; intros done Hr Hp.
  - exists 1%nat. cbn [map commas app]. rewrite arr_loop_eq, (skip_delim (93 :: rest)) by (apply delim_close; auto). cbn [cur Z.eqb Pos.eqb drop]. rewrite drop_0, app_nil_r. reflexivity.
  - inversion Hr as [|? ? Hv Hr']; subst. inversion Hp as [|? ? Hpv Hp']; subst.
    set (tail := match tab with [] => 93 :: rest | _ => 44 :: commas (map print tab) ++ 93 :: rest end).
    assert (commas (map print (v :: tab)) ++ 93 :: rest = print v ++ tail) as ->.
    { cbn [map]. rewrite commas_cons, <- app_assoc. f_equal. unfold tail. destruct tab; reflexivity. }
    assert (delimited tail) as Ht by (unfold tail; destruct tab; apply delim_close; auto).
    destruct (Hv tail Ht) as [f1 E1]. destruct (IH (done ++ [v]) Hr' Hp') as [f2 E2].
    exists (S (f1 + S f2)). rewrite arr_turn; [|assumption|assumption|apply (parse_more f1); [exact E1|lia]].
    rewrite <- app_assoc in E2. cbn [app] in E2. unfold tail. destruct tab as [|w tab].
    + cbn [cur Z.eqb Pos.eqb negb]. apply (arr_more f2); [exact E2|lia].
    + cbn [cur Z.eqb Pos.eqb drop]. rewrite drop_0. apply (arr_more f2); [exact E2|lia].
Qed.

Lemma keyword_reads k v rest : In (k, v) [(str "true", JSON_BOOL true); (str "false", JSON_BOOL false); (str "null", JSON_NULL)] -> delimited rest -> parse_value 1 (k ++ rest) = Done (v, rest).
Proof.
  intros Hk Hr. rewrite parse_value_eq. assert (parse_ident (k ++ rest) = Some (k, rest)) as Hi by (apply parse_keyword; [|exact Hr]; simpl in Hk |- *; intuition congruence).
  assert (skip_spaces (k ++ rest) = k ++ rest) as -> by (apply skip_spaces_stop; repeat (destruct Hk as [[= <- <-]|Hk]; [cbn; first [reflexivity | discriminate]|]); contradiction).
  rewrite Hi. repeat (destruct Hk as [[= <- <-]|Hk]; [reflexivity|]). contradiction.
Qed.

Lemma plain_reads v : plain v -> reads v.
Proof.
  induction v as [s|n|props IH|tab IH|b| | |m] using json_ind; intros Hv rest Hr; inversion Hv; subst.
  - exists 1%nat. rewrite parse_value_eq. rewrite skip_spaces_stop by (cbn; first [reflexivity | discriminate]). change (cur (print (JSON_STR s) ++ rest)) with 34.
    change (print (JSON_STR s) ++ rest) with (print_str s ++ rest). rewrite parse_print_str by assumption. reflexivity.
  - exists 1%nat. rewrite parse_value_eq. destruct (print_head _ Hv) as (H1 & H2 & _ & H4). rewrite skip_spaces_stop by (rewrite cur_app by exact H4; assumption). rewrite cur_app by exact H4.
    change (print (JSON_INT n)) with (dec_loop 19 n []). rewrite strtoll_dec by assumption. assert (n = 0 \/ 0 < n) as [-> |Hp] by lia.
    + change (dec_loop 19 0 []) with [48]. change (cur (drop 1 ([48] ++ rest))) with (cur (drop 0 rest)). rewrite drop_0. cbn [cur Z.eqb Pos.eqb andb isdigit Z.leb Z.compare Pos.compare Pos.compare_cont].
      destruct (Z.eqb_spec (cur rest) 120) as [Ec|_]; [|reflexivity]. exfalso. destruct Hr as [H|[H|[H| ->]]]; try congruence; cbn in Ec; lia.
    + destruct (dec_head 19 n [] ltac:(cbn; lia)) as (d & l & -> & Hd). cbn [cur]. destruct (Z.eqb_spec d 0), (Z.eqb_spec d 48); try lia. cbn [andb].
      assert (isdigit d = true) as -> by (unfold isdigit; apply andb_true_iff; split; apply Z.leb_le; lia). reflexivity.
  - match goal with H : Forall _ props |- _ => rename H into Hf end. match goal with H : NoDup _ |- _ => rename H into Hnd end.
    assert (Forall (fun kv => reads (snd kv)) props) as Hr1 by (clear Hnd Hv; induction IH as [|kv l Hkv _ IHl]; inversion Hf as [|? ? (_ & _ & Hp) Hf']; subst; constructor; auto).
    assert (Forall (fun kv => json_str (fst kv) /\ fst kv <> []) props) as Hr2 by (eapply Forall_impl; [exact Hf|]; intros kv (A & B & _); auto).
    cbn [print]. change (fun kv => print_str (fst kv) ++ 58 :: print (snd kv)) with print_prop. set (body := commas (map print_prop props)).
    destruct (obj_reads (123 :: body ++ [125] ++ rest) rest props [] Hr1 Hr2 Hnd) as [fuel E]. fold body in E. exists (S fuel). rewrite parse_value_eq.
    rewrite skip_spaces_stop by (cbn; first [reflexivity | discriminate]). cbn [app cur Z.eqb Pos.eqb andb isdigit Z.leb Z.compare Pos.compare Pos.compare_cont drop]. rewrite drop_0, <- app_assoc. exact E.
  - match goal with H : Forall _ tab |- _ => rename H into Hf end.
    assert (Forall reads tab) as Hr1 by (clear Hv; induction IH as [|w l Hw _ IHl]; inversion Hf; subst; constructor; auto).
    cbn [print]. set (body := commas (map print tab)). destruct (arr_reads (91 :: body ++ [93] ++ rest) rest tab [] Hr1 Hf) as [fuel E]. fold body in E. exists (S fuel). rewrite parse_value_eq.
    rewrite skip_spaces_stop by (cbn; first [reflexivity | discriminate]). cbn [app cur Z.eqb Pos.eqb andb isdigit Z.leb Z.compare Pos.compare Pos.compare_cont drop]. rewrite drop_0, <- app_assoc. exact E.
  - exists 1%nat. destruct b; (apply keyword_reads; [simpl; auto|exact Hr]).
  - exists 1%nat. apply keyword_reads; [simpl; auto|exact Hr].
Qed.

(** ** The text has no terminator *)

Lemma escape_nonzero s : Forall (fun c => c <> 0) s -> Forall (fun c => c <> 0) (flat_map escape s).
Proof.
  induction 1 as [|c s Hc _ IH]; [constructor|]. cbn [flat_map]. apply Forall_app. split; [|exact IH]. unfold escape. repeat case_match; repeat constructor; try discriminate; assumption.
Qed.

Lemma commas_nonzero l : Forall (Forall (fun c : Z => c <> 0)) l -> Forall (fun c => c <> 0) (commas l).
Proof.
  induction 1 as [|x l Hx Hl IH]; [constructor|]. rewrite commas_cons. apply Forall_app. split; [exact Hx|]. destruct l; [constructor|]. constructor; [discriminate|exact IH].
Qed.

Lemma print_str_nonzero s : json_str s -> Forall (fun c => c <> 0) (print_str s).
Proof. intros [Hs _]. constructor; [discriminate|]. apply Forall_app. split; [apply escape_nonzero, Hs|repeat constructor; discriminate]. Qed.

Lemma dec_nonzero fuel : forall n acc, Forall (fun c => c <> 0) acc -> Forall (fun c => c <> 0) (dec_loop fuel n acc).
Proof.
  induction fuel as [|fuel IH]; intros n acc Ha; [exact Ha|]. cbn [dec_loop]. pose proof (Z.mod_pos_bound n 10 ltac:(lia)). destruct (n / 10 =? 0); [|apply IH]; (constructor; [lia|exact Ha]).
Qed.

Lemma print_nonzero v : plain v -> Forall (fun c => c <> 0) (print v).
Proof.
  induction v as [s|n|props IH|tab IH|b| | |m] using json_ind; intros Hv; inversion Hv; subst; cbn [print].
  - apply print_str_nonzero. assumption.
  - apply dec_nonzero. constructor.
  - match goal with H : Forall _ props |- _ => rename H into Hf end. constructor; [discriminate|]. apply Forall_app. split; [|repeat constructor; discriminate]. apply commas_nonzero.
    clear Hv. induction IH as [|kv l Hkv _ IHl]; cbn [map]; [constructor|]. inversion Hf as [|? ? (A & B & C) Hf']; subst. match goal with H : NoDup _ |- _ => inversion H; subst end.
    constructor; [|apply IHl; auto]. apply Forall_app. split; [apply print_str_nonzero, A|]. constructor; [discriminate|apply Hkv, C].
  - match goal with H : Forall _ tab |- _ => rename H into Hf end. constructor; [discriminate|]. apply Forall_app. split; [|repeat constructor; discriminate]. apply commas_nonzero.
    clear Hv. induction IH as [|w l Hw _ IHl]; cbn [map]; [constructor|]. inversion Hf; subst. constructor; auto.
  - destruct b; repeat constructor; discriminate.
  - repeat constructor; discriminate.
Qed.

(** ** The parser *)

Lemma enough_fuel (p : list Z) : (2 * List.length p + 1 <= enough (List.length p))%nat.
Proof. unfold enough. lia. Qed.

(** C24 Parsing inverts printing: every value of the configuration language (objects with distinct nonempty names, arrays,
    strings of up to 4095 bytes with any bytes but 0, integers from 0 to 2^63 - 1, booleans and null, nested to any depth),
    printed with escapes, is read back as itself. *)
Theorem json_roundtrip v : plain v -> json_parse_value_len (print v) = Done v.
Proof.
  intros Hv. unfold json_parse_value_len, json_parse_value. rewrite cstr_id by (apply print_nonzero, Hv).
  destruct (plain_reads v Hv [] ltac:(unfold delimited; auto)) as [fuel E]. rewrite app_nil_r in E.
  rewrite (parse_less _ _ _ _ E (enough_fuel (print v))). cbn [mbind res_bind]. inversion Hv; reflexivity.
Qed.

Lemma json_roundtrip_witness : json_parse_value_len (print (JSON_OBJ [(str "version", JSON_INT 1); (str "a b", JSON_ARRAY [JSON_STR [34; 10; 92; 200]; JSON_BOOL true; JSON_NULL])]))
  = Done (JSON_OBJ [(str "version", JSON_INT 1); (str "a b", JSON_ARRAY [JSON_STR [34; 10; 92; 200]; JSON_BOOL true; JSON_NULL])]).
Proof.
  apply json_roundtrip. apply plain_obj; [|apply (bool_decide_unpack _); vm_compute; exact I].
  assert (forall s : list Z, Forall (fun c => c <> 0) s -> (List.length s <=? 4095)%nat = true -> json_str s) as Hs by (intros s H1 H2; split; [exact H1|apply Nat.leb_le; exact H2]).
  repeat (apply Forall_cons_2 || apply Forall_nil_2); cbn [fst snd].
  - split; [apply Hs; [apply (bool_decide_unpack _); vm_compute; exact I|reflexivity]|]. split; [discriminate|]. apply plain_int. lia.
  - split; [apply Hs; [apply (bool_decide_unpack _); vm_compute; exact I|reflexivity]|]. split; [discriminate|]. apply plain_array. repeat (apply Forall_cons_2 || apply Forall_nil_2); constructor.
    apply Hs; [apply (bool_decide_unpack _); vm_compute; exact I|reflexivity].
Defined.

(** A run of identifier characters that overflows the buffer of [parse_ident]. *)
Definition ident_char (c : Z) : bool := is_ident_first c || isdigit c.
Definition long_ident (b : list Z) : Prop := (127 <= List.length b)%nat /\ forallb ident_char (take 127 b) = true.

Lemma ident_loop_none p : forall room, ident_loop room p = None -> (room < List.length p)%nat /\ forallb ident_char (take (S room) p) = true.
Proof.
  induction p as [|c p IH]; intros room; cbn [ident_loop]; [discriminate|]. destruct (is_ident_first c || isdigit c) eqn:Ec; [|discriminate]. destruct room as [|room].
  - intros _. cbn [List.length take forallb]. rewrite take_0. unfold ident_char. rewrite Ec. split; [lia|reflexivity].
  - destruct (ident_loop room p) as [[s r]|] eqn:E; [discriminate|]. intros _. destruct (IH room E) as [H1 H2]. cbn [List.length]. split; [lia|].
    change (take (S (S room)) (c :: p)) with (c :: take (S room) p). cbn [forallb]. unfold ident_char at 1. rewrite Ec. exact H2.
Qed.

(** The parser is total: on every text whose identifiers are shorter than 128 bytes it returns a value, an error value
    at worst; it never loops, whatever is malformed, unterminated or nested. *)
Theorem json_total text : (forall a b, cstr text = a ++ b -> ~ long_ident b) -> exists v, json_parse_value_len text = Done v.
Proof.
  intros H. unfold json_parse_value_len, json_parse_value. set (t := cstr text) in *. pose proof (proj1 (parse_bounded (enough (List.length t))) t (enough_fuel t)) as Hb.
  destruct (parse_value (enough (List.length t)) t) as [[v p]|e]; cbn [mbind res_bind]; [repeat case_match; eauto|].
  exfalso. destruct Hb as (_ & q & [a Ha] & Hq). unfold parse_ident in Hq. destruct (ident_loop 126 (drop 1 q)) as [[s r]|] eqn:E; [discriminate|]. apply ident_loop_none in E as [E1 E2].
  apply (H (a ++ take 1 q) (drop 1 q)); [rewrite <- app_assoc, take_drop; exact Ha|]. split; [lia|exact E2].
Qed.

Lemma json_total_witness : exists v, json_parse_value_len (str "[[{a:1,,") = Done v.
Proof.
  apply json_total. intros a b E [Hl _]. apply (f_equal (@List.length Z)) in E. rewrite length_app in E. change (List.length (cstr (str "[[{a:1,,"))) with 8%nat in E. lia.
Defined.

(** Errors inside an object or array are stored as values and not reported: a missing value is accepted. *)
Lemma json_errors_leak : exists m, json_parse_value_len (str "{a:}") = Done (JSON_OBJ [(str "a", JSON_EXCEPTION m)]) /\
  json_parse_value_len (str "[,]") = Done (JSON_ARRAY [JSON_EXCEPTION m]).
Proof. exists (str "unexpected character"). split; vm_compute; reflexivity. Qed.

(** An identifier of 128 bytes or more is printed from a buffer without a terminator. *)
Lemma json_long_ident_undefined : json_parse_value_len (replicate 128 97) = Stop UndefinedBehaviour.
Proof. vm_compute. reflexivity. Qed.
