(* ===== verification/Config.v ===== *)
(** * The configuration ([machine.cpp], the option handling of [dromajo_main.cpp])

    [VirtMachineParams] as it is filled from the defaults, the configuration file
    and the command line.  The messages of [vm_error] are kept in a log. *)

From S2P Require Import Prelude Riscv Cutils Json Elf.
From S2P Require Cosim.
From Stdlib Require Import ZArith Lia Bool String.
From stdpp Require Import base list.
Local Open Scope Z_scope.
Local Open Scope bits_scope.
Local Open Scope list_scope.

(** ** Parameters *)

Definition MAX_DRIVE_DEVICE : Z := 4.
Definition MAX_FS_DEVICE : Z := 4.
Definition MAX_ETH_DEVICE : Z := 1.
Definition VM_CONFIG_VERSION : Z := 1.

Definition VM_FILE_BIOS : nat := 0.
Definition VM_FILE_VGA_BIOS : nat := 1.
Definition VM_FILE_KERNEL : nat := 2.
Definition VM_FILE_INITRD : nat := 3.
Definition VM_FILE_COUNT : nat := 4.

(** A NULL pointer is [None]; the length of a file is that of its buffer. *)
Record VMFileEntry := mkVMFileEntry { filename : option (list Z); buf : option (list Z) }.
Record VMDriveEntry := mkVMDriveEntry { d_device : option (list Z); d_filename : list Z }.
Record VMFSEntry := mkVMFSEntry { f_tag : list Z; f_filename : list Z }.
Record VMEthEntry := mkVMEthEntry { e_driver : list Z; e_ifname : option (list Z) }.

(** The fields of [VirtMachineParams]; the first [drive_count] entries of [tab_drive] and so on.  The console and the
    opened devices are arguments of the machine's construction. *)
Record VirtMachineParams := mkVirtMachineParams {
  p_cfg_filename : option (list Z);
  p_ram_base_addr : Z;
  p_ram_size : Z;
  p_rtc_local_time : bool;
  p_display_device : option (list Z);
  p_width : Z;
  p_height : Z;
  p_tab_drive : list VMDriveEntry;
  p_tab_fs : list VMFSEntry;
  p_tab_eth : list VMEthEntry;
  p_htif_base_addr : Z;
  p_missing_csrs : list Z;
  p_skip_commit : list Z;
  p_cmdline : option (list Z);
  p_accel_enable : bool;
  p_input_device : option (list Z);
  p_files : list VMFileEntry;
  p_maxinsns : Z;
  p_snapshot_load_name : option (list Z);
  p_bootrom_name : option (list Z);
  p_dtb_name : option (list Z);
  p_compact_bootrom : bool;
  p_reset_vector : Z;
  p_ncpus : Z;
  p_mmio_start : Z;
  p_mmio_end : Z;
  p_mmio_addrset : list Cosim.AddressSet;
  p_plic_base_addr : Z;
  p_plic_size : Z;
  p_clint_base_addr : Z;
  p_clint_size : Z;
  p_custom_extension : bool;
  p_physical_addr_len : Z;
  p_logfile : option (list Z);
  p_dump_memories : bool }.

Definition eta_params (p : VirtMachineParams) : VirtMachineParams :=
    mkVirtMachineParams (p_cfg_filename p) (p_ram_base_addr p) (p_ram_size p) (p_rtc_local_time p) (p_display_device
    p) (p_width p) (p_height p) (p_tab_drive p) (p_tab_fs p) (p_tab_eth p) (p_htif_base_addr p) (p_missing_csrs p)
    (p_skip_commit p) (p_cmdline p) (p_accel_enable p) (p_input_device p) (p_files p) (p_maxinsns p)
    (p_snapshot_load_name p) (p_bootrom_name p) (p_dtb_name p) (p_compact_bootrom p) (p_reset_vector p) (p_ncpus p)
    (p_mmio_start p) (p_mmio_end p) (p_mmio_addrset p) (p_plic_base_addr p) (p_plic_size p) (p_clint_base_addr p)
    (p_clint_size p) (p_custom_extension p) (p_physical_addr_len p) (p_logfile p) (p_dump_memories p).
Ltac upd_param f :=
  exact (fun v s => ltac:(let b := eval cbv beta delta [eta_params] in (eta_params s) in
    match b with context C [f s] => let b' := context C [v] in exact b' end)).
#[export] Instance upd_p_cfg_filename : Upd p_cfg_filename := ltac:(upd_param p_cfg_filename).
#[export] Instance upd_p_ram_base_addr : Upd p_ram_base_addr := ltac:(upd_param p_ram_base_addr).
#[export] Instance upd_p_ram_size : Upd p_ram_size := ltac:(upd_param p_ram_size).
#[export] Instance upd_p_rtc_local_time : Upd p_rtc_local_time := ltac:(upd_param p_rtc_local_time).
#[export] Instance upd_p_display_device : Upd p_display_device := ltac:(upd_param p_display_device).
#[export] Instance upd_p_width : Upd p_width := ltac:(upd_param p_width).
#[export] Instance upd_p_height : Upd p_height := ltac:(upd_param p_height).
#[export] Instance upd_p_tab_drive : Upd p_tab_drive := ltac:(upd_param p_tab_drive).
#[export] Instance upd_p_tab_fs : Upd p_tab_fs := ltac:(upd_param p_tab_fs).
#[export] Instance upd_p_tab_eth : Upd p_tab_eth := ltac:(upd_param p_tab_eth).
#[export] Instance upd_p_htif_base_addr : Upd p_htif_base_addr := ltac:(upd_param p_htif_base_addr).
#[export] Instance upd_p_missing_csrs : Upd p_missing_csrs := ltac:(upd_param p_missing_csrs).
#[export] Instance upd_p_skip_commit : Upd p_skip_commit := ltac:(upd_param p_skip_commit).
#[export] Instance upd_p_cmdline : Upd p_cmdline := ltac:(upd_param p_cmdline).
#[export] Instance upd_p_accel_enable : Upd p_accel_enable := ltac:(upd_param p_accel_enable).
#[export] Instance upd_p_input_device : Upd p_input_device := ltac:(upd_param p_input_device).
#[export] Instance upd_p_files : Upd p_files := ltac:(upd_param p_files).
#[export] Instance upd_p_maxinsns : Upd p_maxinsns := ltac:(upd_param p_maxinsns).
#[export] Instance upd_p_snapshot_load_name : Upd p_snapshot_load_name := ltac:(upd_param p_snapshot_load_name).
#[export] Instance upd_p_bootrom_name : Upd p_bootrom_name := ltac:(upd_param p_bootrom_name).
#[export] Instance upd_p_dtb_name : Upd p_dtb_name := ltac:(upd_param p_dtb_name).
#[export] Instance upd_p_compact_bootrom : Upd p_compact_bootrom := ltac:(upd_param p_compact_bootrom).
#[export] Instance upd_p_reset_vector : Upd p_reset_vector := ltac:(upd_param p_reset_vector).
#[export] Instance upd_p_ncpus : Upd p_ncpus := ltac:(upd_param p_ncpus).
#[export] Instance upd_p_mmio_start : Upd p_mmio_start := ltac:(upd_param p_mmio_start).
#[export] Instance upd_p_mmio_end : Upd p_mmio_end := ltac:(upd_param p_mmio_end).
#[export] Instance upd_p_mmio_addrset : Upd p_mmio_addrset := ltac:(upd_param p_mmio_addrset).
#[export] Instance upd_p_plic_base_addr : Upd p_plic_base_addr := ltac:(upd_param p_plic_base_addr).
#[export] Instance upd_p_plic_size : Upd p_plic_size := ltac:(upd_param p_plic_size).
#[export] Instance upd_p_clint_base_addr : Upd p_clint_base_addr := ltac:(upd_param p_clint_base_addr).
#[export] Instance upd_p_clint_size : Upd p_clint_size := ltac:(upd_param p_clint_size).
#[export] Instance upd_p_custom_extension : Upd p_custom_extension := ltac:(upd_param p_custom_extension).
#[export] Instance upd_p_physical_addr_len : Upd p_physical_addr_len := ltac:(upd_param p_physical_addr_len).
#[export] Instance upd_p_logfile : Upd p_logfile := ltac:(upd_param p_logfile).
#[export] Instance upd_p_dump_memories : Upd p_dump_memories := ltac:(upd_param p_dump_memories).

(** [memset(p, 0, sizeof *p)] *)
Definition zero_params : VirtMachineParams :=
    mkVirtMachineParams None 0 0 false None 0 0 [] [] [] 0 [] [] None false None (replicate 4 (mkVMFileEntry None
    None)) 0 None None None false 0 0 0 0 [] 0 0 0 0 false 0 None false.

Definition PHYSICAL_ADDR_LEN_DEFAULT : Z := 40.
Definition PLIC_BASE_ADDR : Z := 0x10000000.
Definition PLIC_SIZE : Z := 0x2000000.
Definition CLINT_BASE_ADDR : Z := 0x02000000.
Definition CLINT_SIZE : Z := 0x000c0000.

Definition virt_machine_set_defaults : VirtMachineParams :=
  zero_params <| p_physical_addr_len := PHYSICAL_ADDR_LEN_DEFAULT |> <| p_ram_base_addr := RAM_BASE_ADDR |>
    <| p_reset_vector := BOOT_BASE_ADDR |> <| p_plic_base_addr := PLIC_BASE_ADDR |> <| p_plic_size := PLIC_SIZE |>
    <| p_clint_base_addr := CLINT_BASE_ADDR |> <| p_clint_size := CLINT_SIZE |>.

Definition virt_machine_get_name : list Z := str "riscv64".

(** ** Reading properties *)

Record Reader := mkReader { params : VirtMachineParams; log : list (list Z) }.

(** A function that returns 0 and a result, or -1 ([None]). *)
Abbreviation CM A := (SM Reader (option A)).
Definition ok {A} (a : A) : CM A := mret (Some a).
Definition fail {A} : CM A := mret None.

(** [if (m < 0) goto tag_fail;] *)
Definition ask {A B} (m : CM A) (k : A -> CM B) : CM B := o ← m; match o with Some a => k a | None => fail end.
Notation "x <-? m ; k" := (ask m (fun x => k)) (at level 100, m at level 50, k at level 200, right associativity).

Definition on_params (f : VirtMachineParams -> VirtMachineParams) : SM Reader unit := modify (fun r => mkReader (f (params r)) (log r)).
Definition vm_error (msg : list Z) : SM Reader unit := modify (fun r => mkReader (params r) (log r ++ [msg])).

Definition vm_get_int (obj : JSONValue) (name : list Z) : CM Z :=
  match json_object_get obj name with
  | JSON_UNDEFINED => _ ← vm_error (str "expecting '" ++ name ++ str "' property"); fail
  | JSON_INT v => ok v
  | _ => _ ← vm_error (name ++ str ": integer expected"); fail
  end.

(** Both results of the two reads are dropped: a property that is missing or no integer leaves the zero of [mallocz]. *)
Fixpoint read_addrset (tab : list JSONValue) : SM Reader (list Cosim.AddressSet) :=
  match tab with
  | [] => mret []
  | obj :: tab =>
      a ← vm_get_int obj (str "start");
      b ← vm_get_int obj (str "size");
      rest ← read_addrset tab;
      mret (Cosim.mkAddressSet (u64 (default 0 a)) (u64 (default 0 b)) :: rest)
  end.

Definition vm_get_mmio_addrset_opt (obj : JSONValue) : CM unit :=
  match json_object_get obj (str "mmio_addrset") with
  | JSON_UNDEFINED => ok tt
  | JSON_ARRAY tab =>
      l ← read_addrset tab;
      _ ← on_params (fun p => p <| p_mmio_addrset := l |>);
      ok tt
  | _ => _ ← vm_error (str "mmio_addrset: array expected"); fail
  end.

(** [obj.u.int64] whatever the type: null holds 0, the address of a string, array or object and the half that a
    Boolean leaves unset have no value here. *)
Definition union_int64 (v : JSONValue) : res Z :=
  match v with
  | JSON_INT v => Done (u64 v)
  | JSON_NULL | JSON_UNDEFINED => Done 0
  | _ => Stop UndefinedBehaviour
  end.

Fixpoint read_ints (tab : list JSONValue) : res (list Z) :=
  match tab with
  | [] => Done []
  | obj :: tab => v ← union_int64 obj; l ← read_ints tab; Done (v :: l)
  end.

Definition vm_get_missing_csrs_opt (obj : JSONValue) : CM unit :=
  match json_object_get obj (str "missing_csrs") with
  | JSON_UNDEFINED => ok tt
  | JSON_ARRAY tab =>
      l ← liftr (read_ints tab);
      _ ← on_params (fun p => p <| p_missing_csrs := l |>);
      ok tt
  | _ => _ ← vm_error (str "missing_csrs: array expected"); fail
  end.

Definition vm_get_skip_commit_opt (obj : JSONValue) : CM unit :=
  match json_object_get obj (str "skip_commit") with
  | JSON_UNDEFINED => ok tt
  | JSON_ARRAY tab =>
      l ← liftr (read_ints tab);
      _ ← on_params (fun p => p <| p_skip_commit := l |>);
      ok tt
  | _ => _ ← vm_error (str "skip_commit: array expected"); fail
  end.

(** [set] is the field behind [pval]; an unsuitable value is reported and otherwise ignored. *)
Definition vm_get_uint64_opt (obj : JSONValue) (name : list Z) (set : Z -> VirtMachineParams -> VirtMachineParams) : SM Reader unit :=
  match json_object_get obj name with
  | JSON_UNDEFINED => mret tt
  | JSON_INT v => on_params (set (u64 v))
  | _ => vm_error (name ++ str ": integer expected")
  end.

Definition vm_get_str2 (obj : JSONValue) (name : list Z) (is_opt : bool) : CM (option (list Z)) :=
  match json_object_get obj name with
  | JSON_UNDEFINED => if is_opt then ok None else _ ← vm_error (str "expecting '" ++ name ++ str "' property"); fail
  | JSON_STR s => ok (Some s)
  | _ => _ ← vm_error (name ++ str ": string expected"); fail
  end.
Definition vm_get_str (obj : JSONValue) (name : list Z) : CM (option (list Z)) := vm_get_str2 obj name false.
Definition vm_get_str_opt (obj : JSONValue) (name : list Z) : CM (option (list Z)) := vm_get_str2 obj name true.

(** [strdup] of the C library, undefined for NULL. *)
Definition strdup (s : option (list Z)) : res (list Z) := match s with Some s => Done s | None => Stop UndefinedBehaviour end.
Definition strdup_null (s : option (list Z)) : option (list Z) := s.

(** ** Strings *)

(** ["%d"] of a number that is not negative. *)
Fixpoint dec_digits (fuel : nat) (n : Z) (acc : list Z) : list Z :=
  match fuel with
  | O => acc
  | S fuel => let acc := 48 + n mod 10 :: acc in if n / 10 =? 0 then acc else dec_digits fuel (n / 10) acc
  end.
Definition dec (n : Z) : list Z := dec_digits 10 n [].
Definition dec2 (n : Z) : list Z := if n <? 10 then 48 :: dec n else dec n.

(** The name up to the closing brace, cut to its buffer, and the pointer there. *)
Fixpoint var_name (n : Z) (p : list Z) : list Z * list Z :=
  match p with
  | [] => ([], [])
  | c :: p' => if c =? 125 then ([], p) else let '(v, rest) := var_name (n + 1) p' in (if n <? 31 then c :: v else v, rest)
  end.

(** [tm_gmtoff] seconds east of Greenwich, printed in the notation of TZ. *)
Definition tz_string (tm_gmtoff : Z) : list Z :=
  let n := s32 (Z.quot tm_gmtoff 60) in
  let '(sg, n) := if n <? 0 then (43, - n) else (45, n) in
  str "UTC" ++ sg :: dec2 (n / 60) ++ 58 :: dec2 (n mod 60).

Fixpoint subst_loop (tm_gmtoff : Z) (fuel : nat) (p : list Z) (d : DynBuf) : DynBuf :=
  match fuel with
  | O => d
  | S fuel =>
      if cur p =? 0 then d
      else if (cur p =? 36) && (cur (drop 1 p) =? 123) then
        let '(v, p) := var_name 0 (drop 2 p) in
        let p := if cur p =? 125 then drop 1 p else p in
        subst_loop tm_gmtoff fuel p (if bool_decide (v = str "TZ") then dbuf_putstr d (tz_string tm_gmtoff) [] else d)
      else subst_loop tm_gmtoff fuel (drop 1 p) (dbuf_putc d (cur p) [])
  end.

(** [cmdline_subst]: every turn consumes a byte. *)
Definition cmdline_subst (tm_gmtoff : Z) (cmdline : list Z) : list Z :=
  cstr (dbuf (dbuf_putc (subst_loop tm_gmtoff (List.length cmdline) cmdline dbuf_init) 0 [])).

Fixpoint strrchr (p : list Z) (c : Z) : option nat :=
  match p with
  | [] => None
  | x :: p => match strrchr p c with Some i => Some (S i) | None => if x =? c then Some O else None end
  end.

Definition get_file_path (base_filename : option (list Z)) (filename : list Z) : list Z :=
  match base_filename with
  | None => filename
  | Some base =>
      if bool_decide (58 ∈ filename) then filename
      else if cur filename =? 47 then filename
      else match strrchr base 47 with
           | None => filename
           | Some p => take (S p) base ++ filename
           end
  end.

Definition vm_add_cmdline (p : VirtMachineParams) (cmdline : list Z) : VirtMachineParams :=
  p <| p_cmdline := Some (if cur cmdline =? 33 then drop 1 cmdline
                          else default [] (p_cmdline p) ++ [32] ++ cmdline) |>.

(** ** The configuration file *)

Section Parse.
Variable tm_gmtoff : Z.
Variable cfg : JSONValue.

Abbreviation put f v := (on_params (fun p => p <| f := v |>)).
Definition set_filename (i : nat) (s : list Z) (p : VirtMachineParams) : VirtMachineParams :=
  p <| p_files := alter (fun e => mkVMFileEntry (Some s) (buf e)) i (p_files p) |>.

(** [if (str) p->files[i].filename = strdup(str);] *)
Definition put_file (i : nat) (s : option (list Z)) : SM Reader unit :=
  match s with Some s => on_params (set_filename i s) | None => mret tt end.

Definition parse_header : CM unit :=
  version <-? vm_get_int cfg (str "version");
  if negb (version =? VM_CONFIG_VERSION) then
    if version >? VM_CONFIG_VERSION
    then _ ← vm_error (str "The emulator is too old to run this VM: please upgrade"); fail
    else _ ← vm_error (str "The VM configuration file is too old for this emulator version: please upgrade the VM configuration file"); fail
  else
    s <-? vm_get_str cfg (str "machine");
    s ← liftr (strdup s);
    if negb (bool_decide (virt_machine_get_name = s))
    then _ ← vm_error (str "Unsupported machine: '" ++ s ++ str "' (running machine is '" ++ virt_machine_get_name ++ str "')"); fail
    else ok tt.

Definition parse_memory_files : CM unit :=
  _ ← vm_get_uint64_opt cfg (str "memory_base_addr") (fun v p => p <| p_ram_base_addr := v |>);
  val <-? vm_get_int cfg (str "memory_size");
  _ ← put p_ram_size (u64 (u64 val <<' 20));
  s <-? vm_get_str_opt cfg (str "bios");
  _ ← put_file VM_FILE_BIOS s;
  s <-? vm_get_str_opt cfg (str "kernel");
  _ ← put_file VM_FILE_KERNEL s;
  s <-? vm_get_str_opt cfg (str "initrd");
  _ ← put_file VM_FILE_INITRD s;
  s <-? vm_get_str_opt cfg (str "cmdline");
  _ ← match s with Some s => put p_cmdline (Some (cmdline_subst tm_gmtoff s)) | None => mret tt end;
  _ <-? vm_get_missing_csrs_opt cfg;
  _ <-? vm_get_skip_commit_opt cfg;
  _ ← vm_get_uint64_opt cfg (str "htif_base_addr") (fun v p => p <| p_htif_base_addr := v |>);
  _ ← vm_get_uint64_opt cfg (str "maxinsns") (fun v p => p <| p_maxinsns := v |>);
  _ ← put p_snapshot_load_name None;
  s ← vm_get_str_opt cfg (str "load");
  _ ← match s with Some (Some s) => put p_snapshot_load_name (Some s) | _ => mret tt end;
  ok tt.

Abbreviation count l := (Z.of_nat (List.length l)).

(** The loops over [drive0], [drive1], ...: the count of the table is the next number. *)
Fixpoint parse_drives (fuel : nat) : CM unit :=
  match fuel with
  | O => stop OutOfFuel
  | S fuel =>
      p ← gets params;
      let obj := json_object_get cfg (str "drive" ++ dec (count (p_tab_drive p))) in
      if json_is_undefined obj then ok tt
      else if count (p_tab_drive p) >=? MAX_DRIVE_DEVICE then _ ← vm_error (str "Too many drives"); fail
      else
        file <-? vm_get_str obj (str "file");
        file ← liftr (strdup file);
        device <-? vm_get_str_opt obj (str "device");
        _ ← put p_tab_drive (p_tab_drive p ++ [mkVMDriveEntry (strdup_null device) file]);
        parse_drives fuel
  end.

Fixpoint parse_fss (fuel : nat) : CM unit :=
  match fuel with
  | O => stop OutOfFuel
  | S fuel =>
      p ← gets params;
      let n := count (p_tab_fs p) in
      let obj := json_object_get cfg (str "fs" ++ dec n) in
      if json_is_undefined obj then ok tt
      else if n >=? MAX_DRIVE_DEVICE then _ ← vm_error (str "Too many filesystems"); fail
      else
        file <-? vm_get_str obj (str "file");
        file ← liftr (strdup file);
        tag <-? vm_get_str_opt obj (str "tag");
        let tag := default (if n =? 0 then str "/dev/root" else str "/dev/root" ++ dec n) tag in
        _ ← put p_tab_fs (p_tab_fs p ++ [mkVMFSEntry tag file]);
        parse_fss fuel
  end.

Fixpoint parse_eths (fuel : nat) : CM unit :=
  match fuel with
  | O => stop OutOfFuel
  | S fuel =>
      p ← gets params;
      let n := count (p_tab_eth p) in
      let obj := json_object_get cfg (str "eth" ++ dec n) in
      if json_is_undefined obj then ok tt
      else if n >=? MAX_ETH_DEVICE then _ ← vm_error (str "Too many ethernet interfaces"); fail
      else
        driver <-? vm_get_str obj (str "driver");
        driver ← liftr (strdup driver);
        ifname <-? (if bool_decide (driver = str "tap")
                    then s <-? vm_get_str obj (str "ifname"); s ← liftr (strdup s); ok (Some s)
                    else ok None);
        _ ← put p_tab_eth (p_tab_eth p ++ [mkVMEthEntry driver ifname]);
        parse_eths fuel
  end.

Definition parse_display : CM unit :=
  _ ← put p_display_device None;
  let obj := json_object_get cfg (str "display0") in
  if json_is_undefined obj then ok tt
  else
    device <-? vm_get_str obj (str "device");
    device ← liftr (strdup device);
    _ ← put p_display_device (Some device);
    w <-? vm_get_int obj (str "width");
    _ ← put p_width w;
    h <-? vm_get_int obj (str "height");
    _ ← put p_height h;
    s <-? vm_get_str_opt obj (str "vga_bios");
    _ ← put_file VM_FILE_VGA_BIOS s;
    ok tt.

Definition parse_rest : CM unit :=
  s <-? vm_get_str_opt cfg (str "input_device");
  _ ← put p_input_device (strdup_null s);
  s <-? vm_get_str_opt cfg (str "accel");
  _ <-? match s with
        | None => ok tt
        | Some s =>
            if bool_decide (s = str "none") then _ ← put p_accel_enable false; ok tt
            else if bool_decide (s = str "auto") then _ ← put p_accel_enable true; ok tt
            else _ ← vm_error (str "unsupported 'accel' config: " ++ s); fail
        end;
  _ <-? match json_object_get cfg (str "rtc_local_time") with
        | JSON_UNDEFINED => ok tt
        | JSON_BOOL b => _ ← put p_rtc_local_time b; ok tt
        | _ => _ ← vm_error (str "rtc_local_time: boolean expected"); fail
        end;
  _ ← vm_get_uint64_opt cfg (str "ncpus") (fun v p => p <| p_ncpus := v |>);
  _ ← vm_get_uint64_opt cfg (str "mmio_start") (fun v p => p <| p_mmio_start := v |>);
  _ ← vm_get_uint64_opt cfg (str "mmio_end") (fun v p => p <| p_mmio_end := v |>);
  _ <-? vm_get_mmio_addrset_opt cfg;
  _ ← vm_get_uint64_opt cfg (str "physical_addr_len") (fun v p => p <| p_physical_addr_len := v |>);
  s <-? vm_get_str_opt cfg (str "logfile");
  _ ← match s with Some s => put p_logfile (Some s) | None => mret tt end;
  ok tt.

(** Everything after the parse of the text.  Each loop over the devices runs at most one turn more than its table has entries. *)
Definition parse_cfg : CM unit :=
  _ <-? parse_header;
  _ <-? parse_memory_files;
  _ <-? parse_drives 5;
  _ <-? parse_fss 5;
  _ <-? parse_eths 2;
  _ <-? parse_display;
  parse_rest.

End Parse.

Definition virt_machine_parse_config (tm_gmtoff : Z) (config_file_str : list Z) : CM unit :=
  _ ← on_params (fun p => p <| p_maxinsns := 0 |> <| p_dump_memories := false |>);
  cfg ← liftr (json_parse_value_len config_file_str);
  match cfg with
  | JSON_EXCEPTION msg => _ ← vm_error (str "error: " ++ msg); fail
  | _ => parse_cfg tm_gmtoff cfg
  end.

(** ** Loading the files it names *)

Section Files.
Variable fs : list Z -> option (list Z).
Variable tm_gmtoff : Z.

(** [load_file]: exits when the file cannot be opened or read. *)
Definition load_file (filename : list Z) : res (list Z) :=
  match fs filename with Some b => Done b | None => Stop (Exited 1) end.

(** [config_additional_file_load] and its callback, from [file_index] on. *)
Fixpoint config_additional_file_load (n file_index : nat) (p : VirtMachineParams) : res VirtMachineParams :=
  match n with
  | O => Done p
  | S n =>
      match p_files p !! file_index with
      | Some (mkVMFileEntry (Some f) _) =>
          b ← load_file (get_file_path (p_cfg_filename p) f);
          config_additional_file_load n (S file_index) (p <| p_files := <[file_index := mkVMFileEntry (Some f) (Some b)]> (p_files p) |>)
      | _ => config_additional_file_load n (S file_index) p
      end
  end.

Definition virt_machine_load_config_file (p : VirtMachineParams) (filename : list Z) : res (VirtMachineParams * list (list Z)) :=
  text ← load_file filename;
  '(r, s) ← virt_machine_parse_config tm_gmtoff text (mkReader (p <| p_cfg_filename := Some filename |>) []);
  match r with
  | None => Stop (Exited 1)
  | Some _ => p ← config_additional_file_load VM_FILE_COUNT 0 (params s); Done (p, log s)
  end.

(** An ELF file in place of a configuration: [None] when it is not one. *)
Definition load_elf_and_fake_the_config (p : VirtMachineParams) (path : list Z) : res (option VirtMachineParams) :=
  b ← load_file path;
  is_elf ← elf64_is_riscv64 b;
  if (is_elf : bool) then
    entry ← elf64_get_entrypoint b;
    tohost ← elf64_find_global b (str "tohost");
    Done (Some (p <| p_files := <[VM_FILE_BIOS := mkVMFileEntry (Some path) (Some b)]> (p_files p) |>
                  <| p_ram_size := 256 <<' 20 |> <| p_ram_base_addr := entry |>
                  <| p_htif_base_addr := default (p_htif_base_addr p) tohost |>))
  else Done None.

End Files.

(** ** The command line *)

(** The locals that the options set. *)
Record Options := mkOptions {
  o_cmdline : option (list Z);
  o_ncpus : Z;
  o_load : option (list Z);
  o_save : option (list Z);
  o_save_format : Z;
  o_maxinsns : Z;
  o_trace : Z;
  o_ignore_sbi_shutdown : bool;
  o_dump_memories : bool;
  o_memory_size : Z;
  o_memory_addr : Z;
  o_bootrom : option (list Z);
  o_dtb : option (list Z);
  o_compact_bootrom : bool;
  o_reset_vector : Z;
  o_mmio_start : Z;
  o_mmio_end : Z;
  o_plic_base_addr : Z;
  o_plic_size : Z;
  o_clint_base_addr : Z;
  o_clint_size : Z;
  o_custom_extension : bool }.

Definition eta_options (o : Options) : Options :=
  mkOptions (o_cmdline o) (o_ncpus o) (o_load o) (o_save o) (o_save_format o) (o_maxinsns o) (o_trace o) (o_ignore_sbi_shutdown o) (o_dump_memories o) (o_memory_size o) (o_memory_addr o)
    (o_bootrom o) (o_dtb o) (o_compact_bootrom o) (o_reset_vector o) (o_mmio_start o) (o_mmio_end o) (o_plic_base_addr o) (o_plic_size o) (o_clint_base_addr o) (o_clint_size o) (o_custom_extension o).
Ltac upd_option f :=
  exact (fun v s => ltac:(let b := eval cbv beta delta [eta_options] in (eta_options s) in
    match b with context C [f s] => let b' := context C [v] in exact b' end)).
#[export] Instance upd_o_cmdline : Upd o_cmdline := ltac:(upd_option o_cmdline).
#[export] Instance upd_o_ncpus : Upd o_ncpus := ltac:(upd_option o_ncpus).
#[export] Instance upd_o_load : Upd o_load := ltac:(upd_option o_load).
#[export] Instance upd_o_save : Upd o_save := ltac:(upd_option o_save).
#[export] Instance upd_o_save_format : Upd o_save_format := ltac:(upd_option o_save_format).
#[export] Instance upd_o_maxinsns : Upd o_maxinsns := ltac:(upd_option o_maxinsns).
#[export] Instance upd_o_trace : Upd o_trace := ltac:(upd_option o_trace).
#[export] Instance upd_o_ignore_sbi_shutdown : Upd o_ignore_sbi_shutdown := ltac:(upd_option o_ignore_sbi_shutdown).
#[export] Instance upd_o_dump_memories : Upd o_dump_memories := ltac:(upd_option o_dump_memories).
#[export] Instance upd_o_memory_size : Upd o_memory_size := ltac:(upd_option o_memory_size).
#[export] Instance upd_o_memory_addr : Upd o_memory_addr := ltac:(upd_option o_memory_addr).
#[export] Instance upd_o_bootrom : Upd o_bootrom := ltac:(upd_option o_bootrom).
#[export] Instance upd_o_dtb : Upd o_dtb := ltac:(upd_option o_dtb).
#[export] Instance upd_o_compact_bootrom : Upd o_compact_bootrom := ltac:(upd_option o_compact_bootrom).
#[export] Instance upd_o_reset_vector : Upd o_reset_vector := ltac:(upd_option o_reset_vector).
#[export] Instance upd_o_mmio_start : Upd o_mmio_start := ltac:(upd_option o_mmio_start).
#[export] Instance upd_o_mmio_end : Upd o_mmio_end := ltac:(upd_option o_mmio_end).
#[export] Instance upd_o_plic_base_addr : Upd o_plic_base_addr := ltac:(upd_option o_plic_base_addr).
#[export] Instance upd_o_plic_size : Upd o_plic_size := ltac:(upd_option o_plic_size).
#[export] Instance upd_o_clint_base_addr : Upd o_clint_base_addr := ltac:(upd_option o_clint_base_addr).
#[export] Instance upd_o_clint_size : Upd o_clint_size := ltac:(upd_option o_clint_size).
#[export] Instance upd_o_custom_extension : Upd o_custom_extension := ltac:(upd_option o_custom_extension).

Definition UINT64_MAX : Z := 2 ^ 64 - 1.
Definition no_options : Options :=
  mkOptions None 0 None None 0 0 UINT64_MAX false false 0 0 None None false 0 0 0 0 0 0 0 false.

(** [usage] prints and exits. *)
Definition usage {A} : res A := Stop (Exited 1).

Definition atoll (s : list Z) : Z := fst (strtoll s 10).
Definition atoi (s : list Z) : Z := s32 (atoll s).

(** A number that must begin with [0x]; the rest is read in base 16. *)
Definition hex_arg (s : list Z) : res Z :=
  if negb (cur s =? 48) || negb (cur (drop 1 s) =? 120) then usage else Done (u64 (fst (strtoll (drop 2 s) 16))).

Fixpoint skip_colons (s : list Z) : list Z := match s with c :: s' => if c =? 58 then skip_colons s' else s | [] => [] end.
Fixpoint token (s : list Z) : list Z * list Z :=
  match s with c :: s' => if c =? 58 then ([], s') else let '(t, r) := token s' in (c :: t, r) | [] => ([], []) end.

(** [strtok(s, ":")]: the next token and the rest, [None] for NULL. *)
Definition strtok (s : list Z) : option (list Z * list Z) :=
  match skip_colons s with [] => None | s => Some (token s) end.

(** [START:END]: both tokens are dereferenced without a test. *)
Definition range_arg (optarg : list Z) : res (Z * Z) :=
  if negb (bool_decide (58 ∈ optarg)) then usage
  else match strtok optarg with
       | None => Stop UndefinedBehaviour
       | Some (a, rest) =>
           let second := strtok rest in
           x ← hex_arg a;
           match second with
           | None => Stop UndefinedBehaviour
           | Some (b, _) => y ← hex_arg b; Done (x, y)
           end
       end.

(** The [switch] on the character [c] that [getopt_long] returned with [optarg]. *)
Definition option_case (c : Z) (optarg : list Z) (o : Options) : res Options :=
  let once {A} (old : option A) (k : res Options) := match old with Some _ => usage | None => k end in
  if c =? 99 (* c *) then once (o_cmdline o) (Done (o <| o_cmdline := Some optarg |>))
  else if c =? 110 (* n *) then if negb (o_ncpus o =? 0) then usage else Done (o <| o_ncpus := atoll optarg |>)
  else if c =? 108 (* l *) then once (o_load o) (Done (o <| o_load := Some optarg |>))
  else if c =? 115 (* s *) then once (o_save o) (Done (o <| o_save := Some optarg |>))
  else if c =? 102 (* f *) then if negb (o_save_format o =? 0) then usage else Done (o <| o_save_format := u32 (atoll optarg) |>)
  else if c =? 109 (* m *) then if negb (o_maxinsns o =? 0) then usage else Done (o <| o_maxinsns := u64 (atoll optarg) |>)
  else if c =? 116 (* t *) then if negb (o_trace o =? UINT64_MAX) then usage else Done (o <| o_trace := u64 (atoll optarg) |>)
  else if c =? 80 (* P *) then Done (o <| o_ignore_sbi_shutdown := true |>)
  else if c =? 68 (* D *) then Done (o <| o_dump_memories := true |>)
  else if c =? 77 (* M *) then Done (o <| o_memory_size := atoi optarg |>)
  else if c =? 65 (* A *) then v ← hex_arg optarg; Done (o <| o_memory_addr := v |>)
  else if c =? 98 (* b *) then once (o_bootrom o) (Done (o <| o_bootrom := Some optarg |>))
  else if c =? 100 (* d *) then once (o_dtb o) (Done (o <| o_dtb := Some optarg |>))
  else if c =? 111 (* o *) then Done (o <| o_compact_bootrom := true |>)
  else if c =? 114 (* r *) then v ← hex_arg optarg; Done (o <| o_reset_vector := v |>)
  else if c =? 82 (* R *) then '(a, b) ← range_arg optarg; Done (o <| o_mmio_start := a |> <| o_mmio_end := b |>)
  else if c =? 112 (* p *) then '(a, b) ← range_arg optarg; Done (o <| o_plic_base_addr := a |> <| o_plic_size := b |>)
  else if c =? 67 (* C *) then '(a, b) ← range_arg optarg; Done (o <| o_clint_base_addr := a |> <| o_clint_size := b |>)
  else if c =? 117 (* u *) then Done (o <| o_custom_extension := true |>)
  else usage.

Fixpoint option_loop (opts : list (Z * list Z)) (o : Options) : res Options :=
  match opts with
  | [] => Done o
  | (c, optarg) :: opts => o ← option_case c optarg o; option_loop opts o
  end.

(** The arguments that are not options: exactly one path. *)
Definition the_path (args : list (list Z)) : res (list Z) :=
  match args with [path] => Done path | _ => usage end.

(** An override that is not zero. *)
Definition or_else (v old : Z) : Z := if negb (v =? 0) then v else old.

(** The overrides that come before the devices are opened. *)
Definition override_memory (o : Options) (p : VirtMachineParams) : res VirtMachineParams :=
  let p := p <| p_ram_base_addr := or_else (o_memory_addr o) (p_ram_base_addr p) |> in
  let p := if negb (o_memory_size o =? 0) then p <| p_ram_size := u64 (o_memory_size o <<' 20) |> else p in
  let p := if negb (o_ncpus o =? 0) then p <| p_ncpus := u64 (o_ncpus o) |> else p in
  if p_ncpus p >=? MAX_CPUS then usage
  else
    let p := if p_ncpus p =? 0 then p <| p_ncpus := 1 |> else p in
    Done (match o_cmdline o with Some c => vm_add_cmdline p c | None => p end).

Definition override_devices (o : Options) (p : VirtMachineParams) : VirtMachineParams :=
  let p := p <| p_dump_memories := o_dump_memories o |> in
  let p := match o_bootrom o with Some b => p <| p_bootrom_name := Some b |> | None => p end in
  let p := match o_dtb o with Some b => p <| p_dtb_name := Some b |> | None => p end in
  p <| p_compact_bootrom := o_compact_bootrom o |>
    <| p_reset_vector := or_else (o_reset_vector o) (p_reset_vector p) |>
    <| p_mmio_start := or_else (o_mmio_start o) (p_mmio_start p) |>
    <| p_mmio_end := or_else (o_mmio_end o) (p_mmio_end p) |>
    <| p_plic_base_addr := or_else (o_plic_base_addr o) (p_plic_base_addr p) |>
    <| p_plic_size := or_else (o_plic_size o) (p_plic_size p) |>
    <| p_clint_base_addr := or_else (o_clint_base_addr o) (p_clint_base_addr p) |>
    <| p_clint_size := or_else (o_clint_size o) (p_clint_size p) |>
    <| p_custom_extension := o_custom_extension o |>.

(** [virt_machine_main] up to the construction of the machine, less the opening of disks, directories and network
    interfaces: the options as [getopt_long] returns them, and the remaining arguments. *)
Definition read_params (fs : list Z -> option (list Z)) (tm_gmtoff : Z) (opts : list (Z * list Z)) (args : list (list Z))
    : res (Options * VirtMachineParams * list (list Z)) :=
  o ← option_loop opts no_options;
  path ← the_path args;
  e ← load_elf_and_fake_the_config fs virt_machine_set_defaults path;
  '(p, msgs) ← match e with
               | Some p => Done (p, [])
               | None => virt_machine_load_config_file fs tm_gmtoff virt_machine_set_defaults path
               end;
  p ← override_memory o p;
  Done (o, override_devices o p, msgs).
