(* ===== verification/ConfigSpec.v ===== *)
(** * What reading a configuration gives

    Reading a configuration returns for every text, reports every failure, and an
    accepted one fills the device tables with exactly the devices of the file. *)

From S2P Require Import Prelude Riscv Cutils Json JsonSpec Elf Config.
From Stdlib Require Import ZArith Lia Bool String.
From stdpp Require Import base list.
Local Open Scope Z_scope.
Local Open Scope list_scope.

(** ** Triples

    [reads P m Q]: from parameters in [P], [m] returns; it has succeeded with [Q], or it has reported an error. *)

Definition reads {A} (P : VirtMachineParams -> Prop) (m : CM A) (Q : A -> VirtMachineParams -> Prop) : Prop :=
  forall s, P (params s) -> exists o s' new, m s = Done (o, s') /\ log s' = log s ++ new /\
    match o with Some a => Q a (params s') | None => new <> [] end.

(** The same for a step that cannot fail. *)
Definition does {A} (P : VirtMachineParams -> Prop) (m : SM Reader A) (Q : A -> VirtMachineParams -> Prop) : Prop :=
  forall s, P (params s) -> exists a s' new, m s = Done (a, s') /\ log s' = log s ++ new /\ Q a (params s').

Lemma reads_bind {A B} P Q R (m : SM Reader A) (k : A -> CM B) : does P m Q -> (forall a, reads (Q a) (k a) R) -> reads P (m ≫= k) R.
Proof.
  intros Hm Hk s Hs. destruct (Hm s Hs) as (a & s1 & n1 & E1 & L1 & H1). destruct (Hk a s1 H1) as (o & s2 & n2 & E2 & L2 & H2).
  exists o, s2, (n1 ++ n2). rewrite run_bind, E1. split; [exact E2|]. split; [rewrite L2, L1, app_assoc; reflexivity|].
  destruct o; [exact H2|]. intros E. apply app_nil in E as [_ E]. contradiction.
Qed.

Lemma reads_ask {A B} P Q R (m : CM A) (k : A -> CM B) : reads P m Q -> (forall a, reads (Q a) (k a) R) -> reads P (ask m k) R.
Proof.
  intros Hm Hk s Hs. destruct (Hm s Hs) as (o & s1 & n1 & E1 & L1 & H1). unfold ask. rewrite run_bind, E1. destruct o as [a|].
  - destruct (Hk a s1 H1) as (o & s2 & n2 & E2 & L2 & H2). exists o, s2, (n1 ++ n2). split; [exact E2|]. split; [rewrite L2, L1, app_assoc; reflexivity|].
    destruct o; [exact H2|]. intros E. apply app_nil in E as [_ E]. contradiction.
  - exists None, s1, n1. auto.
Qed.

Lemma does_bind {A B} P Q R (m : SM Reader A) (k : A -> SM Reader B) : does P m Q -> (forall a, does (Q a) (k a) R) -> does P (m ≫= k) R.
Proof.
  intros Hm Hk s Hs. destruct (Hm s Hs) as (a & s1 & n1 & E1 & L1 & H1). destruct (Hk a s1 H1) as (b & s2 & n2 & E2 & L2 & H2).
  exists b, s2, (n1 ++ n2). rewrite run_bind, E1. split; [exact E2|]. split; [rewrite L2, L1, app_assoc; reflexivity|exact H2].
Qed.

Lemma reads_ok {A} (P : VirtMachineParams -> Prop) (a : A) (Q : A -> VirtMachineParams -> Prop) : (forall p, P p -> Q a p) -> reads P (ok a) Q.
Proof. intros H s Hs. exists (Some a), s, []. split; [reflexivity|]. split; [rewrite app_nil_r; reflexivity|auto]. Qed.

Lemma does_ret {A} (P : VirtMachineParams -> Prop) (a : A) (Q : A -> VirtMachineParams -> Prop) : (forall p, P p -> Q a p) -> does P (mret a) Q.
Proof. intros H s Hs. exists a, s, []. split; [reflexivity|]. split; [rewrite app_nil_r; reflexivity|auto]. Qed.

Lemma reads_error {A} P msg Q : reads P (vm_error msg ≫= fun _ => @fail A) Q.
Proof. intros s Hs. exists None. eexists _, [msg]. split; [reflexivity|]. split; [reflexivity|discriminate]. Qed.

Lemma does_error P msg : does P (vm_error msg) (fun _ => P).
Proof. intros s Hs. eexists tt, _, [msg]. split; [reflexivity|]. split; [reflexivity|exact Hs]. Qed.

Lemma does_put (P : VirtMachineParams -> Prop) f (Q : VirtMachineParams -> Prop) : (forall p, P p -> Q (f p)) -> does P (on_params f) (fun _ => Q).
Proof. intros H s Hs. eexists tt, _, []. split; [reflexivity|]. split; [rewrite app_nil_r; reflexivity|apply H, Hs]. Qed.

Lemma does_gets P : does P (gets params) (fun p q => p = q /\ P q).
Proof. intros s Hs. exists (params s), s, []. split; [reflexivity|]. split; [rewrite app_nil_r; reflexivity|auto]. Qed.

Lemma does_liftr {A} P (r : res A) : (exists a, r = Done a) -> does P (liftr r) (fun a p => r = Done a /\ P p).
Proof. intros (a & ->) s Hs. exists a, s, []. split; [reflexivity|]. split; [rewrite app_nil_r; reflexivity|auto]. Qed.

Lemma reads_weaken {A} P (m : CM A) (Q Q' : A -> VirtMachineParams -> Prop) : reads P m Q -> (forall a p, Q a p -> Q' a p) -> reads P m Q'.
Proof. intros H HQ s Hs. destruct (H s Hs) as (o & s' & n & E & L & H1). exists o, s', n. split; [exact E|]. split; [exact L|]. destruct o; [apply HQ, H1|exact H1]. Qed.

Lemma reads_pure {A} P (F : Prop) (m : CM A) Q : (F -> reads P m Q) -> reads (fun p => F /\ P p) m Q.
Proof. intros H s (HF & Hs). exact (H HF s Hs). Qed.

Lemma reads_exists {A X} (P : X -> VirtMachineParams -> Prop) (m : CM A) Q : (forall x, reads (P x) m Q) -> reads (fun p => exists x, P x p) m Q.
Proof. intros H s (x & Hs). exact (H x s Hs). Qed.

(** ** Properties *)

Lemma get_int_reads P obj name : reads P (vm_get_int obj name) (fun v p => json_object_get obj name = JSON_INT v /\ P p).
Proof.
  unfold vm_get_int. destruct (json_object_get obj name); try apply reads_error. apply reads_ok. auto.
Qed.

Lemma get_uint64_does P obj name set : (forall v p, P p -> P (set v p)) -> does P (vm_get_uint64_opt obj name set) (fun _ => P).
Proof.
  intros H. unfold vm_get_uint64_opt. destruct (json_object_get obj name); try apply does_error; [apply does_put; auto|apply does_ret; auto].
Qed.

(** What a string property is read as. *)
Definition str_prop (obj : JSONValue) (name : list Z) (s : option (list Z)) : Prop :=
  match json_object_get obj name with JSON_UNDEFINED => s = None | JSON_STR x => s = Some x | _ => False end.

Lemma get_str_opt_reads P obj name : reads P (vm_get_str_opt obj name) (fun s p => str_prop obj name s /\ P p).
Proof.
  unfold vm_get_str_opt, vm_get_str2, str_prop. destruct (json_object_get obj name); try apply reads_error; apply reads_ok; auto.
Qed.

Lemma get_str_reads P obj name : reads P (vm_get_str obj name) (fun s p => (exists x, s = Some x /\ json_object_get obj name = JSON_STR x) /\ P p).
Proof.
  unfold vm_get_str, vm_get_str2. destruct (json_object_get obj name); try apply reads_error. apply reads_ok. eauto.
Qed.

Lemma get_str_dup {A} P obj name (k : list Z -> CM A) R : (forall x, json_object_get obj name = JSON_STR x -> reads P (k x) R) ->
  reads P (ask (vm_get_str obj name) (fun s => liftr (strdup s) ≫= k)) R.
Proof.
  intros H. eapply reads_ask; [apply get_str_reads|]. intros s. apply reads_pure. intros (x & -> & E).
  eapply reads_bind; [apply does_liftr; eauto|]. intros a. apply reads_pure. intros [= <-]. apply H, E.
Qed.

Definition int_like (v : JSONValue) : Prop := match v with JSON_INT _ | JSON_NULL | JSON_UNDEFINED => True | _ => False end.

Lemma read_ints_done tab : Forall int_like tab -> exists l, read_ints tab = Done l.
Proof.
  induction 1 as [|v tab Hv _ (l & E)]; [exists []; reflexivity|]. cbn [read_ints]. rewrite E.
  destruct v; try contradiction; eexists; reflexivity.
Qed.

(** The elements of an array property are integers. *)
Definition ints_prop (cfg : JSONValue) (name : list Z) : Prop :=
  match json_object_get cfg name with JSON_ARRAY tab => Forall int_like tab | _ => True end.

Lemma read_addrset_does P tab : does P (read_addrset tab) (fun _ => P).
Proof.
  assert (forall obj name, does P (vm_get_int obj name) (fun _ => P)) as Hg.
  { intros obj name. unfold vm_get_int. destruct (json_object_get obj name);
      try (apply does_ret; auto); (eapply does_bind; [apply does_error|]; intros []; apply does_ret; auto). }
  induction tab as [|obj tab IH]; cbn [read_addrset]; [apply does_ret; auto|].
  eapply does_bind; [apply Hg|]. intros a. cbv beta. eapply does_bind; [apply Hg|]. intros b. cbv beta.
  eapply does_bind; [apply IH|]. intros l. apply does_ret. auto.
Qed.

(** ** The device tables *)

Section Tables.
Variable cfg : JSONValue.

Definition numbered (prefix : string) (i : nat) : JSONValue := json_object_get cfg (str prefix ++ dec (Z.of_nat i)).

(** Entry [i] of the table comes from object [i] of the file. *)
Definition from_file {E} (prefix : string) (entry : nat -> JSONValue -> E -> Prop) (tab : list E) : Prop :=
  forall i e, tab !! i = Some e -> entry i (numbered prefix i) e.

(** And the table ends where the file's numbering does. *)
Definition listed {E} (prefix : string) (entry : nat -> JSONValue -> E -> Prop) (tab : list E) : Prop :=
  from_file prefix entry tab /\ numbered prefix (List.length tab) = JSON_UNDEFINED.

Lemma from_file_snoc {E} prefix entry (tab : list E) e : from_file prefix entry tab -> entry (List.length tab) (numbered prefix (List.length tab)) e ->
  from_file prefix entry (tab ++ [e]).
Proof.
  intros H He i x Hx. apply lookup_app_Some in Hx as [Hx|[Hi Hx]]; [exact (H i x Hx)|]. apply list_lookup_singleton_Some in Hx as [Hi0 <-].
  replace i with (List.length tab) by lia. exact He.
Qed.

Definition drive_entry (i : nat) (obj : JSONValue) (e : VMDriveEntry) : Prop :=
  json_object_get obj (str "file") = JSON_STR (d_filename e) /\ str_prop obj (str "device") (d_device e).

Definition fs_entry (i : nat) (obj : JSONValue) (e : VMFSEntry) : Prop :=
  json_object_get obj (str "file") = JSON_STR (f_filename e) /\
  exists tag, str_prop obj (str "tag") tag /\ f_tag e = default (str "/dev/root" ++ if Nat.eqb i 0 then [] else dec (Z.of_nat i)) tag.

Definition eth_entry (i : nat) (obj : JSONValue) (e : VMEthEntry) : Prop :=
  json_object_get obj (str "driver") = JSON_STR (e_driver e) /\
  (e_driver e = str "tap" -> exists s, e_ifname e = Some s /\ json_object_get obj (str "ifname") = JSON_STR s).

(** The part of the parameters that the tables and the memory are. *)
Definition core (p : VirtMachineParams) := (p_ram_base_addr p, p_ram_size p, p_tab_drive p, p_tab_fs p, p_tab_eth p).

Lemma undefined_eq v : json_is_undefined v = true -> v = JSON_UNDEFINED.
Proof. destruct v; try discriminate. reflexivity. Qed.

Lemma core_tabs p a b d f t : core p = (a, b, d, f, t) -> p_tab_drive p = d /\ p_tab_fs p = f /\ p_tab_eth p = t.
Proof. intros [= _ _ <- <- <-]. auto. Qed.

(** A goal on the core of updated parameters. *)
Ltac core_eq := let q := fresh in let Hq := fresh in intros q Hq; unfold core in *; injection Hq; intros; subst; reflexivity.

Lemma reads_gets {A} (P : VirtMachineParams -> Prop) (k : VirtMachineParams -> CM A) Q : (forall p, P p -> reads P (k p) Q) -> reads P (gets params ≫= k) Q.
Proof. intros H s Hs. exact (H (params s) Hs s Hs). Qed.

(** One turn of a loop over a table: it ends with the numbering, fails when the table is full, or goes on. *)
Lemma turn_reads {E A} prefix entry limit (tab : list E) (obj : JSONValue) P msg (next : CM A) (a : A) Q : obj = numbered prefix (List.length tab) -> from_file prefix entry tab ->
  (forall p, P p -> listed prefix entry tab -> Q a p) -> (Z.of_nat (List.length tab) < limit -> reads P next Q) ->
  reads P (if json_is_undefined obj then ok a else if Z.of_nat (List.length tab) >=? limit then vm_error msg ≫= fun _ => fail else next) Q.
Proof.
  intros -> Ht Hend Hnext. destruct (json_is_undefined _) eqn:Eu; [apply reads_ok; intros p Hp; apply Hend; [exact Hp|split; [exact Ht|apply undefined_eq, Eu]]|].
  rewrite Z.geb_leb. destruct (Z.leb_spec limit (Z.of_nat (List.length tab))); [apply reads_error|apply Hnext; lia].
Qed.

Lemma drives_read fuel : forall a b f t tab, (List.length tab + fuel = 5)%nat -> (List.length tab <= 4)%nat -> from_file "drive" drive_entry tab ->
  reads (fun p => core p = (a, b, tab, f, t)) (parse_drives cfg fuel)
    (fun _ p => exists tab', (listed "drive" drive_entry tab' /\ (List.length tab' <= 4)%nat) /\ core p = (a, b, tab', f, t)).
Proof.
  induction fuel as [|fuel IH]; intros a b f t tab Hl H4 Ht; [lia|]. cbn [parse_drives].
  apply reads_gets. intros p Hp. apply core_tabs in Hp as (-> & _ & _). apply (turn_reads "drive" drive_entry); [reflexivity|exact Ht|eauto|]. unfold MAX_DRIVE_DEVICE. intros Hlim.
  apply get_str_dup. intros x Ex. eapply reads_ask; [apply get_str_opt_reads|]. intros dev. apply reads_pure. intros Hdev.
  eapply reads_bind; [apply (does_put _ _ (fun p => core p = (a, b, tab ++ [mkVMDriveEntry (strdup_null dev) x], f, t))); core_eq|]. intros [].
  apply IH; [rewrite length_app; cbn [List.length]; lia|rewrite length_app; cbn [List.length]; lia|]. apply from_file_snoc; [exact Ht|split; assumption].
Qed.

Lemma fss_read fuel : forall a b d t tab, (List.length tab + fuel = 5)%nat -> (List.length tab <= 4)%nat -> from_file "fs" fs_entry tab ->
  reads (fun p => core p = (a, b, d, tab, t)) (parse_fss cfg fuel)
    (fun _ p => exists tab', (listed "fs" fs_entry tab' /\ (List.length tab' <= 4)%nat) /\ core p = (a, b, d, tab', t)).
Proof.
  induction fuel as [|fuel IH]; intros a b d t tab Hl H4 Ht; [lia|]. cbn [parse_fss]. cbv zeta.
  apply reads_gets. intros p Hp. apply core_tabs in Hp as (_ & -> & _). apply (turn_reads "fs" fs_entry); [reflexivity|exact Ht|eauto|]. unfold MAX_DRIVE_DEVICE. intros Hlim.
  apply get_str_dup. intros x Ex. eapply reads_ask; [apply get_str_opt_reads|]. intros tag. apply reads_pure. intros Htag.
  set (e := mkVMFSEntry _ x). eapply reads_bind; [apply (does_put _ _ (fun p => core p = (a, b, d, tab ++ [e], t))); core_eq|]. intros [].
  apply IH; [rewrite length_app; cbn [List.length]; lia|rewrite length_app; cbn [List.length]; lia|]. apply from_file_snoc; [exact Ht|split; [exact Ex|]]. exists tag. split; [exact Htag|].
  cbn [f_tag e]. destruct tab; [reflexivity|]. destruct tag; reflexivity.
Qed.

Lemma eths_read fuel : forall a b d f tab, (List.length tab + fuel = 2)%nat -> (List.length tab <= 1)%nat -> from_file "eth" eth_entry tab ->
  reads (fun p => core p = (a, b, d, f, tab)) (parse_eths cfg fuel)
    (fun _ p => exists tab', (listed "eth" eth_entry tab' /\ (List.length tab' <= 1)%nat) /\ core p = (a, b, d, f, tab')).
Proof.
  induction fuel as [|fuel IH]; intros a b d f tab Hl H4 Ht; [lia|]. cbn [parse_eths]. cbv zeta.
  apply reads_gets. intros p Hp. apply core_tabs in Hp as (_ & _ & ->). apply (turn_reads "eth" eth_entry); [reflexivity|exact Ht|eauto|]. unfold MAX_ETH_DEVICE. intros Hlim.
  apply get_str_dup. intros x Ex. set (obj := json_object_get cfg _) in *.
  eapply (reads_ask _ (fun i p => (x = str "tap" -> exists s, i = Some s /\ json_object_get obj (str "ifname") = JSON_STR s) /\ core p = (a, b, d, f, tab))).
  - case_bool_decide; [|apply reads_ok; intros q Hq; split; [contradiction|exact Hq]]. apply get_str_dup. intros s Es. apply reads_ok. intros q Hq. eauto.
  - intros i. apply reads_pure. intros Hi. set (e := mkVMEthEntry x i).
    eapply reads_bind; [apply (does_put _ _ (fun p => core p = (a, b, d, f, tab ++ [e]))); core_eq|]. intros [].
    apply IH; [rewrite length_app; cbn [List.length]; lia|rewrite length_app; cbn [List.length]; lia|]. apply from_file_snoc; [exact Ht|split; [exact Ex|exact Hi]].
Qed.

(** ** The rest of the file *)

Lemma opt_does {X} P (o : option X) (f : X -> SM Reader unit) : (forall x, does P (f x) (fun _ => P)) -> does P (match o with Some x => f x | None => mret tt end) (fun _ => P).
Proof. intros H. destruct o; [apply H|apply does_ret; auto]. Qed.

Lemma put_file_does c i s : does (fun p => core p = c) (put_file i s) (fun _ p => core p = c).
Proof. apply opt_does. intros x. apply does_put. auto. Qed.

Lemma ints_reads c name (set : list Z -> VirtMachineParams -> VirtMachineParams) msg : ints_prop cfg name -> (forall l p, core (set l p) = core p) ->
  reads (fun p => core p = c) (match json_object_get cfg name with
    | JSON_UNDEFINED => ok tt
    | JSON_ARRAY tab => l ← liftr (read_ints tab); _ ← on_params (set l); ok tt
    | _ => _ ← vm_error msg; fail
    end) (fun _ p => core p = c).
Proof.
  unfold ints_prop. intros H Hs. destruct (json_object_get cfg name); try apply reads_error; [|apply reads_ok; auto].
  eapply reads_bind; [apply does_liftr, read_ints_done, H|]. intros l. apply reads_pure. intros _.
  eapply reads_bind; [apply (does_put _ _ (fun p => core p = c)); intros p Hp; rewrite <- Hp; apply Hs|]. intros []. apply reads_ok. auto.
Qed.

Lemma does_keep c f : (forall p, core (f p) = core p) -> does (fun p => core p = c) (on_params f) (fun _ p => core p = c).
Proof. intros H. apply does_put. intros p Hp. rewrite H. exact Hp. Qed.

(** Steps that leave the core alone. *)
Ltac plain_step :=
  cbv beta; first
  [ eapply reads_ask; [apply get_str_opt_reads|]; intros ?s; apply reads_pure; intros _
  | eapply reads_ask; [apply get_int_reads|]; intros ?v; apply reads_pure; intros _
  | apply get_str_dup; intros ?x _
  | eapply reads_bind; [apply get_uint64_does; intros; assumption|]; intros []
  | eapply reads_bind; [apply put_file_does|]; intros []
  | eapply reads_bind; [apply opt_does; intros ?x; apply does_keep; reflexivity|]; intros []
  | eapply reads_bind; [apply does_keep; reflexivity|]; intros [] ].

Lemma header_reads c : reads (fun p => core p = c) (parse_header cfg)
  (fun _ p => (json_object_get cfg (str "version") = JSON_INT 1 /\ json_object_get cfg (str "machine") = JSON_STR (str "riscv64")) /\ core p = c).
Proof.
  unfold parse_header. eapply reads_ask; [apply get_int_reads|]. intros v. apply reads_pure. intros Ev.
  destruct (Z.eqb_spec v VM_CONFIG_VERSION) as [->|_]; [|destruct (v >? _); apply reads_error]. cbn [negb].
  apply get_str_dup. intros x Ex. case_bool_decide as Hx; [|apply reads_error]. cbn [negb]. subst x. apply reads_ok. auto.
Qed.

Lemma memory_files_reads tz a b d f t : ints_prop cfg (str "missing_csrs") -> ints_prop cfg (str "skip_commit") ->
  reads (fun p => core p = (a, b, d, f, t)) (parse_memory_files tz cfg)
    (fun _ p => exists v, (json_object_get cfg (str "memory_size") = JSON_INT v /\
       core p = (match json_object_get cfg (str "memory_base_addr") with JSON_INT x => u64 x | _ => a end, u64 (Z.shiftl (u64 v) 20), d, f, t))).
Proof.
  intros H1 H2. unfold parse_memory_files. set (a' := match json_object_get cfg (str "memory_base_addr") with JSON_INT x => u64 x | _ => a end).
  eapply (reads_bind _ (fun _ p => core p = (a', b, d, f, t))).
  { unfold vm_get_uint64_opt, a'. destruct (json_object_get cfg (str "memory_base_addr")); try apply does_error; [|apply does_ret; auto]. apply does_put. core_eq. }
  clearbody a'. intros []. eapply reads_ask; [apply get_int_reads|]. intros v. apply reads_pure. intros Ev. set (c := (a', u64 (Z.shiftl (u64 v) 20), d, f, t)).
  eapply (reads_bind _ (fun _ p => core p = c)); [apply does_put; core_eq|]. intros []. repeat plain_step.
  eapply reads_ask; [apply (ints_reads c _ (fun l p => p <| p_missing_csrs := l |>)); [exact H1|reflexivity]|]. intros []. cbv beta.
  eapply reads_ask; [apply (ints_reads c _ (fun l p => p <| p_skip_commit := l |>)); [exact H2|reflexivity]|]. intros []. repeat plain_step.
  eapply (reads_bind _ (fun _ p => core p = c)).
  { unfold vm_get_str_opt, vm_get_str2. destruct (json_object_get cfg (str "load"));
      try (eapply does_bind; [apply does_error|]; intros []; apply does_ret; auto); apply does_ret; auto. }
  intros sl. eapply (reads_bind _ (fun _ p => core p = c)); [|intros []; apply reads_ok; eauto].
  destruct sl as [[sl|]|]; [apply does_put; auto|apply does_ret; auto..].
Qed.

Lemma display_reads c : reads (fun p => core p = c) (parse_display cfg) (fun _ p => core p = c).
Proof.
  unfold parse_display. plain_step. cbv zeta. destruct (json_is_undefined _); [apply reads_ok; auto|]. repeat plain_step. apply reads_ok. auto.
Qed.

Lemma rest_reads c : reads (fun p => core p = c) (parse_rest cfg) (fun _ p => core p = c).
Proof.
  unfold parse_rest. repeat plain_step. eapply (reads_ask _ (fun _ p => core p = c)).
  { destruct s0 as [s0|]; [|apply reads_ok; auto]. repeat case_bool_decide; [plain_step; apply reads_ok; auto..|apply reads_error]. }
  intros []. eapply (reads_ask _ (fun _ p => core p = c)).
  { destruct (json_object_get cfg (str "rtc_local_time")); try apply reads_error; [|apply reads_ok; auto]. plain_step. apply reads_ok. auto. }
  intros []. repeat plain_step. eapply (reads_ask _ (fun _ p => core p = c)).
  { unfold vm_get_mmio_addrset_opt. destruct (json_object_get cfg (str "mmio_addrset")); try apply reads_error; [|apply reads_ok; auto].
    eapply reads_bind; [apply read_addrset_does|]. intros l. plain_step. apply reads_ok. auto. }
  intros []. repeat plain_step. apply reads_ok. auto.
Qed.

(** An accepted configuration and the parameters it stands for. *)
Record described (a : Z) (p : VirtMachineParams) : Prop := mk_described {
  ds_version : json_object_get cfg (str "version") = JSON_INT 1;
  ds_machine : json_object_get cfg (str "machine") = JSON_STR (str "riscv64");
  ds_base : p_ram_base_addr p = match json_object_get cfg (str "memory_base_addr") with JSON_INT x => u64 x | _ => a end;
  ds_size : exists v, json_object_get cfg (str "memory_size") = JSON_INT v /\ p_ram_size p = u64 (Z.shiftl (u64 v) 20);
  ds_drives : listed "drive" drive_entry (p_tab_drive p) /\ (List.length (p_tab_drive p) <= 4)%nat;
  ds_fss : listed "fs" fs_entry (p_tab_fs p) /\ (List.length (p_tab_fs p) <= 4)%nat;
  ds_eths : listed "eth" eth_entry (p_tab_eth p) /\ (List.length (p_tab_eth p) <= 1)%nat }.

Lemma cfg_reads tz a b : ints_prop cfg (str "missing_csrs") -> ints_prop cfg (str "skip_commit") ->
  reads (fun p => core p = (a, b, [], [], [])) (parse_cfg tz cfg) (fun _ p => described a p).
Proof.
  intros H1 H2. unfold parse_cfg. eapply reads_ask; [apply header_reads|]. intros []. apply reads_pure. intros [Hv Hm].
  eapply reads_ask; [apply memory_files_reads; assumption|]. intros []. apply reads_exists. intros v. apply reads_pure. intros Ev.
  eapply reads_ask; [apply drives_read; [reflexivity|cbn; lia|intros i e Hi; discriminate Hi]|]. intros []. apply reads_exists. intros d. apply reads_pure. intros Hd.
  eapply reads_ask; [apply fss_read; [reflexivity|cbn; lia|intros i e Hi; discriminate Hi]|]. intros []. apply reads_exists. intros f. apply reads_pure. intros Hf.
  eapply reads_ask; [apply eths_read; [reflexivity|cbn; lia|intros i e Hi; discriminate Hi]|]. intros []. apply reads_exists. intros t. apply reads_pure. intros Ht.
  eapply reads_ask; [apply display_reads|]. intros []. eapply reads_weaken; [apply rest_reads|]. intros [] p Hc. injection Hc as Ea Eb Ed Ef Et.
  constructor; [exact Hv|exact Hm|exact Ea|exists v; split; [exact Ev|exact Eb]|rewrite Ed; exact Hd|rewrite Ef; exact Hf|rewrite Et; exact Ht].
Qed.

End Tables.

(** C25 Reading a configuration file never goes wrong: for every text that the JSON parser can read, with integers in
    its two arrays of integers, [virt_machine_parse_config] returns; every failure has been reported; and an accepted
    file gives the parameters it describes: the version and machine are this emulator's, the memory is the given one,
    and the tables of drives, file systems and network interfaces hold exactly the numbered objects of the file, in
    order, within the bounds of the arrays. *)
Theorem config_parsed tz text cfg r : json_parse_value_len text = Done cfg -> ints_prop cfg (str "missing_csrs") -> ints_prop cfg (str "skip_commit") ->
  p_tab_drive (params r) = [] -> p_tab_fs (params r) = [] -> p_tab_eth (params r) = [] ->
  exists o r' new, virt_machine_parse_config tz text r = Done (o, r') /\ log r' = log r ++ new /\
    match o with Some _ => described cfg (p_ram_base_addr (params r)) (params r') | None => new <> [] end.
Proof.
  intros Ej H1 H2 E1 E2 E3.
  assert (reads (fun p => core p = (p_ram_base_addr (params r), p_ram_size (params r), [], [], [])) (virt_machine_parse_config tz text)
    (fun _ p => described cfg (p_ram_base_addr (params r)) p)) as H.
  { unfold virt_machine_parse_config. rewrite Ej. eapply reads_bind; [apply does_keep; reflexivity|]. intros []. cbv beta.
    eapply reads_bind; [apply does_liftr; eauto|]. intros v. apply reads_pure. intros [= <-].
    destruct cfg; try (apply cfg_reads; assumption). apply reads_error. }
  destruct (H r) as (o & r' & new & E & L & HQ); [unfold core; rewrite E1, E2, E3; reflexivity|]. exists o, r', new. auto.
Qed.

(** A file with a drive and a file system. *)
Definition demo_text : list Z :=
  print (JSON_OBJ [(str "version", JSON_INT 1); (str "machine", JSON_STR (str "riscv64")); (str "memory_size", JSON_INT 256);
    (str "drive0", JSON_OBJ [(str "file", JSON_STR (str "root.img"))]); (str "fs0", JSON_OBJ [(str "file", JSON_STR (str "/tmp"))])]).
Definition demo_reader : Reader := mkReader virt_machine_set_defaults [].

Lemma config_parsed_witness : exists o r', virt_machine_parse_config 0 demo_text demo_reader = Done (o, r') /\ o = Some tt /\
  p_tab_drive (params r') = [mkVMDriveEntry None (str "root.img")] /\ p_tab_fs (params r') = [mkVMFSEntry (str "/dev/root") (str "/tmp")] /\
  (exists cfg, described cfg 0x80000000 (params r')).
Proof.
  pose (cfg := match json_parse_value_len demo_text with Done v => v | Stop _ => JSON_NULL end).
  destruct (config_parsed 0 demo_text cfg demo_reader) as (o & r' & new & E & _ & H); try reflexivity; try (vm_compute; exact I).
  exists o, r'. assert (E' := E). vm_compute in E'. injection E' as Eo Er. split; [exact E|]. split; [symmetry; exact Eo|].
  rewrite <- Er. split; [reflexivity|]. split; [reflexivity|]. exists cfg. rewrite <- Eo in H. rewrite <- Er in H. exact H.
Defined.

(** ** The command line *)

(** Whatever the file and the options say, the machine gets between one and seven harts. *)
Lemma override_ncpus o p p' : in_u 64 (p_ncpus p) -> override_memory o p = Done p' -> 1 <= p_ncpus p' < MAX_CPUS.
Proof.
  intros Hp. unfold override_memory. cbv zeta. set (q := p <| p_ram_base_addr := _ |>).
  set (q1 := if negb (o_memory_size o =? 0) then _ else q). set (q2 := if negb (o_ncpus o =? 0) then _ else q1).
  assert (0 <= p_ncpus q2) as H0.
  { assert (p_ncpus q1 = p_ncpus p) as E by (unfold q1; destruct (negb (o_memory_size o =? 0)); reflexivity). unfold q2.
    destruct (negb (o_ncpus o =? 0)); [apply Z.mod_pos_bound; reflexivity|rewrite E; apply Hp]. }
  rewrite Z.geb_leb. destruct (Z.leb_spec MAX_CPUS (p_ncpus q2)) as [|Hlt]; [discriminate|]. intros [= <-].
  assert (1 <= p_ncpus (if p_ncpus q2 =? 0 then q2 <| p_ncpus := 1 |> else q2) < MAX_CPUS) as H1
    by (destruct (Z.eqb_spec (p_ncpus q2) 0); [split; [reflexivity|reflexivity]|lia]).
  destruct (o_cmdline o); exact H1.
Qed.

(** A range without a second part is accepted by the test for a colon and dereferences the NULL of [strtok]. *)
Lemma range_without_end_undefined : range_arg (str "0x1000:") = Stop UndefinedBehaviour.
Proof. reflexivity. Qed.

(** A value of the wrong type is only reported: the run goes on with the default. *)
Lemma wrong_ncpus_ignored : exists r', virt_machine_parse_config 0 (str "{version:1,machine:" ++ print_str (str "riscv64") ++ str ",memory_size:1,ncpus:}") demo_reader = Done (Some tt, r') /\
  p_ncpus (params r') = 0 /\ log r' = [str "ncpus: integer expected"].
Proof. eexists. split; [vm_compute; reflexivity|split; reflexivity]. Qed.

(** ** The kernel command line *)

Definition full (d : DynBuf) : Prop := dsize d = zlen (dbuf d).

Lemma dbuf_append d data : full d -> let d' := dbuf_write d (dsize d) data [] in full d' /\ dbuf d' = dbuf d ++ data.
Proof.
  unfold full, zlen. intros H. cbv zeta. unfold dbuf_write. rewrite H, Nat2Z.id, take_nil, app_nil_r.
  set (n := Z.of_nat (length (dbuf d)) + Z.of_nat (length data)).
  assert (forall k, n <= k -> take (Z.to_nat k) (dbuf d) = dbuf d) as Ht by (intros k Hk; apply take_ge; lia).
  assert (n <= max_int n (allocated_size d * 3 / 2)) as Hm by (unfold max_int; rewrite Z.gtb_ltb; destruct (Z.ltb_spec (allocated_size d * 3 / 2) n); lia).
  assert (forall c, (if n >? Z.of_nat (length (dbuf d)) then n else Z.of_nat (length (dbuf d))) = c <-> n = c) as Hn
    by (intros c; rewrite Z.gtb_ltb; destruct (Z.ltb_spec (Z.of_nat (length (dbuf d))) n); lia).
  destruct (n >? allocated_size d); cbn [dbuf dsize]; rewrite ?Ht, firstn_all, skipn_all2, app_nil_r by lia;
    (split; [apply Hn; rewrite length_app; lia|reflexivity]).
Qed.

(** A command line without variables is used as it is. *)
Lemma cmdline_plain tz s : Forall (fun c => c <> 0) s -> 36 ∉ s -> cmdline_subst tz s = s.
Proof.
  intros Hz Hd. unfold cmdline_subst.
  assert (forall p d, Forall (fun c => c <> 0) p -> 36 ∉ p -> full d -> let d' := subst_loop tz (List.length p) p d in full d' /\ dbuf d' = dbuf d ++ p) as H.
  { clear s Hz Hd. induction p as [|c p IH]; intros d Hz Hd Hf; [cbn; rewrite app_nil_r; auto|]. inversion_clear Hz. apply not_elem_of_cons in Hd as [Hc Hd].
    cbn [List.length subst_loop cur drop]. destruct (Z.eqb_spec c 0); [contradiction|]. destruct (Z.eqb_spec c 36); [congruence|]. cbn [andb].
    destruct (dbuf_append d [c] Hf) as [Hf' E]. unfold dbuf_putc. destruct (IH _ H0 Hd Hf') as [F D]. split; [exact F|]. cbv zeta. etransitivity; [exact D|]. rewrite E, <- app_assoc. reflexivity. }
  destruct (H s dbuf_init Hz Hd eq_refl) as [F D]. destruct (dbuf_append _ [0] F) as [_ E]. unfold dbuf_putc. rewrite E, D. cbn [dbuf dbuf_init app].
  clear -Hz. unfold cstr. induction Hz as [|c s Hc _ IH]; [reflexivity|]. cbn [app strlen]. destruct (Z.eqb_spec c 0); [contradiction|]. cbn [take]. rewrite IH. reflexivity.
Qed.

(** The time zone of the host is printed with the sign of TZ, which counts westwards. *)
Lemma cmdline_time_zone : cmdline_subst (-18000) (str "tz=${TZ} ${HOME}ro") = str "tz=UTC+05:00 ro".
Proof. vm_compute. reflexivity. Qed.

(** ** Relative paths *)

Lemma strrchr_last p c a b : p = a ++ c :: b -> c ∉ b -> strrchr p c = Some (List.length a).
Proof.
  intros -> Hb. induction a as [|x a IH]; cbn [app strrchr].
  - assert (strrchr b c = None) as ->; [|rewrite Z.eqb_refl; reflexivity].
    induction b as [|y b IH]; [reflexivity|]. apply not_elem_of_cons in Hb as [Hy Hb]. cbn [strrchr]. rewrite (IH Hb). destruct (Z.eqb_spec y c); [congruence|reflexivity].
  - rewrite IH. reflexivity.
Qed.

(** A relative name is taken from the directory of the configuration file. *)
Lemma file_path_relative dir base name : 47 ∉ base -> 58 ∉ name -> cur name <> 47 ->
  get_file_path (Some (dir ++ 47 :: base)) name = dir ++ 47 :: name.
Proof.
  intros Hb Hn Hc. unfold get_file_path. rewrite bool_decide_eq_false_2 by exact Hn. destruct (Z.eqb_spec (cur name) 47); [contradiction|].
  rewrite (strrchr_last _ 47 dir base) by auto. replace (S (List.length dir)) with (List.length (dir ++ [47])) by (rewrite length_app; cbn [List.length]; lia).
  replace (dir ++ 47 :: base) with ((dir ++ [47]) ++ base) by (rewrite <- app_assoc; reflexivity). rewrite take_app_length, <- app_assoc. reflexivity.
Qed.
