(* ===== verification/VirtioSpec.v ===== *)
(** * The virtio transport and the block device

    The rings, the registers and the requests of a block device, against what
    a driver may rely on: a request is carried out on the back end, its status
    and data reach the driver's buffers, one element is added to the used
    ring, and the interrupt is raised. *)

From S2P Require Import Prelude Cutils Iomem Hostmem Bytes Virtio VirtioQueue VirtioDevs.
From stdpp Require Import base list gmap.
From Stdlib Require Import ZArith Lia Bool.
Local Open Scope Z_scope.
Local Open Scope bits_scope.
Local Open Scope list_scope.

(** ** The rings *)

Section Rings.
Context {K : Type} {H : VirtioHost} {base size host : Z} (W : ram_window base size host).
Implicit Types s : VS K.
Abbreviation in_ram := (in_ram (base := base) (size := size)).
Abbreviation hp := (hp (base := base) (host := host)).

(** The queue size is a power of two, and the rings are aligned and in RAM. *)
Record rings_ok (qs : QueueState) : Prop := {
  ro_num : exists k, 0 <= k <= 15 /\ num qs = 2 ^ k;
  ro_used : in_ram (used_addr qs) (4 + 8 * num qs);
  ro_used_align : used_addr qs mod 4 = 0;
  ro_avail : in_ram (avail_addr qs) (4 + 2 * num qs);
  ro_avail_align : avail_addr qs mod 2 = 0;
  ro_last : in_u 16 (last_avail_idx qs) }.

(** A ring index reduced to a slot. *)
Lemma ring_slot qs x : rings_ok qs -> 0 <= x -> x &' u32 (num qs - 1) = x mod num qs /\ 0 <= x mod num qs < num qs.
Proof.
  intros [(k & Hk & E) _ _ _ _ _] Hx. pow_pos k. assert (num qs <= 2 ^ 15) by (rewrite E; apply Z.pow_le_mono_r; lia).
  rewrite u32_id by (unfold in_u; lia). split; [|apply Z.mod_pos_bound; lia].
  rewrite E. replace (2 ^ k - 1) with (Z.ones k) by (rewrite Z.ones_equiv; lia). apply Z.land_ones. lia.
Qed.

(** The used ring after one element is added. *)
Definition used_index (m : hostmem) (qs : QueueState) : Z := ld 2 m (hp (used_addr qs + 2)).
Definition used_elem (qs : QueueState) (index : Z) : Z := used_addr qs + 4 + (index mod num qs) * 8.
Definition push_used (m : hostmem) (qs : QueueState) (i n : Z) : hostmem :=
  let index := used_index m qs in
  let m := st 2 m (hp (used_addr qs + 2)) (u16 (index + 1)) in
  let m := st 4 m (hp (used_elem qs index)) (u32 i) in
  st 4 m (hp (used_elem qs index + 4)) (u32 n).

Lemma used_index_range m qs : hostmem_wf m -> in_u 16 (used_index m qs).
Proof. intros Hm. apply (ld_range 2 m _ Hm). Qed.

Lemma mod2_add a b : a mod 2 = 0 -> b mod 2 = 0 -> (a + b) mod 2 = 0.
Proof. intros Ha Hb. rewrite Zplus_mod, Ha, Hb. reflexivity. Qed.
Lemma mod4_add a b : a mod 4 = 0 -> b mod 4 = 0 -> (a + b) mod 4 = 0.
Proof. intros Ha Hb. rewrite Zplus_mod, Ha, Hb. reflexivity. Qed.
Lemma mod4_mod2 a : a mod 4 = 0 -> a mod 2 = 0.
Proof. intros Ha. apply Z.mod_divide in Ha as [c ->]; [|lia]. replace (c * 4) with (c * 2 * 2) by lia. apply Z_mod_mult. Qed.

Lemma consume_run q qs i n s : 0 <= q -> queue (dev s) !! Z.to_nat q = Some qs -> rings_ok qs -> hostmem_wf (vmem s) ->
  virtio_consume_desc q i n s =
    Done (tt, s <| vmem := push_used (vmem s) qs i n |> <| dev := (dev s) <| int_status := int_status (dev s) |' 1 |> |>
                <| calls := calls s ++ [SetIrq true] |>).
Proof.
  intros Hq Hs Ho Hm. unfold virtio_consume_desc. rewrite run_bind, (get_queue_run q qs) by auto. cbv zeta.
  pose proof (used_index_range _ qs Hm) as Hi. destruct (ring_slot qs (used_index (vmem s) qs) Ho ltac:(unfold in_u in Hi; lia)) as [El Hb].
  destruct Ho as [_ Hu Ha _ _ _]. assert (0 <= num qs) as Hn by lia.
  rewrite (in_ram_u64 W _ _ 2 Hu) by lia.
  assert ((used_addr qs + 2) mod 2 = 0) as H2 by (apply mod2_add; [apply mod4_mod2, Ha|reflexivity]).
  pose proof (in_ram_sub _ _ 2 2 Hu ltac:(lia) ltac:(lia) ltac:(lia)) as Hr2.
  rewrite run_bind, (read16_run W) by auto. fold (used_index (vmem s) qs). rewrite run_bind, (write16_run W) by auto.
  rewrite El. replace (used_addr qs + 4 + used_index (vmem s) qs mod num qs * 8) with (used_addr qs + (4 + used_index (vmem s) qs mod num qs * 8)) by lia.
  rewrite (in_ram_u64 W _ _ _ Hu) by lia. set (o := 4 + used_index (vmem s) qs mod num qs * 8).
  assert (o mod 4 = 0) as Ho4 by (unfold o; apply mod4_add; [reflexivity|]; replace (_ * 8) with (used_index (vmem s) qs mod num qs * 2 * 4) by lia; apply Z_mod_mult).
  pose proof (in_ram_sub _ _ o 4 Hu ltac:(lia) ltac:(lia) ltac:(lia)) as Hr4. pose proof (in_ram_sub _ _ (o + 4) 4 Hu ltac:(lia) ltac:(lia) ltac:(lia)) as Hr8.
  pose proof (mod4_add _ _ Ha Ho4) as Ha4. pose proof (mod4_add _ _ Ha (mod4_add _ 4 Ho4 eq_refl)) as Ha8.
  rewrite run_bind, (write32_run W) by auto.
  replace (used_addr qs + o + 4) with (used_addr qs + (o + 4)) by lia. rewrite (in_ram_u64 W _ _ _ Hu) by lia.
  rewrite run_bind, (write32_run W) by auto.
  unfold on_dev, set_irq, call. rewrite run_modify. unfold modify, push_used, used_elem. fold (used_index (vmem s) qs).
  replace (used_addr qs + 4 + used_index (vmem s) qs mod num qs * 8) with (used_addr qs + o) by (unfold o; lia).
  replace (used_addr qs + o + 4) with (used_addr qs + (o + 4)) by lia. reflexivity.
Qed.

(** What the driver finds: the element, the new index, and nothing else changed. *)
Lemma push_used_spec m qs i n : hostmem_wf m -> rings_ok qs -> let index := used_index m qs in let m' := push_used m qs i n in
  used_index m' qs = u16 (index + 1) /\ ld 4 m' (hp (used_elem qs index)) = u32 i /\ ld 4 m' (hp (used_elem qs index + 4)) = u32 n /\
  hostmem_wf m' /\
  forall p, p < hp (used_addr qs) \/ hp (used_addr qs) + (4 + 8 * num qs) <= p -> ld8 m' p = ld8 m p.
Proof.
  intros Hm Ho index m'. pose proof (used_index_range m qs Hm) as Hi. fold index in Hi.
  destruct (ring_slot qs index Ho ltac:(unfold in_u in Hi; lia)) as [_ Hb].
  assert (hp (used_elem qs index) = hp (used_addr qs) + (4 + index mod num qs * 8)) as E by (unfold used_elem, VirtioQueue.hp; lia).
  unfold m', push_used, used_index. fold (used_index m qs). fold index. rewrite !hp_add, E. set (u := hp (used_addr qs)) in *.
  split; [|split; [|split; [|split]]].
  - rewrite !ld_st_disjoint, ld_st_same by lia. cbn. apply Z.mod_small. apply wrapu_range. lia.
  - rewrite ld_st_disjoint, ld_st_same by lia. cbn. apply Z.mod_small. apply wrapu_range. lia.
  - rewrite ld_st_same. cbn. apply Z.mod_small. apply wrapu_range. lia.
  - apply st_wf, st_wf, st_wf, Hm.
  - intros p Hp. unfold ld8. destruct Hp.
    + rewrite !st_lookup_lt by lia. reflexivity.
    + rewrite !st_lookup_ge by lia. reflexivity.
Qed.
End Rings.

(** ** Back ends

    What the block device may rely on: [blk_view b i] is sector [i]; a write of whole sectors inside
    the device replaces them, a read returns them. *)

Definition sectors (view : Z -> list Z) (sec n : Z) : list Z := concat (map view (seqZ sec n)).

Definition write_view (view : Z -> list Z) (sec : Z) (data : list Z) : Z -> list Z := fun i =>
  if (sec <=? i) && (i <? sec + zlen data / SECTOR_SIZE) then slice data ((i - sec) * SECTOR_SIZE) SECTOR_SIZE else view i.

Class BlockLaws {B : Type} (BD : BlockDevice B) := {
  blk_ok : B -> Prop;
  blk_view : B -> Z -> list Z;
  view_size : forall b i, blk_ok b -> 0 <= i < get_sector_count b -> zlen (blk_view b i) = SECTOR_SIZE;
  view_bytes : forall b i, blk_ok b -> 0 <= i < get_sector_count b -> is_bytes (blk_view b i);
  law_read : forall b sec n buf, blk_ok b -> 0 <= sec -> 0 <= n < 2 ^ 22 -> sec + n <= get_sector_count b -> n * SECTOR_SIZE <= zlen buf ->
    exists b', read_async b sec buf n = Done (0, splice buf 0 (sectors (blk_view b) sec n), b') /\ blk_ok b' /\
      get_sector_count b' = get_sector_count b /\ forall i, 0 <= i < get_sector_count b -> blk_view b' i = blk_view b i;
  law_write : forall b sec n data, blk_ok b -> 0 <= sec -> 0 <= n < 2 ^ 22 -> sec + n <= get_sector_count b -> zlen data = n * SECTOR_SIZE -> is_bytes data ->
    exists b', write_async b sec data n = Done (0, b') /\ blk_ok b' /\ get_sector_count b' = get_sector_count b /\
      forall i, 0 <= i < get_sector_count b -> blk_view b' i = write_view (blk_view b) sec data i }.

Lemma seqZ_S a (n : nat) : seqZ a (Z.of_nat (S n)) = a :: seqZ (a + 1) (Z.of_nat n).
Proof. rewrite seqZ_cons by lia. f_equal. f_equal; lia. Qed.

Lemma sectors_S view sec (n : nat) : sectors view sec (Z.of_nat (S n)) = view sec ++ sectors view (sec + 1) (Z.of_nat n).
Proof. unfold sectors. rewrite seqZ_S. reflexivity. Qed.

Lemma bytes_sectors view (n : nat) : forall sec, (forall i, sec <= i < sec + Z.of_nat n -> is_bytes (view i)) -> is_bytes (sectors view sec (Z.of_nat n)).
Proof.
  induction n as [|n IH]; intros sec Hv; [constructor|]. rewrite sectors_S. apply Forall_app. split; [apply Hv; lia|apply IH; intros; apply Hv; lia].
Qed.

Lemma zlen_sectors view (n : nat) : forall sec, (forall i, sec <= i < sec + Z.of_nat n -> zlen (view i) = SECTOR_SIZE) ->
  zlen (sectors view sec (Z.of_nat n)) = Z.of_nat n * SECTOR_SIZE.
Proof.
  induction n as [|n IH]; intros sec Hv; [reflexivity|]. rewrite sectors_S, zlen_app, Hv, IH by (intros; try apply Hv; lia). lia.
Qed.

(** Reading back what was written. *)
Lemma sectors_written view (n : nat) : forall sec data sec0 data0, zlen data = Z.of_nat n * SECTOR_SIZE -> sec0 <= sec ->
  sec + Z.of_nat n = sec0 + zlen data0 / SECTOR_SIZE -> slice data0 ((sec - sec0) * SECTOR_SIZE) (Z.of_nat n * SECTOR_SIZE) = data ->
  sectors (write_view view sec0 data0) sec (Z.of_nat n) = data.
Proof.
  induction n as [|n IH]; intros sec data sec0 data0 Hd Hs He <-; [reflexivity|]. rewrite sectors_S.
  rewrite (IH (sec + 1) (slice data0 ((sec + 1 - sec0) * SECTOR_SIZE) (Z.of_nat n * SECTOR_SIZE))); auto; try lia.
  - unfold write_view. destruct (Z.leb_spec sec0 sec), (Z.ltb_spec sec (sec0 + zlen data0 / SECTOR_SIZE)); try lia. cbn [andb].
    replace (Z.of_nat (S n) * SECTOR_SIZE) with (SECTOR_SIZE + Z.of_nat n * SECTOR_SIZE) by lia. unfold SECTOR_SIZE in *.
    rewrite slice_split by lia. do 2 f_equal. lia.
  - unfold SECTOR_SIZE in *. revert Hd. unfold slice, zlen. rewrite !length_take, !length_drop. lia.
Qed.
