(* ===== verification/VirtioRequest.v ===== *)
(** * Virtio: one request, from the available ring to the used ring

    What every device class does with a request: the notification takes the
    chain, the device reads it and replies, the chain goes to the used ring
    and the interrupt is raised. *)

From S2P Require Import Prelude Cutils Iomem Hostmem Bytes Virtio VirtioDevs VirtioQueue VirtioSpec.
From stdpp Require Import base list gmap.
From Stdlib Require Import ZArith Lia Bool.
Local Open Scope Z_scope.
Local Open Scope bits_scope.
Local Open Scope list_scope.

Section Requests.
Context {K : Type} {H : VirtioHost} {base size host : Z} (W : ram_window base size host) (entries : Z).
Implicit Types s : VS K.
Abbreviation hp := (hp (base := base) (host := host)).
Abbreviation guest := (guest (base := base) (host := host)).
Abbreviation request := (request (base := base) (size := size) (host := host) entries).
Abbreviation gather := (gather (base := base) (host := host)).
Abbreviation scatter := (scatter (base := base) (host := host)).
Abbreviation rings_ok := (rings_ok (base := base) (size := size)).
Abbreviation push_used := (push_used (base := base) (host := host)).
Abbreviation used_index := (used_index (base := base) (host := host)).

(** The used ring does not overlap the buffer. *)
Definition off_used (qs : QueueState) (d : list Z) : Prop :=
  d_addr d + d_len d <= used_addr qs \/ used_addr qs + (4 + 8 * num qs) <= d_addr d.

(** Exactly one chain is available: entry [i], with buffers [rs] and [ws]. *)
Record pending (s : VS K) (q : Z) (qs : QueueState) (i : Z) (rs ws : list (list Z)) : Prop := {
  pd_q : 0 <= q;
  pd_queue : queue (dev s) !! Z.to_nat q = Some qs;
  pd_auto : manual_recv qs = false;
  pd_rings : rings_ok qs;
  pd_table : table_ok (base := base) (size := size) entries qs;
  pd_mem : hostmem_wf (vmem s);
  pd_avail : ld 2 (vmem s) (hp (avail_addr qs + 2)) = u16 (last_avail_idx qs + 1);
  pd_slot : ld 2 (vmem s) (hp (avail_addr qs + (4 + (last_avail_idx qs mod num qs) * 2))) = i;
  pd_request : request qs (vmem s) i rs ws;
  pd_used : Forall (off_used qs) ws }.

(** ** The reply *)

(** The memory after [data] went to the writable buffers and the chain to the used ring. *)
Definition replied (m : hostmem) (qs : QueueState) (ws : list (list Z)) (i n : Z) (data : list Z) : hostmem :=
  push_used (scatter m ws 0 data) qs i n.

Lemma scatter_wf ds : forall m o data, hostmem_wf m -> is_bytes data -> hostmem_wf (scatter m ds o data).
Proof.
  induction ds as [|d ds IH]; intros m o data Hm Hd; [exact Hm|]. cbn [VirtioQueue.scatter]. destruct (o <? d_len d); [|apply IH; auto].
  apply IH; [apply st_bytes_wf; auto|]; unfold slice; apply Forall_take, Forall_drop, Hd.
Qed.

Lemma scatter_used m qs ws o data : 0 <= num qs -> Forall (off_used qs) ws -> 0 <= o -> used_index (scatter m ws o data) qs = used_index m qs.
Proof.
  intros Hn Hu Ho. assert (forall p, hp (used_addr qs) + 2 <= p < hp (used_addr qs) + 4 -> ld8 (scatter m ws o data) p = ld8 m p) as E.
  { intros p Hp. apply scatter_outside; [exact Ho|]. refine (Forall_impl _ _ _ Hu _). intros d. unfold off_used, outside, VirtioQueue.hp in *. lia. }
  unfold VirtioSpec.used_index. rewrite hp_add. cbn [ld]. rewrite !E by lia. reflexivity.
Qed.

Lemma rings_num qs : rings_ok qs -> 1 <= num qs.
Proof. intros [(k & Hk & ->) _ _ _ _ _]. pow_pos k. lia. Qed.

(** What the driver finds in memory after the reply. *)
Lemma replied_spec m q qs ws rs i n data : hostmem_wf m -> is_bytes data -> rings_ok qs -> 0 <= q -> request qs m i rs ws -> Forall (off_used qs) ws ->
  zlen data <= buf_total ws -> let m' := replied m qs ws i n data in
  gather m' ws = splice (gather m ws) 0 data /\
  used_index m' qs = u16 (used_index m qs + 1) /\
  ld 4 m' (hp (used_elem qs (used_index m qs))) = u32 i /\ ld 4 m' (hp (used_elem qs (used_index m qs) + 4)) = u32 n /\
  hostmem_wf m' /\
  (forall p, Forall (outside (base := base) (host := host) p) ws -> p < hp (used_addr qs) \/ hp (used_addr qs) + (4 + 8 * num qs) <= p -> ld8 m' p = ld8 m p).
Proof.
  intros Hm Hd Ho Hq Hr Hu Hl m'. pose proof (rings_num qs Ho) as Hn. pose proof (rq_separated _ _ _ _ _ _ Hr) as Hsep.
  pose proof (scatter_wf ws m 0 data Hm Hd) as Hm1. pose proof (scatter_used m qs ws 0 data ltac:(lia) Hu ltac:(lia)) as Eu.
  destruct (push_used_spec (base := base) (size := size) (host := host) _ qs i n Hm1 Ho) as (P1 & P2 & P3 & P4 & P5).
  cbv zeta in *. rewrite Eu in *. unfold m', replied. split; [|split; [exact P1|split; [exact P2|split; [exact P3|split; [exact P4|]]]]].
  - rewrite <- (gather_scatter ws m 0 data Hsep) by lia. apply gather_ext. intros d p Hin Hp. apply P5. rewrite Forall_forall in Hu.
    apply list_elem_of_In, Hu in Hin. unfold off_used, VirtioQueue.hp in *. lia.
  - intros p Hout Hp. rewrite P5 by exact Hp. apply scatter_outside; [lia|exact Hout].
Qed.

(** The state after the reply. *)
Definition after_reply (s : VS K) (m : hostmem) : VS K :=
  s <| vmem := m |> <| dev := (dev s) <| int_status := int_status (dev s) |' 1 |> |> <| calls := calls s ++ [SetIrq true] |>.

Lemma reply_run s q qs i rs ws buf n : 0 <= q -> queue (dev s) !! Z.to_nat q = Some qs -> rings_ok qs -> table_ok (base := base) (size := size) entries qs ->
  hostmem_wf (vmem s) -> request qs (vmem s) i rs ws -> 0 <= n < 2 ^ 31 -> n <= zlen buf -> is_bytes buf ->
  (_ ← memcpy_to_queue q i 0 buf n; virtio_consume_desc q i n) s =
    Done (tt, after_reply s (replied (vmem s) qs ws i n (slice buf 0 n))).
Proof.
  intros Hq Hs Ho Ht Hm Hr Hn Hb Hby. rewrite run_bind, (memcpy_to_queue_run W entries q qs Hq Ht i rs ws) by (auto; lia). rewrite (map_u8 buf Hby).
  assert (hostmem_wf (scatter (vmem s) ws 0 (slice buf 0 n))) as Hm' by (apply scatter_wf; [exact Hm|apply Forall_take, Forall_drop, Hby]).
  rewrite (consume_run W q qs) by auto. reflexivity.
Qed.

(** ** The notification *)

Lemma avail_index_run s q qs i rs ws : pending s q qs i rs ws -> avail_index qs s = Done (u16 (last_avail_idx qs + 1), s).
Proof.
  intros [Hq Hs _ Ho _ _ Ha _ _ _]. pose proof (rings_num qs Ho). destruct Ho as [_ _ _ Hav Hal _]. unfold avail_index.
  rewrite (in_ram_u64 W _ _ 2 Hav) by lia. pose proof (in_ram_sub _ _ 2 2 Hav ltac:(lia) ltac:(lia) ltac:(lia)).
  rewrite (read16_run W) by (auto; apply mod2_add; auto). rewrite Ha. reflexivity.
Qed.

Lemma avail_slot_run s q qs i rs ws : pending s q qs i rs ws -> virtio_read16 (avail_slot qs) s = Done (i, s).
Proof.
  intros [Hq Hs _ Ho _ _ _ Ha _ _]. pose proof (ro_last _ Ho) as [Hl0 Hl1]. destruct (ring_slot qs (last_avail_idx qs) Ho Hl0) as [E Hb].
  destruct Ho as [_ _ _ Hav Hal _]. unfold avail_slot. rewrite E. rewrite <- Z.add_assoc, (in_ram_u64 W _ _ _ Hav) by lia.
  pose proof (in_ram_sub _ _ (4 + last_avail_idx qs mod num qs * 2) 2 Hav ltac:(lia) ltac:(lia) ltac:(lia)).
  rewrite (read16_run W), Ha; auto. apply mod2_add; [exact Hal|]. apply mod2_add; [reflexivity|apply Z_mod_mult].
Qed.

Lemma u16_succ_ne x : in_u 16 x -> x <> u16 (x + 1).
Proof.
  unfold in_u, u16, wrapu. intros Hx E. destruct (Z.eq_dec x 65535) as [->|Hne]; [discriminate|]. rewrite Z.mod_small in E by lia. lia.
Qed.

(** The queue after its last available chain is taken. *)
Definition taken (q : Z) (qs : QueueState) (s : VS K) : VS K :=
  s <| dev := (dev s) <| queue := <[Z.to_nat q := qs <| last_avail_idx := u16 (last_avail_idx qs + 1) |>]> (queue (dev s)) |> |>.

(** One available chain is one call of the device, after which the queue is empty. *)
Lemma notify_one recv s q qs i rs ws s1 ret : pending s q qs i rs ws -> recv q i (buf_total rs) (buf_total ws) s = Done (ret, s1) -> 0 <= ret ->
  queue (dev s1) !! Z.to_nat q = Some qs ->
  queue_notify recv q s = Done (tt, taken q qs s1).
Proof.
  intros Hp Hrecv Hret Hs1. pose proof Hp as [Hq Hs Hman Ho Ht Hm Ha Hsl Hr Hu]. unfold queue_notify.
  rewrite run_bind, (get_queue_run q qs), Hman by auto. rewrite run_bind, (avail_index_run s q qs i rs ws Hp).
  replace (Z.to_nat 65536) with (S (Z.to_nat 65535)) by lia. cbn [notify_loop].
  rewrite run_bind, (get_queue_run q qs) by auto. pose proof (u16_succ_ne _ (ro_last _ Ho)) as Hne.
  destruct (Z.eqb_spec (last_avail_idx qs) (u16 (last_avail_idx qs + 1))); [contradiction|].
  rewrite run_bind, (avail_slot_run s q qs i rs ws Hp), run_bind, (get_desc_rw_size_run W entries q qs Hq Ht i rs ws) by auto.
  rewrite run_assoc, run_bind, Hrecv, run_bind_ret. destruct (Z.leb_spec 0 ret); [|lia].
  unfold next_avail, on_queue. rewrite run_bind, run_bind, (get_queue_run q qs) by auto. unfold on_dev, modify. fold (taken q qs s1).
  replace (Z.to_nat 65535) with (S (Z.to_nat 65534)) by lia. cbn [notify_loop].
  rewrite run_bind, (get_queue_run q (qs <| last_avail_idx := u16 (last_avail_idx qs + 1) |>)); auto.
  - cbn [last_avail_idx upd upd_last_avail_idx]. rewrite Z.eqb_refl. reflexivity.
  - unfold taken. cbn [dev upd upd_dev queue upd_queue]. apply list_lookup_insert_eq. eapply lookup_lt_Some, Hs1.
Qed.

(** A device that stops, stops the notification. *)
Lemma notify_stop recv s q qs i rs ws r : pending s q qs i rs ws -> recv q i (buf_total rs) (buf_total ws) s = Stop r -> queue_notify recv q s = Stop r.
Proof.
  intros Hp Hrecv. pose proof Hp as [Hq Hs Hman Ho Ht Hm Ha Hsl Hr Hu]. unfold queue_notify.
  rewrite run_bind, (get_queue_run q qs), Hman by auto. rewrite run_bind, (avail_index_run s q qs i rs ws Hp).
  replace (Z.to_nat 65536) with (S (Z.to_nat 65535)) by lia. cbn [notify_loop].
  rewrite run_bind, (get_queue_run q qs) by auto. pose proof (u16_succ_ne _ (ro_last _ Ho)) as Hne.
  destruct (Z.eqb_spec (last_avail_idx qs) (u16 (last_avail_idx qs + 1))); [contradiction|].
  rewrite run_bind, (avail_slot_run s q qs i rs ws Hp), run_bind, (get_desc_rw_size_run W entries q qs Hq Ht i rs ws) by auto.
  rewrite run_assoc, run_bind, Hrecv. reflexivity.
Qed.

(** ** What the driver sees *)

(** The chain [i] is used with [n] bytes, the interrupt is raised, and memory outside the writable buffers and the used
    ring is as before. *)
Record completed s s' (q : Z) (qs : QueueState) (i n : Z) (ws : list (list Z)) : Prop := {
  cp_queue : queue (dev s') !! Z.to_nat q = Some (qs <| last_avail_idx := u16 (last_avail_idx qs + 1) |>);
  cp_status : Z.testbit (int_status (dev s')) 0 = true;
  cp_irq : calls s' = calls s ++ [SetIrq true];
  cp_index : used_index (vmem s') qs = u16 (used_index (vmem s) qs + 1);
  cp_id : ld 4 (vmem s') (hp (used_elem qs (used_index (vmem s) qs))) = u32 i;
  cp_len : ld 4 (vmem s') (hp (used_elem qs (used_index (vmem s) qs) + 4)) = u32 n;
  cp_wf : hostmem_wf (vmem s');
  cp_frame : forall p, Forall (outside (base := base) (host := host) p) ws ->
    p < hp (used_addr qs) \/ hp (used_addr qs) + (4 + 8 * num qs) <= p -> ld8 (vmem s') p = ld8 (vmem s) p }.

Lemma completed_reply s k q qs i rs ws n data : pending s q qs i rs ws -> is_bytes data -> zlen data <= buf_total ws ->
  let s' := taken q qs (after_reply (s <| kind := k |>) (replied (vmem s) qs ws i n data)) in
  completed s s' q qs i n ws /\ gather (vmem s') ws = splice (gather (vmem s) ws) 0 data.
Proof.
  intros [Hq Hs _ Ho Ht Hm _ _ Hr Hu] Hb Hl s'.
  destruct (replied_spec (vmem s) q qs ws rs i n data Hm Hb Ho Hq Hr Hu Hl) as (P0 & P1 & P2 & P3 & P4 & P5). split; [|exact P0].
  constructor; auto.
  - cbn. apply list_lookup_insert_eq. eapply lookup_lt_Some, Hs.
  - cbn [dev int_status taken after_reply upd upd_dev upd_vmem upd_calls upd_kind upd_int_status upd_queue s']. rewrite Z.lor_spec. apply orb_true_r.
Qed.

Lemma bytes_uninit n : is_bytes (uninit n).
Proof. apply Forall_map, Forall_true. intros. apply wrapu_range. lia. Qed.

Lemma bytes_gather m ds : hostmem_wf m -> is_bytes (gather m ds).
Proof.
  intros Hm. induction ds as [|d ds IH]; [constructor|]. rewrite gather_cons. apply Forall_app. split; [apply ld_bytes_bytes, Hm|exact IH].
Qed.
End Requests.

(** ** A layout

    A machine with 64 KiB of RAM, and a driver that keeps its table, rings and buffers there: what the instances of the
    theorems start from. *)
Definition demo_ram_range : PhysMemoryRange := mkPhysMemoryRange 0x80000000 0x10000 0x10000 true 0 0x100000 0 None [] 0 Dev_mmio 0.
#[local] Instance demo_host : VirtioHost := {|
  ram_ptr := virtio_mmio_get_ram_ptr (mkPhysMemoryMap [demo_ram_range]); garbage _ := 170; turns := 16 |}.

Lemma demo_window : ram_window 0x80000000 0x10000 0x100000.
Proof.
  apply (mmio_window (mkPhysMemoryMap [demo_ram_range]) demo_ram_range); try reflexivity; try discriminate.
  intros a Ha. exists 0%nat. unfold get_phys_mem_range, find_range. cbn [phys_mem_range List.length lookup list_lookup].
  rewrite (proj2 (in_range_in demo_ram_range a ltac:(cbn; lia) ltac:(cbn; lia) ltac:(cbn; lia)) Ha). reflexivity.
Qed.

Definition demo_queue : QueueState := mkQueueState 1 16 0 0x80000000 0x80001000 0x80002000 false.
Definition demo_vdev : VIRTIODevice := (virtio_init 2 8) <| queue := demo_queue :: replicate 7 (reset_queue (mkQueueState 0 0 0 0 0 0 false)) |>.

Definition desc_bytes (addr len flags next : Z) : list Z :=
  put_le64 (replicate 8 0) addr ++ put_le32 (replicate 4 0) len ++ put_le16 (replicate 2 0) flags ++ put_le16 (replicate 2 0) next.

Lemma is_bytes_b l : forallb (fun b => (0 <=? b) && (b <? 256)) l = true -> is_bytes l.
Proof.
  intros Hl. rewrite forallb_forall in Hl. apply Forall_forall. intros b Hb. apply list_elem_of_In, Hl in Hb.
  apply andb_true_iff in Hb as [H1 H2]. apply Z.leb_le in H1. apply Z.ltb_lt in H2. split; [lia|exact H2].
Qed.

Ltac zfact := vm_compute; first [reflexivity | discriminate | intros ?; discriminate].
Ltac zfacts := vm_compute; repeat match goal with |- _ /\ _ => split end; zfact.

Lemma demo_rings : rings_ok (base := 0x80000000) (size := 0x10000) demo_queue.
Proof. constructor; try (exists 4; split; [lia|reflexivity]); zfacts. Qed.

(** A chain of three descriptors whose buffers are above the rings is a pending request. *)
Lemma demo_pending {K} (s : VS K) rs ws : queue (dev s) !! 0%nat = Some demo_queue -> hostmem_wf (vmem s) ->
  ld 2 (vmem s) 0x101002 = 1 -> ld 2 (vmem s) 0x101004 = 0 -> List.length (rs ++ ws) = 3%nat ->
  (exists d ds, rs ++ ws = d :: ds /\ desc_at (base := 0x80000000) (host := 0x100000) (vmem s) demo_queue 0 = d /\
     linked (base := 0x80000000) (host := 0x100000) 16 (vmem s) demo_queue d ds) ->
  Forall (fun d => is_write d = false) rs -> Forall (fun d => is_write d = true) ws ->
  Forall (fun d => 0x80003000 <= d_addr d /\ d_addr d + d_len d <= 0x80010000) (rs ++ ws) ->
  separated ws -> buf_total rs < 2 ^ 31 -> buf_total ws < 2 ^ 31 ->
  pending (base := 0x80000000) (size := 0x10000) (host := 0x100000) 16 s 0 demo_queue 0 rs ws.
Proof.
  intros Hq Hm Ha Hs Hl Hc Hr Hw Hb Hsep Ht1 Ht2.
  assert (Forall (fun d => 0x80003000 <= d_addr d) ws) as Hwa.
  { apply Forall_app in Hb as [_ Hb]. refine (Forall_impl _ _ _ Hb _). intros d []. auto. }
  refine (Build_pending (base := 0x80000000) (size := 0x10000) (host := 0x100000) 16 s 0 demo_queue 0 rs ws ltac:(lia) Hq eq_refl demo_rings ltac:(zfacts) Hm Ha Hs _ _).
  - constructor; auto.
    + split; [lia|exact Hc].
    + refine (Forall_impl _ _ _ Hb _). intros d [H1 H2]. unfold buffer_ok, in_ram. pose proof (d_len_nonneg d). lia.
    + refine (Forall_impl _ _ _ Hwa _). intros d H1. right. cbn [desc_addr demo_queue]. lia.
    + rewrite Hl. cbn. lia.
  - refine (Forall_impl _ _ _ Hwa _). intros d H1. right. cbn [used_addr num demo_queue]. lia.
Qed.
