(* ===== verification/BlockFile.v ===== *)
(** * Image files implement the block interface

    [BlockDeviceFile] in its writable and snapshot modes satisfies the laws
    that the virtio block device is proved against. *)

From S2P Require Import Prelude Cutils Iomem Hostmem Bytes Virtio VirtioQueue VirtioDevs VirtioSpec.
From stdpp Require Import base list gmap.
From Stdlib Require Import ZArith Lia Bool.
Local Open Scope Z_scope.
Local Open Scope list_scope.

(** ** Slices and stores *)

Lemma slice_splice_in buf p x o n : 0 <= p -> p + zlen x <= zlen buf -> 0 <= n -> p <= o -> o + n <= p + zlen x ->
  slice (splice buf p x) o n = slice x (o - p) n.
Proof.
  intros Hp Hx Hn Ho He. unfold splice. assert (zlen (take (Z.to_nat p) buf) = p) as Et by (unfold zlen in *; rewrite length_take; lia).
  rewrite slice_app_r by lia. rewrite Et. apply slice_app_l; lia.
Qed.

Lemma slice_splice_out buf p x o n : 0 <= p -> p + zlen x <= zlen buf -> 0 <= o -> 0 <= n -> o + n <= p \/ p + zlen x <= o ->
  slice (splice buf p x) o n = slice buf o n.
Proof.
  intros Hp Hx Ho Hn Hd. unfold splice. assert (zlen (take (Z.to_nat p) buf) = p) as Et by (unfold zlen in *; rewrite length_take; lia).
  pose proof (zlen_nonneg x). destruct Hd as [Hd|Hd].
  - rewrite slice_app_l by lia. unfold slice. rewrite !take_drop_commute, take_take. do 2 f_equal. lia.
  - rewrite slice_app_r by lia. rewrite slice_app_r by lia. unfold slice. rewrite Et, drop_drop. do 2 f_equal. unfold zlen in *. lia.
Qed.

(** The sectors of a flat image. *)
Lemma sectors_flat data (n : nat) : forall sec, 0 <= sec ->
  sectors (fun i => slice data (i * SECTOR_SIZE) SECTOR_SIZE) sec (Z.of_nat n) = slice data (sec * SECTOR_SIZE) (Z.of_nat n * SECTOR_SIZE).
Proof.
  induction n as [|n IH]; intros sec Hs; [reflexivity|]. rewrite sectors_S, IH by lia. unfold SECTOR_SIZE in *.
  replace (Z.of_nat (S n) * 512) with (512 + Z.of_nat n * 512) by lia. rewrite slice_split by lia. do 2 f_equal. lia.
Qed.

Lemma sectors_ext v v' (n : nat) : forall sec, (forall i, sec <= i < sec + Z.of_nat n -> v i = v' i) ->
  sectors v sec (Z.of_nat n) = sectors v' sec (Z.of_nat n).
Proof. induction n as [|n IH]; intros sec Hv; [reflexivity|]. rewrite !sectors_S, Hv, (IH (sec + 1)) by (intros; try apply Hv; lia). reflexivity. Qed.

(** ** Files *)

Lemma fseek_run off f : 0 <= off < 2 ^ 63 -> fseek_set (u64 off) f = mkFile (f_data f) off.
Proof.
  intros Ho. unfold fseek_set. rewrite u64_id by (unfold in_u; lia). unfold s64. rewrite wraps_small by lia.
  destruct (Z.ltb_spec off 0); [lia|reflexivity].
Qed.

Lemma fread_run n f : 0 <= f_pos f -> 0 <= n -> f_pos f + n <= zlen (f_data f) ->
  fread n f = (slice (f_data f) (f_pos f) n, mkFile (f_data f) (f_pos f + n)).
Proof. intros Hp Hn Hl. unfold fread. rewrite Z.min_l, Z.max_r by lia. reflexivity. Qed.

Lemma fwrite_run data f : 0 <= f_pos f -> f_pos f + zlen data <= zlen (f_data f) -> data <> [] ->
  fwrite data f = mkFile (splice (f_data f) (f_pos f) data) (f_pos f + zlen data).
Proof.
  intros Hp Hl Hd. unfold fwrite. destruct data as [|b data]; [congruence|]. unfold zlen in *.
  rewrite (proj2 (Nat.sub_0_le _ _)) by lia. cbn [replicate]. rewrite app_nil_r. reflexivity.
Qed.

(** ** The invariant and the sectors of an image *)

Record bf_ok (bf : BlockDeviceFile) : Prop := {
  bo_mode : bf_mode bf <> BF_MODE_RO;
  bo_file : exists f, bf_f bf = Some f /\ nb_sectors bf * SECTOR_SIZE <= zlen (f_data f) /\ is_bytes (f_data f);
  bo_count : 0 <= nb_sectors bf /\ nb_sectors bf * SECTOR_SIZE < 2 ^ 63;
  bo_table : bf_mode bf = BF_MODE_SNAPSHOT -> Z.of_nat (List.length (sector_table bf)) = nb_sectors bf;
  bo_sectors : forall i data, sector_table bf !! i = Some (Some data) -> zlen data = SECTOR_SIZE /\ is_bytes data }.

Definition file_data (bf : BlockDeviceFile) : list Z := match bf_f bf with Some f => f_data f | None => [] end.

Definition bf_view (bf : BlockDeviceFile) (i : Z) : list Z :=
  match bf_mode bf, sector_table bf !! Z.to_nat i with
  | BF_MODE_SNAPSHOT, Some (Some data) => data
  | _, _ => slice (file_data bf) (i * SECTOR_SIZE) SECTOR_SIZE
  end.

Lemma bf_view_size bf i : bf_ok bf -> 0 <= i < nb_sectors bf -> zlen (bf_view bf i) = SECTOR_SIZE.
Proof.
  intros [Hm (f & Ef & Hf & Hfb) _ _ Hs] Hi. unfold bf_view, file_data. rewrite Ef. unfold SECTOR_SIZE in *.
  destruct (bf_mode bf); try (apply zlen_slice; lia).
  destruct (sector_table bf !! Z.to_nat i) as [[data|]|] eqn:E; [apply (Hs _ _ E)|apply zlen_slice; lia|apply zlen_slice; lia].
Qed.

Lemma bytes_slice l o n : is_bytes l -> is_bytes (slice l o n).
Proof. intros Hl. apply Forall_take, Forall_drop, Hl. Qed.
Lemma bytes_splice l o x : is_bytes l -> is_bytes x -> is_bytes (splice l o x).
Proof. intros Hl Hx. apply Forall_app. split; [apply Forall_take, Hl|]. apply Forall_app. split; [exact Hx|apply Forall_drop, Hl]. Qed.

Lemma bf_view_bytes bf i : bf_ok bf -> 0 <= i < nb_sectors bf -> is_bytes (bf_view bf i).
Proof.
  intros [Hm (f & Ef & Hf & Hfb) _ _ Hs] Hi. unfold bf_view, file_data. rewrite Ef.
  destruct (bf_mode bf); try (apply bytes_slice, Hfb).
  destruct (sector_table bf !! Z.to_nat i) as [[data|]|] eqn:E; [apply (Hs _ _ E)|apply bytes_slice, Hfb|apply bytes_slice, Hfb].
Qed.

(** Moving the file position changes no sector. *)
Lemma bf_pos bf f p : bf_ok bf -> bf_f bf = Some f ->
  bf_ok (bf <| bf_f := Some (mkFile (f_data f) p) |>) /\ forall i, bf_view (bf <| bf_f := Some (mkFile (f_data f) p) |>) i = bf_view bf i.
Proof.
  intros [Hm (f' & Ef' & Hf & Hfb) Hc Ht Hs] Ef. rewrite Ef in Ef'. injection Ef' as <-. split; [constructor; auto; eexists; split; [reflexivity|exact (conj Hf Hfb)]|].
  intros i. unfold bf_view, file_data. cbn. rewrite Ef. reflexivity.
Qed.

(** ** Reading *)

Lemma read_sectors_run (n : nat) : forall bf sec buf pos, bf_ok bf -> bf_mode bf = BF_MODE_SNAPSHOT -> 0 <= sec -> sec + Z.of_nat n <= nb_sectors bf ->
  0 <= pos -> pos + Z.of_nat n * SECTOR_SIZE <= zlen buf ->
  exists bf', bf_read_sectors n bf sec buf pos = Done (splice buf pos (sectors (bf_view bf) sec (Z.of_nat n)), bf') /\ bf_ok bf' /\
    nb_sectors bf' = nb_sectors bf /\ forall i, bf_view bf' i = bf_view bf i.
Proof.
  induction n as [|n IH]; intros bf sec buf pos Hok Hmode Hs He Hp Hb.
  - exists bf. cbn [bf_read_sectors Z.of_nat]. unfold sectors. cbn [seqZ map concat]. rewrite splice_nil. auto.
  - pose proof Hok as [_ (f & Ef & Hf & Hfb) [Hc0 Hc] Ht Hsz]. specialize (Ht Hmode). unfold SECTOR_SIZE in *.
    assert (exists bf1, bf_ok bf1 /\ bf_mode bf1 = BF_MODE_SNAPSHOT /\ nb_sectors bf1 = nb_sectors bf /\ (forall i, bf_view bf1 i = bf_view bf i) /\
      bf_read_sectors (S n) bf sec buf pos = bf_read_sectors n bf1 (u64 (sec + 1)) (splice buf pos (bf_view bf sec)) (pos + 512)) as (bf1 & Hok1 & Hm1 & Hn1 & Hv1 & ->).
    { cbn [bf_read_sectors]. pose proof (bf_view_size bf sec Hok ltac:(lia)) as Hz. unfold SECTOR_SIZE in Hz. unfold bf_view in Hz. rewrite Hmode in Hz.
      destruct (sector_table bf !! Z.to_nat sec) as [[data|]|] eqn:E; [| |apply lookup_ge_None_1 in E; lia]; rewrite ?E in Hz.
      - exists bf. rewrite buf_put_splice by lia. unfold bf_view at 3. rewrite Hmode, E. auto.
      - unfold SECTOR_SIZE in *. rewrite Ef, fseek_run by lia. rewrite fread_run by (cbn; lia). cbn [f_data f_pos]. unfold file_data in Hz. rewrite Ef in Hz. unfold SECTOR_SIZE in *.
        rewrite buf_put_splice by lia. cbn [mbind res_bind]. rewrite Hz. cbn [Z.eqb Pos.eqb assert_c].
        destruct (bf_pos bf f (sec * 512 + 512) Hok Ef) as [Hok1 Hv1]. eexists. split; [exact Hok1|]. split; [exact Hmode|]. split; [reflexivity|]. split; [exact Hv1|].
        unfold bf_view, file_data. rewrite Hmode, E, Ef. reflexivity. }
    pose proof (bf_view_size bf sec Hok ltac:(lia)) as Hz. unfold SECTOR_SIZE in Hz. rewrite u64_id by (unfold in_u; lia).
    destruct (IH bf1 (sec + 1) (splice buf pos (bf_view bf sec)) (pos + 512)) as (bf' & E & Hok' & Hn' & Hv'); auto; try lia; [rewrite zlen_splice; lia|].
    exists bf'. rewrite E. split; [|split; [exact Hok'|]; split; [lia|intros; rewrite Hv'; apply Hv1]]. do 2 f_equal.
    rewrite <- Hz, splice_splice.
    + rewrite sectors_S. do 2 f_equal. apply sectors_ext. intros. apply Hv1.
    + lia.
    + rewrite zlen_sectors by (intros; rewrite Hv1; apply bf_view_size; auto; lia). unfold SECTOR_SIZE. lia.
Qed.

Lemma bf_read_law bf sec n buf : bf_ok bf -> 0 <= sec -> 0 <= n < 2 ^ 22 -> sec + n <= nb_sectors bf -> n * SECTOR_SIZE <= zlen buf ->
  exists bf', bf_read_async bf sec buf n = Done (0, splice buf 0 (sectors (bf_view bf) sec n), bf') /\ bf_ok bf' /\
    nb_sectors bf' = nb_sectors bf /\ forall i, 0 <= i < nb_sectors bf -> bf_view bf' i = bf_view bf i.
Proof.
  intros Hok Hs Hn He Hb. pose proof Hok as [Hm (f & Ef & Hf & Hfb) [Hc0 Hc] _ _]. unfold bf_read_async. rewrite Ef.
  assert (n = Z.of_nat (Z.to_nat n)) as En by lia. destruct (bf_mode bf) eqn:Em; [congruence| |].
  - unfold SECTOR_SIZE in *. rewrite fseek_run, u64_id by (unfold in_u; lia). rewrite fread_run by (cbn [f_data f_pos]; lia). cbn [f_data f_pos].
    rewrite buf_put_splice by (rewrite ?zlen_slice; lia). cbn [mbind res_bind]. rewrite zlen_slice, Z.eqb_refl by lia. cbn [assert_c].
    destruct (bf_pos bf f (sec * 512 + n * 512) Hok Ef) as [Hok1 Hv1]. eexists. split; [|split; [exact Hok1|split; [reflexivity|intros; apply Hv1]]].
    do 4 f_equal. rewrite En. rewrite (sectors_ext _ (fun i => slice (f_data f) (i * 512) 512)), (sectors_flat (f_data f)) by (auto; unfold bf_view, file_data; rewrite Em, Ef; reflexivity).
    reflexivity.
  - rewrite En in Hb, He. destruct (read_sectors_run (Z.to_nat n) bf sec buf 0 Hok Em Hs He ltac:(lia) Hb) as (bf' & E & Hok' & Hn' & Hv').
    exists bf'. rewrite E, <- En. cbn [mbind res_bind]. auto.
Qed.

(** ** Writing *)

(** One more sector in the table. *)
Lemma bf_store bf sec data : bf_ok bf -> bf_mode bf = BF_MODE_SNAPSHOT -> 0 <= sec < nb_sectors bf -> zlen data = SECTOR_SIZE -> is_bytes data ->
  let bf' := bf <| sector_table := <[Z.to_nat sec := Some data]> (sector_table bf) |> in
  bf_ok bf' /\ forall i, 0 <= i -> bf_view bf' i = if i =? sec then data else bf_view bf i.
Proof.
  intros [Hm Hf Hc Ht Hs] Em Hsec Hd Hdb bf'. specialize (Ht Em). split.
  - constructor; auto; [intros _; cbn; rewrite length_insert; exact Ht|]. intros i x. cbn. intros Hx.
    apply list_lookup_insert_Some in Hx as [(_ & [= <-] & _)|[_ Hx]]; [exact (conj Hd Hdb)|exact (Hs i x Hx)].
  - intros i Hi. unfold bf_view, bf'. cbn [bf_mode sector_table upd upd_sector_table bf_f file_data]. rewrite Em. destruct (Z.eqb_spec i sec) as [->|Hne].
    + rewrite list_lookup_insert_eq by lia. reflexivity.
    + rewrite list_lookup_insert_ne by lia. reflexivity.
Qed.

Lemma write_sectors_run buf (n : nat) : forall bf sec pos, bf_ok bf -> bf_mode bf = BF_MODE_SNAPSHOT -> 0 <= sec -> sec + Z.of_nat n <= nb_sectors bf ->
  0 <= pos -> pos + Z.of_nat n * SECTOR_SIZE <= zlen buf -> is_bytes buf ->
  exists bf', bf_write_sectors n bf sec buf pos = Done bf' /\ bf_ok bf' /\ nb_sectors bf' = nb_sectors bf /\
    forall i, 0 <= i -> bf_view bf' i = if (sec <=? i) && (i <? sec + Z.of_nat n) then slice buf (pos + (i - sec) * SECTOR_SIZE) SECTOR_SIZE else bf_view bf i.
Proof.
  induction n as [|n IH]; intros bf sec pos Hok Hm Hs He Hp Hb Hby.
  - exists bf. split; [reflexivity|]. split; [exact Hok|]. split; [reflexivity|]. intros i Hi. destruct (Z.leb_spec sec i), (Z.ltb_spec i (sec + Z.of_nat 0)); try lia; reflexivity.
  - pose proof Hok as [_ _ [Hc0 Hc] Ht _]. specialize (Ht Hm). unfold SECTOR_SIZE in *. cbn [bf_write_sectors].
    destruct (lookup_lt_is_Some_2 (sector_table bf) (Z.to_nat sec)) as [x Ex]; [lia|]. rewrite Ex. unfold SECTOR_SIZE. rewrite buf_get_run by lia. cbn [mbind res_bind].
    fold (slice buf pos 512). rewrite u64_id by (unfold in_u; lia).
    destruct (bf_store bf sec (slice buf pos 512) Hok Hm ltac:(lia)) as [Hok1 Hv1]; [apply (zlen_slice buf pos 512); lia|apply bytes_slice, Hby|].
    destruct (IH _ (sec + 1) (pos + 512) Hok1 Hm) as (bf' & E & Hok' & Hn' & Hv'); [lia|cbn [nb_sectors upd upd_sector_table]; lia|lia|lia|exact Hby|].
    exists bf'. split; [exact E|]. split; [exact Hok'|]. split; [exact Hn'|]. intros i Hi. rewrite Hv', Hv1 by auto.
    destruct (Z.eqb_spec i sec) as [Heq|Hne], (Z.leb_spec (sec + 1) i), (Z.ltb_spec i (sec + 1 + Z.of_nat n)), (Z.leb_spec sec i), (Z.ltb_spec i (sec + Z.of_nat (S n))); try lia; cbn [andb];
      try reflexivity; f_equal; lia.
Qed.

Lemma bf_write_law bf sec n data : bf_ok bf -> 0 <= sec -> 0 <= n < 2 ^ 22 -> sec + n <= nb_sectors bf -> zlen data = n * SECTOR_SIZE -> is_bytes data ->
  exists bf', bf_write_async bf sec data n = Done (0, bf') /\ bf_ok bf' /\ nb_sectors bf' = nb_sectors bf /\
    forall i, 0 <= i < nb_sectors bf -> bf_view bf' i = write_view (bf_view bf) sec data i.
Proof.
  intros Hok Hs Hn He Hd Hdb. pose proof Hok as [Hm (f & Ef & Hf & Hfb) [Hc0 Hc] Ht Hsz]. unfold bf_write_async, write_view.
  assert (zlen data / SECTOR_SIZE = n) as -> by (rewrite Hd; apply Z.div_mul; discriminate).
  destruct (bf_mode bf) eqn:Em; [congruence| |].
  - unfold SECTOR_SIZE in *. rewrite Ef, fseek_run, u64_id by (unfold in_u; lia). rewrite buf_get_run by lia. cbn [mbind res_bind Z.to_nat].
    rewrite drop_0, take_ge by (unfold zlen in Hd; lia). eexists. split; [reflexivity|]. destruct data as [|b0 data].
    { cbn [fwrite]. destruct (bf_pos bf f (sec * 512) Hok Ef) as [Hok1 Hv1]. split; [exact Hok1|]. split; [reflexivity|]. intros i Hi. rewrite Hv1.
      unfold zlen in Hd. cbn [List.length] in Hd. destruct (Z.leb_spec sec i), (Z.ltb_spec i (sec + n)); try lia; reflexivity. }
    set (d := b0 :: data) in *. rewrite fwrite_run by (cbn [f_data f_pos]; try discriminate; lia). cbn [f_data f_pos]. split; [|split; [reflexivity|]].
    + split; cbn [bf_mode bf_f nb_sectors sector_table upd upd_bf_f]; rewrite ?Em; auto; try discriminate.
      eexists; split; [reflexivity|]. cbn [f_data]. unfold SECTOR_SIZE. rewrite zlen_splice by lia. split; [lia|apply bytes_splice; auto].
    + intros i Hi. unfold bf_view, file_data. cbn [bf_mode sector_table bf_f upd upd_bf_f f_data]. rewrite Em, Ef. unfold SECTOR_SIZE.
      destruct (Z.leb_spec sec i), (Z.ltb_spec i (sec + n)); cbn [andb]; [|apply slice_splice_out; lia|apply slice_splice_out; lia|lia].
      rewrite slice_splice_in by lia. f_equal. lia.
  - unfold u32, wrapu. assert ((sec + n) mod 2 ^ 32 <= sec + n) by (apply Z.mod_le; lia). destruct (Z.ltb_spec (nb_sectors bf) ((sec + n) mod 2 ^ 32)); [lia|].
    assert (n = Z.of_nat (Z.to_nat n)) as En by lia.
    destruct (write_sectors_run data (Z.to_nat n) bf sec 0 Hok Em Hs ltac:(lia) ltac:(lia) ltac:(lia) Hdb) as (bf' & E & Hok' & Hn' & Hv').
    exists bf'. rewrite E. cbn [mbind res_bind]. split; [reflexivity|]. split; [exact Hok'|]. split; [exact Hn'|]. intros i Hi. rewrite Hv', <- En by lia. reflexivity.
Qed.

#[export] Instance bf_laws : BlockLaws bf_block_device := {|
  blk_ok := bf_ok; blk_view := bf_view; view_size := bf_view_size; view_bytes := bf_view_bytes; law_read := bf_read_law; law_write := bf_write_law |}.

(** A fresh image satisfies the invariant, and its sectors are those of the file. *)
Lemma block_device_init_ok data mode bf : zlen data < 2 ^ 63 -> is_bytes data -> mode <> BF_MODE_RO -> block_device_init (Some data) mode = Done bf ->
  bf_ok bf /\ nb_sectors bf = zlen data / SECTOR_SIZE /\ forall i, bf_view bf i = slice data (i * SECTOR_SIZE) SECTOR_SIZE.
Proof.
  intros Hl Hb Hm. unfold block_device_init. intros [= <-]. pose proof (zlen_nonneg data). pose proof (Z.div_mod (zlen data) 512 ltac:(lia)).
  pose proof (Z.mod_pos_bound (zlen data) 512 ltac:(lia)). split; [|split; [reflexivity|]].
  - constructor; cbn [bf_mode bf_f nb_sectors sector_table]; auto; unfold SECTOR_SIZE; try lia.
    + eexists. split; [reflexivity|]. cbn [f_data]. split; [lia|exact Hb].
    + intros ->. rewrite length_replicate. lia.
    + intros i x Hx. destruct mode; try discriminate. apply lookup_replicate in Hx as [Hx _]. discriminate.
  - intros i. unfold bf_view, file_data. cbn [bf_mode bf_f sector_table f_data]. destruct mode; try reflexivity.
    destruct (replicate _ None !! _) as [[x|]|] eqn:E; try reflexivity. apply lookup_replicate in E as [E _]. discriminate.
Qed.
