(* ===== verification/BlockSpec.v ===== *)
(** * Block requests

    A request that a driver has put into the queue is carried out: the sectors
    are written or read, the driver's buffers receive the data and the status,
    the used ring receives the element and the interrupt is raised; what is
    written by one request is read back by another. *)

From S2P Require Import Prelude Cutils Iomem Hostmem Bytes Virtio VirtioQueue VirtioDevs VirtioSpec VirtioRequest BlockFile.
From stdpp Require Import base list gmap.
From Stdlib Require Import ZArith Lia Bool.
Local Open Scope Z_scope.
Local Open Scope bits_scope.
Local Open Scope list_scope.

Lemma get_le64_nonneg l : 0 <= get_le64 l.
Proof. unfold get_le64. apply Z.lor_nonneg. split; [apply get_le32_range|apply in_u_u64]. Qed.

Section Block.
Context {B : Type} {BD : BlockDevice B} {BL : BlockLaws BD} {H : VirtioHost} {base size host : Z} (W : ram_window base size host) (entries : Z).
Implicit Types s : VS (VIRTIOBlockDevice B).
Abbreviation pending := (pending (base := base) (size := size) (host := host) entries).
Abbreviation gather := (gather (base := base) (host := host)).
Abbreviation replied := (replied (base := base) (host := host)).

(** The request in memory: a header of [type] for sector [sec], followed by [data]. *)
Definition block_header (hdr : list Z) (type sec : Z) : Prop := zlen hdr = 16 /\ h_type hdr = type /\ h_sector_num hdr = sec.

(** The 16 bytes of the header are what the device reads first. *)
Lemma read_header s q qs i rs ws hdr data : pending s q qs i rs ws -> gather (vmem s) rs = hdr ++ data -> zlen hdr = 16 ->
  memcpy_from_queue (uninit 16) q i 0 16 s = Done ((0, hdr), s) /\ buf_total rs = 16 + zlen data.
Proof.
  intros [Hq Hs _ Ho Ht _ _ _ Hr _] Hg Hh. assert (buf_total rs = 16 + zlen data) as Et by (rewrite <- (zlen_gather (base := base) (host := host) (vmem s)), Hg, zlen_app; lia).
  split; [|exact Et]. pose proof (zlen_nonneg data). rewrite (memcpy_from_queue_run W entries q qs Hq Ht i rs ws) by (auto; rewrite ?zlen_uninit; lia).
  unfold copy_ret. cbn [Z.eqb]. rewrite copied_le, Hg by lia. rewrite slice_app_l by lia. rewrite slice_all, splice_all by (rewrite ?zlen_uninit; lia). reflexivity.
Qed.

(** The end of a request, in both directions. *)
Lemma req_end_out q qs i rs ws s : 0 <= q -> queue (dev s) !! Z.to_nat q = Some qs -> rings_ok (base := base) (size := size) qs ->
  table_ok (base := base) (size := size) entries qs -> hostmem_wf (vmem s) -> request (base := base) (size := size) (host := host) entries qs (vmem s) i rs ws ->
  req_type (req (kind s)) = VIRTIO_BLK_T_OUT -> req_queue_idx (req (kind s)) = q -> req_desc_idx (req (kind s)) = i ->
  virtio_block_req_end 0 s = Done (tt, after_reply s (replied (vmem s) qs ws i 1 [VIRTIO_BLK_S_OK])).
Proof.
  intros Hq Hs Ho Ht Hm Hr Et Eq Ei. assert (is_bytes [VIRTIO_BLK_S_OK]) as Hb by (repeat constructor; discriminate).
  unfold virtio_block_req_end. rewrite run_gets. cbv zeta. rewrite Et, Eq, Ei. exact (reply_run W entries s q qs i rs ws [VIRTIO_BLK_S_OK] 1 Hq Hs Ho Ht Hm Hr ltac:(lia) ltac:(discriminate) Hb).
Qed.

Lemma req_end_in q qs i rs ws data s : 0 <= q -> queue (dev s) !! Z.to_nat q = Some qs -> rings_ok (base := base) (size := size) qs ->
  table_ok (base := base) (size := size) entries qs -> hostmem_wf (vmem s) -> request (base := base) (size := size) (host := host) entries qs (vmem s) i rs ws ->
  req_type (req (kind s)) = VIRTIO_BLK_T_IN -> req_queue_idx (req (kind s)) = q -> req_desc_idx (req (kind s)) = i ->
  is_bytes data -> zlen data + 1 < 2 ^ 31 -> req_write_size (req (kind s)) = zlen data + 1 -> (exists c, req_buf (req (kind s)) = data ++ [c]) ->
  virtio_block_req_end 0 s = Done (tt, after_reply s (replied (vmem s) qs ws i (zlen data + 1) (data ++ [VIRTIO_BLK_S_OK]))).
Proof.
  intros Hq Hs Ho Ht Hm Hr Et Eq Ei Hb Hl Ew [c Ec]. unfold virtio_block_req_end. rewrite run_gets. cbv zeta. rewrite Et, Eq, Ei, Ew, Ec.
  change (VIRTIO_BLK_T_IN =? VIRTIO_BLK_T_IN) with true. cbv iota. replace (zlen data + 1 - 1) with (zlen data) by lia.
  rewrite <- (app_nil_r (data ++ [c])), <- app_assoc, (buf_put_app data [c] [] [if 0 <? 0 then _ else _]) by reflexivity. rewrite run_liftr_done.
  assert (is_bytes (data ++ [VIRTIO_BLK_S_OK])) as Hb' by (apply Forall_app; split; [exact Hb|repeat constructor; discriminate]).
  assert (zlen (data ++ [VIRTIO_BLK_S_OK]) = zlen data + 1) as El by (rewrite zlen_app; reflexivity). pose proof (zlen_nonneg data). cbn [app].
  rewrite (reply_run W entries s q qs i rs ws (data ++ [VIRTIO_BLK_S_OK])) by (auto; lia). rewrite slice_all by lia. reflexivity.
Qed.

(** The state of the device class after a request. *)
Definition served_kind s (b : B) (r : BlockRequest) : VIRTIOBlockDevice B := mkVIRTIOBlockDevice b (req_in_progress (kind s)) r.

Lemma write_recv s q qs i rs ws hdr data n sec : pending s q qs i rs ws -> req_in_progress (kind s) = false -> blk_ok (bs (kind s)) ->
  gather (vmem s) rs = hdr ++ data -> block_header hdr VIRTIO_BLK_T_OUT sec -> zlen data = n * SECTOR_SIZE -> 0 <= n ->
  sec + n <= get_sector_count (bs (kind s)) -> 1 <= buf_total ws ->
  exists b' r, virtio_block_recv_request q i (buf_total rs) (buf_total ws) s =
      Done (0, after_reply (s <| kind := served_kind s b' r |>) (replied (vmem s) qs ws i 1 [VIRTIO_BLK_S_OK])) /\
    blk_ok b' /\ get_sector_count b' = get_sector_count (bs (kind s)) /\
    forall j, 0 <= j < get_sector_count b' -> blk_view b' j = write_view (blk_view (bs (kind s))) sec data j.
Proof.
  intros Hp Hprog Hok Hg (Hh & Hty & Hsec) Hd Hn He Hws. pose proof Hp as [Hq Hs _ Ho Ht Hm _ _ Hr Hu].
  destruct (read_header s q qs i rs ws hdr data Hp Hg Hh) as [Eh Et]. pose proof (rq_total _ _ _ _ _ _ Hr) as [Htr _].
  pose proof (get_le64_nonneg (drop 8 hdr)) as Hs0. fold (h_sector_num hdr) in Hs0. rewrite Hsec in Hs0. unfold SECTOR_SIZE in Hd.
  pose proof (bytes_gather (base := base) (host := host) (vmem s) rs Hm) as Hby. rewrite Hg in Hby. apply Forall_app in Hby as [_ Hby].
  destruct (law_write (bs (kind s)) sec n data Hok Hs0 ltac:(lia) He Hd Hby) as (b' & Ew & Hok' & Hc' & Hv').
  exists b', (mkBlockRequest 1 (req_buf (req (kind s))) (req_write_size (req (kind s))) q i). split; [|rewrite Hc'; auto].
  unfold virtio_block_recv_request. rewrite run_gets, Hprog, run_bind, Eh. cbn [Z.ltb Z.compare]. unfold on_blk. rewrite run_modify, Hty.
  change (VIRTIO_BLK_T_OUT =? VIRTIO_BLK_T_IN) with false. change (VIRTIO_BLK_T_OUT =? VIRTIO_BLK_T_OUT) with true. cbv iota. assert ((1 <=? buf_total ws) = true) as -> by (apply Z.leb_le; lia). cbn [assert_c]. rewrite run_liftr_done. cbv zeta.
  rewrite Et. replace (16 + zlen data - 16) with (zlen data) by lia. rewrite s32_small by lia.
  set (s0 := s <| kind := _ |>). rewrite run_bind, (memcpy_from_queue_run W entries q qs Hq Ht i rs ws _ _ _ s0) by (auto; rewrite ?zlen_uninit; lia).
  change (vmem s0) with (vmem s). rewrite Hg, slice_app_r, Hh, slice_all, splice_all by (rewrite ?zlen_uninit; lia).
  rewrite Hd, Hsec, Z.quot_mul, Ew, run_liftr_done, run_modify by (unfold SECTOR_SIZE; lia). cbn [Z.ltb Z.compare].
  rewrite run_bind, (req_end_out q qs i rs ws) by auto. reflexivity.
Qed.

Lemma read_recv s q qs i rs ws hdr rest n sec : pending s q qs i rs ws -> req_in_progress (kind s) = false -> blk_ok (bs (kind s)) ->
  gather (vmem s) rs = hdr ++ rest -> block_header hdr VIRTIO_BLK_T_IN sec -> buf_total ws = n * SECTOR_SIZE + 1 -> 0 <= n ->
  sec + n <= get_sector_count (bs (kind s)) -> let data := sectors (blk_view (bs (kind s))) sec n in
  is_bytes data /\ zlen data = n * SECTOR_SIZE /\
  exists b' r, virtio_block_recv_request q i (buf_total rs) (buf_total ws) s =
      Done (0, after_reply (s <| kind := served_kind s b' r |>) (replied (vmem s) qs ws i (zlen data + 1) (data ++ [VIRTIO_BLK_S_OK]))) /\
    blk_ok b' /\ get_sector_count b' = get_sector_count (bs (kind s)) /\
    forall j, 0 <= j < get_sector_count b' -> blk_view b' j = blk_view (bs (kind s)) j.
Proof.
  intros Hp Hprog Hok Hg (Hh & Hty & Hsec) Hws Hn He data. pose proof Hp as [Hq Hs _ Ho Ht Hm _ _ Hr Hu].
  destruct (read_header s q qs i rs ws hdr rest Hp Hg Hh) as [Eh _]. pose proof (rq_total _ _ _ _ _ _ Hr) as [_ Htw].
  pose proof (get_le64_nonneg (drop 8 hdr)) as Hs0. fold (h_sector_num hdr) in Hs0. rewrite Hsec in Hs0.
  assert (n = Z.of_nat (Z.to_nat n)) as En by lia.
  assert (is_bytes data) as Hby by (unfold data; rewrite En; apply bytes_sectors; intros; apply view_bytes; auto; lia).
  assert (zlen data = n * SECTOR_SIZE) as Hz by (unfold data; rewrite En at 1; rewrite zlen_sectors by (intros; apply view_size; auto; lia); lia).
  split; [exact Hby|]. split; [exact Hz|]. set (ub := uninit (buf_total ws)). unfold SECTOR_SIZE in *.
  assert (zlen ub = n * 512 + 1) as Hub by (unfold ub; rewrite zlen_uninit; lia).
  destruct (law_read (bs (kind s)) sec n ub Hok Hs0 ltac:(lia) He ltac:(unfold SECTOR_SIZE; lia)) as (b' & Er & Hok' & Hc' & Hv').
  fold data in Er. assert (exists c, splice ub 0 data = data ++ [c]) as [c Ec].
  { unfold splice, zlen in *. change (Z.to_nat 0) with 0%nat. rewrite take_0. cbn [app Nat.add].
    destruct (drop (List.length data) ub) as [|c [|c' l]] eqn:Ed; apply (f_equal (@List.length Z)) in Ed; rewrite length_drop in Ed; cbn [List.length] in Ed; try lia.
    exists c. reflexivity. }
  exists b', (mkBlockRequest 0 (data ++ [c]) (buf_total ws) q i). split; [|rewrite Hc'; auto].
  unfold virtio_block_recv_request. rewrite run_gets, Hprog, run_bind, Eh. cbn [Z.ltb Z.compare]. unfold on_blk. rewrite run_modify, Hty.
  change (VIRTIO_BLK_T_IN =? VIRTIO_BLK_T_IN) with true. cbv iota. rewrite run_bind, int_op_run by lia. fold ub.
  replace (buf_total ws - 1) with (n * SECTOR_SIZE) by (unfold SECTOR_SIZE; lia). rewrite Z.quot_mul, Hsec, Er, run_liftr_done, Ec, run_modify by (unfold SECTOR_SIZE; lia).
  cbn [Z.ltb Z.compare]. rewrite run_bind, (req_end_in q qs i rs ws data) by (auto; cbn; eauto; lia). reflexivity.
Qed.

End Block.

(** A write request is carried out: the driver's data become the sectors it names (and no other sector changes), the
    status byte in the first writable buffer is OK, the chain is added to the used ring with length 1, the queue is
    empty, the interrupt is raised, and no other memory changes. *)
Theorem block_write_served {B : Type} {BD : BlockDevice B} {BL : BlockLaws BD} {H : VirtioHost} base size host entries
    (s : VS (VIRTIOBlockDevice B)) q qs i rs ws hdr data n sec :
  ram_window base size host -> pending (base := base) (size := size) (host := host) entries s q qs i rs ws ->
  req_in_progress (kind s) = false -> blk_ok (bs (kind s)) ->
  gather (base := base) (host := host) (vmem s) rs = hdr ++ data -> block_header hdr VIRTIO_BLK_T_OUT sec -> zlen data = n * SECTOR_SIZE -> 0 <= n ->
  sec + n <= get_sector_count (bs (kind s)) -> 1 <= buf_total ws ->
  exists s', queue_notify virtio_block_recv_request q s = Done (tt, s') /\
    blk_ok (bs (kind s')) /\ req_in_progress (kind s') = false /\ get_sector_count (bs (kind s')) = get_sector_count (bs (kind s)) /\
    (forall j, 0 <= j < get_sector_count (bs (kind s)) -> blk_view (bs (kind s')) j = write_view (blk_view (bs (kind s))) sec data j) /\
    gather (base := base) (host := host) (vmem s') ws = splice (gather (base := base) (host := host) (vmem s) ws) 0 [VIRTIO_BLK_S_OK] /\
    completed (base := base) (host := host) s s' q qs i 1 ws.
Proof.
  intros W Hp Hprog Hok Hg Hh Hd Hn He Hws.
  destruct (write_recv W entries s q qs i rs ws hdr data n sec Hp Hprog Hok Hg Hh Hd Hn He Hws) as (b' & r & E & Hok' & Hc' & Hv').
  destruct (completed_reply entries s (served_kind s b' r) q qs i rs ws 1 [VIRTIO_BLK_S_OK] Hp) as [Hcp Hgw]; [repeat constructor; discriminate|unfold zlen; cbn; lia|].
  eexists. split; [apply (notify_one W entries _ s q qs i rs ws _ 0 Hp E); [lia|exact (pd_queue _ _ _ _ _ _ _ Hp)]|].
  split; [exact Hok'|]. split; [exact Hprog|]. split; [exact Hc'|]. split; [intros j Hj; apply Hv'; cbn in *; lia|]. auto.
Qed.

(** A read request is carried out: the writable buffers receive the sectors followed by the status OK, the device's
    sectors are unchanged, the chain is added to the used ring with the number of bytes written, the queue is empty, the
    interrupt is raised, and no other memory changes. *)
Theorem block_read_served {B : Type} {BD : BlockDevice B} {BL : BlockLaws BD} {H : VirtioHost} base size host entries
    (s : VS (VIRTIOBlockDevice B)) q qs i rs ws hdr rest n sec :
  ram_window base size host -> pending (base := base) (size := size) (host := host) entries s q qs i rs ws ->
  req_in_progress (kind s) = false -> blk_ok (bs (kind s)) ->
  gather (base := base) (host := host) (vmem s) rs = hdr ++ rest -> block_header hdr VIRTIO_BLK_T_IN sec -> buf_total ws = n * SECTOR_SIZE + 1 -> 0 <= n ->
  sec + n <= get_sector_count (bs (kind s)) ->
  exists s', queue_notify virtio_block_recv_request q s = Done (tt, s') /\
    blk_ok (bs (kind s')) /\ req_in_progress (kind s') = false /\ get_sector_count (bs (kind s')) = get_sector_count (bs (kind s)) /\
    (forall j, 0 <= j < get_sector_count (bs (kind s)) -> blk_view (bs (kind s')) j = blk_view (bs (kind s)) j) /\
    gather (base := base) (host := host) (vmem s') ws = sectors (blk_view (bs (kind s))) sec n ++ [VIRTIO_BLK_S_OK] /\
    completed (base := base) (host := host) s s' q qs i (n * SECTOR_SIZE + 1) ws.
Proof.
  intros W Hp Hprog Hok Hg Hh Hws Hn He.
  destruct (read_recv W entries s q qs i rs ws hdr rest n sec Hp Hprog Hok Hg Hh Hws Hn He) as (Hby & Hz & b' & r & E & Hok' & Hc' & Hv').
  set (data := sectors (blk_view (bs (kind s))) sec n) in *.
  assert (is_bytes (data ++ [VIRTIO_BLK_S_OK])) as Hb by (apply Forall_app; split; [exact Hby|repeat constructor; discriminate]).
  assert (zlen (data ++ [VIRTIO_BLK_S_OK]) = buf_total ws) as El by (rewrite zlen_app, Hz, Hws; reflexivity).
  destruct (completed_reply entries s (served_kind s b' r) q qs i rs ws (zlen data + 1) (data ++ [VIRTIO_BLK_S_OK]) Hp Hb) as [Hcp Hgw]; [lia|].
  rewrite splice_all in Hgw by (rewrite zlen_gather; exact El). rewrite Hz in Hcp, E, Hgw.
  eexists. split; [apply (notify_one W entries _ s q qs i rs ws _ 0 Hp E); [lia|exact (pd_queue _ _ _ _ _ _ _ Hp)]|].
  split; [exact Hok'|]. split; [exact Hprog|]. split; [exact Hc'|]. split; [intros j Hj; apply Hv'; cbn in *; lia|]. auto.
Qed.

(** C6 What is written is read: after a write request for some sectors, a read request for the same sectors, put into the
    queue of the device in whatever way and memory, hands the driver exactly the bytes it wrote. *)
Theorem block_roundtrip {B : Type} {BD : BlockDevice B} {BL : BlockLaws BD} {H : VirtioHost} base size host entries
    (s : VS (VIRTIOBlockDevice B)) q qs i rs ws hdr data n sec :
  ram_window base size host -> pending (base := base) (size := size) (host := host) entries s q qs i rs ws ->
  req_in_progress (kind s) = false -> blk_ok (bs (kind s)) ->
  gather (base := base) (host := host) (vmem s) rs = hdr ++ data -> block_header hdr VIRTIO_BLK_T_OUT sec -> zlen data = n * SECTOR_SIZE -> 0 <= n ->
  sec + n <= get_sector_count (bs (kind s)) -> 1 <= buf_total ws ->
  exists s1, queue_notify virtio_block_recv_request q s = Done (tt, s1) /\
    forall s2 q2 qs2 i2 rs2 ws2 hdr2 rest2, kind s2 = kind s1 -> pending (base := base) (size := size) (host := host) entries s2 q2 qs2 i2 rs2 ws2 ->
      gather (base := base) (host := host) (vmem s2) rs2 = hdr2 ++ rest2 -> block_header hdr2 VIRTIO_BLK_T_IN sec -> buf_total ws2 = n * SECTOR_SIZE + 1 ->
      exists s3, queue_notify virtio_block_recv_request q2 s2 = Done (tt, s3) /\
        gather (base := base) (host := host) (vmem s3) ws2 = data ++ [VIRTIO_BLK_S_OK].
Proof.
  intros W Hp Hprog Hok Hg Hh Hd Hn He Hws.
  destruct (write_recv W entries s q qs i rs ws hdr data n sec Hp Hprog Hok Hg Hh Hd Hn He Hws) as (b' & r & E & Hok' & Hc' & Hv').
  eexists. split; [apply (notify_one W entries _ s q qs i rs ws _ 0 Hp E); [lia|exact (pd_queue _ _ _ _ _ _ _ Hp)]|].
  intros s2 q2 qs2 i2 rs2 ws2 hdr2 rest2 Ek Hp2 Hg2 Hh2 Hws2. cbn [kind taken after_reply upd upd_dev upd_vmem upd_calls upd_kind] in Ek.
  assert (bs (kind s2) = b') as Eb by (rewrite Ek; reflexivity).
  assert (h_sector_num hdr = sec) as Hsec by apply Hh. pose proof (get_le64_nonneg (drop 8 hdr)) as Hs0. fold (h_sector_num hdr) in Hs0. rewrite Hsec in Hs0.
  destruct (read_recv W entries s2 q2 qs2 i2 rs2 ws2 hdr2 rest2 n sec Hp2) as (Hby & Hz & b2 & r2 & E2 & _); auto;
    [rewrite Ek; exact Hprog|rewrite Eb; exact Hok'|rewrite Eb, Hc'; exact He|].
  assert (n = Z.of_nat (Z.to_nat n)) as En by lia.
  assert (sectors (blk_view (bs (kind s2))) sec n = data) as Ed.
  { rewrite Eb, En. rewrite (sectors_ext _ (write_view (blk_view (bs (kind s))) sec data)) by (intros; apply Hv'; lia).
    apply sectors_written; [rewrite <- En; exact Hd|lia|rewrite Hd, Z.div_mul by discriminate; lia|]. rewrite Z.sub_diag. apply slice_all. lia. }
  rewrite Ed in *. eexists. split; [apply (notify_one W entries _ s2 q2 qs2 i2 rs2 ws2 _ 0 Hp2 E2); [lia|exact (pd_queue _ _ _ _ _ _ _ Hp2)]|].
  assert (is_bytes (data ++ [VIRTIO_BLK_S_OK])) as Hb by (apply Forall_app; split; [exact Hby|repeat constructor; discriminate]).
  assert (zlen (data ++ [VIRTIO_BLK_S_OK]) = buf_total ws2) as El by (rewrite zlen_app, Hz, Hws2; reflexivity).
  destruct (completed_reply entries s2 (served_kind s2 b2 r2) q2 qs2 i2 rs2 ws2 (zlen data + 1) (data ++ [VIRTIO_BLK_S_OK]) Hp2 Hb) as [_ Hgw]; [lia|].
  rewrite splice_all in Hgw by (rewrite zlen_gather; exact El). exact Hgw.
Qed.

(** ** Instances *)

#[local] Existing Instance demo_host.

Definition header_bytes (type sec : Z) : list Z := put_le32 (replicate 4 0) type ++ replicate 4 0 ++ put_le64 (replicate 8 0) sec.

(** Entry 0 is made available; its chain has a header, a data buffer and a status byte. *)
Definition demo_mem (hdr data : list Z) (flags : Z) : hostmem :=
  let m := st_bytes ∅ 0x100000 (desc_bytes 0x80003000 16 1 1 ++ desc_bytes 0x80004000 512 (1 + flags) 2 ++ desc_bytes 0x80005000 1 2 0) in
  let m := st_bytes m 0x101000 [0; 0; 1; 0; 0; 0] in
  let m := st_bytes m 0x103000 hdr in
  st_bytes m 0x104000 data.

Definition demo_data : list Z := map (fun i => i mod 251) (seqZ 0 512).
Definition write_mem : hostmem := demo_mem (header_bytes 1 1) demo_data 0.
Definition read_mem : hostmem := demo_mem (header_bytes 0 1) (replicate 512 0) 2.

Definition demo_image : BlockDeviceFile := mkBlockDeviceFile (Some (mkFile (replicate 1024 85) 1024)) 2 BF_MODE_SNAPSHOT [None; None].
Definition write_state : VS (VIRTIOBlockDevice BlockDeviceFile) :=
  mkVS demo_vdev write_mem (mkVIRTIOBlockDevice demo_image false (mkBlockRequest 0 [] 0 0 0)) [].
Definition read_state (k : VIRTIOBlockDevice BlockDeviceFile) : VS (VIRTIOBlockDevice BlockDeviceFile) := mkVS demo_vdev read_mem k [].

Definition demo_hdr_desc := desc_bytes 0x80003000 16 1 1.
Definition demo_status_desc := desc_bytes 0x80005000 1 2 0.

Lemma demo_image_ok : bf_ok demo_image.
Proof.
  apply (block_device_init_ok (replicate 1024 85) BF_MODE_SNAPSHOT demo_image); [reflexivity| |discriminate|reflexivity].
  apply Forall_replicate. split; [discriminate|reflexivity].
Qed.

Lemma demo_mem_wf hdr data flags : is_bytes hdr -> is_bytes data -> flags = 0 \/ flags = 2 -> hostmem_wf (demo_mem hdr data flags).
Proof.
  intros Hh Hd Hf. unfold demo_mem. apply st_bytes_wf, Hd. apply st_bytes_wf, Hh. apply st_bytes_wf; [|apply is_bytes_b; reflexivity].
  apply st_bytes_wf; [|apply is_bytes_b; destruct Hf as [-> | ->]; reflexivity].
  intros p v Hp. rewrite lookup_empty in Hp. discriminate.
Qed.

Ltac demo_chain := eexists _, _; split; [reflexivity|]; split; [vm_compute; reflexivity|]; vm_compute; repeat split.

Lemma write_pending : pending (base := 0x80000000) (size := 0x10000) (host := 0x100000) 16 write_state 0 demo_queue 0
  [demo_hdr_desc; desc_bytes 0x80004000 512 1 2] [demo_status_desc].
Proof.
  apply demo_pending.
  - reflexivity.
  - apply demo_mem_wf; [apply is_bytes_b; vm_compute; reflexivity|apply is_bytes_b; vm_compute; reflexivity|auto].
  - vm_compute; reflexivity.
  - vm_compute; reflexivity.
  - reflexivity.
  - demo_chain.
  - repeat constructor.
  - repeat constructor.
  - repeat (constructor; [zfacts|]); constructor.
  - repeat constructor.
  - vm_compute; reflexivity.
  - vm_compute; reflexivity.
Qed.

Lemma read_pending k : pending (base := 0x80000000) (size := 0x10000) (host := 0x100000) 16 (read_state k) 0 demo_queue 0
  [demo_hdr_desc] [desc_bytes 0x80004000 512 3 2; demo_status_desc].
Proof.
  apply demo_pending.
  - reflexivity.
  - apply demo_mem_wf; [apply is_bytes_b; vm_compute; reflexivity|apply is_bytes_b; vm_compute; reflexivity|auto].
  - vm_compute; reflexivity.
  - vm_compute; reflexivity.
  - reflexivity.
  - demo_chain.
  - repeat constructor.
  - repeat constructor.
  - repeat (constructor; [zfacts|]); constructor.
  - split; [|repeat constructor]. constructor; [|constructor]. left. zfact.
  - vm_compute; reflexivity.
  - vm_compute; reflexivity.
Qed.

Lemma write_gather : gather (base := 0x80000000) (host := 0x100000) (vmem write_state) [demo_hdr_desc; desc_bytes 0x80004000 512 1 2] = header_bytes 1 1 ++ demo_data.
Proof. vm_compute. reflexivity. Qed.
Lemma read_gather : gather (base := 0x80000000) (host := 0x100000) read_mem [demo_hdr_desc] = header_bytes 0 1 ++ [].
Proof. vm_compute. reflexivity. Qed.
Lemma header_ok type : type = 0 \/ type = 1 -> block_header (header_bytes type 1) type 1.
Proof. intros [-> | ->]; split; [|split| |split]; reflexivity. Qed.

Lemma block_write_served_witness : exists s', queue_notify virtio_block_recv_request 0 write_state = Done (tt, s') /\
  bf_view (bs (kind s')) 1 = slice demo_data 0 512 /\ used_index (base := 0x80000000) (host := 0x100000) (vmem s') demo_queue = 1 /\ calls s' = [SetIrq true].
Proof.
  destruct (block_write_served (BL := bf_laws) 0x80000000 0x10000 0x100000 16 write_state 0 demo_queue 0 [demo_hdr_desc; desc_bytes 0x80004000 512 1 2] [demo_status_desc]
    (header_bytes 1 1) demo_data 1 1 demo_window write_pending eq_refl demo_image_ok write_gather (header_ok 1 (or_intror eq_refl)) eq_refl ltac:(lia) ltac:(discriminate) ltac:(discriminate))
    as (s' & E & _ & _ & _ & Hv & _ & Hc).
  exists s'. split; [exact E|]. split; [|split].
  - rewrite Hv by (split; [discriminate|reflexivity]). reflexivity.
  - rewrite (cp_index _ _ _ _ _ _ _ Hc). vm_compute. reflexivity.
  - rewrite (cp_irq _ _ _ _ _ _ _ Hc). reflexivity.
Defined.

Lemma block_read_served_witness : exists s', queue_notify virtio_block_recv_request 0 (read_state (kind write_state)) = Done (tt, s') /\
  gather (base := 0x80000000) (host := 0x100000) (vmem s') [desc_bytes 0x80004000 512 3 2; demo_status_desc] = sectors (bf_view demo_image) 1 1 ++ [0].
Proof.
  destruct (block_read_served (BL := bf_laws) 0x80000000 0x10000 0x100000 16 (read_state (kind write_state)) 0 demo_queue 0 [demo_hdr_desc] [desc_bytes 0x80004000 512 3 2; demo_status_desc]
    (header_bytes 0 1) [] 1 1 demo_window (read_pending _) eq_refl demo_image_ok read_gather (header_ok 0 (or_introl eq_refl)) eq_refl ltac:(lia) ltac:(discriminate))
    as (s' & E & _ & _ & _ & _ & Hg & _).
  exists s'. split; [exact E|exact Hg].
Defined.

Lemma block_roundtrip_witness : exists s1, queue_notify virtio_block_recv_request 0 write_state = Done (tt, s1) /\
  exists s3, queue_notify virtio_block_recv_request 0 (read_state (kind s1)) = Done (tt, s3) /\
    gather (base := 0x80000000) (host := 0x100000) (vmem s3) [desc_bytes 0x80004000 512 3 2; demo_status_desc] = demo_data ++ [0].
Proof.
  destruct (block_roundtrip (BL := bf_laws) 0x80000000 0x10000 0x100000 16 write_state 0 demo_queue 0 [demo_hdr_desc; desc_bytes 0x80004000 512 1 2] [demo_status_desc]
    (header_bytes 1 1) demo_data 1 1 demo_window write_pending eq_refl demo_image_ok write_gather (header_ok 1 (or_intror eq_refl)) eq_refl ltac:(lia) ltac:(discriminate) ltac:(discriminate))
    as (s1 & E & Hr).
  exists s1. split; [exact E|].
  exact (Hr (read_state (kind s1)) 0 demo_queue 0 [demo_hdr_desc] [desc_bytes 0x80004000 512 3 2; demo_status_desc] (header_bytes 0 1) [] eq_refl
    (read_pending _) read_gather (header_ok 0 (or_introl eq_refl)) eq_refl).
Defined.
