(* ===== verification/QueueSpec.v ===== *)
(** * Virtio: the queue operations against their buffers

    What a device class may rely on when it reads and writes the buffers of a
    request, and what happens on the chains a driver must not build. *)

From S2P Require Import Prelude Cutils Iomem Hostmem Bytes Virtio VirtioDevs VirtioQueue VirtioSpec VirtioRequest BlockFile BlockSpec.
From stdpp Require Import base list gmap.
From Stdlib Require Import ZArith Lia Bool.
Local Open Scope Z_scope.
Local Open Scope bits_scope.
Local Open Scope list_scope.

(** What a copy of [count] bytes at [offset] of the buffers [bs] reports: -1 if they do not reach that far. *)
Definition copy_status (offset count : Z) (bs : list (list Z)) : Z := if offset + count <=? buf_total bs then 0 else -1.

Lemma copy_ret_status offset count bs : 0 < count -> copy_ret count (buf_total bs - offset) = copy_status offset count bs.
Proof.
  intros Hc. unfold copy_ret, copied, copy_status. destruct (Z.eqb_spec count 0); [lia|].
  destruct (Z.leb_spec count (buf_total bs - offset)), (Z.leb_spec (offset + count) (buf_total bs)); lia || reflexivity.
Qed.

(** C12 The queue operations implement the buffers of a request: the sizes are the total lengths; copying from the queue
    returns the slice of the concatenated readable buffers and changes nothing; copying to the queue stores the bytes (elements of type [uint8_t]) into
    the concatenation of the writable buffers and changes no other byte of memory; each fails (-1) exactly when the slice does not fit. *)
Theorem queue_transfers {K : Type} {H : VirtioHost} base size host entries q qs i rs ws (s : VS K) :
  ram_window base size host -> 0 <= q -> queue (dev s) !! Z.to_nat q = Some qs -> table_ok (base := base) (size := size) entries qs ->
  request (base := base) (size := size) (host := host) entries qs (vmem s) i rs ws ->
  get_desc_rw_size q i s = Done (Some (buf_total rs, buf_total ws), s) /\
  (forall buf offset count, 0 <= offset < 2 ^ 31 -> 0 < count < 2 ^ 31 -> count <= zlen buf ->
     memcpy_from_queue buf q i offset count s =
       Done ((copy_status offset count rs,
              splice buf 0 (slice (gather (base := base) (host := host) (vmem s) rs) offset count)), s)) /\
  (forall buf offset count, 0 <= offset < 2 ^ 31 -> 0 < count < 2 ^ 31 -> count <= zlen buf ->
     exists m', memcpy_to_queue q i offset buf count s = Done (copy_status offset count ws, s <| vmem := m' |>) /\
       (offset + count <= buf_total ws ->
        gather (base := base) (host := host) m' ws = splice (gather (base := base) (host := host) (vmem s) ws) offset (take (Z.to_nat count) (map u8 buf))) /\
       forall p, Forall (outside (base := base) (host := host) p) ws -> ld8 m' p = ld8 (vmem s) p).
Proof.
  intros W Hq Hs Ht Hr.
  split; [exact (get_desc_rw_size_run W entries q qs Hq Ht i rs ws s Hs Hr)|]. split.
  - intros buf offset count Ho Hc Hb. rewrite (memcpy_from_queue_run W entries q qs Hq Ht i rs ws) by (auto; lia). rewrite copy_ret_status by lia. reflexivity.
  - intros buf offset count Ho Hc Hb. rewrite (memcpy_to_queue_run W entries q qs Hq Ht i rs ws) by (auto; lia). rewrite copy_ret_status by lia.
    eexists. split; [reflexivity|]. split.
    + intros Hf. rewrite gather_scatter by (rewrite ?zlen_slice by (rewrite ?zlen_map_u8; lia); try lia; exact (rq_separated _ _ _ _ _ _ Hr)). reflexivity.
    + intros p Hp. apply scatter_outside; [lia|exact Hp].
Qed.

(** ** Chains that do not end *)

(** A readable descriptor [d] at index [i] that is its own successor. *)
Definition self_linked (d : list Z) (i : Z) : Prop := d_next d = i /\ has_next d = true /\ is_write d = false.

(** A descriptor that is its own successor keeps the walk over the chain busy for ever, whatever its length. *)
Lemma self_loop_sizes {K : Type} {H : VirtioHost} base size host entries q qs d (s : VS K) : ram_window base size host -> 0 <= q ->
  queue (dev s) !! Z.to_nat q = Some qs -> table_ok (base := base) (size := size) entries qs -> zlen d = 16 ->
  d_next d < entries -> desc_at (base := base) (host := host) (vmem s) qs (d_next d) = d -> has_next d = true -> is_write d = false ->
  forall n r, read_sizes n d q r s = Stop Endless.
Proof.
  intros W Hq Hs Ht Hd Hn Hself Hnext Hw. induction n as [|n IH]; intros r; cbn [read_sizes]; rewrite Hw, Hnext; cbn [negb]; [reflexivity|].
  cbv zeta. unfold next_desc. pose proof (d_next_range d) as []. rewrite run_bind, (load_desc_run W entries q qs Hq Ht) by (auto; lia). rewrite Hself. apply IH.
Qed.

(** C32 The device trusts the driver's chains: when the available chain starts with a descriptor that designates itself as
    its successor, the walk that sums the lengths of the chain is not over after any number of turns, so that the
    notification never returns, whatever device it is for. *)
Theorem cyclic_chain_diverges {K : Type} {H : VirtioHost} base size host entries recv q qs i (s : VS K) :
  ram_window base size host -> 0 <= q -> queue (dev s) !! Z.to_nat q = Some qs -> table_ok (base := base) (size := size) entries qs ->
  manual_recv qs = false -> (exists a, avail_index qs s = Done (a, s) /\ a <> last_avail_idx qs) -> virtio_read16 (avail_slot qs) s = Done (i, s) ->
  0 <= i < entries -> let d := desc_at (base := base) (host := host) (vmem s) qs i in self_linked d i ->
  (forall n read_size, read_sizes n d q read_size s = Stop Endless) /\ queue_notify recv q s = Stop Endless.
Proof.
  intros W Hq Hs Ht Hm (a & Ea & Hne) Ei Hi d (Hd & Hn & Hw).
  assert (forall n read_size, read_sizes n d q read_size s = Stop Endless) as Hloop
    by (apply (self_loop_sizes base size host entries q qs d); auto; [lia|rewrite Hd; reflexivity]).
  split; [exact Hloop|]. unfold queue_notify. rewrite run_bind, (get_queue_run q qs), Hm, run_bind, Ea by auto.
  replace (Z.to_nat 65536) with (S (Z.to_nat 65535)) by lia. cbn [notify_loop]. rewrite run_bind, (get_queue_run q qs) by auto.
  destruct (Z.eqb_spec (last_avail_idx qs) a); [congruence|]. rewrite run_bind, Ei, run_bind. unfold get_desc_rw_size.
  rewrite run_bind, (load_desc_run W entries q qs Hq Ht) by (auto; apply zlen_uninit; lia). fold d.
  rewrite Hloop. reflexivity.
Qed.

(** ** Instances *)

#[local] Existing Instance demo_host.

(** On the demonstration request: the sizes are those of the driver's buffers, the header is read back, and the status byte
    is written where the driver expects it. *)
Lemma queue_transfers_witness :
  get_desc_rw_size 0 0 write_state = Done (Some (528, 1), write_state) /\
  memcpy_from_queue (replicate 16 0) 0 0 0 16 write_state = Done ((0, header_bytes 1 1), write_state) /\
  exists m', memcpy_to_queue 0 0 0 [7] 1 write_state = Done (0, write_state <| vmem := m' |>) /\
    gather (base := 0x80000000) (host := 0x100000) m' [demo_status_desc] = [7].
Proof.
  destruct (queue_transfers 0x80000000 0x10000 0x100000 16 0 demo_queue 0 [demo_hdr_desc; desc_bytes 0x80004000 512 1 2] [demo_status_desc] write_state
    demo_window ltac:(lia) eq_refl (pd_table _ _ _ _ _ _ _ write_pending) (pd_request _ _ _ _ _ _ _ write_pending)) as (E1 & E2 & E3).
  split; [rewrite E1; reflexivity|]. split.
  - rewrite E2; [|split; [lia|reflexivity]|split; reflexivity|discriminate]. vm_compute. reflexivity.
  - destruct (E3 [7] 0 1) as (m' & E & Hg & _); [lia|lia|discriminate|]. exists m'. split; [exact E|]. rewrite Hg by discriminate. vm_compute. reflexivity.
Defined.

(** Entry 0 of the table names itself as its successor. *)
Definition loop_state : VS (VIRTIOBlockDevice BlockDeviceFile) :=
  write_state <| vmem := st_bytes (vmem write_state) 0x100000 (desc_bytes 0x80003000 16 1 0) |>.

Lemma cyclic_chain_diverges_witness : queue_notify virtio_block_recv_request 0 loop_state = Stop Endless.
Proof.
  apply (cyclic_chain_diverges 0x80000000 0x10000 0x100000 16 virtio_block_recv_request 0 demo_queue 0 loop_state demo_window).
  - lia.
  - reflexivity.
  - exact (pd_table _ _ _ _ _ _ _ write_pending).
  - reflexivity.
  - exists 1. split; [reflexivity|discriminate].
  - reflexivity.
  - lia.
  - repeat split; reflexivity.
Defined.
