(* ===== verification/P9Spec.v ===== *)
(** * What the 9p device does

    The table of file identifiers is a finite map whose files are released
    exactly once; a request that was marshalled is unmarshalled to the same
    values; every request is answered with exactly one message that carries
    its tag. *)

From S2P Require Import Prelude Cutils Iomem Hostmem Bytes Virtio VirtioDevs VirtioQueue VirtioSpec VirtioRequest P9.
From stdpp Require Import base list gmap.
From Stdlib Require Import ZArith Lia Bool String Ascii.
Local Open Scope Z_scope.
Local Open Scope bits_scope.
Local Open Scope list_scope.

(** ** File identifiers *)

Section Fids.
Context {D F : Type} {FS : FSDevice D F} {H : VirtioHost}.
Implicit Types (l : list (Z * F)) (s : VS (VIRTIO9PDevice D F)).

Definition fid_map l : gmap Z F := list_to_map l.

Lemma fid_find1_map l fid : fid_find1 l fid = fid_map l !! fid.
Proof.
  induction l as [|[i f] l IH]; [symmetry; apply lookup_empty|]. cbn [fid_find1]. unfold fid_map. rewrite list_to_map_cons, IH.
  destruct (Z.eqb_spec i fid) as [->|Hne]; [symmetry; apply lookup_insert_eq|symmetry; apply lookup_insert_ne, Hne].
Qed.

Lemma fid_remove_map l fid : NoDup l.*1 -> fid_map (fid_remove l fid) = delete fid (fid_map l).
Proof.
  induction l as [|[i f] l IH]; intros Hn; [symmetry; apply delete_empty|]. cbn [fid_remove]. inversion_clear Hn as [|? ? Hi Hn']. unfold fid_map in *.
  rewrite list_to_map_cons. destruct (Z.eqb_spec i fid) as [->|Hne].
  - symmetry. apply delete_insert_id, not_elem_of_list_to_map_1, Hi.
  - rewrite list_to_map_cons, IH by exact Hn'. symmetry. apply delete_insert_ne. congruence.
Qed.

Lemma fid_remove_in l fid i : i ∈ (fid_remove l fid).*1 -> i ∈ l.*1.
Proof.
  induction l as [|[j f] l IH]; cbn [fid_remove]; [auto|]. destruct (j =? fid); rewrite !fmap_cons; [intros; right; assumption|].
  rewrite !elem_of_cons. intros [->|Hin]; auto.
Qed.
Lemma fid_remove_nodup l fid : NoDup l.*1 -> NoDup (fid_remove l fid).*1.
Proof.
  induction l as [|[i f] l IH]; intros Hn; cbn [fid_remove]; [constructor|]. inversion_clear Hn as [|? ? Hi Hn']. destruct (i =? fid); [exact Hn'|].
  constructor; [|apply IH, Hn']. intros Hin. apply Hi. exact (fid_remove_in l fid _ Hin).
Qed.

Lemma fid_replace_map l fid fd : is_Some (fid_map l !! fid) -> fid_map (fid_replace l fid fd) = <[fid := fd]> (fid_map l).
Proof.
  induction l as [|[i f] l IH]; intros Hs; [destruct Hs as [f Hs]; discriminate Hs|]. unfold fid_map in *. cbn [fid_replace].
  destruct (Z.eqb_spec i fid) as [->|Hne]; rewrite !list_to_map_cons.
  - symmetry. apply insert_insert_eq.
  - rewrite list_to_map_cons in Hs. rewrite lookup_insert_ne in Hs by exact Hne. rewrite IH by exact Hs. apply insert_insert_ne. exact Hne.
Qed.
Lemma fid_replace_fids l fid fd : (fid_replace l fid fd).*1 = l.*1.
Proof. induction l as [|[i f] l IH]; [reflexivity|]. cbn [fid_replace]. destruct (i =? fid); [reflexivity|]. cbn. f_equal. exact IH. Qed.

(** The files of the client: no identifier occurs twice. *)
Definition fids_ok s : Prop := NoDup (fid_list (kind s)).*1.
Definition fids s : gmap Z F := fid_map (fid_list (kind s)).

(** What leaves the table is released. *)
Definition release (f : option F) (d : D) : D := match f with Some f => fs_delete f d | None => d end.

End Fids.

(** C16 The table of file identifiers is a map: a lookup finds the file last set; setting an identifier inserts it and
    clunking it deletes it, and in both cases exactly the file that leaves the table, if there is one, is released. *)
Theorem fid_table {D F : Type} {FS : FSDevice D F} {H : VirtioHost} (s : VS (VIRTIO9PDevice D F)) fid fd : fids_ok s ->
  fid_find fid s = Done (fids s !! fid, s) /\
  (exists s', fid_set fid fd s = Done (tt, s') /\ fids s' = <[fid := fd]> (fids s) /\ fids_ok s' /\ fs (kind s') = release (fids s !! fid) (fs (kind s))) /\
  (exists s', fid_delete fid s = Done (tt, s') /\ fids s' = delete fid (fids s) /\ fids_ok s' /\ fs (kind s') = release (fids s !! fid) (fs (kind s))).
Proof.
  intros Hn. unfold fid_set, fid_delete, fid_find. split; [rewrite run_gets, fid_find1_map; reflexivity|].
  split; rewrite !run_assoc, run_gets, run_bind_ret, fid_find1_map; fold (fids s); destruct (fids s !! fid) as [f|] eqn:E;
    eexists; (split; [reflexivity|]); unfold fids, fids_ok in *; cbn -[fid_map fid_remove fid_replace] in *.
  - rewrite fid_replace_map, fid_replace_fids by (rewrite E; eauto). auto.
  - split; [reflexivity|]. split; [|reflexivity]. constructor; [|exact Hn]. apply not_elem_of_list_to_map_2. exact E.
  - rewrite fid_remove_map by exact Hn. split; [reflexivity|]. split; [apply fid_remove_nodup, Hn|reflexivity].
  - rewrite delete_id by exact E. auto.
Qed.

(** ** Marshalling *)

Lemma get_put16 v r : in_u 16 v -> get_le16 (put_le16 (replicate 2 0) v ++ r) = v.
Proof.
  intros Hv. apply (bits_inj_u 16); [lia|apply get_le16_range|exact Hv|]. intros i Hi.
  change (get_le16 (put_le16 (replicate 2 0) v ++ r)) with (u16 (u8 v |' (u8 (v >>' 8) <<' 8))). bits_at i 16%nat.
Qed.
Lemma get_put32 v r : in_u 32 v -> get_le32 (put_le32 (replicate 4 0) v ++ r) = v.
Proof.
  intros Hv. apply (bits_inj_u 32); [lia|apply get_le32_range|exact Hv|]. intros i Hi.
  change (get_le32 (put_le32 (replicate 4 0) v ++ r))
    with (u32 (u8 v |' (u8 (v >>' 8) <<' 8) |' (u8 (v >>' 16) <<' 16) |' (u8 (v >>' 24) <<' 24))). bits_at i 32%nat.
Qed.
Lemma get_put64 v r : in_u 64 v -> get_le64 (put_le64 (replicate 8 0) v ++ r) = v.
Proof.
  intros Hv. change (put_le64 (replicate 8 0) v ++ r) with (put_le32 (replicate 4 0) (u32 v) ++ put_le32 (replicate 4 0) (u32 (v >>' 32)) ++ r).
  unfold get_le64. rewrite get_put32 by (apply wrapu_range; lia).
  change (drop 4 (put_le32 (replicate 4 0) (u32 v) ++ put_le32 (replicate 4 0) (u32 (v >>' 32)) ++ r)) with (put_le32 (replicate 4 0) (u32 (v >>' 32)) ++ r).
  rewrite get_put32 by (apply wrapu_range; lia). apply (bits_inj_u 64); [lia| |exact Hv|].
  - apply lor_range; [lia|apply (in_u_mono 32); [lia|apply wrapu_range; lia]|apply wrapu_range; lia].
  - intros i Hi. bits_at i 64%nat.
Qed.

(** The values a format letter stands for. *)
Definition fits (c : ascii) (v : Val) : Prop :=
  match c, v with
  | "b"%char, Num v => in_u 8 v
  | "h"%char, Num v => in_u 16 v
  | "w"%char, Num v => in_u 32 v
  | "d"%char, Num v => in_u 64 v
  | "s"%char, Str s => cstring s
  | _, _ => False
  end.

Lemma fits_cases c v : fits c v ->
  (exists x, v = Num x /\ ((c = "b"%char /\ in_u 8 x) \/ (c = "h"%char /\ in_u 16 x) \/ (c = "w"%char /\ in_u 32 x) \/ (c = "d"%char /\ in_u 64 x))) \/
  (exists x, v = Str x /\ c = "s"%char /\ cstring x).
Proof.
  destruct c as [[] [] [] [] [] [] [] []]; destruct v as [x|x|x]; cbn; intros Hf; try contradiction;
    first [right; exists x; auto; fail | left; exists x; auto 6].
Qed.

Section Unmarshall.
Context {D F : Type} {FS : FSDevice D F} {H : VirtioHost} {base size host : Z} (W : ram_window base size host) (entries q : Z) (qs : QueueState).
Context (Hq : 0 <= q) (Ht : table_ok (base := base) (size := size) entries qs).
Implicit Types s : VS (VIRTIO9PDevice D F).
Abbreviation gather := (gather (base := base) (host := host)).
Abbreviation request := (request (base := base) (size := size) (host := host) entries qs).

Lemma splice_front buf data : zlen data <= zlen buf -> exists r, splice buf 0 data = data ++ r /\ zlen r = zlen buf - zlen data.
Proof. intros Hl. exists (drop (List.length data) buf). split; [reflexivity|]. unfold zlen in *. rewrite length_drop. lia. Qed.

Lemma fetch_run i rs ws buf offset n s : queue (dev s) !! Z.to_nat q = Some qs -> request (vmem s) i rs ws -> 0 <= offset -> 0 <= n ->
  offset + n <= buf_total rs -> n <= zlen buf ->
  exists r, fetch buf q i offset n s = Done (Some (slice (gather (vmem s) rs) offset n ++ r, offset + n), s) /\ zlen r = zlen buf - n.
Proof.
  intros Hs Hr Ho Hn Hl Hb. pose proof (rq_total _ _ _ _ _ _ Hr) as [Htr _]. unfold fetch.
  rewrite run_bind, (memcpy_from_queue_run W entries q qs Hq Ht i rs ws) by (auto; lia).
  assert (zlen (slice (gather (vmem s) rs) offset n) = n) as Ez by (apply zlen_slice; rewrite ?zlen_gather; lia).
  destruct (splice_front buf (slice (gather (vmem s) rs) offset n)) as (r & -> & Er); [lia|]. exists r. split; [|lia].
  unfold copy_ret. destruct (Z.eqb_spec n 0) as [->|]; [|rewrite copied_le by lia]; cbn [Z.eqb negb]; rewrite run_bind, int_op_run by lia; reflexivity.
Qed.

(** One value. *)
Lemma unmarshall1_run c v room bytes i rs ws offset s : queue (dev s) !! Z.to_nat q = Some qs -> request (vmem s) i rs ws -> 0 <= offset -> fits c v ->
  marshall1 c v room = Done bytes -> offset + zlen bytes <= buf_total rs -> slice (gather (vmem s) rs) offset (zlen bytes) = bytes ->
  unmarshall1 c q i offset s = Done (Some (v, offset + zlen bytes), s).
Proof.
  intros Hs Hr Ho Hf Hm Hl Hsl. assert (0 <= 16) as H16 by lia. pose proof (zlen_nonneg bytes) as Hz.
  assert (forall n (get : list Z -> Z) l w, marshall1 c v room = (_ ← assert_c (zlen l <=? room); Done l) -> zlen l = n -> n <= 16 -> (forall r, get (l ++ r) = w) ->
    (r ← fetch (uninit 16) q i offset n; mret (match r with Some (buf, offset) => Some (Num (get buf), offset) | None => None end)) s =
    Done (Some (Num w, offset + zlen bytes), s)) as Hnum.
  { intros n get l w Em En Hn Hg. rewrite Em in Hm. destruct (zlen l <=? room); [|discriminate]. injection Hm as <-. rewrite En in *.
    destruct (fetch_run i rs ws (uninit 16) offset n s Hs Hr Ho) as (r & E & _); [lia|lia|rewrite zlen_uninit; lia|].
    rewrite run_bind, E, Hsl, Hg. reflexivity. }
  apply fits_cases in Hf as [(x & -> & [[-> Hx]|[[-> Hx]|[[-> Hx]|[-> Hx]]]])|(x & -> & -> & Hx)]; cbn [unmarshall1]; cbv zeta.
  - apply (Hnum 1 (fun b => aget b 0) [u8 x]); try reflexivity; [lia|]. intros r. exact (wrapu_small 8 x Hx).
  - apply (Hnum 2 get_le16 (put_le16 (replicate 2 0) (u32 x))); try reflexivity; [lia|]. intros r.
    rewrite u32_id by exact (in_u_mono 16 32 x ltac:(lia) Hx). apply get_put16, Hx.
  - apply (Hnum 4 get_le32 (put_le32 (replicate 4 0) (u32 x))); try reflexivity; [lia|]. intros r. rewrite u32_id by exact Hx. apply get_put32, Hx.
  - apply (Hnum 8 get_le64 (put_le64 (replicate 8 0) (u64 x))); try reflexivity; [lia|]. intros r. rewrite u64_id by exact Hx. apply get_put64, Hx.
  - cbn [marshall1] in Hm. cbv zeta in Hm. rewrite cstr_id in Hm by exact Hx. destruct (Z.leb_spec (zlen x) 65535); [|discriminate]. cbn [assert_c mbind res_bind] in Hm.
    destruct (_ <=? room); [|discriminate]. assert (bytes = put_le16 (replicate 2 0) (zlen x) ++ x) as -> by (inversion Hm; reflexivity). set (h := put_le16 (replicate 2 0) (zlen x)) in *.
    assert (zlen h = 2) as Eh by reflexivity. rewrite zlen_app, Eh in Hl, Hsl |- *. pose proof (zlen_nonneg x) as Hx0.
    rewrite slice_split in Hsl by lia. apply app_inj_1 in Hsl as [Hs1 Hs2]; [|apply Nat2Z.inj; fold (zlen (slice (gather (vmem s) rs) offset 2)); rewrite zlen_slice by (rewrite ?zlen_gather; lia); reflexivity].
    destruct (fetch_run i rs ws (uninit 16) offset 2 s Hs Hr Ho) as (r & E & _); [lia|lia|rewrite zlen_uninit; lia|].
    rewrite run_bind, E, Hs1. unfold h. rewrite get_put16 by (split; [lia|change (2 ^ 16) with 65536; lia]).
    destruct (fetch_run i rs ws (uninit (zlen x + 1)) (offset + 2) (zlen x) s Hs Hr) as (r2 & E2 & Er2); [lia|lia|lia|rewrite zlen_uninit; lia|].
    rewrite zlen_uninit in Er2 by lia. rewrite run_bind, E2, Hs2. destruct r2 as [|c [|c' r2]]; unfold zlen in Er2; cbn [List.length] in Er2; try lia.
    unfold aset, zlen. rewrite Nat2Z.id, insert_app_r_alt, Nat.sub_diag by lia. cbn [insert list_insert]. rewrite cstr_app by exact Hx.
    unfold mret, SM_ret. do 4 f_equal. unfold zlen. lia.
Qed.

(** A whole message. *)
Lemma unmarshall_run f : forall vals room bytes i rs ws offset s, queue (dev s) !! Z.to_nat q = Some qs -> request (vmem s) i rs ws -> 0 <= offset -> Forall2 fits f vals ->
  marshall room f vals = Done bytes -> offset + zlen bytes <= buf_total rs -> slice (gather (vmem s) rs) offset (zlen bytes) = bytes ->
  unmarshall q i offset f s = Done (Some (vals, offset + zlen bytes), s).
Proof.
  induction f as [|c f IH]; intros vals room bytes i rs ws offset s Hs Hr Ho Hf Hm Hl Hsl; inversion Hf as [|? v ? vals' Hv Hf']; subst.
  - injection Hm as <-. change (zlen []) with 0. rewrite Z.add_0_r. reflexivity.
  - cbn [marshall] in Hm. destruct (marshall1 c v room) as [l|] eqn:E1; [|discriminate]. cbn [mbind res_bind] in Hm.
    destruct (marshall (room - zlen l) f vals') as [rest|] eqn:E2; [|discriminate]. injection Hm as <-. rewrite zlen_app in Hl, Hsl |- *.
    pose proof (zlen_nonneg l). pose proof (zlen_nonneg rest). rewrite slice_split in Hsl by lia.
    apply app_inj_1 in Hsl as [Hs1 Hs2]; [|apply Nat2Z.inj; fold (zlen (slice (gather (vmem s) rs) offset (zlen l))); rewrite zlen_slice by (rewrite ?zlen_gather; lia); reflexivity].
    cbn [unmarshall]. rewrite run_bind, (unmarshall1_run c v room l i rs ws) by (auto; lia).
    rewrite run_bind, (IH vals' (room - zlen l) rest i rs ws) by (auto; lia). unfold mret, SM_ret. do 4 f_equal. lia.
Qed.
End Unmarshall.

(** ** Handlers and the queue

    A handler works on the file system and the table; it only reads the queue. *)

Create HintDb quiet discriminated.

Section Quiet.
Context {D F : Type} {FS : FSDevice D F} {H : VirtioHost}.
Abbreviation VM := (SM (VS (VIRTIO9PDevice D F))).

Definition same_queue (s s' : VS (VIRTIO9PDevice D F)) : Prop :=
  dev s' = dev s /\ vmem s' = vmem s /\ calls s' = calls s /\ (fids_ok s -> fids_ok s').

Definition quiet {A} (m : VM A) : Prop := forall s a s', m s = Done (a, s') -> same_queue s s'.

Lemma same_queue_refl s : same_queue s s.
Proof. repeat split; auto. Qed.
Lemma quiet_ret {A} (a : A) : quiet (mret a).
Proof. intros s x s' [= _ <-]. apply same_queue_refl. Qed.
Lemma quiet_gets {A} (g : VS (VIRTIO9PDevice D F) -> A) : quiet (gets g).
Proof. intros s x s' [= _ <-]. apply same_queue_refl. Qed.
Lemma quiet_stop {A} r : quiet (stop (A := A) r).
Proof. intros s x s'. discriminate. Qed.
Lemma quiet_liftr {A} (r : res A) : quiet (liftr r).
Proof. destruct r; [intros s x s' [= _ <-]; apply same_queue_refl|intros s x s'; discriminate]. Qed.
Lemma quiet_bind {A B} (m : VM A) (f : A -> VM B) : quiet m -> (forall a, quiet (f a)) -> quiet (m ≫= f).
Proof.
  intros Hm Hf s b s' E. apply SM_bind_inv in E as (a & s1 & E1 & E2). destruct (Hm s a s1 E1) as (A1 & A2 & A3 & A4), (Hf a s1 b s' E2) as (B1 & B2 & B3 & B4).
  split; [congruence|]. split; [congruence|]. split; [congruence|auto].
Qed.
Lemma quiet_int_op x : quiet (int_op x).
Proof. unfold int_op. destruct (_ && _); [apply quiet_ret|apply quiet_stop]. Qed.
Lemma quiet_get_queue i : quiet (get_queue i).
Proof. intros s a s'. unfold get_queue. destruct (_ !! _); [destruct (_ <=? _)|]; try discriminate. intros [= _ <-]. apply same_queue_refl. Qed.
Lemma quiet_on_p9 f : (forall k, (fid_list (f k)).*1 = (fid_list k).*1) -> quiet (on_p9 f).
Proof. intros Hf s a s' [= _ <-]. repeat split. unfold fids_ok. cbn. rewrite Hf. auto. Qed.
End Quiet.
#[export] Hint Resolve quiet_ret quiet_gets quiet_stop quiet_liftr quiet_int_op quiet_get_queue : quiet.
#[export] Hint Extern 1 (quiet (on_p9 _)) => apply quiet_on_p9; reflexivity : quiet.

Ltac qstep :=
  match goal with
  | |- quiet (match ?x with _ => _ end) => destruct x
  | |- quiet (_ ≫= _) => apply quiet_bind; [|intros ?]
  | |- quiet _ => solve [auto with quiet]
  end.
Ltac qsteps := cbv zeta; repeat (qstep; cbv zeta).

Section QuietOps.
Context {D F : Type} {FS : FSDevice D F} {H : VirtioHost}.
Abbreviation VM := (SM (VS (VIRTIO9PDevice D F))).

Lemma quiet_from_ram n : forall buf pos addr count, quiet (D := D) (F := F) (from_ram_loop n buf pos addr count).
Proof. induction n; intros; cbn [from_ram_loop]; qsteps. Qed.
Hint Resolve quiet_from_ram : quiet.
Lemma quiet_load_desc d q i : quiet (D := D) (F := F) (load_desc d q i).
Proof. unfold load_desc, get_desc, virtio_memcpy_from_ram. qsteps. Qed.
Lemma quiet_next_desc d q : quiet (D := D) (F := F) (next_desc d q).
Proof. apply quiet_load_desc. Qed.
Hint Resolve quiet_load_desc quiet_next_desc : quiet.
Lemma quiet_find_offset n : forall w d q o, quiet (D := D) (F := F) (find_offset n w d q o).
Proof. induction n; intros; cbn [find_offset]; qsteps. Qed.
Lemma quiet_copy_chain n : forall d q buf pos o c, quiet (D := D) (F := F) (copy_chain n false d q buf pos o c).
Proof. induction n; intros; cbn [copy_chain]; unfold virtio_memcpy_from_ram; qsteps. Qed.
Hint Resolve quiet_find_offset quiet_copy_chain : quiet.
Lemma quiet_memcpy_from_queue buf q i o c : quiet (D := D) (F := F) (memcpy_from_queue buf q i o c).
Proof. unfold memcpy_from_queue, memcpy_to_from_queue. qsteps. Qed.
Hint Resolve quiet_memcpy_from_queue : quiet.
Lemma quiet_fetch buf q i o n : quiet (D := D) (F := F) (fetch buf q i o n).
Proof. unfold fetch. qsteps. Qed.
Hint Resolve quiet_fetch : quiet.
Lemma quiet_unmarshall1 c q i o : quiet (D := D) (F := F) (unmarshall1 c q i o).
Proof. unfold unmarshall1. cbv zeta. destruct c as [[] [] [] [] [] [] [] []]; qsteps. Qed.
Hint Resolve quiet_unmarshall1 : quiet.
Lemma quiet_unmarshall f : forall q i o, quiet (D := D) (F := F) (unmarshall q i o f).
Proof. induction f; intros; cbn [unmarshall]; qsteps. Qed.
Lemma quiet_on_fs {A} (f : D -> A * D) : quiet (F := F) (on_fs f).
Proof. unfold on_fs. qsteps. Qed.
Lemma quiet_fid_find fid : quiet (D := D) (F := F) (fid_find fid).
Proof. unfold fid_find. qsteps. Qed.
Hint Resolve quiet_unmarshall quiet_on_fs quiet_fid_find : quiet.

(** The table keeps its identifiers distinct. *)
Lemma quiet_fid_set fid fd : quiet (D := D) (fid_set fid fd).
Proof.
  unfold fid_set. intros s a s' E. unfold fid_find in E. rewrite run_assoc, run_gets, run_bind_ret in E. destruct (fid_find1 (fid_list (kind s)) fid) eqn:Ef.
  - injection E as _ <-. repeat split. unfold fids_ok. cbn. rewrite fid_replace_fids. auto.
  - injection E as _ <-. repeat split. unfold fids_ok. cbn. intros Hn. constructor; [|exact Hn]. rewrite fid_find1_map in Ef. apply not_elem_of_list_to_map_2, Ef.
Qed.
Lemma quiet_fid_delete fid : quiet (D := D) (F := F) (fid_delete fid).
Proof.
  unfold fid_delete. intros s a s' E. unfold fid_find in E. rewrite run_assoc, run_gets, run_bind_ret in E. destruct (fid_find1 (fid_list (kind s)) fid) eqn:Ef.
  - injection E as _ <-. repeat split. unfold fids_ok. cbn. apply fid_remove_nodup.
  - injection E as _ <-. apply same_queue_refl.
Qed.
Hint Resolve quiet_fid_set quiet_fid_delete : quiet.

Lemma quiet_walk_names q i n : forall o, quiet (D := D) (F := F) (walk_names q i n o).
Proof. induction n; intros; cbn [walk_names]; qsteps. Qed.
Hint Resolve quiet_walk_names : quiet.

Lemma quiet_handle q i tag o id : id <> 12 -> quiet (p9_handle q i tag o id).
Proof.
  intros Hid. unfold p9_handle. apply Z.eqb_neq in Hid. rewrite Hid.
  repeat match goal with |- quiet (if ?b then _ else _) => destruct b end;
    unfold p9_statfs, p9_lcreate, p9_symlink, p9_mknod, p9_readlink, p9_getattr, p9_setattr, p9_xattrwalk, p9_readdir, p9_fsync, p9_lock, p9_getlock, p9_link,
      p9_mkdir, p9_renameat, p9_unlinkat, p9_version, p9_attach, p9_flush, p9_walk, p9_read, p9_write, p9_clunk, p9_read_with,
      args, with_fid, answer, unless_err, unless_neg, bad_args, protocol_error; qsteps.
Qed.

(** ** What a request comes to *)

(** An open, up to the point where something is sent. *)
Definition lopen_outcome (q i o : Z) : VM Outcome :=
  args q i o "ww" (fun vals => match vals with
    | [Num fid; Num flags] => with_fid fid (fun f =>
        '(err, qid) ← on_fs (fs_open f flags);
        if err <? 0 then mret (Fail err)
        else if err =? 0 then
          k ← gets kind; n ← int_op (msize k - 24); buf ← liftr (marshall 32 (fmt "Qw") [Qid qid; Num n]); mret (Reply buf)
        else _ ← on_p9 (fun k => k <| p9_in_progress := true |>); mret Sent)
    | _ => bad_args end).

(** The outcome of a request: a message, an error, or (of an open only) nothing yet. *)
Definition p9_outcome (q i tag o id : Z) : VM Outcome := if id =? 12 then lopen_outcome q i o else p9_handle q i tag o id.

Lemma quiet_outcome q i tag o id : quiet (p9_outcome q i tag o id).
Proof.
  unfold p9_outcome. destruct (Z.eqb_spec id 12); [|apply quiet_handle; assumption].
  unfold lopen_outcome, args, with_fid, bad_args, protocol_error. qsteps.
Qed.

(** The handler of an open sends its outcome itself. *)
Lemma lopen_sends q i tag o s :
  (r ← p9_lopen q i tag o; send_outcome q i 12 tag r) s = (r ← lopen_outcome q i o; send_outcome q i 12 tag r) s.
Proof.
  unfold p9_lopen, lopen_outcome, args. rewrite !run_assoc, !(run_bind (unmarshall _ _ _ _)). destruct (unmarshall _ _ _ _ _) as [[[[vals off]|] s1]|]; [|reflexivity..].
  destruct vals as [|[fid| |] [|[flags| |] [|]]]; try reflexivity. unfold with_fid. rewrite !run_assoc, !(run_bind (fid_find _)).
  destruct (fid_find fid s1) as [[[f|] s2]|]; [|reflexivity..]. rewrite !run_assoc, !(run_bind (on_fs _)).
  destruct (on_fs (fs_open f flags) s2) as [[[err qid] s3]|]; [|reflexivity].
  destruct (Z.ltb_spec err 0), (Z.leb_spec err 0), (Z.eqb_spec err 0); try lia; [| |rewrite !run_bind; reflexivity].
  - rewrite run_assoc. unfold virtio_9p_open_reply. destruct (Z.ltb_spec err 0); [|lia]. cbn [oi_queue_idx oi_desc_idx oi_tag].
    rewrite run_bind_ret. cbn [send_outcome]. rewrite run_bind. destruct (virtio_9p_send_error _ _ _ _ _) as [[[] s4]|]; reflexivity.
  - rewrite run_assoc. unfold virtio_9p_open_reply. destruct (Z.ltb_spec err 0); [lia|]. cbn [oi_queue_idx oi_desc_idx oi_tag].
    rewrite !run_assoc, !run_gets, !run_assoc, !(run_bind (int_op _)). destruct (int_op _ s3) as [[n s4]|]; [|reflexivity].
    rewrite !run_assoc, !(run_bind (liftr _)). destruct (liftr _ s4) as [[buf s5]|]; [|reflexivity]. rewrite run_bind_ret. cbn [send_outcome].
    rewrite run_bind. destruct (virtio_9p_send_reply _ _ _ _ _ _) as [[[] s6]|]; reflexivity.
Qed.

Lemma outcome_sends q i tag o id s :
  (r ← p9_handle q i tag o id; send_outcome q i id tag r) s = (r ← p9_outcome q i tag o id; send_outcome q i id tag r) s.
Proof. unfold p9_outcome. destruct (Z.eqb_spec id 12) as [->|]; [apply lopen_sends|reflexivity]. Qed.

(** Every handler but that of open answers. *)
Definition answers (m : VM Outcome) : Prop := forall s r s', m s = Done (r, s') -> r <> Sent.
Lemma answers_bind {A} (m : VM A) f : (forall a, answers (f a)) -> answers (m ≫= f).
Proof. intros Hf s r s' E. apply SM_bind_inv in E as (a & s1 & _ & E). exact (Hf a s1 r s' E). Qed.
Lemma answers_ret r : r <> Sent -> answers (mret r).
Proof. intros Hr s x s' [= <- _]. exact Hr. Qed.
Lemma answers_stop r : answers (stop r).
Proof. intros s x s'. discriminate. Qed.

Lemma answers_handle q i tag o id : id <> 12 -> answers (p9_handle q i tag o id).
Proof.
  intros Hid. unfold p9_handle. apply Z.eqb_neq in Hid. rewrite Hid.
  repeat match goal with |- answers (if ?b then _ else _) => destruct b end;
    unfold p9_statfs, p9_lcreate, p9_symlink, p9_mknod, p9_readlink, p9_getattr, p9_setattr, p9_xattrwalk, p9_readdir, p9_fsync, p9_lock, p9_getlock, p9_link,
      p9_mkdir, p9_renameat, p9_unlinkat, p9_version, p9_attach, p9_flush, p9_walk, p9_read, p9_write, p9_clunk, p9_read_with,
      args, with_fid, answer, unless_err, unless_neg, bad_args, protocol_error; cbv zeta;
    repeat (match goal with
            | |- answers (match ?x with _ => _ end) => destruct x
            | |- answers (_ ≫= _) => apply answers_bind; intros ?
            | |- answers (mret _) => apply answers_ret; discriminate
            | |- answers (stop _) => apply answers_stop
            end; cbv zeta).
Qed.

Lemma sent_open q i tag o id s s' : p9_outcome q i tag o id s = Done (Sent, s') -> id = 12 /\ p9_in_progress (kind s') = true.
Proof.
  unfold p9_outcome. destruct (Z.eqb_spec id 12) as [->|Hid]; [|intros E; destruct (answers_handle q i tag o id Hid s Sent s' E); reflexivity].
  intros E. split; [reflexivity|]. unfold lopen_outcome, args in E. apply SM_bind_inv in E as ([[vals off]|] & s1 & _ & E); [|discriminate E].
  destruct vals as [|[fid| |] [|[flags| |] [|]]]; try discriminate E. unfold with_fid in E. apply SM_bind_inv in E as ([f|] & s2 & _ & E); [|discriminate E].
  apply SM_bind_inv in E as ([err qid] & s3 & _ & E). destruct (err <? 0); [discriminate E|]. destruct (err =? 0).
  - rewrite run_gets in E. apply SM_bind_inv in E as (n & s4 & _ & E). apply SM_bind_inv in E as (b & s5 & _ & E). discriminate E.
  - injection E as <-. reflexivity.
Qed.
End QuietOps.

(** ** Answers *)

Definition le16 (v : Z) : list Z := put_le16 (replicate 2 0) v.
Definition le32 (v : Z) : list Z := put_le32 (replicate 4 0) v.

(** The header of a request, and the message that answers it. *)
Definition p9_header (msg_size id tag : Z) : list Z := le32 msg_size ++ [id] ++ le16 tag.
Definition p9_answer (id tag : Z) (o : Outcome) : list Z :=
  match o with
  | Reply data => p9_header (zlen data + 7) (u8 (id + 1)) tag ++ data
  | Fail err => p9_header 11 7 tag ++ le32 (u32 (- err))
  | Sent => []
  end.

Lemma zlen_header sz id tag : zlen (p9_header sz id tag) = 7.
Proof. reflexivity. Qed.

Section Answer.
Context {D F : Type} {FS : FSDevice D F} {H : VirtioHost} {base size host : Z} (W : ram_window base size host) (entries : Z).
Implicit Types s : VS (VIRTIO9PDevice D F).
Abbreviation gather := (gather (base := base) (host := host)).
Abbreviation pending := (pending (base := base) (size := size) (host := host) entries).
Abbreviation replied := (replied (base := base) (host := host)).

Lemma u32_opp_u32 e : u32 (- u32 e) = u32 (- e).
Proof. unfold u32, wrapu. rewrite <- (Z.sub_0_l (e mod 2 ^ 32)), Zminus_mod_idemp_r, Z.sub_0_l. reflexivity. Qed.

Lemma send_run s q qs i rs ws id tag o : 0 <= q -> queue (dev s) !! Z.to_nat q = Some qs -> rings_ok (base := base) (size := size) qs ->
  table_ok (base := base) (size := size) entries qs -> hostmem_wf (vmem s) -> request (base := base) (size := size) (host := host) entries qs (vmem s) i rs ws ->
  o <> Sent -> let msg := p9_answer id tag o in is_bytes msg -> zlen msg <= buf_total ws ->
  send_outcome q i id tag o s = Done (tt, after_reply s (replied (vmem s) qs ws i (zlen msg) msg)).
Proof.
  intros Hq Hs Ho Ht Hm Hr Hne msg Hb Hl. pose proof (rq_total _ _ _ _ _ _ Hr) as [_ Htw].
  assert (forall data idc, let m := p9_header (zlen data + 7) idc tag ++ data in is_bytes m -> zlen m <= buf_total ws ->
    (len ← int_op (zlen data + 7); _ ← memcpy_to_queue q i 0 (put_le32 (replicate 4 0) len ++ [idc] ++ put_le16 (replicate 2 0) tag ++ data) len;
     virtio_consume_desc q i len) s = Done (tt, after_reply s (replied (vmem s) qs ws i (zlen m) m))) as Hsend.
  { intros data idc m Hbm Hlm. assert (zlen m = zlen data + 7) as Ez by (unfold m; rewrite zlen_app, zlen_header; lia).
    pose proof (zlen_nonneg data). rewrite run_bind, int_op_run, <- Ez by lia.
    change (put_le32 (replicate 4 0) (zlen m) ++ [idc] ++ put_le16 (replicate 2 0) tag ++ data) with (p9_header (zlen m) idc tag ++ data).
    rewrite Ez at 1. fold m. rewrite (reply_run W entries s q qs i rs ws m (zlen m)) by (auto; lia). rewrite slice_all by reflexivity. reflexivity. }
  destruct o as [data|err|]; [|..|contradiction]; cbn [send_outcome].
  - exact (Hsend data _ Hb Hl).
  - unfold virtio_9p_send_error. cbn [marshall marshall1 fmt list_ascii_of_string]. cbv zeta.
    change (zlen (put_le32 (replicate 4 0) (u32 (u32 (- u32 err)))) <=? 4) with true. cbn [assert_c mbind res_bind]. rewrite run_liftr_done, app_nil_r.
    assert (u32 (u32 (- u32 err)) = u32 (- err)) as -> by (rewrite u32_opp_u32; apply wrapu_idem; lia). exact (Hsend (le32 (u32 (- err))) 7 Hb Hl).
Qed.

Lemma p9_recv_handle s qs i rs ws sz id tag body : pending s 0 qs i rs ws -> p9_in_progress (kind s) = false ->
  gather (vmem s) rs = p9_header sz id tag ++ body -> in_u 16 tag ->
  virtio_9p_recv_request 0 i (buf_total rs) (buf_total ws) s = (o ← p9_outcome 0 i tag 7 id; _ ← send_outcome 0 i id tag o; mret 0) s.
Proof.
  intros Hp Hprog Hg Htag. pose proof Hp as [Hq Hs _ Ho Ht Hm _ _ Hr Hu].
  unfold virtio_9p_recv_request. cbn [Z.eqb negb]. rewrite run_gets, Hprog.
  assert (buf_total rs = 7 + zlen body) as Et by (rewrite <- (zlen_gather (base := base) (host := host) (vmem s)), Hg, zlen_app; reflexivity).
  pose proof (zlen_nonneg body). rewrite run_bind, (memcpy_from_queue_run W entries 0 qs Hq Ht i rs ws) by (auto; rewrite ?zlen_uninit; lia).
  unfold copy_ret. cbn [Z.eqb]. rewrite copied_le, Hg, slice_app_l, slice_all by (reflexivity || lia). cbn [Z.eqb negb].
  destruct (splice_front (uninit 1024) (p9_header sz id tag)) as (r & -> & _); [rewrite zlen_uninit, zlen_header; lia|]. cbv zeta.
  change (aget (p9_header sz id tag ++ r) 4) with id. change (drop 5 (p9_header sz id tag ++ r)) with (put_le16 (replicate 2 0) tag ++ r).
  rewrite get_put16 by exact Htag. pose proof (outcome_sends 0 i tag 7 id s) as E.
  assert (forall m : SM (VS (VIRTIO9PDevice D F)) Outcome, (o ← m; _ ← send_outcome 0 i id tag o; mret 0) s = (_ ← (o ← m; send_outcome 0 i id tag o); mret 0) s) as Ha
    by (intros m; rewrite run_assoc; reflexivity).
  rewrite !Ha, !(run_bind (_ ≫= _)), E. reflexivity.
Qed.

Lemma p9_recv s qs i rs ws sz id tag body o s1 : pending s 0 qs i rs ws -> p9_in_progress (kind s) = false ->
  gather (vmem s) rs = p9_header sz id tag ++ body -> in_u 16 tag -> p9_outcome 0 i tag 7 id s = Done (o, s1) -> o <> Sent ->
  let msg := p9_answer id tag o in is_bytes msg -> zlen msg <= buf_total ws ->
  virtio_9p_recv_request 0 i (buf_total rs) (buf_total ws) s =
    Done (0, after_reply (s <| kind := kind s1 |>) (replied (vmem s) qs ws i (zlen msg) msg)) /\ (fids_ok s -> fids_ok s1).
Proof.
  intros Hp Hprog Hg Htag Eh Hne msg Hb Hl. pose proof Hp as [Hq Hs _ Ho Ht Hm _ _ Hr Hu].
  destruct (quiet_outcome _ _ _ _ _ _ _ _ Eh) as (A1 & A2 & A3 & A4). split; [|exact A4].
  assert (s1 = s <| kind := kind s1 |>) as Es1 by (destruct s, s1; cbn in *; subst; reflexivity).
  rewrite (p9_recv_handle s qs i rs ws sz id tag body) by assumption. rewrite run_bind, Eh, run_bind, (send_run s1 0 qs i rs ws) by (auto; rewrite ?A1, ?A2; auto).
  fold msg. rewrite A2, Es1. reflexivity.
Qed.
End Answer.

(** C17 What becomes of a request, in every case ([p9_outcome] is what the handlers decide, the open handler up to the point
    where it sends).  If the handler stops the program, so does the doorbell.  If an open is left for later, nothing is sent
    and the device is busy.  Every other request, an open that the file system answers at once included, is answered exactly
    once: the driver finds in its writable buffers one message with the tag of the request and the number of its answer (or
    the error message with the error number), the chain is in the used ring with the length of the message, the
    interrupt is raised, and the identifiers of the table stay distinct.  (The answer fits into the driver's buffers
    and what the file system puts into it are bytes; the device is not busy and one request is available.) *)
Theorem p9_answered {D F : Type} {FS : FSDevice D F} {H : VirtioHost} base size host entries (s : VS (VIRTIO9PDevice D F)) qs i rs ws sz id tag body :
  ram_window base size host -> pending (base := base) (size := size) (host := host) entries s 0 qs i rs ws -> p9_in_progress (kind s) = false ->
  gather (base := base) (host := host) (vmem s) rs = p9_header sz id tag ++ body -> in_u 16 tag ->
  match p9_outcome 0 i tag 7 id s with
  | Stop r => queue_notify virtio_9p_recv_request 0 s = Stop r
  | Done (Sent, s1) => exists s', queue_notify virtio_9p_recv_request 0 s = Done (tt, s') /\ id = 12 /\ kind s' = kind s1 /\
      p9_in_progress (kind s') = true /\ vmem s' = vmem s /\ calls s' = calls s /\ (fids_ok s -> fids_ok s')
  | Done (o, s1) => is_bytes (p9_answer id tag o) -> zlen (p9_answer id tag o) <= buf_total ws ->
      exists s', queue_notify virtio_9p_recv_request 0 s = Done (tt, s') /\ kind s' = kind s1 /\ (fids_ok s -> fids_ok s') /\
        gather (base := base) (host := host) (vmem s') ws = splice (gather (base := base) (host := host) (vmem s) ws) 0 (p9_answer id tag o) /\
        completed (base := base) (host := host) s s' 0 qs i (zlen (p9_answer id tag o)) ws
  end.
Proof.
  intros W Hp Hprog Hg Htag. destruct (p9_outcome 0 i tag 7 id s) as [[o s1]|r] eqn:Eh.
  2: { apply (notify_stop W entries _ s 0 qs i rs ws r Hp). rewrite (p9_recv_handle W entries s qs i rs ws sz id tag body) by assumption.
       rewrite run_bind, Eh. reflexivity. }
  assert (o <> Sent -> is_bytes (p9_answer id tag o) -> zlen (p9_answer id tag o) <= buf_total ws ->
      exists s', queue_notify virtio_9p_recv_request 0 s = Done (tt, s') /\ kind s' = kind s1 /\ (fids_ok s -> fids_ok s') /\
        gather (base := base) (host := host) (vmem s') ws = splice (gather (base := base) (host := host) (vmem s) ws) 0 (p9_answer id tag o) /\
        completed (base := base) (host := host) s s' 0 qs i (zlen (p9_answer id tag o)) ws) as K.
  { intros Hne Hb Hl. destruct (p9_recv W entries s qs i rs ws sz id tag body o s1 Hp Hprog Hg Htag Eh Hne Hb Hl) as [E Hf].
    destruct (completed_reply entries s (kind s1) 0 qs i rs ws (zlen (p9_answer id tag o)) _ Hp Hb Hl) as [Hc Hgw].
    eexists. split; [apply (notify_one W entries _ s 0 qs i rs ws _ 0 Hp E); [lia|exact (pd_queue _ _ _ _ _ _ _ Hp)]|].
    split; [reflexivity|]. split; [intros Hok; exact (Hf Hok)|]. auto. }
  destruct o as [data|err|]; [apply K; discriminate..|]. destruct (quiet_outcome _ _ _ _ _ _ _ _ Eh) as (A1 & A2 & A3 & A4).
  destruct (sent_open _ _ _ _ _ _ _ Eh) as [-> Hb].
  eexists. split; [apply (notify_one W entries _ s 0 qs i rs ws s1 0 Hp)|].
  - rewrite (p9_recv_handle W entries s qs i rs ws sz 12 tag body) by assumption. rewrite run_bind, Eh. reflexivity.
  - lia.
  - rewrite A1. exact (pd_queue _ _ _ _ _ _ _ Hp).
  - split; [reflexivity|]. split; [reflexivity|]. split; [exact Hb|]. split; [exact A2|]. split; [exact A3|exact A4].
Qed.

(** C28 A message reads back: what was marshalled into the request, for a format of integers and strings, is what
    unmarshalling it at that offset returns, with the offset behind it. *)
Theorem p9_message_roundtrip {D F : Type} {FS : FSDevice D F} {H : VirtioHost} base size host entries q qs (s : VS (VIRTIO9PDevice D F)) i rs ws f vals room bytes pre post :
  ram_window base size host -> 0 <= q -> table_ok (base := base) (size := size) entries qs -> queue (dev s) !! Z.to_nat q = Some qs ->
  request (base := base) (size := size) (host := host) entries qs (vmem s) i rs ws -> Forall2 fits f vals -> marshall room f vals = Done bytes ->
  gather (base := base) (host := host) (vmem s) rs = pre ++ bytes ++ post ->
  unmarshall q i (zlen pre) f s = Done (Some (vals, zlen pre + zlen bytes), s).
Proof.
  intros W Hq Ht Hs Hr Hf Hm Hg. pose proof (zlen_nonneg pre). pose proof (zlen_nonneg bytes). pose proof (zlen_nonneg post).
  assert (buf_total rs = zlen pre + (zlen bytes + zlen post)) as Et by (rewrite <- (zlen_gather (base := base) (host := host) (vmem s)), Hg, !zlen_app; reflexivity).
  apply (unmarshall_run W entries q qs Hq Ht f vals room bytes i rs ws); auto; [lia|].
  rewrite Hg, slice_app_r, Z.sub_diag, slice_app_l, slice_all by lia. reflexivity.
Qed.

(** ** Reading and writing a file *)

Section Io.
Context {D F : Type} {FS : FSDevice D F} {H : VirtioHost} {base size host : Z} (W : ram_window base size host) (entries : Z).
Implicit Types s : VS (VIRTIO9PDevice D F).
Abbreviation gather := (gather (base := base) (host := host)).
Abbreviation pending := (pending (base := base) (size := size) (host := host) entries).

(** The arguments that follow the header. *)
Lemma args_run s qs i rs ws sz id tag f vals room bytes post : pending s 0 qs i rs ws -> Forall2 fits f vals -> marshall room f vals = Done bytes ->
  gather (vmem s) rs = p9_header sz id tag ++ bytes ++ post -> unmarshall 0 i 7 f s = Done (Some (vals, 7 + zlen bytes), s).
Proof.
  intros [Hq Hs _ Ho Ht Hm _ _ Hr Hu] Hf Ema Hg. pose proof (zlen_nonneg bytes). pose proof (zlen_nonneg post).
  assert (buf_total rs = 7 + (zlen bytes + zlen post)) as Et by (rewrite <- (zlen_gather (base := base) (host := host) (vmem s)), Hg, !zlen_app; reflexivity).
  apply (unmarshall_run W entries 0 qs Hq Ht f vals room bytes i rs ws); auto; [lia|lia|].
  rewrite Hg, slice_app_r, zlen_header, Z.sub_diag, slice_app_l, slice_all by (rewrite ?zlen_header; lia). reflexivity.
Qed.

(** [Tread] and [Twrite]: fid, offset, count. *)
Definition io_args (fid offs count : Z) : list Z := le32 fid ++ put_le64 (replicate 8 0) offs ++ le32 count.

Lemma io_args_marshall fid offs count : in_u 32 fid -> in_u 64 offs -> in_u 32 count ->
  marshall 1024 (fmt "wdw") [Num fid; Num offs; Num count] = Done (io_args fid offs count) /\ Forall2 fits (fmt "wdw") [Num fid; Num offs; Num count].
Proof.
  intros Hf Ho Hc. split; [|repeat constructor; assumption || (unfold in_u in *; lia)]. 
  transitivity (Done (le32 (u32 fid) ++ put_le64 (replicate 8 0) (u64 offs) ++ le32 (u32 count))); [reflexivity|].
  rewrite !u32_id, u64_id by assumption. reflexivity.
Qed.

Lemma read_handle s qs i rs ws sz tag fid offs count post f data d' : pending s 0 qs i rs ws ->
  gather (vmem s) rs = p9_header sz 116 tag ++ io_args fid offs count ++ post -> in_u 32 fid -> in_u 64 offs -> 0 <= count < 2 ^ 31 ->
  fids s !! fid = Some f -> fs_read f offs count (fs (kind s)) = (zlen data, data, d') -> zlen data <= count ->
  p9_handle 0 i tag 7 116 s = Done (Reply (le32 (zlen data) ++ data), s <| kind := (kind s) <| fs := d' |> |>).
Proof.
  intros Hp Hg Hfid Hoffs Hc Hf Hrd Hl. destruct (io_args_marshall fid offs count Hfid Hoffs ltac:(unfold in_u; lia)) as [Em Hfit].
  pose proof (args_run s qs i rs ws sz 116 tag _ _ _ _ post Hp Hfit Em Hg) as Eu. change (p9_handle 0 i tag 7 116 s) with (p9_read 0 i 7 s).
  unfold p9_read, p9_read_with, args. rewrite run_bind, Eu. unfold with_fid, fid_find. rewrite run_assoc, run_gets, run_bind_ret, fid_find1_map. fold (fids s). rewrite Hf.
  unfold on_fs. rewrite run_assoc, run_gets, s32_small, Hrd by lia. unfold on_p9. rewrite run_assoc, run_modify, run_bind_ret.
  rewrite u32_id by (unfold in_u; lia). pose proof (zlen_nonneg data). set (u := uninit (count + 4)). assert (zlen u = count + 4) as Eu' by (apply zlen_uninit; lia).
  assert (exists a c, u = a ++ c /\ zlen a = 4 /\ zlen c = count) as (a & c & Ea & Za & Zc).
  { exists (take 4 u), (drop 4 u). rewrite take_drop. unfold zlen in *. rewrite length_take, length_drop. split; [reflexivity|]. lia. }
  rewrite Ea. rewrite buf_put_splice by (rewrite ?zlen_app; lia). rewrite run_liftr_done, splice_app_r, Za, Z.sub_diag by lia.
  unfold unless_neg. destruct (Z.ltb_spec (zlen data) 0); [lia|]. destruct (splice_front c data) as (r & -> & Zr); [lia|].
  pose proof (buf_put_app [] a (data ++ r) (le32 (zlen data)) ltac:(apply Nat2Z.inj; exact Za)) as Ep. cbn [app] in Ep. change (zlen []) with 0 in Ep.
  fold (le32 (zlen data)). rewrite Ep, run_liftr_done.
  rewrite app_assoc. pose proof (buf_get_app [] (le32 (zlen data) ++ data) r) as Eg. cbn [app] in Eg. change (zlen []) with 0 in Eg.
  rewrite zlen_app in Eg. change (zlen (le32 (zlen data))) with 4 in Eg. rewrite (Z.add_comm (zlen data) 4), Eg, run_liftr_done. reflexivity.
Qed.

Lemma write_handle s qs i rs ws sz tag fid offs data post f d' : pending s 0 qs i rs ws ->
  gather (vmem s) rs = p9_header sz 118 tag ++ io_args fid offs (zlen data) ++ data ++ post -> in_u 32 fid -> in_u 64 offs ->
  fids s !! fid = Some f -> fs_write f offs data (zlen data) (fs (kind s)) = (zlen data, d') ->
  p9_handle 0 i tag 7 118 s = Done (Reply (le32 (zlen data)), s <| kind := (kind s) <| fs := d' |> |>).
Proof.
  intros Hp Hg Hfid Hoffs Hf Hwr. pose proof Hp as [Hq Hs _ Ho Ht Hm _ _ Hr Hu]. pose proof (rq_total _ _ _ _ _ _ Hr) as [Htr _].
  pose proof (zlen_nonneg data). pose proof (zlen_nonneg post).
  assert (zlen (io_args fid offs (zlen data)) = 16) as Ez by reflexivity.
  assert (buf_total rs = 7 + (16 + (zlen data + zlen post))) as Et
    by (rewrite <- (zlen_gather (base := base) (host := host) (vmem s)), Hg, !zlen_app, Ez, zlen_header; reflexivity).
  assert (in_u 32 (zlen data)) as Hzd by (unfold in_u; lia).
  destruct (io_args_marshall fid offs (zlen data) Hfid Hoffs Hzd) as [Em Hfit].
  pose proof (args_run s qs i rs ws sz 118 tag _ _ _ _ (data ++ post) Hp Hfit Em Hg) as Eu. rewrite Ez in Eu.
  change (p9_handle 0 i tag 7 118 s) with (p9_write 0 i 7 s). unfold p9_write. rewrite run_bind, Eu.
  unfold with_fid, fid_find. rewrite run_assoc, run_gets, run_bind_ret, fid_find1_map. fold (fids s). rewrite Hf.
  rewrite s32_small by lia. rewrite run_bind, (memcpy_from_queue_run W entries 0 qs Hq Ht i rs ws) by (auto; rewrite ?zlen_uninit; lia).
  assert (slice (gather (vmem s) rs) (7 + 16) (zlen data) = data) as ->.
  { rewrite Hg, app_assoc, slice_app_r, zlen_app, zlen_header, Ez, Z.sub_diag, slice_app_l, slice_all by (rewrite ?zlen_app, ?zlen_header; lia). reflexivity. }
  rewrite splice_all by (rewrite zlen_uninit; lia).
  assert ((copy_ret (zlen data) (buf_total rs - (7 + 16)) =? 0) = true) as ->.
  { unfold copy_ret. destruct (Z.eqb_spec (zlen data) 0); [reflexivity|]. rewrite copied_le by lia. reflexivity. }
  cbn [negb]. unfold on_fs. rewrite run_assoc, run_gets, Hwr. unfold on_p9. rewrite run_assoc, run_modify, run_bind_ret.
  unfold unless_neg. destruct (Z.ltb_spec (zlen data) 0); [lia|].
  unfold answer. cbn [marshall marshall1 fmt list_ascii_of_string]. cbv zeta. change (zlen (put_le32 (replicate 4 0) (u32 (zlen data))) <=? 1024) with true.
  cbn [assert_c mbind res_bind]. rewrite u32_id by exact Hzd. rewrite run_liftr_done, app_nil_r. reflexivity.
Qed.
End Io.

(** C29 Reading a file through the device: for an identifier in the table, the driver receives exactly the bytes the file
    system returns for that file, offset and count, in one answer, and the table is unchanged. *)
Theorem p9_read_served {D F : Type} {FS : FSDevice D F} {H : VirtioHost} base size host entries (s : VS (VIRTIO9PDevice D F)) qs i rs ws sz tag fid offs count post f data d' :
  ram_window base size host -> pending (base := base) (size := size) (host := host) entries s 0 qs i rs ws -> p9_in_progress (kind s) = false ->
  gather (base := base) (host := host) (vmem s) rs = p9_header sz 116 tag ++ io_args fid offs count ++ post ->
  in_u 16 tag -> in_u 32 fid -> in_u 64 offs -> 0 <= count < 2 ^ 31 ->
  fids s !! fid = Some f -> fs_read f offs count (fs (kind s)) = (zlen data, data, d') -> is_bytes data -> zlen data <= count -> zlen data + 11 <= buf_total ws ->
  let msg := p9_header (zlen data + 11) 117 tag ++ le32 (zlen data) ++ data in
  exists s', queue_notify virtio_9p_recv_request 0 s = Done (tt, s') /\ fs (kind s') = d' /\ fids s' = fids s /\
    gather (base := base) (host := host) (vmem s') ws = splice (gather (base := base) (host := host) (vmem s) ws) 0 msg /\
    completed (base := base) (host := host) s s' 0 qs i (zlen data + 11) ws.
Proof.
  intros W Hp Hprog Hg Htag Hfid Hoffs Hc Hf Hrd Hb Hl Hw msg.
  pose proof (read_handle W entries s qs i rs ws sz tag fid offs count post f data d' Hp Hg Hfid Hoffs Hc Hf Hrd Hl) as Eh.
  set (s1 := s <| kind := _ |>) in Eh.
  assert (p9_answer 116 tag (Reply (le32 (zlen data) ++ data)) = msg) as Em.
  { unfold p9_answer, msg. rewrite zlen_app. change (zlen (le32 (zlen data))) with 4. change (u8 (116 + 1)) with 117. do 2 f_equal. lia. }
  assert (zlen msg = zlen data + 11) as Ez by (unfold msg; rewrite !zlen_app, zlen_header; change (zlen (le32 (zlen data))) with 4; lia).
  assert (is_bytes msg) as Hbm.
  { unfold msg. repeat apply Forall_app_2; try exact Hb; repeat constructor; first [apply wrapu_range; lia | easy]. }
  destruct (p9_recv W entries s qs i rs ws sz 116 tag _ _ s1 Hp Hprog Hg Htag Eh ltac:(discriminate)) as [E _]; [rewrite Em; exact Hbm|rewrite Em; lia|].
  rewrite Em in E. destruct (completed_reply entries s (kind s1) 0 qs i rs ws (zlen msg) _ Hp Hbm ltac:(lia)) as [Hcp Hgw].
  eexists. split; [apply (notify_one W entries _ s 0 qs i rs ws _ 0 Hp E); [lia|exact (pd_queue _ _ _ _ _ _ _ Hp)]|].
  split; [reflexivity|]. split; [reflexivity|]. split; [exact Hgw|]. rewrite <- Ez. exact Hcp.
Qed.

(** Writing a file through the device: the file system receives exactly the driver's bytes for that file and offset,
    and the answer carries the count. *)
Theorem p9_write_served {D F : Type} {FS : FSDevice D F} {H : VirtioHost} base size host entries (s : VS (VIRTIO9PDevice D F)) qs i rs ws sz tag fid offs data post f d' :
  ram_window base size host -> pending (base := base) (size := size) (host := host) entries s 0 qs i rs ws -> p9_in_progress (kind s) = false ->
  gather (base := base) (host := host) (vmem s) rs = p9_header sz 118 tag ++ io_args fid offs (zlen data) ++ data ++ post ->
  in_u 16 tag -> in_u 32 fid -> in_u 64 offs ->
  fids s !! fid = Some f -> fs_write f offs data (zlen data) (fs (kind s)) = (zlen data, d') -> 11 <= buf_total ws ->
  let msg := p9_header 11 119 tag ++ le32 (zlen data) in
  exists s', queue_notify virtio_9p_recv_request 0 s = Done (tt, s') /\ fs (kind s') = d' /\ fids s' = fids s /\
    gather (base := base) (host := host) (vmem s') ws = splice (gather (base := base) (host := host) (vmem s) ws) 0 msg /\
    completed (base := base) (host := host) s s' 0 qs i 11 ws.
Proof.
  intros W Hp Hprog Hg Htag Hfid Hoffs Hf Hwr Hw msg.
  pose proof (write_handle W entries s qs i rs ws sz tag fid offs data post f d' Hp Hg Hfid Hoffs Hf Hwr) as Eh. set (s1 := s <| kind := _ |>) in Eh.
  assert (is_bytes msg) as Hbm by (unfold msg; repeat constructor; first [apply wrapu_range; lia | easy]).
  change msg with (p9_answer 118 tag (Reply (le32 (zlen data)))) in *.
  destruct (p9_recv W entries s qs i rs ws sz 118 tag _ _ s1 Hp Hprog Hg Htag Eh ltac:(discriminate) Hbm Hw) as [E _].
  destruct (completed_reply entries s (kind s1) 0 qs i rs ws 11 _ Hp Hbm Hw) as [Hcp Hgw].
  eexists. split; [apply (notify_one W entries _ s 0 qs i rs ws _ 0 Hp E); [lia|exact (pd_queue _ _ _ _ _ _ _ Hp)]|].
  split; [reflexivity|]. split; [reflexivity|]. split; [exact Hgw|exact Hcp].
Qed.

(** ** Instances *)

(** A file system with one file, which is its content; everything but reading and writing is refused. *)
#[local] Instance one_file : FSDevice (list Z) unit := {|
  fs_delete _ d := d;
  fs_statfs d := (mkFSStatFS 1 0 0 0 1 0, d);
  fs_attach _ _ _ d := (0, (tt, mkFSQID 0 0 1), d);
  fs_walk _ names d := (-2, (tt, []), d);
  fs_mkdir _ _ _ _ d := (-1, mkFSQID 0 0 0, d);
  fs_open _ _ d := (0, mkFSQID 0 0 1, d);
  fs_create _ _ _ _ _ d := (-1, mkFSQID 0 0 0, d);
  fs_stat _ d := (-1, mkFSStat (mkFSQID 0 0 0) 0 0 0 0 0 0 0 0 0 0 0 0 0 0, d);
  fs_setattr _ _ _ _ _ _ _ _ _ _ d := (-1, d);
  fs_readdir _ _ _ d := (-1, [], d);
  fs_read _ offs n d := let data := slice d offs n in (zlen data, data, d);
  fs_write _ offs buf n d := (n, splice d offs buf);
  fs_link _ _ _ d := (-1, d);
  fs_symlink _ _ _ _ d := (-1, mkFSQID 0 0 0, d);
  fs_mknod _ _ _ _ _ _ d := (-1, mkFSQID 0 0 0, d);
  fs_readlink _ _ d := (-1, [], d);
  fs_renameat _ _ _ _ d := (-1, d);
  fs_unlinkat _ _ d := (-1, d);
  fs_lock _ _ d := (-1, d);
  fs_getlock _ l d := (-1, l, d) |}.
#[local] Existing Instance demo_host.

(** A request in two readable buffers, and one writable buffer of 64 bytes. *)
Definition p9_mem (b0 b1 : list Z) : hostmem :=
  let m := st_bytes ∅ 0x100000 (desc_bytes 0x80003000 (zlen b0) 1 1 ++ desc_bytes 0x80004000 (zlen b1) 1 2 ++ desc_bytes 0x80005000 64 2 0) in
  st_bytes (st_bytes (st_bytes m 0x101000 [0; 0; 1; 0; 0; 0]) 0x103000 b0) 0x104000 b1.
Definition p9_state (b0 b1 : list Z) : VS (VIRTIO9PDevice (list Z) unit) :=
  mkVS demo_vdev (p9_mem b0 b1) (mkVIRTIO9PDevice [10; 20; 30; 40] 8192 [(5, tt)] false) [].
Definition p9_rs (b0 b1 : list Z) := [desc_bytes 0x80003000 (zlen b0) 1 1; desc_bytes 0x80004000 (zlen b1) 1 2].
Definition p9_ws := [desc_bytes 0x80005000 64 2 0].

Definition p9_hdr (id : Z) : list Z := p9_header 23 id 9.
Definition read_body : list Z := io_args 5 1 2.
Definition write_body : list Z := io_args 5 1 2 ++ [77; 88].

Lemma p9_pending_ok b0 b1 : (b0, b1) ∈ [(p9_hdr 116, read_body); (p9_hdr 118, write_body); (p9_hdr 120, le32 9)] ->
  pending (base := 0x80000000) (size := 0x10000) (host := 0x100000) 16 (p9_state b0 b1) 0 demo_queue 0 (p9_rs b0 b1) p9_ws.
Proof.
  intros Hin. repeat (apply elem_of_cons in Hin as [[= -> ->]|Hin]); [..|inversion Hin]; (apply demo_pending;
    [ reflexivity
    | unfold p9_state, p9_mem; cbn [vmem]; repeat (apply st_bytes_wf; [|apply is_bytes_b; vm_compute; reflexivity]);
      intros p v Hp; rewrite lookup_empty in Hp; discriminate
    | vm_compute; reflexivity
    | vm_compute; reflexivity
    | reflexivity
    | eexists _, _; split; [reflexivity|]; split; [vm_compute; reflexivity|]; vm_compute; repeat split
    | repeat constructor
    | repeat constructor
    | repeat (constructor; [zfacts|]); constructor
    | repeat constructor
    | vm_compute; reflexivity
    | vm_compute; reflexivity ]).
Qed.

Lemma p9_gather_ok b0 b1 : (b0, b1) ∈ [(p9_hdr 116, read_body); (p9_hdr 118, write_body); (p9_hdr 120, le32 9)] ->
  gather (base := 0x80000000) (host := 0x100000) (vmem (p9_state b0 b1)) (p9_rs b0 b1) = b0 ++ b1.
Proof. intros Hin. repeat (apply elem_of_cons in Hin as [[= -> ->]|Hin]); [..|inversion Hin]; vm_compute; reflexivity. Qed.

Lemma fid_table_witness : exists s', fid_delete 5 (p9_state [] []) = Done (tt, s') /\ fids s' = ∅.
Proof.
  destruct (fid_table (p9_state [] []) 5 tt ltac:(repeat constructor; intros Hin; inversion Hin)) as (_ & _ & s' & E & Em & _).
  exists s'. split; [exact E|]. rewrite Em. reflexivity.
Defined.

(** Closing an identifier the device does not know is answered. *)
Lemma p9_answered_witness : exists s', queue_notify virtio_9p_recv_request 0 (p9_state (p9_hdr 120) (le32 9)) = Done (tt, s') /\
  gather (base := 0x80000000) (host := 0x100000) (vmem s') p9_ws = p9_header 7 121 9 ++ replicate 57 0.
Proof.
  assert ((p9_hdr 120, le32 9) ∈ [(p9_hdr 116, read_body); (p9_hdr 118, write_body); (p9_hdr 120, le32 9)]) as Hin by (right; right; left).
  pose proof (p9_answered 0x80000000 0x10000 0x100000 16 (p9_state (p9_hdr 120) (le32 9)) demo_queue 0 (p9_rs (p9_hdr 120) (le32 9)) p9_ws 23 120 9 (le32 9)
    demo_window (p9_pending_ok _ _ Hin) eq_refl (p9_gather_ok _ _ Hin) ltac:(easy)) as K.
  assert (p9_outcome 0 0 9 7 120 (p9_state (p9_hdr 120) (le32 9)) = Done (Reply [], p9_state (p9_hdr 120) (le32 9))) as Eo by (vm_compute; reflexivity).
  rewrite Eo in K. destruct K as (s' & E & _ & _ & Hg & _); [apply is_bytes_b; reflexivity|discriminate|].
  exists s'. split; [exact E|]. rewrite Hg. vm_compute. reflexivity.
Defined.

Lemma p9_message_roundtrip_witness : unmarshall 0 0 7 (fmt "wdw") (p9_state (p9_hdr 116) read_body) = Done (Some ([Num 5; Num 1; Num 2], 23), p9_state (p9_hdr 116) read_body).
Proof.
  assert ((p9_hdr 116, read_body) ∈ [(p9_hdr 116, read_body); (p9_hdr 118, write_body); (p9_hdr 120, le32 9)]) as Hin by left.
  pose proof (p9_pending_ok _ _ Hin) as Hp.
  exact (p9_message_roundtrip 0x80000000 0x10000 0x100000 16 0 demo_queue (p9_state (p9_hdr 116) read_body) 0 (p9_rs (p9_hdr 116) read_body) p9_ws
    (fmt "wdw") [Num 5; Num 1; Num 2] 1024 read_body (p9_hdr 116) [] demo_window ltac:(lia) (pd_table _ _ _ _ _ _ _ Hp) eq_refl (pd_request _ _ _ _ _ _ _ Hp)
    (proj2 (io_args_marshall 5 1 2 ltac:(easy) ltac:(easy) ltac:(easy))) (proj1 (io_args_marshall 5 1 2 ltac:(easy) ltac:(easy) ltac:(easy))) (p9_gather_ok _ _ Hin)).
Defined.

Lemma p9_read_served_witness : exists s', queue_notify virtio_9p_recv_request 0 (p9_state (p9_hdr 116) read_body) = Done (tt, s') /\
  gather (base := 0x80000000) (host := 0x100000) (vmem s') p9_ws = p9_header 13 117 9 ++ le32 2 ++ [20; 30] ++ replicate 51 0.
Proof.
  assert ((p9_hdr 116, read_body) ∈ [(p9_hdr 116, read_body); (p9_hdr 118, write_body); (p9_hdr 120, le32 9)]) as Hin by left.
  destruct (p9_read_served 0x80000000 0x10000 0x100000 16 (p9_state (p9_hdr 116) read_body) demo_queue 0 (p9_rs (p9_hdr 116) read_body) p9_ws 23 9 5 1 2 [] tt [20; 30] [10; 20; 30; 40]
    demo_window (p9_pending_ok _ _ Hin) eq_refl (p9_gather_ok _ _ Hin) ltac:(easy) ltac:(easy) ltac:(easy) ltac:(lia) eq_refl eq_refl ltac:(apply is_bytes_b; reflexivity) ltac:(discriminate) ltac:(discriminate))
    as (s' & E & _ & _ & Hg & _).
  exists s'. split; [exact E|]. rewrite Hg. vm_compute. reflexivity.
Defined.

Lemma p9_write_served_witness : exists s', queue_notify virtio_9p_recv_request 0 (p9_state (p9_hdr 118) write_body) = Done (tt, s') /\ fs (kind s') = [10; 77; 88; 40].
Proof.
  assert ((p9_hdr 118, write_body) ∈ [(p9_hdr 116, read_body); (p9_hdr 118, write_body); (p9_hdr 120, le32 9)]) as Hin by (right; left).
  destruct (p9_write_served 0x80000000 0x10000 0x100000 16 (p9_state (p9_hdr 118) write_body) demo_queue 0 (p9_rs (p9_hdr 118) write_body) p9_ws 23 9 5 1 [77; 88] [] tt [10; 77; 88; 40]
    demo_window (p9_pending_ok _ _ Hin) eq_refl (p9_gather_ok _ _ Hin) ltac:(easy) ltac:(easy) ltac:(easy) eq_refl eq_refl ltac:(discriminate))
    as (s' & E & Hd & _).
  exists s'. split; [exact E|exact Hd].
Defined.
