(* ===== verification/VirtioBoard.v ===== *)
(** * Virtio devices on the board

    A device reaches guest RAM through the memory map of the machine, and its
    interrupt line is an input of the PLIC ([on_slot] of the machine): what a
    request to a disk does to the whole machine. *)

From S2P Require Import Prelude Riscv Cutils Iomem Hostmem Bytes Fdt CpuState CpuWf Uart Virtio VirtioDevs VirtioQueue VirtioRegs VirtioSlot Machine VirtioSpec VirtioRequest BlockFile BlockSpec.
From stdpp Require Import base list gmap.
From Stdlib Require Import ZArith Lia Bool.
Local Open Scope Z_scope.
Local Open Scope bits_scope.
Local Open Scope list_scope.

(** The block device [d], [k] is in slot [slot]. *)
Definition disk_at {B : Type} {BD : BlockDevice B} (slot : Z) (d : VIRTIODevice) (k : VIRTIOBlockDevice B) (m : System Board) : Prop :=
  virtio (devs m) !! Z.to_nat slot = Some (mkVirtioSlot (VIRTIOBlockDevice B) (fun H => block_class) d k).

(** ** The interrupt of a device *)

Lemma put_hart_hmem i c s : hmem (put_hart i c s) = hmem s /\ mem_map (put_hart i c s) = mem_map s /\ virtio (devs (put_hart i c s)) = virtio (devs s).
Proof. unfold put_hart. destruct (_ =? _); split; [|split| |split]; reflexivity. Qed.

Lemma plic_update_all_hmem n : forall h s s', 0 <= h -> h + Z.of_nat n <= ncpus s -> plic_update_all h n s = Done (tt, s') ->
  hmem s' = hmem s /\ mem_map s' = mem_map s /\ virtio (devs s') = virtio (devs s).
Proof.
  induction n as [|n IH]; intros h s s' Hh Hn; cbn [plic_update_all]; [intros [= <-]; auto|]. rewrite run_bind, plic_update_run by lia. intros E.
  apply IH in E as (-> & -> & ->); [apply put_hart_hmem|lia|rewrite ncpus_put; lia].
Qed.

(** Raising a source makes it pending, and unless it is being served, raises the external interrupt of every hart. *)
Lemma raise_irq irq s : 1 <= irq <= 32 ->
  exists s', plic_set_irq irq true s = Done (tt, s') /\ hmem s' = hmem s /\ mem_map s' = mem_map s /\ virtio (devs s') = virtio (devs s) /\
    Z.testbit (plic_pending_irq (devs s')) (irq - 1) = true /\
    (Z.testbit (plic_served_irq (devs s)) (irq - 1) = false -> forall i, 0 <= i < ncpus s ->
       Z.testbit (mip (hart s' i)) 11 = true /\ Z.testbit (mip (hart s' i)) 9 = true).
Proof.
  intros Hi. unfold plic_set_irq, irq_mask. destruct (Z.leb_spec 1 irq); [|lia]. rewrite run_bind_ret. unfold on_board. rewrite run_modify, run_gets.
  set (s1 := s <| devs := _ |>). unfold id.
  destruct (plic_update_all_run (List.length (cpu_state (devs s1))) 0 s1) as (s' & E & E1 & E2 & E3 & E4); [lia|unfold ncpus; lia|].
  assert (Z.testbit (u32 (1 <<' (irq - 1))) (irq - 1) = true) as Hb.
  { rewrite u32_spec, Z.shiftl_spec, Z.sub_diag by lia. destruct (Z.ltb_spec (irq - 1) 32); [reflexivity|lia]. }
  exists s'. split; [exact E|]. destruct (plic_update_all_hmem (List.length (cpu_state (devs s1))) 0 s1 s' ltac:(lia) ltac:(unfold ncpus; lia) E) as (-> & -> & ->).
  split; [reflexivity|]. split; [reflexivity|]. split; [reflexivity|]. rewrite E2. split; [unfold s1; cbn; rewrite Z.lor_spec, Hb; apply orb_true_r|].
  intros Hs i Hr. rewrite E4 by lia. change (ncpus s) with (Z.of_nat (List.length (cpu_state (devs s1)))) in Hr.
  destruct (Z.leb_spec 0 i), (Z.ltb_spec i (0 + Z.of_nat (List.length (cpu_state (devs s1))))); try lia. cbn [andb]. rewrite drive_mip.
  assert (plic_mask s1 <> 0) as Hm.
  { intros E0. apply (f_equal (fun x => Z.testbit x (irq - 1))) in E0. unfold plic_mask in E0. rewrite Z.land_spec, not32_spec, Z.bits_0 in E0.
    unfold s1 in E0. cbn in E0. rewrite Z.lor_spec, Hb, Hs, orb_true_r in E0.
    destruct (Z.ltb_spec (irq - 1) 32), (Z.leb_spec 0 (irq - 1)); try lia; discriminate. }
  apply Z.eqb_neq in Hm. rewrite Hm. cbn [negb]. rewrite !Z.lor_spec. split; apply orb_true_r.
Qed.

(** C14 A disk write, seen from the guest: a store to the doorbell register of the block device in slot [slot] stores the
    driver's data in the sectors it names, leaves the completed chain in the used ring in guest RAM, and makes source
    [VIRTIO_IRQ + slot] of the PLIC pending; unless that source is being served, the external interrupt of every hart is
    raised.  (The device is idle, the queue holds one pending write request, and the sectors exist on the disk.) *)
Theorem disk_write_interrupts `{VE : VirtioEnv} {B : Type} {BD : BlockDevice B} {BL : BlockLaws BD} base size host entries slot (m : System Board)
    d (k : VIRTIOBlockDevice B) q qs i rs ws hdr data n sec :
  let H := board_host (mem_map m) in let v := mkVS d (hmem m) k [] in
  disk_at slot d k m ->
  ram_window base size host -> pending (base := base) (size := size) (host := host) entries v q qs i rs ws -> 0 <= q < MAX_QUEUE ->
  req_in_progress k = false -> blk_ok (bs k) ->
  gather (base := base) (host := host) (hmem m) rs = hdr ++ data -> block_header hdr VIRTIO_BLK_T_OUT sec -> zlen data = n * SECTOR_SIZE -> 0 <= n ->
  sec + n <= get_sector_count (bs k) -> 1 <= buf_total ws -> 0 <= slot < 31 ->
  exists d' k' m', write_func (Dev_virtio slot) VIRTIO_MMIO_QUEUE_NOTIFY q 2 m = Done (tt, m') /\ disk_at slot d' k' m' /\
    (forall j, 0 <= j < get_sector_count (bs k) -> blk_view (bs k') j = write_view (blk_view (bs k)) sec data j) /\
    gather (base := base) (host := host) (hmem m') ws = splice (gather (base := base) (host := host) (hmem m) ws) 0 [VIRTIO_BLK_S_OK] /\
    used_index (base := base) (host := host) (hmem m') qs = u16 (used_index (base := base) (host := host) (hmem m) qs + 1) /\
    Z.testbit (plic_pending_irq (devs m')) slot = true /\
    (Z.testbit (plic_served_irq (devs m)) slot = false -> forall h, 0 <= h < ncpus m ->
       Z.testbit (mip (hart m' h)) 11 = true /\ Z.testbit (mip (hart m' h)) 9 = true).
Proof.
  intros H v Hat W Hp Hq Hprog Hok Hg Hh Hd Hn He Hws Hslot.
  destruct (write_recv W entries v q qs i rs ws hdr data n sec Hp Hprog Hok Hg Hh Hd Hn He Hws) as (b' & r & E & Hok' & Hc' & Hv').
  destruct (completed_reply entries v (served_kind v b' r) q qs i rs ws 1 [VIRTIO_BLK_S_OK] Hp) as [Hcp Hgw]; [repeat constructor; discriminate|unfold zlen; cbn; lia|].
  pose proof (notify_one W entries _ v q qs i rs ws _ 0 Hp E ltac:(lia) (pd_queue _ _ _ _ _ _ _ Hp)) as En.
  set (v' := taken q qs _) in *. cbn [write_func board_ops]. unfold virtio_write, on_slot. rewrite Hat. unfold slot_write, slot_run. cbn [sl_kind sl_class sl_dev sl_state].
  fold H. fold v.
  assert (virtio_mmio_write (H := H) device_recv config_write VIRTIO_MMIO_QUEUE_NOTIFY q 2 v = Done (tt, v')) as ->.
  { rewrite <- En. unfold virtio_mmio_write. cbn -[queue_notify MAX_QUEUE]. rewrite (proj2 (Z.ltb_lt q MAX_QUEUE)) by lia. reflexivity. }
  rewrite (cp_irq _ _ _ _ _ _ _ Hcp). cbn [calls v app do_calls do_call]. set (m1 := upd _ _ _).
  destruct (raise_irq (VIRTIO_IRQ + slot) m1) as (m' & Er & Em & _ & Ev & Hpend & Hmip); [unfold VIRTIO_IRQ; lia|].
  rewrite !run_assoc, run_bind, Er. unfold VIRTIO_IRQ in Hpend, Hmip. replace (1 + slot - 1) with slot in * by lia.
  exists (dev v'), (kind v'), m'. split; [reflexivity|]. split.
  { unfold disk_at. rewrite Ev. cbn. apply list_lookup_insert_eq. apply lookup_lt_Some in Hat. exact Hat. }
  rewrite Em. cbn [hmem upd upd_sys_hmem].
  split; [intros j Hj; apply Hv'; cbn in *; lia|]. split; [exact Hgw|]. split; [exact (cp_index _ _ _ _ _ _ _ Hcp)|]. split; [exact Hpend|]. exact Hmip.
Qed.

(** ** Instances *)

(** The demonstration disk in slot 2 of a machine with two harts, behind a console and an input device. *)
Definition demo_disk : VIRTIOBlockDevice BlockDeviceFile := mkVIRTIOBlockDevice demo_image false (mkBlockRequest 0 [] 0 0 0).
Definition disk_machine : System Board :=
  let s := (demo_machine []) <| mem_map := mkPhysMemoryMap [demo_ram_range] |> <| hmem := write_mem |> in
  s <| devs := (devs s) <| virtio := [console_slot; input_slot VIRTIO_INPUT_TYPE_KEYBOARD; mkVirtioSlot _ (fun H => block_class) demo_vdev demo_disk] |> |>.
Definition disk_env : VirtioEnv := {| uninit_byte _ := 170; chain_turns := 16 |}.

Lemma disk_write_interrupts_witness : exists d' k' m',
  write_func (DeviceOps := @board_ops disk_env) (Dev_virtio 2) VIRTIO_MMIO_QUEUE_NOTIFY 0 2 disk_machine = Done (tt, m') /\ disk_at 2 d' k' m' /\
  bf_view (bs k') 1 = slice demo_data 0 512 /\ Z.testbit (plic_pending_irq (devs m')) 2 = true.
Proof.
  destruct (disk_write_interrupts (VE := disk_env) (BL := bf_laws) 0x80000000 0x10000 0x100000 16 2 disk_machine demo_vdev demo_disk
    0 demo_queue 0 [demo_hdr_desc; desc_bytes 0x80004000 512 1 2] [demo_status_desc] (header_bytes 1 1) demo_data 1 1
    eq_refl demo_window write_pending ltac:(easy) eq_refl demo_image_ok write_gather (header_ok 1 (or_intror eq_refl)) eq_refl ltac:(lia) ltac:(discriminate) ltac:(discriminate) ltac:(lia))
    as (d' & k' & m' & E & Hat & Hv & _ & _ & Hp & _).
  exists d', k', m'. split; [exact E|]. split; [exact Hat|]. split; [|exact Hp]. rewrite Hv by (split; [discriminate|reflexivity]). reflexivity.
Defined.
