(* ===== verification/Pci.v ===== *)
(** * PCI ([pci.cpp], [pci.h]) and virtio behind it ([virtio.cpp])

    Configuration space, base address registers, capabilities and interrupts
    of the devices on one bus, and the i440FX host bridge that gives access to
    them through two ports.  A device is the part of [PCIDevice] that changes;
    moving a memory region is a call the device makes ([BarSet]), raising a
    line of the interrupt controller one the bridge makes ([PicIrq]). *)

From S2P Require Import Prelude Cutils Hostmem Bytes.
From stdpp Require Import base list.
From Stdlib Require Import ZArith Lia Bool.
Local Open Scope Z_scope.
Local Open Scope bits_scope.
Local Open Scope list_scope.

Definition PCI_ADDRESS_SPACE_MEM : Z := 0x00.
Definition PCI_ADDRESS_SPACE_IO : Z := 0x01.
Definition PCI_ROM_SLOT : Z := 6.
Definition PCI_NUM_REGIONS : Z := 7.
Definition PCI_COMMAND : Z := 0x04.
Definition PCI_COMMAND_IO : Z := 1.
Definition PCI_COMMAND_MEMORY : Z := 2.
Definition PCI_STATUS : Z := 0x06.
Definition PCI_STATUS_CAP_LIST : Z := 16.
Definition PCI_SUBSYSTEM_VENDOR_ID : Z := 0x2c.
Definition PCI_SUBSYSTEM_ID : Z := 0x2e.
Definition PCI_CAPABILITY_LIST : Z := 0x34.
Definition PCI_INTERRUPT_LINE : Z := 0x3c.
Definition PCI_INTERRUPT_PIN : Z := 0x3d.

Record PCIIORegion := mkPCIIORegion { r_size : Z; r_type : Z; r_enabled : bool }.

Record PCIDevice := mkPCIDevice {
  devfn : Z;
  config : list Z;
  next_cap_offset : Z;
  io_regions : list PCIIORegion }.

#[export] Instance upd_config : Upd config := fun v d => mkPCIDevice (devfn d) v (next_cap_offset d) (io_regions d).
#[export] Instance upd_next_cap : Upd next_cap_offset := fun v d => mkPCIDevice (devfn d) (config d) v (io_regions d).
#[export] Instance upd_io_regions : Upd io_regions := fun v d => mkPCIDevice (devfn d) (config d) (next_cap_offset d) v.

(** [r->bar_set(r->opaque, bar, addr, enabled)]. *)
Record BarSet := mkBarSet { bar_num : Z; bar_addr : Z; bar_enabled : bool }.

(** ** One device

    The state is the device and the regions it has moved so far. *)

Abbreviation DM := (SM (PCIDevice * list BarSet)).

Definition on_pci (f : PCIDevice -> PCIDevice) : DM unit := modify (fun '(d, l) => (f d, l)).
Definition bar_set (r : BarSet) : DM unit := modify (fun '(d, l) => (d, l ++ [r])).

(** [memcpy(d->config + addr, data, len)] and the bytes at [d->config + addr]. *)
Definition cfg_put (addr : Z) (data : list Z) : DM unit :=
  d ← gets fst; c ← liftr (buf_put (config d) addr data); on_pci (fun d => d <| config := c |>).
Definition cfg_get (addr n : Z) : DM (list Z) := d ← gets fst; liftr (buf_get (config d) addr n).
Definition cfg_put16 (addr v : Z) : DM unit := cfg_put addr (put_le16 [0; 0] v).
Definition cfg_put32 (addr v : Z) : DM unit := cfg_put addr (put_le32 [0; 0; 0; 0] v).
Definition cfg_get8 (addr : Z) : DM Z := l ← cfg_get addr 1; mret (aget l 0).

(** A new device: [mallocz], the identity, the header type. *)
Definition new_pci_device (fn vendor_id device_id revision class_id : Z) : PCIDevice :=
  let c := put_le16 [0; 0] vendor_id ++ put_le16 [0; 0] device_id ++ [0; 0; 0; 0] ++ [u8 revision; 0] ++ put_le16 [0; 0] class_id ++ replicate 244 0 in
  mkPCIDevice (u8 fn) c 0x40 (replicate 7 (mkPCIIORegion 0 0 false)).

Definition pci_device_config_read (addr size_log2 : Z) : DM Z :=
  if size_log2 =? 0 then cfg_get8 addr
  else if size_log2 =? 1 then
    if addr <=? 0xfe then l ← cfg_get addr 2; mret (get_le16 l) else cfg_get8 addr
  else if size_log2 =? 2 then l ← cfg_get addr 4; mret (get_le32 l)
  else stop AssertFailed.

(** The configuration address of a region. *)
Definition bar_config_addr (bar : Z) : Z := if bar =? PCI_ROM_SLOT then 0x30 else 0x10 + 4 * bar.

Definition get_region (i : Z) : DM PCIIORegion := d ← gets fst;
  match io_regions d !! Z.to_nat i with Some r => mret r | None => stop UndefinedBehaviour end.
Definition set_region (i : Z) (r : PCIIORegion) : DM unit := on_pci (fun d => d <| io_regions := <[Z.to_nat i := r]> (io_regions d) |>).

Definition pci_register_bar (bar size type : Z) : DM unit :=
  _ ← liftr (assert_c (bar <? PCI_NUM_REGIONS));
  _ ← liftr (assert_c (size &' u32 (size - 1) =? 0));
  _ ← liftr (assert_c (4 <=? size));
  r ← get_region bar;
  _ ← liftr (assert_c (r_size r =? 0));
  _ ← set_region bar (mkPCIIORegion size (u8 type) false);
  cfg_put32 (bar_config_addr bar) (if bar =? PCI_ROM_SLOT then 0 else u8 type).

(** Whether a region is mapped under command word [cmd], with [addr] in its register. *)
Definition region_on (i : Z) (r : PCIIORegion) (cmd addr : Z) : bool :=
  if r_size r =? 0 then false
  else if tst (r_type r) PCI_ADDRESS_SPACE_IO && tst cmd PCI_COMMAND_IO then true
  else if tst cmd PCI_COMMAND_MEMORY then
    if i =? PCI_ROM_SLOT then tst addr 1 else true
  else false.

Definition update_mapping (cmd i : Z) : DM unit :=
  r ← get_region i;
  l ← cfg_get (bar_config_addr i) 4;
  let new_addr := get_le32 l in
  if region_on i r cmd new_addr then
    _ ← bar_set (mkBarSet i (new_addr &' not32 (u32 (r_size r - 1))) true);
    set_region i (mkPCIIORegion (r_size r) (r_type r) true)
  else if r_enabled r then
    _ ← bar_set (mkBarSet i 0 false);
    set_region i (mkPCIIORegion (r_size r) (r_type r) false)
  else mret tt.

Fixpoint update_loop (cmd i : Z) (n : nat) : DM unit :=
  match n with O => mret tt | S n => _ ← update_mapping cmd i; update_loop cmd (i + 1) n end.

Definition pci_update_mappings : DM unit :=
  l ← cfg_get PCI_COMMAND 2;
  update_loop (get_le16 l) 0 7.

(** The result is whether the write was handled. *)
Definition pci_write_bar (addr val : Z) : DM bool :=
  let reg := if addr =? 0x30 then PCI_ROM_SLOT else (addr - 0x10) >>' 2 in
  r ← get_region reg;
  if r_size r =? 0 then mret false
  else
    let mask := not32 (u32 (r_size r - 1)) in
    let val := if reg =? PCI_ROM_SLOT then val &' (mask |' 1) else (val &' mask) |' r_type r in
    _ ← cfg_put32 addr val;
    _ ← pci_update_mappings;
    mret true.

(** Registers of a device ([0x00], [0x80]) and of a bridge that cannot be written. *)
Definition read_only_ids (addr : Z) : bool :=
  (addr <? 0x04) || ((0x08 <=? addr) && (addr <? 0x0c)) || (addr =? 0x0e) || (addr =? 0x3d).
Definition read_only (header addr : Z) : bool :=
  if (header =? 0x00) || (header =? 0x80) then
    read_only_ids addr || ((0x10 <=? addr) && (addr <=? 0x27)) || ((0x30 <=? addr) && (addr <=? 0x33))
  else read_only_ids addr || ((0x38 <=? addr) && (addr <=? 0x3b)).

Definition pci_device_config_write8 (addr data : Z) : DM unit :=
  if (addr =? PCI_STATUS) || (addr =? PCI_STATUS + 1) then
    b ← cfg_get8 addr; cfg_put addr [u8 (b &' Z.lnot data)]
  else
    header ← cfg_get8 0x0e;
    if read_only header addr then mret tt else cfg_put addr [u8 data].

Fixpoint write_bytes (addr data i : Z) (n : nat) : DM unit :=
  match n with
  | O => mret tt
  | S n =>
      _ ← (if addr + i <=? 0xff then pci_device_config_write8 (addr + i) ((data >>' (i * 8)) &' 0xff) else mret tt);
      write_bytes addr data (i + 1) n
  end.

Definition pci_device_config_write (addr data size_log2 : Z) : DM unit :=
  handled ← (if (size_log2 =? 2) && (((0x10 <=? addr) && (addr <? 0x10 + 4 * 6)) || (addr =? 0x30)) then pci_write_bar addr data else mret false);
  if handled : bool then mret tt
  else
    let size := 1 <<' size_log2 in
    _ ← write_bytes addr data 0 (Z.to_nat size);
    if (addr <=? PCI_COMMAND) && (PCI_COMMAND <? addr + size) then pci_update_mappings else mret tt.

Definition pci_device_set_config8 (addr val : Z) : DM unit := cfg_put addr [u8 val].
Definition pci_device_set_config16 (addr val : Z) : DM unit := cfg_put16 addr val.

(** The offset of the capability, or -1. *)
Definition pci_add_capability (buf : list Z) : DM Z :=
  d ← gets fst;
  let offset := next_cap_offset d in
  if 256 <? offset + zlen buf then mret (-1)
  else
    _ ← on_pci (fun d => d <| next_cap_offset := u8 (offset + zlen buf) |>);
    st ← cfg_get8 PCI_STATUS;
    _ ← cfg_put PCI_STATUS [st |' PCI_STATUS_CAP_LIST];
    _ ← cfg_put offset buf;
    head ← cfg_get8 PCI_CAPABILITY_LIST;
    _ ← cfg_put (offset + 1) [head];
    _ ← cfg_put PCI_CAPABILITY_LIST [offset];
    mret offset.

(** ** The bus and the host bridge *)

Record PCIBus := mkPCIBus { bus_num : Z; device : list (option PCIDevice); irq_state : list (list Z) }.
#[export] Instance upd_device : Upd device := fun v b => mkPCIBus (bus_num b) v (irq_state b).
#[export] Instance upd_irq_state : Upd irq_state := fun v b => mkPCIBus (bus_num b) (device b) v.

Inductive PciCall := Bar (fn : Z) (b : BarSet) | PicIrq (n : Z) (level : bool).

Record I440FXState := mkI440FXState { pci_bus : PCIBus; config_reg : Z; pic_irq_state : list Z; pci_calls : list PciCall }.
#[export] Instance upd_pci_bus : Upd pci_bus := fun v s => mkI440FXState v (config_reg s) (pic_irq_state s) (pci_calls s).
#[export] Instance upd_config_reg : Upd config_reg := fun v s => mkI440FXState (pci_bus s) v (pic_irq_state s) (pci_calls s).
#[export] Instance upd_pic_irq_state : Upd pic_irq_state := fun v s => mkI440FXState (pci_bus s) (config_reg s) v (pci_calls s).
#[export] Instance upd_pci_calls : Upd pci_calls := fun v s => mkI440FXState (pci_bus s) (config_reg s) (pic_irq_state s) v.

Abbreviation PM := (SM I440FXState).

Definition on_bus (f : PCIBus -> PCIBus) : PM unit := modify (fun s => s <| pci_bus := f (pci_bus s) |>).
Definition pci_call (c : PciCall) : PM unit := modify (fun s => s <| pci_calls := pci_calls s ++ [c] |>).

Definition get_device (fn : Z) : PM (option PCIDevice) := s ← gets id;
  match device (pci_bus s) !! Z.to_nat fn with Some d => mret d | None => stop UndefinedBehaviour end.

(** [m] on the device at [fn]. *)
Definition on_device {A} (fn : Z) (m : DM A) : PM A :=
  d ← get_device fn;
  match d with
  | None => stop UndefinedBehaviour
  | Some d =>
      '(a, (d, l)) ← liftr (m (d, []));
      _ ← on_bus (fun b => b <| device := <[Z.to_nat fn := Some d]> (device b) |>);
      _ ← modify (fun s => s <| pci_calls := pci_calls s ++ map (Bar fn) l |>);
      mret a
  end.

(** The PIIX3 bridge, which routes the interrupts. *)
Definition piix3_devfn : Z := 8.

Definition i440fx_set_irq (irq_num : Z) (irq_level : bool) : PM unit :=
  pic_irq ← on_device piix3_devfn (
    b ← cfg_get8 (0x60 + irq_num);
    _ ← cfg_put (0x60 + irq_num) [b &' Z.lnot 0x80];
    cfg_get8 (0x60 + irq_num));
  if pic_irq <? 16 then
    s ← gets id;
    let st := aget (pic_irq_state s) pic_irq in
    let st := if irq_level then u8 (st |' (1 <<' irq_num)) else u8 (st &' Z.lnot (1 <<' irq_num)) in
    _ ← modify (fun s => s <| pic_irq_state := aset (pic_irq_state s) pic_irq st |>);
    pci_call (PicIrq pic_irq (negb (st =? 0)))
  else mret tt.

Definition bus_map_irq (fn irq_num : Z) : Z := (irq_num + ((fn >>' 3) - 1)) &' 3.

(** [b->irq_state[irq_num]]. *)
Definition irq_words (b : PCIBus) (irq_num : Z) : list Z := nth (Z.to_nat irq_num) (irq_state b) [].
Definition irq_level (words : list Z) : bool := negb (fold_left Z.lor words 0 =? 0).

Definition set_irq_bit (fn : Z) (level : bool) (words : list Z) : list Z :=
  let mask := u32 (1 <<' (fn &' 0x1f)) in
  let w := aget words (fn >>' 5) in
  aset words (fn >>' 5) (if level then w |' mask else w &' not32 mask).

(** An interrupt pin of the device at [fn]. *)
Definition pci_device_set_irq (fn irq_num : Z) (level : bool) : PM unit :=
  let n := bus_map_irq fn irq_num in
  _ ← on_bus (fun b => b <| irq_state := <[Z.to_nat n := set_irq_bit fn level (irq_words b n)]> (irq_state b) |>);
  s ← gets id;
  i440fx_set_irq n (irq_level (irq_words (pci_bus s) n)).

Fixpoint devfn_alloc_loop (b : PCIBus) (fn : Z) (n : nat) : Z :=
  match n with
  | O => -1
  | S n => match device b !! Z.to_nat fn with Some None => fn | _ => devfn_alloc_loop b (fn + 8) n end
  end.
Definition devfn_alloc (b : PCIBus) : Z := devfn_alloc_loop b 0 32.

(** The number of the new device; [None] is NULL. *)
Definition pci_register_device (fn vendor_id device_id revision class_id : Z) : PM (option Z) :=
  s ← gets id;
  let fn := if fn <? 0 then devfn_alloc (pci_bus s) else fn in
  if fn <? 0 then mret None
  else
    d ← get_device fn;
    match d with
    | Some _ => mret None
    | None => _ ← on_bus (fun b => b <| device := <[Z.to_nat fn := Some (new_pci_device fn vendor_id device_id revision class_id)]> (device b) |>); mret (Some fn)
    end.

Definition val_ones (size_log2 : Z) : PM Z :=
  if size_log2 =? 0 then mret 0xff else if size_log2 =? 1 then mret 0xffff else if size_log2 =? 2 then mret 0xffffffff else stop UndefinedBehaviour.

Definition pci_data_write (addr data size_log2 : Z) : PM unit :=
  s ← gets id;
  if negb ((addr >>' 16) &' 0xff =? bus_num (pci_bus s)) then mret tt
  else
    let fn := (addr >>' 8) &' 0xff in
    d ← get_device fn;
    match d with None => mret tt | Some _ => on_device fn (pci_device_config_write (addr &' 0xff) data size_log2) end.

Definition pci_data_read (addr size_log2 : Z) : PM Z :=
  s ← gets id;
  if negb ((addr >>' 16) &' 0xff =? bus_num (pci_bus s)) then val_ones size_log2
  else
    let fn := (addr >>' 8) &' 0xff in
    d ← get_device fn;
    match d with None => val_ones size_log2 | Some _ => on_device fn (pci_device_config_read (addr &' 0xff) size_log2) end.

Definition i440fx_write_addr (offset data size_log2 : Z) : PM unit := modify (fun s => s <| config_reg := data |>).
Definition i440fx_read_addr (offset size_log2 : Z) : PM Z := s ← gets id; mret (config_reg s).

Definition i440fx_write_data (offset data size_log2 : Z) : PM unit :=
  s ← gets id;
  if tst (config_reg s) 0x80000000 then
    if size_log2 =? 2 then pci_data_write (config_reg s &' not32 3) data size_log2
    else pci_data_write (config_reg s |' offset) data size_log2
  else mret tt.

Definition i440fx_read_data (offset size_log2 : Z) : PM Z :=
  s ← gets id;
  if negb (tst (config_reg s) 0x80000000) then val_ones size_log2
  else if size_log2 =? 2 then pci_data_read (config_reg s &' not32 3) size_log2
  else pci_data_read (config_reg s |' offset) size_log2.

(** The bus with the two bridges. *)
Definition i440fx_init : res I440FXState :=
  let s := mkI440FXState (mkPCIBus 0 (replicate 256 None) (replicate 4 (replicate 8 0))) 0 (replicate 16 0) [] in
  '(_, s) ← (
    _ ← pci_register_device 0 0x8086 0x1237 0x02 0x0600;
    _ ← on_device 0 (_ ← cfg_put16 PCI_SUBSYSTEM_VENDOR_ID 0x1af4; cfg_put16 PCI_SUBSYSTEM_ID 0x1100);
    _ ← pci_register_device piix3_devfn 0x8086 0x7000 0x00 0x0601;
    on_device piix3_devfn (pci_device_set_config8 0x0e 0x80)) s;
  Done s.

(** The routing of the four lines; the trigger registers [elcr] are returned. *)
Fixpoint route_lines (irqs : list Z) (i : Z) (elcr : list Z) : PM (list Z) :=
  match irqs with
  | [] => mret elcr
  | irq_num :: irqs =>
      _ ← on_device piix3_devfn (cfg_put (0x60 + i) [irq_num]);
      if irq_num >>' 3 <? 2 then route_lines irqs (i + 1) (aset elcr (irq_num >>' 3) (u8 (aget elcr (irq_num >>' 3) |' (1 <<' (irq_num &' 7)))))
      else stop UndefinedBehaviour
  end.

Definition route_device (fn : Z) : PM unit :=
  d ← get_device fn;
  match d with
  | None => mret tt
  | Some _ =>
      pin ← on_device fn (cfg_get8 PCI_INTERRUPT_PIN);
      if pin =? 0 then mret tt
      else
        pic_irq ← on_device piix3_devfn (cfg_get8 (0x60 + bus_map_irq fn 0));
        if pic_irq <? 16 then on_device fn (cfg_put PCI_INTERRUPT_LINE [pic_irq]) else mret tt
  end.
Fixpoint route_devices (fn : Z) (n : nat) : PM unit :=
  match n with O => mret tt | S n => _ ← route_device fn; route_devices (fn + 1) n end.

Definition i440fx_map_interrupts (pci_irqs : list Z) : PM (list Z) :=
  elcr ← route_lines (take 4 pci_irqs) 0 [0; 0];
  _ ← route_devices 0 256;
  mret elcr.

(** ** A virtio device on the bus *)

Definition virtio_add_pci_capability (cfg_type bar offset len mult : Z) : DM Z :=
  let cap := [0x09; 0; if cfg_type =? 2 then 20 else 16; u8 cfg_type; u8 bar; 0; 0; 0] ++ put_le32 [0; 0; 0; 0] offset ++ put_le32 [0; 0; 0; 0] len in
  pci_add_capability (if cfg_type =? 2 then cap ++ put_le32 [0; 0; 0; 0] mult else cap).

(** The PCI device and class of a virtio device. *)
Definition virtio_pci_id (device_id : Z) : option (Z * Z) :=
  if device_id =? 1 then Some (0x1000, 0x0200)
  else if device_id =? 2 then Some (0x1001, 0x0100)
  else if device_id =? 3 then Some (0x1003, 0x0780)
  else if device_id =? 9 then Some (0x1040 + device_id, 0x2)
  else if device_id =? 18 then Some (0x1040 + device_id, 0x0980)
  else None.

Definition virtio_pci_setup (device_id : Z) : DM unit :=
  _ ← pci_device_set_config16 0x2c 0x1af4;
  _ ← pci_device_set_config16 0x2e device_id;
  _ ← pci_device_set_config8 PCI_INTERRUPT_PIN 1;
  _ ← virtio_add_pci_capability 1 4 0x0000 0x1000 0;
  _ ← virtio_add_pci_capability 3 4 0x1000 0x1000 0;
  _ ← virtio_add_pci_capability 4 4 0x2000 0x1000 0;
  _ ← virtio_add_pci_capability 2 4 0x3000 0x1000 0;
  pci_register_bar 4 0x4000 PCI_ADDRESS_SPACE_MEM.

(** The PCI part of [virtio_init]; a full bus makes the device pointer NULL. *)
Definition virtio_init_pci (device_id : Z) : PM Z :=
  match virtio_pci_id device_id with
  | None => stop AssertFailed
  | Some (pci_device_id, class_id) =>
      fn ← pci_register_device (-1) 0x1af4 pci_device_id 0x00 class_id;
      match fn with None => stop UndefinedBehaviour | Some fn => _ ← on_device fn (virtio_pci_setup device_id); mret fn end
  end.
