(* ===== verification/PciSpec.v ===== *)
(** * What a PCI driver may rely on

    The identity of a device cannot be changed through its configuration
    space; a base address register holds the bits of an address that its size
    leaves free, and moves its region there; the capabilities form a list that
    ends; a line of the bus is high exactly when some device raises it. *)

From S2P Require Import Prelude Cutils Hostmem Bytes VirtioQueue Pci.
From stdpp Require Import base list.
From Stdlib Require Import ZArith Lia Bool.
Local Open Scope Z_scope.
Local Open Scope bits_scope.
Local Open Scope list_scope.

Record pci_wf (d : PCIDevice) : Prop := {
  pw_config : zlen (config d) = 256 /\ is_bytes (config d);
  pw_regions : List.length (io_regions d) = 7%nat;
  pw_sizes : Forall (fun r => r_size r = 0 \/ exists k, 2 <= k < 32 /\ r_size r = 2 ^ k) (io_regions d);
  pw_types : Forall (fun r => in_u 8 (r_type r)) (io_regions d) }.


(** ** Reading and writing configuration space *)

Lemma splice_bytes buf pos data : is_bytes buf -> is_bytes data -> is_bytes (splice buf pos data).
Proof. intros Hb Hd. unfold splice. repeat apply Forall_app_2; auto using Forall_take, Forall_drop. Qed.

(** A device whose configuration bytes changed at [addr]. *)
Definition poked (addr : Z) (data : list Z) (d : PCIDevice) : PCIDevice := d <| config := splice (config d) addr data |>.

Lemma cfg_put_run addr data d l : pci_wf d -> 0 <= addr -> addr + zlen data <= 256 -> cfg_put addr data (d, l) = Done (tt, (poked addr data d, l)).
Proof.
  intros Hw Ha Hl. destruct (pw_config _ Hw) as [Hz _]. unfold cfg_put. rewrite run_gets. cbn [fst]. rewrite buf_put_splice by lia. reflexivity.
Qed.
Lemma cfg_get_run addr n d l : pci_wf d -> 0 <= addr -> 0 <= n -> addr + n <= 256 -> cfg_get addr n (d, l) = Done (slice (config d) addr n, (d, l)).
Proof. intros Hw Ha Hn Hl. destruct (pw_config _ Hw) as [Hz _]. unfold cfg_get. rewrite run_gets. cbn [fst]. rewrite buf_get_run by lia. reflexivity. Qed.

Lemma poked_wf addr data d : pci_wf d -> is_bytes data -> 0 <= addr -> addr + zlen data <= 256 -> pci_wf (poked addr data d).
Proof.
  intros [[Hz Hb] ? ? ?] Hd Ha Hl. constructor; auto. cbn. split; [rewrite zlen_splice; lia|apply splice_bytes; assumption].
Qed.

Lemma aget_slice c addr : 0 <= addr -> addr < zlen c -> aget (slice c addr 1) 0 = aget c addr.
Proof.
  intros Ha Hl. unfold aget, slice, zlen in *. rewrite !nth_lookup. change (Z.to_nat 0) with 0%nat. change (Z.to_nat 1) with 1%nat.
  rewrite lookup_take_lt, lookup_drop, Nat.add_0_r by lia. reflexivity.
Qed.
Lemma cfg_get8_run addr d l : pci_wf d -> 0 <= addr < 256 -> cfg_get8 addr (d, l) = Done (aget (config d) addr, (d, l)).
Proof.
  intros Hw Ha. unfold cfg_get8. rewrite run_bind, cfg_get_run by (auto; lia). destruct (pw_config _ Hw) as [Hz _]. rewrite aget_slice by lia. reflexivity.
Qed.

(** Bytes outside the written block stay. *)
Lemma aget_splice c addr data a : 0 <= addr -> addr + zlen data <= zlen c -> 0 <= a -> a < addr \/ addr + zlen data <= a -> aget (splice c addr data) a = aget c a.
Proof.
  intros Ha Hl Ha0 Ho. unfold aget, splice, zlen in *. rewrite !nth_lookup. f_equal. destruct Ho.
  - rewrite lookup_app_l, lookup_take_lt by (rewrite ?length_take; lia). reflexivity.
  - rewrite lookup_app_r, lookup_app_r, lookup_drop by (rewrite ?length_take; lia). f_equal. rewrite length_take. lia.
Qed.
Lemma slice_splice_same c addr data : 0 <= addr -> addr + zlen data <= zlen c -> slice (splice c addr data) addr (zlen data) = data.
Proof.
  intros Ha Hl. unfold slice, splice, zlen in *. rewrite drop_app_length' by (rewrite length_take; lia). rewrite Nat2Z.id. apply take_app_length.
Qed.
Lemma slice_splice_other c addr data p n : 0 <= addr -> addr + zlen data <= zlen c -> 0 <= p -> 0 <= n -> p + n <= addr \/ addr + zlen data <= p ->
  slice (splice c addr data) p n = slice c p n.
Proof.
  intros Ha Hl Hp Hn Ho. apply list_eq. intros i. unfold slice. destruct (decide (i < Z.to_nat n)%nat) as [Hi|Hi].
  - rewrite !lookup_take_lt, !lookup_drop by exact Hi. unfold splice, zlen in *. destruct Ho.
    + rewrite lookup_app_l, lookup_take_lt by (rewrite ?length_take; lia). reflexivity.
    + rewrite lookup_app_r, lookup_app_r, lookup_drop by (rewrite ?length_take; lia). f_equal. rewrite length_take. lia.
  - rewrite !lookup_take_ge by lia. reflexivity.
Qed.

(** ** Identity *)

(** The bytes that identify a device. *)
Definition same_ids (c c' : list Z) : Prop := forall a, read_only_ids a = true -> 0 <= a -> aget c' a = aget c a.

Definition plain_header (d : PCIDevice) : Prop := aget (config d) 0x0e = 0x00 \/ aget (config d) 0x0e = 0x80.

(** What an access of the driver may do to a device. *)
Definition access_ok (d d' : PCIDevice) : Prop := pci_wf d' /\ plain_header d' /\ same_ids (config d) (config d') /\ devfn d' = devfn d.

(** The step returns, with a result that satisfies [P]. *)
Definition good {A} (m : DM A) (P : A -> Prop) : Prop := forall d l, pci_wf d -> plain_header d ->
  exists a d' l', m (d, l) = Done (a, (d', l')) /\ P a /\ access_ok d d'.

Lemma access_refl d : pci_wf d -> plain_header d -> access_ok d d.
Proof. intros Hw Hp. repeat split; auto; apply Hw. Qed.
Lemma good_ret {A} (a : A) (P : A -> Prop) : P a -> good (mret a) P.
Proof. intros Ha d l Hw Hp. exists a, d, l. split; [reflexivity|]. auto using access_refl. Qed.
Lemma good_bind {A B} (m : DM A) (f : A -> DM B) (P : A -> Prop) Q : good m P -> (forall a, P a -> good (f a) Q) -> good (m ≫= f) Q.
Proof.
  intros Hm Hf d l Hw Hp. destruct (Hm d l Hw Hp) as (a & d1 & l1 & E1 & Ha & Hw1 & Hp1 & Hi1 & Hn1).
  destruct (Hf a Ha d1 l1 Hw1 Hp1) as (b & d2 & l2 & E2 & Hb & Hw2 & Hp2 & Hi2 & Hn2).
  exists b, d2, l2. rewrite run_bind, E1. split; [exact E2|]. split; [exact Hb|]. split; [exact Hw2|]. split; [exact Hp2|]. split; [|congruence].
  intros x Hr Hx. rewrite Hi2 by auto. apply Hi1; auto.
Qed.

Lemma good_put addr data : is_bytes data -> 0 <= addr -> addr + zlen data <= 256 -> (forall a, addr <= a < addr + zlen data -> read_only_ids a = false) ->
  good (cfg_put addr data) (fun _ => True).
Proof.
  intros Hd Ha Hl Hro d l Hw Hp. exists tt, (poked addr data d), l. rewrite cfg_put_run by auto. split; [reflexivity|]. split; [exact I|].
  pose proof (pw_config _ Hw) as [Hz _].
  assert (same_ids (config d) (config (poked addr data d))) as Hi.
  { intros a Hr Ha0. apply aget_splice; try lia. destruct (Z.lt_ge_cases a addr); [auto|]. right.
    destruct (Z.le_gt_cases (addr + zlen data) a); [assumption|]. rewrite Hro in Hr by lia. discriminate. }
  split; [apply poked_wf; auto|]. split; [unfold plain_header; rewrite (Hi 0x0e eq_refl) by lia; exact Hp|]. split; [exact Hi|reflexivity].
Qed.
Lemma good_get addr n : 0 <= addr -> 0 <= n -> addr + n <= 256 -> good (cfg_get addr n) (fun _ => True).
Proof. intros Ha Hn Hl d l Hw Hp. eexists _, d, l. rewrite cfg_get_run by auto. split; [reflexivity|]. auto using access_refl. Qed.
Lemma good_get8 addr : 0 <= addr < 256 -> good (cfg_get8 addr) (in_u 8).
Proof.
  intros Ha d l Hw Hp. eexists _, d, l. rewrite cfg_get8_run by auto. split; [reflexivity|]. split; [|auto using access_refl].
  destruct (pw_config _ Hw) as [Hz Hb]. refine (proj1 (Forall_nth _ 0 _) Hb _ _). unfold zlen in Hz. lia.
Qed.

Definition region_ok (r : PCIIORegion) : Prop := (r_size r = 0 \/ exists k, 2 <= k < 32 /\ r_size r = 2 ^ k) /\ in_u 8 (r_type r).

Lemma get_region_run i d l : pci_wf d -> 0 <= i < 7 -> exists r, io_regions d !! Z.to_nat i = Some r /\ get_region i (d, l) = Done (r, (d, l)) /\ region_ok r.
Proof.
  intros Hw Hi. destruct (lookup_lt_is_Some_2 (io_regions d) (Z.to_nat i)) as [r E]; [rewrite (pw_regions _ Hw); lia|]. exists r. split; [exact E|].
  unfold get_region. rewrite run_gets. cbn [fst]. rewrite E. split; [reflexivity|]. split; [exact (Forall_lookup_1 _ _ _ _ (pw_sizes _ Hw) E)|exact (Forall_lookup_1 _ _ _ _ (pw_types _ Hw) E)].
Qed.
Lemma good_get_region i : 0 <= i < 7 -> good (get_region i) region_ok.
Proof.
  intros Hi d l Hw Hp. destruct (get_region_run i d l Hw Hi) as (r & _ & E & Hr). exists r, d, l. split; [exact E|]. auto using access_refl.
Qed.
Lemma good_set_region i r : region_ok r -> good (set_region i r) (fun _ => True).
Proof.
  intros [Hs Ht] d l Hw Hp. eexists tt, _, l. split; [reflexivity|]. split; [exact I|]. split; [|repeat split; auto].
  destruct Hw as [? Hr Hz Ht']. constructor; auto; cbn; [rewrite length_insert; exact Hr|apply Forall_insert; assumption|apply Forall_insert; assumption].
Qed.
Lemma good_bar_set b : good (bar_set b) (fun _ => True).
Proof. intros d l Hw Hp. eexists tt, d, _. split; [reflexivity|]. auto using access_refl. Qed.

Lemma bar_config_range i : 0 <= i < 7 -> 0x10 <= bar_config_addr i /\ bar_config_addr i + 4 <= 0x34.
Proof. unfold bar_config_addr, PCI_ROM_SLOT. destruct (Z.eqb_spec i 6); lia. Qed.

Lemma good_update_mapping cmd i : 0 <= i < 7 -> good (update_mapping cmd i) (fun _ => True).
Proof.
  intros Hi. pose proof (bar_config_range i Hi). unfold update_mapping. eapply good_bind; [apply good_get_region, Hi|]. intros r Hr.
  eapply good_bind; [apply good_get; lia|]. intros c _. cbv zeta. destruct (region_on _ _ _ _); [|destruct (r_enabled r); [|apply good_ret; exact I]];
    (eapply good_bind; [apply good_bar_set|]); intros _ _; apply good_set_region; exact Hr.
Qed.
Lemma good_update_loop cmd n : forall i, 0 <= i -> i + Z.of_nat n <= 7 -> good (update_loop cmd i n) (fun _ => True).
Proof.
  induction n as [|n IH]; intros i Hi Hn; cbn [update_loop]; [apply good_ret; exact I|].
  eapply good_bind; [apply good_update_mapping; lia|]. intros _ _. apply IH; lia.
Qed.
Lemma good_update_mappings : good pci_update_mappings (fun _ => True).
Proof. unfold pci_update_mappings. eapply good_bind; [apply good_get; unfold PCI_COMMAND; lia|]. intros c _. apply good_update_loop; lia. Qed.

Lemma put32_bytes v : is_bytes (put_le32 [0; 0; 0; 0] v).
Proof. unfold put_le32. repeat constructor; apply wrapu_range; lia. Qed.

Lemma ids_false a : (0x10 <= a < 0x3d) -> read_only_ids a = false.
Proof.
  intros Ha. unfold read_only_ids. destruct (Z.ltb_spec a 4), (Z.leb_spec 8 a), (Z.ltb_spec a 12), (Z.eqb_spec a 14), (Z.eqb_spec a 61); try lia; reflexivity.
Qed.

Lemma good_write_bar addr v : 0x10 <= addr <= 0x30 -> (addr < 0x28 \/ addr = 0x30) -> good (pci_write_bar addr v) (fun _ => True).
Proof.
  intros Ha Hb. unfold pci_write_bar. cbv zeta. set (reg := if addr =? 0x30 then _ else _).
  assert (0 <= reg < 7) as Hr.
  { unfold reg, PCI_ROM_SLOT. destruct (Z.eqb_spec addr 0x30); [lia|]. rewrite Z.shiftr_div_pow2 by lia. Z.to_euclidean_division_equations; lia. }
  eapply good_bind; [apply good_get_region, Hr|]. intros r _. destruct (r_size r =? 0); [apply good_ret; exact I|].
  eapply good_bind; [apply good_put; [apply put32_bytes|lia|change (zlen (put_le32 [0; 0; 0; 0] ?v)) with 4; lia|]|].
  - intros a. change (zlen (put_le32 [0; 0; 0; 0] ?v)) with 4. intros Hx. apply ids_false. lia.
  - intros _ _. eapply good_bind; [apply good_update_mappings|]. intros _ _. apply good_ret. exact I.
Qed.

Lemma good_write8 addr data : 0 <= addr <= 0xff -> good (pci_device_config_write8 addr data) (fun _ => True).
Proof.
  intros Ha. unfold pci_device_config_write8, PCI_STATUS. destruct ((addr =? 6) || (addr =? 6 + 1)) eqn:Es.
  - eapply good_bind; [apply good_get8; lia|]. intros b Hb. apply good_put; [repeat constructor; apply wrapu_range; lia|lia|change (zlen [_]) with 1; lia|].
    change (zlen [_]) with 1. intros a Hx. assert (a = 6 \/ a = 7) as [-> | ->] by (apply orb_true_iff in Es as [E|E]; apply Z.eqb_eq in E; lia); reflexivity.
  - intros d l Hw Hp. unfold pci_device_config_write8. rewrite run_bind, cfg_get8_run by (auto; lia).
    assert (((aget (config d) 14 =? 0) || (aget (config d) 14 =? 128)) = true) as Eh by (destruct Hp as [-> | ->]; reflexivity).
    unfold read_only. rewrite Eh. destruct (read_only_ids addr) eqn:Er; cbn [orb]; [exists tt, d, l; split; [reflexivity|]; auto using access_refl|].
    match goal with |- context [if ?b then mret tt else _] => destruct b end; [exists tt, d, l; split; [reflexivity|]; auto using access_refl|].
    apply (good_put addr [u8 data]); auto; [repeat constructor; apply wrapu_range; lia|lia|change (zlen [_]) with 1; lia|].
    change (zlen [_]) with 1. intros a Hx. replace a with addr by lia. exact Er.
Qed.

Lemma good_write_bytes addr data n : forall i, 0 <= addr -> 0 <= i -> good (write_bytes addr data i n) (fun _ => True).
Proof.
  induction n as [|n IH]; intros i Ha Hi; cbn [write_bytes]; [apply good_ret; exact I|]. eapply good_bind with (P := fun _ => True).
  - destruct (Z.leb_spec (addr + i) 0xff); [apply good_write8; lia|apply good_ret; exact I].
  - intros _ _. apply IH; lia.
Qed.

Lemma good_config_write addr data l2 : 0 <= addr <= 0xff -> (l2 = 2 -> addr mod 4 = 0) -> good (pci_device_config_write addr data l2) (fun _ => True).
Proof.
  intros Ha Hal. unfold pci_device_config_write. cbv zeta. eapply good_bind with (P := fun _ => True).
  - destruct (Z.eqb_spec l2 2) as [E|]; cbn [andb]; [|apply good_ret; exact I]. specialize (Hal E).
    destruct (Z.leb_spec 0x10 addr), (Z.ltb_spec addr (0x10 + 4 * 6)), (Z.eqb_spec addr 0x30); cbn [andb orb]; try (apply good_ret; exact I); apply good_write_bar; lia.
  - intros [] _; [apply good_ret; exact I|]. eapply good_bind; [apply good_write_bytes; lia|]. intros _ _.
    destruct (_ && _); [apply good_update_mappings|apply good_ret; exact I].
Qed.

(** ** The bus *)

Definition bus_wf (b : PCIBus) : Prop := List.length (device b) = 256%nat /\
  forall fn d, device b !! fn = Some (Some d) -> pci_wf d /\ plain_header d.

(** The bytes of the configuration header that identify a device: vendor and device (0 to 3), revision and class (8 to 11),
    header type (14) and interrupt pin (61). *)
Definition identity_bytes : list Z := [0; 1; 2; 3; 8; 9; 10; 11; 14; 61].

Definition same_identity (d d' : PCIDevice) : Prop := Forall (fun a => aget (config d') a = aget (config d) a) identity_bytes.

Lemma ids_identity d d' : same_ids (config d) (config d') -> same_identity d d'.
Proof. intros H. unfold same_identity, identity_bytes. repeat constructor; apply H; reflexivity || lia. Qed.

(** The devices of the bus before and after: the same slots, with the same identities. *)
Definition same_devices (b b' : PCIBus) : Prop := forall fn, match device b !! fn, device b' !! fn with
  | Some (Some d), Some (Some d') => same_identity d d' /\ devfn d' = devfn d
  | Some None, Some None | None, None => True
  | _, _ => False
  end.

Lemma same_devices_refl b : same_devices b b.
Proof. intros fn. destruct (device b !! fn) as [[d|]|]; auto. split; [apply ids_identity; intros a _ _; reflexivity|reflexivity]. Qed.

Lemma on_device_run {A} fn (m : DM A) P s d : good m P -> bus_wf (pci_bus s) -> device (pci_bus s) !! Z.to_nat fn = Some (Some d) ->
  exists a s', on_device fn m s = Done (a, s') /\ P a /\ bus_wf (pci_bus s') /\ same_devices (pci_bus s) (pci_bus s') /\
    config_reg s' = config_reg s /\ irq_state (pci_bus s') = irq_state (pci_bus s).
Proof.
  intros Hm [Hl Hd] Ed. destruct (Hd _ _ Ed) as [Hw Hp]. destruct (Hm d [] Hw Hp) as (a & d' & l' & E & Ha & Hw' & Hp' & Hi & Hn).
  unfold on_device, get_device. rewrite run_assoc, run_gets. unfold id. rewrite Ed, run_bind_ret, E, run_liftr_done. unfold on_bus. rewrite run_modify, run_modify.
  eexists a, _. split; [reflexivity|]. split; [exact Ha|]. cbn. assert (Z.to_nat fn < 256)%nat as Hlt by (rewrite <- Hl; eapply lookup_lt_Some, Ed).
  split; [|split; [|split; reflexivity]].
  - split; [cbn; rewrite length_insert; exact Hl|]. cbn. intros x dx Ex. apply list_lookup_insert_Some in Ex as [(_ & [= <-] & _)|[_ Ex]]; [auto|exact (Hd _ _ Ex)].
  - intros x. cbn. destruct (decide (x = Z.to_nat fn)) as [->|Hne].
    + rewrite Ed, list_lookup_insert_eq by lia. auto using ids_identity.
    + rewrite list_lookup_insert_ne by congruence. exact (same_devices_refl (pci_bus s) x).
Qed.

(** Where a configuration cycle of [2 ^ l2] bytes lands. *)
Lemma cycle_addr s offset l2 : in_u 32 (config_reg s) -> 0 <= offset < 4 ->
  let addr := if l2 =? 2 then config_reg s &' not32 3 else config_reg s |' offset in in_u 32 addr /\ (l2 = 2 -> addr mod 4 = 0).
Proof.
  intros Hc Ho addr. unfold addr. destruct (Z.eqb_spec l2 2) as [E2|Hne]; (split; [|intros; try lia]).
  - apply land_range; [lia|exact Hc].
  - apply Z.bits_inj'. intros i Hi. rewrite Z.bits_0. destruct (Z.lt_ge_cases i 2).
    + change 4 with (2 ^ 2). rewrite Z.mod_pow2_bits_low, Z.land_spec, not32_spec by lia. assert (i = 0 \/ i = 1) as [-> | ->] by lia; cbn; apply andb_false_r.
    + change 4 with (2 ^ 2). apply Z.mod_pow2_bits_high. lia.
  - apply lor_range; [lia|exact Hc|unfold in_u; lia].
Qed.

Lemma reg_addr addr l2 : in_u 32 addr -> (l2 = 2 -> addr mod 4 = 0) -> 0 <= addr &' 0xff <= 0xff /\ (l2 = 2 -> (addr &' 0xff) mod 4 = 0).
Proof.
  intros Ha Hal. split; [pose proof (land_range_r 8 addr 0xff ltac:(lia) ltac:(easy)); unfold in_u in *; lia|].
  intros E2. change 0xff with (Z.ones 8). rewrite Z.land_ones by lia. change (2 ^ 8) with (4 * 64). rewrite Z.rem_mul_r by lia. rewrite Hal by exact E2.
  rewrite Z.add_0_l, Z.mul_comm. apply Z_mod_mult.
Qed.

(** A read of configuration space stays in it, and changes nothing. *)
Lemma config_read_run a l2 d l : pci_wf d -> 0 <= a <= 0xff -> (l2 = 2 -> a mod 4 = 0) -> 0 <= l2 <= 2 ->
  exists v, pci_device_config_read a l2 (d, l) = Done (v, (d, l)) /\ in_u (8 * 2 ^ l2) v.
Proof.
  intros Hw Ha Hal Hl. unfold pci_device_config_read.
  assert (exists v, cfg_get8 a (d, l) = Done (v, (d, l)) /\ in_u 8 v) as (b & Eb & Hb)
    by (exists (aget (config d) a); split; [apply cfg_get8_run; [exact Hw|lia]|destruct (pw_config _ Hw) as [Hz Hbs]; refine (proj1 (Forall_nth _ 0 _) Hbs _ _); unfold zlen in Hz; lia]).
  assert (l2 = 0 \/ l2 = 1 \/ l2 = 2) as [-> |[-> | ->]] by lia; cbn [Z.eqb Pos.eqb].
  - exists b. auto.
  - destruct (Z.leb_spec a 0xfe); [|exists b; split; [exact Eb|change (8 * 2 ^ 1) with 16; unfold in_u in *; lia]].
    rewrite run_bind, cfg_get_run by (auto; lia). eexists. split; [reflexivity|apply get_le16_range].
  - specialize (Hal eq_refl). rewrite run_bind, cfg_get_run by (auto; Z.to_euclidean_division_equations; lia). eexists. split; [reflexivity|apply get_le32_range].
Qed.

Lemma on_device_read fn (m : DM Z) s d v : device (pci_bus s) !! Z.to_nat fn = Some (Some d) -> m (d, []) = Done (v, (d, [])) -> on_device fn m s = Done (v, s).
Proof.
  intros Ed E. unfold on_device, get_device. rewrite run_assoc, run_gets. unfold id. rewrite Ed, run_bind_ret, E, run_liftr_done. unfold on_bus. rewrite !run_modify, run_ret.
  destruct s as [[num devs irqs] reg pics cs]. cbn. rewrite app_nil_r, list_insert_id by exact Ed. reflexivity.
Qed.

Lemma val_ones_run l2 s : 0 <= l2 <= 2 -> exists v, val_ones l2 s = Done (v, s) /\ in_u (8 * 2 ^ l2) v.
Proof. intros Hl. assert (l2 = 0 \/ l2 = 1 \/ l2 = 2) as [-> |[-> | ->]] by lia; eexists; (split; [reflexivity|easy]). Qed.

Lemma data_read_run addr l2 s : bus_wf (pci_bus s) -> in_u 32 addr -> (l2 = 2 -> addr mod 4 = 0) -> 0 <= l2 <= 2 ->
  exists v, pci_data_read addr l2 s = Done (v, s) /\ in_u (8 * 2 ^ l2) v.
Proof.
  intros Hb Ha Hal Hl. unfold pci_data_read. rewrite run_gets. unfold id. destruct (negb _); [apply val_ones_run, Hl|]. set (fn := (addr >>' 8) &' 0xff).
  assert (0 <= fn < 256) as Hfn by (unfold fn; pose proof (land_range_r 8 (addr >>' 8) 0xff ltac:(lia) ltac:(easy)); unfold in_u in *; lia).
  destruct Hb as [Hlen Hd]. destruct (lookup_lt_is_Some_2 (device (pci_bus s)) (Z.to_nat fn)) as [od Eo]; [rewrite Hlen; lia|].
  unfold get_device. rewrite run_assoc, run_gets. unfold id. rewrite Eo, run_bind_ret. destruct od as [d|]; [|apply val_ones_run, Hl].
  destruct (reg_addr addr l2 Ha Hal) as [R1 R2]. destruct (config_read_run (addr &' 0xff) l2 d [] (proj1 (Hd _ _ Eo)) R1 R2 Hl) as (v & E & Hv).
  exists v. split; [apply (on_device_read fn _ s d); assumption|exact Hv].
Qed.

(** C26 Configuration cycles are safe: any access through the two ports of the host bridge, of one, two or four bytes, returns.
    A write keeps every device well formed, creates and removes no device, and leaves the bytes that identify each device
    (vendor, device, revision, class, header type, interrupt pin) as they were; a read stays inside the 256 bytes of the
    device, returns a number of the width of the access, and changes nothing. *)
Theorem pci_config_safe s offset data l2 : bus_wf (pci_bus s) -> in_u 32 (config_reg s) -> in_u 32 data -> 0 <= offset < 4 -> 0 <= l2 <= 2 ->
  (exists s', i440fx_write_data offset data l2 s = Done (tt, s') /\ bus_wf (pci_bus s') /\ same_devices (pci_bus s) (pci_bus s')) /\
  (exists s', i440fx_write_addr offset data l2 s = Done (tt, s') /\ pci_bus s' = pci_bus s /\ config_reg s' = data) /\
  (exists v, i440fx_read_data offset l2 s = Done (v, s) /\ in_u (8 * 2 ^ l2) v) /\
  i440fx_read_addr offset l2 s = Done (config_reg s, s).
Proof.
  intros Hb Hc Hd Ho Hl. destruct (cycle_addr s offset l2 Hc Ho) as [Hu H4]. split; [|split; [eexists; split; [reflexivity|split; reflexivity]|split; [|reflexivity]]].
  - assert (exists s', (mret tt : PM unit) s = Done (tt, s') /\ bus_wf (pci_bus s') /\ same_devices (pci_bus s) (pci_bus s')) as Hskip
      by (exists s; split; [reflexivity|split; [exact Hb|apply same_devices_refl]]).
    assert (forall addr, in_u 32 addr -> (l2 = 2 -> addr mod 4 = 0) ->
      exists s', pci_data_write addr data l2 s = Done (tt, s') /\ bus_wf (pci_bus s') /\ same_devices (pci_bus s) (pci_bus s')) as Hw.
    { intros addr Ha Hal. unfold pci_data_write. rewrite run_gets. unfold id. destruct (negb _); [exact Hskip|]. set (fn := (addr >>' 8) &' 0xff).
      assert (0 <= fn < 256) as Hfn by (unfold fn; pose proof (land_range_r 8 (addr >>' 8) 0xff ltac:(lia) ltac:(easy)); unfold in_u in *; lia).
      destruct (lookup_lt_is_Some_2 (device (pci_bus s)) (Z.to_nat fn)) as [od Eo]; [destruct Hb as [-> _]; lia|].
      unfold get_device. rewrite run_assoc, run_gets. unfold id. rewrite Eo, run_bind_ret. destruct od as [d|]; [|exact Hskip].
      destruct (reg_addr addr l2 Ha Hal) as [Hca Hca4].
      destruct (on_device_run fn _ _ s d (good_config_write (addr &' 0xff) data l2 Hca Hca4) Hb Eo) as ([] & s' & E & _ & Hb' & Hs' & _).
      exists s'. auto. }
    unfold i440fx_write_data. rewrite run_gets. unfold id. destruct (tst _ _); [|exact Hskip]. destruct (l2 =? 2); apply Hw; assumption.
  - unfold i440fx_read_data. rewrite run_gets. unfold id. destruct (negb _); [apply val_ones_run, Hl|].
    destruct (l2 =? 2); apply data_read_run; assumption.
Qed.

(** ** Base address registers *)

(** The size and type of a region do not change. *)
Definition region_at (d : PCIDevice) (i size type : Z) : Prop := exists e, io_regions d !! Z.to_nat i = Some (mkPCIIORegion size type e).

(** Updating the mappings changes only which regions are enabled. *)
Definition same_setup (d d' : PCIDevice) : Prop := config d' = config d /\ forall i size type, 0 <= i -> region_at d i size type -> region_at d' i size type.

Lemma set_enabled_setup i r e d : io_regions d !! Z.to_nat i = Some r -> 0 <= i ->
  same_setup d (d <| io_regions := <[Z.to_nat i := mkPCIIORegion (r_size r) (r_type r) e]> (io_regions d) |>).
Proof.
  intros E Hi. split; [reflexivity|]. intros j size type Hj (e' & Ej). unfold region_at. cbn. destruct (decide (Z.to_nat j = Z.to_nat i)) as [Eij|Hne].
  - rewrite Eij, list_lookup_insert_eq by (eapply lookup_lt_Some, E). rewrite Eij, E in Ej. injection Ej as ->. eauto.
  - rewrite list_lookup_insert_ne by congruence. eauto.
Qed.

(** The address in the register of region [i], without the bits its size covers. *)
Definition bar_target (d : PCIDevice) (i size : Z) : Z := get_le32 (slice (config d) (bar_config_addr i) 4) &' not32 (u32 (size - 1)).

Lemma update_mapping_run cmd i d l : pci_wf d -> plain_header d -> 0 <= i < 7 ->
  exists d' ev, update_mapping cmd i (d, l) = Done (tt, (d', l ++ ev)) /\ same_setup d d' /\ access_ok d d' /\
    forall size type, region_at d i size type -> region_on i (mkPCIIORegion size type false) cmd (get_le32 (slice (config d) (bar_config_addr i) 4)) = true ->
      ev = [mkBarSet i (bar_target d i size) true].
Proof.
  intros Hw Hp Hi. destruct (good_update_mapping cmd i Hi d l Hw Hp) as ([] & d' & l' & E & _ & Hacc). revert E. pose proof (bar_config_range i Hi).
  unfold update_mapping. destruct (get_region_run i d l Hw Hi) as (r & Er & Eg & _). rewrite run_bind, Eg, run_bind, cfg_get_run by (auto; lia). cbv zeta.
  destruct (region_on i r cmd _) eqn:Eo; [|destruct (r_enabled r)]; unfold bar_set, set_region, on_pci; rewrite ?run_modify; intros [= <- <-].
  - eexists _, _. split; [reflexivity|]. split; [apply set_enabled_setup; [exact Er|lia]|]. split; [exact Hacc|].
    intros size type (e & Ee) _. rewrite Er in Ee. injection Ee as ->. reflexivity.
  - eexists _, _. split; [reflexivity|]. split; [apply set_enabled_setup; [exact Er|lia]|]. split; [exact Hacc|].
    intros size type (e & Ee) Hon. rewrite Er in Ee. injection Ee as ->. unfold region_on in *. cbn [r_size r_type] in *. congruence.
  - exists d, []. rewrite app_nil_r. split; [reflexivity|]. split; [split; auto|]. split; [exact Hacc|].
    intros size type (e & Ee) Hon. rewrite Er in Ee. injection Ee as ->. unfold region_on in *. cbn [r_size r_type] in *. congruence.
Qed.

Lemma update_loop_run cmd n : forall i d l, pci_wf d -> plain_header d -> 0 <= i -> i + Z.of_nat n <= 7 ->
  exists d' ev, update_loop cmd i n (d, l) = Done (tt, (d', l ++ ev)) /\ same_setup d d' /\ access_ok d d' /\
    forall j size type, i <= j < i + Z.of_nat n -> region_at d j size type ->
      region_on j (mkPCIIORegion size type false) cmd (get_le32 (slice (config d) (bar_config_addr j) 4)) = true -> In (mkBarSet j (bar_target d j size) true) ev.
Proof.
  induction n as [|n IH]; intros i d l Hw Hp Hi Hn; cbn [update_loop].
  - exists d, []. rewrite app_nil_r. split; [reflexivity|]. split; [split; auto|]. split; [apply access_refl; auto|]. intros. lia.
  - destruct (update_mapping_run cmd i d l Hw Hp ltac:(lia)) as (d1 & ev1 & E1 & [Hc1 Hs1] & Ha1 & Hev1). pose proof Ha1 as (Hw1 & Hp1 & Hi1 & Hn1).
    destruct (IH (i + 1) d1 (l ++ ev1) Hw1 Hp1) as (d2 & ev2 & E2 & [Hc2 Hs2] & Ha2 & Hev2); [lia|lia|]. exists d2, (ev1 ++ ev2).
    rewrite run_bind, E1, E2, app_assoc. split; [reflexivity|]. split; [split; [congruence|auto]|]. split.
    + destruct Ha2 as (Hw2 & Hp2 & Hi2 & Hn2). split; [exact Hw2|]. split; [exact Hp2|]. split; [|congruence]. intros a Hr Ha. rewrite Hi2 by auto. apply Hi1; auto.
    + intros j size type Hj Hr Hon. apply in_or_app. destruct (Z.eq_dec j i) as [->|Hne].
      * left. rewrite (Hev1 size type Hr Hon). left. reflexivity.
      * right. specialize (Hev2 j size type ltac:(lia) (Hs1 j size type ltac:(lia) Hr)). unfold bar_target in Hev2. rewrite Hc1 in Hev2. exact (Hev2 Hon).
Qed.

Lemma get_put_le32 v : in_u 32 v -> get_le32 (put_le32 [0; 0; 0; 0] v) = v.
Proof.
  intros Hv. apply (bits_inj_u 32); [lia|apply get_le32_range|exact Hv|]. intros i Hi.
  change (get_le32 (put_le32 [0; 0; 0; 0] v)) with (u32 (u8 v |' (u8 (v >>' 8) <<' 8) |' (u8 (v >>' 16) <<' 16) |' (u8 (v >>' 24) <<' 24))). bits_at i 32%nat.
Qed.

Lemma size_mask k : 2 <= k < 32 -> not32 (u32 (2 ^ k - 1)) = 2 ^ 32 - 2 ^ k.
Proof. intros Hk. assert (In k (map Z.of_nat (seq 0 32))) as Hin by (apply below_in; lia). enum_bits k 32%nat; try lia; reflexivity. Qed.

(** Clearing the bits a size covers rounds down, and the type fits below. *)
Lemma land_size_mask k x : 2 <= k < 32 -> in_u 32 x -> x &' not32 (u32 (2 ^ k - 1)) = x - x mod 2 ^ k.
Proof.
  intros Hk Hx. unfold in_u in Hx. assert (not32 (u32 (2 ^ k - 1)) = Z.shiftl (Z.ones (32 - k)) k) as ->.
  { rewrite size_mask by lia. rewrite Z.shiftl_mul_pow2, Z.ones_equiv, Z.mul_pred_l, <- Z.pow_add_r by lia. f_equal. f_equal. lia. }
  apply Z.bits_inj'. intros i Hi. rewrite Z.land_spec, Z.shiftl_spec by lia. replace (x - x mod 2 ^ k) with (Z.shiftl (Z.shiftr x k) k).
  - rewrite Z.shiftl_spec by lia. destruct (Z.lt_ge_cases i k); [rewrite !(Z.testbit_neg_r _ (i - k)) by lia; apply andb_false_r|].
    rewrite Z.shiftr_spec, Z.sub_add by lia. destruct (Z.lt_ge_cases i 32); [rewrite Z.ones_spec_low by lia; apply andb_true_r|].
    rewrite (testbit_above 32 x i) by lia. reflexivity.
  - rewrite Z.shiftl_mul_pow2, Z.shiftr_div_pow2 by lia. pose proof (Z.div_mod x (2 ^ k) ltac:(lia)). lia.
Qed.

Lemma lor_low k x type : 0 <= k -> 0 <= type < 2 ^ k -> (x * 2 ^ k) |' type = x * 2 ^ k + type.
Proof.
  intros Hk Ht. assert ((x * 2 ^ k) &' type = 0) as E0; [|rewrite Z.add_nocarry_lxor, Z.lxor_lor by exact E0; reflexivity].
  apply Z.bits_inj'. intros i Hi. rewrite Z.bits_0, Z.land_spec. destruct (Z.lt_ge_cases i k).
  - rewrite Z.mul_pow2_bits_low by lia. reflexivity.
  - rewrite (testbit_above k type i) by lia. apply andb_false_r.
Qed.

Lemma bar_word k x type : 2 <= k < 32 -> in_u 32 x -> 0 <= type < 2 ^ k ->
  let w := (x &' not32 (u32 (2 ^ k - 1))) |' type in w = x - x mod 2 ^ k + type /\ in_u 32 w /\ w &' not32 (u32 (2 ^ k - 1)) = x - x mod 2 ^ k.
Proof.
  intros Hk Hx Ht w. assert (2 ^ k < 2 ^ 32) as Hp by (apply Z.pow_lt_mono_r; lia). assert (in_u 32 w) as Hw.
  { apply lor_range; [lia|apply land_range; [lia|exact Hx]|unfold in_u; lia]. }
  assert (w = x - x mod 2 ^ k + type) as E.
  { unfold w. rewrite land_size_mask by auto. replace (x - x mod 2 ^ k) with (x / 2 ^ k * 2 ^ k) by (pose proof (Z.div_mod x (2 ^ k) ltac:(lia)); lia). apply lor_low; lia. }
  split; [exact E|]. split; [exact Hw|]. rewrite land_size_mask, E by auto.
  replace (x - x mod 2 ^ k) with (x / 2 ^ k * 2 ^ k) by (pose proof (Z.div_mod x (2 ^ k) ltac:(lia)); lia).
  rewrite Z.add_comm, Z_mod_plus_full, Z.mod_small by lia. lia.
Qed.

(** A base address register: after a 32-bit write of [v] to the register of a region of size [2 ^ k], the register reads as
    [v] with the low [k] bits replaced by the type of the region, which is how a driver finds the size; if memory accesses are
    enabled, the region is moved to that address. *)
Theorem bar_protocol d l b k type v : pci_wf d -> plain_header d -> 0 <= b < 6 -> 2 <= k < 32 -> region_at d b (2 ^ k) type -> 0 <= type < 2 ^ k -> in_u 32 v ->
  let addr := v - v mod 2 ^ k in
  exists d' ev, pci_device_config_write (0x10 + 4 * b) v 2 (d, l) = Done (tt, (d', l ++ ev)) /\
    pci_device_config_read (0x10 + 4 * b) 2 (d', l ++ ev) = Done (addr + type, (d', l ++ ev)) /\
    (tst (get_le16 (slice (config d) PCI_COMMAND 2)) PCI_COMMAND_MEMORY = true -> In (mkBarSet b addr true) ev).
Proof.
  intros Hw Hp Hb Hk (e & Er) Ht Hv addr. destruct (bar_word k v type Hk Hv Ht) as (Ew & Hu & Em).
  set (w := (v &' not32 (u32 (2 ^ k - 1))) |' type) in *. fold addr in Ew, Em.
  pose proof (pw_config _ Hw) as [Hz _]. assert (0 < 2 ^ k) as Hpk by (apply Z.pow_pos_nonneg; lia).
  assert (zlen (put_le32 [0; 0; 0; 0] w) = 4) as Z4 by reflexivity.
  set (d1 := poked (0x10 + 4 * b) (put_le32 [0; 0; 0; 0] w) d).
  assert (pci_wf d1) as Hw1 by (apply poked_wf; [exact Hw|apply put32_bytes|lia|lia]).
  assert (plain_header d1) as Hp1 by (unfold plain_header, d1, poked; cbn [config upd upd_config]; rewrite aget_splice by lia; exact Hp).
  assert (slice (config d1) (0x10 + 4 * b) 4 = put_le32 [0; 0; 0; 0] w) as Es1.
  { unfold d1, poked. cbn [config upd upd_config]. rewrite <- Z4. apply slice_splice_same; lia. }
  assert (slice (config d1) PCI_COMMAND 2 = slice (config d) PCI_COMMAND 2) as Ec1.
  { unfold d1, poked, PCI_COMMAND. cbn [config upd upd_config]. apply slice_splice_other; lia. }
  set (cmd := get_le16 (slice (config d) PCI_COMMAND 2)) in *.
  destruct (update_loop_run cmd 7 0 d1 l Hw1 Hp1 ltac:(lia) ltac:(lia)) as (d2 & ev & E2 & [Hc2 _] & (Hw2 & _) & Hev). exists d2, ev.
  assert (bar_config_addr b = 0x10 + 4 * b) as Eb by (unfold bar_config_addr, PCI_ROM_SLOT; destruct (Z.eqb_spec b 6); lia).
  split; [|split].
  - unfold pci_device_config_write. change (2 =? 2) with true.
    destruct (Z.leb_spec 0x10 (0x10 + 4 * b)), (Z.ltb_spec (0x10 + 4 * b) (0x10 + 4 * 6)); try lia. cbn [andb orb].
    unfold pci_write_bar. cbv zeta. assert ((if 0x10 + 4 * b =? 0x30 then PCI_ROM_SLOT else (0x10 + 4 * b - 0x10) >>' 2) = b) as ->.
    { destruct (Z.eqb_spec (0x10 + 4 * b) 0x30); [lia|]. rewrite Z.shiftr_div_pow2 by lia. replace (0x10 + 4 * b - 0x10) with (b * 2 ^ 2) by lia. apply Z.div_mul. lia. }
    rewrite !run_bind. unfold get_region. rewrite run_gets. cbn [fst]. rewrite Er, run_ret. cbn [r_size r_type].
    destruct (Z.eqb_spec (2 ^ k) 0); [lia|]. destruct (Z.eqb_spec b PCI_ROM_SLOT); [unfold PCI_ROM_SLOT in *; lia|]. fold w.
    unfold cfg_put32. rewrite run_bind, cfg_put_run by (auto; lia). fold d1. cbv beta iota. unfold pci_update_mappings.
    rewrite run_assoc, run_bind, cfg_get_run by (auto; unfold PCI_COMMAND; lia). cbv beta iota.
    rewrite Ec1. fold cmd. rewrite run_bind, E2. reflexivity.
  - unfold pci_device_config_read. cbn [Z.eqb Pos.eqb]. rewrite run_bind, cfg_get_run by (auto; lia). rewrite Hc2, Es1, get_put_le32, Ew by exact Hu. reflexivity.
  - intros Hmem. specialize (Hev b (2 ^ k) type ltac:(lia)). unfold bar_target in Hev. rewrite Eb, Es1, get_put_le32, Em in Hev by exact Hu. apply Hev.
    + exists e. exact Er.
    + unfold region_on. cbn [r_size r_type]. destruct (Z.eqb_spec (2 ^ k) 0); [lia|]. rewrite Hmem. destruct (_ && _); [reflexivity|].
      destruct (Z.eqb_spec b PCI_ROM_SLOT); [unfold PCI_ROM_SLOT in *; lia|reflexivity].
Qed.

(** ** Capabilities *)

(** The list a driver follows: each entry is the offset of a capability, whose second byte is the offset of the next. *)
Fixpoint cap_chain (c : list Z) (off : Z) (l : list Z) : Prop :=
  match l with [] => off = 0 | o :: l => off = o /\ o <> 0 /\ cap_chain c (aget c (o + 1)) l end.

Definition caps (d : PCIDevice) (l : list Z) : Prop := cap_chain (config d) (aget (config d) PCI_CAPABILITY_LIST) l.

(** Capabilities are allocated from [0x40] on. *)
Definition caps_below (n : Z) (l : list Z) : Prop := Forall (fun o => 0x40 <= o /\ o + 2 <= n) l.

Lemma cap_chain_ext c c' n l : caps_below n l -> (forall a, 0x40 <= a < n -> aget c' a = aget c a) -> forall off, cap_chain c off l -> cap_chain c' off l.
Proof.
  intros Hb He. induction Hb as [|o l [Ho Hn] _ IH]; intros off Hc; [exact Hc|]. destruct Hc as (-> & Hne & Hc). split; [reflexivity|]. split; [exact Hne|].
  rewrite He by lia. apply IH, Hc.
Qed.

Lemma aget_splice_at c addr x : 0 <= addr < zlen c -> aget (splice c addr [x]) addr = x.
Proof.
  intros Ha. unfold aget, splice, zlen in *. rewrite nth_lookup, lookup_app_r by (rewrite length_take; lia). rewrite length_take.
  replace (Z.to_nat addr - _)%nat with 0%nat by lia. reflexivity.
Qed.

Lemma bytes_one x : in_u 8 x -> is_bytes [x].
Proof. intros. constructor; [assumption|constructor]. Qed.

Lemma config_byte d a : pci_wf d -> 0 <= a < 256 -> in_u 8 (aget (config d) a).
Proof. intros Hw Ha. destruct (pw_config _ Hw) as [Hz Hb]. refine (proj1 (Forall_nth _ 0 _) Hb _ _). unfold zlen in Hz. lia. Qed.

(** The configuration bytes after a capability was added at [o]: the pointer, the link, the body, the status bit. *)
Definition cap_written (o : Z) (buf c : list Z) : list Z :=
  splice (splice (splice (splice c 6 [aget c 6 |' 16]) o buf) (o + 1) [aget c 0x34]) 0x34 [o].

Lemma zlen_one (x : Z) : zlen [x] = 1.
Proof. reflexivity. Qed.

Lemma cap_written_read o buf c a : zlen c = 256 -> 0x40 <= o -> 2 <= zlen buf -> o + zlen buf <= 256 -> 0 <= a < 256 ->
  aget (cap_written o buf c) a = if a =? 0x34 then o else if a =? o + 1 then aget c 0x34 else
    if (o <=? a) && (a <? o + zlen buf) then aget buf (a - o) else if a =? 6 then aget c 6 |' 16 else aget c a.
Proof.
  intros Hz Ho Hl Hn Ha. unfold cap_written. set (c1 := splice c 6 _). set (c2 := splice c1 o buf). set (c3 := splice c2 (o + 1) _).
  assert (zlen c1 = 256) as Z1 by (unfold c1; rewrite zlen_splice by (rewrite ?zlen_one; lia); exact Hz).
  assert (zlen c2 = 256) as Z2 by (unfold c2; rewrite zlen_splice by lia; exact Z1).
  assert (zlen c3 = 256) as Z3 by (unfold c3; rewrite zlen_splice by (rewrite ?zlen_one; lia); exact Z2).
  destruct (Z.eqb_spec a 0x34) as [->|]; [apply aget_splice_at; lia|]. rewrite aget_splice by (rewrite ?zlen_one; lia). unfold c3.
  destruct (Z.eqb_spec a (o + 1)) as [->|]; [apply aget_splice_at; lia|]. rewrite aget_splice by (rewrite ?zlen_one; lia). unfold c2.
  destruct (Z.leb_spec o a), (Z.ltb_spec a (o + zlen buf)); cbn [andb].
  - unfold aget, splice, zlen in *. rewrite !nth_lookup. f_equal. rewrite lookup_app_r, lookup_app_l by (rewrite ?length_take; lia). f_equal. rewrite length_take. lia.
  - rewrite aget_splice by lia. unfold c1. destruct (Z.eqb_spec a 6); [lia|]. rewrite aget_splice by (rewrite ?zlen_one; lia). reflexivity.
  - rewrite aget_splice by lia. unfold c1. destruct (Z.eqb_spec a 6) as [->|]; [apply aget_splice_at; lia|]. rewrite aget_splice by (rewrite ?zlen_one; lia). reflexivity.
  - rewrite aget_splice by lia. unfold c1. destruct (Z.eqb_spec a 6) as [->|]; [apply aget_splice_at; lia|]. rewrite aget_splice by (rewrite ?zlen_one; lia). reflexivity.
Qed.

Lemma add_capability_run d l buf : pci_wf d -> 0x40 <= next_cap_offset d -> 2 <= zlen buf -> is_bytes buf -> next_cap_offset d + zlen buf < 256 -> let o := next_cap_offset d in
  let d' := d <| next_cap_offset := o + zlen buf |> <| config := cap_written o buf (config d) |> in pci_add_capability buf (d, l) = Done (o, (d', l)) /\ pci_wf d'.
Proof.
  intros Hw Ho Hl Hby Hn o d'. pose proof (pw_config _ Hw) as [Hz _]. pose proof (config_byte d 6 Hw ltac:(lia)) as Hst. pose proof (config_byte d 0x34 Hw ltac:(lia)) as Hh.
  set (d0 := d <| next_cap_offset := u8 (o + zlen buf) |>). assert (pci_wf d0) as Hw0 by (destruct Hw; constructor; auto).
  set (d1 := poked 6 [aget (config d) 6 |' 16] d0).
  assert (pci_wf d1) as Hw1 by (apply poked_wf; [exact Hw0|apply bytes_one, lor_range; [lia|exact Hst|easy]|lia|rewrite zlen_one; lia]).
  set (d2 := poked o buf d1). assert (pci_wf d2) as Hw2 by (apply poked_wf; auto; lia).
  set (d3 := poked (o + 1) [aget (config d) 0x34] d2). assert (pci_wf d3) as Hw3 by (apply poked_wf; [exact Hw2|apply bytes_one, Hh|lia|rewrite zlen_one; lia]).
  set (d4 := poked 0x34 [o] d3). assert (pci_wf d4) as Hw4 by (apply poked_wf; [exact Hw3|apply bytes_one; unfold in_u; lia|lia|rewrite zlen_one; lia]).
  assert (d' = d4) as E by (unfold d4, d3, d2, d1, d0; replace (u8 (o + zlen buf)) with (o + zlen buf) by (symmetry; apply wrapu_small; lia); reflexivity).
  rewrite E. split; [|exact Hw4]. unfold pci_add_capability. rewrite run_gets. cbn [fst]. fold o. destruct (Z.ltb_spec 256 (o + zlen buf)); [lia|].
  unfold on_pci. rewrite run_modify. change (d <| next_cap_offset := u8 (o + zlen buf) |>) with d0. unfold PCI_STATUS, PCI_CAPABILITY_LIST, PCI_STATUS_CAP_LIST.
  rewrite run_bind, cfg_get8_run by (auto; lia). change (config d0) with (config d). rewrite run_bind, cfg_put_run by (auto; rewrite ?zlen_one; lia). fold d1.
  rewrite run_bind, cfg_put_run by (auto; lia). fold d2. rewrite run_bind, cfg_get8_run by (auto; lia).
  assert (aget (config d2) 0x34 = aget (config d) 0x34) as ->.
  { pose proof (pw_config _ Hw1) as [Z1 _]. unfold d2, poked. cbn [config upd upd_config]. rewrite aget_splice by lia. unfold d1, poked. cbn [config upd upd_config].
    change (config d0) with (config d). rewrite aget_splice by (rewrite ?zlen_one; lia). reflexivity. }
  rewrite run_bind, cfg_put_run by (auto; rewrite ?zlen_one; lia). fold d3. rewrite run_bind, cfg_put_run by (auto; rewrite ?zlen_one; lia). reflexivity.
Qed.

(** Adding a capability puts it at the head of the list, and the list still ends: a driver that follows it from the
    capability pointer finds the new capability, then the earlier ones, whose bytes are untouched. *)
Theorem capability_added d l cs buf : pci_wf d -> caps d cs -> caps_below (next_cap_offset d) cs -> 0x40 <= next_cap_offset d -> 2 <= zlen buf -> is_bytes buf ->
  next_cap_offset d + zlen buf < 256 -> let o := next_cap_offset d in
  exists d', pci_add_capability buf (d, l) = Done (o, (d', l)) /\ pci_wf d' /\ caps d' (o :: cs) /\
    next_cap_offset d' = o + zlen buf /\ caps_below (next_cap_offset d') (o :: cs) /\
    (forall a, 0 <= a < zlen buf -> a <> 1 -> aget (config d') (o + a) = aget buf a) /\
    (forall a, 0x40 <= a < o -> aget (config d') a = aget (config d) a) /\ Z.testbit (aget (config d') PCI_STATUS) 4 = true.
Proof.
  intros Hw Hc Hb Ho Hl Hby Hn o. pose proof (pw_config _ Hw) as [Hz _]. destruct (add_capability_run d l buf Hw Ho Hl Hby Hn) as [E Hw']. fold o in E, Hw'.
  eexists. split; [exact E|]. split; [exact Hw'|]. unfold caps, PCI_STATUS, PCI_CAPABILITY_LIST. cbn [next_cap_offset config upd upd_config upd_next_cap].
  assert (forall a, 0 <= a < 256 -> _) as Hread by (intros a Ha; exact (cap_written_read o buf (config d) a Hz Ho Hl ltac:(lia) Ha)). cbn beta in Hread.
  split; [|split; [reflexivity|split; [|split; [|split]]]].
  - rewrite Hread by lia. cbn [Z.eqb Pos.eqb cap_chain]. split; [reflexivity|]. split; [lia|]. rewrite Hread by lia. rewrite Z.eqb_refl.
    destruct (Z.eqb_spec (o + 1) 0x34); [lia|]. apply (cap_chain_ext (config d) _ o); [exact Hb| |exact Hc].
    intros a Ha. rewrite Hread by lia. destruct (Z.eqb_spec a 0x34), (Z.eqb_spec a (o + 1)), (Z.leb_spec o a), (Z.eqb_spec a 6); try lia; reflexivity.
  - constructor; [lia|]. refine (Forall_impl _ _ _ Hb _). intros x Hx. fold o in Hx. lia.
  - intros a Ha Ha1. rewrite Hread by lia. destruct (Z.eqb_spec (o + a) 0x34), (Z.eqb_spec (o + a) (o + 1)), (Z.leb_spec o (o + a)), (Z.ltb_spec (o + a) (o + zlen buf)); try lia.
    cbn [andb]. f_equal. lia.
  - intros a Ha. rewrite Hread by lia. destruct (Z.eqb_spec a 0x34), (Z.eqb_spec a (o + 1)), (Z.leb_spec o a), (Z.eqb_spec a 6); try lia; reflexivity.
  - rewrite Hread by lia. destruct (Z.eqb_spec 6 0x34), (Z.eqb_spec 6 (o + 1)), (Z.leb_spec o 6); try lia. cbn [andb Z.eqb Pos.eqb]. rewrite Z.lor_spec. apply orb_true_r.
Qed.

(** ** Interrupts *)

(** Whether the device at [fn] raises the line whose words are given. *)
Definition raised (words : list Z) (fn : Z) : bool := Z.testbit (aget words (fn >>' 5)) (fn &' 0x1f).

Definition irq_wf (b : PCIBus) : Prop := List.length (irq_state b) = 4%nat /\ Forall (fun w => List.length w = 8%nat /\ Forall (in_u 32) w) (irq_state b).

Lemma irq_words_wf b n : irq_wf b -> 0 <= n < 4 -> List.length (irq_words b n) = 8%nat /\ Forall (in_u 32) (irq_words b n).
Proof. intros [Hl Hf] Hn. unfold irq_words. refine (proj1 (Forall_nth _ [] _) Hf _ _). lia. Qed.

Lemma fn_split fn : 0 <= fn < 256 -> fn = (fn >>' 5) * 32 + (fn &' 0x1f) /\ 0 <= fn >>' 5 < 8 /\ 0 <= fn &' 0x1f < 32.
Proof.
  intros Hf. change 0x1f with (Z.ones 5). rewrite Z.land_ones, Z.shiftr_div_pow2 by lia. pose proof (Z.div_mod fn (2 ^ 5) ltac:(lia)).
  change (2 ^ 5) with 32 in *. Z.to_euclidean_division_equations; lia.
Qed.

Lemma set_irq_bit_raised words fn level fn' : List.length words = 8%nat -> Forall (in_u 32) words -> 0 <= fn < 256 -> 0 <= fn' < 256 ->
  raised (set_irq_bit fn level words) fn' = if fn' =? fn then level else raised words fn'.
Proof.
  intros Hl Hw Hf Hf'. destruct (fn_split fn Hf) as (Ef & Hi & Hb), (fn_split fn' Hf') as (Ef' & Hi' & Hb'). unfold raised, set_irq_bit. cbv zeta.
  rewrite aget_aset by lia. set (i := fn >>' 5) in *. set (i' := fn' >>' 5) in *. set (b := fn &' 0x1f) in *. set (b' := fn' &' 0x1f) in *.
  assert (Z.testbit (u32 (1 <<' b)) b' = (b' =? b)) as Em.
  { rewrite u32_spec, Z.shiftl_1_l, Z.pow2_bits_eqb by lia. destruct (Z.ltb_spec b' 32); [|lia]. cbn [andb]. apply Z.eqb_sym. }
  destruct (Z.eqb_spec i i') as [E|Hne]; [|destruct (Z.eqb_spec fn' fn) as [Ex|]; [destruct Hne; unfold i, i'; rewrite Ex; reflexivity|reflexivity]].
  assert ((fn' =? fn) = (b' =? b)) as -> by (destruct (Z.eqb_spec fn' fn) as [Ex|], (Z.eqb_spec b' b) as [|Hnb]; try reflexivity; [destruct Hnb; unfold b, b'; rewrite Ex; reflexivity|lia]).
  rewrite <- E. destruct level; [rewrite Z.lor_spec, Em|rewrite Z.land_spec, not32_spec, Em]; destruct (Z.eqb_spec b' b); destruct (Z.ltb_spec b' 32), (Z.leb_spec 0 b'); try lia;
    cbn [andb negb]; rewrite ?orb_true_r, ?orb_false_r, ?andb_true_r, ?andb_false_r; reflexivity.
Qed.

Lemma fold_lor_zero words : forall x, fold_left Z.lor words x = 0 <-> x = 0 /\ Forall (fun w => w = 0) words.
Proof.
  induction words as [|w ws IH]; intros x; cbn [fold_left]; [split; [auto|tauto]|]. rewrite IH, Z.lor_eq_0_iff. split; [intros [[-> ->] Hf]; auto|].
  intros [-> Hf]. inversion_clear Hf. auto.
Qed.

(** The line is high exactly when some device raises it. *)
Lemma irq_level_spec words : List.length words = 8%nat -> Forall (in_u 32) words -> irq_level words = true <-> exists fn, 0 <= fn < 256 /\ raised words fn = true.
Proof.
  intros Hl Hw. unfold irq_level. rewrite negb_true_iff, Z.eqb_neq. split.
  - intros Hne. destruct (decide (Exists (fun w => w <> 0) words)) as [He|Hn].
    + apply Exists_exists in He as (w & Hin & Hw0). apply list_elem_of_lookup_1 in Hin as [i Ei]. pose proof (lookup_lt_Some _ _ _ Ei) as Hi.
      pose proof (Forall_lookup_1 _ _ _ _ Hw Ei) as Hwu. unfold in_u in Hwu. set (b := Z.log2 w).
      assert (0 <= b < 32) as Hb by (split; [apply Z.log2_nonneg|apply Z.log2_lt_pow2; lia]). exists (Z.of_nat i * 32 + b). split; [lia|].
      unfold raised. assert ((Z.of_nat i * 32 + b) >>' 5 = Z.of_nat i) as -> by (rewrite Z.shiftr_div_pow2 by lia; change (2 ^ 5) with 32; Z.to_euclidean_division_equations; lia).
      assert ((Z.of_nat i * 32 + b) &' 0x1f = b) as -> by (change 0x1f with (Z.ones 5); rewrite Z.land_ones by lia; change (2 ^ 5) with 32; Z.to_euclidean_division_equations; lia).
      unfold aget. rewrite Nat2Z.id, (nth_lookup_Some _ _ _ _ Ei). apply Z.bit_log2. lia.
    + exfalso. apply Hne, fold_lor_zero. split; [reflexivity|]. apply Forall_Exists_neg in Hn. refine (Forall_impl _ _ _ Hn _). intros w Hz. cbn in Hz. lia.
  - intros (fn & Hf & Hr) E. apply fold_lor_zero in E as [_ Hz]. destruct (fn_split fn Hf) as (_ & Hi & _). unfold raised in Hr.
    assert (aget words (fn >>' 5) = 0) as E0 by (refine (proj1 (Forall_nth _ 0 _) Hz _ _); lia). rewrite E0, Z.bits_0 in Hr. discriminate.
Qed.

(** The input of the interrupt controller that line [n] of the bus is routed to. *)
Definition routed (d : PCIDevice) (n : Z) : Z := aget (config d) (0x60 + n) &' Z.lnot 0x80.

Lemma bus_map_range fn pin : 0 <= bus_map_irq fn pin < 4.
Proof. unfold bus_map_irq. change 3 with (Z.ones 2). rewrite Z.land_ones by lia. apply Z.mod_pos_bound. reflexivity. Qed.

(** Routing a line reads the register of the PIIX3 bridge. *)
Lemma route_run n d l : pci_wf d -> 0 <= n < 4 ->
  (b ← cfg_get8 (0x60 + n); _ ← cfg_put (0x60 + n) [b &' Z.lnot 0x80]; cfg_get8 (0x60 + n)) (d, l) =
    Done (routed d n, (poked (0x60 + n) [routed d n] d, l)) /\ in_u 8 (routed d n).
Proof.
  intros Hw Hn. assert (in_u 8 (routed d n)) as Hr by (apply land_range; [lia|apply config_byte; [exact Hw|lia]]). split; [|exact Hr].
  rewrite run_bind, cfg_get8_run by (auto; lia). fold (routed d n). rewrite run_bind, cfg_put_run by (auto; rewrite ?zlen_one; lia).
  assert (pci_wf (poked (0x60 + n) [routed d n] d)) as Hw' by (apply poked_wf; [exact Hw|apply bytes_one, Hr|lia|rewrite zlen_one; lia]).
  rewrite cfg_get8_run by (auto; lia). unfold poked. cbn [config upd upd_config]. destruct (pw_config _ Hw) as [Hz _]. rewrite aget_splice_at by lia. reflexivity.
Qed.

Lemma set_irq_bit_wf words fn level : List.length words = 8%nat -> Forall (in_u 32) words -> 0 <= fn < 256 ->
  List.length (set_irq_bit fn level words) = 8%nat /\ Forall (in_u 32) (set_irq_bit fn level words).
Proof.
  intros Hl Hw Hf. unfold set_irq_bit, aset. cbv zeta. rewrite length_insert. split; [exact Hl|]. apply Forall_insert; [exact Hw|].
  destruct (fn_split fn Hf) as (_ & Hb & _). assert (in_u 32 (aget words (fn >>' 5))) as Hx by (refine (proj1 (Forall_nth _ 0 _) Hw _ _); lia).
  destruct level; [apply lor_range; [lia|exact Hx|apply wrapu_range; lia]|apply land_range; [lia|exact Hx]].
Qed.

(** The state after a device drove one of its pins. *)
Section Drive.
Context (s : I440FXState) (fn pin : Z) (level : bool) (hd : PCIDevice).
Let n := bus_map_irq fn pin.
Let pic := routed hd n.

Definition driven_words : list Z := set_irq_bit fn level (irq_words (pci_bus s) n).
Definition driven_bus : PCIBus :=
  (pci_bus s) <| irq_state := <[Z.to_nat n := driven_words]> (irq_state (pci_bus s)) |>
              <| device := <[8%nat := Some (poked (0x60 + n) [pic] hd)]> (device (pci_bus s)) |>.
Definition driven_input : Z :=
  let st := aget (pic_irq_state s) pic in if irq_level driven_words then u8 (st |' (1 <<' n)) else u8 (st &' Z.lnot (1 <<' n)).
Definition driven : I440FXState :=
  let s' := s <| pci_bus := driven_bus |> in
  if pic <? 16 then s' <| pic_irq_state := aset (pic_irq_state s) pic driven_input |> <| pci_calls := pci_calls s ++ [PicIrq pic (negb (driven_input =? 0))] |> else s'.

Context (Hb : bus_wf (pci_bus s)) (Hi : irq_wf (pci_bus s)) (Hd : device (pci_bus s) !! 8%nat = Some (Some hd)).

Lemma driven_words_at n' : 0 <= n' < 4 -> irq_words driven_bus n' = if n' =? n then driven_words else irq_words (pci_bus s) n'.
Proof.
  intros Hn'. destruct Hi as [Hl _]. unfold irq_words, driven_bus. cbn [irq_state upd upd_irq_state upd_device]. destruct (Z.eqb_spec n' n) as [E|E].
  - rewrite E in Hn' |- *. apply nth_lookup_Some, list_lookup_insert_eq. lia.
  - assert (0 <= n < 4) by apply bus_map_range. rewrite !nth_lookup, list_lookup_insert_ne by lia. reflexivity.
Qed.

Lemma set_irq_run : pci_device_set_irq fn pin level s = Done (tt, driven).
Proof.
  pose proof (bus_map_range fn pin) as Hn. fold n in Hn. destruct Hb as [_ Hw]. destruct (Hw _ _ Hd) as [Hwd _]. destruct (route_run n hd [] Hwd Hn) as [Er _]. destruct Hi as [Hl _].
  unfold pci_device_set_irq. fold n. unfold on_bus. rewrite run_modify, run_gets. unfold id. fold driven_words. set (s1 := s <| pci_bus := _ |>).
  assert (irq_words (pci_bus s1) n = driven_words) as -> by (unfold irq_words, s1; cbn; apply nth_lookup_Some, list_lookup_insert_eq; lia).
  unfold i440fx_set_irq, on_device, get_device. rewrite !run_assoc, run_gets. unfold id. change (device (pci_bus s1)) with (device (pci_bus s)).
  change (Z.to_nat piix3_devfn) with 8%nat. rewrite Hd, run_bind_ret, Er, !run_assoc, run_liftr_done. unfold on_bus.
  rewrite !run_assoc, run_modify, !run_assoc, run_modify, run_bind_ret. change (map (Bar piix3_devfn) []) with (@nil PciCall). cbn [pci_calls upd upd_pci_bus]. rewrite app_nil_r.
  unfold driven. fold pic. destruct (pic <? 16); [|reflexivity]. rewrite run_gets. cbv zeta. rewrite run_modify. reflexivity.
Qed.

Lemma driven_bus_eq : pci_bus driven = driven_bus.
Proof. unfold driven. destruct (_ <? _); reflexivity. Qed.
End Drive.

(** A line of the bus is high when some device raises it. *)
Definition line_high (b : PCIBus) (n : Z) : Prop := exists fn, 0 <= fn < 256 /\ raised (irq_words b n) fn = true.

(** The state of the controller's inputs follows the lines: an input has the bits of exactly the lines that are high and routed
    to it. *)
Definition inputs_follow (s : I440FXState) (hd : PCIDevice) : Prop := forall i, 0 <= i < 16 ->
  in_u 4 (aget (pic_irq_state s) i) /\
  forall k, 0 <= k < 4 -> (Z.testbit (aget (pic_irq_state s) i) k = true <-> routed hd k = i /\ line_high (pci_bus s) k).

Lemma routed_poked hd n k : pci_wf hd -> 0 <= n < 4 -> 0 <= k < 4 -> routed (poked (0x60 + n) [routed hd n] hd) k = routed hd k.
Proof.
  intros Hw Hn Hk. destruct (pw_config _ Hw) as [Hz _]. unfold routed, poked. cbn [config upd upd_config]. destruct (Z.eq_dec k n) as [->|Hne].
  - rewrite aget_splice_at by lia. rewrite <- Z.land_assoc, Z.land_diag. reflexivity.
  - rewrite aget_splice by (rewrite ?zlen_one; lia). reflexivity.
Qed.

Lemma nonzero_bits x : in_u 4 x -> negb (x =? 0) = true <-> exists k, 0 <= k < 4 /\ Z.testbit x k = true.
Proof.
  intros Hx. rewrite negb_true_iff, Z.eqb_neq. split.
  - intros Hne. unfold in_u in Hx. exists (Z.log2 x). split; [split; [apply Z.log2_nonneg|apply Z.log2_lt_pow2; lia]|apply Z.bit_log2; lia].
  - intros (k & _ & Hk) ->. rewrite Z.bits_0 in Hk. discriminate.
Qed.

(** The input that the line is routed to, bit by bit. *)
Lemma driven_input_bit s fn pin level hd k : bus_wf (pci_bus s) -> irq_wf (pci_bus s) -> 0 <= fn < 256 -> 0 <= k < 8 ->
  let n := bus_map_irq fn pin in
  Z.testbit (driven_input s fn pin level hd) k =
    if k =? n then irq_level (driven_words s fn pin level) else Z.testbit (aget (pic_irq_state s) (routed hd n)) k.
Proof.
  intros Hb Hi Hf Hk n. pose proof (bus_map_range fn pin) as Hn. fold n in Hn. unfold driven_input. fold n. cbv zeta.
  destruct (irq_level (driven_words s fn pin level)); rewrite u8_spec, (proj2 (Z.ltb_lt k 8)) by lia.
  - rewrite Z.lor_spec, Z.shiftl_1_l. destruct (Z.eqb_spec k n) as [->|Hne]; [rewrite Z.pow2_bits_true by lia; apply orb_true_r|].
    rewrite Z.pow2_bits_false by lia. apply orb_false_r.
  - rewrite Z.land_spec, Z.lnot_spec, Z.shiftl_1_l by lia. destruct (Z.eqb_spec k n) as [->|Hne]; [rewrite Z.pow2_bits_true by lia; apply andb_false_r|].
    rewrite Z.pow2_bits_false by lia. apply andb_true_r.
Qed.

Lemma driven_input_u4 s fn pin level hd : bus_wf (pci_bus s) -> irq_wf (pci_bus s) -> 0 <= fn < 256 ->
  in_u 4 (aget (pic_irq_state s) (routed hd (bus_map_irq fn pin))) -> in_u 4 (driven_input s fn pin level hd).
Proof.
  intros Hb Hi Hf Hu. pose proof (bus_map_range fn pin) as Hn.
  assert (driven_input s fn pin level hd = driven_input s fn pin level hd mod 2 ^ 4) as ->; [|apply Z.mod_pos_bound; reflexivity].
  apply Z.bits_inj'. intros k Hk0. destruct (Z.lt_ge_cases k 4); [rewrite Z.mod_pow2_bits_low by lia; reflexivity|].
  rewrite Z.mod_pow2_bits_high by lia. destruct (Z.lt_ge_cases k 8).
  - rewrite driven_input_bit by (auto; lia). destruct (Z.eqb_spec k (bus_map_irq fn pin)); [lia|]. apply (testbit_above 4); [exact Hu|lia].
  - unfold driven_input. cbv zeta. destruct (irq_level _); rewrite u8_spec; destruct (Z.ltb_spec k 8); try lia; reflexivity.
Qed.

(** C27 The interrupt lines of the bus are shared: a device that raises or lowers a pin changes only its own contribution to one
    of the four lines.  If that line is routed to an input of the interrupt controller, the input's bit of the line is set
    exactly when some device raises the line, the bits of the other lines on the input and the other inputs are as before,
    and the controller is told whether any bit is set; if it is not routed, the inputs are left alone.  So while the routing
    registers are not rewritten, the inputs follow the lines: each is driven high exactly when a line routed to it is
    high.  (A rewrite of the routing moves no bit: see the findings.) *)
Theorem pci_irq_shared s fn pin level hd : bus_wf (pci_bus s) -> irq_wf (pci_bus s) -> 0 <= fn < 256 -> List.length (pic_irq_state s) = 16%nat ->
  device (pci_bus s) !! 8%nat = Some (Some hd) -> let n := bus_map_irq fn pin in let pic := routed hd n in
  exists s' hd', pci_device_set_irq fn pin level s = Done (tt, s') /\
    (forall fn', 0 <= fn' < 256 -> raised (irq_words (pci_bus s') n) fn' = if fn' =? fn then level else raised (irq_words (pci_bus s) n) fn') /\
    (forall n', 0 <= n' < 4 -> n' <> n -> irq_words (pci_bus s') n' = irq_words (pci_bus s) n') /\
    (pic < 16 -> (Z.testbit (aget (pic_irq_state s') pic) n = true <-> line_high (pci_bus s') n) /\
                 (forall k, 0 <= k < 8 -> k <> n -> Z.testbit (aget (pic_irq_state s') pic) k = Z.testbit (aget (pic_irq_state s) pic) k) /\
                 (forall i, 0 <= i -> i <> pic -> aget (pic_irq_state s') i = aget (pic_irq_state s) i) /\
                 pci_calls s' = pci_calls s ++ [PicIrq pic (negb (aget (pic_irq_state s') pic =? 0))]) /\
    (16 <= pic -> pic_irq_state s' = pic_irq_state s /\ pci_calls s' = pci_calls s) /\
    device (pci_bus s') !! 8%nat = Some (Some hd') /\ (forall k, 0 <= k < 4 -> routed hd' k = routed hd k) /\
    (inputs_follow s hd -> inputs_follow s' hd' /\
       (pic < 16 -> negb (aget (pic_irq_state s') pic =? 0) = true <-> exists k, 0 <= k < 4 /\ routed hd' k = pic /\ line_high (pci_bus s') k)).
Proof.
  intros Hb Hi Hf Hpl Hd n pic. pose proof (bus_map_range fn pin) as Hn. fold n in Hn. destruct (irq_words_wf _ n Hi Hn) as [Hwl Hwu].
  destruct (set_irq_bit_wf _ fn level Hwl Hwu Hf) as [Hwl' Hwu']. pose proof (proj1 (proj2 Hb _ _ Hd)) as Hwd.
  assert (in_u 8 pic) as Hr by exact (proj2 (route_run n hd [] Hwd Hn)).
  assert (forall k, 0 <= k < 4 -> routed (poked (0x60 + n) [pic] hd) k = routed hd k) as Hrt by (intros k Hk; apply routed_poked; assumption).
  set (s' := driven s fn pin level hd). exists s', (poked (0x60 + n) [pic] hd).
  assert (pci_bus s' = driven_bus s fn pin level hd) as Eb by apply driven_bus_eq.
  assert (forall k, 0 <= k < 4 -> k <> n -> irq_words (pci_bus s') k = irq_words (pci_bus s) k) as Hother.
  { intros k Hk Hne. rewrite Eb, driven_words_at by auto. fold n. destruct (Z.eqb_spec k n); [contradiction|reflexivity]. }
  assert (irq_words (pci_bus s') n = driven_words s fn pin level) as Hwn by (rewrite Eb, driven_words_at by (auto; lia); fold n; rewrite Z.eqb_refl; reflexivity).
  assert (irq_level (driven_words s fn pin level) = true <-> line_high (pci_bus s') n) as Hlev.
  { unfold line_high. rewrite Hwn. apply irq_level_spec; assumption. }
  assert (forall k, 0 <= k < 4 -> k <> n -> line_high (pci_bus s') k <-> line_high (pci_bus s) k) as Hhigh by (intros k Hk Hne; unfold line_high; rewrite Hother by assumption; tauto).
  assert (pic < 16 -> pic_irq_state s' = aset (pic_irq_state s) pic (driven_input s fn pin level hd) /\
            pci_calls s' = pci_calls s ++ [PicIrq pic (negb (driven_input s fn pin level hd =? 0))]) as Hin.
  { intros Hlt. unfold s', driven. fold n. fold pic. rewrite (proj2 (Z.ltb_lt _ _) Hlt). split; reflexivity. }
  assert (pic < 16 -> forall i, 0 <= i -> aget (pic_irq_state s') i = if pic =? i then driven_input s fn pin level hd else aget (pic_irq_state s) i) as Hat.
  { intros Hlt i H0. rewrite (proj1 (Hin Hlt)). apply aget_aset; unfold in_u in Hr; lia. }
  assert (16 <= pic -> pic_irq_state s' = pic_irq_state s /\ pci_calls s' = pci_calls s) as Hout.
  { intros Hge. unfold s', driven. fold n. fold pic. destruct (Z.ltb_spec pic 16); [lia|]. split; reflexivity. }
  assert (device (pci_bus s') !! 8%nat = Some (Some (poked (0x60 + n) [pic] hd))) as Hd'.
  { rewrite Eb. cbn. apply list_lookup_insert_eq. rewrite (proj1 Hb). lia. }
  split; [apply set_irq_run; assumption|]. split; [intros fn' Hf'; rewrite Hwn; apply set_irq_bit_raised; auto|]. split; [exact Hother|].
  split; [|split; [exact Hout|split; [exact Hd'|split; [exact Hrt|]]]].
  - intros Hlt. assert (0 <= pic) as H0 by (unfold in_u in Hr; lia). rewrite (Hat Hlt pic H0), Z.eqb_refl.
    split; [rewrite (driven_input_bit s fn pin level hd n) by (auto; lia); fold n; rewrite Z.eqb_refl; exact Hlev|].
    split; [intros k Hk Hne; rewrite (driven_input_bit s fn pin level hd k) by auto; fold n; fold pic; destruct (Z.eqb_spec k n); [contradiction|reflexivity]|].
    split; [|exact (proj2 (Hin Hlt))]. intros i Hi0 Hne. rewrite (Hat Hlt i Hi0). destruct (Z.eqb_spec pic i); [congruence|reflexivity].
  - intros Hfol. assert (inputs_follow s' (poked (0x60 + n) [pic] hd)) as Hfol'.
    { intros i Hi16. destruct (Hfol i Hi16) as [Hu Hk]. destruct (Z.lt_ge_cases pic 16) as [Hlt|Hge].
      - rewrite (Hat Hlt i) by lia. destruct (Z.eqb_spec pic i) as [<-|Hne].
        + split; [apply driven_input_u4; assumption|].
          intros k Hk4. rewrite driven_input_bit by (auto; lia). fold n. fold pic. rewrite Hrt by assumption. destruct (Z.eqb_spec k n) as [->|Hne].
          * rewrite Hlev. fold pic. tauto.
          * rewrite (Hhigh k Hk4 Hne). apply Hk, Hk4.
        + split; [exact Hu|]. intros k Hk4. rewrite Hrt by assumption. rewrite (Hk k Hk4). destruct (Z.eq_dec k n) as [->|Hkn]; [|rewrite Hhigh by assumption; tauto].
          split; intros [E _]; unfold pic in Hne; congruence.
      - rewrite (proj1 (Hout Hge)). split; [exact Hu|]. intros k Hk4. rewrite Hrt by assumption. rewrite (Hk k Hk4).
        destruct (Z.eq_dec k n) as [->|Hkn]; [|rewrite Hhigh by assumption; tauto]. fold pic. split; intros [E _]; lia. }
    split; [exact Hfol'|]. intros Hlt. destruct (Hfol' pic) as [Hu Hk]; [unfold in_u in Hr; lia|]. rewrite (nonzero_bits _ Hu).
    split; intros (k & Hk4 & Hx); exists k; (split; [exact Hk4|]); apply Hk in Hx; auto.
Qed.

(** ** A concrete bus: the bridges, and a disk behind them *)

Definition bytes_ok (c : list Z) : bool := forallb (fun b => (0 <=? b) && (b <? 256)) c.
Lemma bytes_ok_sound c : bytes_ok c = true -> is_bytes c.
Proof. unfold bytes_ok. rewrite forallb_forall. intros H. apply List.Forall_forall. intros x Hx. specialize (H x Hx). apply andb_true_iff in H as [?%Z.leb_le ?%Z.ltb_lt]. unfold in_u. lia. Qed.

Definition region_okb (r : PCIIORegion) : bool :=
  ((r_size r =? 0) || existsb (fun k => r_size r =? 2 ^ k) (map Z.of_nat (seq 2 30))) && (0 <=? r_type r) && (r_type r <? 256).
Lemma region_okb_sound r : region_okb r = true -> region_ok r.
Proof.
  unfold region_okb. rewrite !andb_true_iff. intros [[[Hz%Z.eqb_eq|Hk]%orb_true_iff ?%Z.leb_le] ?%Z.ltb_lt]; (split; [|unfold in_u; lia]); [left; exact Hz|right].
  apply existsb_exists in Hk as (k & (i & <- & Hi%in_seq)%in_map_iff & Hk%Z.eqb_eq). exists (Z.of_nat i). split; [lia|exact Hk].
Qed.

Definition device_okb (d : PCIDevice) : bool :=
  (zlen (config d) =? 256) && bytes_ok (config d) && (List.length (io_regions d) =? 7)%nat && forallb region_okb (io_regions d) &&
  ((aget (config d) 0x0e =? 0) || (aget (config d) 0x0e =? 0x80)).
Lemma device_okb_sound d : device_okb d = true -> pci_wf d /\ plain_header d.
Proof.
  unfold device_okb. rewrite !andb_true_iff. intros [[[[Hz%Z.eqb_eq Hb%bytes_ok_sound] Hl%Nat.eqb_eq] Hr] Hh].
  assert (Forall region_ok (io_regions d)) as Hf by (apply List.Forall_forall; intros r Hin; apply region_okb_sound; exact (proj1 (forallb_forall _ _) Hr r Hin)).
  split; [constructor; auto; refine (Forall_impl _ _ _ Hf _); intros r [? ?]; assumption|]. apply orb_true_iff in Hh as [?%Z.eqb_eq|?%Z.eqb_eq]; [left|right]; assumption.
Qed.
Definition bus_okb (b : PCIBus) : bool :=
  (List.length (device b) =? 256)%nat && forallb (fun o => match o with Some d => device_okb d | None => true end) (device b).
Lemma bus_okb_sound b : bus_okb b = true -> bus_wf b.
Proof.
  unfold bus_okb. rewrite andb_true_iff. intros [Hl%Nat.eqb_eq Hd]. split; [exact Hl|]. intros fn d E. apply device_okb_sound.
  rewrite forallb_forall in Hd. apply (Hd (Some d)). apply nth_lookup_Some with (d := None) in E as En. rewrite <- En. apply nth_In. apply lookup_lt_Some in E. exact E.
Qed.

Definition demo_boot : res (Z * I440FXState) := s ← i440fx_init; virtio_init_pci 2 s.
Definition demo_bus : I440FXState := match demo_boot with Done (_, s) => s | _ => mkI440FXState (mkPCIBus 0 [] []) 0 [] [] end.
Definition demo_device (fn : nat) : PCIDevice := match device (pci_bus demo_bus) !! fn with Some (Some d) => d | _ => new_pci_device 0 0 0 0 0 end.

(** A disk put on the bus by [virtio_init] gets the first slot after the bridges' first, and its four capabilities can be found. *)
Lemma demo_booted : (exists s, demo_boot = Done (16, s)) /\ bus_wf (pci_bus demo_bus) /\ caps (demo_device 16) [0x70; 0x60; 0x50; 0x40].
Proof. split; [eexists; vm_compute; reflexivity|]. split; [apply bus_okb_sound; vm_compute; reflexivity|]. vm_compute. intuition discriminate. Qed.

Lemma demo_disk_wf : pci_wf (demo_device 16) /\ plain_header (demo_device 16).
Proof. apply device_okb_sound. vm_compute. reflexivity. Qed.

(** [s] after the driver selected a configuration word. *)
Definition selected (s : I440FXState) (r : Z) : I440FXState := s <| config_reg := r |>.
Lemma selected_bus s r : bus_wf (pci_bus s) -> bus_wf (pci_bus (selected s r)).
Proof. exact id. Qed.
Lemma selected_reg s r : in_u 32 r -> in_u 32 (config_reg (selected s r)).
Proof. exact id. Qed.

(** A configuration write through the ports of the bridge. *)
Lemma pci_config_safe_witness : exists s', i440fx_write_data 0 0xffffffff 2 (selected demo_bus 0x80001000) = Done (tt, s') /\ bus_wf (pci_bus s').
Proof.
  destruct (pci_config_safe (selected demo_bus 0x80001000) 0 0xffffffff 2 (selected_bus _ _ (proj1 (proj2 demo_booted))) (selected_reg demo_bus 0x80001000 ltac:(easy)) ltac:(easy) ltac:(lia) ltac:(lia)) as [(s' & E & Hb & _) _].
  exists s'. split; [exact E|exact Hb].
Defined.

(** Sizing the 16 KB region of the disk. *)
Lemma bar_protocol_witness : exists d' ev, pci_device_config_write 0x20 0xffffffff 2 (demo_device 16, []) = Done (tt, (d', ev)) /\
  pci_device_config_read 0x20 2 (d', ev) = Done (0xffffc000, (d', ev)).
Proof.
  destruct demo_disk_wf as [Hw Hp].
  destruct (bar_protocol (demo_device 16) [] 4 14 0 0xffffffff Hw Hp ltac:(lia) ltac:(lia) ltac:(exists false; vm_compute; reflexivity) ltac:(lia) ltac:(easy)) as (d' & ev & E1 & E2 & _).
  exists d', ev. split; [exact E1|exact E2].
Defined.

(** A fifth capability. *)
Lemma capability_added_witness : exists d', pci_add_capability [0x05; 0; 0; 0] (demo_device 16, []) = Done (132, (d', [])) /\ caps d' [132; 0x70; 0x60; 0x50; 0x40].
Proof.
  destruct (capability_added (demo_device 16) [] [0x70; 0x60; 0x50; 0x40] [0x05; 0; 0; 0] (proj1 demo_disk_wf) (proj2 (proj2 demo_booted))
    ltac:(apply (bool_decide_unpack _); vm_compute; exact I) ltac:(vm_compute; discriminate) ltac:(vm_compute; discriminate)
    ltac:(apply bytes_ok_sound; reflexivity) ltac:(vm_compute; reflexivity)) as (d' & E & _ & Hc & _).
  exists d'. split; [exact E|exact Hc].
Defined.

Lemma demo_irq_wf : irq_wf (pci_bus demo_bus).
Proof.
  assert (irq_state (pci_bus demo_bus) = replicate 4 (replicate 8 0)) as E by (vm_compute; reflexivity). unfold irq_wf. rewrite E. split; [reflexivity|].
  apply Forall_replicate. split; [reflexivity|]. apply Forall_replicate. clear. easy.
Qed.
Lemma demo_bridge : List.length (pic_irq_state demo_bus) = 16%nat /\ device (pci_bus demo_bus) !! 8%nat = Some (Some (demo_device 8)) /\
  routed (demo_device 8) (bus_map_irq 16 0) = 0.
Proof. split; [vm_compute; reflexivity|]. split; vm_compute; reflexivity. Qed.

Lemma demo_follow : inputs_follow demo_bus (demo_device 8).
Proof.
  assert (pic_irq_state demo_bus = replicate 16 0) as E1 by (vm_compute; reflexivity).
  assert (irq_state (pci_bus demo_bus) = replicate 4 (replicate 8 0)) as E2 by (vm_compute; reflexivity).
  assert (forall m i, 0 <= i < Z.of_nat m -> aget (replicate m 0) i = 0) as H0.
  { intros m i Hi. unfold aget. rewrite nth_lookup, lookup_replicate_2 by lia. reflexivity. }
  intros i Hi. rewrite E1, H0 by lia. split; [clear; unfold in_u; lia|]. intros k Hk. rewrite Z.bits_0. split; [discriminate|]. intros [_ (fn & Hf & Hr)].
  unfold raised, irq_words in Hr. rewrite E2, nth_lookup, lookup_replicate_2 in Hr by lia. cbn [from_option] in Hr. unfold id in Hr.
  destruct (fn_split fn Hf) as (_ & Hb & _). rewrite H0, Z.bits_0 in Hr by lia. discriminate.
Qed.

(** The disk raises its pin, which is line 1 of the bus and routed to input 0 of the controller: the input is driven high. *)
Lemma pci_irq_shared_witness : exists s', pci_device_set_irq 16 0 true demo_bus = Done (tt, s') /\ raised (irq_words (pci_bus s') 1) 16 = true /\
  pci_calls s' = pci_calls demo_bus ++ [PicIrq 0 (negb (aget (pic_irq_state s') 0 =? 0))] /\ negb (aget (pic_irq_state s') 0 =? 0) = true.
Proof.
  destruct demo_bridge as (Hl & Hd & Hr). assert (bus_map_irq 16 0 = 1) as En by reflexivity.
  destruct (pci_irq_shared demo_bus 16 0 true (demo_device 8) (proj1 (proj2 demo_booted)) demo_irq_wf ltac:(lia) Hl Hd) as (s' & hd' & E & H1 & _ & H3 & _ & _ & Hrt & H5).
  rewrite Hr in H3, H5. rewrite En in Hr, H1. pose proof (H1 16 ltac:(lia)) as Hraise. cbn [Z.eqb Pos.eqb] in Hraise.
  exists s'. split; [exact E|]. split; [exact Hraise|].
  destruct (H3 ltac:(lia)) as (_ & _ & _ & Hc). split; [exact Hc|]. apply (proj2 (H5 demo_follow)); [lia|]. exists 1. split; [lia|].
  split; [rewrite Hrt by lia; exact Hr|]. exists 16. split; [lia|exact Hraise].
Defined.
