(* ===== verification/LiveCache.v ===== *)
(** * The model of the last-level cache (LiveCacheCore.h, LiveCache.h, LiveCache.cpp)

    The cache that is compiled in with [LIVECACHE]: a set-associative
    (or direct-mapped) array of lines, with the replacement policies, the
    counters of hits and misses, and the dump of the cached addresses in order
    of use.  As in the program, the sets are rows of an array of pointers
    ([content]) into the array of lines ([mem]); a hit moves a pointer, and the
    line is changed through it.

    The constructor of a line sets neither [order] nor [st], and the lines are
    in memory from [malloc]: what is in these fields before the first use is an
    argument of the model. *)

From S2P Require Import Prelude Cutils.
From stdpp Require Import base list strings.
From Stdlib Require Import ZArith Lia Bool.
Local Open Scope Z_scope.
Local Open Scope bits_scope.
Local Open Scope list_scope.

(** ** Powers of two *)

Definition roundUpPower2 (x : Z) : Z :=
  let x := u32 (x - 1) in
  let x := x |' (x >>' 1) in
  let x := x |' (x >>' 2) in
  let x := x |' (x >>' 4) in
  let x := x |' (x >>' 8) in
  let x := x |' (x >>' 16) in
  u32 (x + 1).

(** [while (m < n) { i++; m <<= 1; }] *)
Fixpoint log2_loop (m n i : Z) (fuel : nat) : res Z :=
  if m <? n then match fuel with O => Stop OutOfFuel | S fuel => log2_loop (u32 (m <<' 1)) n (i + 1) fuel end else Done i.

Definition log2i (n : Z) : res Z :=
  if n =? 1 then Done 0
  else
    let n := roundUpPower2 n in
    _ ← assert_c (n &' u32 (n - 1) =? 0);
    log2_loop 1 n 0 32.

(** ** The data *)

Inductive ReplacementPolicy := LRU | LRUp | RANDOM.
Inductive StateType := StM | StE | StS | StI.

Record Line := mkLine { tag : Z; st : bool; order : Z; state : StateType }.
#[export] Instance upd_tag : Upd tag := fun v x => mkLine v (st x) (order x) (state x).
#[export] Instance upd_st : Upd st := fun v x => mkLine (tag x) v (order x) (state x).
#[export] Instance upd_order : Upd order := fun v x => mkLine (tag x) (st x) v (state x).

Record CacheGeneric := mkCacheGeneric {
  lineSize : Z; assoc : Z; log2Assoc : Z; log2AddrLs : Z; maskAssoc : Z;
  sets : Z; maskSets : Z; log2Sets : Z; numLines : Z; xorIndex : bool }.

(** The two classes that implement the cache; [CacheAssoc] has a policy and a counter of its own. *)
Inductive CacheClass := CacheDM | CacheAssoc (policy : ReplacementPolicy) (irand : Z).

Record Cache := mkCache { geom : CacheGeneric; mem : list Line; content : list nat; class : CacheClass }.
#[export] Instance upd_mem : Upd mem := fun v x => mkCache (geom x) v (content x) (class x).
#[export] Instance upd_content : Upd content := fun v x => mkCache (geom x) (mem x) v (class x).
#[export] Instance upd_class : Upd class := fun v x => mkCache (geom x) (mem x) (content x) v.

Abbreviation CM := (SM Cache).

(** ** Construction *)

(** [strcasecmp(s, t) == 0] *)
Definition tolower (c : Z) : Z := if (65 <=? c) && (c <=? 90) then c + 32 else c.
Definition strcasecmp_eq (s t : list Z) : bool := bool_decide (map tolower s = map tolower t).

Definition k_RANDOM : list Z := str "RANDOM".
Definition k_LRU : list Z := str "LRU".
Definition k_LRUp : list Z := str "LRUp".

Definition policy_of (pStr : list Z) : res ReplacementPolicy :=
  if strcasecmp_eq pStr k_RANDOM then Done RANDOM
  else if strcasecmp_eq pStr k_LRU then Done LRU
  else if strcasecmp_eq pStr k_LRUp then Done LRUp
  else Stop (Exited 0).

Definition div_c (a b : Z) : res Z := if b =? 0 then Stop UndefinedBehaviour else Done (a / b).

(** The fields of [CacheGeneric(s, a, b, xr)], in the order of their declaration. *)
Definition new_CacheGeneric (s a b : Z) (xr : bool) : res CacheGeneric :=
  log2Assoc ← log2i a;
  log2AddrLs ← log2i b;
  lines ← div_c s b;
  sets ← div_c lines a;
  log2Sets ← log2i sets;
  Done (mkCacheGeneric b a log2Assoc log2AddrLs (u32 (a - 1)) sets (u32 (sets - 1)) log2Sets lines xr).

(** A line in fresh memory, after its constructor, [initialize] and [invalidate]. *)
Definition new_Line (fresh : bool * Z) : Line := mkLine 0 (fst fresh) (snd fresh) StI.

Definition new_cells (g : CacheGeneric) (fresh : nat -> bool * Z) (cls : CacheClass) : Cache :=
  let n := Z.to_nat (numLines g) in mkCache g (map (fun i => new_Line (fresh i)) (seq 0 n)) (seq 0 n) cls.

Definition new_CacheAssoc (size asc blksize : Z) (pStr : list Z) (xr : bool) (fresh : nat -> bool * Z) : res Cache :=
  g ← new_CacheGeneric (u32 size) (u32 asc) (u32 blksize) xr;
  _ ← assert_c (0 <? numLines g);
  _ ← assert_c (asc <? s32 (numLines g));
  policy ← policy_of pStr;
  Done (new_cells g fresh (CacheAssoc policy 0)).

Definition new_CacheDM (size blksize : Z) (xr : bool) (fresh : nat -> bool * Z) : res Cache :=
  g ← new_CacheGeneric (u32 size) 1 (u32 blksize) xr;
  _ ← assert_c (0 <? numLines g);
  Done (new_cells g fresh CacheDM).

Definition create (size asc bsize : Z) (pStr : list Z) (xr : bool) (fresh : nat -> bool * Z) : res Cache :=
  if asc =? 1 then new_CacheDM size bsize xr fresh else new_CacheAssoc size asc bsize pStr xr fresh.

(** ** Addresses *)

Definition calcTag (g : CacheGeneric) (addr : Z) : Z := addr >>' log2AddrLs g.
Definition calcAddr4Tag (g : CacheGeneric) (t : Z) : Z := u64 (t <<' log2AddrLs g).
Definition calcIndex4Tag (g : CacheGeneric) (t : Z) : Z :=
  let t := if xorIndex g then t ^' (t >>' log2Sets g) else t in
  u64 ((t &' maskSets g) <<' log2Assoc g).

(** ** Lines *)

(** [*p] for a pointer to a line, [p->setTag(t)], and an entry of [content]. *)
Definition deref (p : nat) : CM Line := c ← gets id; match mem c !! p with Some l => mret l | None => stop UndefinedBehaviour end.
Definition on_line (p : nat) (f : Line -> Line) : CM unit :=
  l ← deref p; modify (fun c => c <| mem := <[p := f l]> (mem c) |>).
Definition setTag (p : nat) (t : Z) : CM unit := _ ← liftr (assert_c (negb (t =? 0))); on_line p (fun l => l <| tag := t |>).
Definition isValid (l : Line) : bool := match state l with StI => false | _ => true end.

Definition content_at (i : Z) : CM nat := c ← gets id;
  if i <? 0 then stop UndefinedBehaviour else match content c !! Z.to_nat i with Some p => mret p | None => stop UndefinedBehaviour end.
Definition set_content (i : Z) (p : nat) : CM unit := c ← gets id;
  if (i <? 0) || (Z.of_nat (List.length (content c)) <=? i) then stop UndefinedBehaviour else modify (fun c => c <| content := <[Z.to_nat i := p]> (content c) |>).
Definition line_at (i : Z) : CM Line := p ← content_at i; deref p.

(** Access to a line without looking at its tag. *)
Definition getPLine (i : Z) : CM nat := c ← gets id; _ ← liftr (assert_c (i <? numLines (geom c))); content_at i.

(** [while (l > theSet) { prev = l - 1; *l = *prev; l = prev; }] from [theSet + k]. *)
Fixpoint shift (theSet : Z) (k : nat) : CM unit :=
  match k with O => mret tt | S k' => p ← content_at (theSet + Z.of_nat k'); _ ← set_content (theSet + Z.of_nat k) p; shift theSet k' end.
(** The line at [theSet + k] becomes the first of its set. *)
Definition move_front (theSet k : Z) : CM nat :=
  tmp ← content_at (theSet + k);
  _ ← shift theSet (Z.to_nat k);
  _ ← set_content theSet tmp;
  mret tmp.

(** ** CacheAssoc *)

(** The search of positions [k], [k + 1], ... of the set. *)
Fixpoint find_up (theSet t k : Z) (n : nat) : CM (option Z) :=
  match n with
  | O => mret None
  | S n => l ← line_at (theSet + k); if tag l =? t then mret (Some k) else find_up theSet t (k + 1) n
  end.

Definition CacheAssoc_findLinePrivate (addr : Z) : CM (option nat) :=
  c ← gets id;
  let t := calcTag (geom c) addr in
  let theSet := calcIndex4Tag (geom c) t in
  p ← content_at theSet;
  l ← deref p;
  if tag l =? t then mret (Some p)
  else
    lineHit ← find_up theSet t 1 (Z.to_nat (assoc (geom c) - 1));
    match lineHit with
    | None => mret None
    | Some k => p ← move_front theSet k; mret (Some p)
    end.

(** The search from the last position down, with the free line it finds on the way. *)
Fixpoint scan_down (theSet t : Z) (n : nat) (lineFree : option Z) : CM (option Z * option Z) :=
  match n with
  | O => mret (None, lineFree)
  | S n =>
      l ← line_at (theSet + Z.of_nat n);
      if tag l =? t then mret (Some (Z.of_nat n), lineFree)
      else scan_down theSet t n (if negb (isValid l) then Some (Z.of_nat n) else match lineFree with None => Some (Z.of_nat n) | Some _ => lineFree end)
  end.

(** The position that the policy gives up. *)
Definition victim (policy : ReplacementPolicy) (irand : Z) : CM Z :=
  c ← gets id;
  match policy with
  | RANDOM =>
      let next := u16 ((irand + 1) &' maskAssoc (geom c)) in
      let next := if next =? 0 then u16 ((next + 1) &' maskAssoc (geom c)) else next in
      _ ← modify (fun c => c <| class := CacheAssoc RANDOM next |>);
      mret irand
  | LRU | LRUp => mret (assoc (geom c) - 1)
  end.

(** Where a line goes after it was chosen. *)
Definition place (policy : ReplacementPolicy) (theSet k : Z) : CM nat :=
  match policy with LRUp => content_at (theSet + k) | _ => move_front theSet k end.

Definition CacheAssoc_findLine2Replace (policy : ReplacementPolicy) (irand addr : Z) : CM nat :=
  c ← gets id;
  let t := calcTag (geom c) addr in
  _ ← liftr (assert_c (negb (t =? 0)));
  let theSet := calcIndex4Tag (geom c) t in
  p ← content_at theSet;
  l ← deref p;
  if tag l =? t then mret p
  else
    '(lineHit, lineFree) ← scan_down theSet t (Z.to_nat (assoc (geom c))) None;
    match lineHit with
    | None =>
        _ ← liftr (assert_c (match lineFree with Some _ => true | None => false end));
        k ← victim policy irand;
        if k =? 0 then content_at theSet else place policy theSet k
    | Some k => place policy theSet k
    end.

(** ** CacheDM *)

Definition CacheDM_findLinePrivate (addr : Z) : CM (option nat) :=
  c ← gets id;
  let t := calcTag (geom c) addr in
  _ ← liftr (assert_c (negb (t =? 0)));
  p ← content_at (calcIndex4Tag (geom c) t);
  l ← deref p;
  if tag l =? t then _ ← liftr (assert_c (isValid l)); mret (Some p) else mret None.
Definition CacheDM_findLine2Replace (addr : Z) : CM nat :=
  c ← gets id; content_at (calcIndex4Tag (geom c) (calcTag (geom c) addr)).

(** ** The interface of the cache: virtual calls go to the class *)

Definition findLine (addr : Z) : CM (option nat) :=
  c ← gets id; match class c with CacheDM => CacheDM_findLinePrivate addr | CacheAssoc _ _ => CacheAssoc_findLinePrivate addr end.
Definition findLine2Replace (addr : Z) : CM nat :=
  c ← gets id; match class c with CacheDM => CacheDM_findLine2Replace addr | CacheAssoc policy irand => CacheAssoc_findLine2Replace policy irand addr end.
Definition fillLine (addr : Z) : CM nat :=
  p ← findLine2Replace addr;
  c ← gets id;
  _ ← setTag p (calcTag (geom c) addr);
  mret p.

(** The variant that reports the address of the line it replaces. *)
Definition fillLine_rplc (addr : Z) : CM (nat * Z) :=
  p ← findLine2Replace addr;
  c ← gets id;
  let newTag := calcTag (geom c) addr in
  l ← deref p;
  let rplcAddr := if isValid l && negb (tag l =? newTag) then calcAddr4Tag (geom c) (tag l) else 0 in
  _ ← setTag p newTag;
  mret (p, rplcAddr).

(** ** LiveCache *)

Record LiveCache := mkLiveCache {
  cacheBank : Cache; lineCount : Z; maxOrder : Z; nReadHit : Z; nReadMiss : Z; nWriteHit : Z; nWriteMiss : Z }.
#[export] Instance upd_cacheBank : Upd cacheBank := fun v x => mkLiveCache v (lineCount x) (maxOrder x) (nReadHit x) (nReadMiss x) (nWriteHit x) (nWriteMiss x).
#[export] Instance upd_maxOrder : Upd maxOrder := fun v x => mkLiveCache (cacheBank x) (lineCount x) v (nReadHit x) (nReadMiss x) (nWriteHit x) (nWriteMiss x).
#[export] Instance upd_nReadHit : Upd nReadHit := fun v x => mkLiveCache (cacheBank x) (lineCount x) (maxOrder x) v (nReadMiss x) (nWriteHit x) (nWriteMiss x).
#[export] Instance upd_nReadMiss : Upd nReadMiss := fun v x => mkLiveCache (cacheBank x) (lineCount x) (maxOrder x) (nReadHit x) v (nWriteHit x) (nWriteMiss x).
#[export] Instance upd_nWriteHit : Upd nWriteHit := fun v x => mkLiveCache (cacheBank x) (lineCount x) (maxOrder x) (nReadHit x) (nReadMiss x) v (nWriteMiss x).
#[export] Instance upd_nWriteMiss : Upd nWriteMiss := fun v x => mkLiveCache (cacheBank x) (lineCount x) (maxOrder x) (nReadHit x) (nReadMiss x) (nWriteHit x) v.

Abbreviation LM := (SM LiveCache).

Definition on_bank {A} (m : CM A) : LM A := fun l =>
  match m (cacheBank l) with Done (a, c) => Done (a, l <| cacheBank := c |>) | Stop r => Stop r end.

(** [n++] on a [long long]. *)
Definition count (n : Z) : res Z := if n =? 2 ^ 63 - 1 then Stop UndefinedBehaviour else Done (n + 1).

(** [maxOrder++] on a [uint64_t]: the old value. *)
Definition next_order : LM Z := l ← gets id; _ ← modify (fun l => l <| maxOrder := u64 (maxOrder l + 1) |>); mret (maxOrder l).

Definition new_LiveCache (size : Z) (fresh : nat -> bool * Z) : res LiveCache :=
  bank ← create size 16 64 k_LRU false fresh;
  _ ← log2i (lineSize (geom bank));
  _ ← assert_c (lineSize (geom bank) <? 4096);
  Done (mkLiveCache bank (numLines (geom bank)) 0 0 0 0 0).

Definition read (addr : Z) : LM unit :=
  l ← on_bank (findLine addr);
  match l with
  | Some p =>
      o ← next_order;
      _ ← on_bank (on_line p (fun l => l <| order := o |>));
      s ← gets id;
      n ← liftr (count (nReadHit s));
      modify (fun s => s <| nReadHit := n |>)
  | None =>
      s ← gets id;
      n ← liftr (count (nReadMiss s));
      _ ← modify (fun s => s <| nReadMiss := n |>);
      p ← on_bank (fillLine addr);
      _ ← on_bank (on_line p (fun l => l <| st := false |>));
      o ← next_order;
      on_bank (on_line p (fun l => l <| order := o |>))
  end.

Definition write (addr : Z) : LM unit :=
  l ← on_bank (findLine addr);
  match l with
  | Some p =>
      o ← next_order;
      _ ← on_bank (on_line p (fun l => l <| order := o |>));
      _ ← on_bank (on_line p (fun l => l <| st := true |>));
      s ← gets id;
      n ← liftr (count (nWriteHit s));
      modify (fun s => s <| nWriteHit := n |>)
  | None =>
      s ← gets id;
      n ← liftr (count (nWriteMiss s));
      _ ← modify (fun s => s <| nWriteMiss := n |>);
      p ← on_bank (fillLine addr);
      _ ← on_bank (on_line p (fun l => l <| st := true |>));
      o ← next_order;
      on_bank (on_line p (fun l => l <| order := o |>))
  end.

(** The counters that the destructor prints; it avoids a division by zero. *)
Definition final_counts (l : LiveCache) : LiveCache :=
  let l := if (nWriteMiss l =? 0) && (nWriteHit l =? 0) then l <| nWriteMiss := 1 |> else l in
  if (nReadMiss l =? 0) && (nReadHit l =? 0) then l <| nReadMiss := 1 |> else l.

(** ** The dump *)

Definition at_c {A} (l : list A) (i : nat) : res A := match l !! i with Some x => Done x | None => Stop UndefinedBehaviour end.

Section MergeSort.
(** [arr[i]->order], for the line a pointer names. *)
Context (key : nat -> Z).

(** The loop that merges [arr1] from [m] on and [arr2] from [n] on into [k] entries. *)
Fixpoint merge_loop (arr1 arr2 : list nat) (m n k : nat) : res (list nat) :=
  match k with
  | O => Done []
  | S k =>
      first ← (if (List.length arr2 <=? n)%nat then Done true
               else if (m <? List.length arr1)%nat then a ← at_c arr1 m; b ← at_c arr2 n; Done (key a <=? key b) else Done false);
      if (first : bool) then a ← at_c arr1 m; rest ← merge_loop arr1 arr2 (S m) n k; Done (a :: rest)
      else b ← at_c arr2 n; rest ← merge_loop arr1 arr2 m (S n) k; Done (b :: rest)
  end.

Fixpoint mergeSort (fuel : nat) (arr : list nat) : res (list nat) :=
  let len := List.length arr in
  if (len <? 2)%nat then Done arr
  else if (len =? 2)%nat then
    a ← at_c arr 0; b ← at_c arr 1;
    Done (if key b <? key a then [b; a] else arr)
  else
    match fuel with
    | O => Stop OutOfFuel
    | S fuel =>
        let mid := (len / 2)%nat in
        arr1 ← mergeSort fuel (take mid arr);
        arr2 ← mergeSort fuel (drop mid arr);
        merge_loop arr1 arr2 0 0 len
    end.
End MergeSort.

(** The lines that were used, in the order of the array. *)
Fixpoint collect (i : Z) (n : nat) : CM (list nat) :=
  match n with
  | O => mret []
  | S n =>
      p ← getPLine i; l ← deref p;
      rest ← collect (i + 1) n;
      mret (if negb (order l =? 0) then p :: rest else rest)
  end.

Definition order_of (c : Cache) (p : nat) : Z := match mem c !! p with Some l => order l | None => 0 end.

(** The entries of the dump: an address, with bit 0 set for a line that was written. *)
Fixpoint entries (arr : list nat) : CM (list Z) :=
  match arr with
  | [] => mret []
  | p :: arr =>
      c ← gets id; l ← deref p;
      if tag l =? 0 then entries arr
      else
        let a := calcAddr4Tag (geom c) (tag l) in
        _ ← liftr (assert_c (st l || (a &' 1 =? 0)));
        rest ← entries arr;
        mret ((if st l then 1 |' a else a) :: rest)
  end.

Definition traverse : LM (list Z) :=
  s ← gets id;
  arr ← on_bank (collect 0 (Z.to_nat (lineCount s)));
  arr ← liftr (mergeSort (order_of (cacheBank s)) (List.length arr) arr);
  on_bank (entries arr).
