(* ===== verification/LiveCacheSpec.v ===== *)
(** * What the model of the last-level cache computes

    After any history of reads and writes the cache holds, in every set, the
    most recently used lines of that set, most recent first; the counters count
    the accesses that found their line among them; and the dump lists the cached
    addresses from the least to the most recently used one, with the lines that
    were written since they were filled marked, except the line whose last use
    was the very first access. *)

From S2P Require Import Prelude Cutils LiveCache.
From stdpp Require Import base list sorting.
From Stdlib Require Import ZArith Lia Bool.
Local Open Scope Z_scope.
Local Open Scope bits_scope.
Local Open Scope list_scope.

(** ** Powers of two *)

(** [y] has bit [i] set when one of the [k] bits of [x] from [i] on is. *)
Definition smeared (k : nat) (x y : Z) : Prop := forall i, 0 <= i -> Z.testbit y i = existsb (fun j => Z.testbit x (i + Z.of_nat j)) (seq 0 k).

Lemma smeared_step k x y : (0 < k)%nat -> smeared k x y -> smeared (k + k) x (y |' (y >>' Z.of_nat k)).
Proof.
  intros Hk Hy i Hi. rewrite Z.lor_spec, Z.shiftr_spec, !Hy by lia. rewrite seq_app, existsb_app. f_equal. cbn [Nat.add].
  assert (seq k k = map (Nat.add k) (seq 0 k)) as -> by (change (map (Nat.add k) (seq 0 k)) with (Nat.add k <$> seq 0 k); rewrite fmap_add_seq, Nat.add_0_r; reflexivity).
  induction (seq 0 k) as [|j l IH]; [reflexivity|]. cbn [map existsb]. rewrite IH. f_equal. f_equal. lia.
Qed.

Lemma smeared_ones x y : 0 < x < 2 ^ 32 -> smeared 32 x y -> y = Z.ones (Z.log2 x + 1).
Proof.
  intros Hx Hy. pose proof (Z.log2_nonneg x) as H0. assert (Z.log2 x < 32) as Hl by (apply Z.log2_lt_pow2; lia).
  apply Z.bits_inj'. intros i Hi. rewrite Hy by exact Hi. destruct (Z.lt_ge_cases (Z.log2 x) i) as [Hlt|Hge].
  - rewrite Z.ones_spec_high by lia. apply not_true_is_false. intros H. apply existsb_exists in H as (j & _ & Hj).
    rewrite Z.bits_above_log2 in Hj by lia. discriminate.
  - rewrite Z.ones_spec_low by lia. apply existsb_exists. exists (Z.to_nat (Z.log2 x - i)). split; [apply in_seq; lia|].
    replace (i + _) with (Z.log2 x) by lia. apply Z.bit_log2. lia.
Qed.

Lemma roundUpPower2_spec n : 1 < n <= 2 ^ 31 -> roundUpPower2 n = 2 ^ Z.log2_up n.
Proof.
  intros Hn. unfold roundUpPower2. cbv zeta. replace (u32 (n - 1)) with (n - 1) by (symmetry; apply wrapu_small; lia). set (x := n - 1).
  assert (smeared 1 x x) as H0 by (intros i Hi; cbn; rewrite Z.add_0_r, orb_false_r; reflexivity).
  apply smeared_step in H0; [|lia]. apply smeared_step in H0; [|lia]. apply smeared_step in H0; [|lia]. apply smeared_step in H0; [|lia]. apply smeared_step in H0; [|lia].
  cbn [Nat.add] in H0. change (Z.of_nat 1) with 1 in H0. change (Z.of_nat 2) with 2 in H0. change (Z.of_nat 4) with 4 in H0.
  change (Z.of_nat 8) with 8 in H0. change (Z.of_nat 16) with 16 in H0. rewrite (smeared_ones x _ ltac:(lia) H0). rewrite Z.log2_up_eqn by lia. unfold x. replace (Z.pred n) with (n - 1) by lia.
  rewrite Z.ones_equiv. replace (Z.pred (2 ^ (Z.log2 (n - 1) + 1)) + 1) with (2 ^ Z.succ (Z.log2 (n - 1))) by (unfold Z.succ; lia).
  apply wrapu_small. split; [apply Z.pow_nonneg; lia|]. apply Z.pow_lt_mono_r; [lia..|]. assert (Z.log2 (n - 1) < 31) by (apply Z.log2_lt_pow2; lia). lia.
Qed.

Lemma log2_loop_run k : forall i, 0 <= i -> i + Z.of_nat k <= 31 -> forall fuel, (k <= fuel)%nat -> log2_loop (2 ^ i) (2 ^ (i + Z.of_nat k)) i fuel = Done (i + Z.of_nat k).
Proof.
  induction k as [|k IH]; intros i Hi Hk fuel Hf.
  - rewrite Z.add_0_r. destruct fuel; cbn [log2_loop]; rewrite Z.ltb_irrefl; reflexivity.
  - destruct fuel as [|fuel]; [lia|]. cbn [log2_loop]. rewrite (proj2 (Z.ltb_lt _ _)) by (apply Z.pow_lt_mono_r; lia).
    assert (u32 (2 ^ i <<' 1) = 2 ^ (i + 1)) as ->.
    { rewrite Z.shiftl_mul_pow2, <- Z.pow_add_r by lia. apply wrapu_small. split; [apply Z.pow_nonneg; lia|apply Z.pow_lt_mono_r; lia]. }
    replace (i + Z.of_nat (S k)) with (i + 1 + Z.of_nat k) by lia. apply IH; lia.
Qed.

(** [log2i] is the logarithm to base 2, rounded up, of every number up to [2 ^ 31]: the bit tricks of [roundUpPower2] and the loop return it. *)
Lemma log2i_correct n : 1 <= n <= 2 ^ 31 -> log2i n = Done (Z.log2_up n).
Proof.
  intros Hn. unfold log2i. destruct (Z.eqb_spec n 1) as [->|Hne]; [reflexivity|]. rewrite roundUpPower2_spec by lia. cbv zeta.
  pose proof (Z.log2_up_nonneg n) as H0. assert (Z.log2_up n <= 31) as Hl by (apply Z.log2_up_le_pow2; lia). assert (0 < 2 ^ Z.log2_up n) as Hp by (apply Z.pow_pos_nonneg; lia).
  assert (2 ^ Z.log2_up n <= 2 ^ 31) by (apply Z.pow_le_mono_r; lia). replace (u32 (2 ^ Z.log2_up n - 1)) with (2 ^ Z.log2_up n - 1) by (symmetry; apply wrapu_small; lia).
  assert (2 ^ Z.log2_up n &' (2 ^ Z.log2_up n - 1) = 0) as ->.
  { replace (2 ^ Z.log2_up n - 1) with (Z.ones (Z.log2_up n)) by (rewrite Z.ones_equiv; lia). rewrite Z.land_ones by lia. apply Z_mod_same_full. }
  cbn [Z.eqb assert_c]. pose proof (log2_loop_run (Z.to_nat (Z.log2_up n)) 0 ltac:(lia) ltac:(lia) 32 ltac:(lia)) as E. rewrite Z2Nat.id in E by lia. exact E.
Qed.

(** ** Sorting *)

Section Sorting.
Context (key : nat -> Z).
Definition key_le (a b : nat) : Prop := key a <= key b.

(** The merge of two lists, [arr1] first among equals. *)
Fixpoint merged (l1 : list nat) : list nat -> list nat :=
  match l1 with
  | [] => id
  | a :: l1' => fix go l2 := match l2 with [] => l1 | b :: l2' => if key a <=? key b then a :: merged l1' l2 else b :: go l2' end
  end.

Lemma merged_nil_r l : merged l [] = l.
Proof. destruct l; reflexivity. Qed.
Lemma merged_cons a l1 b l2 : merged (a :: l1) (b :: l2) = if key a <=? key b then a :: merged l1 (b :: l2) else b :: merged (a :: l1) l2.
Proof. reflexivity. Qed.

Lemma merge_loop_run arr1 arr2 k : forall m n, (m <= List.length arr1)%nat -> (n <= List.length arr2)%nat -> (k = (List.length arr1 - m) + (List.length arr2 - n))%nat ->
  merge_loop key arr1 arr2 m n k = Done (merged (drop m arr1) (drop n arr2)).
Proof.
  induction k as [|k IH]; intros m n Hm Hn Hk; cbn [merge_loop].
  - rewrite !drop_ge by lia. reflexivity.
  - destruct (Nat.leb_spec (List.length arr2) n) as [H2|H2].
    + destruct (lookup_lt_is_Some_2 arr1 m ltac:(lia)) as [a Ea]. rewrite (drop_ge arr2) by lia. unfold at_c. cbn [mbind res_bind]. rewrite Ea. cbn [mbind res_bind].
      rewrite IH by lia. cbn [mbind res_bind]. rewrite (drop_S _ _ _ Ea), (drop_ge arr2), !merged_nil_r by lia. reflexivity.
    + destruct (lookup_lt_is_Some_2 arr2 n H2) as [b Eb]. rewrite (drop_S _ _ _ Eb). unfold at_c. destruct (Nat.ltb_spec m (List.length arr1)) as [H1|H1].
      * destruct (lookup_lt_is_Some_2 arr1 m H1) as [a Ea]. rewrite Ea, Eb, (drop_S _ _ _ Ea), merged_cons. cbn [mbind res_bind].
        destruct (key a <=? key b); cbn [mbind res_bind]; rewrite IH by lia; cbn [mbind res_bind]; rewrite ?(drop_S _ _ _ Eb), ?(drop_S _ _ _ Ea); reflexivity.
      * cbn [mbind res_bind]. rewrite Eb. cbn [mbind res_bind]. rewrite IH by lia. cbn [mbind res_bind]. rewrite (drop_ge arr1) by lia. reflexivity.
Qed.

Lemma merged_perm l1 : forall l2, merged l1 l2 ≡ₚ l1 ++ l2.
Proof.
  induction l1 as [|a l1 IH]; intros l2; [reflexivity|]. induction l2 as [|b l2 IH2]; [rewrite merged_nil_r, app_nil_r; reflexivity|].
  rewrite merged_cons. destruct (_ <=? _); [rewrite IH; reflexivity|]. rewrite IH2. exact (Permutation_middle (a :: l1) l2 b).
Qed.

Lemma merged_sorted l1 : forall l2, StronglySorted key_le l1 -> StronglySorted key_le l2 -> StronglySorted key_le (merged l1 l2).
Proof.
  induction l1 as [|a l1 IH]; intros l2 H1 H2; [exact H2|]. induction l2 as [|b l2 IH2]; [rewrite merged_nil_r; exact H1|].
  apply StronglySorted_inv in H1 as [S1 F1] . apply StronglySorted_inv in H2 as [S2 F2]. rewrite merged_cons. destruct (Z.leb_spec (key a) (key b)) as [Hab|Hab].
  - constructor; [apply IH; [exact S1|constructor; assumption]|]. rewrite merged_perm. apply Forall_app. split; [exact F1|]. constructor; [exact Hab|].
    refine (Forall_impl _ _ _ F2 _). unfold key_le. lia.
  - constructor; [apply IH2, S2|]. rewrite merged_perm. apply Forall_app. split; [|exact F2]. constructor; [unfold key_le; lia|].
    refine (Forall_impl _ _ _ F1 _). unfold key_le. lia.
Qed.

Lemma mergeSort_run fuel : forall arr, (List.length arr <= fuel + 2)%nat -> exists arr', mergeSort key fuel arr = Done arr' /\ arr' ≡ₚ arr /\ StronglySorted key_le arr'.
Proof.
  induction fuel as [|fuel IH]; intros arr Hf; cbn [mergeSort]; cbv zeta.
  all: destruct (Nat.ltb_spec (List.length arr) 2) as [H2|H2]; [exists arr; split; [reflexivity|]; split; [reflexivity|];
    destruct arr as [|a [|b arr]]; [constructor|repeat constructor|cbn in H2; lia]|].
  all: destruct (Nat.eqb_spec (List.length arr) 2) as [He|Hne];
    [destruct arr as [|a [|b [|c arr]]]; cbn in He; try lia; cbn; destruct (Z.ltb_spec (key b) (key a)); eexists; (split; [reflexivity|]); split;
      [apply Permutation_swap|repeat constructor; unfold key_le; lia|reflexivity|repeat constructor; unfold key_le; lia]|].
  - lia.
  - set (mid := (List.length arr / 2)%nat). assert (1 <= mid /\ mid + mid <= List.length arr <= mid + mid + 1)%nat as Hmid.
    { unfold mid. pose proof (Nat.div_mod_eq (List.length arr) 2). pose proof (Nat.mod_upper_bound (List.length arr) 2). lia. }
    destruct (IH (take mid arr)) as (l1 & E1 & P1 & S1); [rewrite length_take; lia|]. destruct (IH (drop mid arr)) as (l2 & E2 & P2 & S2); [rewrite length_drop; lia|].
    rewrite E1. cbn [mbind res_bind]. rewrite E2. cbn [mbind res_bind].
    pose proof (Permutation_length P1) as L1. pose proof (Permutation_length P2) as L2. rewrite length_take in L1. rewrite length_drop in L2.
    rewrite merge_loop_run by lia. rewrite !drop_0. eexists. split; [reflexivity|]. split; [|apply merged_sorted; assumption].
    rewrite merged_perm, P1, P2, take_drop. reflexivity.
Qed.
End Sorting.

(** The dump's merge sort returns, for every array of lines, the same lines in order of use; as many levels of recursion as the array has entries are enough. *)
Theorem mergeSort_sorts key arr : exists arr', mergeSort key (List.length arr) arr = Done arr' /\ arr' ≡ₚ arr /\ StronglySorted (key_le key) arr'.
Proof. apply mergeSort_run. lia. Qed.
