(* ===== verification/Lru.v ===== *)
(** * The last-level cache keeps the most recently used lines *)

From stdpp Require Import base list sorting.
From Stdlib Require Import ZArith Lia Bool.
From S2P Require Import Prelude Cutils LiveCache LiveCacheSpec.
Local Open Scope Z_scope.
Local Open Scope bits_scope.
Local Open Scope list_scope.

(** ** Histories

    A history is the list of the accesses so far, the latest first: whether it
    was a write, and the tag of its line. *)

Abbreviation history := (list (bool * Z)).

(** The first occurrences. *)
Fixpoint distinct (l : list Z) : list Z := match l with [] => [] | x :: l => x :: filter (fun y => y <> x) (distinct l) end.

Lemma elem_of_distinct l x : x ∈ distinct l <-> x ∈ l.
Proof.
  induction l as [|y l IH]; [reflexivity|]. cbn [distinct]. rewrite !elem_of_cons, list_elem_of_filter, IH. destruct (decide (x = y)); tauto.
Qed.
Lemma NoDup_distinct l : NoDup (distinct l).
Proof. induction l as [|y l IH]; [constructor|]. cbn [distinct]. constructor; [rewrite list_elem_of_filter; tauto|apply NoDup_filter, IH]. Qed.
Lemma filter_distinct (P : Z -> Prop) `{!∀ x, Decision (P x)} l : filter P (distinct l) = distinct (filter P l).
Proof.
  induction l as [|x l IH]; [reflexivity|]. cbn [distinct]. rewrite !filter_cons. destruct (decide (P x)) as [Hx|Hx]; cbn [distinct].
  - rewrite <- IH. f_equal. rewrite !list_filter_filter. apply list_filter_iff. tauto.
  - rewrite list_filter_filter, <- IH. apply list_filter_iff. intros y. split; [tauto|]. intros Hy. split; [exact Hy|]. intros ->. contradiction.
Qed.

Section History.
Context (ways : nat) (nsets : Z).

(** The lines used so far, the most recently used first. *)
Definition used (h : history) : list Z := distinct (map snd h).
(** Those of set [i]. *)
Definition recent (h : history) (i : Z) : list Z := filter (fun t => t mod nsets = i) (used h).
Definition kept (h : history) (i : Z) : list Z := take ways (recent h i).
Definition resident (h : history) (t : Z) : bool := bool_decide (t ∈ kept h (t mod nsets)).

(** Whether line [t] was written since it was brought in. *)
Fixpoint dirty (h : history) (t : Z) : bool :=
  match h with [] => false | (w, t') :: h => if t =? t' then w || (resident h t && dirty h t) else dirty h t end.
(** The number of the last access to [t]. *)
Fixpoint last_use (h : history) (t : Z) : Z :=
  match h with [] => 0 | (_, t') :: h => if t =? t' then Z.of_nat (List.length h) else last_use h t end.

(** The accesses of kind [w] that found their line. *)
Fixpoint hits (w : bool) (h : history) : Z :=
  match h with [] => 0 | (w', t) :: h => hits w h + if Bool.eqb w' w && resident h t then 1 else 0 end.
Fixpoint misses (w : bool) (h : history) : Z :=
  match h with [] => 0 | (w', t) :: h => misses w h + if Bool.eqb w' w && negb (resident h t) then 1 else 0 end.

Lemma used_cons w t h : used ((w, t) :: h) = t :: filter (fun y => y <> t) (used h).
Proof. reflexivity. Qed.
Lemma NoDup_recent h i : NoDup (recent h i).
Proof. apply NoDup_filter, NoDup_distinct. Qed.
Lemma NoDup_kept h i : NoDup (kept h i).
Proof. eapply sublist_NoDup; [apply NoDup_recent|]. apply sublist_take. Qed.

Lemma kept_set h i t : t ∈ kept h i -> t mod nsets = i.
Proof. intros H. pose proof (elem_of_sublist _ _ _ H (sublist_take _ _)) as Hr. apply list_elem_of_filter in Hr. apply Hr. Qed.

Lemma recent_same w t h : recent ((w, t) :: h) (t mod nsets) = t :: filter (fun y => y <> t) (recent h (t mod nsets)).
Proof.
  unfold recent. rewrite used_cons, filter_cons, decide_True by reflexivity. f_equal. rewrite !list_filter_filter. apply list_filter_iff. tauto.
Qed.
Lemma recent_other w t h i : i <> t mod nsets -> recent ((w, t) :: h) i = recent h i.
Proof.
  intros Hi. unfold recent. rewrite used_cons, filter_cons, decide_False by congruence. rewrite list_filter_filter. apply list_filter_iff. intros x. split; [tauto|].
  intros Hx. split; [exact Hx|]. congruence.
Qed.
Lemma kept_other w t h i : i <> t mod nsets -> kept ((w, t) :: h) i = kept h i.
Proof. intros Hi. unfold kept. rewrite recent_other by exact Hi. reflexivity. Qed.

Lemma filter_ne_notin (t : Z) (l : list Z) : t ∉ l -> filter (fun y => y <> t) l = l.
Proof.
  induction l as [|x l IH]; intros Hn; [reflexivity|]. apply not_elem_of_cons in Hn as [Hx Hn]. rewrite filter_cons, decide_True by congruence. rewrite IH by exact Hn. reflexivity.
Qed.

(** An access to a line that is kept moves it to the front; another one pushes the oldest out. *)
Lemma kept_hit w t h j : kept h (t mod nsets) !! j = Some t -> kept ((w, t) :: h) (t mod nsets) = t :: delete j (kept h (t mod nsets)).
Proof.
  intros Hj. unfold kept in *. rewrite recent_same. apply lookup_take_Some in Hj as [Hj Hlt]. destruct ways as [|n]; [lia|]. cbn [firstn take]. f_equal.
  pose proof (NoDup_recent h (t mod nsets)) as Hnd. rewrite <- (take_drop_middle _ _ _ Hj) in Hnd |- *. set (l1 := take j _) in *. set (l2 := drop (S j) _) in *.
  assert (List.length l1 = j) as L1 by (unfold l1; rewrite length_take; apply lookup_lt_Some in Hj; lia).
  apply NoDup_app in Hnd as (_ & H12 & H2). apply NoDup_cons in H2 as [H2 _]. assert (t ∉ l1) as H1 by (intros H1; destruct (H12 t H1); left).
  rewrite filter_app, filter_cons, decide_False by tauto. rewrite !filter_ne_notin by assumption.
  rewrite (take_app_ge _ (t :: l2)) by lia. rewrite L1. destruct (S n - j)%nat as [|m] eqn:Em; [lia|]. cbn [firstn]. rewrite <- L1 at 1. rewrite delete_middle.
  rewrite take_app_ge by lia. f_equal. f_equal. lia.
Qed.
Lemma kept_miss w t h : (0 < ways)%nat -> t ∉ kept h (t mod nsets) -> kept ((w, t) :: h) (t mod nsets) = t :: take (ways - 1) (kept h (t mod nsets)).
Proof.
  intros Hw Hn. unfold kept in *. rewrite recent_same. destruct ways as [|n]; [lia|]. cbn [firstn take]. f_equal. rewrite take_take.
  replace ((S n - 1) `min` S n)%nat with n by lia. clear Hw. revert n Hn. induction (recent h (t mod nsets)) as [|x l IH]; intros n Hn; [reflexivity|].
  cbn [firstn] in Hn. apply not_elem_of_cons in Hn as [Hx Hn]. rewrite filter_cons, decide_True by congruence. destruct n; [reflexivity|]. cbn [firstn take].
  f_equal. apply IH, Hn.
Qed.

Lemma dirty_other w t h t' : t' <> t -> dirty ((w, t) :: h) t' = dirty h t'.
Proof. intros Hne. cbn [dirty]. destruct (Z.eqb_spec t' t); [contradiction|reflexivity]. Qed.
Lemma last_use_other w t h t' : t' <> t -> last_use ((w, t) :: h) t' = last_use h t'.
Proof. intros Hne. cbn [last_use]. destruct (Z.eqb_spec t' t); [contradiction|reflexivity]. Qed.
Lemma last_use_range h t : t ∈ used h -> 0 <= last_use h t < Z.of_nat (List.length h).
Proof.
  unfold used. rewrite elem_of_distinct. induction h as [|[w t'] h IH]; intros Ht; [inversion Ht|]. cbn [last_use List.length]. destruct (Z.eqb_spec t t') as [->|Hne]; [lia|].
  cbn in Ht. apply elem_of_cons in Ht as [->|Ht]; [contradiction|]. specialize (IH Ht). lia.
Qed.

(** The lines used are in order of their last use. *)
Lemma used_sorted h : StronglySorted (fun a b => last_use h b < last_use h a) (used h).
Proof.
  induction h as [|[w t] h IH]; [constructor|]. rewrite used_cons. assert (Forall (fun y => y <> t /\ y ∈ used h) (filter (fun y => y <> t) (used h))) as Hf.
  { apply Forall_forall. intros y Hy. apply list_elem_of_filter in Hy. exact Hy. }
  constructor.
  - clear Hf. induction IH as [|x l Hs IH' Hl]; [constructor|]. rewrite filter_cons. destruct (decide (x <> t)) as [Hx|Hx]; [|exact IH'].
    constructor; [exact IH'|]. rewrite Forall_forall in Hl. apply Forall_forall. intros y Hy. apply list_elem_of_filter in Hy as [Hyt Hy].
    rewrite !last_use_other by assumption. apply Hl, Hy.
  - refine (Forall_impl _ _ _ Hf _). intros y [Hy Hu]. rewrite last_use_other by exact Hy. cbn [last_use]. rewrite Z.eqb_refl. apply last_use_range, Hu.
Qed.
End History.

(** ** Rows of the array of pointers *)

(** The geometry of a set-associative cache whose dimensions are powers of two. *)
Record geom_wf (g : CacheGeneric) : Prop := {
  gw_assoc : 0 <= log2Assoc g /\ assoc g = 2 ^ log2Assoc g /\ 2 <= assoc g;
  gw_sets : exists k, 0 <= k /\ sets g = 2 ^ k /\ maskSets g = sets g - 1;
  gw_lines : numLines g = sets g * assoc g /\ numLines g < 2 ^ 32;
  gw_line : 1 <= log2AddrLs g < 64;
  gw_index : xorIndex g = false }.

Definition ways (c : Cache) : nat := Z.to_nat (assoc (geom c)).
Definition set_no (c : Cache) (t : Z) : Z := t mod sets (geom c).
(** The first index of set [i]. *)
Definition start (c : Cache) (i : Z) : nat := (Z.to_nat i * ways c)%nat.
Definition row (c : Cache) (i : Z) : list nat := take (ways c) (drop (start c i) (content c)).
Definition set_row (c : Cache) (i : Z) (ps : list nat) : Cache := c <| content := take (start c i) (content c) ++ ps ++ drop (start c i + ways c) (content c) |>.

Record shape_wf (c : Cache) : Prop := {
  cw_geom : geom_wf (geom c);
  cw_mem : Z.of_nat (List.length (mem c)) = numLines (geom c);
  length_content : List.length (content c) = List.length (mem c) }.
(** Every line is in the array of pointers once. *)
Record cells_wf (c : Cache) : Prop := {
  cw_shape : shape_wf c;
  cw_content : content c ≡ₚ seq 0 (List.length (mem c)) }.

Section Rows.
Context (c : Cache) (Hw : shape_wf c).

Lemma sets_pos : 0 < sets (geom c).
Proof. destruct (gw_sets _ (cw_geom _ Hw)) as (k & Hk & -> & _). apply Z.pow_pos_nonneg; lia. Qed.
Lemma ways_pos : (2 <= ways c)%nat /\ Z.of_nat (ways c) = assoc (geom c).
Proof. destruct (gw_assoc _ (cw_geom _ Hw)) as (_ & _ & H). unfold ways. lia. Qed.
Lemma set_no_range t : 0 <= set_no c t < sets (geom c).
Proof. apply Z.mod_pos_bound, sets_pos. Qed.

Lemma start_room i : 0 <= i < sets (geom c) -> (start c i + ways c <= List.length (content c))%nat.
Proof.
  intros Hi. rewrite (length_content _ Hw). apply Nat2Z.inj_le. rewrite (cw_mem _ Hw). destruct (gw_lines _ (cw_geom _ Hw)) as [-> _]. unfold start. destruct ways_pos as [_ Ew].
  rewrite Nat2Z.inj_add, Nat2Z.inj_mul, Ew, Z2Nat.id by lia. destruct (gw_assoc _ (cw_geom _ Hw)) as (_ & _ & H). nia.
Qed.
Lemma start_index i k : 0 <= i < sets (geom c) -> Z.to_nat (i * assoc (geom c) + Z.of_nat k) = (start c i + k)%nat.
Proof. intros Hi. unfold start. destruct ways_pos as [_ Ew]. rewrite <- Ew. lia. Qed.

Lemma index_of_tag t : 0 <= t -> calcIndex4Tag (geom c) t = set_no c t * assoc (geom c).
Proof.
  intros Ht. unfold calcIndex4Tag, set_no. rewrite (gw_index _ (cw_geom _ Hw)). destruct (gw_sets _ (cw_geom _ Hw)) as (k & Hk & Es & Em).
  destruct (gw_assoc _ (cw_geom _ Hw)) as (Hl & Ea & Ha). pose proof (set_no_range t) as Hr. unfold set_no in Hr. destruct (gw_lines _ (cw_geom _ Hw)) as [El Hll].
  rewrite Em, Es. replace (2 ^ k - 1) with (Z.ones k) by (rewrite Z.ones_equiv; lia). rewrite Z.land_ones by lia. rewrite Z.shiftl_mul_pow2, <- Ea by lia.
  rewrite <- Es. apply wrapu_small. change (2 ^ 64) with (2 ^ 32 * 2 ^ 32). nia.
Qed.

Lemma length_row i : 0 <= i < sets (geom c) -> List.length (row c i) = ways c.
Proof. intros Hi. unfold row. rewrite length_take, length_drop. pose proof (start_room i Hi). lia. Qed.
Lemma row_lookup i k : (k < ways c)%nat -> row c i !! k = content c !! (start c i + k)%nat.
Proof. intros Hk. unfold row. rewrite lookup_take_lt, lookup_drop by exact Hk. reflexivity. Qed.
Lemma row_lt i k p : row c i !! k = Some p -> (k < ways c)%nat.
Proof. intros E. apply lookup_take_Some in E. lia. Qed.

Lemma content_at_row i k p : 0 <= i < sets (geom c) -> row c i !! k = Some p -> content_at (i * assoc (geom c) + Z.of_nat k) c = Done (p, c).
Proof.
  intros Hi E. pose proof (row_lt _ _ _ E) as Hk. rewrite row_lookup in E by exact Hk. unfold content_at. rewrite run_gets. unfold id. destruct ways_pos as [_ Ew].
  destruct (Z.ltb_spec (i * assoc (geom c) + Z.of_nat k) 0); [nia|]. rewrite start_index, E by exact Hi. reflexivity.
Qed.
Lemma set_content_row i k p : 0 <= i < sets (geom c) -> (k < ways c)%nat ->
  set_content (i * assoc (geom c) + Z.of_nat k) p c = Done (tt, set_row c i (<[k := p]> (row c i))).
Proof.
  intros Hi Hk. unfold set_content. rewrite run_gets. unfold id. pose proof (start_room i Hi) as Hr. destruct ways_pos as [_ Ew].
  assert ((start c i + k)%nat = Z.to_nat (i * assoc (geom c) + Z.of_nat k)) as Es by (symmetry; apply start_index, Hi).
  destruct (Z.ltb_spec (i * assoc (geom c) + Z.of_nat k) 0), (Z.leb_spec (Z.of_nat (List.length (content c))) (i * assoc (geom c) + Z.of_nat k)); try lia.
  cbn [orb]. unfold modify, set_row. rewrite <- Es. f_equal. f_equal. f_equal. unfold row.
  rewrite <- (take_drop (start c i) (content c)) at 1. rewrite insert_app_r_alt by (rewrite length_take; lia). f_equal.
  replace (start c i + k - _)%nat with k by (rewrite length_take; lia). rewrite <- (take_drop (ways c) (drop (start c i) (content c))) at 1.
  rewrite insert_app_l by (rewrite length_take, length_drop; lia). rewrite drop_drop. reflexivity.
Qed.

Lemma set_row_id i : 0 <= i < sets (geom c) -> set_row c i (row c i) = c.
Proof.
  intros Hi. unfold set_row, row. rewrite <- (drop_drop (content c) (ways c) (start c i)), take_drop, take_drop. destruct c; reflexivity.
Qed.

Lemma set_row_shape i ps : 0 <= i < sets (geom c) -> List.length ps = ways c -> shape_wf (set_row c i ps).
Proof.
  intros Hi Hp. pose proof (start_room i Hi). constructor; [exact (cw_geom _ Hw)|exact (cw_mem _ Hw)|]. cbn. rewrite !length_app, length_take, length_drop, Hp.
  rewrite <- (length_content _ Hw). lia.
Qed.
Lemma row_set_row i ps : 0 <= i < sets (geom c) -> List.length ps = ways c -> row (set_row c i ps) i = ps.
Proof.
  intros Hi Hl. pose proof (start_room i Hi). unfold row, set_row. cbn [content upd upd_content]. change (start (_ <| content := _ |>) i) with (start c i).
  rewrite drop_app_length' by (rewrite length_take; lia). change (ways (_ <| content := _ |>)) with (ways c). apply take_app_length'. symmetry; exact Hl.
Qed.
Lemma set_row_set_row i ps qs : 0 <= i < sets (geom c) -> List.length ps = ways c -> set_row (set_row c i ps) i qs = set_row c i qs.
Proof.
  intros Hi Hl. pose proof (start_room i Hi). unfold set_row. cbn [content upd upd_content]. change (start (_ <| content := _ |>) i) with (start c i).
  change (ways (_ <| content := _ |>)) with (ways c). rewrite take_app_length' by (rewrite length_take; lia).
  rewrite (drop_app_ge (take _ _)), drop_app_length' by (rewrite ?length_take; lia). reflexivity.
Qed.
Lemma row_set_other i j ps : 0 <= i < sets (geom c) -> 0 <= j < sets (geom c) -> i <> j -> List.length ps = ways c -> row (set_row c i ps) j = row c j.
Proof.
  intros Hi Hj Hne Hl. pose proof (start_room i Hi). apply list_eq. intros k. destruct (decide (k < ways c)%nat) as [Hk|Hk].
  2: { unfold row. rewrite !lookup_take_ge by (exact (proj1 (Nat.nlt_ge _ _) Hk)). reflexivity. }
  rewrite row_lookup by exact Hk. unfold row, set_row. cbn [content upd upd_content]. rewrite lookup_take_lt, lookup_drop by exact Hk.
  change (start (_ <| content := _ |>) j) with (start c j). destruct ways_pos as [Hwp _]. assert ((start c j + k < start c i) \/ (start c i + ways c <= start c j + k))%nat as [H1|H1].
  { unfold start. assert (Z.to_nat i <> Z.to_nat j) by lia. destruct (Nat.lt_ge_cases (Z.to_nat j) (Z.to_nat i)); [left|right]; nia. }
  - rewrite lookup_app_l, lookup_take_lt by (rewrite ?length_take; lia). reflexivity.
  - rewrite !lookup_app_r by (rewrite ?length_take; lia). rewrite lookup_drop, length_take. f_equal. lia.
Qed.
End Rows.

Section Cells.
Context (c : Cache) (Hw : cells_wf c).

Lemma row_valid i p : p ∈ row c i -> is_Some (mem c !! p).
Proof.
  intros Hp. apply lookup_lt_is_Some_2. assert (p ∈ content c) as Hc.
  { apply list_elem_of_lookup_1 in Hp as [k Ek]. pose proof (row_lt _ _ _ _ Ek). rewrite row_lookup in Ek by assumption. apply list_elem_of_lookup. eauto. }
  rewrite (cw_content _ Hw) in Hc. apply elem_of_seq in Hc. lia.
Qed.

(** Different positions hold different lines. *)
Lemma row_inj i j k k' p : 0 <= i -> 0 <= j -> row c i !! k = Some p -> row c j !! k' = Some p -> i = j /\ k = k'.
Proof.
  intros Hi Hj E E'. pose proof (row_lt _ _ _ _ E) as Hk. pose proof (row_lt _ _ _ _ E') as Hk'. rewrite row_lookup in E, E' by assumption.
  assert (NoDup (content c)) as Hnd by (rewrite (cw_content _ Hw); apply NoDup_seq). pose proof (NoDup_lookup _ _ _ _ Hnd E E') as Ex. unfold start in Ex.
  assert (Z.to_nat i = Z.to_nat j) by nia. split; [lia|]. nia.
Qed.

Lemma set_row_wf i ps : 0 <= i < sets (geom c) -> ps ≡ₚ row c i -> cells_wf (set_row c i ps).
Proof.
  intros Hi Hp. constructor; [apply set_row_shape; [apply Hw|exact Hi|rewrite (Permutation_length Hp); apply length_row; [apply Hw|exact Hi]]|].
  cbn. rewrite Hp. unfold row. rewrite <- (drop_drop (content c) (ways c) (start c i)), take_drop, take_drop. apply Hw.
Qed.
End Cells.

(** ** Operations on a row *)

(** The row with the entry at [k] moved to the front. *)
Definition to_front (k : nat) (ps : list nat) : list nat := match ps !! k with Some p => p :: delete k ps | None => ps end.

Lemma shift_run i k : forall c, shape_wf c -> 0 <= i < sets (geom c) -> (k < ways c)%nat -> forall p ps, row c i = p :: ps ->
  shift (i * assoc (geom c)) k c = Done (tt, set_row c i (p :: take k (p :: ps) ++ drop k ps)).
Proof.
  induction k as [|k IH]; intros c Hw Hi Hk p ps Er; cbn [shift].
  - rewrite run_ret. change (take 0 (p :: ps) ++ drop 0 ps) with ps. rewrite <- Er, set_row_id by assumption. reflexivity.
  - pose proof (length_row c Hw i Hi) as Hl. destruct (lookup_lt_is_Some_2 (row c i) k ltac:(lia)) as [q Eq].
    rewrite run_bind, (content_at_row c Hw i k q Hi Eq), run_bind, (set_content_row c Hw i (S k) q Hi Hk). rewrite Er in Eq, Hl |- *. cbn [length] in Hl.
    set (c' := set_row c i _). assert (List.length (<[S k := q]> (p :: ps)) = ways c) as Hl' by (rewrite length_insert; exact Hl).
    change (geom c) with (geom c'). rewrite (IH c' (set_row_shape c Hw i _ Hi Hl') Hi ltac:(exact (Nat.lt_succ_l _ _ Hk)) p (<[k := q]> ps)).
    2: { unfold c'. rewrite row_set_row by assumption. reflexivity. }
    unfold c'. rewrite set_row_set_row by assumption. f_equal. f_equal. f_equal. f_equal. rewrite (take_S_r _ _ _ Eq), <- app_assoc. cbn [app]. f_equal.
    + destruct k; [reflexivity|]. cbn [take firstn]. f_equal. rewrite take_insert_ge by lia. reflexivity.
    + destruct (lookup_lt_is_Some_2 ps k ltac:(lia)) as [q' Eq']. rewrite (drop_S _ q k) by (rewrite list_lookup_insert_eq by lia; reflexivity). rewrite drop_insert_lt by lia. reflexivity.
Qed.

Lemma move_front_run c i k : shape_wf c -> 0 <= i < sets (geom c) -> (k < ways c)%nat -> exists p, row c i !! k = Some p /\
  move_front (i * assoc (geom c)) (Z.of_nat k) c = Done (p, set_row c i (to_front k (row c i))).
Proof.
  intros Hw Hi Hk. pose proof (length_row c Hw i Hi) as Hl. destruct (lookup_lt_is_Some_2 (row c i) k ltac:(lia)) as [q Eq]. exists q. split; [exact Eq|].
  unfold move_front. rewrite run_bind, (content_at_row c Hw i k q Hi Eq), run_bind, Nat2Z.id. destruct (row c i) as [|p ps] eqn:Er; [cbn in Hl; pose proof (ways_pos c Hw); lia|].
  rewrite (shift_run i k c Hw Hi Hk p ps Er). set (r := p :: _). cbn [length] in Hl. assert (List.length r = ways c) as Hlr.
  { unfold r. cbn [length]. rewrite length_app, length_take, length_drop. cbn [length]. lia. }
  rewrite run_bind. pose proof (set_content_row (set_row c i r) (set_row_shape c Hw i r Hi Hlr) i 0 q Hi ltac:(exact (Nat.le_lt_trans _ _ _ (Nat.le_0_l _) Hk))) as E.
  rewrite Z.add_0_r in E. change (geom (set_row c i r)) with (geom c) in E. rewrite E, run_ret, row_set_row, set_row_set_row by assumption.
  f_equal. f_equal. f_equal. unfold to_front. rewrite Eq. unfold r. cbn [insert list_insert]. f_equal. rewrite delete_take_drop. reflexivity.
Qed.

(** ** Searching a set *)

Definition tag_of (c : Cache) (p : nat) : Z := match mem c !! p with Some l => tag l | None => 0 end.
Abbreviation tagged c t := (fun p => tag_of c p = t).

Section Search.
Context (c : Cache) (Hw : cells_wf c) (i : Z) (Hi : 0 <= i < sets (geom c)).
Let Hs : shape_wf c := cw_shape _ Hw.

Lemma line_at_run k p : row c i !! k = Some p -> exists l, line_at (i * assoc (geom c) + Z.of_nat k) c = Done (l, c) /\ tag l = tag_of c p.
Proof.
  intros E. destruct (row_valid c Hw i p) as [l El]; [apply list_elem_of_lookup; eauto|]. exists l. unfold line_at. rewrite run_bind, (content_at_row c Hs i k p Hi E).
  unfold deref, tag_of. rewrite run_gets. unfold id. rewrite El. split; reflexivity.
Qed.

Lemma find_up_run t n : forall k, (k + n <= ways c)%nat -> find_up (i * assoc (geom c)) t (Z.of_nat k) n c =
  Done (match list_find (tagged c t) (take n (drop k (row c i))) with Some (j, _) => Some (Z.of_nat (k + j)) | None => None end, c).
Proof.
  induction n as [|n IH]; intros k Hk; [reflexivity|]. cbn [find_up]. destruct (lookup_lt_is_Some_2 (row c i) k) as [p Ep]; [rewrite (length_row c Hs i Hi); lia|].
  destruct (line_at_run k p Ep) as (l & El & Et). rewrite run_bind, El, Et, (drop_S _ _ _ Ep). cbn [take firstn list_find]. destruct (Z.eqb_spec (tag_of c p) t) as [E|E].
  - rewrite decide_True, Nat.add_0_r by exact E. reflexivity.
  - rewrite decide_False by exact E. replace (Z.of_nat k + 1) with (Z.of_nat (S k)) by lia. rewrite IH by lia. f_equal. f_equal.
    destruct (list_find _ _) as [[j q]|]; cbn; [|reflexivity]. f_equal. lia.
Qed.

Lemma scan_down_run t : Forall (fun p => tag_of c p <> t) (row c i) -> forall n free, (n <= ways c)%nat ->
  exists free', scan_down (i * assoc (geom c)) t n free c = Done ((None, free'), c) /\ ((0 < n)%nat -> is_Some free').
Proof.
  intros Hn. assert (forall n free, (n <= ways c)%nat -> exists free', scan_down (i * assoc (geom c)) t n free c = Done ((None, free'), c) /\ ((0 < n)%nat \/ is_Some free -> is_Some free')) as H.
  { induction n as [|n IH]; intros free Hle; [exists free; split; [reflexivity|]; intros [?|?]; [lia|assumption]|].
    cbn [scan_down]. destruct (lookup_lt_is_Some_2 (row c i) n) as [p Ep]; [rewrite (length_row c Hs i Hi); lia|]. destruct (line_at_run n p Ep) as (l & El & Et).
    rewrite run_bind, El, Et. destruct (Z.eqb_spec (tag_of c p) t) as [E|E]; [destruct (Forall_lookup_1 _ _ _ _ Hn Ep E)|].
    edestruct (IH (if negb (isValid l) then Some (Z.of_nat n) else match free with None => Some (Z.of_nat n) | Some _ => free end)) as (free' & E1 & E2); [lia|].
    exists free'. split; [exact E1|]. intros _. apply E2. right. destruct (isValid l); cbn; [|eauto]. destruct free; eauto. }
  intros n free Hle. destruct (H n free Hle) as (f & E & Hf). exists f. split; [exact E|]. tauto.
Qed.
End Search.

Lemma to_front_0 ps : to_front 0 ps = ps.
Proof. destruct ps; reflexivity. Qed.
Lemma to_front_perm k ps : to_front k ps ≡ₚ ps.
Proof. unfold to_front. destruct (ps !! k) as [p|] eqn:E; [|reflexivity]. symmetry. apply delete_Permutation, E. Qed.

Section Ops.
Context (c : Cache) (Hw : cells_wf c) (r : Z) (addr : Z).
Let t := calcTag (geom c) addr.
Let i := set_no c t.
Context (Ht : 0 < t) (Hc : class c = CacheAssoc LRU r).
Let Hs : shape_wf c := cw_shape _ Hw.
Let Hi : 0 <= i < sets (geom c) := set_no_range c Hs t.

Lemma first_line : exists p ps, row c i = p :: ps /\ content_at (i * assoc (geom c)) c = Done (p, c) /\ exists l, deref p c = Done (l, c) /\ tag l = tag_of c p.
Proof.
  pose proof (length_row c Hs i Hi) as Hl. destruct (row c i) as [|p ps] eqn:Er; [pose proof (ways_pos c Hs); cbn in Hl; lia|]. exists p, ps. split; [reflexivity|].
  assert (row c i !! 0%nat = Some p) as E0 by (rewrite Er; reflexivity). pose proof (content_at_row c Hs i 0 p Hi E0) as E. rewrite Z.add_0_r in E. split; [exact E|].
  destruct (row_valid c Hw i p) as [l El]; [rewrite Er; left|]. exists l. unfold deref, tag_of. rewrite run_gets. unfold id. rewrite El. split; reflexivity.
Qed.

Lemma findLine_run : findLine addr c = match list_find (tagged c t) (row c i) with
  | Some (j, p) => Done (Some p, set_row c i (to_front j (row c i))) | None => Done (None, c) end.
Proof.
  unfold findLine. rewrite run_gets. unfold id. rewrite Hc. unfold CacheAssoc_findLinePrivate. rewrite run_gets. unfold id. cbv zeta. fold t.
  rewrite (index_of_tag c Hs t) by lia. fold i. destruct first_line as (p & ps & Er & E0 & l & El & Etg). rewrite run_bind, E0, run_bind, El, Etg, Er. cbn [list_find].
  destruct (Z.eqb_spec (tag_of c p) t) as [E|E].
  - rewrite decide_True by exact E. rewrite to_front_0, <- Er, set_row_id by (exact Hi || exact Hs). reflexivity.
  - rewrite decide_False by exact E. destruct (ways_pos c Hs) as [Hwp Ew]. replace (Z.to_nat (assoc (geom c) - 1)) with (ways c - 1)%nat by lia.
    pose proof (find_up_run c Hw i Hi t (ways c - 1) 1 ltac:(lia)) as Ef. change (Z.of_nat 1) with 1 in Ef. rewrite run_bind, Ef, Er. clear Ef. cbn [skipn]. pose proof (length_row c Hs i Hi) as Hl. rewrite Er in Hl. cbn in Hl.
    rewrite drop_0, firstn_all2 by lia. destruct (list_find (tagged c t) ps) as [[j q]|] eqn:Ej; cbn [prod_map fmap option_fmap option_map]; [|reflexivity].
    apply list_find_Some in Ej as (Ej & _). apply lookup_lt_Some in Ej as Hj. destruct (move_front_run c i (1 + j) Hs Hi ltac:(lia)) as (q' & Eq' & Em).
    rewrite Er in Eq'. change ((p :: ps) !! (1 + j)%nat) with (ps !! j) in Eq'. assert (q' = q) as -> by congruence. rewrite run_bind, Em, Er. reflexivity.
Qed.

(** A line that is not there replaces the oldest one of its set. *)
Lemma findLine2Replace_run : list_find (tagged c t) (row c i) = None -> exists p, row c i !! (ways c - 1)%nat = Some p /\
  findLine2Replace addr c = Done (p, set_row c i (to_front (ways c - 1) (row c i))).
Proof.
  intros Hn. apply list_find_None in Hn. destruct (ways_pos c Hs) as [Hwp Ew]. destruct (move_front_run c i (ways c - 1) Hs Hi ltac:(lia)) as (p & Ep & Em). exists p. split; [exact Ep|].
  unfold findLine2Replace. rewrite run_gets. unfold id. rewrite Hc. unfold CacheAssoc_findLine2Replace. rewrite run_gets. unfold id. cbv zeta. fold t.
  rewrite (index_of_tag c Hs t) by lia. fold i. destruct (Z.eqb_spec t 0); [lia|]. cbn [negb assert_c]. rewrite run_liftr_done.
  destruct first_line as (p0 & ps & Er & E0 & l & El & Etg). rewrite run_bind, E0, run_bind, El, Etg.
  destruct (Z.eqb_spec (tag_of c p0) t) as [E|_]; [rewrite Er in Hn; apply Forall_cons in Hn as [Hn _]; contradiction|].
  destruct (scan_down_run c Hw i Hi t Hn (ways c) None (Nat.le_refl _)) as (free & Esc & Hf). fold (ways c). rewrite run_bind, Esc.
  destruct (Hf ltac:(lia)) as [f ->]. cbn [assert_c]. rewrite run_liftr_done. unfold victim. rewrite run_assoc, run_gets. unfold id. rewrite run_bind_ret.
  destruct (Z.eqb_spec (assoc (geom c) - 1) 0); [lia|]. unfold place. replace (assoc (geom c) - 1) with (Z.of_nat (ways c - 1)) by lia. exact Em.
Qed.
End Ops.

(** ** The lines of the cache and the history *)

(** The line at [p] is line [t] of the history. *)
Definition holds (h : history) (c : Cache) (t : Z) (p : nat) : Prop :=
  exists l, mem c !! p = Some l /\ tag l = t /\ st l = dirty (ways c) (sets (geom c)) h t /\ order l = last_use h t.
Definition free (c : Cache) (p : nat) : Prop := tag_of c p = 0.

(** Set [i] holds the lines the history keeps, and then free lines. *)
Definition set_models (h : history) (c : Cache) (i : Z) : Prop :=
  exists pe pf, row c i = pe ++ pf /\ Forall2 (holds h c) (kept (ways c) (sets (geom c)) h i) pe /\ Forall (free c) pf.

(** [c] with the line at [p] replaced. *)
Definition put (c : Cache) (p : nat) (l : Line) : Cache := c <| mem := <[p := l]> (mem c) |>.

Lemma put_wf c p l : cells_wf c -> cells_wf (put c p l).
Proof. intros [[Hg Hm Hl] Hc]. constructor; [constructor|]; cbn; rewrite ?length_insert; assumption. Qed.

Lemma on_line_run c p l f : mem c !! p = Some l -> on_line p f c = Done (tt, put c p (f l)).
Proof. intros E. unfold on_line, deref. rewrite run_assoc, run_gets. unfold id. rewrite E, run_bind_ret. reflexivity. Qed.
Lemma put_lookup c p l l' : mem c !! p = Some l -> mem (put c p l') !! p = Some l'.
Proof. intros E. cbn. apply list_lookup_insert_eq. apply lookup_lt_Some in E. exact E. Qed.
Lemma put_put c p l l' : put (put c p l) p l' = put c p l'.
Proof. unfold put. cbn. rewrite list_insert_insert_eq. reflexivity. Qed.

Section Models.
Context (c : Cache) (Hw : cells_wf c) (h : history).

Lemma tag_of_holds t p : holds h c t p -> tag_of c p = t.
Proof. intros (l & E & Et & _). unfold tag_of. rewrite E. exact Et. Qed.

(** The search finds the lines that are kept. *)
Lemma models_search i t : set_models h c i -> t <> 0 ->
  match list_find (tagged c t) (row c i) with
  | Some (j, p) => kept (ways c) (sets (geom c)) h i !! j = Some t /\ holds h c t p
  | None => t ∉ kept (ways c) (sets (geom c)) h i
  end.
Proof.
  intros (pe & pf & Er & He & Hf) Ht. destruct (list_find (tagged c t) (row c i)) as [[j p]|] eqn:Ef.
  - apply list_find_Some in Ef as (Ej & Etg & _). rewrite Er in Ej. apply lookup_app_Some in Ej as [Ej|[_ Ej]].
    + destruct (Forall2_lookup_r _ _ _ _ _ He Ej) as (t' & Et' & Hh). pose proof (tag_of_holds _ _ Hh). rewrite Etg in *. subst t'. auto.
    + pose proof (Forall_lookup_1 _ _ _ _ Hf Ej) as H0. unfold free in H0. congruence.
  - apply list_find_None in Ef. intros Hin. apply list_elem_of_lookup_1 in Hin as [j Ej]. destruct (Forall2_lookup_l _ _ _ _ _ He Ej) as (p & Ep & Hh).
    rewrite Er in Ef. apply Forall_app in Ef as [Ef _]. apply (Forall_lookup_1 _ _ _ _ Ef Ep). apply tag_of_holds, Hh.
Qed.

(** One access: the line [l'] of the access is put at [p], in front of the other lines of its set that stay. *)
Lemma models_step w t p l' ts ps pf : let h' := (w, t) :: h in let i := set_no c t in
  (forall j, 0 <= j < sets (geom c) -> set_models h c j) -> p ∈ row c i -> p :: ps ++ pf ≡ₚ row c i ->
  kept (ways c) (sets (geom c)) h' i = t :: ts -> Forall2 (holds h c) ts ps -> Forall (free c) pf ->
  tag l' = t -> st l' = dirty (ways c) (sets (geom c)) h' t -> order l' = last_use h' t ->
  let c' := put (set_row c i (p :: ps ++ pf)) p l' in cells_wf c' /\ forall j, 0 <= j < sets (geom c) -> set_models h' c' j.
Proof.
  intros h' i Hm Hp Hperm Hk Hts Hpf Htag Hst Hord c'. pose proof (set_no_range c (cw_shape _ Hw) t) as Hi. fold i in Hi.
  assert (cells_wf c') as Hw' by (apply put_wf, set_row_wf; assumption). split; [exact Hw'|].
  assert (List.length (p :: ps ++ pf) = ways c) as Hl by (rewrite (Permutation_length Hperm); apply length_row; [apply Hw|exact Hi]).
  assert (forall q, q <> p -> mem c' !! q = mem c !! q) as Hmem by (intros q Hq; unfold c'; cbn; rewrite list_lookup_insert_ne by congruence; reflexivity).
  assert (forall q x, q <> p -> x <> t -> holds h c x q -> holds h' c' x q) as Hkeep.
  { intros q x Hq Hx (l & E & E1 & E2 & E3). exists l. rewrite Hmem by exact Hq. unfold h'. rewrite dirty_other, last_use_other by exact Hx. auto. }
  assert (forall q, q <> p -> free c q -> free c' q) as Hfree by (intros q Hq; unfold free, tag_of; rewrite Hmem by exact Hq; auto).
  pose proof (NoDup_kept (ways c) (sets (geom c)) h' i) as Hnd. rewrite Hk in Hnd. apply NoDup_cons in Hnd as [Htn _].
  assert (NoDup (row c i)) as Hrn.
  { apply NoDup_alt. intros a b q Ea Eb. exact (proj2 (row_inj c Hw i i a b q ltac:(lia) ltac:(lia) Ea Eb)). }
  rewrite <- Hperm in Hrn. apply NoDup_cons in Hrn as [Hpn _]. rewrite elem_of_app in Hpn.
  intros j Hj. destruct (decide (j = i)) as [->|Hne].
  - exists (p :: ps), pf. split; [exact (row_set_row c (cw_shape _ Hw) i _ Hi Hl)|]. change (ways c') with (ways c). change (geom c') with (geom c). rewrite Hk. split.
    + constructor.
      * exists l'. split; [|auto]. destruct (row_valid c Hw i p Hp) as [l El]. exact (put_lookup (set_row c i _) p l l' El).
      * apply Forall2_same_length_lookup_2; [eapply Forall2_length, Hts|]. intros k x q Ex Eq. apply Hkeep.
        -- intros ->. apply Hpn. left. apply list_elem_of_lookup. eauto.
        -- intros ->. apply Htn. apply list_elem_of_lookup. eauto.
        -- exact (Forall2_lookup_lr _ _ _ _ _ _ Hts Ex Eq).
    + apply Forall_forall. intros q Hq. apply Hfree; [intros ->; tauto|]. rewrite Forall_forall in Hpf. apply Hpf, Hq.
  - assert (row c' j = row c j) as Er by (apply (row_set_other c (cw_shape _ Hw)); auto). destruct (Hm j Hj) as (pe & pf' & E & He & Hf).
    assert (forall q, q ∈ row c j -> q <> p) as Hout.
    { intros q Hq ->. apply list_elem_of_lookup_1 in Hq as [a Ea], Hp as [b Eb]. destruct (row_inj c Hw j i a b _ ltac:(lia) ltac:(lia) Ea Eb). contradiction. }
    exists pe, pf'. rewrite Er. split; [exact E|]. change (ways c') with (ways c). change (geom c') with (geom c). unfold h'. rewrite kept_other by exact Hne. split.
    + apply Forall2_same_length_lookup_2; [eapply Forall2_length, He|]. intros k x q Ex Eq. apply Hkeep; [|intros ->|exact (Forall2_lookup_lr _ _ _ _ _ _ He Ex Eq)].
      * apply Hout. rewrite E. apply elem_of_app. left. apply list_elem_of_lookup. eauto.
      * apply Hne. symmetry. eapply kept_set. apply list_elem_of_lookup. eauto.
    + apply Forall_forall. intros q Hq. apply Hfree; [apply Hout; rewrite E; apply elem_of_app; auto|]. rewrite Forall_forall in Hf. apply Hf, Hq.
Qed.
End Models.

(** ** Accesses *)

Definition access (w : bool) (addr : Z) : LM unit := if w then write addr else read addr.

Record llc_inv (h : history) (l : LiveCache) : Prop := {
  li_cells : cells_wf (cacheBank l);
  li_class : class (cacheBank l) = CacheAssoc LRU 0;
  li_lines : lineCount l = numLines (geom (cacheBank l));
  li_order : maxOrder l = Z.of_nat (List.length h);
  li_reads : nReadHit l = hits (ways (cacheBank l)) (sets (geom (cacheBank l))) false h /\ nReadMiss l = misses (ways (cacheBank l)) (sets (geom (cacheBank l))) false h;
  li_writes : nWriteHit l = hits (ways (cacheBank l)) (sets (geom (cacheBank l))) true h /\ nWriteMiss l = misses (ways (cacheBank l)) (sets (geom (cacheBank l))) true h;
  li_sets : forall i, 0 <= i < sets (geom (cacheBank l)) -> set_models h (cacheBank l) i;
  li_tags : Forall (fun a => 0 < snd a) h }.

Lemma counts_bound ways nsets w h : 0 <= hits ways nsets w h <= Z.of_nat (List.length h) /\ 0 <= misses ways nsets w h <= Z.of_nat (List.length h).
Proof.
  induction h as [|[w' t] h IH]; [cbn; lia|]. cbn [hits misses List.length]. destruct (Bool.eqb w' w && resident ways nsets h t), (Bool.eqb w' w && negb (resident ways nsets h t)); lia.
Qed.
Lemma count_run n : n < 2 ^ 63 - 1 -> count n = Done (n + 1).
Proof. intros Hn. unfold count. destruct (Z.eqb_spec n (2 ^ 63 - 1)); [lia|reflexivity]. Qed.
Lemma on_bank_run {A} (m : CM A) l a c : m (cacheBank l) = Done (a, c) -> on_bank m l = Done (a, l <| cacheBank := c |>).
Proof. intros E. unfold on_bank. rewrite E. reflexivity. Qed.

Lemma delete_last {A} (l : list A) n : List.length l = S n -> delete n l = take n l.
Proof. intros Hl. rewrite delete_take_drop, drop_ge, app_nil_r by lia. reflexivity. Qed.

Section Access.
Context (h : history) (l : LiveCache) (Hl : llc_inv h l) (w : bool) (addr : Z).
Let c := cacheBank l.
Let t := calcTag (geom c) addr.
Let i := set_no c t.
Context (Ht : 0 < t) (Hh : Z.of_nat (List.length h) < 2 ^ 63 - 1).
Let Hw : cells_wf c := li_cells _ _ Hl.
Let o := Z.of_nat (List.length h).

(** The state after a hit or a miss, when the line of the access is [x] at [p], in a set whose pointers are [ps]. *)
Definition after (hit : bool) (p : nat) (ps : list nat) (x : Line) : LiveCache :=
  let l := l <| cacheBank := put (set_row c i ps) p x |> <| maxOrder := o + 1 |> in
  match w, hit with
  | false, true => l <| nReadHit := nReadHit l + 1 |> | false, false => l <| nReadMiss := nReadMiss l + 1 |>
  | true, true => l <| nWriteHit := nWriteHit l + 1 |> | true, false => l <| nWriteMiss := nWriteMiss l + 1 |>
  end.

Lemma order_next : u64 (maxOrder l + 1) = o + 1.
Proof. rewrite (li_order _ _ Hl). apply wrapu_small. lia. Qed.

Lemma access_hit j p x : list_find (tagged c t) (row c i) = Some (j, p) -> mem c !! p = Some x ->
  access w addr l = Done (tt, after true p (to_front j (row c i)) (mkLine (tag x) (st x || w) o (state x))).
Proof.
  intros Ef Ex. pose proof (findLine_run c Hw 0 addr Ht (li_class _ _ Hl)) as E. fold t in E. fold i in E. rewrite Ef in E.
  pose proof (proj1 (counts_bound (ways c) (sets (geom c)) false h)) as B0. pose proof (proj1 (counts_bound (ways c) (sets (geom c)) true h)) as B1.
  unfold access, write, read, after, next_order. pose proof (li_order _ _ Hl) as Eo. fold o in Eo.
  destruct w; rewrite run_bind, (on_bank_run _ _ _ _ E), !run_assoc, run_gets; unfold id; rewrite !run_assoc, run_modify, run_bind_ret.
  - rewrite run_bind. erewrite on_bank_run by (apply on_line_run; exact Ex). rewrite run_bind. erewrite on_bank_run by (apply on_line_run; exact (put_lookup _ _ _ _ Ex)).
    rewrite run_gets. unfold id. cbn [nWriteHit upd upd_cacheBank upd_maxOrder]. rewrite count_run by (rewrite (proj1 (li_writes _ _ Hl)); fold c; lia). rewrite run_liftr_done.
    unfold modify. cbn [cacheBank upd upd_cacheBank upd_maxOrder maxOrder]. rewrite put_put, order_next, Eo, orb_true_r. reflexivity.
  - rewrite run_bind. erewrite on_bank_run by (apply on_line_run; exact Ex).
    rewrite run_gets. unfold id. cbn [nReadHit upd upd_cacheBank upd_maxOrder]. rewrite count_run by (rewrite (proj1 (li_reads _ _ Hl)); fold c; lia). rewrite run_liftr_done.
    unfold modify. cbn [cacheBank upd upd_cacheBank upd_maxOrder maxOrder]. rewrite order_next, Eo, orb_false_r. reflexivity.
Qed.

Lemma fill_run : list_find (tagged c t) (row c i) = None -> exists p x, row c i !! (ways c - 1)%nat = Some p /\ mem c !! p = Some x /\
  fillLine addr c = Done (p, put (set_row c i (to_front (ways c - 1) (row c i))) p (x <| tag := t |>)).
Proof.
  intros Ef. destruct (findLine2Replace_run c Hw 0 addr Ht (li_class _ _ Hl) Ef) as (p & Ep & Er). fold t in Er, Ep. fold i in Er, Ep.
  destruct (row_valid c Hw i p) as [x Ex]; [apply list_elem_of_lookup; eauto|]. exists p, x. split; [exact Ep|]. split; [exact Ex|].
  unfold fillLine. rewrite run_bind, Er, run_gets. unfold id, setTag. change (geom (set_row c i _)) with (geom c). fold t. destruct (Z.eqb_spec t 0); [lia|].
  cbn [negb assert_c]. rewrite run_bind, run_liftr_done. rewrite (on_line_run (set_row c i _) p x) by exact Ex. reflexivity.
Qed.

Lemma access_miss : list_find (tagged c t) (row c i) = None -> exists p x, row c i !! (ways c - 1)%nat = Some p /\ mem c !! p = Some x /\
  access w addr l = Done (tt, after false p (to_front (ways c - 1) (row c i)) (mkLine t w o (state x))).
Proof.
  intros Ef. destruct (fill_run Ef) as (p & x & Ep & Ex & Efl). exists p, x. split; [exact Ep|]. split; [exact Ex|].
  pose proof (findLine_run c Hw 0 addr Ht (li_class _ _ Hl)) as E. fold t in E. fold i in E. rewrite Ef in E.
  pose proof (proj2 (counts_bound (ways c) (sets (geom c)) false h)) as B0. pose proof (proj2 (counts_bound (ways c) (sets (geom c)) true h)) as B1.
  unfold access, write, read, after, next_order. pose proof (li_order _ _ Hl) as Eo. fold o in Eo.
  destruct w; rewrite run_bind, (on_bank_run _ _ _ _ E), run_gets; unfold id; cbn [nWriteMiss nReadMiss upd upd_cacheBank upd_maxOrder];
    (rewrite count_run by (rewrite ?(proj2 (li_reads _ _ Hl)), ?(proj2 (li_writes _ _ Hl)); fold c; lia)); rewrite run_liftr_done, run_modify, run_bind;
    erewrite on_bank_run by exact Efl; rewrite run_bind; (erewrite on_bank_run by (apply on_line_run; exact (put_lookup _ _ _ _ Ex)));
    rewrite !run_assoc, run_gets; unfold id; rewrite !run_assoc, run_modify, run_bind_ret;
    (erewrite on_bank_run by (apply on_line_run; exact (put_lookup _ _ _ _ (put_lookup _ _ _ _ Ex))));
    cbn [cacheBank upd upd_cacheBank upd_maxOrder maxOrder upd_nWriteMiss upd_nReadMiss]; rewrite !put_put, order_next, Eo; reflexivity.
Qed.

Lemma after_inv hit p ps x : cells_wf (put (set_row c i ps) p x) -> (forall j, 0 <= j < sets (geom c) -> set_models ((w, t) :: h) (put (set_row c i ps) p x) j) ->
  resident (ways c) (sets (geom c)) h t = hit -> llc_inv ((w, t) :: h) (after hit p ps x).
Proof.
  intros Hw' Hm Hr. destruct (li_reads _ _ Hl) as [R1 R2], (li_writes _ _ Hl) as [W1 W2]. pose proof (li_tags _ _ Hl). fold c in R1, R2, W1, W2.
  assert (cacheBank (after hit p ps x) = put (set_row c i ps) p x) as Eb by (unfold after; destruct w, hit; reflexivity).
  constructor; rewrite ?Eb; auto.
  - exact (li_class _ _ Hl).
  - unfold after. destruct w, hit; exact (li_lines _ _ Hl).
  - cbn [List.length]. unfold after, o. destruct w, hit; cbn; lia.
  - change (ways (put (set_row c i ps) p x)) with (ways c). change (geom (put (set_row c i ps) p x)) with (geom c). cbn [hits misses]. rewrite Hr. unfold after.
    destruct w, hit; cbn; lia.
  - change (ways (put (set_row c i ps) p x)) with (ways c). change (geom (put (set_row c i ps) p x)) with (geom c). cbn [hits misses]. rewrite Hr. unfold after.
    destruct w, hit; cbn; lia.
Qed.

(** An access returns, and what the history says of the cache stays true. *)
Lemma access_run : exists l', access w addr l = Done (tt, l') /\ llc_inv ((w, t) :: h) l' /\ geom (cacheBank l') = geom c.
Proof.
  pose proof (li_sets _ _ Hl) as Hm. fold c in Hm. pose proof (set_no_range c (cw_shape _ Hw) t) as Hi. fold i in Hi.
  pose proof (models_search c h i t (Hm i Hi) ltac:(lia)) as Hsr. destruct (Hm i Hi) as (pe & pf & Er & He & Hf).
  pose proof (length_row c (cw_shape _ Hw) i Hi) as Hlen.
  assert (forall hit p ps x, geom (cacheBank (after hit p ps x)) = geom c) as Hgeo by (intros hit; unfold after; destruct w, hit; reflexivity).
  destruct (list_find (tagged c t) (row c i)) as [[j p]|] eqn:Ef.
  - destruct Hsr as [Hk (x & Ex & Etx & Est & _)]. eexists. split; [exact (access_hit j p x Ef Ex)|]. split; [|apply Hgeo].
    apply list_find_Some in Ef as (Ej & _). assert (j < List.length pe)%nat as Hj by (rewrite <- (Forall2_length _ _ _ He); eapply lookup_lt_Some, Hk).
    assert (pe !! j = Some p) as Ep by (rewrite Er, lookup_app_l in Ej by exact Hj; exact Ej).
    assert (to_front j (row c i) = p :: delete j pe ++ pf) as Etf.
    { unfold to_front. rewrite Ej. f_equal. rewrite Er, !delete_take_drop, take_app_le, (drop_app_le _ _ (S j)), app_assoc by lia. reflexivity. }
    assert (resident (ways c) (sets (geom c)) h t = true) as Hr by (apply bool_decide_eq_true_2; apply list_elem_of_lookup; eauto).
    rewrite Etf. edestruct (models_step c Hw h w t p (mkLine (tag x) (st x || w) o (state x)) (delete j (kept (ways c) (sets (geom c)) h i)) (delete j pe) pf Hm) as [Hw' Hm'].
    + fold i. apply list_elem_of_lookup. eauto.
    + fold i. rewrite <- Etf. apply to_front_perm.
    + fold i. exact (kept_hit _ _ w t h j Hk).
    + apply Forall2_delete, He.
    + exact Hf.
    + exact Etx.
    + cbn [st dirty]. rewrite Z.eqb_refl, Hr, Est. cbn [andb]. apply orb_comm.
    + cbn [order last_use]. rewrite Z.eqb_refl. reflexivity.
    + apply after_inv; assumption.
  - destruct (access_miss Ef) as (p & x & Ep & Ex & E). eexists. split; [exact E|]. split; [|apply Hgeo]. destruct (ways_pos c (cw_shape _ Hw)) as [Hwp _].
    set (n := (ways c - 1)%nat) in *. assert (to_front n (row c i) = p :: take n pe ++ take (n - List.length pe) pf) as Etf.
    { unfold to_front. rewrite Ep. f_equal. rewrite delete_last, Er, take_app by (unfold n; lia). reflexivity. }
    assert (resident (ways c) (sets (geom c)) h t = false) as Hr by (apply bool_decide_eq_false_2; exact Hsr).
    rewrite Etf. edestruct (models_step c Hw h w t p (mkLine t w o (state x)) (take n (kept (ways c) (sets (geom c)) h i)) (take n pe) (take (n - List.length pe) pf) Hm) as [Hw' Hm'].
    + fold i. apply list_elem_of_lookup. eauto.
    + fold i. rewrite <- Etf. apply to_front_perm.
    + fold i. apply (kept_miss _ _ w t h); [lia|exact Hsr].
    + apply Forall2_take, He.
    + apply Forall_take, Hf.
    + reflexivity.
    + cbn [st dirty]. rewrite Z.eqb_refl, Hr. cbn [andb]. rewrite orb_false_r. reflexivity.
    + cbn [order last_use]. rewrite Z.eqb_refl. reflexivity.
    + apply after_inv; assumption.
Qed.
End Access.
