(* ===== verification/LlcSpec.v ===== *)
(** * The last-level cache over a whole run: contents, counters and dump *)

From stdpp Require Import base list sorting.
From Stdlib Require Import ZArith Lia Bool.
From S2P Require Import Prelude Cutils LiveCache LiveCacheSpec Lru.
Local Open Scope Z_scope.
Local Open Scope bits_scope.
Local Open Scope list_scope.

(** ** The lines of the cache *)

Section Lines.
Context (h : history) (c : Cache) (Hw : cells_wf c) (Hm : forall i, 0 <= i < sets (geom c) -> set_models h c i).
Let Hs : shape_wf c := cw_shape _ Hw.
Let nw := ways c.
Let ns := sets (geom c).

(** Every pointer is in some set. *)
Lemma content_row p : p ∈ content c -> exists i, 0 <= i < ns /\ p ∈ row c i.
Proof.
  intros Hp. apply list_elem_of_lookup_1 in Hp as [m Em]. apply lookup_lt_Some in Em as Hlt. rewrite (length_content _ Hs) in Hlt.
  pose proof (cw_mem _ Hs) as Hl. destruct (gw_lines _ (cw_geom _ Hs)) as [En _]. destruct (ways_pos c Hs) as [Hwp Ew].
  pose proof (Nat.div_mod_eq m (ways c)) as Ed. pose proof (Nat.mod_upper_bound m (ways c) ltac:(lia)) as Hr. exists (Z.of_nat (m / ways c)).
  assert (0 <= Z.of_nat (m / ways c) < ns) as Hi by (unfold ns; split; [lia|]; nia). split; [exact Hi|]. apply list_elem_of_lookup. exists (m mod ways c)%nat.
  rewrite row_lookup by exact Hr. unfold start. rewrite Nat2Z.id. rewrite <- Em. f_equal. lia.
Qed.
Lemma row_content i p : p ∈ row c i -> p ∈ content c.
Proof. intros Hp. apply list_elem_of_lookup_1 in Hp as [k Ek]. pose proof (row_lt _ _ _ _ Ek) as Hk. rewrite row_lookup in Ek by exact Hk. apply list_elem_of_lookup. eauto. Qed.

(** The lines in use are those that the history keeps. *)
Lemma line_kept p : p ∈ content c -> tag_of c p <> 0 -> tag_of c p ∈ kept nw ns h (tag_of c p mod ns) /\ holds h c (tag_of c p) p.
Proof.
  intros Hp Ht. destruct (content_row p Hp) as (i & Hi & Hr). destruct (Hm i Hi) as (pe & pf & Er & He & Hf). rewrite Er in Hr. apply elem_of_app in Hr as [Hr|Hr].
  - apply list_elem_of_lookup_1 in Hr as [k Ek]. destruct (Forall2_lookup_r _ _ _ _ _ He Ek) as (t & Et & Hh). rewrite (tag_of_holds c h t p Hh).
    assert (t ∈ kept nw ns h i) as Hk by (apply list_elem_of_lookup; eauto). rewrite (kept_set _ _ _ _ _ Hk). auto.
  - rewrite Forall_forall in Hf. destruct Ht. exact (Hf p Hr).
Qed.
Lemma kept_line i t : 0 <= i < ns -> t ∈ kept nw ns h i -> exists p, p ∈ content c /\ holds h c t p.
Proof.
  intros Hi Ht. destruct (Hm i Hi) as (pe & pf & Er & He & _). apply list_elem_of_lookup_1 in Ht as [k Ek]. destruct (Forall2_lookup_l _ _ _ _ _ He Ek) as (p & Ep & Hh).
  exists p. split; [|exact Hh]. apply (row_content i). rewrite Er. apply elem_of_app. left. apply list_elem_of_lookup. eauto.
Qed.
Lemma line_unique p q : p ∈ content c -> q ∈ content c -> tag_of c p <> 0 -> tag_of c p = tag_of c q -> p = q.
Proof.
  intros Hp Hq Ht Heq.
  assert (forall x, x ∈ content c -> tag_of c x <> 0 -> exists pe pf k, row c (tag_of c x mod ns) = pe ++ pf /\ Forall2 (holds h c) (kept nw ns h (tag_of c x mod ns)) pe /\ pe !! k = Some x) as H.
  { intros x Hx Hx0. destruct (content_row x Hx) as (i & Hi & Hr). destruct (Hm i Hi) as (pe & pf & Er & He & Hf). rewrite Er in Hr. apply elem_of_app in Hr as [Hr|Hr].
    - apply list_elem_of_lookup_1 in Hr as [k Ek]. destruct (Forall2_lookup_r _ _ _ _ _ He Ek) as (t & Et & Hh). rewrite (tag_of_holds c h t x Hh).
      assert (t ∈ kept nw ns h i) as Hk by (apply list_elem_of_lookup; eauto). rewrite (kept_set _ _ _ _ _ Hk). eauto 6.
    - rewrite Forall_forall in Hf. destruct Hx0. exact (Hf x Hr). }
  destruct (H p Hp Ht) as (pe & pf & k & Er & He & Ek). destruct (H q Hq ltac:(congruence)) as (pe' & pf' & k' & Er' & He' & Ek'). rewrite <- Heq in Er', He'.
  assert (pe' = pe) as ->.
  { rewrite Er in Er'. apply app_inj_1 in Er' as [-> _]; [reflexivity|]. rewrite <- (Forall2_length _ _ _ He), <- (Forall2_length _ _ _ He'). reflexivity. }
  destruct (Forall2_lookup_r _ _ _ _ _ He Ek) as (t & Et & Hh). destruct (Forall2_lookup_r _ _ _ _ _ He Ek') as (t' & Et' & Hh').
  pose proof (tag_of_holds c h _ _ Hh). pose proof (tag_of_holds c h _ _ Hh'). assert (t = t') as <- by congruence.
  assert (k = k') as <- by (eapply NoDup_lookup; [apply NoDup_kept|exact Et|exact Et']). congruence.
Qed.
Lemma line_order p : p ∈ content c -> tag_of c p <> 0 -> order_of c p = last_use h (tag_of c p).
Proof. intros Hp Ht. destruct (line_kept p Hp Ht) as [_ (l & E & _ & _ & Eo)]. unfold order_of. rewrite E. exact Eo. Qed.
Lemma content_valid p : p ∈ content c -> exists l, mem c !! p = Some l /\ tag_of c p = tag l /\ order_of c p = order l.
Proof. intros Hp. destruct (content_row p Hp) as (i & _ & Hr). destruct (row_valid c Hw i p Hr) as [l El]. exists l. unfold tag_of, order_of. rewrite El. auto. Qed.

(** ** The steps of the dump *)

Lemma collect_run n : forall i, (i + n <= List.length (content c))%nat ->
  collect (Z.of_nat i) n c = Done (filter (fun p => order_of c p <> 0) (take n (drop i (content c))), c).
Proof.
  induction n as [|n IH]; intros i Hi; [reflexivity|]. cbn [collect]. destruct (lookup_lt_is_Some_2 (content c) i ltac:(lia)) as [p Ep].
  destruct (content_valid p) as (l & El & _ & Eo); [apply list_elem_of_lookup; eauto|]. unfold getPLine. rewrite !run_assoc, run_gets. unfold id.
  assert (Z.of_nat i < numLines (geom c)) as Hlt by (rewrite <- (cw_mem _ Hs), <- (length_content _ Hs); lia). rewrite (proj2 (Z.ltb_lt _ _) Hlt). cbn [assert_c].
  rewrite !run_assoc, run_liftr_done. unfold content_at. rewrite !run_assoc, run_gets. unfold id. destruct (Z.ltb_spec (Z.of_nat i) 0); [lia|]. rewrite Nat2Z.id, Ep, run_bind_ret.
  unfold deref. rewrite !run_assoc, run_gets. unfold id. rewrite El, run_bind_ret. replace (Z.of_nat i + 1) with (Z.of_nat (S i)) by lia. rewrite run_bind, IH, run_ret by lia.
  rewrite (drop_S _ _ _ Ep). cbn [take firstn]. rewrite filter_cons, Eo. destruct (Z.eqb_spec (order l) 0) as [E|E]; [rewrite decide_False by tauto|rewrite decide_True by exact E]; reflexivity.
Qed.

(** The entry of line [t]. *)
Definition entry (t : Z) : Z := calcAddr4Tag (geom c) t + Z.b2z (dirty nw ns h t).

Lemma addr_even t : Z.testbit (calcAddr4Tag (geom c) t) 0 = false.
Proof.
  unfold calcAddr4Tag. rewrite u64_spec. pose proof (gw_line _ (cw_geom _ Hs)). rewrite Z.shiftl_spec, Z.testbit_neg_r by lia. apply andb_false_r.
Qed.

Lemma entries_run arr : Forall (fun p => p ∈ content c) arr -> entries arr c = Done (map (fun p => entry (tag_of c p)) (filter (fun p => tag_of c p <> 0) arr), c).
Proof.
  induction arr as [|p arr IH]; intros Hf; [reflexivity|]. apply Forall_cons in Hf as [Hp Hf]. specialize (IH Hf). destruct (content_valid p Hp) as (l & El & Et & _).
  cbn [entries]. rewrite run_gets. unfold id, deref. rewrite !run_assoc, run_gets. unfold id. rewrite El, run_bind_ret, filter_cons, <- Et.
  destruct (Z.eqb_spec (tag_of c p) 0) as [E|E]; [rewrite decide_False by tauto; exact IH|]. rewrite decide_True by exact E.
  destruct (line_kept p Hp E) as [_ (l' & El' & _ & Est & _)]. assert (l' = l) as -> by congruence. set (a := calcAddr4Tag _ _).
  assert (Z.testbit a 0 = false) as Ha by apply addr_even.
  assert (a &' 1 = 0) as Ea by (change 1 with (Z.ones 1); rewrite Z.land_ones by lia; change (2 ^ 1) with 2; rewrite <- Z.bit0_mod, Ha; reflexivity).
  cbv zeta. rewrite Ea, Z.eqb_refl, orb_true_r. cbn [assert_c]. rewrite run_liftr_done, run_bind, IH, run_ret. cbn [map]. f_equal. f_equal. f_equal. unfold entry. fold a. fold nw in Est. fold ns in Est. rewrite <- Est.
  destruct (st l); cbn [Z.b2z]; [|lia]. assert (Z.land 1 a = 0) as E0 by (rewrite Z.land_comm; exact Ea). rewrite <- Z.lxor_lor, <- Z.add_nocarry_lxor by exact E0. lia.
Qed.
End Lines.

(** ** The dump *)

Lemma sorted_filter {A} (R : relation A) (P : A -> Prop) `{!∀ x, Decision (P x)} l : StronglySorted R l -> StronglySorted R (filter P l).
Proof.
  induction 1 as [|x l _ IH Hx]; [constructor|]. rewrite filter_cons. destruct (decide (P x)); [|exact IH]. constructor; [exact IH|].
  rewrite Forall_forall in Hx. apply Forall_forall. intros y Hy. apply list_elem_of_filter in Hy as [_ Hy]. apply Hx, Hy.
Qed.
Lemma sorted_rev {A} (R : relation A) l : StronglySorted R l -> StronglySorted (flip R) (rev l).
Proof.
  induction 1 as [|x l _ IH Hx]; [constructor|]. cbn [rev]. apply StronglySorted_app_2; [|exact IH|repeat constructor].
  intros a b Ha Hb. apply list_elem_of_singleton in Hb as ->. rewrite Forall_forall in Hx. apply Hx. apply list_elem_of_In, in_rev, list_elem_of_In, Ha.
Qed.
Lemma sorted_map {A B} (f : A -> B) (R : relation A) (S : relation B) l : StronglySorted R l -> (forall x y, x ∈ l -> y ∈ l -> R x y -> S (f x) (f y)) -> StronglySorted S (map f l).
Proof.
  induction 1 as [|x l _ IH Hx]; intros Hf; [constructor|]. cbn [map]. constructor; [apply IH; intros a b Ha Hb; apply Hf; right; assumption|].
  rewrite Forall_forall in Hx. apply Forall_forall. intros y Hy. apply list_elem_of_In, in_map_iff in Hy as (z & <- & Hz%list_elem_of_In). apply Hf; [left|right; exact Hz|apply Hx, Hz].
Qed.
Lemma NoDup_map_on {A B} (f : A -> B) l : NoDup l -> (forall x y, x ∈ l -> y ∈ l -> f x = f y -> x = y) -> NoDup (map f l).
Proof.
  induction 1 as [|x l Hx _ IH]; intros Hf; [constructor|]. cbn [map]. constructor; [|apply IH; intros a b Ha Hb; apply Hf; right; assumption].
  intros Hin. apply list_elem_of_In, in_map_iff in Hin as (y & Ey & Hy%list_elem_of_In). apply Hx. rewrite <- (Hf y x); [exact Hy|right; exact Hy|left|exact Ey].
Qed.

(** The lines that the dump lists, the least recently used first. *)
Definition dumped (nw : nat) (ns : Z) (h : history) : list Z := filter (fun t => resident nw ns h t = true /\ last_use h t <> 0) (rev (used h)).

Lemma last_use_inj h x y : x ∈ used h -> y ∈ used h -> last_use h x = last_use h y -> x = y.
Proof.
  intros Hx Hy E. pose proof (used_sorted h) as Hs. revert Hx Hy. induction Hs as [|a l _ IH Ha]; intros Hx Hy; [inversion Hx|]. rewrite Forall_forall in Ha.
  apply elem_of_cons in Hx as [->|Hx], Hy as [->|Hy]; [reflexivity|specialize (Ha y Hy); lia|specialize (Ha x Hx); lia|auto].
Qed.

Lemma resident_used nw ns h t : resident nw ns h t = true -> t ∈ used h.
Proof.
  intros H. apply bool_decide_eq_true_1 in H. pose proof (elem_of_sublist _ _ _ H (sublist_take _ _)) as Hr. apply list_elem_of_filter in Hr. apply Hr.
Qed.

Lemma elem_of_dumped nw ns h t : t ∈ dumped nw ns h <-> resident nw ns h t = true /\ last_use h t <> 0.
Proof.
  unfold dumped. rewrite list_elem_of_filter. split; [tauto|]. intros H. split; [exact H|]. apply list_elem_of_In, (in_rev (used h)), list_elem_of_In. rewrite ?rev_involutive. eapply resident_used, H.
Qed.

(** Sorted lines without the free ones are the lines of the dump. *)
Lemma dumped_unique h c arr : cells_wf c -> (forall i, 0 <= i < sets (geom c) -> set_models h c i) -> Forall (fun a => 0 < snd a) h ->
  arr ≡ₚ filter (fun p => order_of c p <> 0) (content c) -> StronglySorted (key_le (order_of c)) arr ->
  map (tag_of c) (filter (fun p => tag_of c p <> 0) arr) = dumped (ways c) (sets (geom c)) h.
Proof.
  intros Hw Hm Hh Hp Hso. set (L := filter (fun p => tag_of c p <> 0) arr). set (R := fun a b => last_use h a <= last_use h b).
  assert (forall p, p ∈ L <-> tag_of c p <> 0 /\ order_of c p <> 0 /\ p ∈ content c) as HL.
  { intros p. unfold L. rewrite list_elem_of_filter, Hp, list_elem_of_filter. tauto. }
  assert (forall t, t ∈ map (tag_of c) L <-> resident (ways c) (sets (geom c)) h t = true /\ last_use h t <> 0) as Hin.
  { intros t. rewrite list_elem_of_In, in_map_iff. split.
    - intros (p & <- & Hin%list_elem_of_In). apply HL in Hin as (H1 & H2 & H3). rewrite <- (line_order h c Hw Hm p H3 H1). split; [|exact H2].
      apply bool_decide_eq_true_2. apply (line_kept h c Hw Hm p H3 H1).
    - intros [Hr Hl]. pose proof (resident_used _ _ _ _ Hr) as Hu. apply bool_decide_eq_true_1 in Hr.
      assert (t <> 0) as Ht0. { unfold used in Hu. apply (proj1 (elem_of_distinct _ _)), list_elem_of_In, in_map_iff in Hu as (a & <- & Ha%list_elem_of_In). rewrite Forall_forall in Hh. specialize (Hh a Ha). lia. }
      destruct (kept_line h c Hm (t mod sets (geom c)) t (set_no_range c (cw_shape _ Hw) t) Hr) as (p & Hpc & Hho). pose proof (tag_of_holds c h t p Hho) as Et.
      exists p. split; [exact Et|]. apply list_elem_of_In, HL. rewrite (line_order h c Hw Hm p Hpc) by congruence. rewrite Et. auto. }
  apply (StronglySorted_unique_strong R).
  - intros x y Hx Hy H1 H2. apply Hin in Hx as [Hx _]. apply elem_of_dumped in Hy as [Hy _]. unfold R in *. apply (last_use_inj h); [eapply resident_used; eassumption..|lia].
  - apply (sorted_map _ (key_le (order_of c))); [apply sorted_filter, Hso|]. intros x y Hx Hy Hxy. apply HL in Hx as (X1 & X2 & X3), Hy as (Y1 & Y2 & Y3). unfold R, key_le in *.
    rewrite (line_order h c Hw Hm x X3 X1), (line_order h c Hw Hm y Y3 Y1) in Hxy. exact Hxy.
  - unfold dumped. apply sorted_filter. pose proof (sorted_rev _ _ (used_sorted h)) as Hs. unfold R. clear -Hs.
    induction Hs as [|x l _ IH Hx]; constructor; [exact IH|]. refine (Forall_impl _ _ _ Hx _). cbn. lia.
  - apply NoDup_Permutation.
    + apply NoDup_map_on; [apply NoDup_filter; rewrite Hp; apply NoDup_filter; rewrite (cw_content _ Hw); apply NoDup_seq|].
      intros x y Hx Hy. apply HL in Hx as (X1 & X2 & X3), Hy as (Y1 & Y2 & Y3). apply (line_unique h c Hw Hm); assumption.
    + apply NoDup_filter, NoDup_ListNoDup, NoDup_rev, NoDup_ListNoDup, NoDup_distinct.
    + intros t. rewrite Hin, elem_of_dumped. reflexivity.
Qed.

Lemma traverse_run h l : llc_inv h l -> let c := cacheBank l in
  traverse l = Done (map (entry h c) (dumped (ways c) (sets (geom c)) h), l).
Proof.
  intros Hl c. pose proof (li_cells _ _ Hl) as Hw. pose proof (li_sets _ _ Hl) as Hm. fold c in Hw, Hm. pose proof (cw_shape _ Hw) as Hs.
  unfold traverse. rewrite run_gets. unfold id. rewrite (li_lines _ _ Hl). fold c. rewrite <- (cw_mem _ Hs), <- (length_content _ Hs), Nat2Z.id.
  pose proof (collect_run c Hw (List.length (content c)) 0 ltac:(lia)) as Ec. rewrite drop_0, firstn_all in Ec. change (Z.of_nat 0) with 0 in Ec.
  set (arr0 := filter _ (content c)) in Ec. rewrite run_bind, (on_bank_run _ _ _ _ Ec). destruct (mergeSort_run (order_of c) (List.length arr0) arr0 ltac:(lia)) as (arr & Em & Hp & Hso).
  rewrite Em, run_liftr_done. assert (Forall (fun p => p ∈ content c) arr) as Hin.
  { apply Forall_forall. intros p Hin. rewrite Hp in Hin. apply list_elem_of_filter in Hin. apply Hin. }
  pose proof (entries_run h c Hw Hm arr Hin) as Ee. rewrite <- (dumped_unique h c arr Hw Hm (li_tags _ _ Hl) Hp Hso), map_map.
  change (entries arr c) with (entries arr (cacheBank (l <| cacheBank := c |>))) in Ee. rewrite (on_bank_run _ _ _ _ Ee). destruct l; reflexivity.
Qed.

(** ** The constructor *)

Lemma new_LiveCache_run k fresh : 11 <= k <= 30 -> exists l, new_LiveCache (2 ^ k) fresh = Done l /\ llc_inv [] l /\
  ways (cacheBank l) = 16%nat /\ sets (geom (cacheBank l)) = 2 ^ (k - 10) /\ log2AddrLs (geom (cacheBank l)) = 6.
Proof.
  intros Hk. assert (2 ^ k = 2 ^ (k - 6) * 64) as E64 by (change 64 with (2 ^ 6); rewrite <- Z.pow_add_r by lia; f_equal; lia).
  assert (2 ^ (k - 6) = 2 ^ (k - 10) * 16) as E16 by (change 16 with (2 ^ 4); rewrite <- Z.pow_add_r by lia; f_equal; lia).
  assert (2 ^ 1 <= 2 ^ (k - 10) <= 2 ^ 20) as Hr by (split; apply Z.pow_le_mono_r; lia). change (2 ^ 1) with 2 in Hr.
  set (n := 2 ^ (k - 10)) in *. set (g := mkCacheGeneric 64 16 4 6 15 n (n - 1) (Z.log2_up n) (n * 16) false).
  assert (new_CacheGeneric (u32 (2 ^ k)) (u32 16) (u32 64) false = Done g) as Eg.
  { unfold new_CacheGeneric, u32. rewrite !wrapu_small by lia. change (log2i 16) with (Done 4). change (log2i 64) with (Done 6). cbn [mbind res_bind]. unfold div_c.
    cbn [Z.eqb Pos.eqb mbind res_bind]. rewrite E64, Z.div_mul, E16, Z.div_mul, log2i_correct by lia. cbn [mbind res_bind]. rewrite !wrapu_small by lia. reflexivity. }
  set (c := new_cells g fresh (CacheAssoc LRU 0)). set (l := mkLiveCache c (numLines g) 0 0 0 0 0). exists l.
  split.
  { unfold new_LiveCache, create. cbn [Z.eqb Pos.eqb]. unfold new_CacheAssoc. rewrite Eg. cbn [mbind res_bind numLines g]. rewrite (proj2 (Z.ltb_lt 0 (n * 16))) by lia.
    cbn [assert_c mbind res_bind]. replace (s32 (n * 16)) with (n * 16) by (symmetry; apply wraps_small; lia).
    rewrite (proj2 (Z.ltb_lt 16 (n * 16))) by lia. reflexivity. }
  assert (geom_wf g) as Hg by (constructor; cbn; [lia|exists (k - 10); fold n; lia|lia|lia|reflexivity]).
  assert (List.length (mem c) = Z.to_nat (n * 16)) as Hlm by (cbn; rewrite length_map, length_seq; reflexivity).
  assert (cells_wf c) as Hw. { constructor; [constructor; [exact Hg|rewrite Hlm; cbn; lia|rewrite Hlm; cbn; apply length_seq]|]. rewrite Hlm. reflexivity. }
  split; [|split; [reflexivity|split; reflexivity]]. constructor; try reflexivity; [exact Hw|auto|auto| |constructor].
  intros i Hi. exists [], (row c i). split; [reflexivity|]. split; [unfold kept, recent, used; cbn; rewrite firstn_nil; constructor|].
  apply Forall_forall. intros p _. unfold free, tag_of. change (mem (cacheBank l)) with (map (fun i => new_Line (fresh i)) (seq 0 (Z.to_nat (n * 16)))).
  destruct (map _ _ !! p) as [x|] eqn:Ex; [|reflexivity]. apply list_elem_of_lookup_2, list_elem_of_In, in_map_iff in Ex as (? & <- & _). reflexivity.
Qed.

(** ** Whole runs *)

(** Reads and writes of addresses, in the order of time; and the history they make. *)
Fixpoint accesses (tr : list (bool * Z)) : LM unit :=
  match tr with [] => mret tt | (w, addr) :: tr => _ ← access w addr; accesses tr end.
Definition history_of (tr : list (bool * Z)) : history := rev (map (fun '(w, addr) => (w, addr / 64)) tr).

Lemma accesses_run tr : forall h l, llc_inv h l -> log2AddrLs (geom (cacheBank l)) = 6 -> Forall (fun a => 64 <= snd a) tr -> Z.of_nat (List.length h + List.length tr) < 2 ^ 63 ->
  exists l', accesses tr l = Done (tt, l') /\ llc_inv (history_of tr ++ h) l' /\ geom (cacheBank l') = geom (cacheBank l).
Proof.
  induction tr as [|[w addr] tr IH]; intros h l Hl Hg Hf Hlen; [exists l; auto|]. apply Forall_cons in Hf as [Ha Hf]. cbn [List.length] in Hlen. cbn [snd] in Ha.
  assert (calcTag (geom (cacheBank l)) addr = addr / 64) as Et by (unfold calcTag; rewrite Hg, Z.shiftr_div_pow2 by lia; reflexivity).
  assert (0 < addr / 64) as Hpos by (apply Z.div_str_pos; lia).
  destruct (access_run h l Hl w addr ltac:(rewrite Et; exact Hpos) ltac:(lia)) as (l1 & E1 & Hl1 & Hg1). rewrite Et in Hl1.
  destruct (IH _ l1 Hl1 ltac:(rewrite Hg1; exact Hg) Hf ltac:(cbn [List.length]; lia)) as (l2 & E2 & Hl2 & Hg2).
  exists l2. cbn [accesses]. rewrite run_bind, E1. split; [exact E2|]. unfold history_of in *. cbn [map rev]. rewrite <- app_assoc. split; [exact Hl2|congruence].
Qed.

Lemma run_inv k fresh tr : 11 <= k <= 30 -> Forall (fun a => 64 <= snd a) tr -> zlen (map snd tr) < 2 ^ 63 ->
  exists l, (l ← new_LiveCache (2 ^ k) fresh; accesses tr l) = Done (tt, l) /\ llc_inv (history_of tr) l /\
    ways (cacheBank l) = 16%nat /\ sets (geom (cacheBank l)) = 2 ^ (k - 10) /\ log2AddrLs (geom (cacheBank l)) = 6.
Proof.
  intros Hk Hf Hlen. destruct (new_LiveCache_run k fresh Hk) as (l0 & E0 & Hl0 & Hw0 & Hs0 & Hg0). unfold zlen in Hlen. rewrite length_map in Hlen.
  destruct (accesses_run tr [] l0 Hl0 Hg0 Hf Hlen) as (l & E & Hl & Hg). rewrite app_nil_r in Hl. exists l. rewrite E0. cbn [mbind res_bind].
  split; [exact E|]. split; [exact Hl|]. unfold ways in *. rewrite Hg. auto.
Qed.

(** The tags of the lines in use in set [i], the first one first. *)
Definition set_tags (c : Cache) (i : Z) : list Z := filter (fun t => t <> 0) (map (tag_of c) (row c i)).

Lemma models_tags h c i : Forall (fun a => 0 < snd a) h -> set_models h c i -> set_tags c i = kept (ways c) (sets (geom c)) h i.
Proof.
  intros Hh (pe & pf & Er & He & Hf). unfold set_tags. rewrite Er, map_app, filter_app.
  assert (Forall (fun t => t <> 0) (kept (ways c) (sets (geom c)) h i)) as Hnz.
  { apply Forall_forall. intros t Ht. pose proof (elem_of_sublist _ _ _ Ht (sublist_take _ _)) as Hr. apply list_elem_of_filter in Hr as [_ Hu].
    apply (proj1 (elem_of_distinct _ _)), list_elem_of_In, in_map_iff in Hu as (a & <- & Ha%list_elem_of_In). rewrite Forall_forall in Hh. specialize (Hh a Ha). lia. }
  assert (map (tag_of c) pe = kept (ways c) (sets (geom c)) h i) as ->.
  { clear -He. induction He as [|t p ts ps Hp _ IH]; [reflexivity|]. cbn [map]. rewrite IH, (tag_of_holds c h t p Hp). reflexivity. }
  assert (filter (fun t => t <> 0) (map (tag_of c) pf) = []) as ->.
  { clear -Hf. induction Hf as [|p ps Hp _ IH]; [reflexivity|]. cbn [map]. rewrite filter_cons, decide_False; [exact IH|]. intros H. exact (H Hp). }
  rewrite app_nil_r. clear -Hnz. induction Hnz as [|t ts Ht _ IH]; [reflexivity|]. rewrite filter_cons, decide_True, IH by exact Ht. reflexivity.
Qed.

(** C8 The cache is a least-recently-used cache: for a cache of any size [2 ^ k] and any reads and writes of addresses above the
    first line, the run returns, every set then holds the sixteen lines of the set that were used last (all of them if fewer were used),
    the most recent one first, and the counters are the numbers of reads and writes that found their line among the sixteen last used
    of its set, and that did not. *)
Theorem llc_lru k fresh tr : 11 <= k <= 30 -> Forall (fun a => 64 <= snd a) tr -> zlen (map snd tr) < 2 ^ 63 -> let h := history_of tr in let nsets := 2 ^ (k - 10) in
  exists l, (l ← new_LiveCache (2 ^ k) fresh; accesses tr l) = Done (tt, l) /\
    (forall i, 0 <= i < nsets -> set_tags (cacheBank l) i = take 16 (recent nsets h i)) /\
    nReadHit l = hits 16 nsets false h /\ nReadMiss l = misses 16 nsets false h /\ nWriteHit l = hits 16 nsets true h /\ nWriteMiss l = misses 16 nsets true h.
Proof.
  intros Hk Hf Hlen h nsets. destruct (run_inv k fresh tr Hk Hf Hlen) as (l & E & Hl & Ew & Es & _). fold h in Hl. exists l. split; [exact E|].
  destruct (li_reads _ _ Hl) as [-> ->], (li_writes _ _ Hl) as [-> ->]. rewrite Ew, Es. split; [|auto]. intros i Hi.
  rewrite (models_tags h) by (apply Hl || apply (li_sets _ _ Hl); rewrite Es; exact Hi). rewrite Ew, Es. reflexivity.
Qed.

Definition small_run : list (bool * Z) := [(false, 0x1000); (true, 0x2000); (false, 0x3010); (false, 0x2040); (true, 0x1010)].

Lemma small_run_ok : Forall (fun a => 64 <= snd a < 2 ^ 64) small_run /\ zlen (map snd small_run) < 2 ^ 63.
Proof. split; [repeat constructor; cbn; lia|reflexivity]. Qed.

Lemma llc_lru_witness : exists l, (l ← new_LiveCache 2048 (fun _ => (true, 7)); accesses small_run l) = Done (tt, l) /\
  set_tags (cacheBank l) 0 = [0x40; 0xc0; 0x80] /\ nReadHit l = 0 /\ nWriteHit l = 1.
Proof.
  destruct (llc_lru 11 (fun _ => (true, 7)) small_run ltac:(lia) ltac:(exact (Forall_impl _ _ _ (proj1 small_run_ok) (fun a H => proj1 H))) (proj2 small_run_ok)) as (l & E & Hs & H1 & _ & H3 & _).
  exists l. split; [exact E|]. split; [rewrite (Hs 0 ltac:(lia)); vm_compute; reflexivity|]. split; [rewrite H1|rewrite H3]; vm_compute; reflexivity.
Defined.

Lemma entry_addr h c t : cells_wf c -> log2AddrLs (geom c) = 6 -> 0 <= t < 2 ^ 58 -> entry h c t = 64 * t + Z.b2z (dirty (ways c) (sets (geom c)) h t).
Proof.
  intros Hw Hg Ht. unfold entry, calcAddr4Tag. rewrite Hg, Z.shiftl_mul_pow2 by lia. replace (u64 (t * 2 ^ 6)) with (64 * t); [reflexivity|].
  symmetry. unfold u64. rewrite wrapu_small by lia. lia.
Qed.

Lemma dumped_range nw ns tr t : Forall (fun a => 64 <= snd a < 2 ^ 64) tr -> t ∈ dumped nw ns (history_of tr) -> 0 <= t < 2 ^ 58.
Proof.
  intros Hf Ht. apply elem_of_dumped in Ht as [Ht _]. apply resident_used in Ht. apply (proj1 (elem_of_distinct _ _)), list_elem_of_In, in_map_iff in Ht as (a & <- & Ha).
  unfold history_of in Ha. apply in_rev, in_map_iff in Ha as ([w addr] & <- & Ha%list_elem_of_In). rewrite Forall_forall in Hf. specialize (Hf _ Ha). cbn in Hf |- *.
  Z.to_euclidean_division_equations; lia.
Qed.

(** C31 The dump of the cache: after any reads and writes it lists the addresses of the cached lines from the least to the most recently
    used one, each with bit 0 set if the line was written since it was brought in. A line whose last use was access number 0, the first of the run, is left out; what
    was in memory before the first use of a line has no influence. *)
Theorem llc_dump k fresh tr : 11 <= k <= 30 -> Forall (fun a => 64 <= snd a < 2 ^ 64) tr -> zlen (map snd tr) < 2 ^ 63 -> let h := history_of tr in let nsets := 2 ^ (k - 10) in
  (l ← new_LiveCache (2 ^ k) fresh; (_ ← accesses tr; traverse) l) ≫= (fun '(dump, _) => Done dump) =
    Done (map (fun t => 64 * t + Z.b2z (dirty 16 nsets h t)) (dumped 16 nsets h)).
Proof.
  intros Hk Hf Hlen h nsets. destruct (run_inv k fresh tr Hk (Forall_impl _ _ _ Hf (fun a H => proj1 H)) Hlen) as (l & E & Hl & Ew & Es & Eg). fold h in Hl.
  destruct (new_LiveCache (2 ^ k) fresh) as [l0|r]; [|discriminate]. cbn [mbind res_bind] in E |- *. rewrite run_bind, E, (traverse_run h l Hl). cbn [mbind res_bind].
  rewrite Ew, Es. fold nsets. f_equal. apply map_ext_in. intros t Ht%list_elem_of_In. rewrite entry_addr; [rewrite Ew, Es; reflexivity|apply Hl|exact Eg|].
  exact (dumped_range _ _ tr t Hf Ht).
Qed.

Lemma llc_dump_witness : (l ← new_LiveCache 2048 (fun _ => (true, 7)); (_ ← accesses small_run; traverse) l) ≫= (fun '(dump, _) => Done dump) = Done [0x2001; 0x3000; 0x2040; 0x1001].
Proof.
  change 2048 with (2 ^ 11). rewrite (llc_dump 11 (fun _ => (true, 7)) small_run ltac:(lia) (proj1 small_run_ok) (proj2 small_run_ok)). vm_compute. reflexivity.
Defined.

(** The line of the first access is not in the dump until it is used again. *)
Lemma first_line_missing k fresh w addr : 11 <= k <= 30 -> 64 <= addr ->
  (l ← new_LiveCache (2 ^ k) fresh; (_ ← accesses [(w, addr)]; traverse) l) ≫= (fun '(dump, _) => Done dump) = Done [].
Proof.
  intros Hk Ha. destruct (run_inv k fresh [(w, addr)] Hk ltac:(repeat constructor; exact Ha) ltac:(reflexivity)) as (l & E & Hl & Ew & Es & Eg).
  destruct (new_LiveCache (2 ^ k) fresh) as [l0|r]; [|discriminate]. cbn [mbind res_bind] in E |- *. rewrite run_bind, E, (traverse_run _ l Hl). cbn [mbind res_bind].
  change (history_of [(w, addr)]) with [(w, addr / 64)]. unfold dumped. change (rev (used [(w, addr / 64)])) with [addr / 64].
  rewrite filter_cons, decide_False; [reflexivity|]. cbn [last_use]. rewrite Z.eqb_refl. cbn. lia.
Qed.

(** A read of an address in the first line hits a free line of an empty cache. *)
Lemma zero_line_hits : match (l ← new_LiveCache 2048 (fun _ => (false, 0)); read 0 l) with Done (_, l) => nReadHit l | Stop _ => -1 end = 1.
Proof. vm_compute. reflexivity. Qed.

(** When the set has no free line left, it fails an assertion. *)
Lemma zero_line_stops : (l ← new_LiveCache 2048 (fun _ => (false, 0)); (_ ← accesses (map (fun n => (false, 0x80 * Z.of_nat n)) (seq 1 16)); read 0) l) = Stop AssertFailed.
Proof. vm_compute. reflexivity. Qed.
