(* ===== verification/FsDisk.v ===== *)
(** * Host directories behind the 9p device (fs_disk.cpp, fs.cpp)

    The file system that serves a directory of the host.  The calls of the host
    (POSIX) are the class [HostFS], over an arbitrary state [W] of the host; a
    call that can fail returns its error number on the left.  An [FSFile] is a
    heap object, named by its address. *)

From stdpp Require Import base list gmap strings.
From Stdlib Require Import ZArith Lia Bool.
From S2P Require Import Prelude Cutils Bytes P9.
Local Open Scope Z_scope.
Local Open Scope bits_scope.
Local Open Scope list_scope.

(** ** The host *)

(** [struct stat], [struct statfs], [struct dirent] and [struct flock], with the fields the code uses. *)
Record HStat := mkHStat {
  h_mode : Z; h_ino : Z; h_uid : Z; h_gid : Z; h_nlink : Z; h_rdev : Z; h_size : Z; h_blksize : Z; h_blocks : Z;
  h_atime_sec : Z; h_atime_nsec : Z; h_mtime_sec : Z; h_mtime_nsec : Z; h_ctime_sec : Z; h_ctime_nsec : Z }.
Record Dirent := mkDirent { d_name : list Z; d_kind : Z; d_ino : Z }.
Record Flock := mkFlock { l_type : Z; l_start : Z; l_len : Z }.

Class HostFS (W : Type) := {
  os_lstat : list Z -> W -> (Z + HStat) * W;
  os_stat : list Z -> W -> (Z + HStat) * W;
  os_statfs : list Z -> W -> (Z + FSStatFS) * W;
  os_mkdir : list Z -> Z -> W -> (Z + unit) * W;
  os_open : list Z -> Z -> Z -> W -> (Z + Z) * W;
  os_close : Z -> W -> (Z + unit) * W;
  os_opendir : list Z -> W -> (Z + Z) * W;
  os_closedir : Z -> W -> W;
  os_seekdir : Z -> Z -> W -> W;
  os_rewinddir : Z -> W -> W;
  os_readdir : Z -> W -> option Dirent * W;
  os_telldir : Z -> W -> Z * W;
  os_pread : Z -> Z -> Z -> W -> (Z + list Z) * W;
  os_pwrite : Z -> list Z -> Z -> W -> (Z + Z) * W;
  os_lchown : list Z -> Z -> Z -> W -> (Z + unit) * W;
  os_chmod : list Z -> Z -> W -> (Z + unit) * W;
  os_truncate : list Z -> Z -> W -> (Z + unit) * W;
  os_utimensat : list Z -> Z * Z -> Z * Z -> W -> (Z + unit) * W;
  os_link : list Z -> list Z -> W -> (Z + unit) * W;
  os_symlink : list Z -> list Z -> W -> (Z + unit) * W;
  os_mknod : list Z -> Z -> Z -> Z -> W -> (Z + unit) * W;
  os_readlink : list Z -> Z -> W -> (Z + list Z) * W;
  os_rename : list Z -> list Z -> W -> (Z + unit) * W;
  os_remove : list Z -> W -> (Z + unit) * W;
  os_setlk : Z -> Flock -> W -> (Z + unit) * W;
  os_getlk : Z -> Flock -> W -> (Z + Flock) * W }.

(** Linux's numbers. *)
Definition O_CREAT : Z := 0x40.
Definition EAGAIN : Z := 11.
Definition EACCES : Z := 13.
Definition S_ISDIR (m : Z) : bool := m &' 0xf000 =? 0x4000.
Definition S_ISLNK (m : Z) : bool := m &' 0xf000 =? 0xa000.
Definition UTIME_NOW : Z := 0x3fffffff.
Definition UTIME_OMIT : Z := 0x3ffffffe.
Definition DT_UNKNOWN : Z := 0.
Definition DT_DIR : Z := 4.
Definition DT_REG : Z := 8.
Definition DT_LNK : Z := 10.

Definition P9_QTDIR : Z := 0x80.
Definition P9_QTSYMLINK : Z := 0x02.
Definition P9_QTFILE : Z := 0x00.
Definition P9_ENOENT : Z := 2.
Definition P9_EINVAL : Z := 22.
Definition P9_O_NOACCESS : Z := 3.
Definition P9_O_DIRECTORY : Z := 0x10000.

(** ** Translations *)

Definition errno_table : list (Z * Z) := [(1, 1); (2, 2); (5, 5); (17, 17); (22, 22); (28, 28); (39, 39); (71, 71); (524, 95)].
Definition errno_to_p9 (err : Z) : Z :=
  if err =? 0 then 0 else match List.find (fun '(_, e) => err =? e) errno_table with Some (p, _) => p | None => P9_EINVAL end.

Definition open_flags : list (Z * Z) :=
  [(0x40, 0x40); (0x80, 0x80); (0x200, 0x200); (0x400, 0x400); (0x800, 0x800); (0x1000, 0x1000); (0x20000, 0x20000); (0x100000, 0x101000)].
Definition p9_flags_to_host (flags : Z) : Z :=
  fold_left (fun ret '(p, h) => if tst flags p then ret |' h else ret) open_flags (flags &' P9_O_NOACCESS).

Definition stat_to_qid (st : HStat) : FSQID :=
  mkFSQID (if S_ISDIR (h_mode st) then P9_QTDIR else if S_ISLNK (h_mode st) then P9_QTSYMLINK else P9_QTFILE) 0 (h_ino st).

Definition slash : Z := 47.
Definition compose_path (path name : list Z) : list Z := cstr path ++ slash :: cstr name.

(** ** Files *)

Record FSFile := mkFSFile { file_uid : Z; file_path : list Z; is_opened : bool; is_dir : bool; handle : Z }.

Record Disk (W : Type) := mkDisk { world : W; files : gmap Z FSFile; next_file : Z; root_path : list Z }.
Arguments mkDisk {W}.
Arguments world {W}.
Arguments files {W}.
Arguments next_file {W}.
Arguments root_path {W}.
#[export] Instance upd_world W : Upd (@world W) := fun v d => mkDisk v (files d) (next_file d) (root_path d).
#[export] Instance upd_files W : Upd (@files W) := fun v d => mkDisk (world d) v (next_file d) (root_path d).
#[export] Instance upd_next_file W : Upd (@next_file W) := fun v d => mkDisk (world d) (files d) v (root_path d).

Definition no_qid : FSQID := mkFSQID 0 0 0.

Section Ops.
Context {W : Type} {OS : HostFS W}.
Abbreviation M := (SM (Disk W)).

(** A call of the host. *)
Definition os {A} (f : W -> A * W) : M A := d ← gets id; let '(a, w) := f (world d) in _ ← modify (fun d => d <| world := w |>); mret a.
Definition os_do (f : W -> W) : M unit := os (fun w => (tt, f w)).

(** [*f], and [*f = v]. *)
Definition file (f : Z) : M FSFile := d ← gets id; match files d !! f with Some x => mret x | None => stop UndefinedBehaviour end.
Definition set_file (f : Z) (x : FSFile) : M unit := modify (fun d => d <| files := <[f := x]> (files d) |>).

Definition fid_create (path : list Z) (uid : Z) : M Z :=
  d ← gets id;
  let f := next_file d in
  _ ← modify (fun d => d <| files := <[f := mkFSFile uid path false false 0]> (files d) |> <| next_file := f + 1 |>);
  mret f.

Definition fs_close (f : Z) : M unit :=
  x ← file f;
  if negb (is_opened x) then mret tt
  else
    _ ← (if is_dir x then os_do (os_closedir (handle x)) else _ ← os (os_close (handle x)); mret tt);
    set_file f (mkFSFile (file_uid x) (file_path x) false (is_dir x) (handle x)).

Definition fs_delete (f : Z) : M unit :=
  x ← file f;
  _ ← (if is_opened x then fs_close f else mret tt);
  modify (fun d => d <| files := delete f (files d) |>).

(** The result is indeterminate if the call fails. *)
Definition fs_statfs : M FSStatFS :=
  d ← gets id;
  r ← os (os_statfs (root_path d));
  match r with
  | inl _ => stop UndefinedBehaviour
  | inr st => mret (mkFSStatFS (u32 (f_bsize st)) (f_blocks st) (f_bfree st) (f_bavail st) (f_files st) (f_ffree st))
  end.

(** [- errno_to_p9(errno)] *)
Definition error {A} (e : Z) (a : A) : M (Z * A) := mret (- errno_to_p9 e, a).

Definition fs_attach (uid : Z) (uname aname : list Z) : M (Z * (Z * FSQID)) :=
  d ← gets id;
  r ← os (os_lstat (root_path d));
  match r with
  | inl e => error e (0, no_qid)
  | inr st => f ← fid_create (root_path d) uid; mret (0, (f, stat_to_qid st))
  end.

(** The components that exist, from the first: their number, the path, and their identifiers. *)
Fixpoint walk_loop (path : list Z) (names : list (list Z)) (i : Z) : M (Z * list Z * list FSQID) :=
  match names with
  | [] => mret (i, path, [])
  | name :: names =>
      let path1 := compose_path path name in
      r ← os (os_lstat path1);
      match r with
      | inl _ => mret (i, path, [])
      | inr st => '(i, path, qids) ← walk_loop path1 names (i + 1); mret (i, path, stat_to_qid st :: qids)
      end
  end.
Definition fs_walk (f : Z) (names : list (list Z)) : M (Z * (Z * list FSQID)) :=
  x ← file f;
  '(i, path, qids) ← walk_loop (file_path x) names 0;
  f1 ← fid_create path (file_uid x);
  mret (i, (f1, qids)).

(** The new object's identifier after a call that made it. *)
Definition made (r : Z + unit) (path : list Z) : M (Z * FSQID) :=
  match r with
  | inl e => error e no_qid
  | inr _ => r ← os (os_lstat path); match r with inl e => error e no_qid | inr st => mret (0, stat_to_qid st) end
  end.

Definition fs_mkdir (f : Z) (name : list Z) (mode gid : Z) : M (Z * FSQID) :=
  x ← file f;
  let path := compose_path (file_path x) name in
  r ← os (os_mkdir path mode); made r path.

Definition fs_open (f flags : Z) : M (Z * FSQID) :=
  _ ← fs_close f;
  x ← file f;
  r ← os (os_stat (file_path x));
  match r with
  | inl e => error e no_qid
  | inr st =>
      let opened (dir : bool) (r : Z + Z) : M (Z * FSQID) :=
        match r with
        | inl e => error e (stat_to_qid st)
        | inr h => _ ← set_file f (mkFSFile (file_uid x) (file_path x) true dir h); mret (0, stat_to_qid st)
        end in
      if tst flags P9_O_DIRECTORY then r ← os (os_opendir (file_path x)); opened true r
      else r ← os (os_open (file_path x) (p9_flags_to_host flags &' Z.lnot O_CREAT) 0); opened false r
  end.

(** [close] can change [errno]. *)
Definition fs_create (f : Z) (name : list Z) (flags mode gid : Z) : M (Z * FSQID) :=
  _ ← fs_close f;
  x ← file f;
  let path := compose_path (file_path x) name in
  r ← os (os_open path (p9_flags_to_host flags |' O_CREAT) mode);
  match r with
  | inl e => error e no_qid
  | inr fd =>
      r ← os (os_lstat path);
      match r with
      | inl e => c ← os (os_close fd); error (match c with inl e' => e' | inr _ => e end) no_qid
      | inr st => _ ← set_file f (mkFSFile (file_uid x) path true false fd); mret (0, stat_to_qid st)
      end
  end.

(** The type of an entry; the host may not know it. *)
Definition entry_type (path : list Z) (de : Dirent) : M Z :=
  if d_kind de =? DT_UNKNOWN then
    r ← os (os_lstat (compose_path path (d_name de)));
    mret (match r with inl _ => DT_REG | inr st => h_mode st >>' 12 end)
  else mret (d_kind de).

Definition dir_entry (ino offset d_type : Z) (name : list Z) : list Z :=
  [if d_type =? DT_DIR then P9_QTDIR else if d_type =? DT_LNK then P9_QTSYMLINK else P9_QTFILE] ++ put_le32 (replicate 4 0) 0 ++
  put_le64 (replicate 8 0) ino ++ put_le64 (replicate 8 0) offset ++ [u8 d_type] ++ put_le16 (replicate 2 0) (zlen name) ++ name.

Fixpoint readdir_loop (fuel : nat) (dirp : Z) (path : list Z) (pos count : Z) : M (list Z) :=
  de ← os (os_readdir dirp);
  match de with
  | None => mret []
  | Some de =>
      let name := cstr (d_name de) in
      let len := 13 + 8 + 1 + 2 + zlen name in
      if count <? pos + len then mret []
      else
        offset ← os (os_telldir dirp);
        d_type ← entry_type path de;
        match fuel with
        | O => stop OutOfFuel
        | S fuel => rest ← readdir_loop fuel dirp path (pos + len) count; mret (dir_entry (d_ino de) offset d_type name ++ rest)
        end
  end.
Definition fs_readdir (f offset count : Z) : M (Z * list Z) :=
  x ← file f;
  if negb (is_opened x) || negb (is_dir x) then mret (- P9_EPROTO, [])
  else
    _ ← os_do (if offset =? 0 then os_rewinddir (handle x) else os_seekdir (handle x) (s64 offset));
    buf ← readdir_loop (Z.to_nat count) (handle x) (file_path x) 0 count;
    mret (zlen buf, buf).

Definition fs_read (f offset count : Z) : M (Z * list Z) :=
  x ← file f;
  if negb (is_opened x) || is_dir x then mret (- P9_EPROTO, [])
  else r ← os (os_pread (handle x) count (s64 offset)); match r with inl e => error e [] | inr data => mret (zlen data, data) end.

Definition fs_write (f offset : Z) (buf : list Z) (count : Z) : M Z :=
  x ← file f;
  if negb (is_opened x) || is_dir x then mret (- P9_EPROTO)
  else r ← os (os_pwrite (handle x) (take (Z.to_nat count) buf) (s64 offset)); match r with inl e => mret (- errno_to_p9 e) | inr n => mret n end.

Definition no_stat : FSStat := mkFSStat no_qid 0 0 0 0 0 0 0 0 0 0 0 0 0 0.
Definition fs_stat (f : Z) : M (Z * FSStat) :=
  x ← file f;
  r ← os (os_lstat (file_path x));
  match r with
  | inl _ => mret (- P9_ENOENT, no_stat)
  | inr st => mret (0, mkFSStat (stat_to_qid st) (h_mode st) (h_uid st) (h_gid st) (h_nlink st) (h_rdev st) (u64 (h_size st)) (u64 (h_blksize st)) (u64 (h_blocks st))
      (u64 (h_atime_sec st)) (u32 (h_atime_nsec st)) (u64 (h_mtime_sec st)) (u32 (h_mtime_nsec st)) (u64 (h_ctime_sec st)) (u32 (h_ctime_nsec st)))
  end.

(** [if (mask & bits) { if (call < 0) return -errno_to_p9(errno); ctime_updated = TRUE; }], then the rest. *)
Definition attr (cond : bool) (call : W -> (Z + unit) * W) (updated : bool) (k : bool -> M Z) : M Z :=
  if cond then r ← os call; match r with inl e => mret (- errno_to_p9 e) | inr _ => k true end else k updated.
Definition time_spec (mask set_now set_val sec nsec : Z) : Z * Z :=
  if tst mask set_now then if tst mask set_val then (s64 sec, s64 nsec) else (0, UTIME_NOW) else (0, UTIME_OMIT).
Definition fs_setattr (f mask mode uid gid size atime_sec atime_nsec mtime_sec mtime_nsec : Z) : M Z :=
  x ← file f;
  let path := file_path x in
  attr (tst mask 6) (os_lchown path (if tst mask 2 then uid else u32 (-1)) (if tst mask 4 then gid else u32 (-1))) false (fun updated =>
  attr (tst mask 1) (os_chmod path mode) updated (fun updated =>
  attr (tst mask 8) (os_truncate path (s64 size)) updated (fun updated =>
  attr (tst mask 0x30) (os_utimensat path (time_spec mask 0x10 0x80 atime_sec atime_nsec) (time_spec mask 0x20 0x100 mtime_sec mtime_nsec)) updated (fun updated =>
  attr (tst mask 0x40 && negb updated) (os_lchown path (u32 (-1)) (u32 (-1))) updated (fun _ => mret 0))))).

Definition simple (call : W -> (Z + unit) * W) : M Z := r ← os call; match r with inl e => mret (- errno_to_p9 e) | inr _ => mret 0 end.

Definition fs_link (df f : Z) (name : list Z) : M Z :=
  dx ← file df; x ← file f; simple (os_link (file_path x) (compose_path (file_path dx) name)).
Definition fs_symlink (f : Z) (name symgt : list Z) (gid : Z) : M (Z * FSQID) :=
  x ← file f;
  let path := compose_path (file_path x) name in
  r ← os (os_symlink symgt path); made r path.
Definition fs_mknod (f : Z) (name : list Z) (mode major minor gid : Z) : M (Z * FSQID) :=
  x ← file f;
  let path := compose_path (file_path x) name in
  r ← os (os_mknod path mode major minor); made r path.
Definition fs_readlink (f buf_size : Z) : M (Z * list Z) :=
  x ← file f;
  r ← os (os_readlink (file_path x) (buf_size - 1));
  match r with inl e => error e [] | inr target => mret (0, target ++ [0]) end.
Definition fs_renameat (f : Z) (name : list Z) (new_f : Z) (new_name : list Z) : M Z :=
  x ← file f; y ← file new_f; simple (os_rename (compose_path (file_path x) name) (compose_path (file_path y) new_name)).
Definition fs_unlinkat (f : Z) (name : list Z) : M Z := x ← file f; simple (os_remove (compose_path (file_path x) name)).

Definition P9_LOCK_SUCCESS : Z := 0.
Definition P9_LOCK_BLOCKED : Z := 1.
Definition flock_of (lock : FSLock) : Flock := mkFlock (lk_type lock) (s64 (lk_start lock)) (s64 (lk_length lock)).
Definition fs_lock (f : Z) (lock : FSLock) : M Z :=
  x ← file f;
  if negb (is_opened x) || is_dir x then mret (- P9_EPROTO)
  else
    r ← os (os_setlk (handle x) (flock_of lock));
    mret (match r with inr _ => P9_LOCK_SUCCESS | inl e => if (e =? EAGAIN) || (e =? EACCES) then P9_LOCK_BLOCKED else - errno_to_p9 e end).
Definition fs_getlock (f : Z) (lock : FSLock) : M (Z * FSLock) :=
  x ← file f;
  if negb (is_opened x) || is_dir x then mret (- P9_EPROTO, lock)
  else
    r ← os (os_getlk (handle x) (flock_of lock));
    match r with
    | inl e => error e lock
    | inr fl => mret (0, mkFSLock (u8 (l_type fl)) (lk_flags lock) (u64 (l_start fl)) (u64 (l_len fl)) (lk_proc_id lock) (lk_client_id lock))
    end.

(** The result of [lstat] is not tested; [None] is the null pointer. *)
Definition fs_disk_init (root : list Z) (w : W) : res (option (Disk W)) :=
  match os_lstat root w with
  | (inl _, _) => Stop UndefinedBehaviour
  | (inr st, w) => Done (if S_ISDIR (h_mode st) then Some (mkDisk w ∅ 1 (cstr root)) else None)
  end.
End Ops.

(** ** The table of functions

    [fs_disk_init] fills the table that the 9p device calls.  The interface has no way to stop: a call that stops leaves the device stopped. *)

Definition lift {W A} (m : SM (Disk W) A) (a : A) (d : res (Disk W)) : A * res (Disk W) :=
  match d with
  | Done d => match m d with Done (a, d) => (a, Done d) | Stop r => (a, Stop r) end
  | Stop r => (a, Stop r)
  end.

Definition disk_device {W} {OS : HostFS W} : FSDevice (res (Disk W)) Z := {|
  P9.fs_delete f d := snd (lift (fs_delete f) tt d);
  P9.fs_statfs := lift fs_statfs (mkFSStatFS 0 0 0 0 0 0);
  P9.fs_attach uid uname aname := lift (fs_attach uid uname aname) (0, (0, no_qid));
  P9.fs_walk f names := lift (fs_walk f names) (0, (0, []));
  P9.fs_mkdir f name mode gid := lift (fs_mkdir f name mode gid) (0, no_qid);
  P9.fs_open f flags := lift (fs_open f flags) (0, no_qid);
  P9.fs_create f name flags mode gid := lift (fs_create f name flags mode gid) (0, no_qid);
  P9.fs_stat f := lift (fs_stat f) (0, no_stat);
  P9.fs_setattr f mask mode uid gid size a1 a2 m1 m2 := lift (fs_setattr f mask mode uid gid size a1 a2 m1 m2) 0;
  P9.fs_readdir f offset count := lift (fs_readdir f offset count) (0, []);
  P9.fs_read f offset count := lift (fs_read f offset count) (0, []);
  P9.fs_write f offset buf count := lift (fs_write f offset buf count) 0;
  P9.fs_link df f name := lift (fs_link df f name) 0;
  P9.fs_symlink f name symgt gid := lift (fs_symlink f name symgt gid) (0, no_qid);
  P9.fs_mknod f name mode major minor gid := lift (fs_mknod f name mode major minor gid) (0, no_qid);
  P9.fs_readlink f n := lift (fs_readlink f n) (0, []);
  P9.fs_renameat f name new_f new_name := lift (fs_renameat f name new_f new_name) 0;
  P9.fs_unlinkat f name := lift (fs_unlinkat f name) 0;
  P9.fs_lock f lock := lift (fs_lock f lock) 0;
  P9.fs_getlock f lock := lift (fs_getlock f lock) (0, lock) |}.
#[export] Existing Instance disk_device.

(** ** Paths on any file system (fs.cpp) *)

Section Paths.
Context {D F : Type} {FS : FSDevice D F}.

Definition fs_dup (f : F) (d : D) : F * D := let '(_, (f, _), d) := P9.fs_walk f [] d in (f, d).

(** The components of a path, at least one. *)
Fixpoint components (path : list Z) : list Z * list (list Z) :=
  match path with
  | [] => ([], [])
  | c :: path => let '(n, ns) := components path in if c =? slash then ([], n :: ns) else (c :: n, ns)
  end.

(** The walk along a path whose next component is [name]; with [pname] the last component is not walked but returned. *)
Fixpoint walk_path_loop (pname is_first : bool) (f : F) (name : list Z) (rest : list (list Z)) (d : D) : option F * list Z * D :=
  let step (is_last : bool) (k : F -> D -> option F * list Z * D) : option F * list Z * D :=
    let '(ret, (f1, _), d) := P9.fs_walk f [name] d in
    let d := if is_first then d else P9.fs_delete f d in
    if ret <=? 0 then (None, [], P9.fs_delete f1 d) else if is_last then (Some f1, [], d) else k f1 d in
  match rest with
  | [] =>
      if pname then
        if is_first then let '(ret, (f1, _), d) := P9.fs_walk f [] d in (if ret <? 0 then None else Some f1, name, d)
        else (Some f, name, d)
      else step true (fun f1 d => (Some f1, [], d))
  | name' :: rest => step false (fun f1 d => walk_path_loop pname false f1 name' rest d)
  end.
Definition fs_walk_path1 (f : F) (path : list Z) (pname : bool) (d : D) : option F * list Z * D :=
  let path := match path with c :: p => if c =? slash then p else path | [] => path end in
  let '(name, rest) := components path in walk_path_loop pname true f name rest d.
Definition fs_walk_path (f : F) (path : list Z) (d : D) : option F * D := let '(r, _, d) := fs_walk_path1 f path false d in (r, d).
End Paths.
