(* ===== verification/FsDiskSpec.v ===== *)
(** * The host directory behind the 9p device: descriptors, paths, listings

    Every open file of the client holds one open handle of the host, no two the
    same, and no other handle is open; a path is the exported directory with
    names appended, [..] not excluded; following a path leaves no file behind. *)

From stdpp Require Import base list gmap strings.
From Stdlib Require Import ZArith Lia Bool.
From S2P Require Import Prelude Cutils Hostmem Bytes P9 FsDisk.
Local Open Scope Z_scope.
Local Open Scope bits_scope.
Local Open Scope list_scope.

(** ** What the host promises

    [handles] are the descriptors ([false]) and directory streams ([true]) that are open. *)

Definition keeps {W A : Type} (handles : W -> gset (bool * Z)) (f : W -> A * W) : Prop := forall w, handles (snd (f w)) = handles w.
Definition opens {W : Type} (handles : W -> gset (bool * Z)) (dir : bool) (f : W -> (Z + Z) * W) : Prop := forall w,
  match f w with
  | (inr h, w') => ((dir, h) ∉ handles w) /\ handles w' = {[(dir, h)]} ∪ handles w
  | (inl _, w') => handles w' = handles w
  end.

Class HostLaws (W : Type) `{HostFS W} := {
  handles : W -> gset (bool * Z);
  law_open p fl m : opens handles false (os_open p fl m);
  law_opendir p : opens handles true (os_opendir p);
  law_close h w : handles (snd (os_close h w)) = handles w ∖ {[(false, h)]};
  law_closedir h w : handles (os_closedir h w) = handles w ∖ {[(true, h)]};
  law_lstat p : keeps handles (os_lstat p);
  law_stat p : keeps handles (os_stat p);
  law_statfs p : keeps handles (os_statfs p);
  law_mkdir p m : keeps handles (os_mkdir p m);
  law_seekdir h o w : handles (os_seekdir h o w) = handles w;
  law_rewinddir h w : handles (os_rewinddir h w) = handles w;
  law_readdir h : keeps handles (os_readdir h);
  law_telldir h : keeps handles (os_telldir h);
  law_pread h n o : keeps handles (os_pread h n o);
  law_pwrite h l o : keeps handles (os_pwrite h l o);
  law_lchown p u g : keeps handles (os_lchown p u g);
  law_chmod p m : keeps handles (os_chmod p m);
  law_truncate p n : keeps handles (os_truncate p n);
  law_utimensat p a b : keeps handles (os_utimensat p a b);
  law_link p q : keeps handles (os_link p q);
  law_symlink p q : keeps handles (os_symlink p q);
  law_mknod p m a b : keeps handles (os_mknod p m a b);
  law_readlink p n : keeps handles (os_readlink p n);
  law_rename p q : keeps handles (os_rename p q);
  law_remove p : keeps handles (os_remove p);
  law_setlk h l : keeps handles (os_setlk h l);
  law_getlk h l : keeps handles (os_getlk h l) }.

Create HintDb laws.
#[export] Hint Resolve law_lstat law_stat law_statfs law_mkdir law_readdir law_telldir law_pread law_pwrite law_lchown law_chmod law_truncate
  law_utimensat law_link law_symlink law_mknod law_readlink law_rename law_remove law_setlk law_getlk : laws.

(** ** The invariant *)

(** A path composed from [root]: names appended one by one, whatever they are. *)
Inductive below (root : list Z) : list Z -> Prop :=
| below_root : below root root
| below_step p name : below root p -> below root (compose_path p name).

Lemma add_del (k : bool * Z) (X : gset (bool * Z)) : k ∉ X -> ({[k]} ∪ X) ∖ {[k]} = X.
Proof. intros Hk. apply set_eq. intros x. rewrite elem_of_difference, elem_of_union, elem_of_singleton. split; [tauto|]. intros Hx. split; [auto|]. intros ->. contradiction. Qed.

Definition key (x : FSFile) : bool * Z := (is_dir x, handle x).

Section Invariant.
Context {W : Type} {OS : HostFS W} {Laws : HostLaws W}.
Context (base : gset (bool * Z)).

Record disk_inv (d : Disk W) : Prop := {
  di_handles k : k ∈ handles (world d) <-> k ∈ base \/ exists f x, files d !! f = Some x /\ is_opened x = true /\ key x = k;
  di_base f x : files d !! f = Some x -> is_opened x = true -> key x ∉ base;
  di_unique f g x y : files d !! f = Some x -> files d !! g = Some y -> is_opened x = true -> is_opened y = true -> key x = key y -> f = g;
  di_fresh f x : files d !! f = Some x -> f < next_file d;
  di_paths f x : files d !! f = Some x -> below (root_path d) (file_path x) }.

(** The same files, whatever happened to the host. *)
Record same_files (d d' : Disk W) : Prop := { sf_files : files d' = files d; sf_next : next_file d' = next_file d; sf_root : root_path d' = root_path d }.
Lemma same_refl d : same_files d d.
Proof. split; reflexivity. Qed.
Lemma same_trans d1 d2 d3 : same_files d1 d2 -> same_files d2 d3 -> same_files d1 d3.
Proof. intros [] []. split; congruence. Qed.

Lemma inv_same d d' : disk_inv d -> same_files d d' -> handles (world d') = handles (world d) -> disk_inv d'.
Proof.
  intros [H1 H2 H3 H4 H5] [Ef En Er] Eh. constructor; rewrite ?Ef, ?En, ?Er, ?Eh; auto.
Qed.

(** [m] calls the host and leaves the files alone. *)
Definition calls {A} (m : SM (Disk W) A) : Prop := forall d, disk_inv d -> exists a d', m d = Done (a, d') /\ disk_inv d' /\ same_files d d'.

Lemma calls_ret {A} (a : A) : calls (mret a).
Proof. intros d Hd. exists a, d. split; [reflexivity|]. split; [exact Hd|apply same_refl]. Qed.
Lemma calls_bind {A B} (m : SM (Disk W) A) (k : A -> SM (Disk W) B) : calls m -> (forall a, calls (k a)) -> calls (m ≫= k).
Proof.
  intros Hm Hk d Hd. destruct (Hm d Hd) as (a & d1 & E1 & H1 & S1). destruct (Hk a d1 H1) as (b & d2 & E2 & H2 & S2). exists b, d2. rewrite run_bind, E1.
  split; [exact E2|]. split; [exact H2|]. eapply same_trans; eassumption.
Qed.
Lemma os_run {A} (f : W -> A * W) d : os f d = Done (fst (f (world d)), d <| world := snd (f (world d)) |>).
Proof. unfold os. rewrite run_gets. unfold id. destruct (f (world d)). reflexivity. Qed.
Lemma calls_os {A} (f : W -> A * W) : keeps handles f -> calls (os f).
Proof.
  intros Hf d Hd. eexists _, _. rewrite os_run. split; [reflexivity|]. assert (same_files d (d <| world := snd (f (world d)) |>)) as Hs by (split; reflexivity).
  split; [|exact Hs]. apply (inv_same d); [exact Hd|exact Hs|apply Hf].
Qed.
Lemma calls_error {A} e (a : A) : calls (error e a).
Proof. apply calls_ret. Qed.

Hint Resolve calls_ret calls_os calls_error : laws.
Ltac calls := repeat first
  [ solve [auto with laws]
  | apply calls_bind; [|intros ?]
  | match goal with |- calls (match ?x with _ => _ end) => destruct x end ].

Lemma calls_made r p : calls (made r p).
Proof. unfold made. calls. Qed.
Lemma calls_simple f : keeps handles f -> calls (simple f).
Proof. intros Hf. unfold simple. calls. Qed.
Lemma calls_attr c f u k : keeps handles f -> (forall b, calls (k b)) -> calls (attr c f u k).
Proof. intros Hf Hk. unfold attr. calls. Qed.
Lemma calls_entry p de : calls (entry_type p de).
Proof. unfold entry_type. calls. Qed.
Lemma calls_walk names : forall p i, calls (walk_loop p names i).
Proof. induction names as [|n ns IH]; intros p i; cbn [walk_loop]; calls. Qed.
Hint Resolve calls_made calls_simple calls_attr calls_entry calls_walk : laws.

Lemma calls_readdir dirp path count : forall fuel pos, 0 <= pos -> count - pos < Z.of_nat fuel * 24 + 24 -> calls (readdir_loop fuel dirp path pos count).
Proof.
  induction fuel as [|fuel IH]; intros pos Hp Hf; cbn [readdir_loop]; apply calls_bind; [auto with laws| |auto with laws|]; intros [de|]; [|auto with laws| |auto with laws]; cbv zeta;
    pose proof (zlen_nonneg (cstr (d_name de))); destruct (Z.ltb_spec count (pos + (13 + 8 + 1 + 2 + zlen (cstr (d_name de))))) as [Hlt|Hge]; auto with laws; [lia|].
  calls. apply IH; lia.
Qed.

(** What an operation does with the file it is given. *)
Definition live (f : Z) (d : Disk W) : Prop := is_Some (files d !! f).
Lemma file_run f (d : Disk W) x : files d !! f = Some x -> file f d = Done (x, d).
Proof. intros E. unfold file. rewrite run_gets. unfold id. rewrite E. reflexivity. Qed.

Lemma calls_file {A} f (k : FSFile -> SM (Disk W) A) d : disk_inv d -> live f d -> (forall x, calls (k x)) -> exists a d', (x ← file f; k x) d = Done (a, d') /\ disk_inv d' /\ same_files d d'.
Proof. intros Hd [x Ex] Hk. rewrite run_bind, (file_run f d x Ex). apply Hk, Hd. Qed.

(** ** Opening, closing, creating and deleting *)

Definition closed (x : FSFile) : FSFile := mkFSFile (file_uid x) (file_path x) false (is_dir x) (handle x).

(** An opened file is closed. *)
Lemma inv_closed d f x w : disk_inv d -> files d !! f = Some x -> is_opened x = true -> handles w = handles (world d) ∖ {[key x]} ->
  disk_inv (d <| world := w |> <| files := <[f := closed x]> (files d) |>).
Proof.
  intros [H1 H2 H3 H4 H5] Ef Eo Eh. constructor; cbn.
  - intros k. rewrite Eh, elem_of_difference, elem_of_singleton, H1. split.
    + intros [[Hb|(g & y & Eg & Ey & Ek)] Hne]; [auto|]. right. exists g, y. split; [|auto]. rewrite lookup_insert_ne by (intros ->; congruence). exact Eg.
    + intros [Hb|(g & y & Eg & Ey & Ek)]; [split; [auto|]; intros ->; exact (H2 _ _ Ef Eo Hb)|]. apply lookup_insert_Some in Eg as [[-> <-]|[Hne Eg]]; [discriminate|].
      split; [eauto 6|]. intros E. apply Hne. apply (H3 f g x y); auto. congruence.
  - intros g y Eg Ey. apply lookup_insert_Some in Eg as [[_ <-]|[_ Eg]]; [discriminate|eauto].
  - intros g g' y y' Eg Eg' Ey Ey' Ek. apply lookup_insert_Some in Eg as [[_ <-]|[_ Eg]]; [discriminate|]. apply lookup_insert_Some in Eg' as [[_ <-]|[_ Eg']]; [discriminate|eauto].
  - intros g y Eg. apply lookup_insert_Some in Eg as [[<- <-]|[_ Eg]]; eauto.
  - intros g y Eg. apply lookup_insert_Some in Eg as [[_ <-]|[_ Eg]]; [exact (H5 _ _ Ef)|eauto].
Qed.

(** A closed file gets a fresh handle. *)
Lemma inv_opened d f x x' w : disk_inv d -> files d !! f = Some x -> is_opened x = false -> is_opened x' = true -> below (root_path d) (file_path x') ->
  key x' ∉ handles (world d) -> handles w = {[key x']} ∪ handles (world d) -> disk_inv (d <| world := w |> <| files := <[f := x']> (files d) |>).
Proof.
  intros [H1 H2 H3 H4 H5] Ef Eo Eo' Hb Hn Eh. assert ((key x' ∉ base) /\ forall g y, files d !! g = Some y -> is_opened y = true -> key y <> key x') as [Hn1 Hn2].
  { split; [intros Hk; apply Hn, H1; auto|]. intros g y Eg Ey Ek. apply Hn, H1. right. eauto. }
  constructor; cbn.
  - intros k. rewrite Eh, elem_of_union, elem_of_singleton, H1. split.
    + intros [->|[Hk|(g & y & Eg & Ey & Ek)]]; [right; exists f, x'; rewrite lookup_insert_eq; auto|auto|]. right. exists g, y. rewrite lookup_insert_ne by (intros ->; congruence). auto.
    + intros [Hk|(g & y & Eg & Ey & Ek)]; [auto|]. apply lookup_insert_Some in Eg as [[_ <-]|[_ Eg]]; [auto|eauto 8].
  - intros g y Eg Ey. apply lookup_insert_Some in Eg as [[_ <-]|[_ Eg]]; eauto.
  - intros g g' y y' Eg Eg' Ey Ey' Ek. apply lookup_insert_Some in Eg as [[<- <-]|[_ Eg]]; apply lookup_insert_Some in Eg' as [[<- <-]|[_ Eg']]; [reflexivity| | |eauto].
    + symmetry in Ek. destruct (Hn2 g' y' Eg' Ey' Ek).
    + destruct (Hn2 g y Eg Ey Ek).
  - intros g y Eg. apply lookup_insert_Some in Eg as [[<- <-]|[_ Eg]]; eauto.
  - intros g y Eg. apply lookup_insert_Some in Eg as [[_ <-]|[_ Eg]]; [exact Hb|eauto].
Qed.

(** A new file is not opened; a file that is not opened may go. *)
Lemma inv_created d path uid : disk_inv d -> below (root_path d) path ->
  disk_inv (d <| files := <[next_file d := mkFSFile uid path false false 0]> (files d) |> <| next_file := next_file d + 1 |>).
Proof.
  intros [H1 H2 H3 H4 H5] Hb. constructor; cbn.
  - intros k. rewrite H1. split; (intros [Hk|(g & y & Eg & Ey & Ek)]; [auto|]); right; exists g, y.
    + rewrite lookup_insert_ne by (specialize (H4 _ _ Eg); lia). auto.
    + apply lookup_insert_Some in Eg as [[_ <-]|[_ Eg]]; [discriminate|auto].
  - intros g y Eg Ey. apply lookup_insert_Some in Eg as [[_ <-]|[_ Eg]]; [discriminate|eauto].
  - intros g g' y y' Eg Eg' Ey Ey' Ek. apply lookup_insert_Some in Eg as [[_ <-]|[_ Eg]]; [discriminate|]. apply lookup_insert_Some in Eg' as [[_ <-]|[_ Eg']]; [discriminate|eauto].
  - intros g y Eg. apply lookup_insert_Some in Eg as [[<- _]|[_ Eg]]; [lia|]. specialize (H4 _ _ Eg). lia.
  - intros g y Eg. apply lookup_insert_Some in Eg as [[_ <-]|[_ Eg]]; [exact Hb|eauto].
Qed.
Lemma inv_deleted d f x : disk_inv d -> files d !! f = Some x -> is_opened x = false -> disk_inv (d <| files := delete f (files d) |>).
Proof.
  intros [H1 H2 H3 H4 H5] Ef Eo. constructor; cbn.
  - intros k. rewrite H1. split; (intros [Hk|(g & y & Eg & Ey & Ek)]; [auto|]); right; exists g, y; [rewrite lookup_delete_ne by (intros ->; congruence); auto|].
    apply lookup_delete_Some in Eg as [_ Eg]. auto.
  - intros g y Eg. apply lookup_delete_Some in Eg as [_ Eg]. eauto.
  - intros g g' y y' Eg Eg'. apply lookup_delete_Some in Eg as [_ Eg], Eg' as [_ Eg']. eauto.
  - intros g y Eg. apply lookup_delete_Some in Eg as [_ Eg]. eauto.
  - intros g y Eg. apply lookup_delete_Some in Eg as [_ Eg]. eauto.
Qed.

Lemma close_run f d x : disk_inv d -> files d !! f = Some x ->
  exists d', fs_close f d = Done (tt, d') /\ disk_inv d' /\ files d' = <[f := closed x]> (files d) /\ next_file d' = next_file d /\ root_path d' = root_path d.
Proof.
  intros Hd Ef. unfold fs_close. rewrite run_bind, (file_run f d x Ef). fold (closed x). destruct (is_opened x) eqn:Eo; cbn [negb].
  - destruct (is_dir x) eqn:Edir; unfold os_do; rewrite ?run_assoc, run_bind, os_run; cbn [fst snd]; rewrite ?run_bind_ret; eexists; (split; [reflexivity|]);
      (split; [apply (inv_closed d f x); auto; unfold key; rewrite Edir; first [apply law_close|apply law_closedir]|]); split; (reflexivity || split; reflexivity).
  - exists d. split; [reflexivity|]. split; [exact Hd|]. split; [|auto]. symmetry. apply insert_id. rewrite Ef. f_equal. destruct x; cbn in Eo |- *. rewrite Eo. reflexivity.
Qed.

Lemma delete_run f d x : disk_inv d -> files d !! f = Some x ->
  exists d', fs_delete f d = Done (tt, d') /\ disk_inv d' /\ files d' = delete f (files d) /\ next_file d' = next_file d /\ root_path d' = root_path d.
Proof.
  intros Hd Ef. unfold fs_delete. rewrite run_bind, (file_run f d x Ef). destruct (is_opened x) eqn:Eo.
  - destruct (close_run f d x Hd Ef) as (d1 & E1 & H1 & F1 & N1 & R1). rewrite run_bind, E1. eexists. split; [reflexivity|].
    assert (files d1 !! f = Some (closed x)) as Ef1 by (rewrite F1; apply lookup_insert_eq). split; [exact (inv_deleted d1 f (closed x) H1 Ef1 eq_refl)|]. cbn.
    split; [rewrite F1; apply delete_insert_eq|auto].
  - rewrite run_bind_ret. eexists. split; [reflexivity|]. split; [exact (inv_deleted d f x Hd Ef Eo)|]. auto.
Qed.

Lemma create_file_run path uid d : disk_inv d -> below (root_path d) path -> exists d', fid_create path uid d = Done (next_file d, d') /\ disk_inv d' /\
  files d' = <[next_file d := mkFSFile uid path false false 0]> (files d) /\ next_file d' = next_file d + 1 /\ root_path d' = root_path d.
Proof. intros Hd Hb. unfold fid_create. eexists. rewrite run_gets. unfold id. cbv zeta. rewrite run_modify. split; [reflexivity|]. split; [exact (inv_created d path uid Hd Hb)|]. auto. Qed.

(** The files stay, though one may be opened, closed or renamed. *)
Definition same_live (d d' : Disk W) : Prop := root_path d' = root_path d /\ next_file d' = next_file d /\ forall g, live g d' <-> live g d.
Lemma live_insert f x y (d d' : Disk W) : files d !! f = Some x -> files d' = <[f := y]> (files d) -> forall g, live g d' <-> live g d.
Proof.
  intros Ef E g. unfold live. rewrite E. destruct (decide (g = f)) as [->|Hne]; [rewrite lookup_insert_eq, Ef; split; eauto|rewrite lookup_insert_ne by congruence; reflexivity].
Qed.

Lemma open_run f flags d : disk_inv d -> live f d -> exists r d', fs_open f flags d = Done (r, d') /\ disk_inv d' /\ same_live d d'.
Proof.
  intros Hd [x Ef]. destruct (close_run f d x Hd Ef) as (d1 & E1 & H1 & F1 & N1 & R1). assert (files d1 !! f = Some (closed x)) as Ef1 by (rewrite F1; apply lookup_insert_eq).
  unfold fs_open. rewrite run_bind, E1, run_bind, (file_run f d1 _ Ef1), run_bind, os_run. cbn [file_path file_uid closed].
  set (d2 := d1 <| world := _ |>). assert (disk_inv d2) as H2 by (apply (inv_same d1); [exact H1|split; reflexivity|apply law_stat]).
  assert (same_live d d2) as L2 by (split; [exact R1|split; [exact N1|exact (live_insert f x (closed x) d d2 Ef F1)]]).
  destruct (fst (os_stat (file_path x) (world d1))) as [e|st]; [eexists _, d2; split; [reflexivity|auto]|]. cbv zeta.
  assert (forall dir call, opens handles dir call -> exists r d', (r ← os call; match r with inl e => error e (stat_to_qid st)
    | inr h => _ ← set_file f (mkFSFile (file_uid x) (file_path x) true dir h); mret (0, stat_to_qid st) end) d2 = Done (r, d') /\ disk_inv d' /\ same_live d d') as Hop.
  { intros dir call Hc. rewrite run_bind, os_run. specialize (Hc (world d2)). destruct (call (world d2)) as [[e|h] w] eqn:Ec; cbn [fst snd].
    - eexists _, _. split; [reflexivity|]. split; [|exact L2]. apply (inv_same d2); [exact H2|split; reflexivity|exact Hc].
    - destruct Hc as [Hn Eh]. eexists _, _. unfold set_file. rewrite run_modify, run_ret. split; [reflexivity|].
      split; [apply (inv_opened d2 f (closed x)); auto; apply (di_paths _ H2 f (closed x) Ef1)|].
      split; [exact R1|]. split; [exact N1|]. intros g. refine (iff_trans _ (proj2 (proj2 L2) g)). apply (live_insert f (closed x) (mkFSFile (file_uid x) (file_path x) true dir h) d2); [exact Ef1|reflexivity]. }
  destruct (tst flags P9_O_DIRECTORY); apply Hop; [apply law_opendir|apply law_open].
Qed.

Lemma create_run f name flags mode gid d : disk_inv d -> live f d -> exists r d', fs_create f name flags mode gid d = Done (r, d') /\ disk_inv d' /\ same_live d d'.
Proof.
  intros Hd [x Ef]. destruct (close_run f d x Hd Ef) as (d1 & E1 & H1 & F1 & N1 & R1). assert (files d1 !! f = Some (closed x)) as Ef1 by (rewrite F1; apply lookup_insert_eq).
  unfold fs_create. rewrite run_bind, E1, run_bind, (file_run f d1 _ Ef1). cbn [file_path file_uid closed]. cbv zeta. set (path := compose_path _ _). rewrite run_bind, os_run.
  assert (forall w, same_live d (d1 <| world := w |>)) as L1 by (intros w; split; [exact R1|split; [exact N1|apply (live_insert f x (closed x)); [exact Ef|exact F1]]]).
  pose proof (law_open path (p9_flags_to_host flags |' O_CREAT) mode (world d1)) as Ho. destruct (os_open path _ mode (world d1)) as [[e|fd] w] eqn:Eo; cbn [fst snd].
  - eexists _, _. split; [reflexivity|]. split; [apply (inv_same d1); [exact H1|split; reflexivity|exact Ho]|apply L1].
  - destruct Ho as [Hn Eh]. rewrite run_bind, os_run. cbn [world upd upd_world]. pose proof (law_lstat path w) as El. destruct (os_lstat path w) as [[e|st] w2] eqn:E2; cbn [fst snd] in El |- *.
    + rewrite run_bind, os_run. cbn [world upd upd_world fst snd]. eexists _, _. split; [reflexivity|]. split; [|apply L1].
      apply (inv_same d1); [exact H1|split; reflexivity|]. cbn. rewrite law_close, El, Eh. apply add_del, Hn.
    + unfold set_file. rewrite run_modify, run_ret. eexists _, _. split; [reflexivity|]. split; [|split; [exact R1|split; [exact N1|]]].
      * apply (inv_opened d1 f (closed x)); auto; [|rewrite El; exact Eh]. cbn. apply below_step. exact (di_paths _ H1 f (closed x) Ef1).
      * intros g. refine (iff_trans _ (proj2 (proj2 (L1 w2)) g)). apply (live_insert f (closed x) (mkFSFile (file_uid x) path true false fd)); [exact Ef1|reflexivity].
Qed.

(** The path a walk reaches is below the path it starts from. *)
Lemma walk_below root names : forall p i d r d', below root p -> walk_loop p names i d = Done (r, d') -> below root (snd (fst r)).
Proof.
  induction names as [|n ns IH]; intros p i d r d' Hp E; cbn [walk_loop] in E; [injection E as <- _; exact Hp|]. rewrite run_bind, os_run in E.
  destruct (fst _) as [e|st]; [injection E as <- _; exact Hp|]. rewrite run_bind in E. destruct (walk_loop _ ns _ _) as [[[[i' p'] q'] d1]|] eqn:E1; [|discriminate].
  injection E as <- _. exact (IH _ _ _ _ _ (below_step _ _ n Hp) E1).
Qed.
Lemma walk_run f names d : disk_inv d -> live f d -> exists n f1 qids d', fs_walk f names d = Done ((n, (f1, qids)), d') /\ disk_inv d' /\ root_path d' = root_path d /\
  f1 = next_file d /\ (forall g, live g d' <-> live g d \/ g = f1).
Proof.
  intros Hd [x Ef]. unfold fs_walk. rewrite run_bind, (file_run f d x Ef). destruct (calls_walk names (file_path x) 0 d Hd) as ([[i p] qids] & d1 & E1 & H1 & [F1 N1 R1]).
  rewrite run_bind, E1. assert (below (root_path d1) p) as Hb by (rewrite R1; exact (walk_below _ names _ _ _ _ _ (di_paths _ Hd f x Ef) E1)).
  destruct (create_file_run p (file_uid x) d1 H1 Hb) as (d2 & E2 & H2 & F2 & N2 & R2). rewrite run_bind, E2, run_ret. eexists _, _, _, d2. split; [reflexivity|]. split; [exact H2|].
  split; [congruence|]. split; [exact N1|]. intros g. unfold live. rewrite F2, F1. destruct (decide (g = next_file d1)) as [->|Hne].
  - rewrite lookup_insert_eq. split; eauto.
  - rewrite lookup_insert_ne by congruence. split; [auto|intros [?|?]; [assumption|contradiction]].
Qed.

End Invariant.

(** ** Every sequence of operations *)

Inductive DiskOp :=
| Delete (f : Z) | Attach (uid : Z) (uname aname : list Z) | Walk (f : Z) (names : list (list Z)) | Mkdir (f : Z) (name : list Z) (mode gid : Z)
| Open (f flags : Z) | Create (f : Z) (name : list Z) (flags mode gid : Z) | Stat (f : Z)
| Setattr (f mask mode uid gid size atime_sec atime_nsec mtime_sec mtime_nsec : Z) | Close (f : Z)
| Readdir (f offset count : Z) | Read (f offset count : Z) | Write (f offset : Z) (buf : list Z) (count : Z) | Link (df f : Z) (name : list Z)
| Symlink (f : Z) (name symgt : list Z) (gid : Z) | Mknod (f : Z) (name : list Z) (mode major minor gid : Z) | Readlink (f buf_size : Z)
| Renameat (f : Z) (name : list Z) (new_f : Z) (new_name : list Z) | Unlinkat (f : Z) (name : list Z) | Lock (f : Z) (lock : FSLock) | Getlock (f : Z) (lock : FSLock).

Section Reach.
Context {W : Type} {OS : HostFS W} {Laws : HostLaws W}.

Definition ignore {A} (m : SM (Disk W) A) : SM (Disk W) unit := _ ← m; mret tt.
Definition run_op (op : DiskOp) : SM (Disk W) unit :=
  match op with
  | Delete f => fs_delete f | Attach uid u a => ignore (fs_attach uid u a) | Walk f names => ignore (fs_walk f names) | Mkdir f n m g => ignore (fs_mkdir f n m g)
  | Open f fl => ignore (fs_open f fl) | Create f n fl m g => ignore (fs_create f n fl m g) | Stat f => ignore (fs_stat f)
  | Setattr f m mo u g sz a1 a2 m1 m2 => ignore (fs_setattr f m mo u g sz a1 a2 m1 m2) | Close f => fs_close f
  | Readdir f o c => ignore (fs_readdir f o c) | Read f o c => ignore (fs_read f o c) | Write f o b c => ignore (fs_write f o b c) | Link df f n => ignore (fs_link df f n)
  | Symlink f n t g => ignore (fs_symlink f n t g) | Mknod f n m a b g => ignore (fs_mknod f n m a b g) | Readlink f n => ignore (fs_readlink f n)
  | Renameat f n f' n' => ignore (fs_renameat f n f' n') | Unlinkat f n => ignore (fs_unlinkat f n) | Lock f l => ignore (fs_lock f l) | Getlock f l => ignore (fs_getlock f l)
  end.

(** The files an operation is given. *)
Definition op_files (op : DiskOp) : list Z :=
  match op with
  | Delete f | Walk f _ | Mkdir f _ _ _ | Open f _ | Create f _ _ _ _ | Stat f | Setattr f _ _ _ _ _ _ _ _ _ | Close f | Readdir f _ _ | Read f _ _ | Write f _ _ _
  | Symlink f _ _ _ | Mknod f _ _ _ _ _ | Readlink f _ | Unlinkat f _ | Lock f _ | Getlock f _ => [f]
  | Attach _ _ _ => [] | Link df f _ => [df; f] | Renameat f _ f' _ => [f; f']
  end.

(** The states after the operations so far, each given files that exist. *)
Inductive reached (root : list Z) (w0 : W) : Disk W -> Prop :=
| reached_init d : fs_disk_init root w0 = Done (Some d) -> reached root w0 d
| reached_op d op d' : reached root w0 d -> Forall (fun f => live f d) (op_files op) -> run_op op d = Done (tt, d') -> reached root w0 d'.

Section Ops.
Context (base : gset (bool * Z)).
Abbreviation inv := (disk_inv base).

Lemma ignore_run {A} (m : SM (Disk W) A) d : (exists a d', m d = Done (a, d') /\ inv d') -> exists d', ignore m d = Done (tt, d') /\ inv d'.
Proof. intros (a & d' & E & Hd). exists d'. unfold ignore. rewrite run_bind, E. auto. Qed.
Lemma ignore_calls {A} f (k : FSFile -> SM (Disk W) A) d : inv d -> live f d -> (forall x, calls base (k x)) -> exists d', ignore (x ← file f; k x) d = Done (tt, d') /\ inv d'.
Proof. intros Hd Hf Hk. apply ignore_run. destruct (calls_file base f k d Hd Hf Hk) as (a & d' & E & H & _). eauto. Qed.

Hint Resolve calls_ret calls_os calls_error calls_made calls_simple calls_attr calls_entry calls_walk : laws.
Ltac calls := repeat first
  [ solve [auto with laws]
  | apply calls_bind; [|intros ?]
  | match goal with |- calls _ (match ?x with _ => _ end) => destruct x end ].

Lemma calls_seek h (b : bool) o : calls base (os_do (if b then os_rewinddir h else os_seekdir h o)).
Proof. apply calls_os. intros w. destruct b; cbn; [apply law_rewinddir|apply law_seekdir]. Qed.

Lemma calls_file2 {A} f g (k : FSFile -> FSFile -> SM (Disk W) A) d : inv d -> live f d -> live g d -> (forall x y, calls base (k x y)) ->
  exists d', ignore (x ← file f; y ← file g; k x y) d = Done (tt, d') /\ inv d'.
Proof.
  intros Hd [x Ex] Hg Hk. apply ignore_run. rewrite run_bind, (file_run f d x Ex). destruct (calls_file base g (k x) d Hd Hg (Hk x)) as (a & d' & E & H & _). eauto.
Qed.

Lemma setattr_calls mask mode uid gid size a1 a2 m1 m2 path : calls base (
  attr (tst mask 6) (os_lchown path (if tst mask 2 then uid else u32 (-1)) (if tst mask 4 then gid else u32 (-1))) false (fun updated =>
  attr (tst mask 1) (os_chmod path mode) updated (fun updated =>
  attr (tst mask 8) (os_truncate path (s64 size)) updated (fun updated =>
  attr (tst mask 0x30) (os_utimensat path (time_spec mask 0x10 0x80 a1 a2) (time_spec mask 0x20 0x100 m1 m2)) updated (fun updated =>
  attr (tst mask 0x40 && negb updated) (os_lchown path (u32 (-1)) (u32 (-1))) updated (fun _ => mret 0)))))).
Proof. repeat (apply calls_attr; [auto with laws|intros ?]). apply calls_ret. Qed.

Lemma op_run op d : inv d -> Forall (fun f => live f d) (op_files op) -> exists d', run_op op d = Done (tt, d') /\ inv d'.
Proof.
  intros Hd Hf. destruct op; cbn [op_files run_op] in *; repeat match goal with H : Forall _ (_ :: _) |- _ => apply Forall_cons in H as [? H] end;
    try (apply ignore_calls; [assumption..|]; intros x; cbv zeta; solve [calls | apply setattr_calls]).
  - match goal with H : live _ _ |- _ => destruct H as [x Ex] end. destruct (delete_run base f d x Hd Ex) as (d' & E & Hinv & _). eauto.
  - apply ignore_run. unfold fs_attach. rewrite run_gets. unfold id. destruct (calls_os base (os_lstat (root_path d)) (law_lstat _) d Hd) as (r & d1 & E1 & H1 & [F1 N1 R1]).
    rewrite run_bind, E1. destruct r as [e|st]; [eexists _, d1; split; [reflexivity|exact H1]|].
    destruct (create_file_run base (root_path d) uid d1 H1 ltac:(rewrite R1; constructor)) as (d2 & E2 & H2 & _). rewrite run_bind, E2, run_ret. eauto.
  - apply ignore_run. destruct (walk_run base f names d Hd ltac:(assumption)) as (n & f1 & q & d' & E & Hinv & _). eauto.
  - apply ignore_run. destruct (open_run base f flags d Hd ltac:(assumption)) as (r & d' & E & Hinv & _). eauto.
  - apply ignore_run. destruct (create_run base f name flags mode gid d Hd ltac:(assumption)) as (r & d' & E & Hinv & _). eauto.
  - match goal with H : live _ _ |- _ => destruct H as [x Ex] end. destruct (close_run base f d x Hd Ex) as (d' & E & Hinv & _). eauto.
  - apply ignore_calls; [assumption..|]. intros x. destruct (_ || _); [apply calls_ret|]. apply calls_bind; [apply calls_seek|]. intros _. apply calls_bind; [|intros; apply calls_ret].
    apply calls_readdir; lia.
  - apply calls_file2; auto. intros x y. apply calls_simple, law_link.
  - apply calls_file2; auto. intros x y. apply calls_simple, law_rename.
Qed.
End Ops.

Lemma reached_inv root w0 d : reached root w0 d -> disk_inv (handles w0) d.
Proof.
  induction 1 as [d E|d op d' _ IH Hf E].
  - unfold fs_disk_init in E. pose proof (law_lstat root w0) as Hk. destruct (os_lstat root w0) as [[e|st] w]; [discriminate|]. destruct (S_ISDIR (h_mode st)); [|discriminate].
    injection E as <-. cbn [snd] in Hk. constructor; cbn; try (intros *; rewrite lookup_empty; discriminate). intros k. rewrite Hk. split; [auto|]. intros [?|(f & x & E & _)]; [assumption|].
    rewrite lookup_empty in E. discriminate.
  - destruct (op_run (handles w0) op d IH Hf) as (d'' & E' & H'). congruence.
Qed.

(** C15 Descriptors do not leak: whatever the client asks for, in whatever order, the handles that are open on the host are those that were open
    before and one for each open file, two open files never share one, and every operation on files that exist returns.  (The host's
    calls are taken at their laws [HostLaws].  Where the paths lead is not claimed: see [walk_unchecked].) *)
Theorem disk_handles root w0 d op : reached root w0 d ->
  (forall k, k ∈ handles (world d) <-> k ∈ handles w0 \/ exists f x, files d !! f = Some x /\ is_opened x = true /\ key x = k) /\
  (forall f g x y, files d !! f = Some x -> files d !! g = Some y -> is_opened x = true -> is_opened y = true -> key x = key y -> f = g) /\
  (Forall (fun f => live f d) (op_files op) -> exists d', run_op op d = Done (tt, d')).
Proof.
  intros Hr. pose proof (reached_inv root w0 d Hr) as Hd. split; [apply (di_handles _ _ Hd)|]. split; [apply (di_unique _ _ Hd)|].
  intros Hf. destruct (op_run _ op d Hd Hf) as (d' & E & _). eauto.
Qed.
End Reach.

(** ** Paths *)

Section WalkPath.
Context {W : Type} {OS : HostFS W} {Laws : HostLaws W} (base : gset (bool * Z)).

(** The files after a walk: those before and the result, which is new. *)
Definition walked (d : Disk W) (r : option Z) (s : res (Disk W)) : Prop :=
  exists d', s = Done d' /\ disk_inv base d' /\ (forall g, live g d' <-> live g d \/ r = Some g) /\ (forall g, r = Some g -> ~ live g d).

Lemma walk_new f names (d : Disk W) : disk_inv base d -> live f d -> exists n f1 qids d', P9.fs_walk f names (Done d) = (n, (f1, qids), Done d') /\ disk_inv base d' /\
  ~ live f1 d /\ (forall g, live g d' <-> live g d \/ g = f1).
Proof.
  intros Hd Hf. destruct (walk_run base f names d Hd Hf) as (n & f1 & q & d' & E & Hd' & _ & Ef1 & Hl). exists n, f1, q, d'. cbn. rewrite E. split; [reflexivity|]. split; [exact Hd'|].
  split; [|exact Hl]. intros [x Ex]. pose proof (di_fresh _ _ Hd f1 x Ex). lia.
Qed.
Lemma delete_live f (d : Disk W) : disk_inv base d -> live f d -> exists d', P9.fs_delete f (Done d) = Done d' /\ disk_inv base d' /\ (forall g, live g d' <-> live g d /\ g <> f).
Proof.
  intros Hd [x Ex]. destruct (delete_run base f d x Hd Ex) as (d' & E & Hd' & Ef & _). exists d'. cbn. rewrite E. split; [reflexivity|]. split; [exact Hd'|].
  intros g. unfold live. rewrite Ef. destruct (decide (g = f)) as [->|Hne]; [rewrite lookup_delete_eq; split; [intros [? ?]; discriminate|tauto]|].
  rewrite lookup_delete_ne by congruence. tauto.
Qed.

(** One step of the loop: the file it comes from goes, unless it is the caller's. *)
Lemma walk_path_step (first : bool) f name (d0 d : Disk W) : disk_inv base d -> live f d -> (forall g, live g d <-> live g d0 \/ (first = false /\ g = f)) -> (first = false -> ~ live f d0) ->
  exists n f1 q d1 d2, P9.fs_walk f [name] (Done d) = (n, (f1, q), Done d1) /\ (if first then Done d1 else P9.fs_delete f (Done d1)) = Done d2 /\ disk_inv base d2 /\
    (forall g, live g d2 <-> live g d0 \/ g = f1) /\ ~ live f1 d0.
Proof.
  intros Hd Hf Hl Hn. destruct (walk_new f [name] d Hd Hf) as (n & f1 & q & d1 & E & Hd1 & Hf1 & Hl1). exists n, f1, q, d1.
  assert (~ live f1 d0) as Hnew by (intros H; apply Hf1, Hl; auto). destruct first.
  - exists d1. split; [exact E|]. split; [reflexivity|]. split; [exact Hd1|]. split; [|exact Hnew]. intros g. rewrite Hl1, Hl. intuition discriminate.
  - destruct (delete_live f d1 Hd1) as (d2 & E2 & Hd2 & Hl2); [apply Hl1; auto|]. exists d2. split; [exact E|]. split; [exact E2|]. split; [exact Hd2|]. split; [|exact Hnew].
    intros g. rewrite Hl2, Hl1, Hl. specialize (Hn eq_refl). split; [tauto|]. intros [Hg| ->]; [split; [auto|]; intros ->; contradiction|split; [auto|]]. intros ->. contradiction.
Qed.

Lemma walk_path_run rest : forall (first : bool) f name (d0 d : Disk W), disk_inv base d -> live f d -> (forall g, live g d <-> live g d0 \/ (first = false /\ g = f)) -> (first = false -> ~ live f d0) ->
  let '(r, _, s) := walk_path_loop false first f name rest (Done d) in walked d0 r s.
Proof.
  induction rest as [|name' rest IH]; intros first f name d0 d Hd Hf Hl Hn; cbn [walk_path_loop]; cbv zeta;
    destruct (walk_path_step first f name d0 d Hd Hf Hl Hn) as (n & f1 & q & d1 & d2 & E & E2 & Hd2 & Hl2 & Hnew); rewrite E, E2;
    (destruct (Z.leb_spec n 0); [destruct (delete_live f1 d2 Hd2) as (d3 & E3 & Hd3 & Hl3); [apply Hl2; auto|]; rewrite E3; exists d3; split; [reflexivity|]; split; [exact Hd3|];
      split; [|discriminate]; intros g; rewrite Hl3, Hl2; split; [intros [[?|?] ?]; [auto|contradiction]|intros [Hg|?]; [|discriminate]; split; [auto|intros ->; contradiction]]|]).
  - exists d2. split; [reflexivity|]. split; [exact Hd2|]. split; [intros g; rewrite Hl2; split; [intros [?| ->]; auto|intros [?|[= ->]]; auto]|]. intros g [= <-]. exact Hnew.
  - apply (IH false f1 name' d0 d2 Hd2); [apply Hl2; auto| |auto]. intros g. rewrite Hl2. tauto.
Qed.
End WalkPath.

(** Following a path leaves nothing behind: the intermediate files of [fs_walk_path] are deleted, on success and on failure, and afterwards there is exactly the
    file it returns besides those there were. *)
Theorem walk_path_clean {W} {OS : HostFS W} {Laws : HostLaws W} root w0 f path (d : Disk W) : reached root w0 d -> live f d ->
  let '(r, s) := fs_walk_path f path (Done d) in
  exists d', s = Done d' /\ (forall g, live g d' <-> live g d \/ r = Some g) /\ (forall g, r = Some g -> ~ live g d) /\
    (forall k, k ∈ handles (world d') <-> k ∈ handles w0 \/ exists g x, files d' !! g = Some x /\ is_opened x = true /\ key x = k).
Proof.
  intros Hr Hf. pose proof (reached_inv root w0 d Hr) as Hd. unfold fs_walk_path, fs_walk_path1. destruct (components _) as [name rest].
  pose proof (walk_path_run (handles w0) rest true f name d d Hd Hf ltac:(intros g; intuition discriminate) ltac:(discriminate)) as H.
  destruct (walk_path_loop false true f name rest (Done d)) as [[r ?] s]. destruct H as (d' & -> & Hd' & Hl & Hn). exists d'. split; [reflexivity|]. split; [exact Hl|]. split; [exact Hn|].
  apply (di_handles _ _ Hd').
Qed.

(** Components are not checked: whatever the host finds is reached, [..] too. *)
Lemma walk_unchecked {W} {OS : HostFS W} (f : Z) (x : FSFile) name (d : Disk W) st w : files d !! f = Some x -> os_lstat (compose_path (file_path x) name) (world d) = (inr st, w) ->
  exists d', fs_walk f [name] d = Done ((1, (next_file d, [stat_to_qid st])), d') /\ files d' !! next_file d = Some (mkFSFile (file_uid x) (compose_path (file_path x) name) false false 0).
Proof.
  intros Ef El. unfold fs_walk. rewrite run_bind, (file_run f d x Ef). cbn [walk_loop]. rewrite !run_assoc, run_bind, os_run, El. cbn [fst snd].
  rewrite !run_assoc, run_bind_ret. eexists. split; [reflexivity|]. cbn. apply lookup_insert_eq.
Qed.

(** ** A small host

    Every path names a directory, whose listing is empty; the state is the set of open handles. *)

Definition dir_stat : HStat := mkHStat 0x41ed 2 0 0 2 0 4096 4096 8 0 0 0 0 0 0.
Definition new_handle (dir : bool) (w : gset (bool * Z)) : (Z + Z) * gset (bool * Z) :=
  let h := fresh (set_map snd w : gset Z) in (inr h, {[(dir, h)]} ∪ w).

#[local] Instance small_host : HostFS (gset (bool * Z)) := {
  os_lstat _ w := (inr dir_stat, w); os_stat _ w := (inr dir_stat, w); os_statfs _ w := (inr (mkFSStatFS 4096 0 0 0 0 0), w); os_mkdir _ _ w := (inl 17, w);
  os_open _ _ _ := new_handle false; os_close h w := (inr tt, w ∖ {[(false, h)]}); os_opendir _ := new_handle true; os_closedir h w := w ∖ {[(true, h)]};
  os_seekdir _ _ w := w; os_rewinddir _ w := w; os_readdir _ w := (None, w); os_telldir _ w := (0, w); os_pread _ _ _ w := (inr [], w); os_pwrite _ l _ w := (inr (zlen l), w);
  os_lchown _ _ _ w := (inr tt, w); os_chmod _ _ w := (inr tt, w); os_truncate _ _ w := (inr tt, w); os_utimensat _ _ _ w := (inr tt, w); os_link _ _ w := (inr tt, w);
  os_symlink _ _ w := (inr tt, w); os_mknod _ _ _ _ w := (inr tt, w); os_readlink _ _ w := (inr [], w); os_rename _ _ w := (inr tt, w); os_remove _ w := (inr tt, w);
  os_setlk _ _ w := (inr tt, w); os_getlk _ l w := (inr l, w) }.

Lemma new_handle_opens dir : opens id dir (new_handle dir).
Proof.
  intros w. cbn. split; [|reflexivity]. intros Hin. apply (is_fresh (set_map snd w : gset Z)). apply elem_of_map. exists (dir, fresh (set_map snd w : gset Z)). split; [reflexivity|exact Hin].
Qed.
#[local] Instance small_laws : HostLaws (gset (bool * Z)).
Proof. refine {| handles := id |}; try (intros; intros w; reflexivity); try (intros; reflexivity); intros; apply new_handle_opens. Defined.

(** The state after attaching to the root and opening it as a directory. *)
Definition small_ops : list DiskOp := [Attach 0 [] []; Open 1 P9_O_DIRECTORY; Walk 1 [str "sub"]; Open 2 2].
Fixpoint run_ops (ops : list DiskOp) (d : Disk (gset (bool * Z))) : option (Disk (gset (bool * Z))) :=
  match ops with
  | [] => Some d
  | op :: ops =>
      if forallb (fun f => match files d !! f with Some _ => true | None => false end) (op_files op)
      then match run_op op d with Done (_, d) => run_ops ops d | Stop _ => None end else None
  end.
Lemma run_ops_reached root w0 ops : forall d d', reached root w0 d -> run_ops ops d = Some d' -> reached root w0 d'.
Proof.
  induction ops as [|op ops IH]; intros d d' Hr E; cbn [run_ops] in E; [injection E as <-; exact Hr|]. destruct (forallb _ _) eqn:Ef; [|discriminate].
  destruct (run_op op d) as [[[] d1]|] eqn:E1; [|discriminate]. apply (IH d1 d'); [|exact E]. refine (reached_op root w0 d op d1 Hr _ E1).
  rewrite forallb_forall in Ef. apply List.Forall_forall. intros f Hf. specialize (Ef f Hf). unfold live. destruct (files d !! f); [eauto|discriminate].
Qed.

Lemma disk_handles_witness : exists d, reached (str "/srv") ∅ d /\ (true, 0) ∈ handles (world d) /\ exists d', run_op (Close 1) d = Done (tt, d').
Proof.
  destruct (run_ops small_ops (mkDisk ∅ ∅ 1 (str "/srv"))) as [d|] eqn:E; [|vm_compute in E; discriminate].
  assert (reached (str "/srv") ∅ d) as Hr by (eapply run_ops_reached; [|exact E]; apply reached_init; vm_compute; reflexivity).
  destruct (disk_handles (str "/srv") ∅ d (Close 1) Hr) as (Hh & _ & Hop). exists d. split; [exact Hr|]. vm_compute in E. injection E as <-. split.
  - apply Hh. right. exists 1. eexists. split; [vm_compute; reflexivity|]. split; reflexivity.
  - apply Hop. repeat constructor. eexists. vm_compute. reflexivity.
Defined.

Lemma walk_path_clean_witness : exists d d', reached (str "/srv") ∅ d /\ snd (fs_walk_path 1 (str "a/b/c") (Done d)) = Done d' /\ forall g, live g d' <-> live g d \/ fst (fs_walk_path 1 (str "a/b/c") (Done d)) = Some g.
Proof.
  destruct (run_ops small_ops (mkDisk ∅ ∅ 1 (str "/srv"))) as [d|] eqn:E; [|vm_compute in E; discriminate].
  assert (reached (str "/srv") ∅ d) as Hr by (eapply run_ops_reached; [|exact E]; apply reached_init; vm_compute; reflexivity).
  assert (live 1 d) as Hf by (vm_compute in E; injection E as <-; eexists; vm_compute; reflexivity).
  pose proof (walk_path_clean (str "/srv") ∅ 1 (str "a/b/c") d Hr Hf) as H. exists d. destruct (fs_walk_path 1 (str "a/b/c") (Done d)) as [r s]. destruct H as (d' & -> & Hl & _).
  exists d'. split; [exact Hr|]. split; [reflexivity|exact Hl].
Defined.
