(* ===== verification/FsListing.v ===== *)
(** * Directory listings

    What the client decodes from the answer of [fs_readdir] is the sequence of
    entries that the host delivered, as far as they fit. *)

From stdpp Require Import base list gmap strings.
From Stdlib Require Import ZArith Lia Bool.
From S2P Require Import Prelude Cutils Bytes P9 P9Spec FsDisk FsDiskSpec.
Local Open Scope Z_scope.
Local Open Scope bits_scope.
Local Open Scope list_scope.

(** An entry of the protocol: type of the identifier, inode, offset of the next entry, type, name. *)
Record Item := mkItem { i_qtype : Z; i_ino : Z; i_next : Z; i_type : Z; i_name : list Z }.

(** The decoder of the client. *)
Fixpoint decode (fuel : nat) (l : list Z) : option (list Item) :=
  match l with
  | [] => Some []
  | qtype :: _ =>
      let n := get_le16 (drop 22 l) in
      if zlen l <? 24 + n then None
      else match fuel with
           | O => None
           | S fuel =>
               rest ← decode fuel (drop (24 + Z.to_nat n) l);
               Some (mkItem qtype (get_le64 (drop 5 l)) (get_le64 (drop 13 l)) (aget l 21) (take (Z.to_nat n) (drop 24 l)) :: rest)
           end
  end.

Definition item_qtype (d_type : Z) : Z := if d_type =? DT_DIR then P9_QTDIR else if d_type =? DT_LNK then P9_QTSYMLINK else P9_QTFILE.

Section Listing.
Context {W : Type} {OS : HostFS W} (dirp : Z) (path : list Z).

(** The type the code finds for an entry, and the host after it asked. *)
Definition typed (de : Dirent) (w : W) : Z * W :=
  if d_kind de =? DT_UNKNOWN then let '(r, w) := os_lstat (compose_path path (d_name de)) w in (match r with inl _ => DT_REG | inr st => h_mode st >>' 12 end, w)
  else (d_kind de, w).

(** [listed w room es]: in state [w] the host delivers [es], until the directory ends or an entry does not fit in [room] bytes. *)
Inductive listed : W -> Z -> list Item -> Prop :=
| listed_end w room : fst (os_readdir dirp w) = None -> listed w room []
| listed_full w room de : fst (os_readdir dirp w) = Some de -> room < 24 + zlen (cstr (d_name de)) -> listed w room []
| listed_entry w room de w1 next w2 ty w3 es : os_readdir dirp w = (Some de, w1) -> 24 + zlen (cstr (d_name de)) <= room -> os_telldir dirp w1 = (next, w2) ->
    typed de w2 = (ty, w3) -> listed w3 (room - (24 + zlen (cstr (d_name de)))) es ->
    listed w room (mkItem (item_qtype ty) (d_ino de) next (u8 ty) (cstr (d_name de)) :: es).

(** Names have at most 255 bytes; inodes and offsets are not negative. *)
Context (Hentry : forall w de w', os_readdir dirp w = (Some de, w') -> zlen (cstr (d_name de)) <= 255 /\ in_u 64 (d_ino de))
        (Htell : forall w, in_u 64 (fst (os_telldir dirp w))).

Lemma typed_run de (d : Disk W) : entry_type path de d = Done (fst (typed de (world d)), d <| world := snd (typed de (world d)) |>).
Proof.
  unfold entry_type, typed. destruct (_ =? DT_UNKNOWN); [|destruct d; reflexivity]. rewrite run_bind, os_run. destruct (os_lstat _ _) as [r w]. reflexivity.
Qed.

Lemma entry_length ino next ty name : zlen (dir_entry ino next ty name) = 24 + zlen name.
Proof. unfold dir_entry. rewrite !zlen_app. change (zlen (put_le32 _ _)) with 4. change (zlen (put_le64 _ ino)) with 8. change (zlen (put_le64 _ next)) with 8. change (zlen (put_le16 _ _)) with 2.
  change (zlen [_]) with 1. change (zlen [u8 ty]) with 1. lia. Qed.

Lemma decode_entry fuel ino next ty name rest es : in_u 64 ino -> in_u 64 next -> zlen name <= 255 -> decode fuel rest = Some es ->
  decode (S fuel) (dir_entry ino next ty name ++ rest) = Some (mkItem (item_qtype ty) ino next (u8 ty) name :: es).
Proof.
  intros Hi Hn Hl Hr. set (l := dir_entry ino next ty name ++ rest). pose proof (zlen_nonneg name) as H0.
  assert (get_le16 (drop 22 l) = zlen name) as E16 by (transitivity (get_le16 (put_le16 (replicate 2 0) (zlen name) ++ name ++ rest)); [reflexivity|apply get_put16; unfold in_u; lia]).
  assert (get_le64 (drop 5 l) = ino) as Eino by (transitivity (get_le64 (put_le64 (replicate 8 0) ino ++ put_le64 (replicate 8 0) next ++ [u8 ty] ++ put_le16 (replicate 2 0) (zlen name) ++ name ++ rest)); [reflexivity|apply get_put64, Hi]).
  assert (get_le64 (drop 13 l) = next) as Enx by (transitivity (get_le64 (put_le64 (replicate 8 0) next ++ [u8 ty] ++ put_le16 (replicate 2 0) (zlen name) ++ name ++ rest)); [reflexivity|apply get_put64, Hn]).
  assert (drop 24 l = name ++ rest) as E24 by reflexivity. assert (aget l 21 = u8 ty) as E21 by reflexivity.
  assert (zlen l = 24 + zlen name + zlen rest) as Ez by (unfold l; rewrite zlen_app, entry_length; reflexivity). pose proof (zlen_nonneg rest).
  change (match l with [] => Some [] | qtype :: _ => let n := get_le16 (drop 22 l) in if zlen l <? 24 + n then None else rest ← decode fuel (drop (24 + Z.to_nat n) l);
    Some (mkItem (item_qtype ty) (get_le64 (drop 5 l)) (get_le64 (drop 13 l)) (aget l 21) (take (Z.to_nat n) (drop 24 l)) :: rest) end = Some (mkItem (item_qtype ty) ino next (u8 ty) name :: es)).
  assert (exists q l', l = q :: l') as (q & l' & El) by (eexists _, _; reflexivity). rewrite El at 1. cbv zeta. rewrite E16, Eino, Enx, E21, E24.
  destruct (Z.ltb_spec (zlen l) (24 + zlen name)); [lia|]. rewrite <- drop_drop, E24. assert (Z.to_nat (zlen name) = List.length name) as Eln by (unfold zlen; lia).
  rewrite Eln, drop_app_length, take_app_length, Hr. reflexivity.
Qed.

Lemma readdir_run count : forall fuel pos d, 0 <= pos -> count - pos < Z.of_nat fuel * 24 + 24 -> exists buf d' es, readdir_loop fuel dirp path pos count d = Done (buf, d') /\
  listed (world d) (count - pos) es /\ (0 <= count - pos -> zlen buf <= count - pos) /\ decode (List.length buf) buf = Some es.
Proof.
  induction fuel as [|fuel IH]; intros pos d Hp Hf; cbn [readdir_loop]; rewrite run_bind, os_run; destruct (os_readdir dirp (world d)) as [[de|] w1] eqn:Er; cbn [fst snd];
    try (eexists [], _, []; split; [reflexivity|]; split; [apply listed_end; rewrite Er; reflexivity|]; split; [intros; change (zlen []) with 0; lia|reflexivity]).
  all: destruct (Hentry _ _ _ Er) as [Hn Hino]; cbv zeta; set (name := cstr (d_name de)) in *; pose proof (zlen_nonneg name) as H0; replace (13 + 8 + 1 + 2 + zlen name) with (24 + zlen name) by lia;
    destruct (Z.ltb_spec count (pos + (24 + zlen name))) as [Hlt|Hge];
    try (eexists [], _, []; split; [reflexivity|]; split; [apply (listed_full _ _ de); [rewrite Er; reflexivity|fold name; lia]|]; split; [intros; change (zlen []) with 0; lia|reflexivity]).
  - lia.
  - rewrite run_bind, os_run. cbn [world upd upd_world]. pose proof (Htell w1) as Ht. destruct (os_telldir dirp w1) as [next w2] eqn:Et. cbn [fst snd] in Ht |- *.
    rewrite run_bind, typed_run. cbn [world upd upd_world]. destruct (typed de w2) as [ty w3] eqn:Ety. cbn [fst snd].
    set (d3 := _ <| world := w3 |>). destruct (IH (pos + (24 + zlen name)) d3 ltac:(lia) ltac:(lia)) as (buf & d' & es & E & Hl & Hz & Hd).
    rewrite run_bind, E, run_ret. eexists _, d', _. split; [reflexivity|]. split; [|split].
    + eapply listed_entry; [exact Er|fold name; lia|exact Et|exact Ety|]. fold name. replace (count - pos - (24 + zlen name)) with (count - (pos + (24 + zlen name))) by lia. exact Hl.
    + intros _. rewrite zlen_app, entry_length. lia.
    + assert (forall n m l x, (n <= m)%nat -> decode n l = Some x -> decode m l = Some x) as Hmono.
      { clear. induction n as [|n IHn]; intros m l x Hm E; destruct l as [|q l]; cbn [decode] in E; [destruct m; exact E|destruct (_ <? _); discriminate|destruct m; exact E|].
        destruct m as [|m]; [lia|]. cbn [decode]. destruct (_ <? _); [discriminate|]. destruct (decode n _) as [r|] eqn:Er; [|discriminate]. rewrite (IHn m _ r ltac:(lia) Er). exact E. }
      eapply Hmono; [|exact (decode_entry (List.length buf) _ _ ty name buf es Hino Ht ltac:(lia) Hd)]. rewrite length_app. pose proof (entry_length (d_ino de) next ty name). unfold zlen in *. lia.
Qed.
End Listing.

(** The directory stream where a listing starts. *)
Definition seeked {W} {OS : HostFS W} (h offset : Z) (w : W) : W := if offset =? 0 then os_rewinddir h w else os_seekdir h (s64 offset) w.

(** C30 A listing can be decoded and fits: reading an open directory returns the number of bytes it stored, at most as many as the client asked
    for, and the client's decoder finds in them exactly the entries that the host delivered from the given offset, in order, up to the first one
    that does not fit. The loop ends whatever the host delivers. *)
Theorem readdir_listed {W} {OS : HostFS W} f x offset count (d : Disk W) : files d !! f = Some x -> is_opened x = true -> is_dir x = true -> 0 <= count ->
  (forall w de w', os_readdir (handle x) w = (Some de, w') -> zlen (cstr (d_name de)) <= 255 /\ in_u 64 (d_ino de)) -> (forall w, in_u 64 (fst (os_telldir (handle x) w))) ->
  exists buf d' es, fs_readdir f offset count d = Done ((zlen buf, buf), d') /\ zlen buf <= count /\ decode (List.length buf) buf = Some es /\
    listed (handle x) (file_path x) (seeked (handle x) offset (world d)) count es.
Proof.
  intros Ef Eo Ed Hc He Ht. set (d1 := d <| world := seeked (handle x) offset (world d) |>).
  destruct (readdir_run (handle x) (file_path x) He Ht count (Z.to_nat count) 0 d1 ltac:(lia) ltac:(lia)) as (buf & d' & es & E & Hl & Hz & Hd). rewrite Z.sub_0_r in Hl, Hz.
  exists buf, d', es. split; [|split; [exact (Hz Hc)|split; [exact Hd|exact Hl]]]. unfold fs_readdir. rewrite run_bind, (file_run f d x Ef), Eo, Ed. cbn [negb orb].
  unfold os_do. rewrite run_bind, os_run. cbn [fst snd]. replace (d <| world := _ |>) with d1 by (unfold d1, seeked; destruct (offset =? 0); reflexivity). rewrite run_bind, E, run_ret. reflexivity.
Qed.

(** *** A directory with two entries; the state is the position in it. *)

Definition two_entries : list Dirent := [mkDirent (str "a") DT_REG 11; mkDirent (str "sub") DT_DIR 12].

#[local] Instance two_host : HostFS nat := {
  os_lstat _ w := (inr dir_stat, w); os_stat _ w := (inr dir_stat, w); os_statfs _ w := (inl 5, w); os_mkdir _ _ w := (inl 17, w);
  os_open _ _ _ w := (inr 3, w); os_close _ w := (inr tt, w); os_opendir _ w := (inr 4, w); os_closedir _ w := w;
  os_seekdir _ o _ := Z.to_nat o; os_rewinddir _ _ := O; os_readdir _ w := (two_entries !! w, S w); os_telldir _ w := (u64 (Z.of_nat w), w);
  os_pread _ _ _ w := (inr [], w); os_pwrite _ l _ w := (inr (zlen l), w);
  os_lchown _ _ _ w := (inr tt, w); os_chmod _ _ w := (inr tt, w); os_truncate _ _ w := (inr tt, w); os_utimensat _ _ _ w := (inr tt, w); os_link _ _ w := (inr tt, w);
  os_symlink _ _ w := (inr tt, w); os_mknod _ _ _ _ w := (inr tt, w); os_readlink _ _ w := (inr [], w); os_rename _ _ w := (inr tt, w); os_remove _ w := (inr tt, w);
  os_setlk _ _ w := (inr tt, w); os_getlk _ l w := (inr l, w) }.

Definition two_disk : Disk nat := mkDisk 5%nat {[1 := mkFSFile 0 (str "/srv") true true 4]} 2 (str "/srv").

Lemma readdir_listed_witness : exists buf d' es, fs_readdir 1 0 100 two_disk = Done ((zlen buf, buf), d') /\ zlen buf <= 100 /\ decode (List.length buf) buf = Some es.
Proof.
  destruct (readdir_listed 1 (mkFSFile 0 (str "/srv") true true 4) 0 100 two_disk ltac:(reflexivity) eq_refl eq_refl ltac:(lia)) as (buf & d' & es & E & Hz & Hd & _).
  - intros w de w' E. destruct w as [|[|w]]; cbn in E; try discriminate; injection E as <- _; split; vm_compute; intuition discriminate.
  - intros w. cbn. apply wrapu_range. lia.
  - exists buf, d', es. auto.
Defined.

(** What the client decodes from it. *)
Lemma two_listed : match fs_readdir 1 0 100 two_disk with Done ((_, buf), _) => decode 100 buf | Stop _ => None end =
  Some [mkItem P9_QTFILE 11 1 DT_REG (str "a"); mkItem P9_QTDIR 12 2 DT_DIR (str "sub")].
Proof. vm_compute. reflexivity. Qed.
