(* ===== verification/Startup.v ===== *)
(** * Building the machine ([virt_machine_init] of [riscv_machine.cpp], the end of [virt_machine_main])

    From the parameters to a machine that can run: the harts, the memory map, the
    board, the virtio devices and the loaded images.  The host's buffers ([alloc],
    by the number of the range), the files it opens, its console and the disks,
    network interfaces and file systems it has opened are arguments. *)

From S2P Require Import Prelude Riscv Cutils Iomem Hostmem Bytes CpuState Uart Virtio VirtioDevs P9 VirtioSlot Machine Elf Boot Config.
From S2P Require Fdt Cosim.
From Stdlib Require Import ZArith Lia Bool String.
From stdpp Require Import base list gmap.
Local Open Scope Z_scope.
Local Open Scope list_scope.

Inductive VirtioKind := VirtioConsole | VirtioNet | VirtioBlock | Virtio9p | VirtioKeyboard | VirtioTablet.

(** The host's objects behind the devices: what [virt_machine_main] has put into [tab_eth[i].net] (of which the construction
    reads [mac_addr]), [tab_drive[i].block_dev] and [tab_fs[i].fs_dev]. *)
Record FSObject := mkFSObject { fo_dev : Type; fo_file : Type; fo_ops : FSDevice fo_dev fo_file; fo_fs : fo_dev }.
Record HostDevices := mkHostDevices { hd_mac : nat -> list Z; hd_block : nat -> BlockDeviceFile; hd_fs : nat -> FSObject }.

(** The fields of [RISCVMachine] that are set here and not part of [System Board]. *)
Record RISCVMachine := mkRISCVMachine {
  sys : System Board;
  config : Cosim.CosimConfig;   (* [htif_tohost_addr], the co-simulation windows and [skip_commit] *)
  virtio_devs : list VirtioKind;
  keyboard_dev : option Z;
  mouse_dev : option Z;
  reset_vector : Z;
  missing_csrs : list Z;
  snapshot_load_name : option (list Z) }.

Definition DEVIO_ALL : Z := DEVIO_SIZE32 + DEVIO_SIZE16 + DEVIO_SIZE8.
Definition VIRTIO_PAGE_SIZE : Z := 4096.

Section Init.
Variable alloc : nat -> option Z.
Variable open_file : list Z -> host_file.
Variable host : HostDevices.
Variable console : option Console.
Variable p : VirtMachineParams.

Definition cpu_register_ram (m : PhysMemoryMap) (addr size : Z) : res PhysMemoryMap :=
  '(m, _) ← default_register_ram m addr size 0 (alloc (List.length (phys_mem_range m))); Done m.
Definition new_device (m : PhysMemoryMap) (addr size : Z) (dev : device) (flags : Z) : res PhysMemoryMap :=
  '(m, _) ← cpu_register_device m addr size dev flags; Done m.

Fixpoint register_addrset (l : list Cosim.AddressSet) (m : PhysMemoryMap) : res PhysMemoryMap :=
  match l with
  | [] => Done m
  | a :: l => m ← new_device m (Cosim.as_start a) (Cosim.as_size a) Dev_mmio DEVIO_ALL; register_addrset l m
  end.

(** RAM, ROM, the co-simulation windows, the serial ports, the CLINT and the PLIC, in this order. *)
Definition register_fixed : res PhysMemoryMap :=
  m ← cpu_register_ram phys_mem_map_init (p_ram_base_addr p) (p_ram_size p);
  m ← cpu_register_ram m ROM_BASE_ADDR ROM_SIZE;
  m ← (if negb (p_mmio_start p =? 0) then new_device m (p_mmio_start p) (u64 (p_mmio_end p - p_mmio_start p)) Dev_mmio DEVIO_ALL else Done m);
  m ← register_addrset (p_mmio_addrset p) m;
  m ← new_device m Fdt.UART0_BASE_ADDR Fdt.UART0_SIZE Dev_sifive_uart DEVIO_SIZE32;
  m ← new_device m Fdt.DW_APB_UART0_BASE_ADDR Fdt.DW_APB_UART0_SIZE Dev_dw_apb_uart DEVIO_ALL;
  m ← new_device m (p_clint_base_addr p) (p_clint_size p) Dev_clint DEVIO_ALL;
  new_device m (p_plic_base_addr p) (p_plic_size p) Dev_plic DEVIO_SIZE32.

(** The device of a kind that its constructor makes for entry [i] of the table. *)
Definition new_virtio (kind : VirtioKind) (i : nat) : res VirtioSlot :=
  match kind with
  | VirtioConsole => Done console_slot
  | VirtioNet => Done (net_slot (hd_mac host i))
  | VirtioBlock => Done (block_slot (hd_block host i))
  | Virtio9p =>
      match p_tab_fs p !! i with
      | Some f => let o := hd_fs host i in p9_slot (FS := fo_ops o) (fo_fs o) (f_tag f)
      | None => Stop UndefinedBehaviour
      end
  | VirtioKeyboard => Done (input_slot VIRTIO_INPUT_TYPE_KEYBOARD)
  | VirtioTablet => Done (input_slot VIRTIO_INPUT_TYPE_TABLET)
  end.

(** The bus: the map, and the devices so far. *)
Abbreviation bus := (PhysMemoryMap * list (VirtioKind * VirtioSlot))%type.

(** The next device gets the next window and interrupt. *)
Definition add_virtio (d : VirtioKind * nat) (b : bus) : res bus :=
  let '(m, devs) := b in
  let slot := Z.of_nat (List.length devs) in
  m ← new_device m (u64 (Fdt.VIRTIO_BASE_ADDR + slot * Fdt.VIRTIO_SIZE)) VIRTIO_PAGE_SIZE (Dev_virtio slot) DEVIO_ALL;
  v ← new_virtio (fst d) (snd d);
  Done (m, devs ++ [(fst d, v)]).

Fixpoint add_virtios (l : list (VirtioKind * nat)) (b : bus) : res bus :=
  match l with [] => Done b | d :: l => b ← add_virtio d b; add_virtios l b end.

(** [for (i = 0; i < count; ++i)]. *)
Definition each (kind : VirtioKind) (count : nat) : list (VirtioKind * nat) := map (pair kind) (seq 0 count).

(** The console, one device per network interface, disk and file system, then the input devices. *)
Definition register_virtio (m : PhysMemoryMap) : res bus :=
  b ← add_virtios (match console with Some _ => [(VirtioConsole, 0%nat)] | None => [] end) (m, []);
  b ← add_virtios (each VirtioNet (List.length (p_tab_eth p))) b;
  b ← add_virtios (each VirtioBlock (List.length (p_tab_drive p))) b;
  b ← add_virtios (each Virtio9p (List.length (p_tab_fs p))) b;
  match p_input_device p with
  | None => Done b
  | Some d => if bool_decide (d = str "virtio") then add_virtios [(VirtioKeyboard, 0%nat); (VirtioTablet, 0%nat)] b else Stop (Exited 1)
  end.

Definition new_harts (n : Z) : list RISCVCPUState :=
  map (fun i => (riscv_cpu_init (p_reset_vector p) (p_custom_extension p) (Z.of_nat i)) <| physical_addr_len := s32 (p_physical_addr_len p) |>)
    (seq 0 (Z.to_nat n)).

(** The machine as [copy_kernel] and the device tree see it. *)
Definition machine_desc (n : Z) (harts : list RISCVCPUState) (virtio_count : Z) : Fdt.MachineDesc :=
  Fdt.mkMachineDesc n (fun h => misa (nth (Z.to_nat h) harts zero_cpu)) (p_ram_base_addr p) (p_ram_size p)
    (p_clint_base_addr p) (p_clint_size p) (p_plic_base_addr p) (p_plic_size p) virtio_count None.

Definition file_buf (i : nat) : option (list Z) := match p_files p !! i with Some f => buf f | None => None end.

Definition load_config (n : Z) (harts : list RISCVCPUState) (virtio_count : Z) (fw : list Z) : LoadConfig :=
  mkLoadConfig (machine_desc n harts virtio_count) (p_compact_bootrom p) fw (default [] (file_buf VM_FILE_KERNEL)) (default [] (file_buf VM_FILE_INITRD))
    (open_file <$> p_bootrom_name p) (open_file <$> p_dtb_name p) (p_cmdline p).

(** The board at power on; no console stands for an empty stream. *)
Definition new_board (harts : list RISCVCPUState) (vdevs : list VirtioSlot) : Board :=
  mkBoard 0 harts 0 0 (replicate 128 0) (mkSiFiveUART 0 0 0 0 0 0) (mkDW 0 0 0 0 0 0 0) (default (mkConsole [] false []) console) vdevs.

(** [None] is a NULL result.  [s->ncpus] is an [int]. *)
Definition virt_machine_init : res (option RISCVMachine) :=
  let n := s32 (p_ncpus p) in
  if MAX_CPUS <? n then Stop (Exited 3)
  else
    let harts := new_harts n in
    m ← register_fixed;
    '(m, vdevs) ← register_virtio m;
    let count := Z.of_nat (List.length vdevs) in
    let input (i : Z) := match p_input_device p with Some _ => Some (count - i) | None => None end in
    match file_buf VM_FILE_BIOS with
    | None => Done None
    | Some fw =>
        '(r, l) ← copy_kernel alloc (load_config n harts count fw) (mkLoader m ∅ (p_htif_base_addr p) harts);
        if negb (r =? 0) then Done None
        else
          Done (Some (mkRISCVMachine
            (mkSystem (nth 0 (l_harts l) zero_cpu) (mkVirtMachine false (-1) (-1) (p_maxinsns p) 0) (l_map l) (l_mem l) (new_board (l_harts l) (map snd vdevs)))
            (Cosim.mkCosimConfig (l_tohost l) (p_mmio_start p) (p_mmio_end p) (p_mmio_addrset p) (p_skip_commit p))
            (map fst vdevs) (input 2) (input 1) (p_reset_vector p) (p_missing_csrs p) (p_snapshot_load_name p)))
    end.

End Init.

(** What [virt_machine_main] sets afterwards: no limit is the largest one. *)
Definition finish_machine (o : Options) (m : RISCVMachine) : RISCVMachine :=
  let s := sys m in
  let limit := if o_maxinsns o >? 0 then o_maxinsns o else maxinsns (common s) in
  let limit := if limit =? 0 then UINT64_MAX else limit in
  let quiet (c : RISCVCPUState) := c <| ignore_sbi_shutdown := o_ignore_sbi_shutdown o |> in
  mkRISCVMachine
    (mkSystem (quiet (cpu s)) ((common s) <| maxinsns := limit |> <| trace := o_trace o |>) (mem_map s) (hmem s)
       ((devs s) <| cpu_state := map quiet (cpu_state (devs s)) |>))
    (config m) (virtio_devs m) (keyboard_dev m) (mouse_dev m) (reset_vector m) (missing_csrs m)
    (match o_load o with Some n => Some n | None => snapshot_load_name m end).

(** [virt_machine_main] as far as the checkpoint to restore. *)
Definition virt_machine_main (fs : list Z -> option (list Z)) (tm_gmtoff : Z) (alloc : nat -> option Z) (open_file : list Z -> host_file)
    (host : HostDevices) (console : Console) (opts : list (Z * list Z)) (args : list (list Z)) : res (option RISCVMachine) :=
  '(o, p, _) ← read_params fs tm_gmtoff opts args;
  m ← virt_machine_init alloc open_file host (Some console) p;
  Done (option_map (finish_machine o) m).
