(* ===== verification/StartupSpec.v ===== *)
(** * The machine that is built

    For parameters as the command line and a configuration file give them, the
    construction succeeds; its memory map answers every window that the device tree
    announces, the images are loaded, and the machine satisfies the invariant from
    which the theorems about execution start. *)

From S2P Require Import Prelude Riscv Cutils Iomem Hostmem Bytes CpuState CpuWf Csr Trap Mmu Tlb Alu Exec ExecWf Interp Uart Virtio VirtioDevs P9 VirtioSlot Machine Run SoftInst BootRom BootExec Fdt FdtSpec Elf Boot Handover Json Config Startup.
From S2P Require Cosim FsDisk FsDiskSpec.
From Stdlib Require Import ZArith Lia Bool String.
From stdpp Require Import base list gmap.
Local Open Scope Z_scope.
Local Open Scope list_scope.

(** ** The memory map *)

(** An address that exactly one range contains is found in it. *)
Lemma lookup_unique l pr a : pr ∈ l -> in_range pr a = true -> (forall q, q ∈ l -> in_range q a = true -> q = pr) ->
  exists i, get_phys_mem_range (mkPhysMemoryMap l) a = Some (i, pr).
Proof.
  intros Hl Hr Hu. destruct (get_phys_mem_range (mkPhysMemoryMap l) a) as [[i q]|] eqn:E.
  - exists i. apply get_phys_mem_range_Some in E as (Hi & Hq & _). cbn in Hi. rewrite (Hu q (list_elem_of_lookup_2 _ _ _ Hi) Hq). reflexivity.
  - apply list_elem_of_lookup in Hl as (j & Hj). rewrite get_phys_mem_range_None in E. rewrite (E j pr Hj) in Hr. discriminate.
Qed.

Definition ram_pr (addr size mem : Z) : PhysMemoryRange := mkPhysMemoryRange addr size size true 0 mem 0 None [] 0 Dev_mmio 0.
Definition dev_pr (addr size : Z) (d : device) (flags : Z) : PhysMemoryRange := mkPhysMemoryRange addr size size false 0 0 0 None [] 0 d flags.
Definition virtio_pr (slot : nat) : PhysMemoryRange := dev_pr (0x40010000 + Z.of_nat slot * 0x1000) 4096 (Dev_virtio (Z.of_nat slot)) 7.

Lemma new_device_run l addr size d flags : (List.length l < 32)%nat -> size <= 0xffffffff -> tst flags DEVIO_DISABLED = false ->
  new_device (mkPhysMemoryMap l) addr size d flags = Done (mkPhysMemoryMap (l ++ [dev_pr addr size d flags])).
Proof.
  intros Hl Hs Hf. unfold new_device, cpu_register_device, n_phys_mem_range, PHYS_MEM_RANGE_MAX. cbn [phys_mem_range].
  destruct (Z.ltb_spec (Z.of_nat (List.length l)) 32); [|lia]. destruct (Z.leb_spec size 0xffffffff); [|lia]. cbn. rewrite Hf. reflexivity.
Qed.

Lemma register_ram_run alloc l addr size mem : (List.length l < 32)%nat -> size mod 4096 = 0 -> 0 < size -> alloc (List.length l) = Some mem ->
  cpu_register_ram alloc (mkPhysMemoryMap l) addr size = Done (mkPhysMemoryMap (l ++ [ram_pr addr size mem])).
Proof.
  intros Hl Hs H0 Ha. unfold cpu_register_ram, default_register_ram, register_ram_entry, n_phys_mem_range, PHYS_MEM_RANGE_MAX. cbn [phys_mem_range]. rewrite Ha.
  destruct (Z.ltb_spec (Z.of_nat (List.length l)) 32); [|lia]. change (DEVRAM_PAGE_SIZE - 1) with (Z.ones 12). rewrite Z.land_ones by lia. change (2 ^ 12) with 4096. rewrite Hs.
  destruct (Z.eqb_spec size 0); [lia|]. reflexivity.
Qed.

(** The devices on the bus: kind and number. *)
Definition virtio_objects (console : option Console) (p : VirtMachineParams) : list (VirtioKind * nat) :=
  match console with Some _ => [(VirtioConsole, 0%nat)] | None => [] end ++ each VirtioNet (List.length (p_tab_eth p)) ++
  each VirtioBlock (List.length (p_tab_drive p)) ++ each Virtio9p (List.length (p_tab_fs p)) ++
  match p_input_device p with Some _ => [(VirtioKeyboard, 0%nat); (VirtioTablet, 0%nat)] | None => [] end.
Definition virtio_list (console : option Console) (p : VirtMachineParams) : list VirtioKind :=
  match console with Some _ => [VirtioConsole] | None => [] end ++ replicate (List.length (p_tab_eth p)) VirtioNet ++
  replicate (List.length (p_tab_drive p)) VirtioBlock ++ replicate (List.length (p_tab_fs p)) Virtio9p ++
  match p_input_device p with Some _ => [VirtioKeyboard; VirtioTablet] | None => [] end.

Lemma fst_each kind k : map fst (each kind k) = replicate k kind.
Proof. unfold each. rewrite map_map. cbn. generalize 0%nat. induction k as [|k IH]; intros i; cbn; [reflexivity|]. rewrite IH. reflexivity. Qed.
Lemma fst_objects console p : map fst (virtio_objects console p) = virtio_list console p.
Proof.
  unfold virtio_objects, virtio_list. rewrite !map_app, !fst_each. destruct console, (p_input_device p); reflexivity.
Qed.
Lemma length_objects console p : List.length (virtio_objects console p) = List.length (virtio_list console p).
Proof. rewrite <- fst_objects, length_map. reflexivity. Qed.

(** The slots that the constructors make. *)
Definition constructed (host : HostDevices) (p : VirtMachineParams) (d : VirtioKind * nat) (v : VirtioKind * VirtioSlot) : Prop :=
  fst v = fst d /\ new_virtio host p (fst d) (snd d) = Done (snd v).

Lemma constructed_fst host p os vs : Forall2 (constructed host p) os vs -> map fst vs = map fst os.
Proof. induction 1 as [|d v os vs [Hf _] _ IH]; cbn; [reflexivity|]. rewrite Hf, IH. reflexivity. Qed.

Lemma add_virtios_run host p os vs : Forall2 (constructed host p) os vs -> forall l devs,
  (List.length l + List.length os <= 32)%nat -> (List.length devs + List.length os <= 32)%nat ->
  add_virtios host p os (mkPhysMemoryMap l, devs) = Done (mkPhysMemoryMap (l ++ map virtio_pr (seq (List.length devs) (List.length os))), devs ++ vs).
Proof.
  induction 1 as [|[k i] [k' v] os vs [Hk Hv] _ IH]; intros l devs Hl Hd; cbn [add_virtios List.length seq map]; [rewrite !app_nil_r; reflexivity|].
  cbn [List.length fst snd] in *. subst k'. unfold add_virtio. cbn [fst snd]. unfold VIRTIO_BASE_ADDR, VIRTIO_SIZE. rewrite u64_id by (unfold in_u; lia).
  rewrite new_device_run by (try reflexivity; try lia; vm_compute; discriminate). cbn [mbind res_bind]. rewrite Hv. cbn [mbind res_bind].
  rewrite IH by (rewrite length_app; cbn [List.length]; lia).
  rewrite length_app. cbn [List.length]. rewrite Nat.add_1_r, <- !app_assoc. reflexivity.
Qed.

Lemma register_virtio_run host console p l vs : p_input_device p = None \/ p_input_device p = Some (str "virtio") ->
  Forall2 (constructed host p) (virtio_objects console p) vs -> (List.length l + List.length (virtio_objects console p) <= 32)%nat ->
  register_virtio host console p (mkPhysMemoryMap l) = Done (mkPhysMemoryMap (l ++ map virtio_pr (seq 0 (List.length (virtio_objects console p)))), vs).
Proof.
  intros Hi Hf Hl. unfold register_virtio, virtio_objects in *.
  set (c := match console with Some _ => [(VirtioConsole, 0%nat)] | None => [] end) in *. set (e := each VirtioNet _) in *.
  set (d := each VirtioBlock _) in *. set (f := each Virtio9p _) in *.
  set (i := match p_input_device p with Some _ => [(VirtioKeyboard, 0%nat); (VirtioTablet, 0%nat)] | None => [] end) in *. rewrite !length_app in Hl.
  apply Forall2_app_inv_l in Hf as (vc & vs1 & Fc & Hf & ->). apply Forall2_app_inv_l in Hf as (ve & vs2 & Fe & Hf & ->).
  apply Forall2_app_inv_l in Hf as (vd & vs3 & Fd & Hf & ->). apply Forall2_app_inv_l in Hf as (vf & vi & Ff & Fi & ->).
  pose proof (Forall2_length _ _ _ Fc) as Lc. pose proof (Forall2_length _ _ _ Fe) as Le. pose proof (Forall2_length _ _ _ Fd) as Ld. pose proof (Forall2_length _ _ _ Ff) as Lf.
  rewrite !length_app, !seq_app, !map_app, !app_assoc. cbn [Nat.add].
  rewrite (add_virtios_run _ _ _ _ Fc) by (cbn [List.length]; lia). cbn [mbind res_bind app List.length].
  rewrite (add_virtios_run _ _ _ _ Fe) by (rewrite ?length_app, ?length_map, ?length_seq; lia). cbn [mbind res_bind].
  rewrite (add_virtios_run _ _ _ _ Fd) by (rewrite ?length_app, ?length_map, ?length_seq; lia). cbn [mbind res_bind].
  rewrite (add_virtios_run _ _ _ _ Ff) by (rewrite ?length_app, ?length_map, ?length_seq; lia). cbn [mbind res_bind].
  rewrite ?length_app, <- ?Lc, <- ?Le, <- ?Ld, <- ?Lf. unfold i in *. destruct Hi as [Hi|Hi]; rewrite Hi in *.
  - apply Forall2_nil_inv_l in Fi as ->. cbn [List.length seq map]. rewrite !app_nil_r, <- !app_assoc. reflexivity.
  - rewrite bool_decide_eq_true_2 by reflexivity.
    rewrite (add_virtios_run _ _ _ _ Fi) by (rewrite ?length_app, ?length_map, ?length_seq; cbn [List.length] in *; lia).
    rewrite ?length_app, <- ?Lc, <- ?Le, <- ?Ld, <- ?Lf, <- !app_assoc, ?Nat.add_assoc. reflexivity.
Qed.

(** ** What a device tree announces *)

Definition find_prop (t : dnode) (name : string) : option (list Z) :=
  let '(DNode _ ps _) := t in snd <$> List.find (fun p => bool_decide (fst p = str name)) ps.
Definition child (t : dnode) (name : string) : option dnode :=
  let '(DNode _ _ cs) := t in List.find (fun c => let '(DNode n _ _) := c in bool_decide (n = str name)) cs.
Definition children (t : option dnode) : list dnode := match t with Some (DNode _ _ cs) => cs | None => [] end.

(** A register window: two cells of address and two of size. *)
Definition window (d : list Z) : option (Z * Z) :=
  match be32 d with
  | Some (a1, d) => match be32 d with
    | Some (a0, d) => match be32 d with
      | Some (s1, d) => match be32 d with
        | Some (s0, _) => Some (a1 * 2 ^ 32 + a0, s1 * 2 ^ 32 + s0)
        | None => None end | None => None end | None => None end | None => None end.

Lemma window_cells a s : in_u 64 a -> in_u 64 s -> window (cell64 a ++ cell64 s) = Some (a, s).
Proof.
  intros Ha Hs. assert (forall v, in_u 64 v -> in_u 32 (v / 2 ^ 32) /\ in_u 32 (v mod 2 ^ 32)) as Hu.
  { unfold in_u. intros v Hv. split; [|apply Z.mod_pos_bound; reflexivity]. change (2 ^ 64) with (2 ^ 32 * 2 ^ 32) in Hv. split; [apply Z.div_pos; lia|apply Z.div_lt_upper_bound; lia]. }
  destruct (Hu a Ha) as [A1 A0], (Hu s Hs) as [S1 S0]. unfold window, cell64, cells. cbn [flat_map]. rewrite !app_nil_r, <- !app_assoc. do 3 (rewrite be32_be4 by assumption).
  rewrite <- (app_nil_r (be4 (s mod 2 ^ 32))), be32_be4 by assumption. f_equal. f_equal; [pose proof (Z.div_mod a (2 ^ 32) ltac:(lia))|pose proof (Z.div_mod s (2 ^ 32) ltac:(lia))]; lia.
Qed.

(** The string by which a device is known, and the interrupt of a virtio device. *)
Definition compatible (d : device) : string :=
  match d with
  | Dev_sifive_uart => "sifive,uart0"
  | Dev_dw_apb_uart => "ns16550"
  | Dev_clint => "riscv,clint0"
  | Dev_plic => "riscv,plic0"
  | Dev_virtio _ => "virtio,mmio"
  | Dev_mmio => ""
  end%string.

Definition announces (plic : Z) (t : dnode) (d : device) : Prop :=
  find_prop t "compatible" = Some (text (str (compatible d))) /\
  match d with Dev_virtio slot => find_prop t "interrupts-extended" = Some (cells [plic; VIRTIO_IRQ + slot]) | _ => True end.

(** The window of the node is answered by its device, from the first byte to the last. *)
Definition answered (map : PhysMemoryMap) (plic : Z) (t : dnode) : Prop :=
  exists reg addr size d, find_prop t "reg" = Some reg /\ window reg = Some (addr, size) /\ announces plic t d /\
    forall a, addr <= a < addr + size -> exists i pr, get_phys_mem_range map a = Some (i, pr) /\ pr_is_ram pr = false /\ pr_dev pr = d /\ pr_addr pr = addr.

(** ** The machine *)

Section Ready.
Variable alloc : nat -> option Z.
Variable open_file : list Z -> host_file.
Variable host : HostDevices.
Variable console : option Console.
Variable p : VirtMachineParams.
Variable fw : list Z.
Variables ram_buf rom_buf : Z.

Abbreviation n := (p_ncpus p).
Abbreviation devices := (virtio_list console p).
Abbreviation count := (Z.of_nat (List.length devices)).
Abbreviation cfg := (load_config open_file p n (new_harts p n) count fw).
Abbreviation kernel := (default [] (file_buf p VM_FILE_KERNEL)).
Abbreviation initrd := (default [] (file_buf p VM_FILE_INITRD)).

(** Parameters of the standard machine, with images that fit and a host that provides two separate buffers. *)
Record startable : Prop := mk_startable {
  sa_ncpus : 1 <= n <= MAX_CPUS;
  sa_base : known_base (p_ram_base_addr p) = true;
  sa_size : p_ram_size p mod 4096 = 0 /\ 0 < p_ram_size p <= 2 ^ 62;
  sa_clint : p_clint_base_addr p = CLINT_BASE_ADDR /\ p_clint_size p = CLINT_SIZE;
  sa_plic : p_plic_base_addr p = PLIC_BASE_ADDR /\ p_plic_size p = PLIC_SIZE;
  sa_mmio : p_mmio_start p = 0 /\ p_mmio_addrset p = [];
  sa_reset : p_reset_vector p = BOOT_BASE_ADDR;
  sa_tables : (List.length (p_tab_eth p) <= 1)%nat /\ (List.length (p_tab_drive p) <= 4)%nat /\ (List.length (p_tab_fs p) <= 4)%nat;
  sa_input : p_input_device p = None \/ p_input_device p = Some (str "virtio");
  sa_macs : forall i, is_bytes (hd_mac host i) /\ zlen (hd_mac host i) = 6;
  sa_tags : Forall (fun f => is_bytes (f_tag f) /\ 2 <= zlen (f_tag f) <= 254) (p_tab_fs p);
  sa_console : console_wf (default (mkConsole [] false []) console);
  sa_alloc : alloc 0%nat = Some ram_buf /\ alloc 1%nat = Some rom_buf;
  sa_host : 0 <= ram_buf /\ 0 <= rom_buf /\ ram_buf + p_ram_size p <= 2 ^ 64 /\ rom_buf + ROM_SIZE <= 2 ^ 64;
  sa_apart : ram_buf + p_ram_size p <= rom_buf \/ rom_buf + ROM_SIZE <= ram_buf;
  sa_files : p_bootrom_name p = None /\ p_dtb_name p = None;
  sa_fw : file_buf p VM_FILE_BIOS = Some fw /\ elf64_is_riscv64 fw = Done false;
  sa_bytes : is_bytes fw /\ is_bytes kernel /\ is_bytes initrd /\ is_bytes (default [] (p_cmdline p));
  sa_fit : zlen fw <= p_ram_size p /\ (zlen kernel <> 0 -> zlen fw <= KERNEL_OFFSET /\ KERNEL_OFFSET + zlen kernel <= p_ram_size p);
  sa_initrd : zlen initrd <> 0 -> (if zlen kernel =? 0 then zlen fw else KERNEL_OFFSET + zlen kernel) + zlen initrd + 4096 <= p_ram_size p;
  sa_fdt : 1454 + 336 * n + 96 * count + zlen (default [] (p_cmdline p)) <= ROM_SIZE - 256 }.

Abbreviation ram := (ram_pr (p_ram_base_addr p) (p_ram_size p) ram_buf).
Abbreviation rom := (ram_pr ROM_BASE_ADDR ROM_SIZE rom_buf).

Definition fixed_ranges : list PhysMemoryRange :=
  [ram; rom; dev_pr 0x54000000 32 Dev_sifive_uart 4; dev_pr 0x12002000 0x1000 Dev_dw_apb_uart 7;
   dev_pr 0x2000000 0xc0000 Dev_clint 7; dev_pr 0x10000000 0x2000000 Dev_plic 4].
Definition ranges : list PhysMemoryRange := fixed_ranges ++ map virtio_pr (seq 0 (List.length devices)).

Lemma devices_length : startable -> (List.length devices <= 12)%nat.
Proof.
  intros H. destruct (sa_tables H) as (H1 & H2 & H3). unfold virtio_list. rewrite !length_app, !length_replicate.
  destruct console, (p_input_device p); cbn [List.length]; lia.
Qed.

(** The constructors succeed, and make well-formed devices. *)
Lemma new_virtio_ok d : startable -> d ∈ virtio_objects console p -> exists v, new_virtio host p (fst d) (snd d) = Done v /\ slot_ok v.
Proof.
  intros H Hd. destruct d as [kind i]. cbn [fst snd].
  destruct kind; cbn [new_virtio]; try (eexists; split; [reflexivity|]); auto using console_slot_ok, block_slot_ok, input_slot_ok.
  - apply net_slot_ok; apply (sa_macs H i).
  - assert (exists f, p_tab_fs p !! i = Some f) as [f Ef].
    { apply lookup_lt_is_Some_2. unfold virtio_objects, each in Hd. rewrite !elem_of_app, !list_elem_of_fmap in Hd.
      destruct Hd as [Hd|[(j & E & _)|[(j & E & _)|[(j & E & Hj)|Hd]]]]; try discriminate E.
      - destruct console; [apply list_elem_of_singleton in Hd; discriminate Hd|apply not_elem_of_nil in Hd as []].
      - injection E as ->. apply elem_of_seq in Hj. lia.
      - destruct (p_input_device p); [rewrite !elem_of_cons in Hd; destruct Hd as [E|[E|Hd]]; try discriminate E|]; apply not_elem_of_nil in Hd as []. }
    rewrite Ef. destruct (Forall_lookup_1 _ _ _ _ (sa_tags H) Ef) as (Hb & Hl).
    destruct (p9_slot_made (FS := fo_ops (hd_fs host i)) (fo_fs (hd_fs host i)) (f_tag f)) as [v Ev]; [lia|].
    exists v. split; [exact Ev|]. eapply p9_slot_ok; [exact Hb|apply Hl|exact Ev].
Qed.

Lemma bus_made : startable -> exists vs, Forall2 (constructed host p) (virtio_objects console p) vs /\ Forall slot_ok (map snd vs).
Proof.
  intros H. pose proof (fun d => new_virtio_ok d H) as K. induction (virtio_objects console p) as [|d os IH]; [exists []; split; constructor|].
  destruct IH as (vs & F & W); [intros d' Hd'; apply K, list_elem_of_further, Hd'|].
  destruct (K d (list_elem_of_here _ _)) as (v & E & Hv). exists ((fst d, v) :: vs). split; constructor; auto. split; [reflexivity|exact E].
Qed.

Lemma register_fixed_run : startable -> register_fixed alloc p = Done (mkPhysMemoryMap fixed_ranges).
Proof.
  intros H. destruct (sa_size H), (sa_clint H) as [Ec1 Ec2], (sa_plic H) as [Ep1 Ep2], (sa_mmio H) as [Em1 Em2], (sa_alloc H) as [A0 A1]. unfold register_fixed, phys_mem_map_init.
  rewrite (register_ram_run alloc [] _ _ ram_buf) by (try assumption; cbn; lia). cbn [mbind res_bind app].
  rewrite (register_ram_run alloc [_] _ _ rom_buf) by (try assumption; try reflexivity; cbn; lia). cbn [mbind res_bind app].
  rewrite Em1, Em2. cbn [Z.eqb negb mbind res_bind register_addrset]. rewrite Ec1, Ec2, Ep1, Ep2.
  unfold UART0_BASE_ADDR, UART0_SIZE, DW_APB_UART0_BASE_ADDR, DW_APB_UART0_SIZE, CLINT_BASE_ADDR, CLINT_SIZE, PLIC_BASE_ADDR, PLIC_SIZE.
  rewrite new_device_run by (try reflexivity; try (cbn; lia); vm_compute; discriminate). cbn [mbind res_bind app].
  rewrite new_device_run by (try reflexivity; try (cbn; lia); vm_compute; discriminate). cbn [mbind res_bind app].
  rewrite new_device_run by (try reflexivity; try (cbn; lia); vm_compute; discriminate). cbn [mbind res_bind app].
  rewrite new_device_run by (try reflexivity; try (cbn; lia); vm_compute; discriminate). reflexivity.
Qed.

Lemma base_bounds : startable -> 0x80000000 <= p_ram_base_addr p <= 0xC000000000.
Proof.
  intros H. pose proof (sa_base H) as Hb. unfold known_base in Hb. rewrite !orb_true_iff, !Z.eqb_eq in Hb. lia.
Qed.

(** The windows of the ranges: below the RAM, one after the other. *)
Lemma range_cases q : startable -> q ∈ ranges -> (0 <= pr_addr q /\ 0 <= pr_size q /\ pr_addr q + pr_size q < 2 ^ 64) /\
  (q = ram \/ q = rom \/ (q = dev_pr 0x54000000 32 Dev_sifive_uart 4 \/ q = dev_pr 0x12002000 0x1000 Dev_dw_apb_uart 7) \/
   (q = dev_pr 0x2000000 0xc0000 Dev_clint 7 \/ q = dev_pr 0x10000000 0x2000000 Dev_plic 4) \/ exists i, (i < 12)%nat /\ q = virtio_pr i).
Proof.
  intros H Hq. pose proof (base_bounds H). destruct (sa_size H) as [_ Hs]. pose proof (devices_length H). unfold ranges in Hq. apply elem_of_app in Hq as [Hq|Hq].
  - unfold fixed_ranges in Hq. rewrite !elem_of_cons in Hq. destruct Hq as [->|[->|[->|[->|[->|[->|Hq]]]]]]; [..|inversion Hq];
      (split; [cbn; unfold ROM_BASE_ADDR, ROM_SIZE; lia|tauto]).
  - apply list_elem_of_fmap in Hq as (i & -> & Hi). apply elem_of_seq in Hi. split; [cbn; lia|]. do 4 right. exists i. split; [lia|reflexivity].
Qed.

(** No address belongs to two ranges. *)
Lemma ranges_apart a q q' : startable -> q ∈ ranges -> q' ∈ ranges -> in_range q a = true -> in_range q' a = true -> q = q'.
Proof.
  intros H Hq Hq' Ha Ha'. pose proof (base_bounds H). destruct (sa_size H) as [_ Hs].
  destruct (range_cases q H Hq) as ((B1 & B2 & B3) & C). destruct (range_cases q' H Hq') as ((B1' & B2' & B3') & C').
  apply in_range_in in Ha; [|assumption..]. apply in_range_in in Ha'; [|assumption..]. clear B1 B2 B3 B1' B2' B3' Hq Hq'.
  destruct C as [->|[->|[[->| ->]|[[->| ->]|(i & Hi & ->)]]]], C' as [->|[->|[[->| ->]|[[->| ->]|(j & Hj & ->)]]]];
    cbn in Ha, Ha'; unfold ROM_BASE_ADDR, ROM_SIZE in *; try reflexivity; try lia.
  assert (i = j) as -> by lia. reflexivity.
Qed.

Lemma range_found a q : startable -> q ∈ ranges -> pr_addr q <= a < pr_addr q + pr_size q -> exists i, get_phys_mem_range (mkPhysMemoryMap ranges) a = Some (i, q).
Proof.
  intros H Hq Ha. destruct (range_cases q H Hq) as ((B1 & B2 & B3) & _). assert (in_range q a = true) as Hr by (apply in_range_in; assumption).
  apply lookup_unique; [exact Hq|exact Hr|]. intros q' Hq' Hr'. exact (ranges_apart a q' q H Hq' Hq Hr' Hr).
Qed.

Lemma device_answered plic t reg addr size d flags : startable -> dev_pr addr size d flags ∈ ranges -> in_u 64 addr -> in_u 64 size ->
  find_prop t "reg" = Some reg -> reg = cell64 addr ++ cell64 size -> announces plic t d -> answered (mkPhysMemoryMap ranges) plic t.
Proof.
  intros H Hq Ha Hs Hr -> Hd. exists (cell64 addr ++ cell64 size), addr, size, d. split; [exact Hr|]. split; [apply window_cells; assumption|]. split; [exact Hd|].
  intros a Hin. destruct (range_found a _ H Hq Hin) as [i E]. exists i. eexists. split; [exact E|]. auto.
Qed.

(** Every device of the tree has its window in the map. *)
Lemma tree_answered cmd i : startable -> Forall (answered (mkPhysMemoryMap ranges) (n + 1)) (children (child (machine_tree (desc cfg) cmd i) "soc")).
Proof.
  intros H. assert (forall k, (k < List.length devices)%nat -> virtio_pr k ∈ ranges) as Hv.
  { intros k Hk. apply elem_of_app. right. apply list_elem_of_fmap_2. apply elem_of_seq. lia. }
  assert (forall q, q ∈ fixed_ranges -> q ∈ ranges) as Hf by (intros q Hq; apply elem_of_app; left; exact Hq). unfold fixed_ranges in Hf.
  destruct (sa_clint H) as [Ec1 Ec2], (sa_plic H) as [Ep1 Ep2]. pose proof (devices_length H).
  change (children (child (machine_tree (desc cfg) cmd i) "soc")) with
    (clint_tree (desc cfg) :: plic_tree (desc cfg) :: map (virtio_tree (desc cfg)) (indices count) ++ uart_trees ++ []).
  constructor; [|constructor; [|apply Forall_app_2; [|constructor; [|constructor; [|constructor]]]]].
  - eapply (device_answered _ _ _ 0x2000000 0xc0000 Dev_clint 7 H); [apply Hf; rewrite !elem_of_cons; auto 10|split; [discriminate|reflexivity]|split; [discriminate|reflexivity]|reflexivity| |split; [reflexivity|exact I]].
    cbn [desc load_config machine_desc clint_base_addr clint_size]. rewrite Ec1, Ec2. reflexivity.
  - eapply (device_answered _ _ _ 0x10000000 0x2000000 Dev_plic 4 H); [apply Hf; rewrite !elem_of_cons; auto 10|split; [discriminate|reflexivity]|split; [discriminate|reflexivity]|reflexivity| |split; [reflexivity|exact I]].
    cbn [desc load_config machine_desc plic_base_addr plic_size]. rewrite Ep1, Ep2. reflexivity.
  - apply Forall_map, Forall_forall. intros x Hx. unfold indices in Hx. apply list_elem_of_fmap in Hx as (k & -> & Hk). apply elem_of_seq in Hk. rewrite Nat2Z.id in Hk.
    eapply (device_answered _ _ _ (0x40010000 + Z.of_nat k * 0x1000) 4096 (Dev_virtio (Z.of_nat k)) 7 H);
      [apply (Hv k); lia|unfold in_u; lia|split; [discriminate|reflexivity]|reflexivity|reflexivity|]. split; [reflexivity|]. unfold VIRTIO_IRQ.
    replace (1 + Z.of_nat k) with (Z.of_nat k + 1) by lia. reflexivity.
  - eapply (device_answered _ _ _ 0x54000000 32 Dev_sifive_uart 4 H); [apply Hf; rewrite !elem_of_cons; auto 10|split; [discriminate|reflexivity]|split; [discriminate|reflexivity]|reflexivity|reflexivity|split; [reflexivity|exact I]].
  - eapply (device_answered _ _ _ 0x12002000 0x1000 Dev_dw_apb_uart 7 H); [apply Hf; rewrite !elem_of_cons; auto 10|split; [discriminate|reflexivity]|split; [discriminate|reflexivity]|reflexivity|reflexivity|split; [reflexivity|exact I]].
Qed.

Lemma ram_covers q : startable -> q = ram \/ q = rom -> covers (mkPhysMemoryMap ranges) q.
Proof.
  intros H Hq. assert (q ∈ ranges) as Hin by (apply elem_of_app; left; unfold fixed_ranges; rewrite !elem_of_cons; tauto).
  destruct (range_cases q H Hin) as (B & _). destruct (sa_host H) as (? & ? & ? & ?).
  constructor; [destruct Hq as [->| ->]; reflexivity|destruct Hq as [->| ->]; exact B|destruct Hq as [->| ->]; cbn; lia|].
  intros a Ha. apply (range_found a q H Hin). destruct Hq as [->| ->]; exact Ha.
Qed.

Lemma start_loadable tohost : startable -> loadable cfg ram rom (mkLoader (mkPhysMemoryMap ranges) ∅ tohost (new_harts p n)).
Proof.
  intros H. pose proof (base_bounds H). pose proof (devices_length H). destruct (sa_size H), (sa_clint H) as [Ec1 Ec2], (sa_plic H) as [Ep1 Ep2], (sa_ncpus H), (sa_files H) as [F1 F2], (sa_fw H) as [_ Hraw], (sa_fit H) as [Hf1 Hf2].
  constructor; cbn [desc load_config l_map fw_buf kernel_buf initrd_buf bootrom_file dtb_file cmd_line machine_desc Fdt.ram_base_addr Fdt.ram_size Fdt.ncpus virtio_count].
  - apply ram_covers; auto.
  - apply ram_covers; auto.
  - repeat split; assumption.
  - split; reflexivity.
  - exact (sa_apart H).
  - exact (sa_base H).
  - exact Hraw.
  - rewrite F1, F2. split; reflexivity.
  - constructor; cbn [machine_desc Fdt.ncpus virtio_count Fdt.ram_base_addr clint_base_addr plic_base_addr]; rewrite ?Ec1, ?Ep1; unfold in_u; try lia; split; (discriminate || reflexivity).
  - split; [exact Hf1|]. intros Hk. apply Hf2, Hk.
  - intros Hk. apply Hf2, Hk.
  - exact (sa_initrd H).
  - exact (sa_fdt H).
Qed.

Lemma wf_set_physical_addr_len c v : cpu_wf c -> cpu_wf (c <| physical_addr_len := v |>).
Proof. intros H. wf_set H I. Qed.

Lemma new_harts_wf : startable -> Forall cpu_wf (new_harts p n).
Proof.
  intros H. pose proof (sa_ncpus H). unfold MAX_CPUS in *. apply Forall_map, Forall_forall. intros i Hi. apply elem_of_seq in Hi. unfold compose.
  apply wf_set_physical_addr_len, wf_init; [rewrite (sa_reset H); split; [discriminate|reflexivity]|unfold in_u; lia].
Qed.

(** What is promised of the machine [m], with the device tree [blob] behind its boot code. *)
Record ready (m : RISCVMachine) (blob : list Z) : Prop := mk_ready {
  rd_wf : machine_wf (Z.to_nat n) (List.length devices) (common (sys m)) (sys m);
  rd_harts : forall i, 0 <= i < n -> nth (Z.to_nat i) (cpu_state (devs (sys m))) zero_cpu =
    (boot_hart (p_custom_extension p) i) <| physical_addr_len := s32 (p_physical_addr_len p) |>;
  rd_first : cpu (sys m) = nth 0 (cpu_state (devs (sys m))) zero_cpu;
  rd_ram : covers (mem_map (sys m)) ram;
  rd_fw : bytes_at (hmem (sys m)) ram 0 fw;
  rd_kernel : bytes_at (hmem (sys m)) ram KERNEL_OFFSET kernel;
  rd_initrd : bytes_at (hmem (sys m)) ram (initrd_off cfg) initrd;
  rd_boot : bytes_at (hmem (sys m)) rom 0 (words_bytes (boot_words n (p_ram_base_addr p)));
  rd_fdt : bytes_at (hmem (sys m)) rom (fdt_off cfg) blob;
  rd_devices : exists t, dt_decode blob = Some t /\ t = machine_tree (desc cfg) (default [] (p_cmdline p)) (initrd_span cfg) /\
    Forall (answered (mem_map (sys m)) (n + 1)) (children (child t "soc"));
  rd_virtio : virtio_devs m = devices;
  rd_slots : Forall2 (fun d v => new_virtio host p (fst d) (snd d) = Done v) (virtio_objects console p) (virtio (devs (sys m))) }.

Lemma harts_at i : 0 <= i < n -> nth (Z.to_nat i) (map (riscv_set_debug_mode true) (new_harts p n)) zero_cpu =
  riscv_set_debug_mode true ((riscv_cpu_init (p_reset_vector p) (p_custom_extension p) i) <| physical_addr_len := s32 (p_physical_addr_len p) |>).
Proof.
  intros Hi. unfold new_harts. rewrite map_map.
  set (f := fun x : nat => riscv_set_debug_mode true _). rewrite (nth_indep _ zero_cpu (f 0%nat)) by (rewrite length_map, length_seq; lia).
  rewrite map_nth, seq_nth by lia. unfold f. cbn [Nat.add]. rewrite Z2Nat.id by lia. reflexivity.
Qed.


Lemma debug_physical c v : riscv_set_debug_mode true (c <| physical_addr_len := v |>) = (riscv_set_debug_mode true c) <| physical_addr_len := v |>.
Proof. reflexivity. Qed.

Lemma set_debug_wf c : cpu_wf c -> cpu_wf (riscv_set_debug_mode true c).
Proof. intros H. apply wf_set_debug_mode, H. Qed.

(** The construction, step by step. *)
Lemma init_run : startable -> exists l blob vs, virt_machine_init alloc open_file host console p =
    Done (Some (mkRISCVMachine
      (mkSystem (nth 0 (l_harts l) zero_cpu) (mkVirtMachine false (-1) (-1) (p_maxinsns p) 0) (l_map l) (l_mem l) (new_board console (l_harts l) (map snd vs)))
      (Cosim.mkCosimConfig (l_tohost l) (p_mmio_start p) (p_mmio_end p) (p_mmio_addrset p) (p_skip_commit p))
      devices (match p_input_device p with Some _ => Some (count - 2) | None => None end)
      (match p_input_device p with Some _ => Some (count - 1) | None => None end) (p_reset_vector p) (p_missing_csrs p) (p_snapshot_load_name p))) /\
  loaded cfg ram rom (mkLoader (mkPhysMemoryMap ranges) ∅ (p_htif_base_addr p) (new_harts p n)) l blob /\ hostmem_wf (l_mem l) /\
  Forall2 (constructed host p) (virtio_objects console p) vs /\ Forall slot_ok (map snd vs).
Proof.
  intros H. pose proof (sa_ncpus H). unfold MAX_CPUS in *. pose proof (devices_length H). destruct (bus_made H) as (vs & Fv & Wv).
  destruct (load_run alloc cfg ram rom _ (start_loadable (p_htif_base_addr p) H)) as (l & blob & E & L & W). exists l, blob, vs. split; [|split; [exact L|split; [|split; assumption]]].
  - unfold virt_machine_init. replace (s32 n) with n by (symmetry; apply wraps_small; lia). cbv zeta. unfold MAX_CPUS. destruct (Z.ltb_spec 8 n); [lia|].
    rewrite (register_fixed_run H). cbn [mbind res_bind].
    rewrite (register_virtio_run host console p fixed_ranges vs (sa_input H) Fv) by (rewrite length_objects; cbn [fixed_ranges List.length]; lia).
    assert (List.length vs = List.length devices) as Lv by (rewrite <- (Forall2_length _ _ _ Fv); apply length_objects).
    cbn [mbind res_bind]. destruct (sa_fw H) as [-> _]. rewrite length_objects, Lv. fold ranges. rewrite E, (constructed_fst _ _ _ _ Fv), fst_objects. reflexivity.
  - destruct (sa_bytes H) as (B1 & B2 & B3 & B4). apply W; try assumption. cbn [l_mem]. intros q v Hq. rewrite lookup_empty in Hq. discriminate.
Qed.

Lemma init_ready : startable -> exists m blob, virt_machine_init alloc open_file host console p = Done (Some m) /\ ready m blob.
Proof.
  intros H. destruct (init_run H) as (l & blob & vs & E & (Lf & Lk & Li & Lb & Lt & Ld & _ & Lm & Lh) & W & Fv & Wv). eexists _, blob. split; [exact E|].
  cbn [l_map l_harts] in Lm, Lh. pose proof (sa_ncpus H).
  assert (length (l_harts l) = Z.to_nat n) as Hlen by (rewrite Lh; unfold new_harts; rewrite !length_map, length_seq; reflexivity).
  assert (Forall cpu_wf (l_harts l)) as Hwf by (rewrite Lh; apply Forall_map; eapply Forall_impl; [exact (new_harts_wf H)|]; intros c; apply set_debug_wf).
  constructor; cbn [sys common cpu mem_map hmem devs cpu_state new_board virtio_devs virtio]; rewrite ?Lm; try assumption; try reflexivity.
  - exists 0. split; [rewrite Forall_nth in Hwf; apply Hwf; lia|]. split; [exact W|]. split; [reflexivity|]. split; [exact Hlen|]. split; [reflexivity|].
    split; [cbn [devs new_board virtio]; rewrite length_map, <- (Forall2_length _ _ _ Fv); apply length_objects|].
    constructor; cbn; try (split; (discriminate || reflexivity)); try assumption; try (repeat split; (discriminate || reflexivity)); [rewrite Hlen; lia| |exact (sa_console H)].
    split; [reflexivity|]. change (Forall (in_u 32) (replicate 128 0)). apply Forall_replicate. split; (discriminate || reflexivity).
  - intros i Hi. rewrite Lh, (harts_at i Hi), (sa_reset H), debug_physical. unfold boot_hart. exact eq_refl.
  - apply ram_covers; auto.
  - eexists. split; [exact Ld|]. split; [reflexivity|]. apply tree_answered, H.
  - apply Forall2_fmap_r. eapply Forall2_impl; [exact Fv|]. intros d v [_ Ec]. exact Ec.
Qed.

End Ready.

(** C5 The machine that is built is the one the device tree describes: for the standard machine (one to eight harts,
    RAM at one of the known bases, at most one network interface, four disks and four file systems with mount tags of 2 to 254
    bytes, a console and input devices) with images that fit, [virt_machine_init] succeeds.  The firmware, kernel and initial
    RAM disk are in RAM, the boot code and the device tree in ROM; the device tree decodes to the machine, and each device it
    announces, the virtio devices with their interrupts included, answers all addresses of its window; the slots of the virtio bus
    hold, in order, the devices that the constructors make; every hart waits at the reset vector in debug mode; and the
    machine satisfies the invariant of the execution theorems. *)
Theorem machine_built alloc open_file host console p fw ram_buf rom_buf : startable alloc host console p fw ram_buf rom_buf ->
  exists m blob, virt_machine_init alloc open_file host console p = Done (Some m) /\ ready open_file host console p fw ram_buf rom_buf m blob.
Proof. apply init_ready. Qed.

(** ** Running it *)

Lemma wf_set_ignore_sbi_shutdown c v : cpu_wf c -> cpu_wf (c <| ignore_sbi_shutdown := v |>).
Proof. intros H. wf_set H I. Qed.

Lemma finish_wf k v o m : machine_wf k v (common (sys m)) (sys m) ->
  machine_wf k v (common (sys (finish_machine o m))) (sys (finish_machine o m)).
Proof.
  intros [h (Hc & Hm & _ & Hn & Hh & Hv & Hb)]. exists h. split; [apply wf_set_ignore_sbi_shutdown, Hc|]. split; [exact Hm|]. split; [reflexivity|].
  split; [cbn; rewrite length_map; exact Hn|]. split; [exact Hh|]. split; [exact Hv|]. destruct Hb. constructor; auto; cbn; rewrite ?length_map; [exact bw_hartid|].
  apply Forall_map. eapply Forall_impl; [exact bw_cpus|]. intros c. apply wf_set_ignore_sbi_shutdown.
Qed.

(** C23 The program ends: a machine with one hart that is built from such parameters, with the virtio devices that the
    constructors make, and run with [--maxinsns N] leaves the main loop after at most [N + 1] rounds with a well-formed machine,
    whatever the firmware does, unless an instruction stops the host program on the way; the one other way not to end, on a
    machine with virtio devices only, is a device that walks without end over a descriptor chain of the guest.  (The
    CSR hooks of an embedder, which this program leaves NULL, are taken at their interface [HookLaws].) *)
Theorem program_ends `{VE : VirtioEnv} `{MH : MachineHooks} {HL : HookLaws} alloc open_file host console p fw ram_buf rom_buf o :
  startable alloc host console p fw ram_buf rom_buf -> p_ncpus p = 1 -> 0 < o_maxinsns o < 2 ^ 64 ->
  exists m, virt_machine_init alloc open_file host console p = Done (Some m) /\
    match main_loop (Cosim.htif_tohost_addr (config m)) (S (Z.to_nat (o_maxinsns o))) (sys (finish_machine o m)) with
    | Done (_, s') => exists vm, machine_wf 1 (List.length (virtio_list console p)) vm s'
    | Stop r => host_stop r \/ (r = Endless /\ virtio_list console p <> [])
    end.
Proof.
  intros H Hn Ho. destruct (init_ready alloc open_file host console p fw ram_buf rom_buf H) as (m & blob & E & R). exists m. split; [exact E|].
  pose proof (finish_wf _ _ o m (rd_wf _ _ _ _ _ _ _ _ _ R)) as W. rewrite Hn in W. change (Z.to_nat 1) with 1%nat in W.
  assert (maxinsns (common (sys (finish_machine o m))) = o_maxinsns o) as Em.
  { cbn. rewrite Z.gtb_ltb. destruct (Z.ltb_spec 0 (o_maxinsns o)); [|lia]. destruct (Z.eqb_spec (o_maxinsns o) 0); [lia|reflexivity]. }
  pose proof (main_loop_single (Cosim.htif_tohost_addr (config m)) 1 _ (S (Z.to_nat (o_maxinsns o))) _ (sys (finish_machine o m))
    eq_refl ltac:(rewrite Em; unfold in_u; lia) W ltac:(rewrite Em; lia)) as K.
  destruct (main_loop _ _ _) as [[u s']|r]; [exact K|]. destruct K as [K|[-> K]]; [left; exact K|right]. split; [reflexivity|].
  intros E0. rewrite E0 in K. cbn in K. lia.
Qed.

(** ** A machine with a console, a disk and a file system *)

Definition demo_params : VirtMachineParams :=
  virt_machine_set_defaults <| p_ncpus := 1 |> <| p_ram_size := 0x10000000 |> <| p_tab_drive := [mkVMDriveEntry None (str "root.img")] |>
    <| p_tab_fs := [mkVMFSEntry (str "/dev/root") (str "/tmp")] |> <| p_cmdline := Some (str "root=/dev/vda") |>
    <| p_files := [mkVMFileEntry (Some (str "fw.bin")) (Some [0x6f; 0; 0; 0]); mkVMFileEntry None None;
                   mkVMFileEntry (Some (str "Image")) (Some [1; 2; 3]); mkVMFileEntry None None] |>.
Definition demo_alloc (i : nat) : option Z := match i with O => Some 0x20000000 | 1%nat => Some 0x400000 | _ => None end.
Definition demo_console : option Console := Some (mkConsole [] false []).
Definition demo_host : HostDevices := mkHostDevices (fun _ => [2; 0; 0; 0; 0; 1])
  (fun _ => mkBlockDeviceFile (Some (mkFile (replicate 1024 85) 1024)) 2 BF_MODE_SNAPSHOT [None; None])
  (fun _ => mkFSObject _ _ (@FsDisk.disk_device _ FsDiskSpec.small_host) (Done (FsDisk.mkDisk ∅ ∅ 1 (str "/tmp")))).
Definition no_file (name : list Z) : host_file := ([], 0).

Lemma all_bytes l : forallb (fun b => (0 <=? b) && (b <? 256)) l = true -> is_bytes l.
Proof.
  intros Hl. apply Forall_forall. intros b Hin. rewrite forallb_forall in Hl. apply list_elem_of_In in Hin. specialize (Hl b Hin).
  apply andb_true_iff in Hl as [H1 H2]. apply Z.leb_le in H1. apply Z.ltb_lt in H2. split; assumption.
Qed.

Lemma demo_startable : startable demo_alloc demo_host demo_console demo_params [0x6f; 0; 0; 0] 0x20000000 0x400000.
Proof.
  constructor; try (vm_compute; repeat split; try discriminate; auto; fail).
  - intros i. split; [apply all_bytes; reflexivity|reflexivity].
  - apply Forall_singleton. split; [apply all_bytes; reflexivity|split; vm_compute; discriminate].
  - right. vm_compute. discriminate.
  - repeat split; apply all_bytes; reflexivity.
Qed.

Lemma machine_built_witness : exists m blob, virt_machine_init demo_alloc no_file demo_host demo_console demo_params = Done (Some m) /\
  virtio_devs m = [VirtioConsole; VirtioBlock; Virtio9p] /\ bytes_at (hmem (sys m)) boot_rom_range 256 blob.
Proof.
  destruct (machine_built demo_alloc no_file demo_host demo_console demo_params [0x6f; 0; 0; 0] 0x20000000 0x400000 demo_startable) as (m & blob & E & R).
  exists m, blob. split; [exact E|]. split; [exact (rd_virtio _ _ _ _ _ _ _ _ _ R)|exact (rd_fdt _ _ _ _ _ _ _ _ _ R)].
Defined.

Lemma program_ends_witness : exists m, virt_machine_init demo_alloc no_file demo_host demo_console demo_params = Done (Some m) /\
  match @main_loop demo_env no_hooks softfp (Cosim.htif_tohost_addr (config m)) (S (Z.to_nat 10)) (sys (finish_machine (no_options <| o_maxinsns := 10 |>) m)) with
  | Done (_, s') => exists vm, machine_wf 1 3 vm s'
  | Stop r => host_stop r \/ (r = Endless /\ virtio_list demo_console demo_params <> [])
  end.
Proof.
  destruct (@program_ends demo_env no_hooks _ demo_alloc no_file demo_host demo_console demo_params [0x6f; 0; 0; 0] 0x20000000 0x400000 (no_options <| o_maxinsns := 10 |>) demo_startable) as (m & E & R);
    [reflexivity|split; reflexivity|]. exists m. split; [exact E|exact R].
Defined.
